(* ===== verification/_CoqProject ===== *)
-Q . S2P
Prelude.v
Text.v
Json.v
Quota.v
Auth.v
Templates.v
Workspaces.v
Errors.v
ShrinkOperation.v
RuntimeEvents.v
Quantity.v
Net.v
Database.v
WorkspaceStore.v
JobStore.v
Events.v
JobQueue.v
WorkspaceActions.v
ShrinkStore.v
Reconcile.v
ShrinkHandler.v
JobWorker.v
WorkspaceHandler.v
Injections.v
Materialization.v
Dictionary.v
Catalog.v
Idempotency.v
Crypto.v
InjectionStore.v
Search.v
Creation.v
Usage.v
WorkspaceUpdates.v
Identity.v
ApiKeys.v
Listing.v
Tickets.v
Incidents.v
Names.v
Config.v
Webhooks.v
ControlPlane.v
SshStore.v
Api.v
SshApi.v
WorkspaceResponse.v
WorkspaceApi.v
EventStream.v
AuditStore.v
WorkloadApply.v
KubeApi.v
Gateway.v
ShrinkCluster.v
ShrinkSafety.v
ClusterLifecycle.v
ClusterReconcile.v
Observations.v
ClusterApply.v
ClusterRoutes.v
Manifests.v
NetworkPolicies.v
Pods.v
Builder.v
