(* ===== verification/Prelude.v ===== *)
(** * Memeloop Workspace Control: a verification library

    Memeloop Workspace Control is a control plane for per-user development
    workspaces. It is one Rust service on a SQL database (SQLite or Postgres):
    HTTP requests record the intended state of a workspace in the database and
    queue a background job in the same transaction; workers claim jobs, drive the
    Kubernetes cluster towards the recorded intent and record what they observed.
    This library models that path, from the stored tables and the statements on
    them up to a whole run of a worker, and proves it correct.

    ** Files and sources

    - [Prelude]: results, machine integers (an [i64], [u64] or [u32] is a [Z] with
      its bounds and its saturating or checked operations written out), list and
      boolean automation.
    - [Text], [Json]: what the program uses of Rust strings and of [serde_json].
    - [Quota] ([src/quota.rs]), [Auth] ([src/auth.rs]), [Templates]
      ([src/templates.rs]), [Workspaces] ([src/workspaces.rs]), [Errors]
      ([src/storage/error.rs]): the domain types and their pure operations.
    - [ShrinkOperation]: the data and the pure checks of
      [src/storage/workspace_storage_shrink.rs].
    - [Database]: the tables as finite maps, the monad [DbM] of statements,
      [transaction] with its rollback, and the relations statements preserve
      ([Preserves], [frames], [adds]). The identifiers [Uuid::now_v7] draws are
      numbered; a drawn identifier that is taken violates a primary key, and the
      theorems that need more say so ([fresh_ids]).
    - [WorkspaceStore] ([src/storage/workspace_store], [src/workspace_runtime.rs]):
      reading and decoding a workspace, and the guard against changes while its
      storage is being migrated.
    - [JobStore], [JobQueue] ([src/storage/job_store.rs], [job_types.rs],
      [leases.rs]): the queue's statements, and their properties over every
      interleaving of statements by any workers.
    - [Events] ([src/storage/workspace_events.rs], [webhook_store.rs]): events and
      the webhook deliveries they queue.
    - [WorkspaceActions] ([src/storage/workspace_actions.rs],
      [workspace_observation_jobs.rs]): the transactions that move a workspace.
    - [ShrinkStore] ([src/storage/workspace_storage_shrink.rs]): the transactions
      of a storage migration.
    - [Reconcile] ([src/jobs/kubernetes.rs]) and [ShrinkHandler]
      ([src/jobs/storage_shrink.rs]): the two job handlers. The cluster is the
      class [Coordinator], one operation per method of [KubernetesCoordinator]
      they call; it also decides which database calls are lost.
    - [JobWorker] ([src/jobs.rs]): one run of a worker, over the class
      [JobHandler]; [WorkspaceHandler] builds the handler from the two above,
      discharges [JobHandlerLaws] and states the end-to-end theorems.
    - [Injections] ([src/injections], the resolution of [src/jobs/kubernetes.rs]):
      the cascade of environment variables and files from organization, user and
      workspace, their selection and validation. [Materialization] and
      [Dictionary] ([src/kubernetes/materialization.rs] and its dictionary): the
      data of the Secrets and ConfigMaps they become.
    - [Catalog] ([src/storage/template_store.rs], [node_pool_store.rs],
      [image_policy_store.rs], [runtime_settings.rs]): templates, node pools, image
      policies and the settings of the installation.
    - [Idempotency] ([src/storage/idempotency.rs], [src/api/idempotency.rs]): the
      keys that make a repeated request harmless, with the clients that use them
      as a step relation.
    - [Crypto] ([src/crypto.rs]) and [InjectionStore]
      ([src/storage/injection_store], [injection_reconcile.rs]): the envelope
      cipher over the class [Aead], and the encrypted rows of injections.
    - [Search]: [LIKE] patterns and their escaping, with the semantics of the two
      backends.
    - [Creation] ([src/storage/workspace_store/creation.rs],
      [workspace_admission.rs], [workspace_injection_refs.rs]): the transaction
      that admits and creates a workspace.
    - [WorkspaceUpdates] ([src/storage/workspace_image_update.rs] and its five
      siblings): the updates of a workspace at an expected generation.
    - [Usage] ([src/storage/workspace_store/summary.rs]), [Listing] (the
      [pagination.rs] and [listing.rs] files): summaries and pages.
    - [Identity] ([src/storage/identity], [src/storage/admin_store]) and [ApiKeys]
      ([src/storage/user_settings/api_keys]): accounts, organizations, memberships
      and quotas; keys, their policy, revocation and authentication.
    - [Tickets] ([src/storage/port_mappings.rs], [web_shell.rs]): port mappings and
      the tickets and sessions that open them.
    - [Quantity] ([src/kubernetes/client_home_volume.rs]): the quantities of
      Kubernetes, read into bytes.
    - [RuntimeEvents], [Incidents] ([src/runtime_incidents.rs] and its modules,
      [src/storage/runtime_incidents.rs]): the events of the cluster, their
      classification and the history kept of them.
    - [Net]: IP addresses as [std::net] reads them. [Webhooks]
      ([src/storage/webhook_store.rs]): subscriptions and their validation.
      [ControlPlane] ([src/jobs/webhook.rs]): the delivery of webhooks and the
      handler that dispatches every kind of job, with the worker's theorems for it.
    - [Names] ([src/workspace_runtime.rs], the identifiers of [src/config/mod.rs])
      and [Config] ([src/config/mod.rs]): the names of a workspace's objects, and
      the configuration with its validation.
    - [SshStore] ([src/storage/ssh_identity.rs], [ssh_access.rs],
      [src/ssh_connection.rs]): the host keys of workspaces and who may log in.
    - [Api] ([src/api.rs], [src/api/error.rs] with its modules, [src/api/auth.rs],
      [src/api/idempotency.rs]): the monad [ApiM] of request handlers, which
      alternate transactions with readings of clock and cluster; authentication,
      idempotent execution, and the response every error becomes.
    - [SshApi] ([src/api/ssh.rs]), [WorkspaceResponse]
      ([src/api/workspace_response.rs]), [WorkspaceApi] ([src/api/workspaces.rs],
      [workspaces/creation.rs], [workspace_creation.rs] and the four updates),
      [Gateway] ([src/api/port_mappings.rs], [port_mappings/auth.rs],
      [web_shell.rs]): the request handlers, composed of the transactions above.
    - [EventStream] ([src/api/events.rs], [src/storage/event_store.rs]): the
      stream of events as a state machine over the database, the channel of
      notifications and their failures.
      [AuditStore] ([src/storage/audit_store.rs], [metrics_store.rs]): the audit
      log's pages and the metrics.
    - [KubeApi]: the objects of Kubernetes and the requests the coordinator makes;
      its methods are programs over requests, with a logic that says which
      requests are permitted after which answers. [WorkloadApply]
      ([src/kubernetes/storage_shrink/workload_apply.rs]): what a migration applies
      to a workload. [ShrinkCluster]
      ([src/kubernetes/client_storage_shrink.rs]): the cluster's side of a storage
      migration, an instance of [Coordinator]'s methods; [ShrinkSafety] proves it
      safe against any server.
    - [ClusterLifecycle] ([src/kubernetes/ownership.rs], [client.rs],
      [client_delete.rs], [client_scratch_recovery.rs], [client_home_volume.rs]):
      whose an object is, what is seen of a workspace, its deletion and recovery.
      [ClusterReconcile] makes [Coordinator] of these methods and follows what the
      reconciler records to what the cluster answered.
    - [Observations] ([src/kubernetes/observations.rs]): the watches that wake
      waiting jobs, as a step relation over locked sections.
    - [ClusterApply] ([src/kubernetes/client_apply.rs], [startup_gate.rs],
      [envoy_filter.rs]) and [ClusterRoutes] ([client_apply/port_mappings.rs],
      [http_proxy.rs]): the requests that bring the objects of a workspace to what is
      wanted, in any order in which two methods may make them.
    - [Manifests] ([src/kubernetes/resource_helpers.rs], [higress.rs],
      [envoy_filter.rs], [port_mappings.rs], [http_proxy.rs]), [NetworkPolicies]
      ([network_policy.rs], [internet_egress.rs]) and [Pods] ([workspace_pod.rs],
      [buildkit.rs], [workload.rs], [workload_ttyd.rs]): the objects that are wanted.
      [Builder] ([src/kubernetes/builder.rs], [materialization.rs], [client.rs],
      [src/jobs/kubernetes.rs]) assembles them with injections and SSH identity,
      applies them, and follows them to the requests that are sent.

    Both database backends run the same statements up to placeholders and
    locking, so a pair such as [apply_sqlite] and [apply_postgres] is one
    definition; where they differ in effect ([LIKE]) the class [SqlBackend] says
    which one runs.

    ** What is proved

    - The queue: a lease excludes other workers until it expires; a claim takes
      the first due job; rows stay well formed and finished jobs final under any
      interleaving; waiting is not counted as an attempt; a parked job is woken by
      its own descriptor and by no stale one; workspace leases exclude each other.
    - The worker: a successful run has settled the job it claimed, exactly as the
      end of the run asks for: completed, counted as a failure and repeated after a
      growing delay or failed for good, handed back, or parked; and no run touches
      another job, whatever cluster, handler and heartbeat do.
    - The lifecycle: in every history of actions, observations and failures a row
      moves with the operations that report it and as the relation [lifecycle] of
      states allows, and with nothing else; actions commit all or nothing with
      exactly one job; stale observations are ignored; a confirmed deletion erases
      the workspace and nothing else; reconciling never starts what was not meant
      to run.
    - Storage migration: at most one active operation; it blocks other changes of
      intent; its phases follow one graph under any failure; volumes are switched
      to only when verified and old ones reclaimed only when that was decided.
      [lost_switch_is_recorded_as_switched] and
      [lost_reclaim_record_stops_workspace] show two failure paths in which the
      handler stores a state it has not reached. On the cluster, whatever it
      answers and whoever else changes it: until a copy is verified nothing is
      deleted; helper Pods are confined and their reports not forged; only what was
      replaced is reclaimed, by its UID, and completion is reported when it was
      seen to be gone; what is applied to a workload is what the control plane owns
      of it.
    - The cluster: a workspace's deletion takes its own objects and all of them; the
      reconciler records only states that were seen; a workload starts isolated and
      with its inputs in place, or behind a gate that is created after them; its
      routes become what its mappings say, and nothing foreign is touched; its
      policies let in and out what they should, whatever networks are blocked. Every
      object that is sent, but for the namespace, carries its address and its owner, so
      that no later deletion leaves it behind (a scratch claim that is recorded as kept
      aside); the workload selects its own Pods, its volumes and mounts fit, it is
      confined and keeps the environment of the platform ([home_may_collide] shows a
      valid template whose Pod cannot be made).
    - The watch: no wake-up of a waiting job is lost however events, registrations,
      deliveries and failures interleave; a job that need not wait does not;
      deliveries end and leave nothing in flight; a lost Pod is looked at.
    - Injections: the cascade is characterised by a declarative rule; a locked item
      of the organization cannot be evaded; secret values are stored in Secrets
      only; compression of large files loses nothing.
      [same_ssh_name_cannot_be_materialised] and [valid_key_not_referable] show
      items that one part accepts and another can not handle.
    - Requests: a key guards one execution under any interleaving of requests and
      every replay is the answer of that execution.
    - Creation and updates: a creation or an update commits a row that reads back
      as the workspace it returns, together with its job, or changes nothing;
      quotas, unique names, unique volume claims and existing pools are invariants;
      of the updates decided on one generation at most one succeeds.
    - The catalogue: stored templates stay valid documents whose pools exist, and
      the two backends record the same pools although they query differently.
    - Identity: an organization keeps an active administrator and the installation
      a system administrator; a key authenticates exactly until it expires or is
      revoked, keys are bounded in number and lifetime, and a user cannot revoke
      the last key that recovers the account.
    - Secrets and tickets: a stored injection decrypts to what was stored and only
      in its own place; a ticket is good for one use and opens a session for its
      user and mapping only.
    - Reading: following the cursors of a listing ends and visits every row once; a
      cursor of another listing is refused; a search is literal
      ([unescaped_search_is_a_pattern] shows two searches that are not); the two
      summaries of usage agree.
    - Incidents: recording the observations of a scan keeps, per incident, the
      highest count and the latest details whatever their order; a workspace keeps
      its newest 200, and reading them succeeds.
    - Webhooks: a delivery is posted once, to the endpoint of its subscription,
      signed with its secret, for events of its organization only.
      [bracketed_hosts_pass] shows that the check of the endpoint never sees an
      IPv6 address as one.
    - Requests: one changes nothing unless a valid key permits it
      ([list_ignores_template_bound] shows a listing that shows too much); a
      retried request is answered byte for byte as the first time; what plugins
      admit is what is created; waiting for a workspace ends; every error, those of
      plugin packages aside, becomes a response that says nothing of an internal failure
      ([plugin_codes_have_two_statuses] shows codes with two statuses).
    - Connections: details are given only to who may connect to a ready workspace,
      and a name cannot add directives to an SSH configuration; the SSH gateway
      admits the keys of members only, for the one port of the workspace; a port
      mapping is passed with a live session or an open ticket only, and the
      address a user is given does lead in.
    - Streams and reports: a stream sends every event once and in order while
      events commit in the order of their identifiers ([late_event_is_missed]
      shows what happens otherwise); it catches up when it polls, and when it
      listens reads a page of 100 for each notification ([stream_stalls] shows one
      that stays behind); the audit log is paged completely; metrics
      add up; the names of workspaces' objects never collide.
    - The pure components: exact capacities ([capacity_exact]), quota admission,
      organization boundaries, API-key defaults, template bounds, CPU requests.

    ** Conventions and limits

    Definitions are executable and total: recursion is structural (on lists, on
    wake-ups, on the handler's future [Handling]), so no fuel is needed, with
    four exceptions: [Listing.walk] and the reader of the audit log count their
    requests, and one more than there are rows is proved to be enough;
    [WorkspaceApi.wait_loop] counts the readings of a workspace, four for every
    second of the timeout and one more, which is proved to be enough;
    [Observations.repair] counts the pages of parked jobs, one more than there are
    jobs, which [repair_ends] proves to be enough. The depth at which [WorkloadApply] stops is the source's own. A failure
    that the code propagates is a value of [result]. A transaction is atomic:
    isolation of concurrent transactions is the database's, and interleavings are
    sequences of whole statements or transactions. [FOR UPDATE SKIP LOCKED] can
    make a claim on Postgres pass over a row another claim is taking at that
    moment; the model has the claims one after the other.

    External code is a class with its laws where a theorem needs them, and each
    has an instance in the samples of the file that uses it: the cipher ([Aead]),
    base64, SHA-256, random bytes, [serde_json] of cursors and snapshots, the
    Unicode tables of lower-casing and [str::trim], URLs, HMAC and the HTTP client
    of webhooks, [ssh-keygen], the texts of errors, the JSON of requests and
    responses, the cluster as handlers read it ([ApiCluster]), the admission of
    plugins, the clock, the Kubernetes API server ([KubeServer]) with the decoding
    of its workloads, the scripts of the helper Pods and their report, the texts of
    errors of ownership ([OwnershipErrorText]), networks and their texts
    ([IpNets]), SHA-256 and JSON of routes ([RouteText]), the JSON of the manifests of
    injections ([ManifestJson]), the script that the workspace's image starts
    ([BootstrapScript]) and the texts of errors of materialisation. Where methods run requests
    at once, the order is a schedule over which theorems are general.

    A handler of a request runs its transactions one after the other; what other
    requests do in between is not interleaved with it. A database call can be lost
    ([api_lost]), and then has had no effect.

    Not modelled: the decoding of requests; the refreshing of network policies and addresses; the execution of plugins and
    their stores; the tasks that open the watches and their timers; the pool of
    worker slots; schema migration and transfer; start-up; and the request handlers
    of administration and runtime views. *)
From stdpp Require Export base gmap strings list fin_maps sorting.
From Stdlib Require Export ZArith Lia.
From Stdlib Require DecimalString DecimalN.

#[global] Open Scope Z_scope.
#[global] Set Default Goal Selector "!".

(** ** Results

    Rust's [Result<A, E>]. [Err] keeps the error as a value, so that a theorem
    can name the error a branch returns. *)
Inductive result (E A : Type) : Type :=
  | Ok (a : A)
  | Err (e : E).
Arguments Ok {E A} a.
Arguments Err {E A} e.

#[global] Instance result_ret E : MRet (result E) := fun A a => Ok a.
#[global] Instance result_bind E : MBind (result E) := fun A B f m =>
  match m with Ok a => f a | Err e => Err e end.
#[global] Instance result_fmap E : FMap (result E) := fun A B f m =>
  match m with Ok a => Ok (f a) | Err e => Err e end.

(** [Option::ok_or]. *)
Definition ok_or {E A : Type} (o : option A) (e : E) : result E A :=
  match o with Some a => Ok a | None => Err e end.

(** [Result::map_err]. *)
Definition map_err {E F A : Type} (f : E → F) (r : result E A) : result F A :=
  match r with Ok a => Ok a | Err e => Err (f e) end.

Definition is_err {E A : Type} (r : result E A) : bool :=
  match r with Ok _ => false | Err _ => true end.

(** [Option::is_some_and], [Option::is_none_or] and [Option::or]. *)
Definition is_some_and {A : Type} (o : option A) (p : A → bool) : bool :=
  match o with Some a => p a | None => false end.
Definition is_none_or {A : Type} (o : option A) (p : A → bool) : bool :=
  match o with Some a => p a | None => true end.
Definition option_or {A : Type} (o o' : option A) : option A :=
  match o with Some a => Some a | None => o' end.
Definition is_some {A : Type} (o : option A) : bool :=
  match o with Some _ => true | None => false end.

(** [if !b { return Err(e) }]. *)
Definition ensure {E : Type} (b : bool) (e : E) : result E () :=
  if b then Ok () else Err e.

(** [rows.into_iter().map(f).collect::<Result<Vec<_>, _>>()]. *)
Fixpoint collect {E A B : Type} (f : A → result E B) (l : list A) : result E (list B) :=
  match l with
  | [] => Ok []
  | x :: l' => y ← f x; ys ← collect f l'; Ok (y :: ys)
  end.

(** ** Machine integers

    A w-bit integer is a [Z]; the bounds and the overflow behaviour of the
    operations the code uses are written out here. *)
Definition u16_max : Z := 65535.
Definition u32_max : Z := 4294967295.
Definition u64_max : Z := 18446744073709551615.
Definition i64_max : Z := 9223372036854775807.
Definition i64_min : Z := -9223372036854775808.

Definition in_u16 (z : Z) : bool := (0 <=? z) && (z <=? u16_max).
Definition in_u32 (z : Z) : bool := (0 <=? z) && (z <=? u32_max).
Definition in_u64 (z : Z) : bool := (0 <=? z) && (z <=? u64_max).
Definition in_i64 (z : Z) : bool := (i64_min <=? z) && (z <=? i64_max).

Definition guard_range (ok : Z → bool) (z : Z) : option Z :=
  if ok z then Some z else None.

(** [u64::checked_add], [u32::checked_add], [i64::checked_add],
    [u64::checked_mul] and the [try_from] conversions. *)
Definition checked_add_u64 (a b : Z) : option Z := guard_range in_u64 (a + b).
Definition checked_add_u32 (a b : Z) : option Z := guard_range in_u32 (a + b).
Definition checked_add_i64 (a b : Z) : option Z := guard_range in_i64 (a + b).
Definition checked_mul_u64 (a b : Z) : option Z := guard_range in_u64 (a * b).
Definition i64_try_from (z : Z) : option Z := guard_range in_i64 z.
Definition u64_try_from (z : Z) : option Z := guard_range in_u64 z.
Definition u32_try_from (z : Z) : option Z := guard_range in_u32 z.

(** [i64::saturating_add] and [i64::saturating_sub]. *)
Definition clamp_i64 (z : Z) : Z := Z.max i64_min (Z.min i64_max z).
Definition saturating_add_i64 (a b : Z) : Z := clamp_i64 (a + b).
Definition saturating_sub_i64 (a b : Z) : Z := clamp_i64 (a - b).

(** ** Identifiers

    A [Uuid] is its 128-bit value; the order of the values is the order of the
    hyphenated lower-case texts the database compares. Printing and parsing
    identifiers is the [uuid] crate's: an interface, with the documented law
    that parsing a printed identifier gives it back. *)
Abbreviation Uuid := N.

Class UuidText := {
  uuid_to_string : Uuid → string;  (** [Uuid::to_string] *)
  uuid_simple : Uuid → string;     (** [Uuid::simple().to_string()] *)
  uuid_parse_str : string → option Uuid;
}.

Class UuidTextLaws `{UuidText} : Prop := {
  uuid_parse_to_string u : uuid_parse_str (uuid_to_string u) = Some u;
}.

#[export] Instance uuid_to_string_inj `{UuidTextLaws} : Inj (=) (=) uuid_to_string.
Proof. intros u v E. apply (inj Some). by rewrite <-!uuid_parse_to_string, E. Qed.

(** Decimal printing meets the interface; the witnesses use it. *)
Definition decimal_uuid_text : UuidText := {|
  uuid_to_string u := DecimalString.NilEmpty.string_of_uint (N.to_uint u);
  uuid_simple u := DecimalString.NilEmpty.string_of_uint (N.to_uint u);
  uuid_parse_str s := N.of_uint <$> DecimalString.NilEmpty.uint_of_string s;
|}.

Lemma decimal_uuid_text_laws : @UuidTextLaws decimal_uuid_text.
Proof. constructor. intros u; cbn. rewrite DecimalString.NilEmpty.usu; cbn. by rewrite DecimalN.Unsigned.of_to. Qed.

(** ** Tactics and hints *)
Create HintDb mwc.
Create HintDb mwc_unfold.
#[export] Hint Unfold checked_add_u64 checked_add_u32 checked_add_i64 checked_mul_u64
  i64_try_from u64_try_from u32_try_from guard_range in_u16 in_u32 in_u64 in_i64
  saturating_add_i64 saturating_sub_i64 clamp_i64
  u16_max u32_max u64_max i64_max i64_min : mwc_unfold.

(** Turn boolean tests in the hypotheses and the goal into propositions. *)
Ltac bool_prop :=
  repeat first
    [ rewrite andb_true_iff in * | rewrite orb_true_iff in *
    | rewrite andb_false_iff in * | rewrite orb_false_iff in *
    | rewrite negb_true_iff in * | rewrite negb_false_iff in *
    | rewrite Z.leb_le in * | rewrite Z.ltb_lt in * | rewrite Z.eqb_eq in *
    | rewrite Z.leb_gt in * | rewrite Z.ltb_ge in * | rewrite Z.eqb_neq in *
    | rewrite bool_decide_eq_true in * | rewrite bool_decide_eq_false in * ];
  destruct_and?.

Ltac width := autounfold with mwc_unfold in *; bool_prop; try lia.

(** Split every [match]/[if] of the hypotheses on its scrutinee, dropping the
    branches that contradict what is known. *)
Ltac split_matches :=
  repeat (case_match; simplify_eq/=; try done).

(** Case on the outermost [if] of the goal's conclusion or first premise. *)
Tactic Notation "split_if" "as" ident(H) :=
  lazymatch goal with
  | |- (if ?b then _ else _) = _ → _ => destruct b eqn:H
  | |- (if ?b then _ else _) = _ => destruct b eqn:H
  end; try done.

(** ** Generic lemmas *)
Lemma guard_range_Some ok z z' : guard_range ok z = Some z' ↔ z' = z ∧ ok z = true.
Proof. unfold guard_range. destruct (ok z); split; intros; destruct_and?; simplify_eq; auto. Qed.

Lemma checked_add_u64_Some a b c :
  checked_add_u64 a b = Some c ↔ c = a + b ∧ 0 <= a + b <= u64_max.
Proof. unfold checked_add_u64. rewrite guard_range_Some. unfold in_u64. bool_prop. tauto. Qed.

Lemma checked_add_u32_Some a b c :
  checked_add_u32 a b = Some c ↔ c = a + b ∧ 0 <= a + b <= u32_max.
Proof. unfold checked_add_u32. rewrite guard_range_Some. unfold in_u32. bool_prop. tauto. Qed.

Lemma checked_add_i64_Some a b c :
  checked_add_i64 a b = Some c ↔ c = a + b ∧ i64_min <= a + b <= i64_max.
Proof. unfold checked_add_i64. rewrite guard_range_Some. unfold in_i64. bool_prop. tauto. Qed.

Lemma bind_Ok {E A B} (m : result E A) (k : A → result E B) b :
  (m ≫= k) = Ok b ↔ ∃ a, m = Ok a ∧ k a = Ok b.
Proof. destruct m; cbn; split; [eauto|intros (?&?&?)|done|intros (?&?&?)]; congruence. Qed.

Lemma ok_or_Ok {E A} (o : option A) (e : E) a : ok_or o e = Ok a ↔ o = Some a.
Proof. destruct o; cbn; naive_solver. Qed.

Lemma ensure_Ok {E} b (e : E) u : ensure b e = Ok u ↔ b = true.
Proof. destruct b, u; cbn; naive_solver. Qed.

Lemma is_some_and_true {A} (o : option A) p : is_some_and o p = true ↔ ∃ a, o = Some a ∧ p a = true.
Proof. destruct o; cbn; split; [eauto|intros (?&[= ->]&?); done|done|intros (?&?&?); done]. Qed.

Lemma is_some_true {A} (o : option A) : is_some o = true ↔ ∃ a, o = Some a.
Proof. destruct o; cbn; split; [eauto|done|done|intros [? ?]; done]. Qed.

(** Fallible conversion of the rows of a query. *)
Lemma collect_Ok {E A B} (f : A → result E B) l ys : collect f l = Ok ys ↔ Forall2 (λ x y, f x = Ok y) l ys.
Proof.
  revert ys. induction l as [|x l IH]; intros ys; cbn.
  - split; [intros [= <-]; constructor|by inversion 1].
  - rewrite bind_Ok. setoid_rewrite bind_Ok. split.
    + intros (y & Hy & ys' & Hys & [= <-]). constructor; [done|]. by apply IH.
    + inversion 1 as [|? y ? ys' Hy Hys]; subst. exists y. split; [done|]. exists ys'. split; [by apply IH|done].
Qed.

(** Take the [is_some_and] tests of the hypotheses apart. *)
Ltac inv_some_and :=
  bool_prop;
  repeat match goal with
  | H : is_some_and _ _ = true |- _ => apply is_some_and_true in H as (? & ? & ?); bool_prop
  end; simplify_eq.

(** Take a successful chain of [?] apart: every step succeeded. *)
Ltac inv_binds :=
  repeat match goal with
  | H : (_ ≫= _) = Ok _ |- _ =>
      let a := fresh "a" in let Ha := fresh "Hstep" in
      apply bind_Ok in H as (a & Ha & H)
  | H : ensure _ _ = Ok _ |- _ => apply ensure_Ok in H
  | H : ok_or _ _ = Ok _ |- _ => apply ok_or_Ok in H
  | u : () |- _ => destruct u
  end.

(** *** The first element of a list in a given order

    What [ORDER BY ... LIMIT 1] selects. *)
Section FirstBy.
Context {A : Type} (before : A → A → bool).

Fixpoint first_by (l : list A) : option A :=
  match l with
  | [] => None
  | x :: l' =>
      match first_by l' with
      | None => Some x
      | Some y => if before y x then Some y else Some x
      end
  end.

Lemma first_by_elem l x : first_by l = Some x → x ∈ l.
Proof.
  revert x; induction l as [|a l IH]; intros x; cbn; [done|].
  destruct (first_by l) as [y|]; [destruct (before y a)|]; intros; simplify_eq;
    rewrite elem_of_cons; eauto.
Qed.

Lemma first_by_None l : first_by l = None ↔ l = [].
Proof.
  destruct l as [|a l]; cbn; [done|].
  destruct (first_by l) as [y|]; [destruct (before y a)|]; split; done.
Qed.

Hypothesis before_total : ∀ x y, before x y = false → before y x = true.
Hypothesis before_trans : ∀ x y z, before x y = true → before y z = true → before x z = true.

Lemma before_refl x : before x x = true.
Proof using before_total. destruct (before x x) eqn:E; [done|]. pose proof (before_total _ _ E). congruence. Qed.

Lemma first_by_least l x : first_by l = Some x → ∀ y, y ∈ l → before x y = true.
Proof using before_total before_trans.
  revert x; induction l as [|a l IH]; intros x; cbn; [done|].
  destruct (first_by l) as [m|] eqn:Hm; [destruct (before m a) eqn:Hma|];
    intros [= <-] y [->|Hy]%elem_of_cons;
    eauto using before_refl.
  apply first_by_None in Hm as ->. by apply not_elem_of_nil in Hy.
Qed.
End FirstBy.

(** *** Row selection on tables *)
Lemma elem_of_filter_table {K V} `{Countable K} (P : K * V → Prop) `{∀ x, Decision (P x)}
    (m : gmap K V) kv :
  kv ∈ filter P (map_to_list m) ↔ P kv ∧ m !! kv.1 = Some kv.2.
Proof. destruct kv as [k v]. rewrite list_elem_of_filter, elem_of_map_to_list. done. Qed.

Lemma StronglySorted_list_filter {A} (R : relation A) (p : A → bool) l : StronglySorted R l → StronglySorted R (List.filter p l).
Proof.
  induction 1 as [|x l Hl IH Hx]; cbn; [constructor|]. destruct (p x); [|done]. constructor; [done|].
  rewrite Forall_forall in Hx |- *. intros y Hy. apply Hx. rewrite list_elem_of_In in Hy |- *. by apply filter_In in Hy as [? _].
Qed.

Lemma list_filter_Permutation {A} (f : A → bool) (l k : list A) : l ≡ₚ k → List.filter f l ≡ₚ List.filter f k.
Proof.
  induction 1 as [|x l k _ IH|x y l|l k j _ IH1 _ IH2]; cbn; [done| | |by etrans].
  - destruct (f x); [by constructor|done].
  - destruct (f x), (f y); try done. constructor.
Qed.

Lemma list_filter_filter {A} (p q : A → bool) l : List.filter p (List.filter q l) = List.filter (λ x, q x && p x) l.
Proof. induction l as [|x l IH]; cbn; [done|]. destruct (q x); cbn; [destruct (p x)|]; by rewrite IH. Qed.
