(* ===== verification/Text.v ===== *)
(** * Text

    What the validators use of Rust's [str] and [char]: a [&str] is a byte
    string; [chars] decodes UTF-8 (a [&str] is always valid UTF-8); [is_whitespace]
    and [is_control] are the Unicode properties of the standard library, on code
    points. *)
From S2P Require Import Prelude.

Definition bytes (s : string) : list Z :=
  map (λ a, Z.of_N (Ascii.N_of_ascii a)) (String.list_ascii_of_string s).

(** [str::len] counts bytes. *)
Definition len (s : string) : Z := Z.of_nat (String.length s).

(** UTF-8 decoding of a valid byte sequence; a continuation byte contributes its
    low six bits. *)
Fixpoint decode_utf8 (bs : list Z) : list Z :=
  match bs with
  | [] => []
  | a :: bs1 =>
      if a <? 128 then a :: decode_utf8 bs1
      else if a <? 224 then
        match bs1 with
        | b :: bs2 => (Z.land a 31 * 64 + Z.land b 63) :: decode_utf8 bs2
        | [] => []
        end
      else if a <? 240 then
        match bs1 with
        | b :: c :: bs3 => (Z.land a 15 * 4096 + Z.land b 63 * 64 + Z.land c 63) :: decode_utf8 bs3
        | _ => []
        end
      else
        match bs1 with
        | b :: c :: d :: bs4 =>
            (Z.land a 7 * 262144 + Z.land b 63 * 4096 + Z.land c 63 * 64 + Z.land d 63)
              :: decode_utf8 bs4
        | _ => []
        end
  end.

Definition chars (s : string) : list Z := decode_utf8 (bytes s).

(** ** Character classes *)
Definition in_range (lo hi c : Z) : bool := (lo <=? c) && (c <=? hi).
Definition is_ascii_lowercase (c : Z) : bool := in_range 97 122 c.
Definition is_ascii_uppercase (c : Z) : bool := in_range 65 90 c.
Definition is_ascii_digit (c : Z) : bool := in_range 48 57 c.
Definition is_ascii_alphabetic (c : Z) : bool := is_ascii_lowercase c || is_ascii_uppercase c.
Definition is_ascii_alphanumeric (c : Z) : bool := is_ascii_alphabetic c || is_ascii_digit c.

(** [char::is_control]: category Cc. *)
Definition is_control (c : Z) : bool := in_range 0 31 c || in_range 127 159 c.

(** [char::is_whitespace]: property White_Space. *)
Definition is_whitespace (c : Z) : bool :=
  in_range 9 13 c || (c =? 32) || (c =? 133) || (c =? 160) || (c =? 5760) ||
  in_range 8192 8202 c || (c =? 8232) || (c =? 8233) || (c =? 8239) || (c =? 8287) || (c =? 12288).

Definition c_slash : Z := 47.
Definition c_dash : Z := 45.
Definition c_dot : Z := 46.
Definition c_underscore : Z := 95.
Definition c_space : Z := 32.

(** ** Trimming and splitting *)
Fixpoint trim_start (cs : list Z) : list Z :=
  match cs with
  | [] => []
  | c :: cs' => if is_whitespace c then trim_start cs' else cs
  end.
Definition trim (cs : list Z) : list Z := reverse (trim_start (reverse (trim_start cs))).

(** UTF-8 encoding of a code point. *)
Definition encode_char (c : Z) : list Z :=
  if c <? 128 then [c]
  else if c <? 2048 then [192 + c / 64; 128 + c mod 64]
  else if c <? 65536 then [224 + c / 4096; 128 + (c / 64) mod 64; 128 + c mod 64]
  else [240 + c / 262144; 128 + (c / 4096) mod 64; 128 + (c / 64) mod 64; 128 + c mod 64].

Definition string_of_bytes (bs : list Z) : string :=
  String.string_of_list_ascii (map (λ b, Ascii.ascii_of_N (Z.to_N b)) bs).
Definition string_of_chars (cs : list Z) : string := string_of_bytes (mbind encode_char cs).

(** [String::from_utf8] accepts exactly these byte sequences. *)
Definition continuation (b : Z) : bool := (128 <=? b) && (b <=? 191).
Fixpoint valid_utf8 (bs : list Z) : bool :=
  match bs with
  | [] => true
  | a :: bs1 =>
      if (0 <=? a) && (a <=? 127) then valid_utf8 bs1
      else if (194 <=? a) && (a <=? 223) then
        match bs1 with b :: bs2 => continuation b && valid_utf8 bs2 | [] => false end
      else if (224 <=? a) && (a <=? 239) then
        match bs1 with
        | b :: c :: bs3 =>
            (if a =? 224 then (160 <=? b) && (b <=? 191)
             else if a =? 237 then (128 <=? b) && (b <=? 159) else continuation b)
            && continuation c && valid_utf8 bs3
        | _ => false
        end
      else if (240 <=? a) && (a <=? 244) then
        match bs1 with
        | b :: c :: d :: bs4 =>
            (if a =? 240 then (144 <=? b) && (b <=? 191)
             else if a =? 244 then (128 <=? b) && (b <=? 143) else continuation b)
            && continuation c && continuation d && valid_utf8 bs4
        | _ => false
        end
      else false
  end.

(** [s.trim().to_owned()]. *)
Definition trimmed (s : string) : string := string_of_chars (trim (chars s)).

(** [s != s.trim()] is decided on the decoded characters. *)
Definition is_trimmed (s : string) : bool := bool_decide (trim (chars s) = chars s).

(** [str::split] on a one-byte separator. *)
Fixpoint split_on (sep : Z) (bs : list Z) : list (list Z) :=
  match bs with
  | [] => [[]]
  | b :: bs' =>
      if b =? sep then [] :: split_on sep bs'
      else match split_on sep bs' with
           | part :: parts => (b :: part) :: parts
           | [] => [[b]]
           end
  end.

Definition starts_with (p : Z → bool) (bs : list Z) : bool :=
  match bs with b :: _ => p b | [] => false end.
Definition ends_with (p : Z → bool) (bs : list Z) : bool :=
  match last bs with Some b => p b | None => false end.

(** [str::to_ascii_lowercase]. *)
Definition ascii_lower (c : Z) : Z := if is_ascii_uppercase c then c + 32 else c.
Definition to_ascii_lowercase (s : string) : list Z := map ascii_lower (bytes s).

(** [str::strip_prefix], [str::strip_suffix] and [str::contains]. *)
Fixpoint strip_prefix (prefix bs : list Z) : option (list Z) :=
  match prefix, bs with
  | [], _ => Some bs
  | p :: prefix', b :: bs' => if p =? b then strip_prefix prefix' bs' else None
  | _ :: _, [] => None
  end.
Definition strip_suffix (suffix bs : list Z) : option (list Z) :=
  reverse <$> strip_prefix (reverse suffix) (reverse bs).
Fixpoint contains (needle bs : list Z) : bool :=
  is_some (strip_prefix needle bs) || match bs with [] => false | _ :: bs' => contains needle bs' end.

(** [str::split_once]: the parts around the first occurrence. *)
Fixpoint split_once (sep bs : list Z) : option (list Z * list Z) :=
  match strip_prefix sep bs with
  | Some rest => Some ([], rest)
  | None =>
      match bs with
      | [] => None
      | b :: bs' => (λ parts, (b :: parts.1, parts.2)) <$> split_once sep bs'
      end
  end.

(** ** Lemmas *)
Fixpoint join (sep : Z) (parts : list (list Z)) : list Z :=
  match parts with
  | [] => []
  | [part] => part
  | part :: parts' => part ++ sep :: join sep parts'
  end.

Lemma split_on_ne_nil sep bs : split_on sep bs ≠ [].
Proof. destruct bs as [|b bs]; cbn; [done|]. destruct (b =? sep); [done|]. by destruct (split_on sep bs). Qed.

(** Joining the parts gives the text back, and no part contains the separator. *)
Lemma join_split_on sep bs : join sep (split_on sep bs) = bs.
Proof.
  induction bs as [|b bs IH]; cbn; [done|].
  pose proof (split_on_ne_nil sep bs) as Hne.
  destruct (Z.eqb_spec b sep) as [->|]; destruct (split_on sep bs) as [|p [|q ps]] eqn:E; cbn in *;
    by rewrite ?IH || congruence.
Qed.

Lemma split_on_no_sep sep bs part : part ∈ split_on sep bs → sep ∉ part.
Proof.
  revert part; induction bs as [|b bs IH]; intros part; cbn.
  - intros ->%list_elem_of_singleton. apply not_elem_of_nil.
  - destruct (Z.eqb_spec b sep) as [->|].
    + intros [->|Hin]%elem_of_cons; [apply not_elem_of_nil|eauto].
    + pose proof (split_on_ne_nil sep bs) as Hne.
      destruct (split_on sep bs) as [|p ps] eqn:E; [done|].
      intros [->|Hin]%elem_of_cons.
      * rewrite not_elem_of_cons. split; [done|]. apply IH. apply elem_of_cons; auto.
      * apply IH. apply elem_of_cons; auto.
Qed.

Lemma forallb_elem {A} (p : A → bool) l x : forallb p l = true → x ∈ l → p x = true.
Proof. rewrite forallb_forall. intros H Hx. by apply H, list_elem_of_In. Qed.

Lemma strip_prefix_Some prefix bs rest : strip_prefix prefix bs = Some rest ↔ bs = prefix ++ rest.
Proof.
  revert bs; induction prefix as [|p prefix IH]; intros [|b bs]; cbn; [naive_solver..|].
  destruct (Z.eqb_spec p b) as [->|]; [rewrite IH|]; split; intros; simplify_eq; done.
Qed.

Lemma strip_suffix_Some suffix bs rest : strip_suffix suffix bs = Some rest ↔ bs = rest ++ suffix.
Proof.
  unfold strip_suffix. rewrite fmap_Some. setoid_rewrite strip_prefix_Some. split.
  - intros (r & E & ->). apply (f_equal reverse) in E. by rewrite reverse_app, !reverse_involutive in E.
  - intros ->. exists (reverse rest). by rewrite reverse_app, reverse_involutive.
Qed.

Lemma split_once_Some sep bs l r :
  sep ≠ [] → split_once sep bs = Some (l, r) → bs = l ++ sep ++ r.
Proof.
  intros Hsep. revert l; induction bs as [|b bs IH]; intros l; cbn [split_once].
  - destruct (strip_prefix sep []) eqn:E; [|done].
    apply strip_prefix_Some in E. by destruct sep.
  - destruct (strip_prefix sep (b :: bs)) as [rest|] eqn:E.
    + intros [= <- <-]. by apply strip_prefix_Some in E.
    + intros ([l' r'] & Hs & [= -> ->])%fmap_Some. cbn. f_equal. by apply IH.
Qed.

Lemma string_of_bytes_bytes s : string_of_bytes (bytes s) = s.
Proof.
  unfold string_of_bytes, bytes. rewrite List.map_map.
  rewrite (List.map_ext _ id); [rewrite List.map_id; apply String.string_of_list_ascii_of_string|].
  intros a. by rewrite N2Z.id, Ascii.ascii_N_embedding.
Qed.

#[global] Instance bytes_inj : Inj (=) (=) bytes.
Proof. intros s t E. by rewrite <-(string_of_bytes_bytes s), E, string_of_bytes_bytes. Qed.

Lemma bytes_app s t : bytes (s +:+ t) = bytes s ++ bytes t.
Proof.
  unfold bytes. induction s as [|a s IH]; [done|].
  change (String a s +:+ t) with (String a (s +:+ t)). cbn. by rewrite IH.
Qed.

Lemma bytes_suffix s a b : bytes s = a ++ b → bytes (string_of_bytes b) = b.
Proof.
  intros E. assert (∀ x, x ∈ b → ∃ c, x = Z.of_N (Ascii.N_of_ascii c)) as Hb.
  { intros x Hx. assert (x ∈ bytes s) as Hin by (rewrite E; apply elem_of_app; by right).
    unfold bytes in Hin. apply list_elem_of_In, in_map_iff in Hin as (c & <- & _). by exists c. }
  clear E. unfold bytes, string_of_bytes. rewrite String.list_ascii_of_string_of_list_ascii, List.map_map.
  induction b as [|x b IH]; [done|]. cbn. f_equal; [|apply IH; intros y Hy; apply Hb; by right].
  destruct (Hb x) as [c ->]; [left|]. by rewrite N2Z.id, Ascii.ascii_N_embedding.
Qed.
