(* ===== verification/Json.v ===== *)
(** * JSON values

    The part of [serde_json::Value] the control plane uses: job payloads are
    stored as JSON text and read through [get], [as_u64], [as_i64], [as_str] and
    [as_bool]. A JSON column of the database is modelled by the value its text
    denotes. [serde_json::Map] is a [BTreeMap<String, Value>]: an object is the
    association list of its entries in increasing key order. *)
From S2P Require Import Prelude.

#[warnings="-register-all"]
Inductive Value : Type :=
  | Null
  | Bool (b : bool)
  | Number (z : Z)            (** an integer literal *)
  | Float (bits : Z)          (** any other number, by its IEEE-754 bits *)
  | Str (s : string)
  | Array (items : list Value)
  | Object (fields : list (string * Value)).

Fixpoint value_eq_dec (v w : Value) {struct v} : {v = w} + {v ≠ w}.
Proof.
  refine (match v, w with
  | Null, Null => left eq_refl
  | Bool a, Bool b => cast_if (decide (a = b))
  | Number a, Number b => cast_if (decide (a = b))
  | Float a, Float b => cast_if (decide (a = b))
  | Str a, Str b => cast_if (decide (a = b))
  | Array a, Array b =>
      cast_if ((fix go (l k : list Value) {struct l} : {l = k} + {l ≠ k} :=
        match l, k with
        | [], [] => left eq_refl
        | x :: l', y :: k' => cast_if_and (value_eq_dec x y) (go l' k')
        | _, _ => right _
        end) a b)
  | Object a, Object b =>
      cast_if ((fix go (l k : list (string * Value)) {struct l} : {l = k} + {l ≠ k} :=
        match l, k with
        | [], [] => left eq_refl
        | (x, u) :: l', (y, v') :: k' =>
            cast_if_and3 (decide (x = y)) (value_eq_dec u v') (go l' k')
        | _, _ => right _
        end) a b)
  | _, _ => right _
  end); clear go value_eq_dec || clear value_eq_dec; abstract congruence.
Defined.
#[global] Instance value_eq_decision : EqDecision Value := value_eq_dec.

(** ** Objects *)
Abbreviation fields := (list (string * Value)).

Fixpoint map_get (key : string) (m : fields) : option Value :=
  match m with
  | [] => None
  | (k, v) :: m' => if String.eqb k key then Some v else map_get key m'
  end.

(** [BTreeMap::insert]: replaces the entry of an equal key, else keeps the order. *)
Fixpoint map_insert (key : string) (value : Value) (m : fields) : fields :=
  match m with
  | [] => [(key, value)]
  | (k, v) :: m' =>
      match String.compare key k with
      | Lt => (key, value) :: m
      | Eq => (key, value) :: m'
      | Gt => (k, v) :: map_insert key value m'
      end
  end.

(** [Map::remove]; keys are unique, so dropping every match drops the one there is. *)
Definition map_remove (key : string) (m : fields) : fields :=
  List.filter (λ kv, negb (String.eqb kv.1 key)) m.

(** [Value::get], [as_u64], [as_i64], [as_str], [as_bool]. *)
Definition get (v : Value) (key : string) : option Value :=
  match v with Object m => map_get key m | _ => None end.
Definition as_u64 (v : Value) : option Z :=
  match v with Number z => u64_try_from z | _ => None end.
Definition as_i64 (v : Value) : option Z :=
  match v with Number z => i64_try_from z | _ => None end.
Definition as_str (v : Value) : option string :=
  match v with Str s => Some s | _ => None end.
Definition as_bool (v : Value) : option bool :=
  match v with Bool b => Some b | _ => None end.
Definition as_object (v : Value) : option fields :=
  match v with Object m => Some m | _ => None end.

Definition get_u64 (v : Value) (key : string) : option Z := get v key ≫= as_u64.
Definition get_i64 (v : Value) (key : string) : option Z := get v key ≫= as_i64.
Definition get_str (v : Value) (key : string) : option string := get v key ≫= as_str.
Definition get_bool (v : Value) (key : string) : option bool := get v key ≫= as_bool.

(** [json!({...})] builds the map by successive insertion. *)
Definition json_object (entries : fields) : Value :=
  Object (foldl (λ m kv, map_insert kv.1 kv.2 m) [] entries).

(** [payload[key] = value] on an object (on [Null] it makes an object; on any
    other value the code would panic, and no caller passes one). *)
Definition set_key (v : Value) (key : string) (value : Value) : Value :=
  match v with
  | Object m => Object (map_insert key value m)
  | Null => Object [(key, value)]
  | _ => v
  end.

(** [if let Some(object) = payload.as_object_mut() { object.remove(key); }]. *)
Definition remove_key (v : Value) (key : string) : Value :=
  match v with Object m => Object (map_remove key m) | _ => v end.

(** ** Lookup laws *)
Lemma ascii_compare_refl (a : Ascii.ascii) : Ascii.compare a a = Eq.
Proof. unfold Ascii.compare. apply N.compare_refl. Qed.

Lemma string_compare_refl (s : string) : String.compare s s = Eq.
Proof. induction s as [|a s IH]; cbn; [done|]. by rewrite ascii_compare_refl. Qed.

Lemma map_get_insert_eq key v m : map_get key (map_insert key v m) = Some v.
Proof.
  induction m as [|[k w] m IH]; cbn; [by rewrite String.eqb_refl|].
  destruct (String.compare key k) eqn:E; cbn; rewrite ?String.eqb_refl; [done|done|].
  destruct (String.eqb_spec k key) as [->|]; [|done].
  by rewrite string_compare_refl in E.
Qed.

Lemma map_get_insert_ne key key' v m :
  key ≠ key' → map_get key' (map_insert key v m) = map_get key' m.
Proof.
  intros Hne. induction m as [|[k w] m IH]; cbn.
  - by rewrite (proj2 (String.eqb_neq _ _) Hne).
  - destruct (String.compare key k) eqn:E; cbn.
    + apply String.compare_eq_iff in E as <-. by rewrite (proj2 (String.eqb_neq _ _) Hne).
    + by rewrite (proj2 (String.eqb_neq _ _) Hne).
    + by rewrite IH.
Qed.

Lemma map_get_remove_eq key m : map_get key (map_remove key m) = None.
Proof.
  unfold map_remove. induction m as [|[k w] m IH]; [done|]; cbn.
  destruct (String.eqb k key) eqn:E; cbn; rewrite ?E; done.
Qed.

Lemma map_get_remove_ne key key' m :
  key ≠ key' → map_get key' (map_remove key m) = map_get key' m.
Proof.
  intros Hne. unfold map_remove. induction m as [|[k w] m IH]; [done|]; cbn.
  destruct (String.eqb_spec k key) as [->|]; cbn.
  - by rewrite (proj2 (String.eqb_neq _ _) Hne).
  - destruct (String.eqb k key'); done.
Qed.

Lemma get_remove_key_ne v key key' : key ≠ key' → get (remove_key v key) key' = get v key'.
Proof. destruct v; cbn; auto using map_get_remove_ne. Qed.
