(* ===== verification/Quota.v ===== *)
(** * Resource quotas ([src/quota.rs])

    [Resources], [QuotaResources], the overflow-checked sums and
    [ResourceQuota::admit]. [u64] and [u32] fields are [Z]; [resources_wf] and
    [quota_wf] state their widths. *)
From S2P Require Import Prelude.

Record Resources := mkResources {
  cpu_millis : Z;  (** u64 *)
  memory_mib : Z;  (** u64 *)
  gpu_count : Z;   (** u32 *)
  disk_gib : Z;    (** u64 *)
}.

Record QuotaResources := mkQuotaResources {
  q_cpu_millis : Z;
  q_memory_mib : Z;
  q_gpu_count : Z;
  q_disk_gib : Z;
  q_temporary_storage_gib : Z;
}.

Definition quota_default : QuotaResources := mkQuotaResources 0 0 0 0 0.

#[global] Instance resources_eq_dec : EqDecision Resources.
Proof. solve_decision. Defined.
#[global] Instance quota_resources_eq_dec : EqDecision QuotaResources.
Proof. solve_decision. Defined.

Inductive QuotaError :=
  | Overflow
  | Exceeded (resource : string) (requested limit : Z).

#[global] Instance quota_error_eq_dec : EqDecision QuotaError.
Proof. solve_decision. Defined.

Definition resources_wf (r : Resources) : Prop :=
  0 <= cpu_millis r <= u64_max ∧ 0 <= memory_mib r <= u64_max ∧
  0 <= gpu_count r <= u32_max ∧ 0 <= disk_gib r <= u64_max.

Definition quota_wf (q : QuotaResources) : Prop :=
  0 <= q_cpu_millis q <= u64_max ∧ 0 <= q_memory_mib q <= u64_max ∧
  0 <= q_gpu_count q <= u32_max ∧ 0 <= q_disk_gib q <= u64_max ∧
  0 <= q_temporary_storage_gib q <= u64_max.

(** ** Operations *)
Definition valid_workspace_request (r : Resources) : bool :=
  (0 <? cpu_millis r) && (0 <? memory_mib r) && (0 <? disk_gib r).

Definition resources_checked_add (a b : Resources) : result QuotaError Resources :=
  cpu ← ok_or (checked_add_u64 (cpu_millis a) (cpu_millis b)) Overflow;
  memory ← ok_or (checked_add_u64 (memory_mib a) (memory_mib b)) Overflow;
  gpu ← ok_or (checked_add_u32 (gpu_count a) (gpu_count b)) Overflow;
  disk ← ok_or (checked_add_u64 (disk_gib a) (disk_gib b)) Overflow;
  Ok (mkResources cpu memory gpu disk).

Definition for_workspace (r : Resources) (temporary_storage_gib : Z) : QuotaResources :=
  mkQuotaResources (cpu_millis r) (memory_mib r) (gpu_count r) (disk_gib r) temporary_storage_gib.

Definition quota_checked_add (a b : QuotaResources) : result QuotaError QuotaResources :=
  cpu ← ok_or (checked_add_u64 (q_cpu_millis a) (q_cpu_millis b)) Overflow;
  memory ← ok_or (checked_add_u64 (q_memory_mib a) (q_memory_mib b)) Overflow;
  gpu ← ok_or (checked_add_u32 (q_gpu_count a) (q_gpu_count b)) Overflow;
  disk ← ok_or (checked_add_u64 (q_disk_gib a) (q_disk_gib b)) Overflow;
  temporary ← ok_or (checked_add_u64 (q_temporary_storage_gib a) (q_temporary_storage_gib b)) Overflow;
  Ok (mkQuotaResources cpu memory gpu disk temporary).

Definition check_limit (resource : string) (requested limit : Z) : result QuotaError () :=
  if limit <? requested then Err (Exceeded resource requested limit) else Ok ().

(** [ResourceQuota { limit }.admit(usage, request)]. *)
Definition admit_quota (limit usage request : QuotaResources) : result QuotaError QuotaResources :=
  proposed ← quota_checked_add usage request;
  _ ← check_limit "cpu_millis" (q_cpu_millis proposed) (q_cpu_millis limit);
  _ ← check_limit "memory_mib" (q_memory_mib proposed) (q_memory_mib limit);
  _ ← check_limit "gpu_count" (q_gpu_count proposed) (q_gpu_count limit);
  _ ← check_limit "disk_gib" (q_disk_gib proposed) (q_disk_gib limit);
  Ok proposed.

(** ** Specification: componentwise sum and order *)
Definition quota_add (a b : QuotaResources) : QuotaResources :=
  mkQuotaResources (q_cpu_millis a + q_cpu_millis b) (q_memory_mib a + q_memory_mib b)
    (q_gpu_count a + q_gpu_count b) (q_disk_gib a + q_disk_gib b)
    (q_temporary_storage_gib a + q_temporary_storage_gib b).

(** The four dimensions a quota limits; temporary storage is only aggregated. *)
Definition within (a limit : QuotaResources) : Prop :=
  q_cpu_millis a <= q_cpu_millis limit ∧ q_memory_mib a <= q_memory_mib limit ∧
  q_gpu_count a <= q_gpu_count limit ∧ q_disk_gib a <= q_disk_gib limit.

Lemma check_limit_Ok resource requested limit u :
  check_limit resource requested limit = Ok u ↔ requested <= limit.
Proof. unfold check_limit. destruct u. destruct (Z.ltb_spec limit requested); split; intros; done || lia. Qed.

Lemma quota_checked_add_spec a b c :
  quota_wf a → quota_wf b →
  quota_checked_add a b = Ok c ↔ c = quota_add a b ∧ quota_wf (quota_add a b).
Proof.
  unfold quota_wf, quota_add, quota_checked_add; cbn. intros Ha Hb.
  repeat setoid_rewrite bind_Ok. repeat setoid_rewrite ok_or_Ok.
  repeat setoid_rewrite checked_add_u64_Some. setoid_rewrite checked_add_u32_Some.
  split.
  - intros (?&[-> ?]&?&[-> ?]&?&[-> ?]&?&[-> ?]&?&[-> ?]&[= <-]).
    split; [done|]. lia.
  - intros [-> ?]. do 4 (eexists; split; [split; [done|]; lia|]).
    eexists; split; [|done]. split; [done|lia].
Qed.

(** A request is admitted exactly when no total overflows its width and the
    four limited dimensions stay within the limit; the answer is the new total. *)
Theorem admit_quota_iff limit usage request p :
  quota_wf usage → quota_wf request →
  admit_quota limit usage request = Ok p ↔
  p = quota_add usage request ∧ quota_wf (quota_add usage request) ∧
  within (quota_add usage request) limit.
Proof.
  intros Hu Hr. unfold admit_quota, within.
  rewrite bind_Ok. setoid_rewrite quota_checked_add_spec; [|done..].
  repeat setoid_rewrite bind_Ok. repeat setoid_rewrite check_limit_Ok.
  split.
  - intros (?&[-> ?]&[]&?&[]&?&[]&?&[]&?&[= <-]). tauto.
  - intros (->&?&?&?&?&?). eexists; split; [done|]. repeat (exists tt; split; [done|]). done.
Qed.

Lemma admit_quota_iff_witness :
  admit_quota (mkQuotaResources 4000 8192 1 100 0) (mkQuotaResources 1000 0 0 0 0)
    (mkQuotaResources 2000 2048 0 0 10) = Ok (mkQuotaResources 3000 2048 0 0 10).
Proof.
  apply (admit_quota_iff (mkQuotaResources 4000 8192 1 100 0) (mkQuotaResources 1000 0 0 0 0)
    (mkQuotaResources 2000 2048 0 0 10)).
  - unfold quota_wf; cbn; unfold u64_max, u32_max; lia.
  - unfold quota_wf; cbn; unfold u64_max, u32_max; lia.
  - unfold quota_wf, within, quota_add; cbn; unfold u64_max, u32_max. split; [done|]; lia.
Defined.
