(* ===== verification/Auth.v ===== *)
(** * Roles, permissions and API-key scopes ([src/auth.rs]) *)
From S2P Require Import Prelude.

Inductive Role := SystemAdmin | OrganizationAdmin | Member.

Inductive Permission :=
  | ManageSystem | ManageOrganization | ManageMembers | ManageLockedInjections
  | CreateWorkspace | ReadWorkspace | ConnectWorkspace | ChangeWorkspaceState | DeleteWorkspace.

(** [ApiKeyScope]: one scope per permission, and the right to manage keys. *)
Inductive ApiKeyScope :=
  | ScopeManageApiKeys | ScopeManageSystem | ScopeManageOrganization | ScopeManageMembers
  | ScopeManageLockedInjections | ScopeCreateWorkspace | ScopeReadWorkspace
  | ScopeConnectWorkspace | ScopeChangeWorkspaceState | ScopeDeleteWorkspace.

#[global] Instance role_eq_dec : EqDecision Role.
Proof. solve_decision. Defined.
#[global] Instance permission_eq_dec : EqDecision Permission.
Proof. solve_decision. Defined.
#[global] Instance api_key_scope_eq_dec : EqDecision ApiKeyScope.
Proof. solve_decision. Defined.

Record RoleBinding := mkRoleBinding {
  role : Role;
  organization_id : option Uuid;
}.

(** [Vec::splice(1..1, items)]: insert after the first element. *)
Definition initial_key_defaults (system_admin : bool) : list ApiKeyScope :=
  let scopes := [ScopeManageApiKeys; ScopeCreateWorkspace; ScopeReadWorkspace;
                 ScopeConnectWorkspace; ScopeChangeWorkspaceState] in
  if system_admin then
    take 1 scopes ++
      [ScopeManageSystem; ScopeManageOrganization; ScopeManageMembers; ScopeManageLockedInjections]
      ++ drop 1 scopes ++ [ScopeDeleteWorkspace]
  else scopes.

Definition permits (scope : ApiKeyScope) (permission : Permission) : bool :=
  match scope, permission with
  | ScopeManageSystem, ManageSystem
  | ScopeManageOrganization, ManageOrganization
  | ScopeManageMembers, ManageMembers
  | ScopeManageLockedInjections, ManageLockedInjections
  | ScopeCreateWorkspace, CreateWorkspace
  | ScopeReadWorkspace, ReadWorkspace
  | ScopeConnectWorkspace, ConnectWorkspace
  | ScopeChangeWorkspaceState, ChangeWorkspaceState
  | ScopeDeleteWorkspace, DeleteWorkspace => true
  | _, _ => false
  end.

Definition allows (binding : RoleBinding) (permission : Permission) (resource : Uuid) : bool :=
  match role binding with
  | SystemAdmin => true
  | OrganizationAdmin =>
      bool_decide (organization_id binding = Some resource) &&
      negb (bool_decide (permission = ManageSystem))
  | Member =>
      bool_decide (organization_id binding = Some resource) &&
      match permission with
      | CreateWorkspace | ReadWorkspace | ConnectWorkspace | ChangeWorkspaceState => true
      | _ => false
      end
  end.

Definition role_as_str (r : Role) : string :=
  match r with
  | SystemAdmin => "system_admin"
  | OrganizationAdmin => "organization_admin"
  | Member => "member"
  end.

Definition role_from_database (value : string) : option Role :=
  if String.eqb value "system_admin" then Some SystemAdmin
  else if String.eqb value "organization_admin" then Some OrganizationAdmin
  else if String.eqb value "member" then Some Member
  else None.

(** ** Properties *)

(** Outside the system administrator, a binding grants nothing in another
    organization and never grants system management. *)
Theorem organization_boundary binding permission resource :
  role binding ≠ SystemAdmin → allows binding permission resource = true →
  organization_id binding = Some resource ∧ permission ≠ ManageSystem.
Proof.
  unfold allows. destruct (role binding); [done|..]; intros _ H; bool_prop; [done|].
  split; [done|]. by destruct permission.
Qed.

Lemma organization_boundary_witness :
  organization_id (mkRoleBinding Member (Some 7%N)) = Some 7%N ∧ ReadWorkspace ≠ ManageSystem.
Proof. apply (organization_boundary (mkRoleBinding Member (Some 7%N)) ReadWorkspace 7%N); done. Defined.

(** What a member may do an organization administrator may do, and what that
    one may do a system administrator may do. *)
Lemma role_hierarchy org permission resource :
  (allows (mkRoleBinding Member org) permission resource = true →
   allows (mkRoleBinding OrganizationAdmin org) permission resource = true) ∧
  (allows (mkRoleBinding OrganizationAdmin org) permission resource = true →
   allows (mkRoleBinding SystemAdmin org) permission resource = true).
Proof. unfold allows; cbn. split; [|done]. by destruct (bool_decide (org = _)), permission. Qed.

(** The scopes of a first API key never grant a non-administrator a
    permission that a member of the organization does not hold, and an
    administrator's cover every permission. *)
Theorem initial_key_scopes permission resource :
  (∀ scope, scope ∈ initial_key_defaults false → permits scope permission = true →
     allows (mkRoleBinding Member (Some resource)) permission resource = true) ∧
  (∃ scope, scope ∈ initial_key_defaults true ∧ permits scope permission = true).
Proof.
  split.
  - intros scope Hin Hp. unfold allows; cbn. rewrite bool_decide_eq_true_2 by done; cbn.
    unfold initial_key_defaults in Hin. cbn in Hin. set_unfold in Hin.
    destruct_or?; subst; by destruct permission.
  - apply Exists_exists. destruct permission; vm_compute; auto 12 using Exists.
Qed.

Lemma role_roundtrip r : role_from_database (role_as_str r) = Some r.
Proof. by destruct r. Qed.
