(* ===== verification/Templates.v ===== *)
(** * Workspace templates ([src/templates.rs])

    The template document copied into every workspace, its validators and
    [cpu_request_millis]. YAML parsing is [serde_yaml_ng]'s and is not modelled:
    a snapshot column is the document its text denotes. *)
From S2P Require Import Prelude Text Quota.

(** [AccessMode] is declared in [src/workspaces.rs]. *)
Inductive AccessMode := Internal | Public.
Inductive EgressPolicy := Unrestricted | InternetOnly.

Record PodResourceRequest := mkPodResourceRequest {
  req_cpu_millis : Z;
  req_memory_mib : Z;
}.

Record WorkspaceStoragePolicy := mkStoragePolicy {
  temporary_storage_gib : Z;
  use_longhorn : bool;
}.

Record WorkspacePlacement := mkPlacement {
  allowed_node_pools : list string;
  default_node_pool : string;
}.

Record DesktopEndpoint := mkDesktop {
  internal_port : Z;
  display_name : option string;
}.

Record WorkspaceTemplateSpec := mkSpec {
  image : string;
  access_mode : AccessMode;
  resources : Resources;
  pod_requests : PodResourceRequest;
  cpu_overcommit_ratio : option Z;
  workspace_user : string;
  workspace_home : string;
  buildkit : bool;
  storage_policy : WorkspaceStoragePolicy;
  cluster_access : bool;
  egress_policy : EgressPolicy;
  runtime_class_name : option string;
  placement : WorkspacePlacement;
  desktop : option DesktopEndpoint;
}.

Record WorkspaceTemplateDocument := mkDocument {
  api_version : string;
  kind : string;
  metadata_name : string;
  spec : WorkspaceTemplateSpec;
}.

Inductive TemplateError :=
  | TE_Yaml | TE_Header | TE_Name | TE_Image | TE_Resources | TE_PodResources
  | TE_CpuOvercommitRatio | TE_WorkspaceIdentity | TE_RuntimeClass | TE_Placement
  | TE_StoragePolicy | TE_Desktop.

#[global] Instance access_mode_eq_dec : EqDecision AccessMode.
Proof. solve_decision. Defined.
#[global] Instance egress_policy_eq_dec : EqDecision EgressPolicy.
Proof. solve_decision. Defined.
#[global] Instance pod_request_eq_dec : EqDecision PodResourceRequest.
Proof. solve_decision. Defined.
#[global] Instance storage_policy_eq_dec : EqDecision WorkspaceStoragePolicy.
Proof. solve_decision. Defined.
#[global] Instance placement_eq_dec : EqDecision WorkspacePlacement.
Proof. solve_decision. Defined.
#[global] Instance desktop_eq_dec : EqDecision DesktopEndpoint.
Proof. solve_decision. Defined.
#[global] Instance spec_eq_dec : EqDecision WorkspaceTemplateSpec.
Proof. solve_decision. Defined.

Definition TEMPLATE_API_VERSION : string := "workspace.memeloop.dev/v1".
Definition TEMPLATE_KIND : string := "WorkspaceTemplate".

(** ** Validators *)
Definition is_platform_reserved_port (port : Z) : bool :=
  bool_decide (port ∈ [22; 2222; 7681; 8080; 8081; 8443; 3389]).

Definition desktop_validate (d : DesktopEndpoint) : result TemplateError () :=
  if negb (in_range 1024 65535 (internal_port d)) || is_platform_reserved_port (internal_port d)
  then Err TE_Desktop
  else match display_name d with
       | Some value =>
           if bool_decide (trim (chars value) = []) || negb (is_trimmed value)
              || (80 <? len value) || existsb is_control (chars value)
           then Err TE_Desktop else Ok ()
       | None => Ok ()
       end.

Definition storage_policy_validate (p : WorkspaceStoragePolicy) : result TemplateError () :=
  if in_range 1 2048 (temporary_storage_gib p) then Ok () else Err TE_StoragePolicy.

Definition valid_workspace_user (value : string) : bool :=
  (len value <=? 32) &&
  match chars value with
  | first :: rest =>
      ((first =? c_underscore) || is_ascii_lowercase first) &&
      forallb (λ c, is_ascii_lowercase c || is_ascii_digit c || (c =? c_underscore) || (c =? c_dash)) rest
  | [] => false
  end.

Definition valid_workspace_home (value : string) : bool :=
  starts_with (λ c, c =? c_slash) (bytes value) &&
  (len value <=? 256) &&
  negb (bool_decide (value = "/")) &&
  negb (ends_with (λ c, c =? c_slash) (bytes value)) &&
  negb (existsb is_whitespace (chars value)) &&
  forallb (λ part, negb (bool_decide (part = [])) &&
                   negb (bool_decide (part = [c_dot] ∨ part = [c_dot; c_dot])))
    (drop 1 (split_on c_slash (bytes value))).

Definition name_byte (c : Z) : bool := is_ascii_lowercase c || is_ascii_digit c || (c =? c_dash).

Definition valid_node_pool_name (value : string) : bool :=
  (len value <=? 63) && negb (bool_decide (value = "")) &&
  starts_with is_ascii_lowercase (bytes value) &&
  ends_with is_ascii_alphanumeric (bytes value) &&
  forallb name_byte (bytes value).

Definition valid_runtime_class_name (value : string) : bool :=
  (len value <=? 63) && negb (bool_decide (value = "")) &&
  starts_with is_ascii_alphanumeric (bytes value) &&
  ends_with is_ascii_alphanumeric (bytes value) &&
  forallb name_byte (bytes value).

(** [sort_unstable] then [dedup] keeps the distinct names, so the length test
    compares with the number of distinct names. *)
Definition placement_validate (p : WorkspacePlacement) : result TemplateError () :=
  if bool_decide (allowed_node_pools p = []) || (32 <? Z.of_nat (length (allowed_node_pools p)))
     || negb (valid_node_pool_name (default_node_pool p))
     || negb (bool_decide (default_node_pool p ∈ allowed_node_pools p))
  then Err TE_Placement
  else if existsb (λ pool, negb (valid_node_pool_name pool)) (allowed_node_pools p)
  then Err TE_Placement
  else if bool_decide (length (remove_dups (allowed_node_pools p)) = length (allowed_node_pools p))
  then Ok () else Err TE_Placement.

Definition spec_validate (s : WorkspaceTemplateSpec) : result TemplateError () :=
  _ ← ensure (negb (bool_decide (trim (chars (image s)) = [])) && is_trimmed (image s)
              && (len (image s) <=? 512) && negb (existsb is_whitespace (chars (image s)))) TE_Image;
  _ ← ensure (valid_workspace_request (resources s)) TE_Resources;
  _ ← ensure (negb (req_cpu_millis (pod_requests s) =? 0) && negb (req_memory_mib (pod_requests s) =? 0)
              && (req_cpu_millis (pod_requests s) <=? cpu_millis (resources s))
              && (req_memory_mib (pod_requests s) <=? memory_mib (resources s))) TE_PodResources;
  _ ← ensure (match cpu_overcommit_ratio s with
              | Some ratio => in_range 1 1000 ratio | None => true end) TE_CpuOvercommitRatio;
  _ ← ensure (valid_workspace_user (workspace_user s) && valid_workspace_home (workspace_home s))
        TE_WorkspaceIdentity;
  _ ← ensure (match runtime_class_name s with
              | Some name => valid_runtime_class_name name | None => true end) TE_RuntimeClass;
  _ ← placement_validate (placement s);
  _ ← match desktop s with Some d => desktop_validate d | None => Ok () end;
  storage_policy_validate (storage_policy s).

Definition document_validate (d : WorkspaceTemplateDocument) : result TemplateError () :=
  _ ← ensure (bool_decide (api_version d = TEMPLATE_API_VERSION) && bool_decide (kind d = TEMPLATE_KIND))
        TE_Header;
  _ ← ensure (negb (bool_decide (trim (chars (metadata_name d)) = [])) && (len (metadata_name d) <=? 120)
              && is_trimmed (metadata_name d) && negb (existsb is_control (chars (metadata_name d)))) TE_Name;
  spec_validate (spec d).

(** [base_millis.div_ceil(ratio.unwrap_or(1).max(1)).max(1)]. *)
Definition cpu_request_millis (s : WorkspaceTemplateSpec) (base_millis : Z) : Z :=
  let ratio := Z.max (default 1 (cpu_overcommit_ratio s)) 1 in
  Z.max ((base_millis + ratio - 1) / ratio) 1.

(** [WorkspaceTemplateSpec::standard]. *)
Definition standard (img : string) (mode : AccessMode) (r : Resources) : WorkspaceTemplateSpec :=
  {| image := img; access_mode := mode; resources := r;
     pod_requests := mkPodResourceRequest (cpu_millis r) (memory_mib r);
     cpu_overcommit_ratio := None; workspace_user := "workspace"; workspace_home := "/workspace";
     buildkit := false; storage_policy := mkStoragePolicy 10 false; cluster_access := false;
     egress_policy := Unrestricted; runtime_class_name := None;
     placement := mkPlacement ["default"] "default"; desktop := None |}.

(** ** What a validated template guarantees *)
Lemma remove_dups_length_NoDup (l : list string) : length (remove_dups l) = length l → NoDup l.
Proof.
  assert (Hle : ∀ k : list string, (length (remove_dups k) <= length k)%nat).
  { induction k as [|x k IH]; cbn; [lia|]. destruct (decide_rel _ x k); cbn; lia. }
  induction l as [|x l IH]; cbn; [constructor|].
  destruct (decide_rel _ x l) as [|Hx]; cbn; intros Hlen.
  - pose proof (Hle l). lia.
  - constructor; [done|]. apply IH. lia.
Qed.

Lemma placement_validate_Ok p :
  placement_validate p = Ok () →
  default_node_pool p ∈ allowed_node_pools p ∧ NoDup (allowed_node_pools p) ∧
  (length (allowed_node_pools p) <= 32)%nat ∧
  ∀ pool, pool ∈ allowed_node_pools p → valid_node_pool_name pool = true.
Proof.
  unfold placement_validate.
  split_if as E1. split_if as E2. split_if as Hlen. intros _. bool_prop.
  split_and!; [done|by apply remove_dups_length_NoDup|lia|].
  intros pool Hpool. destruct (valid_node_pool_name pool) eqn:Hv; [done|].
  apply not_true_iff_false in E2. contradict E2. apply existsb_exists.
  exists pool. split; [by apply list_elem_of_In|by rewrite Hv].
Qed.

Lemma desktop_validate_Ok d :
  desktop_validate d = Ok () →
  1024 <= internal_port d <= 65535 ∧ is_platform_reserved_port (internal_port d) = false.
Proof.
  unfold desktop_validate. split_if as E. intros _.
  unfold in_range in E. bool_prop. auto.
Qed.

(** The bounds a validated specification obeys. *)
Definition spec_bounds (s : WorkspaceTemplateSpec) : Prop :=
  0 < req_cpu_millis (pod_requests s) <= cpu_millis (resources s) ∧
  0 < req_memory_mib (pod_requests s) <= memory_mib (resources s) ∧
  0 < disk_gib (resources s) ∧
  1 <= temporary_storage_gib (storage_policy s) <= 2048 ∧
  (∀ ratio, cpu_overcommit_ratio s = Some ratio → 1 <= ratio <= 1000) ∧
  default_node_pool (placement s) ∈ allowed_node_pools (placement s) ∧
  NoDup (allowed_node_pools (placement s)) ∧
  valid_workspace_home (workspace_home s) = true ∧
  (∀ d, desktop s = Some d →
     1024 <= internal_port d <= 65535 ∧ is_platform_reserved_port (internal_port d) = false).

Lemma spec_validate_bounds s :
  0 <= req_cpu_millis (pod_requests s) → 0 <= req_memory_mib (pod_requests s) →
  spec_validate s = Ok () → spec_bounds s.
Proof.
  intros Hcpu Hmem. unfold spec_validate, spec_bounds, valid_workspace_request, storage_policy_validate.
  intros Hv. inv_binds. destruct (in_range 1 2048 _) eqn:Hr; [|done].
  match goal with H : placement_validate _ = _ |- _ => apply placement_validate_Ok in H as (?&?&_&_) end.
  unfold in_range in *. split_and!; try done; bool_prop; try lia; try done.
  - intros ratio Hs. rewrite Hs in *. bool_prop. lia.
  - intros d Hs. rewrite Hs in *. by apply desktop_validate_Ok.
Qed.

(** A template specification the validator accepts only asks for positive
    Pod requests within the workspace limits, a temporary volume of 1 to 2048
    GiB, an overcommit ratio of 1 to 1000, a default node pool that is one of
    the distinct allowed pools, and a desktop port outside the platform's own. *)
Theorem spec_validate_sound s :
  0 <= req_cpu_millis (pod_requests s) → 0 <= req_memory_mib (pod_requests s) →
  spec_validate s = Ok () → spec_bounds s.
Proof. apply spec_validate_bounds. Qed.

Lemma spec_validate_sound_witness :
  spec_bounds (standard "registry.example/node:1" Internal (mkResources 6000 4096 0 60)).
Proof. apply spec_validate_sound; [by vm_compute|by vm_compute|by vm_compute]. Defined.

(** ** The home path *)
Lemma starts_with_cons p bs : starts_with p bs = true → ∃ b bs', bs = b :: bs' ∧ p b = true.
Proof. destruct bs as [|b bs]; cbn; [done|]. eauto. Qed.

(** An accepted home directory is an absolute path in normal form: a slash
    followed by components, joined by single slashes, of which none is empty,
    [.] or [..]; so no template can place the home outside the tree it names. *)
Theorem workspace_home_normal value :
  valid_workspace_home value = true →
  ∃ parts, bytes value = c_slash :: join c_slash parts ∧ parts ≠ [] ∧
    Forall (λ part, part ≠ [] ∧ part ≠ [c_dot] ∧ part ≠ [c_dot; c_dot] ∧ c_slash ∉ part) parts.
Proof.
  unfold valid_workspace_home. intros Hv. bool_prop.
  match goal with H : starts_with _ _ = true |- _ => apply starts_with_cons in H as (b&bs&Hbs&Hb) end.
  apply Z.eqb_eq in Hb as ->. rewrite Hbs in *. cbn in *.
  exists (split_on c_slash bs). split_and!.
  - by rewrite join_split_on.
  - apply split_on_ne_nil.
  - apply Forall_forall. intros part Hpart.
    match goal with H : forallb _ _ = true |- _ => pose proof (forallb_elem _ _ _ H Hpart) as Hp end.
    apply andb_true_iff in Hp as [Hp1 Hp2]. bool_prop.
    split_and!; [done|naive_solver..|by eapply split_on_no_sep].
Qed.

Lemma workspace_home_normal_witness :
  ∃ parts, bytes "/home/node-dev" = c_slash :: join c_slash parts ∧ parts ≠ [] ∧
    Forall (λ part, part ≠ [] ∧ part ≠ [c_dot] ∧ part ≠ [c_dot; c_dot] ∧ c_slash ∉ part) parts.
Proof. apply (workspace_home_normal "/home/node-dev"). by vm_compute. Defined.

(** ** CPU overcommit *)

(** The CPU request of a Pod is the least whole number of millicores that,
    multiplied by the overcommit ratio, covers the base; it is at least one and
    never above the base. *)
Theorem cpu_request_millis_spec s base :
  1 <= base →
  let ratio := Z.max (default 1 (cpu_overcommit_ratio s)) 1 in
  let request := cpu_request_millis s base in
  1 <= request <= base ∧ base <= request * ratio ∧ (request - 1) * ratio < base.
Proof.
  intros Hbase ratio request. subst request. unfold cpu_request_millis. fold ratio.
  assert (Hr : 1 <= ratio) by (subst ratio; lia). clearbody ratio.
  pose proof (Z.div_mod (base + ratio - 1) ratio ltac:(lia)) as Hdm.
  pose proof (Z.mod_pos_bound (base + ratio - 1) ratio ltac:(lia)) as Hm.
  set (q := (base + ratio - 1) / ratio) in *.
  assert (1 <= q) by nia. rewrite Z.max_l by lia. nia.
Qed.

Lemma cpu_request_millis_spec_witness :
  let s := standard "img" Internal (mkResources 1000 1 0 1) in
  1 <= cpu_request_millis s 1000 <= 1000.
Proof. intros s. apply (cpu_request_millis_spec s 1000). lia. Defined.
