(* ===== verification/Workspaces.v ===== *)
(** * Workspaces ([src/workspaces.rs])

    The workspace record, its lifecycle state machine ([WorkspaceState::request]
    for user intent, [WorkspaceState::observe] for what the reconciler saw) and
    the volume bindings. Constructors of [WorkspaceObservation] carry the prefix
    [Obs], fields of [Workspace] the prefix [ws_], fields of a binding [vb_]. *)
From S2P Require Import Prelude Text Auth Quota Templates.

Inductive WorkspaceState :=
  | Provisioning | Ready | Stopping | Stopped | Starting | Restarting | Deleting | Deleted | Failed.

Inductive WorkspaceAction := Start | Stop | Restart | Delete.

Inductive WorkspaceObservation := ObsReady | ObsNotReady | ObsStopped | ObsDeleted | ObsFailed.

#[global] Instance workspace_state_eq_dec : EqDecision WorkspaceState.
Proof. solve_decision. Defined.
#[global] Instance workspace_action_eq_dec : EqDecision WorkspaceAction.
Proof. solve_decision. Defined.
#[global] Instance workspace_observation_eq_dec : EqDecision WorkspaceObservation.
Proof. solve_decision. Defined.

Record TransitionError := mkTransitionError {
  te_state : WorkspaceState;
  te_operation : string;
}.

Record WorkspaceHomeVolumeBinding := mkBinding {
  vb_namespace : string;
  vb_claim_name : string;
  vb_claim_uid : string;
  vb_capacity_gib : Z;
}.
#[global] Instance binding_eq_dec : EqDecision WorkspaceHomeVolumeBinding.
Proof. solve_decision. Defined.

(** [selector] is a [BTreeMap]: its entries in key order. *)
Record ResolvedPlacement := mkResolvedPlacement {
  rp_selector : list (string * string);
  rp_required_hosts : list string;
  rp_preferred_hosts : list string;
}.

Record Workspace := mkWorkspace {
  ws_id : Uuid;
  ws_short_id : string;
  ws_organization_id : Uuid;
  ws_owner_id : Uuid;
  ws_name : string;
  ws_template_id : option Uuid;
  ws_node_pool : string;
  ws_home_volume_binding : option WorkspaceHomeVolumeBinding;
  ws_scratch_volume_binding : option WorkspaceHomeVolumeBinding;
  ws_template : WorkspaceTemplateSpec;
  ws_state : WorkspaceState;
  ws_generation : Z;  (** u64 *)
  ws_created_at : Z;
  ws_updated_at : Z;
}.

(** ** Names *)
Definition action_as_str (a : WorkspaceAction) : string :=
  match a with Start => "start" | Stop => "stop" | Restart => "restart" | Delete => "delete" end.

Definition action_from_api (value : string) : option WorkspaceAction :=
  if String.eqb value "start" then Some Start
  else if String.eqb value "stop" then Some Stop
  else if String.eqb value "restart" then Some Restart
  else if String.eqb value "delete" then Some Delete
  else None.

Definition observation_as_str (o : WorkspaceObservation) : string :=
  match o with
  | ObsReady => "mark_ready" | ObsNotReady => "mark_not_ready" | ObsStopped => "mark_stopped"
  | ObsDeleted => "mark_deleted" | ObsFailed => "mark_failed"
  end.

Definition state_as_str (s : WorkspaceState) : string :=
  match s with
  | Provisioning => "provisioning" | Ready => "ready" | Stopping => "stopping"
  | Stopped => "stopped" | Starting => "starting" | Restarting => "restarting"
  | Deleting => "deleting" | Deleted => "deleted" | Failed => "failed"
  end.

Definition state_from_database (value : string) : option WorkspaceState :=
  if String.eqb value "provisioning" then Some Provisioning
  else if String.eqb value "ready" then Some Ready
  else if String.eqb value "stopping" then Some Stopping
  else if String.eqb value "stopped" then Some Stopped
  else if String.eqb value "starting" then Some Starting
  else if String.eqb value "restarting" then Some Restarting
  else if String.eqb value "deleting" then Some Deleting
  else if String.eqb value "deleted" then Some Deleted
  else if String.eqb value "failed" then Some Failed
  else None.

Definition access_mode_as_str (m : AccessMode) : string :=
  match m with Internal => "internal" | Public => "public" end.

Definition access_mode_from_database (value : string) : option AccessMode :=
  if String.eqb value "internal" then Some Internal
  else if String.eqb value "public" then Some Public
  else None.

(** ** The state machine *)
Definition request (s : WorkspaceState) (action : WorkspaceAction)
    : result TransitionError WorkspaceState :=
  match s, action with
  | (Stopped | Failed), Start => Ok Starting
  | (Provisioning | Ready | Starting | Restarting | Failed), Stop => Ok Stopping
  | (Provisioning | Ready | Starting | Failed), Restart => Ok Restarting
  | (Provisioning | Ready | Stopped | Starting | Stopping | Restarting | Failed), Delete => Ok Deleting
  | _, _ => Err (mkTransitionError s (action_as_str action))
  end.

Definition observe (s : WorkspaceState) (observation : WorkspaceObservation)
    : result TransitionError WorkspaceState :=
  match s, observation with
  | (Provisioning | Starting | Restarting), ObsReady => Ok Ready
  | Ready, ObsNotReady => Ok Starting
  | Stopping, ObsStopped => Ok Stopped
  | Deleting, ObsDeleted => Ok Deleted
  | (Provisioning | Ready | Starting | Stopping | Restarting | Deleting), ObsFailed => Ok Failed
  | _, _ => Err (mkTransitionError s (observation_as_str observation))
  end.

(** ** Volume bindings *)
Definition WORKSPACE_NAMESPACE : string := "memeloop-workspace-control".

Definition valid_label (label : list Z) : bool :=
  negb (bool_decide (label = [])) && (Z.of_nat (length label) <=? 63) &&
  starts_with is_ascii_alphanumeric label && ends_with is_ascii_alphanumeric label &&
  forallb name_byte label.

Definition GIB : Z := 1073741824.

Definition binding_is_valid (b : WorkspaceHomeVolumeBinding) : bool :=
  bool_decide (vb_namespace b = WORKSPACE_NAMESPACE) &&
  negb (bool_decide (vb_claim_name b = "")) && (len (vb_claim_name b) <=? 253) &&
  forallb valid_label (split_on c_dot (bytes (vb_claim_name b))) &&
  negb (bool_decide (vb_claim_uid b = "")) && (len (vb_claim_uid b) <=? 128) &&
  forallb (λ c, is_ascii_alphanumeric c || (c =? c_dash)) (bytes (vb_claim_uid b)) &&
  (0 <? vb_capacity_gib b) &&
  match checked_mul_u64 (vb_capacity_gib b) GIB with
  | Some n => n <=? i64_max
  | None => false
  end.

(** A valid binding's capacity in bytes fits a signed 64-bit column. *)
Lemma binding_is_valid_capacity b :
  binding_is_valid b = true → 0 < vb_capacity_gib b ∧ vb_capacity_gib b * GIB <= i64_max.
Proof.
  unfold binding_is_valid. intros H. apply andb_true_iff in H as [H Hm].
  apply andb_true_iff in H as [_ Hpos%Z.ltb_lt].
  unfold checked_mul_u64, guard_range in Hm. destruct (in_u64 _); [|done].
  apply Z.leb_le in Hm. auto.
Qed.

(** ** Properties of the lifecycle *)

(** One step of the lifecycle: a request or an observation. *)
Inductive life_step : WorkspaceState → WorkspaceState → Prop :=
  | life_request s a s' : request s a = Ok s' → life_step s s'
  | life_observe s o s' : observe s o = Ok s' → life_step s s'.

#[export] Hint Constructors life_step : mwc.
#[export] Hint Extern 1 (request _ _ = Ok _) => reflexivity : mwc.
#[export] Hint Extern 1 (observe _ _ = Ok _) => reflexivity : mwc.

(** A workspace in these states is meant to run. *)
Definition run_intent (s : WorkspaceState) : bool :=
  match s with Provisioning | Ready | Starting | Restarting => true | _ => false end.

(** A deleted workspace stays deleted (no request and no observation is
    accepted), and the state is only entered from a confirmed deletion. *)
Lemma deleted_terminal s :
  (∀ a, is_err (request Deleted a) = true) ∧ (∀ o, is_err (observe Deleted o) = true) ∧
  (life_step s Deleted ↔ s = Deleting).
Proof.
  split_and!; [by intros []|by intros []|]. split.
  - intros H. inversion H as [? a ? E|? o ? E]; subst; [by destruct s, a|by destruct s, o].
  - intros ->. apply (life_observe _ ObsDeleted). reflexivity.
Qed.

(** An observation never starts a workspace: if it leads to a state meant
    to run, the workspace was already meant to run. Only a request changes
    the intent. *)
Lemma observation_keeps_intent s o s' :
  observe s o = Ok s' → run_intent s' = true → run_intent s = true.
Proof. by destruct s, o; intros [= <-]. Qed.

Lemma reach_ready s : s ≠ Deleted → rtc life_step s Ready.
Proof.
  assert (Hstart : rtc life_step Starting Ready)
    by (eapply rtc_l; [apply (life_observe _ ObsReady); reflexivity|done]).
  assert (Hstopped : rtc life_step Stopped Ready)
    by (eapply rtc_l; [apply (life_request _ Start); reflexivity|done]).
  assert (Hfailed : rtc life_step Failed Ready)
    by (eapply rtc_l; [apply (life_request _ Start); reflexivity|done]).
  intros Hs. destruct s; try done.
  - eapply rtc_l; [apply (life_observe _ ObsReady); reflexivity|done].
  - eapply rtc_l; [apply (life_observe _ ObsStopped); reflexivity|done].
  - eapply rtc_l; [apply (life_observe _ ObsReady); reflexivity|done].
  - eapply rtc_l; [apply (life_observe _ ObsFailed); reflexivity|done].
Qed.

Lemma reach_deleted s : s ≠ Deleted → rtc life_step s Deleted.
Proof.
  assert (Hd : rtc life_step Deleting Deleted)
    by (eapply rtc_l; [apply (life_observe _ ObsDeleted); reflexivity|done]).
  intros Hs. destruct s; try done;
    (eapply rtc_l; [apply (life_request _ Delete); reflexivity|done]).
Qed.

(** No lifecycle state but [Deleted] is a dead end: from every other one
    the workspace can still become ready and can still be deleted. *)
Theorem lifecycle_no_dead_end s :
  s ≠ Deleted → rtc life_step s Ready ∧ rtc life_step s Deleted.
Proof. auto using reach_ready, reach_deleted. Qed.

Lemma lifecycle_no_dead_end_witness : rtc life_step Failed Ready ∧ rtc life_step Failed Deleted.
Proof. apply (lifecycle_no_dead_end Failed). done. Defined.

(** The text stored for a state decodes to exactly that state, and no
    other text decodes. *)
Lemma state_names_roundtrip s value :
  state_from_database value = Some s ↔ value = state_as_str s.
Proof.
  unfold state_from_database. split.
  - repeat case_match; intros [= <-]; by apply String.eqb_eq.
  - intros ->. by destruct s.
Qed.

Lemma action_names_roundtrip a value : action_from_api value = Some a ↔ value = action_as_str a.
Proof.
  unfold action_from_api. split.
  - repeat case_match; intros [= <-]; by apply String.eqb_eq.
  - intros ->. by destruct a.
Qed.
