(* ===== verification/Errors.v ===== *)
(** * Storage errors ([src/storage/error.rs])

    One constructor per variant of [StorageError]. The variants that wrap an
    error of a library ([sqlx], [serde_json], [uuid], the cipher) or of the
    configuration parser carry no argument: nothing in the program inspects it. *)
From S2P Require Import Prelude Quota Workspaces.

Module StorageError.
Inductive t :=
  | Config
  | Database
  | Json
  | Uuid
  | InvalidJobWorkerConcurrency
  | InvalidCpuOvercommitRatio
  | WorkspaceCpuOvercommitUpdateConflict
  | EmptyLeaseOwner
  | LeaseDurationOverflow
  | LeaseNotOwned (job : N)
  | InstallationMismatch (configured stored : string)
  | TokenTooShort
  | UserNotFound
  | InvalidUserProfile
  | InvalidApiKey
  | InvalidApiKeyQuery
  | ApiKeyNotFound
  | SelfApiKeyAdministration
  | LastApiKey
  | TooManyApiKeys
  | InvalidAuditQuery
  | OrganizationNotFound
  | InvalidOrganizationMembership
  | LastSystemAdmin
  | LastOrganizationAdmin
  | OrganizationInUse
  | UnknownRole (value : string)
  | UnknownWorkspaceState (value : string)
  | UnknownAccessMode (value : string)
  | UnknownRuntimeIncidentCategory (value : string)
  | WorkspaceNotFound
  | WorkspaceStorageShrinkConflict
  | InvalidWorkspaceStorageShrink
  | WorkspaceStorageShrinkUnavailable
  | InvalidPortMappingPort
  | InvalidPortMappingDisplayName
  | PortMappingNotFound
  | InvalidWorkspace
  | InvalidWorkspaceHomePvc
  | WorkspaceHomePvcUpdateConflict
  | WorkspaceHomePvcInUse
  | WorkspaceHomePvcMismatch
  | InvalidWorkspaceInjectionRefs
  | ImageNotAllowed
  | InvalidWorkspaceImageUpdate
  | WorkspaceImageUpdateConflict
  | InvalidWorkspaceTemporaryStorage
  | WorkspaceTemporaryStorageUpdateConflict
  | InvalidNodePool
  | NodePoolNotFound
  | NodePoolUnavailable
  | NodePoolNotAllowed
  | NodePoolInUse
  | WorkspacePlacementUpdateConflict
  | TemplateNotFound
  | InvalidTemplate
  | InvalidPluginConfiguration
  | PluginConfigurationVersionConflict
  | PluginInspectionNotFound
  | PluginInspectionExpired
  | PluginDigestMismatch
  | PluginPackageVersionConflict
  | PluginCapabilityNotApproved
  | PluginPackageNotFound
  | PluginUiSessionInvalid
  | PluginCapacityExceeded
  | TooManyPluginInspections
  | TemplateMustBeDisabled
  | TemplateInUse
  | PrivilegedTemplateForbidden
  | Quota (error : QuotaError)
  | Transition (error : TransitionError)
  | InvalidIdempotencyKey
  | IdempotencyReservationLost
  | Crypto
  | InvalidEncryptedInjection
  | UnknownInjectionScope (value : string)
  | UnknownInjectionKind (value : string)
  | InvalidInjectionLock
  | InvalidEvent
  | InvalidTicketTtl
  | RandomSource
  | InvalidWebhook
  | WebhookNotFound
  | Clock
  | UnsupportedDatabaseVersion
  | InvalidSshIdentity
  | ExportRequiresSqlite
  | ImportRequiresPostgres
  | UnsupportedSnapshotVersion (version : Z)
  | SnapshotInstallationMismatch (snapshot configured : string)
  | SnapshotRowInstallationMismatch (table : string)
  | UnsupportedSnapshotSchema
  | SnapshotMissingTable (value : string)
  | InvalidPluginSnapshot
  | ImportDestinationNotEmpty.
End StorageError.
