(* ===== verification/ShrinkOperation.v ===== *)
(** * Storage-shrink operations: data and pure checks
    (the part of [src/storage/workspace_storage_shrink.rs] that touches no table)

    A shrink operation moves a workspace's Home and/or scratch volume to a
    smaller claim. This file has the request and its validation, the durable
    operation record, the checks that a verified destination must pass, the
    update the operation applies to the workspace, and the checks of a resume
    retry. Phases carry the prefix [Ph], volume fields [sv_], operation fields
    [op_], request fields [sr_]. *)
From S2P Require Import Prelude Text Auth Quota Templates Workspaces Errors.

Record StorageShrinkRequest := mkShrinkRequest {
  sr_home_gib : option Z;
  sr_temporary_storage_gib : option Z;
  sr_expected_generation : Z;
  sr_reclaim_source : bool;
}.

Inductive StorageShrinkPhase :=
  | PhQueued | PhStopping | PhMeasuring | PhCopying | PhVerifying | PhSwitching | PhResuming
  | PhRollingBack | PhCompleted | PhFailed | PhReclaiming | PhReclaimed.

Record StorageVolumeIdentity := mkIdentity {
  pv_name : string;
  pv_uid : string;
  csi_driver : string;
  csi_volume_handle : string;
  storage_class_name : string;
  longhorn_namespace : option string;
  longhorn_volume_uid : option string;
}.

Record StorageShrinkVolume := mkVolume {
  sv_target_gib : option Z;
  sv_source : option WorkspaceHomeVolumeBinding;
  sv_destination : option WorkspaceHomeVolumeBinding;
  sv_used_bytes : option Z;
  sv_used_inodes : option Z;
  sv_verified : bool;
  sv_source_volume : option StorageVolumeIdentity;
  sv_destination_volume : option StorageVolumeIdentity;
}.

Record StorageShrinkOperation := mkOperation {
  op_id : Uuid;
  op_workspace_id : Uuid;
  op_phase : StorageShrinkPhase;
  op_error : option string;
  op_home : StorageShrinkVolume;
  op_temporary : StorageShrinkVolume;
  op_resume : bool;
  op_created_at : Z;
  op_updated_at : Z;
  op_actor_user_id : Uuid;
  op_request : StorageShrinkRequest;
  op_original_home_gib : Z;
  op_original_temporary_storage_gib : Z;
  op_switched : bool;
  op_sources_retained : bool;
  op_reclaimable : bool;
  op_helper_pod_uids : gmap string string;
}.

Inductive ShrinkWorkspaceUpdate :=
  | UpdNone | UpdStopping | UpdStopped | UpdSwitch | UpdResume | UpdRollback.

#[global] Instance shrink_request_eq_dec : EqDecision StorageShrinkRequest.
Proof. solve_decision. Defined.
#[global] Instance shrink_phase_eq_dec : EqDecision StorageShrinkPhase.
Proof. solve_decision. Defined.
#[global] Instance shrink_update_eq_dec : EqDecision ShrinkWorkspaceUpdate.
Proof. solve_decision. Defined.
#[global] Instance identity_eq_dec : EqDecision StorageVolumeIdentity.
Proof. solve_decision. Defined.

(** Field updates. *)
Definition set_sv_source v (r : StorageShrinkVolume) : StorageShrinkVolume :=
  mkVolume (sv_target_gib r) v (sv_destination r) (sv_used_bytes r) (sv_used_inodes r) (sv_verified
    r) (sv_source_volume r) (sv_destination_volume r).
Definition set_sv_destination v (r : StorageShrinkVolume) : StorageShrinkVolume :=
  mkVolume (sv_target_gib r) (sv_source r) v (sv_used_bytes r) (sv_used_inodes r) (sv_verified r)
    (sv_source_volume r) (sv_destination_volume r).
Definition set_sv_used_bytes v (r : StorageShrinkVolume) : StorageShrinkVolume :=
  mkVolume (sv_target_gib r) (sv_source r) (sv_destination r) v (sv_used_inodes r) (sv_verified r)
    (sv_source_volume r) (sv_destination_volume r).
Definition set_sv_used_inodes v (r : StorageShrinkVolume) : StorageShrinkVolume :=
  mkVolume (sv_target_gib r) (sv_source r) (sv_destination r) (sv_used_bytes r) v (sv_verified r)
    (sv_source_volume r) (sv_destination_volume r).
Definition set_sv_verified v (r : StorageShrinkVolume) : StorageShrinkVolume :=
  mkVolume (sv_target_gib r) (sv_source r) (sv_destination r) (sv_used_bytes r) (sv_used_inodes r) v
    (sv_source_volume r) (sv_destination_volume r).
Definition set_sv_source_volume v (r : StorageShrinkVolume) : StorageShrinkVolume :=
  mkVolume (sv_target_gib r) (sv_source r) (sv_destination r) (sv_used_bytes r) (sv_used_inodes r)
    (sv_verified r) v (sv_destination_volume r).
Definition set_sv_destination_volume v (r : StorageShrinkVolume) : StorageShrinkVolume :=
  mkVolume (sv_target_gib r) (sv_source r) (sv_destination r) (sv_used_bytes r) (sv_used_inodes r)
    (sv_verified r) (sv_source_volume r) v.
Definition set_op_phase v (r : StorageShrinkOperation) : StorageShrinkOperation :=
  mkOperation (op_id r) (op_workspace_id r) v (op_error r) (op_home r) (op_temporary r) (op_resume
    r) (op_created_at r) (op_updated_at r) (op_actor_user_id r) (op_request r) (op_original_home_gib
    r) (op_original_temporary_storage_gib r) (op_switched r) (op_sources_retained r) (op_reclaimable
    r) (op_helper_pod_uids r).
Definition set_op_error v (r : StorageShrinkOperation) : StorageShrinkOperation :=
  mkOperation (op_id r) (op_workspace_id r) (op_phase r) v (op_home r) (op_temporary r) (op_resume
    r) (op_created_at r) (op_updated_at r) (op_actor_user_id r) (op_request r) (op_original_home_gib
    r) (op_original_temporary_storage_gib r) (op_switched r) (op_sources_retained r) (op_reclaimable
    r) (op_helper_pod_uids r).
Definition set_op_home v (r : StorageShrinkOperation) : StorageShrinkOperation :=
  mkOperation (op_id r) (op_workspace_id r) (op_phase r) (op_error r) v (op_temporary r) (op_resume
    r) (op_created_at r) (op_updated_at r) (op_actor_user_id r) (op_request r) (op_original_home_gib
    r) (op_original_temporary_storage_gib r) (op_switched r) (op_sources_retained r) (op_reclaimable
    r) (op_helper_pod_uids r).
Definition set_op_temporary v (r : StorageShrinkOperation) : StorageShrinkOperation :=
  mkOperation (op_id r) (op_workspace_id r) (op_phase r) (op_error r) (op_home r) v (op_resume r)
    (op_created_at r) (op_updated_at r) (op_actor_user_id r) (op_request r) (op_original_home_gib r)
    (op_original_temporary_storage_gib r) (op_switched r) (op_sources_retained r) (op_reclaimable r)
    (op_helper_pod_uids r).
Definition set_op_resume v (r : StorageShrinkOperation) : StorageShrinkOperation :=
  mkOperation (op_id r) (op_workspace_id r) (op_phase r) (op_error r) (op_home r) (op_temporary r) v
    (op_created_at r) (op_updated_at r) (op_actor_user_id r) (op_request r) (op_original_home_gib r)
    (op_original_temporary_storage_gib r) (op_switched r) (op_sources_retained r) (op_reclaimable r)
    (op_helper_pod_uids r).
Definition set_op_updated_at v (r : StorageShrinkOperation) : StorageShrinkOperation :=
  mkOperation (op_id r) (op_workspace_id r) (op_phase r) (op_error r) (op_home r) (op_temporary r)
    (op_resume r) (op_created_at r) v (op_actor_user_id r) (op_request r) (op_original_home_gib r)
    (op_original_temporary_storage_gib r) (op_switched r) (op_sources_retained r) (op_reclaimable r)
    (op_helper_pod_uids r).
Definition set_op_original_home_gib v (r : StorageShrinkOperation) : StorageShrinkOperation :=
  mkOperation (op_id r) (op_workspace_id r) (op_phase r) (op_error r) (op_home r) (op_temporary r)
    (op_resume r) (op_created_at r) (op_updated_at r) (op_actor_user_id r) (op_request r) v
    (op_original_temporary_storage_gib r) (op_switched r) (op_sources_retained r) (op_reclaimable r)
    (op_helper_pod_uids r).
Definition set_op_original_temporary_storage_gib v (r : StorageShrinkOperation) :
    StorageShrinkOperation :=
  mkOperation (op_id r) (op_workspace_id r) (op_phase r) (op_error r) (op_home r) (op_temporary r)
    (op_resume r) (op_created_at r) (op_updated_at r) (op_actor_user_id r) (op_request r)
    (op_original_home_gib r) v (op_switched r) (op_sources_retained r) (op_reclaimable r)
    (op_helper_pod_uids r).
Definition set_op_switched v (r : StorageShrinkOperation) : StorageShrinkOperation :=
  mkOperation (op_id r) (op_workspace_id r) (op_phase r) (op_error r) (op_home r) (op_temporary r)
    (op_resume r) (op_created_at r) (op_updated_at r) (op_actor_user_id r) (op_request r)
    (op_original_home_gib r) (op_original_temporary_storage_gib r) v (op_sources_retained r)
    (op_reclaimable r) (op_helper_pod_uids r).
Definition set_op_sources_retained v (r : StorageShrinkOperation) : StorageShrinkOperation :=
  mkOperation (op_id r) (op_workspace_id r) (op_phase r) (op_error r) (op_home r) (op_temporary r)
    (op_resume r) (op_created_at r) (op_updated_at r) (op_actor_user_id r) (op_request r)
    (op_original_home_gib r) (op_original_temporary_storage_gib r) (op_switched r) v (op_reclaimable
    r) (op_helper_pod_uids r).
Definition set_op_reclaimable v (r : StorageShrinkOperation) : StorageShrinkOperation :=
  mkOperation (op_id r) (op_workspace_id r) (op_phase r) (op_error r) (op_home r) (op_temporary r)
    (op_resume r) (op_created_at r) (op_updated_at r) (op_actor_user_id r) (op_request r)
    (op_original_home_gib r) (op_original_temporary_storage_gib r) (op_switched r)
    (op_sources_retained r) v (op_helper_pod_uids r).
Definition set_op_helper_pod_uids v (r : StorageShrinkOperation) : StorageShrinkOperation :=
  mkOperation (op_id r) (op_workspace_id r) (op_phase r) (op_error r) (op_home r) (op_temporary r)
    (op_resume r) (op_created_at r) (op_updated_at r) (op_actor_user_id r) (op_request r)
    (op_original_home_gib r) (op_original_temporary_storage_gib r) (op_switched r)
    (op_sources_retained r) (op_reclaimable r) v.

(** [StorageShrinkPhase::active]. *)
Definition phase_active (p : StorageShrinkPhase) : bool :=
  match p with PhCompleted | PhFailed | PhReclaimed => false | _ => true end.

(** [StorageShrinkRequest::validate]. *)
Definition shrink_request_validate (r : StorageShrinkRequest) (w : Workspace)
    : result StorageError.t () :=
  let home := match ws_home_volume_binding w with
              | Some binding => vb_capacity_gib binding
              | None => disk_gib (resources (ws_template w))
              end in
  let temporary := temporary_storage_gib (storage_policy (ws_template w)) in
  let bad_home := match sr_home_gib r with
                  | Some target => (target =? 0) || (home <=? target) ||
                      match checked_mul_u64 target GIB with
                      | Some n => i64_max <? n
                      | None => true
                      end
                  | None => false
                  end in
  let bad_temporary := match sr_temporary_storage_gib r with
                       | Some target => (target =? 0) || (temporary <=? target) || (2048 <? target)
                       | None => false
                       end in
  if (bool_decide (sr_home_gib r = None) && bool_decide (sr_temporary_storage_gib r = None))
     || bad_home || bad_temporary
  then Err StorageError.InvalidWorkspaceStorageShrink
  else if negb (ws_generation w =? sr_expected_generation r)
          || negb (bool_decide (ws_state w = Ready ∨ ws_state w = Stopped))
  then Err StorageError.WorkspaceStorageShrinkConflict
  else Ok ().

(** [StorageShrinkOperation::new]; the identifier is [Uuid::now_v7()]'s. *)
Definition new_volume (target : option Z) : StorageShrinkVolume :=
  mkVolume target None None None None false None None.

Definition operation_new (id workspace_id : Uuid) (request : StorageShrinkRequest)
    (actor_user_id : Uuid) (now : Z) : StorageShrinkOperation :=
  {| op_id := id; op_workspace_id := workspace_id; op_phase := PhQueued; op_error := None;
     op_home := new_volume (sr_home_gib request);
     op_temporary := new_volume (sr_temporary_storage_gib request);
     op_resume := false; op_created_at := now; op_updated_at := now;
     op_actor_user_id := actor_user_id; op_request := request;
     op_original_home_gib := 0; op_original_temporary_storage_gib := 0;
     op_switched := false; op_sources_retained := true; op_reclaimable := false;
     op_helper_pod_uids := ∅ |}.

(** [validate_verified_destination]. *)
Definition verified_destination (v : StorageShrinkVolume) (target : Z) : bool :=
  sv_verified v &&
  is_some_and (sv_source v) (λ source, binding_is_valid source && (target <? vb_capacity_gib source)) &&
  is_some_and (sv_destination v) (λ destination,
    binding_is_valid destination && (vb_capacity_gib destination =? target) &&
    is_some_and (sv_source v) (λ source,
      negb (bool_decide (vb_claim_uid source = vb_claim_uid destination)))) &&
  is_some_and (checked_mul_u64 target GIB) (λ n, is_some_and (sv_used_bytes v) (λ used, used <? n)) &&
  is_some (sv_used_inodes v) &&
  is_some_and (sv_destination_volume v) (λ destination,
    is_some_and (sv_source_volume v) (λ source,
      negb (bool_decide (pv_uid source = pv_uid destination)) &&
      bool_decide (csi_driver source = csi_driver destination) &&
      bool_decide (storage_class_name source = storage_class_name destination) &&
      negb (bool_decide (csi_volume_handle source = csi_volume_handle destination)))).

Definition validate_verified_destination (v : StorageShrinkVolume) : result StorageError.t () :=
  match sv_target_gib v with
  | None => Ok ()
  | Some target => ensure (verified_destination v target) StorageError.InvalidWorkspaceStorageShrink
  end.

(** Assignments to the workspace and to the template document. *)
Definition set_bindings (home scratch : option WorkspaceHomeVolumeBinding) (w : Workspace) : Workspace :=
  {| ws_id := ws_id w; ws_short_id := ws_short_id w; ws_organization_id := ws_organization_id w;
     ws_owner_id := ws_owner_id w; ws_name := ws_name w; ws_template_id := ws_template_id w;
     ws_node_pool := ws_node_pool w; ws_home_volume_binding := home;
     ws_scratch_volume_binding := scratch; ws_template := ws_template w; ws_state := ws_state w;
     ws_generation := ws_generation w; ws_created_at := ws_created_at w;
     ws_updated_at := ws_updated_at w |}.

Definition set_state (s : WorkspaceState) (w : Workspace) : Workspace :=
  {| ws_id := ws_id w; ws_short_id := ws_short_id w; ws_organization_id := ws_organization_id w;
     ws_owner_id := ws_owner_id w; ws_name := ws_name w; ws_template_id := ws_template_id w;
     ws_node_pool := ws_node_pool w; ws_home_volume_binding := ws_home_volume_binding w;
     ws_scratch_volume_binding := ws_scratch_volume_binding w; ws_template := ws_template w;
     ws_state := s; ws_generation := ws_generation w; ws_created_at := ws_created_at w;
     ws_updated_at := ws_updated_at w |}.

Definition set_spec_capacity (disk temporary : Z) (d : WorkspaceTemplateDocument)
    : WorkspaceTemplateDocument :=
  let s := spec d in
  {| api_version := api_version d; kind := kind d; metadata_name := metadata_name d;
     spec := {| image := image s; access_mode := access_mode s;
       resources := mkResources (cpu_millis (resources s)) (memory_mib (resources s))
                      (gpu_count (resources s)) disk;
       pod_requests := pod_requests s; cpu_overcommit_ratio := cpu_overcommit_ratio s;
       workspace_user := workspace_user s; workspace_home := workspace_home s;
       buildkit := buildkit s;
       storage_policy := mkStoragePolicy temporary (use_longhorn (storage_policy s));
       cluster_access := cluster_access s; egress_policy := egress_policy s;
       runtime_class_name := runtime_class_name s; placement := placement s;
       desktop := desktop s |} |}.

(** [apply_shrink_workspace_update]. The [None] update is never applied (the
    caller tests for it), which the code marks [unreachable!]. *)
Definition apply_shrink_workspace_update (w : Workspace) (d : WorkspaceTemplateDocument)
    (op : StorageShrinkOperation) (update : ShrinkWorkspaceUpdate)
    : result StorageError.t (Workspace * WorkspaceTemplateDocument) :=
  match update with
  | UpdStopping =>
      let w := set_state Stopping w in
      Ok (if op_switched op then w
          else set_bindings (ws_home_volume_binding w) (sv_source (op_temporary op)) w, d)
  | UpdStopped => Ok (set_state Stopped w, d)
  | UpdSwitch =>
      _ ← ensure (negb ((is_some (sv_target_gib (op_home op)) && negb (sv_verified (op_home op)))
                        || (is_some (sv_target_gib (op_temporary op))
                            && negb (sv_verified (op_temporary op)))))
            StorageError.InvalidWorkspaceStorageShrink;
      _ ← validate_verified_destination (op_home op);
      _ ← validate_verified_destination (op_temporary op);
      Ok (set_state Stopped
            (set_bindings (option_or (sv_destination (op_home op)) (sv_source (op_home op)))
               (option_or (sv_destination (op_temporary op)) (sv_source (op_temporary op))) w),
          set_spec_capacity (default (op_original_home_gib op) (sv_target_gib (op_home op)))
            (default (op_original_temporary_storage_gib op) (sv_target_gib (op_temporary op))) d)
  | UpdRollback =>
      Ok (set_state Stopped (set_bindings (sv_source (op_home op)) (sv_source (op_temporary op)) w),
          set_spec_capacity (op_original_home_gib op) (op_original_temporary_storage_gib op) d)
  | UpdResume => Ok (set_state Starting w, d)
  | UpdNone => Ok (w, d)
  end.

(** [validate_retry_idle], [validate_retry_operation], [validate_retry_volume]. *)
Definition validate_retry_idle (active_operations active_jobs : Z) : result StorageError.t () :=
  ensure ((active_operations =? 0) && (active_jobs =? 0)) StorageError.WorkspaceStorageShrinkConflict.

Definition validate_retry_operation (stored_id operation_id : Uuid) (op : StorageShrinkOperation)
    (w : Workspace) : result StorageError.t () :=
  ensure (bool_decide (stored_id = operation_id) && bool_decide (op_id op = operation_id)
          && bool_decide (op_workspace_id op = ws_id w) && bool_decide (op_phase op = PhFailed)
          && op_switched op && op_sources_retained op && negb (op_reclaimable op)
          && negb (sr_reclaim_source (op_request op)) && op_resume op
          && bool_decide (ws_state w = Ready)
          && (is_some (sr_home_gib (op_request op)) || is_some (sr_temporary_storage_gib (op_request op))))
    StorageError.WorkspaceStorageShrinkConflict.

Definition identity_recorded (i : StorageVolumeIdentity) : bool :=
  forallb (λ value, negb (bool_decide (trim (chars value) = [])))
    [pv_name i; pv_uid i; csi_driver i; csi_volume_handle i; storage_class_name i].

Definition validate_retry_volume (v : StorageShrinkVolume) (requested_target : option Z)
    (current : option WorkspaceHomeVolumeBinding) (current_gib original_gib : Z) (namespace : string)
    : result StorageError.t () :=
  if negb (bool_decide (sv_target_gib v = requested_target))
  then Err StorageError.WorkspaceStorageShrinkConflict
  else match requested_target with
  | None =>
      ensure (bool_decide (sv_source v = current) && negb (is_some (sv_destination v))
              && (current_gib =? original_gib)) StorageError.WorkspaceStorageShrinkConflict
  | Some target =>
      _ ← map_err (λ _, StorageError.WorkspaceStorageShrinkConflict) (validate_verified_destination v);
      ensure (bool_decide (sv_destination v = current) && (current_gib =? target)
        && is_some_and (sv_source v) (λ source,
             bool_decide (vb_namespace source = namespace) && (vb_capacity_gib source =? original_gib)
             && is_some_and (sv_destination v) (λ destination,
                  bool_decide (vb_namespace destination = namespace)
                  && negb (bool_decide (vb_claim_name source = vb_claim_name destination))))
        && is_some_and (sv_source_volume v) (λ source,
             identity_recorded source
             && is_some_and (sv_destination_volume v) (λ destination,
                  identity_recorded destination
                  && negb (bool_decide (pv_name source = pv_name destination)))))
        StorageError.WorkspaceStorageShrinkConflict
  end.

(** ** Properties *)

(** What a volume that may be switched to has shown: the copy was verified, the
    destination is a different, valid claim on a different volume of the same
    storage class, of exactly the target capacity, smaller than the source and
    larger than the measured usage. *)
Definition switchable (v : StorageShrinkVolume) (target : Z) : Prop :=
  sv_verified v = true ∧
  ∃ source destination used from to,
    sv_source v = Some source ∧ sv_destination v = Some destination ∧
    sv_used_bytes v = Some used ∧ sv_source_volume v = Some from ∧ sv_destination_volume v = Some to ∧
    binding_is_valid source = true ∧ binding_is_valid destination = true ∧
    vb_capacity_gib destination = target ∧ target < vb_capacity_gib source ∧
    used < target * GIB ∧
    vb_claim_uid source ≠ vb_claim_uid destination ∧ pv_uid from ≠ pv_uid to ∧
    csi_volume_handle from ≠ csi_volume_handle to ∧ storage_class_name from = storage_class_name to.

Lemma verified_destination_switchable v target :
  verified_destination v target = true → switchable v target.
Proof.
  unfold verified_destination, switchable. intros H. inv_some_and.
  unfold checked_mul_u64 in *.
  repeat match goal with H : guard_range _ _ = Some _ |- _ => apply guard_range_Some in H as [-> _] end.
  split; [done|]. do 5 eexists. split_and!; done.
Qed.

Lemma validate_verified_destination_Ok v target u :
  sv_target_gib v = Some target → validate_verified_destination v = Ok u → switchable v target.
Proof.
  unfold validate_verified_destination. intros ->. rewrite ensure_Ok.
  apply verified_destination_switchable.
Qed.

(** The capacity recorded in the template snapshot agrees with a bound claim;
    reading a workspace row back requires it. *)
Definition capacity_agrees (w : Workspace) (d : WorkspaceTemplateDocument) : Prop :=
  ∀ b, ws_home_volume_binding w = Some b → vb_capacity_gib b = disk_gib (resources (spec d)).

(** What source discovery leaves in the operation. *)
Definition sources_recorded (op : StorageShrinkOperation) : Prop :=
  (∀ b, sv_source (op_home op) = Some b → vb_capacity_gib b = op_original_home_gib op) ∧
  (sv_target_gib (op_home op) = None → sv_destination (op_home op) = None).

Lemma switch_inv w d op w' d' :
  apply_shrink_workspace_update w d op UpdSwitch = Ok (w', d') →
  validate_verified_destination (op_home op) = Ok () ∧
  validate_verified_destination (op_temporary op) = Ok () ∧
  w' = set_state Stopped
         (set_bindings (option_or (sv_destination (op_home op)) (sv_source (op_home op)))
            (option_or (sv_destination (op_temporary op)) (sv_source (op_temporary op))) w) ∧
  d' = set_spec_capacity (default (op_original_home_gib op) (sv_target_gib (op_home op)))
         (default (op_original_temporary_storage_gib op) (sv_target_gib (op_temporary op))) d.
Proof. unfold apply_shrink_workspace_update. intros H. inv_binds. by simplify_eq. Qed.

(** Switching a workspace to its new volumes is refused unless every
    requested volume is [switchable]; when it is accepted the workspace is
    stopped, bound to the destinations, and its snapshot has the target sizes. *)
Theorem switch_only_verified w d op w' d' :
  apply_shrink_workspace_update w d op UpdSwitch = Ok (w', d') →
  (∀ target, sv_target_gib (op_home op) = Some target →
     switchable (op_home op) target ∧
     ws_home_volume_binding w' = sv_destination (op_home op) ∧
     disk_gib (resources (spec d')) = target) ∧
  (∀ target, sv_target_gib (op_temporary op) = Some target →
     switchable (op_temporary op) target ∧
     ws_scratch_volume_binding w' = sv_destination (op_temporary op) ∧
     temporary_storage_gib (storage_policy (spec d')) = target) ∧
  ws_state w' = Stopped.
Proof.
  intros (Hh & Ht & -> & ->)%switch_inv.
  split_and!; [intros target E..|done].
  - pose proof (validate_verified_destination_Ok _ _ _ E Hh) as Hs.
    split; [done|]. cbn. rewrite E. destruct Hs as (_&?&?&?&?&?&_&->&_). done.
  - pose proof (validate_verified_destination_Ok _ _ _ E Ht) as Hs.
    split; [done|]. cbn. rewrite E. destruct Hs as (_&?&?&?&?&?&_&->&_). done.
Qed.

Lemma exchange_capacity w d op update w' d' :
  sources_recorded op → update = UpdSwitch ∨ update = UpdRollback →
  apply_shrink_workspace_update w d op update = Ok (w', d') → capacity_agrees w' d'.
Proof.
  intros [Hsrc Hnone] [-> | ->] H b Hb.
  - apply switch_inv in H as (Hh & _ & -> & ->). cbn in *.
    destruct (sv_target_gib (op_home op)) as [target|] eqn:E; cbn.
    + destruct (validate_verified_destination_Ok _ _ _ E Hh) as (_&?&?&?&?&?&_&Hd&_&_&_&_&_&Hc&_).
      rewrite Hd in Hb. cbn in Hb. by simplify_eq.
    + rewrite Hnone in Hb by done. cbn in Hb. auto.
  - injection H as <- <-. cbn in *. auto.
Qed.

(** The claims the workspace is bound to after an exchange are valid ones. *)
Lemma exchange_bindings w d op update w' d' :
  sources_recorded op → (∀ b, sv_source (op_home op) = Some b → binding_is_valid b = true) →
  update = UpdSwitch ∨ update = UpdRollback →
  apply_shrink_workspace_update w d op update = Ok (w', d') →
  ws_state w' = Stopped ∧
  ws_home_volume_binding w' =
    match update with
    | UpdSwitch => option_or (sv_destination (op_home op)) (sv_source (op_home op))
    | _ => sv_source (op_home op)
    end ∧
  (∀ b, ws_home_volume_binding w' = Some b → binding_is_valid b = true).
Proof.
  intros [_ Hnone] Hvalid [-> | ->] H.
  - apply switch_inv in H as (Hh & _ & -> & ->). split_and!; [done..|]. intros b Hb. cbn in Hb.
    destruct (sv_target_gib (op_home op)) as [target|] eqn:E.
    + destruct (validate_verified_destination_Ok _ _ _ E Hh) as (_&?&?&?&?&?&_&Hd&_&_&_&_&Hv&_).
      rewrite Hd in Hb. cbn in Hb. by simplify_eq.
    + rewrite Hnone in Hb by done. cbn in Hb. auto.
  - injection H as <- <-. done.
Qed.

(** ** Concrete data for the witnesses *)
Module Sample.
Definition template : WorkspaceTemplateSpec :=
  standard "registry.example/node:1" Internal (mkResources 6000 4096 0 60).
Definition document : WorkspaceTemplateDocument :=
  mkDocument TEMPLATE_API_VERSION TEMPLATE_KIND "node" template.
Definition source : WorkspaceHomeVolumeBinding :=
  mkBinding WORKSPACE_NAMESPACE "home-w-1-0" "uid-source" 60.
Definition destination : WorkspaceHomeVolumeBinding :=
  mkBinding WORKSPACE_NAMESPACE "shrink-5-home" "uid-destination" 20.
Definition identity (n : string) : StorageVolumeIdentity :=
  mkIdentity ("pv-" +:+ n) ("uid-" +:+ n) "driver" ("handle-" +:+ n) "fast" None None.
Definition home : StorageShrinkVolume :=
  mkVolume (Some 20) (Some source) (Some destination) (Some 1000) (Some 10) true
    (Some (identity "a")) (Some (identity "b")).
Definition workspace : Workspace :=
  mkWorkspace 1 "0000000000000001" 2 3 "dev" (Some 4%N) "default" (Some source) None template
    Ready 7 100 100.
Definition request : StorageShrinkRequest := mkShrinkRequest (Some 20) None 7 false.
Definition operation : StorageShrinkOperation :=
  set_op_original_temporary_storage_gib 10 (set_op_original_home_gib 60
    (set_op_home home (set_op_resume true (operation_new 5 1 request 3 100)))).
End Sample.

Lemma switch_only_verified_witness : ∃ w' d',
  apply_shrink_workspace_update Sample.workspace Sample.document Sample.operation UpdSwitch = Ok (w', d')
  ∧ switchable Sample.home 20.
Proof.
  do 2 eexists. split; [vm_compute; reflexivity|].
  eapply (switch_only_verified Sample.workspace Sample.document Sample.operation);
    [vm_compute; reflexivity|reflexivity].
Defined.
