(* ===== verification/RuntimeEvents.v ===== *)
(** * Runtime events ([src/runtime_incidents], [RuntimeEventCategory] of
    [src/storage/runtime_incidents.rs])

    The typed facts kept of a cluster's event, never its text. *)
From S2P Require Import Prelude Text.

Inductive RuntimeEventCategory :=
  | EphemeralStorage | MemoryPressure | PidPressure | DiskPressure | Evicted
  | TemporaryStorageProvisioning | TemporaryStorageAttachment | VolumeUnavailable
  | ContainerBackoff | ImagePull | Scheduling | HealthCheck | Other.

Inductive RuntimeContainer :=
  | ContainerWorkspace | Ttyd | Buildkitd | WorkspaceScratchInit | WorkspaceBootstrap
  | BuildkitBootstrap.

Inductive RuntimePressureResource := PressureEphemeralStorage | PressureMemory | PressurePids.

Inductive RuntimeDiagnostic :=
  | ContainerLocalEphemeralLimit (container : RuntimeContainer) (limit_bytes : Z)
  | PodLocalEphemeralLimit (limit_bytes : Z)
  | NodeResourcePressure (resource : RuntimePressureResource).

Inductive SchedulingBlocker :=
  | CpuCapacity | MemoryCapacity | StorageCapacity | NodeAffinity | VolumeAffinity | Taint
  | NodeUnavailable.

Record RuntimeEventDetails := mkEventDetails {
  event_uid : option Uuid;
  pod_uid : option Uuid;
  reason : option string;
  container : option RuntimeContainer;
  scheduling_blockers_of : list SchedulingBlocker;
  diagnostic_of : option RuntimeDiagnostic;
}.

#[global] Instance event_category_eq_dec : EqDecision RuntimeEventCategory.
Proof. solve_decision. Defined.
#[global] Instance runtime_container_eq_dec : EqDecision RuntimeContainer.
Proof. solve_decision. Defined.
#[global] Instance pressure_resource_eq_dec : EqDecision RuntimePressureResource.
Proof. solve_decision. Defined.
#[global] Instance runtime_diagnostic_eq_dec : EqDecision RuntimeDiagnostic.
Proof. solve_decision. Defined.
#[global] Instance scheduling_blocker_eq_dec : EqDecision SchedulingBlocker.
Proof. solve_decision. Defined.
#[global] Instance event_details_eq_dec : EqDecision RuntimeEventDetails.
Proof. solve_decision. Defined.

Definition category_as_str (c : RuntimeEventCategory) : string :=
  match c with
  | EphemeralStorage => "ephemeral_storage"
  | MemoryPressure => "memory_pressure"
  | PidPressure => "pid_pressure"
  | DiskPressure => "disk_pressure"
  | Evicted => "evicted"
  | TemporaryStorageProvisioning => "temporary_storage_provisioning"
  | TemporaryStorageAttachment => "temporary_storage_attachment"
  | VolumeUnavailable => "volume_unavailable"
  | ContainerBackoff => "container_backoff"
  | ImagePull => "image_pull"
  | Scheduling => "scheduling"
  | HealthCheck => "health_check"
  | Other => "other"
  end.
