(* ===== verification/Quantity.v ===== *)
(** * Kubernetes quantities ([src/kubernetes/client_home_volume.rs])

    The capacity of a volume is the text of a Kubernetes quantity, such as [20Gi]
    or [2.147483648e10]. [home_volume_capacity_bytes] reads it with 128-bit
    integers and accepts whole numbers of bytes only. [denoted] is what such a
    text means, as a rational number; the theorems compare the two. *)
From stdpp Require Import pretty.
From Stdlib Require Import QArith Qpower.
From S2P Require Import Prelude Text.
#[local] Open Scope Z_scope.

Definition u128_max : Z := 340282366920938463463374607431768211455.
Definition in_u128 (z : Z) : bool := (0 <=? z) && (z <=? u128_max).
Definition checked_mul_u128 (a b : Z) : option Z := guard_range in_u128 (a * b).
#[export] Hint Unfold u128_max in_u128 checked_mul_u128 : mwc_unfold.
(** [10_u128.checked_pow(n)]. *)
Definition checked_pow_10 (n : Z) : option Z := guard_range in_u128 (10 ^ n).

(** [quantity.find(is_ascii_alphabetic)] and [split_at]. *)
Fixpoint split_suffix (bs : list Z) : list Z * list Z :=
  match bs with
  | [] => ([], [])
  | b :: bs' => if is_ascii_alphabetic b then ([], bs) else let parts := split_suffix bs' in (b :: parts.1, parts.2)
  end.

(** The number a run of ASCII digits stands for. *)
Definition decimal (digits : list Z) : Z := foldl (λ n d, 10 * n + (d - 48)) 0 digits.

(** [parse::<u128>] of a text of digits; [parse::<i32>] of any text. *)
Definition parse_u128 (digits : list Z) : option Z :=
  match digits with [] => None | _ => guard_range in_u128 (decimal digits) end.
Definition in_i32 (z : Z) : bool := (-2147483648 <=? z) && (z <=? 2147483647).
Definition parse_i32 (bs : list Z) : option Z :=
  let signed (sign : Z) (digits : list Z) :=
    match digits with
    | [] => None
    | _ => if forallb is_ascii_digit digits then guard_range in_i32 (sign * decimal digits) else None
    end in
  match bs with
  | b :: digits => if b =? 43 then signed 1 digits else if b =? 45 then signed (-1) digits else signed 1 bs
  | [] => None
  end.

(** What a suffix multiplies by: a power of two or a power of ten. *)
Inductive Scale := Binary (exponent : Z) | Decimal (exponent : Z).

Definition suffix_scale (suffix : list Z) : option Scale :=
  let reads s := bool_decide (suffix = bytes s) in
  if reads "Ki"%string then Some (Binary 10) else if reads "Mi"%string then Some (Binary 20)
  else if reads "Gi"%string then Some (Binary 30) else if reads "Ti"%string then Some (Binary 40)
  else if reads "Pi"%string then Some (Binary 50) else if reads "Ei"%string then Some (Binary 60)
  else if reads ""%string then Some (Decimal 0)
  else if reads "n"%string then Some (Decimal (-9)) else if reads "u"%string then Some (Decimal (-6))
  else if reads "m"%string then Some (Decimal (-3)) else if reads "k"%string then Some (Decimal 3)
  else if reads "M"%string then Some (Decimal 6) else if reads "G"%string then Some (Decimal 9)
  else if reads "T"%string then Some (Decimal 12) else if reads "P"%string then Some (Decimal 15)
  else if reads "E"%string then Some (Decimal 18)
  else match suffix with
       | b :: exponent => if (b =? 101) || (b =? 69) then Decimal <$> parse_i32 exponent else None
       | [] => None
       end.

(** The parts of the text: digits before and after the point, and the suffix. *)
Definition quantity_parts (quantity : list Z) : option (list Z * list Z * list Z) :=
  let unsigned := default quantity (strip_prefix (bytes "+") quantity) in
  let '(number, suffix) := split_suffix unsigned in
  let '(whole, fraction) := default (number, []) (split_once [c_dot] number) in
  if bool_decide (whole = []) && bool_decide (fraction = []) || negb (forallb is_ascii_digit (whole ++ fraction))
  then None else Some (whole, fraction, suffix).

Definition quantity_ratio (quantity : list Z) : option (Z * Z) :=
  '(whole, fraction, suffix) ← quantity_parts quantity;
  numerator ← parse_u128 (whole ++ fraction);
  places ← u32_try_from (Z.of_nat (length fraction));
  denominator ← checked_pow_10 places;
  scale ← suffix_scale suffix;
  match scale with
  | Binary exponent =>
      numerator' ← checked_mul_u128 numerator (Z.shiftl 1 exponent);
      multiplier ← checked_pow_10 0;
      numerator'' ← checked_mul_u128 numerator' multiplier;
      Some (numerator'', denominator)
  | Decimal exponent =>
      multiplier ← checked_pow_10 (Z.abs exponent);
      if 0 <=? exponent
      then numerator' ← checked_mul_u128 numerator multiplier; Some (numerator', denominator)
      else denominator' ← checked_mul_u128 denominator multiplier; Some (numerator, denominator')
  end.

Definition home_volume_capacity_bytes (quantity : string) : option Z :=
  '(numerator, denominator) ← quantity_ratio (bytes quantity);
  if negb (numerator mod denominator =? 0) then None
  else count ← u64_try_from (numerator / denominator);
       if count <=? i64_max then Some count else None.

Definition capacity_is_sufficient (quantity : string) (capacity_gib : Z) : bool :=
  is_some_and (checked_mul_u64 capacity_gib (Z.shiftl 1 30)) (λ required,
    is_some_and (home_volume_capacity_bytes quantity) (λ actual, required <=? actual)).

(** ** The meaning of a quantity *)
Definition scale_factor (s : Scale) : Q :=
  match s with Binary e => (2 # 1) ^ e | Decimal e => (10 # 1) ^ e end.
Definition denoted (quantity : list Z) : option Q :=
  '(whole, fraction, suffix) ← quantity_parts quantity;
  s ← suffix_scale suffix;
  Some (inject_Z (decimal (whole ++ fraction)) / (10 # 1) ^ Z.of_nat (length fraction) * scale_factor s)%Q.

(** ** Lemmas *)
Lemma checked_pow_10_Some n m : checked_pow_10 n = Some m → m = 10 ^ n.
Proof. unfold checked_pow_10. by intros [-> _]%guard_range_Some. Qed.
Lemma checked_mul_u128_Some a b c : checked_mul_u128 a b = Some c → c = a * b.
Proof. unfold checked_mul_u128. by intros [-> _]%guard_range_Some. Qed.

Lemma inject_pow (b : Z) n : 0 <= n → ((inject_Z b) ^ n == inject_Z (b ^ n))%Q.
Proof. intros Hn. by rewrite <-Zpower_Qpower. Qed.

Lemma ratio_whole n d b : 0 < d → n = b * d → (inject_Z n / inject_Z d == inject_Z b)%Q.
Proof.
  intros Hd ->. rewrite inject_Z_mult. field. intros E. apply (inject_Z_injective d 0) in E. lia.
Qed.

(** The ratio is the number the text denotes. *)
Lemma quantity_ratio_denoted quantity n d :
  quantity_ratio quantity = Some (n, d) →
  0 < d ∧ ∃ v, denoted quantity = Some v ∧ (v == inject_Z n / inject_Z d)%Q.
Proof.
  unfold quantity_ratio, denoted. destruct (quantity_parts quantity) as [[[whole fraction] suffix]|]; cbn; [|done].
  intros (k & Hk & H)%bind_Some. apply bind_Some in H as (places & [-> Hp]%guard_range_Some & H).
  apply bind_Some in H as (den & ->%checked_pow_10_Some & H). apply bind_Some in H as (s & Hs & H). rewrite Hs. cbn.
  assert (k = decimal (whole ++ fraction)) as ->.
  { revert Hk. unfold parse_u128. destruct (whole ++ fraction); [done|]. by intros [-> _]%guard_range_Some. }
  assert (0 < 10 ^ Z.of_nat (length fraction)) as Hpow by lia.
  assert (∀ e, 0 < e → ¬ (inject_Z e == 0)%Q) as Hnz by (intros e He E%(inject_Z_injective e 0); lia).
  assert (∀ e, (10 # 1) ^ e == inject_Z 10 ^ e)%Q as Hten by done.
  destruct s as [e|e]; cbn [scale_factor].
  - apply bind_Some in H as (n1 & ->%checked_mul_u128_Some & H).
    apply bind_Some in H as (m & ->%checked_pow_10_Some & H).
    apply bind_Some in H as (n2 & ->%checked_mul_u128_Some & [= <- <-]). split; [done|]. eexists. split; [done|].
    assert (0 <= e) as He by (revert Hs; unfold suffix_scale; repeat case_match; intros; simplify_eq; try lia;
      match goal with H : Decimal <$> ?o = _ |- _ => by destruct o end).
    rewrite Z.shiftl_1_l, Z.mul_1_r, inject_Z_mult, Hten, inject_pow, (inject_pow 2) by lia. field. auto.
  - apply bind_Some in H as (m & ->%checked_pow_10_Some & H). destruct (Z.leb_spec 0 e).
    + apply bind_Some in H as (n1 & ->%checked_mul_u128_Some & [= <- <-]). split; [done|]. eexists. split; [done|].
      rewrite Z.abs_eq, inject_Z_mult, Hten, inject_pow, Hten, inject_pow by lia. field. auto.
    + apply bind_Some in H as (d1 & ->%checked_mul_u128_Some & [= <- <-]).
      assert (0 < 10 ^ Z.abs e) by (apply Z.pow_pos_nonneg; lia). split; [nia|]. eexists. split; [done|].
      rewrite Z.abs_neq in * by lia. replace e with (- - e) at 1 by lia.
      rewrite Qpower_opp, inject_Z_mult, !Hten, !inject_pow by lia. field. auto.
Qed.

(** Printed numbers read as themselves. *)
Lemma digit_char d : (d < 10)%N → bytes (String (pretty_N_char d) "") = [48 + Z.of_N d].
Proof.
  intros Hd. destruct d as [|[[[[]|[]|]|[[]|[]|]|]|[[[]|[]|]|[[]|[]|]|]|]]; try done; lia.
Qed.

Lemma printed_go n s :
  forallb is_ascii_digit (bytes s) = true →
  forallb is_ascii_digit (bytes (pretty_N_go n s)) = true ∧
  decimal (bytes (pretty_N_go n s)) = foldl (λ n d, 10 * n + (d - 48)) (Z.of_N n) (bytes s).
Proof.
  revert s. induction (N.lt_wf_0 n) as [n _ IH]. intros s Hs. destruct (decide (0 < n)%N) as [Hn|Hn].
  - rewrite pretty_N_go_step by done. assert (n `mod` 10 < 10)%N as Hmod by (by apply N.mod_lt).
    destruct (IH (n `div` 10)%N ltac:(by apply N.div_lt) (String (pretty_N_char (n `mod` 10)) s)) as [Hd Hv];
      change (String ?a s) with (String a "" +:+ s) in *; rewrite bytes_app, (digit_char _ Hmod) in *.
    + cbn [forallb app]. rewrite Hs, andb_true_r. unfold is_ascii_digit, in_range.
      generalize dependent (n `mod` 10)%N. intros d ?. bool_prop. lia.
    + split; [done|]. rewrite Hv. cbn. f_equal. rewrite N2Z.inj_mod, N2Z.inj_div.
      pose proof (Z.div_mod (Z.of_N n) 10). lia.
  - replace n with 0%N by lia. done.
Qed.

Lemma printed (n : N) :
  forallb is_ascii_digit (bytes (pretty n)) = true ∧ decimal (bytes (pretty n)) = Z.of_N n ∧ bytes (pretty n) ≠ [].
Proof.
  unfold pretty, pretty_N. destruct (decide (n = 0%N)) as [->|Hn]; [done|].
  destruct (printed_go n "" eq_refl) as [Hd Hv]. split_and!; [done|done|].
  intros E. rewrite E in Hv. cbn in Hv. lia.
Qed.

Lemma split_suffix_digits digits suffix :
  forallb is_ascii_digit digits = true → starts_with is_ascii_alphabetic suffix = true →
  split_suffix (digits ++ suffix) = (digits, suffix).
Proof.
  intros Hd Hs. induction digits as [|d digits IH]; cbn in *.
  - destruct suffix; cbn in *; [done|]. by rewrite Hs.
  - bool_prop. rewrite IH by done. destruct (is_ascii_alphabetic d) eqn:E; [|done].
    unfold is_ascii_alphabetic, is_ascii_digit, is_ascii_lowercase, is_ascii_uppercase, in_range in *. width.
Qed.

Lemma split_once_digits digits : forallb is_ascii_digit digits = true → split_once [c_dot] digits = None.
Proof.
  induction digits as [|d digits IH]; cbn [forallb split_once strip_prefix]; [done|].
  intros [Hd Hds]%andb_true_iff. rewrite IH by done.
  destruct (Z.eqb_spec c_dot d) as [<-|]; [by vm_compute in Hd|done].
Qed.

Lemma printed_parts (n : N) suffix :
  starts_with is_ascii_alphabetic (bytes suffix) = true →
  quantity_parts (bytes (pretty n +:+ suffix)) = Some (bytes (pretty n), [], bytes suffix).
Proof.
  intros Hs. destruct (printed n) as (Hd & _ & Hne). unfold quantity_parts. rewrite bytes_app.
  assert (strip_prefix (bytes "+") (bytes (pretty n) ++ bytes suffix) = None) as ->.
  { destruct (bytes (pretty n)) as [|d ds]; [done|]. change (bytes "+") with [43]. cbn [app strip_prefix].
    destruct (Z.eqb_spec 43 d) as [<-|]; [by vm_compute in Hd|done]. }
  cbn [default from_option]. rewrite split_suffix_digits by done. rewrite split_once_digits by done.
  cbn [default from_option]. rewrite app_nil_r, Hd. destruct (bytes (pretty n)); [done|]. done.
Qed.

(** A capacity that is accepted is exactly the number the text denotes: nothing
    is rounded, and nothing beyond 63 bits is accepted. A capacity the service
    itself writes, in whole GiB, is read back as that many bytes. *)
Theorem capacity_exact quantity count (n : N) :
  (home_volume_capacity_bytes quantity = Some count →
     0 <= count <= i64_max ∧ ∃ v, denoted (bytes quantity) = Some v ∧ (v == inject_Z count)%Q) ∧
  (Z.of_N n * 2 ^ 30 <= i64_max → home_volume_capacity_bytes (pretty n +:+ "Gi") = Some (Z.of_N n * 2 ^ 30)).
Proof.
  split.
  - unfold home_volume_capacity_bytes. intros ([a b] & Hr & H)%bind_Some.
    apply quantity_ratio_denoted in Hr as (Hb & v & Hv & E).
    destruct (Z.eqb_spec (a mod b) 0) as [Hm|]; cbn in H; [|done].
    apply bind_Some in H as (c & [-> Hc]%guard_range_Some & H).
    destruct (Z.leb_spec (a / b) i64_max); [|done]. injection H as <-.
    split; [width|]. exists v. split; [done|]. rewrite E. apply ratio_whole; [done|].
    pose proof (Z.div_mod a b). lia.
  - intros Hn. destruct (printed n) as (_ & Hv & Hne). unfold home_volume_capacity_bytes, quantity_ratio.
    rewrite printed_parts by done. cbn [mbind option_bind]. rewrite app_nil_r.
    assert (parse_u128 (bytes (pretty n)) = Some (Z.of_N n)) as ->.
    { unfold parse_u128. destruct (bytes (pretty n)); [done|]. rewrite Hv. apply guard_range_Some. split; [done|]. width. }
    change (u32_try_from _) with (Some 0). cbn [mbind option_bind].
    change (checked_pow_10 0) with (Some 1). change (suffix_scale _) with (Some (Binary 30)). cbn [mbind option_bind].
    change (Z.shiftl 1 30) with 1073741824.
    assert (checked_mul_u128 (Z.of_N n) 1073741824 = Some (Z.of_N n * 2 ^ 30)) as ->
      by (apply guard_range_Some; split; [lia|]; width). cbn [mbind option_bind].
    assert (checked_mul_u128 (Z.of_N n * 2 ^ 30) 1 = Some (Z.of_N n * 2 ^ 30)) as ->
      by (apply guard_range_Some; split; [lia|]; width). cbn [mbind option_bind].
    rewrite Zmod_1_r, Z.div_1_r. cbn.
    assert (u64_try_from (Z.of_N n * 2 ^ 30) = Some (Z.of_N n * 2 ^ 30)) as -> by (apply guard_range_Some; split; [lia|]; width).
    cbn. by destruct (Z.leb_spec (Z.of_N n * 2 ^ 30) i64_max); [|lia].
Qed.

Example capacities :
  home_volume_capacity_bytes "2.147483648e10" = Some (20 * 2 ^ 30) ∧ home_volume_capacity_bytes "1000m" = Some 1 ∧
  home_volume_capacity_bytes "8Ei" = None ∧ home_volume_capacity_bytes "-1Gi" = None ∧
  home_volume_capacity_bytes "1.2.3Gi" = None ∧ capacity_is_sufficient "19.999999999Gi" 20 = false.
Proof. by vm_compute. Qed.

Lemma capacity_exact_witness :
  home_volume_capacity_bytes "+20.0Gi" = Some 21474836480 ∧
  (∃ v, denoted (bytes "+20.0Gi") = Some v ∧ (v == inject_Z 21474836480)%Q) ∧
  home_volume_capacity_bytes "20Gi" = Some 21474836480.
Proof.
  assert (home_volume_capacity_bytes "+20.0Gi" = Some 21474836480) as E by (by vm_compute).
  split; [exact E|split].
  - apply (proj1 (capacity_exact "+20.0Gi" 21474836480 20) E).
  - apply (proj2 (capacity_exact "+20.0Gi" 21474836480 20)). by vm_compute.
Defined.
