(* ===== verification/Net.v ===== *)
(** * Addresses of the network

    What the service uses of [std::net]: reading an [IpAddr] from text and asking
    whether an address is public. The parser follows the standard library's
    recursive descent; a parser takes the bytes that are left and returns a value
    with what it has not consumed. *)
From stdpp Require Import pretty.
From S2P Require Import Prelude Text Quantity.

Inductive IpAddr :=
  | V4 (a b c d : Z)
  | V6 (segments : list Z).

(** [char::to_digit]. *)
Definition to_digit (radix c : Z) : option Z :=
  let value :=
    if is_ascii_digit c then Some (c - 48)
    else if is_ascii_lowercase c then Some (c - 87)
    else if is_ascii_uppercase c then Some (c - 55) else None in
  value ← value; if value <? radix then Some value else None.

Fixpoint read_digits (radix : Z) (value : Z) (count : nat) (bs : list Z) : Z * nat * list Z :=
  match bs with
  | b :: bs' =>
      match to_digit radix b with
      | Some digit => read_digits radix (value * radix + digit) (S count) bs'
      | None => (value, count, bs)
      end
  | [] => (value, count, [])
  end.

(** [read_number(radix, Some(max_digits), allow_zero_prefix)] for an integer type
    with greatest value [max]. *)
Definition read_number (radix max : Z) (max_digits : nat) (allow_zero_prefix : bool) (bs : list Z) : option (Z * list Z) :=
  let '(value, count, rest) := read_digits radix 0 0 bs in
  if (max_digits <? count)%nat || (count =? 0)%nat then None
  else if negb allow_zero_prefix && starts_with (Z.eqb 48) bs && (1 <? count)%nat then None
  else if value <=? max then Some (value, rest) else None.

Definition read_given_char (c : Z) (bs : list Z) : option (list Z) := strip_prefix [c] bs.

Definition read_separator {A} (sep : Z) (index : nat) (inner : list Z → option (A * list Z)) (bs : list Z) : option (A * list Z) :=
  if (0 <? index)%nat then bs ← read_given_char sep bs; inner bs else inner bs.

Definition read_octet : list Z → option (Z * list Z) := read_number 10 255 3 false.

Definition read_ipv4_addr (bs : list Z) : option (Z * Z * Z * Z * list Z) :=
  '(a, bs) ← read_separator c_dot 0 read_octet bs;
  '(b, bs) ← read_separator c_dot 1 read_octet bs;
  '(c, bs) ← read_separator c_dot 2 read_octet bs;
  '(d, bs) ← read_separator c_dot 3 read_octet bs;
  Some (a, b, c, d, bs).

Definition c_colon : Z := 58.

(** [read_groups]: up to [left] groups from index [i] on; whether they end in an
    embedded IPv4 address. *)
Fixpoint read_groups (left i : nat) (bs : list Z) : list Z * bool * list Z :=
  match left with
  | O => ([], false, bs)
  | S left' =>
      let embedded :=
        if (0 <? left')%nat
        then read_separator c_colon i (λ bs, '(a, b, c, d, rest) ← read_ipv4_addr bs; Some ([a * 256 + b; c * 256 + d], rest)) bs
        else None in
      match embedded with
      | Some (groups, rest) => (groups, true, rest)
      | None =>
          match read_separator c_colon i (read_number 16 u16_max 4 true) bs with
          | Some (g, rest) => let '(gs, v4, rest') := read_groups left' (S i) rest in (g :: gs, v4, rest')
          | None => ([], false, bs)
          end
      end
  end.

Definition read_ipv6_addr (bs : list Z) : option (list Z * list Z) :=
  let '(head, head_v4, rest) := read_groups 8 0 bs in
  if (length head =? 8)%nat then Some (head, rest)
  else if head_v4 then None
  else
    rest ← read_given_char c_colon rest;
    rest ← read_given_char c_colon rest;
    let '(tail, _, rest) := read_groups (8 - (length head + 1)) 0 rest in
    Some (head ++ replicate (8 - length head - length tail) 0 ++ tail, rest).

(** [str::parse::<IpAddr>]: the whole text is read. *)
Definition parse_ip_addr (text : string) : option IpAddr :=
  let whole {A} (r : option (A * list Z)) : option A :=
    '(a, rest) ← r; if bool_decide (rest = []) then Some a else None in
  match read_ipv4_addr (bytes text) with
  | Some (a, b, c, d, rest) => whole (Some (V4 a b c d, rest))
  | None => V6 <$> whole (read_ipv6_addr (bytes text))
  end.

(** ** Classification *)
Definition is_private (a b : Z) : bool :=
  (a =? 10) || ((a =? 172) && in_range 16 31 b) || ((a =? 192) && (b =? 168)).
Definition v4_is_unspecified (a b c d : Z) : bool := (a =? 0) && (b =? 0) && (c =? 0) && (d =? 0).
Definition v4_unsafe (a b c d : Z) : bool :=
  is_private a b || (a =? 127) || ((a =? 169) && (b =? 254)) || v4_is_unspecified a b c d.
Definition v6_unsafe (segments : list Z) : bool :=
  let first := default 0 (head segments) in
  bool_decide (segments = [0; 0; 0; 0; 0; 0; 0; 1]) || (Z.land first 65024 =? 64512) || (Z.land first 65472 =? 65152)
  || bool_decide (segments = [0; 0; 0; 0; 0; 0; 0; 0]).

Definition unsafe_address (ip : IpAddr) : bool :=
  match ip with V4 a b c d => v4_unsafe a b c d | V6 segments => v6_unsafe segments end.

(** ** Lemmas *)

(** The text of an IPv4 address, as [Ipv4Addr]'s [Display] writes it. *)
Definition dotted (a b c d : N) : string := pretty a +:+ "." +:+ pretty b +:+ "." +:+ pretty c +:+ "." +:+ pretty d.

Example parsed_addresses :
  parse_ip_addr "192.168.1.20" = Some (V4 192 168 1 20) ∧ parse_ip_addr "192.168.01.20" = None ∧
  parse_ip_addr "256.1.1.1" = None ∧ parse_ip_addr "1.2.3" = None ∧ parse_ip_addr "fe80::1" = Some (V6 [65152; 0; 0; 0; 0; 0; 0; 1]) ∧
  parse_ip_addr "::ffff:127.0.0.1" = Some (V6 [0; 0; 0; 0; 0; 65535; 32512; 1]) ∧ parse_ip_addr "[::1]" = None ∧
  parse_ip_addr "::" = Some (V6 [0; 0; 0; 0; 0; 0; 0; 0]) ∧ parse_ip_addr "example.org" = None.
Proof. by vm_compute. Qed.

Lemma to_digit_10 d : is_ascii_digit d = true → to_digit 10 d = Some (d - 48).
Proof.
  intros Hd. unfold to_digit. rewrite Hd. cbn. unfold is_ascii_digit, in_range in Hd. bool_prop.
  by rewrite (proj2 (Z.ltb_lt _ _)) by lia.
Qed.

Lemma read_digits_decimal digits rest value count :
  forallb is_ascii_digit digits = true → starts_with (λ b, is_some (to_digit 10 b)) rest = false →
  read_digits 10 value count (digits ++ rest) =
  (foldl (λ n d, 10 * n + (d - 48)) value digits, (count + length digits)%nat, rest).
Proof.
  revert value count. induction digits as [|d digits IH]; intros value count Hd Hr; cbn [app foldl length].
  - rewrite Nat.add_0_r. destruct rest as [|b rest]; [done|]. cbn in *. by destruct (to_digit 10 b).
  - cbn in Hd. bool_prop. cbn [read_digits]. rewrite to_digit_10, IH by done.
    by rewrite Nat.add_succ_r, (Z.mul_comm 10 value).
Qed.

(** An octet prints as at most three digits without a leading zero. *)
Definition short_print (n : N) : bool :=
  let bs := bytes (pretty n) in
  (length bs <=? 3)%nat && (0 <? length bs)%nat && negb (starts_with (Z.eqb 48) bs && (1 <? length bs)%nat).

Lemma octet_short_print n : (n < 256)%N → short_print n = true.
Proof.
  intros Hn. assert (Hall : forallb short_print (N.of_nat <$> seq 0 256) = true) by (by vm_compute).
  apply (forallb_elem _ _ _ Hall), list_elem_of_fmap. exists (N.to_nat n). split; [lia|].
  apply list_elem_of_In, in_seq. lia.
Qed.

Lemma read_octet_printed n rest :
  (n < 256)%N → starts_with (λ b, is_some (to_digit 10 b)) rest = false →
  read_octet (bytes (pretty n) ++ rest) = Some (Z.of_N n, rest).
Proof.
  intros Hn Hr. destruct (printed n) as (Hd & Hv & Hne). pose proof (octet_short_print n Hn) as Hs. unfold short_print in Hs.
  unfold read_octet, read_number. rewrite read_digits_decimal by done. fold (decimal (bytes (pretty n))). rewrite Hv.
  assert (starts_with (Z.eqb 48) (bytes (pretty n) ++ rest) = starts_with (Z.eqb 48) (bytes (pretty n))) as ->
    by (by destruct (bytes (pretty n))).
  cbn [Nat.add negb andb]. destruct (length (bytes (pretty n))) as [|[|[|[|l]]]] eqn:Hl; try done;
    cbn in Hs |- *; rewrite ?andb_true_r, ?andb_false_r in *; bool_prop;
    repeat match goal with H : starts_with _ _ = _ |- _ => rewrite H end; by rewrite (proj2 (Z.leb_le _ _)) by lia.
Qed.

Lemma parse_dotted a b c d :
  (a < 256)%N → (b < 256)%N → (c < 256)%N → (d < 256)%N →
  parse_ip_addr (dotted a b c d) = Some (V4 (Z.of_N a) (Z.of_N b) (Z.of_N c) (Z.of_N d)).
Proof.
  intros Ha Hb Hc Hd. unfold parse_ip_addr, read_ipv4_addr, dotted. rewrite !bytes_app.
  change (bytes ".") with [c_dot]. unfold read_separator. cbn [Nat.ltb Nat.leb]. rewrite read_octet_printed by done.
  cbn [mbind option_bind]. unfold read_given_char.
  do 2 (cbn [app strip_prefix]; rewrite Z.eqb_refl; cbn [mbind option_bind]; rewrite read_octet_printed by done; cbn [mbind option_bind]).
  cbn [app strip_prefix]. rewrite Z.eqb_refl. cbn [mbind option_bind].
  rewrite <-(app_nil_r (bytes (pretty d))), read_octet_printed by done. done.
Qed.

(** No address is read from a text in brackets. *)
Lemma bracketed_not_parsed text : starts_with (Z.eqb 91) (bytes text) = true → parse_ip_addr text = None.
Proof.
  unfold parse_ip_addr. destruct (bytes text) as [|b bs]; [done|]. cbn [starts_with]. intros <-%Z.eqb_eq. done.
Qed.
