(* ===== verification/Database.v ===== *)
(** * The database

    Tables of [src/storage/schema.rs] as finite maps from their primary keys,
    with the columns the modelled statements read or write. A statement is a
    function on the tables; [transaction] undoes the writes of a body that
    returns an error, as dropping an uncommitted [sqlx] transaction does. The two
    backends run the same statements; what differs is locking ([FOR UPDATE],
    [SKIP LOCKED]), which the atomicity of a modelled transaction stands for.
    [StorageError.Database] arises from constraint violations; that a connection
    breaks is modelled where it matters, in the handlers of [Reconcile].

    JSON and YAML columns hold the value their text denotes; the [state] and
    [status] columns the enumeration whose [as_str] is written there. *)
From S2P Require Import Prelude Text Json Auth Quota Templates Workspaces Errors ShrinkOperation RuntimeEvents.

(** The backend the installation runs on. *)
Inductive Backend := Sqlite | Postgres.
Class SqlBackend := backend : Backend.

(** ** Rows *)
Record WorkspaceRow := mkWorkspaceRow {
  wr_installation_id : string;
  wr_short_id : string;
  wr_organization_id : Uuid;
  wr_owner_id : Uuid;
  wr_name : string;
  wr_template_id : option Uuid;
  wr_state : WorkspaceState;
  wr_cpu_millis : Z;
  wr_memory_mib : Z;
  wr_gpu_count : Z;
  wr_disk_gib : Z;
  wr_temporary_storage_gib : Z;
  wr_node_pool : string;
  wr_generation : Z;
  wr_created_at : Z;
  wr_updated_at : Z;
  wr_snapshot : WorkspaceTemplateDocument;  (** [template_snapshot_yaml] *)
  wr_home_pvc_namespace : option string;
  wr_home_pvc_name : option string;
  wr_home_pvc_uid : option string;
  wr_home_pvc_capacity_gib : option Z;
  wr_scratch_volume_binding : option WorkspaceHomeVolumeBinding;
}.

Inductive JobStatus := JobPending | JobRunning | JobCompleted | JobFailed.
#[global] Instance job_status_eq_dec : EqDecision JobStatus.
Proof. solve_decision. Defined.

Record JobRow := mkJobRow {
  j_installation_id : string;
  j_kind : string;
  j_workspace_id : option Uuid;
  j_payload : Value;
  j_status : JobStatus;
  j_available_at : Z;
  j_lease_owner : option string;
  j_lease_expires_at : option Z;
  j_attempts : Z;
  j_created_at : Z;
  j_updated_at : Z;
}.

Record LeaseRow := mkLeaseRow {
  l_owner : string;
  l_expires_at : Z;
  l_updated_at : Z;
}.

Record ShrinkRow := mkShrinkRow {
  s_installation_id : string;
  s_workspace_id : Uuid;
  s_operation : StorageShrinkOperation;
  s_active : bool;
  s_created_at : Z;
  s_updated_at : Z;
}.

Record AuditRow := mkAuditRow {
  a_installation_id : string;
  a_actor_user_id : option Uuid;
  a_organization_id : option Uuid;
  a_workspace_id : option Uuid;
  a_action : string;
  a_metadata : Value;
  a_created_at : Z;
}.

Record EventRow := mkEventRow {
  e_installation_id : string;
  e_organization_id : Uuid;
  e_workspace_id : option Uuid;
  e_kind : string;
  e_payload : Value;
  e_created_at : Z;
}.

Record WebhookRow := mkWebhookRow {
  wh_installation_id : string;
  wh_organization_id : Uuid;
  wh_url : string;
  wh_event_prefix : string;
  wh_ciphertext : string;
  wh_value_nonce : string;
  wh_wrapped_data_key : string;
  wh_key_nonce : string;
  wh_enabled : bool;
  wh_created_by : Uuid;
  wh_created_at : Z;
  wh_updated_at : Z;
}.

Record SshIdentityRow := mkSshIdentityRow {
  si_public_key : string;
  si_fingerprint : string;
  si_ciphertext : string;
  si_value_nonce : string;
  si_wrapped_data_key : string;
  si_key_nonce : string;
  si_created_at : Z;
}.

Record TombstoneRow := mkTombstoneRow {
  ts_organization_id : Uuid;
  ts_deleted_at : Z;
}.

(** Encrypted columns hold their Base64 text. *)
Record InjectionRow := mkInjectionRow {
  ir_installation_id : string;
  ir_scope : string;
  ir_scope_id : Uuid;
  ir_key : string;
  ir_kind : string;
  ir_target : string;
  ir_value_encoding : string;
  ir_ciphertext : string;
  ir_value_nonce : string;
  ir_wrapped_data_key : string;
  ir_key_nonce : string;
  ir_sensitive : bool;
  ir_locked : bool;
  ir_version : Z;
  ir_file_mode : option Z;
  ir_owner_name : option string;
  ir_group_name : option string;
  ir_template_selector : option string;
  ir_labels : list (string * string);
  ir_created_by : Uuid;
  ir_created_at : Z;
  ir_updated_at : Z;
}.

Record TicketRow := mkTicketRow {
  tk_installation_id : string;
  tk_ticket_hash : string;
  tk_organization_id : Uuid;
  tk_workspace_id : Uuid;
  tk_user_id : Uuid;
  tk_expires_at : Z;
  tk_consumed_at : option Z;
  tk_created_at : Z;
}.

Record IdempotencyRow := mkIdempotencyRow {
  id_request_hash : string;
  id_response_json : string;
  id_status_code : Z;
  id_created_at : Z;
  id_expires_at : Z;
}.

Record QuotaRow := mkQuotaRow {
  qr_cpu_millis : Z;
  qr_memory_mib : Z;
  qr_gpu_count : Z;
  qr_disk_gib : Z;
  qr_temporary_storage_gib : Z;
  qr_updated_at : Z;
}.

Record ImagePolicyRow := mkImagePolicyRow {
  ip_contract_version : Z;
  ip_enabled : bool;
  ip_created_at : Z;
  ip_updated_at : Z;
}.

(** The template's YAML is kept as text: creation compares it. *)
Record TemplateRow := mkTemplateRow {
  tr_installation_id : string;
  tr_organization_id : option Uuid;
  tr_name : string;
  tr_image : string;
  tr_access_mode : AccessMode;
  tr_cpu_millis : Z;
  tr_memory_mib : Z;
  tr_gpu_count : Z;
  tr_disk_gib : Z;
  tr_temporary_storage_gib : Z;
  tr_enabled : bool;
  tr_created_at : Z;
  tr_updated_at : Z;
  tr_yaml : string;
}.

Record NodePoolRow := mkNodePoolRow {
  np_display_name : string;
  np_placement : ResolvedPlacement;
  np_enabled : bool;
  np_created_at : Z;
  np_updated_at : Z;
}.

Record RuntimeSettingsRow := mkRuntimeSettingsRow {
  rs_job_worker_concurrency : Z;
  rs_cpu_overcommit_ratio : Z;
  rs_updated_at : Z;
}.

Record UserRow := mkUserRow {
  u_installation_id : string;
  u_display_name : string;
  u_token_hash : string;
  u_system_admin : bool;
  u_disabled : bool;
  u_created_at : Z;
  u_avatar_url : option string;
}.

Record OrganizationRow := mkOrganizationRow {
  o_installation_id : string;
  o_name : string;
  o_created_at : Z;
}.

Record MembershipRow := mkMembershipRow {
  m_role : Role;
  m_created_at : Z;
}.

Record ApiKeyRow := mkApiKeyRow {
  k_installation_id : string;
  k_user_id : Uuid;
  k_name : string;
  k_token_prefix : string;
  k_token_hash : string;
  k_token : option string;
  k_last_used_at : option Z;
  k_created_at : Z;
  k_revoked_at : option Z;
  k_scopes : list ApiKeyScope;
  k_expires_at : option Z;
  k_allowed_template_ids : option (list Uuid);
}.

Record PortMappingRow := mkPortMappingRow {
  pm_installation_id : string;
  pm_organization_id : Uuid;
  pm_workspace_id : Uuid;
  pm_internal_port : Z;
  pm_display_name : option string;
  pm_created_by : Uuid;
  pm_created_at : Z;
}.

Record PortTicketRow := mkPortTicketRow {
  pt_installation_id : string;
  pt_mapping_id : Uuid;
  pt_user_id : Uuid;
  pt_ticket_hash : string;
  pt_expires_at : Z;
  pt_consumed_at : option Z;
  pt_created_at : Z;
}.

Record PortSessionRow := mkPortSessionRow {
  ps_installation_id : string;
  ps_mapping_id : Uuid;
  ps_user_id : Uuid;
  ps_session_hash : string;
  ps_expires_at : Z;
  ps_revoked_at : option Z;
  ps_created_at : Z;
}.

Record IncidentRow := mkIncidentRow {
  ic_installation_id : string;
  ic_workspace_id : Uuid;
  ic_category : RuntimeEventCategory;
  ic_observed_at : Z;
  ic_count : Z;
  ic_first_seen_at : Z;
  ic_last_seen_at : Z;
  ic_details : RuntimeEventDetails;
}.

(** ** The database state *)
Record Db := mkDb {
  t_workspaces : gmap Uuid WorkspaceRow;  (** [workspaces] *)
  t_jobs : gmap Uuid JobRow;  (** [jobs] *)
  t_leases : gmap (string * Uuid) LeaseRow;  (** [workspace_leases] *)
  t_shrinks : gmap Uuid ShrinkRow;  (** [workspace_storage_shrinks] *)
  t_audit : gmap Uuid AuditRow;  (** [audit_log] *)
  t_events : gmap Uuid EventRow;  (** [events] *)
  t_webhooks : gmap Uuid WebhookRow;  (** [webhook_subscriptions] *)
  t_tombstones : gmap (string * Uuid) TombstoneRow;  (** [workspace_tombstones] *)
  t_injections : gmap Uuid InjectionRow;  (** [injection_items] *)
  t_injection_refs : gmap (string * Uuid * string * string) Z;  (** [workspace_injection_refs] *)
  t_ssh_identities : gmap (string * Uuid) SshIdentityRow;  (** [workspace_ssh_identities] *)
  t_web_shell_tickets : gmap Uuid TicketRow;  (** [web_shell_tickets] *)
  t_port_mappings : gmap Uuid PortMappingRow;  (** [workspace_port_mappings] *)
  t_port_tickets : gmap Uuid PortTicketRow;  (** [workspace_port_mapping_tickets] *)
  t_port_sessions : gmap Uuid PortSessionRow;  (** [workspace_port_mapping_sessions] *)
  t_incidents : gmap string IncidentRow;  (** [workspace_runtime_incidents] *)
  t_idempotency : gmap (string * string * string) IdempotencyRow;  (** [idempotency_keys] *)
  t_organization_quotas : gmap (string * Uuid) QuotaRow;  (** [organization_quotas] *)
  t_user_quotas : gmap (string * Uuid) QuotaRow;  (** [user_quotas] *)
  t_image_policies : gmap (string * string) ImagePolicyRow;  (** [image_policies] *)
  t_templates : gmap Uuid TemplateRow;  (** [workspace_templates] *)
  t_template_node_pools : gmap (string * Uuid * string) bool;  (** [workspace_template_node_pools] *)
  t_node_pools : gmap (string * string) NodePoolRow;  (** [node_pools] *)
  t_runtime_settings : gmap string RuntimeSettingsRow;  (** [installation_runtime_settings] *)
  t_users : gmap Uuid UserRow;  (** [users] *)
  t_organizations : gmap Uuid OrganizationRow;  (** [organizations] *)
  t_memberships : gmap (string * Uuid * Uuid) MembershipRow;  (** [organization_memberships] *)
  t_api_keys : gmap Uuid ApiKeyRow;  (** [user_api_keys] *)
  uuid_source : nat → Uuid;  (** what successive [Uuid::now_v7()] calls return *)
  uuid_drawn : nat;  (** how many identifiers were drawn *)
}.

Definition set_t_workspaces v (db : Db) : Db :=
  mkDb v (t_jobs db) (t_leases db) (t_shrinks db) (t_audit db) (t_events db) (t_webhooks db)
    (t_tombstones db) (t_injections db) (t_injection_refs db) (t_ssh_identities db)
    (t_web_shell_tickets db) (t_port_mappings db) (t_port_tickets db) (t_port_sessions db)
    (t_incidents db) (t_idempotency db) (t_organization_quotas db) (t_user_quotas db)
    (t_image_policies db) (t_templates db) (t_template_node_pools db) (t_node_pools db)
    (t_runtime_settings db) (t_users db) (t_organizations db) (t_memberships db) (t_api_keys db)
    (uuid_source db) (uuid_drawn db).
Definition set_t_jobs v (db : Db) : Db :=
  mkDb (t_workspaces db) v (t_leases db) (t_shrinks db) (t_audit db) (t_events db)
    (t_webhooks db) (t_tombstones db) (t_injections db) (t_injection_refs db)
    (t_ssh_identities db) (t_web_shell_tickets db) (t_port_mappings db) (t_port_tickets db)
    (t_port_sessions db) (t_incidents db) (t_idempotency db) (t_organization_quotas db)
    (t_user_quotas db) (t_image_policies db) (t_templates db) (t_template_node_pools db)
    (t_node_pools db) (t_runtime_settings db) (t_users db) (t_organizations db)
    (t_memberships db) (t_api_keys db) (uuid_source db) (uuid_drawn db).
Definition set_t_leases v (db : Db) : Db :=
  mkDb (t_workspaces db) (t_jobs db) v (t_shrinks db) (t_audit db) (t_events db) (t_webhooks db)
    (t_tombstones db) (t_injections db) (t_injection_refs db) (t_ssh_identities db)
    (t_web_shell_tickets db) (t_port_mappings db) (t_port_tickets db) (t_port_sessions db)
    (t_incidents db) (t_idempotency db) (t_organization_quotas db) (t_user_quotas db)
    (t_image_policies db) (t_templates db) (t_template_node_pools db) (t_node_pools db)
    (t_runtime_settings db) (t_users db) (t_organizations db) (t_memberships db) (t_api_keys db)
    (uuid_source db) (uuid_drawn db).
Definition set_t_shrinks v (db : Db) : Db :=
  mkDb (t_workspaces db) (t_jobs db) (t_leases db) v (t_audit db) (t_events db) (t_webhooks db)
    (t_tombstones db) (t_injections db) (t_injection_refs db) (t_ssh_identities db)
    (t_web_shell_tickets db) (t_port_mappings db) (t_port_tickets db) (t_port_sessions db)
    (t_incidents db) (t_idempotency db) (t_organization_quotas db) (t_user_quotas db)
    (t_image_policies db) (t_templates db) (t_template_node_pools db) (t_node_pools db)
    (t_runtime_settings db) (t_users db) (t_organizations db) (t_memberships db) (t_api_keys db)
    (uuid_source db) (uuid_drawn db).
Definition set_t_audit v (db : Db) : Db :=
  mkDb (t_workspaces db) (t_jobs db) (t_leases db) (t_shrinks db) v (t_events db)
    (t_webhooks db) (t_tombstones db) (t_injections db) (t_injection_refs db)
    (t_ssh_identities db) (t_web_shell_tickets db) (t_port_mappings db) (t_port_tickets db)
    (t_port_sessions db) (t_incidents db) (t_idempotency db) (t_organization_quotas db)
    (t_user_quotas db) (t_image_policies db) (t_templates db) (t_template_node_pools db)
    (t_node_pools db) (t_runtime_settings db) (t_users db) (t_organizations db)
    (t_memberships db) (t_api_keys db) (uuid_source db) (uuid_drawn db).
Definition set_t_events v (db : Db) : Db :=
  mkDb (t_workspaces db) (t_jobs db) (t_leases db) (t_shrinks db) (t_audit db) v (t_webhooks db)
    (t_tombstones db) (t_injections db) (t_injection_refs db) (t_ssh_identities db)
    (t_web_shell_tickets db) (t_port_mappings db) (t_port_tickets db) (t_port_sessions db)
    (t_incidents db) (t_idempotency db) (t_organization_quotas db) (t_user_quotas db)
    (t_image_policies db) (t_templates db) (t_template_node_pools db) (t_node_pools db)
    (t_runtime_settings db) (t_users db) (t_organizations db) (t_memberships db) (t_api_keys db)
    (uuid_source db) (uuid_drawn db).
Definition set_t_webhooks v (db : Db) : Db :=
  mkDb (t_workspaces db) (t_jobs db) (t_leases db) (t_shrinks db) (t_audit db) (t_events db) v
    (t_tombstones db) (t_injections db) (t_injection_refs db) (t_ssh_identities db)
    (t_web_shell_tickets db) (t_port_mappings db) (t_port_tickets db) (t_port_sessions db)
    (t_incidents db) (t_idempotency db) (t_organization_quotas db) (t_user_quotas db)
    (t_image_policies db) (t_templates db) (t_template_node_pools db) (t_node_pools db)
    (t_runtime_settings db) (t_users db) (t_organizations db) (t_memberships db) (t_api_keys db)
    (uuid_source db) (uuid_drawn db).
Definition set_t_tombstones v (db : Db) : Db :=
  mkDb (t_workspaces db) (t_jobs db) (t_leases db) (t_shrinks db) (t_audit db) (t_events db)
    (t_webhooks db) v (t_injections db) (t_injection_refs db) (t_ssh_identities db)
    (t_web_shell_tickets db) (t_port_mappings db) (t_port_tickets db) (t_port_sessions db)
    (t_incidents db) (t_idempotency db) (t_organization_quotas db) (t_user_quotas db)
    (t_image_policies db) (t_templates db) (t_template_node_pools db) (t_node_pools db)
    (t_runtime_settings db) (t_users db) (t_organizations db) (t_memberships db) (t_api_keys db)
    (uuid_source db) (uuid_drawn db).
Definition set_t_injections v (db : Db) : Db :=
  mkDb (t_workspaces db) (t_jobs db) (t_leases db) (t_shrinks db) (t_audit db) (t_events db)
    (t_webhooks db) (t_tombstones db) v (t_injection_refs db) (t_ssh_identities db)
    (t_web_shell_tickets db) (t_port_mappings db) (t_port_tickets db) (t_port_sessions db)
    (t_incidents db) (t_idempotency db) (t_organization_quotas db) (t_user_quotas db)
    (t_image_policies db) (t_templates db) (t_template_node_pools db) (t_node_pools db)
    (t_runtime_settings db) (t_users db) (t_organizations db) (t_memberships db) (t_api_keys db)
    (uuid_source db) (uuid_drawn db).
Definition set_t_injection_refs v (db : Db) : Db :=
  mkDb (t_workspaces db) (t_jobs db) (t_leases db) (t_shrinks db) (t_audit db) (t_events db)
    (t_webhooks db) (t_tombstones db) (t_injections db) v (t_ssh_identities db)
    (t_web_shell_tickets db) (t_port_mappings db) (t_port_tickets db) (t_port_sessions db)
    (t_incidents db) (t_idempotency db) (t_organization_quotas db) (t_user_quotas db)
    (t_image_policies db) (t_templates db) (t_template_node_pools db) (t_node_pools db)
    (t_runtime_settings db) (t_users db) (t_organizations db) (t_memberships db) (t_api_keys db)
    (uuid_source db) (uuid_drawn db).
Definition set_t_ssh_identities v (db : Db) : Db :=
  mkDb (t_workspaces db) (t_jobs db) (t_leases db) (t_shrinks db) (t_audit db) (t_events db)
    (t_webhooks db) (t_tombstones db) (t_injections db) (t_injection_refs db) v
    (t_web_shell_tickets db) (t_port_mappings db) (t_port_tickets db) (t_port_sessions db)
    (t_incidents db) (t_idempotency db) (t_organization_quotas db) (t_user_quotas db)
    (t_image_policies db) (t_templates db) (t_template_node_pools db) (t_node_pools db)
    (t_runtime_settings db) (t_users db) (t_organizations db) (t_memberships db) (t_api_keys db)
    (uuid_source db) (uuid_drawn db).
Definition set_t_web_shell_tickets v (db : Db) : Db :=
  mkDb (t_workspaces db) (t_jobs db) (t_leases db) (t_shrinks db) (t_audit db) (t_events db)
    (t_webhooks db) (t_tombstones db) (t_injections db) (t_injection_refs db)
    (t_ssh_identities db) v (t_port_mappings db) (t_port_tickets db) (t_port_sessions db)
    (t_incidents db) (t_idempotency db) (t_organization_quotas db) (t_user_quotas db)
    (t_image_policies db) (t_templates db) (t_template_node_pools db) (t_node_pools db)
    (t_runtime_settings db) (t_users db) (t_organizations db) (t_memberships db) (t_api_keys db)
    (uuid_source db) (uuid_drawn db).
Definition set_t_port_mappings v (db : Db) : Db :=
  mkDb (t_workspaces db) (t_jobs db) (t_leases db) (t_shrinks db) (t_audit db) (t_events db)
    (t_webhooks db) (t_tombstones db) (t_injections db) (t_injection_refs db)
    (t_ssh_identities db) (t_web_shell_tickets db) v (t_port_tickets db) (t_port_sessions db)
    (t_incidents db) (t_idempotency db) (t_organization_quotas db) (t_user_quotas db)
    (t_image_policies db) (t_templates db) (t_template_node_pools db) (t_node_pools db)
    (t_runtime_settings db) (t_users db) (t_organizations db) (t_memberships db) (t_api_keys db)
    (uuid_source db) (uuid_drawn db).
Definition set_t_port_tickets v (db : Db) : Db :=
  mkDb (t_workspaces db) (t_jobs db) (t_leases db) (t_shrinks db) (t_audit db) (t_events db)
    (t_webhooks db) (t_tombstones db) (t_injections db) (t_injection_refs db)
    (t_ssh_identities db) (t_web_shell_tickets db) (t_port_mappings db) v (t_port_sessions db)
    (t_incidents db) (t_idempotency db) (t_organization_quotas db) (t_user_quotas db)
    (t_image_policies db) (t_templates db) (t_template_node_pools db) (t_node_pools db)
    (t_runtime_settings db) (t_users db) (t_organizations db) (t_memberships db) (t_api_keys db)
    (uuid_source db) (uuid_drawn db).
Definition set_t_port_sessions v (db : Db) : Db :=
  mkDb (t_workspaces db) (t_jobs db) (t_leases db) (t_shrinks db) (t_audit db) (t_events db)
    (t_webhooks db) (t_tombstones db) (t_injections db) (t_injection_refs db)
    (t_ssh_identities db) (t_web_shell_tickets db) (t_port_mappings db) (t_port_tickets db) v
    (t_incidents db) (t_idempotency db) (t_organization_quotas db) (t_user_quotas db)
    (t_image_policies db) (t_templates db) (t_template_node_pools db) (t_node_pools db)
    (t_runtime_settings db) (t_users db) (t_organizations db) (t_memberships db) (t_api_keys db)
    (uuid_source db) (uuid_drawn db).
Definition set_t_incidents v (db : Db) : Db :=
  mkDb (t_workspaces db) (t_jobs db) (t_leases db) (t_shrinks db) (t_audit db) (t_events db)
    (t_webhooks db) (t_tombstones db) (t_injections db) (t_injection_refs db)
    (t_ssh_identities db) (t_web_shell_tickets db) (t_port_mappings db) (t_port_tickets db)
    (t_port_sessions db) v (t_idempotency db) (t_organization_quotas db) (t_user_quotas db)
    (t_image_policies db) (t_templates db) (t_template_node_pools db) (t_node_pools db)
    (t_runtime_settings db) (t_users db) (t_organizations db) (t_memberships db) (t_api_keys db)
    (uuid_source db) (uuid_drawn db).
Definition set_t_idempotency v (db : Db) : Db :=
  mkDb (t_workspaces db) (t_jobs db) (t_leases db) (t_shrinks db) (t_audit db) (t_events db)
    (t_webhooks db) (t_tombstones db) (t_injections db) (t_injection_refs db)
    (t_ssh_identities db) (t_web_shell_tickets db) (t_port_mappings db) (t_port_tickets db)
    (t_port_sessions db) (t_incidents db) v (t_organization_quotas db) (t_user_quotas db)
    (t_image_policies db) (t_templates db) (t_template_node_pools db) (t_node_pools db)
    (t_runtime_settings db) (t_users db) (t_organizations db) (t_memberships db) (t_api_keys db)
    (uuid_source db) (uuid_drawn db).
Definition set_t_organization_quotas v (db : Db) : Db :=
  mkDb (t_workspaces db) (t_jobs db) (t_leases db) (t_shrinks db) (t_audit db) (t_events db)
    (t_webhooks db) (t_tombstones db) (t_injections db) (t_injection_refs db)
    (t_ssh_identities db) (t_web_shell_tickets db) (t_port_mappings db) (t_port_tickets db)
    (t_port_sessions db) (t_incidents db) (t_idempotency db) v (t_user_quotas db)
    (t_image_policies db) (t_templates db) (t_template_node_pools db) (t_node_pools db)
    (t_runtime_settings db) (t_users db) (t_organizations db) (t_memberships db) (t_api_keys db)
    (uuid_source db) (uuid_drawn db).
Definition set_t_user_quotas v (db : Db) : Db :=
  mkDb (t_workspaces db) (t_jobs db) (t_leases db) (t_shrinks db) (t_audit db) (t_events db)
    (t_webhooks db) (t_tombstones db) (t_injections db) (t_injection_refs db)
    (t_ssh_identities db) (t_web_shell_tickets db) (t_port_mappings db) (t_port_tickets db)
    (t_port_sessions db) (t_incidents db) (t_idempotency db) (t_organization_quotas db) v
    (t_image_policies db) (t_templates db) (t_template_node_pools db) (t_node_pools db)
    (t_runtime_settings db) (t_users db) (t_organizations db) (t_memberships db) (t_api_keys db)
    (uuid_source db) (uuid_drawn db).
Definition set_t_image_policies v (db : Db) : Db :=
  mkDb (t_workspaces db) (t_jobs db) (t_leases db) (t_shrinks db) (t_audit db) (t_events db)
    (t_webhooks db) (t_tombstones db) (t_injections db) (t_injection_refs db)
    (t_ssh_identities db) (t_web_shell_tickets db) (t_port_mappings db) (t_port_tickets db)
    (t_port_sessions db) (t_incidents db) (t_idempotency db) (t_organization_quotas db)
    (t_user_quotas db) v (t_templates db) (t_template_node_pools db) (t_node_pools db)
    (t_runtime_settings db) (t_users db) (t_organizations db) (t_memberships db) (t_api_keys db)
    (uuid_source db) (uuid_drawn db).
Definition set_t_templates v (db : Db) : Db :=
  mkDb (t_workspaces db) (t_jobs db) (t_leases db) (t_shrinks db) (t_audit db) (t_events db)
    (t_webhooks db) (t_tombstones db) (t_injections db) (t_injection_refs db)
    (t_ssh_identities db) (t_web_shell_tickets db) (t_port_mappings db) (t_port_tickets db)
    (t_port_sessions db) (t_incidents db) (t_idempotency db) (t_organization_quotas db)
    (t_user_quotas db) (t_image_policies db) v (t_template_node_pools db) (t_node_pools db)
    (t_runtime_settings db) (t_users db) (t_organizations db) (t_memberships db) (t_api_keys db)
    (uuid_source db) (uuid_drawn db).
Definition set_t_template_node_pools v (db : Db) : Db :=
  mkDb (t_workspaces db) (t_jobs db) (t_leases db) (t_shrinks db) (t_audit db) (t_events db)
    (t_webhooks db) (t_tombstones db) (t_injections db) (t_injection_refs db)
    (t_ssh_identities db) (t_web_shell_tickets db) (t_port_mappings db) (t_port_tickets db)
    (t_port_sessions db) (t_incidents db) (t_idempotency db) (t_organization_quotas db)
    (t_user_quotas db) (t_image_policies db) (t_templates db) v (t_node_pools db)
    (t_runtime_settings db) (t_users db) (t_organizations db) (t_memberships db) (t_api_keys db)
    (uuid_source db) (uuid_drawn db).
Definition set_t_node_pools v (db : Db) : Db :=
  mkDb (t_workspaces db) (t_jobs db) (t_leases db) (t_shrinks db) (t_audit db) (t_events db)
    (t_webhooks db) (t_tombstones db) (t_injections db) (t_injection_refs db)
    (t_ssh_identities db) (t_web_shell_tickets db) (t_port_mappings db) (t_port_tickets db)
    (t_port_sessions db) (t_incidents db) (t_idempotency db) (t_organization_quotas db)
    (t_user_quotas db) (t_image_policies db) (t_templates db) (t_template_node_pools db) v
    (t_runtime_settings db) (t_users db) (t_organizations db) (t_memberships db) (t_api_keys db)
    (uuid_source db) (uuid_drawn db).
Definition set_t_runtime_settings v (db : Db) : Db :=
  mkDb (t_workspaces db) (t_jobs db) (t_leases db) (t_shrinks db) (t_audit db) (t_events db)
    (t_webhooks db) (t_tombstones db) (t_injections db) (t_injection_refs db)
    (t_ssh_identities db) (t_web_shell_tickets db) (t_port_mappings db) (t_port_tickets db)
    (t_port_sessions db) (t_incidents db) (t_idempotency db) (t_organization_quotas db)
    (t_user_quotas db) (t_image_policies db) (t_templates db) (t_template_node_pools db)
    (t_node_pools db) v (t_users db) (t_organizations db) (t_memberships db) (t_api_keys db)
    (uuid_source db) (uuid_drawn db).
Definition set_t_users v (db : Db) : Db :=
  mkDb (t_workspaces db) (t_jobs db) (t_leases db) (t_shrinks db) (t_audit db) (t_events db)
    (t_webhooks db) (t_tombstones db) (t_injections db) (t_injection_refs db)
    (t_ssh_identities db) (t_web_shell_tickets db) (t_port_mappings db) (t_port_tickets db)
    (t_port_sessions db) (t_incidents db) (t_idempotency db) (t_organization_quotas db)
    (t_user_quotas db) (t_image_policies db) (t_templates db) (t_template_node_pools db)
    (t_node_pools db) (t_runtime_settings db) v (t_organizations db) (t_memberships db)
    (t_api_keys db) (uuid_source db) (uuid_drawn db).
Definition set_t_organizations v (db : Db) : Db :=
  mkDb (t_workspaces db) (t_jobs db) (t_leases db) (t_shrinks db) (t_audit db) (t_events db)
    (t_webhooks db) (t_tombstones db) (t_injections db) (t_injection_refs db)
    (t_ssh_identities db) (t_web_shell_tickets db) (t_port_mappings db) (t_port_tickets db)
    (t_port_sessions db) (t_incidents db) (t_idempotency db) (t_organization_quotas db)
    (t_user_quotas db) (t_image_policies db) (t_templates db) (t_template_node_pools db)
    (t_node_pools db) (t_runtime_settings db) (t_users db) v (t_memberships db) (t_api_keys db)
    (uuid_source db) (uuid_drawn db).
Definition set_t_memberships v (db : Db) : Db :=
  mkDb (t_workspaces db) (t_jobs db) (t_leases db) (t_shrinks db) (t_audit db) (t_events db)
    (t_webhooks db) (t_tombstones db) (t_injections db) (t_injection_refs db)
    (t_ssh_identities db) (t_web_shell_tickets db) (t_port_mappings db) (t_port_tickets db)
    (t_port_sessions db) (t_incidents db) (t_idempotency db) (t_organization_quotas db)
    (t_user_quotas db) (t_image_policies db) (t_templates db) (t_template_node_pools db)
    (t_node_pools db) (t_runtime_settings db) (t_users db) (t_organizations db) v
    (t_api_keys db) (uuid_source db) (uuid_drawn db).
Definition set_t_api_keys v (db : Db) : Db :=
  mkDb (t_workspaces db) (t_jobs db) (t_leases db) (t_shrinks db) (t_audit db) (t_events db)
    (t_webhooks db) (t_tombstones db) (t_injections db) (t_injection_refs db)
    (t_ssh_identities db) (t_web_shell_tickets db) (t_port_mappings db) (t_port_tickets db)
    (t_port_sessions db) (t_incidents db) (t_idempotency db) (t_organization_quotas db)
    (t_user_quotas db) (t_image_policies db) (t_templates db) (t_template_node_pools db)
    (t_node_pools db) (t_runtime_settings db) (t_users db) (t_organizations db)
    (t_memberships db) v (uuid_source db) (uuid_drawn db).
Definition set_uuid_drawn v (db : Db) : Db :=
  mkDb (t_workspaces db) (t_jobs db) (t_leases db) (t_shrinks db) (t_audit db) (t_events db)
    (t_webhooks db) (t_tombstones db) (t_injections db) (t_injection_refs db)
    (t_ssh_identities db) (t_web_shell_tickets db) (t_port_mappings db) (t_port_tickets db)
    (t_port_sessions db) (t_incidents db) (t_idempotency db) (t_organization_quotas db)
    (t_user_quotas db) (t_image_policies db) (t_templates db) (t_template_node_pools db)
    (t_node_pools db) (t_runtime_settings db) (t_users db) (t_organizations db)
    (t_memberships db) (t_api_keys db) (uuid_source db) v.

(** ** The storage monad *)
Definition DbM (A : Type) : Type := Db → result StorageError.t A * Db.

#[global] Instance dbm_ret : MRet DbM := λ A a db, (Ok a, db).
#[global] Instance dbm_bind : MBind DbM := λ A B k m db,
  match m db with
  | (Ok a, db') => k a db'
  | (Err e, db') => (Err e, db')
  end.

Definition fail {A} (e : StorageError.t) : DbM A := λ db, (Err e, db).
Definition lift {A} (r : result StorageError.t A) : DbM A := λ db, (r, db).
Definition reads {A} (f : Db → A) : DbM A := λ db, (Ok (f db), db).
Definition modify (f : Db → Db) : DbM () := λ db, (Ok (), f db).

(** [Uuid::now_v7()]. *)
Definition now_v7 : DbM Uuid := λ db,
  (Ok (uuid_source db (uuid_drawn db)), set_uuid_drawn (S (uuid_drawn db)) db).

(** [pool.begin() ... transaction.commit()]: an error undoes every write; the
    identifiers drawn stay drawn. *)
Definition transaction {A} (m : DbM A) : DbM A := λ db,
  match m db with
  | (Ok a, db') => (Ok a, db')
  | (Err e, db') => (Err e, set_uuid_drawn (uuid_drawn db') db)
  end.

(** [INSERT] into a table with a primary key: a duplicate key is an error. *)
Definition insert_row {K V} `{Countable K} (table : Db → gmap K V) (set : gmap K V → Db → Db)
    (key : K) (row : V) : DbM () := λ db,
  match table db !! key with
  | Some _ => (Err StorageError.Database, db)
  | None => (Ok (), set (<[key := row]> (table db)) db)
  end.

Definition insert_job := insert_row t_jobs set_t_jobs.
Definition insert_audit := insert_row t_audit set_t_audit.
Definition insert_event := insert_row t_events set_t_events.
Definition insert_tombstone := insert_row t_tombstones set_t_tombstones.
Definition insert_shrink := insert_row t_shrinks set_t_shrinks.

(** [UPDATE ... WHERE id = key AND p]; the result is [rows_affected]. *)
Definition update_where {K V} `{Countable K} (table : Db → gmap K V) (set : gmap K V → Db → Db)
    (key : K) (p : V → bool) (f : V → V) : DbM Z := λ db,
  match table db !! key with
  | Some row => if p row then (Ok 1, set (<[key := f row]> (table db)) db) else (Ok 0, db)
  | None => (Ok 0, db)
  end.

Definition update_job := update_where t_jobs set_t_jobs.
Definition update_workspace := update_where t_workspaces set_t_workspaces.
Definition update_shrink := update_where t_shrinks set_t_shrinks.

(** ** Cascading deletions ([ON DELETE CASCADE] of the schema) *)

(** Deleting port mappings deletes their tickets and sessions. *)
Definition delete_port_mappings (p : Uuid → PortMappingRow → bool) (db : Db) : Db :=
  let gone id := is_some_and (t_port_mappings db !! id) (p id) in
  set_t_port_mappings (filter (λ kv, p kv.1 kv.2 = false) (t_port_mappings db))
    (set_t_port_tickets (filter (λ kv, gone (pt_mapping_id kv.2) = false) (t_port_tickets db))
      (set_t_port_sessions (filter (λ kv, gone (ps_mapping_id kv.2) = false) (t_port_sessions db)) db)).

(** Deleting a workspace deletes its storage operations, references to
    injections, incidents and port mappings. *)
Definition cascade_workspace (id : Uuid) (db : Db) : Db :=
  set_t_shrinks (filter (λ kv, s_workspace_id kv.2 ≠ id) (t_shrinks db))
    (set_t_injection_refs (filter (λ kv, kv.1.1.1.2 ≠ id) (t_injection_refs db))
      (set_t_incidents (filter (λ kv, ic_workspace_id kv.2 ≠ id) (t_incidents db))
        (delete_port_mappings (λ _ r, bool_decide (pm_workspace_id r = id)) db))).

(** [for row in rows { f(row).await?; }]. *)
Fixpoint for_each {A} (f : A → DbM ()) (rows : list A) : DbM () :=
  match rows with
  | [] => mret ()
  | row :: rows' => _ ← f row; for_each f rows'
  end.

(** ** Reasoning about storage programs *)
Lemma bind_run {A B} (m : DbM A) (k : A → DbM B) db :
  (m ≫= k) db = match m db with (Ok a, db') => k a db' | (Err e, db') => (Err e, db') end.
Proof. done. Qed.

Lemma modify_bind {B} f (k : () → DbM B) db : (modify f ≫= k) db = k () (f db).
Proof. done. Qed.

Lemma bind_run_Ok {A B} (m : DbM A) (k : A → DbM B) db b db' :
  (m ≫= k) db = (Ok b, db') ↔ ∃ a db1, m db = (Ok a, db1) ∧ k a db1 = (Ok b, db').
Proof.
  rewrite bind_run. split.
  - destruct (m db) as [[a|e] db1]; [eauto|done].
  - by intros (a & db1 & -> & ?).
Qed.

Lemma transaction_Ok {A} (m : DbM A) db a db' :
  transaction m db = (Ok a, db') ↔ m db = (Ok a, db').
Proof. unfold transaction. destruct (m db) as [[b|e] db1]; done. Qed.

(** Take the first statement of a successful run [H] apart. *)
Ltac run_step H :=
  let a := fresh "x" in let d := fresh "dbx" in let Ha := fresh "Hx" in
  apply bind_run_Ok in H as (a & d & Ha & H);
  lazymatch type of Ha with
  | lift _ _ = _ => injection Ha as Ha <-; try (apply ensure_Ok in Ha); try (apply ok_or_Ok in Ha)
  | reads _ _ = _ => injection Ha as <- <-
  | now_v7 _ = _ => injection Ha as <- <-
  | mret _ _ = _ => injection Ha as <- <-
  | modify _ _ = _ => injection Ha as <- <-
  | _ => idtac
  end; cbv beta in *; repeat match goal with u : () |- _ => destruct u end.

(** An operation whose result is an error leaves every table as it was. *)
Definition same_tables (db db' : Db) : Prop := set_uuid_drawn 0 db' = set_uuid_drawn 0 db.

#[global] Instance same_tables_equivalence : Equivalence same_tables.
Proof. unfold same_tables. split; [intros ?|intros ???|intros ?????]; congruence. Qed.

Lemma same_tables_drawn n db : same_tables db (set_uuid_drawn n db).
Proof. done. Qed.

Lemma same_tables_view {T} (view : Db → T) db db' :
  (∀ n db, view (set_uuid_drawn n db) = view db) → same_tables db db' → view db' = view db.
Proof. intros Hv E. by rewrite <-(Hv 0%nat db'), E, Hv. Qed.

Lemma transaction_Err {A} (m : DbM A) db e db' :
  transaction m db = (Err e, db') → same_tables db db'.
Proof.
  unfold transaction. destruct (m db) as [[b|e'] db1]; [done|].
  intros [= -> <-]. apply same_tables_drawn.
Qed.

(** A property of the tables holds after a transaction if it held before and the
    body, where it succeeds, establishes it. *)
Lemma transaction_inv {A} (Q : Db → Prop) (m : DbM A) db r db' :
  (∀ n db, Q db → Q (set_uuid_drawn n db)) → Q db → (∀ a db1, m db = (Ok a, db1) → Q db1) →
  transaction m db = (r, db') → Q db'.
Proof.
  intros Hd HQ Hm. unfold transaction. destruct (m db) as [[a|e] db1] eqn:E; intros [= <- <-]; eauto.
Qed.

(** [Preserves R m]: running [m] relates the state before to the state after
    by [R], whether it succeeds or fails. *)
Class Preserves {A} (R : relation Db) (m : DbM A) : Prop :=
  preserves db r db' : m db = (r, db') → R db db'.

(** A relation that ignores the identifier counter. *)
Class TableRelation (R : relation Db) : Prop := {
  table_relation_preorder :: PreOrder R;
  table_relation_drawn n db : R db (set_uuid_drawn n db);
}.

Section Preserves.
Context (R : relation Db) `{!TableRelation R}.

#[global] Instance preserves_ret {A} (a : A) : Preserves R (mret a).
Proof using Type*. intros ??? [= <- <-]. reflexivity. Qed.
#[global] Instance preserves_fail {A} e : Preserves R (fail (A:=A) e).
Proof using Type*. intros ??? [= <- <-]. reflexivity. Qed.
#[global] Instance preserves_lift {A} (r : result StorageError.t A) : Preserves R (lift r).
Proof using Type*. intros ??? [= <- <-]. reflexivity. Qed.
#[global] Instance preserves_reads {A} (f : Db → A) : Preserves R (reads f).
Proof using Type*. intros ??? [= <- <-]. reflexivity. Qed.
#[global] Instance preserves_now_v7 : Preserves R now_v7.
Proof using Type*. intros ??? [= <- <-]. apply table_relation_drawn. Qed.

#[global] Instance preserves_bind {A B} (m : DbM A) (k : A → DbM B) :
  Preserves R m → (∀ a, Preserves R (k a)) → Preserves R (m ≫= k).
Proof using Type*.
  intros Hm Hk db r db'. rewrite bind_run. destruct (m db) as [[a|e] db1] eqn:E.
  - intros Hrun. transitivity db1; [by eapply Hm|by eapply Hk].
  - intros [= <- <-]. by eapply Hm.
Qed.

#[global] Instance preserves_transaction {A} (m : DbM A) :
  Preserves R m → Preserves R (transaction m).
Proof using Type*.
  intros Hm db r db'. unfold transaction. destruct (m db) as [[a|e] db1] eqn:E; intros [= <- <-].
  - by eapply Hm.
  - apply table_relation_drawn.
Qed.

Lemma preserves_modify f : (∀ db, R db (f db)) → Preserves R (modify f).
Proof using Type*. intros Hf ??? [= <- <-]. apply Hf. Qed.

Lemma preserves_insert_row {K V} `{Countable K} (table : Db → gmap K V) set key row :
  (∀ db, table db !! key = None → R db (set (<[key := row]> (table db)) db)) →
  Preserves R (insert_row table set key row).
Proof using Type*.
  intros HR db r db'. unfold insert_row. destruct (table db !! key) eqn:E; intros [= <- <-].
  - reflexivity.
  - by apply HR.
Qed.

Lemma preserves_update_where {K V} `{Countable K} (table : Db → gmap K V) set key p f :
  (∀ db row, table db !! key = Some row → p row = true → R db (set (<[key := f row]> (table db)) db)) →
  Preserves R (update_where table set key p f).
Proof using Type*.
  intros HR db r db'. unfold update_where.
  destruct (table db !! key) as [row|] eqn:E; [destruct (p row) eqn:Ep|]; intros [= <- <-];
    [by eapply HR|reflexivity..].
Qed.
End Preserves.

#[global] Instance for_each_preserves {A} R `{!TableRelation R} (f : A → DbM ()) rows :
  (∀ a, Preserves R (f a)) → Preserves R (for_each f rows).
Proof. intros Hf. induction rows; cbn; apply _. Qed.

(** [frames f]: the view [f] of the database is unchanged. *)
Definition frames {T} (f : Db → T) : relation Db := λ db db', f db' = f db.

Lemma frames_table_relation {T} (f : Db → T) :
  (∀ n db, f (set_uuid_drawn n db) = f db) → TableRelation (frames f).
Proof.
  intros Hf. split; [|intros n db; apply Hf].
  split; [intros ?; done|]. intros x y z. unfold frames. congruence.
Qed.

#[export] Hint Extern 0 (TableRelation (frames _)) =>
  apply frames_table_relation; reflexivity : typeclass_instances.

(** Prove that a storage program keeps a view of the database: bind by bind,
    with the statements' side conditions closed by computation. *)
#[export] Hint Extern 2 (Preserves (frames _) (insert_row _ _ _ _)) =>
  apply preserves_insert_row; [apply _|reflexivity] : typeclass_instances.
#[export] Hint Extern 2 (Preserves (frames _) (update_where _ _ _ _ _)) =>
  apply preserves_update_where; [apply _|reflexivity] : typeclass_instances.
#[export] Hint Extern 2 (Preserves (frames _) (modify _)) =>
  apply preserves_modify; [apply _|reflexivity] : typeclass_instances.

Lemma use_preserves {A} R (m : DbM A) db r db' : Preserves R m → m db = (r, db') → R db db'.
Proof. intros Hm Hrun. exact (Hm _ _ _ Hrun). Qed.

Lemma use_frame {A T} (f : Db → T) (m : DbM A) db r db' :
  Preserves (frames f) m → m db = (r, db') → f db' = f db.
Proof. intros Hm Hrun. exact (Hm _ _ _ Hrun). Qed.

(** [adds table P]: rows were added to [table], none changed, and those added
    satisfy [P]. *)
Definition adds {K V} `{Countable K} (table : Db → gmap K V) (P : V → Prop) : relation Db := λ db db',
  ∀ key, table db' !! key = table db !! key ∨
         (table db !! key = None ∧ ∃ row, table db' !! key = Some row ∧ P row).

Lemma adds_table_relation {K V} `{Countable K} (table : Db → gmap K V) P :
  (∀ n db, table (set_uuid_drawn n db) = table db) → TableRelation (adds table P).
Proof.
  intros Hd. split; [split|]; [by left| |intros n db key; left; by rewrite Hd].
  intros x y z Hxy Hyz key. destruct (Hxy key) as [E|(E & row & E' & HP)], (Hyz key) as [F|(F & row' & F' & HP')].
  - left. congruence.
  - right. split; [congruence|eauto].
  - right. split; [done|]. exists row. split; [congruence|done].
  - congruence.
Qed.

#[export] Hint Extern 0 (TableRelation (adds _ _)) =>
  apply adds_table_relation; reflexivity : typeclass_instances.

Lemma preserves_adds_insert {K V} `{Countable K} (table : Db → gmap K V) set (P : V → Prop) key row :
  TableRelation (adds table P) → (∀ m db, table (set m db) = m) → P row →
  Preserves (adds table P) (insert_row table set key row).
Proof.
  intros HR Hset HP. apply preserves_insert_row; [done|]. intros db Hnone k. rewrite Hset.
  destruct (decide (k = key)) as [->|]; [right|left; by rewrite lookup_insert_ne].
  split; [done|]. exists row. by rewrite lookup_insert_eq.
Qed.

(** [fresh_ids db]: the identifiers still to be drawn are distinct and name no
    row yet. Version 7 identifiers carry the time and random bits; the code
    relies on this wherever it inserts a row. *)
Record fresh_ids (db : Db) : Prop := {
  fresh_inj : Inj (=) (=) (uuid_source db);
  fresh_jobs n : (uuid_drawn db ≤ n)%nat → t_jobs db !! uuid_source db n = None;
  fresh_audit n : (uuid_drawn db ≤ n)%nat → t_audit db !! uuid_source db n = None;
  fresh_events n : (uuid_drawn db ≤ n)%nat → t_events db !! uuid_source db n = None;
  fresh_shrinks n : (uuid_drawn db ≤ n)%nat → t_shrinks db !! uuid_source db n = None;
}.

(** [Total m]: with fresh identifiers [m] succeeds, and they stay fresh. *)
Class Total {A} (m : DbM A) : Prop :=
  total db : fresh_ids db → ∃ a db', m db = (Ok a, db') ∧ fresh_ids db'.

#[global] Instance total_ret {A} (a : A) : Total (mret a).
Proof. intros db Hf. by exists a, db. Qed.
#[global] Instance total_reads {A} (f : Db → A) : Total (reads f).
Proof. intros db Hf. by exists (f db), db. Qed.
#[global] Instance total_bind {A B} (m : DbM A) (k : A → DbM B) :
  Total m → (∀ a, Total (k a)) → Total (m ≫= k).
Proof.
  intros Hm Hk db Hf. destruct (Hm db Hf) as (a & db1 & E & Hf1). rewrite bind_run, E. by apply Hk.
Qed.
#[global] Instance total_for_each {A} (f : A → DbM ()) rows : (∀ a, Total (f a)) → Total (for_each f rows).
Proof. intros Hf. induction rows; cbn; apply _. Qed.

(** A freshly drawn identifier is free in the table it is inserted into. *)
Lemma total_draw_insert {A V} (table : Db → gmap Uuid V) set row (k : Uuid → DbM A) :
  (∀ db n, fresh_ids db → (uuid_drawn db ≤ n)%nat → table db !! uuid_source db n = None) →
  (∀ db n, table (set_uuid_drawn n db) = table db) →
  (∀ db, fresh_ids db →
     fresh_ids (set (<[uuid_source db (uuid_drawn db) := row (uuid_source db (uuid_drawn db))]> (table db))
                  (set_uuid_drawn (S (uuid_drawn db)) db))) →
  (∀ id, Total (k id)) →
  Total (id ← now_v7; _ ← insert_row table set id (row id); k id).
Proof.
  intros Hfree Hdrawn Hfresh Hk db Hf. rewrite bind_run; cbn. rewrite bind_run.
  unfold insert_row. rewrite Hdrawn, Hfree by done. by apply Hk, Hfresh.
Qed.
Lemma total_draw_insert_last {V} (table : Db → gmap Uuid V) set row :
  Total (id ← now_v7; _ ← insert_row table set id (row id); mret ()) →
  Total (id ← now_v7; insert_row table set id (row id)).
Proof.
  intros Ht db Hf. destruct (Ht db Hf) as (a & db' & E & Hf'). rewrite bind_run in E |- *; cbn in *.
  rewrite bind_run in E. unfold insert_row in *. destruct (table _ !! _); [done|].
  injection E as _ <-. by exists (), (set (<[uuid_source db (uuid_drawn db) :=
    row (uuid_source db (uuid_drawn db))]> (table (set_uuid_drawn (S (uuid_drawn db)) db)))
    (set_uuid_drawn (S (uuid_drawn db)) db)).
Qed.

Ltac fresh_insert :=
  intros [Hinj Hj Ha He Hs]; split; cbn; [done|intros n Hn..];
  rewrite ?lookup_insert_ne by (intros E%Hinj; lia); eauto with lia.

Lemma fresh_insert_job db row : fresh_ids db →
  fresh_ids (set_t_jobs (<[uuid_source db (uuid_drawn db) := row]> (t_jobs db))
               (set_uuid_drawn (S (uuid_drawn db)) db)).
Proof. fresh_insert. Qed.
Lemma fresh_insert_audit db row : fresh_ids db →
  fresh_ids (set_t_audit (<[uuid_source db (uuid_drawn db) := row]> (t_audit db))
               (set_uuid_drawn (S (uuid_drawn db)) db)).
Proof. fresh_insert. Qed.
Lemma fresh_insert_event db row : fresh_ids db →
  fresh_ids (set_t_events (<[uuid_source db (uuid_drawn db) := row]> (t_events db))
               (set_uuid_drawn (S (uuid_drawn db)) db)).
Proof. fresh_insert. Qed.
Lemma fresh_insert_shrink db row : fresh_ids db →
  fresh_ids (set_t_shrinks (<[uuid_source db (uuid_drawn db) := row]> (t_shrinks db))
               (set_uuid_drawn (S (uuid_drawn db)) db)).
Proof. fresh_insert. Qed.
#[export] Hint Resolve fresh_jobs fresh_audit fresh_events fresh_shrinks
  fresh_insert_job fresh_insert_audit fresh_insert_event fresh_insert_shrink : mwc.

(** Queueing a job, writing an audit row or an event under a fresh identifier. *)
#[global] Instance total_draw_insert_job {A} row (k : Uuid → DbM A) :
  (∀ id, Total (k id)) → Total (id ← now_v7; _ ← insert_job id (row id); k id).
Proof. intros. apply total_draw_insert; eauto with mwc. Qed.
#[global] Instance total_draw_insert_audit {A} row (k : Uuid → DbM A) :
  (∀ id, Total (k id)) → Total (id ← now_v7; _ ← insert_audit id (row id); k id).
Proof. intros. apply total_draw_insert; eauto with mwc. Qed.
#[global] Instance total_draw_insert_event {A} row (k : Uuid → DbM A) :
  (∀ id, Total (k id)) → Total (id ← now_v7; _ ← insert_event id (row id); k id).
Proof. intros. apply total_draw_insert; eauto with mwc. Qed.
#[global] Instance total_draw_insert_job_last row :
  Total (id ← now_v7; insert_job id (row id)).
Proof. apply total_draw_insert_last, total_draw_insert_job. apply _. Qed.

(** ** The dependants of a deleted workspace *)
Definition workspace_children (db : Db) :=
  (t_shrinks db, t_injection_refs db, t_incidents db, t_port_mappings db, t_port_tickets db,
   t_port_sessions db).

Record children_gone (id : Uuid) (db db' : Db) : Prop := {
  gone_shrinks k r : t_shrinks db' !! k = Some r ↔ t_shrinks db !! k = Some r ∧ s_workspace_id r ≠ id;
  gone_refs k r : t_injection_refs db' !! k = Some r ↔ t_injection_refs db !! k = Some r ∧ k.1.1.2 ≠ id;
  gone_incidents k r : t_incidents db' !! k = Some r ↔ t_incidents db !! k = Some r ∧ ic_workspace_id r ≠ id;
  gone_mappings k r :
    t_port_mappings db' !! k = Some r ↔ t_port_mappings db !! k = Some r ∧ pm_workspace_id r ≠ id;
  gone_port_tickets k r m : t_port_mappings db !! pt_mapping_id r = Some m →
    t_port_tickets db' !! k = Some r ↔ t_port_tickets db !! k = Some r ∧ pm_workspace_id m ≠ id;
  gone_port_sessions k r m : t_port_mappings db !! ps_mapping_id r = Some m →
    t_port_sessions db' !! k = Some r ↔ t_port_sessions db !! k = Some r ∧ pm_workspace_id m ≠ id;
}.

Lemma children_gone_cascade id db X db' :
  workspace_children X = workspace_children db →
  workspace_children db' = workspace_children (cascade_workspace id X) →
  children_gone id db db'.
Proof.
  intros [= E1 E2 E3 E4 E5 E6] [= F1 F2 F3 F4 F5 F6].
  split; [intros k r..|intros k r m Hm|intros k r m Hm];
    rewrite ?F1, ?F2, ?F3, ?F4, ?F5, ?F6; rewrite map_lookup_filter_Some; cbn; [by rewrite ?E1, ?E2, ?E3..| | |].
  - by rewrite bool_decide_eq_false, E4.
  - by rewrite E4, E5, Hm; cbn; rewrite bool_decide_eq_false.
  - by rewrite E4, E6, Hm; cbn; rewrite bool_decide_eq_false.
Qed.

(** A database with no rows, whose identifiers count up from 1000. *)
Definition empty_db : Db :=
  mkDb ∅ ∅ ∅ ∅ ∅ ∅ ∅ ∅ ∅ ∅ ∅ ∅ ∅ ∅ ∅ ∅ ∅ ∅ ∅ ∅ ∅ ∅ ∅ ∅ ∅ ∅ ∅ ∅ (λ n, (1000 + N.of_nat n)%N) 0.
