(* ===== verification/WorkspaceStore.v ===== *)
(** * Reading workspaces
    ([src/storage/workspace_store/row.rs], [get_workspace] of
    [src/storage/workspace_store.rs], [src/workspace_runtime.rs], the guards of
    [src/storage/workspace_storage_shrink.rs]) *)
From S2P Require Import Prelude Text Json Auth Quota Templates Workspaces Errors ShrinkOperation Database.

Section WorkspaceStore.
Context `{UuidText}.

(** ** Runtime identity ([src/workspace_runtime.rs]) *)

(** The last sixteen characters of the simple form. *)
Definition workspace_short_id_for (id : Uuid) : string :=
  let encoded := uuid_simple id in
  String.substring (String.length encoded - 16) 16 encoded.

Definition valid_dns_label (value : string) (max_length : Z) : bool :=
  let valid_edge c := is_ascii_lowercase c || is_ascii_digit c in
  negb (bool_decide (value = "")) && (len value <=? max_length) &&
  forallb (λ c, valid_edge c || (c =? c_dash)) (chars value) &&
  starts_with valid_edge (chars value) && ends_with valid_edge (chars value).

Definition validate_for_workspace (id : Uuid) (short_id : string) : bool :=
  valid_dns_label WORKSPACE_NAMESPACE 63 && bool_decide (short_id = workspace_short_id_for id).

(** ** Decoding a row *)
Definition decode_home_binding (row : WorkspaceRow)
    : result StorageError.t (option WorkspaceHomeVolumeBinding) :=
  match wr_home_pvc_namespace row, wr_home_pvc_name row, wr_home_pvc_uid row,
        wr_home_pvc_capacity_gib row with
  | None, None, None, None => Ok None
  | Some namespace, Some claim_name, Some claim_uid, Some capacity =>
      capacity_gib ← ok_or (u64_try_from capacity) StorageError.InvalidWorkspace;
      let binding := mkBinding namespace claim_name claim_uid capacity_gib in
      _ ← ensure (binding_is_valid binding
                  && (capacity_gib =? disk_gib (resources (spec (wr_snapshot row)))))
            StorageError.InvalidWorkspace;
      Ok (Some binding)
  | _, _, _, _ => Err StorageError.InvalidWorkspace
  end.

Definition decode_workspace (id : Uuid) (row : WorkspaceRow) : result StorageError.t Workspace :=
  _ ← map_err (λ _, StorageError.InvalidWorkspace) (document_validate (wr_snapshot row));
  home ← decode_home_binding row;
  _ ← ensure (validate_for_workspace id (wr_short_id row)) StorageError.InvalidWorkspace;
  generation ← ok_or (u64_try_from (wr_generation row)) StorageError.InvalidWorkspace;
  Ok {| ws_id := id; ws_short_id := wr_short_id row;
        ws_organization_id := wr_organization_id row; ws_owner_id := wr_owner_id row;
        ws_name := wr_name row; ws_template_id := wr_template_id row;
        ws_node_pool := wr_node_pool row; ws_home_volume_binding := home;
        ws_scratch_volume_binding := wr_scratch_volume_binding row;
        ws_template := spec (wr_snapshot row); ws_state := wr_state row;
        ws_generation := generation; ws_created_at := wr_created_at row;
        ws_updated_at := wr_updated_at row |}.

(** [SELECT ... FROM workspaces WHERE installation_id = ? AND id = ?]. *)
Definition select_workspace (inst : string) (id : Uuid) : DbM (option WorkspaceRow) :=
  reads (λ db, match t_workspaces db !! id with
               | Some row => if String.eqb (wr_installation_id row) inst then Some row else None
               | None => None
               end).

Definition get_workspace (inst : string) (id : Uuid) : DbM Workspace :=
  row ← select_workspace inst id;
  match row with
  | Some row => lift (decode_workspace id row)
  | None => fail StorageError.WorkspaceNotFound
  end.

(** [SELECT ... WHERE installation_id = ? AND length(route) = length(installation) + 17
    AND route = installation || '-' || short_id AND short_id = substr(route, length(installation) + 2)];
    [length] and [substr] count characters. *)
Definition at_route (inst route_key : string) (row : WorkspaceRow) : bool :=
  String.eqb (wr_installation_id row) inst
  && (Z.of_nat (length (chars route_key)) =? Z.of_nat (length (chars inst)) + 17)
  && String.eqb route_key (inst +:+ "-" +:+ wr_short_id row)
  && bool_decide (chars (wr_short_id row) = drop (length (chars inst) + 1) (chars route_key)).

Definition get_workspace_by_route_key (inst route_key : string) : DbM Workspace :=
  row ← reads (λ db, List.find (λ kv : Uuid * WorkspaceRow, at_route inst route_key kv.2) (map_to_list (t_workspaces db)));
  match row with
  | Some (id, row) => lift (decode_workspace id row)
  | None => fail StorageError.WorkspaceNotFound
  end.

(** ** Active storage operations *)

(** [SELECT COUNT( * ) FROM workspace_storage_shrinks WHERE installation_id = ?
    AND workspace_id = ? AND active = 1]. *)
Definition is_active_shrink (inst : string) (workspace_id : Uuid) (row : ShrinkRow) : bool :=
  String.eqb (s_installation_id row) inst && bool_decide (s_workspace_id row = workspace_id)
  && s_active row.

Definition count_active (inst : string) (workspace_id : Uuid) (db : Db) : Z :=
  Z.of_nat (length (List.filter (λ kv, is_active_shrink inst workspace_id kv.2)
                      (map_to_list (t_shrinks db)))).

Definition storage_shrink_active (inst : string) (workspace_id : Uuid) : DbM bool :=
  count ← reads (count_active inst workspace_id);
  mret (negb (count =? 0)).

(** [guard_sqlite], [guard_postgres] and [ensure_storage_not_shrinking]. *)
Definition guard (inst : string) (workspace_id : Uuid) : DbM () :=
  count ← reads (count_active inst workspace_id);
  lift (ensure (count =? 0) StorageError.WorkspaceStorageShrinkConflict).

(** ** Lemmas *)
Lemma select_workspace_run inst id db :
  select_workspace inst id db =
  (Ok (match t_workspaces db !! id with
       | Some row => if String.eqb (wr_installation_id row) inst then Some row else None
       | None => None
       end), db).
Proof. done. Qed.

Lemma decode_workspace_inv id row w :
  decode_workspace id row = Ok w →
  ws_id w = id ∧ ws_state w = wr_state row ∧ ws_generation w = wr_generation row ∧
  0 <= wr_generation row <= u64_max ∧ ws_organization_id w = wr_organization_id row ∧
  ws_owner_id w = wr_owner_id row ∧ ws_template w = spec (wr_snapshot row).
Proof.
  unfold decode_workspace. intros Hd. inv_binds.
  match goal with H : u64_try_from _ = Some _ |- _ =>
    apply guard_range_Some in H as [-> ?] end.
  simplify_eq/=. split_and!; try done; unfold in_u64 in *; bool_prop; lia.
Qed.

Lemma count_active_zero inst id db :
  count_active inst id db = 0 ↔
  ∀ k row, t_shrinks db !! k = Some row → is_active_shrink inst id row = false.
Proof.
  unfold count_active. rewrite <-(Nat2Z.inj_0), Nat2Z.inj_iff, length_zero_iff_nil. split.
  - intros Hnil k row Hk. destruct (is_active_shrink inst id row) eqn:E; [|done].
    assert (Hin : In (k, row) (List.filter (λ kv, is_active_shrink inst id kv.2)
                                (map_to_list (t_shrinks db)))).
    { apply filter_In. split; [|done]. by apply list_elem_of_In, elem_of_map_to_list. }
    by rewrite Hnil in Hin.
  - intros Hall. destruct (List.filter _ _) as [|[k row] l] eqn:E; [done|].
    assert (Hin : In (k, row) ((k, row) :: l)) by (by left). rewrite <-E in Hin.
    apply filter_In in Hin as [Hin Ha]. apply list_elem_of_In, elem_of_map_to_list in Hin.
    cbn in Ha. by rewrite (Hall _ _ Hin) in Ha.
Qed.

(** No active storage operation on the workspace. *)
Definition no_active_shrink (inst : string) (id : Uuid) (db : Db) : Prop :=
  ∀ k row, t_shrinks db !! k = Some row → is_active_shrink inst id row = false.

Lemma guard_run inst id db :
  guard inst id db =
  (if count_active inst id db =? 0 then Ok () else Err StorageError.WorkspaceStorageShrinkConflict, db).
Proof. unfold guard. rewrite bind_run; cbn. unfold lift, ensure. by destruct (_ =? _). Qed.

Lemma guard_Ok inst id db u db' :
  guard inst id db = (Ok u, db') ↔ db' = db ∧ no_active_shrink inst id db.
Proof.
  rewrite guard_run. unfold no_active_shrink. rewrite <-count_active_zero.
  destruct u. destruct (Z.eqb_spec (count_active inst id db) 0); split; intros Hx; [|by destruct Hx as [-> _]|done|].
  - by injection Hx as <-.
  - by destruct Hx.
Qed.
End WorkspaceStore.
