(* ===== verification/JobStore.v ===== *)
(** * The background-job queue and workspace leases
    ([src/storage/job_store.rs], [src/storage/job_types.rs],
    [src/storage/leases.rs])

    Jobs are rows of one table. A worker claims a row by writing its name and an
    expiry; only the owner may complete, fail, defer, park or renew it; an
    expired claim may be taken over. A parked job waits for an event and can be
    woken early by a compare-and-set on its payload. *)
From S2P Require Import Prelude Text Json Auth Quota Templates Workspaces Errors ShrinkOperation Database.

Record NewJob := mkNewJob {
  nj_kind : string;
  nj_workspace_id : option Uuid;
  nj_payload : Value;
  nj_available_at : Z;
}.

Record ClaimedJob := mkClaimedJob {
  cj_id : Uuid;
  cj_kind : string;
  cj_workspace_id : option Uuid;
  cj_payload : Value;
  cj_attempts : Z;
  cj_lease_expires_at : Z;
}.

Record ParkedWorkspaceJob := mkParked {
  pk_id : Uuid;
  pk_workspace_id : Uuid;
  pk_payload : Value;
  pk_until : Z;
  pk_generation : Z;
  pk_reconciled_at : Z;
  pk_desired_replicas : Z;
}.

Record ParkedWorkspaceJobsPage := mkParkedPage {
  pp_jobs : list ParkedWorkspaceJob;
  pp_next : option Uuid;
}.

Section JobStore.
Context `{UuidText}.

(** ** Queueing and claiming *)
Definition pending_row (inst kind : string) (workspace_id : option Uuid) (payload : Value)
    (available_at now : Z) : JobRow :=
  mkJobRow inst kind workspace_id payload JobPending available_at None None 0 now now.

Definition enqueue_job (inst : string) (new_job : NewJob) (now : Z) : DbM Uuid :=
  id ← now_v7;
  _ ← insert_job id (pending_row inst (nj_kind new_job) (nj_workspace_id new_job)
                       (nj_payload new_job) (nj_available_at new_job) now);
  mret id.

(** [status = 'pending' AND available_at <= now OR status = 'running' AND
    lease_expires_at < now]; a NULL expiry compares false. *)
Definition claimable (inst : string) (now : Z) (r : JobRow) : bool :=
  String.eqb (j_installation_id r) inst &&
  ((bool_decide (j_status r = JobPending) && (j_available_at r <=? now)) ||
   (bool_decide (j_status r = JobRunning) && is_some_and (j_lease_expires_at r) (λ e, e <? now))).

(** [ORDER BY available_at, id]. *)
Definition job_before (a b : Uuid * JobRow) : bool :=
  (j_available_at a.2 <? j_available_at b.2) ||
  ((j_available_at a.2 =? j_available_at b.2) && (a.1 <=? b.1)%N).

Definition next_claimable (inst : string) (now : Z) (db : Db) : option (Uuid * JobRow) :=
  first_by job_before (List.filter (λ kv, claimable inst now kv.2) (map_to_list (t_jobs db))).

Definition claimed_row (lease_owner : string) (expires now : Z) (r : JobRow) : JobRow :=
  mkJobRow (j_installation_id r) (j_kind r) (j_workspace_id r) (j_payload r) JobRunning
    (j_available_at r) (Some lease_owner) (Some expires) (j_attempts r + 1) (j_created_at r) now.

Definition claimed_job (id : Uuid) (expires : Z) (r : JobRow) : ClaimedJob :=
  mkClaimedJob id (j_kind r) (j_workspace_id r) (j_payload r) (j_attempts r + 1) expires.

(** The expiry of a lease of [duration] seconds (a [u64]). *)
Definition lease_expiry (now duration : Z) : result StorageError.t Z :=
  seconds ← ok_or (i64_try_from duration) StorageError.LeaseDurationOverflow;
  ok_or (checked_add_i64 now seconds) StorageError.LeaseDurationOverflow.

Definition claim_job (inst lease_owner : string) (now lease_duration : Z) : DbM (option ClaimedJob) :=
  _ ← lift (ensure (negb (bool_decide (lease_owner = ""))) StorageError.EmptyLeaseOwner);
  expires ← lift (lease_expiry now lease_duration);
  candidate ← reads (next_claimable inst now);
  match candidate with
  | None => mret None
  | Some (id, r) =>
      _ ← modify (λ db, set_t_jobs (<[id := claimed_row lease_owner expires now r]> (t_jobs db)) db);
      mret (Some (claimed_job id expires r))
  end.

(** ** Statements of the owner *)

(** [id = ? AND installation_id = ? AND status = 'running' AND lease_owner = ?]. *)
Definition owned (inst lease_owner : string) (r : JobRow) : bool :=
  String.eqb (j_installation_id r) inst && bool_decide (j_status r = JobRunning)
  && bool_decide (j_lease_owner r = Some lease_owner).

Definition update_owned (inst lease_owner : string) (job_id : Uuid) (f : JobRow → JobRow) : DbM () :=
  affected ← update_job job_id (owned inst lease_owner) f;
  lift (ensure (affected =? 1) (StorageError.LeaseNotOwned job_id)).

(** Release the lease, leaving the job in [status]. *)
Definition released (status : JobStatus) (available_at attempts : Z) (payload : Value) (now : Z)
    (r : JobRow) : JobRow :=
  mkJobRow (j_installation_id r) (j_kind r) (j_workspace_id r) payload status available_at None None
    attempts (j_created_at r) now.

Definition complete_job (inst : string) (job_id : Uuid) (lease_owner : string) (now : Z) : DbM () :=
  update_owned inst lease_owner job_id
    (λ r, released JobCompleted (j_available_at r) (j_attempts r) (j_payload r) now r).

Definition fail_job (inst : string) (job_id : Uuid) (lease_owner : string) (now : Z) : DbM () :=
  update_owned inst lease_owner job_id
    (λ r, released JobFailed (j_available_at r) (j_attempts r) (j_payload r) now r).

Definition renew_job_lease (inst : string) (job_id : Uuid) (lease_owner : string)
    (now lease_duration : Z) : DbM () :=
  expires ← lift (lease_expiry now lease_duration);
  update_owned inst lease_owner job_id
    (λ r, mkJobRow (j_installation_id r) (j_kind r) (j_workspace_id r) (j_payload r) (j_status r)
            (j_available_at r) (j_lease_owner r) (Some expires) (j_attempts r) (j_created_at r) now).

Definition defer_job (inst : string) (job_id : Uuid) (lease_owner : string) (available_at now : Z)
    : DbM () :=
  update_owned inst lease_owner job_id
    (λ r, released JobPending available_at (j_attempts r) (remove_key (j_payload r) "runtime_wait") now r).

(** [CASE WHEN attempts > 0 THEN attempts - 1 ELSE 0 END]. *)
Definition refund_attempt (attempts : Z) : Z := if 0 <? attempts then attempts - 1 else 0.

Definition defer_job_without_attempt (inst : string) (job_id : Uuid) (lease_owner : string)
    (available_at now : Z) : DbM () :=
  update_owned inst lease_owner job_id
    (λ r, released JobPending available_at (refund_attempt (j_attempts r))
            (remove_key (j_payload r) "runtime_wait") now r).

(** [park_workspace_job]: the payload must be an object; it is stored with a
    fresh nonce and the wake-up time, in the statement that releases the lease. *)
Definition runtime_wait (nonce : Uuid) (until : Z) : Value :=
  json_object [("nonce", Str (uuid_to_string nonce)); ("until", Number until)].

Definition park_workspace_job (inst : string) (job_id : Uuid) (lease_owner : string)
    (payload : Value) (until now : Z) : DbM Value :=
  stored ← lift (ok_or (as_object payload) StorageError.Json);
  nonce ← now_v7;
  let stored := Object (map_insert "runtime_wait" (runtime_wait nonce until) stored) in
  _ ← update_owned inst lease_owner job_id
        (λ r, released JobPending until (refund_attempt (j_attempts r)) stored now r);
  mret stored.

(** ** Parked jobs *)

(** [decode_parked_job_fields]: [None] for a marker that does not match. *)
Definition decode_parked_job_fields (id workspace_id : Uuid) (payload : Value)
    (until workspace_generation : Z) (state : WorkspaceState) : option ParkedWorkspaceJob :=
  generation ← get_u64 payload "reconciled_generation";
  reconciled_at ← get_i64 payload "reconciled_at";
  wait ← get payload "runtime_wait" ≫= as_object;
  if bool_decide (u64_try_from workspace_generation = Some generation)
     && bool_decide (get_i64 (Object wait) "until" = Some until)
     && is_some_and (get_str (Object wait) "nonce") (λ nonce, is_some (uuid_parse_str nonce))
  then
    desired_replicas ← match state with
                       | Provisioning | Starting | Restarting => Some 1
                       | Stopping => Some 0
                       | _ => None
                       end;
    Some (mkParked id workspace_id payload until generation reconciled_at desired_replicas)
  else None.

(** The row of the join of [jobs] with [workspaces] that the parked-job queries
    select: still pending in the future, on a workspace in transition, carrying
    a marker for the workspace's current generation. *)
Definition parked_candidate (inst : string) (now : Z) (db : Db) (r : JobRow)
    : option (Uuid * WorkspaceRow) :=
  workspace_id ← j_workspace_id r;
  w ← t_workspaces db !! workspace_id;
  if String.eqb (j_installation_id r) inst && String.eqb (wr_installation_id w) (j_installation_id r)
     && String.eqb (j_kind r) "reconcile_workspace" && bool_decide (j_status r = JobPending)
     && (now <? j_available_at r)
     && match wr_state w with Provisioning | Starting | Restarting | Stopping => true | _ => false end
     && is_some (get (j_payload r) "runtime_wait")
     && bool_decide (get (j_payload r) "reconciled_generation" = Some (Number (wr_generation w)))
  then Some (workspace_id, w) else None.

Definition parked_of_row (inst : string) (now : Z) (db : Db) (id : Uuid) (r : JobRow)
    : option (option ParkedWorkspaceJob) :=
  '(workspace_id, w) ← parked_candidate inst now db r;
  Some (decode_parked_job_fields id workspace_id (j_payload r) (j_available_at r)
          (wr_generation w) (wr_state w)).

Definition get_parked_workspace_job (inst : string) (job_id : Uuid) (now : Z)
    : DbM (option ParkedWorkspaceJob) :=
  reads (λ db, r ← t_jobs db !! job_id; parked ← parked_of_row inst now db job_id r; parked).

(** One page of raw rows in identifier order; a full page sets the cursor to its
    last row, whether or not that row decodes. *)
Definition id_le (a b : Uuid * JobRow) : Prop := (a.1 <= b.1)%N.
#[global] Instance id_le_dec a b : Decision (id_le a b).
Proof. unfold id_le. apply _. Defined.

Definition parked_page_rows (inst : string) (after : option Uuid) (limit : nat) (now : Z) (db : Db)
    : list (Uuid * JobRow) :=
  take limit (merge_sort id_le
    (List.filter (λ kv, is_some (parked_candidate inst now db kv.2)
                        && is_none_or after (λ cursor, (cursor <? kv.1)%N))
       (map_to_list (t_jobs db)))).

Definition list_parked_workspace_jobs (inst : string) (after : option Uuid) (limit now : Z)
    : DbM ParkedWorkspaceJobsPage :=
  let limit := Z.to_nat (Z.max 1 (Z.min limit 1000)) in
  reads (λ db,
    let rows := parked_page_rows inst after limit now db in
    {| pp_jobs := omap (λ kv, parked ← parked_of_row inst now db kv.1 kv.2; parked) rows;
       pp_next := if bool_decide (length rows = limit) then fst <$> last rows else None |}).

(** [wake_parked_workspace_jobs]: every row that still equals one of the
    descriptors becomes available now. *)
Definition wake_matches (inst : string) (now : Z) (id : Uuid) (r : JobRow) (c : ParkedWorkspaceJob) : bool :=
  bool_decide (pk_id c = id) && String.eqb (j_installation_id r) inst
  && String.eqb (j_kind r) "reconcile_workspace" && bool_decide (j_status r = JobPending)
  && (now <? j_available_at r) && bool_decide (j_payload r = pk_payload c)
  && (j_available_at r =? pk_until c).

Definition available_now (now : Z) (r : JobRow) : JobRow :=
  mkJobRow (j_installation_id r) (j_kind r) (j_workspace_id r) (j_payload r) (j_status r) now
    (j_lease_owner r) (j_lease_expires_at r) (j_attempts r) (j_created_at r) now.

Definition wakes (inst : string) (parked : list ParkedWorkspaceJob) (now : Z) (id : Uuid) (r : JobRow) : bool :=
  existsb (wake_matches inst now id r) parked.

Definition wake_parked_workspace_jobs (inst : string) (parked : list ParkedWorkspaceJob) (now : Z)
    : DbM (gset Uuid) :=
  woken ← reads (λ db, list_to_set (fst <$>
            List.filter (λ kv, wakes inst parked now kv.1 kv.2) (map_to_list (t_jobs db))));
  _ ← modify (λ db, set_t_jobs (map_imap (λ id r,
            Some (if wakes inst parked now id r then available_now now r else r)) (t_jobs db)) db);
  mret woken.

Definition wake_parked_workspace_job (inst : string) (parked : ParkedWorkspaceJob) (now : Z) : DbM bool :=
  woken ← wake_parked_workspace_jobs inst [parked] now;
  mret (bool_decide (pk_id parked ∈ woken)).

(** ** Workspace leases *)

(** [INSERT ... ON CONFLICT DO UPDATE ... WHERE lease_expires_at < now OR
    lease_owner = owner]; one affected row means the lease is held. *)
Definition try_acquire_workspace_lease (inst : string) (workspace_id : Uuid) (lease_owner : string)
    (now duration : Z) : DbM bool :=
  _ ← lift (ensure (negb (bool_decide (lease_owner = ""))) StorageError.EmptyLeaseOwner);
  expires ← lift (lease_expiry now duration);
  existing ← reads (λ db, t_leases db !! (inst, workspace_id));
  if is_none_or existing (λ l, (l_expires_at l <? now) || String.eqb (l_owner l) lease_owner)
  then
    _ ← modify (λ db, set_t_leases
          (<[(inst, workspace_id) := mkLeaseRow lease_owner expires now]> (t_leases db)) db);
    mret true
  else mret false.

Definition release_workspace_lease (inst : string) (workspace_id : Uuid) (lease_owner : string) : DbM () :=
  modify (λ db,
    match t_leases db !! (inst, workspace_id) with
    | Some l => if String.eqb (l_owner l) lease_owner
                then set_t_leases (delete (inst, workspace_id) (t_leases db)) db else db
    | None => db
    end).
End JobStore.
