(* ===== verification/Events.v ===== *)
(** * Events and webhook deliveries
    ([src/storage/workspace_events.rs], the enqueueing half of
    [src/storage/webhook_store.rs])

    A change of a workspace inserts one event and, for each enabled subscription
    of the organization whose prefix matches the event kind, one
    [deliver_webhook] job, all in the caller's transaction. The match is SQL's
    [LIKE], which differs between the two backends; the notification Postgres
    sends to listening processes is not a write to a table and is left out. *)
From S2P Require Import Prelude Text Json Auth Quota Templates Workspaces Errors ShrinkOperation Database JobStore.

(** ** [LIKE] *)
Definition c_percent : Z := 37.
Definition c_backslash : Z := 92.

Definition ascii_fold (c : Z) : Z := if is_ascii_uppercase c then c + 32 else c.

(** One pattern element. Postgres has the backslash as escape character. *)
Inductive LikeItem := AnyString | AnyChar | Literal (c : Z).

Fixpoint like_items (escapes : bool) (pattern : list Z) : list LikeItem :=
  match pattern with
  | [] => []
  | c :: rest =>
      if escapes && (c =? c_backslash) then
        match rest with
        | [] => []
        | escaped :: rest' => Literal escaped :: like_items escapes rest'
        end
      else (if c =? c_percent then AnyString else if c =? c_underscore then AnyChar else Literal c)
           :: like_items escapes rest
  end.

Fixpoint like_match (same : Z → Z → bool) (items : list LikeItem) (text : list Z) : bool :=
  match items with
  | [] => match text with [] => true | _ => false end
  | AnyString :: items' =>
      (fix any (text : list Z) : bool :=
         like_match same items' text || match text with [] => false | _ :: text' => any text' end) text
  | AnyChar :: items' => match text with [] => false | _ :: text' => like_match same items' text' end
  | Literal l :: items' =>
      match text with [] => false | c :: text' => same l c && like_match same items' text' end
  end.

(** [text LIKE prefix || '%']: SQLite compares ASCII letters without case. *)
Definition like_prefix `{SqlBackend} (prefix text : string) : bool :=
  match backend with
  | Sqlite => like_match (λ a b, ascii_fold a =? ascii_fold b)
                (like_items false (chars prefix ++ [c_percent])) (chars text)
  | Postgres => like_match Z.eqb (like_items true (chars prefix ++ [c_percent])) (chars text)
  end.

Section Events.
Context `{UuidText} `{SqlBackend}.

(** ** Webhook deliveries *)
Definition subscribed (inst : string) (organization_id : Uuid) (kind : string) (row : WebhookRow) : bool :=
  String.eqb (wh_installation_id row) inst && bool_decide (wh_organization_id row = organization_id)
  && wh_enabled row && like_prefix (wh_event_prefix row) kind.

Definition delivery_job (inst : string) (subscription_id workspace_id event_id : Uuid) (now : Z) : JobRow :=
  pending_row inst "deliver_webhook" (Some workspace_id)
    (json_object [("subscription_id", Str (uuid_to_string subscription_id));
                  ("event_id", Str (uuid_to_string event_id))]) now now.

Definition insert_delivery_job (inst : string) (workspace_id event_id : Uuid) (now : Z)
    (subscription_id : Uuid) : DbM () :=
  id ← now_v7;
  insert_job id (delivery_job inst subscription_id workspace_id event_id now).

(** [enqueue_sqlite] and [enqueue_postgres]. *)
Definition enqueue_deliveries (inst : string) (organization_id workspace_id event_id : Uuid)
    (kind : string) (now : Z) : DbM () :=
  rows ← reads (λ db, fst <$>
           List.filter (λ kv, subscribed inst organization_id kind kv.2) (map_to_list (t_webhooks db)));
  for_each (insert_delivery_job inst workspace_id event_id now) rows.

(** ** Events *)
Definition payload (w : Workspace) (action : option string) : Value :=
  let payload := json_object [("state", Str (state_as_str (ws_state w)));
                              ("generation", Number (ws_generation w));
                              ("node_pool", Str (ws_node_pool w))] in
  match action with
  | Some action => set_key payload "action" (Str action)
  | None => payload
  end.

Definition image_updated_payload (w : Workspace) : Value :=
  json_object [("image", Str (image (ws_template w))); ("generation", Number (ws_generation w))].

Definition placement_updated_payload (w : Workspace) : Value :=
  json_object [("node_pool", Str (ws_node_pool w)); ("generation", Number (ws_generation w))].

Definition insert_workspace_event (inst : string) (w : Workspace) (kind : string) (payload : Value)
    (now : Z) : DbM () :=
  event_id ← now_v7;
  _ ← insert_event event_id
        (mkEventRow inst (ws_organization_id w) (Some (ws_id w)) kind payload now);
  enqueue_deliveries inst (ws_organization_id w) (ws_id w) event_id kind now.

(** [insert_sqlite]/[insert_postgres], [insert_image_updated_*],
    [insert_placement_updated_*]. *)
Definition insert_state_changed (inst : string) (w : Workspace) (action : option string) (now : Z) : DbM () :=
  insert_workspace_event inst w "workspace.state_changed" (payload w action) now.
Definition insert_image_updated (inst : string) (w : Workspace) (now : Z) : DbM () :=
  insert_workspace_event inst w "workspace.image_updated" (image_updated_payload w) now.
Definition insert_placement_updated (inst : string) (w : Workspace) (now : Z) : DbM () :=
  insert_workspace_event inst w "workspace.placement_updated" (placement_updated_payload w) now.

(** ** Lemmas *)

(** The events written and the jobs queued leave the other tables alone. *)
Lemma insert_workspace_event_frames {T} (view : Db → T) inst w kind p now :
  (∀ db n, view (set_uuid_drawn n db) = view db) →
  (∀ db m, view (set_t_jobs m db) = view db) → (∀ db m, view (set_t_events m db) = view db) →
  Preserves (frames view) (insert_workspace_event inst w kind p now).
Proof.
  intros Hn Hj He.
  pose proof (frames_table_relation view (λ n db, Hn db n)) as HR.
  unfold insert_workspace_event, enqueue_deliveries, insert_delivery_job.
  apply preserves_bind; [done|apply _|intros id]. apply preserves_bind; [done| |intros _].
  - apply preserves_insert_row; [done|intros; apply He].
  - apply preserves_bind; [done|apply _|intros rows]. apply for_each_preserves; [done|intros a].
    apply preserves_bind; [done|apply _|intros k]. apply preserves_insert_row; [done|intros; apply Hj].
Qed.

#[global] Instance insert_workspace_event_total inst w kind p now :
  Total (insert_workspace_event inst w kind p now).
Proof. unfold insert_workspace_event, enqueue_deliveries, insert_delivery_job. apply _. Qed.

(** The jobs an event adds are deliveries of that workspace's event. *)
Definition is_delivery (inst : string) (workspace_id : Uuid) (row : JobRow) : Prop :=
  j_installation_id row = inst ∧ j_kind row = "deliver_webhook" ∧ j_workspace_id row = Some workspace_id ∧
  j_status row = JobPending.

Lemma insert_workspace_event_jobs inst w kind p now :
  Preserves (adds t_jobs (is_delivery inst (ws_id w))) (insert_workspace_event inst w kind p now).
Proof.
  unfold insert_workspace_event, enqueue_deliveries, insert_delivery_job.
  apply preserves_bind; [apply _..|intros id]. apply preserves_bind; [apply _| |intros _].
  - apply preserves_insert_row; [apply _|]. intros db _ k. by left.
  - apply preserves_bind; [apply _..|intros rows]. apply for_each_preserves; [apply _|intros a].
    apply preserves_bind; [apply _..|intros k]. apply preserves_adds_insert; [apply _|done|repeat split].
Qed.

(** The subscriptions of an organization that an event of [kind] is sent to. *)
Definition subscriptions (inst : string) (organization_id : Uuid) (kind : string) (db : Db) : list Uuid :=
  fst <$> List.filter (λ kv, subscribed inst organization_id kind kv.2) (map_to_list (t_webhooks db)).

Lemma elem_of_subscriptions inst org kind db s :
  s ∈ subscriptions inst org kind db ↔
  ∃ row, t_webhooks db !! s = Some row ∧ subscribed inst org kind row = true.
Proof.
  unfold subscriptions. rewrite list_elem_of_fmap. split.
  - intros ([k row] & -> & [Hin Hs]%list_elem_of_In%filter_In).
    exists row. by apply list_elem_of_In, elem_of_map_to_list in Hin.
  - intros (row & Hrow & Hs). exists (s, row). split; [done|]. apply list_elem_of_In, filter_In.
    split; [|done]. by apply list_elem_of_In, elem_of_map_to_list.
Qed.

Lemma for_each_deliveries inst ws event_id now rows db u db' :
  for_each (insert_delivery_job inst ws event_id now) rows db = (Ok u, db') →
  ∃ ids, length ids = length rows ∧ NoDup ids ∧ Forall (λ id, t_jobs db !! id = None) ids ∧
    t_jobs db' = list_to_map (zip ids ((λ s, delivery_job inst s ws event_id now) <$> rows)) ∪ t_jobs db.
Proof.
  revert db. induction rows as [|s rows IH]; intros db; cbn.
  - intros [= <- <-]. exists []. split_and!; try done; [constructor|]. symmetry; apply (left_id_L ∅ (∪)).
  - rewrite bind_run. unfold insert_delivery_job at 1. rewrite bind_run; cbn.
    unfold insert_job, insert_row. cbn. set (id0 := uuid_source db (uuid_drawn db)).
    destruct (t_jobs db !! id0) eqn:Hfree; [done|]. intros (ids & Hlen & Hnd & Hf & Hj)%IH. cbn in *.
    assert (Hid0 : id0 ∉ ids).
    { intros Hin. rewrite Forall_forall in Hf. specialize (Hf _ Hin). cbn in Hf.
      by rewrite lookup_insert_eq in Hf. }
    exists (id0 :: ids). split_and!; [cbn; congruence|by constructor| |].
    + constructor; [done|]. eapply Forall_impl; [exact Hf|]. cbn. intros id Hid.
      by apply lookup_insert_None in Hid as [].
    + rewrite Hj. cbn. rewrite <-insert_union_l, <-insert_union_r; [done|].
      apply not_elem_of_list_to_map. intros Hin. apply Hid0.
      rewrite fst_zip in Hin; [done|]. rewrite length_fmap. lia.
Qed.

(** An event is queued for delivery exactly once per subscription it matches:
    the subscriptions are the enabled ones of the organization whose prefix
    matches the kind, each gets one new pending job with its identifier and the
    event's, and no other job is added or changed. *)
Theorem enqueue_deliveries_exact inst org ws event_id kind now db u db' :
  enqueue_deliveries inst org ws event_id kind now db = (Ok u, db') →
  let subs := subscriptions inst org kind db in
  NoDup subs ∧
  (∀ s, s ∈ subs ↔ ∃ row, t_webhooks db !! s = Some row ∧ subscribed inst org kind row = true) ∧
  ∃ ids, length ids = length subs ∧ NoDup ids ∧ Forall (λ id, t_jobs db !! id = None) ids ∧
    t_jobs db' = list_to_map (zip ids ((λ s, delivery_job inst s ws event_id now) <$> subs)) ∪ t_jobs db.
Proof.
  unfold enqueue_deliveries. rewrite bind_run; cbn. intros Hrun. split_and!.
  - unfold subscriptions. apply NoDup_fmap_fst.
    + intros k r1 r2 Hr1 Hr2.
      apply list_elem_of_In, filter_In in Hr1 as [Hr1%list_elem_of_In%elem_of_map_to_list _].
      apply list_elem_of_In, filter_In in Hr2 as [Hr2%list_elem_of_In%elem_of_map_to_list _]. congruence.
    + apply NoDup_ListNoDup, List.NoDup_filter, NoDup_ListNoDup, NoDup_map_to_list.
  - apply elem_of_subscriptions.
  - by eapply for_each_deliveries.
Qed.
End Events.

(** ** Prefix matching *)
Definition plain (c : Z) : bool :=
  negb (c =? c_percent) && negb (c =? c_underscore) && negb (c =? c_backslash).

Lemma like_items_plain escapes cs :
  forallb plain cs = true → like_items escapes (cs ++ [c_percent]) = (Literal <$> cs) ++ [AnyString].
Proof.
  induction cs as [|c cs IH]; cbn; [by destruct escapes|].
  intros [Hc Hcs]%andb_true_iff. unfold plain in Hc. bool_prop.
  rewrite (proj2 (Z.eqb_neq c c_backslash)) by done. rewrite andb_false_r.
  rewrite (proj2 (Z.eqb_neq c c_percent)), (proj2 (Z.eqb_neq c c_underscore)) by done. by rewrite IH.
Qed.

Lemma like_match_any same text : like_match same [AnyString] text = true.
Proof. induction text as [|c text IH]; cbn in *; [done|by rewrite IH]. Qed.

Lemma like_match_literals same cs text :
  like_match same ((Literal <$> cs) ++ [AnyString]) text = true ↔
  ∃ rest, text = rest.1 ++ rest.2 ∧ Forall2 (λ a b, same a b = true) cs rest.1.
Proof.
  revert text. induction cs as [|c cs IH]; intros text.
  - cbn [app fmap list_fmap]. rewrite like_match_any. split; [|done]. intros _.
    exists ([], text). split; [done|constructor].
  - cbn. destruct text as [|d text].
    + split; [done|]. intros ([x y] & E & HF). cbn in *. inversion HF; subst. done.
    + rewrite andb_true_iff, IH. split.
      * intros [Hc ([x y] & -> & HF)]. exists (d :: x, y). split; [done|by constructor].
      * intros ([x y] & E & HF). cbn in *. apply Forall2_cons_inv_l in HF as (b & x' & Hb & HF & ->).
        simplify_eq/=. split; [done|]. by exists (x', y).
Qed.

(** A subscription's prefix free of the wildcard characters [%], [_] and [\]
    matches exactly the event kinds that start with it; on SQLite the letters
    are compared without case. *)
Lemma like_prefix_plain `{SqlBackend} prefix text :
  forallb plain (chars prefix) = true →
  like_prefix prefix text = true ↔
  match backend with
  | Postgres => ∃ rest, chars text = chars prefix ++ rest
  | Sqlite => ∃ rest, ascii_fold <$> chars text = (ascii_fold <$> chars prefix) ++ rest
  end.
Proof.
  intros Hp. unfold like_prefix. destruct backend; rewrite like_items_plain, like_match_literals by done.
  - split.
    + intros ([x y] & -> & HF). exists (ascii_fold <$> y). cbn in *. rewrite fmap_app. f_equal.
      symmetry. apply list_eq_Forall2, Forall2_fmap. eapply Forall2_impl; [exact HF|]. cbn. intros ??. by rewrite Z.eqb_eq.
    + intros [rest (x & y & Hx & _ & ->)%fmap_app_inv]. exists (x, y). split; [done|]. cbn.
      apply list_eq_Forall2 in Hx. rewrite Forall2_fmap in Hx. eapply Forall2_impl; [exact Hx|]. intros ??. by rewrite Z.eqb_eq.
  - split.
    + intros ([x y] & -> & HF). exists y. cbn in *. f_equal. symmetry.
      apply list_eq_Forall2. eapply Forall2_impl; [exact HF|]. cbn. intros ??. by rewrite Z.eqb_eq.
    + intros [rest ->]. exists (chars prefix, rest). split; [done|]. cbn.
      apply Forall_Forall2_diag, Forall_forall. intros. apply Z.eqb_refl.
Qed.

Module EventSample.
Definition webhooks : gmap Uuid WebhookRow :=
  let hook organization prefix :=
    mkWebhookRow "inst" organization "https://example.org/hook" prefix "c" "n" "k" "m" true 3 10 10 in
  {[ 70%N := hook 2%N "workspace."; 71%N := hook 2%N "user."; 72%N := hook 9%N "workspace." ]}.
Definition db : Db := set_t_webhooks webhooks empty_db.
End EventSample.

Lemma enqueue_deliveries_exact_witness :
  let _ := decimal_uuid_text in let _ : SqlBackend := Postgres in
  subscriptions "inst" 2 "workspace.state_changed" EventSample.db = [70%N] ∧
  ∃ db' ids, enqueue_deliveries "inst" 2 1 50 "workspace.state_changed" 100 EventSample.db = (Ok (), db') ∧
    length ids = 1%nat ∧
    t_jobs db' = list_to_map (zip ids [delivery_job "inst" 70 1 50 100]) ∪ t_jobs EventSample.db.
Proof.
  intros U B. split; [vm_compute; reflexivity|].
  edestruct (@enqueue_deliveries_exact U B "inst" 2%N 1%N 50%N "workspace.state_changed" 100 EventSample.db)
    as (_ & _ & ids & Hlen & _ & _ & Hj); [vm_compute; reflexivity|].
  eexists _, ids. split; [vm_compute; reflexivity|]. split; [exact Hlen|exact Hj].
Defined.

