(* ===== verification/JobQueue.v ===== *)
(** * Properties of the job queue and of the workspace leases

    [exec] runs any interleaving of the queue's statements, by any workers; the
    invariants are proved over such sequences. *)
From S2P Require Import Prelude Text Json Auth Quota Templates Workspaces Errors ShrinkOperation Database JobStore.

Section Queue.
Context `{UuidText}.
Implicit Types (db : Db) (r : JobRow) (id : Uuid) (inst o : string) (now e : Z).

(** ** Selecting the next job *)
Lemma job_before_total (x y : Uuid * JobRow) : job_before x y = false → job_before y x = true.
Proof.
  unfold job_before. rewrite orb_false_iff, andb_false_iff, Z.ltb_ge, Z.eqb_neq, N.leb_gt.
  rewrite orb_true_iff, andb_true_iff, Z.ltb_lt, Z.eqb_eq, N.leb_le. lia.
Qed.

Lemma job_before_trans (x y z : Uuid * JobRow) :
  job_before x y = true → job_before y z = true → job_before x z = true.
Proof.
  unfold job_before. rewrite !orb_true_iff, !andb_true_iff, !Z.ltb_lt, !Z.eqb_eq, !N.leb_le. lia.
Qed.

Lemma next_claimable_elem inst now db id r :
  (id, r) ∈ List.filter (λ kv, claimable inst now kv.2) (map_to_list (t_jobs db)) ↔
  t_jobs db !! id = Some r ∧ claimable inst now r = true.
Proof. by rewrite list_elem_of_In, filter_In, <-list_elem_of_In, elem_of_map_to_list. Qed.

Lemma next_claimable_Some inst now db id r :
  next_claimable inst now db = Some (id, r) →
  t_jobs db !! id = Some r ∧ claimable inst now r = true ∧
  ∀ id' r', t_jobs db !! id' = Some r' → claimable inst now r' = true →
    job_before (id, r) (id', r') = true.
Proof.
  unfold next_claimable. intros E.
  pose proof (first_by_elem _ _ _ E) as Hin. apply next_claimable_elem in Hin as [Hid Hc].
  split_and!; [done..|]. intros id' r' Hid' Hc'.
  eapply first_by_least; eauto using job_before_total, job_before_trans.
  by apply next_claimable_elem.
Qed.

Lemma next_claimable_None inst now db :
  next_claimable inst now db = None ↔
  ∀ id r, t_jobs db !! id = Some r → claimable inst now r = false.
Proof.
  unfold next_claimable. rewrite first_by_None. split.
  - intros Hnil id r Hid. destruct (claimable inst now r) eqn:Hc; [|done].
    assert (Hin : (id, r) ∈ @nil (Uuid * JobRow)) by (rewrite <-Hnil; by apply next_claimable_elem).
    by apply not_elem_of_nil in Hin.
  - intros Hall. destruct (List.filter _ _) as [|[id r] l] eqn:E; [done|].
    assert (Hin : (id, r) ∈ (id, r) :: l) by apply list_elem_of_here.
    rewrite <-E in Hin. apply next_claimable_elem in Hin as [Hid Hc].
    by rewrite (Hall _ _ Hid) in Hc.
Qed.

Lemma lease_expiry_Ok now duration e :
  lease_expiry now duration = Ok e ↔
  e = now + duration ∧ i64_min <= duration <= i64_max ∧ i64_min <= now + duration <= i64_max.
Proof.
  unfold lease_expiry. rewrite bind_Ok. setoid_rewrite ok_or_Ok.
  setoid_rewrite checked_add_i64_Some. unfold i64_try_from. setoid_rewrite guard_range_Some.
  unfold in_i64. setoid_rewrite andb_true_iff. setoid_rewrite Z.leb_le. split.
  - intros (s & [-> ?] & -> & ?). auto.
  - intros (-> & ? & ?). exists duration. auto.
Qed.

(** ** What each statement does *)
Lemma claim_job_run inst o now duration e db :
  o ≠ "" → lease_expiry now duration = Ok e →
  claim_job inst o now duration db =
  match next_claimable inst now db with
  | None => (Ok None, db)
  | Some (id, r) =>
      (Ok (Some (claimed_job id e r)), set_t_jobs (<[id := claimed_row o e now r]> (t_jobs db)) db)
  end.
Proof.
  intros Ho He. unfold claim_job. rewrite (bool_decide_eq_false_2 _ Ho). cbn.
  rewrite bind_run; cbn. rewrite bind_run, He; cbn. rewrite bind_run; cbn.
  destruct (next_claimable inst now db) as [[id r]|]; done.
Qed.

(** Either the arguments are rejected and nothing happens, or the claim runs. *)
Lemma claim_job_cases inst o now duration db res db' :
  claim_job inst o now duration db = (res, db') →
  (db' = db ∧ (∃ err, res = Err err)) ∨
  (o ≠ "" ∧ ∃ e, lease_expiry now duration = Ok e).
Proof.
  unfold claim_job. rewrite bind_run. case_bool_decide as Ho; cbn.
  - intros [= <- <-]. left; eauto.
  - rewrite bind_run; cbn. destruct (lease_expiry now duration) as [e|err] eqn:E; cbn.
    + eauto.
    + intros [= <- <-]. left; eauto.
Qed.

Lemma update_owned_run inst o id f db :
  update_owned inst o id f db =
  match t_jobs db !! id with
  | Some r => if owned inst o r then (Ok (), set_t_jobs (<[id := f r]> (t_jobs db)) db)
              else (Err (StorageError.LeaseNotOwned id), db)
  | None => (Err (StorageError.LeaseNotOwned id), db)
  end.
Proof.
  unfold update_owned. rewrite bind_run. unfold update_job, update_where.
  destruct (t_jobs db !! id) as [r|]; [destruct (owned inst o r)|]; done.
Qed.

Lemma wake_run inst parked now db :
  wake_parked_workspace_jobs inst parked now db =
  (Ok (list_to_set (fst <$> List.filter (λ kv, wakes inst parked now kv.1 kv.2)
                              (map_to_list (t_jobs db)))),
   set_t_jobs (map_imap (λ id r,
     Some (if wakes inst parked now id r then available_now now r else r)) (t_jobs db)) db).
Proof. done. Qed.

(** ** Claiming *)

(** C2: claiming a job with valid arguments takes the due job that is first by
    availability time and identifier: it returns nothing exactly when no job is
    due (pending and available, or running with an expired lease); otherwise
    the job it returns was due and first, its row is now running under the
    caller until the new expiry with one attempt more, and every other row is
    unchanged. *)
Theorem claim_job_spec inst o now duration e db res db' :
  o ≠ "" → lease_expiry now duration = Ok e →
  claim_job inst o now duration db = (res, db') →
  (res = Ok None ∧ db' = db ∧
     ∀ id r, t_jobs db !! id = Some r → claimable inst now r = false) ∨
  (∃ id r, res = Ok (Some (claimed_job id e r)) ∧
     t_jobs db !! id = Some r ∧ claimable inst now r = true ∧
     (∀ id' r', t_jobs db !! id' = Some r' → claimable inst now r' = true →
        job_before (id, r) (id', r') = true) ∧
     t_jobs db' = <[id := claimed_row o e now r]> (t_jobs db)).
Proof.
  intros Ho He. rewrite (claim_job_run _ _ _ _ _ _ Ho He).
  destruct (next_claimable inst now db) as [[id r]|] eqn:E; intros [= <- <-].
  - right. apply next_claimable_Some in E as (?&?&?). exists id, r. split_and!; done.
  - left. split_and!; [done..|]. by apply next_claimable_None.
Qed.

(** ** Interleavings *)

(** The statements on the queue, by any worker at any time. *)
Inductive QueueOp :=
  | QEnqueue (job : NewJob) (now : Z)
  | QClaim (owner : string) (now duration : Z)
  | QComplete (job : Uuid) (owner : string) (now : Z)
  | QFail (job : Uuid) (owner : string) (now : Z)
  | QRenew (job : Uuid) (owner : string) (now duration : Z)
  | QDefer (job : Uuid) (owner : string) (available_at now : Z)
  | QDeferFree (job : Uuid) (owner : string) (available_at now : Z)
  | QPark (job : Uuid) (owner : string) (payload : Value) (until now : Z)
  | QWake (parked : list ParkedWorkspaceJob) (now : Z).

Definition exec_op inst (op : QueueOp) db : Db :=
  match op with
  | QEnqueue job now => (enqueue_job inst job now db).2
  | QClaim owner now duration => (claim_job inst owner now duration db).2
  | QComplete job owner now => (complete_job inst job owner now db).2
  | QFail job owner now => (fail_job inst job owner now db).2
  | QRenew job owner now duration => (renew_job_lease inst job owner now duration db).2
  | QDefer job owner at_ now => (defer_job inst job owner at_ now db).2
  | QDeferFree job owner at_ now => (defer_job_without_attempt inst job owner at_ now db).2
  | QPark job owner payload until now => (park_workspace_job inst job owner payload until now db).2
  | QWake parked now => (wake_parked_workspace_jobs inst parked now db).2
  end.

Definition exec inst (ops : list QueueOp) db : Db := foldl (λ db op, exec_op inst op db) db ops.

(** The worker on whose behalf a statement runs, and the claim's clock. *)
Definition op_owner (op : QueueOp) : option string :=
  match op with
  | QClaim o _ _ | QComplete _ o _ | QFail _ o _ | QRenew _ o _ _ | QDefer _ o _ _
  | QDeferFree _ o _ _ | QPark _ o _ _ _ => Some o
  | QEnqueue _ _ | QWake _ _ => None
  end.
Definition claim_time (op : QueueOp) : option Z :=
  match op with QClaim _ now _ => Some now | _ => None end.

(** What one statement may do to one row. *)
Inductive row_step inst (id : Uuid) : QueueOp → JobRow → JobRow → Prop :=
  | row_same op r : row_step inst id op r r
  | row_claim o now duration e r :
      claimable inst now r = true → lease_expiry now duration = Ok e →
      row_step inst id (QClaim o now duration) r (claimed_row o e now r)
  | row_complete o now r : owned inst o r = true →
      row_step inst id (QComplete id o now) r
        (released JobCompleted (j_available_at r) (j_attempts r) (j_payload r) now r)
  | row_fail o now r : owned inst o r = true →
      row_step inst id (QFail id o now) r
        (released JobFailed (j_available_at r) (j_attempts r) (j_payload r) now r)
  | row_renew o now duration e r : owned inst o r = true → lease_expiry now duration = Ok e →
      row_step inst id (QRenew id o now duration) r
        (mkJobRow (j_installation_id r) (j_kind r) (j_workspace_id r) (j_payload r) (j_status r)
            (j_available_at r) (j_lease_owner r) (Some e) (j_attempts r) (j_created_at r) now)
  | row_defer o at_ now r : owned inst o r = true →
      row_step inst id (QDefer id o at_ now) r
        (released JobPending at_ (j_attempts r) (remove_key (j_payload r) "runtime_wait") now r)
  | row_defer_free o at_ now r : owned inst o r = true →
      row_step inst id (QDeferFree id o at_ now) r
        (released JobPending at_ (refund_attempt (j_attempts r))
           (remove_key (j_payload r) "runtime_wait") now r)
  | row_park o payload stored until now r : owned inst o r = true →
      row_step inst id (QPark id o payload until now) r
        (released JobPending until (refund_attempt (j_attempts r)) stored now r)
  | row_wake parked now r : wakes inst parked now id r = true →
      row_step inst id (QWake parked now) r (available_now now r).

Lemma update_owned_row inst o id id' f db r op :
  t_jobs db !! id = Some r →
  (∀ r, owned inst o r = true → row_step inst id' op r (f r)) →
  ∃ r', t_jobs (update_owned inst o id' f db).2 !! id = Some r' ∧ row_step inst id op r r'.
Proof.
  intros Hid Hf. rewrite update_owned_run.
  destruct (t_jobs db !! id') as [r0|] eqn:E0; [destruct (owned inst o r0) eqn:Eo|]; cbn;
    [|eauto using row_same..].
  destruct (decide (id' = id)) as [->|Hne].
  - rewrite Hid in E0. injection E0 as <-. rewrite lookup_insert_eq. eauto.
  - rewrite lookup_insert_ne by done. eauto using row_same.
Qed.

Lemma exec_op_row inst op db id r :
  t_jobs db !! id = Some r →
  ∃ r', t_jobs (exec_op inst op db) !! id = Some r' ∧ row_step inst id op r r'.
Proof.
  intros Hid. destruct op as [job now|o now duration|j o now|j o now|j o now duration|j o at_ now
    |j o at_ now|j o payload until now|parked now]; cbn.
  - unfold enqueue_job. rewrite bind_run; cbn. rewrite bind_run. unfold insert_job, insert_row; cbn.
    destruct (t_jobs db !! uuid_source db (uuid_drawn db)) eqn:E; cbn; [eauto using row_same|].
    rewrite lookup_insert_ne by congruence. eauto using row_same.
  - destruct (claim_job inst o now duration db) as [res db'] eqn:Ec; cbn.
    destruct (claim_job_cases _ _ _ _ _ _ _ Ec) as [[-> _]|(Ho & e & He)]; [eauto using row_same|].
    rewrite (claim_job_run _ _ _ _ _ _ Ho He) in Ec.
    destruct (next_claimable inst now db) as [[id' r']|] eqn:E; injection Ec as <- <-;
      [|eauto using row_same].
    apply next_claimable_Some in E as (Hid' & Hc & _). cbn. destruct (decide (id' = id)) as [->|Hne].
    + rewrite Hid in Hid'. injection Hid' as <-. rewrite lookup_insert_eq. eauto using row_claim.
    + rewrite lookup_insert_ne by done. eauto using row_same.
  - eapply update_owned_row; eauto using row_complete.
  - eapply update_owned_row; eauto using row_fail.
  - unfold renew_job_lease. rewrite bind_run; cbn. destruct (lease_expiry now duration) eqn:E; cbn;
      [|eauto using row_same]. eapply update_owned_row; eauto using row_renew.
  - eapply update_owned_row; eauto using row_defer.
  - eapply update_owned_row; eauto using row_defer_free.
  - unfold park_workspace_job. rewrite bind_run; cbn. destruct (as_object payload) as [m|]; cbn;
      [|eauto using row_same]. rewrite bind_run; cbn. rewrite bind_run.
    set (f := λ r, released _ _ _ _ _ r). set (db1 := set_uuid_drawn _ db).
    destruct (update_owned_row inst o id j f db1 r (QPark j o payload until now)) as (r' & Hr' & Hstep);
      [done|eauto using row_park|].
    exists r'. split; [|done]. destruct (update_owned inst o j f db1) as [[]] eqn:Eu; cbn in *; done.
  - rewrite wake_run; cbn. rewrite map_lookup_imap, Hid; cbn. destruct (wakes inst parked now id r) eqn:E;
      eauto using row_same, row_wake.
Qed.

(** A property of one row kept by every step is kept by every interleaving. *)
Lemma exec_row_invariant inst (I : JobRow → Prop) (allowed : QueueOp → Prop) ops db id r :
  (∀ op r r', allowed op → row_step inst id op r r' → I r → I r') →
  Forall allowed ops → t_jobs db !! id = Some r → I r →
  ∃ r', t_jobs (exec inst ops db) !! id = Some r' ∧ I r'.
Proof.
  intros Hstep Hops. revert db r. induction Hops as [|op ops Hop _ IH]; intros db r Hid Hr; [eauto|].
  destruct (exec_op_row inst op db id r Hid) as (r' & Hid' & Hs). cbn. eauto.
Qed.

(** C1: a job that is running under an unexpired lease belongs to its worker:
    whatever other workers do (claim at times up to the expiry, complete, fail,
    renew, defer, park, wake, enqueue), in any order, its row does not change. *)
Theorem lease_exclusive inst o e ops db id r :
  t_jobs db !! id = Some r → owned inst o r = true → j_lease_expires_at r = Some e →
  Forall (λ op, op_owner op ≠ Some o ∧ ∀ now, claim_time op = Some now → now <= e) ops →
  t_jobs (exec inst ops db) !! id = Some r.
Proof.
  intros Hid Ho He Hops.
  eapply (exec_row_invariant inst (λ r', r' = r)) in Hops as (r' & ? & ->); [done| |done..].
  clear -Ho He. intros op r1 r' [Hne Htime] Hstep ->.
  assert (Hrun : j_status r = JobRunning ∧ j_lease_owner r = Some o)
    by (unfold owned in Ho; bool_prop; done).
  destruct Hrun as [Hrun Hown].
  assert (Hother : ∀ o', owned inst o' r = true → o' = o)
    by (intros o' Ho'; unfold owned in Ho'; bool_prop; congruence).
  inversion Hstep as [| ? now ? ? ? Hc | ? ? ? H1 | ? ? ? H1 | ? ? ? ? ? H1 | ? ? ? ? H1 | ? ? ? ? H1
    | ? ? ? ? ? ? H1 | ? ? ? Hw]; subst; cbn in *; try done;
    try (apply Hother in H1; congruence).
  - unfold claimable in Hc. rewrite He, Hrun in Hc. cbn in Hc. specialize (Htime now eq_refl).
    bool_prop. destruct_or?; bool_prop; [done|lia].
  - unfold wakes in Hw. apply existsb_exists in Hw as (c & _ & Hw). unfold wake_matches in Hw.
    bool_prop. congruence.
Qed.

(** Completed and failed jobs are final: no interleaving of statements
    changes their rows. *)
Theorem finished_jobs_final inst ops db id r :
  t_jobs db !! id = Some r → j_status r = JobCompleted ∨ j_status r = JobFailed →
  t_jobs (exec inst ops db) !! id = Some r.
Proof.
  intros Hid Hst.
  destruct (exec_row_invariant inst (λ r', r' = r) (λ _, True) ops db id r) as (r' & ? & ->);
    [|by apply Forall_forall|done..].
  clear -Hst. intros op r1 r' _ Hstep ->.
  assert (Hnotowned : ∀ o, owned inst o r = false).
  { intros o. unfold owned. destruct Hst as [-> | ->]; cbn; by rewrite andb_false_r. }
  inversion Hstep as [| ? now ? ? ? Hc | ? ? ? H1 | ? ? ? H1 | ? ? ? ? ? H1 | ? ? ? ? H1 | ? ? ? ? H1
    | ? ? ? ? ? ? H1 | ? ? ? Hw]; subst; try done; try (rewrite Hnotowned in H1; done).
  - unfold claimable in Hc. bool_prop. destruct Hst as [Hst|Hst]; rewrite Hst in *; destruct_or?; bool_prop; done.
  - unfold wakes in Hw. apply existsb_exists in Hw as (c & _ & Hw). unfold wake_matches in Hw.
    bool_prop. destruct Hst; congruence.
Qed.

(** ** Well-formed rows *)

(** A row has an owner and an expiry exactly while it runs, and a non-negative
    number of attempts. *)
Definition job_wf r : Prop :=
  (j_status r = JobRunning ↔ is_Some (j_lease_owner r)) ∧
  (j_status r = JobRunning ↔ is_Some (j_lease_expires_at r)) ∧ 0 <= j_attempts r.

Lemma pending_row_wf inst kind w payload at_ now : job_wf (pending_row inst kind w payload at_ now).
Proof. unfold job_wf; cbn. split_and!; [..|lia]; (split; [done|intros []; done]). Qed.

Lemma released_wf status at_ attempts payload now r :
  status ≠ JobRunning → 0 <= attempts → job_wf (released status at_ attempts payload now r).
Proof. intros. unfold job_wf; cbn. split_and!; [..|done]; (split; [done|intros []; done]). Qed.

Lemma refund_attempt_nonneg n : 0 <= n → 0 <= refund_attempt n.
Proof. unfold refund_attempt. destruct (Z.ltb_spec 0 n); lia. Qed.

Lemma row_step_wf inst id op r r' : row_step inst id op r r' → job_wf r → job_wf r'.
Proof.
  intros Hstep (Ho & He & Ha).
  assert (Hrun : ∀ o, owned inst o r = true → j_status r = JobRunning)
    by (intros o H1; unfold owned in H1; bool_prop; done).
  destruct Hstep; try (apply released_wf; auto using refund_attempt_nonneg; done); try done.
  - unfold job_wf; cbn. split_and!; [split; [intros _; by eexists|done]..|lia].
  - unfold job_wf; cbn. rewrite (Hrun o) in * by done. split_and!; [done|split; [by eexists|done]|done].
Qed.

Lemma update_owned_dom inst o id id' f db :
  t_jobs db !! id = None → t_jobs (update_owned inst o id' f db).2 !! id = None.
Proof.
  intros Hn. rewrite update_owned_run.
  destruct (t_jobs db !! id') as [r|] eqn:E; [destruct (owned inst o r)|]; cbn; try done.
  rewrite lookup_insert_ne by congruence. done.
Qed.

(** Only queueing adds a row. *)
Lemma exec_op_new inst op db id r' :
  t_jobs db !! id = None → t_jobs (exec_op inst op db) !! id = Some r' →
  ∃ job now, op = QEnqueue job now ∧
    r' = pending_row inst (nj_kind job) (nj_workspace_id job) (nj_payload job) (nj_available_at job) now.
Proof.
  intros Hn. destruct op as [job now|o now duration|j o now|j o now|j o now duration|j o at_ now
    |j o at_ now|j o payload until now|parked now]; cbn;
    try (unfold complete_job, fail_job, defer_job, defer_job_without_attempt;
         rewrite update_owned_dom by done; done).
  - unfold enqueue_job. rewrite bind_run; cbn. rewrite bind_run. unfold insert_job, insert_row; cbn.
    destruct (t_jobs db !! uuid_source db (uuid_drawn db)) eqn:E; cbn; [congruence|].
    rewrite lookup_insert_Some. intros [[_ <-]|[_ ?]]; [eauto|congruence].
  - destruct (claim_job inst o now duration db) as [res db'] eqn:Ec; cbn.
    destruct (claim_job_cases _ _ _ _ _ _ _ Ec) as [[-> _]|(Ho & e & He)]; [congruence|].
    rewrite (claim_job_run _ _ _ _ _ _ Ho He) in Ec.
    destruct (next_claimable inst now db) as [[id' r0]|] eqn:E; injection Ec as <- <-; [|congruence].
    apply next_claimable_Some in E as (Hid' & _ & _). cbn. rewrite lookup_insert_ne by congruence. congruence.
  - unfold renew_job_lease. rewrite bind_run; cbn. destruct (lease_expiry now duration); cbn; [|congruence].
    by rewrite update_owned_dom.
  - unfold park_workspace_job. rewrite bind_run; cbn. destruct (as_object payload); cbn; [|congruence].
    rewrite bind_run; cbn. rewrite bind_run. intros Hr. exfalso. revert Hr.
    match goal with |- context [update_owned inst o j ?f ?d] =>
      pose proof (update_owned_dom inst o id j f d Hn) as Hd; destruct (update_owned inst o j f d) as [[]] end;
      cbn in *; congruence.
  - rewrite wake_run; cbn. by rewrite map_lookup_imap, Hn.
Qed.

(** In every database reached from one with well-formed rows, by any
    interleaving of queue statements, a job has an owner and an expiry exactly
    while it runs, and a non-negative attempt count. *)
Theorem queue_rows_well_formed inst ops db :
  (∀ id r, t_jobs db !! id = Some r → job_wf r) →
  ∀ id r, t_jobs (exec inst ops db) !! id = Some r → job_wf r.
Proof.
  revert db. induction ops as [|op ops IH]; intros db Hdb; [done|]. cbn. apply IH.
  intros id r' Hr'. destruct (t_jobs db !! id) as [r|] eqn:E.
  - destruct (exec_op_row inst op db id r E) as (r1 & Hr1 & Hs). rewrite Hr' in Hr1. injection Hr1 as ->.
    eauto using row_step_wf.
  - destruct (exec_op_new inst op db id r' E Hr') as (job & now & _ & ->). apply pending_row_wf.
Qed.

(** ** Attempts *)

(** Waiting is free: a job that is claimed and then deferred without an
    attempt, or parked, has as many attempts as before the claim; only a
    claim ended by [defer_job] counts, by one. *)
Theorem attempts_accounting inst o e now at_ now' id r db :
  0 <= j_attempts r → t_jobs db !! id = Some (claimed_row o e now r) → j_installation_id r = inst →
  (∃ r', t_jobs (defer_job_without_attempt inst id o at_ now' db).2 !! id = Some r' ∧
         j_attempts r' = j_attempts r ∧ j_status r' = JobPending) ∧
  (∀ m, ∃ r', t_jobs (park_workspace_job inst id o (Object m) at_ now' db).2 !! id = Some r' ∧
         j_attempts r' = j_attempts r ∧ j_status r' = JobPending) ∧
  (∃ r', t_jobs (defer_job inst id o at_ now' db).2 !! id = Some r' ∧
         j_attempts r' = j_attempts r + 1 ∧ j_status r' = JobPending).
Proof.
  intros Ha Hid Hinst.
  assert (Hown : owned inst o (claimed_row o e now r) = true).
  { unfold owned; cbn. rewrite Hinst, String.eqb_refl. rewrite !bool_decide_eq_true_2; done. }
  assert (Hrefund : refund_attempt (j_attempts r + 1) = j_attempts r)
    by (unfold refund_attempt; destruct (Z.ltb_spec 0 (j_attempts r + 1)); lia).
  split_and!.
  - unfold defer_job_without_attempt. rewrite update_owned_run, Hid, Hown; cbn.
    rewrite lookup_insert_eq. eexists; split_and!; [done|cbn|done]. done.
  - intros m. unfold park_workspace_job. rewrite bind_run; cbn. rewrite bind_run; cbn. rewrite bind_run.
    rewrite update_owned_run; cbn. rewrite Hid, Hown; cbn.
    rewrite lookup_insert_eq. eexists; split_and!; [done|cbn|done]. done.
  - unfold defer_job. rewrite update_owned_run, Hid, Hown; cbn.
    rewrite lookup_insert_eq. eexists; split_and!; done.
Qed.

(** ** Parking and waking *)
Definition parked_payload (nonce : Uuid) (until : Z) (m : fields) : Value :=
  Object (map_insert "runtime_wait" (runtime_wait nonce until) m).

Lemma parked_payload_wait nonce until m :
  get (parked_payload nonce until m) "runtime_wait" =
  Some (Object [("nonce", Str (uuid_to_string nonce)); ("until", Number until)]).
Proof. cbn. by rewrite map_get_insert_eq. Qed.

Lemma parked_payload_other nonce until m key :
  "runtime_wait" ≠ key → get (parked_payload nonce until m) key = map_get key m.
Proof. intros Hne. cbn. by rewrite map_get_insert_ne. Qed.

Lemma park_run inst o id m until now db r :
  t_jobs db !! id = Some r → owned inst o r = true →
  let stored := parked_payload (uuid_source db (uuid_drawn db)) until m in
  park_workspace_job inst id o (Object m) until now db =
  (Ok stored,
   set_t_jobs (<[id := released JobPending until (refund_attempt (j_attempts r)) stored now r]>
      (t_jobs db)) (set_uuid_drawn (S (uuid_drawn db)) db)).
Proof.
  intros Hid Ho stored. unfold park_workspace_job. rewrite bind_run; cbn. rewrite bind_run; cbn.
  rewrite bind_run, update_owned_run; cbn. rewrite Hid, Ho; cbn. done.
Qed.

(** The workspace a parked job waits for is in transition at this generation. *)
Definition awaits (w : WorkspaceRow) inst (generation : Z) : Prop :=
  wr_installation_id w = inst ∧ wr_generation w = generation ∧ 0 <= generation <= u64_max ∧
  (wr_state w = Provisioning ∨ wr_state w = Starting ∨ wr_state w = Restarting ∨ wr_state w = Stopping).

Lemma get_parked_run inst id now db r wid w generation at_ nonce m :
  UuidTextLaws →
  t_jobs db !! id = Some r → j_installation_id r = inst → j_kind r = "reconcile_workspace" →
  j_status r = JobPending → j_workspace_id r = Some wid → t_workspaces db !! wid = Some w →
  awaits w inst generation → j_payload r = parked_payload nonce (j_available_at r) m →
  map_get "reconciled_generation" m = Some (Number generation) →
  map_get "reconciled_at" m = Some (Number at_) → i64_min <= at_ <= i64_max →
  now < j_available_at r <= i64_max → i64_min <= now →
  ∃ d, get_parked_workspace_job inst id now db = (Ok (Some d), db) ∧
    pk_id d = id ∧ pk_workspace_id d = wid ∧ pk_payload d = j_payload r ∧
    pk_until d = j_available_at r ∧ pk_generation d = generation.
Proof.
  intros Hlaws Hid Hi Hk Hst Hw Hws (Hwi & Hg & Hgr & Hstate) Hp Hgen Hat Har Hnow Hnow0.
  assert (HG : get (j_payload r) "reconciled_generation" = Some (Number generation))
    by (rewrite Hp, parked_payload_other; done).
  assert (HA : get (j_payload r) "reconciled_at" = Some (Number at_))
    by (rewrite Hp, parked_payload_other; done).
  assert (HW : get (j_payload r) "runtime_wait" = Some (Object
    [("nonce", Str (uuid_to_string nonce)); ("until", Number (j_available_at r))]))
    by (rewrite Hp; apply parked_payload_wait).
  assert (Hu : u64_try_from generation = Some generation)
    by (apply guard_range_Some; split; [done|unfold in_u64; bool_prop; lia]).
  assert (Hin : ∀ z, i64_min <= z <= i64_max → i64_try_from z = Some z)
    by (intros; apply guard_range_Some; split; [done|unfold in_i64; bool_prop; lia]).
  unfold get_parked_workspace_job, reads. rewrite Hid; cbn.
  unfold parked_of_row, parked_candidate. rewrite Hw; cbn. rewrite Hws; cbn.
  rewrite HW, HG, Hi, Hk, Hst, Hwi, Hg, String.eqb_refl, bool_decide_eq_true_2 by done. cbn.
  rewrite (proj2 (Z.ltb_lt _ _)) by lia. rewrite (bool_decide_eq_true_2 (Some _ = Some _)) by done.
  unfold decode_parked_job_fields, get_u64, get_i64. rewrite HG, HA, HW; cbn. rewrite Hu; cbn.
  rewrite !Hin by lia; cbn. rewrite uuid_parse_to_string; cbn.
  rewrite !bool_decide_eq_true_2 by done; cbn.
  destruct Hstate as [Hs|[Hs|[Hs|Hs]]]; rewrite Hs; cbn; rewrite Hs, Hg, Hu;
    rewrite !bool_decide_eq_true_2 by done; cbn; eexists; split_and!; done.
Qed.

Lemma wake_one inst d now db id r :
  t_jobs db !! id = Some r →
  t_jobs (wake_parked_workspace_jobs inst [d] now db).2 !! id =
  Some (if wake_matches inst now id r d then available_now now r else r).
Proof. intros Hid. rewrite wake_run; cbn. rewrite map_lookup_imap, Hid; cbn. unfold wakes; cbn. by rewrite orb_false_r. Qed.

(** A parked job can be found and woken: parking a reconcile job whose
    payload records the generation the workspace is in, and then reading the
    park back, yields its descriptor; waking with that descriptor before the
    deadline makes exactly this job claimable at once. *)
Theorem park_then_wake inst o id m until now db r wid w generation at_ :
  UuidTextLaws →
  t_jobs db !! id = Some r → owned inst o r = true → j_kind r = "reconcile_workspace" →
  j_workspace_id r = Some wid → t_workspaces db !! wid = Some w → awaits w inst generation →
  map_get "reconciled_generation" m = Some (Number generation) →
  map_get "reconciled_at" m = Some (Number at_) → i64_min <= at_ <= i64_max →
  i64_min <= now < until → until <= i64_max →
  let db1 := (park_workspace_job inst id o (Object m) until now db).2 in
  ∃ d, get_parked_workspace_job inst id now db1 = (Ok (Some d), db1) ∧
    pk_generation d = generation ∧
    ∃ r2, t_jobs (wake_parked_workspace_jobs inst [d] now db1).2 !! id = Some r2 ∧
      claimable inst now r2 = true ∧
      (∀ id', id' ≠ id → t_jobs (wake_parked_workspace_jobs inst [d] now db1).2 !! id' = t_jobs db !! id').
Proof.
  intros Hlaws Hid Ho Hk Hw Hws Haw Hgen Hat Har Hnow Hmax db1.
  assert (Hi : j_installation_id r = inst)
    by (unfold owned in Ho; bool_prop; by apply String.eqb_eq).
  subst db1. rewrite (park_run _ _ _ _ _ _ _ _ Hid Ho). cbn.
  set (r1 := released _ _ _ _ _ r). set (db1 := set_t_jobs _ _).
  assert (Hid1 : t_jobs db1 !! id = Some r1) by (cbn; by rewrite lookup_insert_eq).
  unshelve epose proof (get_parked_run inst id now db1 r1 wid w generation at_
    (uuid_source db (uuid_drawn db)) m _ Hid1 Hi Hk eq_refl Hw Hws Haw eq_refl Hgen Hat Har _ _)
    as (d & Hd & Hdi & Hdw & Hdp & Hdu & Hdg); [cbn; lia..|].
  exists d. split_and!; [done..|]. exists (available_now now r1). split_and!.
  - rewrite (wake_one _ _ _ _ _ _ Hid1). unfold wake_matches. rewrite Hdi, Hdp, Hdu; cbn.
    rewrite !bool_decide_eq_true_2, Hi, Hk, String.eqb_refl, Z.eqb_refl by done; cbn.
    by rewrite (proj2 (Z.ltb_lt _ _)) by lia.
  - unfold claimable; cbn. rewrite Hi, String.eqb_refl, bool_decide_eq_true_2 by done; cbn.
    by rewrite Z.leb_refl.
  - intros id' Hne. destruct (t_jobs db !! id') as [r'|] eqn:E'.
    + assert (t_jobs db1 !! id' = Some r') as E1 by (cbn; by rewrite lookup_insert_ne).
      rewrite (wake_one _ _ _ _ _ _ E1). unfold wake_matches. by rewrite bool_decide_eq_false_2 by congruence.
    + rewrite wake_run; cbn. rewrite map_lookup_imap; cbn. rewrite lookup_insert_ne by done. by rewrite E'.
Qed.

(** A descriptor of an earlier park never wakes the job after it was parked
    again: each park has its own nonce, and the wake compares the stored
    payload with the descriptor's. *)
Theorem stale_wake_ignored inst d now db id r nonce nonce' until until' m m' :
  UuidTextLaws → nonce ≠ nonce' →
  t_jobs db !! id = Some r → j_payload r = parked_payload nonce until m →
  pk_payload d = parked_payload nonce' until' m' →
  t_jobs (wake_parked_workspace_jobs inst [d] now db).2 !! id = Some r.
Proof.
  intros Hlaws Hne Hid Hp Hd. rewrite (wake_one _ _ _ _ _ _ Hid).
  destruct (wake_matches inst now id r d) eqn:E; [|done]. exfalso.
  unfold wake_matches in E. bool_prop.
  match goal with Heq : j_payload r = pk_payload d |- _ => rewrite Hp, Hd in Heq;
    apply (f_equal (λ v, get v "runtime_wait")) in Heq end.
  rewrite !parked_payload_wait in *. simplify_eq.
Qed.

(** ** Workspace leases *)
Inductive LeaseOp :=
  | LAcquire (workspace : Uuid) (owner : string) (now duration : Z)
  | LRelease (workspace : Uuid) (owner : string).

Definition exec_lease inst (op : LeaseOp) db : Db :=
  match op with
  | LAcquire w o now duration => (try_acquire_workspace_lease inst w o now duration db).2
  | LRelease w o => (release_workspace_lease inst w o db).2
  end.
Definition lease_op_owner (op : LeaseOp) : string :=
  match op with LAcquire _ o _ _ | LRelease _ o => o end.
Definition lease_op_time (op : LeaseOp) : option Z :=
  match op with LAcquire _ _ now _ => Some now | LRelease _ _ => None end.

Lemma try_acquire_run inst w o now duration e db :
  o ≠ "" → lease_expiry now duration = Ok e →
  try_acquire_workspace_lease inst w o now duration db =
  if is_none_or (t_leases db !! (inst, w)) (λ l, (l_expires_at l <? now) || String.eqb (l_owner l) o)
  then (Ok true, set_t_leases (<[(inst, w) := mkLeaseRow o e now]> (t_leases db)) db)
  else (Ok false, db).
Proof.
  intros Ho He. unfold try_acquire_workspace_lease. rewrite (bool_decide_eq_false_2 _ Ho). cbn.
  rewrite bind_run; cbn. rewrite bind_run, He; cbn. rewrite bind_run; cbn.
  by destruct (is_none_or _ _).
Qed.

Lemma try_acquire_error inst w o now duration db :
  o = "" ∨ is_err (lease_expiry now duration) = true →
  (try_acquire_workspace_lease inst w o now duration db).2 = db.
Proof.
  unfold try_acquire_workspace_lease. rewrite bind_run. intros [->|He]; [done|].
  case_bool_decide; cbn; [done|]. rewrite bind_run; cbn.
  by destruct (lease_expiry now duration).
Qed.

Lemma exec_lease_keeps inst w o e op db l :
  t_leases db !! (inst, w) = Some l → l_owner l = o → l_expires_at l = e →
  lease_op_owner op ≠ o → (∀ now, lease_op_time op = Some now → now <= e) →
  t_leases (exec_lease inst op db) !! (inst, w) = Some l.
Proof.
  intros Hl Hlo Hle Hop Htime. destruct op as [w' o' now duration|w' o']; cbn in *.
  - destruct (decide (o' = "")) as [->|Ho]; [rewrite try_acquire_error; auto|].
    destruct (lease_expiry now duration) as [e'|] eqn:E;
      [|rewrite try_acquire_error; [done|right; by rewrite E]].
    rewrite (try_acquire_run _ _ _ _ _ _ _ Ho E).
    destruct (decide (w' = w)) as [->|Hw].
    + rewrite Hl; cbn. specialize (Htime now eq_refl).
      rewrite (proj2 (Z.ltb_ge _ _)), (proj2 (String.eqb_neq _ _)) by (lia || congruence). done.
    + destruct (is_none_or _ _); cbn; [rewrite lookup_insert_ne by congruence|]; done.
  - destruct (t_leases db !! (inst, w')) as [l'|] eqn:E'; [|done].
    destruct (String.eqb_spec (l_owner l') o') as [Heq|]; [|done]. cbn.
    rewrite lookup_delete_ne; [done|]. congruence.
Qed.

(** A workspace lease is exclusive: until it expires, no sequence of
    acquisitions and releases by other workers takes it away or changes it. *)
Theorem workspace_lease_exclusive inst w o e ops db l :
  t_leases db !! (inst, w) = Some l → l_owner l = o → l_expires_at l = e →
  Forall (λ op, lease_op_owner op ≠ o ∧ ∀ now, lease_op_time op = Some now → now <= e) ops →
  t_leases (foldl (λ db op, exec_lease inst op db) db ops) !! (inst, w) = Some l.
Proof.
  intros Hl Ho He Hops. revert db Hl. induction Hops as [|op ops [Hop Ht] _ IH]; intros db Hl; [done|].
  cbn. apply IH. by eapply exec_lease_keeps.
Qed.
End Queue.

(** ** Witnesses *)
Module Sample.
#[export] Existing Instance decimal_uuid_text.
Definition pending : JobRow := pending_row "demo" "reconcile_workspace" (Some 1%N) (Object []) 50 50.
Definition running : JobRow := claimed_row "a" 160 100 pending.
Definition workspace_row : WorkspaceRow :=
  mkWorkspaceRow "demo" "1" 2 3 "dev" (Some 4%N) Starting 6000 4096 0 60 10 "default" 7 100 100
    ShrinkOperation.Sample.document None None None None None.
Definition db : Db :=
  set_t_jobs {[ 10%N := pending; 11%N := running ]}
    (set_t_workspaces {[ 1%N := workspace_row ]} empty_db).
Definition checkpoint : fields := [("reconciled_at", Number 100); ("reconciled_generation", Number 7)].
End Sample.

Section Witnesses.
#[local] Existing Instance decimal_uuid_text.

Lemma claim_job_spec_witness :
  ∃ res db', claim_job "demo" "b" 100 60 Sample.db = (res, db') ∧
  ((res = Ok None ∧ db' = Sample.db ∧
     ∀ id r, t_jobs Sample.db !! id = Some r → claimable "demo" 100 r = false) ∨
   (∃ id r, res = Ok (Some (claimed_job id 160 r)) ∧
     t_jobs Sample.db !! id = Some r ∧ claimable "demo" 100 r = true ∧
     (∀ id' r', t_jobs Sample.db !! id' = Some r' → claimable "demo" 100 r' = true →
        job_before (id, r) (id', r') = true) ∧
     t_jobs db' = <[id := claimed_row "b" 160 100 r]> (t_jobs Sample.db))).
Proof.
  destruct (claim_job "demo" "b" 100 60 Sample.db) as [res db'] eqn:E. exists res, db'. split; [done|].
  apply (claim_job_spec "demo" "b" 100 60 160 Sample.db res db'); [done|reflexivity|done].
Defined.

Lemma lease_exclusive_witness :
  t_jobs (exec "demo" [QClaim "b" 150 60; QComplete 11 "b" 151] Sample.db) !! 11%N = Some Sample.running.
Proof.
  apply (lease_exclusive "demo" "a" 160); [reflexivity|reflexivity|reflexivity|].
  repeat constructor; cbn; try done; intros ? [= <-]; lia.
Defined.

Lemma finished_jobs_final_witness :
  let db := (complete_job "demo" 11 "a" 120 Sample.db).2 in
  ∃ r, t_jobs (exec "demo" [QClaim "b" 500 60; QFail 11 "a" 501] db) !! 11%N = Some r.
Proof.
  eexists. apply finished_jobs_final; [vm_compute; reflexivity|by left].
Defined.

Lemma queue_rows_well_formed_witness : job_wf (claimed_row "b" 560 500 Sample.pending).
Proof.
  apply (queue_rows_well_formed "demo" [QClaim "b" 500 60]
           (set_t_jobs {[ 10%N := Sample.pending ]} empty_db)) with (id := 10%N).
  - intros id r Hr. cbn in Hr. apply lookup_singleton_Some in Hr as [_ <-]. apply pending_row_wf.
  - vm_compute. reflexivity.
Defined.

Lemma attempts_accounting_witness :
  ∃ r', t_jobs (defer_job_without_attempt "demo" 11 "a" 130 120 Sample.db).2 !! 11%N = Some r' ∧
         j_attempts r' = 0 ∧ j_status r' = JobPending.
Proof.
  destruct (attempts_accounting "demo" "a" 160 100 130 120 11 Sample.pending Sample.db) as [Hwait _];
    [done|reflexivity|reflexivity|]. exact Hwait.
Defined.

Lemma park_then_wake_witness :
  let db1 := (park_workspace_job "demo" 11 "a" (Object Sample.checkpoint) 160 120 Sample.db).2 in
  ∃ d, get_parked_workspace_job "demo" 11 120 db1 = (Ok (Some d), db1) ∧ pk_generation d = 7.
Proof.
  destruct (park_then_wake "demo" "a" 11 Sample.checkpoint 160 120 Sample.db Sample.running 1
    Sample.workspace_row 7 100) as (d & Hd & Hg & _);
    [apply decimal_uuid_text_laws|reflexivity|reflexivity|reflexivity|reflexivity|reflexivity
    | |reflexivity|reflexivity|by vm_compute|by vm_compute|by vm_compute|by exists d].
  split_and!; [reflexivity|reflexivity|by vm_compute|by vm_compute|by right; left].
Defined.

Lemma stale_wake_ignored_witness :
  let r := released JobPending 160 0 (parked_payload 21 160 Sample.checkpoint) 120 Sample.running in
  let d := mkParked 11 1 (parked_payload 20 160 Sample.checkpoint) 160 7 100 1 in
  let db := set_t_jobs {[ 11%N := r ]} Sample.db in
  t_jobs (wake_parked_workspace_jobs "demo" [d] 130 db).2 !! 11%N = Some r.
Proof.
  intros r d db.
  apply (stale_wake_ignored "demo" d 130 db 11 r 21 20 160 160 Sample.checkpoint Sample.checkpoint);
    [apply decimal_uuid_text_laws|done|reflexivity|reflexivity|reflexivity].
Defined.

Lemma workspace_lease_exclusive_witness :
  let db := (try_acquire_workspace_lease "demo" 1 "a" 100 60 empty_db).2 in
  t_leases (foldl (λ db op, exec_lease "demo" op db) db [LAcquire 1 "b" 150 60; LRelease 1 "b"])
    !! ("demo", 1%N) = Some (mkLeaseRow "a" 160 100).
Proof.
  intros db. apply (workspace_lease_exclusive "demo" 1 "a" 160); [reflexivity..|].
  repeat constructor; cbn; try done; intros ? [= <-]; lia.
Defined.
End Witnesses.
