(* ===== verification/WorkspaceActions.v ===== *)
(** * Recording lifecycle transitions
    ([src/storage/workspace_actions.rs], [src/storage/workspace_observation_jobs.rs])

    A user's action or the reconciler's observation moves one workspace row along
    the lifecycle of [Workspaces] in one transaction: the row is read and
    decoded, the generation the caller saw is compared, the row is updated under
    its prior state and generation, and the job, the audit entry, the event and
    its deliveries are written with it. A confirmed deletion also erases the
    workspace's data and leaves a tombstone. *)
From S2P Require Import Prelude Text Json Auth Quota Templates Workspaces Errors ShrinkOperation Database WorkspaceStore JobStore Events.

Inductive StoredTransition :=
  | Action (action : WorkspaceAction)
  | Observation (observation : WorkspaceObservation).

Definition next_state (t : StoredTransition) (s : WorkspaceState) : result StorageError.t WorkspaceState :=
  match t with
  | Action action => map_err StorageError.Transition (request s action)
  | Observation observation => map_err StorageError.Transition (observe s observation)
  end.

Definition transition_as_str (t : StoredTransition) : string :=
  match t with
  | Action action => action_as_str action
  | Observation observation => observation_as_str observation
  end.

Definition enqueues_reconcile (t : StoredTransition) : bool :=
  match t with Action _ => true | Observation _ => false end.

Definition confirms_deletion (t : StoredTransition) : bool :=
  match t with Observation ObsDeleted => true | _ => false end.

(** [as_i64]: a generation must fit the signed column. *)
Definition generation_column (value : Z) : result StorageError.t Z :=
  ok_or (i64_try_from value) StorageError.InvalidWorkspace.

(** The assignments to the workspace in memory and in its row. *)
Definition set_transition (s : WorkspaceState) (generation now : Z) (w : Workspace) : Workspace :=
  {| ws_id := ws_id w; ws_short_id := ws_short_id w; ws_organization_id := ws_organization_id w;
     ws_owner_id := ws_owner_id w; ws_name := ws_name w; ws_template_id := ws_template_id w;
     ws_node_pool := ws_node_pool w; ws_home_volume_binding := ws_home_volume_binding w;
     ws_scratch_volume_binding := ws_scratch_volume_binding w; ws_template := ws_template w;
     ws_state := s; ws_generation := generation; ws_created_at := ws_created_at w;
     ws_updated_at := now |}.

Definition set_row_transition (s : WorkspaceState) (generation now : Z) (r : WorkspaceRow) : WorkspaceRow :=
  {| wr_installation_id := wr_installation_id r; wr_short_id := wr_short_id r;
     wr_organization_id := wr_organization_id r; wr_owner_id := wr_owner_id r; wr_name := wr_name r;
     wr_template_id := wr_template_id r; wr_state := s; wr_cpu_millis := wr_cpu_millis r;
     wr_memory_mib := wr_memory_mib r; wr_gpu_count := wr_gpu_count r; wr_disk_gib := wr_disk_gib r;
     wr_temporary_storage_gib := wr_temporary_storage_gib r; wr_node_pool := wr_node_pool r;
     wr_generation := generation; wr_created_at := wr_created_at r; wr_updated_at := now;
     wr_snapshot := wr_snapshot r; wr_home_pvc_namespace := wr_home_pvc_namespace r;
     wr_home_pvc_name := wr_home_pvc_name r; wr_home_pvc_uid := wr_home_pvc_uid r;
     wr_home_pvc_capacity_gib := wr_home_pvc_capacity_gib r;
     wr_scratch_volume_binding := wr_scratch_volume_binding r |}.

Section WorkspaceActions.
Context `{UuidText} `{SqlBackend}.

(** ** Writing a transition *)
Definition reconcile_job (inst : string) (w : Workspace) (operation : string) (now : Z) : JobRow :=
  pending_row inst "reconcile_workspace" (Some (ws_id w))
    (json_object [("generation", Number (ws_generation w)); ("action", Str operation)]) now now.

Definition transition_audit (inst : string) (w : Workspace) (operation : string) (actor : Uuid) (now : Z)
    : AuditRow :=
  mkAuditRow inst (Some actor) (Some (ws_organization_id w)) (Some (ws_id w))
    ("workspace." +:+ operation) (json_object []) now.

(** [job_and_audit_sqlite] and [job_and_audit_postgres]. *)
Definition job_and_audit (inst : string) (w : Workspace) (t : StoredTransition) (actor : Uuid) (now : Z)
    : DbM () :=
  _ ← if enqueues_reconcile t
      then id ← now_v7; insert_job id (reconcile_job inst w (transition_as_str t) now)
      else mret ();
  id ← now_v7;
  _ ← insert_audit id (transition_audit inst w (transition_as_str t) actor now);
  insert_state_changed inst w (Some (transition_as_str t)) now.

(** [scrub_deleted_sqlite] and [scrub_deleted_postgres]; deleting the workspace
    row cascades to what depends on it. *)
Definition anonymised (r : AuditRow) : AuditRow :=
  mkAuditRow (a_installation_id r) None (a_organization_id r) (a_workspace_id r) (a_action r)
    (json_object []) (a_created_at r).

Definition scrubbed_injection (inst : string) (id : Uuid) (r : InjectionRow) : bool :=
  String.eqb (ir_installation_id r) inst && String.eqb (ir_scope r) "workspace"
  && bool_decide (ir_scope_id r = id).
Definition scrubbed_ticket (inst : string) (id : Uuid) (r : TicketRow) : bool :=
  String.eqb (tk_installation_id r) inst && bool_decide (tk_workspace_id r = id).
Definition scrubbed_audit (inst : string) (id : Uuid) (r : AuditRow) : bool :=
  String.eqb (a_installation_id r) inst && bool_decide (a_workspace_id r = Some id).

Definition scrub_injections (inst : string) (id : Uuid) (db : Db) : Db :=
  set_t_injections (filter (λ kv, scrubbed_injection inst id kv.2 = false) (t_injections db)) db.
Definition scrub_ssh_identities (inst : string) (id : Uuid) (db : Db) : Db :=
  set_t_ssh_identities (delete (inst, id) (t_ssh_identities db)) db.
Definition scrub_tickets (inst : string) (id : Uuid) (db : Db) : Db :=
  set_t_web_shell_tickets
    (filter (λ kv, scrubbed_ticket inst id kv.2 = false) (t_web_shell_tickets db)) db.
Definition scrub_audit (inst : string) (id : Uuid) (db : Db) : Db :=
  set_t_audit ((λ r, if scrubbed_audit inst id r then anonymised r else r) <$> t_audit db) db.
Definition delete_workspace_row (inst : string) (id : Uuid) (db : Db) : Db :=
  match t_workspaces db !! id with
  | Some row =>
      if String.eqb (wr_installation_id row) inst && bool_decide (wr_state row = Deleted)
      then set_t_workspaces (delete id (t_workspaces db)) (cascade_workspace id db)
      else db
  | None => db
  end.

Definition scrub_deleted (inst : string) (w : Workspace) (now : Z) : DbM () :=
  let id := ws_id w in
  _ ← insert_tombstone (inst, id) (mkTombstoneRow (ws_organization_id w) now);
  _ ← modify (scrub_injections inst id);
  _ ← modify (scrub_ssh_identities inst id);
  _ ← modify (scrub_tickets inst id);
  _ ← modify (scrub_audit inst id);
  modify (delete_workspace_row inst id).

(** [apply_sqlite] and [apply_postgres]. *)
Definition apply_transition (inst : string) (w : Workspace) (t : StoredTransition) (actor : Uuid) (now : Z)
    : DbM Workspace :=
  _ ← match t with Action _ => guard inst (ws_id w) | Observation _ => mret () end;
  let prior_state := ws_state w in
  let prior_generation := ws_generation w in
  state ← lift (next_state t prior_state);
  generation ← lift (if enqueues_reconcile t
                     then ok_or (checked_add_u64 prior_generation 1) StorageError.InvalidWorkspace
                     else Ok prior_generation);
  let w := set_transition state generation now w in
  generation_i64 ← lift (generation_column generation);
  prior_i64 ← lift (generation_column prior_generation);
  affected ← update_workspace (ws_id w)
               (λ r, String.eqb (wr_installation_id r) inst && bool_decide (wr_state r = prior_state)
                     && (wr_generation r =? prior_i64))
               (set_row_transition state generation_i64 now);
  _ ← lift (ensure (affected =? 1) StorageError.WorkspaceNotFound);
  _ ← job_and_audit inst w t actor now;
  _ ← if confirms_deletion t then scrub_deleted inst w now else mret ();
  mret w.

(** ** Operations *)
Definition transition_workspace (inst : string) (id : Uuid) (expected_generation : option Z)
    (t : StoredTransition) (actor : Uuid) (now : Z) : DbM (option Workspace) :=
  transaction (
    row ← select_workspace inst id;
    match row with
    | None => if is_some expected_generation then mret None else fail StorageError.WorkspaceNotFound
    | Some row =>
        w ← lift (decode_workspace id row);
        if is_some_and expected_generation (λ expected, negb (ws_generation w =? expected))
        then mret None
        else w ← apply_transition inst w t actor now; mret (Some w)
    end).

Definition request_workspace_action (inst : string) (id : Uuid) (action : WorkspaceAction)
    (actor : Uuid) (now : Z) : DbM Workspace :=
  found ← transition_workspace inst id None (Action action) actor now;
  lift (ok_or found StorageError.WorkspaceNotFound).

Definition record_workspace_observation (inst : string) (id : Uuid) (expected_generation : Z)
    (observation : WorkspaceObservation) (actor : Uuid) (now : Z) : DbM (option Workspace) :=
  transition_workspace inst id (Some expected_generation) (Observation observation) actor now.

Definition mark_workspace_failed_if_generation (inst : string) (id : Uuid) (expected_generation now : Z)
    : DbM bool :=
  transaction (
    row ← select_workspace inst id;
    match row with
    | None => mret false
    | Some row =>
        w ← lift (decode_workspace id row);
        if negb (ws_generation w =? expected_generation) || is_err (observe (ws_state w) ObsFailed)
        then mret false
        else _ ← apply_transition inst w (Observation ObsFailed) (ws_owner_id w) now; mret true
    end).

(** ** Observation requests of the watch ([workspace_observation_jobs.rs]) *)

(** A reconciliation of the workspace is queued or running. *)
Definition reconcile_active (inst : string) (id : Uuid) (r : JobRow) : bool :=
  String.eqb (j_installation_id r) inst && bool_decide (j_workspace_id r = Some id)
  && String.eqb (j_kind r) "reconcile_workspace"
  && bool_decide (j_status r = JobPending ∨ j_status r = JobRunning).

Definition observation_job (inst : string) (id : Uuid) (generation now : Z) : JobRow :=
  pending_row inst "reconcile_workspace" (Some id)
    (json_object [("generation", Number generation); ("runtime_observation", Bool true)]) now now.

Definition enqueue_ready_workspace_observation (inst : string) (id : Uuid) (now : Z) : DbM bool :=
  job_id ← now_v7;
  row ← select_workspace inst id;
  queued ← reads (λ db, existsb (λ kv, reconcile_active inst id kv.2) (map_to_list (t_jobs db)));
  match row with
  | Some row =>
      if bool_decide (wr_state row = Ready) && negb queued
      then _ ← insert_job job_id (observation_job inst id (wr_generation row) now); mret true
      else mret false
  | None => mret false
  end.

(** One page of ready workspaces in identifier order. *)
Definition ready_workspace_ids (inst : string) (after : option Uuid) : DbM (list Uuid) :=
  reads (λ db, take 256 (merge_sort N.le (fst <$> List.filter (λ kv,
      String.eqb (wr_installation_id kv.2) inst && bool_decide (wr_state kv.2 = Ready)
      && is_none_or after (λ cursor, (cursor <? kv.1)%N)) (map_to_list (t_workspaces db))))).

(** ** Lemmas *)

(** What [apply_transition] checked and wrote when it succeeds. *)
Lemma apply_transition_Ok inst w t actor now db w' db' :
  apply_transition inst w t actor now db = (Ok w', db') →
  ∃ s g row db2,
    (enqueues_reconcile t = true → no_active_shrink inst (ws_id w) db) ∧
    next_state t (ws_state w) = Ok s ∧
    g = ws_generation w + (if enqueues_reconcile t then 1 else 0) ∧ g <= i64_max ∧
    w' = set_transition s g now w ∧
    t_workspaces db !! ws_id w = Some row ∧ wr_installation_id row = inst ∧
    wr_state row = ws_state w ∧ wr_generation row = ws_generation w ∧
    job_and_audit inst w' t actor now
      (set_t_workspaces (<[ws_id w := set_row_transition s g now row]> (t_workspaces db)) db)
      = (Ok (), db2) ∧
    (if confirms_deletion t then scrub_deleted inst w' now else mret ()) db2 = (Ok (), db').
Proof.
  unfold apply_transition.
  intros ([] & db0 & Hguard & Hrun)%bind_run_Ok.
  assert (db0 = db ∧ (enqueues_reconcile t = true → no_active_shrink inst (ws_id w) db)) as [-> Hno].
  { destruct t; [apply guard_Ok in Hguard as [-> ?]; done|]. by injection Hguard as <-. }
  apply bind_run_Ok in Hrun as (s & ? & [= Hs <-] & Hrun).
  apply bind_run_Ok in Hrun as (g & ? & [= Hg <-] & Hrun).
  apply bind_run_Ok in Hrun as (gc & ? & [= Hgc <-] & Hrun).
  apply bind_run_Ok in Hrun as (pc & ? & [= Hpc <-] & Hrun).
  apply ok_or_Ok, guard_range_Some in Hgc as [-> Hgc].
  apply ok_or_Ok, guard_range_Some in Hpc as [-> Hpc].
  assert (g = ws_generation w + (if enqueues_reconcile t then 1 else 0)) as Eg.
  { destruct (enqueues_reconcile t); [|injection Hg as <-; lia].
    by apply ok_or_Ok, checked_add_u64_Some in Hg as [-> _]. }
  apply bind_run_Ok in Hrun as (affected & db1 & Hupd & Hrun).
  apply bind_run_Ok in Hrun as ([] & ? & [= Haff <-] & Hrun).
  apply bind_run_Ok in Hrun as ([] & db2 & Hjob & Hrun).
  apply bind_run_Ok in Hrun as ([] & db3 & Hscrub & [= <- <-]).
  unfold update_workspace, update_where in Hupd. cbn in Hupd.
  destruct (t_workspaces db !! ws_id w) as [row|] eqn:Hrow; [|by injection Hupd as <- <-].
  destruct (_ && _) eqn:Hmatch; [|by injection Hupd as <- <-].
  injection Hupd as <- <-. rewrite !andb_true_iff, String.eqb_eq, Z.eqb_eq, bool_decide_eq_true in Hmatch.
  destruct Hmatch as [[Hinst Hst] Hgen].
  exists s, g, row, db2. split_and!; try done.
  unfold in_i64 in Hgc. bool_prop. lia.
Qed.

(** The job, audit and event statements touch no other table. *)
Lemma job_and_audit_frames {T} (view : Db → T) inst w t actor now :
  (∀ db n, view (set_uuid_drawn n db) = view db) →
  (∀ db m, view (set_t_jobs m db) = view db) → (∀ db m, view (set_t_events m db) = view db) →
  (∀ db m, view (set_t_audit m db) = view db) →
  Preserves (frames view) (job_and_audit inst w t actor now).
Proof.
  intros Hn Hj He Ha. pose proof (frames_table_relation view (λ n db, Hn db n)) as HR.
  unfold job_and_audit. apply preserves_bind; [done| |intros _].
  - destruct (enqueues_reconcile t); [|apply _]. apply preserves_bind; [done|apply _|intros id].
    apply preserves_insert_row; [done|intros; apply Hj].
  - apply preserves_bind; [done|apply _|intros id]. apply preserves_bind; [done| |intros _].
    + apply preserves_insert_row; [done|intros; apply Ha].
    + by apply insert_workspace_event_frames.
Qed.

#[global] Instance job_and_audit_total inst w t actor now : Total (job_and_audit inst w t actor now).
Proof.
  unfold job_and_audit, insert_state_changed. apply total_bind; [destruct (enqueues_reconcile t)|]; apply _.
Qed.

(** The jobs a transition adds: webhook deliveries and, for an action, one
    reconciliation that carries the new generation. *)
Lemma job_and_audit_jobs inst w t actor now db u db' :
  job_and_audit inst w t actor now db = (Ok u, db') →
  ∃ db1, adds t_jobs (is_delivery inst (ws_id w)) db1 db' ∧
    if enqueues_reconcile t
    then ∃ id, t_jobs db !! id = None ∧
           t_jobs db1 = <[id := reconcile_job inst w (transition_as_str t) now]> (t_jobs db)
    else t_jobs db1 = t_jobs db.
Proof.
  unfold job_and_audit. intros ([] & db1 & Hq & Hrun)%bind_run_Ok. exists db1. split.
  - revert Hrun. apply use_preserves. apply preserves_bind; [apply _..|intros id].
    apply preserves_bind; [apply _| |intros _]; [|apply insert_workspace_event_jobs].
    apply preserves_insert_row; [apply _|]. intros ? _ k. by left.
  - destruct (enqueues_reconcile t); [|by injection Hq as <-].
    apply bind_run_Ok in Hq as (id & ? & [= <- <-] & Hq). unfold insert_job, insert_row in Hq. cbn in Hq.
    destruct (t_jobs db !! _) eqn:Hfree; [done|]. injection Hq as <-. by eauto.
Qed.

(** The audit entry of the transition. *)
Lemma job_and_audit_audit inst w t actor now db u db' :
  job_and_audit inst w t actor now db = (Ok u, db') →
  ∃ id, t_audit db !! id = None ∧
    t_audit db' = <[id := transition_audit inst w (transition_as_str t) actor now]> (t_audit db).
Proof.
  unfold job_and_audit. intros ([] & db1 & Hq & Hrun)%bind_run_Ok.
  assert (t_audit db1 = t_audit db) as Hdb1.
  { revert Hq. apply use_frame. destruct (enqueues_reconcile t); unfold insert_job; apply _. }
  apply bind_run_Ok in Hrun as (id & ? & [= <- <-] & Hrun).
  apply bind_run_Ok in Hrun as ([] & db2 & Hins & Hrun).
  unfold insert_audit, insert_row in Hins; cbn in Hins. rewrite Hdb1 in Hins.
  destruct (t_audit db !! _) eqn:Hfree; [done|]. injection Hins as <-.
  eexists; split; [exact Hfree|].
  apply (use_frame t_audit) in Hrun; [exact Hrun|]. by apply insert_workspace_event_frames.
Qed.

(** The database after a confirmed deletion was scrubbed. *)
Definition scrubbed (inst : string) (w : Workspace) (now : Z) (db : Db) : Db :=
  let id := ws_id w in
  delete_workspace_row inst id (scrub_audit inst id (scrub_tickets inst id
    (scrub_ssh_identities inst id (scrub_injections inst id
      (set_t_tombstones (<[(inst, id) := mkTombstoneRow (ws_organization_id w) now]> (t_tombstones db)) db))))).

Lemma scrub_deleted_run inst w now db :
  scrub_deleted inst w now db =
  match t_tombstones db !! (inst, ws_id w) with
  | Some _ => (Err StorageError.Database, db)
  | None => (Ok (), scrubbed inst w now db)
  end.
Proof.
  unfold scrub_deleted. rewrite bind_run. unfold insert_tombstone, insert_row.
  destruct (t_tombstones db !! (inst, ws_id w)); [done|]. rewrite !modify_bind. unfold modify, scrubbed. reflexivity.
Qed.

(** What a transition read before it applied. *)
Lemma transition_workspace_Ok inst id expected t actor now db w' db' :
  transition_workspace inst id expected t actor now db = (Ok (Some w'), db') →
  ∃ row w, t_workspaces db !! id = Some row ∧ wr_installation_id row = inst ∧
    decode_workspace id row = Ok w ∧ (∀ g, expected = Some g → wr_generation row = g) ∧
    apply_transition inst w t actor now db = (Ok w', db').
Proof.
  unfold transition_workspace. rewrite transaction_Ok, bind_run, select_workspace_run.
  destruct (t_workspaces db !! id) as [row|]; [|by destruct (is_some expected)].
  destruct (String.eqb_spec (wr_installation_id row) inst) as [Hi|]; [|by destruct (is_some expected)].
  rewrite bind_run; cbn. destruct (decode_workspace id row) as [w|e] eqn:Hd; [|done].
  destruct (is_some_and _ _) eqn:He; [done|].
  intros (w1 & db1 & Ha & [= <- <-])%bind_run_Ok. exists row, w. split_and!; try done.
  intros g ->. cbn in He. apply negb_false_iff, Z.eqb_eq in He.
  apply decode_workspace_inv in Hd as (_ & _ & <- & _). done.
Qed.

(** Every view of the database but the jobs, the audit log and the events. *)
Lemma transition_workspaces inst w t actor now db w' db' row s g db2 :
  job_and_audit inst w' t actor now
    (set_t_workspaces (<[ws_id w := set_row_transition s g now row]> (t_workspaces db)) db) = (Ok (), db2) →
  (if confirms_deletion t then scrub_deleted inst w' now else mret ()) db2 = (Ok (), db') →
  confirms_deletion t = false →
  t_workspaces db' = <[ws_id w := set_row_transition s g now row]> (t_workspaces db).
Proof.
  intros Hjob Hscrub Hc. rewrite Hc in Hscrub. injection Hscrub as <-.
  by apply (use_frame t_workspaces) in Hjob; [|apply job_and_audit_frames].
Qed.

(** A transition refused before the row is written leaves the database as it is. *)
Lemma transition_refused inst id t actor now db row w e :
  t_workspaces db !! id = Some row → wr_installation_id row = inst → decode_workspace id row = Ok w →
  apply_transition inst w t actor now db = (Err e, db) →
  transition_workspace inst id None t actor now db = (Err e, db).
Proof.
  intros Hrow Hinst Hd Ha. unfold transition_workspace, transaction.
  rewrite bind_run, select_workspace_run, Hrow, (proj2 (String.eqb_eq _ _)) by done.
  rewrite bind_run; cbn -[apply_transition]. rewrite Hd. cbn -[apply_transition].
  rewrite bind_run, Ha. by destruct db.
Qed.

Lemma apply_action_shrinking inst w a actor now db :
  ¬ no_active_shrink inst (ws_id w) db →
  apply_transition inst w (Action a) actor now db = (Err StorageError.WorkspaceStorageShrinkConflict, db).
Proof.
  intros Hact. unfold apply_transition. rewrite bind_run, guard_run.
  destruct (Z.eqb_spec (count_active inst (ws_id w) db) 0) as [Hz|]; [|done].
  destruct Hact. exact (proj1 (count_active_zero _ _ _) Hz).
Qed.

Lemma apply_action_rejected inst w a actor now db e :
  no_active_shrink inst (ws_id w) db → request (ws_state w) a = Err e →
  apply_transition inst w (Action a) actor now db = (Err (StorageError.Transition e), db).
Proof.
  intros Hno Hreq. unfold apply_transition.
  rewrite bind_run, guard_run, (proj2 (Z.eqb_eq _ _)) by (exact (proj2 (count_active_zero _ _ _) Hno)).
  rewrite bind_run; cbn. by rewrite Hreq.
Qed.

(** C7: an accepted action moves the workspace along the lifecycle exactly as
    the state machine says, raises its generation by one, queues exactly one
    reconciliation carrying that generation, and adds no other job than webhook
    deliveries; it is only accepted when no storage operation is active. *)
Theorem action_committed inst id a actor now db w' db' :
  request_workspace_action inst id a actor now db = (Ok w', db') →
  ∃ row s', t_workspaces db !! id = Some row ∧ wr_installation_id row = inst ∧
    no_active_shrink inst id db ∧ request (wr_state row) a = Ok s' ∧
    ws_id w' = id ∧ ws_state w' = s' ∧ ws_generation w' = wr_generation row + 1 ∧
    t_workspaces db' = <[id := set_row_transition s' (wr_generation row + 1) now row]> (t_workspaces db) ∧
    ∃ job, t_jobs db !! job = None ∧
      t_jobs db' !! job = Some (reconcile_job inst w' (action_as_str a) now) ∧
      ∀ k, k ≠ job → t_jobs db' !! k = t_jobs db !! k ∨
        (t_jobs db !! k = None ∧ ∃ r, t_jobs db' !! k = Some r ∧ is_delivery inst id r).
Proof.
  unfold request_workspace_action.
  intros (found & db1 & Ht & [= Hw <-])%bind_run_Ok. apply ok_or_Ok in Hw as ->.
  apply transition_workspace_Ok in Ht as (row & w & Hrow & Hinst & Hd & _ & Ha).
  apply decode_workspace_inv in Hd as (<- & Hst & Hgen & _).
  apply apply_transition_Ok in Ha as (s & g & row' & db2 & Hno & Hs & -> & _ & -> & Hrow' & _ & _ & _ & Hjob & Hscrub).
  simplify_eq/=. cbn in Hs. rewrite Hst in Hs.
  destruct (request (wr_state row) a) as [s'|] eqn:Hr; cbn in Hs; simplify_eq.
  exists row, s. rewrite <-Hgen. split_and!; auto; [by eapply transition_workspaces|].
  injection Hscrub as <-. apply job_and_audit_jobs in Hjob as (db3 & Hadds & job & Hfree & Hdb3).
  exists job. split; [done|]. split.
  - destruct (Hadds job) as [->|[E _]]; rewrite Hdb3, lookup_insert_eq in *; done.
  - intros k Hk. specialize (Hadds k). rewrite Hdb3, lookup_insert_ne in Hadds by done. done.
Qed.

(** An action the state machine accepts succeeds: if the stored row decodes,
    no storage operation is active, the state accepts the action, the
    generation can still be raised and new identifiers are fresh, then the
    operation returns the updated workspace. *)
Theorem action_succeeds inst id a actor now db row w :
  t_workspaces db !! id = Some row → wr_installation_id row = inst → decode_workspace id row = Ok w →
  no_active_shrink inst id db → is_err (request (wr_state row) a) = false →
  wr_generation row < i64_max → fresh_ids db →
  ∃ w' db', request_workspace_action inst id a actor now db = (Ok w', db').
Proof.
  intros Hrow Hinst Hd Hno Hreq Hgen Hfresh.
  pose proof (decode_workspace_inv _ _ _ Hd) as (Hid & Hst & Hg & Hrange & _).
  destruct (request (wr_state row) a) as [s'|] eqn:Hr; [|done].
  set (w' := set_transition s' (wr_generation row + 1) now w).
  destruct (total (m := job_and_audit inst w' (Action a) actor now)
    (set_t_workspaces (<[id := set_row_transition s' (wr_generation row + 1) now row]> (t_workspaces db)) db))
    as ([] & db2 & Hjob & _); [by destruct Hfresh|].
  exists w', db2. unfold request_workspace_action. apply bind_run_Ok. exists (Some w'), db2. split; [|done].
  unfold transition_workspace. rewrite transaction_Ok, bind_run, select_workspace_run, Hrow.
  rewrite (proj2 (String.eqb_eq _ _)) by done. rewrite bind_run; cbn. rewrite Hd. cbn.
  apply bind_run_Ok. exists w', db2. split; [|done].
  unfold apply_transition. apply bind_run_Ok. exists (), db.
  split; [by apply guard_Ok; rewrite Hid|]. rewrite Hst, Hg, Hid. cbn. rewrite bind_run; cbn. rewrite Hr; cbn.
  assert (checked_add_u64 (wr_generation row) 1 = Some (wr_generation row + 1)) as ->
    by (apply checked_add_u64_Some; unfold u64_max, i64_max in *; lia).
  assert (∀ g, 0 <= g <= i64_max → generation_column g = Ok g) as Hcol.
  { intros g ?. apply ok_or_Ok, guard_range_Some. split; [done|].
    unfold in_i64, i64_min. bool_prop. lia. }
  rewrite bind_run; cbn. rewrite bind_run; cbn. rewrite Hcol by lia.
  rewrite bind_run; cbn. rewrite Hcol by lia. cbn.
  unfold update_workspace, update_where. rewrite bind_run, Hrow.
  rewrite (proj2 (String.eqb_eq _ _)), bool_decide_true, Z.eqb_refl by done. cbn.
  rewrite bind_run; cbn. rewrite bind_run. fold w'. cbn in Hjob. by rewrite Hjob.
Qed.

(** While a storage operation is active no action goes through. *)
Lemma request_blocked inst id a actor now db :
  ¬ no_active_shrink inst id db →
  ∃ e db', request_workspace_action inst id a actor now db = (Err e, db') ∧ same_tables db db'.
Proof.
  intros Hact. unfold request_workspace_action. rewrite bind_run.
  destruct (transition_workspace _ _ _ _ _ _ _) as [[[w|]|e] db1] eqn:E.
  - apply transition_workspace_Ok in E as (row & w0 & _ & _ & Hd & _ & Ha).
    apply apply_transition_Ok in Ha as (? & ? & ? & ? & Hno & _).
    apply decode_workspace_inv in Hd as (Hid & _). rewrite Hid in Hno. by destruct Hact; apply Hno.
  - exfalso. revert E. unfold transition_workspace. rewrite transaction_Ok, bind_run, select_workspace_run.
    destruct (match t_workspaces db !! id with Some _ => _ | None => _ end) as [row|]; [|done].
    rewrite bind_run; cbn -[apply_transition]. destruct (decode_workspace id row); [|done].
    cbn -[apply_transition]. by intros (w & db2 & _ & [= ?])%bind_run_Ok.
  - exists e, db1. split; [done|]. by apply transaction_Err in E.
Qed.

(** A refused action changes nothing and says why: a workspace that is not in
    this installation, one with an active storage operation, or one whose state
    does not accept the action. *)
Theorem action_refused inst id a actor now db :
  ((∀ row, t_workspaces db !! id = Some row → wr_installation_id row ≠ inst) →
     request_workspace_action inst id a actor now db = (Err StorageError.WorkspaceNotFound, db)) ∧
  (∀ row w, t_workspaces db !! id = Some row → wr_installation_id row = inst →
     decode_workspace id row = Ok w →
     (¬ no_active_shrink inst id db → request_workspace_action inst id a actor now db
        = (Err StorageError.WorkspaceStorageShrinkConflict, db)) ∧
     (∀ e, no_active_shrink inst id db → request (wr_state row) a = Err e →
        request_workspace_action inst id a actor now db = (Err (StorageError.Transition e), db))).
Proof.
  assert (set_uuid_drawn (uuid_drawn db) db = db) as Hsame by (by destruct db).
  unfold request_workspace_action. split.
  - intros Hother. rewrite bind_run. unfold transition_workspace, transaction.
    rewrite bind_run, select_workspace_run. destruct (t_workspaces db !! id) as [row|] eqn:Hrow.
    + rewrite (proj2 (String.eqb_neq _ _)) by eauto. cbn. by rewrite Hsame.
    + cbn. by rewrite Hsame.
  - intros row w Hrow Hinst Hd. pose proof (decode_workspace_inv _ _ _ Hd) as (Hid & Hst & _).
    split; [intros Hact|intros e Hno Hreq].
    + rewrite bind_run, (transition_refused inst id (Action a) actor now db row w _ Hrow Hinst Hd
        (apply_action_shrinking inst w a actor now db ltac:(by rewrite Hid))). done.
    + rewrite bind_run, (transition_refused inst id (Action a) actor now db row w _ Hrow Hinst Hd
        (apply_action_rejected inst w a actor now db e ltac:(by rewrite Hid) ltac:(by rewrite Hst))). done.
Qed.

(** An observation made for an older generation, or for a workspace that is
    gone, is ignored: nothing changes and no error is raised. *)
Theorem stale_observation_ignored inst id expected o actor now db :
  (∀ row, t_workspaces db !! id = Some row → wr_installation_id row = inst →
     wr_generation row ≠ expected ∧ is_err (decode_workspace id row) = false) →
  record_workspace_observation inst id expected o actor now db = (Ok None, db).
Proof.
  intros Hstale. unfold record_workspace_observation, transition_workspace, transaction.
  rewrite bind_run, select_workspace_run. destruct (t_workspaces db !! id) as [row|]; [|done].
  destruct (String.eqb_spec (wr_installation_id row) inst) as [Hi|]; [|done].
  destruct (Hstale row eq_refl Hi) as [Hg Hd]. rewrite bind_run; cbn -[apply_transition].
  destruct (decode_workspace id row) as [w|] eqn:E; [|done]. cbn -[apply_transition].
  apply decode_workspace_inv in E as (_ & _ & -> & _). by rewrite (proj2 (Z.eqb_neq _ _)).
Qed.

(** ** The lifecycle

    Which actions are accepted in which state, what the observations confirm, and
    where each leads. *)
Inductive lifecycle : StoredTransition → WorkspaceState → WorkspaceState → Prop :=
  | start_asked s : s ∈ [Stopped; Failed] → lifecycle (Action Start) s Starting
  | stop_asked s : s ∈ [Provisioning; Ready; Starting; Restarting; Failed] → lifecycle (Action Stop) s Stopping
  | restart_asked s : s ∈ [Provisioning; Ready; Starting; Failed] → lifecycle (Action Restart) s Restarting
  | delete_asked s : s ∉ [Deleting; Deleted] → lifecycle (Action Delete) s Deleting
  | ready_seen s : s ∈ [Provisioning; Starting; Restarting] → lifecycle (Observation ObsReady) s Ready
  | not_ready_seen : lifecycle (Observation ObsNotReady) Ready Starting
  | stopped_seen : lifecycle (Observation ObsStopped) Stopping Stopped
  | deleted_seen : lifecycle (Observation ObsDeleted) Deleting Deleted
  | failed_seen s : s ∉ [Stopped; Deleted; Failed] → lifecycle (Observation ObsFailed) s Failed.

Lemma next_state_lifecycle t s s' : next_state t s = Ok s' → lifecycle t s s'.
Proof.
  destruct t as [[]|[]], s; intros [= <-]; constructor; apply (bool_decide_unpack _); exact I.
Qed.

(** What a transition at [now] makes of a row: a confirmed deletion removes it; any
    other moves its state along the lifecycle, counts an action, notes the time and
    changes no other column. *)
Definition moves (t : StoredTransition) (now : Z) (row : WorkspaceRow) (after : option WorkspaceRow) : Prop :=
  ∃ s, lifecycle t (wr_state row) s ∧
    match after with
    | None => t = Observation ObsDeleted
    | Some row' =>
        t ≠ Observation ObsDeleted ∧ wr_state row' = s ∧ wr_updated_at row' = now ∧
        wr_generation row' = wr_generation row + match t with Action _ => 1 | Observation _ => 0 end ∧
        set_row_transition (wr_state row) (wr_generation row) (wr_updated_at row) row' = row
    end.

(** The same of the table: the row of [id] moves, if it has the generation expected. *)
Definition table_moves (inst : string) (t : StoredTransition) (expected : option Z) (id : Uuid) (now : Z) (m m' : gmap Uuid WorkspaceRow) : Prop :=
  ∃ row after, m !! id = Some row ∧ wr_installation_id row = inst ∧ (∀ g, expected = Some g → wr_generation row = g) ∧
    moves t now row after ∧ m' = partial_alter (λ _, after) id m.

(** What a transition leaves in the workspace table. *)
Lemma apply_transition_table inst w t actor now db w' db' :
  apply_transition inst w t actor now db = (Ok w', db') →
  ∃ row s, t_workspaces db !! ws_id w = Some row ∧ next_state t (wr_state row) = Ok s ∧
    t_workspaces db' =
      if confirms_deletion t then delete (ws_id w) (t_workspaces db)
      else <[ws_id w := set_row_transition s (wr_generation row + (if enqueues_reconcile t then 1 else 0)) now row]>
             (t_workspaces db).
Proof.
  intros (s & g & row & db2 & _ & Hs & -> & _ & -> & Hrow & Hi & Hst & Hg & Hjob & Hscrub)%apply_transition_Ok.
  exists row, s. rewrite Hst, Hg. split_and!; [done..|]. destruct (confirms_deletion t) eqn:Hc.
  - destruct t as [|[]]; try done. cbn in Hs.
    rewrite scrub_deleted_run in Hscrub. destruct (t_tombstones db2 !! _); [done|].
    injection Hscrub as <-. apply (use_frame t_workspaces) in Hjob; [|by apply job_and_audit_frames].
    unfold scrubbed, delete_workspace_row; cbn. rewrite Hjob; cbn. rewrite lookup_insert_eq; cbn.
    rewrite (proj2 (String.eqb_eq _ _)) by done. destruct (ws_state w); simplify_eq/=.
    by rewrite delete_insert_eq.
  - eapply transition_workspaces; [exact Hjob|rewrite Hc; exact Hscrub|done].
Qed.

Lemma apply_transition_moves inst w t expected actor now db w' db' row0 :
  t_workspaces db !! ws_id w = Some row0 → wr_installation_id row0 = inst → (∀ g, expected = Some g → wr_generation row0 = g) →
  apply_transition inst w t actor now db = (Ok w', db') →
  table_moves inst t expected (ws_id w) now (t_workspaces db) (t_workspaces db').
Proof.
  intros Hrow0 Hi Hg (row & s & Hrow & Hs%next_state_lifecycle & Hws)%apply_transition_table.
  assert (row0 = row) as -> by congruence.
  destruct (confirms_deletion t) eqn:Hc.
  - destruct t as [|[]]; try done. exists row, None. split_and!; [done..|by exists s|done].
  - exists row, (Some (set_row_transition s (wr_generation row + (if enqueues_reconcile t then 1 else 0)) now row)).
    split_and!; [done..| |done]. exists s. split; [done|]. split_and!; [by intros ->|done|done|by destruct t|by destruct row].
Qed.

(** ** The operations as a transition system *)
Inductive LifecycleOp :=
  | OpRequest (id : Uuid) (action : WorkspaceAction) (actor : Uuid)
  | OpObserve (id : Uuid) (expected_generation : Z) (observation : WorkspaceObservation) (actor : Uuid)
  | OpMarkFailed (id : Uuid) (expected_generation : Z)
  | OpWatch (id : Uuid).

Definition op_target (op : LifecycleOp) : Uuid :=
  match op with OpRequest id _ _ | OpObserve id _ _ _ | OpMarkFailed id _ | OpWatch id => id end.
(** What an operation asks for, and at which generation. *)
Definition op_transition (op : LifecycleOp) : option (StoredTransition * option Z) :=
  match op with
  | OpRequest _ a _ => Some (Action a, None)
  | OpObserve _ g o _ => Some (Observation o, Some g)
  | OpMarkFailed _ g => Some (Observation ObsFailed, Some g)
  | OpWatch _ => None
  end.

(** An operation: whether it reports a transition, and the database after it. *)
Definition reporting {A} (f : A → bool) (run : result StorageError.t A * Db) : bool * Db :=
  (match run.1 with Ok a => f a | Err _ => false end, run.2).
Definition run_op (inst : string) (now : Z) (op : LifecycleOp) (db : Db) : bool * Db :=
  match op with
  | OpRequest id a actor => reporting (λ _, true) (request_workspace_action inst id a actor now db)
  | OpObserve id g o actor => reporting is_some (record_workspace_observation inst id g o actor now db)
  | OpMarkFailed id g => reporting (λ b, b) (mark_workspace_failed_if_generation inst id g now db)
  | OpWatch id => reporting (λ _, false) (enqueue_ready_workspace_observation inst id now db)
  end.

Definition op_step (inst : string) (db db' : Db) : Prop := ∃ now op, db' = (run_op inst now op db).2.

Lemma transition_moves inst id expected t actor now db r db' :
  transition_workspace inst id expected t actor now db = (r, db') →
  match r with
  | Ok (Some _) => table_moves inst t expected id now (t_workspaces db) (t_workspaces db')
  | _ => t_workspaces db' = t_workspaces db
  end.
Proof.
  destruct r as [[w'|]|e].
  - intros (row & w & Hrow & Hi & Hd & Hg & Ha)%transition_workspace_Ok.
    apply decode_workspace_inv in Hd as (<- & _). by eapply apply_transition_moves.
  - unfold transition_workspace. rewrite transaction_Ok, bind_run, select_workspace_run.
    destruct (match t_workspaces db !! id with Some _ => _ | None => _ end) as [row|].
    + rewrite bind_run; cbn -[apply_transition]. destruct (decode_workspace id row) as [w|]; [|done].
      destruct (is_some_and _ _); [by intros [= <-]|]. by intros (w' & db2 & _ & [=])%bind_run_Ok.
    + destruct (is_some expected); [by intros [= <-]|done].
  - intros E%transaction_Err. by apply (f_equal t_workspaces) in E.
Qed.

Lemma mark_failed_moves inst id expected now db r db' :
  mark_workspace_failed_if_generation inst id expected now db = (r, db') →
  match r with
  | Ok true => table_moves inst (Observation ObsFailed) (Some expected) id now (t_workspaces db) (t_workspaces db')
  | _ => t_workspaces db' = t_workspaces db
  end.
Proof.
  destruct r as [b|e]; [|by intros E%transaction_Err; apply (f_equal t_workspaces) in E].
  unfold mark_workspace_failed_if_generation. rewrite transaction_Ok, bind_run, select_workspace_run.
  destruct (t_workspaces db !! id) as [row|] eqn:Hrow; [|by intros [= <- <-]].
  destruct (String.eqb_spec (wr_installation_id row) inst) as [Hi|]; [|by intros [= <- <-]].
  rewrite bind_run; cbn -[apply_transition]. destruct (decode_workspace id row) as [w|] eqn:Hd; [|done].
  apply decode_workspace_inv in Hd as (<- & _ & Hgen & _).
  destruct (_ || _) eqn:Hor; [by intros [= <- <-]|]. apply orb_false_iff in Hor as [Hg%negb_false_iff%Z.eqb_eq _].
  intros (w' & db2 & Ha & [= <- <-])%bind_run_Ok. eapply apply_transition_moves; [done..| |exact Ha].
  intros g [= <-]. congruence.
Qed.

Lemma watch_keeps_workspaces inst id now :
  Preserves (frames t_workspaces) (enqueue_ready_workspace_observation inst id now).
Proof.
  unfold enqueue_ready_workspace_observation, select_workspace, insert_job.
  apply preserves_bind; [apply _..|intros job]. apply preserves_bind; [apply _..|intros row].
  apply preserves_bind; [apply _..|intros queued].
  destruct row as [row|]; [destruct (_ && _)|]; apply _.
Qed.

(** What one operation does to the table. *)
Definition op_effect (inst : string) (now : Z) (op : LifecycleOp) (b : bool) (m m' : gmap Uuid WorkspaceRow) : Prop :=
  if b then ∃ t expected, op_transition op = Some (t, expected) ∧ table_moves inst t expected (op_target op) now m m' else m' = m.

Lemma run_op_effect inst now op db b db' :
  run_op inst now op db = (b, db') → op_effect inst now op b (t_workspaces db) (t_workspaces db').
Proof.
  unfold op_effect. destruct op as [id a actor|id g o actor|id g|id]; unfold run_op, reporting; intros [= <- <-].
  - unfold request_workspace_action. rewrite bind_run.
    destruct (transition_workspace _ _ _ _ _ _ _) as [[[w|]|e] db1] eqn:E; apply transition_moves in E; cbn in *; eauto.
  - unfold record_workspace_observation. destruct (transition_workspace _ _ _ _ _ _ _) as [[[w|]|e] db1] eqn:E;
      apply transition_moves in E; cbn in *; eauto.
  - destruct (mark_workspace_failed_if_generation _ _ _ _ _) as [[[]|e] db1] eqn:E; apply mark_failed_moves in E; cbn in *; eauto.
  - destruct (enqueue_ready_workspace_observation _ _ _ _) as [r db1] eqn:E.
    apply (use_frame t_workspaces) in E; [|apply watch_keeps_workspaces]. by destruct r.
Qed.

(** A history: operations, when they ran and whether they reported a transition. *)
Abbreviation History := (list (LifecycleOp * Z * bool)).
Inductive history (inst : string) : Db → History → Db → Prop :=
  | history_nil db : history inst db [] db
  | history_cons db op now b db1 ops db' :
      run_op inst now op db = (b, db1) → history inst db1 ops db' → history inst db ((op, now, b) :: ops) db'.

(** The life of the row of a workspace in a history: it moves with the operations on it
    that report a transition, as they ask and at the generation they expect, and with
    nothing else. *)
Inductive life (inst : string) (id : Uuid) : option WorkspaceRow → History → option WorkspaceRow → Prop :=
  | life_end row : life inst id row [] row
  | life_rests row op now b ops row' :
      op_target op ≠ id ∨ b = false → life inst id row ops row' → life inst id row ((op, now, b) :: ops) row'
  | life_moves row op now t expected after ops row' :
      op_target op = id → op_transition op = Some (t, expected) → (∀ g, expected = Some g → wr_generation row = g) →
      wr_installation_id row = inst → moves t now row after →
      life inst id after ops row' → life inst id (Some row) ((op, now, true) :: ops) row'.

(** C6: the stored workspaces refine the lifecycle. In any history of actions,
    observations, failure marks and watch requests, for any workspaces and with any
    outcome, the row of each workspace lives as the lifecycle says: it moves exactly
    with the operations on it that report a transition; each is accepted in the state
    and at the generation the row is in and leads where the lifecycle leads; an action
    raises the generation by one and an observation keeps it; no other column but the
    time of the update changes; only an observed deletion, and only of a workspace
    that is being deleted, removes the row, and a removed row never returns. *)
Theorem history_refines_lifecycle inst db ops db' :
  history inst db ops db' → ∀ id, life inst id (t_workspaces db !! id) ops (t_workspaces db' !! id).
Proof.
  induction 1 as [db|db op now b db1 ops db' Hrun _ IH]; intros id; [constructor|].
  apply run_op_effect in Hrun. specialize (IH id). unfold op_effect in Hrun. destruct b.
  - destruct Hrun as (t & expected & Ht & row & after & Hrow & Hi & Hg & Hm & E). rewrite E in IH.
    destruct (decide (op_target op = id)) as [<-|Hne].
    + rewrite lookup_partial_alter_eq in IH. rewrite Hrow. by eapply life_moves.
    + rewrite lookup_partial_alter_ne in IH by done. apply life_rests; [by left|done].
  - rewrite Hrun in IH. apply life_rests; [by right|done].
Qed.

(** What a confirmed deletion wrote before and by scrubbing. *)
Lemma deletion_Ok inst id g actor now db w' db' :
  record_workspace_observation inst id g ObsDeleted actor now db = (Ok (Some w'), db') →
  ∃ w row db2, ws_id w = id ∧ wr_installation_id row = inst ∧ wr_state row = Deleted ∧
    job_and_audit inst w (Observation ObsDeleted) actor now
      (set_t_workspaces (<[ws_id w := row]> (t_workspaces db)) db) = (Ok (), db2) ∧
    scrubbed inst w now db2 = db'.
Proof.
  intros (row & w & Hrow & Hinst & Hd & _ & Ha)%transition_workspace_Ok.
  apply decode_workspace_inv in Hd as (Hid & _).
  apply apply_transition_Ok in Ha as (s & gen & row' & db2 & _ & Hs & -> & _ & -> & Hrow' & Hi & _ & _ & Hjob & Hscrub).
  cbn in Hs. destruct (ws_state w) eqn:Es; simplify_eq/=.
  rewrite scrub_deleted_run in Hscrub. destruct (t_tombstones db2 !! _); [done|]. injection Hscrub as <-.
  eexists _, _, db2. split_and!; [| | |exact Hjob|done]; done.
Qed.

Lemma deletion_frame inst w t actor now db db2 :
  job_and_audit inst w t actor now db = (Ok (), db2) →
  ∀ T (view : Db → T), (∀ db n, view (set_uuid_drawn n db) = view db) →
    (∀ db m, view (set_t_jobs m db) = view db) → (∀ db m, view (set_t_events m db) = view db) →
    (∀ db m, view (set_t_audit m db) = view db) → view db2 = view db.
Proof.
  intros Hjob T view ????. apply (use_frame view) in Hjob; [done|]. by apply job_and_audit_frames.
Qed.

Lemma scrubbed_row inst w now db row :
  t_workspaces db !! ws_id w = Some row → wr_installation_id row = inst → wr_state row = Deleted →
  scrubbed inst w now db =
  set_t_workspaces (delete (ws_id w) (t_workspaces db))
    (cascade_workspace (ws_id w)
      (scrub_audit inst (ws_id w) (scrub_tickets inst (ws_id w) (scrub_ssh_identities inst (ws_id w)
        (scrub_injections inst (ws_id w)
          (set_t_tombstones (<[(inst, ws_id w) := mkTombstoneRow (ws_organization_id w) now]>
             (t_tombstones db)) db)))))).
Proof.
  intros Hrow Hi Hs. unfold scrubbed, delete_workspace_row. cbn [t_workspaces scrub_audit scrub_tickets
    scrub_ssh_identities scrub_injections set_t_audit set_t_web_shell_tickets set_t_ssh_identities
    set_t_injections set_t_tombstones].
  rewrite Hrow, (proj2 (String.eqb_eq _ _)), bool_decide_true by done. reflexivity.
Qed.

Lemma scrub_children inst id v db :
  workspace_children (scrub_audit inst id (scrub_tickets inst id (scrub_ssh_identities inst id
    (scrub_injections inst id (set_t_tombstones v db))))) = workspace_children db.
Proof. done. Qed.
Lemma set_workspaces_children v db : workspace_children (set_t_workspaces v db) = workspace_children db.
Proof. done. Qed.

(** C8: a confirmed deletion erases the workspace: its row, its storage
    operations, port mappings, incidents and injection references, its
    workspace-scoped injections, its SSH identity and its shell tickets are gone
    together with the tickets and sessions of its ports, its audit entries name nobody and carry no details, a
    tombstone remains; what belongs to other workspaces is untouched. *)
Theorem confirmed_deletion_scrubs inst id g actor now db w' db' :
  record_workspace_observation inst id g ObsDeleted actor now db = (Ok (Some w'), db') →
  t_workspaces db' = delete id (t_workspaces db) ∧
  children_gone id db db' ∧
  (∀ k r, t_injections db' !! k = Some r ↔
     t_injections db !! k = Some r ∧ scrubbed_injection inst id r = false) ∧
  t_ssh_identities db' = delete (inst, id) (t_ssh_identities db) ∧
  (∀ k r, t_web_shell_tickets db' !! k = Some r ↔
     t_web_shell_tickets db !! k = Some r ∧ scrubbed_ticket inst id r = false) ∧
  (∀ k r, t_audit db' !! k = Some r → scrubbed_audit inst id r = true →
     a_actor_user_id r = None ∧ a_metadata r = Object []) ∧
  (∀ k r, t_audit db !! k = Some r → scrubbed_audit inst id r = false → t_audit db' !! k = Some r) ∧
  is_Some (t_tombstones db' !! (inst, id)).
Proof.
  intros (w & row & db2 & <- & Hi & Hs & Hjob & <-)%deletion_Ok.
  pose proof (job_and_audit_audit _ _ _ _ _ _ _ _ Hjob) as (audit_id & Hfree & Haudit). cbn in Haudit, Hfree.
  pose proof (deletion_frame _ _ _ _ _ _ _ Hjob) as Hframe.
  assert (t_workspaces db2 !! ws_id w = Some row) as Hrow by (rewrite (Hframe _ t_workspaces) by done; apply lookup_insert_eq).
  rewrite (scrubbed_row _ _ _ _ row Hrow Hi Hs). split; [|split].
  { cbn. rewrite (Hframe _ t_workspaces) by done; cbn. by rewrite delete_insert_eq. }
  { eapply children_gone_cascade; [|apply set_workspaces_children].
    rewrite scrub_children. by apply (Hframe _ workspace_children). }
  cbn. rewrite (Hframe _ t_injections), (Hframe _ t_ssh_identities), (Hframe _ t_web_shell_tickets) by done; cbn.
  split_and!; try done.
  - intros k r. by rewrite map_lookup_filter_Some.
  - intros k r. by rewrite map_lookup_filter_Some.
  - intros k r. rewrite lookup_fmap_Some. intros (r0 & <- & _). destruct (scrubbed_audit inst (ws_id w) r0) eqn:E; [done|].
    by rewrite E.
  - intros k r Hr Hs'. rewrite Haudit, lookup_fmap, lookup_insert_ne, Hr by congruence; cbn. by rewrite Hs'.
  - rewrite lookup_insert_eq. by eexists.
Qed.

(** A reconciliation of the workspace is already queued or running. *)
Definition reconcile_queued (inst : string) (id : Uuid) (db : Db) : bool :=
  existsb (λ kv, reconcile_active inst id kv.2) (map_to_list (t_jobs db)).

Lemma reconcile_queued_true inst id db :
  reconcile_queued inst id db = true ↔ ∃ k r, t_jobs db !! k = Some r ∧ reconcile_active inst id r = true.
Proof.
  unfold reconcile_queued. rewrite existsb_exists. split.
  - intros ([k r] & Hin%list_elem_of_In%elem_of_map_to_list & Hr). eauto.
  - intros (k & r & Hk & Hr). exists (k, r). split; [|done]. by apply list_elem_of_In, elem_of_map_to_list.
Qed.

(** The ready row of the workspace, if there is one. *)
Definition ready_row (inst : string) (id : Uuid) (db : Db) : option WorkspaceRow :=
  match t_workspaces db !! id with
  | Some row => if String.eqb (wr_installation_id row) inst && bool_decide (wr_state row = Ready)
                then Some row else None
  | None => None
  end.

Lemma watch_run inst id now db :
  let job_id := uuid_source db (uuid_drawn db) in
  let db1 := set_uuid_drawn (S (uuid_drawn db)) db in
  enqueue_ready_workspace_observation inst id now db =
  match ready_row inst id db with
  | Some row => if reconcile_queued inst id db then (Ok false, db1)
                else match t_jobs db !! job_id with
                     | Some _ => (Err StorageError.Database, db1)
                     | None => (Ok true, set_t_jobs
                         (<[job_id := observation_job inst id (wr_generation row) now]> (t_jobs db)) db1)
                     end
  | None => (Ok false, db1)
  end.
Proof.
  cbv zeta. unfold enqueue_ready_workspace_observation, ready_row. rewrite bind_run; cbn.
  rewrite bind_run, select_workspace_run; cbn. rewrite bind_run. unfold reads.
  change (existsb _ _) with (reconcile_queued inst id db).
  destruct (t_workspaces db !! id) as [row|]; [|done]. destruct (String.eqb _ _); [|done].
  destruct (bool_decide _); [|done]. cbn. destruct (reconcile_queued inst id db); [done|]. cbn.
  rewrite bind_run. unfold insert_job, insert_row; cbn. by destruct (t_jobs db !! _).
Qed.

(** Watch events are coalesced: a runtime check is queued exactly when the
    workspace is ready and no reconciliation of it is queued or running; asking
    again right after finds that check and adds nothing; and no answer changes
    the workspace table. *)
Theorem watch_coalesces inst id now db b db' :
  enqueue_ready_workspace_observation inst id now db = (Ok b, db') →
  (b = true ↔ is_Some (ready_row inst id db) ∧ reconcile_queued inst id db = false) ∧
  (b = false → same_tables db db') ∧
  (b = true → ∀ now', ∃ db'',
     enqueue_ready_workspace_observation inst id now' db' = (Ok false, db'') ∧ same_tables db' db'').
Proof.
  rewrite watch_run. destruct (ready_row inst id db) as [row|] eqn:Hrow.
  - destruct (reconcile_queued inst id db) eqn:Hq.
    + intros [= <- <-]. split_and!; [|done..]. by split; [|intros []].
    + destruct (t_jobs db !! _) eqn:Hfree; [done|]. intros [= <- <-]. split_and!; [by eauto|done|].
      intros _ now'. rewrite watch_run. eexists.
      assert (reconcile_queued inst id (set_t_jobs (<[uuid_source db (uuid_drawn db) :=
        observation_job inst id (wr_generation row) now]> (t_jobs db))
        (set_uuid_drawn (S (uuid_drawn db)) db)) = true) as ->.
      { apply reconcile_queued_true. eexists _, _. split; [apply lookup_insert_eq|].
        unfold reconcile_active. rewrite !andb_true_iff, !bool_decide_eq_true, !String.eqb_eq. cbn. auto. }
      split; [by destruct (ready_row _ _ _)|done].
  - intros [= <- <-]. split_and!; [|done..]. split; [done|]. by intros [[? ?] _].
Qed.
End WorkspaceActions.

(** ** Witnesses *)
Module ActionSample.
#[local] Existing Instance decimal_uuid_text.
Definition document : WorkspaceTemplateDocument := ShrinkOperation.Sample.document.
Definition row : WorkspaceRow := {|
  wr_installation_id := "inst"; wr_short_id := "1000000000000001"; wr_organization_id := 2;
  wr_owner_id := 3; wr_name := "dev"; wr_template_id := None; wr_state := Ready;
  wr_cpu_millis := 6000; wr_memory_mib := 4096; wr_gpu_count := 0; wr_disk_gib := 60;
  wr_temporary_storage_gib := 10; wr_node_pool := "default"; wr_generation := 7; wr_created_at := 100;
  wr_updated_at := 100; wr_snapshot := document; wr_home_pvc_namespace := None; wr_home_pvc_name := None;
  wr_home_pvc_uid := None; wr_home_pvc_capacity_gib := None; wr_scratch_volume_binding := None |}.
Definition id : Uuid := 1000000000000001.
Definition db_with (r : WorkspaceRow) : Db := set_t_workspaces {[ id := r ]} EventSample.db.
Definition db : Db := db_with row.
Definition deleting : Db := db_with (set_row_transition Deleting 8 110 row).
End ActionSample.

Lemma action_committed_witness :
  ∃ w' db', @request_workspace_action decimal_uuid_text Postgres "inst" ActionSample.id Stop 3 200 ActionSample.db
    = (Ok w', db') ∧ ws_state w' = Stopping ∧ ws_generation w' = 8.
Proof.
  eexists _, _. split; [vm_compute; reflexivity|].
  edestruct (@action_committed decimal_uuid_text Postgres "inst" ActionSample.id Stop 3%N 200 ActionSample.db)
    as (row & s & _ & _ & _ & _ & _ & Hs & Hg & _); [vm_compute; reflexivity|].
  split; [reflexivity|reflexivity].
Defined.

Lemma sample_fresh : fresh_ids ActionSample.db.
Proof. split; [intros n m; cbn; lia|intros; reflexivity..]. Qed.

Lemma sample_no_shrink : no_active_shrink "inst" ActionSample.id ActionSample.db.
Proof. intros k r. cbn. by rewrite lookup_empty. Qed.

Lemma action_succeeds_witness :
  ∃ w' db', @request_workspace_action decimal_uuid_text Postgres "inst" ActionSample.id Restart 3 200 ActionSample.db
    = (Ok w', db').
Proof.
  eapply (@action_succeeds decimal_uuid_text Postgres "inst" ActionSample.id Restart 3%N 200 ActionSample.db
            ActionSample.row);
    [reflexivity|reflexivity|vm_compute; reflexivity|exact sample_no_shrink|reflexivity|reflexivity|exact sample_fresh].
Defined.

Lemma action_refused_witness :
  @request_workspace_action decimal_uuid_text Sqlite "inst" ActionSample.id Start 3 200 ActionSample.db
    = (Err (StorageError.Transition (mkTransitionError Ready "start")), ActionSample.db).
Proof.
  eapply (@action_refused decimal_uuid_text Sqlite "inst" ActionSample.id Start 3%N 200 ActionSample.db);
    [reflexivity|reflexivity|vm_compute; reflexivity|exact sample_no_shrink|reflexivity].
Defined.

Lemma stale_observation_ignored_witness :
  @record_workspace_observation decimal_uuid_text Sqlite "inst" ActionSample.id 6 ObsFailed 3 200 ActionSample.db
    = (Ok None, ActionSample.db).
Proof.
  apply (@stale_observation_ignored decimal_uuid_text Sqlite "inst" ActionSample.id 6 ObsFailed 3%N 200 ActionSample.db).
  intros row Hrow _. injection Hrow as <-. split; [discriminate|vm_compute; reflexivity].
Defined.

(** A workspace is stopped, restarting it is refused while it stops, and it is deleted. *)
Lemma history_refines_lifecycle_witness : ∃ db',
  let stop := OpRequest ActionSample.id Stop 3 in let restart := OpRequest ActionSample.id Restart 3 in
  let stopped := OpObserve ActionSample.id 8 ObsStopped 3 in let delete := OpRequest ActionSample.id Delete 3 in
  let deleted := OpObserve ActionSample.id 9 ObsDeleted 3 in
  let ops := [(stop, 200, true); (restart, 201, false); (stopped, 202, true); (delete, 203, true); (deleted, 204, true)] in
  @history decimal_uuid_text Sqlite "inst" ActionSample.db ops db' ∧
  t_workspaces db' !! ActionSample.id = None ∧ life "inst" ActionSample.id (Some ActionSample.row) ops None.
Proof.
  eexists. intros stop restart stopped delete deleted ops.
  match goal with |- ?H ∧ _ => assert H as Hist end.
  { do 5 (eapply history_cons; [vm_compute; reflexivity|]). apply history_nil. }
  split; [exact Hist|]. split; [vm_compute; reflexivity|].
  exact (@history_refines_lifecycle decimal_uuid_text Sqlite "inst" ActionSample.db _ _ Hist ActionSample.id).
Defined.

Lemma confirmed_deletion_scrubs_witness :
  ∃ w' db', @record_workspace_observation decimal_uuid_text Sqlite "inst" ActionSample.id 8 ObsDeleted 3 200
      ActionSample.deleting = (Ok (Some w'), db') ∧
    t_workspaces db' = delete ActionSample.id (t_workspaces ActionSample.deleting).
Proof.
  eexists _, _. split; [vm_compute; reflexivity|].
  eapply (@confirmed_deletion_scrubs decimal_uuid_text Sqlite "inst" ActionSample.id 8 3%N 200 ActionSample.deleting).
  vm_compute; reflexivity.
Defined.

Lemma watch_coalesces_witness :
  ∃ db', enqueue_ready_workspace_observation "inst" ActionSample.id 200 ActionSample.db
    = (Ok true, db') ∧
    ∀ now', ∃ db'', enqueue_ready_workspace_observation "inst" ActionSample.id now' db'
      = (Ok false, db'') ∧ same_tables db' db''.
Proof.
  eexists. split; [vm_compute; reflexivity|].
  eapply (watch_coalesces "inst" ActionSample.id 200 ActionSample.db true);
    [vm_compute; reflexivity|reflexivity].
Defined.
