(* ===== verification/ShrinkStore.v ===== *)
(** * Durable storage-shrink operations
    (the statements of [src/storage/workspace_storage_shrink.rs])

    A shrink is requested, advanced by the worker through [save_storage_shrink],
    confirmed for reclamation or retried, each in one transaction that locks the
    workspace row first. At most one operation of a workspace is active; while
    one is, the guard of [WorkspaceStore] refuses every other change of intent. *)
From S2P Require Import Prelude Text Json Auth Quota Templates Workspaces Errors ShrinkOperation Database WorkspaceStore JobStore Events WorkspaceActions.

(** ** JSON forms written to the audit log *)
Definition json_option {A} (f : A → Value) (o : option A) : Value :=
  match o with Some a => f a | None => Null end.

Definition request_json (r : StorageShrinkRequest) : Value :=
  json_object [("home_gib", json_option Number (sr_home_gib r));
    ("temporary_storage_gib", json_option Number (sr_temporary_storage_gib r));
    ("expected_generation", Number (sr_expected_generation r));
    ("reclaim_source", Bool (sr_reclaim_source r))].

Definition phase_as_str (p : StorageShrinkPhase) : string :=
  match p with
  | PhQueued => "queued" | PhStopping => "stopping" | PhMeasuring => "measuring"
  | PhCopying => "copying" | PhVerifying => "verifying" | PhSwitching => "switching"
  | PhResuming => "resuming" | PhRollingBack => "rolling_back" | PhCompleted => "completed"
  | PhFailed => "failed" | PhReclaiming => "reclaiming" | PhReclaimed => "reclaimed"
  end.

Definition binding_json (b : WorkspaceHomeVolumeBinding) : Value :=
  json_object [("namespace", Str (vb_namespace b)); ("claim_name", Str (vb_claim_name b));
    ("claim_uid", Str (vb_claim_uid b)); ("capacity_gib", Number (vb_capacity_gib b))].

Definition identity_json (i : StorageVolumeIdentity) : Value :=
  json_object [("pv_name", Str (pv_name i)); ("pv_uid", Str (pv_uid i));
    ("csi_driver", Str (csi_driver i)); ("csi_volume_handle", Str (csi_volume_handle i));
    ("storage_class_name", Str (storage_class_name i));
    ("longhorn_namespace", json_option Str (longhorn_namespace i));
    ("longhorn_volume_uid", json_option Str (longhorn_volume_uid i))].

Definition volume_json (v : StorageShrinkVolume) : Value :=
  json_object [("target_gib", json_option Number (sv_target_gib v));
    ("source", json_option binding_json (sv_source v));
    ("destination", json_option binding_json (sv_destination v));
    ("used_bytes", json_option Number (sv_used_bytes v));
    ("used_inodes", json_option Number (sv_used_inodes v)); ("verified", Bool (sv_verified v));
    ("source_volume", json_option identity_json (sv_source_volume v));
    ("destination_volume", json_option identity_json (sv_destination_volume v))].

(** [volume.disk as i64]: the cast of a [u64] wraps. *)
Definition as_i64_cast (z : Z) : Z := if i64_max <? z then z - 18446744073709551616 else z.

Section ShrinkStore.
Context `{UuidText}.

Definition operation_json (op : StorageShrinkOperation) : Value :=
  json_object [("id", Str (uuid_to_string (op_id op)));
    ("workspace_id", Str (uuid_to_string (op_workspace_id op)));
    ("phase", Str (phase_as_str (op_phase op))); ("error", json_option Str (op_error op));
    ("home", volume_json (op_home op)); ("temporary", volume_json (op_temporary op));
    ("resume", Bool (op_resume op)); ("created_at", Number (op_created_at op));
    ("updated_at", Number (op_updated_at op));
    ("actor_user_id", Str (uuid_to_string (op_actor_user_id op)));
    ("request", request_json (op_request op)); ("original_home_gib", Number (op_original_home_gib op));
    ("original_temporary_storage_gib", Number (op_original_temporary_storage_gib op));
    ("switched", Bool (op_switched op)); ("sources_retained", Bool (op_sources_retained op));
    ("reclaimable", Bool (op_reclaimable op));
    ("helper_pod_uids", json_object ((λ kv, (kv.1, Str kv.2)) <$> map_to_list (op_helper_pod_uids op)))].

(** ** Reading operations *)
Definition of_workspace (inst : string) (workspace_id : Uuid) (row : ShrinkRow) : bool :=
  String.eqb (s_installation_id row) inst && bool_decide (s_workspace_id row = workspace_id).

Definition shrink_rows (inst : string) (workspace_id : Uuid) (db : Db) : list (Uuid * ShrinkRow) :=
  List.filter (λ kv, of_workspace inst workspace_id kv.2) (map_to_list (t_shrinks db)).

(** [ORDER BY created_at DESC, id DESC] and [ORDER BY created_at, id]. *)
Definition shrink_newer (a b : Uuid * ShrinkRow) : bool :=
  (s_created_at b.2 <? s_created_at a.2) ||
  ((s_created_at a.2 =? s_created_at b.2) && (b.1 <=? a.1)%N).
Definition shrink_older (a b : Uuid * ShrinkRow) : Prop := shrink_newer b a = true.
#[global] Instance shrink_older_dec a b : Decision (shrink_older a b).
Proof. unfold shrink_older. apply _. Defined.

Definition latest_row (inst : string) (workspace_id : Uuid) (db : Db) : option (Uuid * ShrinkRow) :=
  first_by shrink_newer (shrink_rows inst workspace_id db).

Definition list_storage_shrinks (inst : string) (workspace_id : Uuid) : DbM (list StorageShrinkOperation) :=
  reads (λ db, (λ kv : Uuid * ShrinkRow, s_operation kv.2) <$>
                 merge_sort shrink_older (shrink_rows inst workspace_id db)).

Definition latest_storage_shrink (inst : string) (workspace_id : Uuid)
    : DbM (option StorageShrinkOperation) :=
  reads (λ db, (λ kv : Uuid * ShrinkRow, s_operation kv.2) <$> latest_row inst workspace_id db).

(** The active operation; the index [workspace_storage_shrinks_active_idx]
    leaves room for one. *)
Definition active_row (inst : string) (workspace_id : Uuid) (db : Db) : option (Uuid * ShrinkRow) :=
  head (List.filter (λ kv, s_active kv.2) (shrink_rows inst workspace_id db)).

(** [storage_backend!]: the locked, decoded workspace and its snapshot. *)
Definition storage_backend (inst : string) (workspace_id : Uuid)
    : DbM (Workspace * WorkspaceTemplateDocument) :=
  row ← select_workspace inst workspace_id;
  match row with
  | None => fail StorageError.WorkspaceNotFound
  | Some row => w ← lift (decode_workspace workspace_id row); mret (w, wr_snapshot row)
  end.

(** ** Statements shared by the operations *)
Definition shrink_job (inst : string) (workspace_id operation_id : Uuid) (now : Z) : JobRow :=
  pending_row inst "workspace_storage_shrink" (Some workspace_id)
    (json_object [("operation_id", Str (uuid_to_string operation_id))]) now now.

Definition insert_shrink_job (inst : string) (workspace_id operation_id : Uuid) (now : Z) : DbM () :=
  id ← now_v7;
  insert_job id (shrink_job inst workspace_id operation_id now).

Definition with_generation (generation now : Z) (r : WorkspaceRow) : WorkspaceRow :=
  {| wr_installation_id := wr_installation_id r; wr_short_id := wr_short_id r;
     wr_organization_id := wr_organization_id r; wr_owner_id := wr_owner_id r; wr_name := wr_name r;
     wr_template_id := wr_template_id r; wr_state := wr_state r; wr_cpu_millis := wr_cpu_millis r;
     wr_memory_mib := wr_memory_mib r; wr_gpu_count := wr_gpu_count r; wr_disk_gib := wr_disk_gib r;
     wr_temporary_storage_gib := wr_temporary_storage_gib r; wr_node_pool := wr_node_pool r;
     wr_generation := generation; wr_created_at := wr_created_at r; wr_updated_at := now;
     wr_snapshot := wr_snapshot r; wr_home_pvc_namespace := wr_home_pvc_namespace r;
     wr_home_pvc_name := wr_home_pvc_name r; wr_home_pvc_uid := wr_home_pvc_uid r;
     wr_home_pvc_capacity_gib := wr_home_pvc_capacity_gib r;
     wr_scratch_volume_binding := wr_scratch_volume_binding r |}.

(** [UPDATE workspaces SET generation = generation + 1, updated_at = ?]. *)
Definition bump_generation (inst : string) (workspace_id : Uuid) (now : Z) : DbM () :=
  _ ← update_workspace workspace_id (λ r, String.eqb (wr_installation_id r) inst)
        (λ r, with_generation (wr_generation r + 1) now r);
  mret ().

Definition insert_shrink_audit (inst : string) (w : Workspace) (actor : Uuid) (action : string)
    (metadata : Value) (now : Z) : DbM () :=
  id ← now_v7;
  insert_audit id (mkAuditRow inst (Some actor) (Some (ws_organization_id w)) (Some (ws_id w))
                     action metadata now).

(** ** Requesting a shrink *)

(** The operation recorded for a validated request. *)
Definition requested_operation (op : StorageShrinkOperation) (w : Workspace) : StorageShrinkOperation :=
  set_op_temporary (set_sv_source (ws_scratch_volume_binding w) (op_temporary op))
  (set_op_home (set_sv_source (ws_home_volume_binding w) (op_home op))
  (set_op_original_temporary_storage_gib (temporary_storage_gib (storage_policy (ws_template w)))
  (set_op_original_home_gib (disk_gib (resources (ws_template w)))
  (set_op_resume (bool_decide (ws_state w = Ready)) op)))).

Definition enqueue_storage_shrink (inst : string) (workspace_id : Uuid) (request : StorageShrinkRequest)
    (actor_user_id : Uuid) (now : Z) : DbM StorageShrinkOperation :=
  operation_id ← now_v7;
  let placeholder := operation_new operation_id workspace_id request actor_user_id now in
  transaction (
    '(w, _) ← storage_backend inst workspace_id;
    active ← reads (active_row inst workspace_id);
    match active with
    | Some (_, row) =>
        let operation := s_operation row in
        if bool_decide (op_request operation = op_request placeholder)
           && bool_decide (op_actor_user_id operation = actor_user_id)
        then mret operation
        else fail StorageError.WorkspaceStorageShrinkConflict
    | None =>
        previous ← latest_storage_shrink inst workspace_id;
        _ ← lift (ensure (negb (is_some_and previous op_reclaimable))
                    StorageError.WorkspaceStorageShrinkConflict);
        _ ← lift (shrink_request_validate (op_request placeholder) w);
        let operation := requested_operation placeholder w in
        _ ← insert_shrink (op_id operation)
              (mkShrinkRow inst workspace_id operation true now now);
        _ ← insert_shrink_job inst workspace_id (op_id operation) now;
        _ ← bump_generation inst workspace_id now;
        _ ← insert_shrink_audit inst w actor_user_id "workspace.storage_shrink_requested"
              (request_json (op_request operation)) now;
        mret operation
    end).

(** ** Saving progress *)
Definition home_claim_taken (id : Uuid) (home : option WorkspaceHomeVolumeBinding) (db : Db) : bool :=
  is_some_and home (λ b, existsb (λ kv : Uuid * WorkspaceRow,
    negb (bool_decide (kv.1 = id)) && negb (bool_decide (wr_state kv.2 = Deleted)) &&
    ((bool_decide (wr_home_pvc_namespace kv.2 = Some (vb_namespace b))
      && bool_decide (wr_home_pvc_name kv.2 = Some (vb_claim_name b)))
     || bool_decide (wr_home_pvc_uid kv.2 = Some (vb_claim_uid b)))) (map_to_list (t_workspaces db))).

(** The columns [save_storage_shrink] writes. *)
Definition shrunk_row (w : Workspace) (d : WorkspaceTemplateDocument) (now : Z) (r : WorkspaceRow)
    : WorkspaceRow :=
  let home := ws_home_volume_binding w in
  {| wr_installation_id := wr_installation_id r; wr_short_id := wr_short_id r;
     wr_organization_id := wr_organization_id r; wr_owner_id := wr_owner_id r; wr_name := wr_name r;
     wr_template_id := wr_template_id r; wr_state := ws_state w; wr_cpu_millis := wr_cpu_millis r;
     wr_memory_mib := wr_memory_mib r; wr_gpu_count := wr_gpu_count r;
     wr_disk_gib := as_i64_cast (disk_gib (resources (spec d)));
     wr_temporary_storage_gib := as_i64_cast (temporary_storage_gib (storage_policy (spec d)));
     wr_node_pool := wr_node_pool r; wr_generation := wr_generation r + 1;
     wr_created_at := wr_created_at r; wr_updated_at := now; wr_snapshot := d;
     wr_home_pvc_namespace := vb_namespace <$> home; wr_home_pvc_name := vb_claim_name <$> home;
     wr_home_pvc_uid := vb_claim_uid <$> home;
     wr_home_pvc_capacity_gib := (λ b, as_i64_cast (vb_capacity_gib b)) <$> home;
     wr_scratch_volume_binding := ws_scratch_volume_binding w |}.

Definition finished_action (p : StorageShrinkPhase) : string :=
  match p with
  | PhCompleted => "workspace.storage_shrink_completed"
  | PhReclaimed => "workspace.storage_shrink_reclaimed"
  | _ => "workspace.storage_shrink_failed"
  end.

Definition saved_row (op : StorageShrinkOperation) (active : bool) (now : Z) (r : ShrinkRow) : ShrinkRow :=
  mkShrinkRow (s_installation_id r) (s_workspace_id r) op active (s_created_at r) now.

(** [UPDATE workspaces SET state = ..., generation = generation + 1 ...]. *)
Definition write_workspace (inst : string) (w : Workspace) (d : WorkspaceTemplateDocument) (now : Z) : DbM () :=
  taken ← reads (home_claim_taken (ws_id w) (ws_home_volume_binding w));
  _ ← lift (ensure (negb taken) StorageError.Database);
  _ ← update_workspace (ws_id w) (λ r, String.eqb (wr_installation_id r) inst) (shrunk_row w d now);
  mret ().

Definition save_storage_shrink (inst : string) (op : StorageShrinkOperation)
    (update : ShrinkWorkspaceUpdate) : DbM () :=
  transaction (
    '(w, d) ← storage_backend inst (op_workspace_id op);
    previous ← reads (λ db, t_shrinks db !! op_id op);
    _ ← lift (ensure (is_some_and previous (is_active_shrink inst (ws_id w)))
                StorageError.WorkspaceStorageShrinkConflict);
    _ ← if bool_decide (update = UpdNone) then mret ()
        else '(w, d) ← lift (apply_shrink_workspace_update w d op update);
             write_workspace inst w d (op_updated_at op);
    _ ← update_shrink (op_id op) (λ r, String.eqb (s_installation_id r) inst)
          (saved_row op (phase_active (op_phase op)) (op_updated_at op));
    if phase_active (op_phase op) then mret ()
    else insert_shrink_audit inst w (op_actor_user_id op) (finished_action (op_phase op))
           (operation_json op) (op_updated_at op)).

(** ** Identities captured while a deleted workspace is cleaned up *)
Definition capture_volume (w : Workspace) (operation_id : Uuid) (role : string)
    (existing captured : StorageShrinkVolume) : result StorageError.t StorageShrinkVolume :=
  _ ← ensure (bool_decide (sv_source existing = sv_source captured)
              && negb (is_some (sv_destination existing)
                       && negb (bool_decide (sv_destination existing = sv_destination captured))))
        StorageError.WorkspaceStorageShrinkConflict;
  existing ← match sv_destination existing, sv_destination captured with
    | None, Some binding =>
        _ ← ensure (binding_is_valid binding && bool_decide (vb_namespace binding = WORKSPACE_NAMESPACE)
                    && bool_decide (vb_claim_name binding = "shrink-" +:+ uuid_simple operation_id +:+ "-" +:+ role)
                    && bool_decide (Some (vb_capacity_gib binding) = sv_target_gib existing))
              StorageError.WorkspaceStorageShrinkConflict;
        Ok (set_sv_destination (Some binding) existing)
    | _, _ => Ok existing
    end;
  let existing := match sv_source_volume existing with
                  | None => set_sv_source_volume (sv_source_volume captured) existing
                  | Some _ => existing
                  end in
  Ok (match sv_destination_volume existing with
      | None => set_sv_destination_volume (sv_destination_volume captured) existing
      | Some _ => existing
      end).

Definition save_storage_shrink_cleanup_identity (inst : string) (op : StorageShrinkOperation) : DbM () :=
  transaction (
    '(w, _) ← storage_backend inst (op_workspace_id op);
    _ ← lift (ensure (bool_decide (ws_state w = Deleting) && negb (phase_active (op_phase op)))
                StorageError.WorkspaceStorageShrinkConflict);
    row ← reads (λ db, t_shrinks db !! op_id op);
    match row with
    | Some row =>
        _ ← lift (ensure (of_workspace inst (ws_id w) row && negb (s_active row))
                    StorageError.WorkspaceStorageShrinkConflict);
        let current := s_operation row in
        home ← lift (capture_volume w (op_id op) "home" (op_home current) (op_home op));
        temporary ← lift (capture_volume w (op_id op) "temporary" (op_temporary current) (op_temporary op));
        let current := set_op_temporary temporary (set_op_home home current) in
        _ ← update_shrink (op_id op) (λ r, of_workspace inst (ws_id w) r && negb (s_active r))
              (λ r, saved_row current (s_active r) (s_updated_at r) r);
        mret ()
    | None => fail StorageError.WorkspaceStorageShrinkConflict
    end).

(** ** Confirming reclamation and retrying the resume *)
Definition confirm_storage_shrink (inst : string) (workspace_id operation_id actor_user_id : Uuid) (now : Z)
    : DbM StorageShrinkOperation :=
  _ ← now_v7;
  transaction (
    '(w, _) ← storage_backend inst workspace_id;
    latest ← latest_storage_shrink inst workspace_id;
    op ← lift (ok_or latest StorageError.WorkspaceStorageShrinkConflict);
    _ ← lift (ensure (bool_decide (op_id op = operation_id)) StorageError.WorkspaceStorageShrinkConflict);
    if bool_decide (op_phase op = PhReclaiming ∨ op_phase op = PhReclaimed) then mret op
    else
      _ ← lift (ensure (bool_decide (op_phase op = PhCompleted) && op_reclaimable op
                        && bool_decide (ws_state w = if op_resume op then Ready else Stopped))
                  StorageError.WorkspaceStorageShrinkConflict);
      _ ← guard inst workspace_id;
      let op := set_op_error None (set_op_updated_at now (set_op_phase PhReclaiming op)) in
      _ ← update_shrink (op_id op) (λ r, String.eqb (s_installation_id r) inst) (saved_row op true now);
      _ ← insert_shrink_job inst workspace_id (op_id op) now;
      _ ← bump_generation inst workspace_id now;
      _ ← insert_shrink_audit inst w actor_user_id "workspace.storage_shrink_confirmed"
            (json_object [("operation_id", Str (uuid_to_string (op_id op)))]) now;
      mret op).

(** [SELECT COUNT( * ) FROM jobs WHERE ... status IN ('pending', 'running')]. *)
Definition count_unfinished_jobs (inst : string) (workspace_id : Uuid) (db : Db) : Z :=
  Z.of_nat (length (List.filter (λ kv, String.eqb (j_installation_id kv.2) inst
    && bool_decide (j_workspace_id kv.2 = Some workspace_id)
    && bool_decide (j_status kv.2 = JobPending ∨ j_status kv.2 = JobRunning)) (map_to_list (t_jobs db)))).

Definition retry_storage_shrink_resume (inst : string) (workspace_id operation_id actor_user_id : Uuid)
    (now : Z) : DbM StorageShrinkOperation :=
  transaction (
    '(w, _) ← storage_backend inst workspace_id;
    latest ← reads (latest_row inst workspace_id);
    '(stored_id, row) ← lift (ok_or latest StorageError.WorkspaceStorageShrinkConflict);
    let op := s_operation row in
    _ ← lift (validate_retry_operation stored_id operation_id op w);
    _ ← lift (validate_retry_volume (op_home op) (sr_home_gib (op_request op)) (ws_home_volume_binding w)
                (disk_gib (resources (ws_template w))) (op_original_home_gib op) WORKSPACE_NAMESPACE);
    _ ← lift (validate_retry_volume (op_temporary op) (sr_temporary_storage_gib (op_request op))
                (ws_scratch_volume_binding w) (temporary_storage_gib (storage_policy (ws_template w)))
                (op_original_temporary_storage_gib op) WORKSPACE_NAMESPACE);
    active ← reads (count_active inst workspace_id);
    jobs ← reads (count_unfinished_jobs inst workspace_id);
    _ ← lift (validate_retry_idle active jobs);
    let prior_error := op_error op in
    let op := set_op_updated_at now (set_op_phase PhResuming (set_op_error None op)) in
    updated ← update_shrink (op_id op) (λ r, of_workspace inst workspace_id r && negb (s_active r))
                (saved_row op true now);
    _ ← lift (ensure (updated =? 1) StorageError.WorkspaceStorageShrinkConflict);
    _ ← insert_shrink_job inst workspace_id (op_id op) now;
    _ ← bump_generation inst workspace_id now;
    _ ← insert_shrink_audit inst w actor_user_id "workspace.storage_shrink_resume_retried"
          (json_object [("operation_id", Str (uuid_to_string (op_id op)));
                        ("prior_error", json_option Str prior_error)]) now;
    mret op).

(** ** The table of operations *)

(** A row is stored under its operation's identifier, names its workspace and is
    active exactly while its phase is. *)
Definition shrink_row_ok (key : Uuid) (r : ShrinkRow) : Prop :=
  op_id (s_operation r) = key ∧ op_workspace_id (s_operation r) = s_workspace_id r ∧
  s_active r = phase_active (op_phase (s_operation r)).

Definition same_workspace (r r' : ShrinkRow) : Prop :=
  s_installation_id r = s_installation_id r' ∧ s_workspace_id r = s_workspace_id r'.

(** The rows are consistent and no workspace has two active operations. *)
Definition shrinks_ok (m : gmap Uuid ShrinkRow) : Prop :=
  map_Forall shrink_row_ok m ∧
  ∀ k k' r r', m !! k = Some r → m !! k' = Some r' → same_workspace r r' →
    s_active r = true → s_active r' = true → k = k'.

Lemma shrinks_ok_insert m key r :
  shrinks_ok m → shrink_row_ok key r →
  (s_active r = true → ∀ k' r', m !! k' = Some r' → same_workspace r r' → s_active r' = true → k' = key) →
  shrinks_ok (<[key := r]> m).
Proof.
  intros [Hrows Huniq] Hr Hother. split; [by apply map_Forall_insert_2|].
  intros k k' r1 r2. rewrite !lookup_insert_Some. unfold same_workspace.
  intros [[<- <-]|[Hk H1]] [[<- <-]|[Hk' H2]] [Hi Hw] Ha1 Ha2; [done| | |].
  - symmetry. eapply Hother; [done|exact H2|by split|done].
  - eapply Hother; [done|exact H1|by split|done].
  - eapply Huniq; [exact H1|exact H2|by split|done|done].
Qed.

Lemma shrinks_ok_delete m (P : Uuid * ShrinkRow → Prop) `{∀ x, Decision (P x)} :
  shrinks_ok m → shrinks_ok (filter P m).
Proof.
  intros [Hrows Huniq]. split.
  - intros k r [Hk _]%map_lookup_filter_Some. by apply Hrows.
  - intros k k' r r' [Hk _]%map_lookup_filter_Some [Hk' _]%map_lookup_filter_Some. by apply Huniq.
Qed.

#[global] Instance insert_shrink_job_frame inst w o now :
  Preserves (frames t_shrinks) (insert_shrink_job inst w o now).
Proof. unfold insert_shrink_job, insert_job. apply _. Qed.
#[global] Instance bump_generation_frame inst w now : Preserves (frames t_shrinks) (bump_generation inst w now).
Proof. unfold bump_generation, update_workspace. apply _. Qed.
#[global] Instance insert_shrink_audit_frame inst w a s v now :
  Preserves (frames t_shrinks) (insert_shrink_audit inst w a s v now).
Proof. unfold insert_shrink_audit, insert_audit. apply _. Qed.
#[global] Instance write_workspace_frame inst w d now : Preserves (frames t_shrinks) (write_workspace inst w d now).
Proof. unfold write_workspace, update_workspace. apply _. Qed.

Lemma storage_backend_Ok inst id db w d db' :
  storage_backend inst id db = (Ok (w, d), db') →
  db' = db ∧ ws_id w = id ∧ ∃ row, t_workspaces db !! id = Some row ∧ wr_installation_id row = inst ∧
    decode_workspace id row = Ok w ∧ wr_snapshot row = d.
Proof.
  unfold storage_backend. rewrite bind_run, select_workspace_run.
  destruct (t_workspaces db !! id) as [row|]; [|done].
  destruct (String.eqb_spec (wr_installation_id row) inst) as [Hi|]; [|done].
  rewrite bind_run; cbn. destruct (decode_workspace id row) as [w0|] eqn:Hd; [|done].
  intros [= <- <- <-]. pose proof (decode_workspace_inv _ _ _ Hd) as (Hid & _). eauto 10.
Qed.

Lemma elem_shrink_rows inst id db k r :
  In (k, r) (shrink_rows inst id db) ↔ t_shrinks db !! k = Some r ∧ of_workspace inst id r = true.
Proof.
  unfold shrink_rows. rewrite filter_In. cbn.
  by rewrite <-list_elem_of_In, elem_of_map_to_list.
Qed.

Lemma active_row_None inst id db :
  active_row inst id db = None ↔ no_active_shrink inst id db.
Proof.
  unfold active_row, no_active_shrink, is_active_shrink. split.
  - intros Hnone k r Hk. destruct (_ && _ && _) eqn:E; [|done]. apply andb_true_iff in E as [Hw Ha].
    assert (Hin : In (k, r) (List.filter (λ kv, s_active kv.2) (shrink_rows inst id db))).
    { apply filter_In. split; [|done]. by apply elem_shrink_rows. }
    by destruct (List.filter _ (shrink_rows inst id db)).
  - intros Hall. destruct (List.filter _ _) as [|[k r] l] eqn:E; [done|].
    assert (Hin : In (k, r) (List.filter (λ kv, s_active kv.2) (shrink_rows inst id db)))
      by (rewrite E; by left).
    apply filter_In in Hin as [[Hk Hw]%elem_shrink_rows Ha]. specialize (Hall k r Hk).
    unfold of_workspace in Hw. cbn in Ha. by rewrite Hw, Ha in Hall.
Qed.

Lemma active_row_Some inst id db k r :
  active_row inst id db = Some (k, r) → t_shrinks db !! k = Some r ∧ is_active_shrink inst id r = true.
Proof.
  unfold active_row. intros Hh. assert (Hin : In (k, r) (List.filter (λ kv, s_active kv.2) (shrink_rows inst id db))).
  { destruct (List.filter _ _); [done|]. injection Hh as ->. by left. }
  apply filter_In in Hin as [[Hk Hw]%elem_shrink_rows Ha]. split; [done|].
  unfold is_active_shrink. unfold of_workspace in Hw. cbn in Ha. by rewrite Hw, Ha.
Qed.

Lemma active_row_unique inst id db k r :
  shrinks_ok (t_shrinks db) → t_shrinks db !! k = Some r → is_active_shrink inst id r = true →
  active_row inst id db = Some (k, r).
Proof.
  intros [_ Huniq] Hk Ha. destruct (active_row inst id db) as [[k' r']|] eqn:E.
  - apply active_row_Some in E as [Hk' Ha']. unfold is_active_shrink in *.
    rewrite !andb_true_iff, !String.eqb_eq, !bool_decide_eq_true in *. destruct_and!.
    assert (k' = k) as -> by (eapply Huniq; [exact Hk'|exact Hk| |done|done]; split; congruence). congruence.
  - apply active_row_None in E. by rewrite (E k r Hk) in Ha.
Qed.

Lemma latest_row_Some inst id db k r :
  latest_row inst id db = Some (k, r) → t_shrinks db !! k = Some r ∧ of_workspace inst id r = true.
Proof. intros Hl%first_by_elem. by apply elem_shrink_rows, list_elem_of_In. Qed.

(** ** Every operation keeps the table consistent *)
Abbreviation ShrinksOk db := (shrinks_ok (t_shrinks db)).

Lemma enqueue_shrinks_ok inst id req actor now db r db' :
  enqueue_storage_shrink inst id req actor now db = (r, db') → ShrinksOk db → ShrinksOk db'.
Proof.
  unfold enqueue_storage_shrink. rewrite bind_run; cbn -[transaction storage_backend].
  intros Hrun Hok. revert Hrun. apply (transaction_inv (λ db, ShrinksOk db)); [done|done|].
  clear r db'. intros op db' Hrun.
  apply bind_run_Ok in Hrun as ([w d] & db1 & (-> & Hid & _)%storage_backend_Ok & Hrun).
  run_step Hrun. destruct (active_row inst id _) as [[k row]|] eqn:Hact.
  { destruct (_ && _); [|done]. by injection Hrun as <- <-. }
  apply active_row_None in Hact. unfold latest_storage_shrink in Hrun. do 3 run_step Hrun.
  apply bind_run_Ok in Hrun as ([] & db1 & Hins & Hrun).
  unfold insert_shrink, insert_row in Hins; cbn in Hins.
  destruct (t_shrinks db !! _) eqn:Hfree; [done|]. injection Hins as <-.
  apply (use_frame t_shrinks) in Hrun; [|apply _]. rewrite Hrun; cbn.
  apply shrinks_ok_insert; [done|done|]. intros _ k' r' Hk' [Hi Hw] Ha.
  specialize (Hact k' r' Hk'). unfold is_active_shrink in Hact. cbn in *. subst.
  by rewrite Ha, String.eqb_refl, bool_decide_true in Hact.
Qed.

(** What a save leaves in the table of operations. *)
Lemma save_shrinks_table inst op update db r db' :
  save_storage_shrink inst op update db = (r, db') →
  t_shrinks db' = t_shrinks db ∨
  ∃ row, t_shrinks db !! op_id op = Some row ∧ is_active_shrink inst (op_workspace_id op) row = true ∧
    t_shrinks db' = <[op_id op := saved_row op (phase_active (op_phase op)) (op_updated_at op) row]> (t_shrinks db).
Proof.
  apply (transaction_inv (λ d, t_shrinks d = t_shrinks db ∨ ∃ row, t_shrinks db !! op_id op = Some row ∧
    is_active_shrink inst (op_workspace_id op) row = true ∧
    t_shrinks d = <[op_id op := saved_row op (phase_active (op_phase op)) (op_updated_at op) row]> (t_shrinks db)));
    [done|by left|]. clear r db'. intros [] db' Hrun. right.
  apply bind_run_Ok in Hrun as ([w d] & db1 & (-> & Hid & _)%storage_backend_Ok & Hrun).
  do 2 run_step Hrun. apply is_some_and_true in Hx as (row & Hrow & Hact). exists row.
  rewrite Hid in Hact. split_and!; [done..|].
  apply bind_run_Ok in Hrun as ([] & db1 & Hupd & Hrun).
  assert (t_shrinks db1 = t_shrinks db) as Hdb1.
  { destruct (bool_decide _); [by injection Hupd as <-|]. run_step Hupd. destruct x as [w' d'].
    by apply (use_frame t_shrinks) in Hupd; [|apply _]. }
  apply bind_run_Ok in Hrun as (n & db2 & Hsave & Hrun).
  unfold update_shrink, update_where in Hsave. rewrite Hdb1, Hrow in Hsave.
  unfold is_active_shrink in Hact. rewrite !andb_true_iff in Hact. destruct Hact as [[Hi _] _].
  rewrite Hi in Hsave. injection Hsave as <- <-.
  destruct (phase_active _); [by injection Hrun as <-|]. by apply (use_frame t_shrinks) in Hrun; [|apply _].
Qed.
(** Saving an operation that is active keeps it the only one. *)
Lemma save_shrinks_ok inst op update db r db' :
  save_storage_shrink inst op update db = (r, db') → ShrinksOk db → ShrinksOk db'.
Proof.
  intros [->|(row & Hrow & Hact & ->)]%save_shrinks_table Hok; [done|].
  unfold is_active_shrink in Hact. rewrite !andb_true_iff in Hact.
  destruct Hact as [[Hi Hw] Ha]. apply bool_decide_eq_true in Hw. apply shrinks_ok_insert; [done|by split|].
  intros _ k' r' Hk' [? ?] Ha'. by apply (proj2 Hok k' (op_id op) r' row).
Qed.

Lemma cleanup_shrinks_ok inst op db r db' :
  save_storage_shrink_cleanup_identity inst op db = (r, db') → ShrinksOk db → ShrinksOk db'.
Proof.
  intros Hrun Hok. revert Hrun. apply (transaction_inv (λ db, ShrinksOk db)); [done|done|].
  clear r db'. intros [] db' Hrun.
  apply bind_run_Ok in Hrun as ([w d] & db1 & (-> & Hid & _)%storage_backend_Ok & Hrun).
  run_step Hrun. run_step Hrun. destruct (t_shrinks db !! op_id op) as [row|] eqn:Hrow; [|done].
  do 3 run_step Hrun. apply bind_run_Ok in Hrun as (n & db1 & Hsave & [= <-]).
  unfold update_shrink, update_where in Hsave. rewrite Hrow in Hsave.
  destruct (of_workspace inst (ws_id w) row && negb (s_active row)) eqn:Hp; [|by injection Hsave as <- <-].
  injection Hsave as <- <-. cbn.
  apply andb_true_iff in Hp as [_ Hp%negb_true_iff].
  destruct (proj1 Hok _ _ Hrow) as (? & ? & ?).
  apply shrinks_ok_insert; [done|done|]. cbn. by rewrite Hp.
Qed.

(** An inactive operation of the workspace becomes active again. *)
Lemma reactivate_ok inst id key row op now db :
  ShrinksOk db → t_shrinks db !! key = Some row → of_workspace inst id row = true →
  op_id op = key → op_workspace_id op = s_workspace_id row → phase_active (op_phase op) = true →
  no_active_shrink inst id db → shrinks_ok (<[key := saved_row op true now row]> (t_shrinks db)).
Proof.
  intros Hok Hrow Hof Hkey Hws Hphase Hno. apply shrinks_ok_insert; [done|by split|].
  intros _ k' r' Hk' [Hi Hw] Ha. cbn in *. specialize (Hno k' r' Hk').
  unfold is_active_shrink in Hno. unfold of_workspace in Hof. by rewrite <-Hi, <-Hw, Hof, Ha in Hno.
Qed.

Lemma confirm_shrinks_ok inst id o actor now db r db' :
  confirm_storage_shrink inst id o actor now db = (r, db') → ShrinksOk db → ShrinksOk db'.
Proof.
  unfold confirm_storage_shrink. rewrite bind_run; cbn -[transaction storage_backend].
  intros Hrun Hok. revert Hrun. apply (transaction_inv (λ db, ShrinksOk db)); [done|done|].
  clear r db'. intros op' db' Hrun.
  apply bind_run_Ok in Hrun as ([w d] & db1 & (-> & Hid & _)%storage_backend_Ok & Hrun).
  unfold latest_storage_shrink in Hrun. do 3 run_step Hrun.
  destruct (latest_row inst id _) as [[k row]|] eqn:Hl; [|done]. cbn in Hx. simplify_eq.
  apply latest_row_Some in Hl as [Hrow Hof]. destruct (proj1 Hok _ _ Hrow) as (Hk & Hws & Hact).
  destruct (bool_decide _); [by injection Hrun as <- <-|]. run_step Hrun.
  apply bind_run_Ok in Hrun as ([] & db1 & [-> Hno]%guard_Ok & Hrun).
  apply bind_run_Ok in Hrun as (n & db1 & Hsave & Hrun).
  apply (use_frame t_shrinks) in Hrun; [|apply _]. rewrite Hrun.
  unfold update_shrink, update_where in Hsave. cbn in Hsave. rewrite Hk in Hsave. cbn in Hrow. rewrite Hrow in Hsave.
  destruct (String.eqb _ _); [|by injection Hsave as <- <-]. injection Hsave as <- <-. cbn.
  by eapply (reactivate_ok inst (ws_id w)).
Qed.

Lemma retry_shrinks_ok inst id o actor now db r db' :
  retry_storage_shrink_resume inst id o actor now db = (r, db') → ShrinksOk db → ShrinksOk db'.
Proof.
  intros Hrun Hok. revert Hrun. apply (transaction_inv (λ db, ShrinksOk db)); [done|done|].
  clear r db'. intros op' db' Hrun.
  apply bind_run_Ok in Hrun as ([w d] & db1 & (-> & Hid & _)%storage_backend_Ok & Hrun).
  do 2 run_step Hrun. destruct x as [k row]. apply latest_row_Some in Hx as [Hrow Hof].
  destruct (proj1 Hok _ _ Hrow) as (Hk & Hws & Hact). do 6 run_step Hrun.
  apply andb_true_iff in Hx2 as [Hidle%Z.eqb_eq _].
  apply bind_run_Ok in Hrun as (n & db1 & Hsave & Hrun). run_step Hrun.
  apply (use_frame t_shrinks) in Hrun; [|apply _]. rewrite Hrun.
  unfold update_shrink, update_where in Hsave. cbn in Hsave. rewrite Hk, Hrow in Hsave.
  destruct (of_workspace inst id row && _); [|by injection Hsave as <- <-].
  injection Hsave as <- <-. cbn.
  eapply (reactivate_ok inst id); try done. exact (proj1 (count_active_zero _ _ _) Hidle).
Qed.

(** Raising the generation keeps a row readable. *)
Lemma decode_with_generation id row w g now :
  decode_workspace id row = Ok w → 0 <= g <= u64_max →
  decode_workspace id (with_generation g now row) =
  Ok {| ws_id := id; ws_short_id := ws_short_id w; ws_organization_id := ws_organization_id w;
        ws_owner_id := ws_owner_id w; ws_name := ws_name w; ws_template_id := ws_template_id w;
        ws_node_pool := ws_node_pool w; ws_home_volume_binding := ws_home_volume_binding w;
        ws_scratch_volume_binding := ws_scratch_volume_binding w; ws_template := ws_template w;
        ws_state := ws_state w; ws_generation := g; ws_created_at := ws_created_at w;
        ws_updated_at := now |}.
Proof.
  unfold decode_workspace. intros Hd Hg. inv_binds. injection Hd as <-. cbn.
  change (decode_home_binding (with_generation g now row)) with (decode_home_binding row).
  rewrite Hstep, Hstep0; cbn. rewrite Hstep1; cbn.
  assert (u64_try_from g = Some g) as -> by (apply guard_range_Some; unfold in_u64; bool_prop; lia). done.
Qed.

(** ** The statements as a transition system *)
Context `{SqlBackend}.

Inductive storage_step (inst : string) (db db' : Db) : Prop :=
  | st_enqueue id req actor now r : enqueue_storage_shrink inst id req actor now db = (r, db') → storage_step inst db db'
  | st_save op update r : save_storage_shrink inst op update db = (r, db') → storage_step inst db db'
  | st_cleanup op r : save_storage_shrink_cleanup_identity inst op db = (r, db') → storage_step inst db db'
  | st_confirm id o actor now r : confirm_storage_shrink inst id o actor now db = (r, db') → storage_step inst db db'
  | st_retry id o actor now r : retry_storage_shrink_resume inst id o actor now db = (r, db') → storage_step inst db db'
  | st_lifecycle : op_step inst db db' → storage_step inst db db'.

Lemma apply_transition_shrinks inst w t actor now db w' db' :
  apply_transition inst w t actor now db = (Ok w', db') → ShrinksOk db → ShrinksOk db'.
Proof.
  intros (s & g & row & db2 & _ & _ & _ & _ & -> & _ & _ & _ & _ & Hjob & Hscrub)%apply_transition_Ok Hok.
  apply (use_frame t_shrinks) in Hjob; [|by apply job_and_audit_frames]. cbn in Hjob.
  destruct (confirms_deletion t); [|by injection Hscrub as <-; rewrite Hjob].
  rewrite scrub_deleted_run in Hscrub. destruct (t_tombstones db2 !! _); [done|]. injection Hscrub as <-.
  unfold scrubbed, delete_workspace_row. destruct (t_workspaces _ !! _) as [r|]; [destruct (_ && _)|].
  - cbn. rewrite Hjob. by apply shrinks_ok_delete.
  - cbn. by rewrite Hjob.
  - cbn. by rewrite Hjob.
Qed.

Lemma transition_shrinks inst id expected t actor now db r db' :
  transition_workspace inst id expected t actor now db = (r, db') → ShrinksOk db → ShrinksOk db'.
Proof.
  intros Hrun Hok. destruct r as [[w|]|e].
  - apply transition_workspace_Ok in Hrun as (row & w0 & _ & _ & _ & _ & Ha). by eapply apply_transition_shrinks.
  - revert Hrun. apply (transaction_inv (λ db, ShrinksOk db)); [done|done|]. intros a db1.
    rewrite bind_run, select_workspace_run.
    destruct (match t_workspaces db !! id with Some _ => _ | None => _ end) as [row|].
    + rewrite bind_run; cbn -[apply_transition]. destruct (decode_workspace id row); [|done].
      destruct (is_some_and _ _); [by intros [= <- <-]|].
      intros (w' & db2 & Ha & [= <- <-])%bind_run_Ok. by eapply apply_transition_shrinks.
    + destruct (is_some expected); [by intros [= <- <-]|done].
  - apply transaction_Err in Hrun. apply (f_equal t_shrinks) in Hrun. cbn in Hrun. by rewrite Hrun.
Qed.

Lemma mark_failed_shrinks inst id g now db r db' :
  mark_workspace_failed_if_generation inst id g now db = (r, db') → ShrinksOk db → ShrinksOk db'.
Proof.
  intros Hrun Hok. revert Hrun. apply (transaction_inv (λ db, ShrinksOk db)); [done|done|]. intros a db1.
  rewrite bind_run, select_workspace_run.
  destruct (match t_workspaces db !! id with Some _ => _ | None => _ end) as [row|]; [|by intros [= <- <-]].
  rewrite bind_run; cbn -[apply_transition]. destruct (decode_workspace id row); [|done].
  destruct (_ || _); [by intros [= <- <-]|].
  intros (w' & db2 & Ha & [= <- <-])%bind_run_Ok. by eapply apply_transition_shrinks.
Qed.

Lemma op_step_shrinks inst db db' : op_step inst db db' → ShrinksOk db → ShrinksOk db'.
Proof.
  intros (now & op & ->) Hok. destruct op as [id a actor|id g o actor|id g|id]; unfold run_op, reporting; cbn [snd].
  - unfold request_workspace_action. rewrite bind_run.
    destruct (transition_workspace _ _ _ _ _ _ _) as [[found|e] db1] eqn:E; cbn; by eapply transition_shrinks.
  - destruct (record_workspace_observation _ _ _ _ _ _ _) as [r db1] eqn:E. by eapply transition_shrinks.
  - destruct (mark_workspace_failed_if_generation _ _ _ _ _) as [r db1] eqn:E. by eapply mark_failed_shrinks.
  - rewrite watch_run. destruct (ready_row _ _ _); [|done]. destruct (reconcile_queued _ _ _); [done|].
    by destruct (t_jobs db !! _).
Qed.

(** Whatever requests, saves, confirmations, retries, clean-ups, actions,
    observations and deletions are run and in whatever order, no workspace ever
    has two active storage operations, and every stored operation is filed under
    its identifier and workspace and marked active exactly while its phase is. *)
Theorem one_active_shrink inst db db' :
  rtc (storage_step inst) db db' → shrinks_ok (t_shrinks db) → shrinks_ok (t_shrinks db').
Proof.
  induction 1 as [|db db1 db' Hstep _ IH]; [done|]. intros Hok. apply IH. destruct Hstep.
  - by eapply enqueue_shrinks_ok.
  - by eapply save_shrinks_ok.
  - by eapply cleanup_shrinks_ok.
  - by eapply confirm_shrinks_ok.
  - by eapply retry_shrinks_ok.
  - by eapply op_step_shrinks.
Qed.

(** Only an active operation can be saved: for any other the statement is
    refused and no table changes, so a finished operation keeps its record. *)
Lemma save_needs_active inst op update db :
  (∀ row, t_shrinks db !! op_id op = Some row → is_active_shrink inst (op_workspace_id op) row = false) →
  ∃ e db', save_storage_shrink inst op update db = (Err e, db') ∧ same_tables db db'.
Proof.
  intros Hinactive. destruct (save_storage_shrink inst op update db) as [[[]|e] db'] eqn:E.
  - exfalso. unfold save_storage_shrink in E. rewrite transaction_Ok in E.
    apply bind_run_Ok in E as ([w d] & db1 & (-> & Hid & _)%storage_backend_Ok & E).
    do 2 run_step E. apply is_some_and_true in Hx as (row & Hrow & Hact). rewrite Hid in Hact.
    by rewrite (Hinactive row Hrow) in Hact.
  - exists e, db'. split; [done|]. by apply transaction_Err in E.
Qed.

(** What [enqueue_storage_shrink] did: it found the same active request, or it
    inserted a new operation and raised the generation. *)
Lemma enqueue_Ok inst id req actor now db op db' :
  enqueue_storage_shrink inst id req actor now db = (Ok op, db') →
  ∃ row w, t_workspaces db !! id = Some row ∧ wr_installation_id row = inst ∧
    decode_workspace id row = Ok w ∧
    ((same_tables db db' ∧ ∃ k srow, active_row inst id db = Some (k, srow) ∧ s_operation srow = op ∧
        op_request op = req ∧ op_actor_user_id op = actor) ∨
     (no_active_shrink inst id db ∧ shrink_request_validate req w = Ok () ∧
      op = requested_operation (operation_new (op_id op) id req actor now) w ∧
      t_shrinks db' = <[op_id op := mkShrinkRow inst id op true now now]> (t_shrinks db) ∧
      t_workspaces db' = <[id := with_generation (wr_generation row + 1) now row]> (t_workspaces db))).
Proof.
  unfold enqueue_storage_shrink. rewrite bind_run; cbn -[transaction storage_backend].
  rewrite transaction_Ok.
  intros ([w d] & db1 & (-> & Hid & row & Hrow & Hinst & Hd & _)%storage_backend_Ok & Hrun)%bind_run_Ok.
  exists row, w. split_and!; [done..|]. run_step Hrun.
  destruct (active_row inst id _) as [[k srow]|] eqn:Hact.
  { left. destruct (_ && _) eqn:E; [|done]. injection Hrun as <- <-. split; [done|].
    apply andb_true_iff in E as [E1%bool_decide_eq_true E2%bool_decide_eq_true]. by exists k, srow. }
  right. apply active_row_None in Hact. unfold latest_storage_shrink in Hrun. do 3 run_step Hrun.
  apply bind_run_Ok in Hrun as ([] & db1 & Hins & Hrun).
  unfold insert_shrink, insert_row in Hins; cbn in Hins.
  destruct (t_shrinks db !! _) eqn:Hfree; [done|]. injection Hins as <-.
  pose proof (use_frame t_shrinks _ _ _ _ _ Hrun) as Hs. cbn in Hs.
  apply bind_run_Ok in Hrun as ([] & db2 & Hj & Hrun).
  apply (use_frame t_workspaces) in Hj; [|unfold insert_shrink_job, insert_job; apply _].
  apply bind_run_Ok in Hrun as ([] & db3 & Hb & Hrun).
  apply bind_run_Ok in Hrun as ([] & db4 & Ha & [= <- <-]).
  apply (use_frame t_workspaces) in Ha; [|unfold insert_shrink_audit, insert_audit; apply _].
  unfold bump_generation, update_workspace, update_where in Hb. rewrite bind_run, Hj in Hb.
  cbn in Hb, Hrow. rewrite Hrow, (proj2 (String.eqb_eq _ _)) in Hb by done. injection Hb as <-.
  split_and!; [done..|]. done.
Qed.

(** A shrink request takes the workspace: once it is recorded no action on the
    workspace goes through, whoever asks, and the tables stay as they are. *)
Theorem shrink_blocks_actions inst id req actor now db op db' a actor' now' :
  enqueue_storage_shrink inst id req actor now db = (Ok op, db') →
  ∃ e db'', request_workspace_action inst id a actor' now' db' = (Err e, db'') ∧ same_tables db' db''.
Proof.
  intros (row & w & _ & _ & _ & [[Hsame (k & srow & Hact & _)]|(_ & _ & _ & Hs & _)])%enqueue_Ok;
    apply request_blocked; intros Hno.
  - apply active_row_Some in Hact as [Hk Ha]. apply (f_equal t_shrinks) in Hsame. cbn in Hsame.
    by rewrite (Hno k srow) in Ha by (by rewrite Hsame).
  - assert (Hk := f_equal (lookup (op_id op)) Hs). rewrite lookup_insert_eq in Hk.
    apply Hno in Hk. unfold is_active_shrink in Hk. cbn in Hk.
    by rewrite String.eqb_refl, bool_decide_true in Hk.
Qed.

(** A repeated shrink request is idempotent: asking again for the same sizes
    before anything else happens returns the operation already recorded, with
    the same identifier, and changes no table. *)
Theorem shrink_request_idempotent inst id req actor now now' db op db' :
  shrinks_ok (t_shrinks db) → (∀ row, t_workspaces db !! id = Some row → wr_generation row < u64_max) →
  enqueue_storage_shrink inst id req actor now db = (Ok op, db') →
  ∃ db'', enqueue_storage_shrink inst id req actor now' db' = (Ok op, db'') ∧ same_tables db' db''.
Proof.
  intros Hok Hgen Hrun. pose proof (enqueue_shrinks_ok _ _ _ _ _ _ _ _ Hrun Hok) as Hok'.
  apply enqueue_Ok in Hrun as (row & w & Hrow & Hinst & Hd & Hcase).
  assert (∃ row' w', t_workspaces db' !! id = Some row' ∧ wr_installation_id row' = inst ∧
            decode_workspace id row' = Ok w') as (row' & w' & Hrow' & Hinst' & Hd').
  { destruct Hcase as [[Hsame _]|(_ & _ & _ & _ & ->)].
    - apply (f_equal t_workspaces) in Hsame. cbn in Hsame. rewrite Hsame. eauto.
    - rewrite lookup_insert_eq. eexists _, _. split_and!; [done|done|].
      eapply decode_with_generation; [exact Hd|].
      pose proof (decode_workspace_inv _ _ _ Hd) as (_ & _ & _ & ? & _). specialize (Hgen _ Hrow). lia. }
  assert (∃ k srow, active_row inst id db' = Some (k, srow) ∧ s_operation srow = op ∧
            op_request op = req ∧ op_actor_user_id op = actor) as (k & srow & Hact & Hop & Hreq & Hactor).
  { destruct Hcase as [[Hsame (k & srow & Hact & ?)]|(_ & _ & Heq & Hs & _)].
    - exists k, srow. split; [|done]. apply (f_equal t_shrinks) in Hsame. cbn in Hsame.
      unfold active_row, shrink_rows. by rewrite Hsame.
    - exists (op_id op), (mkShrinkRow inst id op true now now). split; [|by rewrite Heq].
      apply (active_row_unique inst id); [done|by rewrite Hs, lookup_insert_eq|].
      unfold is_active_shrink; cbn. by rewrite String.eqb_refl, bool_decide_true. }
  unfold enqueue_storage_shrink. rewrite bind_run; cbn -[transaction storage_backend].
  eexists. split.
  - rewrite transaction_Ok. apply bind_run_Ok. eexists (w', wr_snapshot row'), _. split.
    + unfold storage_backend. rewrite bind_run, select_workspace_run; cbn.
      rewrite Hrow', (proj2 (String.eqb_eq _ _)) by done. rewrite bind_run; cbn. by rewrite Hd'.
    + rewrite bind_run; cbn. change (active_row inst id _) with (active_row inst id db'). rewrite Hact.
      rewrite Hop, Hreq, Hactor, !bool_decide_true by done. reflexivity.
  - done.
Qed.

(** Source volumes are only released after an explicit confirmation of the
    latest operation, which must have completed and be reclaimable while the
    workspace is back in the state it had before (running again, or stopped) and
    no other operation is active; confirming twice changes nothing. *)
Theorem confirm_only_recovered inst id o actor now db op db' :
  confirm_storage_shrink inst id o actor now db = (Ok op, db') →
  ∃ k srow row, latest_row inst id db = Some (k, srow) ∧ t_workspaces db !! id = Some row ∧
    op_id (s_operation srow) = o ∧
    let prior := s_operation srow in
    ((op_phase prior = PhReclaiming ∨ op_phase prior = PhReclaimed) ∧ op = prior ∧ same_tables db db') ∨
    (op_phase prior = PhCompleted ∧ op_reclaimable prior = true ∧ op_phase op = PhReclaiming ∧
     wr_state row = (if op_resume prior then Ready else Stopped) ∧ no_active_shrink inst id db).
Proof.
  unfold confirm_storage_shrink. rewrite bind_run; cbn -[transaction storage_backend].
  rewrite transaction_Ok.
  intros ([w d] & db1 & (-> & Hid & row & Hrow & Hinst & Hd & _)%storage_backend_Ok & Hrun)%bind_run_Ok.
  unfold latest_storage_shrink in Hrun. do 3 run_step Hrun.
  change (latest_row inst id _) with (latest_row inst id db) in Hx.
  destruct (latest_row inst id db) as [[k srow]|] eqn:Hl; [|done]. cbn in Hx. injection Hx as <-.
  apply bool_decide_eq_true in Hx0. exists k, srow, row. split_and!; [done..|]. cbv zeta.
  destruct (bool_decide _) eqn:Hp.
  { apply bool_decide_eq_true in Hp. injection Hrun as <- <-. by left. }
  right. run_step Hrun. rewrite !andb_true_iff, !bool_decide_eq_true in Hx. destruct Hx as [[Hph Hre] Hst].
  apply bind_run_Ok in Hrun as ([] & db1 & [-> Hno]%guard_Ok & Hrun).
  apply decode_workspace_inv in Hd as (_ & Hs & _). rewrite <-Hs.
  apply bind_run_Ok in Hrun as (n & db1 & _ & Hrun). do 3 (apply bind_run_Ok in Hrun as (? & ? & _ & Hrun)).
  injection Hrun as <- <-. done.
Qed.

(** ** Reading a workspace back after its volumes were exchanged *)
Lemma write_workspace_Ok inst w d now db db' row :
  t_workspaces db !! ws_id w = Some row → wr_installation_id row = inst →
  write_workspace inst w d now db = (Ok (), db') →
  t_workspaces db' = <[ws_id w := shrunk_row w d now row]> (t_workspaces db).
Proof.
  intros Hrow Hinst. unfold write_workspace. rewrite bind_run; cbn. rewrite bind_run; cbn.
  destruct (home_claim_taken _ _ _); [done|]. cbn. rewrite bind_run. unfold update_workspace, update_where.
  rewrite Hrow, (proj2 (String.eqb_eq _ _)) by done. by intros [= <-].
Qed.

Lemma save_exchange_Ok inst op update db db' :
  update ≠ UpdNone → save_storage_shrink inst op update db = (Ok (), db') →
  ∃ row w w' d', t_workspaces db !! op_workspace_id op = Some row ∧
    decode_workspace (op_workspace_id op) row = Ok w ∧
    apply_shrink_workspace_update w (wr_snapshot row) op update = Ok (w', d') ∧ ws_id w' = op_workspace_id op ∧
    t_workspaces db' = <[op_workspace_id op := shrunk_row w' d' (op_updated_at op) row]> (t_workspaces db).
Proof.
  intros Hne. unfold save_storage_shrink. rewrite transaction_Ok.
  intros ([w d] & db1 & (-> & Hid & row & Hrow & Hinst & Hd & <-)%storage_backend_Ok & Hrun)%bind_run_Ok.
  do 2 run_step Hrun. apply bind_run_Ok in Hrun as ([] & db1 & Hupd & Hrun).
  rewrite bool_decide_false in Hupd by done. run_step Hupd. destruct x as [w' d'].
  assert (ws_id w' = ws_id w) as Hid'.
  { destruct update; [done|..]; unfold apply_shrink_workspace_update in Hx0; inv_binds; simplify_eq/=; try done.
    by destruct (op_switched op). }
  exists row, w, w', d'. split_and!; [done..|congruence|].
  rewrite <-Hid in *. rewrite <-Hid' in Hrow. rewrite <-Hid'.
  apply (write_workspace_Ok _ _ _ _ _ _ _ Hrow Hinst) in Hupd. rewrite <-Hupd.
  apply bind_run_Ok in Hrun as (n & db2 & Hsave & Hrun).
  transitivity (t_workspaces db2).
  - destruct (phase_active _); [by injection Hrun as <-|].
    by apply (use_frame t_workspaces) in Hrun; [|unfold insert_shrink_audit, insert_audit; apply _].
  - by apply (use_frame t_workspaces) in Hsave; [|unfold update_shrink; apply _].
Qed.

Lemma decode_shrunk_binding w d now row :
  (∀ b, ws_home_volume_binding w = Some b → binding_is_valid b = true) → capacity_agrees w d →
  decode_home_binding (shrunk_row w d now row) = Ok (ws_home_volume_binding w).
Proof.
  intros Hvalid Hcap. unfold decode_home_binding, capacity_agrees in *; cbn.
  destruct (ws_home_volume_binding w) as [b|]; [|done]. cbn.
  specialize (Hvalid b eq_refl). specialize (Hcap b eq_refl).
  destruct (binding_is_valid_capacity b Hvalid) as [Hpos Hmax]. unfold GIB in Hmax.
  assert (as_i64_cast (vb_capacity_gib b) = vb_capacity_gib b) as ->.
  { unfold as_i64_cast. by destruct (Z.ltb_spec i64_max (vb_capacity_gib b)); unfold i64_max in *; lia. }
  assert (u64_try_from (vb_capacity_gib b) = Some (vb_capacity_gib b)) as ->.
  { apply guard_range_Some. unfold in_u64, u64_max. unfold i64_max in *. bool_prop. lia. }
  cbn. destruct b as [ns name uid cap]. cbn in *. rewrite Hvalid, Hcap, Z.eqb_refl. done.
Qed.

Lemma decode_shrunk_row id row w w' d' now :
  decode_workspace id row = Ok w → ws_id w' = id → document_validate d' = Ok () →
  (∀ b, ws_home_volume_binding w' = Some b → binding_is_valid b = true) → capacity_agrees w' d' →
  wr_generation row < u64_max →
  ∃ w'', decode_workspace id (shrunk_row w' d' now row) = Ok w'' ∧ ws_state w'' = ws_state w' ∧
    ws_home_volume_binding w'' = ws_home_volume_binding w' ∧
    ws_scratch_volume_binding w'' = ws_scratch_volume_binding w' ∧ ws_template w'' = spec d' ∧
    ws_generation w'' = wr_generation row + 1.
Proof.
  intros Hd Hid Hdoc Hvalid Hcap Hgen. pose proof (decode_workspace_inv _ _ _ Hd) as (_ & _ & _ & Hrange & _).
  unfold decode_workspace in *. inv_binds. cbn. rewrite Hdoc; cbn.
  rewrite decode_shrunk_binding by done. cbn. rewrite Hstep1; cbn.
  assert (u64_try_from (wr_generation row + 1) = Some (wr_generation row + 1)) as ->
    by (apply guard_range_Some; unfold in_u64; bool_prop; lia).
  eexists. split; [reflexivity|]. done.
Qed.

(** A workspace whose volumes were exchanged or put back can be read again: the
    saved row decodes, the workspace is stopped on exactly the volumes the
    operation names, and its sizes are the snapshot's. *)
Theorem exchanged_workspace_readable inst op update db db' row row' :
  update = UpdSwitch ∨ update = UpdRollback → sources_recorded op →
  (∀ b, sv_source (op_home op) = Some b → binding_is_valid b = true) →
  t_workspaces db !! op_workspace_id op = Some row → wr_generation row < u64_max →
  save_storage_shrink inst op update db = (Ok (), db') →
  t_workspaces db' !! op_workspace_id op = Some row' → document_validate (wr_snapshot row') = Ok () →
  ∃ w, decode_workspace (op_workspace_id op) row' = Ok w ∧ ws_state w = Stopped ∧
    ws_home_volume_binding w =
      match update with
      | UpdSwitch => option_or (sv_destination (op_home op)) (sv_source (op_home op))
      | _ => sv_source (op_home op)
      end ∧
    ws_template w = spec (wr_snapshot row').
Proof.
  intros Hupdate Hsrc Hvalid Hrow Hgen Hsave Hrow' Hdoc.
  apply save_exchange_Ok in Hsave as (row0 & w & w' & d' & Hrow0 & Hd & Happly & Hid & Hws); [|by destruct Hupdate as [-> | ->]].
  rewrite Hws, lookup_insert_eq in Hrow'. injection Hrow' as <-. simplify_eq.
  assert (capacity_agrees w' d' ∧ ws_state w' = Stopped ∧ ws_home_volume_binding w' =
    match update with
    | UpdSwitch => option_or (sv_destination (op_home op)) (sv_source (op_home op))
    | _ => sv_source (op_home op)
    end ∧ (∀ b, ws_home_volume_binding w' = Some b → binding_is_valid b = true)) as (Hcap & Hst & Hhome & Hval).
  { split; [by eapply exchange_capacity|]. by eapply exchange_bindings. }
  destruct (decode_shrunk_row (op_workspace_id op) row w w' d' (op_updated_at op))
    as (w'' & Hd'' & Hs'' & Hh'' & _ & Ht'' & _); [done..|].
  exists w''. split_and!; [done|congruence|congruence|done].
Qed.
End ShrinkStore.

(** ** Witnesses *)
Module ShrinkSample.
#[local] Existing Instance decimal_uuid_text.
Definition op : StorageShrinkOperation := set_op_phase PhSwitching
  (set_op_home Sample.home (set_op_original_temporary_storage_gib 10 (set_op_original_home_gib 60
    (operation_new 5 ActionSample.id Sample.request 3 100)))).
Definition row (o : StorageShrinkOperation) : ShrinkRow :=
  mkShrinkRow "inst" ActionSample.id o (phase_active (op_phase o)) 100 100.
(** The sample workspace with one operation. *)
Definition db (o : StorageShrinkOperation) : Db := set_t_shrinks {[ op_id o := row o ]} ActionSample.db.
Definition switched : StorageShrinkOperation := set_op_switched true (set_op_phase PhResuming op).
Definition completed : StorageShrinkOperation :=
  set_op_resume true (set_op_reclaimable true (set_op_phase PhCompleted switched)).
End ShrinkSample.

Lemma sample_shrinks_ok : shrinks_ok (t_shrinks ActionSample.db).
Proof. split; [intros ? ?; cbn; by rewrite lookup_empty|intros ? ? ? ?; cbn; by rewrite lookup_empty]. Qed.

Lemma one_active_shrink_witness :
  ∃ r db', @enqueue_storage_shrink decimal_uuid_text "inst" ActionSample.id Sample.request 3 200 ActionSample.db
    = (r, db') ∧ shrinks_ok (t_shrinks db').
Proof.
  destruct (@enqueue_storage_shrink decimal_uuid_text "inst" ActionSample.id Sample.request 3 200 ActionSample.db)
    as [r db'] eqn:E. exists r, db'. split; [reflexivity|].
  refine (@one_active_shrink decimal_uuid_text Sqlite "inst" ActionSample.db db' _ sample_shrinks_ok).
  apply rtc_once. eapply st_enqueue. exact E.
Defined.

Lemma shrink_blocks_actions_witness :
  ∃ op db', @enqueue_storage_shrink decimal_uuid_text "inst" ActionSample.id Sample.request 3 200 ActionSample.db
      = (Ok op, db') ∧
    ∃ e db'', @request_workspace_action decimal_uuid_text Sqlite "inst" ActionSample.id Stop 3 300 db' = (Err e, db'')
      ∧ same_tables db' db''.
Proof.
  eexists _, _. split; [vm_compute; reflexivity|].
  eapply (@shrink_blocks_actions decimal_uuid_text Sqlite "inst" ActionSample.id Sample.request 3%N 200 ActionSample.db).
  vm_compute; reflexivity.
Defined.

Lemma shrink_request_idempotent_witness :
  ∃ op db', @enqueue_storage_shrink decimal_uuid_text "inst" ActionSample.id Sample.request 3 200 ActionSample.db
      = (Ok op, db') ∧
    ∃ db'', @enqueue_storage_shrink decimal_uuid_text "inst" ActionSample.id Sample.request 3 300 db' = (Ok op, db'')
      ∧ same_tables db' db''.
Proof.
  eexists _, _. split; [vm_compute; reflexivity|].
  eapply (@shrink_request_idempotent decimal_uuid_text "inst" ActionSample.id Sample.request 3%N 200 300 ActionSample.db).
  - exact sample_shrinks_ok.
  - intros row Hrow. injection Hrow as <-. reflexivity.
  - vm_compute; reflexivity.
Defined.

Lemma confirm_only_recovered_witness :
  ∃ op db', @confirm_storage_shrink decimal_uuid_text "inst" ActionSample.id 5 3 200
      (ShrinkSample.db ShrinkSample.completed) = (Ok op, db') ∧
    ∃ k srow, latest_row "inst" ActionSample.id (ShrinkSample.db ShrinkSample.completed) = Some (k, srow).
Proof.
  eexists _, _. split; [vm_compute; reflexivity|].
  edestruct (@confirm_only_recovered decimal_uuid_text "inst" ActionSample.id 5%N 3%N 200
    (ShrinkSample.db ShrinkSample.completed)) as (k & srow & _ & Hl & _); [vm_compute; reflexivity|].
  exists k, srow. exact Hl.
Defined.

Lemma exchanged_workspace_readable_witness :
  ∃ db' row' w, @save_storage_shrink decimal_uuid_text "inst" ShrinkSample.op UpdSwitch (ShrinkSample.db ShrinkSample.op)
      = (Ok (), db') ∧ t_workspaces db' !! ActionSample.id = Some row' ∧
    @decode_workspace decimal_uuid_text ActionSample.id row' = Ok w ∧ ws_state w = Stopped ∧
    ws_home_volume_binding w = Some Sample.destination.
Proof.
  eexists _, _.
  edestruct (@exchanged_workspace_readable decimal_uuid_text "inst" ShrinkSample.op UpdSwitch
    (ShrinkSample.db ShrinkSample.op)) as (w & Hd & Hs & Hh & _);
    [by left|split; [intros b [= <-]; reflexivity|done]|intros b [= <-]; reflexivity|reflexivity|reflexivity
    |vm_compute; reflexivity|vm_compute; reflexivity|vm_compute; reflexivity|].
  exists w. split_and!; [vm_compute; reflexivity|vm_compute; reflexivity|exact Hd|exact Hs|exact Hh].
Defined.
