(* ===== verification/Reconcile.v ===== *)
(** * The workspace reconciler ([src/jobs/kubernetes.rs], the error type of
    [src/jobs.rs])

    A job handler reads the workspace its job names and drives the cluster
    towards the stored intent, then records what it observed. The cluster is
    reached through [KubernetesCoordinator]; here it is an interface over an
    abstract cluster state, one operation per coordinator method the handlers
    call, and every theorem holds for any implementation of it. The same
    interface says when a database call is lost (the connection breaks before
    anything is committed), so that the handlers' error paths are exercised. *)
From S2P Require Import Prelude Text Json Auth Quota Templates Workspaces Errors ShrinkOperation Database WorkspaceStore JobStore Events WorkspaceActions ShrinkStore.

(** [JobHandlerError]. *)
Inductive JobHandlerError :=
  | HandlerFailed (message : string)
  | HandlerPending (message : string)
  | HandlerPendingWithCheckpoint (message : string) (payload : Value).

Inductive DeleteProgress := DeletionRequested | Terminating | Gone.

Inductive ShrinkPodStage := Preflight | Measure | Copy | Verify.

Record ShrinkUsage := mkUsage { used_bytes : Z; used_inodes : Z }.

(** ** The world outside the database *)

(** The tables that applying a workspace writes. *)
Record AppliedTables := mkApplied {
  ap_ssh_identities : gmap (string * Uuid) SshIdentityRow;
  ap_port_mappings : gmap Uuid PortMappingRow;
  ap_uuid_drawn : nat;
}.
Definition applied_tables (db : Db) : AppliedTables := mkApplied (t_ssh_identities db) (t_port_mappings db) (uuid_drawn db).
Definition set_applied_tables (t : AppliedTables) (db : Db) : Db :=
  set_uuid_drawn (ap_uuid_drawn t) (set_t_port_mappings (ap_port_mappings t) (set_t_ssh_identities (ap_ssh_identities t) db)).

(** The coordinator's methods on a cluster state [K]; the error is the text of
    [safe_error]. [apply_workspace] stands for the part of
    [reconcile_workspace] that materialises injections, the SSH identity, the
    placement and the port mappings and applies the resources. It writes the SSH
    identities and the port mappings, for which it draws identifiers, and no other
    table; its error is already a handler's. *)
Class Coordinator (K : Type) := {
  unix_timestamp : K → result string Z * K;
  database_lost : K → bool * K;
  has_observed_replicas : Workspace → Z → K → result string bool * K;
  recover_scratch_scheduling : Workspace → K → result string () * K;
  delete_stopped_scratch : Workspace → K → result string bool * K;
  delete_or_confirm : Workspace → K → result string DeleteProgress * K;
  delete_workspace_shrink_storage : Workspace → list StorageShrinkOperation → K → result string bool * K;
  apply_workspace : Workspace → AppliedTables → K → result JobHandlerError () * AppliedTables * K;
  reconcile_injections : Workspace → K → result JobHandlerError () * K;
  capture_shrink_cleanup_identities :
    Workspace → StorageShrinkOperation → K → result string () * StorageShrinkOperation * K;
  discover_shrink_sources :
    Workspace → StorageShrinkOperation → K → result string () * StorageShrinkOperation * K;
  shrink_pod : Workspace → StorageShrinkOperation → string → ShrinkPodStage → K →
    result string (option ShrinkUsage) * StorageShrinkOperation * K;
  retain_shrink_sources : Workspace → StorageShrinkOperation → K → result string bool * K;
  stop_for_storage_shrink : Workspace → StorageShrinkOperation → K → result string bool * K;
  create_shrink_destination : Workspace → StorageShrinkOperation → string →
    WorkspaceHomeVolumeBinding → Z → K → result string WorkspaceHomeVolumeBinding * K;
  shrink_volume_identity : Workspace → WorkspaceHomeVolumeBinding → K → result string StorageVolumeIdentity * K;
  remove_shrink_helpers : Workspace → StorageShrinkOperation → K → result string bool * K;
  reclaim_shrink_sources : Workspace → StorageShrinkOperation → K → result string bool * K;
}.

(** [StorageError]'s [Display], generated by [thiserror]. *)
Class StorageErrorText := storage_error_to_string : StorageError.t → string.

(** What a handler works on: the database and the cluster. *)
Record World (K : Type) := mkWorld { w_db : Db; w_k : K }.
Arguments mkWorld {K} _ _.
Arguments w_db {K} _.
Arguments w_k {K} _.

(** ** The handler monad: state and [JobHandlerError] *)
Definition HM (S A : Type) : Type := S → result JobHandlerError A * S.

#[global] Instance hm_ret S : MRet (HM S) := λ A a s, (Ok a, s).
#[global] Instance hm_bind S : MBind (HM S) := λ A B k m s,
  match m s with
  | (Ok a, s') => k a s'
  | (Err e, s') => (Err e, s')
  end.

(** Go through a program, statement by statement: [bind] splits a sequence,
    [close] proves a single statement. *)
Create HintDb keeps discriminated.
Ltac walk bind close :=
  lazymatch goal with
  | |- _ (_ ≫= _) => bind; [walk bind close|intros ?; walk bind close]
  | |- _ (match ?x with _ => _ end) => destruct x; walk bind close
  | |- _ => close
  end.

Definition give {S A} (r : result JobHandlerError A) : HM S A := λ s, (r, s).
Definition throw {S A} (e : JobHandlerError) : HM S A := λ s, (Err e, s).

Lemma hm_bind_run {S A B} (m : HM S A) (k : A → HM S B) s :
  (m ≫= k) s = match m s with (Ok a, s') => k a s' | (Err e, s') => (Err e, s') end.
Proof. done. Qed.

Section Reconcile.
Context {K : Type} `{Coordinator K} `{UuidText} `{SqlBackend} `{StorageErrorText}.

(** [.map_err(job_error)]. *)
Definition job_error {A} (r : result string A) : result JobHandlerError A := map_err HandlerFailed r.
(** [.map_err(|error| JobHandlerError::Pending(error.to_string()))]. *)
Definition pending_error {A} (r : result string A) : result JobHandlerError A := map_err HandlerPending r.

(** A database call; a lost one has no effect and reports [StorageError::Database]. *)
Definition db_try {A} (m : DbM A) : HM (World K) (result StorageError.t A) := λ w,
  match database_lost (w_k w) with
  | (true, k) => (Ok (Err StorageError.Database), mkWorld (w_db w) k)
  | (false, k) => let '(r, db) := m (w_db w) in (Ok r, mkWorld db k)
  end.

(** [call.await.map_err(job_error)?]. *)
Definition db_call {A} (m : DbM A) : HM (World K) A :=
  r ← db_try m;
  give (map_err (λ e, HandlerFailed (storage_error_to_string e)) r).

Definition cluster {A B} (f : result B A → result JobHandlerError A) (m : K → result B A * K)
    : HM (World K) A := λ w,
  let '(r, k) := m (w_k w) in (f r, mkWorld (w_db w) k).

Definition apply_resources (w : Workspace) : HM (World K) () := λ world,
  let '(r, tables, k) := apply_workspace w (applied_tables (w_db world)) (w_k world) in
  (r, mkWorld (set_applied_tables tables (w_db world)) k).

(** ** Observations *)
Definition record_observation (inst : string) (w : Workspace) (o : WorkspaceObservation)
    : HM (World K) () :=
  now ← cluster job_error unix_timestamp;
  _ ← db_call (record_workspace_observation inst (ws_id w) (ws_generation w) o (ws_owner_id w) now);
  mret ().

(** The caller has excluded [Deleting] and [Deleted], marked [unreachable!]. *)
Definition observe_workspace (inst : string) (w : Workspace) : HM (World K) () :=
  match ws_state w with
  | Provisioning | Starting | Restarting =>
      observed ← cluster job_error (has_observed_replicas w 1);
      if negb observed
      then _ ← cluster pending_error (recover_scratch_scheduling w);
           throw (HandlerPending "workspace StatefulSet is not ready yet")
      else record_observation inst w ObsReady
  | Ready =>
      observed ← cluster pending_error (has_observed_replicas w 1);
      if negb observed
      then _ ← record_observation inst w ObsNotReady;
           _ ← cluster pending_error (recover_scratch_scheduling w);
           throw (HandlerPending "workspace Pod is recovering readiness")
      else mret ()
  | Stopping =>
      observed ← cluster job_error (has_observed_replicas w 0);
      if negb observed
      then throw (HandlerPending "workspace StatefulSet has not scaled to zero yet")
      else
        removed ← cluster job_error (delete_stopped_scratch w);
        if negb removed
        then throw (HandlerPending "waiting for temporary scratch PVC removal")
        else record_observation inst w ObsStopped
  | Stopped | Failed | Deleting | Deleted => mret ()
  end.

(** ** Checkpoints *)
Definition startup_checkpoint_matches (w : Workspace) (job : ClaimedJob) (now : Z) : bool :=
  match ws_state w with Provisioning | Starting | Restarting | Stopping => true | _ => false end
  && bool_decide (get_u64 (cj_payload job) "reconciled_generation" = Some (ws_generation w))
  && is_some_and (get_i64 (cj_payload job) "reconciled_at")
       (λ at_, (0 <=? saturating_sub_i64 now at_) && (saturating_sub_i64 now at_ <? 60)).

Definition checkpoint_payload (job : ClaimedJob) (w : Workspace) (reconciled_at : option Z) : Value :=
  let payload := remove_key (cj_payload job) "runtime_wait" in
  match reconciled_at with
  | Some at_ => set_key (set_key payload "reconciled_generation" (Number (ws_generation w)))
                  "reconciled_at" (Number at_)
  | None => payload
  end.

Definition checkpoint_error (error : JobHandlerError) (job : ClaimedJob) (w : Workspace)
    (reconciled_at : option Z) : JobHandlerError :=
  match error with
  | HandlerPending message =>
      HandlerPendingWithCheckpoint message (checkpoint_payload job w reconciled_at)
  | _ => error
  end.

(** [m.await.map_err(f)]. *)
Definition map_error {A} (f : JobHandlerError → JobHandlerError) (m : HM (World K) A) : HM (World K) A :=
  λ w, let '(r, w') := m w in (map_err f r, w').

(** ** Deletion *)
Fixpoint capture_all (inst : string) (w : Workspace) (operations : list StorageShrinkOperation)
    : HM (World K) (list StorageShrinkOperation) :=
  match operations with
  | [] => mret []
  | operation :: rest =>
      operation ← cluster id (λ k,
        let '(r, op, k') := capture_shrink_cleanup_identities w operation k in
        (job_error ((λ _, op) <$> r), k'));
      _ ← db_call (save_storage_shrink_cleanup_identity inst operation);
      rest ← capture_all inst w rest;
      mret (operation :: rest)
  end.

Definition reconcile_deletion (inst : string) (w : Workspace) : HM (World K) () :=
  operations ← db_call (list_storage_shrinks inst (ws_id w));
  operations ← capture_all inst w operations;
  progress ← cluster job_error (delete_or_confirm w);
  match progress with
  | Gone =>
      removed ← cluster job_error (delete_workspace_shrink_storage w operations);
      if negb removed
      then throw (HandlerPending "waiting for storage-shrink bindings and backups to be deleted")
      else record_observation inst w ObsDeleted
  | DeletionRequested | Terminating =>
      throw (HandlerPending "workspace namespace deletion is still in progress")
  end.

(** ** Reconciliation *)
Definition demote_failure (error : JobHandlerError) : JobHandlerError :=
  match error with HandlerFailed message => HandlerPending message | _ => error end.

Definition reconcile_workspace (inst : string) (w : Workspace) (job : ClaimedJob) : HM (World K) () :=
  if bool_decide (get_bool (cj_payload job) "runtime_observation" = Some true) then
    if negb (bool_decide (get_u64 (cj_payload job) "generation" = Some (ws_generation w)))
       || negb (bool_decide (ws_state w = Ready ∨ ws_state w = Starting))
    then mret ()
    else
      now ← cluster job_error unix_timestamp;
      map_error (λ e, checkpoint_error (demote_failure e) job w (Some now)) (observe_workspace inst w)
  else if bool_decide (ws_state w = Deleted) then mret ()
  else if bool_decide (ws_state w = Deleting) then reconcile_deletion inst w
  else
    now ← cluster job_error unix_timestamp;
    if startup_checkpoint_matches w job now
    then map_error (λ e, checkpoint_error e job w None) (observe_workspace inst w)
    else
      _ ← apply_resources w;
      reconciled_at ← cluster job_error unix_timestamp;
      map_error (λ e, checkpoint_error e job w (Some reconciled_at)) (observe_workspace inst w).

(** [handle], for jobs of kind [reconcile_workspace]. *)
Definition handle_reconcile (inst : string) (job : ClaimedJob) : HM (World K) () :=
  match cj_workspace_id job with
  | None => throw (HandlerFailed "workspace job has no workspace id")
  | Some workspace_id =>
      found ← db_try (get_workspace inst workspace_id);
      match found with
      | Err StorageError.WorkspaceNotFound => mret ()
      | Err e => throw (HandlerFailed (storage_error_to_string e))
      | Ok workspace =>
          active ← db_call (storage_shrink_active inst workspace_id);
          if (active : bool) then mret ()
          else if bool_decide (get_str (cj_payload job) "reason" = Some "injection_changed")
          then if bool_decide (ws_state workspace = Deleting ∨ ws_state workspace = Deleted)
               then mret () else cluster id (reconcile_injections workspace)
          else reconcile_workspace inst workspace job
      end
  end.

(** [on_terminal_failure], for jobs of kind [reconcile_workspace]. *)
Definition reconcile_terminal_failure (inst : string) (job : ClaimedJob) (now : Z) : DbM () :=
  if bool_decide (get_str (cj_payload job) "reason" = Some "injection_changed")
     || bool_decide (get_bool (cj_payload job) "runtime_observation" = Some true)
  then mret ()
  else match cj_workspace_id job, get_u64 (cj_payload job) "generation" with
       | Some workspace_id, Some expected_generation =>
           _ ← mark_workspace_failed_if_generation inst workspace_id expected_generation now;
           mret ()
       | _, _ => mret ()
       end.

(** ** Lemmas *)

(** [HPreserves R m]: running [m] relates the databases before and after by [R],
    whatever the cluster does. *)
Class HPreserves {A} (R : relation Db) (m : HM (World K) A) : Prop :=
  hpreserves w r w' : m w = (r, w') → R (w_db w) (w_db w').

Section HPreserves.
Context (R : relation Db) `{!TableRelation R}.

#[global] Instance hpreserves_ret {A} (a : A) : HPreserves R (mret a).
Proof using Type*. intros ??? [= <- <-]. reflexivity. Qed.
#[global] Instance hpreserves_throw {A} e : HPreserves R (throw (A:=A) e).
Proof using Type*. intros ??? [= <- <-]. reflexivity. Qed.
#[global] Instance hpreserves_cluster {A B} f (m : K → result B A * K) : HPreserves R (cluster f m).
Proof using Type*. intros w ??. unfold cluster. destruct (m (w_k w)). intros [= <- <-]. reflexivity. Qed.
#[global] Instance hpreserves_db_try {A} (m : DbM A) : Preserves R m → HPreserves R (db_try m).
Proof using Type*.
  intros Hm w ??. unfold db_try. destruct (database_lost (w_k w)) as [[] k]; [intros [= <- <-]; reflexivity|].
  destruct (m (w_db w)) eqn:E. intros [= <- <-]. by eapply Hm.
Qed.
#[global] Instance hpreserves_map_error {A} f (m : HM (World K) A) : HPreserves R m → HPreserves R (map_error f m).
Proof using Type*.
  intros Hm w ??. unfold map_error. destruct (m w) eqn:E. intros [= <- <-]. by eapply Hm.
Qed.
#[global] Instance hpreserves_bind {A B} (m : HM (World K) A) (k : A → HM (World K) B) :
  HPreserves R m → (∀ a, HPreserves R (k a)) → HPreserves R (m ≫= k).
Proof using Type*.
  intros Hm Hk w r w'. rewrite hm_bind_run. destruct (m w) as [[a|e] w1] eqn:E.
  - intros Hrun. transitivity (w_db w1); [by eapply Hm|by eapply Hk].
  - intros [= <- <-]. by eapply Hm.
Qed.
#[global] Instance hpreserves_db_call {A} (m : DbM A) : Preserves R m → HPreserves R (db_call m).
Proof using Type*.
  intros Hm. unfold db_call. apply hpreserves_bind; [apply _|]. intros r ??? [= <- <-]. reflexivity.
Qed.
#[global] Instance hpreserves_if {A} (b : bool) (m n : HM (World K) A) :
  HPreserves R m → HPreserves R n → HPreserves R (if b then m else n).
Proof using Type*. by destruct b. Qed.
End HPreserves.

(** A workspace is never created or started by the step, and keeps its generation. *)
Definition keeps_intent (db db' : Db) : Prop :=
  ∀ id row', t_workspaces db' !! id = Some row' →
    ∃ row, t_workspaces db !! id = Some row ∧ (run_intent (wr_state row') = true → run_intent (wr_state row) = true)
      ∧ wr_generation row' = wr_generation row.

#[global] Instance keeps_intent_relation : TableRelation keeps_intent.
Proof.
  split; [split|]; [intros db id row' ?; eauto| |intros n db id row' ?; eauto].
  intros x y z Hxy Hyz id row'' Hz. destruct (Hyz _ _ Hz) as (row' & Hy & Hi & Hg).
  destruct (Hxy _ _ Hy) as (row & Hx & Hi' & Hg'). exists row. split_and!; [done|auto|congruence].
Qed.

Lemma frames_keeps_intent {A} (m : DbM A) : Preserves (frames t_workspaces) m → Preserves keeps_intent m.
Proof. intros Hm db r db' Hrun id row' Hrow. rewrite (Hm _ _ _ Hrun) in Hrow. eauto. Qed.

Lemma observe_intent s o s' : observe s o = Ok s' → run_intent s' = true → run_intent s = true.
Proof. by destruct s, o; intros [= <-]. Qed.

Lemma apply_observation_keeps_intent inst w o actor now db w' db' :
  apply_transition inst w (Observation o) actor now db = (Ok w', db') → keeps_intent db db'.
Proof.
  intros (row & s & Hrow & Hs & Hws)%apply_transition_table k row1. rewrite Hws.
  destruct (confirms_deletion _).
  - rewrite lookup_delete_Some. intros [_ ?]. eauto.
  - rewrite lookup_insert_Some. intros [[<- <-]|[_ ?]]; [|eauto]. exists row. split_and!; [done| |cbn; lia].
    cbn in *. destruct (observe (wr_state row) o) eqn:E; simplify_eq/=. by eapply observe_intent.
Qed.

Lemma record_keeps_intent inst id g o actor now :
  Preserves keeps_intent (record_workspace_observation inst id g o actor now).
Proof.
  intros db r db' Hrun. destruct r as [[w|]|e].
  - apply transition_workspace_Ok in Hrun as (row & w0 & _ & _ & _ & _ & Ha).
    by eapply apply_observation_keeps_intent.
  - revert Hrun. apply (transaction_inv (keeps_intent db)); [done|reflexivity|]. intros a db1.
    rewrite bind_run, select_workspace_run.
    destruct (match t_workspaces db !! id with Some _ => _ | None => _ end) as [row|].
    + rewrite bind_run; cbn -[apply_transition]. destruct (decode_workspace id row); [|done].
      destruct (negb _); [intros [= <- <-]; reflexivity|].
      intros (w' & db2 & Ha & [= <- <-])%bind_run_Ok. by eapply apply_observation_keeps_intent.
    + intros [= <- <-]. reflexivity.
  - apply transaction_Err in Hrun. intros k row' Hk.
    apply (f_equal t_workspaces) in Hrun. cbn in Hrun. rewrite <-Hrun. eauto.
Qed.
#[local] Existing Instance record_keeps_intent.

#[global] Instance cleanup_keeps_intent inst op :
  Preserves keeps_intent (save_storage_shrink_cleanup_identity inst op).
Proof.
  apply frames_keeps_intent. unfold save_storage_shrink_cleanup_identity, storage_backend, select_workspace.
  apply preserves_transaction; [apply _|]. apply preserves_bind; [apply _| |intros [w d]].
  - apply preserves_bind; [apply _..|intros [row|]]; apply _.
  - do 2 (apply preserves_bind; [apply _..|intros ?]).
    match goal with |- Preserves _ (match ?x with _ => _ end) => destruct x end; unfold update_shrink; apply _.
Qed.

(** The reconciler preserves what observations, clean-ups and the SSH identities
    preserve. *)
Section ReconcilePreserves.
Context (R : relation Db) `{!TableRelation R} (inst : string).
Hypothesis record_preserves : ∀ id g o actor now,
  Preserves R (record_workspace_observation inst id g o actor now).
Hypothesis cleanup_preserves : ∀ op, Preserves R (save_storage_shrink_cleanup_identity inst op).
Hypothesis applied_preserves : ∀ tables db, R db (set_applied_tables tables db).
#[local] Existing Instance record_preserves.
#[local] Existing Instance cleanup_preserves.

#[local] Instance capture_all_preserves w ops : HPreserves R (capture_all inst w ops).
Proof using Type*. induction ops; cbn; apply _. Qed.

#[local] Instance apply_resources_preserves w : HPreserves R (apply_resources w).
Proof using Type*.
  intros world r world'. unfold apply_resources. destruct (apply_workspace _ _ _) as [[r1 ids] k].
  intros [= <- <-]. apply applied_preserves.
Qed.

#[local] Instance observe_preserves w : HPreserves R (observe_workspace inst w).
Proof using Type*. unfold observe_workspace, record_observation. destruct (ws_state w); apply _. Qed.

#[local] Instance deletion_preserves w : HPreserves R (reconcile_deletion inst w).
Proof using Type*.
  unfold reconcile_deletion, record_observation, list_storage_shrinks.
  do 3 (apply hpreserves_bind; [apply _..|intros ?]).
  match goal with |- HPreserves _ (match ?x with _ => _ end) => destruct x end; apply _.
Qed.

Lemma reconcile_workspace_preserves w job : HPreserves R (reconcile_workspace inst w job).
Proof using Type*. unfold reconcile_workspace. apply _. Qed.
End ReconcilePreserves.

#[global] Instance reconcile_workspace_keeps_intent inst w job :
  HPreserves keeps_intent (reconcile_workspace inst w job).
Proof. apply reconcile_workspace_preserves; [apply _..|]. intros ids db id row'. eauto. Qed.

(** The reconciler only reports: whatever the cluster answers and however the
    run ends, no workspace that was not meant to run becomes one that is, no row
    is created, and no generation changes. *)
Theorem reconcile_keeps_intent inst job w r w' :
  handle_reconcile inst job w = (r, w') → keeps_intent (w_db w) (w_db w').
Proof.
  revert w r w'. change (HPreserves keeps_intent (handle_reconcile inst job)).
  unfold handle_reconcile. destruct (cj_workspace_id job) as [id|]; [|apply _].
  unfold get_workspace, select_workspace. apply hpreserves_bind; [apply _| |intros [workspace|[]]]; try apply _.
  apply hpreserves_db_try, preserves_bind; [apply _..|intros [row|]; apply _].
Qed.

Lemma db_try_run {A} (m : DbM A) w r db :
  (∀ k, database_lost k = (false, k)) → m (w_db w) = (r, db) → db = w_db w → db_try m w = (Ok r, w).
Proof. intros Hdb Hm ->. unfold db_try. rewrite Hdb, Hm. by destruct w. Qed.

(** While a storage operation holds the workspace, and for a watch hint about
    an older generation, a reconciliation does nothing at all: it succeeds
    without touching the database or the cluster. *)
Theorem reconcile_stands_back inst job id w workspace :
  (∀ k, database_lost k = (false, k)) →
  cj_workspace_id job = Some id → get_workspace inst id (w_db w) = (Ok workspace, w_db w) →
  (¬ no_active_shrink inst id (w_db w)) ∨
  (get_bool (cj_payload job) "runtime_observation" = Some true ∧ get_str (cj_payload job) "reason" = None ∧
   get_u64 (cj_payload job) "generation" ≠ Some (ws_generation workspace)) →
  handle_reconcile inst job w = (Ok (), w).
Proof.
  intros Hdb Hid Hget Hcase. unfold handle_reconcile. rewrite Hid.
  erewrite hm_bind_run, (db_try_run _ _ _ _ Hdb Hget) by done.
  rewrite hm_bind_run. unfold db_call. rewrite hm_bind_run.
  unfold storage_shrink_active. erewrite db_try_run by (done || reflexivity).
  cbn. destruct (Z.eqb_spec (count_active inst id (w_db w)) 0) as [Hz|]; [|done]. cbn.
  destruct Hcase as [Hact|(Hobs & Hreason & Hgen)].
  { destruct Hact. exact (proj1 (count_active_zero _ _ _) Hz). }
  rewrite Hreason. rewrite bool_decide_false by done.
  unfold reconcile_workspace. rewrite bool_decide_true by done. by rewrite bool_decide_false.
Qed.

(** Reading a checkpoint back. *)
Lemma checkpoint_payload_get job w at_ m :
  cj_payload job = Object m →
  get (checkpoint_payload job w (Some at_)) "reconciled_generation" = Some (Number (ws_generation w)) ∧
  get (checkpoint_payload job w (Some at_)) "reconciled_at" = Some (Number at_) ∧
  get (checkpoint_payload job w (Some at_)) "runtime_wait" = None.
Proof.
  intros Hm. unfold checkpoint_payload. rewrite Hm. cbn. split_and!.
  - rewrite map_get_insert_ne, map_get_insert_eq; done.
  - by rewrite map_get_insert_eq.
  - rewrite !map_get_insert_ne by done. apply map_get_remove_eq.
Qed.

(** A checkpoint round-trips: after the resources were applied at [at_], the
    parked payload makes a later run of the job only look at the cluster for
    sixty seconds, exactly as long as the workspace keeps its generation and is
    still in transition; from then on the resources are applied again. *)
Theorem checkpoint_roundtrip job w at_ m job' w' now :
  cj_payload job = Object m → 0 <= ws_generation w <= u64_max → 0 <= at_ <= i64_max → 0 <= now <= i64_max →
  cj_payload job' = checkpoint_payload job w (Some at_) →
  startup_checkpoint_matches w' job' now = true ↔
  match ws_state w' with Provisioning | Starting | Restarting | Stopping => true | _ => false end = true ∧
  ws_generation w' = ws_generation w ∧ at_ <= now < at_ + 60.
Proof.
  intros Hm Hg Hat Hnow Hp.
  destruct (checkpoint_payload_get job w at_ m Hm) as (Hgen & Hrec & _). rewrite <-Hp in Hgen, Hrec.
  unfold startup_checkpoint_matches, get_u64, get_i64. rewrite Hgen, Hrec. cbn.
  assert (u64_try_from (ws_generation w) = Some (ws_generation w)) as ->
    by (apply guard_range_Some; unfold in_u64; bool_prop; lia).
  assert (i64_try_from at_ = Some at_) as ->
    by (apply guard_range_Some; unfold in_i64, i64_min; bool_prop; lia).
  assert (saturating_sub_i64 now at_ = now - at_) as Hsub.
  { unfold saturating_sub_i64, clamp_i64, i64_min, i64_max in *. lia. }
  cbn. rewrite Hsub, !andb_true_iff, bool_decide_eq_true, Z.leb_le, Z.ltb_lt.
  split; [intros [[? ?] ?]; simplify_eq; split_and!; [done|done|lia..]|].
  intros (? & -> & ? & ?). split_and!; [done|done|lia..].
Qed.
End Reconcile.

(** ** Witnesses *)
Module QuietCluster.
(** A cluster without state on which nothing becomes ready. *)
Definition coordinator : Coordinator () := {|
  unix_timestamp k := (Ok 200, k);
  database_lost k := (false, k);
  has_observed_replicas _ _ k := (Ok false, k);
  recover_scratch_scheduling _ k := (Ok (), k);
  delete_stopped_scratch _ k := (Ok false, k);
  delete_or_confirm _ k := (Ok Terminating, k);
  delete_workspace_shrink_storage _ _ k := (Ok false, k);
  apply_workspace _ ids k := (Ok (), ids, k);
  reconcile_injections _ k := (Ok (), k);
  capture_shrink_cleanup_identities _ op k := (Ok (), op, k);
  discover_shrink_sources _ op k := (Ok (), op, k);
  shrink_pod _ op _ _ k := (Ok None, op, k);
  retain_shrink_sources _ _ k := (Ok false, k);
  stop_for_storage_shrink _ _ k := (Ok false, k);
  create_shrink_destination _ _ _ _ _ k := (Err "no storage", k);
  shrink_volume_identity _ _ k := (Err "no volume", k);
  remove_shrink_helpers _ _ k := (Ok false, k);
  reclaim_shrink_sources _ _ k := (Ok false, k);
|}.
Definition error_text : StorageErrorText := λ _, "storage error".
Definition job (payload : Value) : ClaimedJob :=
  mkClaimedJob 11 "reconcile_workspace" (Some ActionSample.id) payload 1 260.
End QuietCluster.

Lemma reconcile_keeps_intent_witness :
  let _ := decimal_uuid_text in let _ : SqlBackend := Sqlite in
  let _ := QuietCluster.coordinator in let _ := QuietCluster.error_text in
  ∃ r w', handle_reconcile "inst" (QuietCluster.job (Object [])) (mkWorld ActionSample.db ()) = (r, w') ∧
    keeps_intent ActionSample.db (w_db w').
Proof.
  intros U B C T. eexists _, _. split; [vm_compute; reflexivity|].
  eapply (@reconcile_keeps_intent () C U B T "inst" (QuietCluster.job (Object [])) (mkWorld ActionSample.db ())).
  vm_compute; reflexivity.
Defined.

Lemma reconcile_stands_back_witness :
  let _ := decimal_uuid_text in let _ : SqlBackend := Sqlite in
  let _ := QuietCluster.coordinator in let _ := QuietCluster.error_text in
  let payload := json_object [("generation", Number 6); ("runtime_observation", Bool true)] in
  handle_reconcile "inst" (QuietCluster.job payload) (mkWorld ActionSample.db ())
    = (Ok (), mkWorld ActionSample.db ()).
Proof.
  intros U B C T payload.
  eapply (@reconcile_stands_back () C U B T "inst" (QuietCluster.job payload) ActionSample.id
            (mkWorld ActionSample.db ())); [reflexivity|reflexivity|vm_compute; reflexivity|].
  right. split_and!; [reflexivity|reflexivity|vm_compute; congruence].
Defined.

Lemma checkpoint_roundtrip_witness :
  let w := set_state Starting Sample.workspace in
  let payload := checkpoint_payload (QuietCluster.job (Object [])) w (Some 100) in
  startup_checkpoint_matches w (QuietCluster.job payload) 159 = true.
Proof.
  intros w payload. eapply (checkpoint_roundtrip (QuietCluster.job (Object [])) w 100 []);
    [reflexivity|vm_compute; split; discriminate|vm_compute; split; discriminate|vm_compute; split; discriminate
    |reflexivity|].
  split_and!; [reflexivity|reflexivity|lia..].
Defined.
