(* ===== verification/ShrinkHandler.v ===== *)
(** * Driving a storage shrink ([src/jobs/storage_shrink.rs])

    One run of the job moves a shrink operation by at most one durable phase:
    the operation in memory is changed, saved through [save_storage_shrink] and
    the job asks to be run again. A failure before the volumes were touched ends
    the operation; a later one stops the workspace and rolls back. *)
From stdpp Require Import pretty.
From S2P Require Import Prelude Text Json Auth Quota Templates Workspaces Errors ShrinkOperation Database WorkspaceStore JobStore Events WorkspaceActions ShrinkStore Reconcile.

Section ShrinkHandler.
Context {K : Type} `{Coordinator K} `{UuidText} `{SqlBackend} `{StorageErrorText}.
Context (inst : string).

(** The mutable operation and the world. *)
Definition ShrinkState : Type := StorageShrinkOperation * World K.

Definition operation : HM ShrinkState StorageShrinkOperation := λ s, (Ok s.1, s).
Definition assign (f : StorageShrinkOperation → StorageShrinkOperation) : HM ShrinkState () :=
  λ s, (Ok (), (f s.1, s.2)).
Definition in_world {A} (m : HM (World K) A) : HM ShrinkState A := λ s,
  let '(r, w) := m s.2 in (r, (s.1, w)).

(** A coordinator method that is given the operation, by value or [&mut]. *)
Definition ask {A} (m : StorageShrinkOperation → K → result string A * K) : HM ShrinkState A := λ s,
  let '(r, k) := m s.1 (w_k s.2) in (job_error r, (s.1, mkWorld (w_db s.2) k)).
Definition ask_mut {A} (m : StorageShrinkOperation → K → result string A * StorageShrinkOperation * K)
    : HM ShrinkState (result string A) := λ s,
  let '(r, op, k) := m s.1 (w_k s.2) in (Ok r, (op, mkWorld (w_db s.2) k)).
Definition checked {A} (r : result string A) : HM ShrinkState A := λ s, (job_error r, s).

(** [self.database.save_storage_shrink(operation, update).await.map_err(job_error)?]. *)
Definition save (update : ShrinkWorkspaceUpdate) : HM ShrinkState () :=
  op ← operation; in_world (db_call (save_storage_shrink inst op update)).

Definition pending {A} (message : string) : HM ShrinkState A := throw (HandlerPending message).

Definition advanced : HM ShrinkState () :=
  pending "storage migration advanced to its next durable phase".

(** [operation.phase = phase; operation.updated_at = now]. *)
Definition enter (phase : StorageShrinkPhase) (now : Z) : HM ShrinkState () :=
  assign (λ op, set_op_updated_at now (set_op_phase phase op)).
Definition touch (now : Z) : HM ShrinkState () := assign (set_op_updated_at now).

(** [volume] and [volume_mut]. *)
Definition volume (op : StorageShrinkOperation) (role : string) : StorageShrinkVolume :=
  if String.eqb role "home" then op_home op else op_temporary op.
Definition set_volume (role : string) (f : StorageShrinkVolume → StorageShrinkVolume)
    (op : StorageShrinkOperation) : StorageShrinkOperation :=
  if String.eqb role "home" then set_op_home (f (op_home op)) op
  else set_op_temporary (f (op_temporary op)) op.

Definition run_shrink_pod (w : Workspace) (role : string) (stage : ShrinkPodStage) (now : Z)
    : HM ShrinkState (option ShrinkUsage) :=
  before ← operation;
  result ← ask_mut (λ op, shrink_pod w op role stage);
  after ← operation;
  _ ← if bool_decide (op_helper_pod_uids before = op_helper_pod_uids after) then mret ()
      else (_ ← touch now; save UpdNone);
  checked result.

(** ** The phases *)
Definition advance_queued (w : Workspace) (now : Z) : HM ShrinkState () :=
  result ← ask_mut (discover_shrink_sources w);
  _ ← checked result;
  _ ← save UpdNone;
  usage ← run_shrink_pod w "home" Preflight now;
  if negb (is_some usage) then pending "checking migration tools before stopping the workspace"
  else
    retained ← ask (retain_shrink_sources w);
    if negb retained
    then pending "waiting for the StatefulSet controller to observe Retain before removing GC owners"
    else _ ← enter PhStopping now; _ ← save UpdStopping; advanced.

Definition advance_stopping (w : Workspace) (now : Z) : HM ShrinkState () :=
  stopped ← ask (stop_for_storage_shrink w);
  if negb stopped then pending "waiting for workspace Pod termination and volume exclusivity"
  else _ ← enter PhMeasuring now; _ ← save UpdStopped; advanced.

(** One round of the first loop of [advance_measuring]. *)
Definition measure_role (w : Workspace) (now : Z) (role : string) : HM ShrinkState () :=
  op ← operation;
  if negb (is_some (sv_target_gib (volume op role))) || is_some (sv_used_bytes (volume op role))
  then mret ()
  else
    usage ← run_shrink_pod w role Measure now;
    match usage with
    | None => pending "measuring offline storage usage"
    | Some usage =>
        _ ← assign (set_volume role (λ v,
              set_sv_used_inodes (Some (used_inodes usage)) (set_sv_used_bytes (Some (used_bytes usage)) v)));
        op ← operation;
        _ ← if is_none_or (sv_target_gib (volume op role) ≫= λ target, checked_mul_u64 target GIB)
                 (λ bytes, bytes <=? used_bytes usage)
            then throw (HandlerFailed (role +:+ " target must be strictly larger than offline used bytes ("
                                        +:+ pretty (used_bytes usage) +:+ ")"))
            else mret ();
        _ ← touch now;
        save UpdNone
    end.

(** One round of the second loop. *)
Definition destination_role (w : Workspace) (role : string) : HM ShrinkState () :=
  op ← operation;
  match sv_target_gib (volume op role), sv_destination (volume op role) with
  | Some target, None =>
      source ← checked (ok_or (sv_source (volume op role)) "source claim is missing");
      destination ← ask (λ op, create_shrink_destination w op role source target);
      assign (set_volume role (set_sv_destination (Some destination)))
  | _, _ => mret ()
  end.

Definition advance_measuring (w : Workspace) (now : Z) : HM ShrinkState () :=
  _ ← measure_role w now "home";
  _ ← measure_role w now "temporary";
  _ ← destination_role w "home";
  _ ← destination_role w "temporary";
  _ ← enter PhCopying now;
  _ ← save UpdNone;
  advanced.

(** One round of the loop of [advance_copying_or_verifying]. *)
Definition copy_role (w : Workspace) (now : Z) (stage : ShrinkPodStage) (role : string) : HM ShrinkState () :=
  op ← operation;
  if negb (is_some (sv_target_gib (volume op role))) then mret ()
  else
    usage ← run_shrink_pod w role stage now;
    match usage with
    | None => pending "offline copy/checksum verification is running"
    | Some usage =>
        op ← operation;
        _ ← if negb (bool_decide (sv_used_bytes (volume op role) = Some (used_bytes usage)))
               || negb (bool_decide (sv_used_inodes (volume op role) = Some (used_inodes usage)))
            then throw (HandlerFailed "source usage changed while the workspace was offline")
            else mret ();
        if bool_decide (op_phase op = PhVerifying) then
          destination ← checked (ok_or (sv_destination (volume op role)) "destination binding is missing");
          identity ← ask (λ _, shrink_volume_identity w destination);
          assign (set_volume role (λ v, set_sv_verified true (set_sv_destination_volume (Some identity) v)))
        else mret ()
    end.

Definition advance_copying_or_verifying (w : Workspace) (now : Z) : HM ShrinkState () :=
  op ← operation;
  let stage := if bool_decide (op_phase op = PhCopying) then Copy else Verify in
  _ ← copy_role w now stage "home";
  _ ← copy_role w now stage "temporary";
  op ← operation;
  _ ← enter (if bool_decide (op_phase op = PhCopying) then PhVerifying else PhSwitching) now;
  _ ← save UpdNone;
  advanced.

Definition advance_switching (w : Workspace) (now : Z) : HM ShrinkState () :=
  removed ← ask (remove_shrink_helpers w);
  if negb removed then pending "unmounting copy/verification Pods before the atomic binding exchange"
  else
    stopped ← ask (stop_for_storage_shrink w);
    if negb stopped then pending "waiting for exclusive offline claims before switching"
    else
      _ ← assign (set_op_switched true);
      _ ← enter PhResuming now;
      _ ← save UpdSwitch;
      advanced.

(** The workspace is recovered; finish or go on to reclaim the sources. *)
Definition finish_resuming (now : Z) : HM ShrinkState () :=
  _ ← assign (λ op, set_op_reclaimable true (set_op_phase PhCompleted op));
  op ← operation;
  _ ← if sr_reclaim_source (op_request op) then assign (set_op_phase PhReclaiming) else mret ();
  _ ← touch now;
  _ ← save UpdNone;
  op ← operation;
  if bool_decide (op_phase op = PhReclaiming)
  then pending "recovered workspace is ready; reclaiming sources under the original explicit consent"
  else mret ().

Definition advance_resuming (w : Workspace) (job : ClaimedJob) (now : Z) : HM ShrinkState () :=
  op ← operation;
  if op_resume op then
    if bool_decide (ws_state w = Stopped) then
      _ ← touch now;
      _ ← save UpdResume;
      pending "starting workspace with verified replacement volumes"
    else if negb (bool_decide (ws_state w = Ready)) then
      _ ← in_world (reconcile_workspace inst w job);
      pending "waiting for workspace recovery readiness"
    else finish_resuming now
  else
    _ ← in_world (reconcile_workspace inst w job);
    finish_resuming now.

Definition advance_rolling_back (w : Workspace) (now : Z) : HM ShrinkState () :=
  removed ← ask (remove_shrink_helpers w);
  if negb removed then pending "removing migration Pods before recovery"
  else
    stopped ← ask (stop_for_storage_shrink w);
    if negb stopped
    then pending "waiting for offline recovery; source and destination claims are retained"
    else
      _ ← enter PhFailed now;
      op ← operation;
      save (if op_switched op then UpdStopped else UpdRollback).

Definition advance_reclaiming (w : Workspace) (now : Z) : HM ShrinkState () :=
  op ← operation;
  if op_resume op && negb (bool_decide (ws_state w = Ready))
  then throw (HandlerFailed "workspace must be Ready before confirmed source reclamation")
  else
    reclaimed ← ask (reclaim_shrink_sources w);
    if negb reclaimed then pending "waiting for UID-verified source PVC reclamation"
    else
      _ ← assign (λ op, set_op_reclaimable false (set_op_sources_retained false (set_op_phase PhReclaimed op)));
      _ ← touch now;
      save UpdNone.

Definition advance_storage_shrink (w : Workspace) (job : ClaimedJob) (now : Z) : HM ShrinkState () :=
  op ← operation;
  match op_phase op with
  | PhQueued => advance_queued w now
  | PhStopping => advance_stopping w now
  | PhMeasuring => advance_measuring w now
  | PhCopying | PhVerifying => advance_copying_or_verifying w now
  | PhSwitching => advance_switching w now
  | PhResuming => advance_resuming w job now
  | PhRollingBack => advance_rolling_back w now
  | PhReclaiming => advance_reclaiming w now
  | PhCompleted | PhFailed | PhReclaimed => mret ()
  end.

Definition finish_preflight_failure (w : Workspace) (now : Z) : HM ShrinkState () :=
  removed ← ask (remove_shrink_helpers w);
  if negb removed then pending "cleaning preflight helpers; the workspace remains in its original state"
  else _ ← enter PhFailed now; save UpdNone.

(** ** The handler *)

(** [handle_storage_shrink] once the operation and the workspace are read. *)
Definition run_phase (w : Workspace) (job : ClaimedJob) (now : Z) : HM ShrinkState () :=
  op ← operation;
  if bool_decide (op_phase op = PhQueued) && is_some (op_error op)
  then finish_preflight_failure w now
  else λ s,
    let '(result, s') :=
      (if (86400 <? saturating_sub_i64 now (op_updated_at op)) && negb (bool_decide (op_phase op = PhRollingBack))
       then throw (HandlerFailed "storage migration phase exceeded its 24-hour deadline")
       else advance_storage_shrink w job now) s in
    match result with
    | Err (HandlerFailed error) =>
        (op ← operation;
         if bool_decide (op_phase op = PhReclaiming) then
           _ ← assign (λ op, set_op_updated_at now (set_op_phase PhCompleted (set_op_error (Some error) op)));
           save UpdNone
         else if bool_decide (op_phase op = PhRollingBack) then throw (HandlerFailed error)
         else
           _ ← assign (λ op, set_op_updated_at now (set_op_error (Some error) op));
           if bool_decide (op_phase op = PhQueued)
           then _ ← save UpdNone; finish_preflight_failure w now
           else
             _ ← assign (set_op_phase PhRollingBack);
             _ ← save UpdStopping;
             pending "migration failed; stopping and preserving recovery volumes") s'
    | _ => (result, s')
    end.

(** The job is about the given operation. *)
Definition names_operation (job : ClaimedJob) (op : StorageShrinkOperation) : bool :=
  phase_active (op_phase op)
  && bool_decide (get_str (cj_payload job) "operation_id" = Some (uuid_to_string (op_id op))).

Definition with_operation {A} (op : StorageShrinkOperation) (m : HM ShrinkState A) : HM (World K) A := λ world,
  let '(r, s) := m (op, world) in (r, s.2).

Definition handle_storage_shrink (job : ClaimedJob) : HM (World K) () :=
  match cj_workspace_id job with
  | None => throw (HandlerFailed "storage shrink job has no workspace")
  | Some workspace_id =>
      latest ← db_call (latest_storage_shrink inst workspace_id);
      match latest with
      | None => mret ()
      | Some op =>
          if negb (names_operation job op) then mret ()
          else
            w ← db_call (get_workspace inst workspace_id);
            now ← cluster job_error unix_timestamp;
            with_operation op (run_phase w job now)
      end
  end.

(** [storage_shrink_terminal_failure]. *)
Definition retry_job (workspace_id : Uuid) (op : StorageShrinkOperation) (now : Z) : NewJob :=
  mkNewJob "workspace_storage_shrink" (Some workspace_id)
    (json_object [("operation_id", Str (uuid_to_string (op_id op)))]) (saturating_add_i64 now 60).

Definition storage_shrink_terminal_failure (job : ClaimedJob) (now : Z) : DbM () :=
  match cj_workspace_id job with
  | None => mret ()
  | Some workspace_id =>
      latest ← latest_storage_shrink inst workspace_id;
      match latest with
      | None => mret ()
      | Some op =>
          if negb (names_operation job op) then mret ()
          else
            let op := set_op_error (Some (default
                "background migration exhausted retries; recovery is preserving all volumes" (op_error op))) op in
            let op := set_op_updated_at now op in
            if bool_decide (op_phase op = PhQueued) then
              _ ← save_storage_shrink inst op UpdNone;
              _ ← enqueue_job inst (retry_job workspace_id op now) now;
              mret ()
            else if bool_decide (op_phase op = PhReclaiming) then
              save_storage_shrink inst (set_op_phase PhCompleted op) UpdNone
            else
              let op := set_op_phase PhRollingBack op in
              _ ← save_storage_shrink inst op UpdStopping;
              _ ← enqueue_job inst (retry_job workspace_id op now) now;
              mret ()
      end
  end.

(** ** Lemmas *)

(** [Keeps P m]: [m] keeps the property [P] of operation and world, however it ends. *)
Class Keeps {A} (P : ShrinkState → Prop) (m : HM ShrinkState A) : Prop :=
  keeps s r s' : P s → m s = (r, s') → P s'.

Lemma use_keeps {A} (P : ShrinkState → Prop) (m : HM ShrinkState A) s r s' :
  Keeps P m → P s → m s = (r, s') → P s'.
Proof. intros Hm Hs Hrun. exact (Hm _ _ _ Hs Hrun). Qed.

Section Keeps.
Context (P : ShrinkState → Prop).

Lemma keeps_ret {A} (a : A) : Keeps P (mret a).
Proof. by intros ??? Hs [= <- <-]. Qed.
Lemma keeps_throw {A} e : Keeps P (throw (A:=A) e).
Proof. by intros ??? Hs [= <- <-]. Qed.
Lemma keeps_pending {A} e : Keeps P (pending (A:=A) e).
Proof. by intros ??? Hs [= <- <-]. Qed.
Lemma keeps_advanced : Keeps P advanced.
Proof. by intros ??? Hs [= <- <-]. Qed.
Lemma keeps_operation : Keeps P operation.
Proof. by intros ??? Hs [= <- <-]. Qed.
Lemma keeps_checked {A} (r : result string A) : Keeps P (checked r).
Proof. by intros ??? Hs [= <- <-]. Qed.
Lemma keeps_bind {A B} (m : HM ShrinkState A) (k : A → HM ShrinkState B) :
  Keeps P m → (∀ a, Keeps P (k a)) → Keeps P (m ≫= k).
Proof.
  intros Hm Hk s r s' Hs. rewrite hm_bind_run. destruct (m s) as [[a|e] s1] eqn:E.
  - intros Hrun. eapply Hk; [|exact Hrun]. by eapply Hm.
  - intros [= <- <-]. by eapply Hm.
Qed.
Lemma keeps_if {A} (b : bool) (m n : HM ShrinkState A) :
  Keeps P m → Keeps P n → Keeps P (if b then m else n).
Proof. by destruct b. Qed.
Lemma keeps_assign f : (∀ op w, P (op, w) → P (f op, w)) → Keeps P (assign f).
Proof. intros Hf [op w] ?? Hs [= <- <-]. by apply Hf. Qed.
Lemma keeps_ask {A} (m : StorageShrinkOperation → K → result string A * K) :
  (∀ op db k r k', P (op, mkWorld db k) → m op k = (r, k') → P (op, mkWorld db k')) → Keeps P (ask m).
Proof.
  intros Hm [op [db k]] r s' Hs. unfold ask; cbn. destruct (m op k) as [r1 k1] eqn:E. intros [= <- <-].
  by eapply Hm.
Qed.
Lemma keeps_ask_mut {A} (m : StorageShrinkOperation → K → result string A * StorageShrinkOperation * K) :
  (∀ op db k r op' k', P (op, mkWorld db k) → m op k = (r, op', k') → P (op', mkWorld db k')) → Keeps P (ask_mut m).
Proof.
  intros Hm [op [db k]] r s' Hs. unfold ask_mut; cbn. destruct (m op k) as [[r1 op1] k1] eqn:E. intros [= <- <-].
  by eapply Hm.
Qed.
Lemma keeps_in_world {A} (m : HM (World K) A) :
  (∀ op w r w', P (op, w) → m w = (r, w') → P (op, w')) → Keeps P (in_world m).
Proof.
  intros Hm [op w] r s' Hs. unfold in_world; cbn. destruct (m w) as [r1 w1] eqn:E. intros [= <- <-]. by eapply Hm.
Qed.
End Keeps.

#[local] Hint Constants Opaque : keeps.
#[local] Hint Resolve keeps_ret keeps_throw keeps_pending keeps_advanced keeps_operation keeps_checked : keeps.

Ltac keep := walk ltac:(apply keeps_bind) ltac:(auto with keeps).

(** ** Phases *)
Definition phase_edge (p q : StorageShrinkPhase) : bool :=
  bool_decide (p = q) ||
  match p, q with
  | PhQueued, (PhStopping | PhFailed | PhRollingBack)
  | PhStopping, (PhMeasuring | PhRollingBack)
  | PhMeasuring, (PhCopying | PhRollingBack)
  | PhCopying, (PhVerifying | PhRollingBack)
  | PhVerifying, (PhSwitching | PhRollingBack)
  | PhSwitching, (PhResuming | PhRollingBack)
  | PhResuming, (PhCompleted | PhReclaiming | PhRollingBack)
  | PhRollingBack, PhFailed
  | PhReclaiming, (PhReclaimed | PhCompleted | PhRollingBack) => true
  | _, _ => false
  end.

Lemma phase_edge_refl p : phase_edge p p = true.
Proof. by destruct p. Qed.

(** What the coordinator may change in the operation it is lent: the volumes it
    discovered and the helper identities, never its identity or phase. *)
Class CoordinatorLaws : Prop := {
  discover_keeps w op k r op' k' : discover_shrink_sources w op k = (r, op', k') →
    op_id op' = op_id op ∧ op_workspace_id op' = op_workspace_id op ∧ op_phase op' = op_phase op;
  shrink_pod_keeps w op role stage k r op' k' : shrink_pod w op role stage k = (r, op', k') →
    op_id op' = op_id op ∧ op_workspace_id op' = op_workspace_id op ∧ op_phase op' = op_phase op;
}.
Context `{!CoordinatorLaws}.

(** Rows of [db'] stem from rows of [db] in the same phase. *)
Definition phases_kept (db db' : Db) : Prop :=
  ∀ k r', t_shrinks db' !! k = Some r' →
    ∃ r, t_shrinks db !! k = Some r ∧ op_phase (s_operation r') = op_phase (s_operation r).

#[global] Instance phases_kept_relation : TableRelation phases_kept.
Proof.
  split; [split|]; [intros db k r ?; eauto| |intros n db k r ?; eauto].
  intros x y z Hxy Hyz k r'' Hz. destruct (Hyz _ _ Hz) as (r' & Hy & E).
  destruct (Hxy _ _ Hy) as (r & Hx & E'). exists r. split; [done|congruence].
Qed.

Lemma frames_phases_kept {A} (m : DbM A) : Preserves (frames t_shrinks) m → Preserves phases_kept m.
Proof. intros Hm db r db' Hrun k r' Hk. rewrite (Hm _ _ _ Hrun) in Hk. eauto. Qed.

#[global] Instance cleanup_phases_kept op : Preserves phases_kept (save_storage_shrink_cleanup_identity inst op).
Proof.
  intros db r db'. apply (transaction_inv (phases_kept db)); [done|reflexivity|]. clear r db'. intros [] db' Hrun.
  apply bind_run_Ok in Hrun as ([w d] & db1 & (-> & Hid & _)%storage_backend_Ok & Hrun).
  do 2 run_step Hrun. destruct (t_shrinks db !! op_id op) as [row|] eqn:Hrow; [|done].
  do 3 run_step Hrun. apply bind_run_Ok in Hrun as (n & db1 & Hsave & [= <-]).
  unfold update_shrink, update_where in Hsave. rewrite Hrow in Hsave.
  destruct (of_workspace inst (ws_id w) row && negb (s_active row)); injection Hsave as <- <-; [|reflexivity].
  intros k r'. cbn. rewrite lookup_insert_Some. intros [[<- <-]|[_ ?]]; eauto.
Qed.

Lemma apply_transition_phases w t actor now db w' db' :
  apply_transition inst w t actor now db = (Ok w', db') → phases_kept db db'.
Proof.
  intros (s & g & row & db2 & _ & _ & _ & _ & -> & _ & _ & _ & _ & Hjob & Hscrub)%apply_transition_Ok.
  apply (use_frame t_shrinks) in Hjob; [|by apply job_and_audit_frames]. cbn in Hjob. intros k r' Hk.
  destruct (confirms_deletion t); [|injection Hscrub as <-; rewrite Hjob in Hk; eauto].
  rewrite scrub_deleted_run in Hscrub. destruct (t_tombstones db2 !! _); [done|]. injection Hscrub as <-.
  revert Hk. unfold scrubbed, delete_workspace_row. destruct (t_workspaces _ !! _) as [r|]; [destruct (_ && _)|]; cbn;
    rewrite ?Hjob; [|eauto..]. intros [Hk _]%map_lookup_filter_Some. eauto.
Qed.

#[global] Instance record_phases_kept id g o actor now :
  Preserves phases_kept (record_workspace_observation inst id g o actor now).
Proof.
  intros db r db'. apply (transaction_inv (phases_kept db)); [done|reflexivity|]. intros a db1.
  rewrite bind_run, select_workspace_run.
  destruct (match t_workspaces db !! id with Some _ => _ | None => _ end) as [row|].
  - rewrite bind_run; cbn -[apply_transition]. destruct (decode_workspace id row); [|done].
    destruct (negb _); [intros [= <- <-]; reflexivity|].
    intros (w' & db2 & Ha & [= <- <-])%bind_run_Ok. by eapply apply_transition_phases.
  - intros [= <- <-]. reflexivity.
Qed.

#[global] Instance reconcile_phases_kept w job : HPreserves phases_kept (reconcile_workspace inst w job).
Proof. apply reconcile_workspace_preserves; [apply _..|]. intros ids db k r ?. eauto. Qed.

(** A property of the operation's identity and phase and of the database. *)
Class OpView (P : ShrinkState → Prop) : Prop :=
  op_view op op' w w' : op_id op' = op_id op → op_phase op' = op_phase op → w_db w' = w_db w →
    P (op, w) → P (op', w').

Section OpView.
Context (P : ShrinkState → Prop) `{!OpView P} (save_keeps : ∀ update, Keeps P (save update)).
#[local] Hint Resolve save_keeps : keeps.

Lemma view_ask {A} (m : StorageShrinkOperation → K → result string A * K) : Keeps P (ask m).
Proof. apply keeps_ask. intros op db k r k' Hs _. by eapply op_view; [..|exact Hs]. Qed.
Lemma view_discover w : Keeps P (ask_mut (discover_shrink_sources w)).
Proof.
  apply keeps_ask_mut. intros op db k r op' k' Hs (? & _ & ?)%discover_keeps. by eapply op_view; [..|exact Hs].
Qed.
Lemma view_shrink_pod w role stage : Keeps P (ask_mut (λ op, shrink_pod w op role stage)).
Proof.
  apply keeps_ask_mut. intros op db k r op' k' Hs (? & _ & ?)%shrink_pod_keeps. by eapply op_view; [..|exact Hs].
Qed.
Lemma view_touch now : Keeps P (touch now).
Proof. apply keeps_assign. intros op w Hs. by eapply op_view; [..|exact Hs]. Qed.
Lemma view_set_volume role f : Keeps P (assign (set_volume role f)).
Proof.
  apply keeps_assign. intros op w Hs. unfold set_volume. destruct (String.eqb role "home"); by eapply op_view; [..|exact Hs].
Qed.
#[local] Hint Resolve view_ask view_discover view_shrink_pod view_touch view_set_volume : keeps.

Lemma view_run_shrink_pod w role stage now : Keeps P (run_shrink_pod w role stage now).
Proof. unfold run_shrink_pod. keep. Qed.
#[local] Hint Resolve view_run_shrink_pod : keeps.
Lemma view_measure w now role : Keeps P (measure_role w now role).
Proof. unfold measure_role. keep. Qed.
Lemma view_destination w role : Keeps P (destination_role w role).
Proof. unfold destination_role. keep. Qed.
Lemma view_copy w now stage role : Keeps P (copy_role w now stage role).
Proof. unfold copy_role. keep. Qed.
End OpView.

Section PhaseGraph.
Context (table : gmap Uuid ShrinkRow) (id0 : Uuid) (row0 : ShrinkRow) (Hrow0 : table !! id0 = Some row0).
Abbreviation p0 := (op_phase (s_operation row0)).

(** Every stored operation has moved along one edge at most since [table]. *)
Definition along_graph (db : Db) : Prop :=
  ∀ k r', t_shrinks db !! k = Some r' →
    ∃ r, table !! k = Some r ∧ phase_edge (op_phase (s_operation r)) (op_phase (s_operation r')) = true.

(** The run of the operation [id0]: the phase in memory is one edge from the
    stored one at most ([in_phase]: it is still the stored one). *)
Definition tracked (s : ShrinkState) : Prop :=
  op_id s.1 = id0 ∧ phase_edge p0 (op_phase s.1) = true ∧ along_graph (w_db s.2).
Definition in_phase (s : ShrinkState) : Prop :=
  op_id s.1 = id0 ∧ op_phase s.1 = p0 ∧ along_graph (w_db s.2).

Lemma in_phase_tracked s : in_phase s → tracked s.
Proof. intros (? & E & ?). split_and!; [done| |done]. rewrite E. apply phase_edge_refl. Qed.

Lemma save_along op w update r w' :
  op_id op = id0 → phase_edge p0 (op_phase op) = true → along_graph (w_db w) →
  db_call (save_storage_shrink inst op update) w = (r, w') → along_graph (w_db w').
Proof.
  intros Hid Hedge Ha. unfold db_call. rewrite hm_bind_run. unfold db_try.
  destruct (database_lost (w_k w)) as [[] k]; [by intros [= <- <-]|].
  destruct (save_storage_shrink inst op update (w_db w)) as [r1 db1] eqn:E. intros [= <- <-]. cbn.
  apply save_shrinks_table in E as [E|(row & _ & _ & E)]; intros k1 r'; rewrite E; [apply Ha|].
  rewrite lookup_insert_Some. intros [[<- <-]|[_ ?]]; [|by apply Ha]. rewrite Hid. by exists row0.
Qed.

Lemma save_tracked update : Keeps tracked (save update).
Proof.
  unfold save. intros [op w] r s' (Hid & He & Ha). rewrite hm_bind_run; cbn. unfold in_world; cbn.
  destruct (db_call _ w) as [r1 w1] eqn:E. intros [= <- <-]. split_and!; [done..|]. by eapply save_along.
Qed.
Lemma save_in_phase update : Keeps in_phase (save update).
Proof.
  unfold save. intros [op w] r s' (Hid & He & Ha). rewrite hm_bind_run; cbn. unfold in_world; cbn.
  destruct (db_call _ w) as [r1 w1] eqn:E. intros [= <- <-]. split_and!; [done..|].
  eapply save_along; [done| |done|done]. cbn in *. rewrite He. apply phase_edge_refl.
Qed.

Lemma tracked_view : OpView tracked.
Proof. intros op op' w w' Hi Hp Hd. unfold tracked; cbn. by rewrite Hi, Hp, Hd. Qed.
Lemma in_phase_view : OpView in_phase.
Proof. intros op op' w w' Hi Hp Hd. unfold in_phase; cbn. by rewrite Hi, Hp, Hd. Qed.

Lemma tracked_pod w role stage now : Keeps tracked (run_shrink_pod w role stage now).
Proof. apply view_run_shrink_pod; auto using save_tracked, save_in_phase, tracked_view, in_phase_view. Qed.
Lemma tracked_measure w now role : Keeps tracked (measure_role w now role).
Proof. apply view_measure; auto using save_tracked, save_in_phase, tracked_view, in_phase_view. Qed.
Lemma tracked_destination w role : Keeps tracked (destination_role w role).
Proof. apply view_destination; auto using save_tracked, save_in_phase, tracked_view, in_phase_view. Qed.
Lemma in_phase_copy w now stage role : Keeps in_phase (copy_role w now stage role).
Proof. apply view_copy; auto using save_tracked, save_in_phase, tracked_view, in_phase_view. Qed.

Lemma tracked_reconcile w job : Keeps tracked (in_world (reconcile_workspace inst w job)).
Proof.
  apply keeps_in_world. intros op world r world' (Hi & Hp & Ha) Hrun. split_and!; [done..|].
  apply (hpreserves (R := phases_kept)) in Hrun. intros k r' Hk. destruct (Hrun _ _ Hk) as (r0 & Hk0 & ->).
  by apply Ha.
Qed.

(** Setting the phase in memory to one that is an edge away. *)
Lemma tracked_assign f q :
  (∀ op, op_id (f op) = op_id op ∧ op_phase (f op) = q) → phase_edge p0 q = true → Keeps tracked (assign f).
Proof.
  intros Hf Hq. apply keeps_assign. intros op w (Hi & _ & Ha). destruct (Hf op) as [Hfi Hfp].
  split_and!; cbn; [by rewrite Hfi|by rewrite Hfp|done].
Qed.
Lemma tracked_same f :
  (∀ op, op_id (f op) = op_id op ∧ op_phase (f op) = op_phase op) → Keeps tracked (assign f).
Proof.
  intros Hf. apply keeps_assign. intros op w (Hi & He & Ha). destruct (Hf op) as [Hfi Hfp].
  split_and!; cbn; [by rewrite Hfi|by rewrite Hfp|done].
Qed.

Lemma tracked_ask {A} (m : StorageShrinkOperation → K → result string A * K) : Keeps tracked (ask m).
Proof. apply view_ask, tracked_view. Qed.
Lemma tracked_discover w : Keeps tracked (ask_mut (discover_shrink_sources w)).
Proof. apply view_discover, tracked_view. Qed.
Lemma tracked_touch now : Keeps tracked (touch now).
Proof. apply view_touch, tracked_view. Qed.
Lemma tracked_enter q now : phase_edge p0 q = true → Keeps tracked (enter q now).
Proof. apply tracked_assign. done. Qed.
#[local] Hint Resolve save_tracked tracked_ask tracked_discover tracked_touch tracked_pod tracked_measure
  tracked_destination tracked_reconcile : keeps.
#[local] Hint Extern 1 (Keeps tracked (enter _ _)) => apply tracked_enter;
  lazymatch goal with E : op_phase (s_operation row0) = _ |- _ => by rewrite E end : keeps.

(** One lemma per phase: [E0] says which one the stored operation is in. *)
Lemma queued_tracked w now (E0 : p0 = PhQueued) : Keeps tracked (advance_queued w now).
Proof. unfold advance_queued. keep. Qed.
Lemma stopping_tracked w now (E0 : p0 = PhStopping) : Keeps tracked (advance_stopping w now).
Proof. unfold advance_stopping. keep. Qed.
Lemma measuring_tracked w now (E0 : p0 = PhMeasuring) : Keeps tracked (advance_measuring w now).
Proof. unfold advance_measuring. keep. Qed.
Lemma switching_tracked w now (E0 : p0 = PhSwitching) : Keeps tracked (advance_switching w now).
Proof.
  unfold advance_switching. keep. by apply tracked_same.
Qed.
Lemma finish_tracked now (E0 : p0 = PhResuming) : Keeps tracked (finish_resuming now).
Proof.
  unfold finish_resuming.
  keep; [apply (tracked_assign _ PhCompleted); [done|by rewrite E0]
        |apply (tracked_assign _ PhReclaiming); [done|by rewrite E0]].
Qed.
Lemma resuming_tracked w job now (E0 : p0 = PhResuming) : Keeps tracked (advance_resuming w job now).
Proof. unfold advance_resuming. keep; by apply finish_tracked. Qed.
Lemma rolling_back_tracked w now (E0 : p0 = PhRollingBack) : Keeps tracked (advance_rolling_back w now).
Proof. unfold advance_rolling_back. keep. Qed.
Lemma reclaiming_tracked w now (E0 : p0 = PhReclaiming) : Keeps tracked (advance_reclaiming w now).
Proof. unfold advance_reclaiming. keep. apply (tracked_assign _ PhReclaimed); [done|by rewrite E0]. Qed.

Lemma copying_tracked w now s r s' (E0 : p0 = PhCopying ∨ p0 = PhVerifying) :
  in_phase s → advance_copying_or_verifying w now s = (r, s') → tracked s'.
Proof.
  intros Hs. unfold advance_copying_or_verifying. rewrite hm_bind_run; cbn -[copy_role].
  set (stage := if bool_decide _ then Copy else Verify).
  rewrite hm_bind_run. destruct (copy_role w now stage "home" s) as [[u|e] s1] eqn:E1;
    apply (use_keeps _ _ _ _ _ (in_phase_copy _ _ _ _) Hs) in E1;
    [|intros [= <- <-]; by apply in_phase_tracked].
  rewrite hm_bind_run. destruct (copy_role w now stage "temporary" s1) as [[u'|e] s2] eqn:E2;
    apply (use_keeps _ _ _ _ _ (in_phase_copy _ _ _ _) E1) in E2;
    [|intros [= <- <-]; by apply in_phase_tracked].
  rewrite hm_bind_run; cbn -[save enter]. destruct E2 as (Hi & Hp & Ha).
  apply use_keeps; [|split_and!; [done| |done]; rewrite Hp; apply phase_edge_refl].
  apply keeps_bind; [|intros _; keep]. apply tracked_enter. rewrite Hp.
  by destruct E0 as [-> | ->].
Qed.

Lemma advance_tracked w job now s r s' :
  in_phase s → advance_storage_shrink w job now s = (r, s') → tracked s'.
Proof.
  intros Hs. pose proof (in_phase_tracked _ Hs) as Ht. destruct Hs as (Hi & Hp & Ha).
  unfold advance_storage_shrink. rewrite hm_bind_run; cbn -[advance_queued advance_stopping advance_measuring
    advance_copying_or_verifying advance_switching advance_resuming advance_rolling_back advance_reclaiming].
  destruct (op_phase s.1) eqn:E.
  - by apply use_keeps; [apply queued_tracked|].
  - by apply use_keeps; [apply stopping_tracked|].
  - by apply use_keeps; [apply measuring_tracked|].
  - apply copying_tracked; [by left|]. by split_and!; [|congruence|].
  - apply copying_tracked; [by right|]. by split_and!; [|congruence|].
  - by apply use_keeps; [apply switching_tracked|].
  - by apply use_keeps; [apply resuming_tracked|].
  - by apply use_keeps; [apply rolling_back_tracked|].
  - by intros [= <- <-].
  - by intros [= <- <-].
  - by apply use_keeps; [apply reclaiming_tracked|].
  - by intros [= <- <-].
Qed.

Lemma preflight_tracked w now : phase_edge p0 PhFailed = true → Keeps tracked (finish_preflight_failure w now).
Proof. intros He. unfold finish_preflight_failure. keep. by apply tracked_enter. Qed.

Lemma failure_tracked w now error s r s' (Hact : phase_active p0 = true) :
  tracked s →
  (op ← operation;
   if bool_decide (op_phase op = PhReclaiming) then
     _ ← assign (λ op, set_op_updated_at now (set_op_phase PhCompleted (set_op_error (Some error) op)));
     save UpdNone
   else if bool_decide (op_phase op = PhRollingBack) then throw (HandlerFailed error)
   else
     _ ← assign (λ op, set_op_updated_at now (set_op_error (Some error) op));
     if bool_decide (op_phase op = PhQueued)
     then _ ← save UpdNone; finish_preflight_failure w now
     else
       _ ← assign (set_op_phase PhRollingBack);
       _ ← save UpdStopping;
       pending "migration failed; stopping and preserving recovery volumes") s = (r, s') →
  tracked s'.
Proof.
  intros Hs. rewrite hm_bind_run; cbn -[assign save finish_preflight_failure].
  destruct Hs as (Hi & He & Ha). pose proof (conj Hi (conj He Ha)) as Hs. fold (tracked s) in Hs.
  destruct (bool_decide_reflect (op_phase s.1 = PhReclaiming)) as [Hq|_].
  { apply use_keeps; [|done]. keep. apply (tracked_assign _ PhCompleted); [done|]. rewrite Hq in He.
    by destruct p0. }
  destruct (bool_decide_reflect (op_phase s.1 = PhRollingBack)) as [Hq|_]; [by intros [= <- <-]|].
  apply use_keeps; [|done]. apply keeps_bind; [by apply tracked_same|intros _].
  destruct (bool_decide_reflect (op_phase s.1 = PhQueued)) as [Hq|_].
  - keep. apply preflight_tracked. rewrite Hq in He. by destruct p0.
  - keep. apply (tracked_assign _ PhRollingBack); [done|]. by destruct p0.
Qed.

Lemma run_phase_tracked w job now s r s' (Hact : phase_active p0 = true) :
  in_phase s → run_phase w job now s = (r, s') → tracked s'.
Proof.
  intros Hs. pose proof (in_phase_tracked _ Hs) as Ht. pose proof Hs as (_ & Hp & _).
  unfold run_phase. rewrite hm_bind_run; cbn -[advance_storage_shrink finish_preflight_failure assign save].
  destruct (bool_decide_reflect (op_phase s.1 = PhQueued)) as [Hq|_]; [destruct (is_some _)|]; cbn [andb].
  { apply use_keeps; [|done]. apply preflight_tracked. rewrite Hp in Hq. by rewrite Hq. }
  all: match goal with |- (let '(_, _) := ?m in _) = _ → _ => destruct m as [r1 s1] eqn:E end.
  all: assert (tracked s1) as Ht1 by
    (match type of E with (if ?b then _ else _) _ = _ => destruct b end;
     [by injection E as <- <-|by eapply advance_tracked]).
  all: destruct r1 as [u|[error|error|error p]]; try (by intros [= <- <-]).
  all: by apply failure_tracked.
Qed.
End PhaseGraph.

(** Calls that only read the database. *)
Lemma db_call_reads {A} (f : Db → result StorageError.t A) w r w' :
  db_call (λ db, (f db, db)) w = (r, w') → w_db w' = w_db w ∧ ∀ a, r = Ok a → f (w_db w) = Ok a.
Proof.
  unfold db_call. rewrite hm_bind_run. unfold db_try. destruct (database_lost _) as [[] k]; cbn.
  - intros [= <- <-]. split; [done|]. intros a. done.
  - intros [= <- <-]. split; [done|]. intros a. destruct (f (w_db w)); cbn; congruence.
Qed.

Lemma latest_call id w r w' :
  db_call (latest_storage_shrink inst id) w = (r, w') → w_db w' = w_db w ∧
  ∀ op, r = Ok (Some op) → ∃ k row, latest_row inst id (w_db w) = Some (k, row) ∧ op = s_operation row.
Proof.
  intros [Hdb Hr]%(db_call_reads (λ db, Ok ((λ kv : Uuid * ShrinkRow, s_operation kv.2) <$> latest_row inst id db))).
  split; [done|]. intros op Hop. specialize (Hr _ Hop). injection Hr as Hr.
  destruct (latest_row inst id (w_db w)) as [[k row]|]; [|done]. injection Hr as <-. eauto.
Qed.

Lemma get_workspace_call id w r w' : db_call (get_workspace inst id) w = (r, w') → w_db w' = w_db w.
Proof.
  unfold db_call. rewrite hm_bind_run. unfold db_try. destruct (database_lost _) as [[] k]; [by intros [= <- <-]|].
  unfold get_workspace. rewrite bind_run, select_workspace_run.
  destruct (match t_workspaces (w_db w) !! id with Some _ => _ | None => _ end); by intros [= <- <-].
Qed.

Lemma get_workspace_value id w workspace w' :
  db_call (get_workspace inst id) w = (Ok workspace, w') → (get_workspace inst id (w_db w)).1 = Ok workspace.
Proof.
  unfold db_call. rewrite hm_bind_run. unfold db_try. destruct (database_lost _) as [[] k]; [done|].
  destruct (get_workspace inst id (w_db w)) as [[v|e] db]; [|done]. by intros [= <- <-].
Qed.

Lemma cluster_db {A B} f (m : K → result B A * K) w r w' : cluster f m w = (r, w') → w_db w' = w_db w.
Proof. unfold cluster. destruct (m (w_k w)). by intros [= <- <-]. Qed.

(** C24: the phases of a shrink follow one graph: whatever the cluster answers,
    whichever database calls are lost and however the run ends, handling a
    shrink job moves every stored operation by at most one edge of it. *)
Theorem shrink_phase_graph job w r w' :
  shrinks_ok (t_shrinks (w_db w)) → handle_storage_shrink job w = (r, w') →
  ∀ k row', t_shrinks (w_db w') !! k = Some row' →
    ∃ row, t_shrinks (w_db w) !! k = Some row ∧
      phase_edge (op_phase (s_operation row)) (op_phase (s_operation row')) = true.
Proof.
  intros Hok. unfold handle_storage_shrink.
  assert (∀ db, t_shrinks db = t_shrinks (w_db w) → along_graph (t_shrinks (w_db w)) db) as Hsame.
  { intros db E k row'. rewrite E. intros Hk. exists row'. split; [done|]. apply phase_edge_refl. }
  destruct (cj_workspace_id job) as [id|]; [|intros [= <- <-]; by apply Hsame].
  rewrite hm_bind_run. destruct (db_call _ w) as [[latest|e] w1] eqn:E1;
    apply latest_call in E1 as [Hdb1 Hlatest]; [|intros [= <- <-]; apply Hsame; by rewrite Hdb1].
  destruct latest as [op|]; [|intros [= <- <-]; apply Hsame; by rewrite Hdb1].
  destruct (Hlatest op eq_refl) as (k & row & Hl & ->). apply latest_row_Some in Hl as [Hrow _].
  destruct (proj1 Hok _ _ Hrow) as (Hk & _ & _).
  destruct (names_operation job (s_operation row)) eqn:Hnames; [|intros [= <- <-]; apply Hsame; by rewrite Hdb1].
  cbn [negb]. rewrite hm_bind_run. destruct (db_call _ w1) as [[workspace|e] w2] eqn:E2;
    apply get_workspace_call in E2; [|intros [= <- <-]; apply Hsame; congruence].
  rewrite hm_bind_run. destruct (cluster _ _ w2) as [[now|e] w3] eqn:E3;
    apply cluster_db in E3; [|intros [= <- <-]; apply Hsame; congruence].
  unfold with_operation. destruct (run_phase _ _ _ _) as [r4 [op4 w4]] eqn:E4. intros [= <- <-].
  eapply run_phase_tracked in E4 as (_ & _ & Hg); [exact Hg|exact Hrow| |].
  - unfold names_operation in Hnames. by apply andb_true_iff in Hnames as [? _].
  - split_and!; [done|done|]. apply Hsame. cbn. congruence.
Qed.

(** ** The cluster's side *)
Section ClusterSide.
Context (P : K → Prop).

(** Every coordinator method but [reclaim_shrink_sources] keeps [P]. *)
Class KeptByOthers : Prop := {
  kept_time k r k' : unix_timestamp k = (r, k') → P k → P k';
  kept_lost k r k' : database_lost k = (r, k') → P k → P k';
  kept_replicas w n k r k' : has_observed_replicas w n k = (r, k') → P k → P k';
  kept_recover w k r k' : recover_scratch_scheduling w k = (r, k') → P k → P k';
  kept_scratch w k r k' : delete_stopped_scratch w k = (r, k') → P k → P k';
  kept_delete w k r k' : delete_or_confirm w k = (r, k') → P k → P k';
  kept_delete_storage w ops k r k' : delete_workspace_shrink_storage w ops k = (r, k') → P k → P k';
  kept_apply w ids k r ids' k' : apply_workspace w ids k = (r, ids', k') → P k → P k';
  kept_capture w op k r op' k' : capture_shrink_cleanup_identities w op k = (r, op', k') → P k → P k';
  kept_discover w op k r op' k' : discover_shrink_sources w op k = (r, op', k') → P k → P k';
  kept_pod w op role stage k r op' k' : shrink_pod w op role stage k = (r, op', k') → P k → P k';
  kept_retain w op k r k' : retain_shrink_sources w op k = (r, k') → P k → P k';
  kept_stop w op k r k' : stop_for_storage_shrink w op k = (r, k') → P k → P k';
  kept_create w op role b n k r k' : create_shrink_destination w op role b n k = (r, k') → P k → P k';
  kept_identity w b k r k' : shrink_volume_identity w b k = (r, k') → P k → P k';
  kept_helpers w op k r k' : remove_shrink_helpers w op k = (r, k') → P k → P k';
}.
Context `{!KeptByOthers}.

Definition kept {A} (m : HM (World K) A) : Prop :=
  ∀ w r w', P (w_k w) → m w = (r, w') → P (w_k w').

Lemma kept_ret {A} (a : A) : kept (mret a).
Proof. by intros ??? Hs [= <- <-]. Qed.
Lemma kept_throw {A} e : kept (throw (A:=A) e).
Proof. by intros ??? Hs [= <- <-]. Qed.
Lemma kept_give {A} (r : result JobHandlerError A) : kept (give r).
Proof. by intros ??? Hs [= <- <-]. Qed.
Lemma kept_bind {A B} (m : HM (World K) A) (k : A → HM (World K) B) :
  kept m → (∀ a, kept (k a)) → kept (m ≫= k).
Proof.
  intros Hm Hk w r w' Hs. rewrite hm_bind_run. destruct (m w) as [[a|e] w1] eqn:E.
  - intros Hrun. eapply Hk; [|exact Hrun]. by eapply Hm.
  - intros [= <- <-]. by eapply Hm.
Qed.
Lemma kept_db_try {A} (m : DbM A) : kept (db_try m).
Proof.
  intros w r w' Hs. unfold db_try. destruct (database_lost (w_k w)) as [[] k] eqn:E;
    [|destruct (m (w_db w))]; intros [= <- <-]; by eapply kept_lost.
Qed.
Lemma kept_db_call {A} (m : DbM A) : kept (db_call m).
Proof. apply kept_bind; [apply kept_db_try|intros; apply kept_give]. Qed.
Lemma kept_cluster {A B} f (m : K → result B A * K) :
  (∀ k r k', m k = (r, k') → P k → P k') → kept (cluster f m).
Proof. intros Hm w r w' Hs. unfold cluster. destruct (m (w_k w)) eqn:E. intros [= <- <-]. by eapply Hm. Qed.
Lemma kept_map_error {A} f (m : HM (World K) A) : kept m → kept (map_error f m).
Proof. intros Hm w r w' Hs. unfold map_error. destruct (m w) eqn:E. intros [= <- <-]. by eapply Hm. Qed.
#[local] Hint Resolve kept_ret kept_throw kept_db_call kept_time kept_replicas kept_recover kept_scratch kept_delete
  kept_delete_storage : keeps.

Ltac kept_steps :=
  lazymatch goal with
  | |- kept (_ ≫= _) => apply kept_bind; [kept_steps|intros ?; kept_steps]
  | |- kept (cluster _ _) => apply kept_cluster; eauto with keeps
  | |- kept (map_error _ _) => apply kept_map_error; kept_steps
  | |- kept (match ?x with _ => _ end) => destruct x; kept_steps
  | |- _ => auto with keeps
  end.

Lemma kept_record w o : kept (record_observation inst w o).
Proof. unfold record_observation. kept_steps. Qed.
#[local] Hint Resolve kept_record : keeps.
Lemma kept_observe w : kept (observe_workspace inst w).
Proof. unfold observe_workspace. kept_steps. Qed.
#[local] Hint Resolve kept_observe : keeps.
Lemma kept_capture_all w ops : kept (capture_all inst w ops).
Proof.
  induction ops as [|op ops IH]; cbn; [apply kept_ret|]. apply kept_bind; [|intros; kept_steps].
  apply kept_cluster. intros k r k'. destruct (capture_shrink_cleanup_identities w op k) as [[r1 op1] k1] eqn:E.
  intros [= <- <-]. by eapply kept_capture.
Qed.
Lemma kept_reconcile w job : kept (reconcile_workspace inst w job).
Proof.
  assert (kept (reconcile_deletion inst w)) as Hdel.
  { unfold reconcile_deletion. kept_steps. apply kept_capture_all. }
  assert (kept (apply_resources w)) as Happly.
  { intros world r world' Hs. unfold apply_resources. destruct (apply_workspace _ _ _) as [[r1 ids] k] eqn:E.
    intros [= <- <-]. by eapply kept_apply. }
  unfold reconcile_workspace. kept_steps.
Qed.

(** The property as one of the handler's state. *)
Definition cluster_kept (s : ShrinkState) : Prop := P (w_k s.2).

Lemma cluster_kept_ask {A} (m : StorageShrinkOperation → K → result string A * K) :
  (∀ op k r k', m op k = (r, k') → P k → P k') → Keeps cluster_kept (ask m).
Proof. intros Hm. apply keeps_ask. intros op db k r k' Hs E. by eapply Hm. Qed.
Lemma cluster_kept_mut {A} (m : StorageShrinkOperation → K → result string A * StorageShrinkOperation * K) :
  (∀ op k r op' k', m op k = (r, op', k') → P k → P k') → Keeps cluster_kept (ask_mut m).
Proof. intros Hm. apply keeps_ask_mut. intros op db k r op' k' Hs E. by eapply Hm. Qed.
Lemma cluster_kept_assign f : Keeps cluster_kept (assign f).
Proof. by apply keeps_assign. Qed.
Lemma cluster_kept_world {A} (m : HM (World K) A) : kept m → Keeps cluster_kept (in_world m).
Proof. intros Hm. apply keeps_in_world. intros op w r w' Hs E. by eapply Hm. Qed.
Lemma cluster_kept_save update : Keeps cluster_kept (save update).
Proof. unfold save. keep. apply cluster_kept_world, kept_db_call. Qed.
#[local] Hint Resolve cluster_kept_assign cluster_kept_save : keeps.
#[local] Hint Extern 1 (Keeps cluster_kept (ask _)) => apply cluster_kept_ask; eauto with keeps : keeps.
#[local] Hint Extern 1 (Keeps cluster_kept (ask_mut _)) => apply cluster_kept_mut; eauto with keeps : keeps.
#[local] Hint Resolve kept_discover kept_pod kept_retain kept_stop kept_create kept_identity kept_helpers : keeps.

Lemma cluster_kept_pod w role stage now : Keeps cluster_kept (run_shrink_pod w role stage now).
Proof. unfold run_shrink_pod, touch. keep. Qed.
#[local] Hint Resolve cluster_kept_pod : keeps.
Lemma cluster_kept_finish w now : Keeps cluster_kept (finish_preflight_failure w now).
Proof. unfold finish_preflight_failure, enter. keep. Qed.
#[local] Hint Resolve cluster_kept_finish : keeps.

(** Only [advance_reclaiming] calls [reclaim_shrink_sources]. *)
Lemma cluster_kept_advance w job now s r s' :
  op_phase s.1 ≠ PhReclaiming ∨ (op_resume s.1 = true ∧ ws_state w ≠ Ready) →
  cluster_kept s → advance_storage_shrink w job now s = (r, s') → cluster_kept s'.
Proof.
  intros Hcase Hs. unfold advance_storage_shrink. rewrite hm_bind_run; cbn -[advance_queued advance_stopping
    advance_measuring advance_copying_or_verifying advance_switching advance_resuming advance_rolling_back
    advance_reclaiming].
  destruct (op_phase s.1) eqn:E; try (by intros [= <- <-]); [apply use_keeps; [|done]..|].
  - unfold advance_queued, enter. keep.
  - unfold advance_stopping, enter. keep.
  - unfold advance_measuring, measure_role, destination_role, enter, touch. keep.
  - unfold advance_copying_or_verifying, copy_role, enter, touch. keep.
  - unfold advance_copying_or_verifying, copy_role, enter, touch. keep.
  - unfold advance_switching, enter. keep.
  - unfold advance_resuming, finish_resuming, touch. keep; apply cluster_kept_world, kept_reconcile.
  - unfold advance_rolling_back, enter. keep.
  - destruct Hcase as [?|[Hr Hw]]; [done|]. unfold advance_reclaiming. rewrite hm_bind_run; cbn.
    rewrite Hr, bool_decide_false by done. cbn. by intros [= <- <-].
Qed.

Lemma cluster_kept_run w job now s r s' :
  op_phase s.1 ≠ PhReclaiming ∨ (op_resume s.1 = true ∧ ws_state w ≠ Ready) →
  cluster_kept s → run_phase w job now s = (r, s') → cluster_kept s'.
Proof.
  intros Hcase Hs. unfold run_phase. rewrite hm_bind_run; cbn -[advance_storage_shrink finish_preflight_failure assign save].
  destruct (bool_decide _ && _); [by apply use_keeps; [apply cluster_kept_finish|]|].
  match goal with |- (let '(_, _) := ?m in _) = _ → _ => destruct m as [r1 s1] eqn:E end.
  assert (cluster_kept s1) as Hs1.
  { match type of E with (if ?b then _ else _) _ = _ => destruct b end;
      [by injection E as <- <-|by eapply cluster_kept_advance]. }
  destruct r1 as [u|[error|error|error p]]; try (by intros [= <- <-]).
  apply use_keeps; [|done]. keep.
Qed.
End ClusterSide.

(** C25: the old volumes are safe until reclamation was decided: for every property
    of the cluster that all coordinator methods but [reclaim_shrink_sources]
    keep, handling a shrink job keeps it unless the stored operation is already
    being reclaimed, and then still unless the workspace it belongs to is
    running again where it has to be. *)
Theorem sources_kept_until_reclaiming (P : K → Prop) job id w r w' k row workspace :
  KeptByOthers P → cj_workspace_id job = Some id →
  latest_row inst id (w_db w) = Some (k, row) → get_workspace inst id (w_db w) = (Ok workspace, w_db w) →
  op_phase (s_operation row) ≠ PhReclaiming ∨
    (op_resume (s_operation row) = true ∧ ws_state workspace ≠ Ready) →
  P (w_k w) → handle_storage_shrink job w = (r, w') → P (w_k w').
Proof.
  intros HP Hid Hl Hget Hcase Hw. unfold handle_storage_shrink. rewrite Hid, hm_bind_run.
  destruct (db_call _ w) as [[latest|e] w1] eqn:E1;
    pose proof (kept_db_call P _ _ _ _ Hw E1) as Hw1; apply latest_call in E1 as [Hdb1 Hlatest];
    [|by intros [= <- <-]].
  destruct latest as [op|]; [|by intros [= <- <-]].
  destruct (Hlatest op eq_refl) as (k' & row' & Hl' & ->). simplify_eq.
  destruct (negb _); [by intros [= <- <-]|]. rewrite hm_bind_run.
  destruct (db_call _ w1) as [[workspace'|e] w2] eqn:E2;
    pose proof (kept_db_call P _ _ _ _ Hw1 E2) as Hw2; [|by intros [= <- <-]].
  apply get_workspace_value in E2. rewrite Hdb1, Hget in E2. injection E2 as <-.
  rewrite hm_bind_run. destruct (cluster _ _ w2) as [[now|e] w3] eqn:E3;
    apply (kept_cluster P _ _ (kept_time P) _ _ _ Hw2) in E3; [|by intros [= <- <-]].
  unfold with_operation. destruct (run_phase _ _ _ _) as [r4 s4] eqn:E4. intros [= <- <-].
  by eapply (cluster_kept_run P) in E4.
Qed.
End ShrinkHandler.

(** ** Witnesses and two recorded defects *)
Module FaultyCluster.
(** A cluster that does what it is asked and counts reclamations; [lost] says
    which of the next database calls are lost. *)
Record t := mk { lost : list bool; reclaimed : nat }.
Definition coordinator : Coordinator t := {|
  unix_timestamp k := (Ok 200, k);
  database_lost k := match lost k with b :: l => (b, mk l (reclaimed k)) | [] => (false, k) end;
  has_observed_replicas _ _ k := (Ok true, k);
  recover_scratch_scheduling _ k := (Ok (), k);
  delete_stopped_scratch _ k := (Ok true, k);
  delete_or_confirm _ k := (Ok Gone, k);
  delete_workspace_shrink_storage _ _ k := (Ok true, k);
  apply_workspace _ ids k := (Ok (), ids, k);
  reconcile_injections _ k := (Ok (), k);
  capture_shrink_cleanup_identities _ op k := (Ok (), op, k);
  discover_shrink_sources _ op k := (Ok (), op, k);
  shrink_pod _ op _ _ k := (Ok (Some (mkUsage 1000 10)), op, k);
  retain_shrink_sources _ _ k := (Ok true, k);
  stop_for_storage_shrink _ _ k := (Ok true, k);
  create_shrink_destination _ _ _ _ _ k := (Ok Sample.destination, k);
  shrink_volume_identity _ _ k := (Ok (Sample.identity "b"), k);
  remove_shrink_helpers _ _ k := (Ok true, k);
  reclaim_shrink_sources _ _ k := (Ok true, mk (lost k) (S (reclaimed k)));
|}.
Definition error_text : StorageErrorText := λ _, "storage error".
Definition job : ClaimedJob :=
  mkClaimedJob 11 "workspace_storage_shrink" (Some ActionSample.id)
    (json_object [("operation_id", Str "5")]) 1 260.
Definition world (op : StorageShrinkOperation) (losses : list bool) : World t :=
  mkWorld (ShrinkSample.db op) (mk losses 0).
Definition run (op : StorageShrinkOperation) (losses : list bool) : result JobHandlerError () * World t :=
  @handle_storage_shrink t coordinator decimal_uuid_text Sqlite error_text "inst" job (world op losses).
(** The stored operation and workspace after a run. *)
Definition stored (w : World t) : option (StorageShrinkPhase * bool * WorkspaceState) :=
  r ← t_shrinks (w_db w) !! 5%N; row ← t_workspaces (w_db w) !! ActionSample.id;
  Some (op_phase (s_operation r), op_switched (s_operation r), wr_state row).
Definition bound_claim (w : World t) : option string :=
  row ← t_workspaces (w_db w) !! ActionSample.id; wr_home_pvc_name row.
End FaultyCluster.

Lemma faulty_cluster_laws : @CoordinatorLaws FaultyCluster.t FaultyCluster.coordinator.
Proof.
  split; [intros w op k r op' k'|intros w op role stage k r op' k']; cbn; intros E; injection E as _ <- _; auto.
Qed.

Lemma sample_shrink_ok op : op_id op = 5%N → op_workspace_id op = ActionSample.id →
  shrinks_ok (t_shrinks (ShrinkSample.db op)).
Proof.
  intros Hid Hws. split.
  - intros k r. cbn. rewrite lookup_singleton_Some. intros [<- <-]. by split.
  - intros k k' r r'. cbn. rewrite !lookup_singleton_Some. intros [<- _] [<- _]. done.
Qed.

Lemma shrink_phase_graph_witness :
  ∃ row', t_shrinks (w_db (FaultyCluster.run ShrinkSample.op []).2) !! 5%N = Some row' ∧
    phase_edge PhSwitching (op_phase (s_operation row')) = true.
Proof.
  destruct (FaultyCluster.run ShrinkSample.op []) as [r w'] eqn:E.
  assert (∃ row', t_shrinks (w_db w') !! 5%N = Some row') as [row' Hrow'].
  { replace w' with (FaultyCluster.run ShrinkSample.op []).2 by (by rewrite E). vm_compute. eauto. }
  exists row'. split; [exact Hrow'|].
  destruct (@shrink_phase_graph _ FaultyCluster.coordinator decimal_uuid_text Sqlite FaultyCluster.error_text "inst"
    faulty_cluster_laws FaultyCluster.job (FaultyCluster.world ShrinkSample.op []) r w'
    (sample_shrink_ok ShrinkSample.op eq_refl eq_refl) E 5%N row' Hrow') as (row & Hrow & Hedge).
  vm_compute in Hrow. injection Hrow as <-. exact Hedge.
Defined.

Lemma faulty_cluster_counts :
  @KeptByOthers FaultyCluster.t FaultyCluster.coordinator (λ k, FaultyCluster.reclaimed k = 0%nat).
Proof.
  split; cbn; try (intros; by simplify_eq). intros k r k'. destruct (FaultyCluster.lost k); intros [= <- <-]; done.
Qed.

Lemma sources_kept_until_reclaiming_witness :
  FaultyCluster.reclaimed (w_k (FaultyCluster.run ShrinkSample.op []).2) = 0%nat.
Proof.
  destruct (FaultyCluster.run ShrinkSample.op []) as [r w'] eqn:E.
  eapply (@sources_kept_until_reclaiming _ FaultyCluster.coordinator decimal_uuid_text Sqlite FaultyCluster.error_text
    "inst" (λ k, FaultyCluster.reclaimed k = 0%nat) FaultyCluster.job ActionSample.id
    (FaultyCluster.world ShrinkSample.op []) r w');
    [exact faulty_cluster_counts|reflexivity|vm_compute; reflexivity|vm_compute; reflexivity|left; discriminate
    |reflexivity|exact E].
Defined.

(** A lost write while the volumes are being switched: the operation is stored as
    switched although the workspace still runs on its old claim, because the
    flag is set in memory before the exchange is saved. Its rollback then skips
    the restoring update. *)
Lemma lost_switch_is_recorded_as_switched :
  let w' := (FaultyCluster.run ShrinkSample.op [false; false; true]).2 in
  FaultyCluster.stored w' = Some (PhRollingBack, true, Stopping) ∧
  FaultyCluster.bound_claim w' ≠ Some (vb_claim_name Sample.destination).
Proof. split; [vm_compute; reflexivity|vm_compute; discriminate]. Qed.

(** A lost write after the sources were reclaimed: the phase in memory is already
    [Reclaimed], so the failure is not taken for one of reclamation and the
    running workspace is stopped for a rollback. *)
Lemma lost_reclaim_record_stops_workspace :
  let reclaiming := set_op_phase PhReclaiming ShrinkSample.completed in
  let w' := (FaultyCluster.run reclaiming [false; false; true]).2 in
  FaultyCluster.stored (FaultyCluster.world reclaiming []) = Some (PhReclaiming, true, Ready) ∧
  FaultyCluster.stored w' = Some (PhRollingBack, true, Stopping) ∧
  FaultyCluster.reclaimed (w_k w') = 1%nat.
Proof. cbv zeta. split_and!; vm_compute; reflexivity. Qed.
