(* ===== verification/JobWorker.v ===== *)
(** * The job worker ([src/jobs.rs])

    A worker claims the next due job, takes the lease of its workspace, runs the
    handler while renewing both leases, and records the outcome in the queue.
    The handler is an interface; [JobHandlerLaws] is what the worker needs of it.
    The clock readings of a run are arguments: the time of the claim, the seconds
    that passed until the handler returned, and when the heartbeat ticked. The
    pool of worker slots, its shutdown and the wake-up notification are not
    modelled; neither is the registration of a parked job with the watch, whose
    failure is only logged. *)
From S2P Require Import Prelude Text Json Auth Quota Templates Workspaces Errors ShrinkOperation Database WorkspaceStore JobStore Events JobQueue WorkspaceActions ShrinkStore Reconcile.

Inductive JobWorkerError :=
  | WorkerStorage (error : StorageError.t)
  | WorkerClock
  | WorkspaceLeaseLost (workspace_id : Uuid).

Definition MAX_JOB_ATTEMPTS : Z := 10.
Definition PENDING_JOB_DELAY_SECONDS : Z := 5.
Definition CHECKPOINT_REPAIR_SECONDS : Z := 60.

(** The future of a handler: it has returned, or the next poll runs it up to its
    next suspension. *)
#[warnings="-register-all"]
Inductive Handling (K : Type) :=
  | Finished (result : result JobHandlerError ())
  | Running (poll : World K → Handling K * World K).
Arguments Finished {K} result.
Arguments Running {K} poll.

(** A handler without suspension. *)
Definition handling_of {K} (m : HM (World K) ()) : Handling K :=
  Running (λ w, let '(r, w') := m w in (Finished r, w')).

(** [JobHandler], on a database and the rest of the world [K]. *)
Class JobHandler (K : Type) := {
  handle : ClaimedJob → Handling K;
  on_terminal_failure : ClaimedJob → Z → World K → result StorageError.t () * World K;
}.

(** No poll of the future changes a row of the queue. *)
Inductive KeepsJobs {K} : Handling K → Prop :=
  | keeps_finished r : KeepsJobs (Finished r)
  | keeps_running poll :
      (∀ w id row, t_jobs (w_db w) !! id = Some row → t_jobs (w_db (poll w).2) !! id = Some row) →
      (∀ w, KeepsJobs (poll w).1) → KeepsJobs (Running poll).

(** A handler leaves the rows of the queue alone, the one of its own job first. *)
Class JobHandlerLaws (K : Type) `{JobHandler K} : Prop := {
  handler_keeps_jobs job : KeepsJobs (handle job);
  terminal_keeps_jobs job now w r w' : on_terminal_failure job now w = (r, w') →
    ∀ id row, t_jobs (w_db w) !! id = Some row → t_jobs (w_db w') !! id = Some row;
}.

(** What wakes the worker while it waits for the handler: the handler can go on,
    or the heartbeat is due, with what the system clock then says. *)
Inductive Wake :=
  | Poll
  | Tick (now : option Z).

(** [execution_finished_at]; [elapsed] is a [u64]. *)
Definition execution_finished_at (started_at elapsed : Z) : Z :=
  saturating_add_i64 started_at (default i64_max (i64_try_from elapsed)).

(** [2_i64.pow(attempts.clamp(0, 8)).min(300)]. *)
Definition retry_delay (attempts : Z) : Z := Z.min (2 ^ Z.max 0 (Z.min 8 attempts)) 300.

Section JobWorker.
Context {K : Type} `{JobHandler K} `{UuidText}.
Context (inst lease_owner : string) (job_lease workspace_lease : Z).

(** A database call of the worker. *)
Definition store {A} (m : DbM A) (w : World K) : result StorageError.t A * World K :=
  let '(r, db) := m (w_db w) in (r, mkWorld db (w_k w)).

(** The worker's monad. *)
Definition WM (A : Type) : Type := World K → result JobWorkerError A * World K.
#[local] Instance wm_ret : MRet WM := λ A a w, (Ok a, w).
#[local] Instance wm_bind : MBind WM := λ A B k m w,
  match m w with
  | (Ok a, w') => k a w'
  | (Err e, w') => (Err e, w')
  end.
Definition call {A} (m : World K → result StorageError.t A * World K) : WM A := λ w,
  let '(r, w') := m w in (map_err WorkerStorage r, w').
Definition wgive {A} (r : result JobWorkerError A) : WM A := λ w, (r, w).

(** ** Recording an outcome *)
Definition park_workspace_for_readiness (job : ClaimedJob) (payload : Value) (now : Z)
    (w : World K) : result StorageError.t () * World K :=
  let until := saturating_add_i64 (default now (get_i64 payload "reconciled_at")) CHECKPOINT_REPAIR_SECONDS in
  store (_ ← park_workspace_job inst (cj_id job) lease_owner payload until now; mret ()) w.

Definition persist_failed_job (job : ClaimedJob) (now : Z) (w : World K)
    : result StorageError.t () * World K :=
  if MAX_JOB_ATTEMPTS <=? cj_attempts job then
    match on_terminal_failure job now w with
    | (Ok _, w') => store (fail_job inst (cj_id job) lease_owner now) w'
    | (Err e, w') => (Err e, w')
    end
  else store (defer_job inst (cj_id job) lease_owner
                (saturating_add_i64 now (retry_delay (cj_attempts job))) now) w.

Definition persist_job_result (job : ClaimedJob) (result : result JobHandlerError ()) (now : Z)
    (w : World K) : Prelude.result StorageError.t () * World K :=
  match result with
  | Ok _ => store (complete_job inst (cj_id job) lease_owner now) w
  | Err (HandlerPendingWithCheckpoint _ payload) => park_workspace_for_readiness job payload now w
  | Err (HandlerPending _) =>
      store (defer_job_without_attempt inst (cj_id job) lease_owner
               (saturating_add_i64 now PENDING_JOB_DELAY_SECONDS) now) w
  | Err (HandlerFailed _) => persist_failed_job job now w
  end.

(** ** Running the handler under its leases *)
Definition acquire_workspace (job : ClaimedJob) (now : Z) (w : World K)
    : result StorageError.t bool * World K :=
  match cj_workspace_id job with
  | Some workspace_id =>
      store (try_acquire_workspace_lease inst workspace_id lease_owner now workspace_lease) w
  | None => (Ok true, w)
  end.

Definition heartbeat (job : ClaimedJob) (clock : option Z) : WM () :=
  now ← wgive (from_option Ok (Err WorkerClock) clock);
  _ ← call (store (renew_job_lease inst (cj_id job) lease_owner now job_lease));
  held ← call (acquire_workspace job now);
  if (held : bool) then mret ()
  else wgive (Err (WorkspaceLeaseLost (default 0%N (cj_workspace_id job)))).

(** The handler from here on without another heartbeat. *)
Fixpoint finish (h : Handling K) (w : World K) : result JobHandlerError () * World K :=
  match h with
  | Finished r => (r, w)
  | Running poll => let '(h', w') := poll w in finish h' w'
  end.

(** [handle_with_lease_heartbeat], the loop around [tokio::select!]. [wakes] is
    the order in which handler and heartbeat get their turn, up to the last
    heartbeat. A heartbeat that fails drops the handler where it stands. *)
Fixpoint handle_with_lease_heartbeat (job : ClaimedJob) (h : Handling K) (wakes : list Wake)
    : WM (result JobHandlerError ()) :=
  match h, wakes with
  | Finished r, _ => mret r
  | Running _, [] => λ w, let '(r, w') := finish h w in (Ok r, w')
  | Running poll, Poll :: wakes' => λ w,
      let '(h', w') := poll w in handle_with_lease_heartbeat job h' wakes' w'
  | Running _, Tick now :: wakes' =>
      _ ← heartbeat job now; handle_with_lease_heartbeat job h wakes'
  end.

Definition release_workspace (job : ClaimedJob) (w : World K) : result StorageError.t () * World K :=
  match cj_workspace_id job with
  | Some workspace_id => store (release_workspace_lease inst workspace_id lease_owner) w
  | None => (Ok (), w)
  end.

(** [run_once]. *)
Definition run_claimed (job : ClaimedJob) (now elapsed : Z) (wakes : list Wake) : WM bool :=
  held ← call (acquire_workspace job now);
  let finished_at := execution_finished_at now elapsed in
  if negb held then
    _ ← call (store (defer_job_without_attempt inst (cj_id job) lease_owner
                       (saturating_add_i64 finished_at PENDING_JOB_DELAY_SECONDS) finished_at));
    mret true
  else
    result ← handle_with_lease_heartbeat job (handle job) wakes;
    persisted ← λ w, let '(r, w') := persist_job_result job result finished_at w in (Ok r, w');
    _ ← call (release_workspace job);
    _ ← wgive (map_err WorkerStorage persisted);
    mret true.

Definition run_once (now elapsed : Z) (wakes : list Wake) : WM bool :=
  job ← call (store (claim_job inst lease_owner now job_lease));
  match job with
  | None => mret false
  | Some job => run_claimed job now elapsed wakes
  end.

(** ** Lemmas *)
Lemma wm_bind_Ok {A B} (m : WM A) (k : A → WM B) w b w' :
  (m ≫= k) w = (Ok b, w') → ∃ a w1, m w = (Ok a, w1) ∧ k a w1 = (Ok b, w').
Proof. unfold mbind, wm_bind. destruct (m w) as [[a|e] w1]; [eauto|done]. Qed.

Lemma work_call_Ok {A} (m : World K → result StorageError.t A * World K) w a w' :
  call m w = (Ok a, w') → m w = (Ok a, w').
Proof. unfold call. destruct (m w) as [[x|e] w1]; cbn; [by intros [= -> ->]|done]. Qed.

Lemma store_Ok {A} (m : DbM A) w a w' :
  store m w = (Ok a, w') → m (w_db w) = (Ok a, w_db w') ∧ w_k w' = w_k w.
Proof. unfold store. destruct (m (w_db w)). by intros [= -> <-]. Qed.

(** The row of a job this worker is running, claimed from [r0]. *)
Definition running_row (r0 : JobRow) (r : JobRow) : Prop :=
  owned inst lease_owner r = true ∧ ∃ expires updated_at,
    r = mkJobRow (j_installation_id r0) (j_kind r0) (j_workspace_id r0) (j_payload r0) JobRunning (j_available_at r0)
          (Some lease_owner) (Some expires) (j_attempts r0 + 1) (j_created_at r0) updated_at.
Definition running_job (id : Uuid) (r0 : JobRow) (w : World K) : Prop :=
  ∃ r, t_jobs (w_db w) !! id = Some r ∧ running_row r0 r.

Lemma update_owned_settles id r0 f w r w' :
  running_job id r0 w → store (update_owned inst lease_owner id f) w = (r, w') →
  r = Ok () ∧ ∃ row, running_row r0 row ∧ t_jobs (w_db w') !! id = Some (f row).
Proof.
  intros (row & Hrow & Hr). unfold store. rewrite update_owned_run, Hrow, (proj1 Hr).
  intros [= <- <-]. split; [done|]. exists row. split; [done|]. cbn. by rewrite lookup_insert_eq.
Qed.

Lemma acquire_keeps_jobs job now w b w' :
  acquire_workspace job now w = (Ok b, w') → t_jobs (w_db w') = t_jobs (w_db w).
Proof.
  unfold acquire_workspace. destruct (cj_workspace_id job) as [ws|]; [|by intros [= <- <-]].
  intros [Hrun _]%store_Ok. revert Hrun. apply use_frame. unfold try_acquire_workspace_lease.
  do 3 (apply preserves_bind; [apply _..|intros ?]).
  match goal with |- Preserves _ (if ?b then _ else _) => destruct b end; apply _.
Qed.

Lemma acquire_keeps_rest job now w b w' : acquire_workspace job now w = (Ok b, w') → w_k w' = w_k w.
Proof. unfold acquire_workspace. destruct (cj_workspace_id job) as [ws|]; [|by intros [= <- <-]]. by intros [_ ?]%store_Ok. Qed.

Lemma release_keeps_jobs job w r w' :
  release_workspace job w = (r, w') → t_jobs (w_db w') = t_jobs (w_db w).
Proof.
  unfold release_workspace, store, release_workspace_lease. destruct (cj_workspace_id job) as [ws|];
    [|by intros [= <- <-]]. cbn. destruct (t_leases (w_db w) !! _) as [l|]; [destruct (String.eqb _ _)|];
    by intros [= <- <-].
Qed.

Lemma heartbeat_keeps job r0 clock w w' :
  running_job (cj_id job) r0 w → heartbeat job clock w = (Ok (), w') → running_job (cj_id job) r0 w'.
Proof.
  intros Hrun. unfold heartbeat. intros (now & w0 & Hnow & Hk)%wm_bind_Ok.
  destruct clock as [now'|]; cbn in Hnow; [injection Hnow as -> <-|done].
  apply wm_bind_Ok in Hk as ([] & w1 & Hrenew%work_call_Ok & Hk).
  apply wm_bind_Ok in Hk as (held & w2 & Hacq%work_call_Ok & Hk). apply acquire_keeps_jobs in Hacq.
  destruct held; [|done]. injection Hk as <-. unfold running_job. rewrite Hacq.
  apply store_Ok in Hrenew as [Hrenew _]. unfold renew_job_lease in Hrenew. run_step Hrenew.
  destruct Hrun as (row & Hrow & Ho & e & u & ->). rewrite update_owned_run, Hrow, Ho in Hrenew. injection Hrenew as Hdb.
  rewrite <-Hdb. cbn. rewrite lookup_insert_eq. eexists. split; [done|]. split; [done|]. by eexists _, _.
Qed.

Lemma poll_keeps id r0 poll w h w' :
  KeepsJobs (Running poll) → running_job id r0 w → poll w = (h, w') →
  KeepsJobs h ∧ running_job id r0 w'.
Proof.
  intros Hk (row & Hrow & Hr) Hp. inversion Hk as [|? Hrows Hnext]; subst.
  specialize (Hrows w id row Hrow). specialize (Hnext w). rewrite Hp in Hrows, Hnext. split; [done|]. by exists row.
Qed.

Lemma finish_job_keeps id r0 h w r w' :
  KeepsJobs h → running_job id r0 w → finish h w = (r, w') → running_job id r0 w'.
Proof.
  intros Hk. revert w. induction Hk as [|poll Hrows Hnext IH]; intros w Hrun; cbn; [by intros [= _ <-]|].
  destruct (poll w) as [h' w1] eqn:Hp. specialize (IH w w1). rewrite Hp in IH. apply IH.
  eapply poll_keeps; [|exact Hrun|exact Hp]. by constructor.
Qed.

Lemma heartbeats_keep job r0 h wakes w r w' :
  KeepsJobs h → running_job (cj_id job) r0 w →
  handle_with_lease_heartbeat job h wakes w = (Ok r, w') → running_job (cj_id job) r0 w'.
Proof.
  revert h w. induction wakes as [|[|now] wakes IH]; intros h w Hk Hrun; (destruct h as [res|poll]; cbn -[finish];
    [by intros [= _ <-]|]).
  - destruct (finish _ w) as [r1 w1] eqn:E. intros [= <- <-]. by eapply finish_job_keeps.
  - destruct (poll w) as [h' w1] eqn:Hp. destruct (poll_keeps _ _ _ _ _ _ Hk Hrun Hp). by apply IH.
  - intros ([] & w1 & Hb & Hrest)%wm_bind_Ok. eapply IH; [exact Hk| |exact Hrest]. by eapply heartbeat_keeps.
Qed.

Lemma retry_delay_bounds attempts : 1 <= attempts → 2 <= retry_delay attempts <= 256.
Proof.
  intros Ha. unfold retry_delay. assert (1 <= Z.max 0 (Z.min 8 attempts) <= 8) as Hr by lia.
  revert Hr. generalize (Z.max 0 (Z.min 8 attempts)). intros n Hn.
  pose proof (Z.pow_le_mono_r 2 1 n). pose proof (Z.pow_le_mono_r 2 n 8). cbn in *. lia.
Qed.

(** How a run comes to its end: another worker holds the lease of the workspace, or
    the handler returned. *)
Inductive Conclusion := WorkspaceHeld | Returned (result : result JobHandlerError ()).

(** The conclusion is what it says: there is such a lease, or the handler, polled under
    its leases as [wakes] says, returned this. *)
Definition concluded (id : Uuid) (r : JobRow) (now : Z) (wakes : list Wake) (w : World K) (c : Conclusion) : Prop :=
  match c with
  | WorkspaceHeld => ∃ workspace_id l, j_workspace_id r = Some workspace_id ∧
      t_leases (w_db w) !! (inst, workspace_id) = Some l ∧ l_owner l ≠ lease_owner ∧ now <= l_expires_at l
  | Returned result => ∃ expires w1 w2, let job := claimed_job id expires r in
      t_jobs (w_db w1) !! id = Some (claimed_row lease_owner expires now r) ∧ w_k w1 = w_k w ∧
      handle_with_lease_heartbeat job (handle job) wakes w1 = (Ok result, w2)
  end.

(** What the queue row [r] of a job has become when its run is over: a success
    completes it, a failure counts the attempt and is repeated after 2, 4, ..., 256
    seconds until the tenth, and waiting hands the attempt back. *)
Definition settled (finished_at : Z) (c : Conclusion) (r r' : JobRow) : Prop :=
  (j_installation_id r', j_kind r', j_workspace_id r', j_created_at r') = (j_installation_id r, j_kind r, j_workspace_id r, j_created_at r) ∧
  j_lease_owner r' = None ∧ j_lease_expires_at r' = None ∧ j_updated_at r' = finished_at ∧
  match c with
  | Returned (Ok _) =>
      j_status r' = JobCompleted ∧ j_attempts r' = j_attempts r + 1 ∧ j_available_at r' = j_available_at r ∧ j_payload r' = j_payload r
  | Returned (Err (HandlerFailed _)) =>
      j_attempts r' = j_attempts r + 1 ∧
      (j_attempts r' < 10 → j_status r' = JobPending ∧ j_payload r' = remove_key (j_payload r) "runtime_wait" ∧
         j_available_at r' = saturating_add_i64 finished_at (2 ^ Z.min 8 (j_attempts r'))) ∧
      (10 <= j_attempts r' → j_status r' = JobFailed ∧ j_payload r' = j_payload r ∧ j_available_at r' = j_available_at r)
  | WorkspaceHeld | Returned (Err (HandlerPending _)) =>
      j_status r' = JobPending ∧ j_attempts r' = j_attempts r ∧ j_payload r' = remove_key (j_payload r) "runtime_wait" ∧
      j_available_at r' = saturating_add_i64 finished_at 5
  | Returned (Err (HandlerPendingWithCheckpoint _ payload)) =>
      j_status r' = JobPending ∧ j_attempts r' = j_attempts r ∧
      j_available_at r' = saturating_add_i64 (default finished_at (get_i64 payload "reconciled_at")) 60 ∧
      ∃ nonce fields, as_object payload = Some fields ∧
        j_payload r' = Object (map_insert "runtime_wait"
          (json_object [("nonce", Str (uuid_to_string nonce)); ("until", Number (j_available_at r'))]) fields)
  end.

Lemma refund_claimed n : 0 <= n → refund_attempt (n + 1) = n.
Proof. intros Hn. unfold refund_attempt. destruct (Z.ltb_spec 0 (n + 1)); lia. Qed.

Lemma retry_delay_power n : 0 <= n → retry_delay n = 2 ^ Z.min 8 n.
Proof.
  intros Hn. unfold retry_delay. rewrite (Z.max_r 0) by lia. apply Z.min_l.
  pose proof (Z.pow_le_mono_r 2 (Z.min 8 n) 8). cbn in *. lia.
Qed.

Lemma persist_settles `{!JobHandlerLaws K} job r0 result now w w' :
  0 <= j_attempts r0 → cj_attempts job = j_attempts r0 + 1 → running_job (cj_id job) r0 w →
  persist_job_result job result now w = (Ok (), w') →
  ∃ r', t_jobs (w_db w') !! cj_id job = Some r' ∧ settled now (Returned result) r0 r'.
Proof.
  intros Hn Hatt Hrun. unfold persist_job_result. destruct result as [u|[m|m|m p]].
  - intros [_ (row & (_ & e & u' & ->) & Hrow)]%(update_owned_settles _ r0); [|done]. eexists. by split.
  - unfold persist_failed_job. rewrite Hatt. unfold MAX_JOB_ATTEMPTS. destruct (Z.leb_spec 10 (j_attempts r0 + 1)) as [Hmax|Hmax].
    + destruct (on_terminal_failure job now w) as [[[]|e] w1] eqn:E; [|done].
      assert (running_job (cj_id job) r0 w1) as Hrun1.
      { destruct Hrun as (row & Hrow & Hr). exists row. split; [|done]. by eapply terminal_keeps_jobs. }
      intros [_ (row & (_ & e & u' & ->) & Hrow)]%(update_owned_settles _ r0); [|done]. eexists. split; [exact Hrow|].
      split_and!; try done. cbn. lia.
    + intros [_ (row & (_ & e & u' & ->) & Hrow)]%(update_owned_settles _ r0); [|done]. eexists. split; [exact Hrow|].
      rewrite retry_delay_power by lia. split_and!; try done. cbn. lia.
  - intros [_ (row & (_ & e & u' & ->) & Hrow)]%(update_owned_settles _ r0); [|done]. eexists. split; [exact Hrow|].
    split_and!; try done. by apply refund_claimed.
  - unfold park_workspace_for_readiness. intros [Hpark _]%store_Ok. run_step Hpark.
    injection Hpark as Hdb. destruct Hrun as (row & Hrow & Ho & e & u & ->). unfold park_workspace_job in Hx.
    run_step Hx. run_step Hx. apply bind_run_Ok in Hx as ([] & db1 & Hupd & [= <- Hdb1]).
    rewrite update_owned_run in Hupd. cbn in Hupd. rewrite Hrow, Ho in Hupd. injection Hupd as <-.
    eexists. rewrite <-Hdb, <-Hdb1. cbn. rewrite lookup_insert_eq. split; [done|].
    split_and!; try done; [by apply refund_claimed|]. by eexists _, _.
Qed.

(** A workspace that is not acquired is held by another worker. *)
Lemma acquire_refused job now w w' : acquire_workspace job now w = (Ok false, w') →
  ∃ workspace_id l, cj_workspace_id job = Some workspace_id ∧ t_leases (w_db w) !! (inst, workspace_id) = Some l ∧
    l_owner l ≠ lease_owner ∧ now <= l_expires_at l.
Proof.
  unfold acquire_workspace. destruct (cj_workspace_id job) as [id|]; [|done]. intros [Hrun _]%store_Ok.
  unfold try_acquire_workspace_lease in Hrun. run_step Hrun. run_step Hrun. run_step Hrun.
  destruct (t_leases (w_db w) !! (inst, id)) as [l|] eqn:Hl; cbn in Hrun; [|done]. exists id, l. split_and!; [done..| |].
  - intros Ho. rewrite Ho, String.eqb_refl, orb_true_r in Hrun. done.
  - destruct (Z.ltb_spec (l_expires_at l) now); [done|lia].
Qed.

(** When [run_once] reports that it processed a job, that was the first due one
    and it has been settled. *)
Lemma run_once_settled `{!JobHandlerLaws K} now elapsed wakes w w' :
  (∀ k r, t_jobs (w_db w) !! k = Some r → 0 <= j_attempts r) →
  run_once now elapsed wakes w = (Ok true, w') →
  ∃ id r r' c, next_claimable inst now (w_db w) = Some (id, r) ∧ t_jobs (w_db w') !! id = Some r' ∧
    concluded id r now wakes w c ∧ settled (execution_finished_at now elapsed) c r r'.
Proof.
  intros Hn. unfold run_once. intros (job & w1 & Hclaim%work_call_Ok & Hk)%wm_bind_Ok.
  apply store_Ok in Hclaim as [Hclaim Ek1].
  destruct (claim_job_cases _ _ _ _ _ _ _ Hclaim) as [[_ [err ?]]|(Ho & e & He)]; [done|].
  rewrite (claim_job_run _ _ _ _ _ _ Ho He) in Hclaim.
  destruct (next_claimable inst now (w_db w)) as [[id r]|] eqn:Hnext; [|by injection Hclaim as <- _].
  injection Hclaim as <- Hdb1. exists id, r.
  pose proof (next_claimable_Some _ _ _ _ _ Hnext) as (Hid & Hc & _). specialize (Hn _ _ Hid).
  assert (t_jobs (w_db w1) !! id = Some (claimed_row lease_owner e now r)) as Hrow1 by (rewrite <-Hdb1; cbn; by rewrite lookup_insert_eq).
  assert (running_row r (claimed_row lease_owner e now r)) as Hclaimed.
  { split; [|by exists e, now]. unfold owned; cbn.
    assert (String.eqb (j_installation_id r) inst = true) as -> by (unfold claimable in Hc; by apply andb_true_iff in Hc as [-> _]).
    by rewrite !bool_decide_true. }
  unfold run_claimed in Hk. apply wm_bind_Ok in Hk as (held & w2 & Hacq%work_call_Ok & Hk).
  pose proof (acquire_keeps_jobs _ _ _ _ _ Hacq) as E2. assert (running_job id r w2) as Hrun2 by (eexists; by rewrite E2).
  destruct held; cbn [negb] in Hk.
  - apply wm_bind_Ok in Hk as (result & w3 & Hh & Hk). pose proof Hh as Hret.
    eapply (heartbeats_keep (claimed_job id e r)) in Hh; [|apply handler_keeps_jobs|exact Hrun2].
    apply wm_bind_Ok in Hk as (persisted & w4 & Hp & Hk). apply wm_bind_Ok in Hk as ([] & w5 & Hrel%work_call_Ok & Hk).
    apply wm_bind_Ok in Hk as ([] & w6 & Hg & [= <-]). unfold wgive in Hg. injection Hg as Hg <-.
    destruct persisted as [[]|err]; [|done]. apply release_keeps_jobs in Hrel. rewrite Hrel.
    destruct (persist_job_result _ _ _ w3) as [r4 w4'] eqn:E. injection Hp as -> ->.
    eapply (persist_settles (claimed_job id e r)) in E as (r' & Hr' & Hs); [|done..|exact Hh].
    exists r', (Returned result). split_and!; [done..| |done]. exists e, w2, w3. rewrite E2. split_and!; [done| |done].
    rewrite <-Ek1. by eapply acquire_keeps_rest.
  - pose proof (acquire_refused _ _ _ _ Hacq) as (ws & l & Hws & Hl & Hlo & Hle). rewrite <-Hdb1 in Hl.
    apply wm_bind_Ok in Hk as ([] & w3 & Hd%work_call_Ok & [= <-]).
    apply (update_owned_settles _ r) in Hd as [_ (row & (_ & e' & u & ->) & Hrow)]; [|done].
    eexists _, WorkspaceHeld. split_and!; [done|exact Hrow|by exists ws, l|]. split_and!; try done. by apply refund_claimed.
Qed.

(** ** The other jobs *)

(** Every job but [id] is as before. *)
Definition others_kept (id : Uuid) : relation Db := λ db db',
  ∀ k row, k ≠ id → t_jobs db !! k = Some row → t_jobs db' !! k = Some row.

#[global] Instance others_kept_relation id : TableRelation (others_kept id).
Proof. split; [split|]; [intros ???; done| |intros ????; done]. intros x y z Hxy Hyz k row Hk Hx. eauto. Qed.

#[global] Instance update_owned_others id f : Preserves (others_kept id) (update_owned inst lease_owner id f).
Proof.
  intros db r db'. rewrite update_owned_run. destruct (t_jobs db !! id) as [row|]; [destruct (owned _ _ row)|];
    intros [= <- <-]; try reflexivity. intros k row' Hk Hrow. cbn. by rewrite lookup_insert_ne.
Qed.

Lemma frames_others {A} id (m : DbM A) : Preserves (frames t_jobs) m → Preserves (others_kept id) m.
Proof. intros Hm db r db' Hrun k row _. by rewrite (Hm _ _ _ Hrun). Qed.

(** A step of the worker that keeps the other jobs, however it ends. *)
Definition OthersKept {A} (id : Uuid) (m : World K → A * World K) : Prop :=
  ∀ w r w', m w = (r, w') → others_kept id (w_db w) (w_db w').

Lemma others_ret {A} id (a : A) : OthersKept id (λ w, (a, w)).
Proof. intros ??? [= <- <-]. reflexivity. Qed.
Lemma others_store {A} id (m : DbM A) : Preserves (others_kept id) m → OthersKept id (store m).
Proof. intros Hm w r w'. unfold store. destruct (m (w_db w)) eqn:E. intros [= <- <-]. by eapply Hm. Qed.
Lemma others_call {A} id (m : World K → result StorageError.t A * World K) : OthersKept id m → OthersKept id (call m).
Proof. intros Hm w r w'. unfold call. destruct (m w) eqn:E. intros [= <- <-]. by eapply Hm. Qed.
Lemma others_bind {A B} id (m : WM A) (k : A → WM B) :
  OthersKept id m → (∀ a, OthersKept id (k a)) → OthersKept id (m ≫= k).
Proof.
  intros Hm Hk w r w'. unfold mbind, wm_bind. destruct (m w) as [[a|e] w1] eqn:E; intros Hrun.
  - transitivity (w_db w1); [by eapply Hm|by eapply Hk].
  - injection Hrun as <- <-. by eapply Hm.
Qed.

Lemma others_acquire id job now : OthersKept id (acquire_workspace job now).
Proof.
  unfold acquire_workspace. destruct (cj_workspace_id job); [|apply others_ret].
  apply others_store, frames_others. unfold try_acquire_workspace_lease.
  do 3 (apply preserves_bind; [apply _..|intros ?]).
  match goal with |- Preserves _ (if ?b then _ else _) => destruct b end; apply _.
Qed.
Lemma others_release id job : OthersKept id (release_workspace job).
Proof. intros w r w' Hrun k row _. by rewrite (release_keeps_jobs _ _ _ _ Hrun). Qed.
#[local] Hint Resolve others_ret others_store others_call others_acquire others_release : keeps.
Ltac others := walk ltac:(apply others_bind) ltac:(eauto with keeps typeclass_instances).

Lemma others_heartbeat job clock : OthersKept (cj_id job) (heartbeat job clock).
Proof. unfold heartbeat, renew_job_lease, wgive. others. Qed.

Lemma others_poll poll id : KeepsJobs (Running poll) → OthersKept id poll.
Proof.
  intros Hk w r w' Hp k row _ Hrow. inversion Hk as [|? Hrows _]; subst.
  specialize (Hrows w k row Hrow). by rewrite Hp in Hrows.
Qed.

Lemma others_finish h id : KeepsJobs h → OthersKept id (finish h).
Proof.
  induction 1 as [res|poll Hrows Hnext IH]; intros w r w'; cbn; [intros [= _ <-]; reflexivity|].
  destruct (poll w) as [h' w1] eqn:Hp. specialize (IH w w1 r w'). rewrite Hp in IH. intros Hf.
  transitivity (w_db w1); [|by apply IH]. eapply others_poll; [|exact Hp]. by constructor.
Qed.

Lemma others_handle job h wakes : KeepsJobs h → OthersKept (cj_id job) (handle_with_lease_heartbeat job h wakes).
Proof.
  revert h. induction wakes as [|[|now] wakes IH]; intros h Hk; (destruct h as [res|poll]; cbn -[finish];
    [apply others_ret|]).
  - intros w r w'. destruct (finish _ w) as [r1 w1] eqn:E. intros [= <- <-]. by eapply others_finish.
  - intros w r w'. destruct (poll w) as [h' w1] eqn:Hp. intros Hrun. transitivity (w_db w1).
    + by eapply others_poll.
    + eapply IH; [|exact Hrun]. inversion Hk as [|? _ Hnext]; subst. specialize (Hnext w). by rewrite Hp in Hnext.
  - apply others_bind; [apply others_heartbeat|intros _]. by apply IH.
Qed.

Lemma others_persist `{!JobHandlerLaws K} job result now : OthersKept (cj_id job) (persist_job_result job result now).
Proof.
  unfold persist_job_result. destruct result as [u|[m|m|m p]]; try (apply others_store, _).
  - unfold persist_failed_job. destruct (_ <=? _); [|apply others_store, _]. intros w r w'.
    destruct (on_terminal_failure job now w) as [[[]|e] w1] eqn:E; intros Hrun.
    + transitivity (w_db w1); [intros k row _; by eapply terminal_keeps_jobs|]. revert Hrun. apply others_store, _.
    + injection Hrun as <- <-. intros k row _. by eapply terminal_keeps_jobs.
Qed.

Lemma others_run_claimed `{!JobHandlerLaws K} job now elapsed wakes :
  OthersKept (cj_id job) (run_claimed job now elapsed wakes).
Proof.
  unfold run_claimed. apply others_bind; [eauto with keeps|intros []]; cbn [negb].
  - apply others_bind; [apply others_handle, handler_keeps_jobs|intros result].
    apply others_bind; [|intros persisted; unfold wgive; others].
    intros w r w'. destruct (persist_job_result _ _ _ w) as [r1 w1] eqn:E. intros [= <- <-]. by eapply others_persist.
  - others.
Qed.

(** A run changes the row of the job it claims at most, however it ends. *)
Lemma run_once_others `{!JobHandlerLaws K} now elapsed wakes w r w' k row :
  run_once now elapsed wakes w = (r, w') → t_jobs (w_db w) !! k = Some row →
  (∀ row0, next_claimable inst now (w_db w) ≠ Some (k, row0)) → t_jobs (w_db w') !! k = Some row.
Proof.
  unfold run_once, mbind, wm_bind, call, store.
  destruct (claim_job inst lease_owner now job_lease (w_db w)) as [claim db1] eqn:Hclaim. cbn.
  destruct (claim_job_cases _ _ _ _ _ _ _ Hclaim) as [[-> [err ->]]|(Ho & e & He)]; [by intros [= <- <-]|].
  rewrite (claim_job_run _ _ _ _ _ _ Ho He) in Hclaim.
  destruct (next_claimable inst now (w_db w)) as [[id r0]|] eqn:Hnext; injection Hclaim as <- <-; cbn;
    [|by intros [= <- <-]].
  intros Hrun Hrow Hne. assert (k ≠ id) as Hk by (intros ->; by eapply Hne).
  eapply (others_run_claimed (claimed_job id e r0)) in Hrun. apply Hrun; [exact Hk|]. cbn. by rewrite lookup_insert_ne.
Qed.
End JobWorker.
