(* ===== verification/WorkspaceHandler.v ===== *)
(** * The job handler of the control plane ([src/jobs/kubernetes.rs])

    [WorkspaceReconcileHandler] as the [JobHandler] of the worker: the dispatch on
    the kind of a job, the proof that no handler touches a row that is already in
    the queue, and what a run of the worker does to the queue with it. *)
From S2P Require Import Prelude Text Json Auth Quota Templates Workspaces Errors ShrinkOperation Database WorkspaceStore JobStore Events JobQueue WorkspaceActions ShrinkStore Reconcile ShrinkHandler JobWorker.

(** Jobs may be added, none is changed or removed. *)
Definition jobs_kept : relation Db := adds t_jobs (λ _, True).

#[global] Instance jobs_kept_relation : TableRelation jobs_kept.
Proof. unfold jobs_kept. apply _. Qed.

Lemma jobs_kept_row db db' id row :
  jobs_kept db db' → t_jobs db !! id = Some row → t_jobs db' !! id = Some row.
Proof. intros Hk Hrow. destruct (Hk id) as [->|[E _]]; [done|congruence]. Qed.

Lemma frames_jobs_kept {A} (m : DbM A) : Preserves (frames t_jobs) m → Preserves jobs_kept m.
Proof. intros Hm db r db' Hrun k. left. by rewrite (Hm _ _ _ Hrun). Qed.

Section WorkspaceHandler.
Context {K : Type} `{Coordinator K} `{StorageErrorText} `{UuidText} `{SqlBackend}.
Context (inst : string).

(** [handle] and [on_terminal_failure] of [WorkspaceReconcileHandler]. *)
Definition handle_workspace_job (job : ClaimedJob) : HM (World K) () :=
  if String.eqb (cj_kind job) "workspace_storage_shrink" then handle_storage_shrink inst job
  else if negb (String.eqb (cj_kind job) "reconcile_workspace")
  then throw (HandlerFailed ("unsupported background job kind " +:+ cj_kind job))
  else handle_reconcile inst job.

Definition workspace_terminal_failure (job : ClaimedJob) (now : Z) : DbM () :=
  if String.eqb (cj_kind job) "workspace_storage_shrink" then storage_shrink_terminal_failure inst job now
  else if negb (String.eqb (cj_kind job) "reconcile_workspace") then mret ()
  else reconcile_terminal_failure inst job now.

#[global] Instance workspace_reconcile_handler : JobHandler K := {|
  handle job := handling_of (handle_workspace_job job);
  on_terminal_failure job now := store (workspace_terminal_failure job now);
|}.

(** ** Database calls *)
Lemma apply_transition_jobs_kept w t actor now db w' db' :
  apply_transition inst w t actor now db = (Ok w', db') → jobs_kept db db'.
Proof.
  intros (s & g & row & db2 & _ & _ & _ & _ & -> & _ & _ & _ & _ & Hjob & Hscrub)%apply_transition_Ok.
  apply job_and_audit_jobs in Hjob as (db1 & Hadds & Hdb1).
  assert (jobs_kept db db2) as Hkept.
  { intros k. destruct (Hadds k) as [->|(Hnone & r & Hr & _)].
    - destruct (enqueues_reconcile t); [|left; by rewrite Hdb1].
      destruct Hdb1 as (id & Hfree & ->). cbn in Hfree. destruct (decide (k = id)) as [->|].
      + right. rewrite lookup_insert_eq. eauto.
      + left. by rewrite lookup_insert_ne.
    - right. split; [|eauto]. destruct (enqueues_reconcile t); [|by rewrite Hdb1 in Hnone].
      destruct Hdb1 as (id & _ & Hdb1). rewrite Hdb1 in Hnone. by apply lookup_insert_None in Hnone as [? _]. }
  destruct (confirms_deletion t); [|by injection Hscrub as <-].
  rewrite scrub_deleted_run in Hscrub. destruct (t_tombstones db2 !! _); [done|]. injection Hscrub as <-.
  intros k. destruct (Hkept k) as [E|E]; [left|right]; (unfold scrubbed, delete_workspace_row;
    destruct (t_workspaces _ !! _); [destruct (_ && _)|]; exact E).
Qed.

#[local] Instance record_jobs_kept id g o actor now :
  Preserves jobs_kept (record_workspace_observation inst id g o actor now).
Proof.
  intros db r db'. apply (transaction_inv (jobs_kept db)); [done|reflexivity|]. intros a db1.
  rewrite bind_run, select_workspace_run.
  destruct (match t_workspaces db !! id with Some _ => _ | None => _ end) as [row|].
  - rewrite bind_run; cbn -[apply_transition]. destruct (decode_workspace id row); [|done].
    destruct (negb _); [intros [= <- <-]; reflexivity|].
    intros (w' & db2 & Ha & [= <- <-])%bind_run_Ok. by eapply apply_transition_jobs_kept.
  - intros [= <- <-]. reflexivity.
Qed.

#[local] Instance mark_jobs_kept id g now : Preserves jobs_kept (mark_workspace_failed_if_generation inst id g now).
Proof.
  intros db r db'. apply (transaction_inv (jobs_kept db)); [done|reflexivity|]. intros a db1.
  rewrite bind_run, select_workspace_run.
  destruct (match t_workspaces db !! id with Some _ => _ | None => _ end) as [row|].
  - rewrite bind_run; cbn -[apply_transition observe]. destruct (decode_workspace id row); [|done].
    destruct (_ || _); [intros [= <- <-]; reflexivity|].
    intros (w' & db2 & Ha & [= <- <-])%bind_run_Ok. by eapply apply_transition_jobs_kept.
  - intros [= <- <-]. reflexivity.
Qed.

#[local] Instance cleanup_jobs_kept op : Preserves jobs_kept (save_storage_shrink_cleanup_identity inst op).
Proof.
  apply frames_jobs_kept. unfold save_storage_shrink_cleanup_identity, storage_backend, select_workspace.
  apply preserves_transaction; [apply _|]. apply preserves_bind; [apply _| |intros [w d]].
  - apply preserves_bind; [apply _..|intros [row|]]; apply _.
  - do 2 (apply preserves_bind; [apply _..|intros ?]).
    match goal with |- Preserves _ (match ?x with _ => _ end) => destruct x end; unfold update_shrink; apply _.
Qed.

#[local] Instance save_jobs_kept op update : Preserves jobs_kept (save_storage_shrink inst op update).
Proof.
  apply frames_jobs_kept. unfold save_storage_shrink, storage_backend, select_workspace.
  apply preserves_transaction; [apply _|]. apply preserves_bind; [apply _| |intros [w d]].
  - apply preserves_bind; [apply _..|intros [row|]]; apply _.
  - do 2 (apply preserves_bind; [apply _..|intros ?]). apply preserves_bind; [apply _| |intros ?].
    + destruct (bool_decide _); [apply _|]. apply preserves_bind; [apply _..|intros [w' d']].
      unfold write_workspace, update_workspace. apply _.
    + unfold update_shrink, insert_shrink_audit, insert_audit. apply preserves_bind; [apply _..|intros ?].
      destruct (phase_active _); apply _.
Qed.

#[local] Instance enqueue_jobs_kept job now : Preserves jobs_kept (enqueue_job inst job now).
Proof.
  unfold enqueue_job, insert_job. apply preserves_bind; [apply _..|intros id].
  apply preserves_bind; [apply _| |intros ?; apply _]. by apply preserves_adds_insert; [apply _|..].
Qed.

#[local] Instance terminal_jobs_kept job now : Preserves jobs_kept (workspace_terminal_failure job now).
Proof.
  unfold workspace_terminal_failure, storage_shrink_terminal_failure, reconcile_terminal_failure, latest_storage_shrink.
  repeat match goal with
  | |- Preserves _ (_ ≫= _) => apply preserves_bind; [apply _..|intros ?]
  | |- Preserves _ (let _ := _ in _) => cbv zeta
  | |- Preserves _ (if ?b then _ else _) => destruct b
  | |- Preserves _ (match ?x with _ => _ end) => destruct x
  end; apply _.
Qed.

(** ** The handlers *)
#[local] Instance reconcile_jobs_kept w job : HPreserves jobs_kept (reconcile_workspace inst w job).
Proof. apply reconcile_workspace_preserves; [apply _..|]. intros ids db k. by left. Qed.

#[local] Instance get_workspace_jobs_kept id : Preserves jobs_kept (get_workspace inst id).
Proof.
  unfold get_workspace, select_workspace. apply preserves_bind; [apply _..|intros [row|]; apply _].
Qed.

(** The queue of the operation's world has only grown since [db0]. *)
Section Queue.
Context (db0 : Db).
Definition queue_kept (s : ShrinkState (K:=K)) : Prop := jobs_kept db0 (w_db s.2).

Lemma queue_kept_assign f : Keeps queue_kept (assign f).
Proof. by apply keeps_assign. Qed.
Lemma queue_kept_ask {A} (m : StorageShrinkOperation → K → result string A * K) : Keeps queue_kept (ask m).
Proof. by apply keeps_ask. Qed.
Lemma queue_kept_ask_mut {A} (m : StorageShrinkOperation → K → result string A * StorageShrinkOperation * K) :
  Keeps queue_kept (ask_mut m).
Proof. by apply keeps_ask_mut. Qed.
Lemma queue_kept_world {A} (m : HM (World K) A) : HPreserves jobs_kept m → Keeps queue_kept (in_world m).
Proof. intros Hm. apply keeps_in_world. intros op w r w' Hs E. unfold queue_kept in *. transitivity (w_db w); [exact Hs|by eapply Hm]. Qed.
#[local] Hint Constants Opaque : keeps.
#[local] Hint Resolve keeps_ret keeps_throw keeps_pending keeps_advanced keeps_operation keeps_checked : keeps.
Ltac keep := walk ltac:(apply keeps_bind) ltac:(auto with keeps).
#[local] Hint Resolve queue_kept_assign queue_kept_ask queue_kept_ask_mut : keeps.
Lemma queue_kept_save update : Keeps queue_kept (save inst update).
Proof. unfold save. keep. apply queue_kept_world, _. Qed.
#[local] Hint Resolve queue_kept_save : keeps.
Lemma queue_kept_reconcile w job : Keeps queue_kept (in_world (reconcile_workspace inst w job)).
Proof. apply queue_kept_world, _. Qed.
#[local] Hint Resolve queue_kept_reconcile : keeps.

Lemma queue_kept_run w job now : Keeps queue_kept (run_phase inst w job now).
Proof.
  assert (Keeps queue_kept (advance_storage_shrink inst w job now)) as Hadvance.
  { unfold advance_storage_shrink, advance_queued, advance_stopping, advance_measuring,
      advance_copying_or_verifying, advance_switching, advance_resuming, advance_rolling_back, advance_reclaiming,
      finish_resuming, measure_role, destination_role, copy_role, run_shrink_pod, enter, touch. keep. }
  assert (Keeps queue_kept (finish_preflight_failure inst w now)) as Hpreflight.
  { unfold finish_preflight_failure, enter. keep. }
  unfold run_phase. apply keeps_bind; [keep|intros op]. apply keeps_if; [done|]. intros s r s' Hs.
  match goal with |- (let '(_, _) := ?m in _) = _ → _ => destruct m as [r1 s1] eqn:E end.
  assert (queue_kept s1) as Hs1.
  { match type of E with (if ?b then _ else _) _ = _ => destruct b end;
      [by injection E as <- <-|by eapply Hadvance]. }
  destruct r1 as [u|[error|error|error p]]; try (by intros [= <- <-]).
  apply use_keeps; [|done]. keep.
Qed.
End Queue.

#[local] Instance handle_jobs_kept job : HPreserves jobs_kept (handle_workspace_job job).
Proof.
  unfold handle_workspace_job. apply hpreserves_if; [apply _| |apply hpreserves_if; [apply _..|]].
  - unfold handle_storage_shrink, latest_storage_shrink. destruct (cj_workspace_id job) as [id|]; [|apply _].
    apply hpreserves_bind; [apply _..|intros [op|]]; [|apply _]. apply hpreserves_if; [apply _..|].
    do 2 (apply hpreserves_bind; [apply _..|intros ?]). intros w r w'. unfold with_operation.
    destruct (run_phase _ _ _ _ _) as [r1 s1] eqn:E. intros [= <- <-].
    eapply (queue_kept_run (w_db w)) in E; [exact E|]. unfold queue_kept. reflexivity.
  - unfold handle_reconcile, storage_shrink_active. destruct (cj_workspace_id job) as [id|]; [|apply _].
    apply hpreserves_bind; [apply _..|intros [workspace|[]]]; apply _.
Qed.

#[global] Instance workspace_handler_laws : JobHandlerLaws K.
Proof.
  split.
  - intros job. cbn. apply keeps_running.
    + intros w id row. destruct (handle_workspace_job job w) as [r w'] eqn:E. cbn.
      apply jobs_kept_row. by eapply handle_jobs_kept.
    + intros w. destruct (handle_workspace_job job w). constructor.
  - intros job now w r w'. cbn. unfold store. destruct (workspace_terminal_failure job now (w_db w)) as [r1 db] eqn:E.
    intros [= <- <-] id row. apply jobs_kept_row. by eapply terminal_jobs_kept.
Qed.

(** ** The worker with this handler *)
Context (lease_owner : string) (job_lease workspace_lease : Z).
Abbreviation run_once := (run_once (K:=K) inst lease_owner job_lease workspace_lease).

(** A finished run settles its job, whatever cluster, handler and heartbeats
    did in between: when [run_once] reports that it processed a job, that was the
    first due one, and its row is what the end of the run asks for. *)
Theorem run_once_settles now elapsed wakes w w' :
  (∀ k r, t_jobs (w_db w) !! k = Some r → 0 <= j_attempts r) →
  run_once now elapsed wakes w = (Ok true, w') →
  ∃ id r r' c, next_claimable inst now (w_db w) = Some (id, r) ∧ t_jobs (w_db w') !! id = Some r' ∧
    concluded inst lease_owner job_lease workspace_lease id r now wakes w c ∧ settled (execution_finished_at now elapsed) c r r'.
Proof. pose proof workspace_handler_laws. by apply run_once_settled. Qed.

(** A worker only touches the job it claimed: however a run ends, including a
    lost lease or a broken database call, every other row of the queue is as it
    was. *)
Theorem run_once_own_job_only now elapsed wakes w r w' k row :
  run_once now elapsed wakes w = (r, w') → t_jobs (w_db w) !! k = Some row →
  (∀ row0, next_claimable inst now (w_db w) ≠ Some (k, row0)) → t_jobs (w_db w') !! k = Some row.
Proof. pose proof workspace_handler_laws. by apply run_once_others. Qed.
End WorkspaceHandler.

(** ** Witnesses *)
Module WorkerSample.
(** A queue with a due reconciliation of the sample workspace and another
    worker's running job. *)
Definition due : JobRow :=
  pending_row "inst" "reconcile_workspace" (Some ActionSample.id) (Object []) 50 50.
Definition running : JobRow := claimed_row "b" 160 100 due.
Definition db : Db := set_t_jobs {[ 10%N := due; 11%N := running ]} ActionSample.db.
Definition world : World () := mkWorld db ().
End WorkerSample.

Lemma run_once_settles_witness :
  let U := decimal_uuid_text in let B : SqlBackend := Sqlite in
  let C := QuietCluster.coordinator in let T := QuietCluster.error_text in
  ∃ w' id r r' c,
    run_once (H:=@workspace_reconcile_handler () C T U B "inst") "inst" "a" 60 60 110 5 [Tick (Some 130); Poll]
      WorkerSample.world = (Ok true, w') ∧
    next_claimable "inst" 110 WorkerSample.db = Some (id, r) ∧ t_jobs (w_db w') !! id = Some r' ∧
    settled (execution_finished_at 110 5) c r r'.
Proof.
  intros U B C T. eexists _.
  destruct (@run_once_settles () C T U B "inst" "a" 60 60 110 5 [Tick (Some 130); Poll] WorkerSample.world)
    with (w' := (@run_once () (@workspace_reconcile_handler () C T U B "inst") U "inst" "a" 60 60 110 5
                   [Tick (Some 130); Poll] WorkerSample.world).2) as (id & r & r' & c & H1 & H2 & _ & H3).
  - intros k r. unfold WorkerSample.world, WorkerSample.db; cbn. rewrite lookup_insert_Some.
    intros [[<- <-]|[_ [<- <-]%lookup_singleton_Some]]; cbn; lia.
  - vm_compute; reflexivity.
  - exists id, r, r', c. split_and!; [vm_compute; reflexivity|done..].
Defined.

Lemma run_once_own_job_only_witness :
  let U := decimal_uuid_text in let B : SqlBackend := Sqlite in
  let C := QuietCluster.coordinator in let T := QuietCluster.error_text in
  ∃ r w',
    run_once (H:=@workspace_reconcile_handler () C T U B "inst") "inst" "a" 60 60 110 5 [Tick (Some 130)]
      WorkerSample.world = (r, w') ∧
    t_jobs (w_db w') !! 11%N = Some WorkerSample.running.
Proof.
  intros U B C T. eexists _, _. split; [vm_compute; reflexivity|].
  eapply (@run_once_own_job_only () C T U B "inst" "a" 60 60 110 5 [Tick (Some 130)] WorkerSample.world);
    [vm_compute; reflexivity|reflexivity|].
  intros row0. vm_compute. congruence.
Defined.
