(* ===== verification/Injections.v ===== *)
(** * Injections ([src/injections.rs] and [src/injections/], the resolution of
    [src/jobs/kubernetes.rs], [WorkspaceInjectionRefs] of
    [src/storage/workspace_injection_refs.rs])

    Environment variables and files that organizations, users and workspaces put
    into a workspace. Items of a more specific scope replace those of a wider one
    at the same destination, except that a locked item of the organization can
    not be replaced. Fields of an item carry the prefix [ii_].

    Base64 and OpenSSH keys are parsed by external crates, and the Unicode tables
    behind [char::is_alphanumeric] are not reproduced: the three are parameters
    of the validators. *)
From stdpp Require Import sorting pretty.
From S2P Require Import Prelude Text Json Quota Auth Templates Workspaces Errors ShrinkOperation.

(** ** Data ([model.rs], [error.rs]) *)
Inductive InjectionScope := OrganizationScope | UserScope | WorkspaceScope.
Inductive InjectionKind := EnvironmentVariable | SecretFile | ConfigFile | SshPublicKey.
Inductive InjectionValue := Utf8 (value : string) | Base64 (value : string).
Inductive InjectionDestinationKind := Environment | File.

#[global] Instance injection_scope_eq_dec : EqDecision InjectionScope.
Proof. solve_decision. Defined.
#[global] Instance injection_kind_eq_dec : EqDecision InjectionKind.
Proof. solve_decision. Defined.
#[global] Instance injection_value_eq_dec : EqDecision InjectionValue.
Proof. solve_decision. Defined.
#[global] Instance destination_kind_eq_dec : EqDecision InjectionDestinationKind.
Proof. solve_decision. Defined.
#[global] Instance destination_kind_countable : Countable InjectionDestinationKind.
Proof.
  refine (inj_countable' (λ k, match k with Environment => true | File => false end)
            (λ b, if b : bool then Environment else File) _).
  by intros [].
Defined.

(** [labels] is a [BTreeMap]: its entries in key order. *)
Record InjectionItem := mkItem {
  ii_key : string;
  ii_kind : InjectionKind;
  ii_target : string;
  ii_value : InjectionValue;
  ii_sensitive : bool;
  ii_locked : bool;
  ii_version : Z;
  ii_file_mode : option Z;
  ii_owner : option string;
  ii_group : option string;
  ii_template_selector : option string;
  ii_labels : list (string * string);
}.

Record ResolvedInjection := mkResolved { ri_source : InjectionScope; ri_item : InjectionItem }.

(** What a client may see of an injection. *)
Record ResolvedInjectionSummary := mkSummary {
  is_key : string;
  is_kind : InjectionKind;
  is_target : string;
  is_source : InjectionScope;
  is_sensitive : bool;
  is_locked : bool;
  is_version : Z;
  is_file_mode : option Z;
  is_owner : option string;
  is_group : option string;
  is_template_selector : option string;
  is_labels : list (string * string);
}.

Definition summary (r : ResolvedInjection) : ResolvedInjectionSummary :=
  let item := ri_item r in
  mkSummary (ii_key item) (ii_kind item) (ii_target item) (ri_source r) (ii_sensitive item) (ii_locked item)
    (ii_version item) (ii_file_mode item) (ii_owner item) (ii_group item) (ii_template_selector item) (ii_labels item).

#[global] Instance injection_item_eq_dec : EqDecision InjectionItem.
Proof. solve_decision. Defined.
#[global] Instance resolved_injection_eq_dec : EqDecision ResolvedInjection.
Proof. solve_decision. Defined.

Inductive InjectionError :=
  | EmptyKey
  | InvalidKey
  | InvalidTarget
  | InvalidFileMode
  | InvalidOwnerOrGroup
  | InvalidTemplateSelector
  | InvalidLabelSelector
  | InvalidBase64
  | InvalidEnvironmentValue
  | InvalidSshPublicKey
  | DuplicateInScope (key : string) (scope : InjectionScope)
  | DuplicateDestinationInScope (kind : InjectionKind) (target : string) (scope : InjectionScope)
  | LockOutsideOrganization (key : string) (scope : InjectionScope)
  | LockedOverride (key : string) (kind : InjectionKind) (target : string) (attempted_scope : InjectionScope).

(** [InjectionScope::as_str], [InjectionKind::as_str] and their inverses. *)
Definition scope_as_str (s : InjectionScope) : string :=
  match s with OrganizationScope => "organization" | UserScope => "user" | WorkspaceScope => "workspace" end.
Definition scope_from_database (value : string) : option InjectionScope :=
  if String.eqb value "organization" then Some OrganizationScope
  else if String.eqb value "user" then Some UserScope
  else if String.eqb value "workspace" then Some WorkspaceScope
  else None.

(** ** The cascade ([cascade.rs]) *)
Definition Destination : Type := InjectionDestinationKind * string.

Definition destination_kind (kind : InjectionKind) : InjectionDestinationKind :=
  match kind with
  | EnvironmentVariable => Environment
  | SecretFile | ConfigFile | SshPublicKey => File
  end.
Definition destination (item : InjectionItem) : Destination := (destination_kind (ii_kind item), ii_target item).

Abbreviation Resolution := (gmap Destination ResolvedInjection).

(** [apply_scope], the loop over the items of one scope. *)
Fixpoint apply_items (scope : InjectionScope) (seen_keys : gset string) (seen_destinations : gset Destination)
    (items : list InjectionItem) (resolved : Resolution) : result InjectionError Resolution :=
  match items with
  | [] => Ok resolved
  | item :: items =>
      _ ← ensure (negb (String.eqb (ii_key item) "")) EmptyKey;
      _ ← ensure (negb (ii_locked item && negb (bool_decide (scope = OrganizationScope))))
            (LockOutsideOrganization (ii_key item) scope);
      _ ← ensure (negb (bool_decide (ii_key item ∈ seen_keys))) (DuplicateInScope (ii_key item) scope);
      _ ← ensure (negb (bool_decide (destination item ∈ seen_destinations)))
            (DuplicateDestinationInScope (ii_kind item) (ii_target item) scope);
      _ ← match resolved !! destination item with
          | Some existing =>
              ensure (negb (ii_locked (ri_item existing)))
                (LockedOverride (ii_key (ri_item existing)) (ii_kind item) (ii_target item) scope)
          | None => Ok ()
          end;
      apply_items scope ({[ ii_key item ]} ∪ seen_keys) ({[ destination item ]} ∪ seen_destinations) items
        (<[ destination item := mkResolved scope item ]> resolved)
  end.
Definition apply_scope (resolved : Resolution) (scope : InjectionScope) (items : list InjectionItem)
    : result InjectionError Resolution := apply_items scope ∅ ∅ items resolved.

(** The order of the keys of the [BTreeMap]. *)
Definition destination_le (a b : Destination) : bool :=
  match a.1, b.1 with
  | Environment, File => true
  | File, Environment => false
  | _, _ => match String.compare a.2 b.2 with Gt => false | _ => true end
  end.
Definition into_values (resolved : Resolution) : list ResolvedInjection :=
  snd <$> merge_sort (λ a b : Destination * ResolvedInjection, Is_true (destination_le a.1 b.1))
    (map_to_list resolved).

Definition resolve_injections (organization user workspace : list InjectionItem)
    : result InjectionError (list ResolvedInjection) :=
  resolved ← apply_scope ∅ OrganizationScope organization;
  resolved ← apply_scope resolved UserScope user;
  resolved ← apply_scope resolved WorkspaceScope workspace;
  Ok (into_values resolved).

(** ** Selection ([selection.rs]) *)
Record InjectionSelection := mkSelection {
  sel_workspace_id : option Uuid;
  sel_organization_id : Uuid;
  sel_owner_id : Uuid;
  sel_template_id : option Uuid;
  sel_image : string;
  sel_access_mode : AccessMode;
}.

Section Selection.
Context `{UuidText}.

Definition selection_label (selection : InjectionSelection) (key : string) : option string :=
  if String.eqb key "workspace_id" then uuid_to_string <$> sel_workspace_id selection
  else if String.eqb key "organization_id" then Some (uuid_to_string (sel_organization_id selection))
  else if String.eqb key "owner_id" then Some (uuid_to_string (sel_owner_id selection))
  else if String.eqb key "template_id" then uuid_to_string <$> sel_template_id selection
  else if String.eqb key "image" then Some (sel_image selection)
  else if String.eqb key "access_mode" then Some (access_mode_as_str (sel_access_mode selection))
  else None.

Definition injection_matches (selection : InjectionSelection) (item : InjectionItem) : bool :=
  is_none_or (ii_template_selector item) (λ selector,
    String.eqb selector "*"
    || is_some_and (sel_template_id selection) (λ id, String.eqb selector (uuid_to_string id)))
  && forallb (λ label, is_some_and (selection_label selection label.1) (λ actual, String.eqb actual label.2))
       (ii_labels item).

Definition select_injections (items : list InjectionItem) (selection : InjectionSelection) : list InjectionItem :=
  List.filter (injection_matches selection) items.
End Selection.

Definition filter_injection_refs (items : list InjectionItem) (refs : option (list string)) (include_locked : bool)
    : list InjectionItem :=
  match refs with
  | None => items
  | Some refs =>
      List.filter (λ item, (include_locked && ii_locked item) || bool_decide (ii_key item ∈ refs)) items
  end.

(** ** Validation ([validation.rs]) *)
Section Validation.
Context `{UuidText}.
Context (is_alphanumeric : Z → bool) (base64_decode : string → option (list Z))
  (openssh_public_key : list Z → bool).

Definition validate_injection_key (key : string) : result InjectionError () :=
  ensure (is_trimmed key && negb (String.eqb key "") && (Z.of_nat (length (chars key)) <=? 128)
          && forallb (λ c, is_alphanumeric c || bool_decide (c ∈ [c_space; c_dot; c_underscore; c_dash]))
               (chars key))
    InvalidKey.

Definition valid_account_name (name : string) : bool :=
  negb (String.eqb name "") && (len name <=? 64) && negb (starts_with (Z.eqb c_dash) (chars name))
  && forallb (λ c, is_ascii_alphanumeric c || bool_decide (c ∈ [c_underscore; c_dash])) (chars name).

Definition valid_label (label : string * string) : bool :=
  negb (String.eqb label.1 "") && (len label.1 <=? 128)
  && negb (String.eqb label.2 "") && (len label.2 <=? 512)
  && negb (existsb is_whitespace (chars label.1)).

Definition validate_environment_target (target : string) : result InjectionError () :=
  ensure (match chars target with
          | [] => false
          | first :: rest =>
              ((first =? c_underscore) || is_ascii_alphabetic first)
              && forallb (λ c, (c =? c_underscore) || is_ascii_alphanumeric c) rest
          end) InvalidTarget.

Definition validate_environment_value (value : InjectionValue) : result InjectionError () :=
  decoded ← match value with
            | Utf8 value => Ok (bytes value)
            | Base64 value => ok_or (base64_decode value) InvalidBase64
            end;
  _ ← ensure (valid_utf8 decoded) InvalidEnvironmentValue;
  ensure (negb (existsb is_control (decode_utf8 decoded))) InvalidEnvironmentValue.

Definition validate_file_target (target : string) : result InjectionError () :=
  let bs := bytes target in
  ensure (starts_with (Z.eqb c_slash) bs && negb (bool_decide (0 ∈ bs))
          && negb (bool_decide ([c_dot; c_dot] ∈ split_on c_slash bs))) InvalidTarget.

Definition validate_injection_item (item : InjectionItem) : result InjectionError () :=
  _ ← validate_injection_key (ii_key item);
  _ ← ensure (negb (is_some_and (ii_file_mode item) (λ mode, 511 <? mode))) InvalidFileMode;
  _ ← ensure (is_none_or (ii_owner item) valid_account_name && is_none_or (ii_group item) valid_account_name)
        InvalidOwnerOrGroup;
  _ ← ensure (is_none_or (ii_template_selector item)
                (λ selector, String.eqb selector "*" || is_some (uuid_parse_str selector)))
        InvalidTemplateSelector;
  _ ← ensure (forallb valid_label (ii_labels item)) InvalidLabelSelector;
  _ ← match ii_kind item with
      | EnvironmentVariable =>
          _ ← validate_environment_target (ii_target item);
          validate_environment_value (ii_value item)
      | SecretFile | ConfigFile => validate_file_target (ii_target item)
      | SshPublicKey =>
          _ ← validate_file_target (ii_target item);
          match ii_value item with
          | Utf8 value => ensure (openssh_public_key (trim (chars value))) InvalidSshPublicKey
          | Base64 _ => Err InvalidSshPublicKey
          end
      end;
  match ii_value item with
  | Base64 value => _ ← ok_or (base64_decode value) InvalidBase64; Ok ()
  | Utf8 _ => Ok ()
  end.
End Validation.

(** [WorkspaceInjectionRefs] and its [validate]; [windows(2)] on the sorted keys
    looks for a repetition. *)
Record WorkspaceInjectionRefs := mkRefs {
  refs_organization : option (list string);
  refs_user : option (list string);
}.

Definition valid_ref (key : string) : bool :=
  negb (String.eqb key "") && (len key <=? 128)
  && forallb (λ c, is_ascii_alphanumeric c || bool_decide (c ∈ [c_dot; c_underscore; c_dash])) (chars key).
Definition refs_validate (refs : WorkspaceInjectionRefs) : bool :=
  forallb (λ keys, is_none_or keys (λ keys, bool_decide (NoDup keys) && forallb valid_ref keys))
    [refs_organization refs; refs_user refs].

(** ** The injections of a workspace ([resolve_workspace_injections]) *)
Section Workspace.
Context `{UuidText}.

Definition set_ssh_target (template : WorkspaceTemplateSpec) (name : string) (item : InjectionItem) : InjectionItem :=
  mkItem (ii_key item) (ii_kind item) (workspace_home template +:+ "/.mwc/" +:+ name +:+ ".pub") (ii_value item)
    (ii_sensitive item) (ii_locked item) (ii_version item) (Some 384)
    (Some (workspace_user template)) (Some (workspace_user template)) (ii_template_selector item) (ii_labels item).

Definition is_ssh (item : InjectionItem) : bool := bool_decide (ii_kind item = SshPublicKey).

Definition clear_sensitive (item : InjectionItem) : InjectionItem :=
  mkItem (ii_key item) (ii_kind item) (ii_target item) (ii_value item) false (ii_locked item) (ii_version item)
    (ii_file_mode item) (ii_owner item) (ii_group item) (ii_template_selector item) (ii_labels item).

(** [normalize_resolved_ssh_items], on one item. *)
Definition normalize_resolved (template : WorkspaceTemplateSpec) (r : ResolvedInjection) : ResolvedInjection :=
  if is_ssh (ri_item r)
  then mkResolved (ri_source r)
         (clear_sensitive (set_ssh_target template ("injected-" +:+ ii_key (ri_item r)) (ri_item r)))
  else r.

(** An item another user shares: [append_shared_ssh_keys]. *)
Definition shared_item (template : WorkspaceTemplateSpec) (user_id : Uuid) (index : nat) (item : InjectionItem)
    : ResolvedInjection :=
  let label := uuid_to_string user_id +:+ "-" +:+ pretty index in
  let item := set_ssh_target template ("access-" +:+ label) item in
  mkResolved UserScope
    (mkItem ("mwc-access-" +:+ label) (ii_kind item) (ii_target item) (ii_value item) false false (ii_version item)
       (ii_file_mode item) (ii_owner item) (ii_group item) (ii_template_selector item) (ii_labels item)).

(** [candidates]: the users with SSH access to the organization's workspaces and
    the items of each. *)
Definition shared_keys (w : Workspace) (selection : InjectionSelection)
    (candidates : list (Uuid * list InjectionItem)) : list ResolvedInjection :=
  concat ((λ candidate,
    if (candidate.1 =? ws_owner_id w)%N then []
    else imap (shared_item (ws_template w) candidate.1)
           (List.filter is_ssh (select_injections candidate.2 selection))) <$> candidates).

Definition workspace_selection (w : Workspace) : InjectionSelection :=
  mkSelection (Some (ws_id w)) (ws_organization_id w) (ws_owner_id w) (ws_template_id w)
    (image (ws_template w)) (access_mode (ws_template w)).

Definition resolve_workspace_injections (w : Workspace) (organization user workspace : list InjectionItem)
    (refs : WorkspaceInjectionRefs) (candidates : list (Uuid * list InjectionItem))
    : result InjectionError (list ResolvedInjection) :=
  let selection := workspace_selection w in
  let organization := filter_injection_refs (select_injections organization selection) (refs_organization refs) true in
  let user := filter_injection_refs (select_injections user selection) (refs_user refs) false in
  let workspace := select_injections workspace selection in
  resolved ← resolve_injections organization user workspace;
  Ok ((normalize_resolved (ws_template w) <$> resolved) ++ shared_keys w selection candidates).
End Workspace.

(** ** The cascade, declaratively *)

(** What a scope may contain, and what it may not override. *)
Record scope_accepts (scope : InjectionScope) (items : list InjectionItem) (resolved : Resolution) : Prop := {
  scope_keys : Forall (λ item, ii_key item ≠ "") items;
  scope_locks : Forall (λ item, ii_locked item = true → scope = OrganizationScope) items;
  scope_keys_unique : NoDup (ii_key <$> items);
  scope_destinations_unique : NoDup (destination <$> items);
  scope_overrides : Forall (λ item, ∀ r, resolved !! destination item = Some r → ii_locked (ri_item r) = false) items;
}.

(** The items of a scope laid over a resolution. *)
Definition overlay (scope : InjectionScope) (items : list InjectionItem) (resolved : Resolution) : Resolution :=
  foldl (λ m item, <[ destination item := mkResolved scope item ]> m) resolved items.

Lemma overlay_not_in scope items m d : d ∉ (destination <$> items) → overlay scope items m !! d = m !! d.
Proof.
  unfold overlay. revert m. induction items as [|item items IH]; intros m; cbn; [done|].
  rewrite not_elem_of_cons. intros [Hne Hd]. rewrite IH by done. by rewrite lookup_insert_ne.
Qed.

Lemma overlay_in scope items m item :
  NoDup (destination <$> items) → item ∈ items → overlay scope items m !! destination item = Some (mkResolved scope item).
Proof.
  unfold overlay. revert m. induction items as [|i items IH]; intros m; cbn; [by intros _ ?%elem_of_nil|].
  intros [Hni Hnd]%NoDup_cons [->|Hin]%elem_of_cons; [|by apply IH].
  change (overlay scope items (<[destination i := mkResolved scope i]> m) !! destination i = Some (mkResolved scope i)).
  rewrite overlay_not_in by done. by rewrite lookup_insert_eq.
Qed.

Lemma overlay_lookup scope items m d r :
  NoDup (destination <$> items) →
  overlay scope items m !! d = Some r ↔
  (∃ item, item ∈ items ∧ destination item = d ∧ r = mkResolved scope item) ∨
  (d ∉ (destination <$> items) ∧ m !! d = Some r).
Proof.
  intros Hnd. destruct (decide (d ∈ (destination <$> items))) as [Hin|Hni].
  - apply list_elem_of_fmap in Hin as (item & -> & Hitem). rewrite overlay_in by done. split.
    + intros [= <-]. left. eauto.
    + intros [(item' & Hitem' & Hd & ->)|[Hni _]]; [|by destruct Hni; apply list_elem_of_fmap; eauto].
      rewrite <-(overlay_in scope items m item') by done. rewrite Hd. by rewrite overlay_in.
  - rewrite overlay_not_in by done. split; [eauto|]. intros [(item & Hitem & <- & _)|[_ ?]]; [|done].
    destruct Hni. by apply list_elem_of_fmap_2.
Qed.

Lemma apply_items_cons scope sk sd item items m m' :
  apply_items scope sk sd (item :: items) m = Ok m' ↔
  ii_key item ≠ "" ∧ (ii_locked item = true → scope = OrganizationScope) ∧ ii_key item ∉ sk ∧
  destination item ∉ sd ∧ (∀ r, m !! destination item = Some r → ii_locked (ri_item r) = false) ∧
  apply_items scope ({[ ii_key item ]} ∪ sk) ({[ destination item ]} ∪ sd) items
    (<[ destination item := mkResolved scope item ]> m) = Ok m'.
Proof.
  cbn. unfold ensure. destruct (String.eqb_spec (ii_key item) ""); cbn; [naive_solver|].
  destruct (ii_locked item) eqn:Hl, (decide (scope = OrganizationScope)) as [->|];
    rewrite ?(bool_decide_true (_ = OrganizationScope)), ?(bool_decide_false (_ = OrganizationScope)) by done; cbn;
    try (by split; [done|intros (_ & Hs & _); specialize (Hs eq_refl)]).
  all: destruct (bool_decide_reflect (ii_key item ∈ sk)); cbn; [naive_solver|].
  all: destruct (bool_decide_reflect (destination item ∈ sd)); cbn; [naive_solver|].
  all: destruct (m !! destination item) as [r|] eqn:Hm; [destruct (ii_locked (ri_item r)) eqn:Hr|]; cbn.
  all: split; [try done; intros Hrec; split_and!; try done; congruence|].
  all: intros (_ & _ & _ & _ & Ho & Hrec); try done. all: specialize (Ho _ eq_refl); congruence.
Qed.

(** The loop accepts exactly such scopes and lays the items over the resolution. *)
Lemma apply_items_Ok scope sk sd items m m' :
  apply_items scope sk sd items m = Ok m' ↔
  scope_accepts scope items m ∧ Forall (λ k, k ∉ sk) (ii_key <$> items) ∧
  Forall (λ d, d ∉ sd) (destination <$> items) ∧ m' = overlay scope items m.
Proof.
  revert sk sd m. induction items as [|item items IH]; intros sk sd m.
  - cbn. split; [intros [= ->]|intros (_ & _ & _ & ->); done]. split_and!; [split|..]; try constructor; done.
  - rewrite apply_items_cons, IH. cbn [overlay foldl]. split.
    + intros (Hk & Hl & Hsk & Hsd & Ho & [Hks Hls Hku Hdu Hos] & Hfk & Hfd & ->).
      assert (destination item ∉ (destination <$> items)) as Hni.
      { intros Hin. rewrite Forall_forall in Hfd. apply Hfd in Hin. by apply not_elem_of_union in Hin as [?%not_elem_of_singleton _]. }
      split_and!; [split|..|done]; cbn.
      * by constructor.
      * by constructor.
      * constructor; [|done]. intros Hin. rewrite Forall_forall in Hfk. apply Hfk in Hin.
        by apply not_elem_of_union in Hin as [?%not_elem_of_singleton _].
      * by constructor.
      * constructor; [done|]. rewrite Forall_forall in Hos |- *. intros i Hi r Hr. apply (Hos i Hi).
        rewrite lookup_insert_ne; [done|]. intros E. destruct Hni. rewrite E. by apply list_elem_of_fmap_2.
      * constructor; [done|]. eapply Forall_impl; [exact Hfk|]. by intros k [_ ?]%not_elem_of_union.
      * constructor; [done|]. eapply Forall_impl; [exact Hfd|]. by intros d [_ ?]%not_elem_of_union.
    + intros ([Hks Hls Hku Hdu Hos] & Hfk & Hfd & ->). cbn in *.
      apply Forall_cons in Hks as [??], Hls as [??], Hos as [? Hos], Hfk as [? Hfk], Hfd as [? Hfd].
      apply NoDup_cons in Hku as [Hk ?], Hdu as [Hd ?]. split_and!; try done; [split; try done|..].
      * rewrite Forall_forall in Hos |- *. intros i Hi r. rewrite lookup_insert_ne; [by apply Hos|].
        intros E. destruct Hd. rewrite E. by apply list_elem_of_fmap_2.
      * rewrite Forall_forall in Hfk |- *. intros k Hin. apply not_elem_of_union. split; [|by apply Hfk].
        apply not_elem_of_singleton. by intros ->.
      * rewrite Forall_forall in Hfd |- *. intros d Hin. apply not_elem_of_union. split; [|by apply Hfd].
        apply not_elem_of_singleton. by intros ->.
Qed.

Lemma apply_scope_Ok m scope items m' :
  apply_scope m scope items = Ok m' ↔ scope_accepts scope items m ∧ m' = overlay scope items m.
Proof.
  unfold apply_scope. rewrite apply_items_Ok. split; [naive_solver|]. intros [Ha ->].
  split_and!; try done; apply Forall_forall; intros; apply not_elem_of_empty.
Qed.

Lemma elem_of_into_values (r : ResolvedInjection) (m : Resolution) : r ∈ into_values m ↔ ∃ d, m !! d = Some r.
Proof.
  unfold into_values. rewrite list_elem_of_fmap. split.
  - intros ([d r'] & -> & Hin). exists d. rewrite merge_sort_Permutation in Hin. by apply elem_of_map_to_list in Hin.
  - intros [d Hd]. exists (d, r). split; [done|]. rewrite merge_sort_Permutation. by apply elem_of_map_to_list.
Qed.

(** Every entry sits at the destination of its item. *)
Definition placed (m : Resolution) : Prop := ∀ d r, m !! d = Some r → destination (ri_item r) = d.

Lemma overlay_placed scope items m : placed m → placed (overlay scope items m).
Proof.
  unfold overlay. revert m. induction items as [|item items IH]; intros m Hm; cbn; [done|].
  apply IH. intros d r [[<- <-]|[_ ?]]%lookup_insert_Some; [done|by apply Hm].
Qed.

Lemma into_values_destinations (m : Resolution) :
  placed m → (destination ∘ ri_item) <$> into_values m ≡ₚ (map_to_list m).*1.
Proof.
  intros Hm. unfold into_values. rewrite merge_sort_Permutation. rewrite <-list_fmap_compose.
  apply reflexive_eq. apply list_fmap_ext. intros i [d r] Hi. cbn. apply Hm.
  apply elem_of_map_to_list. by eapply list_elem_of_lookup_2.
Qed.

#[global] Instance destination_le_total : Total (λ a b : Destination * ResolvedInjection, Is_true (destination_le a.1 b.1)).
Proof.
  intros [[[] s] r] [[[] t] r']; cbn; auto; unfold destination_le; cbn; rewrite (String.compare_antisym s t);
    destruct (String.compare t s); cbn; auto.
Qed.

Lemma into_values_sorted (m : Resolution) :
  placed m →
  Sorted (λ a b, Is_true (destination_le (destination (ri_item a)) (destination (ri_item b)))) (into_values m).
Proof.
  intros Hm. unfold into_values. set (R := λ a b : Destination * ResolvedInjection, Is_true (destination_le a.1 b.1)).
  assert (Sorted R (merge_sort R (map_to_list m))) as Hs by apply Sorted_merge_sort, _.
  assert (Forall (λ kv, destination (ri_item kv.2) = kv.1) (merge_sort R (map_to_list m))) as Hd.
  { rewrite merge_sort_Permutation. apply Forall_forall. intros [d r] Hin. by apply Hm, elem_of_map_to_list. }
  revert Hd. induction Hs as [|a l Hs IH Hhd]; intros Hd; cbn; [constructor|].
  apply Forall_cons in Hd as [Ha Hd]. constructor; [by apply IH|].
  destruct Hhd as [|b l Hab]; cbn; constructor. apply Forall_cons in Hd as [Hb _]. by rewrite Ha, Hb.
Qed.

(** The items of each scope. *)
Definition scoped (organization user workspace : list InjectionItem) (scope : InjectionScope) : list InjectionItem :=
  match scope with OrganizationScope => organization | UserScope => user | WorkspaceScope => workspace end.

(** [narrower s t]: scope [s] takes precedence over [t]. *)
Definition narrower (s t : InjectionScope) : bool :=
  match s, t with
  | UserScope, OrganizationScope | WorkspaceScope, (OrganizationScope | UserScope) => true
  | _, _ => false
  end.

Definition final (organization user workspace : list InjectionItem) : Resolution :=
  overlay WorkspaceScope workspace (overlay UserScope user (overlay OrganizationScope organization ∅)).

Lemma resolve_injections_Ok organization user workspace res :
  resolve_injections organization user workspace = Ok res ↔
  scope_accepts OrganizationScope organization ∅ ∧
  scope_accepts UserScope user (overlay OrganizationScope organization ∅) ∧
  scope_accepts WorkspaceScope workspace (overlay UserScope user (overlay OrganizationScope organization ∅)) ∧
  res = into_values (final organization user workspace).
Proof.
  unfold resolve_injections. rewrite bind_Ok. setoid_rewrite apply_scope_Ok. split.
  - intros (m1 & [H1 ->] & Hr). rewrite bind_Ok in Hr. destruct Hr as (m2 & Ha2 & Hr).
    apply apply_scope_Ok in Ha2 as [H2 ->]. rewrite bind_Ok in Hr. destruct Hr as (m3 & Ha3 & [= <-]).
    by apply apply_scope_Ok in Ha3 as [H3 ->].
  - intros (H1 & H2 & H3 & ->). exists (overlay OrganizationScope organization ∅). split; [done|].
    rewrite bind_Ok. exists (overlay UserScope user (overlay OrganizationScope organization ∅)).
    split; [by apply apply_scope_Ok|]. rewrite bind_Ok. eexists. split; [by apply apply_scope_Ok|done].
Qed.

Lemma elem_of_final organization user workspace r :
  NoDup (destination <$> organization) → NoDup (destination <$> user) → NoDup (destination <$> workspace) →
  (∃ d, final organization user workspace !! d = Some r) ↔
  ri_item r ∈ scoped organization user workspace (ri_source r) ∧
  ∀ scope item, narrower scope (ri_source r) = true → item ∈ scoped organization user workspace scope →
    destination item ≠ destination (ri_item r).
Proof.
  intros Ho Hu Hw. unfold final. split.
  - intros [d Hd]. rewrite !overlay_lookup, lookup_empty in Hd by done.
    destruct Hd as [(item & Hin & <- & ->)|[Hnw [(item & Hin & <- & ->)|[Hnu [(item & Hin & <- & ->)|[_ ?]]]]]];
      [..|done]; cbn; (split; [done|]).
    + by intros [].
    + intros [] i Hn Hi E; try done. destruct Hnw. rewrite <-E. by apply list_elem_of_fmap_2.
    + intros [] i Hn Hi E; try done; [destruct Hnu|destruct Hnw]; rewrite <-E; by apply list_elem_of_fmap_2.
  - intros [Hin Hnone]. exists (destination (ri_item r)). rewrite !overlay_lookup by done.
    assert (∀ scope, narrower scope (ri_source r) = true →
      destination (ri_item r) ∉ (destination <$> scoped organization user workspace scope)) as Hni.
    { intros scope Hn (i & E & Hi)%list_elem_of_fmap. by apply (Hnone scope i). }
    destruct r as [[] item]; cbn in *.
    + right. split; [by apply (Hni WorkspaceScope)|]. right. split; [by apply (Hni UserScope)|]. left. eauto.
    + right. split; [by apply (Hni WorkspaceScope)|]. left. eauto.
    + left. eauto.
Qed.

(** What a set of items must satisfy to be resolved. *)
Record cascade_accepted (organization user workspace : list InjectionItem) : Prop := {
  accepted_keys scope : Forall (λ item, ii_key item ≠ "") (scoped organization user workspace scope);
  accepted_keys_unique scope : NoDup (ii_key <$> scoped organization user workspace scope);
  accepted_destinations_unique scope : NoDup (destination <$> scoped organization user workspace scope);
  accepted_locks scope item : item ∈ scoped organization user workspace scope → ii_locked item = true →
    scope = OrganizationScope;
  accepted_overrides scope item policy : scope ≠ OrganizationScope →
    item ∈ scoped organization user workspace scope → policy ∈ organization → ii_locked policy = true →
    destination item ≠ destination policy;
}.

Lemma accepted_scope organization user workspace scope m :
  cascade_accepted organization user workspace →
  (∀ item r, item ∈ scoped organization user workspace scope → m !! destination item = Some r →
     ii_locked (ri_item r) = false) →
  scope_accepts scope (scoped organization user workspace scope) m.
Proof. intros [Hk Hku Hdu Hl Ho] Hm. split; try done; apply Forall_forall; eauto. Qed.

Lemma accepted_iff organization user workspace :
  cascade_accepted organization user workspace ↔
  scope_accepts OrganizationScope organization ∅ ∧
  scope_accepts UserScope user (overlay OrganizationScope organization ∅) ∧
  scope_accepts WorkspaceScope workspace (overlay UserScope user (overlay OrganizationScope organization ∅)).
Proof.
  split.
  - intros Ha. pose proof Ha as [_ _ Hdu Hl Ho].
    pose proof (Hdu OrganizationScope : NoDup (destination <$> organization)) as Hdo.
    pose proof (Hdu UserScope : NoDup (destination <$> user)) as Hduu.
    assert (∀ scope item r, scope ≠ OrganizationScope → item ∈ scoped organization user workspace scope →
      overlay OrganizationScope organization ∅ !! destination item = Some r → ii_locked (ri_item r) = false) as Horg.
    { intros scope item r Hs Hi. rewrite overlay_lookup, lookup_empty by done.
      intros [(policy & Hp & E & ->)|[_ ?]]; [|done]. cbn. apply not_true_iff_false. intros Hlocked.
      by apply (Ho scope item policy). }
    split_and!; [apply (accepted_scope _ _ _ OrganizationScope _ Ha)|apply (accepted_scope _ _ _ UserScope _ Ha)
                |apply (accepted_scope _ _ _ WorkspaceScope _ Ha)].
    + intros item r _. by rewrite lookup_empty.
    + intros item r. by apply (Horg UserScope).
    + intros item r Hi. rewrite overlay_lookup by done. intros [(u & Hu & _ & ->)|[_ Hr]]; [|by eapply (Horg WorkspaceScope)].
      cbn. apply not_true_iff_false. intros Hlocked. by apply (Hl UserScope) in Hlocked.
  - intros ([Hk1 Hl1 Hku1 Hdu1 Ho1] & [Hk2 Hl2 Hku2 Hdu2 Ho2] & [Hk3 Hl3 Hku3 Hdu3 Ho3]).
    rewrite Forall_forall in Hl1, Hl2, Hl3, Ho2, Ho3. split; [by intros []..| |].
    + intros [] item; [done|apply Hl2|apply Hl3].
    + intros scope item policy Hs Hi Hp Hlocked E.
      pose proof (overlay_in OrganizationScope organization ∅ policy Hdu1 Hp) as Hpol. rewrite <-E in Hpol.
      destruct scope; [done|by specialize (Ho2 _ Hi _ Hpol); cbn in Ho2; congruence|].
      destruct (decide (destination item ∈ (destination <$> user))) as [(u & Eu & Hu)%list_elem_of_fmap|Hni].
      * rewrite Eu in Hpol. specialize (Ho2 _ Hu _ Hpol). cbn in Ho2. congruence.
      * rewrite <-(overlay_not_in UserScope user) in Hpol by done. specialize (Ho3 _ Hi _ Hpol). cbn in Ho3. congruence.
Qed.

(** C33: the cascade: items are resolved exactly when keys are non-empty and, like
    destinations, unique within each scope, only the organization locks, and no
    narrower scope has an item at the destination of a locked one. The result
    then has the items that no narrower scope replaces, each with its scope,
    one per destination and ordered by destination. *)
Theorem cascade_exact organization user workspace :
  match resolve_injections organization user workspace with
  | Ok res =>
      cascade_accepted organization user workspace ∧
      (∀ r, r ∈ res ↔
         ri_item r ∈ scoped organization user workspace (ri_source r) ∧
         ∀ scope item, narrower scope (ri_source r) = true → item ∈ scoped organization user workspace scope →
           destination item ≠ destination (ri_item r)) ∧
      NoDup (destination ∘ ri_item <$> res) ∧
      Sorted (λ a b, Is_true (destination_le (destination (ri_item a)) (destination (ri_item b)))) res
  | Err _ => ¬ cascade_accepted organization user workspace
  end.
Proof.
  destruct (resolve_injections organization user workspace) as [res|e] eqn:E.
  - apply resolve_injections_Ok in E as (H1 & H2 & H3 & ->). split; [by apply accepted_iff|].
    assert (placed (final organization user workspace)) as Hplaced by (repeat apply overlay_placed; done).
    split_and!.
    + intros r. rewrite elem_of_into_values. apply elem_of_final; [apply H1|apply H2|apply H3].
    + rewrite into_values_destinations by done. apply NoDup_fst_map_to_list.
    + apply into_values_sorted, Hplaced.
  - intros (H1 & H2 & H3)%accepted_iff.
    assert (resolve_injections organization user workspace = Ok (into_values (final organization user workspace)))
      as E' by (by apply resolve_injections_Ok). congruence.
Qed.

Lemma elem_of_select `{UuidText} items selection item :
  item ∈ select_injections items selection ↔ item ∈ items ∧ injection_matches selection item = true.
Proof. unfold select_injections. by rewrite !list_elem_of_In, filter_In. Qed.

(** A locked item survives every list of references. *)
Lemma elem_of_filter_refs items refs item :
  item ∈ items → ii_locked item = true → item ∈ filter_injection_refs items refs true.
Proof.
  intros Hi Hl. destruct refs as [refs|]; [|done]. cbn. apply list_elem_of_In, filter_In.
  split; [by apply list_elem_of_In|]. by rewrite Hl.
Qed.

(** Organization policy cannot be evaded: whatever items the user and the
    workspace have and whichever references the workspace selects, the
    injections of a workspace contain every locked item of its organization that
    applies to it. *)
Theorem locked_policy_applied `{UuidText} w organization user workspace refs candidates res policy :
  resolve_workspace_injections w organization user workspace refs candidates = Ok res →
  policy ∈ organization → ii_locked policy = true → injection_matches (workspace_selection w) policy = true →
  normalize_resolved (ws_template w) (mkResolved OrganizationScope policy) ∈ res.
Proof.
  unfold resolve_workspace_injections. intros (resolved & Hr & [= <-])%bind_Ok Hin Hl Hm.
  apply elem_of_app. left. apply list_elem_of_fmap_2.
  apply resolve_injections_Ok in Hr as (H1 & H2 & H3 & ->). rewrite elem_of_into_values.
  apply elem_of_final; [apply H1|apply H2|apply H3|]. cbn. split.
  - apply elem_of_filter_refs; [|done]. by apply elem_of_select.
  - intros scope item Hn Hi. eapply accepted_overrides; [by apply accepted_iff; split_and!; eassumption| |exact Hi| |done].
    + by destruct scope.
    + apply elem_of_filter_refs; [|done]. by apply elem_of_select.
Qed.

(** An item whose key the validator accepts, but which no workspace can refer to:
    keys may contain spaces and letters of any script, references only ASCII. *)
Lemma valid_key_not_referable is_alphanumeric :
  (∀ c, is_ascii_alphanumeric c = true → is_alphanumeric c = true) →
  validate_injection_key is_alphanumeric "team key" = Ok () ∧
  refs_validate (mkRefs (Some ["team key"]) None) = false.
Proof.
  intros Ha. split; [|done]. unfold validate_injection_key. apply ensure_Ok. rewrite !andb_true_iff.
  split_and!; [done|done|done|]. apply forallb_forall. intros c Hc. apply orb_true_iff.
  cbn in Hc. repeat destruct Hc as [<-|Hc]; (by left; apply Ha) || (by right) || done.
Qed.

(** ** Witnesses *)
Module InjectionSample.
Definition item (key : string) (kind : InjectionKind) (target : string) (locked : bool) : InjectionItem :=
  mkItem key kind target (Utf8 "value") false locked 1 None None None None [].
Definition policy : InjectionItem := item "proxy" EnvironmentVariable "HTTP_PROXY" true.
Definition organization : list InjectionItem := [policy; item "editor" ConfigFile "/etc/editor" false].
Definition user : list InjectionItem := [item "mine" SecretFile "/etc/editor" false; item "other" ConfigFile "/x" false].
Definition refs : WorkspaceInjectionRefs := mkRefs (Some []) (Some ["mine"]).
End InjectionSample.

Example cascade_sample :
  (λ r, (ri_source r, ii_key (ri_item r))) <$>
    (default [] (match resolve_injections InjectionSample.organization InjectionSample.user [] with
                 | Ok res => Some res | Err _ => None end))
  = [(OrganizationScope, "proxy"); (UserScope, "mine"); (UserScope, "other")].
Proof. vm_compute. reflexivity. Qed.

Lemma locked_policy_applied_witness :
  let _ := decimal_uuid_text in
  ∃ res, resolve_workspace_injections Sample.workspace InjectionSample.organization InjectionSample.user []
           InjectionSample.refs [] = Ok res ∧
    mkResolved OrganizationScope InjectionSample.policy ∈ res.
Proof.
  intros U. eexists. split; [vm_compute; reflexivity|].
  eapply (@locked_policy_applied U Sample.workspace InjectionSample.organization InjectionSample.user []
            InjectionSample.refs [] _ InjectionSample.policy);
    [vm_compute; reflexivity|constructor|reflexivity|reflexivity].
Defined.
