(* ===== verification/Materialization.v ===== *)
(** * Materialising injections ([src/kubernetes/materialization.rs],
    [src/kubernetes/materialization/dictionary.rs])

    The resolved injections of a workspace become the data of four Kubernetes
    objects, a Secret and a ConfigMap each for environment and files, with a
    manifest of the files and one of the variables. Large text files of the
    ConfigMap are replaced by a dictionary of their repeated chunks.

    Texts are their UTF-8 bytes. Base64 and JSON are external crates: the
    functions this file needs of them are parameters, with the documented law
    that parsing what was printed gives it back where a theorem needs it. The
    metadata of the objects is left out. *)
From Stdlib Require Import Decimal DecimalString DecimalNat.
From S2P Require Import Prelude Text Json Quota Auth Templates Workspaces Errors ShrinkOperation Injections.

Inductive MaterializationError :=
  | MatConfig
  | MatRuntimeIdentity
  | MatJson
  | MatInvalidBase64
  | EnvironmentMustBeUtf8
  | EnvironmentContainsControl
  | InvalidEnvironmentName (name : string)
  | InvalidTargetPath (path : string)
  | DuplicateTarget (target : string)
  | InvalidFileManifest.

Abbreviation Bytes := (list Z).

Record FileManifestEntry := mkFileEntry {
  fe_key : string;
  fe_kind : InjectionKind;
  fe_target : string;
  fe_source : InjectionScope;
  fe_object : string;
  fe_data_key : string;
  fe_mode : option Z;
  fe_owner : option string;
  fe_group : option string;
}.

Record EnvironmentManifestEntry := mkEnvEntry {
  ee_name : string;
  ee_source : InjectionScope;
  ee_object : string;
  ee_data_key : string;
}.

Record MaterializedData := mkData {
  secret_environment : gmap string Bytes;
  config_environment : gmap string Bytes;
  secret_files : gmap string Bytes;
  config_files : gmap string Bytes;
  config_binary_files : gmap string Bytes;
  targets : gset string;
  environment_targets : gset string;
  files : list FileManifestEntry;
  environment : list EnvironmentManifestEntry;
}.
Definition empty_data : MaterializedData := mkData ∅ ∅ ∅ ∅ ∅ ∅ ∅ [] [].

(** [format!("{prefix}-{index:04}")]: the decimal digits, filled up to four with
    zeros. *)
Definition padded (index : nat) : string :=
  let digits := Nat.to_uint index in
  DecimalString.NilEmpty.string_of_uint (Nat.iter (4 - Decimal.nb_digits digits) Decimal.D0 digits).
Definition env_key (index : nat) : string := "env-" +:+ padded index.
Definition file_key (index : nat) : string := "file-" +:+ padded index.

Section Materialization.
Context (base64_decode : string → option Bytes).

Definition decode_value (value : InjectionValue) : result MaterializationError Bytes :=
  match value with
  | Utf8 value => Ok (bytes value)
  | Base64 value => ok_or (base64_decode value) MatInvalidBase64
  end.

Definition validate_environment_name (name : string) : result MaterializationError () :=
  ensure (match chars name with
          | [] => false
          | first :: rest =>
              ((first =? c_underscore) || is_ascii_alphabetic first)
              && forallb (λ c, (c =? c_underscore) || is_ascii_alphanumeric c) rest
          end) (InvalidEnvironmentName name).

Definition validate_absolute_path (path : string) : result MaterializationError () :=
  let bs := bytes path in
  ensure (starts_with (Z.eqb c_slash) bs && negb (bool_decide ([c_dot; c_dot] ∈ split_on c_slash bs)))
    (InvalidTargetPath path).

Definition object_name (secret : bool) : string := if secret then "secret" else "config_map".

Definition insert_environment (data : MaterializedData) (index : nat) (resolved : ResolvedInjection) (value : Bytes)
    : result MaterializationError MaterializedData :=
  let item := ri_item resolved in
  _ ← validate_environment_name (ii_target item);
  _ ← ensure (valid_utf8 value) EnvironmentMustBeUtf8;
  _ ← ensure (negb (existsb is_control (decode_utf8 value))) EnvironmentContainsControl;
  if String.eqb (ii_target item) "RUSTUP_HOME" then Ok data
  else
    let data_key := env_key index in
    let secret := ii_sensitive item in
    Ok (mkData
      (if secret then <[ii_target item := value]> (secret_environment data) else secret_environment data)
      (if secret then config_environment data else <[ii_target item := value]> (config_environment data))
      (if secret then <[data_key := value]> (secret_files data) else secret_files data)
      (if secret then config_files data else <[data_key := value]> (config_files data))
      (config_binary_files data) (targets data) ({[ii_target item]} ∪ environment_targets data) (files data)
      (environment data ++ [mkEnvEntry (ii_target item) (ri_source resolved) (object_name secret) data_key])).

Definition insert_file (data : MaterializedData) (index : nat) (resolved : ResolvedInjection) (value : Bytes)
    : result MaterializationError MaterializedData :=
  let item := ri_item resolved in
  _ ← validate_absolute_path (ii_target item);
  let data_key := file_key index in
  let use_secret := ii_sensitive item || bool_decide (ii_kind item = SecretFile) in
  Ok (mkData (secret_environment data) (config_environment data)
    (if use_secret then <[data_key := value]> (secret_files data) else secret_files data)
    (if negb use_secret && valid_utf8 value then <[data_key := value]> (config_files data) else config_files data)
    (if negb use_secret && negb (valid_utf8 value) then <[data_key := value]> (config_binary_files data)
     else config_binary_files data)
    (targets data) (environment_targets data)
    (files data ++ [mkFileEntry (ii_key item) (ii_kind item) (ii_target item) (ri_source resolved)
                      (object_name use_secret) data_key (ii_file_mode item) (ii_owner item) (ii_group item)])
    (environment data)).

(** [MaterializedData::insert]. *)
Definition insert_injection (data : MaterializedData) (index : nat) (resolved : ResolvedInjection)
    : result MaterializationError MaterializedData :=
  let item := ri_item resolved in
  _ ← ensure (negb (bool_decide (ii_target item ∈ targets data))) (DuplicateTarget (ii_target item));
  let data := mkData (secret_environment data) (config_environment data) (secret_files data) (config_files data)
                (config_binary_files data) ({[ii_target item]} ∪ targets data) (environment_targets data)
                (files data) (environment data) in
  value ← decode_value (ii_value item);
  match ii_kind item with
  | EnvironmentVariable => insert_environment data index resolved value
  | SecretFile | ConfigFile | SshPublicKey => insert_file data index resolved value
  end.

Fixpoint insert_all (data : MaterializedData) (index : nat) (resolved : list ResolvedInjection)
    : result MaterializationError MaterializedData :=
  match resolved with
  | [] => Ok data
  | item :: resolved =>
      data ← insert_injection data index item;
      insert_all data (S index) resolved
  end.

(** [build], up to the metadata: the data of the environment Secret and ConfigMap
    and of the file Secret and ConfigMap. *)
Record Materialized := mkMaterialized {
  m_environment_secret : gmap string Bytes;
  m_environment_config : gmap string Bytes;
  m_file_secret : gmap string Bytes;
  m_file_config : gmap string Bytes;
  m_file_config_binary : gmap string Bytes;
  m_environment_targets : gset string;
  m_provenance : list ResolvedInjectionSummary;
}.

Context (files_json : list FileManifestEntry → Bytes) (environment_json : list EnvironmentManifestEntry → Bytes).

Definition build (resolved : list ResolvedInjection) : result MaterializationError Materialized :=
  data ← insert_all empty_data 0 resolved;
  Ok (mkMaterialized (secret_environment data) (config_environment data) (secret_files data)
        (<["workspace-environment.json" := environment_json (environment data)]>
           (<["workspace-files.json" := files_json (files data)]> (config_files data)))
        (config_binary_files data) (environment_targets data) (summary <$> resolved)).

(** ** Where a value ends up *)
Definition slot (key : string) (data : MaterializedData) : option Bytes * option Bytes * option Bytes :=
  (secret_files data !! key, config_files data !! key, config_binary_files data !! key).
Definition env_slot (target : string) (data : MaterializedData) : option Bytes * option Bytes :=
  (secret_environment data !! target, config_environment data !! target).

(** A file of the injection, in the object its sensitivity and encoding ask for. *)
Definition file_slot (item : InjectionItem) (value : Bytes) : option Bytes * option Bytes * option Bytes :=
  if ii_sensitive item || bool_decide (ii_kind item = SecretFile) then (Some value, None, None)
  else if valid_utf8 value then (None, Some value, None) else (None, None, Some value).

Definition stored (index : nat) (item : InjectionItem) (data : MaterializedData) : Prop :=
  ∃ value, decode_value (ii_value item) = Ok value ∧
  if bool_decide (ii_kind item = EnvironmentVariable) then
    ii_target item ≠ "RUSTUP_HOME" →
    slot (env_key index) data = (if ii_sensitive item then (Some value, None, None) else (None, Some value, None)) ∧
    env_slot (ii_target item) data = (if ii_sensitive item then (Some value, None) else (None, Some value))
  else slot (file_key index) data = file_slot item value.

(** Nothing is stored yet for later indices and new targets. *)
Definition ready (n : nat) (data : MaterializedData) : Prop :=
  (∀ i, (n <= i)%nat → slot (file_key i) data = (None, None, None) ∧ slot (env_key i) data = (None, None, None)) ∧
  (∀ t, t ∉ targets data → env_slot t data = (None, None)).

Lemma padded_inj i j : padded i = padded j → i = j.
Proof.
  unfold padded. intros E%(f_equal NilEmpty.uint_of_string). rewrite !NilEmpty.usu in E. injection E as E.
  assert (∀ n d, Nat.of_uint (Nat.iter n D0 d) = Nat.of_uint d) as Hz by (intros n d; by induction n).
  apply (f_equal Nat.of_uint) in E. rewrite !Hz in E. by rewrite !Unsigned.of_to in E.
Qed.
Lemma file_key_inj i j : file_key i = file_key j → i = j.
Proof. unfold file_key. intros E%(inj (String.append _)). by apply padded_inj. Qed.
Lemma env_key_inj i j : env_key i = env_key j → i = j.
Proof. unfold env_key. intros E%(inj (String.append _)). by apply padded_inj. Qed.
Lemma file_env_key i j : file_key i ≠ env_key j.
Proof. done. Qed.

(** What one insertion does: it uses a new target, stores the item and leaves
    everything else alone. *)
Lemma insert_injection_spec data n r data' :
  ready n data → insert_injection data n r = Ok data' →
  ii_target (ri_item r) ∉ targets data ∧ targets data' = {[ii_target (ri_item r)]} ∪ targets data ∧
  stored n (ri_item r) data' ∧
  (∀ key, key ≠ file_key n → key ≠ env_key n → slot key data' = slot key data) ∧
  (∀ t, t ≠ ii_target (ri_item r) → env_slot t data' = env_slot t data).
Proof.
  intros [Hfiles Henv]. unfold insert_injection. destruct r as [source item]; cbn [ri_item].
  intros ([] & Ht%ensure_Ok & Hrun)%bind_Ok. apply negb_true_iff, bool_decide_eq_false in Ht.
  apply bind_Ok in Hrun as (value & Hvalue & Hrun). destruct (Hfiles n ltac:(lia)) as [Hf He].
  specialize (Henv _ Ht). unfold slot in Hf, He. injection Hf as Hf1 Hf2 Hf3. injection He as He1 He2 He3.
  unfold env_slot in Henv. injection Henv as Hn1 Hn2.
  assert (ii_kind item = EnvironmentVariable ∨ ii_kind item ≠ EnvironmentVariable ∧
          insert_file (mkData (secret_environment data) (config_environment data) (secret_files data)
            (config_files data) (config_binary_files data) ({[ii_target item]} ∪ targets data)
            (environment_targets data) (files data) (environment data)) n (mkResolved source item) value = Ok data')
    as [Hk|[Hk Hins]] by (destruct (ii_kind item); auto).
  - rewrite Hk in Hrun. unfold insert_environment in Hrun. cbn -[env_key] in Hrun. inv_binds.
    destruct (String.eqb_spec (ii_target item) "RUSTUP_HOME") as [E|E]; injection Hrun as <-.
    + split_and!; try done. exists value. split; [done|]. by rewrite bool_decide_true.
    + split_and!; try done; unfold slot, env_slot; cbn -[env_key file_key].
      * exists value. split; [done|]. rewrite bool_decide_true by done. intros _. unfold slot, env_slot.
        cbn -[env_key file_key]. destruct (ii_sensitive item); by rewrite !lookup_insert_eq, ?He1, ?He2, ?He3, ?Hn1, ?Hn2.
      * intros key Hkf Hke. destruct (ii_sensitive item); by rewrite lookup_insert_ne.
      * intros t Hne. destruct (ii_sensitive item); by rewrite lookup_insert_ne.
  - unfold insert_file in Hins. cbn -[file_key] in Hins. inv_binds. injection Hins as <-.
    split_and!; try done; unfold slot; cbn -[env_key file_key].
    + exists value. split; [done|]. rewrite bool_decide_false by done. unfold slot, file_slot. cbn -[env_key file_key].
      destruct (_ || _), (valid_utf8 value); cbn -[file_key]; by rewrite lookup_insert_eq, ?Hf1, ?Hf2, ?Hf3.
    + intros key Hkf Hke. destruct (_ || _), (valid_utf8 value); cbn -[file_key]; by rewrite lookup_insert_ne.
Qed.

Lemma insert_ready data n r data' :
  ready n data → insert_injection data n r = Ok data' → ready (S n) data'.
Proof.
  intros Hready Hins. pose proof Hready as [Hfiles Henv].
  destruct (insert_injection_spec _ _ _ _ Hready Hins) as (_ & Ht & _ & Hslot & Hes). split.
  - intros i Hi. rewrite !Hslot; [apply Hfiles; lia|..]; try done.
    + intros ?%env_key_inj. lia.
    + intros ?%file_key_inj. lia.
  - intros t. rewrite Ht. intros [Hne%not_elem_of_singleton Hni]%not_elem_of_union. rewrite Hes by done. by apply Henv.
Qed.

(** A stored item stays stored. *)
Lemma stored_insert data n r data' i item :
  ready n data → insert_injection data n r = Ok data' → (i < n)%nat → ii_target item ∈ targets data →
  stored i item data → stored i item data'.
Proof.
  intros Hready Hins Hi Ht (value & Hv & Hs). destruct (insert_injection_spec _ _ _ _ Hready Hins) as (Hnew & _ & _ & Hslot & Hes).
  exists value. split; [done|]. destruct (bool_decide _).
  - intros E. destruct (Hs E) as [Hs1 Hs2]. rewrite Hslot, Hes; [done|intros E'; destruct Hnew; by rewrite <-E'|done|intros ?%env_key_inj; lia].
  - rewrite Hslot; [done|intros ?%file_key_inj; lia|done].
Qed.

Lemma insert_all_stored data n l data' :
  ready n data → insert_all data n l = Ok data' →
  NoDup ((ii_target ∘ ri_item) <$> l) ∧
  (∀ i r, l !! i = Some r → stored (n + i) (ri_item r) data') ∧
  (∀ i item, (i < n)%nat → ii_target item ∈ targets data → stored i item data → stored i item data') ∧
  (∀ r, r ∈ l → ii_target (ri_item r) ∉ targets data).
Proof.
  revert data n. induction l as [|r l IH]; intros data n Hready; cbn.
  - intros [= <-]. split_and!; [constructor|done|done|by intros ? ?%elem_of_nil].
  - intros (data1 & Hins & Hrest)%bind_Ok. pose proof (insert_ready _ _ _ _ Hready Hins) as Hready1.
    destruct (insert_injection_spec _ _ _ _ Hready Hins) as (Hnew & Ht & Hst & _ & _).
    destruct (IH _ _ Hready1 Hrest) as (Hnd & Hall & Hkept & Hni). rewrite Ht in Hkept, Hni.
    split_and!.
    + constructor; [|done]. intros (r' & E & Hr')%list_elem_of_fmap. apply (Hni r' Hr'), elem_of_union_l, elem_of_singleton. by symmetry.
    + intros [|i] r' Hi; cbn in Hi.
      * injection Hi as <-. rewrite Nat.add_0_r. apply Hkept; [lia|by apply elem_of_union_l, elem_of_singleton|done].
      * rewrite <-Nat.add_succ_comm. by apply Hall.
    + intros i item Hi Hit Hs. apply Hkept; [lia|by apply elem_of_union_r|]. exact (stored_insert _ _ _ _ _ _ Hready Hins Hi Hit Hs).
    + intros r' [->|Hr']%elem_of_cons; [done|]. specialize (Hni r' Hr'). by apply not_elem_of_union in Hni as [_ ?].
Qed.

Lemma ready_empty : ready 0 empty_data.
Proof. split; [intros i _|intros t _]; done. Qed.

(** Every injection lands where its sensitivity asks for, once: when the
    objects are built, the targets are distinct; a secret file or sensitive
    variable is in the Secret and not in the ConfigMap, any other one in the
    ConfigMap (as text or as binary data) and not in the Secret. *)
Theorem injections_placed resolved m :
  build resolved = Ok m →
  NoDup ((ii_target ∘ ri_item) <$> resolved) ∧
  ∀ i r, resolved !! i = Some r → ∃ value, decode_value (ii_value (ri_item r)) = Ok value ∧
    if bool_decide (ii_kind (ri_item r) = EnvironmentVariable) then
      ii_target (ri_item r) ≠ "RUSTUP_HOME" →
      (m_environment_secret m !! ii_target (ri_item r), m_environment_config m !! ii_target (ri_item r)) =
        (if ii_sensitive (ri_item r) then (Some value, None) else (None, Some value)) ∧
      (m_file_secret m !! env_key i, m_file_config m !! env_key i) =
        (if ii_sensitive (ri_item r) then (Some value, None) else (None, Some value))
    else (m_file_secret m !! file_key i, m_file_config m !! file_key i, m_file_config_binary m !! file_key i) =
           file_slot (ri_item r) value.
Proof.
  unfold build. intros (data & Hall & [= <-])%bind_Ok.
  destruct (insert_all_stored _ _ _ _ ready_empty Hall) as (Hnd & Hst & _ & _). split; [done|].
  intros i r Hi. destruct (Hst i r Hi) as (value & Hv & Hs). exists value. split; [done|]. cbn -[file_key env_key] in *.
  destruct (bool_decide _).
  - intros Hne. destruct (Hs Hne) as [Hs1 Hs2]. unfold slot in Hs1. unfold env_slot in Hs2. split; [done|].
    rewrite !lookup_insert_ne by done. destruct (ii_sensitive _); injection Hs1 as -> -> _; done.
  - rewrite !lookup_insert_ne by done. done.
Qed.
End Materialization.

(** An organization and a user may each have an SSH key of the same name at
    different targets: the cascade keeps both, their normalised targets collide,
    and the workspace cannot be materialised. *)
Module SshSample.
Definition ssh (target : string) : InjectionItem := InjectionSample.item "laptop" SshPublicKey target false.
Definition resolved : result InjectionError (list ResolvedInjection) :=
  let _ := decimal_uuid_text in
  resolve_workspace_injections Sample.workspace [ssh "/etc/ssh/a.pub"] [ssh "/etc/ssh/b.pub"] [] (mkRefs None None) [].
End SshSample.

Lemma same_ssh_name_cannot_be_materialised :
  ∃ res, SshSample.resolved = Ok res ∧ length res = 2%nat ∧
    build (λ _, None) (λ _, []) (λ _, []) res
    = Err (DuplicateTarget (workspace_home (ws_template Sample.workspace) +:+ "/.mwc/injected-laptop.pub")).
Proof. eexists. split_and!; vm_compute; reflexivity. Qed.

Lemma injections_placed_witness :
  ∃ m, build (λ _, None) (λ _, []) (λ _, []) [mkResolved OrganizationScope InjectionSample.policy] = Ok m ∧
    m_environment_config m !! "HTTP_PROXY" = Some (bytes "value").
Proof.
  eexists. split; [vm_compute; reflexivity|].
  edestruct (injections_placed (λ _, None) (λ _, []) (λ _, []) [mkResolved OrganizationScope InjectionSample.policy])
    as [_ H]; [vm_compute; reflexivity|].
  destruct (H 0%nat _ eq_refl) as (value & Hv & Hs). cbn in Hv. injection Hv as <-.
  destruct (Hs ltac:(discriminate)) as [E _]. exact (f_equal snd E).
Defined.
