(* ===== verification/Dictionary.v ===== *)
(** * Dictionaries for large text files
    ([src/kubernetes/materialization/dictionary.rs])

    A large text file of the file ConfigMap is replaced by its distinct chunks
    and the order they occur in, when that is at least a quarter shorter; the
    manifest entry records it. Texts are their UTF-8 bytes. JSON is printed and
    parsed by [serde_json]: an interface, with the law that parsing what was
    printed gives it back (for values without floating-point numbers). *)
From stdpp Require Import countable.
From S2P Require Import Prelude Text Json Quota Auth Templates Workspaces Errors ShrinkOperation Injections Materialization.

Definition MIN_BYTES : Z := 64 * 1024.
Definition MANIFEST : string := "workspace-files.json".

Record Dictionary := mkDictionary { d_version : Z; d_chunks : list Bytes; d_order : list nat }.

(** A value without floating-point numbers. *)
Fixpoint float_free (v : Value) : bool :=
  match v with
  | Float _ => false
  | Array items => forallb float_free items
  | Object fields => forallb (λ kv, float_free kv.2) fields
  | _ => true
  end.

(** The uses of [serde_json]; [json_string_len] is the length of a text printed
    as a JSON string. *)
Class JsonText := {
  json_print : Value → Bytes;
  json_parse : Bytes → option Value;
  dictionary_print : Dictionary → Bytes;
  dictionary_parse : Bytes → option Dictionary;
  json_string_len : Bytes → Z;
}.
Class JsonTextLaws `{JsonText} : Prop := {
  json_parse_print v : float_free v = true → json_parse (json_print v) = Some v;
  dictionary_parse_print d : dictionary_parse (dictionary_print d) = Some d;
}.

(** ** Chunks: [split_inclusive('\n')] and then [split_inclusive("\\n")] *)
Definition cons_first (b : Z) (parts : list Bytes) : list Bytes :=
  match parts with [] => [[b]] | part :: parts => (b :: part) :: parts end.

Fixpoint split_lines (bs : Bytes) : list Bytes :=
  match bs with
  | [] => []
  | b :: rest => if b =? 10 then [b] :: split_lines rest else cons_first b (split_lines rest)
  end.

Fixpoint split_escapes (bs : Bytes) : list Bytes :=
  match bs with
  | [] => []
  | b :: rest =>
      match rest with
      | c :: rest' =>
          if (b =? 92) && (c =? 110) then [b; c] :: split_escapes rest'
          else cons_first b (split_escapes rest)
      | [] => [[b]]
      end
  end.

Definition split_chunks (value : Bytes) : list Bytes := concat (split_escapes <$> split_lines value).

(** ** Encoding *)
Record Indexed := mkIndexed { ix_indices : gmap Bytes nat; ix_chunks : list Bytes; ix_order : list nat }.

Definition index_chunk (state : Indexed) (chunk : Bytes) : Indexed :=
  let next := size (ix_indices state) in
  match ix_indices state !! chunk with
  | Some index => mkIndexed (ix_indices state) (ix_chunks state) (ix_order state ++ [index])
  | None => mkIndexed (<[chunk := next]> (ix_indices state)) (ix_chunks state ++ [chunk]) (ix_order state ++ [next])
  end.

Section Dictionary.
Context `{JsonText}.

Definition dictionary_of (value : Bytes) : Dictionary :=
  let state := foldl index_chunk (mkIndexed ∅ [] []) (split_chunks value) in
  mkDictionary 1 (ix_chunks state) (ix_order state).

Definition encode (value : Bytes) : option Bytes :=
  if Z.of_nat (length value) <? MIN_BYTES then None
  else
    let encoded := dictionary_print (dictionary_of value) in
    if json_string_len encoded * 4 <? json_string_len value * 3 then Some encoded else None.

(** ** The file ConfigMap *)

(** The loop of [compress] over the manifest; it reads the original [data] and
    writes to [result]. *)
Fixpoint compress_entries (data result : gmap string Bytes) (entries : list Value)
    : Prelude.result MaterializationError (list Value * gmap string Bytes * bool) :=
  match entries with
  | [] => Ok ([], result, false)
  | entry :: entries =>
      let skip := '(rest, result, changed) ← compress_entries data result entries;
                  Ok (entry :: rest, result, changed) in
      if negb (bool_decide (get entry "object" = Some (Str "config_map")))
         || negb (bool_decide (get entry "kind" = Some (Str "config_file"))) then skip
      else if bool_decide (get entry "encoding" = Some (Str "dictionary_v1")) then skip
      else
        _ ← ensure (is_none_or (get entry "encoding") (λ v, bool_decide (v = Null))) InvalidFileManifest;
        key ← ok_or (get_str entry "data_key") InvalidFileManifest;
        match data !! key with
        | None => skip
        | Some value =>
            match encode value with
            | None => skip
            | Some encoded =>
                let entry := set_key (set_key entry "encoding" (Str "dictionary_v1"))
                               "decoded_bytes" (Number (Z.of_nat (length value))) in
                '(rest, result, _) ← compress_entries data (<[key := encoded]> result) entries;
                Ok (entry :: rest, result, true)
            end
        end
  end.

(** [compress], on the data of the ConfigMap; its binary data is not touched. A
    manifest that is not an object would panic, and [build] writes none. *)
Definition compress (original : option (gmap string Bytes))
    : result MaterializationError (gmap string Bytes) :=
  data ← ok_or original InvalidFileManifest;
  text ← ok_or (data !! MANIFEST) InvalidFileManifest;
  manifest ← ok_or (json_parse text) MatJson;
  match get manifest "files" with
  | Some (Array entries) =>
      '(entries, result, changed) ← compress_entries data data entries;
      Ok (if (changed : bool) then <[MANIFEST := json_print (set_key manifest "files" (Array entries))]> result
          else result)
  | _ => Err InvalidFileManifest
  end.

(** ** Reading it back (the image's start script) *)
Definition decode (d : Dictionary) : Bytes :=
  concat ((λ index, default [] (d_chunks d !! index)) <$> d_order d).

Definition read_entry (data : gmap string Bytes) (entry : Value) : option Bytes :=
  key ← get_str entry "data_key";
  text ← data !! key;
  if bool_decide (get entry "encoding" = Some (Str "dictionary_v1"))
  then d ← dictionary_parse text; Some (decode d)
  else Some text.

(** ** Lemmas *)
Lemma concat_cons_first b parts : concat (cons_first b parts) = b :: concat parts.
Proof. by destruct parts. Qed.

Lemma concat_split_lines bs : concat (split_lines bs) = bs.
Proof.
  induction bs as [|b bs IH]; cbn; [done|]. destruct (b =? 10); cbn; [by rewrite IH|].
  by rewrite concat_cons_first, IH.
Qed.

Lemma concat_split_escapes bs : concat (split_escapes bs) = bs.
Proof.
  remember (length bs) as n eqn:Hn. assert (length bs <= n)%nat as Hle by lia. clear Hn. revert bs Hle.
  induction n as [|n IH]; intros [|b [|c rest]] Hle; cbn in Hle; try done; try lia. cbn.
  destruct ((b =? 92) && (c =? 110)); cbn.
  - by rewrite IH by lia.
  - change (concat (cons_first b (split_escapes (c :: rest))) = b :: c :: rest).
    rewrite concat_cons_first, IH; [done|]. cbn. lia.
Qed.

Lemma concat_split_chunks value : concat (split_chunks value) = value.
Proof.
  unfold split_chunks. rewrite <-(concat_split_lines value) at 2.
  induction (split_lines value) as [|line lines IH]; cbn; [done|].
  by rewrite concat_app, concat_split_escapes, IH.
Qed.

(** The state of the indexing loop describes the chunks seen so far. *)
Record indexes (state : Indexed) (seen : list Bytes) : Prop := {
  ix_lookup chunk index : ix_indices state !! chunk = Some index ↔ ix_chunks state !! index = Some chunk;
  ix_size : size (ix_indices state) = length (ix_chunks state);
  ix_seen : (λ index, default [] (ix_chunks state !! index)) <$> ix_order state = seen;
  ix_range : Forall (λ index, (index < length (ix_chunks state))%nat) (ix_order state);
}.

Lemma index_chunk_indexes state seen chunk :
  indexes state seen → indexes (index_chunk state chunk) (seen ++ [chunk]).
Proof.
  intros [Hl Hs Hseen Hr]. unfold index_chunk. destruct (ix_indices state !! chunk) as [index|] eqn:E.
  - split; cbn; [done|done| |].
    + rewrite fmap_app, Hseen. cbn. apply Hl in E. by rewrite E.
    + apply Forall_app. split; [done|]. constructor; [|done]. apply Hl, lookup_lt_Some in E. done.
  - rewrite Hs. split; cbn.
    + intros c i. destruct (decide (c = chunk)) as [->|Hne].
      * rewrite lookup_insert_eq. split; [intros [= <-]|].
        -- by apply list_lookup_middle.
        -- intros [Hi|[Hi Hc]]%lookup_app_Some; [apply Hl in Hi; congruence|].
           apply list_lookup_singleton_Some in Hc as [Hc _]. f_equal. lia.
      * rewrite lookup_insert_ne by done. rewrite Hl. split; [by apply lookup_app_l_Some|].
        intros [Hi|[Hi Hc]]%lookup_app_Some; [done|]. apply list_lookup_singleton_Some in Hc as [_ Hc]. congruence.
    + rewrite map_size_insert_None by done. rewrite length_app. cbn. lia.
    + rewrite fmap_app. cbn. rewrite list_lookup_middle by done. cbn. f_equal. rewrite <-Hseen.
      apply list_fmap_ext. intros k index Hk. rewrite lookup_app_l; [done|].
      rewrite Forall_forall in Hr. by apply Hr, list_elem_of_lookup_2 with k.
    + rewrite length_app. cbn. apply Forall_app. split; [|constructor; [lia|done]].
      eapply Forall_impl; [exact Hr|]. cbn. lia.
Qed.

Lemma foldl_indexes state seen chunks :
  indexes state seen → indexes (foldl index_chunk state chunks) (seen ++ chunks).
Proof.
  revert state seen. induction chunks as [|c chunks IH]; intros state seen Hi; cbn; [by rewrite app_nil_r|].
  specialize (IH _ _ (index_chunk_indexes _ _ c Hi)). by rewrite <-app_assoc in IH.
Qed.

Lemma dictionary_of_indexes value :
  ∃ state, indexes state (split_chunks value) ∧ dictionary_of value = mkDictionary 1 (ix_chunks state) (ix_order state).
Proof.
  eexists. split; [|reflexivity]. apply (foldl_indexes _ []).
  split; cbn; [|done|done|done]. intros c i. by rewrite lookup_empty.
Qed.

Lemma decode_dictionary_of value : decode (dictionary_of value) = value.
Proof.
  destruct (dictionary_of_indexes value) as (state & [_ _ Hseen _] & ->). unfold decode. cbn.
  by rewrite Hseen, concat_split_chunks.
Qed.

Definition encoded_entry (entry : Value) (value : Bytes) : Value :=
  set_key (set_key entry "encoding" (Str "dictionary_v1")) "decoded_bytes" (Number (Z.of_nat (length value))).

(** An entry is left as it is, or its file is replaced by the dictionary. *)
Lemma compress_entries_cons data res e es es' res' changed :
  compress_entries data res (e :: es) = Ok (es', res', changed) →
  (∃ rest, es' = e :: rest ∧ compress_entries data res es = Ok (rest, res', changed)) ∨
  (∃ rest changed' key value m, e = Object m ∧ get_str e "data_key" = Some key ∧ data !! key = Some value ∧
     get e "encoding" ≠ Some (Str "dictionary_v1") ∧ es' = encoded_entry e value :: rest ∧ changed = true ∧
     compress_entries data (<[key := dictionary_print (dictionary_of value)]> res) es = Ok (rest, res', changed')).
Proof.
  cbn. set (skip := compress_entries data res es ≫= _). intros Hrun.
  assert (skip = Ok (es', res', changed) →
    ∃ rest, es' = e :: rest ∧ compress_entries data res es = Ok (rest, res', changed)) as Hskip.
  { unfold skip. intros ([[rest r] c] & Hr & [= <- <- <-])%bind_Ok. eauto. }
  destruct (bool_decide_reflect (get e "object" = Some (Str "config_map"))) as [Hobj|]; cbn in Hrun; [|left; auto].
  destruct (bool_decide _); cbn in Hrun; [|left; auto].
  destruct (bool_decide_reflect (get e "encoding" = Some (Str "dictionary_v1"))) as [|Hne]; [left; auto|].
  apply bind_Ok in Hrun as ([] & _ & Hrun). apply bind_Ok in Hrun as (key & Hkey%ok_or_Ok & Hrun).
  destruct (data !! key) as [value|] eqn:Hvalue; [|left; auto].
  destruct (encode value) as [encoded|] eqn:Hencode; [|left; auto].
  apply bind_Ok in Hrun as ([[rest r] c] & Hr & [= <- <- <-]). right.
  unfold encode in Hencode. destruct (_ <? _); [done|]. destruct (_ <? _); [|done]. injection Hencode as <-.
  destruct e as [| | | | | |m]; try done. exists rest, c, key, value, m. split_and!; done.
Qed.

Lemma encoded_entry_reads m value :
  get_str (encoded_entry (Object m) value) "data_key" = get_str (Object m) "data_key" ∧
  get (encoded_entry (Object m) value) "encoding" = Some (Str "dictionary_v1").
Proof.
  unfold encoded_entry, get_str. cbn. rewrite !map_get_insert_ne by done. split; [done|].
  by rewrite map_get_insert_eq.
Qed.

Definition data_keys (entries : list Value) : list string := omap (λ e, get_str e "data_key") entries.

Lemma compress_entries_other data res es es' res' changed key :
  compress_entries data res es = Ok (es', res', changed) → key ∉ data_keys es → res' !! key = res !! key.
Proof.
  revert res es' changed. induction es as [|e es IH]; intros res es' changed Hrun Hk.
  { by injection Hrun as _ <- _. }
  unfold data_keys in Hk. cbn in Hk.
  apply compress_entries_cons in Hrun as [(rest & -> & Hr)|(rest & c & k & value & m & _ & Hkey & _ & _ & _ & _ & Hr)].
  - eapply IH; [exact Hr|]. destruct (get_str e "data_key"); [by apply not_elem_of_cons in Hk as [_ ?]|done].
  - rewrite Hkey in Hk. apply not_elem_of_cons in Hk as [Hne Hk]. rewrite (IH _ _ _ Hr Hk). by rewrite lookup_insert_ne.
Qed.

(** [read_entry] depends on the one file the entry names. *)
Lemma read_entry_ext data data' e :
  (∀ key, get_str e "data_key" = Some key → data !! key = data' !! key) → read_entry data e = read_entry data' e.
Proof. unfold read_entry. destruct (get_str e "data_key") as [key|]; cbn; [|done]. intros E. by rewrite (E key eq_refl). Qed.

Lemma compress_entries_reads `{!JsonTextLaws} data res es es' res' changed :
  compress_entries data res es = Ok (es', res', changed) → NoDup (data_keys es) →
  (∀ key, key ∈ data_keys es → res !! key = data !! key) →
  Forall2 (λ e e', read_entry res' e' = read_entry data e ∧ get_str e' "data_key" = get_str e "data_key") es es'.
Proof.
  revert res es' changed. induction es as [|e es IH]; intros res es' changed Hrun Hnd Hsame.
  { injection Hrun as <- _ _. constructor. }
  unfold data_keys in Hnd, Hsame. cbn in Hnd, Hsame. fold (data_keys es) in Hnd, Hsame.
  apply compress_entries_cons in Hrun as [(rest & -> & Hr)|(rest & c & k & value & m & -> & Hkey & Hv & Hne & -> & _ & Hr)].
  - constructor.
    + split; [|done]. apply read_entry_ext. intros key Hkey. rewrite Hkey in Hnd, Hsame. apply NoDup_cons in Hnd as [Hni _].
      rewrite (compress_entries_other _ _ _ _ _ _ _ Hr Hni). apply Hsame. by left.
    + eapply IH; [exact Hr|..]; destruct (get_str e "data_key"); try done; [by apply NoDup_cons in Hnd as [_ ?]|].
      intros key Hin. apply Hsame. by right.
  - rewrite Hkey in Hnd, Hsame. apply NoDup_cons in Hnd as [Hni Hnd]. constructor.
    + destruct (encoded_entry_reads m value) as [Hk He]. split; [|done]. unfold read_entry. rewrite Hk, Hkey, He. cbn.
      rewrite (compress_entries_other _ _ _ _ _ _ _ Hr Hni), lookup_insert_eq, Hv. cbn -[decode dictionary_of].
      rewrite dictionary_parse_print. cbn -[decode dictionary_of]. rewrite decode_dictionary_of.
      by rewrite (bool_decide_false (get (Object m) "encoding" = _)).
    + eapply IH; [exact Hr|done|]. intros key Hin. rewrite lookup_insert_ne; [|by intros ->]. apply Hsame. by right.
Qed.

Lemma map_insert_float_free key v m :
  float_free v = true → forallb (λ kv, float_free kv.2) m = true →
  forallb (λ kv : string * Value, float_free kv.2) (map_insert key v m) = true.
Proof.
  intros Hv. induction m as [|[k w] m IH]; cbn; [by rewrite Hv|]. intros [Hw Hm]%andb_true_iff.
  destruct (String.compare key k); cbn; rewrite ?Hv, ?Hw, ?Hm; cbn; try done. by apply IH.
Qed.

Lemma set_key_float_free key v w : float_free v = true → float_free w = true → float_free (set_key w key v) = true.
Proof. intros Hv Hw. destruct w; cbn in *; try done; [by rewrite Hv|by apply map_insert_float_free]. Qed.

Lemma get_float_free key v w : float_free w = true → get w key = Some v → float_free v = true.
Proof.
  destruct w as [| | | | | |m]; cbn; try done. induction m as [|[k u] m IH]; cbn; [done|].
  intros [Hu Hm]%andb_true_iff. destruct (String.eqb k key); [by intros [= <-]|by apply IH].
Qed.

Lemma compress_entries_float_free data res es es' res' changed :
  compress_entries data res es = Ok (es', res', changed) → forallb float_free es = true → forallb float_free es' = true.
Proof.
  revert res es' changed. induction es as [|e es IH]; intros res es' changed Hrun.
  { by injection Hrun as <- _ _. }
  cbn. intros [He Hes]%andb_true_iff.
  apply compress_entries_cons in Hrun as [(rest & -> & Hr)|(rest & c & k & value & m & -> & _ & _ & _ & -> & _ & Hr)];
    cbn [forallb]; apply andb_true_iff; (split; [|by eapply IH]); [done|].
  unfold encoded_entry. by apply set_key_float_free, set_key_float_free.
Qed.

Lemma compress_entries_same data res es es' res' :
  compress_entries data res es = Ok (es', res', false) → es' = es ∧ res' = res.
Proof.
  revert res es'. induction es as [|e es IH]; intros res es' Hrun.
  { by injection Hrun as <- <-. }
  apply compress_entries_cons in Hrun as [(rest & -> & Hr)|(? & ? & ? & ? & ? & _ & _ & _ & _ & _ & ? & _)]; [|done].
  by destruct (IH _ _ Hr) as [-> ->].
Qed.

(** Compressing the file ConfigMap loses nothing: with distinct file names in
    the manifest, the result has a manifest with the same files, and reading any
    of them from it, through its dictionary where it has one, gives the bytes it
    had before. *)
Theorem compress_lossless `{!JsonTextLaws} data text manifest entries data' :
  compress (Some data) = Ok data' →
  data !! MANIFEST = Some text → json_parse text = Some manifest → float_free manifest = true →
  get manifest "files" = Some (Array entries) → NoDup (data_keys entries) → MANIFEST ∉ data_keys entries →
  ∃ text' manifest' entries', data' !! MANIFEST = Some text' ∧ json_parse text' = Some manifest' ∧
    get manifest' "files" = Some (Array entries') ∧
    Forall2 (λ e e', read_entry data' e' = read_entry data e) entries entries'.
Proof.
  unfold compress. intros Hrun Htext Hparse Hff Hfiles Hnd Hman. cbn in Hrun. rewrite Htext in Hrun. cbn in Hrun.
  rewrite Hparse in Hrun. cbn in Hrun. rewrite Hfiles in Hrun.
  apply bind_Ok in Hrun as ([[es' res'] changed] & Hr & [= <-]).
  pose proof (compress_entries_reads _ _ _ _ _ _ Hr Hnd (λ _ _, eq_refl)) as Hreads. destruct changed.
  - pose proof (get_float_free _ _ _ Hff Hfiles : forallb float_free entries = true) as Hes.
    pose proof (compress_entries_float_free _ _ _ _ _ _ Hr Hes) as Hes'.
    exists (json_print (set_key manifest "files" (Array es'))), (set_key manifest "files" (Array es')), es'.
    rewrite lookup_insert_eq, json_parse_print by (by apply set_key_float_free). split_and!; [done..| |].
    + destruct manifest as [| | | | | |m]; try done. cbn. by rewrite map_get_insert_eq.
    + rewrite Forall2_lookup in Hreads |- *. intros i. specialize (Hreads i).
      destruct (entries !! i) as [e|] eqn:He; inversion Hreads as [? e' [Hread Hk]|]; subst; constructor.
      rewrite <-Hread. apply read_entry_ext. intros key Hkey. rewrite lookup_insert_ne; [done|]. intros <-.
      apply Hman. apply list_elem_of_omap. exists e. rewrite <-Hk. split; [by eapply list_elem_of_lookup_2|done].
  - destruct (compress_entries_same _ _ _ _ _ Hr) as [-> ->]. exists text, manifest, entries. split_and!; try done.
    eapply Forall2_impl; [exact Hreads|]. by intros ?? [? _].
Qed.
End Dictionary.

(** ** An instance of the interface, and the witness *)
Module CodedJson.
Section Induction.
Context (P : Value → Prop) (Hnull : P Null) (Hbool : ∀ b, P (Bool b)) (Hnumber : ∀ z, P (Number z))
  (Hfloat : ∀ z, P (Float z)) (Hstr : ∀ s, P (Str s)) (Harray : ∀ l, Forall P l → P (Array l))
  (Hobject : ∀ m, Forall (λ kv : string * Value, P kv.2) m → P (Object m)).
Lemma value_nested_ind : ∀ v, P v.
Proof.
  fix IH 1. intros [|b|z|z|s|l|m]; [done..| |].
  - apply Harray. induction l as [|v l IHl]; constructor; [apply IH|exact IHl].
  - apply Hobject. induction m as [|[k v] m IHm]; constructor; [apply IH|exact IHm].
Qed.
End Induction.

Fixpoint to_tree (v : Value) : gen_tree (Z + string) :=
  match v with
  | Null => GenNode 0 []
  | Bool b => GenNode 1 [GenLeaf (inl (if b then 1 else 0))]
  | Number z => GenNode 2 [GenLeaf (inl z)]
  | Float z => GenNode 3 [GenLeaf (inl z)]
  | Str s => GenNode 4 [GenLeaf (inr s)]
  | Array l => GenNode 5 (to_tree <$> l)
  | Object m => GenNode 6 ((λ kv, GenNode 7 [GenLeaf (inr kv.1); to_tree kv.2]) <$> m)
  end.
Fixpoint of_tree (t : gen_tree (Z + string)) : Value :=
  match t with
  | GenNode 1 [GenLeaf (inl z)] => Bool (z =? 1)
  | GenNode 2 [GenLeaf (inl z)] => Number z
  | GenNode 3 [GenLeaf (inl z)] => Float z
  | GenNode 4 [GenLeaf (inr s)] => Str s
  | GenNode 5 l => Array (of_tree <$> l)
  | GenNode 6 l =>
      Object ((λ t, match t with GenNode 7 [GenLeaf (inr k); v] => (k, of_tree v) | _ => ("", Null) end) <$> l)
  | _ => Null
  end.

Lemma of_to_tree v : of_tree (to_tree v) = v.
Proof.
  induction v as [|[]|z|z|s|l IH|m IH] using value_nested_ind; try done; cbn; f_equal;
    rewrite <-list_fmap_compose; induction IH as [|x l Hx IH IHl]; cbn; try done; rewrite IHl; f_equal; [exact Hx|].
  destruct x. cbn in *. by f_equal.
Qed.

Definition text : JsonText := {|
  json_print v := [Zpos (countable.encode (to_tree v))];
  json_parse bs := match bs with [Zpos p] => of_tree <$> countable.decode p | _ => None end;
  dictionary_print d := [Zpos (countable.encode (d_version d, d_chunks d, d_order d))];
  dictionary_parse bs :=
    match bs with
    | [Zpos p] => (λ t : Z * list Bytes * list nat, mkDictionary t.1.1 t.1.2 t.2) <$> countable.decode p
    | _ => None
    end;
  json_string_len bs := Z.of_nat (length bs);
|}.

Lemma laws : @JsonTextLaws text.
Proof.
  split; cbn.
  - intros v _. rewrite decode_encode. cbn. by rewrite of_to_tree.
  - intros [v c o]. by rewrite decode_encode.
Qed.

Definition entry : Value :=
  json_object [("data_key", Str "file-0000"); ("kind", Str "config_file"); ("object", Str "config_map")].
Definition manifest : Value := json_object [("files", Array [entry]); ("version", Number 1)].
Definition data : gmap string Bytes :=
  {[ "file-0000" := concat (replicate 4096 (bytes "0123456789abcde" ++ [10])); MANIFEST := @json_print text manifest ]}.
End CodedJson.

(** A file of 64 KiB of equal lines is replaced by its dictionary. *)
Lemma compress_lossless_witness :
  let _ := CodedJson.text in
  ∃ data' text' manifest' entries', compress (Some CodedJson.data) = Ok data' ∧
    data' !! MANIFEST = Some text' ∧ json_parse text' = Some manifest' ∧
    get manifest' "files" = Some (Array entries') ∧
    Forall2 (λ e e', read_entry data' e' = read_entry CodedJson.data e) [CodedJson.entry] entries'.
Proof.
  intros J. assert (is_err (compress (Some CodedJson.data)) = false) as Hok by (vm_compute; reflexivity).
  destruct (compress (Some CodedJson.data)) as [data'|e] eqn:E; [|discriminate Hok]. clear Hok.
  edestruct (@compress_lossless J CodedJson.laws CodedJson.data (json_print CodedJson.manifest) CodedJson.manifest
               [CodedJson.entry] data')
    as (text' & manifest' & entries' & H1 & H2 & H3 & H4);
    [exact E|reflexivity|vm_compute; reflexivity|reflexivity|reflexivity|repeat constructor; apply not_elem_of_nil
    |cbn; by intros ?%list_elem_of_singleton|].
  exact (ex_intro _ data' (ex_intro _ text' (ex_intro _ manifest' (ex_intro _ entries'
           (conj eq_refl (conj H1 (conj H2 (conj H3 H4)))))))).
Defined.
