(* ===== verification/Catalog.v ===== *)
(** * Templates, node pools, images and runtime settings
    ([src/storage/template_store.rs], [node_pool_store.rs],
    [image_policy_store.rs], [runtime_settings.rs])

    What a workspace is created from. A template names the node pools it allows;
    the names are copied into [workspace_template_node_pools], which keeps a pool
    from being deleted while a template or a live workspace uses it. YAML is
    parsed by [serde_yaml_ng], the class [TemplateYaml]. *)
From S2P Require Import Prelude Text Json Quota Auth Templates Workspaces Errors ShrinkOperation Database.

Class TemplateYaml := yaml_from_str : string → option WorkspaceTemplateDocument.

(** ** Runtime settings *)
Definition DEFAULT_JOB_WORKER_CONCURRENCY : Z := 32.
Definition MAX_JOB_WORKER_CONCURRENCY : Z := 256.
Definition DEFAULT_CPU_OVERCOMMIT_RATIO : Z := 10.
Definition MAX_CPU_OVERCOMMIT_RATIO : Z := 1000.

Record RuntimeSettings := mkRuntimeSettings {
  job_worker_concurrency : Z;  (** u16 *)
  settings_cpu_overcommit_ratio : Z;  (** u16 *)
}.

Definition default_settings : RuntimeSettings :=
  mkRuntimeSettings DEFAULT_JOB_WORKER_CONCURRENCY DEFAULT_CPU_OVERCOMMIT_RATIO.

Definition settings_from_row (concurrency ratio : Z) : result StorageError.t RuntimeSettings :=
  _ ← ensure (in_u16 concurrency && in_range 1 MAX_JOB_WORKER_CONCURRENCY concurrency)
        StorageError.InvalidJobWorkerConcurrency;
  _ ← ensure (in_u16 ratio && in_range 1 MAX_CPU_OVERCOMMIT_RATIO ratio)
        StorageError.InvalidCpuOvercommitRatio;
  Ok (mkRuntimeSettings concurrency ratio).

Definition runtime_settings (inst : string) : DbM RuntimeSettings :=
  row ← reads (λ db, t_runtime_settings db !! inst);
  lift match row with
       | None => Ok default_settings
       | Some row => settings_from_row (rs_job_worker_concurrency row) (rs_cpu_overcommit_ratio row)
       end.

Definition cpu_overcommit_ratio_setting (inst : string) : DbM Z :=
  settings ← runtime_settings inst;
  mret (settings_cpu_overcommit_ratio settings).

(** The upsert with [COALESCE]: absent values keep the stored ones. *)
Definition patched_settings (row : option RuntimeSettingsRow) (concurrency ratio : option Z) (now : Z)
    : RuntimeSettingsRow :=
  match row with
  | None => mkRuntimeSettingsRow (default DEFAULT_JOB_WORKER_CONCURRENCY concurrency)
              (default DEFAULT_CPU_OVERCOMMIT_RATIO ratio) now
  | Some row => mkRuntimeSettingsRow (default (rs_job_worker_concurrency row) concurrency)
                  (default (rs_cpu_overcommit_ratio row) ratio) now
  end.

Definition patch_runtime_settings (inst : string) (concurrency ratio : option Z) (now : Z)
    : DbM RuntimeSettings :=
  _ ← lift (ensure (is_none_or concurrency (in_range 1 MAX_JOB_WORKER_CONCURRENCY))
              StorageError.InvalidJobWorkerConcurrency);
  _ ← lift (ensure (is_none_or ratio (in_range 1 MAX_CPU_OVERCOMMIT_RATIO))
              StorageError.InvalidCpuOvercommitRatio);
  if negb (is_some concurrency) && negb (is_some ratio) then runtime_settings inst
  else
    row ← reads (λ db, patched_settings (t_runtime_settings db !! inst) concurrency ratio now);
    _ ← modify (λ db, set_t_runtime_settings (<[inst := row]> (t_runtime_settings db)) db);
    lift (settings_from_row (rs_job_worker_concurrency row) (rs_cpu_overcommit_ratio row)).

(** ** Images *)
Definition IMAGE_CONTRACT_VERSION : Z := 1.

Definition validate_image (img : string) : result StorageError.t () :=
  let img := trimmed img in
  if bool_decide (img = "") || (512 <? len img) || existsb is_whitespace (chars img)
  then Err StorageError.InvalidTemplate else Ok ().

(** The image policy of [admit_sqlite] and [admit_postgres]. *)
Definition image_allowed (inst img : string) (db : Db) : bool :=
  is_some_and (t_image_policies db !! (inst, img))
    (λ r, ip_enabled r && (ip_contract_version r =? IMAGE_CONTRACT_VERSION)).

Definition admit_image (inst : string) (w : Workspace) : DbM () :=
  allowed ← reads (image_allowed inst (image (ws_template w)));
  lift (ensure allowed StorageError.ImageNotAllowed).

Record ImagePolicy := mkImagePolicy {
  policy_image : string;
  policy_contract_version : Z;
  policy_enabled : bool;
  policy_created_at : Z;
  policy_updated_at : Z;
}.

Definition upsert_image_policy (inst img : string) (enabled : bool) (now : Z) : DbM ImagePolicy :=
  _ ← lift (validate_image img);
  let img := trimmed img in
  _ ← modify (λ db,
        let created := match t_image_policies db !! (inst, img) with
                       | Some r => ip_created_at r | None => now end in
        set_t_image_policies
          (<[(inst, img) := mkImagePolicyRow IMAGE_CONTRACT_VERSION enabled created now]>
             (t_image_policies db)) db);
  mret (mkImagePolicy img IMAGE_CONTRACT_VERSION enabled now now).

(** ** Node pools *)
Record PutNodePool := mkPutNodePool {
  put_display_name : string;
  put_placement : ResolvedPlacement;
  put_enabled : bool;
}.

Record NodePool := mkNodePool {
  pool_name : string;
  pool_display_name : string;
  pool_placement : ResolvedPlacement;
  pool_enabled : bool;
  pool_created_at : Z;
  pool_updated_at : Z;
}.

Definition label_byte (c : Z) : bool :=
  is_ascii_alphanumeric c || (c =? c_dash) || (c =? c_underscore) || (c =? c_dot).

Definition valid_label_key (value : string) : bool :=
  negb (bool_decide (value = "")) && (len value <=? 253)
  && forallb (λ c, label_byte c || (c =? c_slash)) (bytes value).

Definition valid_label_value (value : string) : bool :=
  (len value <=? 63) && forallb label_byte (bytes value).

Definition validate_node_pool (name : string) (command : PutNodePool) : result StorageError.t () :=
  let placement := put_placement command in
  let display := put_display_name command in
  if negb (valid_node_pool_name name)
     || bool_decide (trim (chars display) = []) || negb (is_trimmed display)
     || (80 <? len display) || existsb is_control (chars display)
     || (32 <? Z.of_nat (length (rp_selector placement)))
     || (128 <? Z.of_nat (length (rp_required_hosts placement)))
     || (128 <? Z.of_nat (length (rp_preferred_hosts placement)))
     || existsb (λ kv, negb (valid_label_key kv.1) || negb (valid_label_value kv.2)) (rp_selector placement)
     || existsb (λ host, negb (valid_label_value host) || bool_decide (host = ""))
          (rp_required_hosts placement ++ rp_preferred_hosts placement)
  then Err StorageError.InvalidNodePool else Ok ().

Definition decode_node_pool (name : string) (row : NodePoolRow) : NodePool :=
  mkNodePool name (np_display_name row) (np_placement row) (np_enabled row) (np_created_at row)
    (np_updated_at row).

Definition put_node_pool (inst name : string) (command : PutNodePool) (now : Z) : DbM NodePool :=
  _ ← lift (validate_node_pool name command);
  row ← reads (λ db, mkNodePoolRow (put_display_name command) (put_placement command) (put_enabled command)
                       (match t_node_pools db !! (inst, name) with
                        | Some r => np_created_at r | None => now end) now);
  _ ← modify (λ db, set_t_node_pools (<[(inst, name) := row]> (t_node_pools db)) db);
  mret (decode_node_pool name row).

(** [EXISTS(SELECT 1 FROM workspaces ... AND state <> 'deleted')]. *)
Definition workspace_uses_pool (inst name : string) (r : WorkspaceRow) : bool :=
  String.eqb (wr_installation_id r) inst && String.eqb (wr_node_pool r) name
  && negb (bool_decide (wr_state r = Deleted)).
Definition pool_in_use (inst name : string) (db : Db) : bool :=
  existsb (λ kv, workspace_uses_pool inst name kv.2) (map_to_list (t_workspaces db)) ||
  existsb (λ kv : (string * Uuid * string) * bool,
             String.eqb kv.1.1.1 inst && String.eqb kv.1.2 name)
    (map_to_list (t_template_node_pools db)).

(** [ensure_node_pool_deletable_sqlite] and [ensure_node_pool_deletable_postgres]. *)
Definition ensure_node_pool_deletable (inst name : string) : DbM () :=
  row ← reads (λ db, t_node_pools db !! (inst, name));
  used ← reads (pool_in_use inst name);
  match row with
  | None => fail StorageError.NodePoolNotFound
  | Some row => lift (ensure (negb (np_enabled row || used)) StorageError.NodePoolInUse)
  end.

Definition delete_node_pool (inst name : string) : DbM () :=
  if String.eqb name "default" then fail StorageError.NodePoolInUse
  else transaction (
    _ ← ensure_node_pool_deletable inst name;
    modify (λ db, set_t_node_pools (delete (inst, name) (t_node_pools db)) db)).

Definition resolve_workspace_placement (inst node_pool : string) : DbM ResolvedPlacement :=
  row ← reads (λ db, t_node_pools db !! (inst, node_pool));
  lift (ok_or (np_placement <$> row) StorageError.NodePoolNotFound).

Definition selected_name (p : WorkspacePlacement) (requested : option string) : result StorageError.t string :=
  let name := default (default_node_pool p) requested in
  if bool_decide (name ∈ allowed_node_pools p) then Ok name else Err StorageError.NodePoolNotAllowed.

Definition select_node_pool (inst : string) (p : WorkspacePlacement) (requested : option string) : DbM string :=
  name ← lift (selected_name p requested);
  enabled ← reads (λ db, is_some_and (t_node_pools db !! (inst, name)) np_enabled);
  lift (if (enabled : bool) then Ok name else Err StorageError.NodePoolUnavailable).

(** Both backends look the allowed pools up, SQLite one by one, Postgres by
    comparing the number of rows found with the number of names. *)
Definition validate_template_pools `{SqlBackend} (inst : string) (p : WorkspacePlacement) : DbM () :=
  all ← reads (λ db,
    let exists_pool name := is_some (t_node_pools db !! (inst, name)) in
    match backend with
    | Sqlite => forallb exists_pool (allowed_node_pools p)
    | Postgres =>
        bool_decide (length (List.filter exists_pool (remove_dups (allowed_node_pools p)))
                     = length (allowed_node_pools p))
    end);
  lift (ensure all StorageError.NodePoolNotFound).

Definition delete_template_pools (inst : string) (template_id : Uuid) (db : Db) : Db :=
  set_t_template_node_pools
    (filter (λ kv : (string * Uuid * string) * bool, ¬ (kv.1.1.1 = inst ∧ kv.1.1.2 = template_id))
       (t_template_node_pools db)) db.

Definition sync_template_placement `{SqlBackend} (inst : string) (template_id : Uuid) (p : WorkspacePlacement)
    : DbM () :=
  _ ← validate_template_pools inst p;
  _ ← modify (delete_template_pools inst template_id);
  for_each (λ pool, insert_row t_template_node_pools set_t_template_node_pools (inst, template_id, pool)
                      (String.eqb pool (default_node_pool p)))
    (allowed_node_pools p).

(** ** Templates *)
Record WorkspaceTemplate := mkWorkspaceTemplate {
  wt_id : Uuid;
  wt_organization_id : option Uuid;
  wt_name : string;
  wt_template : WorkspaceTemplateSpec;
  wt_yaml : string;
  wt_enabled : bool;
  wt_created_at : Z;
  wt_updated_at : Z;
}.

Record ResolvedTemplateSnapshot := mkSnapshot {
  snap_yaml : string;
  snap_spec : WorkspaceTemplateSpec;
}.

Section Templates.
Context `{TemplateYaml} `{SqlBackend}.

(** [WorkspaceTemplateDocument::parse] and [parse_document]. *)
Definition document_parse (yaml : string) : result TemplateError WorkspaceTemplateDocument :=
  document ← ok_or (yaml_from_str yaml) TE_Yaml;
  _ ← document_validate document;
  Ok document.
Definition parse_document (yaml : string) : result StorageError.t WorkspaceTemplateDocument :=
  map_err (λ _, StorageError.InvalidTemplate) (document_parse yaml).

Definition normalize_yaml (yaml : string) : result StorageError.t string :=
  if bool_decide (trim (chars yaml) = []) || (128 * 1024 <? len yaml) then Err StorageError.InvalidTemplate
  else Ok (if ends_with (λ b, b =? 10) (bytes yaml) then yaml else yaml +:+ string_of_bytes [10]).

Definition ensure_cluster_access (spec : WorkspaceTemplateSpec) (allow_cluster_access : bool)
    : result StorageError.t () :=
  if cluster_access spec && negb allow_cluster_access
  then Err StorageError.PrivilegedTemplateForbidden else Ok ().

Definition decode_snapshot (yaml : option string) (allow_cluster_access : bool)
    : result StorageError.t ResolvedTemplateSnapshot :=
  yaml ← ok_or yaml StorageError.TemplateNotFound;
  document ← parse_document yaml;
  _ ← ensure_cluster_access (spec document) allow_cluster_access;
  Ok (mkSnapshot yaml (spec document)).

(** [resolve_template_sqlite] and [resolve_template_postgres]. *)
Definition resolvable (inst : string) (organization_id : Uuid) (r : TemplateRow) : bool :=
  String.eqb (tr_installation_id r) inst && tr_enabled r
  && is_none_or (tr_organization_id r) (λ o, bool_decide (o = organization_id)).

Definition resolve_template (inst : string) (template_id organization_id : Uuid) (allow_cluster_access : bool)
    : DbM ResolvedTemplateSnapshot :=
  yaml ← reads (λ db, match t_templates db !! template_id with
                      | Some r => if resolvable inst organization_id r then Some (tr_yaml r) else None
                      | None => None
                      end);
  lift (decode_snapshot yaml allow_cluster_access).

Definition decode_template (id : Uuid) (r : TemplateRow) : result StorageError.t WorkspaceTemplate :=
  document ← parse_document (tr_yaml r);
  Ok (mkWorkspaceTemplate id (tr_organization_id r) (metadata_name document) (spec document) (tr_yaml r)
        (tr_enabled r) (tr_created_at r) (tr_updated_at r)).

Definition decode_optional_template (id : Uuid) (row : option TemplateRow) : result StorageError.t WorkspaceTemplate :=
  match row with Some r => decode_template id r | None => Err StorageError.TemplateNotFound end.

Definition select_template (inst : string) (id : Uuid) : DbM (option TemplateRow) :=
  reads (λ db, match t_templates db !! id with
               | Some r => if String.eqb (tr_installation_id r) inst then Some r else None
               | None => None
               end).

Definition get_workspace_template (inst : string) (template_id : Uuid) : DbM WorkspaceTemplate :=
  row ← select_template inst template_id;
  lift (decode_optional_template template_id row).

Definition ensure_template_access (id : Uuid) (row : option TemplateRow) (allow_cluster_access : bool)
    : result StorageError.t WorkspaceTemplate :=
  template ← decode_optional_template id row;
  _ ← ensure_cluster_access (wt_template template) allow_cluster_access;
  Ok template.

Definition template_as_i64 (value : Z) : result StorageError.t Z :=
  ok_or (i64_try_from value) StorageError.InvalidTemplate.

(** [UNIQUE (installation_id, organization_id, name)]: rows without an
    organization never conflict. *)
Definition template_name_taken (inst : string) (id : Uuid) (organization_id : option Uuid) (name : string)
    (db : Db) : bool :=
  existsb (λ kv, negb (bool_decide (kv.1 = id)) && String.eqb (tr_installation_id kv.2) inst
                 && String.eqb (tr_name kv.2) name
                 && is_some organization_id && bool_decide (tr_organization_id kv.2 = organization_id))
    (map_to_list (t_templates db)).

(** The columns written for a document; the numbers must fit the signed columns. *)
Definition template_columns (inst : string) (organization_id : option Uuid) (name img : string)
    (s : WorkspaceTemplateSpec) (enabled : bool) (created_at now : Z) (yaml : string)
    : result StorageError.t TemplateRow :=
  cpu ← template_as_i64 (cpu_millis (resources s));
  memory ← template_as_i64 (memory_mib (resources s));
  disk ← template_as_i64 (disk_gib (resources s));
  temporary ← template_as_i64 (temporary_storage_gib (storage_policy s));
  Ok (mkTemplateRow inst organization_id name img (access_mode s) cpu memory (gpu_count (resources s)) disk
        temporary enabled created_at now yaml).

Definition write_template (id : Uuid) (row : TemplateRow) : DbM () :=
  taken ← reads (template_name_taken (tr_installation_id row) id (tr_organization_id row) (tr_name row));
  _ ← lift (ensure (negb taken) StorageError.Database);
  modify (λ db, set_t_templates (<[id := row]> (t_templates db)) db).

(** [insert_template_sqlite] and [insert_template_postgres]. *)
Definition insert_template (inst : string) (t : WorkspaceTemplate) (now : Z) : DbM () :=
  row ← lift (template_columns inst (wt_organization_id t) (wt_name t) (image (wt_template t)) (wt_template t)
                true now now (wt_yaml t));
  existing ← reads (λ db, t_templates db !! wt_id t);
  _ ← lift (ensure (negb (is_some existing)) StorageError.Database);
  write_template (wt_id t) row.

Definition create_workspace_template (inst : string) (organization_id : option Uuid) (yaml : string)
    (allow_cluster_access : bool) (now : Z) : DbM WorkspaceTemplate :=
  yaml ← lift (normalize_yaml yaml);
  document ← lift (parse_document yaml);
  _ ← lift (ensure_cluster_access (spec document) allow_cluster_access);
  _ ← lift (validate_image (image (spec document)));
  id ← now_v7;
  let template := mkWorkspaceTemplate id organization_id (metadata_name document) (spec document) yaml true now now in
  transaction (
    _ ← insert_template inst template now;
    _ ← sync_template_placement inst id (placement (spec document));
    mret template).

(** [update_template_sqlite] and [update_template_postgres]: the row returned is
    the updated one. *)
Definition update_template (inst : string) (id : Uuid) (document : WorkspaceTemplateDocument) (yaml : string)
    (now : Z) : DbM (option TemplateRow) :=
  row ← select_template inst id;
  let s := spec document in
  updated ← lift (template_columns inst (row ≫= tr_organization_id) (trimmed (metadata_name document))
                    (trimmed (image s)) s (default false (tr_enabled <$> row))
                    (default 0 (tr_created_at <$> row)) now yaml);
  match row with
  | None => mret None
  | Some _ => _ ← write_template id updated; mret (Some updated)
  end.

Definition replace_workspace_template (inst : string) (template_id : Uuid) (yaml : string)
    (allow_cluster_access : bool) (now : Z) : DbM WorkspaceTemplate :=
  yaml ← lift (normalize_yaml yaml);
  document ← lift (parse_document yaml);
  _ ← lift (ensure_cluster_access (spec document) allow_cluster_access);
  _ ← lift (validate_image (image (spec document)));
  row ← transaction (
    row ← update_template inst template_id document yaml now;
    _ ← (if is_some row then sync_template_placement inst template_id (placement (spec document)) else mret ());
    mret row);
  lift (decode_optional_template template_id row).

Definition set_row_enabled (enabled : bool) (now : Z) (r : TemplateRow) : TemplateRow :=
  mkTemplateRow (tr_installation_id r) (tr_organization_id r) (tr_name r) (tr_image r) (tr_access_mode r)
    (tr_cpu_millis r) (tr_memory_mib r) (tr_gpu_count r) (tr_disk_gib r) (tr_temporary_storage_gib r)
    enabled (tr_created_at r) now (tr_yaml r).

Definition set_workspace_template_enabled (inst : string) (template_id : Uuid)
    (enabled allow_cluster_access : bool) (now : Z) : DbM WorkspaceTemplate :=
  row ← transaction (
    current ← select_template inst template_id;
    _ ← lift (ensure_template_access template_id current allow_cluster_access);
    _ ← update_where t_templates set_t_templates template_id
          (λ r, String.eqb (tr_installation_id r) inst) (set_row_enabled enabled now);
    select_template inst template_id);
  lift (decode_optional_template template_id row).

Definition template_referenced (inst : string) (template_id : Uuid) (db : Db) : bool :=
  existsb (λ kv, String.eqb (wr_installation_id kv.2) inst && bool_decide (wr_template_id kv.2 = Some template_id))
    (map_to_list (t_workspaces db)).

Definition ensure_template_deletable (enabled referenced : bool) : result StorageError.t () :=
  if enabled then Err StorageError.TemplateMustBeDisabled
  else if referenced then Err StorageError.TemplateInUse
  else Ok ().

(** Deleting a template cascades to its node pools. *)
Definition delete_template_row (inst : string) (template_id : Uuid) (db : Db) : Db :=
  set_t_templates (delete template_id (t_templates db))
    (set_t_template_node_pools
       (filter (λ kv : (string * Uuid * string) * bool, kv.1.1.2 ≠ template_id) (t_template_node_pools db)) db).

Definition delete_workspace_template (inst : string) (template_id : Uuid) (allow_cluster_access : bool)
    : DbM WorkspaceTemplate :=
  transaction (
    current ← select_template inst template_id;
    template ← lift (ensure_template_access template_id current allow_cluster_access);
    referenced ← reads (template_referenced inst template_id);
    _ ← lift (ensure_template_deletable (wt_enabled template) referenced);
    _ ← modify (delete_template_row inst template_id);
    mret template).
End Templates.

(** ** Node pools of a template *)
Section Pools.
Context (inst : string).

(** The pools recorded for a template are those its placement allows, with its
    default marked. *)
Definition pools_match (id : Uuid) (p : WorkspacePlacement) (db : Db) : Prop :=
  ∀ pool b, t_template_node_pools db !! (inst, id, pool) = Some b ↔
            pool ∈ allowed_node_pools p ∧ b = String.eqb pool (default_node_pool p).

Lemma insert_pools_run id (f : string → bool) pools db :
  NoDup pools → (∀ pool, pool ∈ pools → t_template_node_pools db !! (inst, id, pool) = None) →
  ∃ M, for_each (λ pool, insert_row t_template_node_pools set_t_template_node_pools (inst, id, pool) (f pool))
         pools db = (Ok (), set_t_template_node_pools M db) ∧
    (∀ k, k.1 ≠ (inst, id) → M !! k = t_template_node_pools db !! k) ∧
    (∀ pool b, M !! (inst, id, pool) = Some b ↔
       (pool ∈ pools ∧ b = f pool) ∨ t_template_node_pools db !! (inst, id, pool) = Some b).
Proof.
  intros Hnd. revert db. induction Hnd as [|pool pools Hnotin Hnd IH]; intros db Hfree; cbn [for_each].
  - exists (t_template_node_pools db). split; [by destruct db|]. split; [done|].
    intros pool b. rewrite elem_of_nil. tauto.
  - rewrite bind_run. unfold insert_row at 1. rewrite Hfree by apply elem_of_cons, or_introl, eq_refl.
    destruct (IH (set_t_template_node_pools (<[(inst, id, pool) := f pool]> (t_template_node_pools db)) db))
      as (M & Hrun & Hother & Hpools).
    { intros pool' Hin; cbn. rewrite lookup_insert_ne by (intros [= ->]; done).
      apply Hfree, elem_of_cons; auto. }
    exists M. split; [exact Hrun|]. split.
    + intros k Hk. rewrite Hother by done; cbn. apply lookup_insert_ne. intros <-. by apply Hk.
    + intros pool' b. rewrite Hpools; cbn. rewrite lookup_insert_Some, elem_of_cons.
      assert (pool' = pool ↔ (inst, id, pool) = (inst, id, pool')) as Heq by (split; congruence).
      specialize (Hfree pool (proj2 (elem_of_cons _ _ _) (or_introl eq_refl))).
      split; [intros [[? ->]|[[[= ->] <-]|[Hne ?]]]; auto|].
      intros [[[->|?] ->]|Hold]; auto. right; right. split; [|done]. intros [= ->]. congruence.
Qed.

Lemma forallb_pools (db : Db) pools :
  forallb (λ name, is_some (t_node_pools db !! (inst, name))) pools = true ↔
  ∀ pool, pool ∈ pools → is_Some (t_node_pools db !! (inst, pool)).
Proof.
  rewrite forallb_forall. split; intros Hall pool Hin.
  - apply list_elem_of_In, Hall, is_some_true in Hin as [r Hr]. by exists r.
  - apply is_some_true. apply list_elem_of_In, Hall in Hin as [r Hr]. by exists r.
Qed.

Lemma filter_length_all {A} (f : A → bool) l : length (List.filter f l) = length l ↔ forallb f l = true.
Proof.
  induction l as [|x l IH]; cbn; [done|]. destruct (f x); cbn; [by rewrite Nat.succ_inj_wd, IH|].
  pose proof (filter_length_le f l). split; [lia|done].
Qed.

Lemma remove_dups_NoDup_eq (l : list string) : NoDup l → remove_dups l = l.
Proof.
  induction 1 as [|x l Hx Hnd IH]; cbn; [done|]. destruct (decide_rel _ x l); [done|]. by rewrite IH.
Qed.

(** The two backends' checks agree on a placement without duplicates. *)
Lemma validate_template_pools_run (B : SqlBackend) p db :
  NoDup (allowed_node_pools p) →
  @validate_template_pools B inst p db =
  (ensure (forallb (λ name, is_some (t_node_pools db !! (inst, name))) (allowed_node_pools p))
     StorageError.NodePoolNotFound, db).
Proof.
  intros Hnd. unfold validate_template_pools. rewrite bind_run; cbn. unfold lift. f_equal. f_equal.
  unfold backend. destruct B; [done|]. rewrite remove_dups_NoDup_eq by done.
  destruct (forallb _ _) eqn:E; [by apply bool_decide_true, filter_length_all|].
  apply bool_decide_false. rewrite filter_length_all. congruence.
Qed.

Lemma sync_template_placement_Ok `{SqlBackend} id p db u db' :
  NoDup (allowed_node_pools p) →
  sync_template_placement inst id p db = (Ok u, db') →
  ∃ M, db' = set_t_template_node_pools M db ∧ pools_match id p db' ∧
    (∀ pool, pool ∈ allowed_node_pools p → is_Some (t_node_pools db !! (inst, pool))) ∧
    (∀ k, k.1 ≠ (inst, id) → M !! k = t_template_node_pools db !! k).
Proof.
  intros Hnd. unfold sync_template_placement. rewrite bind_run, validate_template_pools_run by done.
  unfold ensure. destruct (forallb _ _) eqn:Hall; [|done]. rewrite modify_bind.
  assert (Hgone : ∀ pool, t_template_node_pools (delete_template_pools inst id db) !! (inst, id, pool) = None).
  { intros pool. cbn. apply map_lookup_filter_None. right. intros b _ Hne. by apply Hne. }
  destruct (insert_pools_run id (λ pool, String.eqb pool (default_node_pool p)) _ _ Hnd (λ pool _, Hgone pool))
    as (M & -> & Hother & Hpools).
  intros [= <- <-]. exists M. split_and!.
  - done.
  - intros pool b. cbn. rewrite Hpools, Hgone. split; [intros [?|?]; done|by left].
  - by apply forallb_pools.
  - intros k Hk. rewrite Hother by done. cbn.
    rewrite map_lookup_filter. destruct (t_template_node_pools db !! k) as [b|]; [|done]; cbn.
    rewrite option_guard_True; [done|]. intros [E1 E2]. apply Hk. destruct k as [[i t] pool]; cbn in *. congruence.
Qed.
End Pools.

(** ** The catalogue invariant *)
Section Invariant.
Context `{TemplateYaml} `{SqlBackend} (inst : string).

(** Every template's text is a valid document whose pools are recorded; recorded
    pools belong to a template and exist; so does the pool of every workspace that
    is not deleted. *)
Record catalog_wf (db : Db) : Prop := {
  wf_template id r : t_templates db !! id = Some r → tr_installation_id r = inst →
    ∃ d, parse_document (tr_yaml r) = Ok d ∧ pools_match inst id (placement (spec d)) db;
  wf_pools id pool b : t_template_node_pools db !! (inst, id, pool) = Some b →
    (∃ r, t_templates db !! id = Some r ∧ tr_installation_id r = inst) ∧
    is_Some (t_node_pools db !! (inst, pool));
  wf_workspace id r : t_workspaces db !! id = Some r → wr_installation_id r = inst → wr_state r ≠ Deleted →
    is_Some (t_node_pools db !! (inst, wr_node_pool r));
}.

Definition catalog_tables (db : Db) :=
  (t_templates db, t_template_node_pools db, t_node_pools db, t_workspaces db).

Lemma catalog_wf_ext db db' : catalog_tables db' = catalog_tables db → catalog_wf db → catalog_wf db'.
Proof. intros [= E1 E2 E3 E4] [Ht Hp Hw]. split; unfold pools_match; rewrite ?E1, ?E2, ?E3, ?E4; done. Qed.

Lemma parse_document_Ok yaml d :
  parse_document yaml = Ok d → yaml_from_str yaml = Some d ∧ document_validate d = Ok ().
Proof.
  unfold parse_document, document_parse. destruct (yaml_from_str yaml) as [d'|]; cbn; [|done].
  destruct (document_validate d') as [[]|] eqn:E; cbn; [|done]. by intros [= ->].
Qed.

Lemma parse_document_placement yaml d :
  parse_document yaml = Ok d → NoDup (allowed_node_pools (placement (spec d))) ∧
  default_node_pool (placement (spec d)) ∈ allowed_node_pools (placement (spec d)).
Proof.
  intros [_ Hd]%parse_document_Ok. unfold document_validate, spec_validate in Hd. inv_binds.
  match goal with H : placement_validate _ = Ok _ |- _ => apply placement_validate_Ok in H as (? & ? & _) end.
  done.
Qed.

Lemma write_template_Ok id row db u db' :
  write_template id row db = (Ok u, db') → db' = set_t_templates (<[id := row]> (t_templates db)) db.
Proof. unfold write_template. intros Hrun. run_step Hrun. run_step Hrun. by injection Hrun as <-. Qed.

(** Writing a valid template and recording its pools. *)
Lemma store_template_wf id row d db u db' :
  catalog_wf db → parse_document (tr_yaml row) = Ok d → tr_installation_id row = inst →
  sync_template_placement inst id (placement (spec d))
    (set_t_templates (<[id := row]> (t_templates db)) db) = (Ok u, db') →
  catalog_wf db'.
Proof.
  intros [Ht Hp Hw] Hparse Hinst Hsync.
  destruct (parse_document_placement _ _ Hparse) as [Hnd _].
  apply sync_template_placement_Ok in Hsync as (M & -> & Hmatch & Hexist & Hother); [|done].
  cbn in Hexist, Hother. split; cbn.
  - intros id' r. destruct (decide (id' = id)) as [->|Hne].
    + rewrite lookup_insert_eq. intros [= <-] _. eauto.
    + rewrite lookup_insert_ne by done. intros Hr Hi. destruct (Ht _ _ Hr Hi) as (d' & ? & Hm).
      exists d'. split; [done|]. intros pool b. cbn. rewrite Hother by (cbn; congruence). apply Hm.
  - intros id' pool b Hpool. destruct (decide (id' = id)) as [->|Hne].
    + apply Hmatch in Hpool as [Hin _]. split; [|by apply Hexist]. exists row. by rewrite lookup_insert_eq.
    + rewrite Hother in Hpool by (cbn; congruence). destruct (Hp _ _ _ Hpool) as [(r & Hr & Hi) ?].
      split; [|done]. exists r. by rewrite lookup_insert_ne.
  - done.
Qed.

Lemma template_columns_Ok i o name img s enabled created now yaml row :
  template_columns i o name img s enabled created now yaml = Ok row →
  tr_yaml row = yaml ∧ tr_installation_id row = i.
Proof. unfold template_columns. intros Hc. inv_binds. by injection Hc as <-. Qed.

Lemma catalog_wf_drawn n db : catalog_wf db → catalog_wf (set_uuid_drawn n db).
Proof. by apply catalog_wf_ext. Qed.

Lemma create_workspace_template_wf organization_id yaml allow now db r db' :
  catalog_wf db → create_workspace_template inst organization_id yaml allow now db = (r, db') → catalog_wf db'.
Proof.
  intros Hwf. unfold create_workspace_template. rewrite bind_run; cbn.
  destruct (normalize_yaml yaml) as [yaml'|]; [|by intros [= _ <-]]. rewrite bind_run; cbn.
  destruct (parse_document yaml') as [d|] eqn:Hd; [|by intros [= _ <-]]. rewrite bind_run; cbn.
  destruct (ensure_cluster_access _ _); [|by intros [= _ <-]]. rewrite bind_run; cbn.
  destruct (validate_image _); [|by intros [= _ <-]]. rewrite bind_run; cbn.
  apply transaction_inv; [by intros; apply catalog_wf_drawn|by apply catalog_wf_drawn|].
  intros t db1 Hrun. run_step Hrun. run_step Hrun. injection Hrun as _ <-.
  unfold insert_template in Hx. do 3 run_step Hx. apply template_columns_Ok in Hx1 as [Ey Ei]; cbn in Ey.
  apply write_template_Ok in Hx as ->.
  eapply store_template_wf; [by apply (catalog_wf_drawn (S (uuid_drawn db)))| |exact Ei|exact Hx0].
  by rewrite Ey.
Qed.

Lemma replace_workspace_template_wf id yaml allow now db r db' :
  catalog_wf db → replace_workspace_template inst id yaml allow now db = (r, db') → catalog_wf db'.
Proof.
  intros Hwf. unfold replace_workspace_template. rewrite bind_run; cbn.
  destruct (normalize_yaml yaml) as [yaml'|]; [|by intros [= _ <-]]. rewrite bind_run; cbn.
  destruct (parse_document yaml') as [d|] eqn:Hd; [|by intros [= _ <-]]. rewrite bind_run; cbn.
  destruct (ensure_cluster_access _ _); [|by intros [= _ <-]]. rewrite bind_run; cbn.
  destruct (validate_image _); [|by intros [= _ <-]]. rewrite bind_run.
  match goal with |- context [transaction ?m db] => destruct (transaction m db) as [x db1] eqn:E end.
  assert (catalog_wf db1) as Hwf1.
  { revert E. apply transaction_inv; [by intros; apply catalog_wf_drawn|done|].
    intros row db2 Hrun. run_step Hrun. run_step Hrun. injection Hrun as _ <-.
    unfold update_template in Hx. run_step Hx. run_step Hx.
    injection Hx1 as _ <-. destruct x1 as [old|]; [|by injection Hx as <- <-; injection Hx0 as <-].
    run_step Hx. injection Hx as <- <-. apply write_template_Ok in Hx1 as ->.
    apply template_columns_Ok in Hx2 as [Ey Ei]. eapply store_template_wf; [done| |exact Ei|exact Hx0]. by rewrite Ey. }
  destruct x; intros [= _ <-]; done.
Qed.

Lemma set_workspace_template_enabled_wf id enabled allow now db r db' :
  catalog_wf db → set_workspace_template_enabled inst id enabled allow now db = (r, db') → catalog_wf db'.
Proof.
  intros Hwf. unfold set_workspace_template_enabled. rewrite bind_run.
  match goal with |- context [transaction ?m db] => destruct (transaction m db) as [x db1] eqn:E end.
  assert (catalog_wf db1) as Hwf1; [|destruct x; intros [= _ <-]; done].
  revert E. apply transaction_inv; [by intros; apply catalog_wf_drawn|done|].
  intros row db2 Hrun. run_step Hrun. run_step Hrun. run_step Hrun. injection Hrun as _ <-. injection Hx as _ <-.
  unfold update_where in Hx1. destruct (t_templates db !! id) as [old|] eqn:Hold; [|by injection Hx1 as _ <-].
  destruct (String.eqb_spec (tr_installation_id old) inst); injection Hx1 as _ <-; [|done].
  destruct Hwf as [Ht Hp Hw]. split; cbn; [| |done].
  - intros id' r'. destruct (decide (id' = id)) as [->|Hne].
    + rewrite lookup_insert_eq. intros [= <-] _. by apply (Ht _ _ Hold).
    + rewrite lookup_insert_ne by done. apply Ht.
  - intros id' pool b (Hr & ?)%Hp. split; [|done]. destruct (decide (id' = id)) as [->|Hne].
    + exists (set_row_enabled enabled now old). by rewrite lookup_insert_eq.
    + by rewrite lookup_insert_ne.
Qed.

Lemma delete_workspace_template_wf id allow db r db' :
  catalog_wf db → delete_workspace_template inst id allow db = (r, db') → catalog_wf db'.
Proof.
  intros Hwf. unfold delete_workspace_template.
  apply transaction_inv; [by intros; apply catalog_wf_drawn|done|].
  intros t db1 Hrun. run_step Hrun. injection Hx as _ <-. do 4 run_step Hrun. injection Hrun as _ <-.
  destruct Hwf as [Ht Hp Hw]. split; cbn; [| |done].
  - intros id' r' [Hne Hr]%lookup_delete_Some Hi. destruct (Ht _ _ Hr Hi) as (d & ? & Hm).
    exists d. split; [done|]. intros pool b; cbn. rewrite map_lookup_filter_Some; cbn. specialize (Hm pool b).
    split; [intros [? _]; by apply Hm|intros ?; split; [by apply Hm|congruence]].
  - intros id' pool b [Hpool Hne]%map_lookup_filter_Some; cbn in Hne. destruct (Hp _ _ _ Hpool) as [Hr ?].
    split; [|done]. by rewrite lookup_delete_ne by congruence.
Qed.

Lemma put_node_pool_wf name command now db r db' :
  catalog_wf db → put_node_pool inst name command now db = (r, db') → catalog_wf db'.
Proof.
  intros Hwf. unfold put_node_pool. rewrite bind_run; cbn.
  destruct (validate_node_pool _ _); [|by intros [= _ <-]]. rewrite !bind_run; cbn. intros [= _ <-].
  destruct Hwf as [Ht Hp Hw].
  assert (Hkeep : ∀ pool row, is_Some (t_node_pools db !! (inst, pool)) →
    is_Some (<[(inst, name) := row]> (t_node_pools db) !! (inst, pool))).
  { intros pool row ?. rewrite lookup_insert. by destruct (decide _). }
  split; cbn; [done| |eauto]. intros id pool b (? & ?)%Hp. eauto.
Qed.

Lemma existsb_table {K V} `{Countable K} (f : K * V → bool) (m : gmap K V) :
  existsb f (map_to_list m) = false ↔ ∀ k v, m !! k = Some v → f (k, v) = false.
Proof.
  rewrite <-not_true_iff_false, existsb_exists. split.
  - intros Hno k v Hk. apply not_true_iff_false. intros Hf. apply Hno. exists (k, v). split; [|done].
    by apply list_elem_of_In, elem_of_map_to_list.
  - intros Hall ([k v] & Hin & Hf). apply list_elem_of_In, elem_of_map_to_list in Hin. by rewrite Hall in Hf.
Qed.

Lemma pool_unused name db :
  pool_in_use inst name db = false →
  (∀ id r, t_workspaces db !! id = Some r → wr_installation_id r = inst → wr_state r ≠ Deleted →
     wr_node_pool r ≠ name) ∧
  (∀ id pool b, t_template_node_pools db !! (inst, id, pool) = Some b → pool ≠ name).
Proof.
  unfold pool_in_use. rewrite orb_false_iff, !existsb_table. intros [Hw Ht]. split.
  - intros id r Hr Hi Hs Hn. specialize (Hw _ _ Hr). unfold workspace_uses_pool in Hw; cbn in Hw.
    rewrite Hi, Hn, !String.eqb_refl, bool_decide_false in Hw by done. done.
  - intros id pool b Hb ->. specialize (Ht _ _ Hb); cbn in Ht. by rewrite !String.eqb_refl in Ht.
Qed.

Lemma delete_node_pool_wf name db r db' :
  catalog_wf db → delete_node_pool inst name db = (r, db') → catalog_wf db'.
Proof.
  intros Hwf. unfold delete_node_pool. destruct (String.eqb name "default"); [by intros [= _ <-]|].
  apply transaction_inv; [by intros; apply catalog_wf_drawn|done|].
  intros u db1 Hrun. run_step Hrun. injection Hrun as <-. unfold ensure_node_pool_deletable in Hx.
  do 2 run_step Hx. destruct (t_node_pools db !! (inst, name)) as [row|]; [|done].
  injection Hx as Hok <-. apply ensure_Ok, negb_true_iff, orb_false_iff in Hok as [_ [Hfree Hfree']%pool_unused].
  destruct Hwf as [Ht Hp Hw]. split; cbn; [done| |].
  - intros id pool b Hb. destruct (Hp _ _ _ Hb) as [? ?]. split; [done|].
    rewrite lookup_delete_ne; [done|]. intros [= <-]. by eapply Hfree'.
  - intros id r' Hr Hi Hs. rewrite lookup_delete_ne; [by eapply Hw|]. intros [= E]. by eapply Hfree.
Qed.

(** *** Histories of catalogue operations *)
Inductive CatalogOp :=
  | OpCreateTemplate (organization_id : option Uuid) (yaml : string) (allow : bool)
  | OpReplaceTemplate (id : Uuid) (yaml : string) (allow : bool)
  | OpEnableTemplate (id : Uuid) (enabled allow : bool)
  | OpDeleteTemplate (id : Uuid) (allow : bool)
  | OpPutPool (name : string) (command : PutNodePool)
  | OpDeletePool (name : string)
  | OpPutImage (img : string) (enabled : bool)
  | OpPatchSettings (concurrency ratio : option Z).

Definition run_catalog_op (now : Z) (op : CatalogOp) (db : Db) : Db :=
  match op with
  | OpCreateTemplate o yaml allow => (create_workspace_template inst o yaml allow now db).2
  | OpReplaceTemplate id yaml allow => (replace_workspace_template inst id yaml allow now db).2
  | OpEnableTemplate id enabled allow => (set_workspace_template_enabled inst id enabled allow now db).2
  | OpDeleteTemplate id allow => (delete_workspace_template inst id allow db).2
  | OpPutPool name command => (put_node_pool inst name command now db).2
  | OpDeletePool name => (delete_node_pool inst name db).2
  | OpPutImage img enabled => (upsert_image_policy inst img enabled now db).2
  | OpPatchSettings c r => (patch_runtime_settings inst c r now db).2
  end.

Definition catalog_step (db db' : Db) : Prop := ∃ now op, run_catalog_op now op db = db'.

#[global] Instance upsert_image_policy_frames img enabled now :
  Preserves (frames catalog_tables) (upsert_image_policy inst img enabled now).
Proof. unfold upsert_image_policy. apply _. Qed.

#[global] Instance patch_runtime_settings_frames c r now :
  Preserves (frames catalog_tables) (patch_runtime_settings inst c r now).
Proof.
  unfold patch_runtime_settings. apply preserves_bind; [apply _..|intros ?]. apply preserves_bind; [apply _..|intros ?].
  destruct (_ && _); [unfold runtime_settings|]; apply _.
Qed.

Lemma run_catalog_op_wf now op db : catalog_wf db → catalog_wf (run_catalog_op now op db).
Proof.
  intros Hwf. destruct op; cbn;
    [eapply create_workspace_template_wf|eapply replace_workspace_template_wf
    |eapply set_workspace_template_enabled_wf|eapply delete_workspace_template_wf|eapply put_node_pool_wf
    |eapply delete_node_pool_wf| |]; try apply surjective_pairing; try done.
  - eapply catalog_wf_ext, Hwf.
    eapply (use_frame catalog_tables (upsert_image_policy inst img enabled now)); [apply _|apply surjective_pairing].
  - eapply catalog_wf_ext, Hwf.
    eapply (use_frame catalog_tables (patch_runtime_settings inst concurrency ratio now));
      [apply _|apply surjective_pairing].
Qed.

(** C36: the catalogue stays well formed under any history of template, pool, image
    and settings operations, failed ones included: stored templates are valid
    documents whose pools are recorded with their default and exist. So every
    workspace that is not deleted finds the placement of its pool. *)
Theorem catalog_stays_well_formed db db' :
  catalog_wf db → rtc catalog_step db db' →
  catalog_wf db' ∧
  ∀ id r, t_workspaces db' !! id = Some r → wr_installation_id r = inst → wr_state r ≠ Deleted →
    ∃ p, resolve_workspace_placement inst (wr_node_pool r) db' = (Ok p, db').
Proof.
  intros Hwf Hrun. assert (catalog_wf db') as Hwf'.
  { induction Hrun as [|? ? ? (now & op & <-) _ IH]; [done|]. by apply IH, run_catalog_op_wf. }
  split; [done|]. intros id r Hr Hi Hs. destruct (wf_workspace _ Hwf' _ _ Hr Hi Hs) as [row Hrow].
  exists (np_placement row). unfold resolve_workspace_placement. rewrite bind_run; cbn. by rewrite Hrow.
Qed.

(** The two backends record the same pools for a valid template and refuse the
    same ones, although SQLite looks the pools up one by one and Postgres counts
    the rows of one query. *)
Theorem backends_record_same_pools yaml d id db :
  parse_document yaml = Ok d →
  @sync_template_placement Sqlite inst id (placement (spec d)) db =
  @sync_template_placement Postgres inst id (placement (spec d)) db.
Proof.
  intros [Hnd _]%parse_document_placement. unfold sync_template_placement.
  by rewrite !bind_run, !validate_template_pools_run.
Qed.

(** Concurrent patches of different settings do not overwrite each other: in
    either order both values are stored, whatever was stored before. *)
Theorem settings_patches_preserve_each_other concurrency ratio now now' db :
  1 <= concurrency <= MAX_JOB_WORKER_CONCURRENCY → 1 <= ratio <= MAX_CPU_OVERCOMMIT_RATIO →
  let a := patch_runtime_settings inst (Some concurrency) None now in
  let b := patch_runtime_settings inst None (Some ratio) now' in
  let settings := Ok (mkRuntimeSettings concurrency ratio) in
  (runtime_settings inst (b (a db).2).2).1 = settings ∧ (runtime_settings inst (a (b db).2).2).1 = settings ∧
  (b (a db).2).1 = settings ∧ (a (b db).2).1 = settings.
Proof.
  intros Hc Hr a b settings.
  assert (Hcw : in_u16 concurrency && in_range 1 MAX_JOB_WORKER_CONCURRENCY concurrency = true).
  { unfold in_range, in_u16, MAX_JOB_WORKER_CONCURRENCY, u16_max in *. bool_prop. lia. }
  assert (Hrw : in_u16 ratio && in_range 1 MAX_CPU_OVERCOMMIT_RATIO ratio = true).
  { unfold in_range, in_u16, MAX_CPU_OVERCOMMIT_RATIO, u16_max in *. bool_prop. lia. }
  pose proof (proj1 (andb_true_iff _ _) Hcw) as [_ Hcr]. pose proof (proj1 (andb_true_iff _ _) Hrw) as [_ Hrr].
  assert (Ha : ∀ db, a db = (let row := patched_settings (t_runtime_settings db !! inst) (Some concurrency) None now in
    (settings_from_row (rs_job_worker_concurrency row) (rs_cpu_overcommit_ratio row),
     set_t_runtime_settings (<[inst := row]> (t_runtime_settings db)) db))).
  { intros db0. unfold a, patch_runtime_settings. rewrite !bind_run; cbn. rewrite Hcr; cbn. done. }
  assert (Hb : ∀ db, b db = (let row := patched_settings (t_runtime_settings db !! inst) None (Some ratio) now' in
    (settings_from_row (rs_job_worker_concurrency row) (rs_cpu_overcommit_ratio row),
     set_t_runtime_settings (<[inst := row]> (t_runtime_settings db)) db))).
  { intros db0. unfold b, patch_runtime_settings. rewrite !bind_run; cbn. rewrite Hrr; cbn. done. }
  rewrite !Ha, !Hb; cbn. unfold runtime_settings, settings_from_row. rewrite !bind_run; cbn. rewrite !lookup_insert_eq; cbn.
  unfold patched_settings. destruct (t_runtime_settings db !! inst) as [row|]; cbn; by rewrite Hcw, Hrw.
Qed.
End Invariant.

(** ** Witnesses *)
Module CatalogSample.
Definition document : WorkspaceTemplateDocument :=
  mkDocument TEMPLATE_API_VERSION TEMPLATE_KIND "Standard"
    (standard "registry/image:1" Internal (mkResources 2000 4096 0 20)).
Definition text : string := "template" +:+ string_of_bytes [10].
#[export] Instance yaml : TemplateYaml := λ s, if String.eqb s text then Some document else None.
Definition pool : PutNodePool := mkPutNodePool "Default" (mkResolvedPlacement [] [] []) true.
Definition db : Db := @run_catalog_op yaml Sqlite "inst" 10 (OpPutPool "default" pool) empty_db.
Definition db' : Db := @run_catalog_op yaml Sqlite "inst" 20 (OpCreateTemplate None text false) db.
End CatalogSample.
Import (hints) CatalogSample.

Lemma empty_catalog_wf : @catalog_wf CatalogSample.yaml "inst" empty_db.
Proof. split; cbn; intros *; rewrite lookup_empty; done. Qed.

Lemma catalog_stays_well_formed_witness :
  @catalog_wf CatalogSample.yaml "inst" CatalogSample.db' ∧
  is_Some (t_templates CatalogSample.db' !! 1000%N).
Proof.
  split; [|vm_compute; eexists; reflexivity].
  refine (proj1 (@catalog_stays_well_formed CatalogSample.yaml Sqlite "inst" empty_db CatalogSample.db' empty_catalog_wf _)).
  eapply rtc_l; [by eexists 10, (OpPutPool "default" CatalogSample.pool)|].
  eapply rtc_l; [by eexists 20, (OpCreateTemplate None CatalogSample.text false)|]. apply rtc_refl.
Defined.

Lemma backends_record_same_pools_witness :
  @sync_template_placement Sqlite "inst" 5 (placement (spec CatalogSample.document)) CatalogSample.db =
  @sync_template_placement Postgres "inst" 5 (placement (spec CatalogSample.document)) CatalogSample.db.
Proof. apply (@backends_record_same_pools CatalogSample.yaml "inst" CatalogSample.text). vm_compute. reflexivity. Defined.

Lemma settings_patches_preserve_each_other_witness :
  (runtime_settings "inst" (patch_runtime_settings "inst" None (Some 4) 20
     (patch_runtime_settings "inst" (Some 8) None 10 empty_db).2).2).1 = Ok (mkRuntimeSettings 8 4).
Proof.
  refine (proj1 (settings_patches_preserve_each_other "inst" 8 4 10 20 empty_db _ _));
    unfold MAX_JOB_WORKER_CONCURRENCY, MAX_CPU_OVERCOMMIT_RATIO; lia.
Defined.
