(* ===== verification/Idempotency.v ===== *)
(** * Idempotency keys ([src/storage/idempotency.rs], the constants and header of
    [src/api/idempotency.rs])

    A client names a request by a key. The first request to reserve the key runs;
    a later one with the same key gets the stored response, or is told that the
    first still runs, or that the key belongs to another request. Reserving takes
    two statements and answering a third, outside any transaction: [client_step]
    interleaves them statement by statement. *)
From S2P Require Import Prelude Text Errors Database.

Definition IDEMPOTENCY_TTL_SECONDS : Z := 86400.

Record IdempotencyReplay := mkReplay {
  replay_status_code : Z;
  replay_response_json : string;
}.

Inductive IdempotencyDecision :=
  | Reserved
  | InProgress
  | Conflict
  | Replay (replay : IdempotencyReplay).

Record IdempotencyCompletion := mkCompletion {
  completion_scope : string;
  completion_key : string;
  completion_request_hash : string;
  completion_status_code : Z;  (** u16 *)
  completion_response_json : string;
}.

#[global] Instance replay_eq_dec : EqDecision IdempotencyReplay.
Proof. solve_decision. Defined.
#[global] Instance decision_eq_dec : EqDecision IdempotencyDecision.
Proof. solve_decision. Defined.

(** ** Statements *)
Definition validate (scope key : string) : result StorageError.t () :=
  if bool_decide (scope = "") || bool_decide (key = "") || (255 <? len scope) || (255 <? len key)
  then Err StorageError.InvalidIdempotencyKey else Ok ().

(** [DELETE ... WHERE ... AND expires_at <= now]. *)
Definition delete_expired (inst scope key : string) (now : Z) (db : Db) : Db :=
  if is_some_and (t_idempotency db !! (inst, scope, key)) (λ r, id_expires_at r <=? now)
  then set_t_idempotency (delete (inst, scope, key) (t_idempotency db)) db else db.

(** [INSERT ... ON CONFLICT DO NOTHING]; the result is [rows_affected]. *)
Definition reserve (inst scope key request_hash : string) (now expires_at : Z) : DbM Z := λ db,
  match t_idempotency db !! (inst, scope, key) with
  | Some _ => (Ok 0, db)
  | None =>
      (Ok 1, set_t_idempotency (<[(inst, scope, key) :=
         mkIdempotencyRow request_hash "" 0 now expires_at]> (t_idempotency db)) db)
  end.

(** [fetch_one]: a missing row is a database error. *)
Definition read_idempotency (inst scope key request_hash : string) : DbM IdempotencyDecision := λ db,
  (match t_idempotency db !! (inst, scope, key) with
   | None => Err StorageError.Database
   | Some r =>
       if negb (String.eqb (id_request_hash r) request_hash) then Ok Conflict
       else if id_status_code r =? 0 then Ok InProgress
       else if in_u16 (id_status_code r)
       then Ok (Replay (mkReplay (id_status_code r) (id_response_json r)))
       else Err StorageError.IdempotencyReservationLost
   end, db).

Definition begin_idempotency (inst scope key request_hash : string) (now expires_at : Z)
    : DbM IdempotencyDecision :=
  _ ← lift (validate scope key);
  _ ← modify (delete_expired inst scope key now);
  inserted ← reserve inst scope key request_hash now expires_at;
  if inserted =? 1 then mret Reserved else read_idempotency inst scope key request_hash.

(** The row is still the reservation of a request with this hash. *)
Definition is_reservation (request_hash : string) (r : IdempotencyRow) : bool :=
  String.eqb (id_request_hash r) request_hash && (id_status_code r =? 0).

(** [finish_sqlite] and [finish_postgres]; the result is [rows_affected]. *)
Definition finish (inst : string) (c : IdempotencyCompletion) : DbM Z :=
  update_where t_idempotency set_t_idempotency (inst, completion_scope c, completion_key c)
    (is_reservation (completion_request_hash c))
    (λ r, mkIdempotencyRow (id_request_hash r) (completion_response_json c) (completion_status_code c)
            (id_created_at r) (id_expires_at r)).

Definition ensure_finished (affected : Z) : result StorageError.t () :=
  ensure (affected =? 1) StorageError.IdempotencyReservationLost.

Definition finish_idempotency (inst : string) (c : IdempotencyCompletion) : DbM () :=
  affected ← finish inst c;
  lift (ensure_finished affected).

Definition delete_reservation (inst scope key request_hash : string) (db : Db) : Db :=
  if is_some_and (t_idempotency db !! (inst, scope, key)) (is_reservation request_hash)
  then set_t_idempotency (delete (inst, scope, key) (t_idempotency db)) db else db.

Definition abandon_idempotency (inst scope key request_hash : string) : DbM () :=
  modify (delete_reservation inst scope key request_hash).

(** ** Requests that share keys

    A request with its key, hash and clock. Between being reserved and being
    finished or abandoned, the operation it guards runs. *)
Record Request := mkRequest {
  rq_scope : string;
  rq_key : string;
  rq_hash : string;
  rq_now : Z;
  rq_expires_at : Z;
}.

Inductive Phase :=
  | Fresh                           (** nothing sent yet *)
  | Cleaned                         (** [DELETE] of an expired row done *)
  | Refused                         (** the [INSERT] conflicted *)
  | Holding                         (** reserved: the operation runs *)
  | Answered (d : IdempotencyDecision)
  | Errored (e : StorageError.t)    (** reading the conflicting row failed *)
  | Finished (r : IdempotencyReplay)
  | Abandoned
  | Lost.                           (** [IdempotencyReservationLost] on finishing *)

Section Clients.
Context (inst : string) (requests : list Request).

Definition row_key (rq : Request) : string * string * string := (inst, rq_scope rq, rq_key rq).

Inductive request_step (rq : Request) : Phase → Db → Phase → Db → Prop :=
  | step_clean db :
      request_step rq Fresh db Cleaned (delete_expired inst (rq_scope rq) (rq_key rq) (rq_now rq) db)
  | step_reserve db n db' :
      reserve inst (rq_scope rq) (rq_key rq) (rq_hash rq) (rq_now rq) (rq_expires_at rq) db = (Ok n, db') →
      request_step rq Cleaned db (if n =? 1 then Holding else Refused) db'
  | step_read db d :
      read_idempotency inst (rq_scope rq) (rq_key rq) (rq_hash rq) db = (Ok d, db) →
      request_step rq Refused db (Answered d) db
  | step_read_error db e :
      read_idempotency inst (rq_scope rq) (rq_key rq) (rq_hash rq) db = (Err e, db) →
      request_step rq Refused db (Errored e) db
  | step_finish db r n db' :
      0 < replay_status_code r <= u16_max →
      finish inst (mkCompletion (rq_scope rq) (rq_key rq) (rq_hash rq) (replay_status_code r)
                     (replay_response_json r)) db = (Ok n, db') →
      request_step rq Holding db (if n =? 1 then Finished r else Lost) db'
  | step_abandon db :
      request_step rq Holding db Abandoned
        (delete_reservation inst (rq_scope rq) (rq_key rq) (rq_hash rq) db).

(** One statement of one request, or any change to the other tables. *)
Inductive client_step : relation (Db * list Phase) :=
  | step_request i rq p p' db db' ps :
      requests !! i = Some rq → ps !! i = Some p → request_step rq p db p' db' →
      client_step (db, ps) (db', <[i := p']> ps)
  | step_other db db' ps :
      t_idempotency db' = t_idempotency db → client_step (db, ps) (db', ps).

(** The row a request keeps while it holds its key and once it is finished. *)
Definition owned_row (rq : Request) (p : Phase) : option IdempotencyRow :=
  match p with
  | Holding => Some (mkIdempotencyRow (rq_hash rq) "" 0 (rq_now rq) (rq_expires_at rq))
  | Finished r =>
      Some (mkIdempotencyRow (rq_hash rq) (replay_response_json r) (replay_status_code r) (rq_now rq)
              (rq_expires_at rq))
  | _ => None
  end.

Definition owns (ps : list Phase) (i : nat) (rq : Request) (row : IdempotencyRow) : Prop :=
  ∃ p, requests !! i = Some rq ∧ ps !! i = Some p ∧ owned_row rq p = Some row.

(** ** Invariant: rows and owners correspond *)
Record client_inv (db : Db) (ps : list Phase) : Prop := {
  inv_row i rq row : owns ps i rq row → t_idempotency db !! row_key rq = Some row;
  inv_owner i rq row : requests !! i = Some rq → t_idempotency db !! row_key rq = Some row →
    ∃ j rq', owns ps j rq' row ∧ row_key rq' = row_key rq;
  inv_unique i j rq rq' row row' :
    owns ps i rq row → owns ps j rq' row' → row_key rq = row_key rq' → i = j;
  inv_status i rq row r : requests !! i = Some rq → owns ps i rq row → ps !! i = Some (Finished r) →
    0 < replay_status_code r <= u16_max;
  inv_replay i rq r : requests !! i = Some rq → ps !! i = Some (Answered (Replay r)) →
    ∃ j rq', requests !! j = Some rq' ∧ row_key rq' = row_key rq ∧ rq_hash rq' = rq_hash rq ∧
             ps !! j = Some (Finished r);
  inv_not_lost i : ps !! i ≠ Some Lost;
}.

Lemma owns_insert ps i p j rq row :
  (i < length ps)%nat →
  owns (<[i := p]> ps) j rq row ↔
  (j = i ∧ requests !! i = Some rq ∧ owned_row rq p = Some row) ∨ (j ≠ i ∧ owns ps j rq row).
Proof.
  intros Hi. unfold owns. destruct (decide (j = i)) as [->|Hne].
  - rewrite list_lookup_insert_eq by done. split; [|intros [(_ & ? & ?)|[[] _]]; [by exists p|done]].
    intros (p0 & ? & [= <-] & ?). by left.
  - rewrite list_lookup_insert_ne by done. split; [by right|intros [[-> _]|[_ ?]]; done].
Qed.

Lemma lookup_phase (ps : list Phase) i p j q :
  <[i := p]> ps !! j = Some q → (j = i ∧ q = p) ∨ (j ≠ i ∧ ps !! j = Some q).
Proof. rewrite list_lookup_insert_Some. intros [(-> & -> & _)|[? ?]]; [by left|right; auto]. Qed.

Section Step.
Context (db db' : Db) (ps : list Phase) (i : nat) (rq : Request) (p p' : Phase).
Hypothesis Hinv : client_inv db ps.
Hypothesis Hrq : requests !! i = Some rq.
Hypothesis Hp : ps !! i = Some p.

Lemma phase_lt : (i < length ps)%nat.
Proof using Hp. by eapply lookup_lt_Some. Qed.

(** A step that leaves the rows alone and neither gains nor gives up a key. *)
Lemma inv_passive :
  t_idempotency db' = t_idempotency db → owned_row rq p = None → owned_row rq p' = None →
  (∀ r, p' = Answered (Replay r) → ∃ j rq', requests !! j = Some rq' ∧ row_key rq' = row_key rq ∧
     rq_hash rq' = rq_hash rq ∧ ps !! j = Some (Finished r)) →
  p' ≠ Lost → client_inv db' (<[i := p']> ps).
Proof using Hinv Hrq Hp.
  pose proof phase_lt as Hlt. intros HM Hnone Hnone' Hreplay Hlost. destruct Hinv as [Ir Io Iu Is Ia Il].
  assert (Hown : ∀ j rq0 row, owns (<[i:=p']> ps) j rq0 row ↔ owns ps j rq0 row).
  { intros j rq0 row. rewrite owns_insert by done. split.
    - intros [(-> & Hrq0 & E)|[_ ?]]; [|done]. congruence.
    - intros Ho. right. split; [|done]. intros ->. destruct Ho as (q & ? & ? & ?). congruence. }
  assert (Hfin : ∀ j r, ps !! j = Some (Finished r) → <[i:=p']> ps !! j = Some (Finished r)).
  { intros j r Hj. rewrite list_lookup_insert_ne; [done|]. intros <-. rewrite Hp in Hj. by injection Hj as ->. }
  split.
  - intros j rq0 row Ho%Hown. rewrite HM. eauto.
  - intros j rq0 row Hj Hrow. rewrite HM in Hrow. destruct (Io _ _ _ Hj Hrow) as (k & rq' & Ho & Hk).
    exists k, rq'. by rewrite Hown.
  - intros j k rq1 rq2 r1 r2 Ho1%Hown Ho2%Hown. eauto.
  - intros j rq0 row r Hj Ho%Hown [[-> E]|[_ Hf]]%lookup_phase; [by rewrite <-E in Hnone'|eauto].
  - intros j rq0 r Hj [[-> E]|[_ Hf]]%lookup_phase.
    + destruct (Hreplay r (eq_sym E)) as (k & rq' & ? & ? & ? & ?). exists k, rq'. split_and!; [done|congruence..|auto].
    + destruct (Ia _ _ _ Hj Hf) as (k & rq' & ? & ? & ? & ?). exists k, rq'. auto.
  - intros j [[-> E]|[_ Hf]]%lookup_phase; [congruence|by eapply Il].
Qed.

(** A step of the request that owns its row, or takes a free key. *)
Lemma inv_active :
  t_idempotency db !! row_key rq = owned_row rq p →
  t_idempotency db' !! row_key rq = owned_row rq p' →
  (∀ k, k ≠ row_key rq → t_idempotency db' !! k = t_idempotency db !! k) →
  (∀ r, p ≠ Finished r) → (∀ r, p' ≠ Answered (Replay r)) → p' ≠ Lost →
  (∀ r, p' = Finished r → 0 < replay_status_code r <= u16_max) →
  client_inv db' (<[i := p']> ps).
Proof using Hinv Hrq Hp.
  pose proof phase_lt as Hlt. intros HM HM' Hframe Hnf Hna Hnl Hstatus. destruct Hinv as [Ir Io Iu Is Ia Il].
  assert (Hother : ∀ j rq0 row, j ≠ i → owns ps j rq0 row → row_key rq0 ≠ row_key rq).
  { intros j rq0 row Hne Ho E. pose proof (Ir _ _ _ Ho) as Hrow. rewrite E, HM in Hrow.
    apply Hne. eapply Iu; [done|exists p; eauto|done]. }
  split.
  - intros j rq0 row [(-> & Hj & E)|[Hne Ho]]%owns_insert; [congruence| |done].
    rewrite Hframe by eauto. eauto.
  - intros j rq0 row Hj Hrow. destruct (decide (row_key rq0 = row_key rq)) as [E|E].
    + exists i, rq. split; [|done]. apply owns_insert; [done|]. left. rewrite E, HM' in Hrow. done.
    + rewrite Hframe in Hrow by done. destruct (Io _ _ _ Hj Hrow) as (k & rq' & Ho & Hk).
      exists k, rq'. split; [|done]. apply owns_insert; [done|]. right. split; [|done].
      intros ->. destruct Ho as (q & ? & _). congruence.
  - intros j k rq1 rq2 r1 r2 [(-> & Hj & _)|[Hj Ho]]%owns_insert [(-> & Hk & _)|[Hk Ho']]%owns_insert E; try done.
    + destruct (Hother k rq2 r2); congruence.
    + destruct (Hother j rq1 r1); congruence.
    + eauto.
  - intros j rq0 row r Hj [(-> & _)|[Hne Ho]]%owns_insert [[Hx E]|[Hx Hf]]%lookup_phase; try done; eauto.
  - intros j rq0 r Hj [[-> E]|[_ Hf]]%lookup_phase; [by destruct (Hna r)|].
    destruct (Ia _ _ _ Hj Hf) as (k & rq' & ? & ? & ? & Hfin). exists k, rq'. split_and!; try done.
    rewrite list_lookup_insert_ne; [done|]. intros <-. rewrite Hp in Hfin. by apply (Hnf r); injection Hfin.
  - intros j [[-> E]|[_ Hf]]%lookup_phase; [congruence|by eapply Il].
Qed.
End Step.

(** All requests for a key fall into one lifetime of it: no clock has reached the
    expiry any of them sets. *)
Hypothesis window : ∀ i j rq rq', requests !! i = Some rq → requests !! j = Some rq' →
  row_key rq = row_key rq' → rq_now rq < rq_expires_at rq'.

Lemma owned_row_expires rq p row : owned_row rq p = Some row → id_expires_at row = rq_expires_at rq.
Proof. destruct p; cbn; intros; by simplify_eq. Qed.

Lemma delete_expired_other scope key now db row :
  t_idempotency db !! (inst, scope, key) = Some row → now < id_expires_at row →
  delete_expired inst scope key now db = db.
Proof. intros Hrow Hlt. unfold delete_expired. rewrite Hrow; cbn. by rewrite (proj2 (Z.leb_gt _ _)). Qed.

Lemma delete_expired_none scope key now db :
  t_idempotency db !! (inst, scope, key) = None → delete_expired inst scope key now db = db.
Proof. intros Hrow. unfold delete_expired. by rewrite Hrow. Qed.

(** No request in the window finds a row of the others expired. *)
Lemma delete_expired_window db ps i rq :
  client_inv db ps → requests !! i = Some rq →
  delete_expired inst (rq_scope rq) (rq_key rq) (rq_now rq) db = db.
Proof using window.
  intros [_ Io _ _ _ _] Hrq. destruct (t_idempotency db !! row_key rq) as [row|] eqn:Hrow;
    [|by apply delete_expired_none].
  destruct (Io _ _ _ Hrq Hrow) as (j & rq' & (p & Hrq' & _ & Hown) & Hk).
  eapply delete_expired_other; [done|]. rewrite (owned_row_expires _ _ _ Hown). by eapply window.
Qed.

(** What reading a row says of its owner. *)
Lemma read_replay db ps i rq r :
  client_inv db ps → requests !! i = Some rq →
  read_idempotency inst (rq_scope rq) (rq_key rq) (rq_hash rq) db = (Ok (Replay r), db) →
  ∃ j rq', requests !! j = Some rq' ∧ row_key rq' = row_key rq ∧ rq_hash rq' = rq_hash rq ∧
           ps !! j = Some (Finished r).
Proof.
  intros [_ Io _ Is _ _] Hrq. unfold read_idempotency.
  destruct (t_idempotency db !! _) as [row|] eqn:Hrow; [|done].
  destruct (Io _ _ _ Hrq Hrow) as (j & rq' & Hown & Hk). pose proof Hown as (p & Hrq' & Hp & Ho).
  destruct (String.eqb_spec (id_request_hash row) (rq_hash rq)) as [Eh|]; cbn; [|done].
  destruct (Z.eqb_spec (id_status_code row) 0) as [|Hs]; [done|].
  destruct (in_u16 _); intros [= <-]. exists j, rq'.
  destruct p as [| | | | | |r| |]; try done; cbn in Ho; injection Ho as <-; cbn in *; [done|].
  split_and!; [done..|]. by destruct r.
Qed.

Lemma client_inv_step db ps db' ps' :
  client_inv db ps → client_step (db, ps) (db', ps') → client_inv db' ps'.
Proof using window.
  intros Hinv Hstep. inversion Hstep as [i rq p p' ? ? ? Hrq Hp Hreq|? ? ? HM]; subst.
  2: { destruct Hinv. split; rewrite ?HM; try done. }
  inversion Hreq as [|? n ? Hres|? d Hread|? e Hread|? r n ? Hr Hfin|]; subst.
  - rewrite (delete_expired_window db ps i rq) by done. by eapply inv_passive.
  - unfold reserve in Hres. destruct (t_idempotency db !! _) as [row|] eqn:Hrow; injection Hres as <- <-; cbn.
    + by eapply inv_passive.
    + eapply inv_active; try done; cbn; [by rewrite lookup_insert_eq|].
      intros k Hk. by rewrite lookup_insert_ne.
  - eapply inv_passive; try done. intros r [= ->]. by eapply read_replay.
  - by eapply inv_passive.
  - pose proof (inv_row _ _ Hinv i rq _ (ex_intro _ Holding (conj Hrq (conj Hp eq_refl)))) as Hrow.
    unfold finish, update_where in Hfin; cbn in Hfin. unfold row_key in Hrow. rewrite Hrow in Hfin; cbn in Hfin.
    unfold is_reservation in Hfin; cbn in Hfin. rewrite String.eqb_refl in Hfin. injection Hfin as <- <-; cbn.
    eapply inv_active; try done; cbn; [by rewrite lookup_insert_eq| |].
    + intros k Hk. by rewrite lookup_insert_ne.
    + intros r' [= <-]. done.
  - pose proof (inv_row _ _ Hinv i rq _ (ex_intro _ Holding (conj Hrq (conj Hp eq_refl)))) as Hrow.
    unfold delete_reservation. unfold row_key in Hrow. rewrite Hrow; cbn. unfold is_reservation; cbn.
    rewrite String.eqb_refl; cbn.
    eapply inv_active; try done; cbn; [by rewrite lookup_delete_eq|].
    intros k Hk. by rewrite lookup_delete_ne.
Qed.

Lemma client_inv_init db :
  (∀ i rq, requests !! i = Some rq → t_idempotency db !! row_key rq = None) →
  client_inv db (replicate (length requests) Fresh).
Proof.
  intros Hfree.
  assert (Hp : ∀ i p, replicate (length requests) Fresh !! i = Some p → p = Fresh).
  { intros i p [-> _]%lookup_replicate. done. }
  split.
  - by intros i rq row (p & _ & ->%Hp & ?).
  - intros i rq row Hrq Hrow. by rewrite (Hfree _ _ Hrq) in Hrow.
  - by intros i j rq rq' row row' (p & _ & ->%Hp & ?).
  - by intros i rq row r _ (p & _ & ->%Hp & ?).
  - by intros i rq r _ ?%Hp.
  - by intros i ?%Hp.
Qed.

Lemma client_inv_reachable db0 db ps :
  (∀ i rq, requests !! i = Some rq → t_idempotency db0 !! row_key rq = None) →
  rtc client_step (db0, replicate (length requests) Fresh) (db, ps) → client_inv db ps.
Proof using window.
  intros Hfree Hrun. apply client_inv_init in Hfree.
  remember (db0, replicate (length requests) Fresh) as s eqn:Es. remember (db, ps) as s' eqn:Es'.
  revert db0 Es Hfree. generalize (replicate (length requests) Fresh) as ps0.
  induction Hrun as [|? [db1 ps1] ? Hstep _ IH]; intros ps0 db0 -> Hinv; [by simplify_eq|].
  eapply IH; [done|done|]. by eapply client_inv_step.
Qed.

(** A row that is finished and not expired is what [begin_idempotency] answers. *)
Lemma begin_finished db ps i rq r now expires_at :
  client_inv db ps → requests !! i = Some rq → ps !! i = Some (Finished r) →
  validate (rq_scope rq) (rq_key rq) = Ok () → now < rq_expires_at rq →
  begin_idempotency inst (rq_scope rq) (rq_key rq) (rq_hash rq) now expires_at db = (Ok (Replay r), db).
Proof.
  intros Hinv Hrq Hp Hv Hnow.
  pose proof (ex_intro _ (Finished r) (conj Hrq (conj Hp eq_refl)) : owns ps i rq _) as Hown.
  pose proof (inv_row _ _ Hinv _ _ _ Hown) as Hrow.
  pose proof (inv_status _ _ Hinv _ _ _ _ Hrq Hown Hp) as Hs.
  unfold begin_idempotency. rewrite Hv, bind_run; cbn. rewrite bind_run; cbn.
  rewrite (delete_expired_other _ _ _ _ _ Hrow) by done.
  unfold row_key in Hrow. rewrite bind_run. unfold reserve. rewrite Hrow; cbn.
  unfold read_idempotency. rewrite Hrow; cbn. rewrite String.eqb_refl; cbn.
  rewrite (proj2 (Z.eqb_neq _ _)) by lia.
  assert (in_u16 (replay_status_code r) = true) as -> by (unfold in_u16; bool_prop; lia).
  by destruct r.
Qed.

(** C17: requests that use the same key inside one lifetime of it execute the
    operation they guard at most once, however their statements and any other
    database activity interleave: no two of them hold or have finished the key,
    a request that finishes never finds its reservation lost, every replayed
    answer is the stored response of the request with the same hash that
    finished, and from then on the key answers with that response. *)
Theorem idempotent_execution db0 db ps :
  (∀ i rq, requests !! i = Some rq → t_idempotency db0 !! row_key rq = None) →
  rtc client_step (db0, replicate (length requests) Fresh) (db, ps) →
  (∀ i j rq rq' p p', requests !! i = Some rq → requests !! j = Some rq' → row_key rq = row_key rq' →
     ps !! i = Some p → ps !! j = Some p' → owned_row rq p ≠ None → owned_row rq' p' ≠ None → i = j) ∧
  (∀ i, ps !! i ≠ Some Lost) ∧
  (∀ i rq r, requests !! i = Some rq → ps !! i = Some (Answered (Replay r)) →
     ∃ j rq', requests !! j = Some rq' ∧ row_key rq' = row_key rq ∧ rq_hash rq' = rq_hash rq ∧
              ps !! j = Some (Finished r)) ∧
  (∀ i rq r now expires_at, requests !! i = Some rq → ps !! i = Some (Finished r) →
     validate (rq_scope rq) (rq_key rq) = Ok () → now < rq_expires_at rq →
     begin_idempotency inst (rq_scope rq) (rq_key rq) (rq_hash rq) now expires_at db
     = (Ok (Replay r), db)).
Proof using window.
  intros Hfree Hrun. pose proof (client_inv_reachable _ _ _ Hfree Hrun) as Hinv. split_and!.
  - intros i j rq rq' p p' Hi Hj E Hp Hp' [row Ho]%not_eq_None_Some [row' Ho']%not_eq_None_Some.
    eapply (inv_unique _ _ Hinv); [by exists p|by exists p'|done].
  - apply (inv_not_lost _ _ Hinv).
  - apply (inv_replay _ _ Hinv).
  - intros i rq r now expires_at Hi Hp. by eapply begin_finished.
Qed.
End Clients.

(** ** Witness *)
Definition sample_requests : list Request :=
  [mkRequest "user:create" "key" "hash" 100 86500; mkRequest "user:create" "key" "hash" 160 86560].
Definition sample_reply : IdempotencyReplay := mkReplay 200 "{}".

Lemma sample_window i j rq rq' :
  sample_requests !! i = Some rq → sample_requests !! j = Some rq' →
  row_key "inst" rq = row_key "inst" rq' → rq_now rq < rq_expires_at rq'.
Proof.
  intros Hi%list_elem_of_lookup_2 Hj%list_elem_of_lookup_2 _.
  unfold sample_requests in *. rewrite !elem_of_cons in Hi, Hj.
  destruct Hi as [->|[->|[]%not_elem_of_nil]], Hj as [->|[->|[]%not_elem_of_nil]]; cbn; lia.
Qed.

(** The first request finishes while the second has only cleaned up; the second
    then gets the first one's response. *)
Lemma sample_run :
  ∃ db, rtc (client_step "inst" sample_requests) (empty_db, [Fresh; Fresh])
    (db, [Finished sample_reply; Answered (Replay sample_reply)]).
Proof.
  eexists.
  do 2 (eapply rtc_l; [eapply (step_request _ _ 0); [reflexivity|reflexivity|econstructor; reflexivity]|]).
  eapply rtc_l; [eapply (step_request _ _ 1); [reflexivity|reflexivity|econstructor; reflexivity]|].
  eapply rtc_l; [eapply (step_request _ _ 0 _ Holding (Finished sample_reply)); [reflexivity|reflexivity|]|].
  { refine (step_finish "inst" _ _ sample_reply 1 _ _ _); [cbn; unfold u16_max; lia|reflexivity]. }
  do 2 (eapply rtc_l; [eapply (step_request _ _ 1); [reflexivity|reflexivity|econstructor; reflexivity]|]).
  apply rtc_refl.
Qed.

Lemma idempotent_execution_witness :
  ∃ db, rtc (client_step "inst" sample_requests) (empty_db, [Fresh; Fresh])
      (db, [Finished sample_reply; Answered (Replay sample_reply)]) ∧
    begin_idempotency "inst" "user:create" "key" "hash" 200 86600 db = (Ok (Replay sample_reply), db).
Proof.
  destruct sample_run as [db Hrun]. exists db. split; [exact Hrun|].
  refine (proj2 (proj2 (proj2 (idempotent_execution "inst" sample_requests sample_window empty_db db _ _ Hrun)))
            0%nat _ sample_reply 200 86600 eq_refl eq_refl eq_refl _).
  - intros i rq _. reflexivity.
  - reflexivity.
Defined.
