(* ===== verification/Crypto.v ===== *)
(** * Envelope encryption ([src/crypto.rs])

    A value is encrypted under a fresh data key, the data key under the
    installation's key; both are bound to the same associated data. AES-256-GCM
    ([aes-gcm]), Base64 ([base64]) and the operating system's random source
    ([getrandom]) are interfaces. *)
From S2P Require Import Prelude Text.

Abbreviation Octets := (list Ascii.ascii).

(** [Aes256Gcm]: [encrypt key nonce aad message] and its inverse. *)
Class Aead := {
  aead_encrypt : Octets → Octets → Octets → Octets → option Octets;
  aead_decrypt : Octets → Octets → Octets → Octets → option Octets;
}.

(** Decryption inverts encryption, and a message sealed with other associated
    data is not accepted. *)
Class AeadLaws `{Aead} : Prop := {
  aead_correct key nonce aad message sealed :
    aead_encrypt key nonce aad message = Some sealed → aead_decrypt key nonce aad sealed = Some message;
  aead_binding key nonce aad aad' message sealed :
    aead_encrypt key nonce aad message = Some sealed → aad ≠ aad' → aead_decrypt key nonce aad' sealed = None;
}.

(** [base64::engine::general_purpose::STANDARD]: decoding accepts canonical texts
    only. *)
Class Base64Codec := {
  base64_encode : Octets → string;
  base64_decode : string → option Octets;
}.
Class Base64Laws `{Base64Codec} : Prop := {
  base64_decode_encode bs : base64_decode (base64_encode bs) = Some bs;
  base64_encode_decode text bs : base64_decode text = Some bs → base64_encode bs = text;
}.

(** [getrandom::fill]: what the [call]-th request returns when [point] identifiers
    have been drawn. *)
Class RandomSource := getrandom : nat → nat → option Octets.

Definition KEY_LENGTH : nat := 32.
Definition NONCE_LENGTH : nat := 12.

Inductive CryptoError := InvalidMasterKey | RandomFailure | Encryption | Decryption.

Record EnvelopeCipher := mkCipher { key_encryption_key : Octets }.

Record EncryptedEnvelope := mkEnvelope {
  ciphertext : Octets;
  value_nonce : Octets;
  wrapped_data_key : Octets;
  key_nonce : Octets;
}.

Section Crypto.
Context `{Aead} `{Base64Codec} `{RandomSource}.

Definition cipher_from_base64 (encoded_key : string) : result CryptoError EnvelopeCipher :=
  bs ← ok_or (base64_decode encoded_key) InvalidMasterKey;
  _ ← ensure (bool_decide (length bs = KEY_LENGTH)) InvalidMasterKey;
  Ok (mkCipher bs).

Definition encrypt (point : nat) (c : EnvelopeCipher) (plaintext aad : Octets)
    : result CryptoError EncryptedEnvelope :=
  data_key ← ok_or (getrandom point 0) RandomFailure;
  value_nonce ← ok_or (getrandom point 1) RandomFailure;
  key_nonce ← ok_or (getrandom point 2) RandomFailure;
  ciphertext ← ok_or (aead_encrypt data_key value_nonce aad plaintext) Encryption;
  wrapped ← ok_or (aead_encrypt (key_encryption_key c) key_nonce aad data_key) Encryption;
  Ok (mkEnvelope ciphertext value_nonce wrapped key_nonce).

Definition decrypt (c : EnvelopeCipher) (e : EncryptedEnvelope) (aad : Octets) : result CryptoError Octets :=
  data_key ← ok_or (aead_decrypt (key_encryption_key c) (key_nonce e) aad (wrapped_data_key e)) Decryption;
  _ ← ensure (bool_decide (length data_key = KEY_LENGTH)) Decryption;
  ok_or (aead_decrypt data_key (value_nonce e) aad (ciphertext e)) Decryption.

(** ** Lemmas *)
Context `{!AeadLaws}.

(** The random source fills the buffer it is given: a key, then two nonces. *)
Definition random_lengths : Prop := ∀ point call bs,
  getrandom point call = Some bs → length bs = if decide (call = 0%nat) then KEY_LENGTH else NONCE_LENGTH.

Lemma decrypt_encrypt point c plaintext aad e :
  random_lengths → encrypt point c plaintext aad = Ok e → decrypt c e aad = Ok plaintext.
Proof.
  intros Hlen Henc. unfold encrypt in Henc. inv_binds. injection Henc as <-. unfold decrypt; cbn.
  erewrite aead_correct by done; cbn. rewrite bool_decide_true by (by eapply (Hlen point 0%nat)); cbn.
  by erewrite aead_correct by done.
Qed.

(** An envelope is readable only with the associated data it was sealed with. *)
Lemma decrypt_other_aad point c plaintext aad aad' e :
  encrypt point c plaintext aad = Ok e → aad ≠ aad' → decrypt c e aad' = Err Decryption.
Proof.
  intros Henc Hne. unfold encrypt in Henc. inv_binds. injection Henc as <-. unfold decrypt; cbn.
  by erewrite aead_binding by done.
Qed.
End Crypto.

(** ** A model of the interfaces

    Sealing by writing down what was sealed, each part behind its length in
    unary; a text as the Base64 form of itself. *)
Module CryptoSample.
Definition framed (part : Octets) : Octets :=
  replicate (length part) Ascii.one ++ Ascii.zero :: part.
#[export] Instance aead : Aead := {|
  aead_encrypt key nonce aad message := Some (framed key ++ framed nonce ++ framed aad ++ message);
  aead_decrypt key nonce aad sealed :=
    if decide (take (length (framed key ++ framed nonce ++ framed aad)) sealed
               = framed key ++ framed nonce ++ framed aad)
    then Some (drop (length (framed key ++ framed nonce ++ framed aad)) sealed) else None;
|}.

Lemma framed_inj p p' rest rest' : framed p ++ rest = framed p' ++ rest' → p = p' ∧ rest = rest'.
Proof.
  intros E. assert (length p = length p') as Hlen.
  { unfold framed in E. rewrite <-!app_assoc in E. revert E. generalize (length p) (length p').
    induction n as [|n IH]; intros [|m]; cbn; intros E; [done|done|done|]. injection E as E. by rewrite (IH m). }
  unfold framed in E. rewrite <-!app_assoc, Hlen in E. apply app_inv_head in E; cbn in E.
  injection E as E. by apply app_inj_1 in E.
Qed.

Lemma aead_laws : AeadLaws.
Proof.
  split; intros; unfold aead_encrypt, aead_decrypt, aead in *; simplify_eq; rewrite !app_assoc.
  - rewrite take_app_length, drop_app_length. by rewrite decide_True.
  - rewrite decide_False; [done|]. intros E.
    assert (framed key ++ framed nonce ++ framed aad ++ message =
            framed key ++ framed nonce ++ framed aad' ++
              drop (length ((framed key ++ framed nonce) ++ framed aad')) (((framed key ++ framed nonce) ++ framed aad) ++ message)) as F.
    { rewrite <-(take_drop (length ((framed key ++ framed nonce) ++ framed aad'))
        (framed key ++ framed nonce ++ framed aad ++ message)) at 1. rewrite !app_assoc, E. by rewrite <-!app_assoc. }
    apply framed_inj in F as [_ F]. apply framed_inj in F as [_ F]. by apply framed_inj in F as [? _].
Qed.

#[export] Instance base64 : Base64Codec := {|
  base64_encode := String.string_of_list_ascii;
  base64_decode text := Some (String.list_ascii_of_string text);
|}.
Lemma base64_laws : Base64Laws.
Proof.
  split; cbn; [intros; by rewrite String.list_ascii_of_string_of_list_ascii|].
  intros text bs [= <-]. apply String.string_of_list_ascii_of_string.
Qed.

#[export] Instance random : RandomSource := λ point call,
  Some (replicate (if decide (call = 0%nat) then KEY_LENGTH else NONCE_LENGTH) (Ascii.ascii_of_nat (point + call))).
Lemma random_ok : random_lengths.
Proof. intros point [|call] bs [= <-]; done. Qed.
End CryptoSample.
Import (hints) CryptoSample.
