(* ===== verification/InjectionStore.v ===== *)
(** * Stored injections ([src/storage/injection_store.rs] and its modules,
    [src/storage/injection_reconcile.rs])

    Injections are stored encrypted, one row per installation, scope and key; the
    associated data of the envelope names that position and the version, so that a
    ciphertext copied elsewhere is not readable. A change is followed by
    reconciliation jobs for the workspaces it can affect; the deletion of a batch
    queues them and completes its idempotency key in the same transaction. *)
From stdpp Require Import sorting pretty.
From S2P Require Import Prelude Text Json Quota Auth Templates Workspaces Errors ShrinkOperation Database JobStore Injections Crypto Idempotency.

Record InjectionScopeRef := mkScopeRef {
  sr_scope : InjectionScope;
  sr_scope_id : Uuid;
}.

Record StoredInjectionSummary := mkStoredSummary {
  ss_key : string;
  ss_kind : InjectionKind;
  ss_target : string;
  ss_scope : InjectionScope;
  ss_scope_id : Uuid;
  ss_sensitive : bool;
  ss_locked : bool;
  ss_version : Z;
  ss_file_mode : option Z;
  ss_owner : option string;
  ss_group : option string;
  ss_template_selector : option string;
  ss_labels : list (string * string);
  ss_updated_at : Z;
  ss_value : option InjectionValue;
}.

(** [InjectionKind::as_str] and [InjectionKind::from_database]. *)
Definition kind_as_str (k : InjectionKind) : string :=
  match k with
  | EnvironmentVariable => "environment_variable"
  | SecretFile => "secret_file"
  | ConfigFile => "config_file"
  | SshPublicKey => "ssh_public_key"
  end.
Definition kind_from_database (value : string) : option InjectionKind :=
  if String.eqb value "environment_variable" then Some EnvironmentVariable
  else if String.eqb value "secret_file" then Some SecretFile
  else if String.eqb value "config_file" then Some ConfigFile
  else if String.eqb value "ssh_public_key" then Some SshPublicKey
  else None.

Definition octets (s : string) : Octets := String.list_ascii_of_string s.

(** [map_err(StorageError::Crypto)]. *)
Definition crypto {A} (r : result CryptoError A) : result StorageError.t A :=
  map_err (λ _, StorageError.Crypto) r.

Definition set_version (version : Z) (i : InjectionItem) : InjectionItem :=
  mkItem (ii_key i) (ii_kind i) (ii_target i) (ii_value i) (ii_sensitive i) (ii_locked i) version
    (ii_file_mode i) (ii_owner i) (ii_group i) (ii_template_selector i) (ii_labels i).

Section InjectionStore.
Context `{UuidText} `{Aead} `{Base64Codec} `{RandomSource}.

Definition aad (inst : string) (scope : InjectionScopeRef) (key : string) (version : Z) : Octets :=
  octets ("mwc:v1:" +:+ inst +:+ ":" +:+ scope_as_str (sr_scope scope) +:+ ":"
          +:+ uuid_to_string (sr_scope_id scope) +:+ ":" +:+ key +:+ ":" +:+ pretty (Z.to_N version)).

(** ** Rows *)
Definition at_position (inst : string) (scope : InjectionScopeRef) (key : string) (r : InjectionRow) : bool :=
  String.eqb (ir_installation_id r) inst && String.eqb (ir_scope r) (scope_as_str (sr_scope scope))
  && bool_decide (ir_scope_id r = sr_scope_id scope) && String.eqb (ir_key r) key.

(** The row at a position; [UNIQUE (installation_id, scope, scope_id, key)]. *)
Definition injection_at (inst : string) (scope : InjectionScopeRef) (key : string) (db : Db)
    : option (Uuid * InjectionRow) :=
  List.find (λ kv, at_position inst scope key kv.2) (map_to_list (t_injections db)).

Definition next_version (current : option Z) : result StorageError.t Z :=
  current ← match current with
            | None => Ok 0
            | Some v => ok_or (u64_try_from v) StorageError.InvalidEncryptedInjection
            end;
  ok_or (checked_add_u64 current 1) StorageError.InvalidEncryptedInjection.

Definition encrypt_item (point : nat) (cipher : EnvelopeCipher) (inst : string) (scope : InjectionScopeRef)
    (item : InjectionItem) : result StorageError.t EncryptedEnvelope :=
  plaintext ← match ii_value item with
              | Utf8 value => Ok (octets value)
              | Base64 value => ok_or (base64_decode value) StorageError.InvalidEncryptedInjection
              end;
  crypto (encrypt point cipher plaintext (aad inst scope (ii_key item) (ii_version item))).

Definition encoding (v : InjectionValue) : string :=
  match v with Utf8 _ => "utf8" | Base64 _ => "base64" end.

(** The columns bound by [save_sqlite] and [save_postgres]. *)
Definition injection_columns (inst : string) (scope : InjectionScopeRef) (item : InjectionItem)
    (e : EncryptedEnvelope) (version : Z) (created_by : Uuid) (created_at now : Z) : InjectionRow :=
  {| ir_installation_id := inst; ir_scope := scope_as_str (sr_scope scope); ir_scope_id := sr_scope_id scope;
     ir_key := ii_key item; ir_kind := kind_as_str (ii_kind item); ir_target := ii_target item;
     ir_value_encoding := encoding (ii_value item); ir_ciphertext := base64_encode (ciphertext e);
     ir_value_nonce := base64_encode (value_nonce e); ir_wrapped_data_key := base64_encode (wrapped_data_key e);
     ir_key_nonce := base64_encode (key_nonce e); ir_sensitive := ii_sensitive item;
     ir_locked := ii_locked item; ir_version := version; ir_file_mode := ii_file_mode item;
     ir_owner_name := ii_owner item; ir_group_name := ii_group item;
     ir_template_selector := ii_template_selector item; ir_labels := ii_labels item;
     ir_created_by := created_by; ir_created_at := created_at; ir_updated_at := now |}.

(** [INSERT ... ON CONFLICT (installation_id, scope, scope_id, key) DO UPDATE]. *)
Definition upsert_injection (inst : string) (scope : InjectionScopeRef) (item : InjectionItem)
    (e : EncryptedEnvelope) (version : Z) (id actor : Uuid) (now : Z) : DbM () := λ db,
  match injection_at inst scope (ii_key item) db with
  | Some (id0, r) =>
      (Ok (), set_t_injections (<[id0 := injection_columns inst scope item e version (ir_created_by r)
                                           (ir_created_at r) now]> (t_injections db)) db)
  | None => insert_row t_injections set_t_injections id
              (injection_columns inst scope item e version actor now now) db
  end.

Definition position_metadata (scope : InjectionScopeRef) (key : string) (version : Z) : Value :=
  json_object [("key", Str key); ("scope", Str (scope_as_str (sr_scope scope))); ("version", Number version)].

Definition scope_organization (scope : InjectionScopeRef) : option Uuid :=
  if bool_decide (sr_scope scope = OrganizationScope) then Some (sr_scope_id scope) else None.
Definition scope_workspace (scope : InjectionScopeRef) : option Uuid :=
  if bool_decide (sr_scope scope = WorkspaceScope) then Some (sr_scope_id scope) else None.

Definition injection_audit (inst : string) (scope : InjectionScopeRef) (action key : string) (version : Z)
    (actor : Uuid) (now : Z) : DbM () :=
  id ← now_v7;
  insert_audit id (mkAuditRow inst (Some actor) (scope_organization scope) (scope_workspace scope) action
                     (position_metadata scope key version) now).

(** [save_sqlite] and [save_postgres]. *)
Definition save_injection (inst : string) (scope : InjectionScopeRef) (item : InjectionItem)
    (e : EncryptedEnvelope) (actor : Uuid) (now : Z) : DbM () :=
  id ← now_v7;
  version ← lift (ok_or (i64_try_from (ii_version item)) StorageError.InvalidEncryptedInjection);
  _ ← upsert_injection inst scope item e version id actor now;
  injection_audit inst scope "injection.replace" (ii_key item) (ii_version item) actor now.

Definition encrypt_and_save (cipher : EnvelopeCipher) (inst : string) (scope : InjectionScopeRef)
    (item : InjectionItem) (actor : Uuid) (now : Z) : DbM () :=
  point ← reads uuid_drawn;
  e ← lift (encrypt_item point cipher inst scope item);
  save_injection inst scope item e actor now.

(** [insert_initial_workspace_injection_sqlite] and [..._postgres]. *)
Definition insert_initial_workspace_injection (cipher : EnvelopeCipher) (inst : string) (workspace_id : Uuid)
    (item : InjectionItem) (actor : Uuid) (now : Z) : DbM () :=
  encrypt_and_save cipher inst (mkScopeRef WorkspaceScope workspace_id) (set_version 1 item) actor now.

Definition stored_summary (scope : InjectionScopeRef) (item : InjectionItem) (now : Z) : StoredInjectionSummary :=
  mkStoredSummary (ii_key item) (ii_kind item) (ii_target item) (sr_scope scope) (sr_scope_id scope)
    (ii_sensitive item) (ii_locked item) (ii_version item) (ii_file_mode item) (ii_owner item) (ii_group item)
    (ii_template_selector item) (ii_labels item) now
    (if negb (ii_sensitive item) && negb (bool_decide (ii_kind item = SecretFile))
     then Some (ii_value item) else None).

Definition replace_injection (inst : string) (cipher : EnvelopeCipher) (scope : InjectionScopeRef)
    (item : InjectionItem) (actor : Uuid) (now : Z) : DbM StoredInjectionSummary :=
  _ ← lift (ensure (negb (ii_locked item && negb (bool_decide (sr_scope scope = OrganizationScope))))
              StorageError.InvalidInjectionLock);
  transaction (
    current ← reads (λ db, ir_version ∘ snd <$> injection_at inst scope (ii_key item) db);
    version ← lift (next_version current);
    let item := set_version version item in
    _ ← encrypt_and_save cipher inst scope item actor now;
    mret (stored_summary scope item now)).

(** ** Reading *)
Definition decode_b64 (value : string) : result StorageError.t Octets :=
  ok_or (base64_decode value) StorageError.InvalidEncryptedInjection.
Definition decode_nonce (value : string) : result StorageError.t Octets :=
  bs ← decode_b64 value;
  _ ← ensure (bool_decide (length bs = NONCE_LENGTH)) StorageError.InvalidEncryptedInjection;
  Ok bs.

Definition octets_to_string (bs : Octets) : string := String.string_of_list_ascii bs.

Definition decrypt_row (cipher : EnvelopeCipher) (inst : string) (scope : InjectionScopeRef) (r : InjectionRow)
    : result StorageError.t InjectionItem :=
  version ← ok_or (u64_try_from (ir_version r)) StorageError.InvalidEncryptedInjection;
  ct ← decode_b64 (ir_ciphertext r);
  vn ← decode_nonce (ir_value_nonce r);
  wk ← decode_b64 (ir_wrapped_data_key r);
  kn ← decode_nonce (ir_key_nonce r);
  plaintext ← crypto (decrypt cipher (mkEnvelope ct vn wk kn) (aad inst scope (ir_key r) version));
  value ← (if String.eqb (ir_value_encoding r) "utf8" then
             _ ← ensure (valid_utf8 (bytes (octets_to_string plaintext))) StorageError.InvalidEncryptedInjection;
             Ok (Utf8 (octets_to_string plaintext))
           else if String.eqb (ir_value_encoding r) "base64" then Ok (Base64 (base64_encode plaintext))
           else Err StorageError.InvalidEncryptedInjection);
  kind ← ok_or (kind_from_database (ir_kind r)) (StorageError.UnknownInjectionKind (ir_kind r));
  file_mode ← match ir_file_mode r with
              | None => Ok None
              | Some m => m ← ok_or (u32_try_from m) StorageError.InvalidEncryptedInjection; Ok (Some m)
              end;
  Ok (mkItem (ir_key r) kind (ir_target r) value (ir_sensitive r || bool_decide (kind = SecretFile)) (ir_locked r)
        version file_mode (ir_owner_name r) (ir_group_name r) (ir_template_selector r) (ir_labels r)).

Definition in_scope (inst : string) (scope : InjectionScopeRef) (r : InjectionRow) : bool :=
  String.eqb (ir_installation_id r) inst && String.eqb (ir_scope r) (scope_as_str (sr_scope scope))
  && bool_decide (ir_scope_id r = sr_scope_id scope).

Definition key_le (a b : InjectionRow) : Prop := String.leb (ir_key a) (ir_key b) = true.

#[global] Instance key_le_dec a b : Decision (key_le a b).
Proof. unfold key_le. apply _. Defined.

(** [ORDER BY key]. *)
Definition scope_rows (inst : string) (scope : InjectionScopeRef) (db : Db) : list InjectionRow :=
  merge_sort key_le (snd <$> List.filter (λ kv, in_scope inst scope kv.2) (map_to_list (t_injections db))).

Definition load_injections (inst : string) (cipher : EnvelopeCipher) (scope : InjectionScopeRef)
    : DbM (list InjectionItem) :=
  rows ← reads (scope_rows inst scope);
  lift (collect (decrypt_row cipher inst scope) rows).

Definition load_readable_injection (inst : string) (cipher : EnvelopeCipher) (scope : InjectionScopeRef)
    (key : string) : DbM (option InjectionValue) :=
  row ← reads (injection_at inst scope key);
  match row with
  | Some (_, r) =>
      if negb (ir_sensitive r) && negb (String.eqb (ir_kind r) "secret_file")
      then lift (item ← decrypt_row cipher inst scope r; Ok (Some (ii_value item)))
      else mret None
  | None => mret None
  end.

(** ** Reconciling the workspaces a change can affect ([injection_reconcile.rs]) *)
Definition affected_by (inst : string) (scope : InjectionScopeRef) (db : Db) (id : Uuid) (w : WorkspaceRow) : bool :=
  String.eqb (wr_installation_id w) inst
  && negb (bool_decide (wr_state w = Deleting)) && negb (bool_decide (wr_state w = Deleted))
  && match sr_scope scope with
     | OrganizationScope => bool_decide (wr_organization_id w = sr_scope_id scope)
     | WorkspaceScope => bool_decide (id = sr_scope_id scope)
     | UserScope =>
         bool_decide (wr_owner_id w = sr_scope_id scope)
         || is_some (t_memberships db !! (inst, wr_organization_id w, sr_scope_id scope))
         || is_some_and (t_users db !! sr_scope_id scope)
              (λ u, String.eqb (u_installation_id u) inst && u_system_admin u && negb (u_disabled u))
     end.

Definition affected_workspaces (inst : string) (scope : InjectionScopeRef) (db : Db) : list Uuid :=
  merge_sort N.le (fst <$> List.filter (λ kv, affected_by inst scope db kv.1 kv.2) (map_to_list (t_workspaces db))).

Definition injection_changed_job (inst : string) (now : Z) (workspace_id : Uuid) : JobRow :=
  pending_row inst "reconcile_workspace" (Some workspace_id)
    (json_object [("reason", Str "injection_changed")]) now now.

(** [enqueue_sqlite] and [enqueue_postgres]. *)
Definition enqueue_reconciles (inst : string) (scope : InjectionScopeRef) (now : Z) : DbM nat :=
  ids ← reads (affected_workspaces inst scope);
  _ ← for_each (λ workspace_id, id ← now_v7; insert_job id (injection_changed_job inst now workspace_id)) ids;
  mret (length ids).

Definition enqueue_injection_reconciles (inst : string) (scope : InjectionScopeRef) (now : Z) : DbM nat :=
  transaction (enqueue_reconciles inst scope now).

(** ** Deleting ([deletion.rs]) *)
Definition key_order (a b : string) : Prop := String.leb a b = true.
#[global] Instance key_order_dec a b : Decision (key_order a b).
Proof. unfold key_order. apply _. Defined.

(** [sort_unstable] and [dedup]: the distinct keys in order. *)
Definition sorted_unique_keys (keys : list string) : list string := merge_sort key_order (remove_dups keys).

Definition ensure_unlocked (locked allow_locked : bool) : result StorageError.t () :=
  if locked && negb allow_locked then Err StorageError.InvalidInjectionLock else Ok ().

(** [delete_sqlite] and [delete_postgres]. *)
Definition delete_one (inst : string) (scope : InjectionScopeRef) (allow_locked : bool) (actor : Uuid) (now : Z)
    (key : string) : DbM bool :=
  row ← reads (injection_at inst scope key);
  match row with
  | None => mret false
  | Some (id, r) =>
      _ ← lift (ensure_unlocked (ir_locked r) allow_locked);
      _ ← modify (λ db, set_t_injections (delete id (t_injections db)) db);
      _ ← injection_audit inst scope "injection.delete" key (ir_version r) actor now;
      mret true
  end.

Fixpoint delete_many (inst : string) (scope : InjectionScopeRef) (allow_locked : bool) (actor : Uuid) (now : Z)
    (keys : list string) : DbM nat :=
  match keys with
  | [] => mret 0%nat
  | key :: keys' =>
      deleted ← delete_one inst scope allow_locked actor now key;
      rest ← delete_many inst scope allow_locked actor now keys';
      mret ((if deleted : bool then 1 else 0) + rest)%nat
  end.

Definition delete_injections (inst : string) (scope : InjectionScopeRef) (keys : list string)
    (allow_locked : bool) (actor : Uuid) (now : Z) : DbM nat :=
  transaction (delete_many inst scope allow_locked actor now (sorted_unique_keys keys)).

Definition delete_injection (inst : string) (scope : InjectionScopeRef) (key : string) (allow_locked : bool)
    (actor : Uuid) (now : Z) : DbM bool :=
  deleted ← delete_injections inst scope [key] allow_locked actor now;
  mret (bool_decide (deleted = 1%nat)).

Definition delete_injections_and_enqueue_reconciles (inst : string) (scope : InjectionScopeRef)
    (keys : list string) (allow_locked : bool) (actor : Uuid) (now : Z) (completion : IdempotencyCompletion)
    : DbM nat :=
  transaction (
    deleted ← delete_many inst scope allow_locked actor now (sorted_unique_keys keys);
    _ ← (if (0 <? deleted)%nat then _ ← enqueue_reconciles inst scope now; mret () else mret ());
    finished ← finish inst completion;
    _ ← lift (ensure_finished finished);
    mret deleted).

(** ** Positions *)

(** What the unique constraint of the table guarantees. *)
Definition unique_positions (db : Db) : Prop :=
  ∀ inst scope key id id' r r', t_injections db !! id = Some r → t_injections db !! id' = Some r' →
    at_position inst scope key r = true → at_position inst scope key r' = true → id = id'.

Lemma injection_at_Some inst scope key db id r :
  injection_at inst scope key db = Some (id, r) → t_injections db !! id = Some r ∧ at_position inst scope key r = true.
Proof.
  unfold injection_at. intros [Hin Hp]%find_some. by apply list_elem_of_In, elem_of_map_to_list in Hin.
Qed.

Lemma injection_at_None inst scope key db id r :
  injection_at inst scope key db = None → t_injections db !! id = Some r → at_position inst scope key r = false.
Proof.
  unfold injection_at. intros Hnone Hr.
  apply (find_none _ _ Hnone (id, r)). by apply list_elem_of_In, elem_of_map_to_list.
Qed.

Lemma injection_at_unique inst scope key db id r :
  unique_positions db → t_injections db !! id = Some r → at_position inst scope key r = true →
  injection_at inst scope key db = Some (id, r).
Proof.
  intros Hu Hr Hp. destruct (injection_at inst scope key db) as [[id' r']|] eqn:E.
  - apply injection_at_Some in E as [Hr' Hp']. assert (id = id') as -> by (by eapply Hu). congruence.
  - by rewrite (injection_at_None _ _ _ _ _ _ E Hr) in Hp.
Qed.

Lemma scope_as_str_inj s s' : scope_as_str s = scope_as_str s' → s = s'.
Proof. by destruct s, s'. Qed.

Lemma at_position_true inst scope key r :
  at_position inst scope key r = true ↔
  ir_installation_id r = inst ∧ ir_scope r = scope_as_str (sr_scope scope) ∧ ir_scope_id r = sr_scope_id scope ∧
  ir_key r = key.
Proof. unfold at_position. rewrite !andb_true_iff, !String.eqb_eq, bool_decide_eq_true. tauto. Qed.

Lemma in_scope_true inst scope r :
  in_scope inst scope r = true ↔
  ir_installation_id r = inst ∧ ir_scope r = scope_as_str (sr_scope scope) ∧ ir_scope_id r = sr_scope_id scope.
Proof. unfold in_scope. rewrite !andb_true_iff, !String.eqb_eq, bool_decide_eq_true. tauto. Qed.

Lemma unique_positions_ext db db' : t_injections db' = t_injections db → unique_positions db → unique_positions db'.
Proof. unfold unique_positions. by intros ->. Qed.

(** Replacing a row by one at the same position, or adding one at a free one. *)
Lemma unique_positions_insert inst scope key id r db m :
  unique_positions db → at_position inst scope key r = true →
  m = <[id := r]> (t_injections db) →
  (∀ id' r', t_injections db !! id' = Some r' → at_position inst scope key r' = true → id' = id) →
  unique_positions (set_t_injections m db).
Proof.
  intros Hu Hp -> Honly i s k id1 id2 r1 r2; cbn. apply at_position_true in Hp as (E1 & E2 & E3 & E4).
  rewrite !lookup_insert_Some. intros [[<- <-]|[Hn1 Hl1]] [[<- <-]|[Hn2 Hl2]] P1 P2; [done| | |by eapply Hu].
  - apply at_position_true in P1 as (? & ? & ? & ?), P2 as (? & ? & ? & ?). symmetry. apply (Honly _ _ Hl2), at_position_true.
    split_and!; congruence.
  - apply at_position_true in P1 as (? & ? & ? & ?), P2 as (? & ? & ? & ?). apply (Honly _ _ Hl1), at_position_true.
    split_and!; congruence.
Qed.

(** What a successful upsert wrote. *)
Lemma upsert_injection_Ok inst scope item e version id actor now db u db' :
  unique_positions db → upsert_injection inst scope item e version id actor now db = (Ok u, db') →
  ∃ id0 by0 at0,
    db' = set_t_injections (<[id0 := injection_columns inst scope item e version by0 at0 now]> (t_injections db)) db ∧
    unique_positions db' ∧
    (∀ r, t_injections db !! id0 = Some r → at_position inst scope (ii_key item) r = true) ∧
    injection_at inst scope (ii_key item) db' = Some (id0, injection_columns inst scope item e version by0 at0 now).
Proof.
  intros Hu. unfold upsert_injection.
  assert (Hp : ∀ b a, at_position inst scope (ii_key item) (injection_columns inst scope item e version b a now) = true).
  { intros. by apply at_position_true. }
  destruct (injection_at inst scope (ii_key item) db) as [[id0 r]|] eqn:E.
  - intros [= <- <-]. apply injection_at_Some in E as [Hr Hpr]. eexists id0, _, _. split; [done|].
    assert (unique_positions (set_t_injections (<[id0 := injection_columns inst scope item e version (ir_created_by r)
      (ir_created_at r) now]> (t_injections db)) db)) as Hu'.
    { eapply unique_positions_insert; [done|apply Hp|done|]. intros id' r' Hr' Hp'. by eapply Hu. }
    split; [done|]. split; [intros; by simplify_eq|].
    apply injection_at_unique; [done|cbn; by rewrite lookup_insert_eq|done].
  - unfold insert_row. destruct (t_injections db !! id) eqn:Hfree; [done|]. intros [= <- <-].
    eexists id, _, _. split; [done|].
    assert (unique_positions (set_t_injections (<[id := injection_columns inst scope item e version actor now now]>
      (t_injections db)) db)) as Hu'.
    { eapply unique_positions_insert; [done|apply Hp|done|]. intros id' r' Hr' Hp'.
      by rewrite (injection_at_None _ _ _ _ _ _ E Hr') in Hp'. }
    split; [done|]. split; [intros; by simplify_eq|]. apply injection_at_unique; [done|cbn; by rewrite lookup_insert_eq|done].
Qed.

(** ** The associated data names one position *)
Definition colon : Ascii.ascii := Ascii.ascii_of_nat 58.

Lemma app_colon_inj (a b a' b' : Octets) :
  colon ∉ a → colon ∉ a' → a ++ colon :: b = a' ++ colon :: b' → a = a' ∧ b = b'.
Proof.
  revert a'; induction a as [|x a IH]; intros [|x' a'] Ha Ha' E; cbn in E; simplify_eq.
  - done.
  - by rewrite elem_of_cons in Ha'; destruct Ha'; left.
  - by rewrite elem_of_cons in Ha; destruct Ha; left.
  - rewrite not_elem_of_cons in Ha, Ha'. destruct (IH a') as [-> ->]; tauto.
Qed.

Lemma app_colon_inj_last (a b a' b' : Octets) :
  colon ∉ b → colon ∉ b' → a ++ colon :: b = a' ++ colon :: b' → a = a' ∧ b = b'.
Proof.
  intros Hb Hb' E. apply (f_equal reverse) in E. rewrite !reverse_app, !reverse_cons, <-!app_assoc in E; cbn in E.
  apply app_colon_inj in E as [Eb Ea]; [|by rewrite elem_of_reverse..].
  by apply (inj reverse) in Eb, Ea.
Qed.

Lemma octets_app s t : octets (s +:+ t) = octets s ++ octets t.
Proof.
  unfold octets. induction s as [|c s IH]; [done|]. change (String c s +:+ t) with (String c (s +:+ t)). cbn. by rewrite IH.
Qed.

Lemma octets_string v : octets_to_string (octets v) = v.
Proof. apply String.string_of_list_ascii_of_string. Qed.

Lemma octets_inj s t : octets s = octets t → s = t.
Proof. intros E. by rewrite <-(octets_string s), E, octets_string. Qed.

Lemma pretty_go_no_colon n s : colon ∉ octets s → colon ∉ octets (pretty_N_go n s).
Proof.
  revert s. induction (N.lt_wf_0 n) as [n _ IH]. intros s Hs. destruct (decide (0 < n)%N) as [Hn|Hn].
  - rewrite pretty_N_go_step by done. apply IH; [by apply N.div_lt|].
    cbn. rewrite not_elem_of_cons. split; [|done].
    unfold pretty_N_char, colon. assert (n `mod` 10 < 10)%N as Hmod by (by apply N.mod_lt). revert Hmod.
    generalize (n `mod` 10)%N. intros d Hd. destruct d as [|[[[[]|[]|]|[[]|[]|]|]|[[[]|[]|]|[[]|[]|]|]|]]; try done; lia.
  - by rewrite pretty_N_go_0 || (replace n with 0%N by lia).
Qed.

Lemma pretty_no_colon (n : N) : colon ∉ octets (pretty n).
Proof.
  unfold pretty, pretty_N. destruct (decide (n = 0%N)); [cbn; rewrite not_elem_of_cons; split; [done|apply not_elem_of_nil]|].
  apply pretty_go_no_colon. apply not_elem_of_nil.
Qed.

Lemma scope_no_colon s : colon ∉ octets (scope_as_str s).
Proof.
  destruct s; cbn; intros Hin; repeat (apply elem_of_cons in Hin as [?|Hin]; [done|]); by apply elem_of_nil in Hin.
Qed.

(** ** Round trip *)
Section RoundTrip.
Context {Haead : AeadLaws} {Hbase64 : Base64Laws} (Hrandom : random_lengths).

(** A Rust [String] is valid UTF-8 and a file mode is a [u32]. *)
Definition storable (i : InjectionItem) : Prop :=
  match ii_value i with Utf8 v => valid_utf8 (bytes v) = true | Base64 _ => True end ∧
  match ii_file_mode i with Some m => 0 <= m <= u32_max | None => True end.

(** What reading an item shows: the content of a secret file is always sensitive. *)
Definition as_read (i : InjectionItem) : InjectionItem :=
  mkItem (ii_key i) (ii_kind i) (ii_target i) (ii_value i) (ii_sensitive i || bool_decide (ii_kind i = SecretFile))
    (ii_locked i) (ii_version i) (ii_file_mode i) (ii_owner i) (ii_group i) (ii_template_selector i) (ii_labels i).

Lemma kind_from_as_str k : kind_from_database (kind_as_str k) = Some k.
Proof. by destruct k. Qed.

Lemma encrypt_nonces point cipher plaintext a e :
  encrypt point cipher plaintext a = Ok e → length (value_nonce e) = NONCE_LENGTH ∧ length (key_nonce e) = NONCE_LENGTH.
Proof using Hrandom.
  unfold encrypt. intros Henc. inv_binds. injection Henc as <-; cbn.
  split; [by apply (Hrandom point 1%nat)|by apply (Hrandom point 2%nat)].
Qed.

Lemma decode_nonce_encode bs : length bs = NONCE_LENGTH → decode_nonce (base64_encode bs) = Ok bs.
Proof using Hbase64.
  intros Hlen. unfold decode_nonce, decode_b64. rewrite base64_decode_encode; cbn. by rewrite bool_decide_true.
Qed.

Lemma decrypt_columns point cipher inst scope item e b a now :
  storable item → 0 <= ii_version item <= u64_max → encrypt_item point cipher inst scope item = Ok e →
  decrypt_row cipher inst scope (injection_columns inst scope item e (ii_version item) b a now) = Ok (as_read item).
Proof using Hrandom Haead Hbase64.
  intros [Hv Hm] Hver. unfold encrypt_item. intros (plaintext & Hplain & Henc)%bind_Ok.
  unfold crypto in Henc. destruct (encrypt _ _ _ _) as [e'|] eqn:Hsealed; [|done]. injection Henc as ->.
  destruct (encrypt_nonces _ _ _ _ _ Hsealed) as [Hvn Hkn].
  pose proof (decrypt_encrypt _ _ _ _ _ Hrandom Hsealed) as Hopen.
  unfold decrypt_row; cbn. unfold u64_try_from, guard_range, in_u64.
  rewrite (proj2 (andb_true_iff _ _)) by (bool_prop; lia); cbn.
  unfold decode_b64. rewrite !base64_decode_encode; cbn. rewrite (decode_nonce_encode _ Hvn); cbn.
  rewrite (decode_nonce_encode _ Hkn); cbn. destruct e as [ct vn wk kn]; cbn in *. rewrite Hopen; cbn.
  assert (Hmode : (match ii_file_mode item with
    | Some m => m ← ok_or (u32_try_from m) StorageError.InvalidEncryptedInjection; Ok (Some m) | None => Ok None end)
    = Ok (ii_file_mode item)).
  { destruct (ii_file_mode item) as [m|]; [|done]. unfold u32_try_from, guard_range, in_u32.
    by rewrite (proj2 (andb_true_iff _ _)) by (bool_prop; lia). }
  unfold as_read. destruct (ii_value item) as [v|v] eqn:Ev; cbn in *.
  - injection Hplain as <-. rewrite octets_string, Hv; cbn. rewrite kind_from_as_str; cbn. by rewrite Hmode.
  - apply ok_or_Ok in Hplain. rewrite (base64_encode_decode _ _ Hplain), kind_from_as_str; cbn. by rewrite Hmode.
Qed.

Lemma save_injection_Ok inst scope item e actor now db u db' :
  unique_positions db → save_injection inst scope item e actor now db = (Ok u, db') →
  ∃ id0 by0 at0, let r := injection_columns inst scope item e (ii_version item) by0 at0 now in
    ii_version item <= i64_max ∧ t_injections db' = <[id0 := r]> (t_injections db) ∧ unique_positions db' ∧
    (∀ r, t_injections db !! id0 = Some r → at_position inst scope (ii_key item) r = true) ∧
    injection_at inst scope (ii_key item) db' = Some (id0, r).
Proof.
  intros Hu Hrun. unfold save_injection in Hrun. run_step Hrun. run_step Hrun.
  apply guard_range_Some in Hx as [-> Hv]. run_step Hrun.
  apply upsert_injection_Ok in Hx as (id0 & by0 & at0 & -> & Hu' & Hold & Hat); [|done].
  exists id0, by0, at0. cbn.
  assert (Hsame : t_injections db' = t_injections (set_t_injections (<[id0 := injection_columns inst scope item e
    (ii_version item) by0 at0 now]> (t_injections db)) (set_uuid_drawn (S (uuid_drawn db)) db))).
  { eapply use_frame; [|exact Hrun]. unfold injection_audit, insert_audit. apply _. }
  split_and!; [unfold in_i64 in Hv; bool_prop; lia|done| | |].
  - by eapply unique_positions_ext.
  - exact Hold.
  - unfold injection_at in *. by rewrite Hsame.
Qed.

Lemma next_version_Ok current version : next_version current = Ok version → version = default 0 current + 1 ∧ 0 < version.
Proof.
  unfold next_version. intros (c & Hc & (-> & Hr)%ok_or_Ok%checked_add_u64_Some)%bind_Ok.
  destruct current as [v|]; cbn in *; [|injection Hc as <-; lia].
  apply ok_or_Ok, guard_range_Some in Hc as [-> Hv]. unfold in_u64 in Hv. bool_prop. lia.
Qed.

(** C32: what is stored is what is read: after an injection is replaced, reading its
    position with the same key gives back the value and attributes under a version
    one higher than before (a secret file is always marked sensitive), and the
    rows at all other positions are untouched. *)
Theorem replaced_injection_readable inst cipher scope item actor now db s db' :
  unique_positions db → storable item →
  replace_injection inst cipher scope item actor now db = (Ok s, db') →
  ∃ id r version,
    version = match injection_at inst scope (ii_key item) db with Some (_, old) => ir_version old + 1 | None => 1 end ∧
    0 < version <= i64_max ∧
    injection_at inst scope (ii_key item) db' = Some (id, r) ∧ unique_positions db' ∧
    decrypt_row cipher inst scope r = Ok (as_read (set_version version item)) ∧
    ∀ id' r', at_position inst scope (ii_key item) r' = false →
      t_injections db' !! id' = Some r' ↔ t_injections db !! id' = Some r'.
Proof using Hrandom Haead Hbase64.
  intros Hu Hst Hrun. unfold replace_injection in Hrun. run_step Hrun. rewrite transaction_Ok in Hrun.
  run_step Hrun. run_step Hrun. rename x into version, Hx0 into Hversion. run_step Hrun.
  injection Hrun as _ <-. unfold encrypt_and_save in Hx0. run_step Hx0. run_step Hx0.
  apply save_injection_Ok in Hx0 as (id0 & by0 & at0 & Hle & Hrows & Hu' & Hold & Hat); [|done].
  apply next_version_Ok in Hversion as [Hversion Hpos].
  eexists id0, _, version. split; [by destruct (injection_at inst scope (ii_key item) db) as [[]|]|].
  split; [done|]. split; [exact Hat|]. split; [done|]. split.
  - eapply decrypt_columns; [by destruct Hst| |exact Hx1]. unfold u64_max, i64_max in *. cbn in *. lia.
  - intros id' r' Hp. rewrite Hrows. destruct (decide (id' = id0)) as [->|]; [|by rewrite lookup_insert_ne].
    rewrite lookup_insert_eq. split; [intros [= <-]|].
    + rewrite (proj2 (at_position_true _ _ _ _)) in Hp; [done|by split_and!].
    + intros Hr'. specialize (Hold _ Hr'); cbn in Hold. congruence.
Qed.

(** Identifiers print without a colon; an installation's name is a DNS label. *)
Context (Huuid : ∀ u, colon ∉ octets (uuid_to_string u)) {Hlaws : UuidTextLaws}.

Lemma aad_inj inst inst' scope scope' key key' version version' :
  colon ∉ octets inst → colon ∉ octets inst' → 0 <= version → 0 <= version' →
  aad inst scope key version = aad inst' scope' key' version' →
  inst = inst' ∧ scope = scope' ∧ key = key' ∧ version = version'.
Proof using Huuid Hlaws.
  intros Hi Hi' Hv Hv'. unfold aad. rewrite !octets_app. intros E. apply app_inv_head in E; cbn in E.
  apply app_colon_inj in E as [Ei E]; [|done..].
  apply app_colon_inj in E as [Es E]; [|apply scope_no_colon..].
  apply app_colon_inj in E as [Eu E]; [|done..].
  apply app_colon_inj_last in E as [Ek Ev]; [|apply pretty_no_colon..].
  apply octets_inj in Ei, Es, Eu, Ek, Ev. apply scope_as_str_inj in Es. apply (inj uuid_to_string) in Eu.
  apply (inj pretty) in Ev. destruct scope, scope'; cbn in *. split_and!; [done|congruence|done|lia].
Qed.

Definition same_envelope (r r' : InjectionRow) : Prop :=
  ir_ciphertext r' = ir_ciphertext r ∧ ir_value_nonce r' = ir_value_nonce r ∧
  ir_wrapped_data_key r' = ir_wrapped_data_key r ∧ ir_key_nonce r' = ir_key_nonce r.

(** A stored ciphertext is bound to its place: copied into a row of another
    installation, scope, owner or key, or under another version, it is rejected by
    the cipher instead of being read as that row's value. *)
Theorem ciphertext_bound_to_position point cipher inst scope item e by0 at0 now inst' scope' r' :
  let r := injection_columns inst scope item e (ii_version item) by0 at0 now in
  encrypt_item point cipher inst scope item = Ok e → same_envelope r r' →
  colon ∉ octets inst → colon ∉ octets inst' → 0 <= ii_version item → 0 <= ir_version r' <= u64_max →
  ¬ (inst' = inst ∧ scope' = scope ∧ ir_key r' = ii_key item ∧ ir_version r' = ii_version item) →
  decrypt_row cipher inst' scope' r' = Err StorageError.Crypto.
Proof using Hrandom Haead Hbase64 Huuid Hlaws.
  intros r Henc (E1 & E2 & E3 & E4) Hi Hi' Hv Hv' Hne. cbn in E1, E2, E3, E4.
  unfold encrypt_item in Henc. apply bind_Ok in Henc as (plaintext & _ & Henc).
  unfold crypto in Henc. destruct (encrypt _ _ _ _) as [e'|] eqn:Hsealed; [|done]. injection Henc as ->.
  destruct (encrypt_nonces _ _ _ _ _ Hsealed) as [Hvn Hkn].
  unfold decrypt_row. rewrite E1, E2, E3, E4. unfold u64_try_from, guard_range, in_u64.
  rewrite (proj2 (andb_true_iff _ _)) by (bool_prop; lia); cbn.
  unfold decode_b64. rewrite !base64_decode_encode; cbn. rewrite (decode_nonce_encode _ Hvn); cbn.
  rewrite (decode_nonce_encode _ Hkn); cbn. destruct e as [ct vn wk kn]; cbn in *.
  rewrite (decrypt_other_aad _ _ _ _ (aad inst' scope' (ir_key r') (ir_version r')) _ Hsealed); [done|].
  intros (Ea & Eb & Ec & Ed)%aad_inj; [by apply Hne|done..|lia].
Qed.
End RoundTrip.

(** ** Deleting a batch *)
Definition doomed (inst : string) (scope : InjectionScopeRef) (keys : list string) (r : InjectionRow) : Prop :=
  in_scope inst scope r = true ∧ ir_key r ∈ keys.

(** The tables a deletion reads but does not write. *)
Definition deletion_context (db : Db) := (t_workspaces db, t_memberships db, t_users db, t_idempotency db, t_jobs db).

#[global] Instance delete_one_frames inst scope allow actor now key :
  Preserves (frames deletion_context) (delete_one inst scope allow actor now key).
Proof.
  unfold delete_one. apply preserves_bind; [apply _..|intros [[id r]|]]; [|apply _].
  unfold injection_audit, insert_audit. apply _.
Qed.

#[global] Instance delete_many_frames inst scope allow actor now keys :
  Preserves (frames deletion_context) (delete_many inst scope allow actor now keys).
Proof. induction keys; cbn; apply _. Qed.

Lemma in_scope_at inst scope r : in_scope inst scope r = true → at_position inst scope (ir_key r) r = true.
Proof. intros (? & ? & ?)%in_scope_true. by apply at_position_true. Qed.

Lemma doomed_at inst scope key keys r :
  at_position inst scope key r = true → doomed inst scope (key :: keys) r.
Proof.
  intros (? & ? & ? & Hk)%at_position_true. split; [by apply in_scope_true|]. apply elem_of_cons. by left.
Qed.

Lemma delete_one_Ok inst scope allow actor now key db deleted db' :
  unique_positions db → delete_one inst scope allow actor now key db = (Ok deleted, db') →
  (∀ id r, t_injections db' !! id = Some r ↔ t_injections db !! id = Some r ∧ at_position inst scope key r = false) ∧
  (deleted = true ↔ ∃ id r, t_injections db !! id = Some r ∧ at_position inst scope key r = true) ∧
  (allow = false → ∀ id r, t_injections db !! id = Some r → at_position inst scope key r = true → ir_locked r = false).
Proof.
  intros Hu Hrun. unfold delete_one in Hrun. run_step Hrun.
  destruct (injection_at inst scope key db) as [[id0 r0]|] eqn:E.
  - apply injection_at_Some in E as [Hr0 Hp0]. do 3 run_step Hrun. injection Hrun as <- <-.
    assert (t_injections dbx = delete id0 (t_injections db)) as Hrows.
    { apply (use_frame t_injections) in Hx0; [done|]. unfold injection_audit, insert_audit. apply _. }
    assert (Honly : ∀ id r, t_injections db !! id = Some r → at_position inst scope key r = true → id = id0 ∧ r = r0).
    { intros id r Hr Hp. assert (id = id0) as -> by (by eapply Hu). split; congruence. }
    split_and!.
    + intros id r. rewrite Hrows, lookup_delete_Some. split.
      * intros [Hne Hr]. split; [done|]. apply not_true_iff_false. intros Hp. by destruct (Honly _ _ Hr Hp) as [-> _].
      * intros [Hr Hp]. split; [|done]. intros <-. congruence.
    + split; [eauto|done].
    + intros -> id r Hr Hp. destruct (Honly _ _ Hr Hp) as [_ ->]. unfold ensure_unlocked in Hx.
      by destruct (ir_locked r0).
  - injection Hrun as <- <-. pose proof (λ id r, injection_at_None _ _ _ _ id r E) as Hnone.
    split_and!; [intros id r; split; [intros Hr; eauto|tauto]| |intros _ id r Hr Hp; by rewrite (Hnone _ _ Hr) in Hp].
    split; [done|]. intros (id & r & Hr & Hp). by rewrite (Hnone _ _ Hr) in Hp.
Qed.

Lemma unique_positions_sub db db' :
  unique_positions db → (∀ id r, t_injections db' !! id = Some r → t_injections db !! id = Some r) → unique_positions db'.
Proof. intros Hu Hsub i s k id id' r r' Hr Hr'. eapply Hu; eauto. Qed.

Lemma not_doomed_cons inst scope key keys r :
  ¬ doomed inst scope (key :: keys) r ↔ at_position inst scope key r = false ∧ ¬ doomed inst scope keys r.
Proof.
  unfold doomed. rewrite elem_of_cons, <-not_true_iff_false, at_position_true, in_scope_true. naive_solver.
Qed.

Lemma delete_many_Ok inst scope allow actor now keys db n db' :
  unique_positions db → delete_many inst scope allow actor now keys db = (Ok n, db') →
  (∀ id r, t_injections db' !! id = Some r ↔ t_injections db !! id = Some r ∧ ¬ doomed inst scope keys r) ∧
  ((0 < n)%nat ↔ ∃ id r, t_injections db !! id = Some r ∧ doomed inst scope keys r) ∧
  (allow = false → ∀ id r, t_injections db !! id = Some r → doomed inst scope keys r → ir_locked r = false).
Proof.
  revert db n db'; induction keys as [|key keys IH]; intros db n db' Hu Hrun; cbn in Hrun.
  - injection Hrun as <- <-. assert (Hno : ∀ r, ¬ doomed inst scope [] r) by (by intros r [_ ?%elem_of_nil]).
    split; [|split].
    + intros id r. specialize (Hno r). tauto.
    + split; [lia|]. intros (id & r & _ & []%Hno).
    + by intros _ id r _ []%Hno.
  - run_step Hrun. run_step Hrun. injection Hrun as <- <-.
    apply delete_one_Ok in Hx as (Hrows1 & Hdel1 & Hlock1); [|done].
    apply IH in Hx0 as (Hrows & Hdel & Hlock); [|eapply unique_positions_sub; [done|]; by intros id r [? _]%Hrows1].
    split_and!.
    + intros id r. rewrite Hrows, Hrows1, not_doomed_cons. tauto.
    + assert ((0 < (if x then 1 else 0) + x0)%nat ↔ x = true ∨ (0 < x0)%nat) as -> by (destruct x; split; [tauto|lia|by right; lia|intros [|]; [done|lia]]).
      rewrite Hdel1, Hdel. setoid_rewrite Hrows1. split.
      * intros [(id & r & Hr & Hp)|(id & r & [Hr _] & [Hs Hk])]; exists id, r; split; [done|by apply doomed_at|done|].
        split; [done|]. apply elem_of_cons. by right.
      * intros (id & r & Hr & [Hs Hk]). destruct (at_position inst scope key r) eqn:Hp; [left; eauto|right].
        exists id, r. split; [done|]. split; [done|]. apply elem_of_cons in Hk as [<-|]; [|done].
        by rewrite in_scope_at in Hp.
    + intros Hallow id r Hr [Hs Hk]. destruct (at_position inst scope key r) eqn:Hp; [by eapply Hlock1|].
      apply (Hlock Hallow id); [by apply Hrows1|]. split; [done|]. apply elem_of_cons in Hk as [<-|]; [|done].
      by rewrite in_scope_at in Hp.
Qed.

(** ** Queueing one job for each of a list of workspaces *)
Lemma queue_all_Ok (f : Uuid → JobRow) ids db u db' :
  for_each (λ w, id ← now_v7; insert_job id (f w)) ids db = (Ok u, db') →
  (∀ w, w ∈ ids → ∃ j, t_jobs db !! j = None ∧ t_jobs db' !! j = Some (f w)) ∧
  (∀ j r, t_jobs db !! j = Some r → t_jobs db' !! j = Some r) ∧
  (∀ j r, t_jobs db' !! j = Some r → t_jobs db !! j = Some r ∨ ∃ w, w ∈ ids ∧ r = f w).
Proof.
  revert db u; induction ids as [|w ids IH]; intros db u Hrun; cbn in Hrun.
  - injection Hrun as _ <-. split; [by intros w ?%elem_of_nil|auto].
  - run_step Hrun. run_step Hx. unfold insert_job, insert_row in Hx; cbn in Hx.
    destruct (t_jobs db !! _) eqn:Hfree; [done|]. injection Hx as <-.
    apply IH in Hrun as (Hnew & Hold & Hinv). cbn in Hnew, Hold, Hinv. split_and!.
    + intros w' [->|Hin]%elem_of_cons.
      * eexists. split; [exact Hfree|]. apply Hold. by rewrite lookup_insert_eq.
      * destruct (Hnew _ Hin) as (j & [Hj ?]%lookup_insert_None & ?). eauto.
    + intros j r Hj. apply Hold. rewrite lookup_insert_ne; [done|congruence].
    + intros j r [[[<- <-]|[_ Hj]]%lookup_insert_Some|(w' & Hin & ->)]%Hinv; [right|by left|right].
      * exists w. split; [apply elem_of_cons; by left|done].
      * exists w'. split; [apply elem_of_cons; by right|done].
Qed.

Lemma elem_of_sorted_unique_keys key keys : key ∈ sorted_unique_keys keys ↔ key ∈ keys.
Proof. unfold sorted_unique_keys. by rewrite merge_sort_Permutation, elem_of_remove_dups. Qed.

Lemma doomed_sorted inst scope keys r : doomed inst scope (sorted_unique_keys keys) r ↔ doomed inst scope keys r.
Proof. unfold doomed. by rewrite elem_of_sorted_unique_keys. Qed.

Lemma elem_of_affected inst scope db w :
  w ∈ affected_workspaces inst scope db ↔
  ∃ row, t_workspaces db !! w = Some row ∧ affected_by inst scope db w row = true.
Proof.
  unfold affected_workspaces. rewrite merge_sort_Permutation, list_elem_of_fmap. split.
  - intros ([k row] & -> & [Hin Ha]%list_elem_of_In%filter_In). apply list_elem_of_In, elem_of_map_to_list in Hin. eauto.
  - intros (row & Hr & Ha). exists (w, row). split; [done|]. apply list_elem_of_In, filter_In. split; [|done].
    by apply list_elem_of_In, elem_of_map_to_list.
Qed.

#[global] Instance enqueue_reconciles_frames inst scope now :
  Preserves (frames (λ db, (t_injections db, t_idempotency db, t_workspaces db))) (enqueue_reconciles inst scope now).
Proof. unfold enqueue_reconciles, insert_job. apply _. Qed.

Lemma finish_Ok inst c db n db' :
  finish inst c db = (Ok n, db') → ensure_finished n = Ok () →
  ∃ r, let k := (inst, completion_scope c, completion_key c) in
    t_idempotency db !! k = Some r ∧ is_reservation (completion_request_hash c) r = true ∧
    db' = set_t_idempotency (<[k := mkIdempotencyRow (id_request_hash r) (completion_response_json c)
      (completion_status_code c) (id_created_at r) (id_expires_at r)]> (t_idempotency db)) db.
Proof.
  unfold finish, update_where, ensure_finished. destruct (t_idempotency db !! _) as [r|] eqn:E; [|by intros [= <- _]].
  destruct (is_reservation _ r) eqn:Hr; intros [= <- <-] Hn; [|done]. by exists r.
Qed.

(** A batch of injections is deleted completely or not at all: on success the
    named rows of the scope and no others are gone, none of them locked unless
    that was allowed, every live workspace the scope reaches has a reconciliation
    queued if anything was deleted (and none is queued otherwise), and the
    caller's reservation is completed; on an error no table has changed. *)
Theorem injection_batch_deleted inst scope keys allow actor now c db res db' :
  unique_positions db →
  delete_injections_and_enqueue_reconciles inst scope keys allow actor now c db = (res, db') →
  match res with
  | Err _ => same_tables db db'
  | Ok n =>
      (∀ id r, t_injections db' !! id = Some r ↔ t_injections db !! id = Some r ∧ ¬ doomed inst scope keys r) ∧
      (allow = false → ∀ id r, t_injections db !! id = Some r → doomed inst scope keys r → ir_locked r = false) ∧
      ((0 < n)%nat ↔ ∃ id r, t_injections db !! id = Some r ∧ doomed inst scope keys r) ∧
      ((0 < n)%nat → ∀ w row, t_workspaces db !! w = Some row → affected_by inst scope db w row = true →
         ∃ j, t_jobs db !! j = None ∧ t_jobs db' !! j = Some (injection_changed_job inst now w)) ∧
      (n = 0%nat → t_jobs db' = t_jobs db) ∧
      ∃ r, t_idempotency db !! (inst, completion_scope c, completion_key c) = Some r ∧
        is_reservation (completion_request_hash c) r = true ∧
        t_idempotency db' !! (inst, completion_scope c, completion_key c) =
          Some (mkIdempotencyRow (id_request_hash r) (completion_response_json c) (completion_status_code c)
                  (id_created_at r) (id_expires_at r))
  end.
Proof.
  intros Hu Hrun. destruct res as [n|e]; [|by eapply transaction_Err].
  unfold delete_injections_and_enqueue_reconciles in Hrun. rewrite transaction_Ok in Hrun.
  run_step Hrun. run_step Hrun. run_step Hrun. run_step Hrun. injection Hrun as <- <-.
  rename dbx into db1, dbx0 into db2, dbx1 into db3, x into n, Hx into Hdel, Hx0 into Hqueue, x0 into affected.
  pose proof (use_frame deletion_context _ _ _ _ _ Hdel) as Hctx. injection Hctx as Ew Em Eu Ei Ej.
  apply delete_many_Ok in Hdel as (Hrows & Hn & Hlock); [|done]. setoid_rewrite doomed_sorted in Hrows.
  setoid_rewrite doomed_sorted in Hn. setoid_rewrite doomed_sorted in Hlock.
  apply finish_Ok in Hx1 as (r & Hr & Hres & ->); [|unfold ensure_finished; by rewrite Hx2].
  assert (t_injections db2 = t_injections db1 ∧ t_idempotency db2 = t_idempotency db1) as [Einj Eid].
  { destruct (0 <? n)%nat; [|by injection Hqueue as <-]. run_step Hqueue. injection Hqueue as <-.
    by apply (use_frame (λ db, (t_injections db, t_idempotency db, t_workspaces db))) in Hx as [= -> -> _]; [|apply _]. }
  cbn. rewrite Einj. split_and!; try done.
  - intros Hpos w row Hw Ha. apply Nat.ltb_lt in Hpos. rewrite Hpos in Hqueue. run_step Hqueue. injection Hqueue as <-.
    unfold enqueue_reconciles in Hx. run_step Hx. run_step Hx. injection Hx as _ <-.
    apply queue_all_Ok in Hx0 as (Hnew & _). destruct (Hnew w) as (j & Hj & Hj').
    { apply elem_of_affected. exists row. rewrite Ew. split; [done|]. unfold affected_by in *. by rewrite Em, Eu. }
    exists j. by rewrite <-Ej.
  - intros ->. cbn in Hqueue. injection Hqueue as <-. done.
  - exists r. rewrite <-Ei, <-Eid. split_and!; [done..|]. by rewrite lookup_insert_eq.
Qed.
End InjectionStore.

(** ** Witnesses *)
Module InjectionSample.
#[local] Existing Instances decimal_uuid_text CryptoSample.aead CryptoSample.base64 CryptoSample.random.
Definition cipher : EnvelopeCipher := mkCipher (octets "key").
Definition scope : InjectionScopeRef := mkScopeRef UserScope 7.
Definition item : InjectionItem :=
  mkItem "token" SecretFile "/etc/token" (Utf8 "secret") false false 0 (Some 384) None None None [].
Definition stored : Db := (replace_injection "inst" cipher scope item 3 100 empty_db).2.
Definition completion : IdempotencyCompletion := mkCompletion "scope" "key" "hash" 204 "".
(** One workspace of the user, and a reservation for the deletion. *)
Definition db : Db :=
  (reserve "inst" "scope" "key" "hash" 100 1000
    (set_t_workspaces {[ 5%N := {| wr_installation_id := "inst"; wr_short_id := "5"; wr_organization_id := 2;
       wr_owner_id := 7; wr_name := "w"; wr_template_id := None; wr_state := Ready; wr_cpu_millis := 1;
       wr_memory_mib := 1; wr_gpu_count := 0; wr_disk_gib := 1; wr_temporary_storage_gib := 1;
       wr_node_pool := "default"; wr_generation := 1; wr_created_at := 0; wr_updated_at := 0;
       wr_snapshot := mkDocument "" "" "" (standard "" Internal (mkResources 1 1 0 1));
       wr_home_pvc_namespace := None; wr_home_pvc_name := None; wr_home_pvc_uid := None;
       wr_home_pvc_capacity_gib := None; wr_scratch_volume_binding := None |} ]} stored)).2.
End InjectionSample.

Lemma empty_unique_positions : unique_positions empty_db.
Proof. intros inst scope key id id' r r' Hr. by cbn in Hr; rewrite lookup_empty in Hr. Qed.

Lemma sample_storable : storable InjectionSample.item.
Proof. split; cbn; [reflexivity|unfold u32_max; lia]. Qed.

Lemma replaced_injection_readable_witness :
  ∃ id r, injection_at "inst" InjectionSample.scope "token" InjectionSample.stored = Some (id, r) ∧
    @decrypt_row decimal_uuid_text CryptoSample.aead CryptoSample.base64 InjectionSample.cipher "inst"
      InjectionSample.scope r = Ok (as_read (set_version 1 InjectionSample.item)).
Proof.
  destruct (@replaced_injection_readable decimal_uuid_text CryptoSample.aead CryptoSample.base64 CryptoSample.random
    CryptoSample.aead_laws CryptoSample.base64_laws CryptoSample.random_ok "inst" InjectionSample.cipher
    InjectionSample.scope InjectionSample.item 3 100 empty_db _ InjectionSample.stored
    empty_unique_positions sample_storable eq_refl) as (id & r & version & Hv & _ & Hat & _ & Hd & _).
  exists id, r. split; [exact Hat|]. vm_compute in Hv. rewrite Hv in Hd. exact Hd.
Defined.

Lemma decimal_no_colon u : colon ∉ octets (uuid_to_string (UuidText := decimal_uuid_text) u).
Proof.
  cbn. unfold octets. generalize (N.to_uint u). intros d Hin.
  induction d; cbn in Hin; [by apply elem_of_nil in Hin|..]; by apply elem_of_cons in Hin as [?|?].
Qed.

Lemma ciphertext_bound_to_position_witness :
  ∃ id r, injection_at "inst" InjectionSample.scope "token" InjectionSample.stored = Some (id, r) ∧
    @decrypt_row decimal_uuid_text CryptoSample.aead CryptoSample.base64 InjectionSample.cipher "inst"
      (mkScopeRef UserScope 8) r = Err StorageError.Crypto.
Proof.
  eexists _, _. split; [vm_compute; reflexivity|].
  eapply (@ciphertext_bound_to_position decimal_uuid_text CryptoSample.aead CryptoSample.base64 CryptoSample.random
    CryptoSample.aead_laws CryptoSample.base64_laws CryptoSample.random_ok decimal_no_colon decimal_uuid_text_laws
    0 InjectionSample.cipher "inst" InjectionSample.scope (set_version 1 InjectionSample.item)).
  - vm_compute. reflexivity.
  - split_and!; reflexivity.
  - cbn. intros Hin. repeat (apply elem_of_cons in Hin as [?|Hin]; [done|]). by apply elem_of_nil in Hin.
  - cbn. intros Hin. repeat (apply elem_of_cons in Hin as [?|Hin]; [done|]). by apply elem_of_nil in Hin.
  - cbn. lia.
  - cbn. unfold u64_max. lia.
  - intros (_ & E & _). discriminate.
Unshelve. all: exact 0%N || exact 0.
Defined.

Lemma singleton_unique_positions db : length (map_to_list (t_injections db)) = 1%nat → unique_positions db.
Proof.
  intros E inst scope key id id' r r' Hr Hr' _ _. apply elem_of_map_to_list in Hr, Hr'.
  destruct (map_to_list _) as [|x [|]]; [done| |done]. apply list_elem_of_singleton in Hr, Hr'. congruence.
Qed.

Lemma injection_batch_deleted_witness :
  ∃ db', @delete_injections_and_enqueue_reconciles "inst" InjectionSample.scope ["token"; "other"] false 3 200
      InjectionSample.completion InjectionSample.db = (Ok 1%nat, db') ∧
    ∃ j, t_jobs db' !! j = Some (injection_changed_job "inst" 200 5).
Proof.
  eexists. split; [vm_compute; reflexivity|].
  edestruct (@injection_batch_deleted "inst" InjectionSample.scope ["token"; "other"] false 3 200
    InjectionSample.completion InjectionSample.db (Ok 1%nat)) as (_ & _ & _ & Hjobs & _).
  - apply singleton_unique_positions. vm_compute. reflexivity.
  - vm_compute. reflexivity.
  - destruct (Hjobs (le_n 1) 5%N _ eq_refl eq_refl) as (j & _ & Hj). exact (ex_intro _ j Hj).
Defined.
