(* ===== verification/Search.v ===== *)
(** * Text search in SQL ([LIKE], the [escape_like_pattern] of
    [src/storage/admin_store/user_updates.rs] and of
    [src/storage/workspace_store/pagination.rs])

    A search text is embedded in a [LIKE] pattern. [LIKE] is the operator of the
    two databases: [%] matches any text, [_] any character, and the escape
    character takes the next character literally. *)
From S2P Require Import Prelude Text Database.

Definition c_percent : Z := 37.
Definition c_backslash : Z := 92.

(** Lower-casing beyond ASCII: [str::to_lowercase], and [LOWER] and the case
    folding of [ILIKE] in PostgreSQL, which depend on Unicode tables and locale. *)
Class TextCase := {
  to_lowercase : list Z → list Z;
  postgres_lower : list Z → list Z;
  postgres_fold : Z → Z;
}.

(** ** LIKE *)
Fixpoint suffixes (t : list Z) : list (list Z) :=
  t :: match t with [] => [] | _ :: t' => suffixes t' end.

(** [text LIKE pattern ESCAPE esc], comparing characters after [fold]. A pattern
    that ends with the escape character matches nothing; no query has one. *)
Fixpoint like (fold : Z → Z) (esc : option Z) (pattern : list Z) {struct pattern} : list Z → bool :=
  match pattern with
  | [] => λ t, bool_decide (t = [])
  | c :: p =>
      if bool_decide (esc = Some c) then
        match p with
        | [] => λ _, false
        | d :: p' => λ t, match t with [] => false | x :: t' => (fold x =? fold d) && like fold esc p' t' end
        end
      else if c =? c_percent then λ t, existsb (like fold esc p) (suffixes t)
      else λ t, match t with
                | [] => false
                | x :: t' => ((c =? c_underscore) || (fold x =? fold c)) && like fold esc p t'
                end
  end.

(** [LIKE] compares ASCII letters without case in SQLite and exactly in PostgreSQL. *)
Definition like_fold `{SqlBackend} : Z → Z := match backend with Sqlite => ascii_lower | Postgres => id end.
(** [LOWER]: SQLite lowers ASCII only. *)
Definition sql_lower `{SqlBackend} `{TextCase} (cs : list Z) : list Z :=
  match backend with Sqlite => ascii_lower <$> cs | Postgres => postgres_lower cs end.

(** ** Escaped patterns *)
Definition is_metacharacter (c : Z) : bool := (c =? c_backslash) || (c =? c_percent) || (c =? c_underscore).

Fixpoint escape_like_pattern (value : list Z) : list Z :=
  match value with
  | [] => []
  | c :: value' => (if is_metacharacter c then [c_backslash] else []) ++ c :: escape_like_pattern value'
  end.

(** [search.unwrap_or("").trim().to_lowercase()]. *)
Definition search_text `{TextCase} (search : option string) : list Z := to_lowercase (trim (chars (default "" search))).
Definition escaped_pattern (search : list Z) : list Z := [c_percent] ++ escape_like_pattern search ++ [c_percent].

(** [search = '' OR LOWER(column) LIKE pattern ESCAPE '\' OR ...] over the columns searched. *)
Definition matches_search `{SqlBackend} `{TextCase} (search : list Z) (columns : list string) : bool :=
  bool_decide (search = [])
  || existsb (λ column, like like_fold (Some c_backslash) (escaped_pattern search) (sql_lower (chars column))) columns.

(** ** Unescaped patterns, as the searches of members and organizations build them

    [column LIKE pattern COLLATE NOCASE] in SQLite, which has no escape character,
    and [column ILIKE pattern] in PostgreSQL, whose default one is the backslash. *)
Definition ilike `{SqlBackend} `{TextCase} (pattern t : list Z) : bool :=
  match backend with
  | Sqlite => like ascii_lower None pattern t
  | Postgres => like postgres_fold (Some c_backslash) pattern t
  end.

Definition unescaped_pattern (search : list Z) : list Z := [c_percent] ++ search ++ [c_percent].
Definition matches_unescaped `{SqlBackend} `{TextCase} (search : list Z) (column : string) : bool :=
  bool_decide (search = []) || ilike (unescaped_pattern search) (chars column).

(** ** What patterns match *)
Section Like.
Context (fold : Z → Z).

Lemma existsb_suffixes (f : list Z → bool) t : existsb f (suffixes t) = true ↔ ∃ a b, t = a ++ b ∧ f b = true.
Proof.
  rewrite existsb_exists. split.
  - intros (b & Hb & Hf). revert Hb. induction t as [|x t IH]; cbn.
    + intros [<-|[]]. by exists [], [].
    + intros [<-|Hb]; [by exists [], (x :: t)|]. destruct (IH Hb) as (a & b' & -> & Hf'). by exists (x :: a), b'.
  - intros (a & b & -> & Hf). exists b. split; [|done]. induction a as [|x a IH]; cbn; [|by right].
    destruct b; by left.
Qed.

Lemma like_percent esc p t :
  esc ≠ Some c_percent → like fold esc (c_percent :: p) t = true ↔ ∃ a b, t = a ++ b ∧ like fold esc p b = true.
Proof.
  intros He. cbn [like]. rewrite (bool_decide_eq_false_2 _ He). cbn. apply existsb_suffixes.
Qed.

Lemma like_underscore esc p x t :
  esc ≠ Some c_underscore → like fold esc (c_underscore :: p) (x :: t) = like fold esc p t.
Proof. intros He. cbn [like]. by rewrite (bool_decide_eq_false_2 _ He). Qed.

(** Without escaping, an underscore finds every text that is not empty. *)
Lemma like_underscore_pattern esc x t :
  esc ≠ Some c_percent → esc ≠ Some c_underscore → like fold esc (unescaped_pattern [c_underscore]) (x :: t) = true.
Proof.
  intros H1 H2. cbn [unescaped_pattern app]. apply like_percent; [done|]. exists [], (x :: t). split; [done|].
  rewrite like_underscore by done. apply like_percent; [done|]. exists t, []. by rewrite app_nil_r.
Qed.

Lemma like_escaped_literal value p t :
  like fold (Some c_backslash) (escape_like_pattern value ++ p) t = true ↔
  ∃ j b, t = j ++ b ∧ fold <$> j = fold <$> value ∧ like fold (Some c_backslash) p b = true.
Proof.
  revert t. induction value as [|c value IH]; intros t; cbn [escape_like_pattern].
  - cbn. split; [by exists [], t|]. intros (j & b & -> & Hj & Hb). by apply map_eq_nil in Hj as ->.
  - assert (Hhead : like fold (Some c_backslash)
        (((if is_metacharacter c then [c_backslash] else []) ++ c :: escape_like_pattern value) ++ p) t =
      match t with [] => false | x :: t' => (fold x =? fold c) && like fold (Some c_backslash) (escape_like_pattern value ++ p) t' end).
    { unfold is_metacharacter. destruct (Z.eqb_spec c c_backslash) as [->|H1]; [done|].
      destruct (Z.eqb_spec c c_percent) as [->|H2]; [done|].
      destruct (Z.eqb_spec c c_underscore) as [->|H3]; [done|]. cbn -[Z.eqb].
      rewrite bool_decide_eq_false_2 by congruence. rewrite (proj2 (Z.eqb_neq _ _) H2), (proj2 (Z.eqb_neq _ _) H3).
      by destruct t. }
    rewrite Hhead. destruct t as [|x t].
    + split; [done|]. intros (j & b & Ht & Hj & _). symmetry in Ht. apply app_eq_nil in Ht as [-> _]. done.
    + rewrite andb_true_iff, Z.eqb_eq, IH. split.
      * intros (Hx & j & b & -> & Hj & Hb). exists (x :: j), b. split_and!; [done| |done]. cbn. by rewrite Hx, Hj.
      * intros (j & b & Ht & Hj & Hb). destruct j as [|y j]; [done|]. cbn in Hj. injection Hj as Hy Hj.
        injection Ht as -> ->. split; [done|]. by exists j, b.
Qed.

Lemma like_escaped_pattern value t :
  like fold (Some c_backslash) (escaped_pattern value) t = true ↔
  ∃ a j b, t = a ++ j ++ b ∧ fold <$> j = fold <$> value.
Proof.
  unfold escaped_pattern. cbn [app]. rewrite like_percent by done. split.
  - intros (a & b & -> & (j & b' & -> & Hj & _)%like_escaped_literal). by exists a, j, b'.
  - intros (a & j & b & -> & Hj). exists a, (j ++ b). split; [done|]. apply like_escaped_literal.
    exists j, b. split_and!; [done|done|]. apply like_percent; [done|]. exists b, []. by rewrite app_nil_r.
Qed.
End Like.

(** The text of a search is taken literally: a row is found exactly when the
    search is empty or one of the searched columns, lower-cased, contains the
    lower-cased text, whatever wildcard or escape characters the text holds. *)
Theorem search_is_literal `{SqlBackend} `{TextCase} search columns :
  matches_search (search_text search) columns = true ↔
  search_text search = [] ∨
  ∃ column a j b, column ∈ columns ∧ sql_lower (chars column) = a ++ j ++ b ∧
    like_fold <$> j = like_fold <$> search_text search.
Proof.
  unfold matches_search. rewrite orb_true_iff, bool_decide_eq_true, existsb_exists.
  split; (intros [?|Hc]; [by left|right]).
  - destruct Hc as (column & Hin & (a & j & b & Ht & Hj)%like_escaped_pattern).
    exists column, a, j, b. by rewrite list_elem_of_In.
  - destruct Hc as (column & a & j & b & Hin & Ht & Hj). exists column. rewrite <-list_elem_of_In.
    split; [done|]. apply like_escaped_pattern. by exists a, j, b.
Qed.

(** Searching members or organizations for [_] finds every name that is not
    empty: these two patterns are not escaped. *)
Lemma unescaped_search_is_a_pattern `{SqlBackend} `{TextCase} column :
  chars column ≠ [] → matches_unescaped [c_underscore] column = true.
Proof.
  intros Hne. unfold matches_unescaped, ilike. rewrite orb_true_iff. right.
  destruct (chars column) as [|x t]; [done|]. destruct backend; by apply like_underscore_pattern.
Qed.
