(* ===== verification/Creation.v ===== *)
(** * Creating workspaces ([src/storage/workspace_store.rs],
    [src/storage/workspace_store/creation.rs], [src/storage/workspace_admission.rs],
    [src/storage/workspace_injection_refs.rs])

    A workspace is created from a template in one transaction: the template and a
    node pool are resolved, the request is admitted against the image policy and
    the quotas of the organization and the owner, and the row, its references to
    injections, its own injections, the first reconciliation job, an audit record
    and an event are written. *)
From stdpp Require Import sorting.
From S2P Require Import Prelude Text Json Quota Auth Templates Workspaces Errors ShrinkOperation Database WorkspaceStore JobStore Events Injections Crypto InjectionStore Catalog.

Record CreateWorkspace := mkCreateWorkspace {
  cw_organization_id : Uuid;
  cw_owner_id : Uuid;
  cw_name : string;
  cw_template_id : Uuid;
  cw_resources : option Resources;
  cw_temporary_storage_gib : option Z;
  cw_use_longhorn : bool;
  cw_organization_injection_refs : option (list string);
  cw_user_injection_refs : option (list string);
}.

Record WorkspaceCreationOptions := mkCreationOptions {
  co_node_pool : option string;
  co_inline : option (EnvelopeCipher * list InjectionItem);
  co_admitted_template_yaml : option string;
  co_cpu_overcommit_ratio : option Z;
  co_allow_cluster_access : bool;
  co_actor_user_id : Uuid;
  co_now : Z;
}.

Record WorkspaceCreation := mkCreation {
  wc_command : CreateWorkspace;
  wc_requested_node_pool : option string;
  wc_injection_refs : WorkspaceInjectionRefs;
  wc_inline : option (EnvelopeCipher * list InjectionItem);
  wc_admitted_template_yaml : option string;
  wc_cpu_overcommit_ratio : Z;
  wc_allow_cluster_access : bool;
  wc_actor_user_id : Uuid;
  wc_now : Z;
}.

(** ** References to injections *)
Definition encode_scope (refs : option (list string)) : list string :=
  match refs with
  | None => ["*"]
  | Some [] => ["!"]
  | Some keys => keys
  end.

Definition decode_scope (keys : list string) : result StorageError.t (option (list string)) :=
  if bool_decide (keys = []) || bool_decide (keys = ["*"]) then Ok None
  else if bool_decide (keys = ["!"]) then Ok (Some [])
  else if existsb (λ key, String.eqb key "*" || String.eqb key "!") keys
  then Err StorageError.InvalidWorkspaceInjectionRefs
  else Ok (Some (merge_sort String.le keys)).

Definition insert_ref (inst : string) (workspace_id : Uuid) (now : Z) (scope key : string) : DbM () :=
  insert_row t_injection_refs set_t_injection_refs (inst, workspace_id, scope, key) now.

(** [insert_sqlite] and [insert_postgres] of [workspace_injection_refs.rs]. *)
Definition insert_refs (inst : string) (workspace_id : Uuid) (refs : WorkspaceInjectionRefs) (now : Z) : DbM () :=
  _ ← lift (ensure (refs_validate refs) StorageError.InvalidWorkspaceInjectionRefs);
  for_each (λ scope : string * option (list string),
              for_each (insert_ref inst workspace_id now scope.1) (encode_scope scope.2))
    [("organization", refs_organization refs); ("user", refs_user refs)].

(** [decode_rows]: the keys of each scope, in the order of the rows. *)
Fixpoint decode_rows (rows : list (string * string)) (organization user : list string)
    : result StorageError.t (list string * list string) :=
  match rows with
  | [] => Ok (organization, user)
  | (scope, key) :: rows' =>
      if String.eqb scope "organization" then decode_rows rows' (organization ++ [key]) user
      else if String.eqb scope "user" then decode_rows rows' organization (user ++ [key])
      else Err StorageError.InvalidWorkspaceInjectionRefs
  end.

(** [ORDER BY scope, injection_key]. *)
Definition ref_le (a b : string * string) : Prop :=
  match String.compare a.1 b.1 with Lt => True | Eq => String.le a.2 b.2 | Gt => False end.
#[global] Instance ref_le_dec a b : Decision (ref_le a b).
Proof. unfold ref_le. destruct (String.compare _ _); apply _. Defined.

Definition ref_rows (inst : string) (workspace_id : Uuid) (db : Db) : list (string * string) :=
  merge_sort ref_le
    ((λ kv : (string * Uuid * string * string) * Z, (kv.1.1.2, kv.1.2)) <$>
       List.filter (λ kv : (string * Uuid * string * string) * Z,
                      String.eqb kv.1.1.1.1 inst && bool_decide (kv.1.1.1.2 = workspace_id))
         (map_to_list (t_injection_refs db))).

Definition workspace_injection_refs (inst : string) (workspace_id : Uuid) : DbM WorkspaceInjectionRefs :=
  rows ← reads (ref_rows inst workspace_id);
  keys ← lift (decode_rows rows [] []);
  organization ← lift (decode_scope keys.1);
  user ← lift (decode_scope keys.2);
  mret (mkRefs organization user).

(** ** Admission *)
Definition workspace_request (w : Workspace) : QuotaResources :=
  for_workspace (resources (ws_template w)) (temporary_storage_gib (storage_policy (ws_template w))).

(** [COALESCE(SUM(column), 0)] over the rows that count. *)
Definition sum_rows (counts : WorkspaceRow → bool) (column : WorkspaceRow → Z) (db : Db) : Z :=
  map_fold (λ _ r acc, (if counts r then column r else 0) + acc) 0 (t_workspaces db).

Definition organization_counts (inst : string) (organization_id : Uuid) (r : WorkspaceRow) : bool :=
  String.eqb (wr_installation_id r) inst && bool_decide (wr_organization_id r = organization_id)
  && negb (bool_decide (wr_state r = Deleted)).
Definition owner_counts (inst : string) (owner_id : Uuid) (r : WorkspaceRow) : bool :=
  String.eqb (wr_installation_id r) inst && bool_decide (wr_owner_id r = owner_id)
  && negb (bool_decide (wr_state r = Deleted)).

(** The usage row; a sum that does not fit the column type is an error of the
    database. *)
Definition usage_row (counts : WorkspaceRow → bool) (db : Db) : result StorageError.t Resources :=
  let sum column := ok_or (i64_try_from (sum_rows counts column db)) StorageError.Database in
  cpu ← sum wr_cpu_millis;
  memory ← sum wr_memory_mib;
  gpu ← sum wr_gpu_count;
  disk ← sum wr_disk_gib;
  Ok (mkResources cpu memory gpu disk).

Definition admission_as_u64 (value : Z) : result StorageError.t Z :=
  ok_or (u64_try_from value) StorageError.InvalidWorkspace.
Definition admission_as_u32 (value : Z) : result StorageError.t Z :=
  ok_or (u32_try_from value) StorageError.InvalidWorkspace.

(** The four columns as [QuotaResources] with the other field defaulted. *)
Definition quota_from_columns (cpu memory gpu disk : Z) : result StorageError.t QuotaResources :=
  cpu ← admission_as_u64 cpu;
  memory ← admission_as_u64 memory;
  gpu ← admission_as_u32 gpu;
  disk ← admission_as_u64 disk;
  Ok (mkQuotaResources cpu memory gpu disk 0).

Definition admit_rows (quota : QuotaRow) (usage : Resources) (request : QuotaResources) : result StorageError.t () :=
  limit ← quota_from_columns (qr_cpu_millis quota) (qr_memory_mib quota) (qr_gpu_count quota) (qr_disk_gib quota);
  current ← quota_from_columns (cpu_millis usage) (memory_mib usage) (gpu_count usage) (disk_gib usage);
  _ ← map_err StorageError.Quota (admit_quota limit current request);
  Ok ().

Definition admit_counted (quota : option QuotaRow) (counts : WorkspaceRow → bool) (request : QuotaResources) : DbM () :=
  match quota with
  | None => mret ()
  | Some quota =>
      usage ← reads (usage_row counts);
      usage ← lift usage;
      lift (admit_rows quota usage request)
  end.

(** [admit_sqlite] and [admit_postgres]. *)
Definition admit_workspace (inst : string) (w : Workspace) : DbM () :=
  _ ← admit_image inst w;
  quota ← reads (λ db, t_organization_quotas db !! (inst, ws_organization_id w));
  _ ← admit_counted quota (organization_counts inst (ws_organization_id w)) (workspace_request w);
  quota ← reads (λ db, t_user_quotas db !! (inst, ws_owner_id w));
  admit_counted quota (owner_counts inst (ws_owner_id w)) (workspace_request w).

(** ** Creation *)
Section Creation.
Context `{UuidText} `{TemplateYaml} `{SqlBackend} `{Aead} `{Base64Codec} `{RandomSource}.

Definition verify_admitted_template (creation : WorkspaceCreation) (snapshot : ResolvedTemplateSnapshot)
    : result StorageError.t () :=
  if is_some_and (wc_admitted_template_yaml creation) (λ expected, negb (String.eqb expected (snap_yaml snapshot)))
  then Err StorageError.TemplateNotFound
  else if is_some (wc_admitted_template_yaml creation)
          && is_some_and (cpu_overcommit_ratio (snap_spec snapshot))
               (λ ratio, negb (ratio =? wc_cpu_overcommit_ratio creation))
  then Err StorageError.InvalidWorkspace
  else Ok ().

(** The specification after the command's choices are applied. *)
Definition overridden_spec (command : CreateWorkspace) (s : WorkspaceTemplateSpec) (ratio : Z)
    : WorkspaceTemplateSpec :=
  {| image := image s; access_mode := access_mode s;
     resources := default (resources s) (cw_resources command); pod_requests := pod_requests s;
     cpu_overcommit_ratio := Some (default ratio (cpu_overcommit_ratio s));
     workspace_user := workspace_user s; workspace_home := workspace_home s; buildkit := buildkit s;
     storage_policy := mkStoragePolicy (default (temporary_storage_gib (storage_policy s))
                                          (cw_temporary_storage_gib command)) (cw_use_longhorn command);
     cluster_access := cluster_access s; egress_policy := egress_policy s;
     runtime_class_name := runtime_class_name s; placement := placement s; desktop := desktop s |}.

(** The new specification and the document whose YAML is stored. *)
Definition apply_resource_override (command : CreateWorkspace) (snapshot : ResolvedTemplateSnapshot) (ratio : Z)
    : result StorageError.t (WorkspaceTemplateSpec * WorkspaceTemplateDocument) :=
  let s := overridden_spec command (snap_spec snapshot) ratio in
  _ ← map_err (λ _, StorageError.InvalidWorkspace) (spec_validate s);
  document ← map_err (λ _, StorageError.InvalidTemplate) (document_parse (snap_yaml snapshot));
  let document := mkDocument (api_version document) (kind document) (metadata_name document) s in
  _ ← map_err (λ _, StorageError.InvalidWorkspace) (document_validate document);
  Ok (s, document).

(** [WorkspaceRuntimeIdentity::new]. *)
Definition runtime_identity_new (id : Uuid) (short_id : string) : bool :=
  bool_decide (short_id = workspace_short_id_for id).

Definition build_workspace (command : CreateWorkspace) (s : WorkspaceTemplateSpec) (node_pool : string) (now : Z)
    : DbM Workspace :=
  id ← now_v7;
  let short_id := workspace_short_id_for id in
  _ ← lift (ensure (runtime_identity_new id short_id) StorageError.InvalidWorkspace);
  mret {| ws_id := id; ws_short_id := short_id; ws_organization_id := cw_organization_id command;
          ws_owner_id := cw_owner_id command; ws_name := trimmed (cw_name command);
          ws_template_id := Some (cw_template_id command); ws_node_pool := node_pool;
          ws_home_volume_binding := None; ws_scratch_volume_binding := None; ws_template := s;
          ws_state := Provisioning; ws_generation := 1; ws_created_at := now; ws_updated_at := now |}.

Definition creation_as_i64 (value : Z) : result StorageError.t Z :=
  ok_or (i64_try_from value) StorageError.InvalidWorkspace.

Definition workspace_columns (inst : string) (w : Workspace) (document : WorkspaceTemplateDocument) (now : Z)
    : result StorageError.t WorkspaceRow :=
  let r := resources (ws_template w) in
  cpu ← creation_as_i64 (cpu_millis r);
  memory ← creation_as_i64 (memory_mib r);
  disk ← creation_as_i64 (disk_gib r);
  temporary ← creation_as_i64 (temporary_storage_gib (storage_policy (ws_template w)));
  Ok {| wr_installation_id := inst; wr_short_id := ws_short_id w; wr_organization_id := ws_organization_id w;
        wr_owner_id := ws_owner_id w; wr_name := ws_name w; wr_template_id := ws_template_id w;
        wr_state := ws_state w; wr_cpu_millis := cpu; wr_memory_mib := memory; wr_gpu_count := gpu_count r;
        wr_disk_gib := disk; wr_temporary_storage_gib := temporary; wr_node_pool := ws_node_pool w;
        wr_generation := 1; wr_created_at := now; wr_updated_at := now; wr_snapshot := document;
        wr_home_pvc_namespace := None; wr_home_pvc_name := None; wr_home_pvc_uid := None;
        wr_home_pvc_capacity_gib := None; wr_scratch_volume_binding := None |}.

(** [UNIQUE (installation_id, short_id)], [UNIQUE (installation_id,
    organization_id, name)] and the foreign keys of the table. *)
Definition workspace_clashes (row r : WorkspaceRow) : bool :=
  String.eqb (wr_installation_id r) (wr_installation_id row) &&
  (String.eqb (wr_short_id r) (wr_short_id row)
   || (bool_decide (wr_organization_id r = wr_organization_id row) && String.eqb (wr_name r) (wr_name row))).
Definition insertable (row : WorkspaceRow) (db : Db) : bool :=
  forallb (λ kv, negb (workspace_clashes row kv.2)) (map_to_list (t_workspaces db))
  && is_some (t_organizations db !! wr_organization_id row) && is_some (t_users db !! wr_owner_id row).

(** [insert_sqlite] and [insert_postgres]. *)
Definition insert_workspace (inst : string) (w : Workspace) (document : WorkspaceTemplateDocument) (now : Z) : DbM () :=
  row ← lift (workspace_columns inst w document now);
  ok ← reads (insertable row);
  _ ← lift (ensure ok StorageError.Database);
  insert_row t_workspaces set_t_workspaces (ws_id w) row.

(** [insert_injections_sqlite] and [insert_injections_postgres]. *)
Definition insert_injections (inst : string) (w : Workspace) (creation : WorkspaceCreation) : DbM () :=
  _ ← insert_refs inst (ws_id w) (wc_injection_refs creation) (wc_now creation);
  match wc_inline creation with
  | None => mret ()
  | Some (cipher, items) =>
      for_each (λ item, insert_initial_workspace_injection cipher inst (ws_id w) item
                          (wc_actor_user_id creation) (wc_now creation)) items
  end.

Definition resources_value (r : Resources) : Value :=
  json_object [("cpu_millis", Number (cpu_millis r)); ("memory_mib", Number (memory_mib r));
               ("gpu_count", Number (gpu_count r)); ("disk_gib", Number (disk_gib r))].

Definition create_metadata (w : Workspace) : Value :=
  json_object
    [("name", Str (ws_name w)); ("image", Str (image (ws_template w)));
     ("template_id", match ws_template_id w with Some id => Str (uuid_to_string id) | None => Null end);
     ("node_pool", Str (ws_node_pool w)); ("resources", resources_value (resources (ws_template w)));
     ("temporary_storage_gib", Number (temporary_storage_gib (storage_policy (ws_template w))))].

Definition first_job (inst : string) (w : Workspace) (now : Z) : JobRow :=
  pending_row inst "reconcile_workspace" (Some (ws_id w))
    (json_object [("generation", Number (ws_generation w))]) now now.

(** [enqueue_and_audit_sqlite] and [enqueue_and_audit_postgres]. *)
Definition enqueue_and_audit (inst : string) (w : Workspace) (creation : WorkspaceCreation) : DbM () :=
  let now := wc_now creation in
  job_id ← now_v7;
  _ ← insert_job job_id (first_job inst w now);
  audit_id ← now_v7;
  _ ← insert_audit audit_id (mkAuditRow inst (Some (wc_actor_user_id creation)) (Some (ws_organization_id w))
                               (Some (ws_id w)) "workspace.create" (create_metadata w) now);
  insert_state_changed inst w None now.

(** [create_sqlite] and [create_postgres]. *)
Definition create (inst : string) (creation : WorkspaceCreation) : DbM Workspace :=
  let command := wc_command creation in
  snapshot ← resolve_template inst (cw_template_id command) (cw_organization_id command)
               (wc_allow_cluster_access creation);
  _ ← lift (verify_admitted_template creation snapshot);
  node_pool ← select_node_pool inst (placement (snap_spec snapshot)) (wc_requested_node_pool creation);
  sd ← lift (apply_resource_override command snapshot (wc_cpu_overcommit_ratio creation));
  w ← build_workspace command sd.1 node_pool (wc_now creation);
  _ ← admit_workspace inst w;
  _ ← insert_workspace inst w sd.2 (wc_now creation);
  _ ← insert_injections inst w creation;
  _ ← enqueue_and_audit inst w creation;
  mret w.

Definition command_refs (command : CreateWorkspace) : WorkspaceInjectionRefs :=
  mkRefs (cw_organization_injection_refs command) (cw_user_injection_refs command).

Definition create_workspace_inner (inst : string) (command : CreateWorkspace) (options : WorkspaceCreationOptions)
    : DbM Workspace :=
  _ ← lift (ensure (negb (bool_decide (trim (chars (cw_name command)) = []) || (120 <? len (cw_name command))))
              StorageError.InvalidWorkspace);
  let refs := command_refs command in
  _ ← lift (ensure (refs_validate refs) StorageError.InvalidWorkspaceInjectionRefs);
  ratio ← match co_cpu_overcommit_ratio options with
          | Some ratio => mret ratio
          | None => cpu_overcommit_ratio_setting inst
          end;
  _ ← lift (ensure (in_range 1 1000 ratio) StorageError.InvalidWorkspace);
  transaction (create inst
    (mkCreation command (co_node_pool options) refs (co_inline options) (co_admitted_template_yaml options)
       ratio (co_allow_cluster_access options) (co_actor_user_id options) (co_now options))).

Definition create_workspace (inst : string) (command : CreateWorkspace) (allow_cluster_access : bool)
    (actor : Uuid) (now : Z) : DbM Workspace :=
  create_workspace_inner inst command (mkCreationOptions None None None None allow_cluster_access actor now).

Definition create_workspace_with_inline_injections (inst : string) (command : CreateWorkspace)
    (cipher : EnvelopeCipher) (inline : list InjectionItem) (allow_cluster_access : bool) (actor : Uuid) (now : Z)
    : DbM Workspace :=
  create_workspace_inner inst command
    (mkCreationOptions None (Some (cipher, inline)) None None allow_cluster_access actor now).

(** [create_workspace_with_admitted_template]: the template and the ratio are the
    ones the admission step approved. *)
Definition create_workspace_with_admitted_template (inst : string) (command : CreateWorkspace)
    (node_pool : option string) (inline : option (EnvelopeCipher * list InjectionItem)) (admitted_yaml : string)
    (ratio : Z) (allow_cluster_access : bool) (actor : Uuid) (now : Z) : DbM Workspace :=
  create_workspace_inner inst command
    (mkCreationOptions node_pool inline (Some admitted_yaml) (Some ratio) allow_cluster_access actor now).
End Creation.

(** ** Quotas *)
Lemma admit_quota_Ok limit usage request p :
  admit_quota limit usage request = Ok p → within (quota_add usage request) limit.
Proof.
  unfold admit_quota, quota_checked_add. intros Hrun. inv_binds. simplify_eq/=.
  repeat match goal with
  | Hx : checked_add_u64 _ _ = Some _ |- _ => apply checked_add_u64_Some in Hx as [-> _]
  | Hx : checked_add_u32 _ _ = Some _ |- _ => apply checked_add_u32_Some in Hx as [-> _]
  end.
  repeat match goal with Hx : check_limit _ _ _ = Ok _ |- _ => apply check_limit_Ok in Hx end.
  unfold within, quota_add; cbn in *. auto.
Qed.

Lemma sum_rows_insert counts column id row db :
  t_workspaces db !! id = None →
  sum_rows counts column (set_t_workspaces (<[id := row]> (t_workspaces db)) db)
  = (if counts row then column row else 0) + sum_rows counts column db.
Proof.
  intros Hnone. unfold sum_rows. cbn. rewrite map_fold_insert_L; [done| |done].
  intros; destruct (counts _), (counts _); lia.
Qed.

(** The usage of the counted workspaces is within a quota. *)
Definition usage_within (counts : WorkspaceRow → bool) (q : QuotaRow) (db : Db) : Prop :=
  sum_rows counts wr_cpu_millis db <= qr_cpu_millis q ∧ sum_rows counts wr_memory_mib db <= qr_memory_mib q ∧
  sum_rows counts wr_gpu_count db <= qr_gpu_count q ∧ sum_rows counts wr_disk_gib db <= qr_disk_gib q.

Record quotas_respected (inst : string) (db : Db) : Prop := {
  organization_respected org q : t_organization_quotas db !! (inst, org) = Some q →
    usage_within (organization_counts inst org) q db;
  owner_respected user q : t_user_quotas db !! (inst, user) = Some q →
    usage_within (owner_counts inst user) q db;
}.

Lemma quota_from_columns_Ok a b c d q : quota_from_columns a b c d = Ok q → q = mkQuotaResources a b c d 0.
Proof.
  unfold quota_from_columns, admission_as_u64, admission_as_u32. intros Hrun. inv_binds.
  repeat match goal with
  | Hx : u64_try_from _ = Some _ |- _ => apply guard_range_Some in Hx as [-> _]
  | Hx : u32_try_from _ = Some _ |- _ => apply guard_range_Some in Hx as [-> _]
  end. by simplify_eq.
Qed.

Lemma usage_row_Ok counts db u : usage_row counts db = Ok u →
  u = mkResources (sum_rows counts wr_cpu_millis db) (sum_rows counts wr_memory_mib db)
        (sum_rows counts wr_gpu_count db) (sum_rows counts wr_disk_gib db).
Proof.
  unfold usage_row. intros Hrun. inv_binds.
  repeat match goal with Hx : i64_try_from _ = Some _ |- _ => apply guard_range_Some in Hx as [-> _] end.
  by simplify_eq.
Qed.

Lemma admit_counted_Ok quota counts request db u db' :
  admit_counted quota counts request db = (Ok u, db') →
  db' = db ∧ ∀ q, quota = Some q →
    sum_rows counts wr_cpu_millis db + q_cpu_millis request <= qr_cpu_millis q ∧
    sum_rows counts wr_memory_mib db + q_memory_mib request <= qr_memory_mib q ∧
    sum_rows counts wr_gpu_count db + q_gpu_count request <= qr_gpu_count q ∧
    sum_rows counts wr_disk_gib db + q_disk_gib request <= qr_disk_gib q.
Proof.
  destruct quota as [q|]; cbn; [|by intros [= _ <-]]. intros Hrun.
  run_step Hrun. run_step Hrun. injection Hrun as Hrun <-. split; [done|]. intros ? [= <-].
  apply usage_row_Ok in Hx as ->. unfold admit_rows in Hrun. inv_binds.
  repeat match goal with Hx : quota_from_columns _ _ _ _ = Ok _ |- _ => apply quota_from_columns_Ok in Hx as -> end.
  match goal with Hx : map_err _ (admit_quota ?l ?u ?r) = Ok _ |- _ =>
    destruct (admit_quota l u r) as [p|] eqn:Ha; [|done] end.
  apply admit_quota_Ok in Ha. unfold within, quota_add in Ha; cbn in Ha. lia.
Qed.

(** What a row requests in the four limited dimensions. *)
Definition row_requests (row : WorkspaceRow) (w : Workspace) : Prop :=
  let r := resources (ws_template w) in
  wr_cpu_millis row = cpu_millis r ∧ wr_memory_mib row = memory_mib r ∧ wr_gpu_count row = gpu_count r ∧
  wr_disk_gib row = disk_gib r.

Lemma admitted_within counts q row w id db :
  t_workspaces db !! id = None → row_requests row w → counts row = true →
  sum_rows counts wr_cpu_millis db + q_cpu_millis (workspace_request w) <= qr_cpu_millis q ∧
  sum_rows counts wr_memory_mib db + q_memory_mib (workspace_request w) <= qr_memory_mib q ∧
  sum_rows counts wr_gpu_count db + q_gpu_count (workspace_request w) <= qr_gpu_count q ∧
  sum_rows counts wr_disk_gib db + q_disk_gib (workspace_request w) <= qr_disk_gib q →
  usage_within counts q (set_t_workspaces (<[id := row]> (t_workspaces db)) db).
Proof.
  intros Hnone (E1 & E2 & E3 & E4) Hc Hle. unfold usage_within. rewrite !sum_rows_insert, Hc by done. cbn in *. lia.
Qed.

Lemma unaffected_within counts q row id db :
  t_workspaces db !! id = None → counts row = false → usage_within counts q db →
  usage_within counts q (set_t_workspaces (<[id := row]> (t_workspaces db)) db).
Proof. intros Hnone Hc Hle. unfold usage_within in *. rewrite !sum_rows_insert, Hc by done. lia. Qed.

Lemma sum_rows_ext counts column db db' :
  t_workspaces db' = t_workspaces db → sum_rows counts column db' = sum_rows counts column db.
Proof. intros E. unfold sum_rows. by rewrite E. Qed.

Lemma usage_within_ext counts q db db' :
  t_workspaces db' = t_workspaces db → usage_within counts q db → usage_within counts q db'.
Proof. intros E Hu. unfold usage_within in *. by rewrite !(sum_rows_ext _ _ db db'). Qed.

(** ** What a creation writes *)
Section Effects.
Context `{UuidText} `{TemplateYaml} `{SqlBackend} `{Aead} `{Base64Codec} `{RandomSource} (inst : string).

Lemma encrypt_and_save_frames {T} (view : Db → T) cipher scope item actor now :
  (∀ db n, view (set_uuid_drawn n db) = view db) →
  (∀ db m, view (set_t_injections m db) = view db) → (∀ db m, view (set_t_audit m db) = view db) →
  Preserves (frames view) (encrypt_and_save cipher inst scope item actor now).
Proof.
  intros Hn Hi Ha. pose proof (frames_table_relation view (λ n db, Hn db n)) as HR.
  unfold encrypt_and_save, save_injection, injection_audit.
  repeat (apply preserves_bind; [done| |intros ?]); try apply _.
  - intros db r db'. unfold upsert_injection, insert_row, frames.
    destruct (injection_at _ _ _ _) as [[k row]|]; [intros [= _ <-]; apply Hi|].
    destruct (t_injections db !! _); intros [= _ <-]; [done|apply Hi].
  - apply preserves_insert_row; [done|intros; apply Ha].
Qed.

Lemma insert_refs_frames {T} (view : Db → T) id refs now :
  (∀ db n, view (set_uuid_drawn n db) = view db) → (∀ db m, view (set_t_injection_refs m db) = view db) →
  Preserves (frames view) (insert_refs inst id refs now).
Proof.
  intros Hn Hi. pose proof (frames_table_relation view (λ n db, Hn db n)) as HR.
  unfold insert_refs, insert_ref. apply preserves_bind; [done|apply _|intros _].
  apply for_each_preserves; [done|intros [s keys]]. apply for_each_preserves; [done|intros key].
  apply preserves_insert_row; [done|intros; apply Hi].
Qed.

Lemma inline_frames {T} (view : Db → T) id creation :
  (∀ db n, view (set_uuid_drawn n db) = view db) →
  (∀ db m, view (set_t_injections m db) = view db) → (∀ db m, view (set_t_audit m db) = view db) →
  Preserves (frames view)
    (match wc_inline creation with
     | None => mret ()
     | Some (cipher, items) =>
         for_each (λ item, insert_initial_workspace_injection cipher inst id item
                             (wc_actor_user_id creation) (wc_now creation)) items
     end).
Proof.
  intros Hn Hi Ha. pose proof (frames_table_relation view (λ n db, Hn db n)) as HR.
  destruct (wc_inline creation) as [[cipher items]|]; [|apply _].
  apply for_each_preserves; [done|intros item]. by apply encrypt_and_save_frames.
Qed.

Lemma enqueue_and_audit_frames {T} (view : Db → T) w creation :
  (∀ db n, view (set_uuid_drawn n db) = view db) → (∀ db m, view (set_t_jobs m db) = view db) →
  (∀ db m, view (set_t_audit m db) = view db) → (∀ db m, view (set_t_events m db) = view db) →
  Preserves (frames view) (enqueue_and_audit inst w creation).
Proof.
  intros Hn Hj Ha He. pose proof (frames_table_relation view (λ n db, Hn db n)) as HR.
  unfold enqueue_and_audit. apply preserves_bind; [done|apply _|intros job]. apply preserves_bind; [done| |intros _].
  { apply preserves_insert_row; [done|intros; apply Hj]. }
  apply preserves_bind; [done|apply _|intros audit]. apply preserves_bind; [done| |intros _].
  { apply preserves_insert_row; [done|intros; apply Ha]. }
  by apply insert_workspace_event_frames.
Qed.

(** The first job is queued; every other job added is a delivery. *)
Lemma enqueue_and_audit_job w creation db u db' :
  enqueue_and_audit inst w creation db = (Ok u, db') →
  ∃ job, t_jobs db !! job = None ∧ t_jobs db' !! job = Some (first_job inst w (wc_now creation)).
Proof.
  unfold enqueue_and_audit. intros Hrun. run_step Hrun. run_step Hrun.
  unfold insert_job, insert_row in Hx. cbn in Hx. set (id := uuid_source db (uuid_drawn db)) in *.
  destruct (t_jobs db !! id) eqn:Hnone; [done|]. injection Hx as <-.
  run_step Hrun. run_step Hrun.
  apply (use_frame t_jobs) in Hx; [|unfold insert_audit; apply _]. cbn in Hx.
  pose proof (use_preserves _ _ _ _ _ (insert_workspace_event_jobs inst w _ _ _) Hrun id) as Hid.
  exists id. split; [done|]. rewrite Hx in Hid. rewrite lookup_insert_eq in Hid.
  destruct Hid as [Hid|[Hid _]]; [exact Hid|done].
Qed.
End Effects.

(** ** References round trip *)
Section Refs.
Context (inst : string).

Lemma merge_sort_unique (l k : list string) : l ≡ₚ k → merge_sort String.le l = merge_sort String.le k.
Proof.
  intros Hlk. apply (StronglySorted_unique String.le); [apply StronglySorted_merge_sort; apply _..|].
  by rewrite !merge_sort_Permutation.
Qed.

Lemma valid_ref_plain key : valid_ref key = true → key ≠ "*" ∧ key ≠ "!".
Proof. split; by intros ->. Qed.

(** A selection stored and read back has its keys sorted. *)
Definition sorted_selection (refs : option (list string)) : option (list string) := merge_sort String.le <$> refs.

Lemma decode_encode_scope refs keys :
  is_none_or refs (λ keys, bool_decide (NoDup keys) && forallb valid_ref keys) = true →
  keys ≡ₚ encode_scope refs → decode_scope keys = Ok (sorted_selection refs).
Proof.
  destruct refs as [[|k ks]|]; cbn [encode_scope is_none_or].
  - intros _ ->%Permutation_singleton_r. reflexivity.
  - intros [_ Hv]%andb_true_iff Hp. unfold decode_scope.
    assert (Hplain : ∀ key, key ∈ keys → key ≠ "*" ∧ key ≠ "!").
    { intros key Hin. rewrite Hp in Hin. apply valid_ref_plain. by eapply forallb_elem. }
    rewrite !bool_decide_eq_false_2; cbn.
    + destruct (existsb _ keys) eqn:E; [|by rewrite (merge_sort_unique _ _ Hp)].
      apply existsb_exists in E as (key & Hin%list_elem_of_In & Hk). apply Hplain in Hin as [H1 H2].
      apply orb_true_iff in Hk as [?%String.eqb_eq|?%String.eqb_eq]; done.
    + intros ->. destruct (Hplain "!"); [by left|done].
    + intros ->. destruct (Hplain "*"); [by left|done].
    + intros ->. by apply Permutation_nil_l in Hp.
  - intros _ ->%Permutation_singleton_r. reflexivity.
Qed.

Lemma decode_rows_Ok rows organization user :
  Forall (λ r, r.1 = "organization" ∨ r.1 = "user") rows →
  decode_rows rows organization user =
  Ok (organization ++ (snd <$> List.filter (λ r, String.eqb r.1 "organization") rows),
      user ++ (snd <$> List.filter (λ r, String.eqb r.1 "user") rows)).
Proof.
  intros Hf. revert organization user. induction Hf as [|[s k] rows Hs Hf IH]; intros organization user; cbn.
  - by rewrite !app_nil_r.
  - destruct Hs as [Hs|Hs]; cbn in Hs; subst s; cbn; rewrite IH; by rewrite <-app_assoc.
Qed.

(** The keys under which the references of a workspace are stored. *)
Definition stored_ref (refs : WorkspaceInjectionRefs) (sk : string * string) : Prop :=
  (sk.1 = "organization" ∧ sk.2 ∈ encode_scope (refs_organization refs)) ∨
  (sk.1 = "user" ∧ sk.2 ∈ encode_scope (refs_user refs)).

Lemma insert_ref_each id now s keys db u db' :
  for_each (insert_ref inst id now s) keys db = (Ok u, db') →
  ∀ k, is_Some (t_injection_refs db' !! k) ↔
       is_Some (t_injection_refs db !! k) ∨ ∃ key, key ∈ keys ∧ k = (inst, id, s, key).
Proof.
  revert db. induction keys as [|key keys IH]; intros db; cbn.
  - intros [= _ <-] k. split; [by left|]. intros [?|(? & []%not_elem_of_nil & _)]; done.
  - intros Hrun. run_step Hrun. unfold insert_ref, insert_row in Hx.
    destruct (t_injection_refs db !! _) eqn:Hnone; [done|]. injection Hx as <-.
    intros k. rewrite (IH _ Hrun k). cbn. rewrite lookup_insert_is_Some. setoid_rewrite elem_of_cons.
    split; [intros [[<-|[_ ?]]|(key' & ? & ->)]|intros [?|(key' & [->|?] & ->)]]; eauto 6.
    destruct (decide ((inst, id, s, key) = k)); eauto.
Qed.

Lemma insert_refs_Ok id refs now db u db' :
  insert_refs inst id refs now db = (Ok u, db') →
  refs_validate refs = true ∧
  ∀ k, is_Some (t_injection_refs db' !! k) ↔
       is_Some (t_injection_refs db !! k) ∨ k.1.1 = (inst, id) ∧ stored_ref refs (k.1.2, k.2).
Proof.
  unfold insert_refs. intros Hrun. run_step Hrun. split; [done|]. cbn in Hrun.
  run_step Hrun. run_step Hrun. injection Hrun as <-.
  pose proof (insert_ref_each _ _ _ _ _ _ _ Hx0) as H1. pose proof (insert_ref_each _ _ _ _ _ _ _ Hx1) as H2.
  intros [[[i w] s] key]. rewrite H2, H1. unfold stored_ref; cbn. split.
  - intros [[?|(key' & Hin & [= -> -> -> ->])]|(key' & Hin & [= -> -> -> ->])]; auto.
  - intros [?|([= -> ->] & [[-> ?]|[-> ?]])]; eauto.
Qed.

Lemma elem_of_ref_rows id db sk :
  sk ∈ ref_rows inst id db ↔ is_Some (t_injection_refs db !! (inst, id, sk.1, sk.2)).
Proof.
  unfold ref_rows. rewrite merge_sort_Permutation, list_elem_of_fmap. split.
  - intros ([[[[i w] s] key] v] & -> & [Hin Hf]%list_elem_of_In%filter_In).
    apply andb_true_iff in Hf as [Hi%String.eqb_eq Hw]. apply bool_decide_eq_true in Hw. cbn in *. subst i w.
    exists v. by apply elem_of_map_to_list, list_elem_of_In.
  - intros [v Hv]. exists ((inst, id, sk.1, sk.2), v). split; [by destruct sk|].
    apply list_elem_of_In, filter_In. split; [by apply list_elem_of_In, elem_of_map_to_list|].
    cbn. by rewrite String.eqb_refl, bool_decide_eq_true_2.
Qed.

Lemma NoDup_ref_rows id db : NoDup (ref_rows inst id db).
Proof.
  unfold ref_rows. rewrite merge_sort_Permutation. apply NoDup_fmap_2_strong.
  - intros [[[[i w] s] key] v] [[[[i' w'] s'] key'] v'] Hx Hy [= -> ->].
    apply list_elem_of_In, filter_In in Hx as [Hx%list_elem_of_In%elem_of_map_to_list Hfx].
    apply list_elem_of_In, filter_In in Hy as [Hy%list_elem_of_In%elem_of_map_to_list Hfy].
    cbn in *. bool_prop. rewrite String.eqb_eq in *. subst. congruence.
  - apply NoDup_ListNoDup, List.NoDup_filter, NoDup_ListNoDup, NoDup_map_to_list.
Qed.

Lemma NoDup_encode_scope refs :
  is_none_or refs (λ keys, bool_decide (NoDup keys) && forallb valid_ref keys) = true → NoDup (encode_scope refs).
Proof.
  destruct refs as [[|k ks]|]; cbn [is_none_or encode_scope]; [intros _; apply NoDup_singleton| |intros _; apply NoDup_singleton].
  intros [Hnd _]%andb_true_iff. by apply bool_decide_eq_true in Hnd.
Qed.

(** The keys of one scope among the rows. *)
Lemma scope_keys rows scope keys :
  NoDup rows → NoDup keys → (∀ key, (scope, key) ∈ rows ↔ key ∈ keys) →
  snd <$> List.filter (λ r : string * string, String.eqb r.1 scope) rows ≡ₚ keys.
Proof.
  intros Hnd Hk Hin. apply NoDup_Permutation; [|done|].
  - apply NoDup_fmap_2_strong; [|by apply NoDup_ListNoDup, List.NoDup_filter, NoDup_ListNoDup].
    intros [s k] [s' k'] [_ Hx]%list_elem_of_In%filter_In [_ Hy]%list_elem_of_In%filter_In.
    cbn in *. apply String.eqb_eq in Hx, Hy. congruence.
  - intros key. rewrite <-Hin, list_elem_of_fmap. split.
    + intros ([s k] & -> & [Hr Hs]%list_elem_of_In%filter_In). apply String.eqb_eq in Hs. cbn in *. subst s.
      by apply list_elem_of_In.
    + intros Hr. exists (scope, key). split; [done|]. apply list_elem_of_In, filter_In.
      split; [by apply list_elem_of_In|]. cbn. apply String.eqb_refl.
Qed.

Lemma refs_read_back id refs db :
  refs_validate refs = true →
  (∀ s key, is_Some (t_injection_refs db !! (inst, id, s, key)) ↔ stored_ref refs (s, key)) →
  workspace_injection_refs inst id db =
  (Ok (mkRefs (sorted_selection (refs_organization refs)) (sorted_selection (refs_user refs))), db).
Proof.
  intros Hv Hstored. unfold refs_validate in Hv. cbn in Hv. bool_prop.
  unfold workspace_injection_refs. rewrite bind_run; cbn.
  pose proof (NoDup_ref_rows id db) as Hnd.
  assert (Hrows : ∀ s key, (s, key) ∈ ref_rows inst id db ↔ stored_ref refs (s, key)).
  { intros s key. by rewrite elem_of_ref_rows, <-Hstored. }
  rewrite bind_run. cbn. rewrite decode_rows_Ok; cbn.
  2:{ apply Forall_forall. intros [s k] [[E _]|[E _]]%Hrows; auto. }
  rewrite !bind_run. cbn.
  rewrite (decode_encode_scope (refs_organization refs)); [|done|].
  2:{ apply scope_keys; [done|by apply NoDup_encode_scope|]. intros key. rewrite Hrows. unfold stored_ref; cbn. naive_solver. }
  rewrite bind_run. cbn. rewrite (decode_encode_scope (refs_user refs)); [done|done|].
  apply scope_keys; [done|by apply NoDup_encode_scope|]. intros key. rewrite Hrows. unfold stored_ref; cbn. naive_solver.
Qed.
End Refs.

(** ** Correctness of creation *)
Section Correctness.
Context `{UuidText} `{TemplateYaml} `{SqlBackend} `{Aead} `{Base64Codec} `{RandomSource} (inst : string).

Lemma apply_resource_override_Ok command snapshot ratio s d :
  apply_resource_override command snapshot ratio = Ok (s, d) →
  s = overridden_spec command (snap_spec snapshot) ratio ∧ spec d = s ∧ document_validate d = Ok ().
Proof.
  unfold apply_resource_override. intros Hrun. inv_binds. simplify_eq/=.
  match goal with Hx : map_err _ (document_validate ?d) = Ok _ |- _ =>
    destruct (document_validate d) as [[]|] eqn:E; [|done] end. done.
Qed.

Lemma workspace_columns_Ok w d now row :
  workspace_columns inst w d now = Ok row → ws_generation w = 1 → ws_home_volume_binding w = None →
  ws_scratch_volume_binding w = None → ws_created_at w = now → ws_updated_at w = now →
  ws_short_id w = workspace_short_id_for (ws_id w) → spec d = ws_template w → document_validate d = Ok () →
  row_requests row w ∧ decode_workspace (ws_id w) row = Ok w ∧
  wr_installation_id row = inst ∧ wr_organization_id row = ws_organization_id w ∧
  wr_owner_id row = ws_owner_id w ∧ wr_state row = ws_state w ∧ wr_node_pool row = ws_node_pool w ∧
  wr_name row = ws_name w.
Proof.
  unfold workspace_columns, creation_as_i64. intros Hrun Hg Hh Hs Hc Hu Hid Hspec Hd. inv_binds.
  repeat match goal with Hx : i64_try_from _ = Some _ |- _ => apply guard_range_Some in Hx as [-> _] end.
  simplify_eq/=. split_and!; try done.
  destruct w; cbn in *; subst. unfold decode_workspace; cbn. rewrite Hd. cbn.
  unfold validate_for_workspace. by rewrite (bool_decide_eq_true_2 (workspace_short_id_for _ = _)) by done.
Qed.

Lemma insert_workspace_Ok w d now db u db' :
  insert_workspace inst w d now db = (Ok u, db') →
  ∃ row, workspace_columns inst w d now = Ok row ∧ insertable row db = true ∧
    t_workspaces db !! ws_id w = None ∧ db' = set_t_workspaces (<[ws_id w := row]> (t_workspaces db)) db.
Proof.
  unfold insert_workspace. intros Hrun. run_step Hrun. run_step Hrun. run_step Hrun.
  unfold insert_row in Hrun. destruct (t_workspaces db !! ws_id w) eqn:E; [done|].
  injection Hrun as <-. exists x. done.
Qed.

Lemma select_node_pool_Ok p requested db name db' :
  select_node_pool inst p requested db = (Ok name, db') →
  db' = db ∧ name = default (default_node_pool p) requested ∧ name ∈ allowed_node_pools p ∧
  is_Some (t_node_pools db !! (inst, name)).
Proof.
  unfold select_node_pool, selected_name. intros Hrun. run_step Hrun.
  destruct (bool_decide (_ ∈ _)) eqn:E; [|done]. injection Hx as <-. apply bool_decide_eq_true in E.
  run_step Hrun. injection Hrun as Hrun <-. split; [done|].
  destruct (t_node_pools db !! _) as [r|] eqn:Ep; [|done]; cbn in Hrun.
  destruct (np_enabled r); [|done]. injection Hrun as <-. by eauto.
Qed.

Lemma admit_image_Ok w db u db' :
  admit_image inst w db = (Ok u, db') → db' = db ∧ image_allowed inst (image (ws_template w)) db = true.
Proof. unfold admit_image. intros Hrun. run_step Hrun. injection Hrun as Hrun <-. by apply ensure_Ok in Hrun. Qed.

Definition fits (counts : WorkspaceRow → bool) (request : QuotaResources) (db : Db) (q : QuotaRow) : Prop :=
  sum_rows counts wr_cpu_millis db + q_cpu_millis request <= qr_cpu_millis q ∧
  sum_rows counts wr_memory_mib db + q_memory_mib request <= qr_memory_mib q ∧
  sum_rows counts wr_gpu_count db + q_gpu_count request <= qr_gpu_count q ∧
  sum_rows counts wr_disk_gib db + q_disk_gib request <= qr_disk_gib q.

Lemma admit_Ok w db u db' :
  admit_workspace inst w db = (Ok u, db') →
  db' = db ∧ image_allowed inst (image (ws_template w)) db = true ∧
  (∀ q, t_organization_quotas db !! (inst, ws_organization_id w) = Some q →
     fits (organization_counts inst (ws_organization_id w)) (workspace_request w) db q) ∧
  (∀ q, t_user_quotas db !! (inst, ws_owner_id w) = Some q →
     fits (owner_counts inst (ws_owner_id w)) (workspace_request w) db q).
Proof.
  unfold admit_workspace. intros Hrun. run_step Hrun. apply admit_image_Ok in Hx as [-> Hi].
  run_step Hrun. run_step Hrun. apply admit_counted_Ok in Hx as [-> Ho]. run_step Hrun.
  apply admit_counted_Ok in Hrun as [-> Hu]. done.
Qed.

(** What the command asks of the workspace. *)
Definition matches_command (command : CreateWorkspace) (w : Workspace) : Prop :=
  ws_organization_id w = cw_organization_id command ∧ ws_owner_id w = cw_owner_id command ∧
  ws_name w = trimmed (cw_name command) ∧ ws_template_id w = Some (cw_template_id command) ∧
  ws_state w = Provisioning ∧ ws_generation w = 1 ∧
  (∀ r, cw_resources command = Some r → resources (ws_template w) = r).

(** The tables a creation writes besides the workspace's row are not these. *)
Definition kept_tables (db : Db) :=
  (t_organization_quotas db, t_user_quotas db, (t_templates db, t_template_node_pools db, t_node_pools db)).

Record created (creation : WorkspaceCreation) (db : Db) (w : Workspace) (db' : Db) : Prop := {
  cr_command : matches_command (wc_command creation) w;
  cr_new : t_workspaces db !! ws_id w = None;
  cr_row : ∃ row, t_workspaces db' = <[ws_id w := row]> (t_workspaces db) ∧ insertable row db = true ∧
    decode_workspace (ws_id w) row = Ok w ∧ row_requests row w ∧
    wr_installation_id row = inst ∧ wr_organization_id row = ws_organization_id w ∧
    wr_owner_id row = ws_owner_id w ∧ wr_state row = ws_state w ∧ wr_node_pool row = ws_node_pool w ∧
    wr_name row = ws_name w;
  cr_kept : kept_tables db' = kept_tables db;
  cr_pool : is_Some (t_node_pools db !! (inst, ws_node_pool w));
  cr_image : image_allowed inst (image (ws_template w)) db = true;
  cr_organization q : t_organization_quotas db !! (inst, ws_organization_id w) = Some q →
    fits (organization_counts inst (ws_organization_id w)) (workspace_request w) db q;
  cr_owner q : t_user_quotas db !! (inst, ws_owner_id w) = Some q →
    fits (owner_counts inst (ws_owner_id w)) (workspace_request w) db q;
  cr_refs : refs_validate (wc_injection_refs creation) = true ∧
    ∀ k, is_Some (t_injection_refs db' !! k) ↔ is_Some (t_injection_refs db !! k) ∨
         k.1.1 = (inst, ws_id w) ∧ stored_ref (wc_injection_refs creation) (k.1.2, k.2);
  cr_job : ∃ job, t_jobs db !! job = None ∧ t_jobs db' !! job = Some (first_job inst w (wc_now creation));
}.

Lemma insert_injections_Ok w creation db u db' :
  insert_injections inst w creation db = (Ok u, db') →
  kept_tables db' = kept_tables db ∧ t_workspaces db' = t_workspaces db ∧ t_jobs db' = t_jobs db ∧
  refs_validate (wc_injection_refs creation) = true ∧
  ∀ k, is_Some (t_injection_refs db' !! k) ↔ is_Some (t_injection_refs db !! k) ∨
       k.1.1 = (inst, ws_id w) ∧ stored_ref (wc_injection_refs creation) (k.1.2, k.2).
Proof.
  unfold insert_injections. intros Hrun. run_step Hrun.
  pose proof (insert_refs_Ok _ _ _ _ _ _ _ Hx) as [Hv Hrefs].
  pose proof (use_frame t_injection_refs _ _ _ _ (inline_frames inst t_injection_refs _ _
    ltac:(done) ltac:(done) ltac:(done)) Hrun) as Er.
  apply (use_frame (λ db, (kept_tables db, t_workspaces db, t_jobs db))) in Hx; [|by apply insert_refs_frames].
  apply (use_frame (λ db, (kept_tables db, t_workspaces db, t_jobs db))) in Hrun; [|by apply inline_frames].
  cbv beta in Hx, Hrun. rewrite Hx in Hrun. pose proof (f_equal fst Hrun) as Hrun1. pose proof (f_equal snd Hrun) as Hj.
  pose proof (f_equal fst Hrun1) as Hk. pose proof (f_equal snd Hrun1) as Hw. cbn [fst snd] in *.
  split_and!; try done. intros k. by rewrite Er, Hrefs.
Qed.

Lemma create_Ok creation db w db' :
  create inst creation db = (Ok w, db') → created creation db w db'.
Proof.
  unfold create. intros Hrun. run_step Hrun. unfold resolve_template in Hx. run_step Hx. injection Hx as Hx <-.
  run_step Hrun. run_step Hrun. apply select_node_pool_Ok in Hx1 as (-> & _ & _ & Hpool).
  run_step Hrun. destruct x1 as [s d]. apply apply_resource_override_Ok in Hx1 as (Hs & Hspec & Hd).
  run_step Hrun. unfold build_workspace in Hx1. run_step Hx1. run_step Hx1. injection Hx1 as <- <-.
  run_step Hrun. apply admit_Ok in Hx1 as (-> & Himg & Horg & Hown).
  run_step Hrun. apply insert_workspace_Ok in Hx1 as (row & Hrow & Hins & Hnew & ->).
  run_step Hrun. apply insert_injections_Ok in Hx1 as (Hk & Hw & Hj & Hrefs).
  run_step Hrun. injection Hrun as <- <-.
  pose proof (enqueue_and_audit_job _ _ _ _ _ _ Hx1) as (job & Hjn & Hjs).
  pose proof (use_frame t_injection_refs _ _ _ _ (enqueue_and_audit_frames inst t_injection_refs _ _
    ltac:(done) ltac:(done) ltac:(done) ltac:(done)) Hx1) as Er.
  pose proof (use_frame t_workspaces _ _ _ _ (enqueue_and_audit_frames inst t_workspaces _ _
    ltac:(done) ltac:(done) ltac:(done) ltac:(done)) Hx1) as Ew.
  apply (use_frame kept_tables) in Hx1; [|by apply enqueue_and_audit_frames].
  apply workspace_columns_Ok in Hrow as (Hreq & Hdec & Hrow); try done.
  split; cbn [ws_id ws_node_pool ws_organization_id ws_owner_id ws_template] in *.
  - split_and!; try done. intros r Hr. cbn [ws_template]. rewrite Hs. cbn [overridden_spec resources]. by rewrite Hr.
  - done.
  - exists row. rewrite Ew, Hw. done.
  - rewrite Hx1, Hk. done.
  - done.
  - done.
  - exact Horg.
  - exact Hown.
  - split; [apply Hrefs|]. intros k. rewrite Er. apply Hrefs.
  - exists job. rewrite Hj in Hjn. done.
Qed.

Definition creation_of (command : CreateWorkspace) (options : WorkspaceCreationOptions) (ratio : Z) : WorkspaceCreation :=
  mkCreation command (co_node_pool options) (command_refs command) (co_inline options)
    (co_admitted_template_yaml options) ratio (co_allow_cluster_access options) (co_actor_user_id options)
    (co_now options).

Lemma create_workspace_inner_run command options db r db' :
  create_workspace_inner inst command options db = (r, db') →
  match r with
  | Ok w => ∃ ratio, created (creation_of command options ratio) db w db'
  | Err _ => same_tables db db'
  end.
Proof.
  unfold create_workspace_inner. rewrite bind_run; cbn. destruct (ensure _ _); [|by intros [= <- <-]].
  rewrite bind_run; cbn. destruct (ensure _ _); [|by intros [= <- <-]].
  rewrite bind_run.
  assert (Hratio : ∃ ratio, (match co_cpu_overcommit_ratio options with
    Some ratio => mret ratio | None => cpu_overcommit_ratio_setting inst end : DbM Z) db = (ratio, db)).
  { destruct (co_cpu_overcommit_ratio options); [by eexists|].
    unfold cpu_overcommit_ratio_setting, runtime_settings. rewrite !bind_run; cbn.
    destruct (t_runtime_settings db !! inst) as [row|]; [|by eexists].
    unfold lift. destruct (settings_from_row _ _); by eexists. }
  destruct Hratio as [[ratio|e] ->]; [|by intros [= <- <-]].
  rewrite bind_run; cbn. destruct (ensure _ _); [|by intros [= <- <-]]. intros Hrun.
  destruct r as [w|e]; [|by eapply transaction_Err].
  rewrite transaction_Ok in Hrun. exists ratio. by apply create_Ok.
Qed.

(** C19: a creation either changes no table or commits all of: a new row that reads
    back as the workspace returned, with the name, owner, organization, template
    and resources of the command, in state [provisioning] at generation 1; the
    references to injections, which read back as given with their keys sorted; and
    the first reconciliation job. Other workspaces keep their rows. *)
Theorem created_workspace_reads_back command options db r db' :
  (∀ k, is_Some (t_injection_refs db !! k) → is_Some (t_workspaces db !! k.1.1.2)) →
  create_workspace_inner inst command options db = (r, db') →
  match r with
  | Err _ => same_tables db db'
  | Ok w =>
      matches_command command w ∧ t_workspaces db !! ws_id w = None ∧
      get_workspace inst (ws_id w) db' = (Ok w, db') ∧
      (∀ id, id ≠ ws_id w → t_workspaces db' !! id = t_workspaces db !! id) ∧
      workspace_injection_refs inst (ws_id w) db' =
        (Ok (mkRefs (sorted_selection (cw_organization_injection_refs command))
               (sorted_selection (cw_user_injection_refs command))), db') ∧
      ∃ job, t_jobs db !! job = None ∧ t_jobs db' !! job = Some (first_job inst w (co_now options))
  end.
Proof.
  intros Hfk Hrun%create_workspace_inner_run. destruct r as [w|e]; [|done].
  destruct Hrun as [ratio [Hcmd Hnew (row & Hrows & _ & Hdec & _ & Hi & _) _ _ _ _ _ [Hv Hrefs] Hjob]].
  split_and!; try done.
  - unfold get_workspace. rewrite bind_run, select_workspace_run, Hrows, lookup_insert_eq, Hi, String.eqb_refl.
    unfold lift. by rewrite Hdec.
  - intros id Hid. by rewrite Hrows, lookup_insert_ne.
  - apply (refs_read_back inst (ws_id w) (command_refs command)); [done|]. intros s key. rewrite Hrefs. cbn. split.
    + intros [Hold|[_ ?]]; [|done]. apply Hfk in Hold. cbn in Hold. rewrite Hnew in Hold. by destruct Hold.
    + intros Hs. by right.
Qed.

(** Names are unique within an organization. *)
Definition names_unique (db : Db) : Prop :=
  ∀ a b ra rb, t_workspaces db !! a = Some ra → t_workspaces db !! b = Some rb →
    wr_installation_id ra = wr_installation_id rb → wr_organization_id ra = wr_organization_id rb →
    wr_name ra = wr_name rb → a = b.

Lemma insertable_names row db r id :
  insertable row db = true → t_workspaces db !! id = Some r → wr_installation_id r = wr_installation_id row →
  wr_organization_id r = wr_organization_id row → wr_name r ≠ wr_name row.
Proof.
  unfold insertable. intros Hins Hid Hi Ho Hn. bool_prop.
  match goal with Hf : forallb _ _ = true |- _ => apply (forallb_elem _ _ (id, r)) in Hf;
    [|by apply elem_of_map_to_list]; cbn in Hf end.
  unfold workspace_clashes in *. rewrite Hi, Ho, Hn, !String.eqb_refl, bool_decide_eq_true_2 in * by done.
  by destruct (String.eqb (wr_short_id r) _).
Qed.

Lemma created_names creation db w db' : created creation db w db' → names_unique db → names_unique db'.
Proof.
  intros [_ Hnew (row & Hrows & Hins & _) _ _ _ _ _ _ _] Hu a b ra rb. rewrite Hrows, !lookup_insert_Some.
  intros [[<- <-]|[Ha Hra]] [[<- <-]|[Hb Hrb]] Hi Ho Hn; [done| | |by eapply Hu].
  - by destruct (insertable_names _ _ _ _ Hins Hrb).
  - by destruct (insertable_names _ _ _ _ Hins Hra).
Qed.

Lemma created_catalog creation db w db' : created creation db w db' → catalog_wf inst db → catalog_wf inst db'.
Proof.
  intros [_ Hnew (row & Hrows & _ & _ & _ & Hi & _ & _ & _ & Hnp & _) Hk Hpool _ _ _ _ _] [Ht Hp Hw].
  injection Hk as _ _ E1 E2 E3. split; unfold pools_match; rewrite ?E1, ?E2, ?E3; [exact Ht|exact Hp|].
  intros id r. rewrite Hrows, lookup_insert_Some. intros [[<- <-]|[_ Hr]]; [|by apply (Hw id)].
  intros _ _. by rewrite Hnp.
Qed.

Lemma created_quotas creation db w db' :
  created creation db w db' →
  (∀ q, t_organization_quotas db' !! (inst, ws_organization_id w) = Some q →
     usage_within (organization_counts inst (ws_organization_id w)) q db') ∧
  (∀ q, t_user_quotas db' !! (inst, ws_owner_id w) = Some q → usage_within (owner_counts inst (ws_owner_id w)) q db').
Proof.
  intros [Hcmd Hnew (row & Hrows & _ & _ & Hreq & Hi & Ho & Hu & Hst & _) Hk _ _ Horg Hown _ _].
  destruct Hcmd as (_ & _ & _ & _ & Hprov & _). injection Hk as -> -> _ _ _.
  split; intros q Hq.
  - apply Horg in Hq. apply (usage_within_ext _ _ (set_t_workspaces (<[ws_id w := row]> (t_workspaces db)) db)); [done|].
    apply (admitted_within _ _ _ w); [done..| |exact Hq].
    unfold organization_counts. by rewrite Hi, Ho, Hst, Hprov, String.eqb_refl, bool_decide_eq_true_2.
  - apply Hown in Hq. apply (usage_within_ext _ _ (set_t_workspaces (<[ws_id w := row]> (t_workspaces db)) db)); [done|].
    apply (admitted_within _ _ _ w); [done..| |exact Hq].
    unfold owner_counts. by rewrite Hi, Hu, Hst, Hprov, String.eqb_refl, bool_decide_eq_true_2.
Qed.

Lemma created_quotas_respected creation db w db' :
  created creation db w db' → quotas_respected inst db → quotas_respected inst db'.
Proof.
  intros Hc [Horg Hown]. destruct (created_quotas _ _ _ _ Hc) as [Hqo Hqu].
  destruct Hc as [_ Hnew (row & Hrows & _ & _ & _ & Hi & Ho & Hu & _) Hk _ _ _ _ _ _].
  injection Hk as E1 E2 _ _ _.
  assert (Hother : ∀ counts q, counts row = false → usage_within counts q db → usage_within counts q db').
  { intros counts q Hcount Hle.
    apply (usage_within_ext _ _ (set_t_workspaces (<[ws_id w := row]> (t_workspaces db)) db)); [done|].
    by apply unaffected_within. }
  split; intros k q Hq.
  - destruct (decide (k = ws_organization_id w)) as [->|Hne]; [by apply Hqo|]. rewrite E1 in Hq.
    apply Hother; [|by apply Horg]. unfold organization_counts. rewrite Ho, (bool_decide_eq_false_2 (_ = k)) by congruence.
    by rewrite andb_false_r.
  - destruct (decide (k = ws_owner_id w)) as [->|Hne]; [by apply Hqu|]. rewrite E2 in Hq.
    apply Hother; [|by apply Hown]. unfold owner_counts. rewrite Hu, (bool_decide_eq_false_2 (_ = k)) by congruence.
    by rewrite andb_false_r.
Qed.

(** C20: whatever it returns, a creation preserves that every usage is within its
    quota, that names are unique in an organization and that the catalogue is well
    formed; and after a successful one the organization and the owner are within
    their quotas, the new workspace included, even if they were not before. *)
Theorem creation_keeps_quotas command options db r db' :
  create_workspace_inner inst command options db = (r, db') →
  (quotas_respected inst db → quotas_respected inst db') ∧ (names_unique db → names_unique db') ∧
  (catalog_wf inst db → catalog_wf inst db') ∧
  ∀ w, r = Ok w →
    (∀ q, t_organization_quotas db' !! (inst, ws_organization_id w) = Some q →
       usage_within (organization_counts inst (ws_organization_id w)) q db') ∧
    (∀ q, t_user_quotas db' !! (inst, ws_owner_id w) = Some q → usage_within (owner_counts inst (ws_owner_id w)) q db').
Proof.
  intros Hrun%create_workspace_inner_run. destruct r as [w|e].
  - destruct Hrun as [ratio Hc]. split_and!.
    + by eapply created_quotas_respected.
    + by eapply created_names.
    + by eapply created_catalog.
    + intros ? [= <-]. by eapply created_quotas.
  - pose proof (same_tables_view t_workspaces _ _ ltac:(done) Hrun) as Ew.
    pose proof (same_tables_view kept_tables _ _ ltac:(done) Hrun) as Ek. injection Ek as E1 E2 E3 E4 E5. split_and!.
    + intros [Ho Hu]. split; [rewrite E1|rewrite E2]; intros k q Hq; (eapply usage_within_ext; [exact Ew|]); auto.
    + unfold names_unique. by rewrite Ew.
    + apply catalog_wf_ext. unfold catalog_tables. congruence.
    + done.
Qed.
End Correctness.

(** ** Witnesses *)
Module CreationSample.
Definition command : CreateWorkspace :=
  mkCreateWorkspace 2 3 "  dev box " 1000 None (Some 20) false (Some ["b"; "a"]) None.
Definition options : WorkspaceCreationOptions := mkCreationOptions None None None None false 3 50.
Definition user : UserRow := mkUserRow "inst" "Ada" "hash" false false 1 None.
Definition db : Db :=
  set_t_image_policies {[ ("inst", "registry/image:1") := mkImagePolicyRow 1 true 0 0 ]}
    (set_t_organizations {[ 2%N := mkOrganizationRow "inst" "Team" 1 ]}
      (set_t_users {[ 3%N := user ]}
        (set_t_organization_quotas {[ ("inst", 2%N) := mkQuotaRow 4000 8192 0 40 0 0 ]} CatalogSample.db'))).
#[export] Instance backend : SqlBackend := Postgres.
Definition run := @create_workspace_inner decimal_uuid_text CatalogSample.yaml backend CryptoSample.aead
  CryptoSample.base64 CryptoSample.random "inst" command options db.
End CreationSample.
Import (hints) CreationSample.

Lemma created_workspace_reads_back_witness :
  ∃ w db', CreationSample.run = (Ok w, db') ∧ ws_name w = "dev box" ∧
    @get_workspace decimal_uuid_text "inst" (ws_id w) db' = (Ok w, db') ∧
    workspace_injection_refs "inst" (ws_id w) db' = (Ok (mkRefs (Some ["a"; "b"]) None), db').
Proof.
  destruct CreationSample.run as [r db'] eqn:E.
  assert (∃ w, r = Ok w) as [w ->] by (apply (f_equal fst) in E; vm_compute in E; eauto).
  edestruct (@created_workspace_reads_back decimal_uuid_text CatalogSample.yaml CreationSample.backend
    CryptoSample.aead CryptoSample.base64 CryptoSample.random "inst" CreationSample.command CreationSample.options
    CreationSample.db (Ok w) db') as (Hc & _ & Hg & _ & Hr & _); [|exact E|].
  - intros k Hk. vm_compute in Hk. by destruct Hk.
  - exists w, db'. split_and!; [done| |exact Hg|exact Hr]. destruct Hc as (_ & _ & -> & _). reflexivity.
Defined.

Lemma creation_keeps_quotas_witness :
  ∃ w db', CreationSample.run = (Ok w, db') ∧
    usage_within (organization_counts "inst" 2) (mkQuotaRow 4000 8192 0 40 0 0) db'.
Proof.
  destruct CreationSample.run as [r db'] eqn:E.
  assert (∃ w, r = Ok w ∧ ws_organization_id w = 2%N) as (w & -> & Hw)
    by (apply (f_equal fst) in E; vm_compute in E; eauto).
  exists w, db'. split; [done|].
  destruct (@creation_keeps_quotas decimal_uuid_text CatalogSample.yaml CreationSample.backend
    CryptoSample.aead CryptoSample.base64 CryptoSample.random "inst" CreationSample.command CreationSample.options
    CreationSample.db (Ok w) db' E) as (_ & _ & _ & Hq).
  destruct (Hq w eq_refl) as [Ho _]. rewrite Hw in Ho. apply Ho.
  apply (f_equal snd) in E. cbn [snd] in E. rewrite <-E. vm_compute. reflexivity.
Defined.
