(* ===== verification/Usage.v ===== *)
(** * Usage of an organization ([src/storage/workspace_store/summary.rs])

    Two queries summarise the workspaces of an organization: one groups by state
    and adds the groups up in the process, the other, part of a page of
    workspaces, lets the database add everything up. *)
From S2P Require Import Prelude Text Json Quota Auth Templates Workspaces Errors ShrinkOperation Database Search Crypto Catalog InjectionStore Creation.

Record WorkspaceUsageSummary := mkUsageSummary {
  sm_total_count : Z;
  sm_requested : QuotaResources;
  sm_state_counts : gmap string Z;
  sm_active_count : Z;
}.

Record WorkspacePageSummary := mkPageSummary {
  ps_total_count : Z;
  ps_requested : QuotaResources;
  ps_state_counts : gmap string Z;
}.

(** A row of [usage_states_sql]: a state, [COUNT( * )] and the sums of the columns. *)
Record UsageRow := mkUsageRow {
  ur_state : WorkspaceState;
  ur_count : Z;
  ur_sums : QuotaResources;
}.

(** The YAML text of a stored snapshot. *)
Class SnapshotText := snapshot_text : WorkspaceTemplateDocument → string.

Definition zero_quota : QuotaResources := mkQuotaResources 0 0 0 0 0.

Definition row_columns (r : WorkspaceRow) : QuotaResources :=
  mkQuotaResources (wr_cpu_millis r) (wr_memory_mib r) (wr_gpu_count r) (wr_disk_gib r) (wr_temporary_storage_gib r).

Definition without_temporary (q : QuotaResources) : QuotaResources :=
  mkQuotaResources (q_cpu_millis q) (q_memory_mib q) (q_gpu_count q) (q_disk_gib q) 0.

(** [COALESCE(SUM(...), 0)] of the five columns. *)
Definition requested_total (columns : WorkspaceRow → QuotaResources) (l : list WorkspaceRow) : QuotaResources :=
  foldr (λ r acc, quota_add (columns r) acc) zero_quota l.

Definition matching (p : WorkspaceRow → bool) (db : Db) : list WorkspaceRow :=
  List.filter p (map_to_list (t_workspaces db)).*2.

Definition usage_state_has_live_runtime (state : string) : bool :=
  bool_decide (state ∈ ["provisioning"; "ready"; "starting"; "restarting"; "stopping"; "deleting"]).

(** A sum that does not fit the column type is an error of the database. *)
Definition sum_columns (q : QuotaResources) : result StorageError.t QuotaResources :=
  let column z := ok_or (i64_try_from z) StorageError.Database in
  cpu ← column (q_cpu_millis q);
  memory ← column (q_memory_mib q);
  gpu ← column (q_gpu_count q);
  disk ← column (q_disk_gib q);
  temporary ← column (q_temporary_storage_gib q);
  Ok (mkQuotaResources cpu memory gpu disk temporary).

(** ** The grouped query *)

(** [usage_filter_sql]. *)
Definition usage_filter (inst : string) (organization_id : Uuid) (allowed : option (list Uuid)) (r : WorkspaceRow) : bool :=
  organization_counts inst organization_id r
  && is_none_or allowed (λ ids, is_some_and (wr_template_id r) (λ t, bool_decide (t ∈ ids))).

Definition all_states : list WorkspaceState :=
  [Deleted; Deleting; Failed; Provisioning; Ready; Restarting; Starting; Stopped; Stopping].

Definition in_state (s : WorkspaceState) (r : WorkspaceRow) : bool := bool_decide (wr_state r = s).

(** [GROUP BY state]: one group per state that occurs. *)
Definition groups (l : list WorkspaceRow) : list (WorkspaceState * list WorkspaceRow) :=
  List.filter (λ g, negb (bool_decide (g.2 = []))) ((λ s, (s, List.filter (in_state s) l)) <$> all_states).

#[global] Arguments groups : simpl never.

(** [usage_states_sql]. *)
Fixpoint usage_rows (gs : list (WorkspaceState * list WorkspaceRow)) : result StorageError.t (list UsageRow) :=
  match gs with
  | [] => Ok []
  | (s, l) :: gs' =>
      sums ← sum_columns (requested_total row_columns l);
      rest ← usage_rows gs';
      Ok (mkUsageRow s (Z.of_nat (length l)) sums :: rest)
  end.

Definition read_u64 (z : Z) : result StorageError.t Z := ok_or (u64_try_from z) StorageError.InvalidWorkspace.
Definition read_u32 (z : Z) : result StorageError.t Z := ok_or (u32_try_from z) StorageError.InvalidWorkspace.

(** The body of the loop of [decode_usage_summary]. *)
Definition add_usage (summary : WorkspaceUsageSummary) (row : UsageRow) : result StorageError.t WorkspaceUsageSummary :=
  let active := usage_state_has_live_runtime (state_as_str (ur_state row)) in
  let sums := ur_sums row in
  count ← read_u64 (ur_count row);
  cpu ← read_u64 (q_cpu_millis sums);
  memory ← read_u64 (q_memory_mib sums);
  gpu ← read_u32 (q_gpu_count sums);
  disk ← read_u64 (q_disk_gib sums);
  temporary ← (if active then read_u64 (q_temporary_storage_gib sums) else Ok 0);
  total_count ← ok_or (checked_add_u64 (sm_total_count summary) count) StorageError.InvalidWorkspace;
  requested ← map_err (λ _, StorageError.InvalidWorkspace)
                (quota_checked_add (sm_requested summary) (mkQuotaResources cpu memory gpu disk temporary));
  active_count ← (if active then ok_or (checked_add_u64 (sm_active_count summary) count) StorageError.InvalidWorkspace
                  else Ok (sm_active_count summary));
  Ok (mkUsageSummary total_count requested (<[state_as_str (ur_state row) := count]> (sm_state_counts summary)) active_count).

Fixpoint decode_usage_summary (summary : WorkspaceUsageSummary) (rows : list UsageRow)
    : result StorageError.t WorkspaceUsageSummary :=
  match rows with
  | [] => Ok summary
  | row :: rows' => summary ← add_usage summary row; decode_usage_summary summary rows'
  end.

Definition default_summary : WorkspaceUsageSummary := mkUsageSummary 0 zero_quota ∅ 0.

Definition workspace_usage_summary_for_templates (inst : string) (organization_id : Uuid) (allowed : option (list Uuid))
    : DbM WorkspaceUsageSummary :=
  l ← reads (matching (usage_filter inst organization_id allowed));
  rows ← lift (usage_rows (groups l));
  lift (decode_usage_summary default_summary rows).

Definition workspace_usage_summary (inst : string) (organization_id : Uuid) (allowed : option (list Uuid))
    : DbM WorkspaceUsageSummary :=
  match allowed with
  | Some [] => mret default_summary
  | _ => workspace_usage_summary_for_templates inst organization_id allowed
  end.

(** ** The query of a page *)
Section PageSummary.
Context `{SqlBackend} `{TextCase} `{SnapshotText}.

(** [workspace_filter_sql]; the [image] column is a copy of the snapshot's. *)
Definition workspace_filter (inst : string) (organization_id : Uuid) (search : list Z) (r : WorkspaceRow) : bool :=
  organization_counts inst organization_id r
  && matches_search search [wr_name r; wr_short_id r; state_as_str (wr_state r); image (spec (wr_snapshot r));
                            snapshot_text (wr_snapshot r)].

(** The temporary storage counts while a runtime can hold it: the [CASE] of the
    statements, which name the states again. *)
Definition live_columns (r : WorkspaceRow) : QuotaResources :=
  if bool_decide (state_as_str (wr_state r) ∈ ["provisioning"; "ready"; "starting"; "restarting"; "stopping"; "deleting"])
  then row_columns r else without_temporary (row_columns r).

Definition decode_summary (count : Z) (sums : QuotaResources) : result StorageError.t (Z * QuotaResources) :=
  count ← read_u64 count;
  cpu ← read_u64 (q_cpu_millis sums);
  memory ← read_u64 (q_memory_mib sums);
  gpu ← read_u32 (q_gpu_count sums);
  disk ← read_u64 (q_disk_gib sums);
  temporary ← read_u64 (q_temporary_storage_gib sums);
  Ok (count, mkQuotaResources cpu memory gpu disk temporary).

Fixpoint decode_state_counts (m : gmap string Z) (gs : list (WorkspaceState * list WorkspaceRow))
    : result StorageError.t (gmap string Z) :=
  match gs with
  | [] => Ok m
  | (s, l) :: gs' =>
      count ← read_u64 (Z.of_nat (length l));
      decode_state_counts (<[state_as_str s := count]> m) gs'
  end.

Definition workspace_page_summary (inst : string) (organization_id : Uuid) (search : list Z) : DbM WorkspacePageSummary :=
  l ← reads (matching (workspace_filter inst organization_id search));
  sums ← lift (sum_columns (requested_total live_columns l));
  aggregate ← lift (decode_summary (Z.of_nat (length l)) sums);
  l ← reads (matching (workspace_filter inst organization_id search));
  state_counts ← lift (decode_state_counts ∅ (groups l));
  mret (mkPageSummary aggregate.1 aggregate.2 state_counts).
End PageSummary.

(** ** Sums over groups *)
Definition weigh (f : WorkspaceRow → Z) (l : list WorkspaceRow) : Z := foldr (λ r acc, f r + acc) 0 l.
Definition weigh_groups (f : WorkspaceRow → Z) (gs : list (WorkspaceState * list WorkspaceRow)) : Z :=
  foldr (λ g acc, weigh f g.2 + acc) 0 gs.

Lemma total_weigh c l :
  requested_total c l = mkQuotaResources (weigh (λ r, q_cpu_millis (c r)) l) (weigh (λ r, q_memory_mib (c r)) l)
                (weigh (λ r, q_gpu_count (c r)) l) (weigh (λ r, q_disk_gib (c r)) l)
                (weigh (λ r, q_temporary_storage_gib (c r)) l).
Proof.
  induction l as [|r l IH]; [done|]. change (requested_total c (r :: l)) with (quota_add (c r) (requested_total c l)). by rewrite IH.
Qed.

Lemma length_weigh (l : list WorkspaceRow) : Z.of_nat (length l) = weigh (λ _, 1) l.
Proof. induction l as [|r l IH]; cbn [length weigh foldr]; [done|]. fold (weigh (λ _, 1) l). lia. Qed.

Lemma weigh_ext f g l : (∀ r, r ∈ l → f r = g r) → weigh f l = weigh g l.
Proof.
  induction l as [|r l IH]; [done|]; intros E.
  change (f r + weigh f l = g r + weigh g l). rewrite E, IH; [done| |left]. intros; apply E; by right.
Qed.

Lemma weigh_nonneg f l : (∀ r, r ∈ l → 0 <= f r) → 0 <= weigh f l.
Proof.
  induction l as [|r l IH]; intros E; cbn; [done|]. fold (weigh f l).
  specialize (E r ltac:(left)) as Hr. specialize (IH ltac:(intros; apply E; by right)). lia.
Qed.

Lemma weigh_zero l : weigh (λ _, 0) l = 0.
Proof. induction l as [|r l IH]; [done|]. change (0 + weigh (λ _, 0) l = 0). by rewrite IH. Qed.

Lemma weigh_one_state f r : weigh_groups f ((λ s, (s, List.filter (in_state s) [r])) <$> all_states) = f r.
Proof.
  unfold weigh_groups, in_state. cbn [fmap list_fmap all_states foldr snd List.filter].
  destruct (wr_state r); repeat case_bool_decide; try congruence; cbn; lia.
Qed.

Lemma weigh_filter_cons f p r l :
  weigh f (List.filter p (r :: l)) = weigh f (List.filter p [r]) + weigh f (List.filter p l).
Proof. cbn. destruct (p r); cbn; [|done]. fold (weigh f (List.filter p l)). lia. Qed.

Lemma weigh_states f l : weigh_groups f ((λ s, (s, List.filter (in_state s) l)) <$> all_states) = weigh f l.
Proof.
  induction l as [|r l IH]; [done|]. change (weigh f (r :: l)) with (f r + weigh f l).
  rewrite <-IH, <-(weigh_one_state f r). generalize all_states. intros ss. clear IH.
  induction ss as [|s ss IHs]; [done|]. unfold weigh_groups in *. cbn [fmap list_fmap foldr snd].
  rewrite weigh_filter_cons, IHs. lia.
Qed.

(** Grouping by state loses no row and counts none twice. *)
Lemma weigh_groups_eq f l : weigh_groups f (groups l) = weigh f l.
Proof.
  rewrite <-weigh_states. unfold groups. generalize ((λ s, (s, List.filter (in_state s) l)) <$> all_states).
  intros gs. induction gs as [|[s k] gs IH]; [done|]. unfold weigh_groups in *. cbn [List.filter].
  destruct (decide (k = [])) as [->|Hne].
  - rewrite bool_decide_eq_true_2 by done. cbn. by rewrite IH.
  - rewrite bool_decide_eq_false_2 by done. cbn. by rewrite IH.
Qed.

Lemma groups_rows l s k : (s, k) ∈ groups l → k = List.filter (in_state s) l.
Proof.
  unfold groups. rewrite list_elem_of_In, filter_In, <-list_elem_of_In, list_elem_of_fmap. by intros [(s' & [= -> ->] & _) _].
Qed.

(** ** When the totals fit their columns *)
Definition bounded (q : QuotaResources) : Prop :=
  0 <= q_cpu_millis q <= i64_max ∧ 0 <= q_memory_mib q <= i64_max ∧ 0 <= q_gpu_count q <= u32_max ∧
  0 <= q_disk_gib q <= i64_max ∧ 0 <= q_temporary_storage_gib q <= i64_max.

Record usage_fits (l : list WorkspaceRow) : Prop := {
  uf_rows : ∀ r, r ∈ l → bounded (row_columns r);
  uf_total : bounded (requested_total row_columns l);
  uf_count : Z.of_nat (length l) <= i64_max;
}.

Lemma sum_columns_bounded q : bounded q → sum_columns q = Ok q.
Proof.
  intros (?&?&?&?&?). unfold sum_columns, i64_try_from, guard_range, in_i64.
  repeat (rewrite (proj2 (andb_true_iff _ _)); [cbn|split; apply Z.leb_le; unfold i64_min, i64_max, u32_max in *; lia]).
  by destruct q.
Qed.

Lemma read_u64_bounded z : 0 <= z <= i64_max → read_u64 z = Ok z.
Proof. intros. apply ok_or_Ok, guard_range_Some. split; [done|]. unfold in_u64, u64_max, i64_max in *. bool_prop. lia. Qed.

Lemma read_u32_bounded z : 0 <= z <= u32_max → read_u32 z = Ok z.
Proof. intros. apply ok_or_Ok, guard_range_Some. split; [done|]. unfold in_u32, u32_max in *. bool_prop. lia. Qed.

(** ** The two summaries agree *)
(** A workspace holds temporary storage unless it is stopped, failed or deleted. *)
Definition holds_runtime (s : WorkspaceState) : bool := negb (bool_decide (s ∈ [Stopped; Failed; Deleted])).
Definition live (r : WorkspaceRow) : bool := holds_runtime (wr_state r).
Definition runtime_columns (r : WorkspaceRow) : QuotaResources :=
  if holds_runtime (wr_state r) then row_columns r else without_temporary (row_columns r).

(** The function and the statements name the same states. *)
Lemma usage_state_holds_runtime s : usage_state_has_live_runtime (state_as_str s) = holds_runtime s.
Proof. by destruct s. Qed.
Lemma requested_live `{SqlBackend} `{TextCase} `{SnapshotText} l : requested_total live_columns l = requested_total runtime_columns l.
Proof.
  induction l as [|r l IH]; [done|]. cbn [requested_total foldr] in *. unfold requested_total in IH. rewrite IH.
  f_equal. unfold live_columns, runtime_columns. by destruct (wr_state r).
Qed.

Definition live_weight (r : WorkspaceRow) : Z := if live r then 1 else 0.

Lemma in_state_rows s l r : r ∈ List.filter (in_state s) l → wr_state r = s ∧ r ∈ l.
Proof.
  rewrite list_elem_of_In, filter_In, <-list_elem_of_In. unfold in_state. intros [? E%bool_decide_eq_true]. done.
Qed.

(** In one state, the temporary storage counts for all rows or for none. *)
Lemma total_live_state s l :
  (∀ r, r ∈ l → wr_state r = s) →
  requested_total runtime_columns l = if holds_runtime s then requested_total row_columns l else without_temporary (requested_total row_columns l).
Proof.
  intros Hs. rewrite !total_weigh. unfold without_temporary; cbn.
  assert (E : ∀ f, weigh (λ r, f (runtime_columns r)) l =
    weigh (λ r, f (if holds_runtime s then row_columns r else without_temporary (row_columns r))) l).
  { intros f. apply weigh_ext. intros r Hr. unfold runtime_columns. by rewrite (Hs r Hr). }
  rewrite !E. destruct (holds_runtime s); [done|]. cbn. f_equal. apply weigh_zero.
Qed.

(** Adding up: one group. *)
Lemma add_usage_bounded q0 t0 a0 m s l :
  (∀ r, r ∈ l → wr_state r = s) → bounded (requested_total row_columns l) → Z.of_nat (length l) <= i64_max →
  0 <= t0 → t0 + Z.of_nat (length l) <= i64_max → 0 <= a0 <= t0 →
  quota_wf q0 → quota_wf (quota_add q0 (requested_total runtime_columns l)) →
  add_usage (mkUsageSummary t0 q0 m a0) (mkUsageRow s (Z.of_nat (length l)) (requested_total row_columns l)) =
  Ok (mkUsageSummary (t0 + Z.of_nat (length l)) (quota_add q0 (requested_total runtime_columns l))
        (<[state_as_str s := Z.of_nat (length l)]> m) (a0 + weigh live_weight l)).
Proof.
  intros Hs Hb Hlen Ht Htl Ha Hq Hq'. pose proof Hb as (?&?&?&?&?).
  assert (Hlive : weigh live_weight l = if holds_runtime s then Z.of_nat (length l) else 0).
  { rewrite (weigh_ext _ (λ _, if holds_runtime s then 1 else 0)).
    - destruct (holds_runtime s); [by rewrite length_weigh|]. apply weigh_zero.
    - intros r Hr. unfold live_weight, live. by rewrite (Hs r Hr). }
  assert (Hadd : quota_checked_add q0 (requested_total runtime_columns l) = Ok (quota_add q0 (requested_total runtime_columns l))).
  { apply quota_checked_add_spec; [done| |done]. rewrite (total_live_state s l Hs). unfold bounded, quota_wf in *.
    destruct (holds_runtime s); cbn; unfold i64_max, u64_max, u32_max in *; lia. }
  rewrite Hlive. rewrite (total_live_state s l Hs) in Hadd |- *. unfold add_usage. cbn [ur_state ur_count ur_sums sm_total_count sm_requested sm_state_counts sm_active_count].
  rewrite usage_state_holds_runtime.
  rewrite !read_u64_bounded, read_u32_bounded by (unfold i64_max in *; lia). cbn.
  assert (Ht' : checked_add_u64 t0 (Z.of_nat (length l)) = Some (t0 + Z.of_nat (length l)))
    by (apply checked_add_u64_Some; unfold i64_max, u64_max in *; lia).
  rewrite Ht'. cbn. destruct (holds_runtime s); cbn.
  - destruct (requested_total row_columns l) as [c me g d te] eqn:Et. cbn in *. rewrite Hadd. cbn.
    assert (Ha' : checked_add_u64 a0 (Z.of_nat (length l)) = Some (a0 + Z.of_nat (length l)))
      by (apply checked_add_u64_Some; unfold i64_max, u64_max in *; lia). rewrite Ha'. done.
  - destruct (requested_total row_columns l) as [c me g d te] eqn:Et. unfold without_temporary in Hadd. cbn in *. rewrite Hadd. cbn.
    by rewrite Z.add_0_r.
Qed.

Definition group_total (c : WorkspaceRow → QuotaResources) (gs : list (WorkspaceState * list WorkspaceRow)) : QuotaResources :=
  foldr (λ g acc, quota_add (requested_total c g.2) acc) zero_quota gs.

Lemma group_total_weigh c gs :
  group_total c gs =
  mkQuotaResources (weigh_groups (λ r, q_cpu_millis (c r)) gs) (weigh_groups (λ r, q_memory_mib (c r)) gs)
    (weigh_groups (λ r, q_gpu_count (c r)) gs) (weigh_groups (λ r, q_disk_gib (c r)) gs)
    (weigh_groups (λ r, q_temporary_storage_gib (c r)) gs).
Proof.
  induction gs as [|[s k] gs IH]; [done|]. change (group_total c ((s, k) :: gs)) with (quota_add (requested_total c k) (group_total c gs)).
  by rewrite IH, total_weigh.
Qed.

Lemma group_total_groups c l : group_total c (groups l) = requested_total c l.
Proof. rewrite group_total_weigh, total_weigh. by rewrite !weigh_groups_eq. Qed.

Lemma quota_add_assoc a b c : quota_add a (quota_add b c) = quota_add (quota_add a b) c.
Proof. unfold quota_add. cbn. by rewrite !Z.add_assoc. Qed.
Lemma quota_add_zero_r a : quota_add a zero_quota = a.
Proof. destruct a. unfold quota_add, zero_quota. cbn. by rewrite !Z.add_0_r. Qed.

Definition nonneg (q : QuotaResources) : Prop :=
  0 <= q_cpu_millis q ∧ 0 <= q_memory_mib q ∧ 0 <= q_gpu_count q ∧ 0 <= q_disk_gib q ∧ 0 <= q_temporary_storage_gib q.

Lemma nonneg_add a b : nonneg a → nonneg b → nonneg (quota_add a b).
Proof. unfold nonneg, quota_add; cbn. lia. Qed.
Lemma total_nonneg c l : (∀ r, r ∈ l → nonneg (c r)) → nonneg (requested_total c l).
Proof.
  induction l as [|r l IH]; intros E; [done|]. apply nonneg_add; [apply E; left|]. apply IH. intros; apply E; by right.
Qed.
Lemma runtime_columns_nonneg r : nonneg (row_columns r) → nonneg (runtime_columns r).
Proof. unfold runtime_columns, nonneg. destruct (holds_runtime _); cbn; lia. Qed.

(** A list of groups whose rows are in the group's state. *)
Definition grouped (gs : list (WorkspaceState * list WorkspaceRow)) : Prop :=
  ∀ s k r, (s, k) ∈ gs → r ∈ k → wr_state r = s ∧ nonneg (row_columns r).

Lemma grouped_nonneg gs c : grouped gs → (∀ r, nonneg (row_columns r) → nonneg (c r)) → nonneg (group_total c gs).
Proof.
  intros Hg Hc. induction gs as [|[s k] gs IH]; [done|]. apply nonneg_add.
  - apply total_nonneg. intros r Hr. apply Hc. by apply (Hg s k r ltac:(left)).
  - apply IH. intros s' k' r Hin. apply (Hg s' k' r). by right.
Qed.

Lemma weigh_groups_nonneg f gs : (∀ r, 0 <= f r) → 0 <= weigh_groups f gs.
Proof.
  intros Hf. induction gs as [|[s k] gs IH]; [done|]. change (0 <= weigh f k + weigh_groups f gs).
  pose proof (weigh_nonneg f k ltac:(auto)). lia.
Qed.

Lemma live_weight_bounds l : 0 <= weigh live_weight l <= Z.of_nat (length l).
Proof.
  rewrite length_weigh. induction l as [|r l IH]; [done|].
  change (0 <= live_weight r + weigh live_weight l <= 1 + weigh (λ _, 1) l).
  assert (0 <= live_weight r <= 1) by (unfold live_weight; destruct (live r); lia). lia.
Qed.

Lemma bounded_add_l a b : nonneg a → nonneg b → bounded (quota_add a b) → bounded a.
Proof. unfold nonneg, bounded, quota_add; cbn. lia. Qed.
Lemma bounded_add_r a b : nonneg a → nonneg b → bounded (quota_add a b) → bounded b.
Proof. unfold nonneg, bounded, quota_add; cbn. lia. Qed.
Lemma wf_add_l a b : nonneg a → nonneg b → quota_wf (quota_add a b) → quota_wf a.
Proof. unfold nonneg, quota_wf, quota_add; cbn. lia. Qed.

Definition insert_counts (m : gmap string Z) (gs : list (WorkspaceState * list WorkspaceRow)) : gmap string Z :=
  foldl (λ m g, <[state_as_str g.1 := Z.of_nat (length g.2)]> m) m gs.

(** Adding up: all groups. *)
Lemma decode_groups gs : ∀ q0 t0 a0 m,
  grouped gs → bounded (group_total row_columns gs) → 0 <= t0 → t0 + weigh_groups (λ _, 1) gs <= i64_max → 0 <= a0 <= t0 →
  nonneg q0 → quota_wf (quota_add q0 (group_total runtime_columns gs)) →
  ∃ rows, usage_rows gs = Ok rows ∧
    decode_usage_summary (mkUsageSummary t0 q0 m a0) rows =
    Ok (mkUsageSummary (t0 + weigh_groups (λ _, 1) gs) (quota_add q0 (group_total runtime_columns gs)) (insert_counts m gs)
          (a0 + weigh_groups live_weight gs)).
Proof.
  induction gs as [|[s k] gs IH]; intros q0 t0 a0 m Hg Hb Ht Htl Ha Hq0 Hq.
  { exists []. cbn. by rewrite !Z.add_0_r, quota_add_zero_r. }
  assert (Hg' : grouped gs) by (intros s' k' r Hin; apply (Hg s' k' r); by right).
  assert (Hk : nonneg (requested_total row_columns k)) by (apply total_nonneg; intros r Hr; by apply (Hg s k r ltac:(left))).
  assert (Hkl : nonneg (requested_total runtime_columns k)).
  { apply total_nonneg. intros r Hr. by apply runtime_columns_nonneg, (Hg s k r ltac:(left)). }
  pose proof (grouped_nonneg gs row_columns Hg' ltac:(done)) as Hr.
  pose proof (grouped_nonneg gs runtime_columns Hg' runtime_columns_nonneg) as Hrl.
  change (group_total row_columns ((s, k) :: gs)) with (quota_add (requested_total row_columns k) (group_total row_columns gs)) in Hb.
  change (group_total runtime_columns ((s, k) :: gs)) with (quota_add (requested_total runtime_columns k) (group_total runtime_columns gs)) in Hq |- *.
  change (weigh_groups (λ _, 1) ((s, k) :: gs)) with (weigh (λ _, 1) k + weigh_groups (λ _, 1) gs) in Htl |- *.
  change (weigh_groups live_weight ((s, k) :: gs)) with (weigh live_weight k + weigh_groups live_weight gs).
  rewrite quota_add_assoc in Hq |- *. rewrite <-length_weigh in Htl |- *.
  pose proof (weigh_groups_nonneg (λ _, 1) gs ltac:(lia)). 
  pose proof (live_weight_bounds k) as Hw.
  destruct (IH (quota_add q0 (requested_total runtime_columns k)) (t0 + Z.of_nat (length k)) (a0 + weigh live_weight k)
    (<[state_as_str s := Z.of_nat (length k)]> m)) as (rows & Hrows & Hdec);
    [done|exact (bounded_add_r _ _ Hk Hr Hb)|lia..|by apply nonneg_add|done|].
  exists (mkUsageRow s (Z.of_nat (length k)) (requested_total row_columns k) :: rows). cbn [usage_rows].
  apply bounded_add_l in Hb; [|done..]. rewrite (sum_columns_bounded _ Hb), Hrows. split; [done|].
  assert (Hwf : quota_wf (quota_add q0 (requested_total runtime_columns k))).
  { eapply wf_add_l; [| |exact Hq]; [by apply nonneg_add|done]. }
  cbn [decode_usage_summary]. rewrite add_usage_bounded; [|try done; try lia..].
  - etrans; [exact Hdec|]. by rewrite !Z.add_assoc.
  - intros r Hr'. by apply (Hg s k r ltac:(left)).
  - by apply (wf_add_l q0 (requested_total runtime_columns k)).
Qed.

Lemma decode_state_counts_groups gs : ∀ m,
  (∀ g, g ∈ gs → Z.of_nat (length g.2) <= i64_max) → decode_state_counts m gs = Ok (insert_counts m gs).
Proof.
  induction gs as [|[s k] gs IH]; intros m Hl; [done|]. cbn [decode_state_counts].
  rewrite read_u64_bounded by (specialize (Hl (s, k) ltac:(left)); cbn in *; lia).
  change (decode_state_counts (<[state_as_str s := Z.of_nat (length k)]> m) gs =
    Ok (insert_counts (<[state_as_str s := Z.of_nat (length k)]> m) gs)). apply IH. intros g Hg. apply Hl. by right.
Qed.

Lemma decode_summary_bounded count q :
  0 <= count <= i64_max → bounded q → decode_summary count q = Ok (count, q).
Proof.
  intros Hc (?&?&?&?&?). unfold decode_summary. rewrite !read_u64_bounded, read_u32_bounded by done. by destruct q.
Qed.

Lemma total_live_le l : (∀ r, r ∈ l → nonneg (row_columns r)) → bounded (requested_total row_columns l) → bounded (requested_total runtime_columns l).
Proof.
  intros Hn Hb. pose proof (total_nonneg runtime_columns l (λ r Hr, runtime_columns_nonneg r (Hn r Hr))) as Hl.
  enough (q_cpu_millis (requested_total runtime_columns l) = q_cpu_millis (requested_total row_columns l) ∧
    q_memory_mib (requested_total runtime_columns l) = q_memory_mib (requested_total row_columns l) ∧
    q_gpu_count (requested_total runtime_columns l) = q_gpu_count (requested_total row_columns l) ∧
    q_disk_gib (requested_total runtime_columns l) = q_disk_gib (requested_total row_columns l) ∧
    q_temporary_storage_gib (requested_total runtime_columns l) <= q_temporary_storage_gib (requested_total row_columns l))
    by (unfold bounded, nonneg in *; lia).
  clear Hb Hl. induction l as [|r l IH]; [done|].
  change (requested_total runtime_columns (r :: l)) with (quota_add (runtime_columns r) (requested_total runtime_columns l)).
  change (requested_total row_columns (r :: l)) with (quota_add (row_columns r) (requested_total row_columns l)).
  specialize (IH ltac:(intros; apply Hn; by right)). specialize (Hn r ltac:(left)).
  unfold runtime_columns at 1 3 5 7 9. unfold nonneg in Hn. destruct (holds_runtime (wr_state r)); cbn in *; lia.
Qed.

Lemma bounded_nonneg q : bounded q → nonneg q.
Proof. unfold bounded, nonneg. lia. Qed.

Lemma groups_grouped l : (∀ r, r ∈ l → bounded (row_columns r)) → grouped (groups l).
Proof.
  intros Hb s k r ->%groups_rows [Hs Hin]%in_state_rows. split; [done|]. by apply bounded_nonneg, Hb.
Qed.

Lemma groups_length l g : g ∈ groups l → (length g.2 <= length l)%nat.
Proof. destruct g as [s k]. intros ->%groups_rows. apply filter_length_le. Qed.

Lemma workspace_filter_all `{SqlBackend} `{TextCase} `{SnapshotText} inst org r :
  workspace_filter inst org [] r = usage_filter inst org None r.
Proof. unfold workspace_filter, usage_filter, matches_search. cbn. by rewrite !andb_true_r. Qed.

(** What the summary of an organization is about: all rows that are not deleted,
    the temporary storage of those with a live runtime, and the counts by state. *)
Definition summary_of (l : list WorkspaceRow) : WorkspaceUsageSummary :=
  mkUsageSummary (Z.of_nat (length l)) (requested_total runtime_columns l) (insert_counts ∅ (groups l)) (weigh live_weight l).

Lemma usage_summary_run inst org allowed db :
  usage_fits (matching (usage_filter inst org allowed) db) →
  workspace_usage_summary_for_templates inst org allowed db = (Ok (summary_of (matching (usage_filter inst org allowed) db)), db).
Proof.
  intros [Hrows Htot Hcount]. unfold workspace_usage_summary_for_templates. rewrite bind_run. cbn.
  set (l := matching _ db) in *. rewrite bind_run.
  destruct (decode_groups (groups l) zero_quota 0 0 ∅) as (rows & Hr & Hd).
  - by apply groups_grouped.
  - by rewrite group_total_groups.
  - done.
  - rewrite weigh_groups_eq, <-length_weigh. lia.
  - lia.
  - done.
  - rewrite group_total_groups. apply total_live_le in Htot; [|intros; by apply bounded_nonneg, Hrows].
    destruct (requested_total runtime_columns l). unfold bounded, quota_wf, i64_max, u64_max, u32_max in *. cbn in *. lia.
  - unfold lift. rewrite Hr. cbn. unfold default_summary. rewrite Hd.
    rewrite !weigh_groups_eq, <-length_weigh, group_total_groups. unfold summary_of.
    by destruct (requested_total runtime_columns l).
Qed.

(** C37: the two summaries of an organization agree: whenever the totals fit their
    columns, the one added up group by group in the process and the one added up
    by the database are both returned and are the same, namely the number of
    workspaces, what they request (temporary storage only where a runtime can be
    live) and the counts by state. *)
Theorem usage_summaries_agree `{SqlBackend} `{TextCase} `{SnapshotText} inst org db :
  let l := matching (usage_filter inst org None) db in
  usage_fits l →
  workspace_usage_summary inst org None db = (Ok (summary_of l), db) ∧
  workspace_page_summary inst org [] db =
    (Ok (mkPageSummary (sm_total_count (summary_of l)) (sm_requested (summary_of l)) (sm_state_counts (summary_of l))), db).
Proof.
  intros l Hfits. split; [by apply usage_summary_run|]. destruct Hfits as [Hrows Htot Hcount].
  unfold workspace_page_summary. rewrite bind_run. cbn -[requested_total sum_columns decode_summary decode_state_counts matching].
  replace (matching (workspace_filter inst org []) db) with l
    by (apply filter_ext; intros r; symmetry; apply workspace_filter_all).
  apply total_live_le in Htot; [|intros; by apply bounded_nonneg, Hrows].
  rewrite bind_run. unfold lift at 1. rewrite requested_live, (sum_columns_bounded _ Htot). rewrite bind_run. unfold lift at 1.
  rewrite decode_summary_bounded; [|lia|done]. rewrite bind_run. cbn -[requested_total decode_state_counts matching].
  replace (matching (workspace_filter inst org []) db) with l
    by (apply filter_ext; intros r; symmetry; apply workspace_filter_all).
  rewrite bind_run. unfold lift. rewrite decode_state_counts_groups; [done|].
  intros g Hg. etrans; [|exact Hcount]. by apply Nat2Z.inj_le, groups_length.
Qed.

(** The workspace of [CreationSample] and its summary. *)
Module UsageSample.
Definition db : Db := CreationSample.run.2.
Definition rows : list WorkspaceRow := Eval vm_compute in matching (usage_filter "inst" 2 None) db.
Lemma rows_eq : matching (usage_filter "inst" 2 None) db = rows.
Proof. vm_compute. reflexivity. Qed.
Definition text_case : TextCase := {| to_lowercase := map ascii_lower; postgres_lower := map ascii_lower; postgres_fold := ascii_lower |}.
Lemma fits : usage_fits (matching (usage_filter "inst" 2 None) db).
Proof.
  rewrite rows_eq. split.
  - intros r Hr. unfold rows in Hr. apply list_elem_of_singleton in Hr as ->. vm_compute. repeat split; congruence.
  - vm_compute. repeat split; congruence.
  - vm_compute. congruence.
Qed.
End UsageSample.

Lemma usage_summaries_agree_witness :
  ∃ s, workspace_usage_summary "inst" 2 None UsageSample.db = (Ok s, UsageSample.db) ∧ sm_total_count s = 1 ∧
    @workspace_page_summary Sqlite UsageSample.text_case (λ _, "") "inst" 2 [] UsageSample.db =
      (Ok (mkPageSummary (sm_total_count s) (sm_requested s) (sm_state_counts s)), UsageSample.db).
Proof.
  destruct (@usage_summaries_agree Sqlite UsageSample.text_case (λ _, "") "inst" 2 UsageSample.db UsageSample.fits) as [H1 H2].
  eexists. split; [exact H1|]. split; [|exact H2]. rewrite UsageSample.rows_eq. reflexivity.
Defined.
