(* ===== verification/WorkspaceUpdates.v ===== *)
(** * Updates of a stopped workspace ([src/storage/workspace_cpu_overcommit.rs],
    [workspace_home_capacity.rs], [workspace_home_pvc.rs],
    [workspace_scratch_resize.rs], [workspace_image_update.rs],
    [workspace_placement_update.rs])

    Six operations change one aspect of a workspace. They share one shape: lock
    and decode the row, refuse while storage is being shrunk, require the state
    and the generation the caller saw, change the stored template, write the row
    with a compare-and-set on state and generation, then queue a reconciliation
    and record what was done. [run_update] is that shape; an [Update] supplies
    what each file adds. *)
From S2P Require Import Prelude Text Json Quota Auth Templates Workspaces Errors ShrinkOperation Database WorkspaceStore JobStore Events ShrinkStore Catalog Creation.

(** ** Template changes *)
Definition set_spec (change : WorkspaceTemplateSpec → WorkspaceTemplateSpec) (d : WorkspaceTemplateDocument)
    : WorkspaceTemplateDocument :=
  mkDocument (api_version d) (kind d) (metadata_name d) (change (spec d)).

Definition rebuild_spec (s : WorkspaceTemplateSpec) (img : string) (disk temporary : Z) (ratio : option Z)
    (p : WorkspacePlacement) : WorkspaceTemplateSpec :=
  {| image := img; access_mode := access_mode s;
     resources := mkResources (cpu_millis (resources s)) (memory_mib (resources s)) (gpu_count (resources s)) disk;
     pod_requests := pod_requests s; cpu_overcommit_ratio := ratio; workspace_user := workspace_user s;
     workspace_home := workspace_home s; buildkit := buildkit s;
     storage_policy := mkStoragePolicy temporary (use_longhorn (storage_policy s));
     cluster_access := cluster_access s; egress_policy := egress_policy s;
     runtime_class_name := runtime_class_name s; placement := p; desktop := desktop s |}.

Definition with_ratio (ratio : Z) (s : WorkspaceTemplateSpec) : WorkspaceTemplateSpec :=
  rebuild_spec s (image s) (disk_gib (resources s)) (temporary_storage_gib (storage_policy s)) (Some ratio) (placement s).
Definition with_disk (disk : Z) (s : WorkspaceTemplateSpec) : WorkspaceTemplateSpec :=
  rebuild_spec s (image s) disk (temporary_storage_gib (storage_policy s)) (cpu_overcommit_ratio s) (placement s).
Definition with_temporary (temporary : Z) (s : WorkspaceTemplateSpec) : WorkspaceTemplateSpec :=
  rebuild_spec s (image s) (disk_gib (resources s)) temporary (cpu_overcommit_ratio s) (placement s).
Definition with_image (img : string) (s : WorkspaceTemplateSpec) : WorkspaceTemplateSpec :=
  rebuild_spec s img (disk_gib (resources s)) (temporary_storage_gib (storage_policy s)) (cpu_overcommit_ratio s) (placement s).
Definition with_placement (p : WorkspacePlacement) (s : WorkspaceTemplateSpec) : WorkspaceTemplateSpec :=
  rebuild_spec s (image s) (disk_gib (resources s)) (temporary_storage_gib (storage_policy s)) (cpu_overcommit_ratio s) p.

(** The workspace in memory after a change. *)
Definition changed (w : Workspace) (template : WorkspaceTemplateSpec) (node_pool : string)
    (home : option WorkspaceHomeVolumeBinding) (state : WorkspaceState) (generation now : Z) : Workspace :=
  {| ws_id := ws_id w; ws_short_id := ws_short_id w; ws_organization_id := ws_organization_id w;
     ws_owner_id := ws_owner_id w; ws_name := ws_name w; ws_template_id := ws_template_id w;
     ws_node_pool := node_pool; ws_home_volume_binding := home;
     ws_scratch_volume_binding := ws_scratch_volume_binding w; ws_template := template; ws_state := state;
     ws_generation := generation; ws_created_at := ws_created_at w; ws_updated_at := now |}.

(** What the [apply_*] functions share: parse the stored snapshot, change it and
    the workspace, count the generation up and serialise the snapshot. *)
Definition apply_change (change : WorkspaceTemplateSpec → WorkspaceTemplateSpec) (node_pool : string)
    (home : option WorkspaceHomeVolumeBinding) (state : WorkspaceState) (w : Workspace)
    (snapshot : WorkspaceTemplateDocument) (now : Z)
    : result StorageError.t (Workspace * WorkspaceTemplateDocument) :=
  _ ← map_err (λ _, StorageError.InvalidWorkspace) (document_validate snapshot);
  let snapshot := set_spec change snapshot in
  generation ← ok_or (checked_add_u64 (ws_generation w) 1) StorageError.InvalidWorkspace;
  _ ← map_err (λ _, StorageError.InvalidWorkspace) (document_validate snapshot);
  Ok (changed w (change (ws_template w)) node_pool home state generation now, snapshot).

Definition apply_here (change : WorkspaceTemplateSpec → WorkspaceTemplateSpec) (w : Workspace)
    (snapshot : WorkspaceTemplateDocument) (now : Z)
    : result StorageError.t (Workspace * WorkspaceTemplateDocument) :=
  apply_change change (ws_node_pool w) (ws_home_volume_binding w) (ws_state w) w snapshot now.

(** ** The shape of an update *)
Record Update := mkUpdate {
  u_expected_generation : Z;
  u_now : Z;
  u_conflict : StorageError.t;  (** another state or generation than expected *)
  u_too_big : StorageError.t;  (** of this file's [as_i64] *)
  u_permitted : Workspace → bool;
  u_check : Workspace → DbM ();
  u_apply : Workspace → WorkspaceTemplateDocument → DbM (Workspace * WorkspaceTemplateDocument);
  u_numbers : list Z;  (** the further values bound as [i64] *)
  u_matches : WorkspaceRow → bool;  (** further conditions of the [UPDATE] *)
  u_columns : Workspace → WorkspaceRow → WorkspaceRow;  (** further columns it sets *)
  u_record : Workspace → Workspace → DbM ();
}.

Definition set_snapshot (snapshot : WorkspaceTemplateDocument) (generation now : Z) (r : WorkspaceRow) : WorkspaceRow :=
  {| wr_installation_id := wr_installation_id r; wr_short_id := wr_short_id r;
     wr_organization_id := wr_organization_id r; wr_owner_id := wr_owner_id r; wr_name := wr_name r;
     wr_template_id := wr_template_id r; wr_state := wr_state r; wr_cpu_millis := wr_cpu_millis r;
     wr_memory_mib := wr_memory_mib r; wr_gpu_count := wr_gpu_count r; wr_disk_gib := wr_disk_gib r;
     wr_temporary_storage_gib := wr_temporary_storage_gib r; wr_node_pool := wr_node_pool r;
     wr_generation := generation; wr_created_at := wr_created_at r; wr_updated_at := now;
     wr_snapshot := snapshot; wr_home_pvc_namespace := wr_home_pvc_namespace r;
     wr_home_pvc_name := wr_home_pvc_name r; wr_home_pvc_uid := wr_home_pvc_uid r;
     wr_home_pvc_capacity_gib := wr_home_pvc_capacity_gib r;
     wr_scratch_volume_binding := wr_scratch_volume_binding r |}.

(** The columns [disk_gib], [temporary_storage_gib], [node_pool], [state] and the
    four of the Home binding. *)
Definition set_columns (disk temporary : Z) (node_pool : string) (state : WorkspaceState)
    (home : option WorkspaceHomeVolumeBinding) (r : WorkspaceRow) : WorkspaceRow :=
  {| wr_installation_id := wr_installation_id r; wr_short_id := wr_short_id r;
     wr_organization_id := wr_organization_id r; wr_owner_id := wr_owner_id r; wr_name := wr_name r;
     wr_template_id := wr_template_id r; wr_state := state; wr_cpu_millis := wr_cpu_millis r;
     wr_memory_mib := wr_memory_mib r; wr_gpu_count := wr_gpu_count r; wr_disk_gib := disk;
     wr_temporary_storage_gib := temporary; wr_node_pool := node_pool;
     wr_generation := wr_generation r; wr_created_at := wr_created_at r; wr_updated_at := wr_updated_at r;
     wr_snapshot := wr_snapshot r;
     wr_home_pvc_namespace := match home with Some b => Some (vb_namespace b) | None => wr_home_pvc_namespace r end;
     wr_home_pvc_name := match home with Some b => Some (vb_claim_name b) | None => wr_home_pvc_name r end;
     wr_home_pvc_uid := match home with Some b => Some (vb_claim_uid b) | None => wr_home_pvc_uid r end;
     wr_home_pvc_capacity_gib := match home with Some b => Some (vb_capacity_gib b) | None => wr_home_pvc_capacity_gib r end;
     wr_scratch_volume_binding := wr_scratch_volume_binding r |}.

Fixpoint all_i64 (e : StorageError.t) (values : list Z) : result StorageError.t () :=
  match values with
  | [] => Ok ()
  | v :: values' => _ ← ok_or (i64_try_from v) e; all_i64 e values'
  end.

Section Updates.
Context `{UuidText} `{TemplateYaml} `{SqlBackend} (inst : string).

(** [update_sqlite] and [update_postgres]. *)
Definition perform (u : Update) (w : Workspace) (snapshot : WorkspaceTemplateDocument) : DbM Workspace :=
  _ ← guard inst (ws_id w);
  _ ← lift (ensure (u_permitted u w && (ws_generation w =? u_expected_generation u)) (u_conflict u));
  _ ← u_check u w;
  new ← u_apply u w snapshot;
  _ ← lift (all_i64 (u_too_big u) (u_numbers u ++ [ws_generation new.1; u_expected_generation u]));
  affected ← update_workspace (ws_id w)
               (λ r, String.eqb (wr_installation_id r) inst && bool_decide (wr_state r = ws_state w)
                     && u_matches u r && (wr_generation r =? u_expected_generation u))
               (λ r, set_snapshot new.2 (ws_generation new.1) (u_now u) (u_columns u new.1 r));
  _ ← lift (ensure (affected =? 1) (u_conflict u));
  _ ← u_record u w new.1;
  mret new.1.

Definition run_update (workspace_id : Uuid) (u : Update) : DbM Workspace :=
  transaction (
    row ← select_workspace inst workspace_id;
    match row with
    | None => fail StorageError.WorkspaceNotFound
    | Some row =>
        w ← lift (decode_workspace workspace_id row);
        perform u w (wr_snapshot row)
    end).

(** ** What is recorded *)
Definition queue_reconcile (w : Workspace) (reason : string) (now : Z) : DbM () :=
  id ← now_v7;
  insert_job id (pending_row inst "reconcile_workspace" (Some (ws_id w))
                   (json_object [("generation", Number (ws_generation w)); ("reason", Str reason)]) now now).

Definition audit_update (w : Workspace) (actor : Uuid) (action : string) (metadata : Value) (now : Z) : DbM () :=
  id ← now_v7;
  insert_audit id (mkAuditRow inst (Some actor) (Some (ws_organization_id w)) (Some (ws_id w)) action metadata now).

Definition is_stopped (w : Workspace) : bool := bool_decide (ws_state w = Stopped).
Definition ratio_json (r : option Z) : Value := match r with Some r => Number r | None => Null end.

(** ** The CPU overcommit ratio *)
Definition cpu_overcommit_update (ratio expected : Z) (actor : Uuid) (now : Z) : Update := {|
  u_expected_generation := expected; u_now := now;
  u_conflict := StorageError.WorkspaceCpuOvercommitUpdateConflict; u_too_big := StorageError.InvalidWorkspace;
  u_permitted := is_stopped;
  u_check _ := mret ();
  u_apply w d := lift (apply_here (with_ratio ratio) w d now);
  u_numbers := []; u_matches _ := true; u_columns _ r := r;
  u_record w w' :=
    _ ← queue_reconcile w' "cpu_overcommit_updated" now;
    _ ← audit_update w' actor "workspace.cpu_overcommit_updated"
          (json_object [("previous_cpu_overcommit_ratio", ratio_json (cpu_overcommit_ratio (ws_template w)));
                        ("cpu_overcommit_ratio", ratio_json (cpu_overcommit_ratio (ws_template w')));
                        ("generation", Number (ws_generation w'))]) now;
    insert_state_changed inst w' (Some "cpu_overcommit_updated") now |}.

Definition update_stopped_workspace_cpu_overcommit (workspace_id : Uuid) (ratio expected : Z) (actor : Uuid)
    (now : Z) : DbM Workspace :=
  _ ← lift (ensure (in_range 1 MAX_CPU_OVERCOMMIT_RATIO ratio) StorageError.InvalidCpuOvercommitRatio);
  run_update workspace_id (cpu_overcommit_update ratio expected actor now).

(** ** The capacity of an unbound Home *)
Definition default_claim (short_id : string) : string := "workspace-data-w-" +:+ short_id +:+ "-0".

Definition home_capacity_update (disk expected : Z) (actor : Uuid) (now : Z) (claim_uid : string) : Update := {|
  u_expected_generation := expected; u_now := now;
  u_conflict := StorageError.WorkspaceHomePvcUpdateConflict; u_too_big := StorageError.InvalidWorkspaceHomePvc;
  u_permitted w := is_stopped w && negb (is_some (ws_home_volume_binding w));
  u_check _ := mret ();
  u_apply w d := lift (apply_here (with_disk disk) w d now);
  u_numbers := [disk];
  u_matches r := negb (is_some (wr_home_pvc_name r));
  u_columns _ r := set_columns disk (wr_temporary_storage_gib r) (wr_node_pool r) (wr_state r) None r;
  u_record w w' :=
    _ ← queue_reconcile w' "home_capacity_corrected" now;
    audit_update w' actor "workspace.home_capacity_corrected"
      (json_object [("claim_uid", Str claim_uid); ("claim_name", Str (default_claim (ws_short_id w')));
                    ("previous_disk_gib", Number (disk_gib (resources (ws_template w))));
                    ("disk_gib", Number (disk_gib (resources (ws_template w'))));
                    ("generation", Number (ws_generation w'))]) now |}.

Definition valid_home_capacity (disk : Z) : bool :=
  negb (disk =? 0) && is_some_and (checked_mul_u64 disk GIB) (λ n, n <=? i64_max).

Definition correct_stopped_workspace_home_capacity (workspace_id : Uuid) (disk expected : Z) (actor : Uuid)
    (now : Z) (claim_uid : string) : DbM Workspace :=
  _ ← lift (ensure (valid_home_capacity disk) StorageError.InvalidWorkspaceHomePvc);
  run_update workspace_id (home_capacity_update disk expected actor now claim_uid).

(** ** The Home volume *)

(** A reconciliation that is running, in any installation. *)
Definition running_reconcile (workspace_id : Uuid) (db : Db) : bool :=
  existsb (λ kv, bool_decide (j_workspace_id kv.2 = Some workspace_id)
                 && String.eqb (j_kind kv.2) "reconcile_workspace" && bool_decide (j_status kv.2 = JobRunning))
    (map_to_list (t_jobs db)).

Definition claims_volume (b : WorkspaceHomeVolumeBinding) (r : WorkspaceRow) : bool :=
  negb (bool_decide (wr_state r = Deleted)) &&
  (bool_decide (wr_home_pvc_name r = Some (vb_claim_name b)) || bool_decide (wr_home_pvc_uid r = Some (vb_claim_uid b))
   || String.eqb (default_claim (wr_short_id r)) (vb_claim_name b)).

(** Another workspace holds the claim, by name or identity, or would create it
    under its default name. *)
Definition claim_in_use (workspace_id : Uuid) (b : WorkspaceHomeVolumeBinding) (db : Db) : bool :=
  existsb (λ kv, negb (bool_decide (kv.1 = workspace_id)) && claims_volume b kv.2) (map_to_list (t_workspaces db)).

Definition binding_snapshot (w : Workspace) : Value :=
  json_object [("home_volume_binding", json_option binding_json (ws_home_volume_binding w));
               ("disk_gib", Number (disk_gib (resources (ws_template w)))); ("state", Str (state_as_str (ws_state w)))].

(** The unique indexes on the claim cannot be violated once no other workspace
    holds it, so [binding_error] has nothing to translate. *)
Definition home_volume_update (b : WorkspaceHomeVolumeBinding) (expected : Z) (actor : Uuid) (now : Z)
    (adopt_ready : bool) : Update := {|
  u_expected_generation := expected; u_now := now;
  u_conflict := StorageError.WorkspaceHomePvcUpdateConflict; u_too_big := StorageError.InvalidWorkspaceHomePvc;
  u_permitted w := if adopt_ready then bool_decide (ws_state w = Ready ∨ ws_state w = Failed) else is_stopped w;
  u_check w :=
    active ← reads (running_reconcile (ws_id w));
    _ ← lift (ensure (negb (adopt_ready && active)) StorageError.WorkspaceHomePvcUpdateConflict);
    conflict ← reads (claim_in_use (ws_id w) b);
    lift (ensure (negb conflict) StorageError.WorkspaceHomePvcInUse);
  u_apply w d :=
    lift (apply_change (with_disk (vb_capacity_gib b)) (ws_node_pool w) (Some b)
            (if adopt_ready then Ready else ws_state w) w d now);
  u_numbers := [vb_capacity_gib b];
  u_matches _ := true;
  u_columns w' r := set_columns (vb_capacity_gib b) (wr_temporary_storage_gib r) (wr_node_pool r)
                      (ws_state w') (Some b) r;
  u_record w w' :=
    _ ← (if adopt_ready then mret () else queue_reconcile w' "home_volume_bound" now);
    audit_update w' actor "workspace.home_volume_bound"
      (json_object [("previous", binding_snapshot w);
                    ("home_volume_binding", json_option binding_json (ws_home_volume_binding w'));
                    ("disk_gib", Number (disk_gib (resources (ws_template w'))));
                    ("generation", Number (ws_generation w'));
                    ("adopted_ready", Bool (bool_decide (ws_state w' = Ready)))]) now |}.

Definition bind_workspace_home_volume (workspace_id : Uuid) (b : WorkspaceHomeVolumeBinding) (expected : Z)
    (actor : Uuid) (now : Z) (adopt_ready : bool) : DbM Workspace :=
  _ ← lift (ensure (binding_is_valid b) StorageError.InvalidWorkspaceHomePvc);
  run_update workspace_id (home_volume_update b expected actor now adopt_ready).

(** ** Temporary storage *)
Definition temporary_storage_update (temporary expected : Z) (actor : Uuid) (now : Z) : Update := {|
  u_expected_generation := expected; u_now := now;
  u_conflict := StorageError.WorkspaceTemporaryStorageUpdateConflict;
  u_too_big := StorageError.InvalidWorkspaceTemporaryStorage;
  u_permitted := is_stopped;
  u_check _ := mret ();
  u_apply w d :=
    _ ← lift (ensure (negb (is_some_and (ws_scratch_volume_binding w) (λ b, negb (vb_capacity_gib b =? temporary))))
                StorageError.WorkspaceTemporaryStorageUpdateConflict);
    lift (apply_here (with_temporary temporary) w d now);
  u_numbers := [temporary]; u_matches _ := true;
  u_columns _ r := set_columns (wr_disk_gib r) temporary (wr_node_pool r) (wr_state r) None r;
  u_record w w' :=
    _ ← queue_reconcile w' "temporary_storage_updated" now;
    audit_update w' actor "workspace.temporary_storage_updated"
      (json_object [("previous_temporary_storage_gib", Number (temporary_storage_gib (storage_policy (ws_template w))));
                    ("temporary_storage_gib", Number (temporary_storage_gib (storage_policy (ws_template w'))));
                    ("generation", Number (ws_generation w'))]) now |}.

Definition update_stopped_workspace_temporary_storage (workspace_id : Uuid) (temporary expected : Z)
    (actor : Uuid) (now : Z) : DbM Workspace :=
  _ ← lift (ensure (in_range 1 2048 temporary) StorageError.InvalidWorkspaceTemporaryStorage);
  run_update workspace_id (temporary_storage_update temporary expected actor now).

(** ** The image *)
Definition hex_digit (b : Z) : bool := is_ascii_digit b || in_range 97 102 b.
Definition DIGEST_MARK : list Z := bytes "@sha256:".

Definition validate_pinned_image (img : string) : result StorageError.t () :=
  let invalid := Err StorageError.InvalidWorkspaceImageUpdate in
  if bool_decide (img = "") || negb (is_trimmed img) || (512 <? len img) || existsb is_whitespace (chars img)
  then invalid
  else match split_once DIGEST_MARK (bytes img) with
       | None => invalid
       | Some (repository, digest) =>
           if bool_decide (repository = []) || bool_decide (64 ∈ repository)
              || negb (Z.of_nat (length digest) =? 64) || negb (forallb hex_digit digest)
           then invalid else Ok ()
       end.

Definition image_update (img : string) (expected : Z) (actor : Uuid) (now : Z) : Update := {|
  u_expected_generation := expected; u_now := now;
  u_conflict := StorageError.WorkspaceImageUpdateConflict; u_too_big := StorageError.InvalidWorkspace;
  u_permitted := is_stopped;
  u_check _ :=
    allowed ← reads (image_allowed inst img);
    lift (ensure allowed StorageError.ImageNotAllowed);
  u_apply w d := lift (apply_here (with_image img) w d now);
  u_numbers := []; u_matches _ := true; u_columns _ r := r;
  u_record _ w' :=
    _ ← queue_reconcile w' "image_updated" now;
    _ ← audit_update w' actor "workspace.image_updated"
          (json_object [("image", Str (image (ws_template w'))); ("generation", Number (ws_generation w'))]) now;
    insert_image_updated inst w' now |}.

Definition update_stopped_workspace_image (workspace_id : Uuid) (img : string) (expected : Z) (actor : Uuid)
    (now : Z) : DbM Workspace :=
  _ ← lift (validate_pinned_image img);
  run_update workspace_id (image_update img expected actor now).

(** ** The node pool *)
Definition current_placement (w : Workspace) : DbM WorkspacePlacement :=
  template_id ← lift (ok_or (ws_template_id w) StorageError.TemplateNotFound);
  snapshot ← resolve_template inst template_id (ws_organization_id w) true;
  mret (placement (snap_spec snapshot)).

Definition placement_update (node_pool : string) (expected : Z) (actor : Uuid) (now : Z) : Update := {|
  u_expected_generation := expected; u_now := now;
  u_conflict := StorageError.WorkspacePlacementUpdateConflict; u_too_big := StorageError.InvalidWorkspace;
  u_permitted := is_stopped;
  u_check _ := mret ();
  u_apply w d :=
    p ← current_placement w;
    selected ← select_node_pool inst p (Some node_pool);
    lift (apply_change (with_placement p) selected (ws_home_volume_binding w) (ws_state w) w d now);
  u_numbers := []; u_matches _ := true;
  u_columns w' r := set_columns (wr_disk_gib r) (wr_temporary_storage_gib r) (ws_node_pool w') (wr_state r) None r;
  u_record _ w' :=
    _ ← queue_reconcile w' "placement_updated" now;
    _ ← audit_update w' actor "workspace.placement_updated"
          (json_object [("node_pool", Str (ws_node_pool w')); ("generation", Number (ws_generation w'))]) now;
    insert_placement_updated inst w' now |}.

Definition update_stopped_workspace_placement (workspace_id : Uuid) (node_pool : string) (expected : Z)
    (actor : Uuid) (now : Z) : DbM Workspace :=
  run_update workspace_id (placement_update node_pool expected actor now).
End Updates.

(** ** Lawful updates

    What the shape relies on: the checks and the change only read, the change
    counts the generation up and leaves a valid snapshot, the columns written
    decode to the workspace returned, and what is recorded stays in the tables of
    jobs, audit records and events. *)
Section Laws.
Context `{UuidText} `{TemplateYaml} `{SqlBackend} (inst : string).

(** The columns quotas are computed from agree with the stored template. *)
Definition columns_agree (r : WorkspaceRow) : Prop :=
  let s := spec (wr_snapshot r) in
  wr_cpu_millis r = cpu_millis (resources s) ∧ wr_memory_mib r = memory_mib (resources s) ∧
  wr_gpu_count r = gpu_count (resources s) ∧ wr_disk_gib r = disk_gib (resources s) ∧
  wr_temporary_storage_gib r = temporary_storage_gib (storage_policy s).

Definition recorded {T} (view : Db → T) : Prop :=
  (∀ db n, view (set_uuid_drawn n db) = view db) ∧ (∀ db m, view (set_t_jobs m db) = view db) ∧
  (∀ db m, view (set_t_audit m db) = view db) ∧ (∀ db m, view (set_t_events m db) = view db).

Definition updated_row (u : Update) (w : Workspace) (d : WorkspaceTemplateDocument) (r : WorkspaceRow) : WorkspaceRow :=
  set_snapshot d (ws_generation w) (u_now u) (u_columns u w r).

(** The reconciliation a change is followed by. *)
Definition reconcile_row (w : Workspace) (r : JobRow) : Prop :=
  j_installation_id r = inst ∧ j_kind r = "reconcile_workspace" ∧ j_workspace_id r = Some (ws_id w) ∧
  j_status r = JobPending ∧ get_u64 (j_payload r) "generation" = u64_try_from (ws_generation w).

Record lawful (queues : bool) (u : Update) : Prop := {
  lw_check w db x db' : u_check u w db = (x, db') → db' = db;
  lw_apply w r db w' d' db' :
    decode_workspace (ws_id w) r = Ok w → u_permitted u w = true →
    u_apply u w (wr_snapshot r) db = (Ok (w', d'), db') →
    db' = db ∧ ws_id w' = ws_id w ∧ ws_generation w' = ws_generation w + 1 ∧
    (ws_generation w' <= u64_max →
       decode_workspace (ws_id w) (updated_row u w' d' r) = Ok w') ∧
    (columns_agree r → columns_agree (updated_row u w' d' r));
  lw_columns w' r : wr_installation_id (u_columns u w' r) = wr_installation_id r;
  lw_record {T} (view : Db → T) w w' : recorded view → Preserves (frames view) (u_record u w w');
  lw_queue w w' db x db' : u_record u w w' db = (Ok x, db') →
    if queues then ∃ job row, t_jobs db !! job = None ∧ t_jobs db' !! job = Some row ∧ reconcile_row w' row
    else t_jobs db' = t_jobs db;
}.

(** *** Decoding after a change *)
Lemma apply_change_Ok change pool home state w d now w' d' :
  apply_change change pool home state w d now = Ok (w', d') →
  w' = changed w (change (ws_template w)) pool home state (ws_generation w + 1) now ∧
  d' = set_spec change d ∧ document_validate d' = Ok ().
Proof.
  unfold apply_change. intros Hrun. inv_binds.
  match goal with Hx : checked_add_u64 _ _ = Some _ |- _ => apply checked_add_u64_Some in Hx as [-> _] end.
  match goal with Hx : map_err _ (document_validate (set_spec change d)) = Ok _ |- _ =>
    destruct (document_validate (set_spec change d)) as [[]|] eqn:E; [|done] end.
  injection Hrun as <- <-. done.
Qed.

(** A row decodes to a workspace exactly when its parts do. *)
Lemma decode_workspace_Ok id r w :
  decode_workspace id r = Ok w ↔
  document_validate (wr_snapshot r) = Ok () ∧
  decode_home_binding r = Ok (ws_home_volume_binding w) ∧
  validate_for_workspace id (wr_short_id r) = true ∧ u64_try_from (wr_generation r) = Some (ws_generation w) ∧
  w = {| ws_id := id; ws_short_id := wr_short_id r; ws_organization_id := wr_organization_id r;
         ws_owner_id := wr_owner_id r; ws_name := wr_name r; ws_template_id := wr_template_id r;
         ws_node_pool := wr_node_pool r; ws_home_volume_binding := ws_home_volume_binding w;
         ws_scratch_volume_binding := wr_scratch_volume_binding r; ws_template := spec (wr_snapshot r);
         ws_state := wr_state r; ws_generation := ws_generation w; ws_created_at := wr_created_at r;
         ws_updated_at := wr_updated_at r |}.
Proof.
  unfold decode_workspace. split.
  - intros Hd. inv_binds. destruct (document_validate (wr_snapshot r)) as [[]|]; [|done]. simplify_eq/=. done.
  - intros (-> & -> & Hv & Hg & Hw). cbn. rewrite Hv, Hg. cbn. by rewrite <-Hw.
Qed.

(** The binding columns alone, given the capacity of the snapshot. *)
Lemma decode_home_ext r r' :
  wr_home_pvc_namespace r' = wr_home_pvc_namespace r → wr_home_pvc_name r' = wr_home_pvc_name r →
  wr_home_pvc_uid r' = wr_home_pvc_uid r → wr_home_pvc_capacity_gib r' = wr_home_pvc_capacity_gib r →
  disk_gib (resources (spec (wr_snapshot r'))) = disk_gib (resources (spec (wr_snapshot r))) →
  decode_home_binding r' = decode_home_binding r.
Proof. intros E1 E2 E3 E4 E5. unfold decode_home_binding. by rewrite E1, E2, E3, E4, E5. Qed.

Lemma decode_home_none r : decode_home_binding r = Ok None →
  wr_home_pvc_namespace r = None ∧ wr_home_pvc_name r = None ∧ wr_home_pvc_uid r = None ∧
  wr_home_pvc_capacity_gib r = None.
Proof. unfold decode_home_binding. repeat case_match; try done. intros Hb. inv_binds. done. Qed.

Lemma changed_decodes change disk temporary pool state home home' w r now w' d' :
  decode_workspace (ws_id w) r = Ok w →
  apply_change change pool home' state w (wr_snapshot r) now = Ok (w', d') → ws_generation w' <= u64_max →
  decode_home_binding (set_snapshot d' (ws_generation w') now (set_columns disk temporary pool state home r)) = Ok home' →
  decode_workspace (ws_id w) (set_snapshot d' (ws_generation w') now (set_columns disk temporary pool state home r))
  = Ok w'.
Proof.
  intros (Hv & Hh & Hid & Hg & Hw)%decode_workspace_Ok (Ew & Ed & Hd')%apply_change_Ok Hmax Hhome.
  apply decode_workspace_Ok. apply guard_range_Some in Hg as [Hg Hin]. unfold in_u64 in Hin. bool_prop.
  assert (Eg : ws_generation w' = ws_generation w + 1) by by rewrite Ew.
  split_and!; [done| |done| |].
  - rewrite Hhome, Ew. done.
  - unfold u64_try_from, guard_range, in_u64. cbn. rewrite (proj2 (Z.leb_le 0 _)), (proj2 (Z.leb_le _ u64_max)) by lia. done.
  - rewrite Ew, Ed. unfold changed. rewrite Hw. done.
Qed.

Lemma decode_home_none_any r disk temporary pool state d g now :
  decode_home_binding r = Ok None →
  decode_home_binding (set_snapshot d g now (set_columns disk temporary pool state None r)) = Ok None.
Proof. intros (E1 & E2 & E3 & E4)%decode_home_none. unfold decode_home_binding. cbn. by rewrite E1, E2, E3, E4. Qed.

Lemma decode_home_bound r b temporary pool state d g now :
  binding_is_valid b = true → disk_gib (resources (spec d)) = vb_capacity_gib b →
  decode_home_binding (set_snapshot d g now (set_columns (vb_capacity_gib b) temporary pool state (Some b) r)) = Ok (Some b).
Proof.
  intros Hb Hd. unfold decode_home_binding. cbn. pose proof (binding_is_valid_capacity b Hb) as [Hpos Hmax].
  unfold u64_try_from, guard_range, in_u64. unfold GIB, i64_max in Hmax.
  rewrite (proj2 (Z.leb_le 0 _)), (proj2 (Z.leb_le _ u64_max)) by (unfold u64_max; lia). cbn.
  rewrite Hd, Z.eqb_refl. destruct b; cbn in *. by rewrite Hb.
Qed.

Lemma columns_id r : set_columns (wr_disk_gib r) (wr_temporary_storage_gib r) (wr_node_pool r) (wr_state r) None r = r.
Proof. by destruct r. Qed.

(** *** What is recorded *)
#[local] Instance queue_reconcile_frames {T} (view : Db → T) w reason now :
  recorded view → Preserves (frames view) (queue_reconcile inst w reason now).
Proof.
  intros (Hn & Hj & _). pose proof (frames_table_relation view (λ n db, Hn db n)) as HR. unfold queue_reconcile.
  apply preserves_bind; [done|apply _|intros id]. apply preserves_insert_row; [done|intros; apply Hj].
Qed.
#[local] Instance audit_update_frames {T} (view : Db → T) w actor action metadata now :
  recorded view → Preserves (frames view) (audit_update inst w actor action metadata now).
Proof.
  intros (Hn & _ & Ha & _). pose proof (frames_table_relation view (λ n db, Hn db n)) as HR. unfold audit_update.
  apply preserves_bind; [done|apply _|intros id]. apply preserves_insert_row; [done|intros; apply Ha].
Qed.
#[local] Instance event_frames {T} (view : Db → T) w kind p now :
  recorded view → Preserves (frames view) (insert_workspace_event inst w kind p now).
Proof. intros (Hn & Hj & _ & He). by apply insert_workspace_event_frames. Qed.

Lemma record_frames {T} (view : Db → T) (m1 m2 : DbM ()) :
  recorded view → Preserves (frames view) m1 → Preserves (frames view) m2 → Preserves (frames view) (_ ← m1; m2).
Proof.
  intros [Hn _] Hm1 Hm2. pose proof (frames_table_relation view (λ n db, Hn db n)) as HR.
  apply preserves_bind; [done|done|intros _; done].
Qed.

Lemma queue_reconcile_Ok w reason now db u db' :
  queue_reconcile inst w reason now db = (Ok u, db') →
  ∃ job row, t_jobs db !! job = None ∧ t_jobs db' !! job = Some row ∧ reconcile_row w row.
Proof.
  unfold queue_reconcile. intros Hrun. run_step Hrun. unfold insert_job, insert_row in Hrun. cbn in Hrun.
  destruct (t_jobs db !! _) eqn:E; [done|]. injection Hrun as <-.
  eexists _, _. split; [exact E|]. cbn. split; [apply lookup_insert_eq|]. by repeat split.
Qed.

(** Statements that only add jobs keep the one queued. *)
Lemma queue_then w reason now (m : DbM ()) db u db' :
  Preserves (adds t_jobs (λ _, True)) m → (_ ← queue_reconcile inst w reason now; m) db = (Ok u, db') →
  ∃ job row, t_jobs db !! job = None ∧ t_jobs db' !! job = Some row ∧ reconcile_row w row.
Proof.
  intros Hm Hrun. apply bind_run_Ok in Hrun as ([] & db1 & Hq & Hrun).
  apply queue_reconcile_Ok in Hq as (job & row & Hnone & Hsome & Hrow). exists job, row.
  split_and!; [done| |done]. destruct (Hm _ _ _ Hrun job) as [->|[E _]]; [done|congruence].
Qed.

#[local] Instance audit_update_adds w actor action metadata now :
  Preserves (adds t_jobs (λ _, True)) (audit_update inst w actor action metadata now).
Proof.
  unfold audit_update. apply preserves_bind; [apply _..|intros id]. apply preserves_insert_row; [apply _|].
  intros db _ k. by left.
Qed.
#[local] Instance event_adds w kind p now :
  Preserves (adds t_jobs (λ _, True)) (insert_workspace_event inst w kind p now).
Proof.
  intros db r db' Hrun key. destruct (insert_workspace_event_jobs _ _ _ _ _ _ _ _ Hrun key) as [?|(? & row & ? & _)]; eauto.
Qed.

Lemma audit_keeps_jobs w actor action metadata now :
  Preserves (frames t_jobs) (_ ← (mret () : DbM ()); audit_update inst w actor action metadata now).
Proof. unfold audit_update. repeat (apply preserves_bind; [apply _..|intros ?]). apply preserves_insert_row; [apply _|done]. Qed.

(** *** The six updates are lawful *)
Ltac record_law :=
  intros T view w w' Hview; cbn; repeat (apply record_frames; [done| |]);
  first [by apply queue_reconcile_frames|by apply audit_update_frames|by apply event_frames].

Lemma agree_after change disk temporary pool state home g now r :
  (∀ s, cpu_millis (resources (change s)) = cpu_millis (resources s) ∧
        memory_mib (resources (change s)) = memory_mib (resources s) ∧
        gpu_count (resources (change s)) = gpu_count (resources s)) →
  disk = disk_gib (resources (change (spec (wr_snapshot r)))) →
  temporary = temporary_storage_gib (storage_policy (change (spec (wr_snapshot r)))) →
  columns_agree r →
  columns_agree (set_snapshot (set_spec change (wr_snapshot r)) g now (set_columns disk temporary pool state home r)).
Proof.
  intros Hc -> -> (E1 & E2 & E3 & _). destruct (Hc (spec (wr_snapshot r))) as (F1 & F2 & F3).
  unfold columns_agree. cbn. by rewrite F1, F2, F3.
Qed.

(** The two conclusions of [lw_apply] for a change that keeps the Home's columns. *)
Lemma apply_here_law change disk temporary pool w r now w' d' :
  (∀ s, cpu_millis (resources (change s)) = cpu_millis (resources s) ∧
        memory_mib (resources (change s)) = memory_mib (resources s) ∧
        gpu_count (resources (change s)) = gpu_count (resources s)) →
  decode_workspace (ws_id w) r = Ok w →
  apply_change change pool (ws_home_volume_binding w) (ws_state w) w (wr_snapshot r) now = Ok (w', d') →
  (ws_home_volume_binding w = None ∨ ∀ s, disk_gib (resources (change s)) = disk_gib (resources s)) →
  (columns_agree r → disk = disk_gib (resources (change (spec (wr_snapshot r)))) ∧
                     temporary = temporary_storage_gib (storage_policy (change (spec (wr_snapshot r))))) →
  ws_id w' = ws_id w ∧ ws_generation w' = ws_generation w + 1 ∧
  let r' := set_snapshot d' (ws_generation w') now (set_columns disk temporary pool (ws_state w) None r) in
  (ws_generation w' <= u64_max → decode_workspace (ws_id w) r' = Ok w') ∧ (columns_agree r → columns_agree r').
Proof.
  intros Hc Hdec Happ Hdisk Hagree. pose proof (apply_change_Ok _ _ _ _ _ _ _ _ _ Happ) as (Ew & Ed & Hd').
  split_and!; [by rewrite Ew..|].
  split.
  - intros Hmax. eapply changed_decodes; [done..|]. apply decode_workspace_Ok in Hdec as (_ & Hh & _ & _ & _).
    destruct Hdisk as [Hn|Hsame]; [rewrite Hn in Hh |- *; by apply decode_home_none_any|].
    rewrite <-Hh. apply decode_home_ext; [done..|]. cbn. rewrite Ed. cbn. apply Hsame.
  - intros Ha. rewrite Ed. destruct (Hagree Ha). by apply agree_after.
Qed.

Lemma cpu_overcommit_lawful ratio expected actor now :
  lawful true (cpu_overcommit_update inst ratio expected actor now).
Proof.
  split; [by intros ???? [= _ <-]| |done|record_law|].
  - cbn. intros w r db w' d' db' Hdec _ [= Happ <-].
    edestruct (apply_here_law (with_ratio ratio) (wr_disk_gib r) (wr_temporary_storage_gib r)) as (E1 & E2 & E3 & E4);
      [done|exact Hdec|exact Happ|by right|by intros (_ & _ & _ & -> & ->)|].
    unfold updated_row. cbn. assert (Hp : ws_node_pool w = wr_node_pool r ∧ ws_state w = wr_state r)
      by (by apply decode_workspace_Ok in Hdec as (_ & _ & _ & _ & ->)).
    destruct Hp as [Hp Hs]. rewrite Hp, Hs, columns_id in *. done.
  - intros w w' db x db' Hrun. eapply queue_then; [|exact Hrun]. apply preserves_bind; [apply _..|intros _; apply _].
Qed.

Lemma decoded_row id r w : decode_workspace id r = Ok w → ws_node_pool w = wr_node_pool r ∧ ws_state w = wr_state r.
Proof. by intros (_ & _ & _ & _ & ->)%decode_workspace_Ok. Qed.

Lemma home_capacity_lawful disk expected actor now uid :
  lawful true (home_capacity_update inst disk expected actor now uid).
Proof.
  split; [by intros ???? [= _ <-]| |done|record_law|].
  - cbn. intros w r db w' d' db' Hdec [_ Hnone]%andb_true_iff [= Happ <-].
    assert (Hhome : ws_home_volume_binding w = None) by (by destruct (ws_home_volume_binding w)).
    destruct (decoded_row _ _ _ Hdec) as [Hp Hs].
    edestruct (apply_here_law (with_disk disk) disk (wr_temporary_storage_gib r)) as (E1 & E2 & E3 & E4);
      [done|exact Hdec|exact Happ|by left|by intros (_ & _ & _ & _ & ->)|].
    unfold updated_row. cbn. rewrite Hp, Hs in *. done.
  - intros w w' db x db' Hrun. eapply queue_then; [|exact Hrun]. apply _.
Qed.

Lemma temporary_storage_lawful temporary expected actor now :
  lawful true (temporary_storage_update inst temporary expected actor now).
Proof.
  split; [by intros ???? [= _ <-]| |done|record_law|].
  - cbn. intros w r db w' d' db' Hdec _ Hrun. run_step Hrun. injection Hrun as Happ <-.
    destruct (decoded_row _ _ _ Hdec) as [Hp Hs].
    edestruct (apply_here_law (with_temporary temporary) (wr_disk_gib r) temporary) as (E1 & E2 & E3 & E4);
      [done|exact Hdec|exact Happ|by right|by intros (_ & _ & _ & -> & _)|].
    unfold updated_row. cbn. rewrite Hp, Hs in *. done.
  - intros w w' db x db' Hrun. eapply queue_then; [|exact Hrun]. apply _.
Qed.

Lemma image_lawful img expected actor now : lawful true (image_update inst img expected actor now).
Proof.
  split; [| |done|record_law|].
  - cbn. intros w db x db'. rewrite bind_run; cbn. by intros [= _ <-].
  - cbn. intros w r db w' d' db' Hdec _ [= Happ <-]. destruct (decoded_row _ _ _ Hdec) as [Hp Hs].
    edestruct (apply_here_law (with_image img) (wr_disk_gib r) (wr_temporary_storage_gib r)) as (E1 & E2 & E3 & E4);
      [done|exact Hdec|exact Happ|by right|by intros (_ & _ & _ & -> & ->)|].
    unfold updated_row. cbn. rewrite Hp, Hs, columns_id in *. done.
  - intros w w' db x db' Hrun. eapply queue_then; [|exact Hrun]. apply preserves_bind; [apply _..|intros _; apply _].
Qed.

(** The pool selected exists and is one the template allows now. *)
Lemma placement_apply_Ok node_pool expected actor now w d db w' d' db' :
  u_apply (placement_update inst node_pool expected actor now) w d db = (Ok (w', d'), db') →
  ∃ p, db' = db ∧ node_pool ∈ allowed_node_pools p ∧ is_Some (t_node_pools db !! (inst, node_pool)) ∧
    apply_change (with_placement p) node_pool (ws_home_volume_binding w) (ws_state w) w d now = Ok (w', d').
Proof.
  cbn. intros Hrun. run_step Hrun. unfold current_placement in Hx. run_step Hx. run_step Hx.
  unfold resolve_template in Hx1. run_step Hx1. injection Hx1 as _ <-. injection Hx as <- <-.
  run_step Hrun. apply select_node_pool_Ok in Hx as (-> & Hn & Hin & Hpool). cbn in Hn. subst.
  injection Hrun as Happ <-. eauto 6.
Qed.

Lemma placement_lawful node_pool expected actor now : lawful true (placement_update inst node_pool expected actor now).
Proof.
  split; [by intros ???? [= _ <-]| |done|record_law|].
  - intros w r db w' d' db' Hdec _ (p & -> & _ & _ & Happ)%placement_apply_Ok.
    destruct (decoded_row _ _ _ Hdec) as [Hp Hs].
    edestruct (apply_here_law (with_placement p) (wr_disk_gib r) (wr_temporary_storage_gib r)) as (E1 & E2 & E3 & E4);
      [done|exact Hdec|exact Happ|by right|by intros (_ & _ & _ & -> & ->)|].
    apply apply_change_Ok in Happ as (Ew & _). unfold updated_row. cbn.
    assert (Epool : ws_node_pool w' = node_pool) by (by rewrite Ew). rewrite Epool, Hs in *. done.
  - intros w w' db x db' Hrun. eapply queue_then; [|exact Hrun]. apply preserves_bind; [apply _..|intros _; apply _].
Qed.

Lemma home_volume_lawful b expected actor now adopt :
  binding_is_valid b = true → lawful (negb adopt) (home_volume_update inst b expected actor now adopt).
Proof.
  intros Hb. split; [| |done| |].
  - cbn. intros w db x db'. rewrite !bind_run; cbn. rewrite bind_run; cbn. destruct (ensure _ _); [|by intros [= _ <-]].
    rewrite bind_run; cbn. by intros [= _ <-].
  - cbn. intros w r db w' d' db' Hdec _ [= Happ <-]. destruct (decoded_row _ _ _ Hdec) as [Hp Hs].
    pose proof (apply_change_Ok _ _ _ _ _ _ _ _ _ Happ) as (Ew & Ed & Hd'). unfold updated_row. cbn.
    assert (Est : ws_state w' = if adopt then Ready else ws_state w) by (by rewrite Ew).
    split_and!; [done|by rewrite Ew..| |].
    + intros Hmax. rewrite Est, <-Hp. eapply changed_decodes; [done|exact Happ|done|].
      apply decode_home_bound; [done|]. by rewrite Ed.
    + intros Ha. rewrite Ed. apply agree_after; [done|done|by destruct Ha as (_ & _ & _ & _ & ->)|done].
  - intros T view w w' Hview. cbn. apply record_frames; [done| |by apply audit_update_frames].
    destruct adopt; [|by apply queue_reconcile_frames]. intros ??? [= _ <-]. done.
  - intros w w' db x db' Hrun. destruct adopt; [|eapply queue_then; [|exact Hrun]; apply _].
    by apply (use_frame t_jobs) in Hrun; [|apply audit_keeps_jobs].
Qed.
End Laws.

(** ** The operations together *)
Inductive UpdateOp :=
  | SetRatio (ratio : Z)
  | SetHomeCapacity (disk : Z) (claim_uid : string)
  | BindHome (b : WorkspaceHomeVolumeBinding) (adopt_ready : bool)
  | SetTemporary (temporary : Z)
  | SetImage (img : string)
  | SetNodePool (node_pool : string).

(** The operation queues a reconciliation; adopting a running Home does not. *)
Definition op_queues (op : UpdateOp) : bool := match op with BindHome _ adopt => negb adopt | _ => true end.

Definition op_permitted (op : UpdateOp) (s : WorkspaceState) : Prop :=
  match op with BindHome _ true => s = Ready ∨ s = Failed | _ => s = Stopped end.

(** What the caller asked for holds of the workspace. *)
Definition op_done (inst : string) (op : UpdateOp) (db : Db) (w : Workspace) : Prop :=
  match op with
  | SetRatio ratio => cpu_overcommit_ratio (ws_template w) = Some ratio ∧ 1 <= ratio <= 1000
  | SetHomeCapacity disk _ => disk_gib (resources (ws_template w)) = disk ∧ ws_home_volume_binding w = None
  | BindHome b _ => ws_home_volume_binding w = Some b ∧ disk_gib (resources (ws_template w)) = vb_capacity_gib b
  | SetTemporary temporary =>
      temporary_storage_gib (storage_policy (ws_template w)) = temporary ∧ 1 <= temporary <= 2048 ∧
      ∀ b, ws_scratch_volume_binding w = Some b → vb_capacity_gib b = temporary
  | SetImage img => image (ws_template w) = img ∧ image_allowed inst img db = true
  | SetNodePool node_pool =>
      ws_node_pool w = node_pool ∧ node_pool ∈ allowed_node_pools (placement (ws_template w)) ∧
      is_Some (t_node_pools db !! (inst, node_pool))
  end.

Section Operations.
Context `{UuidText} `{TemplateYaml} `{SqlBackend} (inst : string).

Definition run_op (op : UpdateOp) (id : Uuid) (expected : Z) (actor : Uuid) (now : Z) : DbM Workspace :=
  match op with
  | SetRatio ratio => update_stopped_workspace_cpu_overcommit inst id ratio expected actor now
  | SetHomeCapacity disk uid => correct_stopped_workspace_home_capacity inst id disk expected actor now uid
  | BindHome b adopt => bind_workspace_home_volume inst id b expected actor now adopt
  | SetTemporary temporary => update_stopped_workspace_temporary_storage inst id temporary expected actor now
  | SetImage img => update_stopped_workspace_image inst id img expected actor now
  | SetNodePool pool => update_stopped_workspace_placement inst id pool expected actor now
  end.

Definition op_update (op : UpdateOp) (expected : Z) (actor : Uuid) (now : Z) : Update :=
  match op with
  | SetRatio ratio => cpu_overcommit_update inst ratio expected actor now
  | SetHomeCapacity disk uid => home_capacity_update inst disk expected actor now uid
  | BindHome b adopt => home_volume_update inst b expected actor now adopt
  | SetTemporary temporary => temporary_storage_update inst temporary expected actor now
  | SetImage img => image_update inst img expected actor now
  | SetNodePool pool => placement_update inst pool expected actor now
  end.

Definition op_valid (op : UpdateOp) : Prop :=
  match op with
  | SetRatio ratio => 1 <= ratio <= 1000
  | BindHome b _ => binding_is_valid b = true
  | SetTemporary temporary => 1 <= temporary <= 2048
  | _ => True
  end.

Lemma run_op_run op id expected actor now db r db' :
  run_op op id expected actor now db = (r, db') →
  (db' = db ∧ is_err r = true) ∨ (op_valid op ∧ run_update inst id (op_update op expected actor now) db = (r, db')).
Proof.
  destruct op; cbn; try (unfold update_stopped_workspace_cpu_overcommit, correct_stopped_workspace_home_capacity,
    bind_workspace_home_volume, update_stopped_workspace_temporary_storage, update_stopped_workspace_image;
    rewrite bind_run; cbn); try (by right).
  - unfold ensure. destruct (in_range _ _ _) eqn:E; [right|left; by simplify_eq]. unfold in_range in E. bool_prop.
    unfold MAX_CPU_OVERCOMMIT_RATIO in *. split; [lia|done].
  - unfold ensure. destruct (valid_home_capacity _); [by right|left; by simplify_eq].
  - unfold ensure. destruct (binding_is_valid _) eqn:E; [by right|left; by simplify_eq].
  - unfold ensure. destruct (in_range _ _ _) eqn:E; [right|left; by simplify_eq]. unfold in_range in E. bool_prop.
    split; [lia|done].
  - destruct (validate_pinned_image _); [by right|left; by simplify_eq].
Qed.

Lemma op_lawful op expected actor now : op_valid op → lawful inst (op_queues op) (op_update op expected actor now).
Proof.
  destruct op; cbn; intros Hv.
  - apply cpu_overcommit_lawful.
  - apply home_capacity_lawful.
  - by apply home_volume_lawful.
  - apply temporary_storage_lawful.
  - apply image_lawful.
  - apply placement_lawful.
Qed.

Lemma all_i64_Ok e values u : all_i64 e values = Ok u → Forall (λ v, v <= i64_max) values.
Proof.
  induction values as [|v values IH]; cbn; [constructor|]. intros Hrun. inv_binds.
  match goal with Hx : i64_try_from _ = Some _ |- _ => apply guard_range_Some in Hx as [_ Hx]; unfold in_i64 in Hx end.
  bool_prop. constructor; [lia|by apply IH].
Qed.

(** One successful update, taken apart. *)
Record applied (queues : bool) (u : Update) (id : Uuid) (db : Db) (w' : Workspace) (db' : Db) : Prop := {
  ap_rows : ∃ r w d',
    t_workspaces db !! id = Some r ∧ wr_installation_id r = inst ∧ decode_workspace id r = Ok w ∧
    u_permitted u w = true ∧ wr_generation r = u_expected_generation u ∧ u_matches u r = true ∧
    u_check u w db = (Ok (), db) ∧ u_apply u w (wr_snapshot r) db = (Ok (w', d'), db) ∧
    t_workspaces db' = <[id := updated_row u w' d' r]> (t_workspaces db) ∧
    decode_workspace id (updated_row u w' d' r) = Ok w' ∧
    (columns_agree r → columns_agree (updated_row u w' d' r));
  ap_generation : ws_generation w' = u_expected_generation u + 1;
  ap_id : ws_id w' = id;
  ap_idle : no_active_shrink inst id db;
  ap_kept : kept_tables db' = kept_tables db;
  ap_job : if queues then ∃ job row, t_jobs db !! job = None ∧ t_jobs db' !! job = Some row ∧ reconcile_row inst w' row
           else t_jobs db' = t_jobs db;
}.

Lemma perform_Ok queues u id r w db w' db' :
  lawful inst queues u → t_workspaces db !! id = Some r → wr_installation_id r = inst →
  decode_workspace id r = Ok w → perform inst u w (wr_snapshot r) db = (Ok w', db') → applied queues u id db w' db'.
Proof.
  intros [Lc La Lcol Lr Lq] Hr Hi Hdec Hrun.
  assert (Hid : ws_id w = id) by (by apply decode_workspace_inv in Hdec as (? & _)). subst id.
  assert (Hgen : ws_generation w = wr_generation r) by (by apply decode_workspace_inv in Hdec as (_ & _ & ? & _)).
  unfold perform in Hrun. run_step Hrun. apply guard_Ok in Hx as [-> Hidle]. run_step Hrun.
  apply andb_true_iff in Hx as [Hperm Hexp%Z.eqb_eq].
  run_step Hrun. pose proof (Lc _ _ _ _ Hx) as ->. run_step Hrun. destruct x as [w1 d'].
  destruct (La _ _ _ _ _ _ Hdec Hperm Hx0) as (-> & Hid' & Hg & Hd' & Hagree).
  run_step Hrun. apply all_i64_Ok, Forall_app in Hx1 as [_ Hnum]. apply Forall_cons in Hnum as [Hmax _].
  run_step Hrun. run_step Hrun. run_step Hrun. injection Hrun as <- <-. cbn [fst snd] in *.
  unfold update_workspace, update_where in Hx1. rewrite Hr in Hx1.
  destruct (_ && _) eqn:Hm; [|by injection Hx1 as <- <-]. injection Hx1 as <- <-.
  apply andb_true_iff in Hm as [[[_ Hst]%andb_true_iff Hmatch]%andb_true_iff Hge%Z.eqb_eq].
  fold (updated_row u w1 d' r) in Hx3.
  pose proof (use_frame t_workspaces _ _ _ _ (Lr _ t_workspaces w w1 ltac:(done)) Hx3) as Ew.
  pose proof (use_frame kept_tables _ _ _ _ (Lr _ kept_tables w w1 ltac:(done)) Hx3) as Ek.
  split; [|lia|done|done|done|].
  - exists r, w, d'. split_and!; try done. apply Hd'. unfold u64_max, i64_max in *. lia.
  - exact (Lq _ _ _ _ _ Hx3).
Qed.

Lemma run_update_run queues u id db r db' :
  lawful inst queues u → run_update inst id u db = (r, db') →
  match r with Ok w' => applied queues u id db w' db' | Err _ => same_tables db db' end.
Proof.
  intros Hl Hrun. destruct r as [w'|e]; [|by eapply transaction_Err].
  unfold run_update in Hrun. rewrite transaction_Ok in Hrun. run_step Hrun. rewrite select_workspace_run in Hx.
  injection Hx as <- <-. destruct (t_workspaces db !! id) as [r|] eqn:Hr; [|done].
  destruct (String.eqb (wr_installation_id r) inst) eqn:Hi; [|done]. apply String.eqb_eq in Hi.
  run_step Hrun. by eapply perform_Ok.
Qed.

Lemma run_op_applied op id expected actor now db r db' :
  run_op op id expected actor now db = (r, db') →
  match r with
  | Ok w' => op_valid op ∧ applied (op_queues op) (op_update op expected actor now) id db w' db'
  | Err _ => same_tables db db'
  end.
Proof.
  intros [[-> He]|[Hv Hrun]]%run_op_run; [by destruct r|].
  apply (run_update_run (op_queues op)) in Hrun; [|by apply op_lawful]. by destruct r.
Qed.

Lemma lift_Ok {A} (r : result StorageError.t A) db a db' : lift r db = (Ok a, db') → r = Ok a.
Proof. by intros [= ->]. Qed.

Lemma applied_done op id expected actor now db w' db' :
  op_valid op → applied (op_queues op) (op_update op expected actor now) id db w' db' → op_done inst op db w'.
Proof.
  intros Hv [(r & w & d' & _ & _ & Hdec & Hperm & _ & _ & Hcheck & Happ & _) _ _ _ _ _].
  destruct op; cbn [op_update u_apply u_check u_permitted cpu_overcommit_update home_capacity_update
    home_volume_update temporary_storage_update image_update] in *.
  - apply lift_Ok in Happ. unfold apply_here in Happ. apply apply_change_Ok in Happ as (-> & _). done.
  - apply lift_Ok in Happ. unfold apply_here in Happ. apply apply_change_Ok in Happ as (-> & _). apply andb_true_iff in Hperm as [_ Hn].
    split; [done|]. cbn. by destruct (ws_home_volume_binding w).
  - apply lift_Ok in Happ. unfold apply_here in Happ. apply apply_change_Ok in Happ as (-> & _). done.
  - run_step Happ. apply lift_Ok in Happ. unfold apply_here in Happ. apply apply_change_Ok in Happ as (-> & _). split_and!; [done|apply Hv..|].
    intros b Hb. cbn in Hb. rewrite Hb in Hx. cbn in Hx. bool_prop. done.
  - apply lift_Ok in Happ. unfold apply_here in Happ. apply apply_change_Ok in Happ as (-> & _). run_step Hcheck. apply lift_Ok, ensure_Ok in Hcheck. done.
  - apply placement_apply_Ok in Happ as (p & _ & Hin & Hpool & (-> & _)%apply_change_Ok). done.
Qed.

Lemma applied_permitted op id expected actor now db w' db' :
  applied (op_queues op) (op_update op expected actor now) id db w' db' →
  ∃ r, t_workspaces db !! id = Some r ∧ wr_installation_id r = inst ∧ wr_generation r = expected ∧
       op_permitted op (wr_state r).
Proof.
  intros [(r & w & d' & Hr & Hi & Hdec & Hperm & Hg & _) _ _ _ _ _]. exists r.
  assert (Hs : ws_state w = wr_state r) by (by apply decoded_row in Hdec as [_ ?]).
  split_and!; [done..|by destruct op|]. rewrite <-Hs.
  destruct op; cbn [op_update u_permitted cpu_overcommit_update home_capacity_update home_volume_update
    temporary_storage_update image_update placement_update op_permitted] in Hperm |- *;
    try (by apply bool_decide_eq_true in Hperm).
  - apply andb_true_iff in Hperm as [Hp _]. by apply bool_decide_eq_true in Hp.
  - destruct adopt_ready; by apply bool_decide_eq_true in Hperm.
Qed.

Lemma expected_update op expected actor now : u_expected_generation (op_update op expected actor now) = expected.
Proof. by destruct op. Qed.

(** C21: an update of a workspace either changes no table, or the workspace was in
    a permitted state (stopped, or ready or failed when a running Home is adopted)
    at exactly the generation the caller saw and no storage operation was active;
    then its row, and no other, becomes one that reads back as the workspace
    returned, one generation later, with the requested change made. A reconciliation
    of that generation is queued, except for an adoption, which leaves the queue as
    it is. *)
Theorem workspace_update_commits op id expected actor now db r db' :
  run_op op id expected actor now db = (r, db') →
  match r with
  | Err _ => same_tables db db'
  | Ok w' =>
      (∃ row, t_workspaces db !! id = Some row ∧ wr_installation_id row = inst ∧ wr_generation row = expected ∧
              op_permitted op (wr_state row)) ∧
      no_active_shrink inst id db ∧ ws_generation w' = expected + 1 ∧ op_done inst op db w' ∧
      get_workspace inst id db' = (Ok w', db') ∧
      (∀ id', id' ≠ id → t_workspaces db' !! id' = t_workspaces db !! id') ∧
      match op with
      | BindHome _ true => t_jobs db' = t_jobs db
      | _ => ∃ job row, t_jobs db !! job = None ∧ t_jobs db' !! job = Some row ∧ reconcile_row inst w' row
      end
  end.
Proof.
  intros Hrun%run_op_applied. destruct r as [w'|e]; [|done]. destruct Hrun as [Hv Hap].
  split; [by eapply applied_permitted|]. pose proof (applied_done _ _ _ _ _ _ _ _ Hv Hap) as Hdone.
  destruct Hap as [(r & w & d' & Hr & Hi & Hdec & _ & _ & _ & _ & _ & Hrows & Hdec' & _) Hgen Hid Hidle _ Hjob].
  rewrite expected_update in Hgen. split_and!; try done.
  - unfold get_workspace. rewrite bind_run, select_workspace_run, Hrows, lookup_insert_eq.
    assert (Hi' : wr_installation_id (updated_row (op_update op expected actor now) w' d' r) = inst).
    { cbn. rewrite <-Hi. destruct (op_lawful op expected actor now Hv) as [_ _ Lcol _ _]. apply Lcol. }
    rewrite Hi', String.eqb_refl. unfold lift. by rewrite Hdec'.
  - intros id' Hne. by rewrite Hrows, lookup_insert_ne.
  - by destruct op as [| |b []| | |].
Qed.

(** ** Stale updates *)
Definition update_step (db db' : Db) : Prop :=
  ∃ op id expected actor now r, run_op op id expected actor now db = (r, db').

Lemma step_generation db db' id r :
  update_step db db' → t_workspaces db !! id = Some r →
  ∃ r', t_workspaces db' !! id = Some r' ∧ wr_generation r <= wr_generation r'.
Proof.
  intros (op & id0 & expected & actor & now & x & Hrun%run_op_applied) Hr. destruct x as [w'|e].
  - destruct Hrun as [_ [(r0 & w & d' & Hr0 & _ & _ & _ & Hg & _ & _ & _ & Hrows & _) Hgen _ _ _ _]].
    rewrite Hrows. destruct (decide (id = id0)) as [->|Hne]; [|exists r; by rewrite lookup_insert_ne].
    eexists. rewrite lookup_insert_eq. split; [done|]. cbn. rewrite Hgen. simplify_eq. lia.
  - exists r. by rewrite (same_tables_view t_workspaces _ _ ltac:(done) Hrun).
Qed.

Lemma steps_generation db db' id r :
  rtc update_step db db' → t_workspaces db !! id = Some r →
  ∃ r', t_workspaces db' !! id = Some r' ∧ wr_generation r <= wr_generation r'.
Proof.
  intros Hsteps. revert r. induction Hsteps as [db|db db1 db' Hstep _ IH]; intros r Hr; [eauto with lia|].
  destruct (step_generation _ _ _ _ Hstep Hr) as (r1 & Hr1 & Hle).
  destruct (IH _ Hr1) as (r' & Hr' & Hle'). eauto with lia.
Qed.

(** Of all updates that were decided on the same generation of a workspace,
    at most one succeeds: once one has, every later one with that expected
    generation fails and changes nothing, whatever updates ran in between. *)
Theorem stale_update_refused op1 op2 id g actor1 actor2 now1 now2 db w1 db1 db2 r db3 :
  run_op op1 id g actor1 now1 db = (Ok w1, db1) → rtc update_step db1 db2 →
  run_op op2 id g actor2 now2 db2 = (r, db3) → is_err r = true ∧ same_tables db2 db3.
Proof.
  intros [_ Hap]%run_op_applied Hsteps Hrun.
  destruct Hap as [(r1 & w & d' & _ & _ & _ & _ & _ & _ & _ & _ & Hrows & _) Hgen _ _ _ _]. rewrite expected_update in Hgen.
  assert (Hr1 : t_workspaces db1 !! id = Some (updated_row (op_update op1 g actor1 now1) w1 d' r1))
    by (rewrite Hrows; apply lookup_insert_eq).
  destruct (steps_generation _ _ _ _ Hsteps Hr1) as (r2 & Hr2 & Hle). cbn in Hle. rewrite Hgen in Hle.
  apply run_op_applied in Hrun. destruct r as [w2|e]; [|done]. destruct Hrun as [_ Hap].
  apply applied_permitted in Hap as (r2' & Hr2' & _ & Hg & _). simplify_eq. lia.
Qed.

(** ** Invariants *)

(** No two workspaces hold the same volume claim, and none holds the claim another
    would create by default. *)
Definition claims_exclusive (db : Db) : Prop :=
  ∀ a b ra rb, t_workspaces db !! a = Some ra → t_workspaces db !! b = Some rb → a ≠ b →
    wr_state ra ≠ Deleted → wr_state rb ≠ Deleted →
    (∀ name, wr_home_pvc_name ra = Some name → wr_home_pvc_name rb ≠ Some name ∧ default_claim (wr_short_id rb) ≠ name) ∧
    (∀ uid, wr_home_pvc_uid ra = Some uid → wr_home_pvc_uid rb ≠ Some uid).

Record updates_inv (db : Db) : Prop := {
  ui_claims : claims_exclusive db;
  ui_columns id r : t_workspaces db !! id = Some r → columns_agree r;
  ui_catalog : catalog_wf inst db;
}.

(** What an update does to the columns of the claim. *)
Lemma updated_claim op expected actor now w' d' r :
  let r' := updated_row (op_update op expected actor now) w' d' r in
  wr_short_id r' = wr_short_id r ∧
  match op with
  | BindHome b _ => wr_home_pvc_name r' = Some (vb_claim_name b) ∧ wr_home_pvc_uid r' = Some (vb_claim_uid b)
  | _ => wr_home_pvc_name r' = wr_home_pvc_name r ∧ wr_home_pvc_uid r' = wr_home_pvc_uid r
  end.
Proof. by destruct op. Qed.

Lemma claim_free id b db : claim_in_use id b db = false →
  ∀ id' r, t_workspaces db !! id' = Some r → id' ≠ id → claims_volume b r = false.
Proof.
  unfold claim_in_use. intros Hfree id' r Hr Hne. destruct (claims_volume b r) eqn:E; [|done].
  assert (Hx : existsb (λ kv, negb (bool_decide (kv.1 = id)) && claims_volume b kv.2) (map_to_list (t_workspaces db)) = true).
  { apply existsb_exists. exists (id', r). split; [by apply list_elem_of_In, elem_of_map_to_list|]. cbn.
    by rewrite bool_decide_eq_false_2, E. }
  congruence.
Qed.

(** The row written conflicts with no other. *)
Definition exclusive_pair (ra rb : WorkspaceRow) : Prop :=
  (∀ name, wr_home_pvc_name ra = Some name → wr_home_pvc_name rb ≠ Some name ∧ default_claim (wr_short_id rb) ≠ name) ∧
  (∀ uid, wr_home_pvc_uid ra = Some uid → wr_home_pvc_uid rb ≠ Some uid).

Lemma bound_exclusive b r' rb :
  wr_home_pvc_name r' = Some (vb_claim_name b) → wr_home_pvc_uid r' = Some (vb_claim_uid b) →
  wr_state rb ≠ Deleted → claims_volume b rb = false → exclusive_pair r' rb.
Proof.
  intros Hn Hu Hst Hfree. unfold claims_volume in Hfree. rewrite bool_decide_eq_false_2 in Hfree by done. cbn in Hfree.
  apply orb_false_iff in Hfree as [[Hn' Hu']%orb_false_iff Hd]. apply bool_decide_eq_false in Hn', Hu'. apply String.eqb_neq in Hd.
  split; [intros name Hname|intros uid Huid]; [|congruence]. split; congruence.
Qed.

Lemma exclusive_default b r' rb :
  wr_home_pvc_name r' = Some (vb_claim_name b) → wr_home_pvc_uid r' = Some (vb_claim_uid b) →
  wr_state rb ≠ Deleted → claims_volume b rb = false →
  (∀ name, wr_home_pvc_name rb = Some name → default_claim (wr_short_id r') ≠ name) → exclusive_pair rb r'.
Proof.
  intros Hn Hu Hst Hfree Hdef. destruct (bound_exclusive b r' rb Hn Hu Hst Hfree) as [Hfwd Hbwd].
  split; [intros name Hname; split; [|by apply Hdef]|intros uid Huid]; intros E.
  - by destruct (Hfwd _ E).
  - by destruct (Hbwd _ E).
Qed.

Lemma applied_claims op id expected actor now db w' db' :
  applied (op_queues op) (op_update op expected actor now) id db w' db' → claims_exclusive db → claims_exclusive db'.
Proof.
  intros Hap Hex. destruct (applied_permitted _ _ _ _ _ _ _ _ Hap) as (r0 & Hr0 & _ & _ & Hst).
  destruct Hap as [(r & w & d' & Hr & _ & Hdec & _ & _ & _ & Hcheck & _ & Hrows & _) _ _ _ _ _]. simplify_eq.
  assert (Hlive : wr_state r ≠ Deleted) by (destruct op as [| |b []| | |]; cbn in Hst; destruct (wr_state r); naive_solver).
  pose proof (updated_claim op expected actor now w' d' r) as [Hshort Hclaim].
  set (r' := updated_row _ w' d' r) in *.
  assert (Hpair : ∀ b rb, t_workspaces db !! b = Some rb → b ≠ id → wr_state rb ≠ Deleted →
            exclusive_pair r' rb ∧ exclusive_pair rb r').
  { intros b rb Hb Hne Hrb. pose proof (Hex _ _ _ _ Hr Hb ltac:(congruence) Hlive Hrb) as Hfwd.
    pose proof (Hex _ _ _ _ Hb Hr Hne Hrb Hlive) as Hbwd.
    destruct op as [| |bd adopt| | |]; try (destruct Hclaim as [En Eu];
      split; unfold exclusive_pair; rewrite ?En, ?Eu, ?Hshort; [exact Hfwd|exact Hbwd]).
    destruct Hclaim as [En Eu].
    assert (Hfree : claim_in_use id bd db = false).
    { cbn [op_update u_check home_volume_update] in Hcheck. run_step Hcheck. run_step Hcheck. run_step Hcheck.
      apply lift_Ok, ensure_Ok, negb_true_iff in Hcheck.
      apply decode_workspace_inv in Hdec as (<- & _). exact Hcheck. }
    pose proof (claim_free _ _ _ Hfree _ _ Hb Hne) as Hcv. split; [by eapply bound_exclusive|].
    eapply exclusive_default; [done..|]. intros name Hname. rewrite Hshort. by apply Hbwd. }
  intros a b ra rb. rewrite Hrows, !lookup_insert_Some.
  intros [[<- <-]|[Hna Ha]] [[<- <-]|[Hnb Hb]] Hab Hsa Hsb; [done|apply (Hpair b rb); auto|apply (Hpair a ra); auto|by eapply Hex].
Qed.

Lemma applied_catalog op id expected actor now db w' db' :
  op_valid op → applied (op_queues op) (op_update op expected actor now) id db w' db' →
  catalog_wf inst db → catalog_wf inst db'.
Proof.
  intros Hv Hap [Ht Hp Hw]. pose proof (applied_done _ _ _ _ _ _ _ _ Hv Hap) as Hdone.
  destruct (applied_permitted _ _ _ _ _ _ _ _ Hap) as (r0 & Hr0 & _ & _ & Hst).
  destruct Hap as [(r & w & d' & Hr & Hi & _ & _ & _ & _ & _ & _ & Hrows & _) _ _ _ Hk _].
  injection Hk as _ _ E1 E2 E3. rewrite Hr in Hr0. injection Hr0 as <-. split; unfold pools_match; rewrite ?E1, ?E2, ?E3; [exact Ht|exact Hp|].
  intros id' r'. rewrite Hrows, lookup_insert_Some. intros [[<- <-]|[_ Hr']] Hi' Hs'; [|by eapply Hw].
  assert (Hlive : wr_state r ≠ Deleted) by (destruct op as [| |b []| | |]; cbn in Hst; destruct (wr_state r); naive_solver).
  destruct op; try (cbn; by eapply Hw). destruct Hdone as (<- & _ & Hpool). exact Hpool.
Qed.

(** No update, whether it succeeds or fails, lets two workspaces hold the same
    volume claim, lets the columns quotas are computed from disagree with the stored
    template, or leaves a workspace in a node pool that does not exist. *)
Theorem updates_keep_invariants op id expected actor now db r db' :
  run_op op id expected actor now db = (r, db') → updates_inv db → updates_inv db'.
Proof.
  intros Hrun%run_op_applied [Hc Ha Hw]. destruct r as [w'|e].
  - destruct Hrun as [Hv Hap]. split; [by eapply applied_claims| |by eapply applied_catalog].
    intros k r. destruct Hap as [(r0 & w & d' & Hr & _ & _ & _ & _ & _ & _ & _ & -> & _ & Hag) _ _ _ _ _].
    rewrite lookup_insert_Some. intros [[<- <-]|[_ Hk]]; [|by eapply Ha]. apply Hag. by eapply Ha.
  - pose proof (same_tables_view t_workspaces _ _ ltac:(done) Hrun) as Ew.
    pose proof (same_tables_view catalog_tables _ _ ltac:(done) Hrun) as Ec.
    split; [unfold claims_exclusive; by rewrite Ew|by rewrite Ew|by eapply catalog_wf_ext].
Qed.
End Operations.

(** ** Witnesses *)
Module UpdateSample.
Definition created : Db := CreationSample.run.2.
Definition stop_row (r : WorkspaceRow) : WorkspaceRow :=
  set_columns (wr_disk_gib r) (wr_temporary_storage_gib r) (wr_node_pool r) Stopped None r.
Definition db : Db := set_t_workspaces (stop_row <$> t_workspaces created) created.
Definition row : WorkspaceRow :=
  Eval vm_compute in default (mkWorkspaceRow "" "" 0 0 "" None Failed 0 0 0 0 0 "" 0 0 0 CatalogSample.document
                               None None None None None) (t_workspaces db !! 1001%N).
Definition template : TemplateRow :=
  Eval vm_compute in default (mkTemplateRow "" None "" "" Internal 0 0 0 0 0 false 0 0 "") (t_templates db !! 1000%N).
Definition binding : WorkspaceHomeVolumeBinding := mkBinding WORKSPACE_NAMESPACE "old-home" "uid-1" 30.
Definition run := @run_op decimal_uuid_text CatalogSample.yaml Postgres "inst" (BindHome binding false) 1001 1 3 60 db.
End UpdateSample.

Lemma workspace_update_commits_witness :
  ∃ w db', UpdateSample.run = (Ok w, db') ∧ ws_generation w = 2 ∧
    ws_home_volume_binding w = Some UpdateSample.binding ∧ disk_gib (resources (ws_template w)) = 30 ∧
    @get_workspace decimal_uuid_text "inst" 1001 db' = (Ok w, db').
Proof.
  destruct UpdateSample.run as [r db'] eqn:E.
  assert (∃ w, r = Ok w) as [w ->] by (apply (f_equal fst) in E; vm_compute in E; eauto).
  edestruct (@workspace_update_commits decimal_uuid_text CatalogSample.yaml Postgres "inst"
    (BindHome UpdateSample.binding false) 1001%N 1 3%N 60 UpdateSample.db (Ok w) db' E)
    as (_ & _ & Hg & [Hb Hd] & Hget & _).
  exists w, db'. split_and!; [reflexivity|exact Hg|exact Hb|exact Hd|exact Hget].
Defined.

Lemma stale_update_refused_witness :
  ∃ w db1 r db3, UpdateSample.run = (Ok w, db1) ∧
    @run_op decimal_uuid_text CatalogSample.yaml Postgres "inst" (SetRatio 4) 1001 1 3 70 db1 = (r, db3) ∧
    is_err r = true ∧ same_tables db1 db3.
Proof.
  destruct UpdateSample.run as [r db1] eqn:E.
  assert (∃ w, r = Ok w) as [w ->] by (apply (f_equal fst) in E; vm_compute in E; eauto).
  destruct (@run_op decimal_uuid_text CatalogSample.yaml Postgres "inst" (SetRatio 4) 1001%N 1 3%N 70 db1) as [r2 db3] eqn:E2.
  exists w, db1, r2, db3. split; [reflexivity|]. split; [exact E2|].
  eapply (@stale_update_refused decimal_uuid_text CatalogSample.yaml Postgres "inst"); [exact E|apply rtc_refl|exact E2].
Defined.

Lemma singleton_lookup {K V} `{Countable K} (m : gmap K V) k v k' v' :
  map_to_list m = [(k, v)] → m !! k' = Some v' → k' = k ∧ v' = v.
Proof. intros E Hk%elem_of_map_to_list. rewrite E in Hk. apply list_elem_of_singleton in Hk. by simplify_eq. Qed.

Lemma sample_workspaces : map_to_list (t_workspaces UpdateSample.db) = [(1001%N, UpdateSample.row)].
Proof. vm_compute. reflexivity. Qed.
Lemma sample_templates : map_to_list (t_templates UpdateSample.db) = [(1000%N, UpdateSample.template)].
Proof. vm_compute. reflexivity. Qed.
Lemma sample_pools :
  map_to_list (t_template_node_pools UpdateSample.db) = [(("inst", 1000%N, "default"), true)].
Proof. vm_compute. reflexivity. Qed.

Lemma sample_updates_inv : @updates_inv CatalogSample.yaml "inst" UpdateSample.db.
Proof.
  split.
  - intros a b ra rb [-> _]%(singleton_lookup _ _ _ _ _ sample_workspaces)
      [-> _]%(singleton_lookup _ _ _ _ _ sample_workspaces). done.
  - intros id r [_ ->]%(singleton_lookup _ _ _ _ _ sample_workspaces). vm_compute. by split_and!.
  - split.
    + intros id r [-> ->]%(singleton_lookup _ _ _ _ _ sample_templates) _.
      exists CatalogSample.document. split; [vm_compute; reflexivity|]. intros pool b. split.
      * intros [E ->]%(singleton_lookup _ _ _ _ _ sample_pools). injection E as ->. split; [by left|done].
      * intros [Hin ->]. apply list_elem_of_singleton in Hin as ->. vm_compute. reflexivity.
    + intros id pool b [E ->]%(singleton_lookup _ _ _ _ _ sample_pools). injection E as -> ->.
      split; vm_compute; eauto.
    + intros id r [_ ->]%(singleton_lookup _ _ _ _ _ sample_workspaces) _ _. vm_compute. eauto.
Qed.

Lemma updates_keep_invariants_witness : @updates_inv CatalogSample.yaml "inst" UpdateSample.run.2.
Proof.
  destruct UpdateSample.run as [r db'] eqn:E.
  exact (@updates_keep_invariants decimal_uuid_text CatalogSample.yaml Postgres "inst" (BindHome UpdateSample.binding false)
    1001%N 1 3%N 60 UpdateSample.db r db' E sample_updates_inv).
Defined.
