(* ===== verification/Identity.v ===== *)
(** * Users, organizations and memberships ([src/storage/admin_store/],
    [src/storage/identity/], [src/storage/user_settings/profile.rs])

    Every operation that could leave the installation without an active system
    administrator, or an organization without an active administrator, counts
    those that remain under a lock. A transaction is atomic here, which is what
    the SQLite write lock and the Postgres advisory locks provide. *)
From S2P Require Import Prelude Text Json Quota Auth Templates Workspaces Errors ShrinkOperation Database Crypto Catalog.

Record UserSummary := mkUserSummary {
  us_id : Uuid;
  us_display_name : string;
  us_system_admin : bool;
  us_disabled : bool;
  us_created_at : Z;
  us_membership_role : option (option Role);
}.

Record Organization := mkOrganization {
  org_id : Uuid;
  org_name : string;
  org_created_at : Z;
}.

(** ** Users *)
Definition select_user (inst : string) (user_id : Uuid) (db : Db) : option UserRow :=
  match t_users db !! user_id with
  | Some u => if String.eqb (u_installation_id u) inst then Some u else None
  | None => None
  end.

Definition decode_user (id : Uuid) (u : UserRow) : UserSummary :=
  mkUserSummary id (u_display_name u) (u_system_admin u) (u_disabled u) (u_created_at u) None.

Definition active_system_admin (inst : string) (u : UserRow) : bool :=
  String.eqb (u_installation_id u) inst && u_system_admin u && negb (u_disabled u).

(** [COUNT( * )] of the rows that satisfy a condition. *)
Definition count_rows {K V} `{Countable K} (p : K → V → bool) (m : gmap K V) : Z :=
  Z.of_nat (length (List.filter (λ kv, p kv.1 kv.2) (map_to_list m))).

(** The user of a membership row, if it is an active administrator's. *)
Definition active_admin (inst : string) (organization_id : Uuid) (db : Db)
    (key : string * Uuid * Uuid) (m : MembershipRow) : bool :=
  String.eqb key.1.1 inst && bool_decide (key.1.2 = organization_id)
  && bool_decide (m_role m = OrganizationAdmin)
  && is_some_and (select_user inst key.2 db) (λ u, negb (u_disabled u)).

(** [ensure_user_keeps_active_organization_administrator_sqlite] and
    [..._postgres]: every organization the user administers has another active
    administrator. *)
Definition sole_admin (inst : string) (user_id : Uuid) (db : Db) (key : string * Uuid * Uuid) (m : MembershipRow) : bool :=
  String.eqb key.1.1 inst && bool_decide (key.2 = user_id) && bool_decide (m_role m = OrganizationAdmin)
  && negb (existsb (λ kv : (string * Uuid * Uuid) * MembershipRow,
                      active_admin inst key.1.2 db kv.1 kv.2 && negb (bool_decide (kv.1.2 = user_id)))
             (map_to_list (t_memberships db))).

Definition ensure_user_keeps_active_organization_administrator (inst : string) (user_id : Uuid) : DbM () :=
  count ← reads (λ db, count_rows (sole_admin inst user_id db) (t_memberships db));
  lift (ensure (negb (0 <? count)) StorageError.LastOrganizationAdmin).

Definition set_user (display_name : string) (system_admin disabled : bool) (u : UserRow) : UserRow :=
  mkUserRow (u_installation_id u) display_name (u_token_hash u) system_admin disabled (u_created_at u) (u_avatar_url u).

Definition update_user_row := update_where t_users set_t_users.

(** [update_user_sqlite] and [update_user_postgres]. *)
Definition update_user_tx (inst : string) (user_id : Uuid) (display_name : option string)
    (system_admin disabled : option bool) : DbM UserSummary :=
  transaction (
    row ← reads (select_user inst user_id);
    row ← lift (ok_or row StorageError.UserNotFound);
    let current := decode_user user_id row in
    let next_admin := default (us_system_admin current) system_admin in
    let next_disabled := default (us_disabled current) disabled in
    admins ← reads (λ db, count_rows (λ _, active_system_admin inst) (t_users db));
    _ ← lift (ensure (negb (us_system_admin current && negb (us_disabled current)
                            && (negb next_admin || next_disabled) && (admins <=? 1)))
                StorageError.LastSystemAdmin);
    _ ← (if negb (us_disabled current) && next_disabled
         then ensure_user_keeps_active_organization_administrator inst user_id else mret ());
    let next_name := trimmed (default (us_display_name current) display_name) in
    _ ← update_user_row user_id (λ u, String.eqb (u_installation_id u) inst)
          (set_user next_name next_admin next_disabled);
    mret (mkUserSummary user_id next_name next_admin next_disabled (us_created_at current) None)).

Definition update_user (inst : string) (user_id : Uuid) (display_name : option string)
    (system_admin disabled : option bool) : DbM UserSummary :=
  _ ← lift (ensure (negb (is_some_and display_name (λ v, bool_decide (trim (chars v) = []) || (120 <? len v))))
              StorageError.InvalidUserProfile);
  update_user_tx inst user_id display_name system_admin disabled.

(** ** Memberships *)

(** [ensure_another_organization_admin_sqlite] and [..._postgres]. *)
Definition ensure_another_organization_admin (inst : string) (organization_id : Uuid) : DbM () :=
  count ← reads (λ db, count_rows (active_admin inst organization_id db) (t_memberships db));
  lift (ensure (negb (count <=? 1)) StorageError.LastOrganizationAdmin).

Definition current_role (inst : string) (organization_id user_id : Uuid) (db : Db) : option Role :=
  m_role <$> t_memberships db !! (inst, organization_id, user_id).

(** The foreign keys of the table. *)
Definition membership_allowed (organization_id user_id : Uuid) (db : Db) : bool :=
  is_some (t_organizations db !! organization_id) && is_some (t_users db !! user_id).

Definition upsert_membership (inst : string) (organization_id user_id : Uuid) (role : Role) (now : Z) : DbM () :=
  transaction (
    current ← reads (current_role inst organization_id user_id);
    _ ← (if bool_decide (current = Some OrganizationAdmin) && negb (bool_decide (role = OrganizationAdmin))
         then ensure_another_organization_admin inst organization_id else mret ());
    allowed ← reads (membership_allowed organization_id user_id);
    _ ← lift (ensure allowed StorageError.Database);
    modify (λ db,
      let created := match t_memberships db !! (inst, organization_id, user_id) with
                     | Some m => m_created_at m | None => now end in
      set_t_memberships (<[(inst, organization_id, user_id) := mkMembershipRow role created]> (t_memberships db)) db)).

Definition remove_membership (inst : string) (organization_id user_id : Uuid) : DbM () :=
  transaction (
    current ← reads (current_role inst organization_id user_id);
    _ ← (if bool_decide (current = Some OrganizationAdmin)
         then ensure_another_organization_admin inst organization_id else mret ());
    modify (λ db, set_t_memberships (delete (inst, organization_id, user_id) (t_memberships db)) db)).

(** ** Organizations *)
Definition organization_name_taken (inst : string) (id : Uuid) (name : string) (db : Db) : bool :=
  existsb (λ kv, negb (bool_decide (kv.1 = id)) && String.eqb (o_installation_id kv.2) inst
                 && String.eqb (o_name kv.2) name) (map_to_list (t_organizations db)).

(** [insert_membership_sqlite] and [insert_membership_postgres]. *)
Definition insert_membership (inst : string) (organization_id user_id : Uuid) (role : Role) (now : Z) : DbM () :=
  allowed ← reads (membership_allowed organization_id user_id);
  _ ← lift (ensure allowed StorageError.Database);
  insert_row t_memberships set_t_memberships (inst, organization_id, user_id) (mkMembershipRow role now).

(** [insert_organization_sqlite] and [insert_organization_postgres]. *)
Definition insert_organization (inst : string) (o : Organization) (owner_user_id : Uuid) (now : Z) : DbM () :=
  taken ← reads (organization_name_taken inst (org_id o) (org_name o));
  _ ← lift (ensure (negb taken) StorageError.Database);
  _ ← insert_row t_organizations set_t_organizations (org_id o) (mkOrganizationRow inst (org_name o) now);
  insert_membership inst (org_id o) owner_user_id OrganizationAdmin now.

Definition create_organization (inst : string) (name : string) (owner_user_id : Uuid) (now : Z) : DbM Organization :=
  id ← now_v7;
  let o := mkOrganization id (trimmed name) now in
  _ ← lift (ensure (negb (bool_decide (org_name o = ""))) StorageError.OrganizationNotFound);
  _ ← transaction (insert_organization inst o owner_user_id now);
  mret o.

Definition select_organization (inst : string) (id : Uuid) (db : Db) : option OrganizationRow :=
  match t_organizations db !! id with
  | Some o => if String.eqb (o_installation_id o) inst then Some o else None
  | None => None
  end.

Definition get_organization (inst : string) (id : Uuid) : DbM Organization :=
  row ← reads (select_organization inst id);
  lift (match row with
        | Some o => Ok (mkOrganization id (o_name o) (o_created_at o))
        | None => Err StorageError.OrganizationNotFound
        end).

Definition rename_organization (inst : string) (id : Uuid) (name : string) : DbM Organization :=
  let name := trimmed name in
  _ ← lift (ensure (negb (bool_decide (name = "") || (120 <? len name))) StorageError.InvalidWorkspace);
  row ← reads (select_organization inst id);
  taken ← reads (organization_name_taken inst id name);
  _ ← lift (ensure (negb (is_some row && taken)) StorageError.Database);
  updated ← update_where t_organizations set_t_organizations id (λ o, String.eqb (o_installation_id o) inst)
              (λ o, mkOrganizationRow (o_installation_id o) name (o_created_at o));
  _ ← lift (ensure (negb (updated =? 0)) StorageError.OrganizationNotFound);
  get_organization inst id.

(** Workspaces that are not deleted and templates of the organization. *)
Definition organization_contents (inst : string) (id : Uuid) (db : Db) : Z :=
  count_rows (λ _ w, String.eqb (wr_installation_id w) inst && bool_decide (wr_organization_id w = id)
                     && negb (bool_decide (wr_state w = Deleted))) (t_workspaces db)
  + count_rows (λ _ t, String.eqb (tr_installation_id t) inst && bool_decide (tr_organization_id t = Some id))
      (t_templates db).

(** Rows of deleted workspaces still refer to their organization. *)
Definition organization_referenced (id : Uuid) (db : Db) : bool :=
  existsb (λ kv, bool_decide (wr_organization_id kv.2 = id)) (map_to_list (t_workspaces db)).

(** Its memberships and quota go with an organization. *)
Definition cascade_organization (id : Uuid) (db : Db) : Db :=
  set_t_organizations (delete id (t_organizations db))
    (set_t_memberships
       (filter (λ kv : (string * Uuid * Uuid) * MembershipRow, kv.1.1.2 ≠ id) (t_memberships db))
       (set_t_organization_quotas
          (filter (λ kv : (string * Uuid) * QuotaRow, kv.1.2 ≠ id) (t_organization_quotas db)) db)).

Definition delete_organization_if_empty (inst : string) (id : Uuid) : DbM () :=
  count ← reads (organization_contents inst id);
  _ ← lift (ensure (negb (0 <? count)) StorageError.OrganizationInUse);
  row ← reads (select_organization inst id);
  match row with
  | None => fail StorageError.OrganizationNotFound
  | Some _ =>
      referenced ← reads (organization_referenced id);
      _ ← lift (ensure (negb referenced) StorageError.Database);
      modify (cascade_organization id)
  end.

(** ** Quotas *)
Definition quota_columns (error : StorageError.t) (r : QuotaResources) (now : Z) : result StorageError.t QuotaRow :=
  cpu ← ok_or (i64_try_from (q_cpu_millis r)) error;
  memory ← ok_or (i64_try_from (q_memory_mib r)) error;
  disk ← ok_or (i64_try_from (q_disk_gib r)) error;
  Ok (mkQuotaRow cpu memory (q_gpu_count r) disk 0 now).

Definition set_organization_quota (inst : string) (organization_id : Uuid) (r : QuotaResources) (now : Z) : DbM () :=
  row ← lift (quota_columns StorageError.LeaseDurationOverflow r now);
  exists_ ← reads (λ db, is_some (t_organizations db !! organization_id));
  _ ← lift (ensure exists_ StorageError.Database);
  modify (λ db, set_t_organization_quotas (<[(inst, organization_id) := row]> (t_organization_quotas db)) db).

Definition set_user_quota (inst : string) (user_id : Uuid) (r : QuotaResources) (now : Z) : DbM () :=
  row ← lift (quota_columns StorageError.InvalidWorkspace r now);
  exists_ ← reads (λ db, is_some (t_users db !! user_id));
  _ ← lift (ensure exists_ StorageError.Database);
  modify (λ db, set_t_user_quotas (<[(inst, user_id) := row]> (t_user_quotas db)) db).

Definition decode_resources (r : QuotaRow) : result StorageError.t QuotaResources :=
  cpu ← ok_or (u64_try_from (qr_cpu_millis r)) StorageError.InvalidWorkspace;
  memory ← ok_or (u64_try_from (qr_memory_mib r)) StorageError.InvalidWorkspace;
  gpu ← ok_or (u32_try_from (qr_gpu_count r)) StorageError.InvalidWorkspace;
  disk ← ok_or (u64_try_from (qr_disk_gib r)) StorageError.InvalidWorkspace;
  Ok (mkQuotaResources cpu memory gpu disk 0).

Definition decode_optional_resources (row : option QuotaRow) : result StorageError.t (option QuotaResources) :=
  match row with None => Ok None | Some r => q ← decode_resources r; Ok (Some q) end.

Definition get_organization_quota (inst : string) (organization_id : Uuid) : DbM (option QuotaResources) :=
  row ← reads (λ db, t_organization_quotas db !! (inst, organization_id));
  lift (decode_optional_resources row).

Definition get_user_quota (inst : string) (user_id : Uuid) : DbM (option QuotaResources) :=
  row ← reads (λ db, t_user_quotas db !! (inst, user_id));
  lift (decode_optional_resources row).

(** ** Profiles *)
Record StoredUserProfile := mkProfile {
  sp_user_id : Uuid;
  sp_display_name : string;
  sp_avatar_url : option string;
}.

Definition MAX_AVATAR_BYTES : Z := 512 * 1024.

Definition octet_values (bs : Octets) : list Z := (λ c, Z.of_nat (Ascii.nat_of_ascii c)) <$> bs.

Definition matches_magic (media_type : list Z) (bs : list Z) : bool :=
  if bool_decide (media_type = bytes "image/png") then bool_decide (take 8 bs = [137; 80; 78; 71; 13; 10; 26; 10])
  else if bool_decide (media_type = bytes "image/jpeg") then bool_decide (take 3 bs = [255; 216; 255])
  else if bool_decide (media_type = bytes "image/webp")
  then (12 <=? Z.of_nat (length bs)) && bool_decide (take 4 bs = bytes "RIFF")
       && bool_decide (take 4 (drop 8 bs) = bytes "WEBP")
  else false.

Definition raster_type (media_type : list Z) : bool :=
  bool_decide (media_type ∈ [bytes "image/png"; bytes "image/jpeg"; bytes "image/webp"]).

Definition ceil_div (a b : Z) : Z := (a + b - 1) / b.

Section Profile.
Context `{Base64Codec}.

Definition validate_avatar_data_url (value : string) : result StorageError.t string :=
  let invalid := StorageError.InvalidUserProfile in
  _ ← ensure (negb ((4 * ceil_div MAX_AVATAR_BYTES 3 + 32 <? len value) || existsb is_control (chars value))) invalid;
  parts ← ok_or (strip_prefix (bytes "data:") (bytes value) ≫= split_once (bytes ";base64,")) invalid;
  _ ← ensure (raster_type parts.1 && negb (bool_decide (parts.2 = []))) invalid;
  decoded ← ok_or (base64_decode (string_of_bytes parts.2)) invalid;
  _ ← ensure ((Z.of_nat (length decoded) <=? MAX_AVATAR_BYTES) && matches_magic parts.1 (octet_values decoded)) invalid;
  Ok ("data:" +:+ string_of_bytes parts.1 +:+ ";base64," +:+ base64_encode decoded).

Definition validate_profile (display_name : string) (avatar_url : option string)
    : result StorageError.t (string * option string) :=
  let name := trim (chars display_name) in
  _ ← ensure (negb (bool_decide (name = []) || (80 <? Z.of_nat (length name)) || existsb is_control name))
        StorageError.InvalidUserProfile;
  avatar ← match trimmed <$> avatar_url with
           | Some value =>
               if bool_decide (value = "") then Ok None
               else url ← validate_avatar_data_url value; Ok (Some url)
           | None => Ok None
           end;
  Ok (trimmed display_name, avatar).

Definition update_user_profile (inst : string) (user_id : Uuid) (display_name : string)
    (avatar_url : option string) : DbM StoredUserProfile :=
  valid ← lift (validate_profile display_name avatar_url);
  rows ← update_user_row user_id (λ u, String.eqb (u_installation_id u) inst && negb (u_disabled u))
           (λ u, mkUserRow (u_installation_id u) valid.1 (u_token_hash u) (u_system_admin u) (u_disabled u)
                   (u_created_at u) valid.2);
  _ ← lift (ensure (rows =? 1) StorageError.UserNotFound);
  mret (mkProfile user_id valid.1 valid.2).
End Profile.

Definition get_user_profile (inst : string) (user_id : Uuid) : DbM StoredUserProfile :=
  row ← reads (select_user inst user_id);
  lift (match row with
        | Some u => if u_disabled u then Err StorageError.UserNotFound
                    else Ok (mkProfile user_id (u_display_name u) (u_avatar_url u))
        | None => Err StorageError.UserNotFound
        end).

(** ** Administrators remain *)
Section Administrators.
Context (inst : string).

(** An organization has an active administrator; the installation an active
    system administrator. *)
Definition org_managed (org : Uuid) (db : Db) : Prop :=
  ∃ user m u, t_memberships db !! (inst, org, user) = Some m ∧ m_role m = OrganizationAdmin ∧
    select_user inst user db = Some u ∧ u_disabled u = false.
Definition system_managed (db : Db) : Prop :=
  ∃ user u, t_users db !! user = Some u ∧ active_system_admin inst u = true.

Record keeps_managed (db db' : Db) : Prop := {
  km_org org : is_Some (t_organizations db' !! org) → org_managed org db → org_managed org db';
  km_system : system_managed db → system_managed db';
}.

Lemma count_rows_other {K V} `{Countable K} (p : K → V → bool) (m : gmap K V) k0 :
  1 < count_rows p m → ∃ k v, m !! k = Some v ∧ p k v = true ∧ k ≠ k0.
Proof.
  unfold count_rows. intros Hc.
  assert (Hnd : NoDup (fst <$> List.filter (λ kv, p kv.1 kv.2) (map_to_list m))).
  { apply NoDup_fmap_fst.
    - intros k v1 v2 [Hx _]%list_elem_of_In%filter_In [Hy _]%list_elem_of_In%filter_In.
      apply list_elem_of_In, elem_of_map_to_list in Hx, Hy. congruence.
    - apply NoDup_ListNoDup, List.NoDup_filter, NoDup_ListNoDup, NoDup_map_to_list. }
  assert (Hin : ∀ k v, (k, v) ∈ List.filter (λ kv, p kv.1 kv.2) (map_to_list m) → m !! k = Some v ∧ p k v = true).
  { intros k v [Hx Hp]%list_elem_of_In%filter_In. by apply list_elem_of_In, elem_of_map_to_list in Hx. }
  destruct (List.filter _ _) as [|[k v] [|[k' v'] l]]; [cbn in Hc; lia|cbn in Hc; lia|].
  destruct (Hin k v ltac:(by left)) as [Hk Hpk]. destruct (Hin k' v' ltac:(by right; left)) as [Hk' Hpk'].
  destruct (decide (k = k0)) as [->|]; [|by exists k, v]. exists k', v'. split_and!; [done..|].
  cbn in Hnd. apply NoDup_cons in Hnd as [Hnd _]. intros ->. apply Hnd. by left.
Qed.

Lemma count_rows_zero {K V} `{Countable K} (p : K → V → bool) (m : gmap K V) k v :
  count_rows p m <= 0 → m !! k = Some v → p k v = false.
Proof.
  unfold count_rows. intros Hc Hk. destruct (p k v) eqn:E; [|done].
  assert (Hin : In (k, v) (List.filter (λ kv, p kv.1 kv.2) (map_to_list m))).
  { apply filter_In. split; [by apply list_elem_of_In, elem_of_map_to_list|done]. }
  destruct (List.filter _ _); [done|cbn in Hc; lia].
Qed.

Lemma active_admin_true org db key m :
  active_admin inst org db key m = true →
  ∃ user u, key = (inst, org, user) ∧ m_role m = OrganizationAdmin ∧ select_user inst user db = Some u ∧ u_disabled u = false.
Proof.
  destruct key as [[i o] user]. unfold active_admin. cbn. intros Ha.
  apply andb_true_iff in Ha as [[[Hi%String.eqb_eq Ho]%andb_true_iff Hr]%andb_true_iff Hu].
  apply bool_decide_eq_true in Ho, Hr. apply is_some_and_true in Hu as (u & Hu & Hd%negb_true_iff). subst. eauto 6.
Qed.

Lemma keeps_managed_refl db : keeps_managed db db.
Proof. by split. Qed.

Lemma keeps_managed_ext db db' :
  t_memberships db' = t_memberships db → t_users db' = t_users db → keeps_managed db db'.
Proof.
  intros Em Eu. split; unfold org_managed, system_managed, select_user; by rewrite ?Em, ?Eu.
Qed.

Lemma transaction_managed {A} (m : DbM A) db r db' :
  (∀ a db1, m db = (Ok a, db1) → keeps_managed db db1) → transaction m db = (r, db') → keeps_managed db db'.
Proof.
  intros Hm. apply (transaction_inv (keeps_managed db)); [|apply keeps_managed_refl|done].
  intros n db0 [Ho Hs]. by split.
Qed.

(** Changing one membership leaves another administrator's alone. *)
Lemma membership_change_managed org user db M :
  (∀ k, k ≠ (inst, org, user) → M !! k = t_memberships db !! k) →
  (current_role inst org user db = Some OrganizationAdmin →
     (∃ m, M !! (inst, org, user) = Some m ∧ m_role m = OrganizationAdmin) ∨
     1 < count_rows (active_admin inst org db) (t_memberships db)) →
  keeps_managed db (set_t_memberships M db).
Proof.
  intros Hother Hadmin. split; [|done]. intros o _ (x & m & u & Hm & Hr & Hu & Hd).
  destruct (decide ((inst, o, x) = (inst, org, user))) as [E|Hne];
    [|by exists x, m, u; cbn; rewrite Hother].
  injection E as -> ->. destruct Hadmin as [(m' & Hm' & Hr')|Hc].
  - unfold current_role. by rewrite Hm; cbn; rewrite Hr.
  - by exists user, m', u.
  - destruct (count_rows_other _ _ (inst, org, user) Hc) as (k & v & Hk & Ha & Hne).
    apply active_admin_true in Ha as (y & uy & -> & Hry & Huy & Hdy). exists y, v, uy. cbn. by rewrite Hother.
Qed.

Lemma upsert_membership_managed org user role now db r db' :
  upsert_membership inst org user role now db = (r, db') → keeps_managed db db'.
Proof.
  apply transaction_managed. clear. intros [] db1 Hrun. run_step Hrun. run_step Hrun.
  assert (dbx = db ∧ (current_role inst org user db = Some OrganizationAdmin → role = OrganizationAdmin ∨
            1 < count_rows (active_admin inst org db) (t_memberships db))) as [-> Hg].
  { destruct (bool_decide (current_role _ _ _ _ = _)) eqn:Ec; cbn in Hx.
    - destruct (bool_decide (role = OrganizationAdmin)) eqn:Er; cbn in Hx.
      + injection Hx as <-. apply bool_decide_eq_true in Er. auto.
      + unfold ensure_another_organization_admin in Hx. run_step Hx. injection Hx as Hx <-.
        apply ensure_Ok, negb_true_iff, Z.leb_gt in Hx. split; [done|]. intros _. right. lia.
    - injection Hx as <-. apply bool_decide_eq_false in Ec. by split. }
  run_step Hrun. run_step Hrun. injection Hrun as <-. apply membership_change_managed with (org := org) (user := user).
  - intros k Hk. by rewrite lookup_insert_ne.
  - intros Hc. destruct (Hg Hc) as [->|?]; [left|by right]. eexists. by rewrite lookup_insert_eq.
Qed.

Lemma remove_membership_managed org user db r db' :
  remove_membership inst org user db = (r, db') → keeps_managed db db'.
Proof.
  apply transaction_managed. clear. intros [] db1 Hrun. run_step Hrun. run_step Hrun.
  assert (dbx = db ∧ (current_role inst org user db = Some OrganizationAdmin →
            1 < count_rows (active_admin inst org db) (t_memberships db))) as [-> Hg].
  { destruct (bool_decide (current_role _ _ _ _ = _)) eqn:Ec; cbn in Hx.
    - unfold ensure_another_organization_admin in Hx. run_step Hx. injection Hx as Hx <-.
      apply ensure_Ok, negb_true_iff, Z.leb_gt in Hx. split; [done|]. intros _. lia.
    - injection Hx as <-. apply bool_decide_eq_false in Ec. by split. }
  injection Hrun as <-. apply membership_change_managed with (org := org) (user := user).
  - intros k Hk. by rewrite lookup_delete_ne.
  - intros Hc. right. by apply Hg.
Qed.

(** Replacing a user's row keeps the administrators if the user stays active, or
    others remain. *)
Lemma select_user_insert user u' db x :
  select_user inst x (set_t_users (<[user := u']> (t_users db)) db) =
  if decide (x = user) then (if String.eqb (u_installation_id u') inst then Some u' else None)
  else select_user inst x db.
Proof.
  unfold select_user. cbn. destruct (decide (x = user)) as [->|Hne]; [by rewrite lookup_insert_eq|by rewrite lookup_insert_ne].
Qed.

Lemma user_change_managed user u u' db :
  t_users db !! user = Some u → u_installation_id u = inst → u_installation_id u' = inst →
  (u_disabled u = false → u_disabled u' = true → ∀ org m, t_memberships db !! (inst, org, user) = Some m →
     m_role m = OrganizationAdmin → ∃ y m' uy, y ≠ user ∧ t_memberships db !! (inst, org, y) = Some m' ∧
       m_role m' = OrganizationAdmin ∧ select_user inst y db = Some uy ∧ u_disabled uy = false) →
  (active_system_admin inst u = true → active_system_admin inst u' = false →
     ∃ y uy, y ≠ user ∧ t_users db !! y = Some uy ∧ active_system_admin inst uy = true) →
  keeps_managed db (set_t_users (<[user := u']> (t_users db)) db).
Proof.
  intros Hu Hi Hi' Horg Hsys. split.
  - intros o _ (x & m & ux & Hm & Hr & Hux & Hd).
    destruct (decide (x = user)) as [->|Hne].
    + assert (ux = u) as -> by (unfold select_user in Hux; rewrite Hu, Hi, String.eqb_refl in Hux; congruence).
      destruct (u_disabled u') eqn:Ed.
      * destruct (Horg Hd eq_refl o m Hm Hr) as (y & m' & uy & Hy & Hm' & Hr' & Huy & Hdy).
        exists y, m', uy. rewrite select_user_insert, decide_False by done. done.
      * exists user, m, u'. rewrite select_user_insert, decide_True, Hi', String.eqb_refl by done. done.
    + exists x, m, ux. rewrite select_user_insert, decide_False by done. done.
  - intros (x & ux & Hx & Ha). destruct (decide (x = user)) as [->|Hne].
    + simplify_eq. destruct (active_system_admin inst u') eqn:Ea.
      * exists user, u'. cbn. by rewrite lookup_insert_eq.
      * destruct (Hsys Ha eq_refl) as (y & uy & Hy & Huy & Hay). exists y, uy. cbn. by rewrite lookup_insert_ne.
    + exists x, ux. cbn. by rewrite lookup_insert_ne.
Qed.

Lemma ensure_admins_Ok user db u db' :
  ensure_user_keeps_active_organization_administrator inst user db = (Ok u, db') →
  db' = db ∧ ∀ org m, t_memberships db !! (inst, org, user) = Some m → m_role m = OrganizationAdmin →
    ∃ y m' uy, y ≠ user ∧ t_memberships db !! (inst, org, y) = Some m' ∧
      m_role m' = OrganizationAdmin ∧ select_user inst y db = Some uy ∧ u_disabled uy = false.
Proof.
  unfold ensure_user_keeps_active_organization_administrator. intros Hrun. run_step Hrun. injection Hrun as Hrun <-.
  apply ensure_Ok, negb_true_iff, Z.ltb_ge in Hrun. split; [done|]. intros org m Hm Hr.
  pose proof (count_rows_zero _ _ _ _ Hrun Hm) as Hs. unfold sole_admin in Hs. cbn in Hs.
  rewrite String.eqb_refl, !bool_decide_eq_true_2 in Hs by done. cbn in Hs. apply negb_false_iff, existsb_exists in Hs.
  destruct Hs as ([key m'] & Hin%list_elem_of_In%elem_of_map_to_list & Ha). cbn in Ha.
  apply andb_true_iff in Ha as [Ha Hne]. apply active_admin_true in Ha as (y & uy & -> & Hr' & Huy & Hd).
  cbn in Hne. apply negb_true_iff, bool_decide_eq_false in Hne. eauto 8.
Qed.

Lemma update_user_tx_managed user name admin disabled db r db' :
  update_user_tx inst user name admin disabled db = (r, db') → keeps_managed db db'.
Proof.
  apply transaction_managed. clear. intros res db1 Hrun. run_step Hrun. run_step Hrun.
  destruct x as [i n h a d c av]. set (u := mkUserRow i n h a d c av) in *.
  run_step Hrun. run_step Hrun. run_step Hrun.
  assert (dbx = db ∧ (u_disabled u = false → default d disabled = true → ∀ org m,
    t_memberships db !! (inst, org, user) = Some m → m_role m = OrganizationAdmin →
    ∃ y m' uy, y ≠ user ∧ t_memberships db !! (inst, org, y) = Some m' ∧
      m_role m' = OrganizationAdmin ∧ select_user inst y db = Some uy ∧ u_disabled uy = false)) as [-> Horg].
  { cbn in Hx1. destruct (negb d && default d disabled) eqn:E.
    - apply ensure_admins_Ok in Hx1 as [-> Ho]. split; [done|]. auto.
    - injection Hx1 as <-. split; [done|]. cbn. intros -> Hd. cbn in E. congruence. }
  run_step Hrun. injection Hrun as _ <-. unfold select_user in Hx.
  destruct (t_users db !! user) as [u0|] eqn:Hu; [|done]. destruct (String.eqb (u_installation_id u0) inst) eqn:Hi; [|done].
  injection Hx as ->. apply String.eqb_eq in Hi. unfold update_user_row, update_where in Hx2. rewrite Hu in Hx2.
  cbn [u_installation_id u] in Hi, Hx2. rewrite Hi, String.eqb_refl in Hx2. injection Hx2 as _ <-.
  eapply user_change_managed; [done|exact Hi|exact Hi|exact Horg|].
  intros Ha Hna. apply negb_true_iff in Hx0. cbn in Hx0.
  unfold active_system_admin in Ha, Hna. cbn in Ha, Hna. rewrite Hi, String.eqb_refl in Ha, Hna. cbn in Ha, Hna.
  rewrite Ha in Hx0. cbn in Hx0.
  assert (Hc : 1 < count_rows (λ _, active_system_admin inst) (t_users db)).
  { destruct (default a admin), (default d disabled); cbn in *; try done; by apply Z.leb_gt in Hx0. }
  destruct (count_rows_other _ _ user Hc) as (y & uy & Hy & Hay & Hne). eauto.
Qed.

Lemma update_user_managed user name admin disabled db r db' :
  update_user inst user name admin disabled db = (r, db') → keeps_managed db db'.
Proof.
  unfold update_user. rewrite bind_run; cbn. destruct (ensure _ _); [apply update_user_tx_managed|].
  intros [= _ <-]. apply keeps_managed_refl.
Qed.

Lemma update_user_profile_managed `{Base64Codec} user name avatar db r db' :
  update_user_profile inst user name avatar db = (r, db') → keeps_managed db db'.
Proof.
  unfold update_user_profile. rewrite bind_run; cbn. destruct (validate_profile _ _) as [v|]; [|intros [= _ <-]; apply keeps_managed_refl].
  rewrite bind_run. unfold update_user_row, update_where. destruct (t_users db !! user) as [u|] eqn:Hu.
  - destruct (_ && _) eqn:Hp; cbn; rewrite ?bind_run; cbn; intros [= _ <-]; [|apply keeps_managed_refl].
    apply andb_true_iff in Hp as [Hi%String.eqb_eq Hd%negb_true_iff].
    eapply user_change_managed; [done|done|done|cbn; congruence|]. unfold active_system_admin. cbn. congruence.
  - rewrite bind_run; cbn. intros [= _ <-]. apply keeps_managed_refl.
Qed.

Lemma create_organization_managed name owner now db r db' :
  create_organization inst name owner now db = (r, db') → keeps_managed db db'.
Proof.
  unfold create_organization. rewrite bind_run; cbn. rewrite bind_run; cbn.
  set (db1 := set_uuid_drawn _ db). intros Hrun.
  assert (keeps_managed db1 db') as [Ho Hs]; [|split; [exact Ho|exact Hs]].
  destruct (ensure _ _); [|injection Hrun as _ <-; apply keeps_managed_refl]. rewrite bind_run in Hrun.
  destruct (transaction _ db1) as [x db2] eqn:E. assert (db' = db2) as -> by (destruct x; by injection Hrun as _ <-).
  revert E. apply transaction_managed. intros u db3 Hins. unfold insert_organization in Hins. do 3 run_step Hins.
  unfold insert_row in Hx0. destruct (t_organizations _ !! _); [done|]. injection Hx0 as <-.
  unfold insert_membership, insert_row in Hins. do 2 run_step Hins. cbn in Hins.
  destruct (t_memberships db !! _) eqn:Em; [done|]. injection Hins as <-. split; [|done].
  intros o _ (x' & m & ux & Hm & Hr & Hux & Hd). exists x', m, ux. cbn. split_and!; [|done..].
  rewrite lookup_insert_ne; [done|]. intros Heq. cbn in Hm. congruence.
Qed.

Lemma delete_organization_managed id db r db' :
  delete_organization_if_empty inst id db = (r, db') → keeps_managed db db'.
Proof.
  unfold delete_organization_if_empty. rewrite bind_run; cbn. rewrite bind_run; cbn.
  destruct (ensure _ _); [|intros [= _ <-]; apply keeps_managed_refl]. rewrite bind_run; cbn.
  destruct (select_organization inst id db); [|intros [= _ <-]; apply keeps_managed_refl]. rewrite bind_run; cbn.
  rewrite bind_run; cbn. destruct (ensure _ _); [|intros [= _ <-]; apply keeps_managed_refl].
  intros [= _ <-]. split; [|done]. intros org [orow Ho] (x & m & u & Hm & Hr & Hu & Hd). cbn in Ho.
  destruct (decide (org = id)) as [->|Hne]; [by rewrite lookup_delete_eq in Ho|].
  exists x, m, u. split_and!; [|done..]. cbn. apply map_lookup_filter_Some. done.
Qed.
End Administrators.
