(* ===== verification/ApiKeys.v ===== *)
(** * Accounts and API keys ([src/storage/identity.rs],
    [src/storage/identity/backend.rs], [src/storage/user_settings/api_keys.rs]
    and its modules)

    A request is authenticated by a key that is neither revoked nor expired and
    whose user is not disabled. A key is created with explicit scopes and an
    expiry; a user cannot revoke the last usable key that can manage keys, nor a
    system administrator the last that can manage the system. *)
From stdpp Require Import sorting.
From S2P Require Import Prelude Text Json Quota Auth Templates Workspaces Errors ShrinkOperation Database Crypto Catalog Identity.

(** [hex(Sha256::digest(token))] of the [sha2] crate, and [base64]'s URL-safe
    alphabet without padding. *)
Class TokenHash := hash_token : string → string.
Class UrlBase64 := url_encode : Octets → string.
Class UrlBase64Laws `{UrlBase64} : Prop := url_encode_length bs : Z.of_nat (length bs) <= len (url_encode bs).

Record ApiKeySummary := mkKeySummary {
  ks_id : Uuid;
  ks_name : string;
  ks_prefix : string;
  ks_last_used_at : option Z;
  ks_created_at : Z;
  ks_scopes : list ApiKeyScope;
  ks_expires_at : option Z;
  ks_allowed_template_ids : option (list Uuid);
  ks_revoked_at : option Z;
}.

Record ApiKeyRevokeResult := mkRevokeResult {
  rv_changed : bool;
  rv_remaining_active : Z;
}.

Record Membership := mkMembership {
  mb_organization_id : Uuid;
  mb_role : Role;
}.

Record Principal := mkPrincipal {
  pr_user_id : Uuid;
  pr_display_name : string;
  pr_system_admin : bool;
  pr_memberships : list Membership;
  pr_api_key_scopes : list ApiKeyScope;
  pr_api_key_expires_at : option Z;
  pr_allowed_template_ids : option (list Uuid);
}.

(** ** What a principal may do *)
Definition principal_allows (p : Principal) (permission : Permission) (organization_id : Uuid) : bool :=
  if negb (existsb (λ scope, permits scope permission) (pr_api_key_scopes p)) then false
  else if pr_system_admin p then true
  else existsb (λ m, allows (mkRoleBinding (mb_role m) (Some (mb_organization_id m))) permission organization_id)
         (pr_memberships p).

Definition may_manage_api_keys (p : Principal) : bool := bool_decide (ScopeManageApiKeys ∈ pr_api_key_scopes p).
Definition may_manage_system (p : Principal) : bool := pr_system_admin p && principal_allows p ManageSystem 0%N.
Definition may_use_template (p : Principal) (template_id : Uuid) : bool :=
  is_none_or (pr_allowed_template_ids p) (λ allowed, bool_decide (template_id ∈ allowed)).
Definition has_template_restriction (p : Principal) : bool := is_some (pr_allowed_template_ids p).
Definition may_access_workspace_template (p : Principal) (template_id : option Uuid) : bool :=
  is_some_and template_id (may_use_template p) || negb (has_template_restriction p).

(** ** Key policy ([policy.rs]) *)
Definition scope_index (s : ApiKeyScope) : Z :=
  match s with
  | ScopeManageApiKeys => 0 | ScopeManageSystem => 1 | ScopeManageOrganization => 2 | ScopeManageMembers => 3
  | ScopeManageLockedInjections => 4 | ScopeCreateWorkspace => 5 | ScopeReadWorkspace => 6
  | ScopeConnectWorkspace => 7 | ScopeChangeWorkspaceState => 8 | ScopeDeleteWorkspace => 9
  end.
Definition scope_le (a b : ApiKeyScope) : Prop := scope_index a <= scope_index b.
#[global] Instance scope_le_dec a b : Decision (scope_le a b).
Proof. unfold scope_le. apply _. Defined.

(** [Vec::dedup]: drops an element equal to the one before it. *)
Fixpoint dedup (l : list ApiKeyScope) : list ApiKeyScope :=
  match l with
  | [] => []
  | x :: l' =>
      match l' with
      | [] => [x]
      | y :: _ => if decide (x = y) then dedup l' else x :: dedup l'
      end
  end.

Definition validate_scopes (scopes : list ApiKeyScope) : result StorageError.t (list ApiKeyScope) :=
  _ ← ensure (negb (bool_decide (scopes = []))) StorageError.InvalidApiKey;
  Ok (dedup (merge_sort scope_le scopes)).

Definition MAX_API_KEY_LIFETIME_SECONDS : Z := 365 * 24 * 60 * 60.

Definition validate_expiration (expires_at : option Z) (now : Z) : result StorageError.t () :=
  expires_at ← ok_or expires_at StorageError.InvalidApiKey;
  ensure (negb ((expires_at <=? now) || (MAX_API_KEY_LIFETIME_SECONDS <? saturating_sub_i64 expires_at now)))
    StorageError.InvalidApiKey.

Definition validate_api_key_policy (scopes : list ApiKeyScope) (expires_at : option Z) (now : Z)
    : result StorageError.t (list ApiKeyScope) :=
  scopes ← validate_scopes scopes;
  _ ← validate_expiration expires_at now;
  Ok scopes.

Definition validate_api_key_name (name : string) : result StorageError.t string :=
  let name := trim (chars name) in
  if bool_decide (name = []) || (80 <? Z.of_nat (length name)) || existsb is_control name
  then Err StorageError.InvalidApiKey else Ok (string_of_chars name).

(** The first twelve characters and an ellipsis. *)
Definition token_prefix (token : string) : string := string_of_chars (take 12 (chars token) ++ [8230]).

Definition validate_token (token : string) : result StorageError.t () :=
  ensure (negb (len token <? 32)) StorageError.TokenTooShort.

(** ** Stored keys *)
Definition MAX_ACTIVE_API_KEYS : Z := 20.

Section ApiKeys.
Context `{UuidText} `{TokenHash} `{UrlBase64} `{RandomSource}.

Definition generate_token (point : nat) : result StorageError.t string :=
  random ← ok_or (getrandom point 0) StorageError.RandomSource;
  Ok ("mwc_" +:+ url_encode random).

(** [lock_user_sqlite] and [lock_user_postgres]. *)
Definition lock_user (inst : string) (user_id : Uuid) : DbM () :=
  user ← reads (select_user inst user_id);
  lift (ensure (is_some_and user (λ u, negb (u_disabled u))) StorageError.UserNotFound).

Definition key_of (inst : string) (user_id : Uuid) (k : ApiKeyRow) : bool :=
  String.eqb (k_installation_id k) inst && bool_decide (k_user_id k = user_id).
Definition unrevoked_key (inst : string) (user_id : Uuid) (k : ApiKeyRow) : bool :=
  key_of inst user_id k && negb (is_some (k_revoked_at k)).
(** [revoked_at IS NULL AND (expires_at IS NULL OR expires_at > now)]. *)
Definition usable_key (inst : string) (user_id : Uuid) (now : Z) (k : ApiKeyRow) : bool :=
  unrevoked_key inst user_id k && is_none_or (k_expires_at k) (λ e, now <? e).

(** [ensure_key_capacity_sqlite] and [ensure_key_capacity_postgres]. *)
Definition ensure_key_capacity (inst : string) (user_id : Uuid) : DbM () :=
  count ← reads (λ db, count_rows (λ _, unrevoked_key inst user_id) (t_api_keys db));
  lift (ensure (negb (MAX_ACTIVE_API_KEYS <=? count)) StorageError.TooManyApiKeys).

Definition key_row (inst : string) (user_id : Uuid) (key : ApiKeySummary) (token : string) : ApiKeyRow :=
  {| k_installation_id := inst; k_user_id := user_id; k_name := ks_name key; k_token_prefix := ks_prefix key;
     k_token_hash := hash_token token; k_token := Some token; k_last_used_at := None;
     k_created_at := ks_created_at key; k_revoked_at := None; k_scopes := ks_scopes key;
     k_expires_at := ks_expires_at key; k_allowed_template_ids := ks_allowed_template_ids key |}.

(** [UNIQUE (installation_id, token_hash)], [UNIQUE (installation_id, token)] and
    the foreign key on the user. *)
Definition key_clashes (row k : ApiKeyRow) : bool :=
  String.eqb (k_installation_id k) (k_installation_id row)
  && (String.eqb (k_token_hash k) (k_token_hash row)
      || is_some_and (k_token row) (λ t, bool_decide (k_token k = Some t))).
Definition key_insertable (row : ApiKeyRow) (db : Db) : bool :=
  forallb (λ kv, negb (key_clashes row kv.2)) (map_to_list (t_api_keys db)) && is_some (t_users db !! k_user_id row).

(** [insert_key_sqlite] and [insert_key_postgres]. *)
Definition insert_key (inst : string) (user_id : Uuid) (key : ApiKeySummary) (token : string) : DbM () :=
  let row := key_row inst user_id key token in
  ok ← reads (key_insertable row);
  _ ← lift (ensure ok StorageError.Database);
  insert_row t_api_keys set_t_api_keys (ks_id key) row.

Definition audit_api_key (inst : string) (actor key_id : Uuid) (action : string) (now : Z) : DbM () :=
  id ← now_v7;
  insert_audit id (mkAuditRow inst (Some actor) None None action
                     (json_object [("api_key_id", Str (uuid_to_string key_id))]) now).

Definition audit_admin_api_key (inst : string) (actor target key_id : Uuid) (reason : string) (now : Z) : DbM () :=
  id ← now_v7;
  insert_audit id (mkAuditRow inst (Some actor) None None "user.api_key.admin_revoke"
                     (json_object [("target_user_id", Str (uuid_to_string target));
                                   ("api_key_id", Str (uuid_to_string key_id)); ("reason", Str reason)]) now).

Definition create_api_key (inst : string) (user_id : Uuid) (name : string) (scopes : list ApiKeyScope)
    (expires_at : option Z) (allowed : option (list Uuid)) (now : Z) : DbM (ApiKeySummary * string) :=
  name ← lift (validate_api_key_name name);
  scopes ← lift (validate_scopes scopes);
  _ ← lift (validate_expiration expires_at now);
  point ← reads uuid_drawn;
  token ← lift (generate_token point);
  id ← now_v7;
  let key := mkKeySummary id name (token_prefix token) None now scopes expires_at allowed None in
  _ ← transaction (
        _ ← lock_user inst user_id;
        _ ← ensure_key_capacity inst user_id;
        _ ← insert_key inst user_id key token;
        audit_api_key inst user_id id "user.api_key.create" now);
  mret (key, token).

(** ** Revocation *)
Definition has_scope (scopes : list ApiKeyScope) (required : ApiKeyScope) : bool := bool_decide (required ∈ scopes).
Definition count_keys_with_scope (keys : list (list ApiKeyScope)) (required : ApiKeyScope) : Z :=
  Z.of_nat (length (List.filter (λ scopes, has_scope scopes required) keys)).

Definition ensure_recovery_key_remains (revoked : list ApiKeyScope) (active : list (list ApiKeyScope))
    (system_admin : bool) : result StorageError.t () :=
  if has_scope revoked ScopeManageApiKeys && (count_keys_with_scope active ScopeManageApiKeys <=? 1)
  then Err StorageError.LastApiKey
  else if system_admin && has_scope revoked ScopeManageSystem && (count_keys_with_scope active ScopeManageSystem <=? 1)
  then Err StorageError.LastApiKey
  else Ok ().

(** [active_key_details_sqlite] and [active_key_details_postgres]. *)
Definition active_key_details (inst : string) (user_id key_id : Uuid) (db : Db) : option ApiKeyRow :=
  match t_api_keys db !! key_id with
  | Some k => if unrevoked_key inst user_id k then Some k else None
  | None => None
  end.

(** [all_active_key_scopes_sqlite] and [all_active_key_scopes_postgres]. *)
Definition all_active_key_scopes (inst : string) (user_id : Uuid) (now : Z) (db : Db) : list (list ApiKeyScope) :=
  (λ kv : Uuid * ApiKeyRow, k_scopes kv.2) <$>
    List.filter (λ kv, usable_key inst user_id now kv.2) (map_to_list (t_api_keys db)).

Definition set_revoked (now : Z) (k : ApiKeyRow) : ApiKeyRow :=
  mkApiKeyRow (k_installation_id k) (k_user_id k) (k_name k) (k_token_prefix k) (k_token_hash k) (k_token k)
    (k_last_used_at k) (k_created_at k) (Some now) (k_scopes k) (k_expires_at k) (k_allowed_template_ids k).

Definition update_key := update_where t_api_keys set_t_api_keys.

Definition remaining_usable_key_count (inst : string) (user_id : Uuid) (now : Z) (db : Db) : Z :=
  count_rows (λ _, usable_key inst user_id now) (t_api_keys db).

(** [revoke_sqlite] and [revoke_postgres]. *)
Definition revoke (inst : string) (user_id key_id : Uuid) (now : Z) : DbM ApiKeyRevokeResult :=
  key ← reads (active_key_details inst user_id key_id);
  key ← lift (ok_or key StorageError.ApiKeyNotFound);
  active_scopes ← reads (all_active_key_scopes inst user_id now);
  user ← reads (select_user inst user_id);
  user ← lift (ok_or user StorageError.Database);
  _ ← lift (if is_none_or (k_expires_at key) (λ e, now <? e)
            then ensure_recovery_key_remains (k_scopes key) active_scopes (u_system_admin user) else Ok ());
  rows ← update_key key_id (unrevoked_key inst user_id) (set_revoked now);
  _ ← lift (ensure (rows =? 1) StorageError.ApiKeyNotFound);
  remaining ← reads (remaining_usable_key_count inst user_id now);
  mret (mkRevokeResult true remaining).

Definition revoke_api_key (inst : string) (user_id key_id : Uuid) (now : Z) : DbM ApiKeyRevokeResult :=
  transaction (
    _ ← lock_user inst user_id;
    result ← revoke inst user_id key_id now;
    _ ← audit_api_key inst user_id key_id "user.api_key.revoke" now;
    mret result).

(** [revoke_user_key_sqlite] and [revoke_user_key_postgres]. *)
Definition revoke_user_key (inst : string) (user_id key_id : Uuid) (now : Z) : DbM ApiKeyRevokeResult :=
  rows ← update_key key_id (unrevoked_key inst user_id) (set_revoked now);
  remaining ← reads (remaining_usable_key_count inst user_id now);
  mret (mkRevokeResult (rows =? 1) remaining).

Definition admin_revoke_api_key (inst : string) (actor target key_id : Uuid) (reason : string) (now : Z)
    : DbM ApiKeyRevokeResult :=
  _ ← lift (ensure (negb (bool_decide (actor = target))) StorageError.SelfApiKeyAdministration);
  transaction (
    result ← revoke_user_key inst target key_id now;
    _ ← (if rv_changed result then audit_admin_api_key inst actor target key_id reason now else mret ());
    mret result).

(** ** Accounts *)
Record InitialUserCommand := mkInitialUser {
  iu_display_name : string;
  iu_token : string;
  iu_system_admin : bool;
  iu_scopes : list ApiKeyScope;
  iu_expires_at : Z;
  iu_membership : option (Uuid * Role);
  iu_now : Z;
}.

(** [UNIQUE (installation_id, token_hash)] of [users]. *)
Definition user_hash_taken (inst hash : string) (db : Db) : bool :=
  existsb (λ kv, String.eqb (u_installation_id kv.2) inst && String.eqb (u_token_hash kv.2) hash)
    (map_to_list (t_users db)).

(** [insert_user_sqlite] and [insert_user_postgres]. *)
Definition insert_user (inst : string) (user_id : Uuid) (token_hash : string) (c : InitialUserCommand) : DbM () :=
  taken ← reads (user_hash_taken inst token_hash);
  _ ← lift (ensure (negb taken) StorageError.Database);
  insert_row t_users set_t_users user_id
    (mkUserRow inst (iu_display_name c) token_hash (iu_system_admin c) false (iu_now c) None).

(** [ensure_organization_exists_sqlite] and [ensure_organization_exists_postgres]. *)
Definition ensure_organization_exists (inst : string) (organization_id : Uuid) : DbM () :=
  row ← reads (select_organization inst organization_id);
  lift (ensure (is_some row) StorageError.OrganizationNotFound).

(** [create_user_with_key_sqlite] and [create_user_with_key_postgres]. *)
Definition create_user_with_key_tx (inst : string) (user_id : Uuid) (token_hash : string) (c : InitialUserCommand)
    (key : ApiKeySummary) : DbM () :=
  transaction (
    _ ← match iu_membership c with
        | Some (organization_id, _) => ensure_organization_exists inst organization_id
        | None => mret ()
        end;
    _ ← insert_user inst user_id token_hash c;
    _ ← insert_key inst user_id key (iu_token c);
    match iu_membership c with
    | Some (organization_id, role) => insert_membership inst organization_id user_id role (iu_now c)
    | None => mret ()
    end).

Definition create_user_with_key (inst : string) (c : InitialUserCommand) (key : ApiKeySummary) : DbM Principal :=
  _ ← lift (validate_token (iu_token c));
  user_id ← now_v7;
  _ ← create_user_with_key_tx inst user_id (hash_token (iu_token c)) c key;
  mret (mkPrincipal user_id (iu_display_name c) (iu_system_admin c)
          (match iu_membership c with Some (o, r) => [mkMembership o r] | None => [] end)
          (ks_scopes key) (ks_expires_at key) (ks_allowed_template_ids key)).

Definition create_user_with_initial_key_and_membership (inst : string) (c : InitialUserCommand) : DbM Principal :=
  _ ← lift (ensure (negb (is_some_and (iu_membership c) (λ m, bool_decide (m.2 = SystemAdmin))))
              StorageError.InvalidOrganizationMembership);
  scopes ← lift (validate_api_key_policy (iu_scopes c) (Some (iu_expires_at c)) (iu_now c));
  id ← now_v7;
  create_user_with_key inst c
    (mkKeySummary id "Initial key" (token_prefix (iu_token c)) None (iu_now c) scopes (Some (iu_expires_at c)) None None).

(** ** Authentication *)

(** The row the query selects: the key's token, or for a row that keeps only the
    hash, its hash. A scope column that mentions the former wildcard never
    authenticates; the typed scopes have none. *)
Definition authenticates (inst token : string) (db_now : Z) (db : Db) (k : ApiKeyRow) : bool :=
  String.eqb (k_installation_id k) inst
  && is_some_and (select_user inst (k_user_id k) db) (λ u, negb (u_disabled u))
  && (bool_decide (k_token k = Some token)
      || (negb (is_some (k_token k)) && String.eqb (k_token_hash k) (hash_token token)))
  && negb (is_some (k_revoked_at k))
  && is_some_and (k_expires_at k) (λ e, db_now <? e).

Definition set_last_used (now : Z) (k : ApiKeyRow) : ApiKeyRow :=
  mkApiKeyRow (k_installation_id k) (k_user_id k) (k_name k) (k_token_prefix k) (k_token_hash k) (k_token k)
    (Some now) (k_created_at k) (k_revoked_at k) (k_scopes k) (k_expires_at k) (k_allowed_template_ids k).

Definition stale_use (last_used_at : option Z) (now : Z) : bool :=
  is_none_or last_used_at (λ v, v <? saturating_sub_i64 now 300).

(** [mark_key_used_sqlite] and [mark_key_used_postgres]. *)
Definition mark_key_used (inst : string) (key_id : Uuid) (last_used_at : option Z) (now : Z) : DbM () :=
  if negb (stale_use last_used_at now) then mret ()
  else
    _ ← update_key key_id (λ k, String.eqb (k_installation_id k) inst && stale_use (k_last_used_at k) now)
          (set_last_used now);
    mret ().

(** [sqlite_memberships] and [postgres_memberships]. *)
Definition memberships_of (inst : string) (user_id : Uuid) (db : Db) : list Membership :=
  (λ kv : (string * Uuid * Uuid) * MembershipRow, mkMembership kv.1.1.2 (m_role kv.2)) <$>
    List.filter (λ kv : (string * Uuid * Uuid) * MembershipRow,
                   String.eqb kv.1.1.1 inst && bool_decide (kv.1.2 = user_id)) (map_to_list (t_memberships db)).

(** [db_now] is the clock of the database, [now] the clock of the process. *)
Definition authenticate (inst token : string) (db_now now : Z) : DbM (option Principal) :=
  if len token <? 32 then mret None
  else
    row ← reads (λ db, List.find (λ kv, authenticates inst token db_now db kv.2) (map_to_list (t_api_keys db)));
    match row with
    | None => mret None
    | Some (key_id, k) =>
        user ← reads (select_user inst (k_user_id k));
        user ← lift (ok_or user StorageError.Database);
        _ ← mark_key_used inst key_id (k_last_used_at k) now;
        memberships ← reads (memberships_of inst (k_user_id k));
        _ ← lift (ensure (negb (bool_decide (k_scopes k = []))) StorageError.InvalidApiKey);
        mret (Some (mkPrincipal (k_user_id k) (u_display_name user) (u_system_admin user) memberships
                      (k_scopes k) (k_expires_at k) (k_allowed_template_ids k)))
    end.
End ApiKeys.

(** ** Counting rows *)
Lemma count_rows_insert {K V} `{Countable K} (p : K → V → bool) (m : gmap K V) k v :
  m !! k = None → count_rows p (<[k := v]> m) = (if p k v then 1 else 0) + count_rows p m.
Proof.
  intros Hk. unfold count_rows.
  rewrite (list_filter_Permutation _ _ _ (map_to_list_insert m k v Hk)). cbn. destruct (p k v); cbn; lia.
Qed.

Lemma count_rows_update {K V} `{Countable K} (p : K → V → bool) (m : gmap K V) k v v' :
  m !! k = Some v → (p k v' = true → p k v = true) → count_rows p (<[k := v']> m) <= count_rows p m.
Proof.
  intros Hk Hp. rewrite <-(insert_id m k v Hk) at 2. rewrite <-!(insert_delete_eq m k).
  rewrite !count_rows_insert by apply lookup_delete_eq. destruct (p k v'), (p k v); lia.
Qed.

(** ** The invariant of the keys *)
Section Invariant.
Context `{UuidText} `{TokenHash} `{UrlBase64} `{RandomSource} (inst : string).

(** A key expires within a year of its creation and grants something. *)
Definition key_bounded (k : ApiKeyRow) : Prop :=
  (∃ e, k_expires_at k = Some e ∧ k_created_at k < e <= k_created_at k + MAX_API_KEY_LIFETIME_SECONDS) ∧ k_scopes k ≠ [].

Record keys_wf (db : Db) : Prop := {
  kw_token id k t : t_api_keys db !! id = Some k → k_token k = Some t → k_token_hash k = hash_token t;
  kw_unique id id' k k' : t_api_keys db !! id = Some k → t_api_keys db !! id' = Some k' →
    k_installation_id k = k_installation_id k' → k_token_hash k = k_token_hash k' → id = id';
  kw_bounded id k : t_api_keys db !! id = Some k → key_bounded k;
  kw_capacity user : count_rows (λ _, unrevoked_key inst user) (t_api_keys db) <= MAX_ACTIVE_API_KEYS;
  kw_user id k : t_api_keys db !! id = Some k → is_Some (t_users db !! k_user_id k);
}.

(** Changes that keep what the invariant reads of a key. *)
Definition same_key (k k' : ApiKeyRow) : Prop :=
  k_installation_id k' = k_installation_id k ∧ k_user_id k' = k_user_id k ∧ k_token k' = k_token k ∧
  k_token_hash k' = k_token_hash k ∧ k_created_at k' = k_created_at k ∧ k_expires_at k' = k_expires_at k ∧
  k_scopes k' = k_scopes k ∧ (k_revoked_at k' = None → k_revoked_at k = None).

Lemma keys_wf_update id k k' db :
  t_api_keys db !! id = Some k → same_key k k' → keys_wf db →
  keys_wf (set_t_api_keys (<[id := k']> (t_api_keys db)) db).
Proof.
  intros Hk (E1 & E2 & E3 & E4 & E5 & E6 & E7 & Hrev) [Ht Hun Hb Hc Hu].
  assert (Hold : ∀ j q, <[id := k']> (t_api_keys db) !! j = Some q →
            ∃ q0, t_api_keys db !! j = Some q0 ∧ k_installation_id q = k_installation_id q0 ∧ k_user_id q = k_user_id q0 ∧
              k_token q = k_token q0 ∧ k_token_hash q = k_token_hash q0 ∧ k_created_at q = k_created_at q0 ∧
              k_expires_at q = k_expires_at q0 ∧ k_scopes q = k_scopes q0).
  { intros j q [[<- <-]|[_ Hq]]%lookup_insert_Some; [exists k|exists q]; done. }
  split; cbn.
  - intros j q t (q0 & Hq0 & _ & _ & F3 & F4 & _)%Hold Ht'. rewrite F4. rewrite F3 in Ht'. by eapply Ht.
  - intros j j' q q' (q0 & Hq0 & F1 & _ & _ & F4 & _)%Hold (q0' & Hq0' & F1' & _ & _ & F4' & _)%Hold Hi Hh.
    apply (Hun j j' q0 q0'); [done..| |]; congruence.
  - intros j q (q0 & Hq0 & _ & _ & _ & _ & F5 & F6 & F7)%Hold. unfold key_bounded. rewrite F5, F6, F7. by eapply Hb.
  - intros user. eapply Z.le_trans; [|apply (Hc user)]. apply (count_rows_update _ _ _ k); [done|].
    unfold unrevoked_key, key_of. rewrite E1, E2. destruct (k_revoked_at k') eqn:Er; [by rewrite andb_false_r|].
    by rewrite Hrev.
  - intros j q (q0 & Hq0 & _ & F2 & _)%Hold. rewrite F2. by eapply Hu.
Qed.

Lemma key_insertable_Ok row db id k :
  key_insertable row db = true → t_api_keys db !! id = Some k → k_installation_id k = k_installation_id row →
  k_token_hash k ≠ k_token_hash row.
Proof.
  unfold key_insertable. intros [Hf _]%andb_true_iff Hk Hi Hh.
  apply (forallb_elem _ _ (id, k)) in Hf; [|by apply elem_of_map_to_list]. cbn in Hf.
  unfold key_clashes in Hf. by rewrite Hi, Hh, !String.eqb_refl in Hf.
Qed.

Lemma insert_key_Ok user key token db u db' :
  insert_key inst user key token db = (Ok u, db') →
  key_insertable (key_row inst user key token) db = true ∧ t_api_keys db !! ks_id key = None ∧
  db' = set_t_api_keys (<[ks_id key := key_row inst user key token]> (t_api_keys db)) db.
Proof.
  unfold insert_key. intros Hrun. run_step Hrun. run_step Hrun. unfold insert_row in Hrun.
  destruct (t_api_keys db !! ks_id key); [done|]. by injection Hrun as <-.
Qed.

Lemma keys_wf_insert user key token db :
  key_insertable (key_row inst user key token) db = true → t_api_keys db !! ks_id key = None →
  key_bounded (key_row inst user key token) →
  count_rows (λ _, unrevoked_key inst user) (t_api_keys db) < MAX_ACTIVE_API_KEYS → keys_wf db →
  keys_wf (set_t_api_keys (<[ks_id key := key_row inst user key token]> (t_api_keys db)) db).
Proof.
  intros Hins Hnone Hkb Hcap [Ht Hun Hb Hc Hu]. split; cbn.
  - intros j q t [[<- <-]|[_ Hq]]%lookup_insert_Some; [cbn; congruence|by eapply Ht].
  - intros j j' q q' [[<- <-]|[_ Hq]]%lookup_insert_Some [[<- <-]|[_ Hq']]%lookup_insert_Some Hi Hh; [done| | |by eapply Hun].
    + by destruct (key_insertable_Ok _ _ _ _ Hins Hq').
    + by destruct (key_insertable_Ok _ _ _ _ Hins Hq).
  - intros j q [[<- <-]|[_ Hq]]%lookup_insert_Some; [done|by eapply Hb].
  - intros x. rewrite count_rows_insert by done. unfold unrevoked_key at 1, key_of. cbn. rewrite String.eqb_refl. cbn.
    destruct (decide (user = x)) as [->|Hne]; [rewrite bool_decide_eq_true_2 by done; cbn; unfold MAX_ACTIVE_API_KEYS in *; lia|].
    rewrite bool_decide_eq_false_2 by done. cbn. apply Hc.
  - intros j q [[<- <-]|[_ Hq]]%lookup_insert_Some; [|by eapply Hu]. cbn.
    unfold key_insertable in Hins. apply andb_true_iff in Hins as [_ Hx]. by apply is_some_true in Hx.
Qed.

Lemma validate_expiration_Ok expires now u :
  validate_expiration expires now = Ok u → ∃ e, expires = Some e ∧ now < e <= now + MAX_API_KEY_LIFETIME_SECONDS.
Proof.
  unfold validate_expiration. intros Hrun. inv_binds. exists a. split; [done|].
  unfold saturating_sub_i64, clamp_i64, MAX_API_KEY_LIFETIME_SECONDS, i64_min, i64_max in *. bool_prop. lia.
Qed.

Lemma dedup_nil l : dedup l = [] → l = [].
Proof.
  induction l as [|x [|y l] IH]; [done|done|]. intros Hd. cbn [dedup] in Hd, IH.
  destruct (decide (x = y)); [|done]. by specialize (IH Hd).
Qed.

Lemma validate_scopes_Ok scopes s : validate_scopes scopes = Ok s → s ≠ [].
Proof.
  unfold validate_scopes. intros Hrun. inv_binds. injection Hrun as <-. intros Hn%dedup_nil.
  pose proof (merge_sort_Permutation scope_le scopes) as Hp. rewrite Hn in Hp.
  apply Permutation_nil_l in Hp. by rewrite <-Hp in Hstep.
Qed.

(** *** Operations that write no key and remove no user *)
Definition keeps_users (db db' : Db) : Prop :=
  t_api_keys db' = t_api_keys db ∧ ∀ u, is_Some (t_users db !! u) → is_Some (t_users db' !! u).

#[local] Instance keeps_users_relation : TableRelation keeps_users.
Proof.
  split; [split|].
  - intros db. by split.
  - intros x y z [E1 Hu1] [E2 Hu2]. split; [congruence|auto].
  - by split.
Qed.

Lemma keys_wf_users db db' : keeps_users db db' → keys_wf db → keys_wf db'.
Proof. intros [E Hu] [Ht Hun Hb Hc Hus]. split; rewrite ?E; try done. intros id k Hk. by eapply Hu, Hus. Qed.

#[global] Instance preserves_if {A} R (b : bool) (m1 m2 : DbM A) :
  Preserves R m1 → Preserves R m2 → Preserves R (if b then m1 else m2).
Proof. by destruct b. Qed.

Ltac keeps_row :=
  first [by split|split; [done|intros ? ?; cbn; apply lookup_insert_is_Some'; by right]].
#[local] Hint Extern 2 (Preserves keeps_users (insert_row _ _ _ _)) =>
  apply preserves_insert_row; [apply _|intros; keeps_row] : typeclass_instances.
#[local] Hint Extern 2 (Preserves keeps_users (update_where _ _ _ _ _)) =>
  apply preserves_update_where; [apply _|intros; keeps_row] : typeclass_instances.
#[local] Hint Extern 2 (Preserves keeps_users (modify _)) =>
  apply preserves_modify; [apply _|intros; keeps_row] : typeclass_instances.

Lemma update_user_keeps user name admin disabled : Preserves keeps_users (update_user inst user name admin disabled).
Proof.
  unfold update_user, update_user_tx, ensure_user_keeps_active_organization_administrator, update_user_row. apply _.
Qed.
Lemma upsert_membership_keeps org user role now : Preserves keeps_users (upsert_membership inst org user role now).
Proof. unfold upsert_membership, ensure_another_organization_admin. apply _. Qed.
Lemma remove_membership_keeps org user : Preserves keeps_users (remove_membership inst org user).
Proof. unfold remove_membership, ensure_another_organization_admin. apply _. Qed.
Lemma create_organization_keeps name owner now : Preserves keeps_users (create_organization inst name owner now).
Proof. unfold create_organization, insert_organization, insert_membership. apply _. Qed.
Lemma rename_organization_keeps id name : Preserves keeps_users (rename_organization inst id name).
Proof. unfold rename_organization, get_organization. apply _. Qed.
Lemma delete_organization_keeps id : Preserves keeps_users (delete_organization_if_empty inst id).
Proof.
  unfold delete_organization_if_empty. apply preserves_bind; [apply _..|intros n].
  apply preserves_bind; [apply _..|intros _]. apply preserves_bind; [apply _..|intros [o|]]; apply _.
Qed.
Lemma set_organization_quota_keeps org r now : Preserves keeps_users (set_organization_quota inst org r now).
Proof. unfold set_organization_quota. apply _. Qed.
Lemma set_user_quota_keeps user r now : Preserves keeps_users (set_user_quota inst user r now).
Proof. unfold set_user_quota. apply _. Qed.
Lemma update_user_profile_keeps `{Base64Codec} user name avatar :
  Preserves keeps_users (update_user_profile inst user name avatar).
Proof. unfold update_user_profile, update_user_row. apply _. Qed.

(** *** Operations on keys *)
#[local] Instance audit_keeps actor key action now : Preserves keeps_users (audit_api_key inst actor key action now).
Proof. unfold audit_api_key, insert_audit. apply _. Qed.
#[local] Instance admin_audit_keeps actor target key reason now :
  Preserves keeps_users (audit_admin_api_key inst actor target key reason now).
Proof. unfold audit_admin_api_key, insert_audit. apply _. Qed.

Lemma keys_wf_drawn n db : keys_wf db → keys_wf (set_uuid_drawn n db).
Proof. apply keys_wf_users. by split. Qed.

Lemma update_key_wf id p f db x db' :
  (∀ k, same_key k (f k)) → update_key id p f db = (x, db') → keys_wf db → keys_wf db'.
Proof.
  intros Hf. unfold update_key, update_where. destruct (t_api_keys db !! id) as [k|] eqn:Hk; [|by intros [= _ <-]].
  destruct (p k); intros [= _ <-]; [|done]. by apply keys_wf_update with (k := k).
Qed.

Lemma same_key_revoked now k : same_key k (set_revoked now k).
Proof. by repeat split. Qed.
Lemma same_key_used now k : same_key k (set_last_used now k).
Proof. by repeat split. Qed.

Lemma create_api_key_wf user name scopes expires allowed now db r db' :
  create_api_key inst user name scopes expires allowed now db = (r, db') → keys_wf db → keys_wf db'.
Proof.
  intros Hrun Hwf. unfold create_api_key in Hrun. rewrite bind_run in Hrun; cbn in Hrun.
  destruct (validate_api_key_name name) as [n|]; [|by injection Hrun as _ <-]. rewrite bind_run in Hrun; cbn in Hrun.
  destruct (validate_scopes scopes) as [s|] eqn:Hs; [|by injection Hrun as _ <-]. rewrite bind_run in Hrun; cbn in Hrun.
  destruct (validate_expiration expires now) as [[]|] eqn:He; [|by injection Hrun as _ <-]. rewrite !bind_run in Hrun; cbn in Hrun.
  rewrite bind_run in Hrun; cbn in Hrun.
  destruct (generate_token _) as [token|]; [|by injection Hrun as _ <-]. rewrite !bind_run in Hrun; cbn in Hrun.
  rewrite bind_run in Hrun. destruct (transaction _ _) as [x db1] eqn:E.
  assert (db' = db1) as -> by (destruct x; by injection Hrun as _ <-). clear Hrun.
  revert E. apply transaction_inv; [intros; by apply keys_wf_drawn|by apply keys_wf_drawn|].
  intros u db2 Hin. run_step Hin. unfold lock_user in Hx. run_step Hx. injection Hx as _ <-.
  run_step Hin. unfold ensure_key_capacity in Hx. run_step Hx. injection Hx as Hcap <-.
  apply ensure_Ok, negb_true_iff, Z.leb_gt in Hcap. run_step Hin.
  apply insert_key_Ok in Hx as (Hins & Hnone & ->). apply (use_preserves keeps_users) in Hin; [|apply _].
  eapply keys_wf_users; [exact Hin|]. apply validate_scopes_Ok in Hs. apply validate_expiration_Ok in He.
  apply keys_wf_insert; [done..|by apply keys_wf_drawn].
Qed.

Lemma revoke_wf user key now db x db' :
  revoke inst user key now db = (Ok x, db') → keys_wf db → keys_wf db'.
Proof.
  intros Hrun Hwf. unfold revoke in Hrun. do 6 run_step Hrun. run_step Hrun. run_step Hrun. run_step Hrun.
  injection Hrun as _ <-. by eapply update_key_wf; [apply same_key_revoked|exact Hx2|].
Qed.

Lemma revoke_api_key_wf user key now db r db' :
  revoke_api_key inst user key now db = (r, db') → keys_wf db → keys_wf db'.
Proof.
  intros Hrun Hwf. revert Hrun. apply transaction_inv; [intros; by apply keys_wf_drawn|done|].
  intros u db2 Hin. run_step Hin. unfold lock_user in Hx. run_step Hx. injection Hx as _ <-.
  run_step Hin. apply revoke_wf in Hx; [|done]. run_step Hin. injection Hin as _ <-.
  apply (use_preserves keeps_users) in Hx0; [|apply _]. by eapply keys_wf_users.
Qed.

Lemma admin_revoke_api_key_wf actor target key reason now db r db' :
  admin_revoke_api_key inst actor target key reason now db = (r, db') → keys_wf db → keys_wf db'.
Proof.
  intros Hrun Hwf. unfold admin_revoke_api_key in Hrun. rewrite bind_run in Hrun; cbn in Hrun.
  destruct (ensure _ _); [|by injection Hrun as _ <-]. revert Hrun.
  apply transaction_inv; [intros; by apply keys_wf_drawn|done|].
  intros u db2 Hin. run_step Hin. unfold revoke_user_key in Hx. run_step Hx. run_step Hx. injection Hx as _ <-.
  apply update_key_wf in Hx0; [|apply same_key_revoked|done]. run_step Hin. injection Hin as _ <-.
  apply (use_preserves keeps_users) in Hx; [|apply _]. by eapply keys_wf_users.
Qed.

Lemma authenticate_wf token db_now now db r db' :
  authenticate inst token db_now now db = (r, db') → keys_wf db → keys_wf db'.
Proof.
  intros Hrun Hwf. unfold authenticate in Hrun. destruct (len token <? 32); [by injection Hrun as _ <-|].
  rewrite bind_run in Hrun; cbn in Hrun. destruct (List.find _ _) as [[id k]|]; [|by injection Hrun as _ <-].
  rewrite !bind_run in Hrun; cbn in Hrun. rewrite bind_run in Hrun; cbn in Hrun.
  destruct (select_user inst (k_user_id k) db) as [u|]; [|by injection Hrun as _ <-]; cbn in Hrun.
  rewrite bind_run in Hrun. unfold mark_key_used in Hrun. destruct (negb _).
  - cbn in Hrun. rewrite !bind_run in Hrun; cbn in Hrun. rewrite bind_run in Hrun; cbn in Hrun.
    destruct (ensure _ _); by injection Hrun as _ <-.
  - rewrite bind_run in Hrun. destruct (update_key id _ _ db) as [x db1] eqn:E.
    apply update_key_wf in E; [|apply same_key_used|done]. destruct x; [|by injection Hrun as _ <-].
    cbn in Hrun. rewrite !bind_run in Hrun; cbn in Hrun. rewrite bind_run in Hrun; cbn in Hrun.
    destruct (ensure _ _); by injection Hrun as _ <-.
Qed.

Lemma no_user_no_keys user db : keys_wf db → t_users db !! user = None →
  count_rows (λ _, unrevoked_key inst user) (t_api_keys db) = 0.
Proof.
  intros Hwf Hnone. unfold count_rows. destruct (List.filter _ _) as [|[id k] l] eqn:E; [done|].
  assert (Hin : In (id, k) ((id, k) :: l)) by (by left). rewrite <-E in Hin. apply filter_In in Hin as [Hin Hp].
  apply list_elem_of_In, elem_of_map_to_list in Hin. cbn in Hp. unfold unrevoked_key, key_of in Hp. bool_prop.
  destruct (kw_user _ Hwf _ _ Hin) as [u Hu]. congruence.
Qed.

(** A successful account creation, taken apart. *)
Lemma create_user_with_key_tx_Ok user hash c key db u db' :
  create_user_with_key_tx inst user hash c key db = (Ok u, db') →
  ∃ M, t_users db !! user = None ∧ t_api_keys db !! ks_id key = None ∧
    key_insertable (key_row inst user key (iu_token c))
      (set_t_users (<[user := mkUserRow inst (iu_display_name c) hash (iu_system_admin c) false (iu_now c) None]> (t_users db)) db) = true ∧
    (∀ k m, t_memberships db !! k = Some m → M !! k = Some m) ∧
    db' = set_t_memberships M (set_t_api_keys (<[ks_id key := key_row inst user key (iu_token c)]> (t_api_keys db))
            (set_t_users (<[user := mkUserRow inst (iu_display_name c) hash (iu_system_admin c) false (iu_now c) None]> (t_users db)) db)).
Proof.
  unfold create_user_with_key_tx. intros Hrun. rewrite transaction_Ok in Hrun. run_step Hrun.
  assert (dbx = db) as ->.
  { destruct (iu_membership c) as [[o r]|]; [|by injection Hx as <-].
    unfold ensure_organization_exists in Hx. run_step Hx. by injection Hx as _ <-. }
  run_step Hrun. unfold insert_user in Hx0. run_step Hx0. run_step Hx0. unfold insert_row in Hx0.
  destruct (t_users db !! user) eqn:Hu; [done|]. injection Hx0 as <-.
  run_step Hrun. apply insert_key_Ok in Hx0 as (Hins & Hnone & ->).
  destruct (iu_membership c) as [[o r]|].
  - unfold insert_membership in Hrun. run_step Hrun. run_step Hrun. unfold insert_row in Hrun. cbn in Hrun.
    destruct (t_memberships db !! _) eqn:Em; [done|]. injection Hrun as <-.
    exists (<[(inst, o, user) := mkMembershipRow r (iu_now c)]> (t_memberships db)). split_and!; try done.
    intros k m Hm. rewrite lookup_insert_ne; [done|]. intros <-. congruence.
  - injection Hrun as <-. exists (t_memberships db). done.
Qed.

Lemma create_user_run c db r db' :
  create_user_with_initial_key_and_membership inst c db = (r, db') →
  (∀ p, (∀ n d, p d → p (set_uuid_drawn n d)) → p db → p db') ∨
  ∃ n user key u db1, set_uuid_drawn n db = db1 ∧
    create_user_with_key_tx inst user (hash_token (iu_token c)) c key db1 = (Ok u, db') ∧
    ks_scopes key ≠ [] ∧ ks_created_at key = iu_now c ∧ ks_expires_at key = Some (iu_expires_at c) ∧
    iu_now c < iu_expires_at c <= iu_now c + MAX_API_KEY_LIFETIME_SECONDS.
Proof.
  unfold create_user_with_initial_key_and_membership. rewrite bind_run; cbn.
  destruct (ensure _ _); [|intros [= _ <-]; by left]. rewrite bind_run; cbn.
  destruct (validate_api_key_policy _ _ _) as [s|] eqn:Hp; [|intros [= _ <-]; by left].
  rewrite bind_run; cbn. unfold create_user_with_key. rewrite bind_run; cbn.
  destruct (validate_token _); [|intros [= _ <-]; left; by auto]. rewrite bind_run; cbn. rewrite bind_run; cbn.
  match goal with |- context [create_user_with_key_tx ?i ?u ?h ?c0 ?k ?d] =>
    destruct (create_user_with_key_tx i u h c0 k d) as [x db1] eqn:E end.
  unfold validate_api_key_policy in Hp. inv_binds. injection Hp as ->.
  match goal with Hx : validate_expiration _ _ = Ok _ |- _ => apply validate_expiration_Ok in Hx as (e & [= <-] & He) end.
  match goal with Hx : validate_scopes _ = Ok _ |- _ => apply validate_scopes_Ok in Hx end.
  destruct x as [u|e].
  - intros [= _ <-]. right. eexists _, _, _, u, _. split; [|split; [exact E|done]].
    instantiate (1 := S (S (uuid_drawn db))). done.
  - intros [= _ <-]. left. intros p Hd Hdb. unfold create_user_with_key_tx in E. unfold transaction in E.
    match type of E with (match ?m with _ => _ end) = _ => destruct m as [[?|?] ?] end; [done|].
    injection E as _ <-. auto.
Qed.

Lemma create_user_wf c db r db' :
  create_user_with_initial_key_and_membership inst c db = (r, db') → keys_wf db → keys_wf db'.
Proof.
  intros [Hsame|(n & user & key & u & db1 & <- & Htx & Hs & Hc & He & Hle)]%create_user_run Hwf.
  { apply Hsame; [intros; by apply keys_wf_drawn|done]. }
  apply create_user_with_key_tx_Ok in Htx as (M & Hu & Hnone & Hins & _ & ->). cbn in Hu, Hnone.
  set (db2 := set_t_users _ _) in *.
  assert (Hwf2 : keys_wf db2).
  { apply keys_wf_users with (db := db); [|done]. split; [done|]. intros x Hx. cbn. apply lookup_insert_is_Some'. by right. }
  apply keys_wf_users with (db := set_t_api_keys (<[ks_id key := key_row inst user key (iu_token c)]> (t_api_keys db2)) db2);
    [by split|].
  apply keys_wf_insert; [done|done| | |done].
  - split; [|done]. exists (iu_expires_at c). cbn. rewrite Hc. done.
  - change (t_api_keys db2) with (t_api_keys db). rewrite (no_user_no_keys user db Hwf Hu). by vm_compute.
Qed.

Lemma create_user_managed c db r db' :
  create_user_with_initial_key_and_membership inst c db = (r, db') → keeps_managed inst db db'.
Proof.
  intros [Hsame|(n & user & key & u & db1 & <- & Htx & _)]%create_user_run.
  { apply (Hsame (keeps_managed inst db)); [|apply keeps_managed_refl]. intros k d [Ho Hs]. by split. }
  apply create_user_with_key_tx_Ok in Htx as (M & Hu & _ & _ & HM & ->). cbn in Hu, HM. split.
  - intros org _ (x & m & ux & Hm & Hr & Hux & Hd). exists x, m, ux. cbn. split_and!; [by apply HM|done| |done].
    unfold select_user in *. cbn. destruct (decide (x = user)) as [->|]; [by rewrite Hu in Hux|by rewrite lookup_insert_ne].
  - intros (x & ux & Hx & Ha). exists x, ux. cbn. split; [|done].
    rewrite lookup_insert_ne; [done|]. intros <-. congruence.
Qed.

(** ** The operations together *)
Inductive IdentityOp :=
  | UpdateUser (user : Uuid) (name : option string) (system_admin disabled : option bool)
  | UpdateProfile (user : Uuid) (name : string) (avatar : option string)
  | UpsertMembership (org user : Uuid) (role : Role) (now : Z)
  | RemoveMembership (org user : Uuid)
  | CreateOrganization (name : string) (owner : Uuid) (now : Z)
  | RenameOrganization (org : Uuid) (name : string)
  | DeleteOrganization (org : Uuid)
  | SetOrganizationQuota (org : Uuid) (r : QuotaResources) (now : Z)
  | SetUserQuota (user : Uuid) (r : QuotaResources) (now : Z)
  | CreateUser (c : InitialUserCommand)
  | CreateKey (user : Uuid) (name : string) (scopes : list ApiKeyScope) (expires : option Z)
      (allowed : option (list Uuid)) (now : Z)
  | RevokeKey (user key : Uuid) (now : Z)
  | AdminRevokeKey (actor target key : Uuid) (reason : string) (now : Z)
  | Authenticate (token : string) (db_now now : Z).

Definition run_identity_op `{Base64Codec} (op : IdentityOp) (db : Db) : Db :=
  match op with
  | UpdateUser user name admin disabled => (update_user inst user name admin disabled db).2
  | UpdateProfile user name avatar => (update_user_profile inst user name avatar db).2
  | UpsertMembership org user role now => (upsert_membership inst org user role now db).2
  | RemoveMembership org user => (remove_membership inst org user db).2
  | CreateOrganization name owner now => (create_organization inst name owner now db).2
  | RenameOrganization org name => (rename_organization inst org name db).2
  | DeleteOrganization org => (delete_organization_if_empty inst org db).2
  | SetOrganizationQuota org r now => (set_organization_quota inst org r now db).2
  | SetUserQuota user r now => (set_user_quota inst user r now db).2
  | CreateUser c => (create_user_with_initial_key_and_membership inst c db).2
  | CreateKey user name scopes expires allowed now => (create_api_key inst user name scopes expires allowed now db).2
  | RevokeKey user key now => (revoke_api_key inst user key now db).2
  | AdminRevokeKey actor target key reason now => (admin_revoke_api_key inst actor target key reason now db).2
  | Authenticate token db_now now => (authenticate inst token db_now now db).2
  end.

(** Operations that write neither users nor memberships. *)
Lemma frame_managed {A} (m : DbM A) db :
  Preserves (frames (λ db, (t_memberships db, t_users db))) m → keeps_managed inst db (m db).2.
Proof.
  intros Hm. destruct (m db) as [r db'] eqn:E. apply Hm in E. injection E as E1 E2. by apply keeps_managed_ext.
Qed.

Lemma authenticate_frames token db_now now :
  Preserves (frames (λ db, (t_memberships db, t_users db))) (authenticate inst token db_now now).
Proof.
  unfold authenticate, mark_key_used, update_key. apply preserves_if; [apply _|].
  apply preserves_bind; [apply _..|intros [[id k]|]]; apply _.
Qed.

(** C22: no operation on accounts, organizations, memberships or keys, whether it
    succeeds or fails, takes the last active administrator from an organization
    that still exists, or the last active system administrator from the
    installation. *)
Theorem administrators_remain `{Base64Codec} op db : keeps_managed inst db (run_identity_op op db).
Proof.
  destruct op; cbn [run_identity_op].
  - destruct (update_user _ _ _ _ _ _) eqn:E. by eapply update_user_managed.
  - destruct (update_user_profile _ _ _ _ _) eqn:E. by eapply update_user_profile_managed.
  - destruct (upsert_membership _ _ _ _ _ _) eqn:E. by eapply upsert_membership_managed.
  - destruct (remove_membership _ _ _ _) eqn:E. by eapply remove_membership_managed.
  - destruct (create_organization _ _ _ _ _) eqn:E. by eapply create_organization_managed.
  - apply frame_managed. unfold rename_organization, get_organization. apply _.
  - destruct (delete_organization_if_empty _ _ _) eqn:E. by eapply delete_organization_managed.
  - apply frame_managed. unfold set_organization_quota. apply _.
  - apply frame_managed. unfold set_user_quota. apply _.
  - destruct (create_user_with_initial_key_and_membership _ _ _) eqn:E. by eapply create_user_managed.
  - apply frame_managed. unfold create_api_key, lock_user, ensure_key_capacity, insert_key, audit_api_key, insert_audit. apply _.
  - apply frame_managed. unfold revoke_api_key, lock_user, revoke, update_key, audit_api_key, insert_audit. apply _.
  - apply frame_managed. unfold admin_revoke_api_key, revoke_user_key, update_key, audit_admin_api_key, insert_audit. apply _.
  - apply frame_managed, authenticate_frames.
Qed.

Definition identity_step `{Base64Codec} (db db' : Db) : Prop := ∃ op, run_identity_op op db = db'.

Lemma keeps_users_wf {A} (m : DbM A) db : Preserves keeps_users m → keys_wf db → keys_wf (m db).2.
Proof. intros Hm Hwf. destruct (m db) as [r db'] eqn:E. by eapply keys_wf_users; [eapply Hm|]. Qed.

(** Through any sequence of operations, every key keeps an expiry within 365
    days of its creation and at least one scope, a user never has more than 20 keys
    that are not revoked, and no two keys share a token hash. *)
Theorem keys_stay_bounded `{Base64Codec} db db' : rtc identity_step db db' → keys_wf db → keys_wf db'.
Proof.
  induction 1 as [|db db1 db' [op <-] _ IH]; [done|]. intros Hwf. apply IH. destruct op; cbn [run_identity_op].
  - apply keeps_users_wf; [apply update_user_keeps|done].
  - apply keeps_users_wf; [apply update_user_profile_keeps|done].
  - apply keeps_users_wf; [apply upsert_membership_keeps|done].
  - apply keeps_users_wf; [apply remove_membership_keeps|done].
  - apply keeps_users_wf; [apply create_organization_keeps|done].
  - apply keeps_users_wf; [apply rename_organization_keeps|done].
  - apply keeps_users_wf; [apply delete_organization_keeps|done].
  - apply keeps_users_wf; [apply set_organization_quota_keeps|done].
  - apply keeps_users_wf; [apply set_user_quota_keeps|done].
  - destruct (create_user_with_initial_key_and_membership _ _ _) eqn:E. by eapply create_user_wf.
  - destruct (create_api_key _ _ _ _ _ _ _ _) eqn:E. by eapply create_api_key_wf.
  - destruct (revoke_api_key _ _ _ _ _) eqn:E. by eapply revoke_api_key_wf.
  - destruct (admin_revoke_api_key _ _ _ _ _ _ _) eqn:E. by eapply admin_revoke_api_key_wf.
  - destruct (authenticate _ _ _ _ _) eqn:E. by eapply authenticate_wf.
Qed.

(** ** The life of a key *)

(** Every row a token selects carries its hash, so there is at most one. *)
Lemma authenticates_hash token t db id k :
  keys_wf db → t_api_keys db !! id = Some k → authenticates inst token t db k = true →
  k_installation_id k = inst ∧ k_token_hash k = hash_token token.
Proof.
  intros Hwf Hk Ha. unfold authenticates in Ha.
  apply andb_true_iff in Ha as [[[[Hi%String.eqb_eq _]%andb_true_iff Ht]%andb_true_iff _]%andb_true_iff _].
  split; [done|]. apply orb_true_iff in Ht as [Ht|[_ Ht%String.eqb_eq]%andb_true_iff]; [|done].
  apply bool_decide_eq_true in Ht. by eapply kw_token.
Qed.

Lemma find_key token t db id k :
  keys_wf db → t_api_keys db !! id = Some k → k_installation_id k = inst → k_token_hash k = hash_token token →
  List.find (λ kv, authenticates inst token t db kv.2) (map_to_list (t_api_keys db)) =
  if authenticates inst token t db k then Some (id, k) else None.
Proof.
  intros Hwf Hk Hi Hh. destruct (List.find _ _) as [[id' k']|] eqn:E.
  - apply find_some in E as [Hin%list_elem_of_In%elem_of_map_to_list Ha]. cbn in Ha.
    destruct (authenticates_hash _ _ _ _ _ Hwf Hin Ha) as [Hi' Hh'].
    assert (id' = id) as -> by (eapply (kw_unique _ Hwf); [done|done|congruence|congruence]).
    assert (k' = k) as -> by congruence. by rewrite Ha.
  - destruct (authenticates inst token t db k) eqn:Ha; [|done].
    assert (Hin : In (id, k) (map_to_list (t_api_keys db))) by (by apply list_elem_of_In, elem_of_map_to_list).
    apply (find_none _ _ E) in Hin. cbn in Hin. congruence.
Qed.

Lemma authenticate_None token t clock db id k :
  keys_wf db → t_api_keys db !! id = Some k → k_installation_id k = inst → k_token_hash k = hash_token token →
  authenticates inst token t db k = false → authenticate inst token t clock db = (Ok None, db).
Proof.
  intros Hwf Hk Hi Hh Ha. unfold authenticate. destruct (len token <? 32); [done|].
  rewrite bind_run; cbn. by rewrite (find_key _ _ _ _ _ Hwf Hk Hi Hh), Ha.
Qed.

Lemma authenticate_Some token t clock db id k :
  keys_wf db → t_api_keys db !! id = Some k → 32 <= len token → k_token_hash k = hash_token token →
  authenticates inst token t db k = true →
  ∃ p db', authenticate inst token t clock db = (Ok (Some p), db') ∧ pr_user_id p = k_user_id k ∧
    pr_api_key_scopes p = k_scopes k ∧ pr_allowed_template_ids p = k_allowed_template_ids k ∧
    pr_memberships p = memberships_of inst (k_user_id k) db.
Proof.
  intros Hwf Hk Hlen Hh Ha. destruct (authenticates_hash _ _ _ _ _ Hwf Hk Ha) as [Hi _].
  unfold authenticate. rewrite (proj2 (Z.ltb_ge _ _)) by done. rewrite bind_run; cbn.
  rewrite (find_key _ _ _ _ _ Hwf Hk Hi Hh), Ha. rewrite !bind_run; cbn. rewrite bind_run; cbn.
  unfold authenticates in Ha. apply andb_true_iff in Ha as [[[[_ Hu]%andb_true_iff _]%andb_true_iff _]%andb_true_iff _].
  apply is_some_and_true in Hu as (u & Hu & _). rewrite Hu. cbn. rewrite bind_run.
  destruct (kw_bounded _ Hwf _ _ Hk) as [_ Hs].
  assert (∃ db', mark_key_used inst id (k_last_used_at k) clock db = (Ok (), db') ∧ t_memberships db' = t_memberships db) as (db' & -> & Em).
  { unfold mark_key_used. destruct (negb _); [by exists db|]. rewrite bind_run. unfold update_key, update_where.
    destruct (t_api_keys db !! id) as [q|]; [|by exists db]. destruct (_ && _); [|by exists db].
    eexists. split; reflexivity. }
  rewrite !bind_run; cbn. rewrite bind_run; cbn. rewrite bool_decide_eq_false_2 by done. cbn.
  eexists _, _. split; [done|]. cbn. unfold memberships_of. by rewrite Em.
Qed.

Lemma create_api_key_Ok user name scopes expires allowed now db key token db' :
  create_api_key inst user name scopes expires allowed now db = (Ok (key, token), db') →
  t_api_keys db' = <[ks_id key := key_row inst user key token]> (t_api_keys db) ∧
  (∃ u, select_user inst user db' = Some u ∧ u_disabled u = false) ∧
  ks_expires_at key = expires ∧ ∃ point, generate_token point = Ok token.
Proof.
  unfold create_api_key. intros Hrun. run_step Hrun. run_step Hrun. run_step Hrun. run_step Hrun. run_step Hrun.
  run_step Hrun. run_step Hrun. injection Hrun as <- <- <-. rewrite transaction_Ok in Hx3.
  run_step Hx3. unfold lock_user in Hx4. run_step Hx4. injection Hx4 as Hl <-.
  apply ensure_Ok, is_some_and_true in Hl as (u & Hu & Hd%negb_true_iff).
  run_step Hx3. unfold ensure_key_capacity in Hx4. run_step Hx4. injection Hx4 as _ <-.
  run_step Hx3. apply insert_key_Ok in Hx4 as (_ & _ & ->).
  apply (use_frame (λ db, (t_api_keys db, t_users db))) in Hx3; [|unfold audit_api_key, insert_audit; apply _].
  injection Hx3 as E1 E2. split_and!; [done| |done|by eexists].
  exists u. unfold select_user in *. rewrite E2. done.
Qed.

(** After a successful revocation the row is there, revoked. *)
Definition revoked_row (id : Uuid) (db db' : Db) : Prop :=
  ∀ k, t_api_keys db !! id = Some k →
    ∃ k', t_api_keys db' !! id = Some k' ∧ k_installation_id k' = k_installation_id k ∧
      k_token_hash k' = k_token_hash k ∧ k_revoked_at k' ≠ None.

Lemma update_key_revoked id p now db db' :
  update_key id p (set_revoked now) db = (Ok 1, db') → revoked_row id db db'.
Proof.
  unfold update_key, update_where. intros Hrun k Hk. rewrite Hk in Hrun. destruct (p k); [|done].
  injection Hrun as <-. exists (set_revoked now k). cbn. by rewrite lookup_insert_eq.
Qed.

Lemma revoke_api_key_row user id now db x db' :
  revoke_api_key inst user id now db = (Ok x, db') → revoked_row id db db'.
Proof.
  unfold revoke_api_key. intros Hrun. rewrite transaction_Ok in Hrun. run_step Hrun.
  unfold lock_user in Hx. run_step Hx. injection Hx as _ <-. run_step Hrun. run_step Hrun. injection Hrun as _ <-.
  apply (use_frame t_api_keys) in Hx0; [|unfold audit_api_key, insert_audit; apply _].
  unfold revoke in Hx. do 6 run_step Hx. run_step Hx. run_step Hx. apply Z.eqb_eq in Hx5 as ->.
  run_step Hx. injection Hx as _ <-. unfold revoked_row. rewrite Hx0. by eapply update_key_revoked.
Qed.

Lemma admin_revoke_api_key_row actor target id reason now db x db' :
  admin_revoke_api_key inst actor target id reason now db = (Ok x, db') → rv_changed x = true → revoked_row id db db'.
Proof.
  unfold admin_revoke_api_key. intros Hrun Hc. run_step Hrun. rewrite transaction_Ok in Hrun. run_step Hrun.
  run_step Hrun. injection Hrun as -> <-. rewrite Hc in Hx1.
  apply (use_frame t_api_keys) in Hx1; [|unfold audit_admin_api_key, insert_audit; apply _].
  unfold revoke_user_key in Hx0. run_step Hx0. run_step Hx0. injection Hx0 as <- <-. cbn in Hc.
  apply Z.eqb_eq in Hc as ->. unfold revoked_row. rewrite Hx1. by eapply update_key_revoked.
Qed.

Lemma revoked_refused id token t clock db db' :
  keys_wf db' → revoked_row id db db' →
  (∃ k, t_api_keys db !! id = Some k ∧ k_installation_id k = inst ∧ k_token_hash k = hash_token token) →
  authenticate inst token t clock db' = (Ok None, db').
Proof.
  intros Hwf Hrev (k & Hk & Hi & Hh). destruct (Hrev k Hk) as (k' & Hk' & Ei & Eh & Hr).
  eapply authenticate_None; [done|exact Hk'|congruence|congruence|]. unfold authenticates.
  destruct (k_revoked_at k'); [|done]. cbn. by rewrite andb_false_r, andb_false_l.
Qed.

Lemma generated_token_length point token :
  UrlBase64Laws → random_lengths → generate_token point = Ok token → 32 <= len token.
Proof.
  intros Hlaw Hrand. unfold generate_token. intros Hg. inv_binds. injection Hg as <-.
  pose proof (Hrand _ _ _ Hstep) as Hl. pose proof (Hlaw a) as Hu. unfold len in *.
  change (String.length ("mwc_" +:+ url_encode a)) with (4 + String.length (url_encode a))%nat.
  change (length a = 32%nat) in Hl. lia.
Qed.

(** C23: the token a user is given for a new key authenticates that user, with the
    key's scopes, at every moment before the key expires and at none after; and
    from the moment the key is revoked, by the user or by an administrator, it
    authenticates nobody. *)
Theorem key_lifecycle user name scopes e allowed now db key token db' :
  UrlBase64Laws → random_lengths → keys_wf db →
  create_api_key inst user name scopes (Some e) allowed now db = (Ok (key, token), db') →
  (∀ t clock, t < e → ∃ p db2, authenticate inst token t clock db' = (Ok (Some p), db2) ∧
     pr_user_id p = user ∧ pr_api_key_scopes p = ks_scopes key) ∧
  (∀ t clock, e <= t → authenticate inst token t clock db' = (Ok None, db')) ∧
  (∀ t clock later x db2, revoke_api_key inst user (ks_id key) later db' = (Ok x, db2) →
     authenticate inst token t clock db2 = (Ok None, db2)) ∧
  (∀ t clock actor reason later x db2,
     admin_revoke_api_key inst actor user (ks_id key) reason later db' = (Ok x, db2) → rv_changed x = true →
     authenticate inst token t clock db2 = (Ok None, db2)).
Proof.
  intros Hlaw Hrand Hwf Hrun. pose proof (create_api_key_wf _ _ _ _ _ _ _ _ _ Hrun Hwf) as Hwf'.
  destruct (create_api_key_Ok _ _ _ _ _ _ _ _ _ _ Hrun) as (Hrows & (u & Hu & Hd) & He & point & Hg).
  apply generated_token_length in Hg; [|done..].
  set (row := key_row inst user key token) in *.
  assert (Hrow : t_api_keys db' !! ks_id key = Some row) by (rewrite Hrows; apply lookup_insert_eq).
  assert (Hauth : ∀ t, authenticates inst token t db' row = (t <? e)).
  { intros t. unfold authenticates, row. cbn. rewrite String.eqb_refl, Hu, He. cbn. rewrite Hd.
    by rewrite bool_decide_eq_true_2. }
  split_and!.
  - intros t clock Ht. destruct (authenticate_Some token t clock db' _ row Hwf' Hrow Hg eq_refl) as (p & db2 & Ha & Hp & Hs & _).
    + by rewrite Hauth, (proj2 (Z.ltb_lt t e)).
    + exists p, db2. done.
  - intros t clock Ht. eapply authenticate_None; [done|exact Hrow|done|done|]. by rewrite Hauth, (proj2 (Z.ltb_ge t e)).
  - intros t clock later x db2 Hr. eapply revoked_refused; [by eapply revoke_api_key_wf|by eapply revoke_api_key_row|].
    exists row. done.
  - intros t clock actor reason later x db2 Hr Hc.
    eapply revoked_refused; [by eapply admin_revoke_api_key_wf|by eapply admin_revoke_api_key_row|]. exists row. done.
Qed.

(** ** Recovery *)
Definition recovers (user : Uuid) (now : Z) (scope : ApiKeyScope) (k : ApiKeyRow) : bool :=
  usable_key inst user now k && has_scope (k_scopes k) scope.

Lemma filter_filter_length {A B} (f : A → bool) (g : B → bool) (h : A → B) (l : list A) :
  length (List.filter g (h <$> List.filter f l)) = length (List.filter (λ x, f x && g (h x)) l).
Proof. induction l as [|x l IH]; cbn; [done|]. destruct (f x); cbn; [destruct (g (h x)); cbn; lia|done]. Qed.

Lemma count_scopes user now scope db :
  count_keys_with_scope (all_active_key_scopes inst user now db) scope
  = count_rows (λ _, recovers user now scope) (t_api_keys db).
Proof. unfold count_keys_with_scope, all_active_key_scopes, count_rows, recovers. by rewrite filter_filter_length. Qed.

Lemma recovery_kept user id now scope k db M :
  t_api_keys db !! id = Some k → (∀ j, j ≠ id → M !! j = t_api_keys db !! j) →
  (recovers user now scope k = true → 1 < count_rows (λ _, recovers user now scope) (t_api_keys db)) →
  (∃ j q, t_api_keys db !! j = Some q ∧ recovers user now scope q = true) →
  ∃ j q, (M : gmap Uuid ApiKeyRow) !! j = Some q ∧ recovers user now scope q = true.
Proof.
  intros Hk Hother Hc (j & q & Hj & Hq). destruct (decide (j = id)) as [->|Hne].
  - simplify_eq. destruct (count_rows_other _ _ id (Hc Hq)) as (j & q & Hj & Hq' & Hne).
    exists j, q. by rewrite Hother.
  - exists j, q. by rewrite Hother.
Qed.

(** The state after a revocation, and the guard that allowed it. *)
Lemma revoke_api_key_guard user id now db x db' :
  revoke_api_key inst user id now db = (Ok x, db') →
  ∃ k u, t_api_keys db !! id = Some k ∧ unrevoked_key inst user k = true ∧ select_user inst user db = Some u ∧
    t_api_keys db' = <[id := set_revoked now k]> (t_api_keys db) ∧ t_users db' = t_users db ∧
    rv_remaining_active x = remaining_usable_key_count inst user now db' ∧
    (is_none_or (k_expires_at k) (λ e, now <? e) = true →
       ensure_recovery_key_remains (k_scopes k) (all_active_key_scopes inst user now db) (u_system_admin u) = Ok ()).
Proof.
  unfold revoke_api_key. intros Hrun. rewrite transaction_Ok in Hrun. run_step Hrun.
  unfold lock_user in Hx. run_step Hx. injection Hx as _ <-. run_step Hrun. run_step Hrun. injection Hrun as -> <-.
  apply (use_frame (λ db, (t_api_keys db, t_users db))) in Hx0; [|unfold audit_api_key, insert_audit; apply _].
  injection Hx0 as E1 E2. unfold revoke in Hx. run_step Hx. run_step Hx. run_step Hx. run_step Hx. run_step Hx. run_step Hx.
  unfold active_key_details in Hx0. destruct (t_api_keys db !! id) as [k|] eqn:Hk; [|done].
  destruct (unrevoked_key inst user k) eqn:Hun; [|done]. injection Hx0 as <-.
  run_step Hx. run_step Hx. run_step Hx. injection Hx as <- <-.
  unfold update_key, update_where in Hx0. rewrite Hk, Hun in Hx0. injection Hx0 as _ <-. cbn in E1, E2.
  exists k, x1. split_and!; try done.
  - cbn. unfold remaining_usable_key_count. by rewrite E1.
  - intros Hexp. by rewrite Hexp in Hx2.
Qed.

(** A user who can recover (has a usable key that may manage keys) can still
    recover after revoking one of the user's own keys, with a key that does
    authenticate; likewise a system administrator keeps a usable key that may
    manage the system; and the count reported is that of the usable keys left. *)
Theorem recovery_key_remains user id now db x db' :
  keys_wf db → revoke_api_key inst user id now db = (Ok x, db') →
  rv_remaining_active x = count_rows (λ _, usable_key inst user now) (t_api_keys db') ∧
  ∀ scope, scope = ScopeManageApiKeys ∨
      (scope = ScopeManageSystem ∧ ∃ u, select_user inst user db = Some u ∧ u_system_admin u = true) →
    (∃ j q, t_api_keys db !! j = Some q ∧ recovers user now scope q = true) →
    ∃ j q e, t_api_keys db' !! j = Some q ∧ recovers user now scope q = true ∧ k_expires_at q = Some e ∧ now < e.
Proof.
  intros Hwf Hrun. pose proof (revoke_api_key_wf _ _ _ _ _ _ Hrun Hwf) as Hwf'.
  destruct (revoke_api_key_guard _ _ _ _ _ _ Hrun) as (k & u & Hk & Hun & Hu & Hrows & _ & Hcount & Hguard).
  split; [done|]. intros scope Hscope Hex.
  destruct (recovery_kept user id now scope k db (t_api_keys db')) as (j & q & Hj & Hq); [done| | |done|].
  - intros j Hj. by rewrite Hrows, lookup_insert_ne.
  - intros [Huse Hs]%andb_true_iff. rewrite <-count_scopes. unfold usable_key in Huse.
    apply andb_true_iff in Huse as [_ Hexp]. specialize (Hguard Hexp). unfold ensure_recovery_key_remains in Hguard.
    destruct Hscope as [->|[-> (u' & Hu' & Ha)]].
    + rewrite Hs in Hguard. cbn in Hguard. destruct (_ <=? 1) eqn:E; [done|]. by apply Z.leb_gt in E.
    + simplify_eq. rewrite Hs, Ha in Hguard. cbn in Hguard. destruct (_ && _) eqn:E1 in Hguard; [done|].
      destruct (_ <=? 1) eqn:E in Hguard; [done|]. by apply Z.leb_gt in E.
  - destruct (kw_bounded _ Hwf' _ _ Hj) as [(e & He & _) _]. exists j, q, e. split_and!; try done.
    unfold recovers, usable_key in Hq. rewrite He in Hq. cbn in Hq. bool_prop. done.
Qed.
End Invariant.

(** ** An account with two keys *)
Module KeySample.
#[export] Instance hash : TokenHash := λ token, token.
#[export] Instance url : UrlBase64 := String.string_of_list_ascii.
#[export] Instance url_laws : UrlBase64Laws.
Proof.
  intros bs. unfold len, url_encode, url.
  induction bs as [|b bs IH]; cbn [String.string_of_list_ascii String.length length]; lia.
Qed.
#[export] Existing Instances decimal_uuid_text CryptoSample.random CryptoSample.base64.

Definition ada : InitialUserCommand :=
  mkInitialUser "Ada" "mwc_0123456789abcdef0123456789abcdef" false [ScopeManageApiKeys] 1000 None 10.
Definition db1 : Db := run_identity_op "inst" (CreateUser ada) empty_db.
Definition user : Uuid := Eval vm_compute in hd 0%N (map_to_list (t_users db1)).*1.
Definition first_key : Uuid := Eval vm_compute in hd 0%N (map_to_list (t_api_keys db1)).*1.
Definition second := create_api_key "inst" user " laptop " [ScopeReadWorkspace; ScopeManageApiKeys] (Some 500) None 20 db1.

Lemma empty_keys_wf : keys_wf "inst" empty_db.
Proof. split; intros; try (exfalso; set_solver); by vm_compute. Qed.
Lemma db1_wf : keys_wf "inst" db1.
Proof. eapply create_user_wf; [apply surjective_pairing|apply empty_keys_wf]. Qed.
End KeySample.
Import (hints) KeySample.

Lemma keys_stay_bounded_witness : keys_wf "inst" KeySample.db1.
Proof.
  refine (keys_stay_bounded "inst" empty_db KeySample.db1 _ KeySample.empty_keys_wf).
  apply rtc_once. exists (CreateUser KeySample.ada). reflexivity.
Defined.

Lemma key_lifecycle_witness :
  ∃ key token db', KeySample.second = (Ok (key, token), db') ∧ ks_scopes key = [ScopeManageApiKeys; ScopeReadWorkspace] ∧
    authenticate "inst" token 500 600 db' = (Ok None, db').
Proof.
  destruct KeySample.second as [r db'] eqn:E.
  assert (∃ key token, r = Ok (key, token) ∧ ks_scopes key = [ScopeManageApiKeys; ScopeReadWorkspace])
    as (key & token & -> & Hs) by (apply (f_equal fst) in E; vm_compute in E; eauto).
  exists key, token, db'. split; [done|]. split; [exact Hs|].
  refine (proj1 (proj2 (key_lifecycle "inst" KeySample.user " laptop " [ScopeReadWorkspace; ScopeManageApiKeys] 500 None 20
    KeySample.db1 key token db' KeySample.url_laws CryptoSample.random_ok KeySample.db1_wf E)) 500 600 _). lia.
Defined.

Lemma recovery_key_remains_witness :
  ∃ x db', revoke_api_key "inst" KeySample.user KeySample.first_key 30 KeySample.second.2 = (Ok x, db') ∧
    ∃ j q e, t_api_keys db' !! j = Some q ∧ recovers "inst" KeySample.user 30 ScopeManageApiKeys q = true ∧
      k_expires_at q = Some e ∧ 30 < e.
Proof.
  destruct (revoke_api_key _ _ _ _ KeySample.second.2) as [r db'] eqn:E.
  assert (∃ x, r = Ok x) as [x ->] by (apply (f_equal fst) in E; vm_compute in E; eauto).
  exists x, db'. split; [done|].
  assert (Hwf : keys_wf "inst" KeySample.second.2).
  { unfold KeySample.second. destruct (create_api_key _ _ _ _ _ _ _ _) eqn:E2.
    eapply create_api_key_wf; [exact E2|apply KeySample.db1_wf]. }
  refine (proj2 (recovery_key_remains "inst" KeySample.user KeySample.first_key 30 KeySample.second.2 x db' Hwf E)
    ScopeManageApiKeys (or_introl eq_refl) _).
  eexists KeySample.first_key, _. split; vm_compute; reflexivity.
Defined.
