(* ===== verification/Listing.v ===== *)
(** * Listings and their pages ([src/storage/admin_store/pagination.rs] and the
    listings of [users.rs], [organizations.rs] and [memberships.rs] beside it,
    [src/storage/user_settings/api_keys/listing.rs],
    [src/storage/workspace_store/pagination.rs] and the lists of
    [src/storage/workspace_store.rs])

    A page holds up to [limit] rows in the order of (creation time, identifier)
    and a cursor that names its last row; the next page starts after that row.
    The cursor is the URL-safe Base64 text of a JSON object. *)
From stdpp Require Import sorting.
From S2P Require Import Prelude Text Json Quota Auth Templates Workspaces Errors ShrinkOperation Database WorkspaceStore Search Crypto Catalog InjectionStore Creation Usage Identity ApiKeys.

(** [serde_json::to_vec] and [from_slice] for a type with derived instances, and
    the decoding half of [URL_SAFE_NO_PAD]. *)
Class SerdeJson (A : Type) := { json_to_vec : A → Octets; json_from_slice : Octets → option A }.
Class SerdeLaws (A : Type) `{SerdeJson A} : Prop := json_read_back (a : A) : json_from_slice (json_to_vec a) = Some a.
Class UrlDecode := url_decode : string → option Octets.
Class UrlDecodeLaws `{UrlBase64} `{UrlDecode} : Prop := url_read_back bs : url_decode (url_encode bs) = Some bs.

(** ** Rows in order *)
Inductive WorkspaceSort := Newest | Oldest.
#[global] Instance workspace_sort_eq_dec : EqDecision WorkspaceSort.
Proof. solve_decision. Defined.

(** [UserPage], [OrganizationPage], [MembershipPage] and [ApiKeyPage] differ in the
    type of their items. *)
Record Page (A : Type) := mkPage {
  pg_items : list A;
  pg_next_cursor : option string;
}.
Arguments mkPage {A}. Arguments pg_items {A}. Arguments pg_next_cursor {A}.

Section Keyset.
Context `{UuidText}.

(** What rows are ordered by: [created_at] and the text of [id]. *)
Definition PageKey : Type := Z * Uuid.

(** [created_at < c.created_at OR (created_at = c.created_at AND id < c.id)]. *)
Definition key_lt (a b : PageKey) : bool :=
  (a.1 <? b.1) || ((a.1 =? b.1) && negb (bool_decide (String.le (uuid_to_string b.2) (uuid_to_string a.2)))).

(** [a] comes before [b] in the order of the listing. *)
Definition key_before (sort : WorkspaceSort) (a b : PageKey) : bool :=
  match sort with Oldest => key_lt a b | Newest => key_lt b a end.
Definition key_le (sort : WorkspaceSort) (a b : PageKey) : Prop := key_before sort b a = false.

#[global] Instance key_le_dec sort a b : Decision (key_le sort a b).
Proof. unfold key_le. apply _. Defined.

(** [ORDER BY created_at, id], descending for [Newest]. *)
Definition ordered {A} (key : A → PageKey) (sort : WorkspaceSort) (rows : list A) : list A :=
  merge_sort (λ x y, key_le sort (key x) (key y)) rows.

(** [... AND (cursor IS NULL OR key after cursor) ORDER BY key LIMIT limit + 1]. *)
Definition select_page {A} (key : A → PageKey) (sort : WorkspaceSort) (rows : list A) (cursor : option PageKey)
    (limit : Z) : list A :=
  take (Z.to_nat (limit + 1))
    (ordered key sort (List.filter (λ x, is_none_or cursor (λ c, key_before sort c (key x))) rows)).

Definition page_limit (limit : option Z) : Z := Z.max 1 (Z.min 200 (default 50 limit)).

(** The items of a page, and its last one where another page follows. The code
    takes [items.last()] of what is left after [pop] with [expect]: it exists
    because [limit] is at least one. *)
Definition split_page {A} (items : list A) (limit : Z) : list A * option A :=
  if limit <? Z.of_nat (length items) then (removelast items, last (removelast items)) else (items, None).
End Keyset.

Section Listing.
Context `{UuidText} `{SqlBackend} `{TextCase} `{UrlBase64} `{UrlDecode}.

(** ** Cursors of users, organizations and members *)
Record KeysetCursor := mkKeysetCursor {
  kc_created_at : Z;
  kc_id : Uuid;
}.
Context `{SerdeJson KeysetCursor}.

Definition decode_cursor (cursor : option string) : result StorageError.t (option KeysetCursor) :=
  match cursor with
  | None => Ok None
  | Some text =>
      bs ← ok_or (url_decode text) StorageError.InvalidAuditQuery;
      c ← ok_or (json_from_slice bs) StorageError.InvalidAuditQuery;
      Ok (Some c)
  end.

Definition encode_cursor (key : PageKey) : string := url_encode (json_to_vec (mkKeysetCursor key.1 key.2)).
Definition cursor_key (c : KeysetCursor) : PageKey := (kc_created_at c, kc_id c).

(** [page_users], [page_organizations] and [page_members]. *)
Definition keyset_page {A} (key : A → PageKey) (items : list A) (limit : Z) : Page A :=
  let '(items, tail) := split_page items limit in mkPage items (encode_cursor ∘ key <$> tail).

(** ** Users *)
Definition user_key (u : UserSummary) : PageKey := (us_created_at u, us_id u).

Definition user_rows (inst : string) (db : Db) : list (Uuid * UserRow) :=
  List.filter (λ kv : Uuid * UserRow, String.eqb (u_installation_id kv.2) inst) (map_to_list (t_users db)).

Definition list_users (inst : string) : DbM (list UserSummary) :=
  reads (λ db, ordered user_key Oldest ((λ kv, decode_user kv.1 kv.2) <$> user_rows inst db)).

(** [decode_user_with_membership] when the page is scoped to an organization: the
    [LEFT JOIN] leaves the role empty for a user that is no member. *)
Definition user_item (inst : string) (organization_id : option Uuid) (db : Db) (kv : Uuid * UserRow) : UserSummary :=
  let u := decode_user kv.1 kv.2 in
  mkUserSummary (us_id u) (us_display_name u) (us_system_admin u) (us_disabled u) (us_created_at u)
    ((λ org, m_role <$> t_memberships db !! (inst, org, kv.1)) <$> organization_id).

Definition matching_users (inst : string) (search : option string) (organization_id : option Uuid) (db : Db) : list UserSummary :=
  user_item inst organization_id db <$>
    List.filter (λ kv : Uuid * UserRow, matches_search (search_text search) [u_display_name kv.2]) (user_rows inst db).

Definition list_users_page (inst : string) (limit : option Z) (cursor search : option string) (organization_id : option Uuid)
    : DbM (Page UserSummary) :=
  let limit := page_limit limit in
  cursor ← lift (decode_cursor cursor);
  rows ← reads (λ db, select_page user_key Oldest (matching_users inst search organization_id db) (cursor_key <$> cursor) limit);
  mret (keyset_page user_key rows limit).

(** ** Organizations *)
Definition organization_key (o : Organization) : PageKey := (org_created_at o, org_id o).

Definition is_member (inst : string) (user_id organization_id : Uuid) (db : Db) : bool :=
  is_some (t_memberships db !! (inst, organization_id, user_id)).

Definition visible_organizations (inst : string) (user_id : Uuid) (system_admin : bool) (db : Db)
    : list (Uuid * OrganizationRow) :=
  List.filter (λ kv : Uuid * OrganizationRow,
                 String.eqb (o_installation_id kv.2) inst && (system_admin || is_member inst user_id kv.1 db))
    (map_to_list (t_organizations db)).

(** [ORDER BY name, id]. *)
Definition name_le (a b : Organization) : Prop :=
  org_name a ≠ org_name b ∧ String.le (org_name a) (org_name b)
  ∨ org_name a = org_name b ∧ String.le (uuid_to_string (org_id a)) (uuid_to_string (org_id b)).
#[global] Instance name_le_dec a b : Decision (name_le a b).
Proof. unfold name_le. apply _. Defined.

Definition decode_organization (id : Uuid) (o : OrganizationRow) : Organization :=
  mkOrganization id (o_name o) (o_created_at o).

Definition list_organizations_for (inst : string) (user_id : Uuid) (system_admin : bool) : DbM (list Organization) :=
  reads (λ db, merge_sort name_le
                 ((λ kv, decode_organization kv.1 kv.2) <$> visible_organizations inst user_id system_admin db)).

Definition matching_organizations (inst : string) (user_id : Uuid) (system_admin : bool) (search : option string) (db : Db)
    : list Organization :=
  (λ kv, decode_organization kv.1 kv.2) <$>
    List.filter (λ kv : Uuid * OrganizationRow, matches_unescaped (trim (chars (default "" search))) (o_name kv.2))
      (visible_organizations inst user_id system_admin db).

Definition list_organizations_page_for (inst : string) (user_id : Uuid) (system_admin : bool) (limit : option Z)
    (cursor search : option string) : DbM (Page Organization) :=
  let limit := page_limit limit in
  cursor ← lift (decode_cursor cursor);
  rows ← reads (λ db, select_page organization_key Oldest (matching_organizations inst user_id system_admin search db)
                        (cursor_key <$> cursor) limit);
  mret (keyset_page organization_key rows limit).

(** ** Members *)
Record MembershipSummary := mkMembershipSummary {
  msm_user : UserSummary;
  msm_role : Role;
}.

Definition member_key (m : MembershipSummary) : PageKey := user_key (msm_user m).

(** [organization_memberships m JOIN users u]. *)
Definition member_item (inst : string) (organization_id : Uuid) (db : Db) (kv : Uuid * UserRow) : option MembershipSummary :=
  (λ m, mkMembershipSummary (decode_user kv.1 kv.2) (m_role m)) <$> t_memberships db !! (inst, organization_id, kv.1).

Definition matching_members (inst : string) (organization_id : Uuid) (search : option string) (db : Db) : list MembershipSummary :=
  omap (member_item inst organization_id db)
    (List.filter (λ kv : Uuid * UserRow, matches_unescaped (trim (chars (default "" search))) (u_display_name kv.2))
       (user_rows inst db)).

Definition list_members_page (inst : string) (organization_id : Uuid) (limit : option Z) (cursor search : option string)
    : DbM (Page MembershipSummary) :=
  let limit := page_limit limit in
  cursor ← lift (decode_cursor cursor);
  rows ← reads (λ db, select_page member_key Oldest (matching_members inst organization_id search db) (cursor_key <$> cursor) limit);
  mret (keyset_page member_key rows limit).
End Listing.

(** ** API keys *)
Inductive ApiKeyListStatus := ListActive | ListRevoked | ListAll.
#[global] Instance list_status_eq_dec : EqDecision ApiKeyListStatus.
Proof. solve_decision. Defined.

Record ApiKeyCursor := mkApiKeyCursor {
  ac_created_at : Z;
  ac_id : Uuid;
  ac_target_user_id : Uuid;
  ac_status : ApiKeyListStatus;
}.

Record ApiKeyWithToken := mkKeyWithToken {
  kt_summary : ApiKeySummary;
  kt_token : option string;
}.

Section KeyListing.
Context `{UuidText} `{UrlBase64} `{UrlDecode} `{SerdeJson ApiKeyCursor}.

Definition key_summary (id : Uuid) (k : ApiKeyRow) : ApiKeySummary :=
  mkKeySummary id (k_name k) (k_token_prefix k) (k_last_used_at k) (k_created_at k) (k_scopes k) (k_expires_at k)
    (k_allowed_template_ids k) (k_revoked_at k).

Definition summary_key (s : ApiKeySummary) : PageKey := (ks_created_at s, ks_id s).
Definition api_key_key (k : ApiKeyWithToken) : PageKey := summary_key (kt_summary k).

(** [fetch_optional] of an optional column: a row without a plain token reads as
    [Some None]. *)
Definition get_api_key_token (inst : string) (user_id key_id : Uuid) (now : Z) : DbM (option string) :=
  row ← reads (λ db, t_api_keys db !! key_id);
  match row with
  | Some k =>
      if unrevoked_key inst user_id k && is_some_and (k_expires_at k) (λ e, now <? e) then mret (k_token k)
      else fail StorageError.ApiKeyNotFound
  | None => fail StorageError.ApiKeyNotFound
  end.

Definition list_api_keys (inst : string) (user_id : Uuid) : DbM (list ApiKeySummary) :=
  reads (λ db, ordered summary_key Oldest
                 ((λ kv : Uuid * ApiKeyRow, key_summary kv.1 kv.2) <$>
                    List.filter (λ kv : Uuid * ApiKeyRow, unrevoked_key inst user_id kv.2) (map_to_list (t_api_keys db)))).

Definition status_admits (status : ApiKeyListStatus) (k : ApiKeyRow) : bool :=
  match status with
  | ListAll => true
  | ListActive => negb (is_some (k_revoked_at k))
  | ListRevoked => is_some (k_revoked_at k)
  end.

Definition decode_key_cursor (cursor : option string) (target_user_id : Uuid) (status : ApiKeyListStatus)
    : result StorageError.t (option ApiKeyCursor) :=
  match cursor with
  | None => Ok None
  | Some text =>
      bs ← ok_or (url_decode text) StorageError.InvalidApiKeyQuery;
      c ← ok_or (json_from_slice bs) StorageError.InvalidApiKeyQuery;
      _ ← ensure (bool_decide (ac_target_user_id c = target_user_id) && bool_decide (ac_status c = status))
            StorageError.InvalidApiKeyQuery;
      Ok (Some c)
  end.

Definition encode_key_cursor (target_user_id : Uuid) (status : ApiKeyListStatus) (key : PageKey) : string :=
  url_encode (json_to_vec (mkApiKeyCursor key.1 key.2 target_user_id status)).

Definition api_key_page (items : list ApiKeyWithToken) (limit : Z) (target_user_id : Uuid) (status : ApiKeyListStatus)
    : Page ApiKeyWithToken :=
  let '(items, tail) := split_page items limit in
  mkPage items (encode_key_cursor target_user_id status ∘ api_key_key <$> tail).

Definition matching_keys (inst : string) (target_user_id : Uuid) (status : ApiKeyListStatus) (db : Db) : list ApiKeyWithToken :=
  (λ kv : Uuid * ApiKeyRow, mkKeyWithToken (key_summary kv.1 kv.2) (k_token kv.2)) <$>
    List.filter (λ kv : Uuid * ApiKeyRow, key_of inst target_user_id kv.2 && status_admits status kv.2)
      (map_to_list (t_api_keys db)).

Definition list_api_keys_page (inst : string) (target_user_id : Uuid) (status : ApiKeyListStatus) (limit : option Z)
    (cursor : option string) : DbM (Page ApiKeyWithToken) :=
  let limit := page_limit limit in
  cursor ← lift (decode_key_cursor cursor target_user_id status);
  rows ← reads (λ db, select_page api_key_key Oldest (matching_keys inst target_user_id status db)
                        ((λ c, (ac_created_at c, ac_id c)) <$> cursor) limit);
  mret (api_key_page rows limit target_user_id status).
End KeyListing.

(** ** Workspaces *)
Record WorkspaceCursor := mkWorkspaceCursor {
  wc_created_at : Z;
  wc_id : Uuid;
  wc_sort : WorkspaceSort;
}.

Record WorkspacePage := mkWorkspacePage {
  wp_page : Page Workspace;
  wp_summary : WorkspacePageSummary;
}.

Section WorkspaceListing.
Context `{UuidText} `{SqlBackend} `{TextCase} `{SnapshotText} `{UrlBase64} `{UrlDecode} `{SerdeJson WorkspaceCursor}.

Definition row_page_key (kv : Uuid * WorkspaceRow) : PageKey := (wr_created_at kv.2, kv.1).

Definition decode_all (rows : list (Uuid * WorkspaceRow)) : result StorageError.t (list Workspace) :=
  collect (λ kv, decode_workspace kv.1 kv.2) rows.

Definition workspace_rows (p : Uuid → WorkspaceRow → bool) (db : Db) : list (Uuid * WorkspaceRow) :=
  List.filter (λ kv, p kv.1 kv.2) (map_to_list (t_workspaces db)).

Definition list_workspaces (inst : string) (organization_id : Uuid) : DbM (list Workspace) :=
  rows ← reads (λ db, ordered row_page_key Oldest (workspace_rows (λ _, organization_counts inst organization_id) db));
  lift (decode_all rows).

Definition list_workspaces_by_ids (inst : string) (organization_id : Uuid) (workspace_ids : list Uuid) : DbM (list Workspace) :=
  if bool_decide (workspace_ids = []) then mret []
  else if 100 <? Z.of_nat (length workspace_ids) then fail StorageError.InvalidWorkspace
  else
    rows ← reads (λ db, ordered row_page_key Oldest
                          (workspace_rows (λ id r, organization_counts inst organization_id r && bool_decide (id ∈ workspace_ids)) db));
    lift (decode_all rows).

Definition decode_workspace_cursor (cursor : option string) (sort : WorkspaceSort) : result StorageError.t (option WorkspaceCursor) :=
  match cursor with
  | None => Ok None
  | Some text =>
      bs ← ok_or (url_decode text) StorageError.InvalidWorkspace;
      c ← ok_or (json_from_slice bs) StorageError.InvalidWorkspace;
      _ ← ensure (bool_decide (wc_sort c = sort)) StorageError.InvalidWorkspace;
      Ok (Some c)
  end.

Definition workspace_key (w : Workspace) : PageKey := (ws_created_at w, ws_id w).

Definition encode_workspace_cursor (sort : WorkspaceSort) (key : PageKey) : string :=
  url_encode (json_to_vec (mkWorkspaceCursor key.1 key.2 sort)).

Definition matching_workspaces (inst : string) (organization_id : Uuid) (search : list Z) (db : Db) : list (Uuid * WorkspaceRow) :=
  workspace_rows (λ _, workspace_filter inst organization_id search) db.

Definition list_workspaces_page (inst : string) (organization_id : Uuid) (limit : option Z) (cursor search : option string)
    (sort : WorkspaceSort) : DbM WorkspacePage :=
  let limit := page_limit limit in
  cursor ← lift (decode_workspace_cursor cursor sort);
  let search := search_text search in
  summary ← workspace_page_summary inst organization_id search;
  rows ← reads (λ db, select_page row_page_key sort (matching_workspaces inst organization_id search db)
                        ((λ c, (wc_created_at c, wc_id c)) <$> cursor) limit);
  items ← lift (decode_all rows);
  let '(items, tail) := split_page items limit in
  mret (mkWorkspacePage (mkPage items (encode_workspace_cursor sort ∘ workspace_key <$> tail)) summary).
End WorkspaceListing.

#[global] Arguments select_page : simpl never.
#[global] Arguments split_page : simpl never.
#[global] Arguments decode_all : simpl never.

(** ** The order is total *)
Section Order.
Context `{UuidTextLaws}.

Lemma id_text_le_antisym (a b : Uuid) :
  String.le (uuid_to_string a) (uuid_to_string b) → String.le (uuid_to_string b) (uuid_to_string a) → a = b.
Proof. intros H1 H2. apply (inj uuid_to_string). by apply (anti_symm String.le). Qed.

Lemma key_lt_irrefl a : key_lt a a = false.
Proof. unfold key_lt. rewrite Z.ltb_irrefl, bool_decide_eq_true_2; [by rewrite andb_false_r|reflexivity]. Qed.

Lemma key_lt_true a b :
  key_lt a b = true ↔ a.1 < b.1 ∨ a.1 = b.1 ∧ ¬ String.le (uuid_to_string b.2) (uuid_to_string a.2).
Proof. unfold key_lt. rewrite orb_true_iff, andb_true_iff, negb_true_iff, bool_decide_eq_false, Z.ltb_lt, Z.eqb_eq. done. Qed.

Lemma key_lt_trans a b c : key_lt a b = true → key_lt b c = true → key_lt a c = true.
Proof.
  rewrite !key_lt_true. intros [?|[E1 H1]] [?|[E2 H2]]; [left; lia..|right]. split; [lia|]. intros H3.
  apply H1. etrans; [|exact H3]. by destruct (base.total String.le (uuid_to_string b.2) (uuid_to_string c.2)).
Qed.

Lemma key_lt_total a b : key_lt a b = false → key_lt b a = false → a = b.
Proof.
  rewrite <-!not_true_iff_false, !key_lt_true. intros H1 H2. assert (a.1 = b.1) as E by lia.
  destruct a as [a1 a2], b as [b1 b2]; cbn in *. f_equal; [done|]. apply id_text_le_antisym; apply dec_stable; naive_solver.
Qed.

Lemma key_before_irrefl sort a : key_before sort a a = false.
Proof. destruct sort; apply key_lt_irrefl. Qed.
Lemma key_before_trans sort a b c : key_before sort a b = true → key_before sort b c = true → key_before sort a c = true.
Proof. destruct sort; cbn; eauto using key_lt_trans. Qed.
Lemma key_before_total sort a b : key_before sort a b = false → key_before sort b a = false → a = b.
Proof. destruct sort; cbn; intros; [symmetry|]; by apply key_lt_total. Qed.
Lemma key_before_asym sort a b : key_before sort a b = true → key_before sort b a = false.
Proof.
  intros Hab. destruct (key_before sort b a) eqn:Hba; [|done].
  by rewrite <-(key_before_irrefl sort a), (key_before_trans _ _ _ _ Hab Hba).
Qed.

#[global] Instance key_le_total sort : base.Total (key_le sort).
Proof.
  intros a b. unfold key_le. destruct (key_before sort b a) eqn:E; [|by left]. right. by apply key_before_asym.
Qed.
#[global] Instance key_le_trans sort : Transitive (key_le sort).
Proof.
  unfold key_le. intros a b c Hab Hbc. destruct (key_before sort c a) eqn:E; [|done].
  destruct (key_before sort a b) eqn:E1.
  - by rewrite (key_before_trans _ _ _ _ E E1) in Hbc.
  - by rewrite (key_before_total _ _ _ E1 Hab), Hbc in E.
Qed.
End Order.

(** ** Lists in order *)
Section Sorted.
Context `{UuidTextLaws} {A : Type} (key : A → PageKey) (sort : WorkspaceSort).

(** Every row comes before the rows after it. *)
Definition in_order (l : list A) : Prop := StronglySorted (λ x y, key_before sort (key x) (key y) = true) l.
Definition after (cursor : option PageKey) (x : A) : bool := is_none_or cursor (λ c, key_before sort c (key x)).

Lemma NoDup_key_inj (l : list A) x y : NoDup (key <$> l) → x ∈ l → y ∈ l → key x = key y → x = y.
Proof.
  induction l as [|z l IH]; [by intros _ ?%elem_of_nil|]. cbn. intros [Hz Hnd]%NoDup_cons.
  rewrite !elem_of_cons. intros [->|Hx] [->|Hy] E; [done| | |by apply IH].
  - destruct Hz. rewrite E. by apply list_elem_of_fmap_2.
  - destruct Hz. rewrite <-E. by apply list_elem_of_fmap_2.
Qed.

Lemma ordered_sorted l : StronglySorted (λ x y, key_le sort (key x) (key y)) (ordered key sort l).
Proof.
  apply StronglySorted_merge_sort.
  - intros x y z. apply key_le_trans.
  - intros x y. apply key_le_total.
Qed.

Lemma ordered_in_order l : NoDup (key <$> l) → in_order (ordered key sort l).
Proof.
  intros Hnd. pose proof (ordered_sorted l) as Hs. unfold in_order.
  assert (Hnd' : NoDup (key <$> ordered key sort l)) by (unfold ordered; by rewrite merge_sort_Permutation).
  induction Hs as [|x k Hk IH Hx]; [constructor|]. cbn in Hnd'. apply NoDup_cons in Hnd' as [Hx' Hnd'].
  constructor; [by apply IH|]. rewrite Forall_forall in Hx |- *. intros y Hy.
  destruct (key_before sort (key x) (key y)) eqn:E; [done|]. destruct Hx'.
  rewrite (key_before_total _ _ _ E (Hx y Hy)). by apply list_elem_of_fmap_2.
Qed.

Lemma ordered_filter (p : A → bool) l :
  NoDup (key <$> l) → ordered key sort (List.filter p l) = List.filter p (ordered key sort l).
Proof.
  intros Hnd. apply (StronglySorted_unique_strong (λ x y, key_le sort (key x) (key y))).
  - intros x y Hx Hy Hxy Hyx. unfold ordered in Hx, Hy. rewrite merge_sort_Permutation in Hx.
    apply list_elem_of_In, filter_In in Hx as [Hx _]. apply list_elem_of_In, filter_In in Hy as [Hy _].
    apply list_elem_of_In in Hx, Hy. rewrite merge_sort_Permutation in Hy.
    eapply NoDup_key_inj; [exact Hnd|done..|]. by apply (key_before_total sort).
  - apply ordered_sorted.
  - apply StronglySorted_list_filter, ordered_sorted.
  - unfold ordered. rewrite merge_sort_Permutation. apply list_filter_Permutation. by rewrite merge_sort_Permutation.
Qed.

Lemma in_order_app l1 l2 : in_order (l1 ++ l2) →
  in_order l1 ∧ in_order l2 ∧ ∀ x y, x ∈ l1 → y ∈ l2 → key_before sort (key x) (key y) = true.
Proof.
  unfold in_order. induction l1 as [|z l1 IH]; cbn.
  - intros Hs. split_and!; [constructor|done|]. by intros x y ?%elem_of_nil.
  - intros [Hs Hz]%StronglySorted_inv. apply Forall_app in Hz as [Hz1 Hz2].
    destruct (IH Hs) as (H1 & H2 & H3). split_and!; [by constructor|done|].
    intros x y [->|Hx]%elem_of_cons Hy; [|by apply H3]. rewrite Forall_forall in Hz2. by apply Hz2.
Qed.

Lemma list_filter_all (p : A → bool) l : (∀ x, x ∈ l → p x = true) → List.filter p l = l.
Proof.
  induction l as [|x l IH]; intros Hp; cbn; [done|]. rewrite Hp by left. f_equal. apply IH. intros; apply Hp; by right.
Qed.
Lemma list_filter_none (p : A → bool) l : (∀ x, x ∈ l → p x = false) → List.filter p l = [].
Proof.
  induction l as [|x l IH]; intros Hp; cbn; [done|]. rewrite Hp by left. apply IH. intros; apply Hp; by right.
Qed.

(** The rows after a row are those that follow it. *)
Lemma filter_after l1 x l2 : in_order (l1 ++ x :: l2) → List.filter (after (Some (key x))) (l1 ++ x :: l2) = l2.
Proof.
  intros Hs. replace (l1 ++ x :: l2) with ((l1 ++ [x]) ++ l2) in * by (by rewrite <-app_assoc).
  pose proof Hs as (H1 & _ & H2)%in_order_app. rewrite List.filter_app, list_filter_none, list_filter_all; [done|..].
  - intros y Hy. apply H2; [|done]. apply elem_of_app. right. by apply list_elem_of_singleton.
  - intros y [Hy|Hy]%elem_of_app; cbn; [|apply list_elem_of_singleton in Hy as ->; apply key_before_irrefl].
    apply key_before_asym. apply in_order_app in H1 as (_ & _ & H3). apply H3; [done|]. by apply list_elem_of_singleton.
Qed.

(** Continuing after a row of the rest gives the rest of the rest. *)
Lemma filter_after_after c x l : after c x = true →
  List.filter (after (Some (key x))) (List.filter (after c) l) = List.filter (after (Some (key x))) l.
Proof.
  intros Hx. induction l as [|y l IH]; [done|]. cbn [List.filter].
  destruct (after (Some (key x)) y) eqn:Ey.
  - assert (Hy : after c y = true). { destruct c as [c|]; [|done]. cbn in *. by eapply key_before_trans. }
    rewrite Hy. cbn [List.filter]. by rewrite Ey, IH.
  - destruct (after c y); cbn [List.filter]; [|done]. by rewrite Ey.
Qed.
End Sorted.

(** ** Following the cursors *)

(** What a client does: ask for pages until one names no next page. *)
Fixpoint walk {A} (fetch : option string → result StorageError.t (Page A)) (fuel : nat) (cursor : option string)
    : option (result StorageError.t (list A)) :=
  match fuel with
  | O => None
  | S fuel =>
      match fetch cursor with
      | Err e => Some (Err e)
      | Ok page =>
          match pg_next_cursor page with
          | None => Some (Ok (pg_items page))
          | Some next =>
              match walk fetch fuel (Some next) with
              | Some (Ok rest) => Some (Ok (pg_items page ++ rest))
              | r => r
              end
          end
      end
  end.

Section Walk.
Context `{UuidTextLaws} {A : Type} (key : A → PageKey) (sort : WorkspaceSort) (encode : PageKey → string).

(** The page of the rows after a cursor. *)
Definition page_after (l : list A) (limit : Z) (cursor : option PageKey) : Page A :=
  let '(items, tail) := split_page (take (Z.to_nat (limit + 1)) (List.filter (after key sort cursor) l)) limit in
  mkPage items (encode ∘ key <$> tail).

Lemma split_page_short (l : list A) limit :
  0 <= limit → Z.of_nat (length l) <= limit → split_page (take (Z.to_nat (limit + 1)) l) limit = (l, None).
Proof.
  intros Hz Hl. rewrite take_ge by lia. unfold split_page. by rewrite (proj2 (Z.ltb_ge _ _)).
Qed.

Lemma removelast_take (l : list A) n : (n < length l)%nat → removelast (take (S n) l) = take n l.
Proof. intros Hn. rewrite removelast_firstn_len, length_firstn, firstn_firstn. f_equal. lia. Qed.

Lemma split_page_long (l : list A) limit :
  1 <= limit → limit < Z.of_nat (length l) →
  ∃ l1 x, take (Z.to_nat limit) l = l1 ++ [x] ∧
    split_page (take (Z.to_nat (limit + 1)) l) limit = (l1 ++ [x], Some x).
Proof.
  intros Hlim Hl. replace (Z.to_nat (limit + 1)) with (S (Z.to_nat limit)) by lia. unfold split_page.
  rewrite (proj2 (Z.ltb_lt _ _)) by (rewrite length_firstn; lia). rewrite removelast_take by lia.
  destruct (exists_last (l := take (Z.to_nat limit) l)) as (l1 & x & E).
  { intros E. apply (f_equal length) in E. rewrite length_firstn in E. cbn in E. lia. }
  exists l1, x. split; [done|]. rewrite E. by rewrite last_snoc.
Qed.

(** [page] of a cursor that was handed out before is the page after its row. *)
Lemma walk_pages (fetch : option string → result StorageError.t (Page A)) l limit :
  1 <= limit → in_order key sort l →
  fetch None = Ok (page_after l limit None) →
  (∀ x, x ∈ l → fetch (Some (encode (key x))) = Ok (page_after l limit (Some (key x)))) →
  walk fetch (S (length l)) None = Some (Ok l).
Proof.
  intros Hlim Hs Hfirst Hn.
  enough (Hgen : ∀ fuel text cursor, fetch text = Ok (page_after l limit cursor) →
    (length (List.filter (after key sort cursor) l) < fuel)%nat →
    walk fetch fuel text = Some (Ok (List.filter (after key sort cursor) l))).
  { rewrite (Hgen _ None None Hfirst); [by rewrite list_filter_all|]. rewrite list_filter_all by done. lia. }
  induction fuel as [|fuel IH]; intros text cursor Hf Hlen; [lia|]. cbn [walk]. rewrite Hf. unfold page_after.
  set (rest := List.filter (after key sort cursor) l) in *.
  destruct (Z.leb_spec (Z.of_nat (length rest)) limit) as [Hle|Hlt].
  { by rewrite split_page_short by lia. }
  destruct (split_page_long rest limit) as (l1 & x & Hx & ->); [lia..|]. cbn [pg_next_cursor pg_items fmap option_fmap option_map].
  assert (Hrest : rest = l1 ++ x :: drop (Z.to_nat limit) rest).
  { rewrite <-(take_drop (Z.to_nat limit) rest) at 1. by rewrite Hx, <-app_assoc. }
  assert (Hin : x ∈ rest) by (rewrite Hrest; set_solver).
  apply list_elem_of_In, filter_In in Hin as [Hin Hax]. apply list_elem_of_In in Hin.
  assert (Hnext : List.filter (after key sort (Some (key x))) l = drop (Z.to_nat limit) rest).
  { rewrite <-(filter_after_after key sort cursor x l Hax). fold rest. rewrite Hrest at 1. apply filter_after.
    rewrite <-Hrest. by apply StronglySorted_list_filter. }
  cbn. rewrite (IH _ (Some (key x)) (Hn x Hin)), Hnext.
  - f_equal. f_equal. rewrite <-app_assoc. exact (eq_sym Hrest).
  - rewrite Hnext, length_drop. assert (length rest ≠ 0%nat) by lia. lia.
Qed.
End Walk.

(** ** The pages of each listing *)
Lemma page_limit_pos limit : 1 <= page_limit limit.
Proof. unfold page_limit. lia. Qed.

Lemma select_page_after `{UuidTextLaws} {A} (key : A → PageKey) sort rows cursor limit :
  NoDup (key <$> rows) →
  select_page key sort rows cursor limit =
  take (Z.to_nat (limit + 1)) (List.filter (after key sort cursor) (ordered key sort rows)).
Proof. intros Hnd. unfold select_page. by rewrite ordered_filter. Qed.

Lemma NoDup_fst_filter {A} (p : Uuid * A → bool) (l : list (Uuid * A)) : NoDup l.*1 → NoDup (List.filter p l).*1.
Proof.
  induction l as [|kv l IH]; [done|]. cbn. intros [Hx Hnd]%NoDup_cons. specialize (IH Hnd). destruct (p kv); [|done].
  cbn. constructor; [|done]. intros (kv' & E & Hin)%list_elem_of_fmap. apply Hx. rewrite E.
  apply list_elem_of_fmap_2. apply list_elem_of_In, filter_In in Hin as [Hin _]. by apply list_elem_of_In.
Qed.

Lemma NoDup_keys {A B} (key : B → PageKey) (f : Uuid * A → B) (l : list (Uuid * A)) :
  NoDup l.*1 → (∀ kv, (key (f kv)).2 = kv.1) → NoDup (key <$> (f <$> l)).
Proof.
  intros Hnd Hid. apply (NoDup_fmap_1 snd). rewrite <-!list_fmap_compose.
  by erewrite list_fmap_ext by (intros ? kv _; cbn; apply Hid).
Qed.

Lemma NoDup_keys_omap {A B} (key : B → PageKey) (f : Uuid * A → option B) (l : list (Uuid * A)) :
  NoDup l.*1 → (∀ kv y, f kv = Some y → (key y).2 = kv.1) → NoDup (key <$> omap f l).
Proof.
  intros Hnd Hid. apply (NoDup_fmap_1 snd). rewrite <-list_fmap_compose.
  induction l as [|kv l IH]; [constructor|]. cbn in Hnd |- *. apply NoDup_cons in Hnd as [Hx Hnd]. specialize (IH Hnd).
  destruct (f kv) as [y|] eqn:E; [|done]. cbn. constructor; [|done]. intros (z & Hz & Hin)%list_elem_of_fmap.
  apply list_elem_of_omap in Hin as (kv' & Hin & E'). apply Hx. cbn in Hz. rewrite (Hid _ _ E) in Hz.
  rewrite (Hid _ _ E') in Hz. rewrite Hz. by apply list_elem_of_fmap_2.
Qed.

(** The pages an operation returns on a database. *)
Definition pages_of {A} (op : option string → DbM (Page A)) (db : Db) (cursor : option string) : result StorageError.t (Page A) :=
  (op cursor db).1.

Section KeysetWalks.
Context `{UuidTextLaws} `{SqlBackend} `{TextCase} `{UrlDecodeLaws} `{SerdeLaws KeysetCursor}.

Lemma decode_encode_cursor key : decode_cursor (Some (encode_cursor key)) = Ok (Some (mkKeysetCursor key.1 key.2)).
Proof. unfold decode_cursor, encode_cursor. rewrite url_read_back. cbn. by rewrite json_read_back. Qed.

(** The three listings have the same shape. *)
Lemma keyset_walk {A} (key : A → PageKey) (rows : Db → list A) (op : option string → DbM (Page A)) limit db :
  (∀ cursor, op cursor =
     (c ← lift (decode_cursor cursor);
      items ← reads (λ db, select_page key Oldest (rows db) (cursor_key <$> c) (page_limit limit));
      mret (keyset_page key items (page_limit limit)))) →
  NoDup (key <$> rows db) →
  walk (pages_of op db) (S (length (rows db))) None = Some (Ok (ordered key Oldest (rows db))).
Proof.
  intros Hop Hnd. replace (length (rows db)) with (length (ordered key Oldest (rows db)))
    by (unfold ordered; by rewrite merge_sort_Permutation).
  apply (walk_pages key Oldest encode_cursor _ _ (page_limit limit)); [apply page_limit_pos|by apply ordered_in_order|..].
  - unfold pages_of. rewrite Hop, bind_run. cbn. rewrite bind_run. cbn. by rewrite select_page_after.
  - intros x _. unfold pages_of. rewrite Hop, bind_run, decode_encode_cursor. cbn. rewrite bind_run. cbn.
    rewrite select_page_after by done. unfold cursor_key. cbn. by destruct (key x).
Qed.

Lemma users_NoDup inst search org db : NoDup (user_key <$> matching_users inst search org db).
Proof.
  apply NoDup_keys; [|done]. apply NoDup_fst_filter, NoDup_fst_filter, NoDup_fst_map_to_list.
Qed.
Lemma organizations_NoDup inst user admin search db : NoDup (organization_key <$> matching_organizations inst user admin search db).
Proof.
  apply NoDup_keys; [|done]. apply NoDup_fst_filter, NoDup_fst_filter, NoDup_fst_map_to_list.
Qed.
Lemma members_NoDup inst org search db : NoDup (member_key <$> matching_members inst org search db).
Proof.
  apply NoDup_keys_omap; [apply NoDup_fst_filter, NoDup_fst_filter, NoDup_fst_map_to_list|].
  unfold member_item. intros kv y (m & _ & ->)%fmap_Some. done.
Qed.
End KeysetWalks.

Section OtherWalks.
Context `{UuidTextLaws} `{SqlBackend} `{TextCase} `{SnapshotText} `{UrlDecodeLaws} `{SerdeLaws ApiKeyCursor} `{SerdeLaws WorkspaceCursor}.

Lemma keys_NoDup inst user status db : NoDup (api_key_key <$> matching_keys inst user status db).
Proof. apply NoDup_keys; [|done]. apply NoDup_fst_filter, NoDup_fst_map_to_list. Qed.

Lemma decode_encode_key_cursor user status key :
  decode_key_cursor (Some (encode_key_cursor user status key)) user status = Ok (Some (mkApiKeyCursor key.1 key.2 user status)).
Proof.
  unfold decode_key_cursor, encode_key_cursor. rewrite url_read_back. cbn. rewrite json_read_back. cbn.
  by rewrite !bool_decide_eq_true_2.
Qed.

Lemma keys_walk inst user status limit db :
  walk (pages_of (list_api_keys_page inst user status limit) db) (S (length (matching_keys inst user status db))) None =
  Some (Ok (ordered api_key_key Oldest (matching_keys inst user status db))).
Proof.
  pose proof (keys_NoDup inst user status db) as Hnd.
  replace (length (matching_keys inst user status db)) with (length (ordered api_key_key Oldest (matching_keys inst user status db)))
    by (unfold ordered; by rewrite merge_sort_Permutation).
  apply (walk_pages api_key_key Oldest (encode_key_cursor user status) _ _ (page_limit limit));
    [apply page_limit_pos|by apply ordered_in_order|..].
  - unfold pages_of, list_api_keys_page. rewrite bind_run. cbn. rewrite bind_run. cbn. by rewrite select_page_after.
  - intros x _. unfold pages_of, list_api_keys_page. rewrite bind_run, decode_encode_key_cursor. cbn. rewrite bind_run. cbn.
    rewrite select_page_after by done. reflexivity.
Qed.
(** Workspaces are decoded before the page is cut. *)
Lemma decoded_key kv w : decode_workspace kv.1 kv.2 = Ok w → workspace_key w = row_page_key kv.
Proof. unfold decode_workspace. intros Hd. inv_binds. injection Hd as <-. done. Qed.

Lemma Forall2_list_filter {A B} (R : A → B → Prop) (p : A → bool) (q : B → bool) l k :
  (∀ x y, R x y → p x = q y) → Forall2 R l k → Forall2 R (List.filter p l) (List.filter q k).
Proof. intros Hpq. induction 1 as [|x y l k Hxy Hlk IH]; cbn; [done|]. rewrite (Hpq x y Hxy). destruct (q y); by try constructor. Qed.

Lemma decoded_in_order sort rows ws : decode_all rows = Ok ws → in_order row_page_key sort rows → in_order workspace_key sort ws.
Proof.
  unfold decode_all. rewrite collect_Ok. intros Hrw Hs. unfold in_order in *. induction Hrw as [|kv w rows ws Hw Hrw IH]; [constructor|].
  apply StronglySorted_inv in Hs as [Hs Hx]. constructor; [by apply IH|]. rewrite (decoded_key _ _ Hw). clear -Hx Hrw.
  induction Hrw as [|kv' w' rows ws Hw' Hrw IH]; constructor.
  - rewrite (decoded_key _ _ Hw'). by inversion Hx.
  - apply IH. by inversion Hx.
Qed.

Lemma decoded_page sort cursor n rows ws :
  decode_all rows = Ok ws →
  decode_all (take n (List.filter (after row_page_key sort cursor) rows)) =
    Ok (take n (List.filter (after workspace_key sort cursor) ws)).
Proof.
  unfold decode_all. rewrite !collect_Ok. intros Hrw. apply Forall2_take. eapply Forall2_list_filter; [|exact Hrw].
  intros kv w Hw. unfold after. by rewrite (decoded_key _ _ Hw).
Qed.

Lemma decode_encode_workspace_cursor sort key :
  decode_workspace_cursor (Some (encode_workspace_cursor sort key)) sort = Ok (Some (mkWorkspaceCursor key.1 key.2 sort)).
Proof.
  unfold decode_workspace_cursor, encode_workspace_cursor. rewrite url_read_back. cbn. rewrite json_read_back. cbn.
  by rewrite bool_decide_eq_true_2.
Qed.

Lemma workspaces_NoDup inst org search db : NoDup (row_page_key <$> matching_workspaces inst org search db).
Proof.
  rewrite <-(list_fmap_id (matching_workspaces inst org search db)). apply NoDup_keys; [|done].
  apply NoDup_fst_filter, NoDup_fst_map_to_list.
Qed.

Definition workspace_pages (inst : string) (org : Uuid) (limit : option Z) (search : option string) (sort : WorkspaceSort)
    (cursor : option string) : DbM (Page Workspace) :=
  page ← list_workspaces_page inst org limit cursor search sort; mret (wp_page page).

Lemma workspaces_walk inst org limit search sort db ws summary :
  decode_all (ordered row_page_key sort (matching_workspaces inst org (search_text search) db)) = Ok ws →
  workspace_page_summary inst org (search_text search) db = (Ok summary, db) →
  walk (pages_of (workspace_pages inst org limit search sort) db)
    (S (length (matching_workspaces inst org (search_text search) db))) None = Some (Ok ws).
Proof.
  intros Hws Hsum. pose proof (workspaces_NoDup inst org (search_text search) db) as Hnd.
  replace (length (matching_workspaces inst org (search_text search) db)) with (length ws).
  2:{ apply collect_Ok, Forall2_length in Hws. rewrite <-Hws. unfold ordered. by rewrite merge_sort_Permutation. }
  apply (walk_pages workspace_key sort (encode_workspace_cursor sort) _ _ (page_limit limit)); [apply page_limit_pos|..].
  - eapply decoded_in_order; [exact Hws|]. by apply ordered_in_order.
  - unfold pages_of, workspace_pages, list_workspaces_page. rewrite !bind_run. cbn. rewrite bind_run, Hsum. cbn.
    rewrite !bind_run. cbn. rewrite select_page_after by done. rewrite bind_run. unfold lift. erewrite decoded_page by exact Hws.
    unfold page_after. cbn. by destruct (split_page _ _).
  - intros w _. unfold pages_of, workspace_pages, list_workspaces_page.
    rewrite !bind_run, decode_encode_workspace_cursor. cbn. rewrite bind_run, Hsum. cbn.
    rewrite !bind_run. cbn. rewrite select_page_after by done. rewrite bind_run. unfold lift. erewrite decoded_page by exact Hws.
    unfold page_after. cbn. by destruct (split_page _ _).
Qed.
End OtherWalks.

Section Claims.
Context `{UuidTextLaws} `{SqlBackend} `{TextCase} `{SnapshotText} `{UrlDecodeLaws}.
Context `{SerdeLaws KeysetCursor} `{SerdeLaws ApiKeyCursor} `{SerdeLaws WorkspaceCursor}.

(** C38: following the cursors of a listing ends, after at most one request more
    than there are rows, and visits every matching row exactly once and in order,
    whatever the limit: for users, organizations, members, API keys and
    workspaces in either order. *)
Theorem pages_visit_every_row inst limit search db :
  (∀ org, walk (pages_of (λ c, list_users_page inst limit c search org) db) (S (length (matching_users inst search org db))) None
     = Some (Ok (ordered user_key Oldest (matching_users inst search org db)))) ∧
  (∀ user admin,
     walk (pages_of (λ c, list_organizations_page_for inst user admin limit c search) db)
       (S (length (matching_organizations inst user admin search db))) None
     = Some (Ok (ordered organization_key Oldest (matching_organizations inst user admin search db)))) ∧
  (∀ org, walk (pages_of (λ c, list_members_page inst org limit c search) db) (S (length (matching_members inst org search db))) None
     = Some (Ok (ordered member_key Oldest (matching_members inst org search db)))) ∧
  (∀ user status,
     walk (pages_of (list_api_keys_page inst user status limit) db) (S (length (matching_keys inst user status db))) None
     = Some (Ok (ordered api_key_key Oldest (matching_keys inst user status db)))) ∧
  (∀ org sort ws summary,
     decode_all (ordered row_page_key sort (matching_workspaces inst org (search_text search) db)) = Ok ws →
     workspace_page_summary inst org (search_text search) db = (Ok summary, db) →
     walk (pages_of (workspace_pages inst org limit search sort) db)
       (S (length (matching_workspaces inst org (search_text search) db))) None = Some (Ok ws)).
Proof.
  split_and!.
  - intros org. apply (keyset_walk user_key (matching_users inst search org) _ limit); [done|apply users_NoDup].
  - intros user admin.
    apply (keyset_walk organization_key (matching_organizations inst user admin search) _ limit); [done|apply organizations_NoDup].
  - intros org. apply (keyset_walk member_key (matching_members inst org search) _ limit); [done|apply members_NoDup].
  - intros user status. apply keys_walk.
  - intros org sort ws summary. apply workspaces_walk.
Qed.

(** A cursor is good only for the listing it was handed out by: a cursor of the
    keys of one user and status is refused for every other user or status, and
    one of a workspace listing for the other order, without reading anything. *)
Theorem foreign_cursor_refused inst limit key db :
  (∀ user status user' status', (user, status) ≠ (user', status') →
     list_api_keys_page inst user' status' limit (Some (encode_key_cursor user status key)) db
     = (Err StorageError.InvalidApiKeyQuery, db)) ∧
  (∀ org search sort sort', sort ≠ sort' →
     list_workspaces_page inst org limit (Some (encode_workspace_cursor sort key)) search sort' db
     = (Err StorageError.InvalidWorkspace, db)).
Proof.
  split.
  - intros user status user' status' Hne. unfold list_api_keys_page. rewrite bind_run.
    unfold decode_key_cursor, encode_key_cursor. rewrite url_read_back. cbn. rewrite json_read_back. cbn.
    destruct (decide (user = user')) as [->|Hu]; [|by rewrite (bool_decide_eq_false_2 _ Hu)].
    rewrite bool_decide_eq_true_2 by done. rewrite bool_decide_eq_false_2 by congruence. done.
  - intros org search sort sort' Hne. unfold list_workspaces_page. rewrite bind_run.
    unfold decode_workspace_cursor, encode_workspace_cursor. rewrite url_read_back. cbn. rewrite json_read_back. cbn.
    by rewrite bool_decide_eq_false_2.
Qed.
End Claims.

(** ** Three users, two to a page *)
Module ListingSample.
(** The bits of a number as a text, and back. *)
Fixpoint put_bits (p : positive) : Octets :=
  match p with
  | xH => []
  | xO p => Ascii.ascii_of_nat 0 :: put_bits p
  | xI p => Ascii.ascii_of_nat 1 :: put_bits p
  end.
Fixpoint get_bits (bs : Octets) : positive :=
  match bs with
  | [] => xH
  | b :: bs => if decide (b = Ascii.ascii_of_nat 0) then xO (get_bits bs) else xI (get_bits bs)
  end.
Lemma get_put p : get_bits (put_bits p) = p.
Proof. induction p as [p IH|p IH|]; cbn; by rewrite ?IH. Qed.

#[export] Instance serde `{Countable A} : SerdeJson A := {|
  json_to_vec a := put_bits (encode a);
  json_from_slice bs := decode (get_bits bs);
|}.
Lemma serde_laws `{Countable A} : SerdeLaws A.
Proof. intros a. cbn. by rewrite get_put, decode_encode. Qed.

#[export] Instance keyset_eq_dec : EqDecision KeysetCursor. Proof. solve_decision. Defined.
#[export] Instance keyset_countable : Countable KeysetCursor.
Proof. by refine (inj_countable' (λ c, (kc_created_at c, kc_id c)) (λ p, mkKeysetCursor p.1 p.2) _); intros []. Defined.
#[export] Instance api_key_cursor_eq_dec : EqDecision ApiKeyCursor. Proof. solve_decision. Defined.
Definition status_number (s : ApiKeyListStatus) : N := match s with ListActive => 0 | ListRevoked => 1 | ListAll => 2 end.
Definition number_status (n : N) : ApiKeyListStatus := match n with 0%N => ListActive | 1%N => ListRevoked | _ => ListAll end.
#[export] Instance api_key_cursor_countable : Countable ApiKeyCursor.
Proof.
  refine (inj_countable' (λ c, (ac_created_at c, ac_id c, ac_target_user_id c, status_number (ac_status c)))
    (λ p, mkApiKeyCursor p.1.1.1 p.1.1.2 p.1.2 (number_status p.2)) _). by intros [? ? ? []].
Defined.
#[export] Instance workspace_cursor_eq_dec : EqDecision WorkspaceCursor. Proof. solve_decision. Defined.
#[export] Instance workspace_cursor_countable : Countable WorkspaceCursor.
Proof.
  refine (inj_countable' (λ c, (wc_created_at c, wc_id c, bool_decide (wc_sort c = Newest)))
    (λ p, mkWorkspaceCursor p.1.1 p.1.2 (if p.2 : bool then Newest else Oldest)) _). by intros [? ? []].
Defined.

#[export] Instance url_decode : UrlDecode := λ text, Some (String.list_ascii_of_string text).
Lemma url_decode_laws : @UrlDecodeLaws KeySample.url url_decode.
Proof. intros bs. unfold Listing.url_decode, url_decode, url_encode, KeySample.url. by rewrite String.list_ascii_of_string_of_list_ascii. Qed.

Definition user (name : string) (created_at : Z) : UserRow := mkUserRow "inst" name name false false created_at None.
Definition db : Db := set_t_users {[ 1%N := user "Ada" 20; 2%N := user "Bob" 10; 3%N := user "Cyd" 20 ]} empty_db.
#[export] Existing Instances decimal_uuid_text decimal_uuid_text_laws UsageSample.text_case serde_laws url_decode_laws.
#[export] Instance sqlite : SqlBackend := Sqlite.
#[export] Instance no_text : SnapshotText := λ _, "".
End ListingSample.
Import (hints) KeySample ListingSample.

Lemma pages_visit_every_row_witness :
  walk (pages_of (λ c, list_users_page "inst" (Some 2) c None None) ListingSample.db) 4 None
    = Some (Ok (ordered user_key Oldest (matching_users "inst" None None ListingSample.db))) ∧
  (us_id <$> ordered user_key Oldest (matching_users "inst" None None ListingSample.db)) = [2%N; 1%N; 3%N].
Proof.
  split; [exact (proj1 (pages_visit_every_row "inst" (Some 2) None ListingSample.db) None)|]. vm_compute. reflexivity.
Defined.

Lemma foreign_cursor_refused_witness :
  list_api_keys_page "inst" 5 ListAll None (Some (encode_key_cursor 4 ListAll (10, 7%N))) ListingSample.db
    = (Err StorageError.InvalidApiKeyQuery, ListingSample.db).
Proof. exact (proj1 (foreign_cursor_refused "inst" None (10, 7%N) ListingSample.db) 4%N ListAll 5%N ListAll ltac:(done)). Defined.
