(* ===== verification/Tickets.v ===== *)
(** * Port mappings, their tickets and sessions, and web shell tickets
    ([src/storage/port_mappings.rs], [src/storage/web_shell.rs])

    A mapping publishes a port of a workspace. A user gets in with a ticket: 32
    random bytes that are valid for a minute, stored as their digest and good for
    one exchange against a session. The web shell has tickets of the same kind. *)
From stdpp Require Import sorting.
From S2P Require Import Prelude Text Json Quota Auth Templates Workspaces Errors ShrinkOperation Database Crypto Catalog InjectionStore Identity ApiKeys.

(** ** Port mappings *)
Definition validate_http_port (port : Z) : result StorageError.t () :=
  let allowed := (port =? 80) || (port =? 443) || in_range 1024 65535 port in
  ensure (negb (negb allowed || is_platform_reserved_port port)) StorageError.InvalidPortMappingPort.

Definition validate_display_name (value : option string) : result StorageError.t (option string) :=
  match trim ∘ chars <$> value with
  | None | Some [] => Ok None
  | Some cs =>
      let value := string_of_chars cs in
      if (80 <? len value) || existsb is_control cs then Err StorageError.InvalidPortMappingDisplayName else Ok (Some value)
  end.

Record PortMapping := mkPortMapping {
  mp_id : Uuid;
  mp_organization_id : Uuid;
  mp_workspace_id : Uuid;
  mp_internal_port : Z;
  mp_display_name : option string;
  mp_created_by : Uuid;
  mp_created_at : Z;
}.

Definition decode_mapping (id : Uuid) (r : PortMappingRow) : result StorageError.t PortMapping :=
  _ ← ensure (in_u16 (pm_internal_port r)) StorageError.InvalidPortMappingPort;
  Ok (mkPortMapping id (pm_organization_id r) (pm_workspace_id r) (pm_internal_port r) (pm_display_name r)
        (pm_created_by r) (pm_created_at r)).

Definition at_port (inst : string) (workspace_id : Uuid) (port : Z) (r : PortMappingRow) : bool :=
  String.eqb (pm_installation_id r) inst && bool_decide (pm_workspace_id r = workspace_id) && (pm_internal_port r =? port).

Definition mapping_at (inst : string) (workspace_id : Uuid) (port : Z) (db : Db) : option (Uuid * PortMappingRow) :=
  List.find (λ kv, at_port inst workspace_id port kv.2) (map_to_list (t_port_mappings db)).

Definition port_mapping_by_workspace_port (inst : string) (workspace_id : Uuid) (port : Z) : DbM PortMapping :=
  row ← reads (mapping_at inst workspace_id port);
  row ← lift (ok_or row StorageError.PortMappingNotFound);
  lift (decode_mapping row.1 row.2).

Definition port_le (a b : Uuid * PortMappingRow) : Prop := pm_internal_port a.2 <= pm_internal_port b.2.
#[global] Instance port_le_dec a b : Decision (port_le a b).
Proof. unfold port_le. apply _. Defined.

Definition list_port_mappings (inst : string) (workspace_id : Uuid) : DbM (list PortMapping) :=
  rows ← reads (λ db, merge_sort port_le
                        (List.filter (λ kv : Uuid * PortMappingRow,
                                        String.eqb (pm_installation_id kv.2) inst && bool_decide (pm_workspace_id kv.2 = workspace_id))
                           (map_to_list (t_port_mappings db))));
  lift (collect (λ kv : Uuid * PortMappingRow, decode_mapping kv.1 kv.2) rows).

(** [INSERT ... ON CONFLICT (installation_id, workspace_id, internal_port) DO
    NOTHING], with the foreign keys on the workspace and the user. *)
Definition insert_mapping (inst : string) (id : Uuid) (row : PortMappingRow) : DbM () :=
  taken ← reads (mapping_at inst (pm_workspace_id row) (pm_internal_port row));
  match taken with
  | Some _ => mret ()
  | None =>
      known ← reads (λ db, is_some (t_workspaces db !! pm_workspace_id row) && is_some (t_users db !! pm_created_by row));
      _ ← lift (ensure known StorageError.Database);
      insert_row t_port_mappings set_t_port_mappings id row
  end.

Definition create_port_mapping (inst : string) (organization_id workspace_id : Uuid) (port : Z) (display_name : option string)
    (created_by : Uuid) (now : Z) : DbM PortMapping :=
  _ ← lift (validate_http_port port);
  display_name ← lift (validate_display_name display_name);
  id ← now_v7;
  _ ← insert_mapping inst id (mkPortMappingRow inst organization_id workspace_id port display_name created_by now);
  port_mapping_by_workspace_port inst workspace_id port.

Definition ensure_desktop_port_mapping (inst : string) (w : Workspace) (now : Z) : DbM (option PortMapping) :=
  match desktop (ws_template w) with
  | None => mret None
  | Some d =>
      m ← create_port_mapping inst (ws_organization_id w) (ws_id w) (internal_port d) (display_name d) (ws_owner_id w) now;
      mret (Some m)
  end.

Definition select_mapping (inst : string) (id : Uuid) (db : Db) : option PortMappingRow :=
  match t_port_mappings db !! id with
  | Some r => if String.eqb (pm_installation_id r) inst then Some r else None
  | None => None
  end.

Definition get_port_mapping (inst : string) (id : Uuid) : DbM PortMapping :=
  row ← reads (select_mapping inst id);
  row ← lift (ok_or row StorageError.PortMappingNotFound);
  lift (decode_mapping id row).

(** The tickets and sessions of the mapping go with it. *)
Definition delete_port_mapping (inst : string) (workspace_id mapping_id : Uuid) : DbM bool := λ db,
  let doomed id r := bool_decide (id = mapping_id) && String.eqb (pm_installation_id r) inst
                     && bool_decide (pm_workspace_id r = workspace_id) in
  (Ok (is_some_and (t_port_mappings db !! mapping_id) (doomed mapping_id)), delete_port_mappings doomed db).

(** ** Tickets and sessions of a mapping *)
Record IssuedPortMappingTicket := mkIssuedPortTicket {
  ip_ticket : string;
  ip_expires_at : Z;
}.

Record IssuedWebShellTicket := mkIssuedShellTicket {
  iw_ticket : string;
  iw_workspace_id : Uuid;
  iw_expires_at : Z;
}.

Section Tickets.
Context `{UuidText} `{TokenHash} `{UrlBase64} `{RandomSource}.

(** [getrandom::fill] and [URL_SAFE_NO_PAD.encode]. *)
Definition random_ticket (point : nat) : result StorageError.t string :=
  bs ← ok_or (getrandom point 0) StorageError.RandomSource; Ok (url_encode bs).

Definition prune_expired_port_mapping_auth (inst : string) (now : Z) : DbM () := modify (λ db,
  set_t_port_sessions (filter (λ kv, (String.eqb (ps_installation_id kv.2) inst && (ps_expires_at kv.2 <? now)) = false) (t_port_sessions db))
    (set_t_port_tickets (filter (λ kv, (String.eqb (pt_installation_id kv.2) inst && (pt_expires_at kv.2 <? now)) = false) (t_port_tickets db)) db)).

(** [UNIQUE (installation_id, ticket_hash)] and the foreign keys. *)
Definition port_ticket_insertable (row : PortTicketRow) (db : Db) : bool :=
  forallb (λ kv : Uuid * PortTicketRow,
             negb (String.eqb (pt_installation_id kv.2) (pt_installation_id row) && String.eqb (pt_ticket_hash kv.2) (pt_ticket_hash row)))
    (map_to_list (t_port_tickets db))
  && is_some (t_port_mappings db !! pt_mapping_id row) && is_some (t_users db !! pt_user_id row).

(** [issue_port_mapping_ticket] after the pruning. *)
Definition record_port_ticket (inst : string) (mapping_id user_id : Uuid) (now : Z) : DbM IssuedPortMappingTicket :=
  expires_at ← lift (ok_or (checked_add_i64 now 60) StorageError.InvalidTicketTtl);
  point ← reads uuid_drawn;
  ticket ← lift (random_ticket point);
  id ← now_v7;
  let row := mkPortTicketRow inst mapping_id user_id (hash_token ticket) expires_at None now in
  ok ← reads (port_ticket_insertable row);
  _ ← lift (ensure ok StorageError.Database);
  _ ← insert_row t_port_tickets set_t_port_tickets id row;
  mret (mkIssuedPortTicket ticket expires_at).

Definition issue_port_mapping_ticket (inst : string) (mapping_id user_id : Uuid) (now : Z) : DbM IssuedPortMappingTicket :=
  _ ← prune_expired_port_mapping_auth inst now;
  record_port_ticket inst mapping_id user_id now.

Definition port_ticket_open (inst : string) (mapping_id : Uuid) (hash : string) (now : Z) (r : PortTicketRow) : bool :=
  String.eqb (pt_installation_id r) inst && bool_decide (pt_mapping_id r = mapping_id) && String.eqb (pt_ticket_hash r) hash
  && negb (is_some (pt_consumed_at r)) && (now <=? pt_expires_at r).

Definition consume_port_row (now : Z) (r : PortTicketRow) : PortTicketRow :=
  mkPortTicketRow (pt_installation_id r) (pt_mapping_id r) (pt_user_id r) (pt_ticket_hash r) (pt_expires_at r) (Some now) (pt_created_at r).

(** [UPDATE ... SET consumed_at = now WHERE ... RETURNING user_id]. *)
Definition spend_port_ticket (inst : string) (mapping_id : Uuid) (hash : string) (now : Z) : DbM (option Uuid) := λ db,
  let open := port_ticket_open inst mapping_id hash now in
  (Ok ((λ kv : Uuid * PortTicketRow, pt_user_id kv.2) <$> List.find (λ kv, open kv.2) (map_to_list (t_port_tickets db))),
   set_t_port_tickets ((λ r, if open r then consume_port_row now r else r) <$> t_port_tickets db) db).

Definition session_insertable (row : PortSessionRow) (db : Db) : bool :=
  forallb (λ kv : Uuid * PortSessionRow,
             negb (String.eqb (ps_installation_id kv.2) (ps_installation_id row) && String.eqb (ps_session_hash kv.2) (ps_session_hash row)))
    (map_to_list (t_port_sessions db))
  && is_some (t_port_mappings db !! ps_mapping_id row) && is_some (t_users db !! ps_user_id row).

Definition insert_session (id : Uuid) (row : PortSessionRow) : DbM () :=
  ok ← reads (session_insertable row);
  _ ← lift (ensure ok StorageError.Database);
  insert_row t_port_sessions set_t_port_sessions id row.

Definition exchange_port_mapping_ticket (inst : string) (mapping_id : Uuid) (ticket session_hash : string) (now expires_at : Z)
    : DbM (option Uuid) :=
  if len ticket <? 32 then mret None
  else
    session_id ← now_v7;
    transaction (
      user ← spend_port_ticket inst mapping_id (hash_token ticket) now;
      match user with
      | None => mret None
      | Some user =>
          _ ← insert_session session_id (mkPortSessionRow inst mapping_id user session_hash expires_at None now);
          mret (Some session_id)
      end).

(** The joins of the query: the mapping and an enabled user that is a system
    administrator or a member of the mapping's organization. *)
Definition session_admits (inst : string) (mapping_id : Uuid) (session_hash : string) (now : Z) (db : Db) (s : PortSessionRow) : bool :=
  String.eqb (ps_installation_id s) inst && bool_decide (ps_mapping_id s = mapping_id) && String.eqb (ps_session_hash s) session_hash
  && negb (is_some (ps_revoked_at s)) && (now <=? ps_expires_at s)
  && is_some_and (select_mapping inst (ps_mapping_id s) db) (λ m,
       is_some_and (select_user inst (ps_user_id s) db) (λ u,
         negb (u_disabled u)
         && (u_system_admin u || is_some (t_memberships db !! (inst, pm_organization_id m, ps_user_id s))))).

Definition port_mapping_session_valid (inst : string) (mapping_id : Uuid) (session_hash : string) (now : Z) : DbM bool :=
  reads (λ db, existsb (λ kv : Uuid * PortSessionRow, session_admits inst mapping_id session_hash now db kv.2)
                 (map_to_list (t_port_sessions db))).

(** ** Web shell tickets *)
Record WebShellIdentity := mkShellIdentity {
  wi_organization_id : Uuid;
  wi_workspace_id : Uuid;
  wi_user_id : Uuid;
}.

Definition shell_ticket_free (row : TicketRow) (db : Db) : bool :=
  forallb (λ kv : Uuid * TicketRow,
             negb (String.eqb (tk_installation_id kv.2) (tk_installation_id row) && String.eqb (tk_ticket_hash kv.2) (tk_ticket_hash row)))
    (map_to_list (t_web_shell_tickets db)).

Definition issue_web_shell_ticket (inst : string) (organization_id workspace_id user_id : Uuid) (now ttl_seconds : Z)
    : DbM IssuedWebShellTicket :=
  _ ← lift (ensure (in_range 1 300 ttl_seconds) StorageError.InvalidTicketTtl);
  expires_at ← lift (ok_or (checked_add_i64 now ttl_seconds) StorageError.InvalidTicketTtl);
  point ← reads uuid_drawn;
  ticket ← lift (random_ticket point);
  id ← now_v7;
  let row := mkTicketRow inst (hash_token ticket) organization_id workspace_id user_id expires_at None now in
  ok ← reads (shell_ticket_free row);
  _ ← lift (ensure ok StorageError.Database);
  _ ← insert_row t_web_shell_tickets set_t_web_shell_tickets id row;
  mret (mkIssuedShellTicket ticket workspace_id expires_at).

Definition shell_ticket_open (inst : string) (hash : string) (workspace_id : Uuid) (now : Z) (r : TicketRow) : bool :=
  String.eqb (tk_installation_id r) inst && String.eqb (tk_ticket_hash r) hash && bool_decide (tk_workspace_id r = workspace_id)
  && negb (is_some (tk_consumed_at r)) && (now <=? tk_expires_at r).

Definition consume_shell_row (now : Z) (r : TicketRow) : TicketRow :=
  mkTicketRow (tk_installation_id r) (tk_ticket_hash r) (tk_organization_id r) (tk_workspace_id r) (tk_user_id r)
    (tk_expires_at r) (Some now) (tk_created_at r).

Definition consume_web_shell_ticket (inst : string) (ticket : string) (workspace_id : Uuid) (now : Z)
    : DbM (option WebShellIdentity) := λ db,
  if len ticket <? 32 then (Ok None, db)
  else
    let open := shell_ticket_open inst (hash_token ticket) workspace_id now in
    (Ok ((λ kv : Uuid * TicketRow, mkShellIdentity (tk_organization_id kv.2) (tk_workspace_id kv.2) (tk_user_id kv.2)) <$>
           List.find (λ kv, open kv.2) (map_to_list (t_web_shell_tickets db))),
     set_t_web_shell_tickets ((λ r, if open r then consume_shell_row now r else r) <$> t_web_shell_tickets db) db).
End Tickets.

(** ** Counting rows through statements *)
Section Counting.
Context {K V : Type} `{Countable K}.
Implicit Types (p q : K → V → bool) (m : gmap K V).

Lemma count_rows_filter (P : K * V → Prop) `{∀ x, Decision (P x)} p m : count_rows p (filter P m) <= count_rows p m.
Proof.
  unfold count_rows. apply inj_le, submseteq_length, NoDup_submseteq.
  - apply NoDup_ListNoDup, List.NoDup_filter, NoDup_ListNoDup, NoDup_map_to_list.
  - intros [k v]. rewrite !list_elem_of_In, !filter_In, <-!list_elem_of_In, !elem_of_map_to_list, map_lookup_filter_Some. naive_solver.
Qed.

Lemma count_rows_fmap (f : V → V) p m : count_rows p (f <$> m) = count_rows (λ k v, p k (f v)) m.
Proof.
  unfold count_rows. rewrite map_to_list_fmap. induction (map_to_list m) as [|[k v] l IH]; [done|].
  cbn. destruct (p k (f v)); cbn; lia.
Qed.

Lemma list_count_mono (p q : K → V → bool) l :
  (∀ k v, q k v = true → p k v = true) →
  (length (List.filter (λ kv, q kv.1 kv.2) l) <= length (List.filter (λ kv, p kv.1 kv.2) l))%nat.
Proof.
  intros Hqp. induction l as [|[k v] l IH]; [done|]. cbn. destruct (q k v) eqn:Eq; [rewrite (Hqp _ _ Eq)|destruct (p k v)]; cbn; lia.
Qed.

Lemma count_rows_mono p q m : (∀ k v, q k v = true → p k v = true) → count_rows q m <= count_rows p m.
Proof. intros Hqp. apply inj_le. by apply (list_count_mono p q). Qed.

Lemma count_rows_strict p q m k v :
  (∀ k v, q k v = true → p k v = true) → m !! k = Some v → p k v = true → q k v = false → count_rows q m + 1 <= count_rows p m.
Proof.
  intros Hqp Hk Hp Hq. unfold count_rows. apply elem_of_map_to_list, list_elem_of_split in Hk as (l1 & l2 & ->).
  rewrite !List.filter_app, !length_app. cbn. rewrite Hp, Hq. cbn.
  pose proof (list_count_mono p q l1 Hqp). pose proof (list_count_mono p q l2 Hqp). lia.
Qed.
End Counting.

Lemma find_map_to_list {K V} `{Countable K} (p : V → bool) (m : gmap K V) k v :
  List.find (λ kv, p kv.2) (map_to_list m) = Some (k, v) → m !! k = Some v ∧ p v = true.
Proof. intros [Hin Hp]%List.find_some. split; [|done]. by apply elem_of_map_to_list, list_elem_of_In. Qed.

(** ** Histories *)
Section History.
Context `{UuidText} `{TokenHash} `{UrlBase64} `{RandomSource} (inst : string).

Inductive TicketOp :=
  | CreateMapping (org ws : Uuid) (port : Z) (name : option string) (by_user : Uuid) (now : Z)
  | DeleteMapping (ws mapping : Uuid)
  | IssuePort (mapping user : Uuid) (now : Z)
  | Exchange (mapping : Uuid) (ticket session_hash : string) (now expires_at : Z)
  | IssueShell (org ws user : Uuid) (now ttl : Z)
  | ConsumeShell (ticket : string) (ws : Uuid) (now : Z).

Inductive TicketEvent :=
  | NoEvent
  | PortIssued (hash : string) | PortRedeemed (hash : string)
  | ShellIssued (hash : string) | ShellRedeemed (hash : string).
#[global] Instance ticket_event_eq_dec : EqDecision TicketEvent.
Proof. solve_decision. Defined.

Definition run_ticket_op (op : TicketOp) (db : Db) : TicketEvent * Db :=
  match op with
  | CreateMapping org ws port name by_user now => (NoEvent, (create_port_mapping inst org ws port name by_user now db).2)
  | DeleteMapping ws mapping => (NoEvent, (delete_port_mapping inst ws mapping db).2)
  | IssuePort mapping user now =>
      match issue_port_mapping_ticket inst mapping user now db with
      | (Ok t, db') => (PortIssued (hash_token (ip_ticket t)), db')
      | (Err _, db') => (NoEvent, db')
      end
  | Exchange mapping ticket session_hash now expires_at =>
      match exchange_port_mapping_ticket inst mapping ticket session_hash now expires_at db with
      | (Ok (Some _), db') => (PortRedeemed (hash_token ticket), db')
      | (_, db') => (NoEvent, db')
      end
  | IssueShell org ws user now ttl =>
      match issue_web_shell_ticket inst org ws user now ttl db with
      | (Ok t, db') => (ShellIssued (hash_token (iw_ticket t)), db')
      | (Err _, db') => (NoEvent, db')
      end
  | ConsumeShell ticket ws now =>
      match consume_web_shell_ticket inst ticket ws now db with
      | (Ok (Some _), db') => (ShellRedeemed (hash_token ticket), db')
      | (_, db') => (NoEvent, db')
      end
  end.

Fixpoint run_ticket_ops (ops : list TicketOp) (db : Db) : list TicketEvent * Db :=
  match ops with
  | [] => ([], db)
  | op :: ops => let '(e, db) := run_ticket_op op db in let '(es, db) := run_ticket_ops ops db in (e :: es, db)
  end.

(** How often an event happens. *)
Fixpoint occurrences (e : TicketEvent) (es : list TicketEvent) : Z :=
  match es with
  | [] => 0
  | e' :: es => (if decide (e' = e) then 1 else 0) + occurrences e es
  end.

(** Tickets that could still be redeemed. *)
Definition open_port (hash : string) (db : Db) : Z :=
  count_rows (λ _ r, String.eqb (pt_installation_id r) inst && String.eqb (pt_ticket_hash r) hash && negb (is_some (pt_consumed_at r)))
    (t_port_tickets db).
Definition open_shell (hash : string) (db : Db) : Z :=
  count_rows (λ _ r, String.eqb (tk_installation_id r) inst && String.eqb (tk_ticket_hash r) hash && negb (is_some (tk_consumed_at r)))
    (t_web_shell_tickets db).

(** One operation never adds more than it issues, and takes what it redeems. *)
Definition balanced (hash : string) (e : TicketEvent) (db db' : Db) : Prop :=
  occurrences (PortRedeemed hash) [e] + open_port hash db' <= occurrences (PortIssued hash) [e] + open_port hash db ∧
  occurrences (ShellRedeemed hash) [e] + open_shell hash db' <= occurrences (ShellIssued hash) [e] + open_shell hash db.

Lemma balanced_le hash db db' :
  open_port hash db' <= open_port hash db → open_shell hash db' <= open_shell hash db → balanced hash NoEvent db db'.
Proof. intros E1 E2. unfold balanced, occurrences. repeat case_decide; done || lia. Qed.

Lemma balanced_same hash db db' :
  t_port_tickets db' = t_port_tickets db → t_web_shell_tickets db' = t_web_shell_tickets db → balanced hash NoEvent db db'.
Proof. intros E1 E2. apply balanced_le; unfold open_port, open_shell; rewrite ?E1, ?E2; lia. Qed.

#[local] Instance insert_mapping_frames id row :
  Preserves (frames (λ db, (t_port_tickets db, t_web_shell_tickets db))) (insert_mapping inst id row).
Proof. unfold insert_mapping. apply preserves_bind; [apply _..|intros [?|]; apply _]. Qed.

Lemma create_port_mapping_frames org ws port name by_user now :
  Preserves (frames (λ db, (t_port_tickets db, t_web_shell_tickets db))) (create_port_mapping inst org ws port name by_user now).
Proof. unfold create_port_mapping, port_mapping_by_workspace_port. apply _. Qed.

Lemma balanced_delete hash ws mapping db : balanced hash NoEvent db (delete_port_mapping inst ws mapping db).2.
Proof. apply balanced_le; [apply count_rows_filter|done]. Qed.

Lemma balanced_prune hash now db :
  open_port hash (prune_expired_port_mapping_auth inst now db).2 <= open_port hash db ∧
  open_shell hash (prune_expired_port_mapping_auth inst now db).2 = open_shell hash db.
Proof. split; [apply count_rows_filter|done]. Qed.

(** Recording adds one row, with the hash of what is handed out, or none. *)
Lemma record_port_ticket_run mapping user now db r db' :
  record_port_ticket inst mapping user now db = (r, db') →
  t_web_shell_tickets db' = t_web_shell_tickets db ∧
  match r with
  | Ok t => ∃ id row, t_port_tickets db !! id = None ∧ t_port_tickets db' = <[id := row]> (t_port_tickets db) ∧
      row = mkPortTicketRow inst mapping user (hash_token (ip_ticket t)) (ip_expires_at t) None now ∧
      ip_expires_at t = now + 60 ∧ port_ticket_insertable row db = true ∧
      t_port_mappings db' = t_port_mappings db ∧ t_users db' = t_users db ∧ t_port_sessions db' = t_port_sessions db ∧
      t_memberships db' = t_memberships db ∧ random_ticket (uuid_drawn db) = Ok (ip_ticket t)
  | Err _ => t_port_tickets db' = t_port_tickets db
  end.
Proof.
  unfold record_port_ticket. rewrite bind_run. cbn. destruct (checked_add_i64 now 60) as [e|] eqn:He; [|by intros [= <- <-]].
  cbn. rewrite !bind_run. cbn. rewrite bind_run. cbn. destruct (random_ticket (uuid_drawn db)) as [ticket|] eqn:Ht; [|by intros [= <- <-]].
  rewrite bind_run. cbn. rewrite bind_run. cbn. rewrite bind_run. cbn.
  set (row := mkPortTicketRow _ _ _ _ _ _ _). destruct (port_ticket_insertable row _) eqn:Ei; cbn; [|by intros [= <- <-]].
  rewrite bind_run. unfold insert_row. cbn. destruct (t_port_tickets db !! _) eqn:Ef; cbn; intros [= <- <-]; [done|].
  split; [done|]. eexists _, row. cbn. apply checked_add_i64_Some in He as [-> _]. split_and!; done.
Qed.

Lemma issue_port_run mapping user now db :
  issue_port_mapping_ticket inst mapping user now db =
  record_port_ticket inst mapping user now (prune_expired_port_mapping_auth inst now db).2.
Proof. done. Qed.

Lemma balanced_issue_port hash mapping user now db :
  balanced hash (run_ticket_op (IssuePort mapping user now) db).1 db (run_ticket_op (IssuePort mapping user now) db).2.
Proof.
  cbn [run_ticket_op]. rewrite issue_port_run. destruct (balanced_prune hash now db) as [Hp Hs].
  set (db1 := (prune_expired_port_mapping_auth inst now db).2) in *.
  destruct (record_port_ticket inst mapping user now db1) as [r db'] eqn:E. apply record_port_ticket_run in E as [Esh E].
  destruct r as [t|e].
  - destruct E as (id & row & Hf & Erows & -> & _). cbn [fst snd]. unfold balanced. unfold open_shell in *. rewrite Esh. unfold open_port at 1. rewrite Erows.
    rewrite count_rows_insert by done. fold (open_port hash db1). cbn [pt_installation_id pt_ticket_hash pt_consumed_at is_some negb fst snd].
    rewrite String.eqb_refl. unfold occurrences. destruct (String.eqb_spec (hash_token (ip_ticket t)) hash); repeat case_decide; cbn in *; simplify_eq; try done; lia.
  - apply balanced_le; unfold open_port, open_shell in *; cbn in *; rewrite ?E, ?Esh; lia.
Qed.

(** An exchange that succeeds closes an open ticket with that hash. *)
Lemma spend_port_run mapping h now db u db' :
  spend_port_ticket inst mapping h now db = (Ok u, db') →
  t_web_shell_tickets db' = t_web_shell_tickets db ∧ (∀ hash, open_port hash db' <= open_port hash db) ∧
  (is_Some u → open_port h db' + 1 <= open_port h db) ∧ (u = None → t_port_tickets db' = t_port_tickets db).
Proof.
  intros [= <- <-]. split; [done|]. unfold open_port. cbn. split_and!.
  - intros hash. rewrite count_rows_fmap. apply count_rows_mono. intros _ r.
    destruct (port_ticket_open inst mapping h now r); cbn; [by rewrite andb_false_r|done].
  - intros [u Hu]. apply fmap_Some in Hu as ([id r] & Hf & _). apply find_map_to_list in Hf as [Hr Ho].
    rewrite count_rows_fmap. eapply count_rows_strict; [|exact Hr|..].
    + intros _ r'. destruct (port_ticket_open inst mapping h now r'); cbn; [by rewrite andb_false_r|done].
    + unfold port_ticket_open in Ho. cbn in Ho |- *.
      by destruct (String.eqb _ inst), (bool_decide _), (String.eqb _ h), (negb _).
    + rewrite Ho. cbn. by rewrite andb_false_r.
  - intros Hu. apply fmap_None in Hu. rewrite <-(map_fmap_id (t_port_tickets db)) at 2. apply map_fmap_ext.
    intros id r Hr. assert (Hin : In (id, r) (map_to_list (t_port_tickets db))) by (by apply list_elem_of_In, elem_of_map_to_list).
    pose proof (List.find_none _ _ Hu _ Hin) as Hno. cbn in Hno. by rewrite Hno.
Qed.

Lemma insert_session_frames id row :
  Preserves (frames (λ db, (t_port_tickets db, t_web_shell_tickets db))) (insert_session id row).
Proof. unfold insert_session. apply _. Qed.

Lemma balanced_exchange hash mapping ticket sh now exp db :
  balanced hash (run_ticket_op (Exchange mapping ticket sh now exp) db).1 db (run_ticket_op (Exchange mapping ticket sh now exp) db).2.
Proof.
  cbn [run_ticket_op]. unfold exchange_port_mapping_ticket. destruct (len ticket <? 32); [by apply balanced_same|].
  rewrite bind_run. cbn [now_v7]. unfold transaction. rewrite bind_run. set (db1 := set_uuid_drawn _ db).
  destruct (spend_port_ticket inst mapping (hash_token ticket) now db1) as [[u|e] db2] eqn:Es; [|done].
  apply spend_port_run in Es as (Esh & Hle & Hlt & Hno). destruct u as [u|]; [|by apply balanced_same; cbn; rewrite ?Hno, ?Esh].
  rewrite bind_run. destruct (insert_session _ _ db2) as [[[]|e] db3] eqn:Ei; [|by apply balanced_same].
  apply insert_session_frames in Ei. injection Ei as Ei1 Ei2. cbn [mret fst snd]. cbn.
  specialize (Hlt ltac:(done)). specialize (Hle hash).
  assert (Ho : open_port hash db3 = open_port hash db2) by (unfold open_port; by rewrite Ei1).
  assert (Hs : open_shell hash db3 = open_shell hash db) by (unfold open_shell; by rewrite Ei2, Esh).
  change (open_port hash db2 <= open_port hash db) in Hle.
  change (open_port (hash_token ticket) db2 + 1 <= open_port (hash_token ticket) db) in Hlt.
  unfold balanced. rewrite Ho, Hs. unfold occurrences. repeat case_decide; try done; simplify_eq; lia.
Qed.

Lemma issue_shell_run org ws user now ttl db r db' :
  issue_web_shell_ticket inst org ws user now ttl db = (r, db') →
  t_port_tickets db' = t_port_tickets db ∧
  match r with
  | Ok t => ∃ id, t_web_shell_tickets db !! id = None ∧
      t_web_shell_tickets db' =
        <[id := mkTicketRow inst (hash_token (iw_ticket t)) org ws user (iw_expires_at t) None now]> (t_web_shell_tickets db)
  | Err _ => t_web_shell_tickets db' = t_web_shell_tickets db
  end.
Proof.
  unfold issue_web_shell_ticket. rewrite bind_run. cbn. destruct (in_range 1 300 ttl); cbn; [|by intros [= <- <-]].
  rewrite bind_run. cbn. destruct (checked_add_i64 now ttl) as [e|]; cbn; [|by intros [= <- <-]].
  rewrite !bind_run. cbn. rewrite bind_run. cbn. destruct (random_ticket (uuid_drawn db)) as [ticket|]; [|by intros [= <- <-]].
  rewrite bind_run. cbn. rewrite bind_run. cbn. rewrite bind_run. cbn.
  destruct (shell_ticket_free _ _); cbn; [|by intros [= <- <-]].
  rewrite bind_run. unfold insert_row. cbn. destruct (t_web_shell_tickets db !! _) eqn:Ef; cbn; intros [= <- <-]; [done|].
  split; [done|]. eexists. split; [exact Ef|done].
Qed.

Lemma balanced_issue_shell hash org ws user now ttl db :
  balanced hash (run_ticket_op (IssueShell org ws user now ttl) db).1 db (run_ticket_op (IssueShell org ws user now ttl) db).2.
Proof.
  cbn [run_ticket_op]. destruct (issue_web_shell_ticket inst org ws user now ttl db) as [r db'] eqn:E.
  apply issue_shell_run in E as [Ept E]. destruct r as [t|e]; [|by apply balanced_same].
  destruct E as (id & Hf & Erows). cbn [fst snd].
  assert (Hp : open_port hash db' = open_port hash db) by (unfold open_port; by rewrite Ept).
  assert (Hs : open_shell hash db' = (if String.eqb (hash_token (iw_ticket t)) hash then 1 else 0) + open_shell hash db).
  { unfold open_shell. rewrite Erows, count_rows_insert by done. cbn. by rewrite String.eqb_refl, andb_true_r. }
  unfold balanced. rewrite Hp, Hs. unfold occurrences.
  destruct (String.eqb_spec (hash_token (iw_ticket t)) hash); repeat case_decide; simplify_eq; try done; lia.
Qed.

Lemma balanced_consume hash ticket ws now db :
  balanced hash (run_ticket_op (ConsumeShell ticket ws now) db).1 db (run_ticket_op (ConsumeShell ticket ws now) db).2.
Proof.
  cbn [run_ticket_op]. unfold consume_web_shell_ticket. destruct (len ticket <? 32); [by apply balanced_same|]. cbn zeta.
  set (open := shell_ticket_open inst (hash_token ticket) ws now).
  set (db' := set_t_web_shell_tickets _ db).
  assert (Hmono : ∀ hash (k : Uuid) r,
    (String.eqb (tk_installation_id (if open r then consume_shell_row now r else r)) inst
     && String.eqb (tk_ticket_hash (if open r then consume_shell_row now r else r)) hash
     && negb (is_some (tk_consumed_at (if open r then consume_shell_row now r else r)))) = true →
    (String.eqb (tk_installation_id r) inst && String.eqb (tk_ticket_hash r) hash && negb (is_some (tk_consumed_at r))) = true).
  { intros h _ r. destruct (open r); cbn; [by rewrite andb_false_r|done]. }
  assert (Hle : open_shell hash db' <= open_shell hash db).
  { unfold open_shell. cbn. rewrite count_rows_fmap. apply count_rows_mono, Hmono. }
  assert (Hp : open_port hash db' = open_port hash db) by done.
  destruct (List.find _ (map_to_list (t_web_shell_tickets db))) as [[id r]|] eqn:Hf; cbn [fmap option_fmap option_map fst snd].
  - apply find_map_to_list in Hf as [Hr Ho].
    assert (Hlt : open_shell (hash_token ticket) db' + 1 <= open_shell (hash_token ticket) db).
    { unfold open_shell. cbn. rewrite count_rows_fmap. eapply count_rows_strict; [apply Hmono|exact Hr|..].
      - unfold open, shell_ticket_open in Ho. by destruct (String.eqb _ inst), (String.eqb _ (hash_token ticket)), (bool_decide _), (negb _).
      - rewrite Ho. cbn. by rewrite andb_false_r. }
    unfold balanced. rewrite Hp. unfold occurrences. repeat case_decide; simplify_eq; try done; lia.
  - unfold balanced. rewrite Hp. unfold occurrences. repeat case_decide; simplify_eq; try done; lia.
Qed.

Lemma ticket_op_balanced hash op db : balanced hash (run_ticket_op op db).1 db (run_ticket_op op db).2.
Proof.
  destruct op.
  - cbn. destruct (create_port_mapping _ _ _ _ _ _ _ db) as [r db'] eqn:E. apply create_port_mapping_frames in E.
    injection E as E1 E2. by apply balanced_same.
  - apply balanced_delete.
  - apply balanced_issue_port.
  - apply balanced_exchange.
  - apply balanced_issue_shell.
  - apply balanced_consume.
Qed.

(** C30: a ticket is good for one use: in any sequence of operations that starts
    with no open ticket of a hash, there are at most as many exchanges for a
    session (for the web shell: logins) with that ticket as times it was issued,
    whatever else happens in between. *)
Theorem tickets_redeemed_once hash ops db :
  open_port hash db = 0 → open_shell hash db = 0 →
  occurrences (PortRedeemed hash) (run_ticket_ops ops db).1 <= occurrences (PortIssued hash) (run_ticket_ops ops db).1 ∧
  occurrences (ShellRedeemed hash) (run_ticket_ops ops db).1 <= occurrences (ShellIssued hash) (run_ticket_ops ops db).1.
Proof.
  intros Hp Hs.
  enough (Hgen : ∀ ops db,
    occurrences (PortRedeemed hash) (run_ticket_ops ops db).1 <= occurrences (PortIssued hash) (run_ticket_ops ops db).1 + open_port hash db ∧
    occurrences (ShellRedeemed hash) (run_ticket_ops ops db).1 <= occurrences (ShellIssued hash) (run_ticket_ops ops db).1 + open_shell hash db)
    by (specialize (Hgen ops db); lia).
  clear. induction ops as [|op ops IH]; intros db; cbn [run_ticket_ops].
  - cbn. unfold open_port, open_shell, count_rows. lia.
  - pose proof (ticket_op_balanced hash op db) as [Hb1 Hb2]. destruct (run_ticket_op op db) as [e db1]. cbn [fst snd] in *.
    specialize (IH db1). destruct (run_ticket_ops ops db1) as [es db2]. cbn [fst occurrences] in *. lia.
Qed.

(** ** What a ticket opens *)
Definition may_enter (mapping user : Uuid) (db : Db) : bool :=
  is_some_and (select_mapping inst mapping db) (λ m,
    is_some_and (select_user inst user db) (λ u,
      negb (u_disabled u) && (u_system_admin u || is_some (t_memberships db !! (inst, pm_organization_id m, user))))).

Definition session_hash_unused (sh : string) (db : Db) : Prop :=
  ∀ id s, t_port_sessions db !! id = Some s → ps_installation_id s = inst → ps_session_hash s ≠ sh.

(** After issuing, the rows open for the ticket are exactly the new one. *)
Lemma issued_open mapping user now db t db' m t' :
  issue_port_mapping_ticket inst mapping user now db = (Ok t, db') →
  (∀ id r, t_port_tickets db' !! id = Some r → port_ticket_open inst m (hash_token (ip_ticket t)) t' r = true →
     m = mapping ∧ pt_user_id r = user ∧ t' <= now + 60) ∧
  (m = mapping → t' <= now + 60 → ∃ id r, t_port_tickets db' !! id = Some r ∧ port_ticket_open inst m (hash_token (ip_ticket t)) t' r = true).
Proof.
  rewrite issue_port_run. intros [_ (id & row & Hf & Erows & Erow & Hexp & Hins & _)]%record_port_ticket_run. rewrite Erows. split.
  - intros id' r Hr Ho. apply lookup_insert_Some in Hr as [[<- <-]|[Hne Hr]].
    + rewrite Erow in Ho |- *. unfold port_ticket_open in Ho. cbn in *. rewrite Hexp in Ho. bool_prop. split_and!; [done|done|lia].
    + unfold port_ticket_insertable in Hins. apply andb_true_iff in Hins as [[Hins _]%andb_true_iff _]. rewrite forallb_forall in Hins.
      specialize (Hins (id', r) ltac:(by apply list_elem_of_In, elem_of_map_to_list)). cbn in Hins. rewrite Erow in Hins. cbn in Hins.
      unfold port_ticket_open in Ho. by destruct (String.eqb (pt_installation_id r) inst), (String.eqb (pt_ticket_hash r) (hash_token (ip_ticket t))), (bool_decide _).
  - intros -> Ht. exists id, row. split; [apply lookup_insert_eq|]. rewrite Erow. unfold port_ticket_open. cbn.
    rewrite !String.eqb_refl, bool_decide_eq_true_2 by done. cbn. apply Z.leb_le. lia.
Qed.

Lemma spend_issued mapping user now db t db' m t' db1 :
  issue_port_mapping_ticket inst mapping user now db = (Ok t, db') → t_port_tickets db1 = t_port_tickets db' →
  (spend_port_ticket inst m (hash_token (ip_ticket t)) t' db1).1 =
  Ok (if bool_decide (m = mapping ∧ t' <= now + 60) then Some user else None).
Proof.
  intros Hissue Erows. destruct (issued_open _ _ _ _ _ _ m t' Hissue) as [Hopen Hex]. unfold spend_port_ticket. rewrite Erows. cbn [fst]. f_equal.
  destruct (List.find _ _) as [[id r]|] eqn:Hf.
  - apply find_map_to_list in Hf as [Hr Ho]. destruct (Hopen _ _ Hr Ho) as (-> & <- & Ht).
    by rewrite bool_decide_eq_true_2.
  - rewrite bool_decide_eq_false_2; [done|]. intros [-> Ht]. destruct (Hex eq_refl Ht) as (id & r & Hr & Ho).
    assert (Hin : In (id, r) (map_to_list (t_port_tickets db'))) by (by apply list_elem_of_In, elem_of_map_to_list).
    pose proof (List.find_none _ _ Hf _ Hin) as Hno. cbn in Hno. congruence.
Qed.

Lemma session_alone sid row sh t'' m db db' :
  session_hash_unused sh db → t_port_sessions db' = <[sid := row]> (t_port_sessions db) →
  (port_mapping_session_valid inst m sh t'' db').1 = Ok (session_admits inst m sh t'' db' row).
Proof.
  intros Hun Erows. unfold port_mapping_session_valid. cbn. f_equal. rewrite Erows.
  destruct (session_admits inst m sh t'' db' row) eqn:Ea.
  - apply existsb_exists. exists (sid, row). split; [|done]. apply list_elem_of_In, elem_of_map_to_list, lookup_insert_eq.
  - apply not_true_iff_false. intros ([id s] & Hin & Hs)%existsb_exists. apply list_elem_of_In, elem_of_map_to_list in Hin.
    apply lookup_insert_Some in Hin as [[<- <-]|[Hne Hr]]; [cbn in Hs; congruence|].
    specialize (Hun id s Hr). unfold session_admits in Hs. cbn in Hs.
    destruct (String.eqb_spec (ps_installation_id s) inst); [|done]. destruct (String.eqb_spec (ps_session_hash s) sh); [by destruct Hun|].
    by rewrite andb_false_r in Hs.
Qed.

Lemma random_ticket_length point ticket :
  UrlBase64Laws → random_lengths → random_ticket point = Ok ticket → (len ticket <? 32) = false.
Proof.
  intros Hlaw Hrand. unfold random_ticket. intros Hg. inv_binds. injection Hg as <-.
  pose proof (Hrand _ _ _ Hstep) as Hl. pose proof (Hlaw a) as Hu. change (length a = 32%nat) in Hl. apply Z.ltb_ge. lia.
Qed.

(** The facts an issued ticket leaves behind. *)
Lemma issued_facts mapping user now db t db1 :
  UrlBase64Laws → random_lengths → issue_port_mapping_ticket inst mapping user now db = (Ok t, db1) →
  (len (ip_ticket t) <? 32) = false ∧ is_Some (t_port_mappings db1 !! mapping) ∧ is_Some (t_users db1 !! user).
Proof.
  intros Hlaw Hrand. rewrite issue_port_run.
  intros [_ (id & row & _ & _ & Erow & _ & Hins & Em & Eu & _ & _ & Ht)]%record_port_ticket_run.
  split; [by eapply random_ticket_length|]. rewrite Em, Eu. unfold port_ticket_insertable in Hins. rewrite Erow in Hins. cbn in Hins.
  apply andb_true_iff in Hins as [[_ H3]%andb_true_iff H4]. by destruct (t_port_mappings _ !! mapping), (t_users _ !! user).
Qed.

Lemma insert_session_run id row db :
  session_hash_unused (ps_session_hash row) db → ps_installation_id row = inst →
  is_Some (t_port_mappings db !! ps_mapping_id row) → is_Some (t_users db !! ps_user_id row) → t_port_sessions db !! id = None →
  insert_session id row db = (Ok (), set_t_port_sessions (<[id := row]> (t_port_sessions db)) db).
Proof.
  intros Hun Hi [m Hm] [u Hu] Hid. unfold insert_session. rewrite bind_run. cbn.
  assert (Hok : session_insertable row db = true).
  { unfold session_insertable. rewrite Hm, Hu, !andb_true_r. apply forallb_forall. intros [id' s] Hin.
    apply list_elem_of_In, elem_of_map_to_list in Hin. cbn. rewrite Hi.
    destruct (String.eqb_spec (ps_installation_id s) inst) as [E|]; [|done].
    destruct (String.eqb_spec (ps_session_hash s) (ps_session_hash row)) as [E'|]; [|done]. by destruct (Hun id' s Hin E). }
  rewrite Hok, bind_run. cbn. unfold insert_row. by rewrite Hid.
Qed.

(** Within its minute an issued ticket is exchanged for a session on its
    mapping, and that session admits the user it was issued to exactly until it
    expires and while the user is enabled and may enter the mapping's
    organization; on another mapping, or after the minute, the ticket opens
    nothing. *)
Theorem port_ticket_opens_session mapping user now db t db1 :
  UrlBase64Laws → random_lengths → issue_port_mapping_ticket inst mapping user now db = (Ok t, db1) →
  (∀ sh t' e, t' <= now + 60 → session_hash_unused sh db1 → t_port_sessions db1 !! uuid_source db1 (uuid_drawn db1) = None →
     ∃ sid db2, exchange_port_mapping_ticket inst mapping (ip_ticket t) sh t' e db1 = (Ok (Some sid), db2) ∧
       ∀ t'', (port_mapping_session_valid inst mapping sh t'' db2).1 = Ok ((t'' <=? e) && may_enter mapping user db2)) ∧
  (∀ m sh t' e, m ≠ mapping ∨ now + 60 < t' → (exchange_port_mapping_ticket inst m (ip_ticket t) sh t' e db1).1 = Ok None).
Proof.
  intros Hlaw Hrand Hissue. destruct (issued_facts _ _ _ _ _ _ Hlaw Hrand Hissue) as (Hlen & Hm & Hu).
  unfold exchange_port_mapping_ticket. rewrite Hlen. split.
  - intros sh t' e Ht Hun Hid. rewrite bind_run. cbn [now_v7]. unfold transaction. rewrite bind_run.
    set (db1' := set_uuid_drawn _ db1). pose proof (spend_issued _ _ _ _ _ _ mapping t' db1' Hissue eq_refl) as Hs.
    rewrite bool_decide_eq_true_2 in Hs by done.
    assert (Hframe : ∃ rows, (spend_port_ticket inst mapping (hash_token (ip_ticket t)) t' db1').2 = set_t_port_tickets rows db1') by (by eexists).
    destruct (spend_port_ticket _ _ _ _ db1') as [r db2]. cbn in Hs, Hframe. subst r. destruct Hframe as [rows ->].
    rewrite bind_run, insert_session_run by done. eexists _, _. split; [reflexivity|]. intros t''.
    etrans; [eapply session_alone; [exact Hun|reflexivity]|]. unfold session_admits, may_enter. cbn.
    rewrite !String.eqb_refl, bool_decide_eq_true_2 by done. done.
  - intros m sh t' e Hne. rewrite bind_run. cbn [now_v7]. unfold transaction. rewrite bind_run.
    set (db1' := set_uuid_drawn _ db1). pose proof (spend_issued _ _ _ _ _ _ m t' db1' Hissue eq_refl) as Hs.
    rewrite bool_decide_eq_false_2 in Hs by (intros [? ?]; destruct Hne; [done|lia]).
    destruct (spend_port_ticket _ _ _ _ db1') as [r db2]. cbn in Hs. by subst r.
Qed.
End History.

(** ** A mapping, a ticket and a session *)
Module TicketSample.
#[export] Existing Instances decimal_uuid_text CryptoSample.random KeySample.hash KeySample.url.
Definition mapping : PortMappingRow := mkPortMappingRow "inst" 2 9 3000 None 3 1.
Definition user : UserRow := mkUserRow "inst" "Ada" "hash" true false 1 None.
Definition db : Db := set_t_port_mappings {[ 7%N := mapping ]} (set_t_users {[ 3%N := user ]} empty_db).
Definition issued := issue_port_mapping_ticket "inst" 7 3 100 db.
Definition ticket : string := match issued.1 with Ok t => ip_ticket t | Err _ => "" end.
(** The second exchange comes to nothing. *)
Definition ops : list TicketOp := [IssuePort 7 3 100; Exchange 7 ticket "s1" 110 200; Exchange 7 ticket "s2" 120 200].
End TicketSample.
Import (hints) TicketSample.

Lemma tickets_redeemed_once_witness :
  occurrences (PortRedeemed TicketSample.ticket) (run_ticket_ops "inst" TicketSample.ops TicketSample.db).1 = 1 ∧
  occurrences (PortRedeemed TicketSample.ticket) (run_ticket_ops "inst" TicketSample.ops TicketSample.db).1
    <= occurrences (PortIssued TicketSample.ticket) (run_ticket_ops "inst" TicketSample.ops TicketSample.db).1.
Proof.
  split; [vm_compute; reflexivity|].
  exact (proj1 (tickets_redeemed_once "inst" TicketSample.ticket TicketSample.ops TicketSample.db eq_refl eq_refl)).
Defined.

Lemma port_ticket_opens_session_witness :
  ∃ t db1, TicketSample.issued = (Ok t, db1) ∧
    ∃ sid db2, exchange_port_mapping_ticket "inst" 7 (ip_ticket t) "session" 150 5000 db1 = (Ok (Some sid), db2) ∧
      ∀ t'', (port_mapping_session_valid "inst" 7 "session" t'' db2).1 = Ok ((t'' <=? 5000) && may_enter "inst" 7 3 db2).
Proof.
  destruct TicketSample.issued as [r db1] eqn:E.
  assert (∃ t, r = Ok t) as [t ->] by (apply (f_equal fst) in E; vm_compute in E; eauto).
  exists t, db1. split; [done|].
  refine (proj1 (port_ticket_opens_session "inst" 7 3 100 TicketSample.db t db1 KeySample.url_laws CryptoSample.random_ok E)
    "session" 150 5000 _ _ _); [lia| |].
  - apply (f_equal snd) in E. cbn [snd] in E. rewrite <-E. intros id s Hs. vm_compute in Hs. by destruct id.
  - apply (f_equal snd) in E. cbn [snd] in E. rewrite <-E. vm_compute. reflexivity.
Defined.
