(* ===== verification/Incidents.v ===== *)
(** * Runtime incidents ([src/runtime_incidents.rs] and its modules,
    [src/storage/runtime_incidents.rs])

    What went wrong around a workspace's Pod is read from the cluster's events,
    reduced to typed facts and kept as a bounded history. An event of the cluster
    is a value of the [k8s_openapi] crate, of which [KubeEvent] has the fields the
    code reads, timestamps in seconds. The pages the Kubernetes API returns are an
    argument of [collect_once]. *)
From S2P Require Import Prelude Text Json Auth Quota Templates Workspaces Errors ShrinkOperation RuntimeEvents Quantity Database WorkspaceStore JobStore Events JobQueue WorkspaceActions.

Record EventSeries := mkEventSeries {
  es_last_observed_time : option Z;
  es_count : option Z;
}.

Record KubeEvent := mkKubeEvent {
  ke_uid : option string;               (** [metadata.uid] *)
  ke_creation_timestamp : option Z;     (** [metadata.creationTimestamp] *)
  ke_object_kind : option string;       (** [involvedObject] *)
  ke_object_namespace : option string;
  ke_object_name : option string;
  ke_object_uid : option string;
  ke_field_path : option string;
  ke_type : option string;
  ke_reason : option string;
  ke_message : option string;
  ke_event_time : option Z;
  ke_first_timestamp : option Z;
  ke_last_timestamp : option Z;
  ke_count : option Z;
  ke_series : option EventSeries;
}.

(** ** Classification *)
Definition SAFE_REASONS : list string := [
  "BackOff"; "CrashLoopBackOff"; "ImagePullBackOff"; "ErrImagePull"; "FailedScheduling"; "Unhealthy"; "FailedMount";
  "FailedAttachVolume"; "FailedCreatePodSandBox"; "FailedCreatePodSandbox"; "OOMKilled"; "Error"; "Completed";
  "ContainerCreating"; "PodInitializing"; "CreateContainerConfigError"; "CreateContainerError"; "RunContainerError";
  "Evicted"; "Failed"; "Scheduled"; "Pulling"; "Pulled"; "Created"; "Started"; "Killing"; "SandboxChanged"; "FailedSync";
  "FailedCreate"; "SuccessfulCreate"; "FailedDelete"; "SuccessfulDelete"; "NodeNotReady"; "NodeNotSchedulable";
  "Preempted"; "DeadlineExceeded"; "ExceededGracePeriod"; "FailedPostStartHook"; "FailedPreStopHook";
  "FailedToRetrieveImagePullSecret"; "ErrImageNeverPull"; "FailedKillPod"; "FailedBinding"; "WaitForFirstConsumer";
  "WaitForPodScheduled"; "Provisioning"; "ProvisioningFailed"; "ExternalProvisioning"; "ProvisioningSucceeded";
  "SuccessfulAttachVolume"; "SuccessfulMountVolume"; "FailedMapVolume"; "FailedUnmount"; "VolumeResizeFailed";
  "FileSystemResizeRequired"; "FileSystemResizeSuccessful"; "Resizing"].

Definition safe_reason (reason : option string) : option string :=
  reason ← reason; if bool_decide (reason ∈ SAFE_REASONS) then Some reason else None.

(** The phrases by which the scheduler names each cause. *)
Definition BLOCKER_PHRASES : list (SchedulingBlocker * list string) := [
  (CpuCapacity, ["insufficient cpu"]);
  (MemoryCapacity, ["insufficient memory"]);
  (StorageCapacity, ["did not have enough free storage"; "not enough free storage"; "insufficient storage"]);
  (NodeAffinity, ["didn't match pod's node affinity"; "didn't match node selector"]);
  (VolumeAffinity, ["volume node affinity conflict"; "didn't match persistent volume's node affinity"]);
  (Taint, ["untolerated taint"; "had taint"]);
  (NodeUnavailable, ["node(s) were unschedulable"; "node(s) were not ready"; "node(s) not ready"])].

Definition scheduling_blockers (message : option string) : list SchedulingBlocker :=
  let message := to_ascii_lowercase (default "" message) in
  fst <$> List.filter (λ bp : SchedulingBlocker * list string, existsb (λ phrase, contains (bytes phrase) message) bp.2)
            BLOCKER_PHRASES.

Definition container_parse (name : list Z) : option RuntimeContainer :=
  let named s := bool_decide (name = bytes s) in
  if named "workspace" then Some ContainerWorkspace
  else if named "ttyd" then Some Ttyd
  else if named "buildkitd" then Some Buildkitd
  else if named "workspace-scratch-init" then Some WorkspaceScratchInit
  else if named "workspace-bootstrap" then Some WorkspaceBootstrap
  else if named "buildkit-bootstrap" then Some BuildkitBootstrap
  else None.

Definition is_informative (d : RuntimeEventDetails) (category : RuntimeEventCategory) : bool :=
  negb (bool_decide (category = Other)) || is_some (reason d) || is_some (diagnostic_of d)
  || negb (bool_decide (scheduling_blockers_of d = [])).

(** The name of the Pod gives the workspace: [w-<short id>-0]. *)
Definition workspace_short_id (event : KubeEvent) : option (list Z) :=
  if negb (bool_decide (ke_object_kind event = Some "Pod"))
     || negb (bool_decide (ke_object_namespace event = Some WORKSPACE_NAMESPACE)) then None
  else
    name ← ke_object_name event;
    rest ← strip_prefix (bytes "w-") (bytes name);
    short_id ← strip_suffix (bytes "-0") rest;
    if (Z.of_nat (length short_id) =? 16) && forallb (λ b, is_ascii_digit b || in_range 97 102 b) short_id
    then Some short_id else None.

Definition startup_gate_pending (event : KubeEvent) : bool :=
  match workspace_short_id event with
  | None => false
  | Some short_id =>
      bool_decide (ke_reason event = Some "FailedMount")
      && bool_decide (bytes <$> ke_message event =
           Some (bytes "MountVolume.SetUp failed for volume " ++ [34] ++ bytes "workspace-startup-gate" ++ [34]
                 ++ bytes " : configmap " ++ [34] ++ bytes "w-" ++ short_id ++ bytes "-startup-gate" ++ [34] ++ bytes " not found"))
  end.

Definition event_start (event : KubeEvent) : option Z :=
  option_or (ke_event_time event) (option_or (ke_first_timestamp event) (ke_creation_timestamp event)).

Definition runtime_event_category (reason message : option string) : RuntimeEventCategory :=
  let lower_reason := to_ascii_lowercase (default "" reason) in
  let lower_message := to_ascii_lowercase (default "" message) in
  let has needle := contains (bytes needle) lower_reason || contains (bytes needle) lower_message in
  let scratch := has "workspace-scratch" || has "ephemeral volume" || has "persistentvolumeclaim" in
  if bool_decide (lower_reason = bytes "failedscheduling")
     && negb (bool_decide (scheduling_blockers (Some (string_of_bytes lower_message)) = [])) then Scheduling
  else if has "ephemeral-storage" || has "ephemeral storage" then EphemeralStorage
  else if has "memorypressure" || has "memory pressure" || has "low on resource: memory" then MemoryPressure
  else if has "diskpressure" || has "disk pressure" then DiskPressure
  else if has "pidpressure" || has "pid pressure" || has "low on resource: pid" then PidPressure
  else if has "evicted" then Evicted
  else if (has "provision" || has "waiting for ephemeral volume") && scratch then TemporaryStorageProvisioning
  else if has "attach" && scratch then TemporaryStorageAttachment
  else if has "failedmount" || has "failed mount" || has "volume" then VolumeUnavailable
  else if has "imagepull" || has "pull image" || has "pulling image" then ImagePull
  else if has "backoff" || has "back-off restarting" then ContainerBackoff
  else if has "failedscheduling" then Scheduling
  else if has "unhealthy" || has "probe failed" then HealthCheck
  else Other.

(** [message.trim_end_matches(' ')]. *)
Definition trim_end_spaces (bs : list Z) : list Z :=
  let fix drop (l : list Z) := match l with b :: l' => if b =? c_space then drop l' else l | [] => [] end in
  reverse (drop (reverse bs)).

Definition diagnostic (message : string) : option RuntimeDiagnostic :=
  let text := trim_end_spaces (bytes message) in
  let quantity (bs : list Z) := home_volume_capacity_bytes (string_of_bytes bs) in
  match strip_prefix (bytes "Container ") text with
  | Some value =>
      '(container, limit) ← split_once (bytes " exceeded its local ephemeral storage limit " ++ [34]) value;
      container ← container_parse container;
      limit ← strip_suffix ([34] ++ bytes ".") limit;
      limit_bytes ← quantity limit;
      Some (ContainerLocalEphemeralLimit container limit_bytes)
  | None =>
      match strip_prefix (bytes "Pod ephemeral local storage usage exceeds the total limit of containers ") text with
      | Some limit =>
          limit ← strip_suffix (bytes ".") limit;
          limit_bytes ← quantity limit;
          Some (PodLocalEphemeralLimit limit_bytes)
      | None =>
          value ← strip_prefix (bytes "The node was low on resource: ") text;
          '(resource, _) ← split_once (bytes ".") value;
          if bool_decide (resource = bytes "ephemeral-storage") then Some (NodeResourcePressure PressureEphemeralStorage)
          else if bool_decide (resource = bytes "memory") then Some (NodeResourcePressure PressureMemory)
          else if bool_decide (resource = bytes "pids") then Some (NodeResourcePressure PressurePids)
          else None
      end
  end.

Section Incidents.
Context `{UuidText}.

Definition event_details (event : KubeEvent) : RuntimeEventDetails :=
  let container :=
    field ← bytes <$> ke_field_path event;
    inner ← option_or (strip_prefix (bytes "spec.containers{") field) (strip_prefix (bytes "spec.initContainers{") field);
    name ← strip_suffix (bytes "}") inner;
    container_parse name in
  {| event_uid := ke_uid event ≫= uuid_parse_str;
     pod_uid := ke_object_uid event ≫= uuid_parse_str;
     reason := if startup_gate_pending event then Some "ContainerCreating" else safe_reason (ke_reason event);
     container := container;
     scheduling_blockers_of :=
       if bool_decide (ke_reason event = Some "FailedScheduling") then scheduling_blockers (ke_message event) else [];
     diagnostic_of := ke_message event ≫= diagnostic |}.

(** ** What is recorded *)
Record NewWorkspaceRuntimeIncident := mkNewIncident {
  ni_id : string;
  ni_details : RuntimeEventDetails;
  ni_category : RuntimeEventCategory;
  ni_observed_at : Z;
  ni_last_observed_at : Z;
  ni_count : Z;
}.

Definition normalized_incident (event : KubeEvent) : option NewWorkspaceRuntimeIncident :=
  if negb (bool_decide (ke_type event = Some "Warning")) || startup_gate_pending event then None
  else
    let category := runtime_event_category (ke_reason event) (ke_message event) in
    let details := event_details event in
    if negb (is_informative details category) then None
    else
      observed_at ← event_start event;
      let last_observed_at :=
        default observed_at (option_or (ke_series event ≫= es_last_observed_time) (ke_last_timestamp event)) in
      let count := Z.max 1 (default 1 (option_or (ke_series event ≫= es_count) (ke_count event) ≫= u32_try_from)) in
      uid ← event_uid details;
      Some (mkNewIncident (uuid_to_string uid) details category observed_at last_observed_at count).

Record WorkspaceRuntimeIncident := mkIncident {
  wi_id : string;
  wi_details : RuntimeEventDetails;
  wi_last_observed_at : Z;
  wi_workspace_id : Uuid;
  wi_category : RuntimeEventCategory;
  wi_observed_at : Z;
  wi_count : Z;
}.

Definition RETENTION_SECONDS : Z := 30 * 24 * 60 * 60.
Definition MAX_INCIDENTS_PER_WORKSPACE : Z := 200.
Definition MAX_BATCH_WORKSPACES : Z := 100.
Definition MAX_FUTURE_SKEW_SECONDS : Z := 5 * 60.

Definition retention_cutoff (now : Z) : Z := saturating_sub_i64 now RETENTION_SECONDS.

(** The entries of a [BTreeMap] with text keys, in the order of the keys. *)
Definition btree_entries {V} (m : gmap string V) : list (string * V) :=
  merge_sort (λ a b : string * V, String.le a.1 b.1) (map_to_list m).

Definition acceptable (now : Z) (i : NewWorkspaceRuntimeIncident) : bool :=
  negb ((ni_last_observed_at i <? retention_cutoff now)
        || (saturating_add_i64 now MAX_FUTURE_SKEW_SECONDS <? ni_last_observed_at i)
        || (ni_last_observed_at i <? ni_observed_at i)).

Definition merge_new (i : NewWorkspaceRuntimeIncident) (entry : option NewWorkspaceRuntimeIncident)
    : NewWorkspaceRuntimeIncident :=
  match entry with
  | None => mkNewIncident (ni_id i) (ni_details i) (ni_category i) (ni_observed_at i) (ni_last_observed_at i) (Z.max (ni_count i) 1)
  | Some e =>
      let newer := ni_last_observed_at e <=? ni_last_observed_at i in
      mkNewIncident (ni_id e) (if newer then ni_details i else ni_details e) (ni_category e) (ni_observed_at e)
        (if newer then ni_last_observed_at i else ni_last_observed_at e) (Z.max (ni_count e) (Z.max (ni_count i) 1))
  end.

Fixpoint normalize_into (now : Z) (m : gmap string NewWorkspaceRuntimeIncident) (incidents : list NewWorkspaceRuntimeIncident)
    : gmap string NewWorkspaceRuntimeIncident :=
  match incidents with
  | [] => m
  | i :: rest =>
      normalize_into now (if acceptable now i then <[ni_id i := merge_new i (m !! ni_id i)]> m else m) rest
  end.

Definition normalized_incidents (incidents : list NewWorkspaceRuntimeIncident) (now : Z) : list NewWorkspaceRuntimeIncident :=
  snd <$> btree_entries (normalize_into now ∅ incidents).

(** ** The stored history *)

(** The [CHECK] constraints of the table. *)
Definition incident_checks (r : IncidentRow) : bool := (0 <? ic_count r) && (ic_first_seen_at r <=? ic_last_seen_at r).

Definition incident_row (inst : string) (workspace_id : Uuid) (i : NewWorkspaceRuntimeIncident) : IncidentRow :=
  mkIncidentRow inst workspace_id (ni_category i) (ni_observed_at i) (ni_count i) (ni_observed_at i) (ni_last_observed_at i)
    (ni_details i).

(** [ON CONFLICT (id) DO UPDATE]. *)
Definition merge_row (row excluded : IncidentRow) : IncidentRow :=
  mkIncidentRow (ic_installation_id row) (ic_workspace_id row) (ic_category row) (ic_observed_at row)
    (Z.max (ic_count row) (ic_count excluded)) (ic_first_seen_at row)
    (Z.max (ic_last_seen_at row) (ic_last_seen_at excluded))
    (if ic_last_seen_at row <=? ic_last_seen_at excluded then ic_details excluded else ic_details row).

Definition upsert_incident (inst : string) (workspace_id : Uuid) (i : NewWorkspaceRuntimeIncident) : DbM () := λ db,
  let proposed := incident_row inst workspace_id i in
  let stored := match t_incidents db !! ni_id i with Some row => merge_row row proposed | None => proposed end in
  let foreign_key := is_some (t_incidents db !! ni_id i) || is_some (t_workspaces db !! workspace_id) in
  if incident_checks proposed && incident_checks stored && foreign_key
  then (Ok (), set_t_incidents (<[ni_id i := stored]> (t_incidents db)) db)
  else (Err StorageError.Database, db).

Definition of_workspace (inst : string) (workspace_id : Uuid) (r : IncidentRow) : bool :=
  String.eqb (ic_installation_id r) inst && bool_decide (ic_workspace_id r = workspace_id).

(** [ORDER BY observed_at DESC, category, id DESC]. *)
Definition incident_le (a b : string * IncidentRow) : Prop :=
  ic_observed_at b.2 < ic_observed_at a.2
  ∨ ic_observed_at a.2 = ic_observed_at b.2 ∧
    (ic_category a.2 ≠ ic_category b.2 ∧ String.le (category_as_str (ic_category a.2)) (category_as_str (ic_category b.2))
     ∨ ic_category a.2 = ic_category b.2 ∧ String.le b.1 a.1).
#[global] Instance incident_le_dec a b : Decision (incident_le a b).
Proof. unfold incident_le. apply _. Defined.

Definition ranked (p : IncidentRow → bool) (m : gmap string IncidentRow) : list (string * IncidentRow) :=
  merge_sort incident_le (List.filter (λ kv, p kv.2) (map_to_list m)).

(** [DELETE ... AND id NOT IN (SELECT id ... ORDER BY ... LIMIT n)] on the rows [p]. *)
Definition keep_newest (p : IncidentRow → bool) (n : nat) (m : gmap string IncidentRow) : gmap string IncidentRow :=
  filter (λ kv, p kv.2 && negb (bool_decide (kv.1 ∈ (take n (ranked p m)).*1)) = false) m.

Definition prune (inst : string) (workspace_id : Uuid) (cutoff : Z) : DbM () :=
  let p := of_workspace inst workspace_id in
  _ ← modify (λ db, set_t_incidents (filter (λ kv, p kv.2 && (ic_last_seen_at kv.2 <? cutoff) = false) (t_incidents db)) db);
  modify (λ db, set_t_incidents (keep_newest p (Z.to_nat MAX_INCIDENTS_PER_WORKSPACE) (t_incidents db)) db).

Definition upsert_workspace_runtime_incidents (inst : string) (workspace_id : Uuid)
    (incidents : list NewWorkspaceRuntimeIncident) (now : Z) : DbM () :=
  transaction (
    _ ← for_each (upsert_incident inst workspace_id) (normalized_incidents incidents now);
    prune inst workspace_id (retention_cutoff now)).

Definition decode_incident (id : string) (r : IncidentRow) : result StorageError.t WorkspaceRuntimeIncident :=
  count ← ok_or (u32_try_from (ic_count r)) StorageError.InvalidWorkspace;
  Ok (mkIncident id (ic_details r) (ic_last_seen_at r) (ic_workspace_id r) (ic_category r) (ic_observed_at r) count).

(** [ORDER BY workspace_id, observed_at DESC, category, id DESC]. *)
Definition listed_le (a b : string * IncidentRow) : Prop :=
  ic_workspace_id a.2 ≠ ic_workspace_id b.2
    ∧ String.le (uuid_to_string (ic_workspace_id a.2)) (uuid_to_string (ic_workspace_id b.2))
  ∨ ic_workspace_id a.2 = ic_workspace_id b.2 ∧ incident_le a b.
#[global] Instance listed_le_dec a b : Decision (listed_le a b).
Proof. unfold listed_le. apply _. Defined.

Definition push_incident (limit : nat) (m : gmap Uuid (list WorkspaceRuntimeIncident)) (i : WorkspaceRuntimeIncident)
    : gmap Uuid (list WorkspaceRuntimeIncident) :=
  let entries := default [] (m !! wi_workspace_id i) in
  <[wi_workspace_id i := if (length entries <? limit)%nat then entries ++ [i] else entries]> m.

Definition group_incidents (incidents : list WorkspaceRuntimeIncident) (limit : nat)
    : gmap Uuid (list WorkspaceRuntimeIncident) := foldl (push_incident limit) ∅ incidents.

Definition list_workspace_runtime_incidents (inst : string) (workspace_ids : list Uuid) (now : Z) (limit_per_workspace : nat)
    : DbM (gmap Uuid (list WorkspaceRuntimeIncident)) :=
  if bool_decide (workspace_ids = []) || (limit_per_workspace =? 0)%nat then mret ∅
  else if MAX_BATCH_WORKSPACES <? Z.of_nat (length workspace_ids) then fail StorageError.InvalidWorkspace
  else
    let limit := Nat.min limit_per_workspace (Z.to_nat MAX_INCIDENTS_PER_WORKSPACE) in
    rows ← reads (λ db, merge_sort listed_le
             (List.filter (λ kv : string * IncidentRow,
                             String.eqb (ic_installation_id kv.2) inst && (retention_cutoff now <=? ic_last_seen_at kv.2)
                             && bool_decide (ic_workspace_id kv.2 ∈ workspace_ids))
                (map_to_list (t_incidents db))));
    incidents ← lift (collect (λ kv : string * IncidentRow, decode_incident kv.1 kv.2) rows);
    mret (group_incidents incidents limit).

(** ** Collection *)
Record EventPage := mkEventPage {
  ep_items : list KubeEvent;
  ep_continue : option string;
}.

Fixpoint group_events (m : gmap string (list NewWorkspaceRuntimeIncident)) (events : list KubeEvent)
    : gmap string (list NewWorkspaceRuntimeIncident) :=
  match events with
  | [] => m
  | event :: rest =>
      match workspace_short_id event, normalized_incident event with
      | Some short_id, Some incident =>
          let key := string_of_bytes short_id in
          group_events (<[key := default [] (m !! key) ++ [incident]]> m) rest
      | _, _ => group_events m rest
      end
  end.

(** The incidents of one workspace; an error is the stage that is logged. *)
Definition record_group (inst : string) (now : Z) (group : string * list NewWorkspaceRuntimeIncident) (db : Db)
    : result string () * Db :=
  match get_workspace_by_route_key inst (inst +:+ "-" +:+ group.1) db with
  | (Ok w, db1) =>
      let '(r, db2) := upsert_workspace_runtime_incidents inst (ws_id w) group.2 now db1 in
      (map_err (λ _, "persistence") r, db2)
  | (Err StorageError.WorkspaceNotFound, db1) => (Ok (), db1)
  | (Err _, db1) => (Err "workspace_lookup", db1)
  end.

Fixpoint record_groups (inst : string) (now : Z) (groups : list (string * list NewWorkspaceRuntimeIncident)) (db : Db)
    : result string () * Db :=
  match groups with
  | [] => (Ok (), db)
  | group :: rest =>
      match record_group inst now group db with
      | (Ok _, db1) => record_groups inst now rest db1
      | (Err stage, db1) => (Err stage, db1)
      end
  end.

(** [answers] are the answers of the Kubernetes API to the successive list
    requests; a request without an answer has failed. *)
Fixpoint collect_pages (inst : string) (now : Z) (answers : list (option EventPage)) (db : Db) : result string () * Db :=
  match answers with
  | Some page :: rest =>
      match record_groups inst now (btree_entries (group_events ∅ (ep_items page))) db with
      | (Err stage, db1) => (Err stage, db1)
      | (Ok _, db1) => if bool_decide (default "" (ep_continue page) = "") then (Ok (), db1) else collect_pages inst now rest db1
      end
  | _ => (Err "kubernetes", db)
  end.

(** [clock] is what the system clock says, if it says anything. *)
Definition collect_once (inst : string) (clock : option Z) (answers : list (option EventPage)) (db : Db)
    : result string () * Db :=
  match clock with
  | None => (Err "clock", db)
  | Some now => collect_pages inst now answers db
  end.
End Incidents.

(** ** Merging observations *)
Definition at_least_one (i : NewWorkspaceRuntimeIncident) : NewWorkspaceRuntimeIncident :=
  mkNewIncident (ni_id i) (ni_details i) (ni_category i) (ni_observed_at i) (ni_last_observed_at i) (Z.max (ni_count i) 1).

(** One observation written to the row of its incident, or as a new row. *)
Definition record_one (inst : string) (workspace_id : Uuid) (row : option IncidentRow) (i : NewWorkspaceRuntimeIncident)
    : option IncidentRow :=
  let proposed := incident_row inst workspace_id (at_least_one i) in
  Some (match row with Some r => merge_row r proposed | None => proposed end).

(** What the acceptable observations of an incident make of its row, written one
    after the other. *)
Definition merged (inst : string) (workspace_id : Uuid) (incidents : list NewWorkspaceRuntimeIncident) (now : Z) (id : string)
    (row : option IncidentRow) : option IncidentRow :=
  foldl (record_one inst workspace_id) row
    (List.filter (λ i, acceptable now i && String.eqb (ni_id i) id) incidents).

Lemma merge_row_assoc inst ws r e i :
  merge_row (merge_row r (incident_row inst ws e)) (incident_row inst ws (at_least_one i)) =
  merge_row r (incident_row inst ws (merge_new i (Some e))).
Proof.
  unfold merge_row, incident_row, merge_new, at_least_one. cbn. destruct e as [eid ed ec eo el en], i as [iid id' ic io il inn]. cbn.
  destruct (Z.leb_spec el il); f_equal;
    repeat match goal with |- context [?a <=? ?b] => destruct (Z.leb_spec a b) end; lia || done.
Qed.

Lemma merge_new_assoc inst ws e i :
  merge_row (incident_row inst ws e) (incident_row inst ws (at_least_one i)) = incident_row inst ws (merge_new i (Some e)).
Proof.
  unfold merge_row, incident_row, merge_new, at_least_one. cbn. destruct e as [eid ed ec eo el en], i as [iid id' ic io il inn]. cbn.
  destruct (Z.leb_spec el il); f_equal; lia || done.
Qed.

Lemma merge_new_id i e id : ni_id i = id → (∀ e', e = Some e' → ni_id e' = id) → ni_id (merge_new i e) = id.
Proof. destruct e as [e|]; cbn; [intros _ He; by apply He|done]. Qed.

Lemma normalize_into_lookup now incidents m id :
  normalize_into now m incidents !! id =
  foldl (λ o i, Some (merge_new i o)) (m !! id) (List.filter (λ i, acceptable now i && String.eqb (ni_id i) id) incidents).
Proof.
  revert m. induction incidents as [|i rest IH]; intros m; [done|]. cbn. rewrite IH.
  destruct (acceptable now i); cbn; [|done]. destruct (String.eqb_spec (ni_id i) id) as [<-|Hne]; cbn.
  - by rewrite lookup_insert_eq.
  - by rewrite lookup_insert_ne.
Qed.

Lemma normalize_into_ids now incidents m :
  (∀ id e, m !! id = Some e → ni_id e = id) →
  ∀ id e, normalize_into now m incidents !! id = Some e → ni_id e = id.
Proof.
  revert m. induction incidents as [|i rest IH]; intros m Hm; [done|]. cbn. apply IH.
  destruct (acceptable now i); [|done]. intros id e. rewrite lookup_insert_Some. intros [[<- <-]|[_ He]]; [|by apply Hm].
  apply merge_new_id; [done|]. intros e' He'. by apply Hm.
Qed.

(** A normalised observation is within the [CHECK] constraints. *)
Definition well_observed (i : NewWorkspaceRuntimeIncident) : Prop :=
  1 <= ni_count i <= u32_max ∧ ni_observed_at i <= ni_last_observed_at i.

Lemma normalize_into_observed now incidents m :
  (∀ i, i ∈ incidents → ni_count i <= u32_max) → (∀ id e, m !! id = Some e → well_observed e) →
  ∀ id e, normalize_into now m incidents !! id = Some e → well_observed e.
Proof.
  revert m. induction incidents as [|i rest IH]; intros m Hi Hm; [done|]. cbn.
  apply IH; [intros j Hj; apply Hi, elem_of_cons; by right|]. assert (ni_count i <= u32_max) by (apply Hi, elem_of_cons; by left).
  destruct (acceptable now i) eqn:Ha; [|done]. intros id e. rewrite lookup_insert_Some. intros [[<- <-]|[_ He]]; [|by eapply Hm].
  unfold acceptable in Ha. bool_prop. unfold well_observed, merge_new. assert (1 <= u32_max) by done.
  destruct (m !! ni_id i) as [e'|] eqn:He; cbn; [|lia]. destruct (Hm _ _ He). destruct (Z.leb_spec (ni_last_observed_at e') (ni_last_observed_at i)); lia.
Qed.

(** Folding the observations first and writing the result is writing them one by
    one. *)
Definition record_merged (inst : string) (ws : Uuid) (row : option IncidentRow) (e : NewWorkspaceRuntimeIncident) : IncidentRow :=
  match row with Some r => merge_row r (incident_row inst ws e) | None => incident_row inst ws e end.

Lemma record_merged_fold inst ws row e fl :
  foldl (record_one inst ws) (Some (record_merged inst ws row e)) fl =
  record_merged inst ws row <$> foldl (λ o i, Some (merge_new i o)) (Some e) fl.
Proof.
  revert e. induction fl as [|i fl IH]; intros e; [done|]. cbn [foldl]. rewrite <-IH. f_equal. unfold record_one. f_equal.
  destruct row as [r|]; cbn [record_merged]; [apply merge_row_assoc|apply merge_new_assoc].
Qed.

Lemma merged_normalized inst ws incidents now id row :
  merged inst ws incidents now id row =
  match normalize_into now ∅ incidents !! id with Some e => Some (record_merged inst ws row e) | None => row end.
Proof.
  rewrite normalize_into_lookup, lookup_empty. unfold merged.
  destruct (List.filter _ incidents) as [|i fl]; [done|]. cbn [foldl].
  change (record_one inst ws row i) with (Some (record_merged inst ws row (merge_new i None))).
  rewrite record_merged_fold.
  assert (∀ e, is_Some (foldl (λ o i, Some (merge_new i o)) (Some e) fl)) as Hs
    by (intros e; revert e; induction fl as [|j fl IH]; intros e; [by eexists|apply IH]).
  by destruct (Hs (merge_new i None)) as [e' ->].
Qed.

(** ** The order of the history *)
#[global] Instance category_as_str_inj : Inj (=) (=) category_as_str.
Proof. intros [] []; done. Qed.

#[global] Instance incident_le_trans : Transitive incident_le.
Proof.
  intros a b c [?|[E1 H1]] [?|[E2 H2]]; [left; lia..|right]. split; [congruence|].
  destruct H1 as [[N1 L1]|[C1 L1]], H2 as [[N2 L2]|[C2 L2]].
  - left. split; [|by etrans]. intros Hac. rewrite <-Hac in L2. apply N1, (inj category_as_str). by apply (anti_symm String.le).
  - left. by rewrite <-C2.
  - left. by rewrite C1.
  - right. split; [congruence|by etrans].
Qed.

Lemma incident_le_total a b : incident_le a b ∨ incident_le b a.
Proof.
  unfold incident_le. destruct (Z.lt_trichotomy (ic_observed_at a.2) (ic_observed_at b.2)) as [?|[E|?]]; [by right; left| |by left; left].
  destruct (decide (ic_category a.2 = ic_category b.2)) as [C|C].
  - destruct (base.total String.le a.1 b.1); [right|left]; right; (split; [done|]); right; split; congruence || done.
  - destruct (base.total String.le (category_as_str (ic_category a.2)) (category_as_str (ic_category b.2)));
      [left|right]; right; (split; [done|]); left; split; congruence || done.
Qed.

Lemma ranked_sorted p m : StronglySorted incident_le (ranked p m).
Proof. apply StronglySorted_merge_sort; [apply _|]. intros a b. apply incident_le_total. Qed.

Lemma elem_of_ranked p m id r : (id, r) ∈ ranked p m ↔ m !! id = Some r ∧ p r = true.
Proof.
  unfold ranked. rewrite merge_sort_Permutation, list_elem_of_In, filter_In, <-list_elem_of_In, elem_of_map_to_list. done.
Qed.

Lemma NoDup_ranked p m : NoDup (ranked p m).*1.
Proof.
  unfold ranked. rewrite merge_sort_Permutation. pose proof (NoDup_fst_map_to_list m) as Hnd. revert Hnd.
  induction (map_to_list m) as [|[k v] l IH]; [done|]. cbn. intros [Hk Hl]%NoDup_cons. destruct (p v); cbn; [|by apply IH].
  apply NoDup_cons. split; [|by apply IH]. intros ([k' v'] & E & Hin)%list_elem_of_fmap. cbn in E. subst k'. apply Hk.
  apply list_elem_of_fmap. exists (k, v'). split; [done|]. by apply list_elem_of_In, filter_In in Hin as [?%list_elem_of_In _].
Qed.

Lemma StronglySorted_take_drop {A} (R : relation A) n (l : list A) x y :
  StronglySorted R l → x ∈ take n l → y ∈ drop n l → R x y.
Proof.
  intros Hs. revert n. induction Hs as [|z l Hl IH Hz]; intros [|n]; cbn; [by intros ?%elem_of_nil..| |].
  - by intros ?%elem_of_nil.
  - intros [->|Hx]%elem_of_cons Hy; [|by eapply IH]. rewrite Forall_forall in Hz. apply Hz.
    rewrite <-(take_drop n l). apply elem_of_app. by right.
Qed.

(** ** Recording *)
Lemma btree_entries_Permutation {V} (m : gmap string V) : btree_entries m ≡ₚ map_to_list m.
Proof. apply merge_sort_Permutation. Qed.

Section Recording.
Context (inst : string).
Arguments incident_row : simpl never.
Arguments record_merged : simpl never.

Lemma upsert_incident_run ws i db u db' :
  upsert_incident inst ws i db = (Ok u, db') →
  db' = set_t_incidents (<[ni_id i := record_merged inst ws (t_incidents db !! ni_id i) i]> (t_incidents db)) db.
Proof. unfold upsert_incident. destruct (_ && _); [|done]. intros [= _ <-]. by destruct (t_incidents db !! ni_id i). Qed.

Lemma upsert_each_run ws (l : list (string * NewWorkspaceRuntimeIncident)) db u db' :
  NoDup l.*1 → (∀ k e, (k, e) ∈ l → ni_id e = k) →
  for_each (upsert_incident inst ws) l.*2 db = (Ok u, db') →
  db' = set_t_incidents (t_incidents db') db ∧
  ∀ id, t_incidents db' !! id =
    match (list_to_map l : gmap string NewWorkspaceRuntimeIncident) !! id with
    | Some e => Some (record_merged inst ws (t_incidents db !! id) e)
    | None => t_incidents db !! id
    end.
Proof.
  revert db. induction l as [|[k e] l IH]; intros db Hnd Hid; cbn.
  - intros [= _ <-]. split; [by destruct db|]. intros id. by rewrite lookup_empty.
  - cbn in Hnd. apply NoDup_cons in Hnd as [Hk Hnd]. intros ([] & db1 & Hone & Hrest)%bind_run_Ok.
    apply upsert_incident_run in Hone. apply IH in Hrest as [Hdb Hl]; [|done|intros k' e' Hin; apply Hid, elem_of_cons; by right].
    subst db1. split; [exact Hdb|]. intros id. rewrite Hl. cbn.
    assert (ni_id e = k) as -> by (apply Hid, elem_of_cons; by left). destruct (decide (id = k)) as [->|Hne].
    + rewrite lookup_insert_eq, lookup_insert_eq. by rewrite (not_elem_of_list_to_map_1 l k Hk).
    + by rewrite !lookup_insert_ne by done.
Qed.

Lemma normalized_run ws incidents now db u db' :
  for_each (upsert_incident inst ws) (normalized_incidents incidents now) db = (Ok u, db') →
  db' = set_t_incidents (t_incidents db') db ∧
  ∀ id, t_incidents db' !! id = merged inst ws incidents now id (t_incidents db !! id).
Proof.
  unfold normalized_incidents. intros Hrun. set (m := normalize_into now ∅ incidents) in *.
  pose proof (btree_entries_Permutation m) as Hp. apply upsert_each_run in Hrun as [Hdb Hl].
  - split; [done|]. intros id. rewrite Hl, merged_normalized. fold m.
    rewrite (list_to_map_proper (btree_entries m) (map_to_list m)); [by rewrite list_to_map_to_list| |exact Hp].
    rewrite Hp. apply NoDup_fst_map_to_list.
  - rewrite Hp. apply NoDup_fst_map_to_list.
  - intros k e. rewrite Hp, elem_of_map_to_list. apply normalize_into_ids. intros id e'. by rewrite lookup_empty.
Qed.

(** The rows [p] that are left are [kept], and a row that is gone comes after all
    of them. *)
Definition newest_of (p : IncidentRow → bool) (n : nat) (kept : list string) (m m' : gmap string IncidentRow) : Prop :=
  NoDup kept ∧ (length kept <= n)%nat ∧
  (∀ id r, m' !! id = Some r → p r = true → id ∈ kept) ∧
  (∀ id, id ∈ kept → ∃ r, m' !! id = Some r ∧ p r = true) ∧
  ∀ id r, m !! id = Some r → m' !! id = None →
    p r = true ∧ length kept = n ∧ ∀ id' r', id' ∈ kept → m' !! id' = Some r' → incident_le (id', r') (id, r).

Lemma keep_newest_lookup p n m id r :
  keep_newest p n m !! id = Some r ↔ m !! id = Some r ∧ (p r = true → id ∈ (take n (ranked p m)).*1).
Proof.
  unfold keep_newest. rewrite map_lookup_filter_Some. cbn. apply and_iff_compat_l.
  destruct (p r); cbn; [rewrite negb_false_iff, bool_decide_eq_true|]; naive_solver.
Qed.

Lemma keep_newest_newest p n m : newest_of p n (take n (ranked p m)).*1 m (keep_newest p n m).
Proof.
  set (rank := ranked p m).
  assert (∀ id r, (id, r) ∈ take n rank → keep_newest p n m !! id = Some r ∧ p r = true) as Htake.
  { intros id r Hin. assert ((id, r) ∈ rank) as [Hr Hp]%elem_of_ranked by (rewrite <-(take_drop n rank), elem_of_app; by left).
    split; [|done]. apply keep_newest_lookup. split; [done|]. intros _. apply list_elem_of_fmap. by exists (id, r). }
  split_and!.
  - eapply sublist_NoDup; [apply (NoDup_ranked p m)|]. rewrite fmap_take. apply sublist_take.
  - rewrite length_fmap, length_take. lia.
  - intros id r [_ Hr]%keep_newest_lookup. exact Hr.
  - intros id ([id' r] & -> & Hin)%list_elem_of_fmap. exists r. by apply Htake.
  - intros id r Hr Hnone. destruct (p r) eqn:Hp.
    2:{ exfalso. assert (keep_newest p n m !! id = Some r); [|congruence]. apply keep_newest_lookup. split; [done|congruence]. }
    assert ((id, r) ∈ drop n rank) as Hdrop.
    { assert ((id, r) ∈ rank) as Hin by (by apply elem_of_ranked). rewrite <-(take_drop n rank), elem_of_app in Hin.
      destruct Hin as [[? _]%Htake|?]; [congruence|done]. }
    split_and!; [done| |].
    + rewrite length_fmap, length_take. destruct (decide (n < length rank)%nat); [lia|].
      rewrite drop_ge in Hdrop by lia. by apply elem_of_nil in Hdrop.
    + intros id' r' ([id2 r2] & -> & Hin)%list_elem_of_fmap Hr'. cbn in Hr'.
      assert (r2 = r') as <- by (apply Htake in Hin as [? _]; congruence).
      eapply StronglySorted_take_drop; [apply ranked_sorted|exact Hin|exact Hdrop].
Qed.

(** The rows of the workspace that are not too old. *)
Definition retained (ws : Uuid) (cutoff : Z) (m : gmap string IncidentRow) : gmap string IncidentRow :=
  filter (λ kv, of_workspace inst ws kv.2 && (ic_last_seen_at kv.2 <? cutoff) = false) m.

Lemma retained_lookup ws cutoff m id r :
  retained ws cutoff m !! id = Some r ↔ m !! id = Some r ∧ (of_workspace inst ws r = true → cutoff <= ic_last_seen_at r).
Proof.
  unfold retained. rewrite map_lookup_filter_Some. cbn. apply and_iff_compat_l.
  destruct (of_workspace inst ws r); cbn; [rewrite Z.ltb_ge|]; naive_solver.
Qed.

Lemma prune_run ws cutoff db :
  prune inst ws cutoff db =
  (Ok (), set_t_incidents (keep_newest (of_workspace inst ws) (Z.to_nat MAX_INCIDENTS_PER_WORKSPACE)
                             (retained ws cutoff (t_incidents db))) db).
Proof. done. Qed.

(** What a row says is what was observed: the highest count, the latest recurrence
    with its details, and the start and category of the first observation. *)
Definition explained (ws : Uuid) (row : option IncidentRow) (observations : list NewWorkspaceRuntimeIncident) (r : IncidentRow)
    : Prop :=
  match row with
  | Some r0 => ic_count r0 <= ic_count r ∧ ic_last_seen_at r0 <= ic_last_seen_at r ∧ ic_observed_at r = ic_observed_at r0 ∧
      ic_category r = ic_category r0 ∧ ic_workspace_id r = ic_workspace_id r0 ∧ ic_installation_id r = ic_installation_id r0
  | None => ∃ i rest, observations = i :: rest ∧ ic_observed_at r = ni_observed_at i ∧
      ic_category r = ni_category i ∧ ic_workspace_id r = ws ∧ ic_installation_id r = inst
  end ∧
  (∀ i, i ∈ observations → ni_count i <= ic_count r ∧ ni_last_observed_at i <= ic_last_seen_at r) ∧
  ((∃ r0, row = Some r0 ∧ ic_count r = ic_count r0) ∨ ∃ i, i ∈ observations ∧ ic_count r = Z.max (ni_count i) 1) ∧
  ((∃ r0, row = Some r0 ∧ ic_details r = ic_details r0 ∧ ic_last_seen_at r = ic_last_seen_at r0) ∨
   ∃ i, i ∈ observations ∧ ic_details r = ni_details i ∧ ic_last_seen_at r = ni_last_observed_at i).

Lemma record_one_explained ws row observations r i r' :
  explained ws row observations r → record_one inst ws (Some r) i = Some r' → explained ws row (observations ++ [i]) r'.
Proof.
  intros (Hold & Hobs & Hc & Hd) [= <-]. unfold merge_row, incident_row, at_least_one. split_and!; cbn.
  - destruct row as [r0|]; cbn.
    + destruct Hold as (? & ? & ? & ? & ? & ?). split_and!; done || lia.
    + destruct Hold as (j & rest & -> & ? & ? & ? & ?). by exists j, (rest ++ [i]).
  - intros j [Hj| ->%list_elem_of_singleton]%elem_of_app; [destruct (Hobs j Hj)|]; lia.
  - destruct (Z.max_spec (ic_count r) (Z.max (ni_count i) 1)) as [[_ ->]|[_ ->]].
    + right. exists i. rewrite elem_of_app, list_elem_of_singleton. split; [by right|done].
    + destruct Hc as [?|(j & Hj & ?)]; [by left|right; exists j]. rewrite elem_of_app. split; [by left|done].
  - destruct (Z.leb_spec (ic_last_seen_at r) (ni_last_observed_at i)).
    + right. exists i. rewrite elem_of_app, list_elem_of_singleton. split_and!; [by right|done|lia].
    + destruct Hd as [(r0 & -> & -> & E)|(j & Hj & -> & E)]; [left; exists r0|right; exists j];
        rewrite ?elem_of_app; split_and!; try done; try lia. by left.
Qed.

Lemma record_first_explained ws row i r : record_one inst ws row i = Some r → explained ws row [i] r.
Proof.
  destruct row as [r0|].
  - intros Hr. change [i] with ([] ++ [i]). eapply record_one_explained; [|exact Hr]. split_and!; try done.
    + by intros ? ?%elem_of_nil.
    + left. by exists r0.
    + left. by exists r0.
  - intros [= <-]. unfold incident_row, at_least_one. split_and!; cbn.
    + by exists i, [].
    + intros j ->%list_elem_of_singleton. lia.
    + right. exists i. by rewrite list_elem_of_singleton.
    + right. exists i. by rewrite list_elem_of_singleton.
Qed.

Lemma record_fold_some ws l r : is_Some (foldl (record_one inst ws) (Some r) l).
Proof. revert r. induction l as [|i l IH]; intros r; [by eexists|apply IH]. Qed.

Lemma record_fold_explained ws row observations r :
  foldl (record_one inst ws) row observations = Some r → explained ws row observations r.
Proof.
  revert r. induction observations as [|i observations IH] using rev_ind; intros r.
  - cbn. intros ->. split_and!; [done..|by intros ? ?%elem_of_nil|left; by exists r|left; by exists r].
  - rewrite foldl_app. cbn. destruct (foldl _ row observations) as [r1|] eqn:E; intros Hr.
    + eapply record_one_explained; [by apply IH|exact Hr].
    + destruct row as [r0|]; [|destruct observations as [|j l] using rev_ind].
      * destruct (record_fold_some ws observations r0); congruence.
      * by apply record_first_explained in Hr.
      * by rewrite foldl_app in E.
Qed.

Lemma merged_some ws incidents now id row :
  is_Some row ∨ List.filter (λ i, acceptable now i && String.eqb (ni_id i) id) incidents ≠ [] →
  is_Some (merged inst ws incidents now id row).
Proof.
  unfold merged. intros [[r ->]|Hl]; [apply record_fold_some|].
  destruct (List.filter _ incidents) as [|i l]; [done|]. apply record_fold_some.
Qed.

(** Recording the events of a scan keeps the newest history and loses no fact:
    every row that is left says what all acceptable observations of its incident
    so far say together (the highest count, the latest recurrence with its
    details, the first start and category), whatever order and repetition they
    came in; a row is gone only if its last recurrence is older than the retention
    time, or if 200 rows of the workspace come before it; and no other table
    changes. *)
Theorem incidents_recorded ws incidents now db u db' :
  upsert_workspace_runtime_incidents inst ws incidents now db = (Ok u, db') →
  let observed id := List.filter (λ i, acceptable now i && String.eqb (ni_id i) id) incidents in
  db' = set_t_incidents (t_incidents db') db ∧
  ∃ kept, NoDup kept ∧ (Z.of_nat (length kept) <= 200) ∧ ∀ id,
    (∀ r, t_incidents db' !! id = Some r →
       explained ws (t_incidents db !! id) (observed id) r ∧
       (of_workspace inst ws r = true → retention_cutoff now <= ic_last_seen_at r ∧ id ∈ kept)) ∧
    (t_incidents db' !! id = None → t_incidents db !! id ≠ None ∨ observed id ≠ [] →
       ∃ r, explained ws (t_incidents db !! id) (observed id) r ∧ of_workspace inst ws r = true ∧
         (ic_last_seen_at r < retention_cutoff now ∨
          length kept = 200%nat ∧ ∀ id' r', id' ∈ kept → t_incidents db' !! id' = Some r' → incident_le (id', r') (id, r))).
Proof.
  intros Hrun observed. unfold upsert_workspace_runtime_incidents in Hrun. rewrite transaction_Ok in Hrun.
  apply bind_run_Ok in Hrun as ([] & db1 & Heach & Hprune). rewrite prune_run in Hprune. injection Hprune as _ <-.
  apply normalized_run in Heach as [Hdb Hl]. set (p := of_workspace inst ws). set (m := retained ws (retention_cutoff now) (t_incidents db1)).
  pose proof (keep_newest_newest p (Z.to_nat MAX_INCIDENTS_PER_WORKSPACE) m) as Hnew.
  revert Hnew. set (kept := (take _ _).*1). intros (Hnd & Hlen & Hin & Hkept & Hgone).
  cbn [t_incidents set_t_incidents]. split; [by rewrite Hdb|].
  assert (∀ id r, t_incidents db1 !! id = Some r → explained ws (t_incidents db !! id) (observed id) r) as Hex.
  { intros id r. rewrite Hl. apply record_fold_explained. }
  exists kept. split; [exact Hnd|]. split; [unfold MAX_INCIDENTS_PER_WORKSPACE in Hlen; lia|]. intros id. split.
  - intros r Hr. pose proof Hr as [Hm _]%keep_newest_lookup. apply retained_lookup in Hm as [Hr1 Hc]. split; [by apply Hex|].
    intros Hp. split; [by apply Hc|by eapply Hin].
  - intros Hnone Hsome. assert (is_Some (t_incidents db1 !! id)) as [r Hr].
    { rewrite Hl. apply merged_some. destruct Hsome; [left; by apply not_eq_None_Some|by right]. }
    exists r. split; [by apply Hex|]. destruct (m !! id) as [r'|] eqn:Hm.
    + pose proof Hm as [Hr' _]%retained_lookup. assert (r' = r) as -> by congruence.
      destruct (Hgone id r Hm Hnone) as (? & ? & ?). split; [done|]. by right.
    + destruct (p r) eqn:Hp; [|exfalso; assert (m !! id = Some r); [by apply retained_lookup; unfold p in Hp; rewrite Hp|congruence]].
      split; [done|left]. apply Z.nle_gt. intros Hc. assert (m !! id = Some r); [by apply retained_lookup|congruence].
Qed.

(** ** The history is bounded *)
Definition rows_ok (db : Db) : Prop :=
  ∀ id r, t_incidents db !! id = Some r → incident_checks r = true ∧ ic_count r <= u32_max.

(** A workspace has at most 200 rows: so many identifiers, at most, name one. *)
Definition bounded_history (db : Db) : Prop :=
  ∀ ws ids, NoDup ids → (∀ id, id ∈ ids → ∃ r, t_incidents db !! id = Some r ∧ of_workspace inst ws r = true) →
    Z.of_nat (length ids) <= MAX_INCIDENTS_PER_WORKSPACE.

Definition history_ok (db : Db) : Prop := rows_ok db ∧ bounded_history db.

Lemma upsert_each_Ok ws l db :
  rows_ok db → is_Some (t_workspaces db !! ws) → Forall well_observed l →
  ∃ db', for_each (upsert_incident inst ws) l db = (Ok (), db') ∧ rows_ok db'.
Proof.
  intros Hok Hws Hl. revert db Hok Hws. induction Hl as [|i l [Hc Hlast] Hl IH]; intros db Hok Hws; [by exists db|].
  cbn [for_each]. rewrite bind_run. unfold upsert_incident at 1.
  set (stored := match t_incidents db !! ni_id i with Some row => _ | None => _ end).
  assert (incident_checks (incident_row inst ws i) = true) as Hp by (unfold incident_checks, incident_row; cbn; bool_prop; lia).
  assert (incident_checks stored = true ∧ ic_count stored <= u32_max) as [Hs Hu].
  { unfold stored. destruct (t_incidents db !! ni_id i) as [r|] eqn:Hr; [|split; [done|]; apply Hc].
    destruct (Hok _ _ Hr) as [Hr1 Hr2]. unfold incident_checks, merge_row, incident_row in *. cbn. bool_prop. lia. }
  rewrite Hp, Hs. assert (is_some (t_workspaces db !! ws) = true) as -> by (by destruct Hws as [? ->]).
  rewrite orb_true_r. cbn [andb]. apply IH; [|done]. intros id r. cbn. rewrite lookup_insert_Some.
  intros [[<- <-]|[_ Hr]]; [done|by eapply Hok].
Qed.

Lemma normalized_observed incidents now :
  (∀ i, i ∈ incidents → ni_count i <= u32_max) → Forall well_observed (normalized_incidents incidents now).
Proof.
  intros Hi. unfold normalized_incidents. rewrite Forall_fmap, Forall_forall. intros [k e].
  rewrite btree_entries_Permutation, elem_of_map_to_list. cbn. apply normalize_into_observed; [done|].
  intros id e'. by rewrite lookup_empty.
Qed.

Lemma merged_workspace ws incidents now id row r ws' :
  merged inst ws incidents now id row = Some r → of_workspace inst ws' r = true → ws' ≠ ws →
  ∃ r0, row = Some r0 ∧ of_workspace inst ws' r0 = true.
Proof.
  rewrite merged_normalized. destruct (normalize_into _ _ _ !! id) as [e|]; [|eauto]. intros [= <-].
  unfold record_merged, of_workspace, incident_row. destruct row as [r0|]; cbn; [eauto|]. intros Ho Hne. bool_prop. congruence.
Qed.

Lemma upsert_history_ok ws incidents now db :
  history_ok db → is_Some (t_workspaces db !! ws) → (∀ i, i ∈ incidents → ni_count i <= u32_max) →
  ∃ db', upsert_workspace_runtime_incidents inst ws incidents now db = (Ok (), db') ∧ history_ok db' ∧
    t_workspaces db' = t_workspaces db.
Proof.
  intros [Hok Hb] Hws Hi. destruct (upsert_each_Ok ws (normalized_incidents incidents now) db) as (db1 & Hrun & Hok1);
    [done..|by apply normalized_observed|].
  unfold upsert_workspace_runtime_incidents, transaction. rewrite bind_run, Hrun, prune_run. eexists. split; [done|].
  apply normalized_run in Hrun as [Hdb Hl]. set (p := of_workspace inst ws). set (m := retained ws _ _).
  destruct (keep_newest_newest p (Z.to_nat MAX_INCIDENTS_PER_WORKSPACE) m) as (Hnd & Hlen & Hin & _).
  assert (∀ id r, keep_newest p (Z.to_nat MAX_INCIDENTS_PER_WORKSPACE) m !! id = Some r → t_incidents db1 !! id = Some r) as Hsub.
  { intros id r [Hr _]%keep_newest_lookup. by apply retained_lookup in Hr as [? _]. }
  split; [split|by rewrite Hdb].
  - intros id r Hr. eapply Hok1, Hsub, Hr.
  - intros ws' ids Hids Hall. cbn [t_incidents set_t_incidents] in Hall. destruct (decide (ws' = ws)) as [->|Hne].
    + revert Hlen Hin. generalize (take (Z.to_nat MAX_INCIDENTS_PER_WORKSPACE) (ranked p m)).*1. intros kept Hlen Hin.
      assert (length ids <= length kept)%nat; [|unfold MAX_INCIDENTS_PER_WORKSPACE in *; lia].
      apply NoDup_incl_length; [by apply NoDup_ListNoDup|]. intros id Hid%list_elem_of_In. destruct (Hall id Hid) as (r & Hr & Hp).
      apply list_elem_of_In. by eapply Hin.
    + apply (Hb ws' ids Hids). intros id Hid. destruct (Hall id Hid) as (r & Hr%Hsub & Hp). rewrite Hl in Hr.
      by eapply merged_workspace.
Qed.
End Recording.

(** ** Collection *)
Section Collection.
Context `{UuidText} (inst : string).

Lemma normalized_incident_facts event i :
  normalized_incident event = Some i →
  ni_count i <= u32_max ∧ (∃ u, event_uid (ni_details i) = Some u ∧ ni_id i = uuid_to_string u) ∧
  (∀ s, reason (ni_details i) = Some s → s ∈ SAFE_REASONS).
Proof.
  unfold normalized_incident. destruct (negb (bool_decide (ke_type event = _)) || _); [done|]. destruct (negb (is_informative _ _)); [done|].
  intros (o & _ & Hi)%bind_Some. apply bind_Some in Hi as (uid & Huid & [= <-]). cbn [ni_count ni_id ni_details]. split_and!.
  - destruct (option_or _ _ ≫= u32_try_from) as [c|] eqn:Hc; cbn; [|done]. apply bind_Some in Hc as (c' & _ & Hc).
    apply guard_range_Some in Hc as [-> Hc]. width.
  - by exists uid.
  - intros s. unfold event_details. cbn [reason]. destruct (startup_gate_pending event).
    { intros [= <-]. by apply (bool_decide_unpack ("ContainerCreating" ∈ SAFE_REASONS)). }
    unfold safe_reason.
    intros (s' & _ & Hs)%bind_Some. case_bool_decide as Hin; [|done]. by injection Hs as <-.
Qed.

Definition counts_ok (m : gmap string (list NewWorkspaceRuntimeIncident)) : Prop :=
  ∀ k l i, m !! k = Some l → i ∈ l → ni_count i <= u32_max.

Lemma group_events_counts m events : counts_ok m → counts_ok (group_events m events).
Proof.
  revert m. induction events as [|event rest IH]; intros m Hm; [done|]. cbn.
  destruct (workspace_short_id event) as [short|]; [|by apply IH]. destruct (normalized_incident event) as [i|] eqn:Hi; [|by apply IH].
  apply IH. intros k l j. rewrite lookup_insert_Some. intros [[<- <-]|[_ Hl]]; [|by eapply Hm].
  intros [Hj| ->%list_elem_of_singleton]%elem_of_app.
  - destruct (m !! _) as [l|] eqn:Hl; [by eapply Hm|by apply elem_of_nil in Hj].
  - by apply normalized_incident_facts in Hi as [? _].
Qed.

Lemma route_found route db w db' :
  get_workspace_by_route_key inst route db = (Ok w, db') → db' = db ∧ is_Some (t_workspaces db !! ws_id w).
Proof.
  unfold get_workspace_by_route_key. intros Hrun. run_step Hrun.
  destruct (List.find _ _) as [[id row]|] eqn:Hf; [|done]. injection Hrun as Hd <-. split; [done|].
  apply decode_workspace_inv in Hd as [-> _]. apply List.find_some in Hf as [Hin _]. exists row.
  by apply elem_of_map_to_list, list_elem_of_In.
Qed.

(** A stage of the collection that keeps the history and never fails to store it. *)
Definition stage_ok (r : result string ()) (db' : Db) : Prop := r ≠ Err "persistence" ∧ history_ok inst db'.

Lemma record_group_ok now group db r db' :
  history_ok inst db → (∀ i, i ∈ group.2 → ni_count i <= u32_max) → record_group inst now group db = (r, db') → stage_ok r db'.
Proof.
  intros Hok Hc. unfold record_group. destruct (get_workspace_by_route_key _ _ db) as [[w|e] db1] eqn:Hw.
  - apply route_found in Hw as [-> Hws]. destruct (upsert_history_ok inst (ws_id w) group.2 now db) as (db2 & -> & Hok2 & _); [done..|].
    by intros [= <- <-].
  - assert (db1 = db) as ->.
    { revert Hw. unfold get_workspace_by_route_key. rewrite bind_run; cbn. destruct (List.find _ _) as [[]|]; by intros [= _ <-]. }
    destruct e; intros [= <- <-]; done.
Qed.

Lemma record_groups_ok now groups db r db' :
  history_ok inst db → (∀ g i, g ∈ groups → i ∈ g.2 → ni_count i <= u32_max) →
  record_groups inst now groups db = (r, db') → stage_ok r db'.
Proof.
  revert db. induction groups as [|g groups IH]; intros db Hok Hc; cbn [record_groups]; [by intros [= <- <-]|].
  destruct (record_group inst now g db) as [[u|e] db1] eqn:Hg; apply record_group_ok in Hg as [Hne Hok1];
    try done; try (intros i; apply Hc, elem_of_cons; by left).
  - apply IH; [done|]. intros g' i Hg'. apply Hc, elem_of_cons. by right.
  - by intros [= <- <-].
Qed.

Lemma collect_pages_ok now answers db r db' :
  history_ok inst db → collect_pages inst now answers db = (r, db') → stage_ok r db'.
Proof.
  revert db. induction answers as [|[page|] answers IH]; intros db Hok; cbn [collect_pages]; [by intros [= <- <-]| |by intros [= <- <-]].
  destruct (record_groups _ _ _ db) as [[u|e] db1] eqn:Hg; apply record_groups_ok in Hg as [Hne Hok1]; try done.
  2,4: intros [k l] i; rewrite btree_entries_Permutation, elem_of_map_to_list; cbn; apply (group_events_counts ∅);
    intros ? ? ?; by rewrite lookup_empty.
  - case_bool_decide; [by intros [= <- <-]|by apply IH].
  - by intros [= <- <-].
Qed.
End Collection.

(** ** Listing *)
Section Listing.
Context `{UuidText} (inst : string).

Definition decoded (kv : string * IncidentRow) : WorkspaceRuntimeIncident :=
  mkIncident kv.1 (ic_details kv.2) (ic_last_seen_at kv.2) (ic_workspace_id kv.2) (ic_category kv.2) (ic_observed_at kv.2)
    (ic_count kv.2).

Lemma collect_decoded l : (∀ kv, kv ∈ l → 0 < ic_count kv.2 <= u32_max) →
  collect (λ kv : string * IncidentRow, decode_incident kv.1 kv.2) l = Ok (decoded <$> l).
Proof.
  intros Hl. apply collect_Ok, Forall2_fmap_r, Forall_Forall2_diag, Forall_forall. intros kv Hkv. unfold decode_incident.
  assert (u32_try_from (ic_count kv.2) = Some (ic_count kv.2)) as ->; [|done].
  apply guard_range_Some. split; [done|]. pose proof (Hl kv Hkv). width.
Qed.

Lemma group_fold limit incidents m ws :
  (length (default [] (m !! ws)) <= limit)%nat →
  default [] (foldl (push_incident limit) m incidents !! ws) =
  take limit (default [] (m !! ws) ++ List.filter (λ i, bool_decide (wi_workspace_id i = ws)) incidents).
Proof.
  revert m. induction incidents as [|i incidents IH]; intros m Hlen; cbn [foldl List.filter].
  - by rewrite app_nil_r, take_ge.
  - case_bool_decide as Hi.
    + subst ws. unfold push_incident at 2. rewrite IH; rewrite lookup_insert_eq; cbn [default from_option];
        destruct (Nat.ltb_spec (length (default [] (m !! wi_workspace_id i))) limit); rewrite ?length_app; cbn; try lia.
      * by rewrite <-app_assoc.
      * rewrite !take_app_ge, !(proj2 (Nat.sub_0_le _ _)) by lia. done.
      * rewrite length_app. cbn. lia.
    + unfold push_incident at 2. rewrite IH; by rewrite lookup_insert_ne.
Qed.

Context {Hlaws : UuidTextLaws}.

#[local] Instance listed_le_trans : Transitive listed_le.
Proof using Hlaws.
  intros a b c [[N1 L1]|[E1 L1]] [[N2 L2]|[E2 L2]]; unfold listed_le.
  - left. split; [|by etrans]. intros E. rewrite <-E in L2. apply N1, (inj uuid_to_string). by apply (anti_symm String.le).
  - left. by rewrite <-E2.
  - left. by rewrite E1.
  - right. split; [congruence|by etrans].
Qed.

Lemma listed_le_total a b : listed_le a b ∨ listed_le b a.
Proof.
  unfold listed_le. destruct (decide (ic_workspace_id a.2 = ic_workspace_id b.2)) as [E|N].
  - destruct (incident_le_total a b); [left|right]; right; split; congruence || done.
  - destruct (base.total String.le (uuid_to_string (ic_workspace_id a.2)) (uuid_to_string (ic_workspace_id b.2)));
      [left|right]; left; split; congruence || done.
Qed.

Lemma incident_le_antisym (m : gmap string IncidentRow) a b :
  m !! a.1 = Some a.2 → m !! b.1 = Some b.2 → incident_le a b → incident_le b a → a = b.
Proof.
  intros Ha Hb [?|[E [[N L]|[C L]]]] [?|[E' [[N' L']|[C' L']]]]; try lia; try congruence.
  - destruct N. apply (inj category_as_str). by apply (anti_symm String.le).
  - assert (a.1 = b.1) as Hid by (by apply (anti_symm String.le)). rewrite Hid in Ha. destruct a, b; cbn in *. congruence.
Qed.

(** The rows of one workspace, in the order of the whole listing, are its rows in
    the order of the history. *)
Lemma listed_of_workspace (q : IncidentRow → bool) (m : gmap string IncidentRow) ws :
  List.filter (λ kv : string * IncidentRow, bool_decide (ic_workspace_id kv.2 = ws))
    (merge_sort listed_le (List.filter (λ kv : string * IncidentRow, q kv.2) (map_to_list m)))
  = ranked (λ r, q r && bool_decide (ic_workspace_id r = ws)) m.
Proof using Hlaws.
  set (l := List.filter _ (map_to_list m)).
  assert (∀ kv, kv ∈ List.filter (λ kv : string * IncidentRow, bool_decide (ic_workspace_id kv.2 = ws)) (merge_sort listed_le l) →
            m !! kv.1 = Some kv.2 ∧ ic_workspace_id kv.2 = ws) as Hin.
  { intros [k r] [Hk Hws]%list_elem_of_In%filter_In. apply list_elem_of_In in Hk. rewrite merge_sort_Permutation in Hk.
    apply list_elem_of_In, filter_In in Hk as [Hk%list_elem_of_In%elem_of_map_to_list _]. cbn in *. by bool_prop. }
  apply (StronglySorted_unique_strong incident_le).
  - intros a b [Ha _]%Hin Hb. destruct b as [kb rb]. apply elem_of_ranked in Hb as [Hb _].
    by apply (incident_le_antisym m).
  - assert (StronglySorted listed_le (List.filter (λ kv : string * IncidentRow, bool_decide (ic_workspace_id kv.2 = ws))
              (merge_sort listed_le l))) as Hs
      by (apply StronglySorted_list_filter, StronglySorted_merge_sort; [apply _|intros a b; apply listed_le_total]).
    revert Hin Hs. generalize (List.filter (λ kv : string * IncidentRow, bool_decide (ic_workspace_id kv.2 = ws)) (merge_sort listed_le l)).
    intros k Hin Hs. induction Hs as [|a k Hk IH Ha]; [constructor|]. constructor; [apply IH; intros b Hb; apply Hin, elem_of_cons; by right|].
    rewrite Forall_forall in Ha |- *. intros b Hb. destruct (Hin a) as [_ Ea]; [apply elem_of_cons; by left|].
    destruct (Hin b) as [_ Eb]; [apply elem_of_cons; by right|]. destruct (Ha b Hb) as [[N _]|[_ ?]]; [congruence|done].
  - apply ranked_sorted.
  - unfold ranked. rewrite (merge_sort_Permutation incident_le).
    etrans; [apply list_filter_Permutation, merge_sort_Permutation|]. unfold l. by rewrite list_filter_filter.
Qed.

(** A listing gives, for each workspace asked for, the newest of its rows that are
    not too old. *)
Lemma listing_run ids now limit db :
  rows_ok db → Z.of_nat (length ids) <= MAX_BATCH_WORKSPACES →
  ∃ m, list_workspace_runtime_incidents inst ids now limit db = (Ok m, db) ∧
    ∀ ws, ws ∈ ids →
      default [] (m !! ws) =
      take (Nat.min limit (Z.to_nat MAX_INCIDENTS_PER_WORKSPACE))
        (decoded <$> ranked (λ r, String.eqb (ic_installation_id r) inst && (retention_cutoff now <=? ic_last_seen_at r)
                                  && bool_decide (ic_workspace_id r ∈ ids) && bool_decide (ic_workspace_id r = ws)) (t_incidents db)).
Proof using Hlaws.
  intros Hok Hlen. unfold list_workspace_runtime_incidents. destruct (bool_decide (ids = [])) eqn:Hids; bool_prop.
  { exists ∅. subst ids. split; [done|]. by intros ws ?%elem_of_nil. }
  destruct (Nat.eqb_spec limit 0) as [->|Hl]; cbn [orb].
  { exists ∅. split; [done|]. intros ws _. rewrite lookup_empty. done. }
  rewrite (proj2 (Z.ltb_ge _ _)) by done.
  set (q := λ r, String.eqb (ic_installation_id r) inst && (retention_cutoff now <=? ic_last_seen_at r)
                 && bool_decide (ic_workspace_id r ∈ ids)).
  rewrite bind_run. unfold reads. set (rows := merge_sort listed_le _). cbv beta iota.
  rewrite bind_run. unfold lift. rewrite collect_decoded.
  2:{ intros [k r]. unfold rows. rewrite merge_sort_Permutation. intros [Hk _]%list_elem_of_In%filter_In.
      apply list_elem_of_In, elem_of_map_to_list, Hok in Hk as [Hc Hu]. unfold incident_checks in Hc. bool_prop. cbn. lia. }
  eexists. split; [done|]. intros ws Hws. unfold group_incidents. rewrite group_fold by (rewrite lookup_empty; cbn; lia).
  rewrite lookup_empty. cbn [default from_option app]. f_equal.
  rewrite <-(listed_of_workspace q). change (merge_sort listed_le _) with rows. generalize rows. clear. intros rows. induction rows as [|kv l IH]; [done|]. cbn.
  destruct (bool_decide (ic_workspace_id kv.2 = ws)); cbn; by rewrite IH.
Qed.

(** C40: the history of incidents stays bounded and readable: however the collection
    of events ends, a workspace has at most 200 stored incidents and storing them
    never fails; and reading the incidents of up to 100 workspaces succeeds and
    gives each of them its newest ones within the retention time, as many as asked
    for and at most 200. *)
Theorem incident_history_bounded clock answers db r db' :
  history_ok inst db → collect_once inst clock answers db = (r, db') →
  history_ok inst db' ∧ r ≠ Err "persistence" ∧
  ∀ ids now limit, Z.of_nat (length ids) <= 100 →
    ∃ m, list_workspace_runtime_incidents inst ids now limit db' = (Ok m, db') ∧
      ∀ ws, ws ∈ ids →
        default [] (m !! ws) =
        take (Nat.min limit 200)
          (decoded <$> ranked (λ r, String.eqb (ic_installation_id r) inst && (retention_cutoff now <=? ic_last_seen_at r)
                                    && bool_decide (ic_workspace_id r ∈ ids) && bool_decide (ic_workspace_id r = ws)) (t_incidents db')).
Proof using Hlaws.
  intros Hok Hrun. assert (stage_ok inst r db') as [Hne Hok'].
  { revert Hrun. destruct clock as [now|]; cbn; [by apply collect_pages_ok|]. by intros [= <- <-]. }
  split_and!; [done..|]. intros ids now limit Hlen. apply listing_run; [apply Hok'|done].
Qed.
End Listing.

(** ** Witnesses *)
Module IncidentSample.
#[local] Existing Instance decimal_uuid_text.
(** The Pod of the sample workspace was evicted, twice so far. *)
Definition event (uid : string) (count last_seen : Z) : KubeEvent := {|
  ke_uid := Some uid; ke_creation_timestamp := None; ke_object_kind := Some "Pod";
  ke_object_namespace := Some WORKSPACE_NAMESPACE; ke_object_name := Some "w-1000000000000001-0"; ke_object_uid := Some "77";
  ke_field_path := Some "spec.containers{workspace}"; ke_type := Some "Warning"; ke_reason := Some "Evicted";
  ke_message := Some "The node was low on resource: memory. Threshold quantity: 100Mi."; ke_event_time := None;
  ke_first_timestamp := Some 1000; ke_last_timestamp := Some last_seen; ke_count := Some count; ke_series := None |}.
Definition pages : list (option EventPage) :=
  [Some (mkEventPage [event "5" 2 1010; event "6" 1 1000] (Some "next")); Some (mkEventPage [event "5" 3 1020] None)].
Definition incidents : list NewWorkspaceRuntimeIncident := omap normalized_incident [event "5" 3 1020; event "5" 2 1010].
End IncidentSample.

Example incident_classified :
  runtime_event_category (Some "FailedScheduling") (Some "1 node(s) had volume node affinity conflict") = Scheduling ∧
  runtime_event_category (Some "FailedScheduling")
    (Some "waiting for ephemeral volume controller to create persistentvolumeclaim") = TemporaryStorageProvisioning ∧
  diagnostic "Pod ephemeral local storage usage exceeds the total limit of containers 3Gi. "
    = Some (PodLocalEphemeralLimit (3 * 2 ^ 30)) ∧
  workspace_short_id (IncidentSample.event "5" 1 1) = Some (bytes "1000000000000001").
Proof. by vm_compute. Qed.

Lemma incidents_recorded_witness :
  ∃ db' r,
    upsert_workspace_runtime_incidents "inst" ActionSample.id IncidentSample.incidents 1030 ActionSample.db = (Ok (), db') ∧
    t_incidents db' !! "5" = Some r ∧ ic_count r = 3 ∧
    explained "inst" ActionSample.id None
      (List.filter (λ i, acceptable 1030 i && String.eqb (ni_id i) "5") IncidentSample.incidents) r.
Proof.
  eexists _, _. split; [vm_compute; reflexivity|]. split; [vm_compute; reflexivity|]. split; [reflexivity|].
  destruct (incidents_recorded "inst" ActionSample.id IncidentSample.incidents 1030 ActionSample.db ()
    (upsert_workspace_runtime_incidents "inst" ActionSample.id IncidentSample.incidents 1030 ActionSample.db).2)
    as (_ & kept & _ & _ & Hkept); [vm_compute; reflexivity|].
  apply (proj1 (Hkept "5")). vm_compute. reflexivity.
Defined.

Lemma empty_history_ok : history_ok "inst" ActionSample.db.
Proof.
  assert (∀ id, t_incidents ActionSample.db !! id = None) as Hnone by (intros id; apply lookup_empty).
  split; [intros id r Hr; by rewrite Hnone in Hr|]. intros ws [|id ids] _ Hall; [done|].
  destruct (Hall id) as (r & Hr & _); [apply elem_of_cons; by left|]. by rewrite Hnone in Hr.
Qed.

Lemma incident_history_bounded_witness :
  let U := decimal_uuid_text in
  ∃ db' m, collect_once "inst" (Some 1030) IncidentSample.pages ActionSample.db = (Ok (), db') ∧
    list_workspace_runtime_incidents "inst" [ActionSample.id] 1040 1 db' = (Ok m, db') ∧
    length (default [] (m !! ActionSample.id)) = 1%nat.
Proof.
  intros U. exists (collect_once "inst" (Some 1030) IncidentSample.pages ActionSample.db).2.
  destruct (@incident_history_bounded decimal_uuid_text "inst" decimal_uuid_text_laws (Some 1030) IncidentSample.pages ActionSample.db
    (Ok ()) (collect_once "inst" (Some 1030) IncidentSample.pages ActionSample.db).2 empty_history_ok) as (_ & _ & Hlist);
    [vm_compute; reflexivity|].
  destruct (Hlist [ActionSample.id] 1040 1%nat) as (m & Hm & Hws); [done|]. exists m.
  split; [vm_compute; reflexivity|]. split; [exact Hm|]. rewrite Hws by (apply elem_of_cons; by left). vm_compute. reflexivity.
Defined.
