(* ===== verification/Names.v ===== *)
(** * Names of a workspace's objects ([src/workspace_runtime.rs], [InstallationId]
    of [src/config/mod.rs])

    The names in the cluster and the public route of a workspace are computed from
    the installation and the workspace's short identifier, and stored nowhere. *)
From S2P Require Import Prelude Text Json Auth Quota Templates Workspaces Errors ShrinkOperation RuntimeEvents Quantity Database WorkspaceStore JobStore Events JobQueue WorkspaceActions Incidents.

Definition MAX_INSTALLATION_ID_LENGTH : Z := 20.

(** [InstallationId::from_str]; the error is not inspected. *)
Definition installation_id_from_str (value : string) : option string :=
  if valid_dns_label value MAX_INSTALLATION_ID_LENGTH then Some value else None.

Record WorkspaceResourceNames := mkResourceNames {
  stateful_set : string;
  service : string;
  ssh_service : string;
  service_account : string;
  workspace_config : string;
  http_proxy_config : string;
  ssh_identity_secret : string;
  environment_secret : string;
  environment_config_map : string;
  files_secret : string;
  files_config_map : string;
  network_policy : string;
  web_shell_ingress : string;
  web_shell_envoy_filter : string;
  data_claim_template : string;
}.

Definition for_prefix (prefix : string) : WorkspaceResourceNames :=
  let named suffix := prefix +:+ "-" +:+ suffix in {|
  stateful_set := prefix;
  service := prefix;
  ssh_service := named "ssh";
  service_account := named "admin";
  workspace_config := named "config";
  http_proxy_config := named "http-routes";
  ssh_identity_secret := named "ssh-identity";
  environment_secret := named "environment-secret";
  environment_config_map := named "environment-config";
  files_secret := named "files-secret";
  files_config_map := named "files-config";
  network_policy := named "ingress";
  web_shell_ingress := named "web-shell";
  web_shell_envoy_filter := named "ttyd-san";
  data_claim_template := "workspace-data" |}.

Definition pod_ordinal_zero (n : WorkspaceResourceNames) : string := stateful_set n +:+ "-0".
Definition data_pvc_ordinal_zero (n : WorkspaceResourceNames) : string :=
  data_claim_template n +:+ "-" +:+ stateful_set n +:+ "-0".
Definition scratch_pvc (n : WorkspaceResourceNames) : string := stateful_set n +:+ "-scratch".
Definition startup_gate_config_map (n : WorkspaceResourceNames) : string := stateful_set n +:+ "-startup-gate".

(** The names the validation goes through. *)
Definition checked_names (n : WorkspaceResourceNames) : list string := [
  stateful_set n; service n; ssh_service n; service_account n; workspace_config n; http_proxy_config n;
  ssh_identity_secret n; environment_secret n; environment_config_map n; files_secret n; files_config_map n;
  network_policy n; web_shell_ingress n; web_shell_envoy_filter n; data_claim_template n; pod_ordinal_zero n;
  data_pvc_ordinal_zero n; startup_gate_config_map n].

Definition resource_names_validate (n : WorkspaceResourceNames) : bool := forallb (λ name, valid_dns_label name 63) (checked_names n).

Record WorkspaceRuntimeNames := mkRuntimeNames {
  namespace : string;
  resource_prefix : string;
  route_key : string;
  resources_of : WorkspaceResourceNames;
}.

(** The only error is [InvalidIdentity]. *)
Definition for_workspace_names (inst short_id : string) : option WorkspaceRuntimeNames :=
  let prefix := "w-" +:+ short_id in
  let route := inst +:+ "-" +:+ short_id in
  let names := for_prefix prefix in
  if valid_dns_label WORKSPACE_NAMESPACE 63 && valid_dns_label short_id 40 && valid_dns_label prefix 40
     && valid_dns_label route 63 && resource_names_validate names
  then Some (mkRuntimeNames WORKSPACE_NAMESPACE prefix route names) else None.

Definition web_shell_path (n : WorkspaceRuntimeNames) : string := "/shell/" +:+ route_key n +:+ "/".
Definition cluster_admin_binding_name (inst : string) (n : WorkspaceRuntimeNames) : string :=
  "mwc-" +:+ inst +:+ "-" +:+ resource_prefix n +:+ "-admin".

(** ** Labels *)
Definition label_edge (b : Z) : bool := is_ascii_lowercase b || is_ascii_digit b.
Definition dns_byte (b : Z) : bool := label_edge b || (b =? c_dash).

(** [workspace_short_id_for] gives sixteen hexadecimal digits. *)
Definition hex16 (s : string) : Prop :=
  length (bytes s) = 16%nat ∧ forallb (λ b, is_ascii_digit b || in_range 97 102 b) (bytes s) = true.

Lemma label_byte_small b : dns_byte b = true → 0 <= b < 128.
Proof. unfold dns_byte, label_edge, is_ascii_lowercase, is_ascii_digit, in_range, c_dash. bool_prop. lia. Qed.

(** In well-formed UTF-8 an ASCII character is its byte: a class of ASCII
    characters is decided on either. *)
Section Ascii.
Context (p : Z → bool) (Hp : ∀ c, p c = true → 0 <= c < 128).

Lemma decode_ascii bs : forallb p bs = true → decode_utf8 bs = bs.
Proof using Hp.
  induction bs as [|b bs IH]; [done|]. cbn. intros [Hb%Hp Hbs]%andb_true_iff.
  destruct (Z.ltb_spec b 128); [|lia]. by rewrite IH.
Qed.

Lemma land_low x k : 0 <= k → Z.land x (Z.ones k) = x mod 2 ^ k.
Proof. apply Z.land_ones. Qed.

Lemma ascii_large c : 128 <= c → p c = false.
Proof using Hp. intros Hc. destruct (p c) eqn:E; [|done]. apply Hp in E. lia. Qed.

Lemma ascii_of_decoded n bs : (length bs <= n)%nat → valid_utf8 bs = true →
  forallb p (decode_utf8 bs) = true → forallb p bs = true.
Proof using Hp.
  revert bs. induction n as [|n IH]; intros [|a bs] Hn; try done; cbn in Hn; [lia|].
  cbn [valid_utf8 decode_utf8].
  destruct ((0 <=? a) && (a <=? 127)) eqn:E1.
  { bool_prop. destruct (Z.ltb_spec a 128); [|lia]. cbn. intros Hv [Ha Hbs]%andb_true_iff. rewrite Ha. apply IH; [lia|done..]. }
  destruct ((194 <=? a) && (a <=? 223)) eqn:E2.
  { bool_prop. destruct (Z.ltb_spec a 128), (Z.ltb_spec a 224); try lia. destruct bs as [|b bs]; [done|].
    intros _. cbn [forallb]. rewrite ascii_large; [done|].
    change 31 with (Z.ones 5). change 63 with (Z.ones 6). rewrite !land_low by lia. Z.to_euclidean_division_equations. lia. }
  destruct ((224 <=? a) && (a <=? 239)) eqn:E3.
  { bool_prop. destruct (Z.ltb_spec a 128), (Z.ltb_spec a 224), (Z.ltb_spec a 240); try lia. destruct bs as [|b [|c bs]]; [done..|].
    intros Hv. cbn [forallb]. rewrite ascii_large; [done|].
    change 15 with (Z.ones 4). change 63 with (Z.ones 6). rewrite !land_low by lia.
    destruct (Z.eqb_spec a 224); [bool_prop|]; Z.to_euclidean_division_equations; lia. }
  destruct ((240 <=? a) && (a <=? 244)) eqn:E4; [|done].
  bool_prop. destruct (Z.ltb_spec a 128), (Z.ltb_spec a 224), (Z.ltb_spec a 240); try lia. destruct bs as [|b [|c [|d bs]]]; [done..|].
  intros Hv. cbn [forallb]. rewrite ascii_large; [done|].
  change 7 with (Z.ones 3). change 63 with (Z.ones 6). rewrite !land_low by lia.
  destruct (Z.eqb_spec a 240); [bool_prop|]; Z.to_euclidean_division_equations; lia.
Qed.
End Ascii.

(** A label of at most [n] bytes. *)
Definition label (n : Z) (s : string) : Prop :=
  forallb dns_byte (bytes s) = true ∧ starts_with label_edge (bytes s) = true ∧ ends_with label_edge (bytes s) = true
  ∧ Z.of_nat (length (bytes s)) <= n.

Lemma length_bytes s : Z.of_nat (length (bytes s)) = len s.
Proof. unfold bytes, len. rewrite length_map. induction s as [|c s IH]; [done|]. cbn. lia. Qed.

Lemma valid_dns_label_alt s n :
  valid_dns_label s n = negb (bool_decide (s = "")) && (len s <=? n) && forallb dns_byte (chars s)
                        && starts_with label_edge (chars s) && ends_with label_edge (chars s).
Proof. done. Qed.

Lemma label_valid n s : label n s → valid_dns_label s n = true.
Proof.
  intros (Hall & Hs & He & Hn). rewrite valid_dns_label_alt. unfold chars. rewrite (decode_ascii _ label_byte_small) by done. rewrite length_bytes in Hn. rewrite Hall, Hs, He, !andb_true_r. bool_prop. split; [|lia].
  by intros ->.
Qed.

Lemma valid_label n s : valid_utf8 (bytes s) = true → valid_dns_label s n = true → label n s.
Proof.
  rewrite valid_dns_label_alt. unfold chars. intros Hu. bool_prop. intros ((((_ & Hn) & Hall) & Hs) & He).
  pose proof (ascii_of_decoded _ label_byte_small _ _ (le_n _) Hu Hall) as Hb. rewrite (decode_ascii _ label_byte_small) in Hs, He by done.
  split_and!; [done..|]. by rewrite length_bytes.
Qed.

Lemma starts_with_app p l k : starts_with p l = true → starts_with p (l ++ k) = true.
Proof. by destruct l. Qed.

Lemma ends_with_app p l k : ends_with p k = true → ends_with p (l ++ k) = true.
Proof. unfold ends_with. rewrite last_app. by destruct (last k). Qed.

(** Labels are joined by a dash. *)
Lemma label_join a b n m : label n a → label m b → label (n + m + 1) (a +:+ "-" +:+ b).
Proof.
  intros (Ha & Hs & _ & Hn) (Hb & _ & He & Hm). unfold label. rewrite !bytes_app, !forallb_app, !length_app, Ha, Hb.
  split_and!; [done|by apply starts_with_app|by apply ends_with_app, ends_with_app|cbn [bytes length]; cbn; lia].
Qed.

Lemma label_mono n m s : n <= m → label n s → label m s.
Proof. intros Hnm (Ha & Hs & He & Hn). split_and!; [done..|lia]. Qed.

Lemma hex_edge b : is_ascii_digit b || in_range 97 102 b = true → label_edge b = true.
Proof. unfold label_edge, is_ascii_lowercase, in_range. bool_prop. lia || naive_solver lia. Qed.

Lemma hex16_label s : hex16 s → label 16 s.
Proof.
  intros [Hl Hall]. assert (∀ b, b ∈ bytes s → label_edge b = true) as He by (intros b Hb; by apply hex_edge, (forallb_elem _ _ _ Hall)).
  split_and!; [| | |lia].
  - apply forallb_forall. intros b Hb%list_elem_of_In. unfold dns_byte. by rewrite He.
  - destruct (bytes s) as [|b bs]; [done|]. apply He. left.
  - unfold ends_with. destruct (last (bytes s)) as [b|] eqn:E; [by apply He, last_Some_elem_of|].
    apply last_None in E. by rewrite E in Hl.
Qed.

(** ** Objects of different workspaces *)

(** The names that exist once per workspace; only the template of the volume
    claims has the same name everywhere. *)
Definition own_names (n : WorkspaceResourceNames) : list string := [
  stateful_set n; ssh_service n; service_account n; workspace_config n; http_proxy_config n; ssh_identity_secret n;
  environment_secret n; environment_config_map n; files_secret n; files_config_map n; network_policy n; web_shell_ingress n;
  web_shell_envoy_filter n; pod_ordinal_zero n; data_pvc_ordinal_zero n; scratch_pvc n; startup_gate_config_map n].

#[export] Instance bytes_inj : Inj (=) (=) bytes.
Proof. intros s t E. by rewrite <-(string_of_bytes_bytes s), <-(string_of_bytes_bytes t), E. Qed.

Lemma append_inj a b c d : length (bytes a) = length (bytes b) → a +:+ c = b +:+ d → a = b ∧ c = d.
Proof.
  intros Hl E%(f_equal bytes). rewrite !bytes_app in E. apply app_inj_1 in E as [Ea Ec]; [|done]. by split; apply (inj bytes).
Qed.

(** Every own name is the prefix with a suffix, except the volume claim. *)
Lemma own_name_form s name : name ∈ own_names (for_prefix ("w-" +:+ s)) →
  (∃ suffix, name = "w-" +:+ s +:+ suffix) ∨ name = "workspace-data-w-" +:+ s +:+ "-0".
Proof.
  assert (∀ t, t = t +:+ "") as Hnil by (intros t; induction t as [|c t IH]; [done|]; exact (f_equal (String c) IH)).
  unfold own_names. intros Hn. repeat apply elem_of_cons in Hn as [->|Hn]; [..|by apply elem_of_nil in Hn].
  all: cbn; first [by right | left; eexists; repeat f_equal; first [done | apply Hnil]].
Qed.

Lemma own_names_apart s s' name : hex16 s → hex16 s' →
  name ∈ own_names (for_prefix ("w-" +:+ s)) → name ∈ own_names (for_prefix ("w-" +:+ s')) → s = s'.
Proof.
  intros [Hl _] [Hl' _] [[x ->]| ->]%own_name_form [[y E]|E]%own_name_form; cbn in E; simplify_eq.
  all: by apply append_inj in E as [-> _]; [|by rewrite Hl, Hl'].
Qed.

Lemma append_inj_same s x y : s +:+ x = s +:+ y → x = y.
Proof. by intros [_ E]%append_inj. Qed.

Lemma append_inj_end a b c d : length (bytes c) = length (bytes d) → a +:+ c = b +:+ d → a = b ∧ c = d.
Proof.
  intros Hl E%(f_equal bytes). rewrite !bytes_app in E. apply app_inj_2 in E as [Ea Ec]; [|done]. by split; apply (inj bytes).
Qed.

Lemma append_nil_ne s x : x ≠ "" → s ≠ s +:+ x.
Proof. intros Hx E%(f_equal (length ∘ bytes)). cbn in E. rewrite bytes_app, length_app in E. destruct x; [done|]. cbn in E. lia. Qed.

Lemma own_names_NoDup s : NoDup (own_names (for_prefix ("w-" +:+ s))).
Proof.
  unfold own_names. repeat (apply NoDup_cons; split); [..|apply NoDup_nil_2].
  all: intros Hn; repeat (apply elem_of_cons in Hn as [E|Hn]; [cbn in E; try discriminate E|]); try by apply elem_of_nil in Hn.
  all: injection E as E; first [by apply append_inj_same in E | by apply append_nil_ne in E].
Qed.

Lemma prefix_names_valid p : label 18 p → resource_names_validate (for_prefix p) = true.
Proof.
  intros Hp. assert (∀ n suffix, n <= 44 → label n suffix → valid_dns_label (p +:+ "-" +:+ suffix) 63 = true) as Hnamed.
  { intros n suffix Hn Hl. apply label_valid. eapply (label_mono (18 + n + 1)); [lia|]. by apply label_join. }
  assert (valid_dns_label p 63 = true) as H0 by (apply label_valid; by eapply label_mono; [|exact Hp]).
  assert (valid_dns_label ("workspace-data" +:+ "-" +:+ p +:+ "-0") 63 = true) as Hpvc.
  { apply label_valid. eapply (label_mono (14 + (18 + 1 + 1) + 1)); [lia|]. apply label_join; [by vm_compute|].
    by apply (label_join p "0"); [|vm_compute]. }
  unfold resource_names_validate, checked_names, pod_ordinal_zero, data_pvc_ordinal_zero, startup_gate_config_map. cbn [forallb andb stateful_set service ssh_service service_account workspace_config
    http_proxy_config ssh_identity_secret environment_secret environment_config_map files_secret files_config_map network_policy
    web_shell_ingress web_shell_envoy_filter data_claim_template for_prefix].
  rewrite H0, Hpvc. rewrite !(Hnamed 18) by first [lia | by vm_compute]. cbn [andb].
  assert (valid_dns_label "workspace-data" 63 = true) as -> by by vm_compute. cbn [andb].
  assert (valid_dns_label (p +:+ "-0") 63 = true) as -> by (apply (Hnamed 18 "0"); [lia|by vm_compute]).
  rewrite andb_true_l, andb_true_r. apply (Hnamed 18 "startup-gate"); [lia|by vm_compute].
Qed.

Lemma valid_names inst s : label 20 inst → hex16 s →
  for_workspace_names inst s =
  Some (mkRuntimeNames WORKSPACE_NAMESPACE ("w-" +:+ s) (inst +:+ "-" +:+ s) (for_prefix ("w-" +:+ s))).
Proof.
  intros Hinst Hs%hex16_label. unfold for_workspace_names.
  assert (label 18 ("w-" +:+ s)) as Hp by (apply (label_join "w" s 1 16); [by vm_compute|done]).
  rewrite prefix_names_valid, !label_valid; [done| | |..|done].
  - eapply label_mono; [|exact (label_join _ _ _ _ Hinst Hs)]. lia.
  - by eapply label_mono; [|exact Hp].
  - by eapply label_mono; [|exact Hs].
  - by vm_compute.
Qed.

Lemma pod_name_recognised e s : hex16 s → ke_object_kind e = Some "Pod" → ke_object_namespace e = Some WORKSPACE_NAMESPACE →
  ke_object_name e = Some (pod_ordinal_zero (for_prefix ("w-" +:+ s))) → workspace_short_id e = Some (bytes s).
Proof.
  intros [Hl Hall] Hk Hn Ho. unfold workspace_short_id. rewrite Hk, Hn, Ho. cbn [negb orb].
  rewrite !bool_decide_eq_true_2 by done. cbn [negb orb mbind option_bind].
  assert (bytes (pod_ordinal_zero (for_prefix ("w-" +:+ s))) = bytes "w-" ++ bytes s ++ bytes "-0") as ->
    by (cbn [pod_ordinal_zero stateful_set for_prefix]; unfold pod_ordinal_zero; cbn [stateful_set for_prefix];
        by rewrite !bytes_app, <-app_assoc).
  rewrite (proj2 (strip_prefix_Some _ _ _) eq_refl). cbn [mbind option_bind].
  rewrite (proj2 (strip_suffix_Some _ _ _) eq_refl). cbn [mbind option_bind]. by rewrite Hl, Hall.
Qed.

(** The names of a workspace are valid for every installation and identify it:
    they can always be computed, no two objects of a workspace share a name, the
    objects of different workspaces never do, and route and cluster-wide binding
    also tell installations apart; an event of the workspace's Pod is attributed to
    it. *)
Theorem names_identify_workspace inst s :
  installation_id_from_str inst = Some inst → valid_utf8 (bytes inst) = true → hex16 s →
  ∃ n, for_workspace_names inst s = Some n ∧ NoDup (own_names (resources_of n)) ∧
    (∀ e, ke_object_kind e = Some "Pod" → ke_object_namespace e = Some (namespace n) →
       ke_object_name e = Some (pod_ordinal_zero (resources_of n)) → workspace_short_id e = Some (bytes s)) ∧
    ∀ inst' s' n', installation_id_from_str inst' = Some inst' → valid_utf8 (bytes inst') = true → hex16 s' →
      for_workspace_names inst' s' = Some n' →
      (∀ name, name ∈ own_names (resources_of n) → name ∈ own_names (resources_of n') → s = s') ∧
      (route_key n = route_key n' → inst = inst' ∧ s = s') ∧
      (cluster_admin_binding_name inst n = cluster_admin_binding_name inst' n' → inst = inst' ∧ s = s').
Proof.
  unfold installation_id_from_str. intros Hinst Hu Hs. destruct (valid_dns_label inst _) eqn:Hv; [|done].
  exists (mkRuntimeNames WORKSPACE_NAMESPACE ("w-" +:+ s) (inst +:+ "-" +:+ s) (for_prefix ("w-" +:+ s))).
  split_and!; [by apply valid_names, Hs; apply valid_label|apply own_names_NoDup|intros e; by apply pod_name_recognised|].
  intros inst' s' n' Hinst' Hu' Hs'. destruct (valid_dns_label inst' _) eqn:Hv'; [|done].
  rewrite valid_names by (done || by apply valid_label). intros [= <-]. cbn [resources_of route_key resource_prefix].
  pose proof (proj1 Hs) as Hl. pose proof (proj1 Hs') as Hl'. split_and!.
  - intros name. by apply own_names_apart.
  - intros [-> E]%append_inj_end; [|by rewrite !bytes_app, !length_app, Hl, Hl']. by apply append_inj_same in E.
  - unfold cluster_admin_binding_name. cbn [resource_prefix]. intros E%append_inj_same.
    apply append_inj_end in E as [-> E]; [|rewrite !bytes_app, !length_app; lia].
    apply append_inj_same, append_inj_end in E as [E _]; [|done]. by apply append_inj_same in E.
Qed.

Lemma names_identify_workspace_witness :
  ∃ n, for_workspace_names "internal-a" "8000000000000001" = Some n ∧ route_key n = "internal-a-8000000000000001" ∧
    data_pvc_ordinal_zero (resources_of n) = "workspace-data-w-8000000000000001-0".
Proof.
  destruct (names_identify_workspace "internal-a" "8000000000000001") as (n & Hn & _); [by vm_compute..|].
  exists n. split; [done|]. vm_compute in Hn. by simplify_eq.
Defined.
