(* ===== verification/Config.v ===== *)
(** * The configuration of the service ([src/config/mod.rs])

    Arguments and environment are read by [clap]; this is what the service checks
    of them before it starts. The Prometheus URL comes as the parts [url::Url] has
    read from it. *)
From S2P Require Import Prelude Text Net Names.

Inductive DatabaseMode := SqliteMode | PostgresMode.
#[global] Instance database_mode_eq_dec : EqDecision DatabaseMode. Proof. solve_decision. Defined.

Module ConfigError.
Inductive t :=
  | UnsupportedDatabaseUrl
  | ZeroReplicas
  | SqliteMultipleReplicas (replicas : Z)
  | EmptyInstanceId
  | InvalidSshPublicHost
  | InvalidInternalSshHost
  | InvalidWebShellOrigin
  | InvalidPortMappingDomain
  | InvalidPrometheusUrl.
End ConfigError.

Record PrometheusUrl := mkPrometheusUrl {
  pu_scheme : string;
  pu_host_str : option string;
  pu_username : string;
  pu_password : option string;
  pu_query : option string;
  pu_fragment : option string;
}.

Record AppConfig := mkAppConfig {
  ac_installation_id : string;             (** read by [InstallationId::from_str] *)
  ac_database_url : string;
  ac_replica_count : Z;                    (** u16 *)
  ac_instance_id : string;
  ac_ssh_public_host : option string;
  ac_internal_ssh_host : option string;
  ac_web_shell_public_origin : option string;
  ac_port_mapping_public_domain : option string;
  ac_prometheus_url : option PrometheusUrl;
}.

Definition str_starts_with (prefix text : string) : bool := is_some (strip_prefix (bytes prefix) (bytes text)).

Definition database_mode_from_url (url : string) : result ConfigError.t DatabaseMode :=
  if str_starts_with "sqlite:" url then Ok SqliteMode
  else if str_starts_with "postgres:" url || str_starts_with "postgresql:" url then Ok PostgresMode
  else Err ConfigError.UnsupportedDatabaseUrl.

(** Lower-case letters, digits, dots and dashes. *)
Definition host_char (c : Z) : bool := is_ascii_lowercase c || is_ascii_digit c || (c =? c_dot) || (c =? c_dash).

Definition valid_ssh_public_host (host : string) : bool :=
  negb (bool_decide (host = "") || (253 <? len host) || negb (forallb host_char (chars host))).

Definition dot_or_dash (c : Z) : bool := (c =? c_dot) || (c =? c_dash).

Definition valid_ssh_host (host : string) : bool :=
  if is_some (parse_ip_addr host) then true
  else
    negb (bool_decide (host = "")) && (len host <=? 253)
    && negb (starts_with dot_or_dash (chars host)) && negb (ends_with dot_or_dash (chars host))
    && forallb host_char (chars host).

Definition valid_web_shell_origin (origin : string) : bool :=
  negb (negb (str_starts_with "https://" origin)
        || existsb (λ c, bool_decide (c ∈ [13; 10; 63; 35])) (chars origin)
        || ends_with (Z.eqb c_slash) (chars origin)).

Definition valid_port_mapping_domain (domain : string) : bool :=
  negb (is_some (parse_ip_addr domain) || negb (contains [c_dot] (bytes domain)) || negb (valid_ssh_host domain)).

Definition valid_prometheus_url (url : PrometheusUrl) : bool :=
  negb (negb (bool_decide (pu_scheme url ∈ ["http"; "https"])) || negb (is_some (pu_host_str url))
        || negb (bool_decide (pu_username url = "")) || is_some (pu_password url) || is_some (pu_query url) || is_some (pu_fragment url)).

(** [AppConfig::validate]. *)
Definition app_config_validate (c : AppConfig) : result ConfigError.t () :=
  mode ← database_mode_from_url (ac_database_url c);
  _ ← ensure (negb (ac_replica_count c =? 0)) ConfigError.ZeroReplicas;
  _ ← ensure (negb (bool_decide (mode = SqliteMode) && negb (ac_replica_count c =? 1)))
        (ConfigError.SqliteMultipleReplicas (ac_replica_count c));
  _ ← ensure (negb (bool_decide (trim (chars (ac_instance_id c)) = []))) ConfigError.EmptyInstanceId;
  _ ← ensure (negb (is_some_and (ac_ssh_public_host c) (λ h, negb (valid_ssh_public_host h)))) ConfigError.InvalidSshPublicHost;
  _ ← ensure (negb (is_some_and (ac_internal_ssh_host c) (λ h, negb (valid_ssh_host h)))) ConfigError.InvalidInternalSshHost;
  _ ← ensure (negb (is_some_and (ac_web_shell_public_origin c) (λ o, negb (valid_web_shell_origin o)))) ConfigError.InvalidWebShellOrigin;
  _ ← ensure (negb (is_some_and (ac_port_mapping_public_domain c) (λ d, negb (valid_port_mapping_domain d)))) ConfigError.InvalidPortMappingDomain;
  ensure (negb (is_some_and (ac_prometheus_url c) (λ u, negb (valid_prometheus_url u)))) ConfigError.InvalidPrometheusUrl.

(** ** Lemmas *)

(** What a validated domain is: its bytes are host characters. *)
Lemma host_char_small c : host_char c = true → 0 <= c < 128.
Proof.
  unfold host_char, is_ascii_lowercase, is_ascii_digit, in_range, c_dot, c_dash. rewrite !orb_true_iff, !andb_true_iff, !Z.leb_le, !Z.eqb_eq. lia.
Qed.

Lemma config_domain c domain : app_config_validate c = Ok () → ac_port_mapping_public_domain c = Some domain →
  valid_port_mapping_domain domain = true.
Proof.
  unfold app_config_validate. intros Hv Hd. inv_binds. repeat match goal with Hx : ensure _ _ = Ok _ |- _ => apply ensure_Ok in Hx end.
  rewrite Hd in *. cbn in *. by destruct (valid_port_mapping_domain domain).
Qed.

Lemma valid_domain_parts domain : valid_port_mapping_domain domain = true →
  parse_ip_addr domain = None ∧ domain ≠ "" ∧ forallb host_char (chars domain) = true ∧
  ends_with dot_or_dash (chars domain) = false.
Proof.
  unfold valid_port_mapping_domain, valid_ssh_host. destruct (parse_ip_addr domain); [done|]. cbn.
  rewrite negb_true_iff, orb_false_iff, !negb_false_iff, !andb_true_iff, !negb_true_iff, bool_decide_eq_false. naive_solver.
Qed.
