(* ===== verification/Webhooks.v ===== *)
(** * Webhook subscriptions ([src/storage/webhook_store.rs])

    A subscription names an HTTPS endpoint and holds, encrypted, the secret its
    deliveries are signed with. Reading URLs is the [url] crate's: an interface,
    of which [host_str] is what the crate returns, IPv6 addresses in brackets. *)
From S2P Require Import Prelude Text Json Auth Quota Templates Workspaces Errors ShrinkOperation RuntimeEvents Quantity Net Database WorkspaceStore JobStore Events JobQueue WorkspaceActions Injections Crypto InjectionStore.

Record Url := mkUrl {
  scheme : string;
  username : string;
  password : option string;
  host_str : option string;
}.
Class UrlParse := url_parse : string → option Url.

Record CreateWebhookSubscription := mkCreateWebhook {
  cws_organization_id : Uuid;
  cws_url : string;
  cws_event_prefix : string;
  cws_signing_secret : string;
}.

Record WebhookSubscriptionSummary := mkWebhookSummary {
  sub_id : Uuid;
  sub_organization_id : Uuid;
  sub_url : string;
  sub_event_prefix : string;
  sub_enabled : bool;
  sub_created_at : Z;
  sub_updated_at : Z;
}.

Record EventRecord := mkEventRecord {
  er_id : Uuid;
  er_organization_id : Uuid;
  er_workspace_id : option Uuid;
  er_kind : string;
  er_payload : Value;
  er_created_at : Z;
}.

Record WebhookDelivery := mkDelivery {
  wd_subscription : WebhookSubscriptionSummary;
  wd_event : EventRecord;
  wd_signing_secret : Octets;
}.

(** [str::eq_ignore_ascii_case] and [str::ends_with]. *)
Definition eq_ignore_ascii_case (a b : string) : bool := bool_decide (to_ascii_lowercase a = to_ascii_lowercase b).
Definition str_ends_with (suffix text : string) : bool := is_some (strip_suffix (bytes suffix) (bytes text)).

Section Webhooks.
Context `{UuidText} `{Aead} `{Base64Codec} `{RandomSource} `{UrlParse}.

(** The host names and addresses a delivery may not go to. *)
Definition unsafe_host (host : string) : bool :=
  eq_ignore_ascii_case host "localhost" || str_ends_with ".local" host
  || is_some_and (parse_ip_addr host) unsafe_address.

Definition webhook_validate (command : CreateWebhookSubscription) : result StorageError.t () :=
  url ← ok_or (url_parse (cws_url command)) StorageError.InvalidWebhook;
  _ ← ensure (negb (negb (String.eqb (scheme url) "https") || negb (String.eqb (username url) "") || is_some (password url)
                    || (len (cws_event_prefix command) =? 0) || (120 <? len (cws_event_prefix command))
                    || (len (cws_signing_secret command) <? 32))) StorageError.InvalidWebhook;
  host ← ok_or (host_str url) StorageError.InvalidWebhook;
  ensure (negb (unsafe_host host)) StorageError.InvalidWebhook.

Definition webhook_aad (inst : string) (id : Uuid) : Octets := octets (inst +:+ ":webhook:" +:+ uuid_to_string id +:+ ":v1").

Definition webhook_row (inst : string) (command : CreateWebhookSubscription) (e : EncryptedEnvelope) (actor : Uuid) (now : Z)
    : WebhookRow :=
  mkWebhookRow inst (cws_organization_id command) (cws_url command) (cws_event_prefix command) (base64_encode (ciphertext e))
    (base64_encode (value_nonce e)) (base64_encode (wrapped_data_key e)) (base64_encode (key_nonce e)) true actor now now.

Definition create_webhook_subscription (inst : string) (cipher : EnvelopeCipher) (command : CreateWebhookSubscription)
    (actor : Uuid) (now : Z) : DbM WebhookSubscriptionSummary :=
  _ ← lift (webhook_validate command);
  id ← now_v7;
  point ← reads uuid_drawn;
  e ← lift (crypto (encrypt point cipher (octets (cws_signing_secret command)) (webhook_aad inst id)));
  _ ← insert_row t_webhooks set_t_webhooks id (webhook_row inst command e actor now);
  mret (mkWebhookSummary id (cws_organization_id command) (cws_url command) (cws_event_prefix command) true now now).

Definition subscription_summary (id : Uuid) (r : WebhookRow) : WebhookSubscriptionSummary :=
  mkWebhookSummary id (wh_organization_id r) (wh_url r) (wh_event_prefix r) (wh_enabled r) (wh_created_at r) (wh_updated_at r).

(** [ORDER BY created_at, id]. *)
Definition subscription_le (a b : Uuid * WebhookRow) : Prop :=
  wh_created_at a.2 < wh_created_at b.2
  ∨ wh_created_at a.2 = wh_created_at b.2 ∧ String.le (uuid_to_string a.1) (uuid_to_string b.1).
#[global] Instance subscription_le_dec a b : Decision (subscription_le a b).
Proof. unfold subscription_le. apply _. Defined.

Definition list_webhook_subscriptions (inst : string) (organization_id : Uuid) : DbM (list WebhookSubscriptionSummary) :=
  reads (λ db, (λ kv, subscription_summary kv.1 kv.2) <$>
    merge_sort subscription_le
      (List.filter (λ kv : Uuid * WebhookRow,
                      String.eqb (wh_installation_id kv.2) inst && bool_decide (wh_organization_id kv.2 = organization_id))
         (map_to_list (t_webhooks db)))).

(** [delivery_sql]: the subscription with the event, joined on installation and
    organization. *)
Definition select_delivery (inst : string) (subscription_id event_id : Uuid) (db : Db) : option (WebhookRow * EventRow) :=
  s ← t_webhooks db !! subscription_id;
  e ← t_events db !! event_id;
  if String.eqb (e_installation_id e) (wh_installation_id s) && bool_decide (e_organization_id e = wh_organization_id s)
     && String.eqb (wh_installation_id s) inst && wh_enabled s
  then Some (s, e) else None.

Definition decode_delivery (inst : string) (cipher : EnvelopeCipher) (subscription_id event_id : Uuid) (s : WebhookRow) (e : EventRow)
    : result StorageError.t WebhookDelivery :=
  ct ← decode_b64 (wh_ciphertext s);
  vn ← decode_nonce (wh_value_nonce s);
  wk ← decode_b64 (wh_wrapped_data_key s);
  kn ← decode_nonce (wh_key_nonce s);
  secret ← crypto (decrypt cipher (mkEnvelope ct vn wk kn) (webhook_aad inst subscription_id));
  Ok (mkDelivery (subscription_summary subscription_id s)
        (mkEventRecord event_id (wh_organization_id s) (e_workspace_id e) (e_kind e) (e_payload e) (e_created_at e)) secret).

Definition load_webhook_delivery (inst : string) (cipher : EnvelopeCipher) (subscription_id event_id : Uuid) : DbM WebhookDelivery :=
  row ← reads (select_delivery inst subscription_id event_id);
  row ← lift (ok_or row StorageError.WebhookNotFound);
  lift (decode_delivery inst cipher subscription_id event_id row.1 row.2).
End Webhooks.

(** ** Lemmas *)
Section Lemmas.
Context `{UuidText} `{Aead} `{Base64Codec} `{RandomSource} `{UrlParse}.

Lemma create_webhook_Ok inst cipher command actor now db s db' :
  create_webhook_subscription inst cipher command actor now db = (Ok s, db') →
  webhook_validate command = Ok () ∧ sub_url s = cws_url command ∧ sub_organization_id s = cws_organization_id command ∧
  ∃ point e, encrypt point cipher (octets (cws_signing_secret command)) (webhook_aad inst (sub_id s)) = Ok e ∧
    t_webhooks db !! sub_id s = None ∧
    t_webhooks db' = <[sub_id s := webhook_row inst command e actor now]> (t_webhooks db).
Proof.
  unfold create_webhook_subscription. intros Hrun. run_step Hrun. run_step Hrun. run_step Hrun. run_step Hrun.
  unfold crypto in *. destruct (encrypt _ _ _ _) as [e|] eqn:He; [|done]. simplify_eq/=.
  apply bind_run_Ok in Hrun as ([] & db1 & Hins & Hret). injection Hret as <- <-. cbn. split_and!; [done..|].
  revert Hins. unfold insert_row. destruct (t_webhooks _ !! _) eqn:Hnone; [done|]. intros [= <-]. eauto.
Qed.

Context {Haead : AeadLaws} {Hbase64 : Base64Laws} (Hrandom : random_lengths).

(** What was stored is read back, for events of its organization only. *)
Lemma created_delivery inst cipher command actor now db s db' :
  create_webhook_subscription inst cipher command actor now db = (Ok s, db') →
  ∀ db2 event_id event, t_webhooks db2 !! sub_id s = t_webhooks db' !! sub_id s → t_events db2 !! event_id = Some event →
    e_installation_id event = inst →
    load_webhook_delivery inst cipher (sub_id s) event_id db2 =
    (if decide (e_organization_id event = cws_organization_id command)
     then Ok (mkDelivery s (mkEventRecord event_id (e_organization_id event) (e_workspace_id event) (e_kind event)
                              (e_payload event) (e_created_at event)) (octets (cws_signing_secret command)))
     else Err StorageError.WebhookNotFound, db2).
Proof using Haead Hbase64 Hrandom.
  intros Hrun db2 event_id event Hrow Hev Hinst. pose proof Hrun as (_ & _ & _ & point & e & He & _ & Hdb)%create_webhook_Ok.
  rewrite Hdb, lookup_insert_eq in Hrow. unfold load_webhook_delivery. rewrite bind_run. unfold reads at 1.
  unfold select_delivery. rewrite Hrow, Hev. cbn [mbind option_bind webhook_row wh_installation_id wh_organization_id wh_enabled].
  rewrite Hinst, String.eqb_refl. cbn [andb]. rewrite andb_true_r. destruct (decide _) as [Horg|Hne].
  2:{ rewrite bool_decide_eq_false_2 by done. done. }
  rewrite bool_decide_eq_true_2 by done. cbn [andb]. rewrite bind_run. unfold lift. cbn [ok_or fst snd]. f_equal.
  destruct (encrypt_nonces Hrandom _ _ _ _ _ He) as [Hvn Hkn]. unfold decode_delivery, decode_b64. cbn.
  rewrite !base64_decode_encode. cbn. rewrite (decode_nonce_encode _ Hvn). cbn. rewrite (decode_nonce_encode _ Hkn). cbn.
  pose proof (decrypt_encrypt _ _ _ _ _ Hrandom He) as Hopen. destruct e as [ct vn wk kn]. cbn in *. rewrite Hopen. cbn.
  rewrite Horg. do 2 f_equal. revert Hrun. unfold create_webhook_subscription. intros Hrun.
  run_step Hrun. run_step Hrun. run_step Hrun. run_step Hrun. apply bind_run_Ok in Hrun as ([] & db1 & _ & Hret).
  by injection Hret as <- _.
Qed.

(** An accepted endpoint is reached over HTTPS without credentials in the URL; a
    host that is an IPv4 address is public. *)
Lemma accepted_endpoint command :
  webhook_validate command = Ok () →
  ∃ url host, url_parse (cws_url command) = Some url ∧ host_str url = Some host ∧ scheme url = "https" ∧ username url = "" ∧
    password url = None ∧ unsafe_host host = false ∧ 32 <= len (cws_signing_secret command) ∧
    ∀ a b c d, (a < 256)%N → (b < 256)%N → (c < 256)%N → (d < 256)%N → host = dotted a b c d →
      v4_unsafe (Z.of_N a) (Z.of_N b) (Z.of_N c) (Z.of_N d) = false.
Proof.
  unfold webhook_validate. intros Hv. inv_binds. apply negb_true_iff in Hv. rewrite negb_true_iff in *.
  match goal with H : _ || _ = false |- _ => rename H into Hc end.
  match goal with H : url_parse _ = Some ?u, H' : host_str _ = Some ?h |- _ => exists u, h end.
  repeat (apply orb_false_iff in Hc as [Hc ?]). rewrite negb_false_iff in *.
  split_and!; try done; try by apply String.eqb_eq.
  - by destruct (password _).
  - bool_prop. lia.
  - intros o1 o2 o3 o4 ? ? ? ? ->. unfold unsafe_host in Hv. rewrite parse_dotted in Hv by done. cbn in Hv.
    by apply orb_false_iff in Hv as [_ ?].
Qed.

(** The check of addresses never applies to IPv6: their host is in brackets, which
    [IpAddr] does not read. *)
Theorem bracketed_hosts_pass host :
  starts_with (Z.eqb 91) (bytes host) = true → str_ends_with ".local" host = false → unsafe_host host = false.
Proof.
  intros Hb Hl. unfold unsafe_host. rewrite bracketed_not_parsed by done. rewrite Hl. cbn. rewrite !orb_false_r.
  unfold eq_ignore_ascii_case. apply bool_decide_eq_false. unfold to_ascii_lowercase. intros E.
  destruct (bytes host) as [|b bs]; [done|]. cbn [starts_with] in Hb. by apply Z.eqb_eq in Hb as <-.
Qed.
End Lemmas.
