(* ===== verification/ControlPlane.v ===== *)
(** * The job handler of the service ([src/jobs/webhook.rs])

    [ControlPlaneJobHandler] gives every kind of job to its handler: the jobs of
    workspaces to [WorkspaceReconcileHandler], where Kubernetes coordination is
    enabled, and deliveries to [WebhookDeliveryHandler]. The HTTP client
    ([reqwest]), HMAC-SHA256 ([hmac], [sha2]), [serde_json] of an event and the
    texts of errors are interfaces. *)
From S2P Require Import Prelude Text Json Auth Quota Templates Workspaces Errors ShrinkOperation RuntimeEvents Quantity Net Database WorkspaceStore JobStore Events JobQueue WorkspaceActions ShrinkStore Reconcile ShrinkHandler JobWorker WorkspaceHandler Injections Crypto InjectionStore Webhooks.

(** [client.post(url)] with headers and a body: the status, or the text of the
    error when no response came. *)
Class HttpClient (K : Type) := http_post : string → list (string * string) → Octets → K → result string Z * K.
Class Hmac := hmac_sha256 : Octets → Octets → Octets.
Class DeliveryText := {
  event_to_vec : EventRecord → Octets;           (** [serde_json::to_vec(&event)] *)
  delivery_job_error : Value → string;           (** the text of [serde_json]'s error *)
  status_to_string : Z → string;                 (** [StatusCode]'s [Display] *)
}.

(** [format!("{byte:02x}")] for each byte. *)
Definition hex_digit_of (d : N) : Ascii.ascii := Ascii.ascii_of_N (if (d <? 10)%N then 48 + d else 87 + d).
Fixpoint hex_string (bs : Octets) : string :=
  match bs with
  | [] => ""
  | b :: bs' => String (hex_digit_of (Ascii.N_of_ascii b / 16)) (String (hex_digit_of (Ascii.N_of_ascii b mod 16)) (hex_string bs'))
  end.

Section ControlPlane.
Context {K : Type} `{Coordinator K} `{StorageErrorText} `{UuidText} `{SqlBackend} `{HttpClient K} `{Hmac} `{DeliveryText}
  `{Aead} `{Base64Codec}.
Context (inst : string) (cipher : EnvelopeCipher) (coordination : bool).

(** [serde_json::from_value::<DeliveryJob>]: an object with the two fields, or an
    array of their values. *)
Definition delivery_ids (payload : Value) : option (Uuid * Uuid) :=
  let parse (v : option Value) : option Uuid := (v ≫= as_str) ≫= uuid_parse_str in
  match payload with
  | Array [s; e] => subscription_id ← parse (Some s); event_id ← parse (Some e); Some (subscription_id, event_id)
  | _ =>
      subscription_id ← parse (get payload "subscription_id");
      event_id ← parse (get payload "event_id");
      Some (subscription_id, event_id)
  end.

Definition delivery_headers (d : WebhookDelivery) (body : Octets) : list (string * string) := [
  ("content-type", "application/json");
  ("x-memeloop-event-id", uuid_to_string (er_id (wd_event d)));
  ("x-memeloop-signature-256", "sha256=" +:+ hex_string (hmac_sha256 (wd_signing_secret d) body))].

Definition is_success (status : Z) : bool := (200 <=? status) && (status <? 300).

Definition deliver (job : ClaimedJob) : HM (World K) () :=
  ids ← give (ok_or (delivery_ids (cj_payload job)) (HandlerFailed (delivery_job_error (cj_payload job))));
  delivery ← db_call (load_webhook_delivery inst cipher ids.1 ids.2);
  let body := event_to_vec (wd_event delivery) in
  status ← cluster job_error (http_post (sub_url (wd_subscription delivery)) (delivery_headers delivery body) body);
  if is_success status then mret ()
  else throw (HandlerFailed ("webhook endpoint returned HTTP " +:+ status_to_string status)).

Definition is_workspace_job (kind : string) : bool :=
  String.eqb kind "reconcile_workspace" || String.eqb kind "workspace_storage_shrink".

Definition control_plane_handle (job : ClaimedJob) : HM (World K) () :=
  if is_workspace_job (cj_kind job)
  then if coordination then handle_workspace_job inst job else throw (HandlerFailed "Kubernetes coordination is disabled")
  else if String.eqb (cj_kind job) "deliver_webhook" then deliver job
  else throw (HandlerFailed ("unsupported background job kind " +:+ cj_kind job)).

Definition control_plane_terminal_failure (job : ClaimedJob) (now : Z) : DbM () :=
  if is_workspace_job (cj_kind job) && coordination then workspace_terminal_failure inst job now else mret ().

Definition control_plane_handler : JobHandler K := {|
  handle job := handling_of (control_plane_handle job);
  on_terminal_failure job now := store (control_plane_terminal_failure job now);
|}.

(** ** The queue *)
#[local] Instance load_jobs_kept subscription_id event_id :
  Preserves jobs_kept (load_webhook_delivery inst cipher subscription_id event_id).
Proof. unfold load_webhook_delivery. apply _. Qed.

#[local] Instance deliver_jobs_kept job : HPreserves jobs_kept (deliver job).
Proof.
  unfold deliver. apply hpreserves_bind; [apply _|intros w r w' [= _ <-]; reflexivity|intros ids].
  apply hpreserves_bind; [apply _..|intros d]. cbv zeta. apply hpreserves_bind; [apply _..|intros status].
  apply hpreserves_if; apply _.
Qed.

#[local] Instance control_plane_jobs_kept job : HPreserves jobs_kept (control_plane_handle job).
Proof.
  unfold control_plane_handle. apply hpreserves_if; [apply _| |apply hpreserves_if; apply _].
  apply hpreserves_if; [apply _|apply handle_jobs_kept|apply _].
Qed.

#[local] Instance control_plane_terminal_kept job now : Preserves jobs_kept (control_plane_terminal_failure job now).
Proof.
  unfold control_plane_terminal_failure. destruct (_ && _); [apply terminal_jobs_kept|apply _].
Qed.

Lemma control_plane_laws : @JobHandlerLaws K control_plane_handler.
Proof.
  split.
  - intros job. cbn. apply keeps_running.
    + intros w id row. destruct (control_plane_handle job w) as [r w'] eqn:E. cbn.
      apply jobs_kept_row. by eapply control_plane_jobs_kept.
    + intros w. destruct (control_plane_handle job w). constructor.
  - intros job now w r w'. cbn. unfold store. destruct (control_plane_terminal_failure job now (w_db w)) as [r1 db] eqn:E.
    intros [= <- <-] id row. apply jobs_kept_row. by eapply control_plane_terminal_kept.
Qed.

Context (lease_owner : string) (job_lease workspace_lease : Z).
Abbreviation run_once := (run_once (K:=K) (H:=control_plane_handler) inst lease_owner job_lease workspace_lease).


(** A worker only touches the job it claimed: however a run ends, including a
    lost lease or a broken database call, every other row of the queue is as it
    was. *)
Theorem worker_keeps_other_jobs now elapsed wakes w r w' k row :
  run_once now elapsed wakes w = (r, w') → t_jobs (w_db w) !! k = Some row →
  (∀ row0, next_claimable inst now (w_db w) ≠ Some (k, row0)) → t_jobs (w_db w') !! k = Some row.
Proof. pose proof control_plane_laws. by apply run_once_others. Qed.

(** ** Deliveries *)
Context `{RandomSource} `{UrlParse} {Huuid : UuidTextLaws} {Haead : AeadLaws} {Hbase64 : Base64Laws} (Hrandom : random_lengths).

Lemma delivery_job_ids subscription_id workspace_id event_id now :
  delivery_ids (j_payload (delivery_job inst subscription_id workspace_id event_id now)) = Some (subscription_id, event_id).
Proof.
  change (j_payload _) with
    (Object [("event_id", Str (uuid_to_string event_id)); ("subscription_id", Str (uuid_to_string subscription_id))]).
  cbn. by rewrite !uuid_parse_to_string.
Qed.

(** C34: an accepted subscription has an HTTPS endpoint that is no local host and no
    private, loopback or link local IPv4 address, and a delivery job for it posts
    exactly once, to this endpoint, the event with a signature under the
    secret the subscription was created with; the job succeeds exactly if the
    answer is a success. An event of another organization is not sent: nothing is
    posted and the job fails. *)
Theorem webhook_delivery_signed command actor created db s db' :
  create_webhook_subscription inst cipher command actor created db = (Ok s, db') →
  (∃ url host, url_parse (cws_url command) = Some url ∧ host_str url = Some host ∧ scheme url = "https" ∧ username url = "" ∧
     password url = None ∧ unsafe_host host = false ∧
     ∀ a b c d, (a < 256)%N → (b < 256)%N → (c < 256)%N → (d < 256)%N → host = dotted a b c d →
       v4_unsafe (Z.of_N a) (Z.of_N b) (Z.of_N c) (Z.of_N d) = false) ∧
  ∀ w k event_id event workspace_id now job_id expires,
    let job := claimed_job job_id expires (delivery_job inst (sub_id s) workspace_id event_id now) in
    let record := mkEventRecord event_id (e_organization_id event) (e_workspace_id event) (e_kind event) (e_payload event)
                    (e_created_at event) in
    let body := event_to_vec record in
    let signature := "sha256=" +:+ hex_string (hmac_sha256 (octets (cws_signing_secret command)) body) in
    let headers := [("content-type", "application/json"); ("x-memeloop-event-id", uuid_to_string event_id);
                    ("x-memeloop-signature-256", signature)] in
    t_webhooks (w_db w) !! sub_id s = t_webhooks db' !! sub_id s → t_events (w_db w) !! event_id = Some event →
    e_installation_id event = inst → database_lost (w_k w) = (false, k) →
    control_plane_handle job w =
    if decide (e_organization_id event = cws_organization_id command)
    then let '(answer, k') := http_post (cws_url command) headers body k in
         (match answer with
          | Ok status => if is_success status then Ok ()
                         else Err (HandlerFailed ("webhook endpoint returned HTTP " +:+ status_to_string status))
          | Err e => Err (HandlerFailed e)
          end, mkWorld (w_db w) k')
    else (Err (HandlerFailed (storage_error_to_string StorageError.WebhookNotFound)), mkWorld (w_db w) k).
Proof using Haead Hbase64 Hrandom Huuid.
  intros Hrun. split.
  - apply create_webhook_Ok in Hrun as (Hv & _). apply accepted_endpoint in Hv as (url & host & Hu & Hh & Hs & Hn & Hp & Hsafe & _ & Hip).
    by exists url, host.
  - intros w k event_id event workspace_id now job_id expires job record body signature headers Hrow Hev Hinst Hlost.
    pose proof (created_delivery Hrandom inst cipher command actor created db s db' Hrun (w_db w) event_id event Hrow Hev Hinst) as Hload.
    apply create_webhook_Ok in Hrun as (_ & Hurl & _).
    change (control_plane_handle job) with (deliver job). unfold deliver. rewrite hm_bind_run.
    change (cj_payload job) with (j_payload (delivery_job inst (sub_id s) workspace_id event_id now)).
    rewrite delivery_job_ids. cbn [give ok_or fst snd]. rewrite hm_bind_run. unfold db_call. rewrite hm_bind_run.
    unfold db_try. rewrite Hlost, Hload. destruct (decide _) as [Horg|Hne]; [|done].
    cbn [give map_err wd_subscription wd_event wd_signing_secret]. rewrite hm_bind_run. unfold cluster. cbn [w_k w_db].
    rewrite Hurl. unfold delivery_headers. cbn [wd_event er_id wd_signing_secret].
    fold body. fold signature. fold headers. destruct (http_post _ _ _ _) as [[status|e] k']; cbn; [|done].
    by destruct (is_success status).
Qed.
End ControlPlane.

(** ** Witnesses *)
Module DeliverySample.
#[local] Existing Instances decimal_uuid_text CryptoSample.aead CryptoSample.base64 CryptoSample.random.
(** The client answers 204 and remembers what was posted. *)
Definition Log : Type := list (string * list (string * string) * Octets).
Definition coordinator : Coordinator Log := {|
  unix_timestamp k := (Ok 100, k); database_lost k := (false, k);
  has_observed_replicas _ _ k := (Ok true, k); recover_scratch_scheduling _ k := (Ok (), k);
  delete_stopped_scratch _ k := (Ok true, k); delete_or_confirm _ k := (Ok Gone, k);
  delete_workspace_shrink_storage _ _ k := (Ok true, k); apply_workspace _ ids k := (Ok (), ids, k);
  reconcile_injections _ k := (Ok (), k); capture_shrink_cleanup_identities _ op k := (Ok (), op, k);
  discover_shrink_sources _ op k := (Ok (), op, k); shrink_pod _ op _ _ k := (Err "no pod", op, k);
  retain_shrink_sources _ _ k := (Ok true, k); stop_for_storage_shrink _ _ k := (Ok true, k);
  create_shrink_destination _ _ _ b _ k := (Ok b, k); shrink_volume_identity _ _ k := (Err "no volume", k);
  remove_shrink_helpers _ _ k := (Ok true, k); reclaim_shrink_sources _ _ k := (Ok true, k);
|}.
Definition client : HttpClient Log := λ url headers body k, (Ok 204, k ++ [(url, headers, body)]).
Definition hmac : Hmac := λ key body, take 4 (key ++ body).
Definition text : DeliveryText :=
  {| event_to_vec e := octets (er_kind e); delivery_job_error _ := "invalid payload"; status_to_string _ := "500" |}.
Definition url : UrlParse := λ _, Some (mkUrl "https" "" None (Some "203.0.113.9")).
Definition cipher : EnvelopeCipher := mkCipher (replicate 32 Ascii.zero).
Definition command : CreateWebhookSubscription :=
  mkCreateWebhook 2 "https://203.0.113.9/hook" "workspace." "0123456789abcdef0123456789abcdef".
Definition created := create_webhook_subscription (H:=decimal_uuid_text) (H3:=url) "inst" cipher command 3 50 ActionSample.db.
Definition subscription : WebhookSubscriptionSummary :=
  match created.1 with Ok s => s | Err _ => mkWebhookSummary 0 0 "" "" false 0 0 end.
Definition event : EventRow := mkEventRow "inst" 2 (Some ActionSample.id) "workspace.state_changed" Null 60.
(** The sample database with the subscription, an event and its delivery job. *)
Definition world : World Log :=
  mkWorld (set_t_jobs {[ 10%N := delivery_job "inst" (sub_id subscription) ActionSample.id 500 70;
                         11%N := claimed_row "b" 160 100 (delivery_job "inst" 1 2 3 50) ]}
             (set_t_events {[ 500%N := event ]} created.2)) [].
Definition handler : JobHandler Log :=
  @control_plane_handler Log coordinator QuietCluster.error_text decimal_uuid_text Sqlite client hmac text
    CryptoSample.aead CryptoSample.base64 "inst" cipher true.
Definition run := @run_once Log handler decimal_uuid_text "inst" "a" 60 60 110 5 [Tick (Some 130); Poll] world.
End DeliverySample.


Lemma worker_keeps_other_jobs_witness :
  t_jobs (w_db DeliverySample.run.2) !! 11%N = Some (claimed_row "b" 160 100 (@delivery_job decimal_uuid_text "inst" 1 2 3 50)).
Proof.
  apply (@worker_keeps_other_jobs _ DeliverySample.coordinator QuietCluster.error_text decimal_uuid_text Sqlite DeliverySample.client
    DeliverySample.hmac DeliverySample.text CryptoSample.aead CryptoSample.base64 "inst" DeliverySample.cipher true "a" 60 60 110 5
    [Tick (Some 130); Poll] DeliverySample.world DeliverySample.run.1 DeliverySample.run.2); [vm_compute; reflexivity..|].
  intros row0. vm_compute. congruence.
Defined.

Lemma webhook_delivery_signed_witness :
  let U := decimal_uuid_text in
  let job := claimed_job 10 0 (delivery_job "inst" (sub_id DeliverySample.subscription) ActionSample.id 500 70) in
  ∃ w', @control_plane_handle _ DeliverySample.coordinator QuietCluster.error_text decimal_uuid_text Sqlite DeliverySample.client
      DeliverySample.hmac DeliverySample.text CryptoSample.aead CryptoSample.base64 "inst" DeliverySample.cipher true job
      DeliverySample.world = (Ok (), w') ∧ length (w_k w') = 1%nat.
Proof.
  intros U job.
  destruct (@webhook_delivery_signed _ DeliverySample.coordinator QuietCluster.error_text decimal_uuid_text Sqlite DeliverySample.client
    DeliverySample.hmac DeliverySample.text CryptoSample.aead CryptoSample.base64 "inst" DeliverySample.cipher true CryptoSample.random
    DeliverySample.url decimal_uuid_text_laws CryptoSample.aead_laws CryptoSample.base64_laws CryptoSample.random_ok
    DeliverySample.command 3 50 ActionSample.db DeliverySample.subscription DeliverySample.created.2) as [_ Hdeliver];
    [vm_compute; reflexivity|].
  eexists. split.
  - etrans; [apply (Hdeliver DeliverySample.world [] 500%N DeliverySample.event ActionSample.id 70 10%N 0); vm_compute; reflexivity|].
    rewrite decide_True by reflexivity. cbn. reflexivity.
  - reflexivity.
Defined.
