(* ===== verification/Api.v ===== *)
(** * Requests: errors, authentication and idempotency ([src/api.rs],
    [src/api/error.rs] and its modules, [src/api/auth.rs], [src/api/idempotency.rs],
    [src/plugins/error.rs])

    A request handler reads headers and a decoded body, calls the database and
    answers with a response or an [ApiError], which becomes a status, a stable code
    and a message. The clock, lost database calls and the cluster are the outside
    [K] of a handler; handlers of different requests are not interleaved here
    ([Idempotency] interleaves the statements that keep them apart). *)
From S2P Require Import Prelude Text Json Auth Quota Templates Workspaces Errors ShrinkOperation RuntimeEvents Quantity Database WorkspaceStore JobStore Events JobQueue WorkspaceActions ShrinkStore Reconcile Injections Catalog Idempotency Crypto InjectionStore Identity ApiKeys SshStore.

(** ** Errors *)
Inductive PluginError :=
  | PluginPackage
  | PluginInvalidPackage (message : string)
  | PluginNotFound
  | PluginInvalidConfiguration
  | PluginInvalidApiRequest
  | PluginMiddlewareDenied
  | PluginConfigurationConflict
  | PluginAdmissionDenied (plugin_id decision_code : string)
  | PluginExecutionFailed
  | PluginRuntimeUnavailable
  | PluginStorage (error : StorageError.t).

Module ApiError.
Inductive t :=
  | Unauthorized
  | Forbidden
  | BadRequest (message : string)
  | MissingIdempotencyKey
  | IdempotencyConflict
  | IdempotencyInProgress
  | ApiKeyTokenUnavailable
  | EncryptionUnavailable
  | WorkspaceNotConnectable
  | ProductNamespaceConflict
  | KubernetesUnavailable
  | Kubernetes
  | Injection (error : InjectionError)
  | Plugin (error : PluginError)
  | PluginDistribution (code : string)
  | Storage (error : StorageError.t).
End ApiError.

(** [Display] of the errors whose text reaches the client, generated by
    [thiserror]. *)
Class ErrorText := {
  quota_error_to_string : QuotaError → string;
  transition_error_to_string : TransitionError → string;
  injection_error_to_string : InjectionError → string;
}.

(** Status, code and message. *)
Definition ErrorResponse : Type := Z * string * string.
Definition response (status : Z) (code message : string) : ErrorResponse := (status, code, message).

Definition BAD_REQUEST : Z := 400.
Definition UNAUTHORIZED : Z := 401.
Definition FORBIDDEN : Z := 403.
Definition NOT_FOUND : Z := 404.
Definition CONFLICT : Z := 409.
Definition UNPROCESSABLE_ENTITY : Z := 422.
Definition TOO_MANY_REQUESTS : Z := 429.
Definition INTERNAL_SERVER_ERROR : Z := 500.
Definition BAD_GATEWAY : Z := 502.
Definition SERVICE_UNAVAILABLE : Z := 503.

(** [None] is the [unreachable!] of the source. *)
Definition operational_response (error : ApiError.t) : option ErrorResponse :=
  match error with
  | ApiError.Unauthorized => Some (response UNAUTHORIZED "unauthorized" "a valid Bearer token is required")
  | ApiError.Forbidden =>
      Some (response FORBIDDEN "forbidden" "the authenticated user is not allowed to perform this action")
  | ApiError.BadRequest message => Some (response BAD_REQUEST "bad_request" message)
  | ApiError.MissingIdempotencyKey =>
      Some (response BAD_REQUEST "missing_idempotency_key" "Idempotency-Key header is required")
  | ApiError.IdempotencyConflict =>
      Some (response CONFLICT "idempotency_conflict" "this idempotency key was already used with a different request")
  | ApiError.IdempotencyInProgress =>
      Some (response CONFLICT "idempotency_in_progress" "an equivalent request is still in progress")
  | ApiError.ApiKeyTokenUnavailable =>
      Some (response CONFLICT "api_key_token_unavailable"
              "the original token for this hash-only API key cannot be recovered; create a new key if needed")
  | ApiError.EncryptionUnavailable =>
      Some (response SERVICE_UNAVAILABLE "encryption_unavailable" "injection APIs require MWC_ENCRYPTION_KEY")
  | ApiError.WorkspaceNotConnectable =>
      Some (response CONFLICT "workspace_not_connectable" "new Web Shell and SSH authorization requires a ready workspace")
  | ApiError.ProductNamespaceConflict =>
      Some (response CONFLICT "product_namespace_conflict" "the product namespace has conflicting installation ownership")
  | ApiError.KubernetesUnavailable =>
      Some (response SERVICE_UNAVAILABLE "kubernetes_unavailable" "runtime observations require Kubernetes coordination")
  | ApiError.Kubernetes =>
      Some (response BAD_GATEWAY "kubernetes_error" "Kubernetes runtime observations could not be read")
  | _ => None
  end.

Definition identity_storage_response (error : StorageError.t) : option ErrorResponse :=
  match error with
  | StorageError.UserNotFound => Some (response NOT_FOUND "user_not_found" "the user was not found")
  | StorageError.InvalidUserProfile => Some (response BAD_REQUEST "invalid_user_profile" "display name must be 1-80 characters and custom avatars must be uploaded PNG, JPEG, or WebP images")
  | StorageError.InvalidApiKey => Some (response BAD_REQUEST "invalid_api_key" "API keys require a 1-80 character name, explicit non-wildcard scopes, and an expiration within 365 days")
  | StorageError.InvalidApiKeyQuery => Some (response BAD_REQUEST "invalid_api_key_query" "the API key pagination cursor is invalid")
  | StorageError.InvalidOrganizationMembership => Some (response BAD_REQUEST "invalid_organization_membership" "organization memberships require a member or organization administrator role")
  | StorageError.ApiKeyNotFound => Some (response NOT_FOUND "api_key_not_found" "the API key was not found")
  | StorageError.SelfApiKeyAdministration => Some (response BAD_REQUEST "self_api_key_administration" "use the personal API-key endpoint when revoking your own key")
  | StorageError.LastApiKey => Some (response CONFLICT "last_api_key" "create another active API key with the required recovery permissions before revoking this key")
  | StorageError.TooManyApiKeys => Some (response CONFLICT "too_many_api_keys" "revoke an API key before creating another one")
  | StorageError.LastSystemAdmin => Some (response CONFLICT "last_system_admin" "create or promote another active system administrator before disabling or demoting this user")
  | StorageError.LastOrganizationAdmin => Some (response CONFLICT "last_organization_admin" "create or promote another organization administrator before demoting or removing this member")
  | StorageError.OrganizationInUse => Some (response CONFLICT "organization_in_use" "delete or move dependent workspaces and templates before deleting this organization")
  | StorageError.InvalidAuditQuery => Some (response BAD_REQUEST "invalid_audit_query" "audit pagination or filters are invalid")
  | _ => None
  end.

Definition plugin_storage_response (error : StorageError.t) : option ErrorResponse :=
  match error with
  | StorageError.InvalidPluginConfiguration => Some (response UNPROCESSABLE_ENTITY "invalid_plugin_configuration" "the plugin configuration is invalid")
  | StorageError.PluginConfigurationVersionConflict => Some (response CONFLICT "plugin_configuration_version_conflict" "the plugin configuration version changed")
  | StorageError.PluginInspectionNotFound => Some (response NOT_FOUND "plugin_inspection_not_found" "the plugin inspection was not found")
  | StorageError.PluginInspectionExpired => Some (response CONFLICT "plugin_inspection_expired" "the plugin inspection expired")
  | StorageError.PluginDigestMismatch => Some (response CONFLICT "plugin_digest_mismatch" "the plugin package digest changed")
  | StorageError.PluginPackageVersionConflict => Some (response CONFLICT "plugin_package_version_conflict" "the installed plugin version changed")
  | StorageError.PluginCapabilityNotApproved => Some (response UNPROCESSABLE_ENTITY "plugin_capability_not_approved" "a requested plugin capability was not declared")
  | StorageError.PluginPackageNotFound => Some (response NOT_FOUND "plugin_not_found" "the plugin package was not found")
  | StorageError.PluginUiSessionInvalid => Some (response UNAUTHORIZED "plugin_ui_session_invalid" "the plugin UI session is invalid or expired")
  | StorageError.PluginCapacityExceeded => Some (response CONFLICT "plugin_capacity_exceeded" "the installation plugin capacity was reached")
  | StorageError.TooManyPluginInspections => Some (response TOO_MANY_REQUESTS "too_many_plugin_inspections" "finish or wait for existing plugin inspections before uploading another package")
  | _ => None
  end.

Definition storage_shrink_response (error : StorageError.t) : option ErrorResponse :=
  match error with
  | StorageError.WorkspaceStorageShrinkConflict => Some (response CONFLICT "workspace_storage_shrink_conflict" "workspace storage migration is active or the workspace generation/state has changed")
  | StorageError.WorkspaceStorageShrinkUnavailable => Some (response SERVICE_UNAVAILABLE "workspace_storage_shrink_unavailable" "an administrator must configure MWC_STORAGE_SHRINK_IMAGE with a reviewed sha256 digest and MWC_STORAGE_SHRINK_XATTR_POLICY=posix-user")
  | StorageError.InvalidWorkspaceStorageShrink => Some (response UNPROCESSABLE_ENTITY "invalid_workspace_storage_shrink" "provide a positive storage target smaller than current capacity and larger than offline usage")
  | _ => None
  end.

Definition home_pvc_response (error : StorageError.t) : option ErrorResponse :=
  match error with
  | StorageError.InvalidWorkspaceHomePvc => Some (response BAD_REQUEST "invalid_workspace_home_pvc" "Home PVC requires the workspace namespace, a valid claim name and UID, and positive whole-GiB capacity")
  | StorageError.WorkspaceHomePvcUpdateConflict => Some (response CONFLICT "workspace_home_pvc_update_conflict" "workspace must be stopped or eligible for Ready adoption, at the expected generation with no reconciliation in progress")
  | StorageError.WorkspaceHomePvcInUse => Some (response CONFLICT "workspace_home_pvc_in_use" "Home PVC is mounted by a Pod or reserved by another workspace or workload")
  | StorageError.WorkspaceHomePvcMismatch => Some (response UNPROCESSABLE_ENTITY "workspace_home_pvc_mismatch" "Home PVC must be a non-terminating Bound filesystem claim with the expected UID and capacity")
  | _ => None
  end.

Definition node_pool_storage_response (error : StorageError.t) : option ErrorResponse :=
  match error with
  | StorageError.InvalidNodePool => Some (response BAD_REQUEST "invalid_node_pool" "node pool name, display name, or private placement is invalid")
  | StorageError.NodePoolNotFound => Some (response NOT_FOUND "node_pool_not_found" "node pool was not found")
  | StorageError.NodePoolUnavailable => Some (response UNPROCESSABLE_ENTITY "node_pool_unavailable" "node pool is disabled or unavailable")
  | StorageError.NodePoolNotAllowed => Some (response UNPROCESSABLE_ENTITY "node_pool_not_allowed" "node pool is not allowed by the workspace template")
  | StorageError.NodePoolInUse => Some (response CONFLICT "node_pool_in_use" "disable the node pool and remove all template and workspace references before deleting it")
  | StorageError.WorkspacePlacementUpdateConflict => Some (response CONFLICT "workspace_placement_update_conflict" "workspace must be stopped and at the expected generation before placement can change")
  | _ => None
  end.

Definition workspace_own_response (error : StorageError.t) : option ErrorResponse :=
  match error with
  | StorageError.WorkspaceNotFound => Some (response NOT_FOUND "workspace_not_found" "workspace was not found")
  | StorageError.PortMappingNotFound => Some (response NOT_FOUND "port_mapping_not_found" "workspace port mapping was not found")
  | StorageError.InvalidPortMappingPort => Some (response BAD_REQUEST "invalid_port_mapping_port" "choose port 80, 443, or an application port from 1024 through 65535")
  | StorageError.InvalidPortMappingDisplayName => Some (response BAD_REQUEST "invalid_port_mapping_display_name" "port mapping display name must be at most 80 characters")
  | StorageError.InvalidWorkspace => Some (response BAD_REQUEST "invalid_workspace" "workspace name, image, or resources are invalid")
  | StorageError.InvalidWorkspaceInjectionRefs => Some (response BAD_REQUEST "invalid_workspace_injection_refs" "organization and user injection references must be unique valid keys")
  | StorageError.ImageNotAllowed => Some (response UNPROCESSABLE_ENTITY "image_not_allowed" "workspace image is disabled or does not satisfy Image Contract v1")
  | StorageError.InvalidWorkspaceImageUpdate => Some (response BAD_REQUEST "invalid_workspace_image_update" "workspace image must be pinned to an exact lowercase sha256 digest")
  | StorageError.WorkspaceCpuOvercommitUpdateConflict => Some (response CONFLICT "workspace_cpu_overcommit_update_conflict" "workspace must be stopped and at the expected generation before CPU overcommit can change")
  | StorageError.WorkspaceImageUpdateConflict => Some (response CONFLICT "workspace_image_update_conflict" "workspace must be stopped and at the expected generation before its image can change")
  | StorageError.InvalidWorkspaceTemporaryStorage => Some (response BAD_REQUEST "invalid_workspace_temporary_storage" "temporary storage must be between 1 and 2048 GiB")
  | StorageError.WorkspaceTemporaryStorageUpdateConflict => Some (response CONFLICT "workspace_temporary_storage_update_conflict" "workspace must be stopped and at the expected generation before temporary storage can change")
  | StorageError.TemplateNotFound => Some (response UNPROCESSABLE_ENTITY "template_not_found" "workspace template is missing, disabled, outside the organization, or its values were changed")
  | StorageError.InvalidTemplate => Some (response BAD_REQUEST "invalid_template" "template or image policy is invalid")
  | StorageError.TemplateMustBeDisabled => Some (response CONFLICT "template_must_be_disabled" "disable the workspace template before deleting it")
  | StorageError.TemplateInUse => Some (response CONFLICT "template_in_use" "the workspace template is still referenced by a workspace")
  | StorageError.PrivilegedTemplateForbidden => Some (response FORBIDDEN "privileged_template_forbidden" "cluster-access templates require a system administrator")
  | _ => None
  end.

Definition workspace_storage_response (error : StorageError.t) : option ErrorResponse :=
  option_or (home_pvc_response error)
    (option_or (node_pool_storage_response error)
       (option_or (storage_shrink_response error) (workspace_own_response error))).

Definition INTERNAL_ERROR : ErrorResponse :=
  response INTERNAL_SERVER_ERROR "internal_error" "the request could not be completed".

Section Responses.
Context `{ErrorText}.

Definition injection_response (error : InjectionError) : ErrorResponse :=
  match error with
  | LockedOverride _ _ _ _ => (CONFLICT, "locked_injection_conflict", injection_error_to_string error)
  | _ => (BAD_REQUEST, "invalid_injection", injection_error_to_string error)
  end.

(** The last match of [storage_response]. *)
Definition other_storage_response (error : StorageError.t) : ErrorResponse :=
  match error with
  | StorageError.InvalidCpuOvercommitRatio =>
      response BAD_REQUEST "invalid_cpu_overcommit_ratio" "CPU overcommit ratio must be between 1 and 1000"
  | StorageError.OrganizationNotFound => response NOT_FOUND "organization_not_found" "organization was not found"
  | StorageError.Quota error => (UNPROCESSABLE_ENTITY, "quota_exceeded", quota_error_to_string error)
  | StorageError.Transition error => (CONFLICT, "invalid_workspace_transition", transition_error_to_string error)
  | StorageError.InvalidWebhook =>
      response BAD_REQUEST "invalid_webhook"
        "webhook requires a public HTTPS URL, event prefix, and a signing secret of at least 32 bytes"
  | StorageError.WebhookNotFound => response NOT_FOUND "webhook_not_found" "webhook subscription or event was not found"
  | StorageError.InvalidInjectionLock =>
      response BAD_REQUEST "invalid_injection_lock" "only organization injections may be locked"
  | _ => INTERNAL_ERROR
  end.

Definition storage_response (error : StorageError.t) : ErrorResponse :=
  default (other_storage_response error)
    (option_or (identity_storage_response error)
       (option_or (plugin_storage_response error) (workspace_storage_response error))).

Definition plugin_response (error : PluginError) : ErrorResponse :=
  match error with
  | PluginNotFound => response NOT_FOUND "plugin_not_found" "the plugin is not loaded"
  | PluginInvalidConfiguration =>
      response UNPROCESSABLE_ENTITY "invalid_plugin_configuration" "the plugin configuration does not satisfy its current schema"
  | PluginConfigurationConflict =>
      response CONFLICT "plugin_configuration_version_conflict" "the plugin configuration version changed"
  | PluginAdmissionDenied _ _ =>
      response UNPROCESSABLE_ENTITY "plugin_admission_denied" "workspace creation was rejected by an installed policy"
  | _ => response SERVICE_UNAVAILABLE "plugin_execution_failed" "workspace creation policy could not be evaluated"
  end.

Definition plugin_distribution_status (code : string) : Z :=
  if bool_decide (code ∈ ["plugin_inspection_not_found"]) then NOT_FOUND
  else if bool_decide (code ∈ ["plugin_inspection_expired"; "plugin_digest_mismatch"; "plugin_package_version_conflict"])
  then CONFLICT
  else if bool_decide (code ∈ ["plugin_download_failed"; "plugin_runtime_reload_failed"]) then BAD_GATEWAY
  else if bool_decide (code ∈ ["plugin_capability_not_approved"]) then UNPROCESSABLE_ENTITY
  else if bool_decide (code ∈ ["plugin_middleware_denied"]) then FORBIDDEN
  else BAD_REQUEST.

Definition plugin_distribution_response (code : string) : ErrorResponse :=
  response (plugin_distribution_status code) code "the plugin package operation could not be completed".

Definition response_parts (error : ApiError.t) : option ErrorResponse :=
  match error with
  | ApiError.Injection error => Some (injection_response error)
  | ApiError.Plugin error => Some (plugin_response error)
  | ApiError.PluginDistribution code => Some (plugin_distribution_response code)
  | ApiError.Storage error => Some (storage_response error)
  | error => operational_response error
  end.
End Responses.

(** ** The state of the service and of a request *)
Record AppState := mkAppState {
  st_installation_id : string;                        (** [config] *)
  st_ssh_public_host : option string;
  st_internal_ssh_host : option string;
  st_web_shell_public_origin : option string;
  st_port_mapping_public_domain : option string;
  st_cipher : option EnvelopeCipher;
  st_internal_auth_token_hash : option (list Z);      (** 32 bytes *)
  st_trusted_internal_network : bool;
  st_has_kubernetes_client : bool;                    (** [kubernetes_client.is_some()] *)
  st_jump_host_public_key : option WorkspaceSshPublicIdentity;
}.

(** The first value of each header, by its name in lower case. *)
Definition HeaderMap : Type := gmap string string.

(** [headers.get(name).and_then(|value| value.to_str().ok())]: visible ASCII. *)
Definition header_str (headers : HeaderMap) (name : string) : option string :=
  value ← headers !! name;
  if forallb (λ b, in_range 32 126 b || (b =? 9)) (bytes value) then Some value else None.

(** Clocks and the connection to the database, as seen by a handler. The clock of
    the process is [None] before the epoch. *)
Class ApiHost (K : Type) := {
  api_clock : K → option Z * K;
  auth_clocks : K → (Z * Z) * K;   (** the database's clock and the process's, during [authenticate] *)
  api_lost : K → bool * K;
}.

Definition ApiM (K A : Type) : Type := World K → result ApiError.t A * World K.
#[global] Instance api_ret K : MRet (ApiM K) := λ A a w, (Ok a, w).
#[global] Instance api_bind K : MBind (ApiM K) := λ A B k m w,
  match m w with
  | (Ok a, w') => k a w'
  | (Err e, w') => (Err e, w')
  end.

Record Response := mkResponse {
  rs_status : Z;
  rs_content_type : string;
  rs_headers : list (string * string);
  rs_body : string;
}.

Definition newline : string := string_of_bytes [10].

(** Hashes: of a request's JSON, if it has one, in hexadecimal; of bytes. *)
Class RequestHash := json_hash : Value → option string.
Class Sha256 := sha256 : list Z → list Z.
Class Sha256Laws `{Sha256} : Prop := {
  sha256_length bs : length (sha256 bs) = 32%nat;
  sha256_bytes bs : Forall (λ b, 0 <= b < 256) (sha256 bs);
}.

Section Api.
Context {K : Type} `{ApiHost K} `{UuidText} `{TokenHash} `{RequestHash} `{Sha256}.

Definition answer {A} (r : result ApiError.t A) : ApiM K A := λ w, (r, w).
Definition throw {A} (e : ApiError.t) : ApiM K A := λ w, (Err e, w).
Definition outside {A} (m : K → A * K) : ApiM K A := λ w, let '(a, k) := m (w_k w) in (Ok a, mkWorld (w_db w) k).
(** [match call.await { Ok(..) => .., Err(..) => .. }]. *)
Definition attempt {A} (m : ApiM K A) : ApiM K (result ApiError.t A) := λ w, let '(r, w') := m w in (Ok r, w').

(** A database call with [?]; a lost one has no effect. *)
Definition call {A} (m : DbM A) : ApiM K A := λ w,
  match api_lost (w_k w) with
  | (true, k) => (Err (ApiError.Storage StorageError.Database), mkWorld (w_db w) k)
  | (false, k) => let '(r, db) := m (w_db w) in (map_err ApiError.Storage r, mkWorld db k)
  end.

Definition require (b : bool) (e : ApiError.t) : ApiM K () := answer (ensure b e).

(** ** Authentication ([auth.rs], the token of [api.rs]) *)
Definition bearer (headers : HeaderMap) : option string :=
  authorization ← header_str headers "authorization";
  string_of_bytes <$> strip_prefix (bytes "Bearer ") (bytes authorization).

Definition principal (st : AppState) (headers : HeaderMap) : ApiM K Principal :=
  token ← answer (ok_or (bearer headers) ApiError.Unauthorized);
  clocks ← outside auth_clocks;
  p ← call (authenticate (st_installation_id st) token clocks.1 clocks.2);
  answer (ok_or p ApiError.Unauthorized).

Definition me (st : AppState) (headers : HeaderMap) : ApiM K Principal := principal st headers.

(** A comparison whose time does not depend on where the hashes differ. *)
Definition verify_internal_auth_token (st : AppState) (token : string) : bool :=
  match st_internal_auth_token_hash st with
  | None => false
  | Some expected =>
      foldl (λ difference p, Z.lor difference (Z.lxor p.1 p.2)) 0 (zip expected (sha256 (bytes token))) =? 0
  end.

Definition internal_caller_allowed (st : AppState) (token : option string) : bool :=
  is_some_and token (verify_internal_auth_token st).

Definition web_shell_internal_caller_allowed (st : AppState) (token : option string) : bool :=
  st_trusted_internal_network st || internal_caller_allowed st token.

(** ** Idempotent requests ([idempotency.rs]) *)
Definition json_response (status : Z) (body : string) : Response := mkResponse status "application/json" [] body.

(** [StatusCode::from_u16] accepts three digits. *)
Definition replay_response (replay : IdempotencyReplay) : result ApiError.t Response :=
  if in_range 100 999 (replay_status_code replay) then Ok (json_response (replay_status_code replay) (replay_response_json replay))
  else Err (ApiError.BadRequest "stored response status is invalid").

Definition idempotency_key (headers : HeaderMap) : result ApiError.t string :=
  match header_str headers "idempotency-key" with
  | Some key => if bool_decide (key = "") then Err ApiError.MissingIdempotencyKey else Ok key
  | None => Err ApiError.MissingIdempotencyKey
  end.

Definition hash (value : Value) : result ApiError.t string :=
  ok_or (json_hash value) (ApiError.BadRequest "request cannot be canonicalized").

Definition api_timestamp : ApiM K Z :=
  seconds ← outside api_clock;
  seconds ← answer (ok_or seconds (ApiError.BadRequest "system clock is before Unix epoch"));
  answer (ok_or (i64_try_from seconds) (ApiError.BadRequest "system clock overflow")).

(** What every changing handler does around its operation: reserve the key, answer
    a repeated request from the reservation, release the key when the operation
    fails, and store the answer when it succeeds. [finish] builds the response and
    stores it. *)
Definition idempotently {A} (st : AppState) (scope key request_hash : string) (now : Z)
    (operation : ApiM K A) (finish : A → ApiM K Response) : ApiM K Response :=
  let inst := st_installation_id st in
  decision ← call (begin_idempotency inst scope key request_hash now (now + IDEMPOTENCY_TTL_SECONDS));
  match decision with
  | Replay replay => answer (replay_response replay)
  | Conflict => throw ApiError.IdempotencyConflict
  | InProgress => throw ApiError.IdempotencyInProgress
  | Reserved =>
      r ← attempt operation;
      match r with
      | Ok a => finish a
      | Err e => _ ← call (abandon_idempotency inst scope key request_hash); throw e
      end
  end.
End Api.

(** ** Running a handler *)
Lemma api_bind_run {K A B} (m : ApiM K A) (k : A → ApiM K B) w :
  (m ≫= k) w = match m w with (Ok a, w') => k a w' | (Err e, w') => (Err e, w') end.
Proof. done. Qed.

Lemma api_bind_Ok {K A B} (m : ApiM K A) (k : A → ApiM K B) w b w' :
  (m ≫= k) w = (Ok b, w') → ∃ a w1, m w = (Ok a, w1) ∧ k a w1 = (Ok b, w').
Proof. rewrite api_bind_run. destruct (m w) as [[a|e] w1]; [eauto|done]. Qed.

Lemma call_Ok {K} `{ApiHost K} {A} (m : DbM A) w a w' : call m w = (Ok a, w') → m (w_db w) = (Ok a, w_db w').
Proof.
  unfold call. destruct (api_lost (w_k w)) as [[] k]; [done|]. destruct (m (w_db w)) as [[a'|e] db]; [|done]. by intros [= <- <-].
Qed.

(** A call that is not lost. *)
Lemma call_run {K} `{ApiHost K} {A} (m : DbM A) w k : api_lost (w_k w) = (false, k) →
  call m w = (map_err ApiError.Storage (m (w_db w)).1, mkWorld (m (w_db w)).2 k).
Proof. intros Hk. unfold call. rewrite Hk. by destruct (m (w_db w)). Qed.

Lemma answer_Ok {K A} (r : result ApiError.t A) (w : World K) a w' : answer r w = (Ok a, w') → r = Ok a ∧ w = w'.
Proof. unfold answer. intros E. split; congruence. Qed.

Lemma require_Ok {K} b e (w : World K) u w' : require b e w = (Ok u, w') → b = true ∧ w = w'.
Proof. unfold require. intros [?%ensure_Ok ?]%answer_Ok. done. Qed.

(** Take the first statement of a handler that succeeded. *)
Ltac api_step Hrun :=
  let a := fresh "y" in let w := fresh "wy" in let Ha := fresh "Hy" in
  apply api_bind_Ok in Hrun as (a & w & Ha & Hrun);
  lazymatch type of Ha with
  | answer _ _ = _ => apply answer_Ok in Ha as [Ha <-]; try (apply ensure_Ok in Ha); try (apply ok_or_Ok in Ha)
  | require _ _ _ = _ => apply require_Ok in Ha as [Ha <-]
  | call _ _ = _ => apply call_Ok in Ha
  | _ => idtac
  end; cbv beta in *; repeat match goal with u : () |- _ => destruct u end.

(** A statement that only reads. *)
Class ReadOnly {A} (m : DbM A) : Prop := read_only db : (m db).2 = db.

#[global] Instance read_only_ret {A} (a : A) : ReadOnly (mret a).
Proof. done. Qed.
#[global] Instance read_only_fail {A} e : ReadOnly (fail (A:=A) e).
Proof. done. Qed.
#[global] Instance read_only_lift {A} (r : result StorageError.t A) : ReadOnly (lift r).
Proof. done. Qed.
#[global] Instance read_only_reads {A} (f : Db → A) : ReadOnly (reads f).
Proof. done. Qed.
#[global] Instance read_only_bind {A B} (m : DbM A) (k : A → DbM B) :
  ReadOnly m → (∀ a, ReadOnly (k a)) → ReadOnly (m ≫= k).
Proof.
  intros Hm Hk db. rewrite bind_run. specialize (Hm db). destruct (m db) as [[a|e] db1]; cbn in Hm; subst db1; [apply Hk|done].
Qed.
#[global] Instance read_only_get_workspace `{UuidText} inst id : ReadOnly (get_workspace inst id).
Proof. unfold get_workspace, select_workspace. apply read_only_bind; [apply _|]. intros [row|]; apply _. Qed.

(** [ApiPreserves R m]: the handler [m] relates the databases before and after by
    [R], however it ends. *)
Class ApiPreserves {K A} (R : relation Db) (m : ApiM K A) : Prop :=
  api_preserves w r w' : m w = (r, w') → R (w_db w) (w_db w').

Section ApiPreserves.
Context {K : Type} (R : relation Db) `{!PreOrder R}.

#[global] Instance api_preserves_ret {A} (a : A) : ApiPreserves R (mret (M := ApiM K) a).
Proof using Type*. intros ??? [= <- <-]. reflexivity. Qed.
#[global] Instance api_preserves_throw {A} e : ApiPreserves R (throw (K := K) (A := A) e).
Proof using Type*. intros ??? [= <- <-]. reflexivity. Qed.
#[global] Instance api_preserves_answer {A} (r : result ApiError.t A) : ApiPreserves R (answer (K := K) r).
Proof using Type*. intros ??? [= <- <-]. reflexivity. Qed.
#[global] Instance api_preserves_require b e : ApiPreserves R (require (K := K) b e).
Proof using Type*. intros ??? [= <- <-]. reflexivity. Qed.
#[global] Instance api_preserves_outside {A} (m : K → A * K) : ApiPreserves R (outside m).
Proof using Type*. intros w ??. unfold outside. destruct (m (w_k w)). intros [= <- <-]. reflexivity. Qed.
#[global] Instance api_preserves_bind {A B} (m : ApiM K A) (k : A → ApiM K B) :
  ApiPreserves R m → (∀ a, ApiPreserves R (k a)) → ApiPreserves R (m ≫= k).
Proof using Type*.
  intros Hm Hk w r w'. rewrite api_bind_run. destruct (m w) as [[a|e] w1] eqn:E.
  - intros Hrun. transitivity (w_db w1); [by eapply Hm|by eapply Hk].
  - intros [= <- <-]. by eapply Hm.
Qed.
#[global] Instance api_preserves_attempt {A} (m : ApiM K A) : ApiPreserves R m → ApiPreserves R (attempt m).
Proof using Type*. intros Hm w ??. unfold attempt. destruct (m w) eqn:E. intros [= <- <-]. by eapply Hm. Qed.
Lemma api_preserves_call_with {A} `{ApiHost K} (m : DbM A) : Preserves R m → ApiPreserves R (call m).
Proof using Type*.
  intros Hm w ??. unfold call. destruct (api_lost (w_k w)) as [[] k]; [intros [= <- <-]; reflexivity|].
  destruct (m (w_db w)) eqn:E. intros [= <- <-]. by eapply Hm.
Qed.
#[global] Instance api_preserves_read {A} `{ApiHost K} (m : DbM A) : ReadOnly m → ApiPreserves R (call m).
Proof using Type*.
  intros Hm. apply api_preserves_call_with. intros db r db' E. specialize (Hm db). rewrite E in Hm. cbn in Hm. by subst.
Qed.
#[global] Instance api_preserves_if {A} (b : bool) (m n : ApiM K A) :
  ApiPreserves R m → ApiPreserves R n → ApiPreserves R (if b then m else n).
Proof using Type*. by destruct b. Qed.
End ApiPreserves.
#[export] Hint Extern 5 (ApiPreserves _ (call _)) => apply api_preserves_call_with; [apply _..] : typeclass_instances.

(** What holds across an operation holds across the idempotent request for it, if
    the reservation of keys does not matter. *)
Section Bookkeeping.
Context {K : Type} `{ApiHost K} (R : relation Db) `{!PreOrder R} (Hkeys : ∀ v db, R db (set_t_idempotency v db)).

Lemma begin_keeps inst scope key h now expires : Preserves R (begin_idempotency inst scope key h now expires).
Proof using Type*.
  intros db r db'. unfold begin_idempotency. rewrite bind_run. unfold lift. destruct (validate scope key); [|by intros [= <- <-]].
  rewrite bind_run. cbn [modify]. set (db1 := delete_expired inst scope key now db).
  assert (R db db1) as H1 by (unfold db1, delete_expired; by destruct (is_some_and _ _)).
  rewrite bind_run. unfold reserve. destruct (t_idempotency db1 !! _).
  - cbn. intros [= <- <-]. done.
  - cbn. intros [= <- <-]. by transitivity db1.
Qed.
Lemma finish_keeps inst c : Preserves R (finish_idempotency inst c).
Proof using Type*.
  intros db r db'. unfold finish_idempotency, Idempotency.finish, update_where. rewrite bind_run.
  destruct (t_idempotency db !! _) as [row|]; [destruct (is_reservation _ row)|]; cbn; intros [= <- <-]; done.
Qed.
Lemma abandon_keeps inst scope key h : Preserves R (abandon_idempotency inst scope key h).
Proof using Type*. intros db r db' [= <- <-]. unfold delete_reservation. by destruct (is_some_and _ _). Qed.

Lemma idempotently_keeps {A} st scope key h now (operation : ApiM K A) finish :
  ApiPreserves R operation → (∀ a, ApiPreserves R (finish a)) → ApiPreserves R (idempotently st scope key h now operation finish).
Proof using Type*.
  intros Hop Hfin. unfold idempotently. pose proof begin_keeps. pose proof abandon_keeps.
  apply api_preserves_bind; [apply _..|]. intros [| | |replay]; [|apply _..]. apply api_preserves_bind; [apply _..|]. intros [a|e]; apply _.
Qed.
End Bookkeeping.

(** The comparison of hashes is equality. *)
Lemma difference_spec l k d : 0 <= d → Forall (λ b, 0 <= b) l → Forall (λ b, 0 <= b) k → length l = length k →
  foldl (λ d p, Z.lor d (Z.lxor p.1 p.2)) d (zip l k) = 0 ↔ d = 0 ∧ l = k.
Proof.
  intros Hd Hl. revert k d Hd. induction Hl as [|x l Hx Hl IH]; intros [|y k] d Hd Hk Hlen; try done; [cbn; naive_solver|].
  inversion_clear Hk. cbn [zip zip_with foldl]. rewrite IH; [|by apply Z.lor_nonneg; split; [|apply Z.lxor_nonneg]|done|by injection Hlen].
  rewrite Z.lor_eq_0_iff, Z.lxor_eq_0_iff. cbn. naive_solver.
Qed.

Lemma verify_token_spec `{Sha256Laws} st expected token : st_internal_auth_token_hash st = Some expected →
  length expected = 32%nat → Forall (λ b, 0 <= b < 256) expected →
  verify_internal_auth_token st token = true ↔ expected = sha256 (bytes token).
Proof.
  intros Hst Hlen Hb. unfold verify_internal_auth_token. rewrite Hst, Z.eqb_eq, difference_spec; [naive_solver|done|..].
  - by eapply Forall_impl; [exact Hb|]; intros ? [? _].
  - by eapply Forall_impl; [apply sha256_bytes|]; intros ? [? _].
  - by rewrite sha256_length.
Qed.

(** ** What authentication shows *)

(** The database without the keys, their use being recorded there, and the
    reservations of idempotency keys. *)
Definition business (db : Db) : Db := set_t_api_keys ∅ (set_t_idempotency ∅ (set_uuid_drawn 0 db)).

(** The caller presented a key that is valid at the database's time. *)
Definition authentic `{UuidText, TokenHash} (inst : string) (headers : HeaderMap) (db : Db) (actor : Principal) : Prop :=
  ∃ token db_now id k, bearer headers = Some token ∧ t_api_keys db !! id = Some k ∧ authenticates inst token db_now db k = true ∧
    pr_user_id actor = k_user_id k ∧ pr_api_key_scopes actor = k_scopes k ∧ pr_allowed_template_ids actor = k_allowed_template_ids k ∧
    pr_system_admin actor = is_some_and (select_user inst (k_user_id k) db) u_system_admin ∧
    pr_memberships actor = memberships_of inst (k_user_id k) db.

(** A failed first statement ends the handler. *)
Lemma api_bind_split {K A B} (m : ApiM K A) (k : A → ApiM K B) w r w' : (m ≫= k) w = (r, w') →
  (∃ e, m w = (Err e, w') ∧ r = Err e) ∨ ∃ a w1, m w = (Ok a, w1) ∧ k a w1 = (r, w').
Proof. rewrite api_bind_run. destruct (m w) as [[a|e] w1]; [by right; exists a, w1|]. intros [= <- <-]. left. by exists e. Qed.

Section Authentication.
Context {K : Type} `{ApiHost K} `{UuidText} `{TokenHash}.

Lemma business_preorder : PreOrder (frames business).
Proof. split; [by intros ?|]. intros x y z. unfold frames. congruence. Qed.

#[global] Instance authenticate_business inst token db_now now : Preserves (frames business) (authenticate inst token db_now now).
Proof.
  unfold authenticate, mark_key_used, update_key. apply preserves_if; [apply _|].
  apply preserves_bind; [apply _..|intros [[id k]|]]; apply _.
Qed.

#[global] Instance principal_business st headers : ApiPreserves (frames business) (principal (K := K) st headers).
Proof. pose proof business_preorder. unfold principal. apply _. Qed.

Lemma authenticated_by_row inst token db_now now db actor db' : authenticate inst token db_now now db = (Ok (Some actor), db') →
  ∃ id k, t_api_keys db !! id = Some k ∧ authenticates inst token db_now db k = true ∧
    pr_user_id actor = k_user_id k ∧ pr_api_key_scopes actor = k_scopes k ∧ pr_allowed_template_ids actor = k_allowed_template_ids k ∧
    pr_system_admin actor = is_some_and (select_user inst (k_user_id k) db) u_system_admin ∧
    pr_memberships actor = memberships_of inst (k_user_id k) db.
Proof.
  unfold authenticate. destruct (len token <? 32); [done|]. intros Hrun. apply bind_run_Ok in Hrun as (row & db1 & Hrow & Hrun). injection Hrow as <- <-.
  destruct (List.find _ _) as [[id k]|] eqn:Hf; [|done]. apply find_some in Hf as [Hin Ha]. apply list_elem_of_In, elem_of_map_to_list in Hin.
  run_step Hrun. run_step Hrun. run_step Hrun. run_step Hrun. run_step Hrun. injection Hrun as <- _. exists id, k. cbn in *.
  assert (memberships_of inst (k_user_id k) dbx = memberships_of inst (k_user_id k) db) as Hm.
  { unfold memberships_of. apply (use_frame t_memberships) in Hx0; [by rewrite Hx0|]. unfold mark_key_used, update_key. apply _. }
  split_and!; try done. by rewrite Hx.
Qed.

Lemma principal_Ok st headers w actor w' : principal (K := K) st headers w = (Ok actor, w') →
  authentic (st_installation_id st) headers (w_db w) actor ∧ business (w_db w') = business (w_db w).
Proof.
  intros Hrun. split; [|by eapply principal_business in Hrun]. unfold principal in Hrun.
  api_step Hrun. rename y into token. api_step Hrun. unfold outside in Hy0. destruct (auth_clocks (w_k w)) as [clocks k]. injection Hy0 as <- <-.
  api_step Hrun. destruct y as [p|]; [|done]. apply answer_Ok in Hrun as [[= ->] _].
  apply authenticated_by_row in Hy0 as (id & row & Hrow). exists token, clocks.1, id, row. by cbn in Hrow.
Qed.
End Authentication.

(** ** Error responses *)

(** The codes of every status other than 400. *)
Definition CODES : list (Z * list string) := [
  (401, ["unauthorized"; "plugin_ui_session_invalid"]);
  (403, ["forbidden"; "privileged_template_forbidden"]);
  (404, ["user_not_found"; "api_key_not_found"; "plugin_inspection_not_found"; "plugin_not_found";
    "node_pool_not_found"; "workspace_not_found"; "port_mapping_not_found"; "organization_not_found";
    "webhook_not_found"]);
  (409, ["idempotency_conflict"; "idempotency_in_progress"; "api_key_token_unavailable"; "workspace_not_connectable";
    "product_namespace_conflict"; "last_api_key"; "too_many_api_keys"; "last_system_admin";
    "last_organization_admin"; "organization_in_use"; "plugin_configuration_version_conflict";
    "plugin_inspection_expired"; "plugin_digest_mismatch"; "plugin_package_version_conflict";
    "plugin_capacity_exceeded"; "workspace_storage_shrink_conflict"; "workspace_home_pvc_update_conflict";
    "workspace_home_pvc_in_use"; "node_pool_in_use"; "workspace_placement_update_conflict";
    "workspace_cpu_overcommit_update_conflict"; "workspace_image_update_conflict";
    "workspace_temporary_storage_update_conflict"; "template_must_be_disabled"; "template_in_use";
    "locked_injection_conflict"; "invalid_workspace_transition"]);
  (422, ["invalid_plugin_configuration"; "plugin_capability_not_approved"; "invalid_workspace_storage_shrink";
    "workspace_home_pvc_mismatch"; "node_pool_unavailable"; "node_pool_not_allowed"; "image_not_allowed";
    "template_not_found"; "plugin_admission_denied"; "quota_exceeded"]);
  (429, ["too_many_plugin_inspections"]);
  (500, ["internal_error"]);
  (502, ["kubernetes_error"]);
  (503, ["encryption_unavailable"; "kubernetes_unavailable"; "workspace_storage_shrink_unavailable";
    "plugin_execution_failed"])].

Definition status_of_code (code : string) : Z :=
  default 400 (fst <$> List.find (λ entry : Z * list string, bool_decide (code ∈ entry.2)) CODES).

(** The messages of failures that are not the client's. *)
Definition server_message (code : string) : string :=
  if String.eqb code "internal_error" then "the request could not be completed"
  else if String.eqb code "encryption_unavailable" then "injection APIs require MWC_ENCRYPTION_KEY"
  else if String.eqb code "kubernetes_unavailable" then "runtime observations require Kubernetes coordination"
  else if String.eqb code "kubernetes_error" then "Kubernetes runtime observations could not be read"
  else if String.eqb code "plugin_execution_failed" then "workspace creation policy could not be evaluated"
  else "an administrator must configure MWC_STORAGE_SHRINK_IMAGE with a reviewed sha256 digest and MWC_STORAGE_SHRINK_XATTR_POLICY=posix-user".

Definition sound_response (r : ErrorResponse) : Prop :=
  400 <= r.1.1 <= 599 ∧ r.1.1 = status_of_code r.1.2 ∧ (500 <= r.1.1 → r.2 = server_message r.1.2).

Ltac sound_response :=
  split_and!; [by vm_compute|by vm_compute|by vm_compute|first [intros _; by vm_compute | let Hs := fresh in intros Hs; by vm_compute in Hs]].

Lemma storage_response_sound `{ErrorText} error : sound_response (storage_response error).
Proof. destruct error; sound_response. Qed.

Lemma plugin_response_sound error : sound_response (plugin_response error).
Proof. destruct error; sound_response. Qed.

Lemma injection_response_sound `{ErrorText} error : sound_response (injection_response error).
Proof. destruct error; sound_response. Qed.

(** C39: every error becomes a response: a status from 400 to 599 that its code
    determines, whatever the error; the message of a server error depends on its
    code only, so that nothing of an internal failure reaches the client. The
    errors of plugin packages are left out: their codes are used with another
    status elsewhere. *)
Theorem errors_become_responses `{ErrorText} (e : ApiError.t) :
  (∀ code, e ≠ ApiError.PluginDistribution code) →
  ∃ status code message, response_parts e = Some (status, code, message) ∧
    400 <= status <= 599 ∧ status = status_of_code code ∧ (500 <= status → message = server_message code).
Proof.
  intros Hne. assert (∃ r, response_parts e = Some r ∧ sound_response r) as ([[status code] message] & Hr & Hs).
  { destruct e; try (by destruct (Hne code)); (eexists; split; [reflexivity|]);
      first [apply storage_response_sound | apply plugin_response_sound | apply injection_response_sound | sound_response]. }
  by exists status, code, message.
Qed.

Lemma errors_become_responses_witness :
  ∃ status code message,
    @response_parts {| quota_error_to_string _ := ""; transition_error_to_string _ := ""; injection_error_to_string _ := "" |}
      (ApiError.Storage StorageError.Database) = Some (status, code, message) ∧ status = 500 ∧
    message = "the request could not be completed".
Proof.
  destruct (@errors_become_responses
    {| quota_error_to_string _ := ""; transition_error_to_string _ := ""; injection_error_to_string _ := "" |}
    (ApiError.Storage StorageError.Database)) as (status & code & message & Hr & _); [done|].
  exists status, code, message. split; [done|]. by injection Hr as <- <- <-.
Defined.

(** A missing plugin is 404 in one handler and 400 in another, and so for an
    expired session and a failed plugin. *)
Lemma plugin_codes_have_two_statuses `{ErrorText} :
  (plugin_distribution_response "plugin_not_found").1 = (400, "plugin_not_found") ∧
  (storage_response StorageError.PluginPackageNotFound).1 = (404, "plugin_not_found") ∧
  (plugin_distribution_response "plugin_ui_session_invalid").1 = (400, "plugin_ui_session_invalid") ∧
  (storage_response StorageError.PluginUiSessionInvalid).1 = (401, "plugin_ui_session_invalid") ∧
  (plugin_distribution_response "plugin_execution_failed").1 = (400, "plugin_execution_failed") ∧
  (plugin_response PluginExecutionFailed).1 = (503, "plugin_execution_failed").
Proof. done. Qed.
