(* ===== verification/SshApi.v ===== *)
(** * SSH access requests ([src/api/ssh.rs])

    The SSH gateway asks, for a login and the key a client offers, whether the key
    may be used; the answer is a line of [authorized_keys] that permits forwarding
    to the workspace's SSH port and nothing else. *)
From S2P Require Import Prelude Text Json Auth Quota Templates Workspaces Errors ShrinkOperation RuntimeEvents Quantity Database WorkspaceStore JobStore Events JobQueue WorkspaceActions ShrinkStore Reconcile Injections Catalog Idempotency Crypto InjectionStore Identity ApiKeys Incidents Names SshStore Api.

Record AuthorizedKeyQuery := mkKeyQuery {
  kq_login : string;
  kq_key_type : string;
  kq_key_base64 : string;
}.

(** The quotation mark. *)
Definition quote : string := string_of_bytes [34].

Section SshApi.
Context {K : Type} `{ApiHost K} `{UuidText} `{Sha256} `{Aead} `{Base64Codec}.

Definition verify_internal_caller (st : AppState) (headers : HeaderMap) : result ApiError.t () :=
  ensure (internal_caller_allowed st (bearer headers)) ApiError.Unauthorized.

Definition validate_offered_key (q : AuthorizedKeyQuery) : result ApiError.t () :=
  let key_type_valid :=
    negb (bool_decide (kq_key_type q = "")) && (len (kq_key_type q) <=? 128)
    && forallb (λ c, is_ascii_alphanumeric c || bool_decide (c ∈ bytes "@._-")) (chars (kq_key_type q)) in
  let key_blob_valid := (len (kq_key_base64 q) <=? 16384) && is_some (base64_decode (kq_key_base64 q)) in
  ensure (key_type_valid && key_blob_valid) ApiError.Unauthorized.

Definition public_key_matches (offered : AuthorizedKeyQuery) (item : InjectionItem) : bool :=
  bool_decide (ii_kind item = SshPublicKey)
  && match ii_value item with
     | Utf8 value =>
         match split_ascii_whitespace (bytes value) with
         | kind :: blob :: _ => bool_decide (kind = bytes (kq_key_type offered)) && bool_decide (blob = bytes (kq_key_base64 offered))
         | _ => false
         end
     | Base64 _ => false
     end.

(** The loop over the candidates. *)
Fixpoint find_authorized (st : AppState) (cipher : EnvelopeCipher) (offered : AuthorizedKeyQuery) (candidates : list Uuid)
    : ApiM K (option Uuid) :=
  match candidates with
  | [] => mret None
  | user_id :: rest =>
      keys ← call (load_injections (st_installation_id st) cipher (mkScopeRef UserScope user_id));
      if existsb (public_key_matches offered) keys then mret (Some user_id) else find_authorized st cipher offered rest
  end.

Definition ssh_target (names : WorkspaceRuntimeNames) : string :=
  service (resources_of names) +:+ "." +:+ WORKSPACE_NAMESPACE +:+ ".svc.cluster.local:2222".

Definition authorized_line (target : string) (q : AuthorizedKeyQuery) (user_id : Uuid) : string :=
  "restrict,port-forwarding,permitopen=" +:+ quote +:+ target +:+ quote +:+ " " +:+ kq_key_type q +:+ " " +:+ kq_key_base64 q
  +:+ " mwc-user-" +:+ uuid_to_string user_id +:+ newline.

Definition text_response (headers : list (string * string)) (body : string) : Response :=
  mkResponse 200 "text/plain; charset=utf-8" (headers ++ [("cache-control", "no-store")]) body.

Definition authorized_key (st : AppState) (headers : HeaderMap) (q : AuthorizedKeyQuery) : ApiM K Response :=
  let inst := st_installation_id st in
  _ ← answer (verify_internal_caller st headers);
  _ ← answer (validate_offered_key q);
  short_id ← answer (ok_or (strip_prefix (bytes "access+") (bytes (kq_login q))) ApiError.Unauthorized);
  _ ← require (negb (bool_decide (short_id = []))) ApiError.Unauthorized;
  w ← call (get_workspace_by_short_id inst (string_of_bytes short_id));
  _ ← require (bool_decide (ws_state w = Ready) && bool_decide (access_mode (ws_template w) = Public)) ApiError.Unauthorized;
  cipher ← answer (ok_or (st_cipher st) ApiError.EncryptionUnavailable);
  candidates ← call (ssh_access_candidates inst (ws_organization_id w));
  found ← find_authorized st cipher q candidates;
  user_id ← answer (ok_or found ApiError.Unauthorized);
  names ← answer (ok_or (for_workspace_names inst (ws_short_id w)) ApiError.Unauthorized);
  mret (text_response [("x-mwc-user-id", uuid_to_string user_id); ("x-mwc-workspace-id", uuid_to_string (ws_id w))]
          (authorized_line (ssh_target names) q user_id)).

Fixpoint join_lines (lines : list string) : string :=
  match lines with
  | [] => ""
  | [line] => line
  | line :: rest => line +:+ newline +:+ join_lines rest
  end.

Definition login_users (st : AppState) (headers : HeaderMap) : ApiM K Response :=
  _ ← answer (verify_internal_caller st headers);
  logins ← call (list_public_ssh_logins (st_installation_id st));
  let body := join_lines logins in
  mret (text_response [] (if bool_decide (body = "") then body else body +:+ newline)).
End SshApi.

(** ** Lemmas *)
Definition is_base64_byte (b : Z) : bool := is_ascii_alphanumeric b || bool_decide (b ∈ bytes "+/=").

(** The decoder accepts text over its alphabet only. *)
Class Base64Alphabet `{Base64Codec} : Prop :=
  base64_alphabet s bs : base64_decode s = Some bs → forallb is_base64_byte (bytes s) = true.

(** A user whose stored key is the one that is offered. *)
Definition may_use_key `{UuidText, Aead, Base64Codec} (inst : string) (cipher : EnvelopeCipher) (q : AuthorizedKeyQuery)
    (db : Db) (organization_id user_id : Uuid) : Prop :=
  ∃ user items item text rest,
    t_users db !! user_id = Some user ∧ u_installation_id user = inst ∧ u_disabled user = false ∧
    (u_system_admin user = true ∨ is_Some (t_memberships db !! (inst, organization_id, user_id))) ∧
    load_injections inst cipher (mkScopeRef UserScope user_id) db = (Ok items, db) ∧ item ∈ items ∧
    ii_kind item = SshPublicKey ∧ ii_value item = Utf8 text ∧
    split_ascii_whitespace (bytes text) = bytes (kq_key_type q) :: bytes (kq_key_base64 q) :: rest.

Section Lemmas.
Context {K : Type} `{ApiHost K} `{UuidText} `{Sha256} `{Aead} `{Base64Codec}.

Lemma load_injections_db inst cipher scope db : (load_injections inst cipher scope db).2 = db.
Proof. done. Qed.

Lemma public_key_matches_spec q item : public_key_matches q item = true ↔
  ii_kind item = SshPublicKey ∧ ∃ text rest, ii_value item = Utf8 text ∧
    split_ascii_whitespace (bytes text) = bytes (kq_key_type q) :: bytes (kq_key_base64 q) :: rest.
Proof.
  unfold public_key_matches. rewrite andb_true_iff, bool_decide_eq_true. apply and_iff_compat_l.
  destruct (ii_value item) as [text|]; [|split; [done|naive_solver]].
  destruct (split_ascii_whitespace (bytes text)) as [|kind [|blob rest]] eqn:E; [naive_solver congruence..|].
  rewrite andb_true_iff, !bool_decide_eq_true. split; [|naive_solver congruence].
  intros [-> ->]. by exists text, rest.
Qed.

Lemma candidate_spec inst org db user_id :
  user_id ∈ merge_sort (λ a b : Uuid, String.le (uuid_to_string a) (uuid_to_string b))
              (fst <$> List.filter (λ kv : Uuid * UserRow, is_candidate inst org db kv.1 kv.2) (map_to_list (t_users db))) ↔
  ∃ user, t_users db !! user_id = Some user ∧ u_installation_id user = inst ∧ u_disabled user = false ∧
    (u_system_admin user = true ∨ is_Some (t_memberships db !! (inst, org, user_id))).
Proof.
  rewrite merge_sort_Permutation, list_elem_of_fmap. setoid_rewrite list_elem_of_In. setoid_rewrite filter_In. unfold is_candidate.
  split.
  - intros ([id user] & -> & Hin & Hc). apply list_elem_of_In, elem_of_map_to_list in Hin. cbn in *. exists user. split; [done|].
    apply andb_true_iff in Hc as [[<-%String.eqb_eq Hd%negb_true_iff]%andb_true_iff Hm%orb_true_iff]. split_and!; [done..|]. destruct Hm as [|Hm]; [by left|right; revert Hm; destruct (t_memberships db !! _); [by eauto|done]].
  - intros (user & Hu & <- & Hd & Hm). exists (user_id, user). split; [done|]. split; [by apply list_elem_of_In, elem_of_map_to_list|].
    cbn. rewrite String.eqb_refl, Hd. cbn. destruct Hm as [->|[m ->]]; [done|]. by rewrite orb_true_r.
Qed.

Lemma find_authorized_Ok st cipher q candidates w user_id w' :
  find_authorized st cipher q candidates w = (Ok (Some user_id), w') →
  user_id ∈ candidates ∧ ∃ items item, load_injections (st_installation_id st) cipher (mkScopeRef UserScope user_id) (w_db w) = (Ok items, w_db w) ∧
    item ∈ items ∧ public_key_matches q item = true.
Proof.
  revert w. induction candidates as [|u rest IH]; intros w Hrun; [done|]. cbn [find_authorized] in Hrun. api_step Hrun.
  pose proof (f_equal snd Hy) as Hdb. rewrite load_injections_db in Hdb. cbn in Hdb.
  destruct (existsb (public_key_matches q) y) eqn:Hex.
  - injection Hrun as -> <-. split; [left|]. apply existsb_exists in Hex as (item & Hin & Hm).
    exists y, item. rewrite Hdb at 2. split_and!; [done|by apply list_elem_of_In|done].
  - apply IH in Hrun as [Hin Hrest]. rewrite <-Hdb in Hrest. split; [by right|done].
Qed.

#[local] Instance find_authorized_reads R `{!PreOrder R} st cipher q candidates :
  ApiPreserves R (find_authorized (K := K) st cipher q candidates).
Proof. induction candidates as [|u rest IH]; cbn [find_authorized]; apply _. Qed.

#[local] Instance by_short_id_read_only inst short_id : ReadOnly (get_workspace_by_short_id inst short_id).
Proof. unfold get_workspace_by_short_id. apply read_only_bind; [apply _|]. intros [[id row]|]; apply _. Qed.

Lemma authorized_key_reads st headers q w r w' : authorized_key (K := K) st headers q w = (r, w') → w_db w' = w_db w.
Proof.
  assert (ApiPreserves (λ db db', db' = db) (authorized_key (K := K) st headers q)) as Hp; [|apply Hp].
  assert (PreOrder (λ db db' : Db, db' = db)) by (split; [by intros ?|intros ??? -> ->; done]).
  unfold authorized_key. apply _.
Qed.

Lemma by_short_id_Ok inst short_id db w db' : get_workspace_by_short_id inst short_id db = (Ok w, db') → ws_short_id w = short_id.
Proof.
  unfold get_workspace_by_short_id. intros Hrun. apply bind_run_Ok in Hrun as (row & db1 & Hrow & Hdec). injection Hrow as <- <-.
  destruct (List.find _ _) as [[id row]|] eqn:Hf; [|done]. apply find_some in Hf as [_ Hf]. cbn in Hf.
  apply andb_true_iff in Hf as [_ Hs%String.eqb_eq]. subst short_id. injection Hdec as Hdec _.
  unfold decode_workspace in Hdec. inv_binds. by simplify_eq/=.
Qed.

(** ** The line *)
Definition printable_byte (b : Z) : bool := (32 <=? b) && (b <=? 126).

Lemma key_byte_small c : is_ascii_alphanumeric c || bool_decide (c ∈ bytes "@._-") = true → 0 <= c < 128.
Proof.
  unfold is_ascii_alphanumeric, is_ascii_alphabetic, is_ascii_lowercase, is_ascii_uppercase, is_ascii_digit, in_range.
  rewrite !orb_true_iff, !andb_true_iff, bool_decide_eq_true, !Z.leb_le. cbn. rewrite !elem_of_cons, elem_of_nil. lia.
Qed.

Lemma key_byte_safe c : is_ascii_alphanumeric c || bool_decide (c ∈ bytes "@._-") = true → printable_byte c = true.
Proof.
  unfold printable_byte, is_ascii_alphanumeric, is_ascii_alphabetic, is_ascii_lowercase, is_ascii_uppercase, is_ascii_digit, in_range.
  rewrite !orb_true_iff, !andb_true_iff, bool_decide_eq_true, !Z.leb_le. cbn. rewrite !elem_of_cons, elem_of_nil. lia.
Qed.

Lemma base64_byte_safe c : is_base64_byte c = true → printable_byte c = true.
Proof.
  unfold printable_byte, is_base64_byte, is_ascii_alphanumeric, is_ascii_alphabetic, is_ascii_lowercase, is_ascii_uppercase, is_ascii_digit,
    in_range.
  rewrite !orb_true_iff, !andb_true_iff, bool_decide_eq_true, !Z.leb_le. cbn. rewrite !elem_of_cons, elem_of_nil. lia.
Qed.

Lemma dns_byte_safe c : dns_byte c = true → printable_byte c = true.
Proof.
  unfold printable_byte, dns_byte, label_edge, is_ascii_lowercase, is_ascii_digit, in_range, c_dash.
  rewrite !orb_true_iff, !andb_true_iff, !Z.leb_le, Z.eqb_eq. lia.
Qed.

Lemma forallb_printable (p : Z → bool) bs : (∀ c, p c = true → printable_byte c = true) → forallb p bs = true → forallb printable_byte bs = true.
Proof. intros Hp. rewrite !forallb_forall. auto. Qed.

(** An accepted offer is printable. *)
Lemma offered_key_safe `{!Base64Alphabet} q : valid_utf8 (bytes (kq_key_type q)) = true → validate_offered_key q = Ok () →
  forallb printable_byte (bytes (kq_key_type q)) = true ∧ forallb printable_byte (bytes (kq_key_base64 q)) = true.
Proof.
  intros Hu [[_ Hc]%andb_true_iff [_ Hb]%andb_true_iff]%ensure_Ok%andb_true_iff. split.
  - eapply forallb_printable; [exact key_byte_safe|]. exact (ascii_of_decoded _ key_byte_small _ _ (le_n _) Hu Hc).
  - destruct (base64_decode (kq_key_base64 q)) eqn:E; [|done]. eapply forallb_printable; [exact base64_byte_safe|]. by eapply base64_alphabet.
Qed.

Lemma not_newline bs : forallb printable_byte bs = true → 10 ∉ bs.
Proof. intros Hs Hin. by specialize (forallb_elem _ _ _ Hs Hin). Qed.

(** The answer is one line. *)
Lemma authorized_line_single `{!Base64Alphabet} inst short names q user_id :
  (∀ u : Uuid, forallb printable_byte (bytes (uuid_to_string u)) = true) → valid_utf8 (bytes (kq_key_type q)) = true →
  validate_offered_key q = Ok () → valid_utf8 (bytes short) = true → for_workspace_names inst short = Some names →
  ∃ line, authorized_line (ssh_target names) q user_id = line +:+ newline ∧ 10 ∉ bytes line.
Proof.
  intros Huuid Hut Hoff Hus Hn. destruct (offered_key_safe q Hut Hoff) as [Ht Hb].
  unfold for_workspace_names in Hn. destruct (_ && _) eqn:Hv; [|done]. injection Hn as <-.
  do 3 (apply andb_true_iff in Hv as [Hv _]). apply andb_true_iff in Hv as [_ Hl].
  apply valid_label in Hl as [Hl _]; [|done]. eapply forallb_printable in Hl; [|exact dns_byte_safe].
  eexists ("restrict,port-forwarding,permitopen=" +:+ quote +:+ ssh_target _ +:+ quote +:+ " " +:+ kq_key_type q +:+ " "
           +:+ kq_key_base64 q +:+ " mwc-user-" +:+ uuid_to_string user_id). split.
  - unfold authorized_line. apply (inj bytes). rewrite !bytes_app, <-!app_assoc. done.
  - unfold ssh_target. cbn [resources_of service for_prefix]. rewrite !bytes_app, !not_elem_of_app.
    split_and!; by apply not_newline.
Qed.

Lemma may_use_key_spec inst cipher q db org user_id :
  may_use_key inst cipher q db org user_id ↔
  (∃ user, t_users db !! user_id = Some user ∧ u_installation_id user = inst ∧ u_disabled user = false ∧
    (u_system_admin user = true ∨ is_Some (t_memberships db !! (inst, org, user_id)))) ∧
  ∃ items item, load_injections inst cipher (mkScopeRef UserScope user_id) db = (Ok items, db) ∧ item ∈ items ∧
    public_key_matches q item = true.
Proof. setoid_rewrite public_key_matches_spec. unfold may_use_key. naive_solver. Qed.

(** A key is found as soon as one candidate has it, if all can be read. *)
Lemma find_authorized_complete st cipher q candidates w user_id :
  (∀ k, (api_lost k).1 = false) → user_id ∈ candidates →
  (∀ id, id ∈ candidates → ∃ items, load_injections (st_installation_id st) cipher (mkScopeRef UserScope id) (w_db w) = (Ok items, w_db w)) →
  (∃ items item, load_injections (st_installation_id st) cipher (mkScopeRef UserScope user_id) (w_db w) = (Ok items, w_db w) ∧
     item ∈ items ∧ public_key_matches q item = true) →
  ∃ found w', find_authorized st cipher q candidates w = (Ok (Some found), w').
Proof.
  intros Hlost. revert w. induction candidates as [|u rest IH]; intros w Hin Hall Hkey; [by apply elem_of_nil in Hin|].
  cbn [find_authorized]. destruct (Hall u) as [items Hitems]; [left|]. specialize (Hlost (w_k w)).
  destruct (api_lost (w_k w)) as [lost k] eqn:Hk. cbn in Hlost. subst lost.
  rewrite api_bind_run, (call_run _ _ _ Hk), Hitems. cbn [fst snd map_err].
  destruct (existsb (public_key_matches q) items) eqn:Hex; [by eexists _, _|].
  apply elem_of_cons in Hin as [->|Hin].
  - destruct Hkey as (items' & item & Hload & Hin & Hm). rewrite Hitems in Hload. injection Hload as ->.
    assert (existsb (public_key_matches q) items' = true); [|congruence]. apply existsb_exists. exists item. by split; [apply list_elem_of_In|].
  - apply IH; cbn [w_db]; [done| |done]. intros id Hid. apply Hall. by right.
Qed.

Lemma read_only_run {A} (m : DbM A) db r db' : ReadOnly m → m db = (r, db') → db' = db.
Proof. intros Hm E. specialize (Hm db). by rewrite E in Hm. Qed.

(** What an answer has gone through. *)
Lemma authorized_key_Ok st headers q w resp w' : authorized_key (K := K) st headers q w = (Ok resp, w') →
  let inst := st_installation_id st in
  internal_caller_allowed st (bearer headers) = true ∧ validate_offered_key q = Ok () ∧
  ∃ workspace cipher user_id names,
    kq_login q = "access+" +:+ ws_short_id workspace ∧
    get_workspace_by_short_id inst (ws_short_id workspace) (w_db w) = (Ok workspace, w_db w) ∧
    ws_state workspace = Ready ∧ access_mode (ws_template workspace) = Public ∧ st_cipher st = Some cipher ∧
    may_use_key inst cipher q (w_db w) (ws_organization_id workspace) user_id ∧
    for_workspace_names inst (ws_short_id workspace) = Some names ∧
    rs_body resp = authorized_line (ssh_target names) q user_id.
Proof.
  intros Hrun inst. unfold authorized_key in Hrun. do 4 api_step Hrun. rename Hy into Hcaller, Hy0 into Hoff, Hy1 into Hlogin.
  api_step Hrun. rename y into short_id, y0 into workspace. pose proof (by_short_id_Ok _ _ _ _ _ Hy) as Hs.
  pose proof (read_only_run _ _ _ _ _ Hy) as Hw. rewrite Hw in Hy. api_step Hrun. api_step Hrun. rename y into cipher, Hy1 into Hcipher.
  api_step Hrun. unfold ssh_access_candidates, reads in Hy1. injection Hy1 as <- Hc. api_step Hrun. rename y into found, Hy1 into Hfind. api_step Hrun. subst found.
  apply find_authorized_Ok in Hfind as [Hin Hkey]. api_step Hrun. rename y0 into names, Hy1 into Hnames. injection Hrun as <- _.
  rewrite <-Hc, Hw in Hkey. rewrite Hw in Hin. apply candidate_spec in Hin.
  apply strip_prefix_Some in Hlogin. rewrite <-Hs in Hy. apply andb_true_iff in Hy0 as [Hr%bool_decide_eq_true Hp%bool_decide_eq_true].
  split_and!; [done|by unfold validate_offered_key; rewrite Hoff|]. exists workspace, cipher, y, names. split_and!; try done.
  - rewrite Hs. apply (inj bytes). rewrite bytes_app, Hlogin. f_equal. symmetry. eapply bytes_suffix, Hlogin.
  - by apply may_use_key_spec.
Qed.

(** All conditions met, the handler answers. *)
Lemma authorized_key_complete st headers q w workspace cipher user_id names :
  let inst := st_installation_id st in
  (∀ k, (api_lost k).1 = false) → internal_caller_allowed st (bearer headers) = true → validate_offered_key q = Ok () →
  kq_login q = "access+" +:+ ws_short_id workspace → ws_short_id workspace ≠ "" →
  get_workspace_by_short_id inst (ws_short_id workspace) (w_db w) = (Ok workspace, w_db w) →
  ws_state workspace = Ready → access_mode (ws_template workspace) = Public → st_cipher st = Some cipher →
  for_workspace_names inst (ws_short_id workspace) = Some names →
  may_use_key inst cipher q (w_db w) (ws_organization_id workspace) user_id →
  (∀ id user, t_users (w_db w) !! id = Some user →
     ∃ items, load_injections inst cipher (mkScopeRef UserScope id) (w_db w) = (Ok items, w_db w)) →
  ∃ resp w', authorized_key (K := K) st headers q w = (Ok resp, w').
Proof.
  intros inst Hlost Hcaller Hoff Hlogin Hne Hget Hready Hpub Hcipher Hnames [Huser Hkey]%may_use_key_spec Hall.
  assert (∀ k, ∃ k', api_lost k = (false, k')) as Hk by (intros k; specialize (Hlost k); destruct (api_lost k); cbn in Hlost; subst; eauto).
  unfold authorized_key. rewrite api_bind_run. unfold answer at 1, verify_internal_caller. rewrite Hcaller. cbn [ensure].
  rewrite api_bind_run. unfold answer at 1. rewrite Hoff. rewrite api_bind_run. unfold answer at 1.
  rewrite Hlogin, bytes_app, (proj2 (strip_prefix_Some _ _ _) eq_refl). cbn [ok_or].
  rewrite api_bind_run. unfold require, answer at 1. rewrite bool_decide_eq_false_2; [|intros E; apply Hne, (inj bytes); by rewrite E].
  cbn [negb ensure]. rewrite api_bind_run, string_of_bytes_bytes. destruct (Hk (w_k w)) as [k Hw]. rewrite (call_run _ _ _ Hw).
  fold inst. rewrite Hget. cbn [fst snd map_err]. rewrite api_bind_run. unfold require, answer at 1.
  rewrite Hready, Hpub, !bool_decide_eq_true_2 by done. cbn [andb ensure].
  rewrite api_bind_run. unfold answer at 1. rewrite Hcipher. cbn [ok_or]. rewrite api_bind_run.
  destruct (Hk k) as [k2 Hw2]. rewrite (call_run _ (mkWorld (w_db w) k) _ Hw2). cbn [fst snd map_err ssh_access_candidates reads w_db].
  apply (candidate_spec inst) in Huser.
  destruct (find_authorized_complete st cipher q _ (mkWorld (w_db w) k2) user_id Hlost Huser) as (found & w3 & Hfind); [|done|].
  { intros id (user & Hu & _)%candidate_spec. cbn. by eapply Hall. }
  rewrite api_bind_run. unfold ssh_access_candidates, reads. cbn [fst snd map_err]. fold inst. rewrite Hfind.
  rewrite api_bind_run. cbn [answer ok_or]. rewrite api_bind_run. unfold answer. rewrite Hnames. by eexists _, _.
Qed.

(** C31: the gateway admits a key exactly for its owner: an answer is given only to
    the gateway itself, for a workspace that is ready and publicly reachable, and
    for a key stored by an enabled user who administers the system or is a member
    of the workspace's organization; it is one line that permits forwarding to that
    workspace's SSH port only and names that user. Conversely, if the injections of
    all candidates can be read, every such key is admitted. Nothing is changed. *)
Theorem ssh_key_authorised `{!Base64Alphabet} st headers q w r w' :
  (∀ u : Uuid, forallb printable_byte (bytes (uuid_to_string u)) = true) →
  valid_utf8 (bytes (kq_login q)) = true → valid_utf8 (bytes (kq_key_type q)) = true →
  authorized_key (K := K) st headers q w = (r, w') →
  let inst := st_installation_id st in
  w_db w' = w_db w ∧
  (∀ resp, r = Ok resp →
     internal_caller_allowed st (bearer headers) = true ∧
     ∃ workspace cipher user_id names line,
       kq_login q = "access+" +:+ ws_short_id workspace ∧
       get_workspace_by_short_id inst (ws_short_id workspace) (w_db w) = (Ok workspace, w_db w) ∧
       ws_state workspace = Ready ∧ access_mode (ws_template workspace) = Public ∧ st_cipher st = Some cipher ∧
       may_use_key inst cipher q (w_db w) (ws_organization_id workspace) user_id ∧
       for_workspace_names inst (ws_short_id workspace) = Some names ∧
       rs_body resp = authorized_line (ssh_target names) q user_id ∧ rs_body resp = line +:+ newline ∧ 10 ∉ bytes line) ∧
  (∀ workspace cipher user_id names,
     (∀ k, (api_lost k).1 = false) → internal_caller_allowed st (bearer headers) = true → validate_offered_key q = Ok () →
     kq_login q = "access+" +:+ ws_short_id workspace → ws_short_id workspace ≠ "" →
     get_workspace_by_short_id inst (ws_short_id workspace) (w_db w) = (Ok workspace, w_db w) →
     ws_state workspace = Ready → access_mode (ws_template workspace) = Public → st_cipher st = Some cipher →
     for_workspace_names inst (ws_short_id workspace) = Some names →
     may_use_key inst cipher q (w_db w) (ws_organization_id workspace) user_id →
     (∀ id user, t_users (w_db w) !! id = Some user →
        ∃ items, load_injections inst cipher (mkScopeRef UserScope id) (w_db w) = (Ok items, w_db w)) →
     ∃ resp, r = Ok resp).
Proof.
  intros Huuid Hul Hut Hrun inst. pose proof (authorized_key_reads _ _ _ _ _ _ Hrun) as Hdb. split_and!; [done| |].
  - intros resp ->. destruct (authorized_key_Ok _ _ _ _ _ _ Hrun) as (Hcaller & Hoff & workspace & cipher & user_id & names & Hok).
    split; [done|]. destruct Hok as (Hlogin & Hget & Hr & Hp & Hc & Hm & Hn & Hbody).
    assert (valid_utf8 (bytes (ws_short_id workspace)) = true) as Hus by (rewrite Hlogin, bytes_app in Hul; exact Hul).
    destruct (authorized_line_single _ _ _ q user_id Huuid Hut Hoff Hus Hn) as (line & Hline & Hnl).
    exists workspace, cipher, user_id, names, line. split_and!; try done. by rewrite Hbody.
  - intros workspace cipher user_id names Hlost Hcaller Hoff Hlogin Hne Hget Hready Hpub Hcipher Hnames Hkey Hall.
    destruct (authorized_key_complete st headers q w workspace cipher user_id names) as (resp & w2 & E); try done.
    rewrite Hrun in E. injection E as -> _. by eexists.
Qed.
End Lemmas.

(** ** Witnesses *)
Module GatewaySample.
#[local] Existing Instances decimal_uuid_text CryptoSample.aead CryptoSample.random.
(** A byte as two letters. *)
Definition letter (n : N) : Ascii.ascii := Ascii.ascii_of_N (97 + n).
Definition letter_value (c : Ascii.ascii) : option N :=
  let n := Ascii.N_of_ascii c in if ((97 <=? n) && (n <=? 112))%N then Some (n - 97)%N else None.
Fixpoint decode_letters (l : Octets) : option Octets :=
  match l with
  | [] => Some []
  | a :: b :: rest =>
      hi ← letter_value a; lo ← letter_value b; bs ← decode_letters rest; Some (Ascii.ascii_of_N (16 * hi + lo) :: bs)
  | _ => None
  end.
#[export] Instance codec : Base64Codec := {|
  base64_encode bs := String.string_of_list_ascii
    (bs ≫= λ c, [letter (Ascii.N_of_ascii c / 16); letter (Ascii.N_of_ascii c mod 16)]);
  base64_decode text := decode_letters (octets text) |}.

Lemma letter_value_alphabet c n : letter_value c = Some n → is_base64_byte (Z.of_N (Ascii.N_of_ascii c)) = true.
Proof.
  unfold letter_value. destruct ((97 <=? _) && _)%N eqn:E; [|done]. intros _. apply andb_true_iff in E as [?%N.leb_le ?%N.leb_le].
  unfold is_base64_byte, is_ascii_alphanumeric, is_ascii_alphabetic, is_ascii_lowercase, in_range.
  rewrite (proj2 (Z.leb_le 97 _)), (proj2 (Z.leb_le _ 122)) by lia. done.
Qed.

Lemma decode_letters_alphabet n l bs : (length l <= n)%nat → decode_letters l = Some bs →
  forallb is_base64_byte (map (λ a, Z.of_N (Ascii.N_of_ascii a)) l) = true.
Proof.
  revert l bs. induction n as [|n IH]; intros [|a [|b rest]] bs Hn; try done; cbn in Hn; [lia|]. cbn.
  intros (hi & Hhi & (lo & Hlo & (bs' & Hbs & _)%bind_Some)%bind_Some)%bind_Some.
  rewrite (letter_value_alphabet _ _ Hhi), (letter_value_alphabet _ _ Hlo). cbn. eapply IH; [lia|done].
Qed.

#[export] Instance codec_alphabet : Base64Alphabet.
Proof. intros s bs Hd. by eapply decode_letters_alphabet. Qed.

Lemma decimal_printable u : forallb printable_byte (bytes (uuid_to_string u)) = true.
Proof. cbn. generalize (N.to_uint u). intros d. induction d; cbn; done. Qed.

#[export] Instance digest : Sha256 := λ bs, take 32 (bs ++ replicate 32 0).
(** Nothing is lost, and the time stands still. *)
#[export] Instance host : ApiHost () := {|
  api_clock k := (Some 100, k); auth_clocks k := ((100, 100), k); api_lost k := (false, k) |}.
Definition cipher : EnvelopeCipher := mkCipher (replicate 32 Ascii.zero).
Definition document : WorkspaceTemplateDocument :=
  mkDocument TEMPLATE_API_VERSION TEMPLATE_KIND "node" (standard "registry.example/node:1" Public (mkResources 6000 4096 0 60)).
Definition row : WorkspaceRow := {|
  wr_installation_id := "inst"; wr_short_id := "1000000000000001"; wr_organization_id := 2;
  wr_owner_id := 3; wr_name := "dev"; wr_template_id := None; wr_state := Ready;
  wr_cpu_millis := 6000; wr_memory_mib := 4096; wr_gpu_count := 0; wr_disk_gib := 60;
  wr_temporary_storage_gib := 10; wr_node_pool := "default"; wr_generation := 7; wr_created_at := 100;
  wr_updated_at := 100; wr_snapshot := document; wr_home_pvc_namespace := None; wr_home_pvc_name := None;
  wr_home_pvc_uid := None; wr_home_pvc_capacity_gib := None; wr_scratch_volume_binding := None |}.
(** A member of organization 2 who has stored a key. *)
Definition db0 : Db :=
  set_t_workspaces {[ ActionSample.id := row ]}
    (set_t_memberships {[ ("inst", 2%N, 3%N) := mkMembershipRow Member 10 ]}
       (set_t_users {[ 3%N := mkUserRow "inst" "Ada" "" false false 10 None ]} empty_db)).
Definition key_item : InjectionItem :=
  mkItem "laptop" SshPublicKey "/home/coder/.ssh/laptop.pub" (Utf8 "ssh-ed25519 aaaa ada@laptop") false false 0 None None None None [].
Definition db : Db := (replace_injection "inst" cipher (mkScopeRef UserScope 3) key_item 3 50 db0).2.
Definition state : AppState := mkAppState "inst" None None None None (Some cipher) (Some (sha256 (bytes "secret"))) false false None.
Definition headers : HeaderMap := {[ "authorization" := "Bearer secret" ]}.
Definition query : AuthorizedKeyQuery := mkKeyQuery "access+1000000000000001" "ssh-ed25519" "aaaa".
Definition run := authorized_key state headers query (mkWorld db ()).
Definition line : string :=
  "restrict,port-forwarding,permitopen=" +:+ quote +:+ "w-1000000000000001.memeloop-workspace-control.svc.cluster.local:2222" +:+ quote
  +:+ " ssh-ed25519 aaaa mwc-user-3".
End GatewaySample.
Import (hints) GatewaySample.

Lemma ssh_key_authorised_witness :
  ∃ resp, GatewaySample.run.1 = Ok resp ∧ rs_body resp = GatewaySample.line +:+ newline ∧
    ∃ line, rs_body resp = line +:+ newline ∧ 10 ∉ bytes line.
Proof.
  assert (match GatewaySample.run.1 with Ok resp => rs_body resp | Err _ => "" end = GatewaySample.line +:+ newline) as Hb by by vm_compute.
  destruct GatewaySample.run as [r w'] eqn:E.
  destruct (ssh_key_authorised GatewaySample.state GatewaySample.headers GatewaySample.query _ _ _
              GatewaySample.decimal_printable eq_refl eq_refl E) as (_ & Hok & _).
  cbn [fst] in *. destruct r as [resp|]; [|discriminate Hb].
  destruct (Hok resp eq_refl) as (_ & _ & _ & _ & _ & line & _ & _ & _ & _ & _ & _ & _ & _ & Hline & Hnl).
  exists resp. split; [exact eq_refl|]. split; [exact Hb|]. exists line. split; [exact Hline|exact Hnl].
Defined.
