(* ===== verification/WorkspaceResponse.v ===== *)
(** * How a workspace is shown ([src/api/workspace_response.rs], the status and the
    address of a port mapping of [src/api/port_mappings.rs],
    [workspace_ssh_node_port] of [src/kubernetes/client.rs])

    The answer to a request about a workspace says how to connect to it, when it is
    ready and the caller may connect. What is read from the cluster is the class
    [ApiCluster]: a read fails or gives the object, if there is one. *)
From stdpp Require Import pretty.
From S2P Require Import Prelude Text Json Auth Quota Templates Workspaces Errors ShrinkOperation RuntimeEvents Quantity Database WorkspaceStore JobStore Events JobQueue WorkspaceActions ShrinkStore Reconcile Injections Catalog Idempotency Crypto InjectionStore Creation Identity ApiKeys Tickets Incidents Names SshStore Api SshApi.

(** ** Objects of the cluster, as far as they are read *)
Definition OWNER_INSTALLATION_LABEL : string := "workspace.memeloop.dev/owner-installation".
Definition WORKSPACE_ID_LABEL : string := "workspace.memeloop.dev/workspace-id".

Record ServicePort := mkServicePort { sp_name : option string; sp_node_port : option Z (** i32 *) }.
Record Service := mkService { svc_spec : option (option (list ServicePort)) (** the [ports] of the [spec] *) }.
Record StatefulSet := mkStatefulSet { sts_status : option (option Z) (** the [ready_replicas] of the [status] *) }.
Record Labelled := mkLabelled { lb_labels : option (gmap string string); lb_deletion_timestamp : option string }.

Class ApiCluster (K : Type) := {
  get_service : string → string → K → result () (option Service) * K;
  get_stateful_set : string → string → K → result () (option StatefulSet) * K;
  get_ingress : string → string → K → result () (option Labelled) * K;
  get_namespace : string → K → result () (option Labelled) * K;
}.

Definition node_port_from_service (service : Service) : option Z :=
  ports ← mjoin (svc_spec service);
  port ← List.find (λ p, bool_decide (sp_name p = Some "ssh")) ports;
  port ← sp_node_port port;
  if in_u16 port then Some port else None.

(** ** The response *)
Inductive SshPortStrategy := SshConfig.

Record WorkspaceAppSshConnection := mkAppConnection {
  ac_display_name : string;
  ac_hostname : string;
  ac_ssh_port : option Z;
  ac_port_strategy : SshPortStrategy;
}.

Record WorkspaceSshConnection := mkSshConnection {
  sc_display_name : string;
  sc_alias : string;
  sc_host_key_alias : string;
  sc_known_hosts_entry : option string;
  sc_hostname : string;
  sc_port : Z;
  sc_user : string;
  sc_command : string;
  sc_config : string;
  sc_app : WorkspaceAppSshConnection;
}.

Record WorkspaceDesktopConnection := mkDesktopConnection {
  dc_mapping_id : Uuid;
  dc_display_name : string;
  dc_status : string;
  dc_https_url : option string;
}.

Record WorkspaceResponse := mkWorkspaceResponse {
  rp_workspace : Workspace;
  rp_namespace : string;
  rp_ssh_connection : option WorkspaceSshConnection;
  rp_ssh_host : option string;
  rp_ssh_port : option Z;
  rp_ssh_command : option string;
  rp_ssh_config : option string;
  rp_web_shell_url : option string;
  rp_injection_sources : list ResolvedInjectionSummary;
  rp_workspace_host_key : option WorkspaceSshPublicIdentity;
  rp_jump_host_key : option WorkspaceSshPublicIdentity;
  rp_desktop : option WorkspaceDesktopConnection;
}.

(** [serde_json::to_string] of a response. *)
Class ResponseJson (A : Type) := response_json : A → option string.

Section Connection.
Context (is_alphanumeric : Z → bool).

Definition connection_alias (w : Workspace) : string := alias is_alphanumeric (ws_name w) (ws_short_id w).

Definition port_text (port : Z) : string := pretty (Z.to_N port).

Definition ssh_config_text (alias host : string) (port : Z) (user : string) (proxy_jump : option string) : string :=
  "Host " +:+ alias +:+ newline +:+ "  HostName " +:+ host +:+ newline +:+ "  Port " +:+ port_text port +:+ newline
  +:+ "  User " +:+ user +:+ newline
  +:+ match proxy_jump with Some jump => "  ProxyJump " +:+ jump +:+ newline | None => "" end
  +:+ "  HostKeyAlias " +:+ alias +:+ newline.

Definition ssh_commands (w : Workspace) (endpoint : option (string * Z)) (public_host : option string) (connectable : bool)
    : option string * option string :=
  if negb connectable then (None, None)
  else match endpoint with
  | None => (None, None)
  | Some (host, port) =>
      let user := workspace_user (ws_template w) in
      let alias := connection_alias w in
      match access_mode (ws_template w), public_host with
      | Public, Some jump_host =>
          let jump_login := "access+" +:+ ws_short_id w +:+ "@" +:+ jump_host in
          (Some ("ssh -o HostKeyAlias=" +:+ alias +:+ " -J " +:+ jump_login +:+ " -p " +:+ port_text port +:+ " " +:+ user +:+ "@" +:+ host),
           Some (ssh_config_text alias host port user (Some jump_login)))
      | Internal, _ =>
          (Some ("ssh -o HostKeyAlias=" +:+ alias +:+ " -p " +:+ port_text port +:+ " " +:+ user +:+ "@" +:+ host),
           Some (ssh_config_text alias host port user None))
      | Public, None => (None, None)
      end
  end.

Definition structured_ssh_connection (w : Workspace) (endpoint : option (string * Z)) (command config : option string)
    (connectable : bool) : option WorkspaceSshConnection :=
  endpoint ← endpoint;
  command ← command;
  config ← config;
  if negb connectable then None
  else
    let alias := connection_alias w in
    Some (mkSshConnection (ws_name w) alias alias None endpoint.1 endpoint.2 (workspace_user (ws_template w)) command config
            (mkAppConnection (ws_name w) alias None SshConfig)).

Definition normalize_host_key (w : Workspace) (key : option WorkspaceSshPublicIdentity)
    : result ApiError.t (option WorkspaceSshPublicIdentity) :=
  match key with
  | None => Ok None
  | Some key =>
      text ← ok_or (public_key_with_comment (public_key key) (connection_alias w))
               (ApiError.BadRequest "workspace host key is invalid");
      Ok (Some (mkPublicIdentity (algorithm key) text (fingerprint key)))
  end.

(** The entry of [known_hosts] that is filled in afterwards. *)
Definition set_known_hosts (key : option WorkspaceSshPublicIdentity) (c : WorkspaceSshConnection) : WorkspaceSshConnection :=
  mkSshConnection (sc_display_name c) (sc_alias c) (sc_host_key_alias c)
    ((λ key, sc_host_key_alias c +:+ " " +:+ public_key key) <$> key)
    (sc_hostname c) (sc_port c) (sc_user c) (sc_command c) (sc_config c) (sc_app c).
End Connection.

Definition desktop_mapping_is_connectable (workspace_connectable : bool) (mapping_status : string) : bool :=
  workspace_connectable && String.eqb mapping_status "ready".
Definition workspace_desktop_is_connectable (state : WorkspaceState) : bool := bool_decide (state = Ready).

Section Response.
Context {K : Type} `{ApiHost K} `{ApiCluster K} `{UuidText} `{Aead} `{Base64Codec} (is_alphanumeric : Z → bool).

(** A read of the cluster; [ApiError::Kubernetes] when it fails. *)
Definition observe {A} (m : K → result () A * K) : ApiM K A :=
  r ← outside m; answer (map_err (λ _, ApiError.Kubernetes) r).

Definition runtime_names (st : AppState) (w : Workspace) : result ApiError.t WorkspaceRuntimeNames :=
  ok_or (for_workspace_names (st_installation_id st) (ws_short_id w)) (ApiError.BadRequest "workspace runtime identity is invalid").

(** [workspace_ssh_node_port]; names that are not valid are a cluster error there. *)
Definition workspace_ssh_node_port (st : AppState) (w : Workspace) : ApiM K (option Z) :=
  names ← answer (ok_or (for_workspace_names (st_installation_id st) (ws_short_id w)) ApiError.Kubernetes);
  service ← observe (get_service WORKSPACE_NAMESPACE (ssh_service (resources_of names)));
  mret (service ≫= node_port_from_service).

Definition cluster_endpoint (names : WorkspaceRuntimeNames) (namespace : string) : string * Z :=
  (service (resources_of names) +:+ "." +:+ namespace +:+ ".svc.cluster.local", 2222).

Definition ssh_endpoint (st : AppState) (w : Workspace) (namespace : string) (connectable : bool)
    : ApiM K (option (string * Z)) :=
  names ← answer (runtime_names st w);
  let cluster := cluster_endpoint names namespace in
  if bool_decide (access_mode (ws_template w) = Public) then mret (Some cluster)
  else match st_internal_ssh_host st with
  | None => mret (Some cluster)
  | Some host =>
      if negb connectable then mret None
      else
        _ ← require (st_has_kubernetes_client st) ApiError.KubernetesUnavailable;
        port ← workspace_ssh_node_port st w;
        mret (pair host <$> port)
  end.

(** ** Port mappings, as they are shown *)
Definition mapping_domain (st : AppState) : result ApiError.t string :=
  ok_or (st_port_mapping_public_domain st) ApiError.KubernetesUnavailable.

Definition mapping_origin (st : AppState) (m : PortMapping) : result ApiError.t string :=
  domain ← mapping_domain st; Ok ("https://p-" +:+ uuid_simple (mp_id m) +:+ "." +:+ domain).

Definition mapping_https_url (st : AppState) (m : PortMapping) : result ApiError.t string := mapping_origin st m.

Definition is_desktop_mapping (w : Workspace) (m : PortMapping) : bool :=
  bool_decide (mp_workspace_id m = ws_id w) && is_some_and (desktop (ws_template w)) (λ d, internal_port d =? mp_internal_port m).

(** An error of the read counts as not ready. *)
Definition desktop_ready (runtime : option WorkspaceRuntimeNames) : ApiM K bool :=
  match runtime with
  | None => mret true
  | Some runtime =>
      r ← outside (get_stateful_set WORKSPACE_NAMESPACE (stateful_set (resources_of runtime)));
      let set := match r with Ok set => set | Err _ => None end in
      mret (bool_decide (mjoin (sts_status <$> set) = Some (Some 1)))
  end.

Definition ingress_owned (st : AppState) (w : Workspace) (m : PortMapping) (ingress : Labelled) : bool :=
  is_some_and (lb_labels ingress) (λ labels : gmap string string,
    bool_decide (labels !! "workspace.memeloop.dev/port-mapping-id" = Some (uuid_to_string (mp_id m)))
    && bool_decide (labels !! OWNER_INSTALLATION_LABEL = Some (st_installation_id st))
    && bool_decide (labels !! WORKSPACE_ID_LABEL = Some (uuid_to_string (ws_id w)))).

(** The two reads of the source are concurrent; neither has an effect. *)
Definition mapping_status (st : AppState) (w : Workspace) (m : PortMapping) : ApiM K string :=
  if negb (bool_decide (ws_state w = Ready)) then mret (state_as_str (ws_state w))
  else if negb (st_has_kubernetes_client st) then mret "provisioning"
  else
    let runtime := for_workspace_names (st_installation_id st) (ws_short_id w) in
    if is_desktop_mapping w m && negb (is_some runtime) then mret "failed"
    else
      ready ← desktop_ready (if is_desktop_mapping w m then runtime else None);
      ingress ← outside (get_ingress WORKSPACE_NAMESPACE ("port-" +:+ uuid_simple (mp_id m)));
      if negb ready then mret "provisioning"
      else match ingress with
      | Ok (Some ingress) => mret (if ingress_owned st w m ingress then "ready" else "provisioning")
      | Ok None => mret "provisioning"
      | Err _ => mret "failed"
      end.

Definition desktop_connection (st : AppState) (w : Workspace) (connectable : bool) : ApiM K (option WorkspaceDesktopConnection) :=
  match desktop (ws_template w) with
  | None => mret None
  | Some endpoint =>
      mappings ← call (list_port_mappings (st_installation_id st) (ws_id w));
      match List.find (λ m, mp_internal_port m =? internal_port endpoint) mappings with
      | None => mret None
      | Some m =>
          status ← (if workspace_desktop_is_connectable (ws_state w) then mapping_status st w m
                    else mret (state_as_str (ws_state w)));
          url ← (if desktop_mapping_is_connectable connectable status
                 then url ← answer (mapping_https_url st m); mret (Some url) else mret None);
          mret (Some (mkDesktopConnection (mp_id m) (default "Browser desktop" (mp_display_name m)) status url))
      end
  end.

(** ** Injections *)
Definition injection_sources (st : AppState) (w : Workspace) : ApiM K (list ResolvedInjectionSummary) :=
  match st_cipher st with
  | None => mret []
  | Some cipher =>
      let inst := st_installation_id st in
      let load scope id := call (load_injections inst cipher (mkScopeRef scope id)) in
      organization ← load OrganizationScope (ws_organization_id w);
      user ← load UserScope (ws_owner_id w);
      workspace_items ← load WorkspaceScope (ws_id w);
      let selection := workspace_selection w in
      refs ← call (workspace_injection_refs inst (ws_id w));
      resolved ← answer (map_err ApiError.Injection
        (resolve_injections
           (filter_injection_refs (select_injections organization selection) (refs_organization refs) true)
           (filter_injection_refs (select_injections user selection) (refs_user refs) false)
           (select_injections workspace_items selection)));
      mret (summary <$> resolved)
  end.

(** The two futures of the source are joined: both run, and the error of the
    first is reported before the second's. *)
Definition workspace_response (st : AppState) (w : Workspace) (expose_connection : bool) : ApiM K WorkspaceResponse :=
  let namespace := WORKSPACE_NAMESPACE in
  names ← answer (runtime_names st w);
  let connectable := expose_connection && bool_decide (ws_state w = Ready) in
  internal_endpoint ← attempt (ssh_endpoint st w namespace connectable);
  desktop ← attempt (desktop_connection st w connectable);
  internal_endpoint ← answer internal_endpoint;
  let '(ssh_command, ssh_config) := ssh_commands is_alphanumeric w internal_endpoint (st_ssh_public_host st) connectable in
  let web_shell_url :=
    if connectable then (λ origin, origin +:+ web_shell_path names) <$> st_web_shell_public_origin st else None in
  sources ← injection_sources st w;
  host_key ← (if connectable then call (workspace_ssh_public_identity (st_installation_id st) (ws_id w)) else mret None);
  host_key ← answer (normalize_host_key is_alphanumeric w host_key);
  let jump_host_key :=
    if connectable && bool_decide (access_mode (ws_template w) = Public) then st_jump_host_public_key st else None in
  let ssh_connection :=
    set_known_hosts host_key <$> structured_ssh_connection is_alphanumeric w internal_endpoint ssh_command ssh_config connectable in
  desktop ← answer desktop;
  mret (mkWorkspaceResponse w namespace ssh_connection
          (if connectable then fst <$> internal_endpoint else None) (if connectable then snd <$> internal_endpoint else None)
          ssh_command ssh_config web_shell_url sources host_key jump_host_key desktop).

Context `{!ResponseJson WorkspaceResponse}.

Definition complete_workspace_response (st : AppState) (scope key request_hash : string) (status : Z) (expose_connection : bool)
    (w : Workspace) : ApiM K Response :=
  response ← workspace_response st w expose_connection;
  text ← answer (ok_or (response_json response) (ApiError.BadRequest "response serialization failed"));
  _ ← call (finish_idempotency (st_installation_id st) (mkCompletion scope key request_hash status text));
  mret (json_response status text).
End Response.

(** ** Who learns how to connect *)

(** What a response reveals: every field that helps to connect. *)
Definition reveals_nothing (r : WorkspaceResponse) : Prop :=
  rp_ssh_connection r = None ∧ rp_ssh_host r = None ∧ rp_ssh_port r = None ∧ rp_ssh_command r = None ∧ rp_ssh_config r = None ∧
  rp_web_shell_url r = None ∧ rp_workspace_host_key r = None ∧ rp_jump_host_key r = None ∧
  (∀ d, rp_desktop r = Some d → dc_https_url d = None).

Lemma attempt_Ok {K A} (m : ApiM K A) w r w' : attempt m w = (Ok r, w') → m w = (r, w').
Proof. unfold attempt. destruct (m w). by intros [= <- <-]. Qed.

Section Facts.
Context {K : Type} `{ApiHost K} `{ApiCluster K} `{UuidText} `{Aead} `{Base64Codec} (is_alphanumeric : Z → bool).
Implicit Types (st : AppState) (w : Workspace).

Lemma desktop_hidden st w connectable world d world' : desktop_connection (K := K) st w connectable world = (Ok (Some d), world') →
  is_Some (dc_https_url d) → connectable = true ∧ ws_state w = Ready.
Proof.
  unfold desktop_connection. destruct (desktop (ws_template w)) as [e|]; [|done]. intros Hrun [url Hurl]. api_step Hrun.
  destruct (List.find _ y) as [m|]; [|done]. api_step Hrun. rename y0 into status, Hy0 into Hstatus.
  api_step Hrun. injection Hrun as <- _. cbn in Hurl. subst.
  unfold desktop_mapping_is_connectable in Hy0. destruct connectable; [|by injection Hy0]. split; [done|].
  destruct (String.eqb_spec status "ready") as [->|]; [|by injection Hy0].
  unfold workspace_desktop_is_connectable in Hstatus. case_bool_decide; [done|]. injection Hstatus as Hs _.
  by destruct (ws_state w).
Qed.

Record response_of st w (connectable : bool) (r : WorkspaceResponse) : Prop := {
  ro_workspace : rp_workspace r = w;
  ro_endpoint : ∃ endpoint,
    (rp_ssh_command r, rp_ssh_config r) = ssh_commands is_alphanumeric w endpoint (st_ssh_public_host st) connectable ∧
    rp_ssh_host r = (if connectable then fst <$> endpoint else None) ∧
    rp_ssh_port r = (if connectable then snd <$> endpoint else None) ∧
    rp_ssh_connection r = set_known_hosts (rp_workspace_host_key r) <$>
      structured_ssh_connection is_alphanumeric w endpoint (rp_ssh_command r) (rp_ssh_config r) connectable;
  ro_shell : is_Some (rp_web_shell_url r) → connectable = true;
  ro_key : is_Some (rp_workspace_host_key r) → connectable = true;
  ro_jump : is_Some (rp_jump_host_key r) → connectable = true ∧ access_mode (ws_template w) = Public;
  ro_desktop d : rp_desktop r = Some d → is_Some (dc_https_url d) → connectable = true;
  ro_names : is_Some (for_workspace_names (st_installation_id st) (ws_short_id w));
}.

Lemma workspace_response_Ok st w expose world r world' :
  workspace_response (K := K) is_alphanumeric st w expose world = (Ok r, world') →
  response_of st w (expose && bool_decide (ws_state w = Ready)) r.
Proof.
  intros Hrun. unfold workspace_response in Hrun. api_step Hrun. rename y into names, Hy into Hnames. cbv zeta in Hrun.
  set (connectable := expose && bool_decide (ws_state w = Ready)) in *.
  api_step Hrun. api_step Hrun. apply attempt_Ok in Hy0. rename y0 into desktop, Hy0 into Hdesktop.
  api_step Hrun. subst y. rename y0 into endpoint.
  destruct (ssh_commands _ _ _ _ _) as [command config] eqn:Hcommands. api_step Hrun. api_step Hrun. rename y0 into key, Hy1 into Hkey.
  api_step Hrun. rename y0 into key', Hy1 into Hkey'. api_step Hrun. subst desktop. injection Hrun as <- _.
  split; cbn; [done|by exists endpoint|..|by rewrite Hnames].
  - intros [? Hs]. by destruct connectable.
  - intros [? ->]. destruct connectable; [done|]. injection Hkey as <- _. by cbn in Hkey'.
  - intros [? Hj]. destruct connectable; [|done]. case_bool_decide; done.
  - intros d ->. intros Hd. by eapply desktop_hidden in Hdesktop as [? _].
Qed.

Lemma response_hidden st w r : response_of st w false r → reveals_nothing r.
Proof.
  intros [_ (endpoint & Hc & Hhost & Hport & Hconn) Hshell Hkey Hjump Hdesktop _]. cbn in *. injection Hc as Hc Hcfg.
  assert (∀ {A} (o : option A), (is_Some o → false = true) → o = None) as Hnone
    by (intros A [a|] Hs; [by specialize (Hs (mk_is_Some _ _ eq_refl))|done]).
  split_and!; try done; [|by apply Hnone..| |].
  - rewrite Hconn, Hc. by destruct endpoint.
  - apply Hnone. by intros [? _]%Hjump.
  - intros d Hd. apply Hnone. by apply Hdesktop.
Qed.
End Facts.

(** ** The SSH configuration is the block that is meant *)
Lemma bytes_of_string bs : Forall (λ b, 0 <= b < 256) bs → bytes (string_of_bytes bs) = bs.
Proof.
  intros Hb. unfold bytes, string_of_bytes. rewrite String.list_ascii_of_string_of_list_ascii, List.map_map.
  induction Hb as [|b bs [Hlo Hhi] _ IH]; [done|]. cbn. rewrite IH, Ascii.N_ascii_embedding by lia. f_equal. lia.
Qed.

(** Code points as [chars] yields them. *)
Lemma encode_char_line c : 0 <= c < 2097152 → c ≠ 10 → Forall (λ b, 0 <= b < 256 ∧ b ≠ 10) (encode_char c).
Proof.
  intros Hc Hne. unfold encode_char.
  destruct (Z.ltb_spec c 128); [|destruct (Z.ltb_spec c 2048); [|destruct (Z.ltb_spec c 65536)]];
    repeat constructor; Z.to_euclidean_division_equations; lia.
Qed.

Lemma decode_utf8_range n bs : (length bs <= n)%nat → Forall (λ b, 0 <= b < 256) bs → Forall (λ c, 0 <= c < 2097152) (decode_utf8 bs).
Proof.
  revert bs. induction n as [|n IH]; intros [|a bs] Hn Hb; try done; cbn in Hn; [lia|]. inversion_clear Hb as [|?? Ha Hbs].
  assert (∀ x k, 0 <= k → 0 <= Z.land x (Z.ones k) < 2 ^ k) as Hland by (intros; rewrite Z.land_ones by done; by apply Z.mod_pos_bound, Z.pow_pos_nonneg).
  assert (0 <= Z.land a 31 < 32) as H5 by (by apply (Hland a 5)). assert (0 <= Z.land a 15 < 16) as H4 by (by apply (Hland a 4)).
  assert (0 <= Z.land a 7 < 8) as H3 by (by apply (Hland a 3)). assert (∀ x, 0 <= Z.land x 63 < 64) as H6 by (intros x; by apply (Hland x 6)).
  cbn [decode_utf8]. destruct (Z.ltb_spec a 128); [constructor; [lia|apply IH; [lia|done]]|].
  destruct (Z.ltb_spec a 224).
  { destruct bs as [|b bs]; [done|]. inversion_clear Hbs. pose proof (H6 b). constructor; [lia|]. apply IH; [cbn in *; lia|done]. }
  destruct (Z.ltb_spec a 240).
  { destruct bs as [|b [|c bs]]; [done..|]. inversion_clear Hbs as [|??? Hbs']. inversion_clear Hbs'. pose proof (H6 b). pose proof (H6 c).
    constructor; [lia|]. apply IH; [cbn in *; lia|done]. }
  destruct bs as [|b [|c [|d bs]]]; [done..|]. inversion_clear Hbs as [|??? Hbs']. inversion_clear Hbs' as [|??? Hbs]. inversion_clear Hbs.
  pose proof (H6 b). pose proof (H6 c). pose proof (H6 d). constructor; [lia|]. apply IH; [cbn in *; lia|done].
Qed.

Lemma bytes_range s : Forall (λ b, 0 <= b < 256) (bytes s).
Proof.
  unfold bytes. apply Forall_forall. intros b Hb. apply list_elem_of_In, in_map_iff in Hb as (c & <- & _).
  pose proof (Ascii.N_ascii_bounded c). lia.
Qed.

Lemma chars_range s : Forall (λ c, 0 <= c < 2097152) (chars s).
Proof. apply (decode_utf8_range (length (bytes s))); [done|apply bytes_range]. Qed.

Lemma string_of_chars_line cs : Forall (λ c, 0 <= c < 2097152 ∧ c ≠ 10) cs → 10 ∉ bytes (string_of_chars cs).
Proof.
  intros Hcs. unfold string_of_chars. assert (Forall (λ b, 0 <= b < 256 ∧ b ≠ 10) (mbind encode_char cs)) as Hb.
  { induction Hcs as [|c cs [Hr Hne] _ IH]; cbn; [constructor|]. apply Forall_app. split; [by apply encode_char_line|done]. }
  rewrite bytes_of_string by (eapply Forall_impl; [exact Hb|]; by intros ? [? _]).
  intros Hin. rewrite Forall_forall in Hb. by apply Hb in Hin as [_ []].
Qed.

Lemma no_newline bs : forallb (λ b, negb (b =? 10)) bs = true → 10 ∉ bs.
Proof. intros Hb Hin. by specialize (forallb_elem _ _ _ Hb Hin). Qed.

Section Lines.
Context (is_alphanumeric : Z → bool) (Hnewline : is_alphanumeric 10 = false).

Definition slug_char (c : Z) : Prop := 0 <= c < 2097152 ∧ c ≠ 10.

Lemma push_slug_chars slug c : Forall slug_char slug → 0 <= c < 2097152 → Forall slug_char (push_slug is_alphanumeric slug c).
Proof using Hnewline.
  intros Hs Hc. unfold push_slug. destruct (_ || _) eqn:E; [|destruct (negb _); [|done]]; apply Forall_app; (split; [done|]); repeat constructor; try done; try lia.
  intros ->. by rewrite Hnewline in E.
Qed.

Lemma slug_chars cs : Forall (λ c, 0 <= c < 2097152) cs → Forall slug_char (foldl (push_slug is_alphanumeric) [] cs).
Proof using Hnewline.
  intros Hcs. assert (∀ slug, Forall slug_char slug → Forall slug_char (foldl (push_slug is_alphanumeric) slug cs)) as Hgen; [|by apply Hgen].
  induction Hcs as [|c cs Hc _ IH]; intros slug Hs; [done|]. cbn. by apply IH, push_slug_chars.
Qed.

Lemma trim_start_dash_sub cs : trim_start_dash cs `suffix_of` cs.
Proof. induction cs as [|c cs IH]; [done|]. cbn. destruct (c =? c_dash); [by apply suffix_cons_r|done]. Qed.

Lemma trim_dash_elem c cs : c ∈ trim_dash cs → c ∈ cs.
Proof.
  unfold trim_dash. rewrite elem_of_reverse. intros Hc. destruct (trim_start_dash_sub (reverse (trim_start_dash cs))) as [k Hk].
  destruct (trim_start_dash_sub cs) as [k' Hk'].
  assert (c ∈ trim_start_dash cs) as Hc' by (apply elem_of_reverse; rewrite Hk, elem_of_app; by right).
  rewrite Hk'. apply elem_of_app. by right.
Qed.

(** A name cannot end the line it is put on. *)
Lemma alias_one_line name short : 10 ∉ bytes short → 10 ∉ bytes (alias is_alphanumeric name short).
Proof using Hnewline.
  intros Hs. unfold alias. case_bool_decide; rewrite !bytes_app, !not_elem_of_app.
  - split; [by apply no_newline|done].
  - split_and!; [by apply no_newline| |by apply no_newline|done].
    apply string_of_chars_line, Forall_forall. intros c Hc%trim_dash_elem.
    assert (Forall slug_char (foldl (push_slug is_alphanumeric) [] (take 48 (chars name)))) as Hf by (apply slug_chars, Forall_take, chars_range).
    rewrite Forall_forall in Hf. by apply Hf.
Qed.
End Lines.

Lemma split_on_line sep line rest : sep ∉ line → split_on sep (line ++ sep :: rest) = line :: split_on sep rest.
Proof.
  induction line as [|b line IH]; intros Hn; cbn.
  - by rewrite Z.eqb_refl.
  - apply not_elem_of_cons in Hn as [Hne Hn]. destruct (Z.eqb_spec b sep); [by subst|]. by rewrite IH.
Qed.

(** Text of lines without a line break inside. *)
Lemma split_lines (lines : list string) : Forall (λ line, 10 ∉ bytes line) lines →
  split_on 10 (bytes (foldr (λ line text, line +:+ newline +:+ text) "" lines)) = (bytes <$> lines) ++ [[]].
Proof.
  induction 1 as [|line lines Hl _ IH]; [done|]. cbn [foldr fmap list_fmap app]. rewrite !bytes_app.
  change (bytes newline) with [10]. cbn [app]. rewrite split_on_line by done. by rewrite IH.
Qed.

(** The directives of a workspace's block in the configuration of an SSH client. *)
Definition config_lines (alias host : string) (port : Z) (user : string) (proxy_jump : option string) : list string :=
  ["Host " +:+ alias; "  HostName " +:+ host; "  Port " +:+ port_text port; "  User " +:+ user]
  ++ match proxy_jump with Some jump => ["  ProxyJump " +:+ jump] | None => [] end ++ ["  HostKeyAlias " +:+ alias].

Lemma config_text_lines alias host port user jump :
  ssh_config_text alias host port user jump = foldr (λ line text, line +:+ newline +:+ text) "" (config_lines alias host port user jump).
Proof.
  apply (inj bytes). unfold ssh_config_text, config_lines. destruct jump; cbn [app foldr];
    rewrite !bytes_app, <-!app_assoc; cbn [bytes app]; by rewrite ?app_nil_r.
Qed.

Lemma pretty_go_line n s : 10 ∉ bytes s → 10 ∉ bytes (pretty_N_go n s).
Proof.
  revert s. induction (N.lt_wf_0 n) as [n _ IH]; intros s Hs. destruct (decide (0 < n)%N).
  - rewrite pretty_N_go_step by done. apply IH; [by apply N.div_lt|].
    change (bytes (String (pretty_N_char (n `mod` 10)) s)) with (Z.of_N (Ascii.N_of_ascii (pretty_N_char (n `mod` 10))) :: bytes s).
    rewrite not_elem_of_cons. split; [|done]. unfold pretty_N_char.
    assert (n `mod` 10 < 10)%N as Hmod by (by apply N.mod_lt). revert Hmod.
    generalize (n `mod` 10)%N. intros d Hd. destruct d as [|[[[[]|[]|]|[[]|[]|]|]|[[[]|[]|]|[[]|[]|]|]|]]; try done; lia.
  - by rewrite pretty_N_go_0 || (replace n with 0%N by lia).
Qed.

Lemma port_text_line port : 10 ∉ bytes (port_text port).
Proof.
  unfold port_text, pretty, pretty_N. destruct (decide (Z.to_N port = 0%N)); [by apply no_newline|].
  apply pretty_go_line. by apply no_newline.
Qed.

Lemma user_line user : valid_utf8 (bytes user) = true → valid_workspace_user user = true → 10 ∉ bytes user.
Proof.
  intros Hu [_ Hv]%andb_true_iff. set (p c := is_ascii_lowercase c || is_ascii_digit c || (c =? c_underscore) || (c =? c_dash)).
  assert (∀ c, p c = true → 0 <= c < 128 ∧ c ≠ 10) as Hp.
  { unfold p, is_ascii_lowercase, is_ascii_digit, in_range, c_underscore, c_dash. intros c. bool_prop. lia. }
  assert (forallb p (bytes user) = true) as Hb.
  { apply (ascii_of_decoded p (λ c Hc, proj1 (Hp c Hc)) (length (bytes user))); [done..|]. fold (chars user).
    destruct (chars user) as [|c cs]; [done|]. apply andb_true_iff in Hv as [Hc Hcs]. cbn. unfold p at 1. rewrite andb_true_iff.
    split; [|done]. revert Hc. bool_prop. naive_solver. }
  intros Hin. by apply (forallb_elem _ _ _ Hb), Hp in Hin as [_ []].
Qed.

Lemma names_line inst short : valid_utf8 (bytes short) = true → is_Some (for_workspace_names inst short) → 10 ∉ bytes short.
Proof.
  intros Hu [names Hn]. unfold for_workspace_names in Hn. destruct (_ && _) eqn:Hv; [|done].
  do 3 (apply andb_true_iff in Hv as [Hv _]). apply andb_true_iff in Hv as [_ Hl]. apply valid_label in Hl as [Hl _]; [|done].
  intros Hin. by apply (forallb_elem _ _ _ Hl) in Hin.
Qed.

Section Claims.
Context {K : Type} `{ApiHost K} `{ApiCluster K} `{UuidText} `{Aead} `{Base64Codec} (is_alphanumeric : Z → bool).
Implicit Types (st : AppState) (w : Workspace).

(** A response says how to connect only where it should: unless the caller may
    connect and the workspace is ready, no address, command, configuration, key
    or link is in it; and where a configuration for SSH clients is given, it is
    exactly the block of directives of this workspace, on a line each, whatever
    characters the workspace's name has. *)
Theorem connection_details_guarded st w expose world r world' :
  workspace_response (K := K) is_alphanumeric st w expose world = (Ok r, world') →
  (expose = false ∨ ws_state w ≠ Ready → reveals_nothing r) ∧
  (is_alphanumeric 10 = false → valid_utf8 (bytes (ws_short_id w)) = true → valid_utf8 (bytes (workspace_user (ws_template w))) = true →
   valid_workspace_user (workspace_user (ws_template w)) = true →
   (∀ host, st_ssh_public_host st = Some host → 10 ∉ bytes host) →
   ∀ host config, rp_ssh_host r = Some host → 10 ∉ bytes host → rp_ssh_config r = Some config →
   ∃ port, rp_ssh_port r = Some port ∧
     let alias := connection_alias is_alphanumeric w in
     let jump := match access_mode (ws_template w) with
                 | Public => (λ h, "access+" +:+ ws_short_id w +:+ "@" +:+ h) <$> st_ssh_public_host st
                 | Internal => None
                 end in
     split_on 10 (bytes config) = (bytes <$> config_lines alias host port (workspace_user (ws_template w)) jump) ++ [[]]).
Proof.
  intros Hr%workspace_response_Ok. split.
  - intros Hno. eapply (response_hidden is_alphanumeric). replace (expose && _) with false in Hr; [exact Hr|].
    destruct Hno as [->|Hs]; [done|]. rewrite bool_decide_eq_false_2 by done. by rewrite andb_false_r.
  - intros Hnl Hus Huu Hu Hpub host config Hhost Hh Hconfig. destruct Hr as [_ (endpoint & Hc & Eh & Ep & _) _ _ _ _ Hn].
    destruct (expose && _) eqn:Econn; [|congruence]. destruct endpoint as [[host' port]|]; [|cbn in Eh; congruence].
    cbn in Eh, Ep. assert (host' = host) as -> by congruence. exists port. split; [done|]. cbv zeta.
    rewrite Hconfig in Hc. unfold ssh_commands in Hc. cbn [negb] in Hc.
    pose proof (names_line _ _ Hus Hn) as Hshort. pose proof (user_line _ Huu Hu) as Huser.
    pose proof (alias_one_line is_alphanumeric Hnl (ws_name w) _ Hshort) as Halias.
    assert (config = ssh_config_text (connection_alias is_alphanumeric w) host port (workspace_user (ws_template w))
              (match access_mode (ws_template w) with
               | Public => (λ h, "access+" +:+ ws_short_id w +:+ "@" +:+ h) <$> st_ssh_public_host st | Internal => None end)) as ->
      by (destruct (access_mode (ws_template w)), (st_ssh_public_host st); cbn in *; congruence).
    rewrite config_text_lines. apply split_lines. unfold config_lines.
    repeat (apply Forall_app; split); repeat constructor; rewrite ?bytes_app, ?not_elem_of_app;
      try (split; [by apply no_newline|first [done | apply port_text_line]]).
    destruct (access_mode (ws_template w)), (st_ssh_public_host st) as [h|] eqn:Eq; cbn; repeat constructor.
    rewrite !bytes_app, !not_elem_of_app. split_and!; first [done | by apply no_newline | by apply Hpub].
Qed.
End Claims.

(** ** Example *)
Module ResponseSample.
#[local] Existing Instances decimal_uuid_text CryptoSample.aead GatewaySample.codec GatewaySample.host.
(** A cluster without any object. *)
#[export] Instance cluster : ApiCluster () := {|
  get_service _ _ k := (Ok None, k); get_stateful_set _ _ k := (Ok None, k);
  get_ingress _ _ k := (Ok None, k); get_namespace _ k := (Ok None, k) |}.
Definition state : AppState := mkAppState "inst" (Some "jump.example") None (Some "https://shell.example") None None None false false None.
Definition workspace : Workspace :=
  mkWorkspace ActionSample.id "1000000000000001" 2 3 ("bad" +:+ newline +:+ "Host *") None "default" None None
    (spec GatewaySample.document) Ready 7 100 100.
Definition run := workspace_response is_ascii_alphanumeric state workspace true (mkWorld GatewaySample.db0 ()).
Definition response : option WorkspaceResponse := match run.1 with Ok r => Some r | Err _ => None end.
Definition host : string := "w-1000000000000001.memeloop-workspace-control.svc.cluster.local".
End ResponseSample.
Import (hints) ResponseSample.

Lemma connection_details_guarded_witness :
  ∃ r config, ResponseSample.run.1 = Ok r ∧ rp_ssh_config r = Some config ∧
    split_on 10 (bytes config) = (bytes <$> ["Host mwc-bad-Host-1000000000000001"; "  HostName " +:+ ResponseSample.host; "  Port 2222";
      "  User workspace"; "  ProxyJump access+1000000000000001@jump.example"; "  HostKeyAlias mwc-bad-Host-1000000000000001"]) ++ [[]].
Proof.
  assert (ResponseSample.response ≫= rp_ssh_host = Some ResponseSample.host) as Hh by by vm_compute.
  assert (is_some (ResponseSample.response ≫= rp_ssh_config) = true) as Hc by by vm_compute.
  assert (ResponseSample.response ≫= rp_ssh_port = Some 2222) as Hp by by vm_compute.
  unfold ResponseSample.response in *. destruct ResponseSample.run as [r w'] eqn:E. cbn [fst] in *. destruct r as [r|]; [|discriminate Hh].
  destruct (connection_details_guarded is_ascii_alphanumeric _ _ _ _ _ _ E) as [_ Hlines]. cbn in Hh, Hc, Hp.
  destruct (rp_ssh_config r) as [config|] eqn:Hconfig; [|discriminate Hc]. exists r, config. do 2 (split; [first [exact eq_refl | exact Hconfig]|]).
  destruct (Hlines eq_refl eq_refl eq_refl eq_refl) with (host := ResponseSample.host) (config := config) as (port & Hport & Hsplit).
  - intros host [= <-]. by apply no_newline.
  - exact Hh.
  - by apply no_newline.
  - exact eq_refl.
  - rewrite Hp in Hport. injection Hport as <-. etransitivity; [exact Hsplit|]. vm_compute. reflexivity.
Defined.
