(* ===== verification/WorkspaceApi.v ===== *)
(** * Requests on workspaces ([src/api/workspaces.rs], [src/api/workspaces/creation.rs],
    [src/api/workspace_creation.rs], [src/api/workspace_image_update.rs],
    [src/api/workspace_placement.rs], [src/api/workspace_cpu_overcommit.rs],
    [src/api/workspace_scratch_resize.rs], and the plan shown to plugins of
    [src/plugins/runtime.rs])

    A handler authenticates the caller, checks what it may do, and runs the
    operation once per idempotency key. Plugins decide on a creation before it is
    recorded; what they decide is the class [PluginAdmission]. *)
From stdpp Require Import sorting pretty.
From S2P Require Import Prelude Text Json Auth Quota Templates Workspaces Errors ShrinkOperation RuntimeEvents Quantity Database WorkspaceStore JobStore Events JobQueue WorkspaceActions ShrinkStore Reconcile Injections Catalog Idempotency Crypto InjectionStore Search Creation Usage WorkspaceUpdates Identity ApiKeys Listing Tickets Incidents Names SshStore Api SshApi WorkspaceResponse.

(** ** Requests *)
Record CreateWorkspaceRequest := mkCreateRequest {
  cq_workspace : CreateWorkspace;
  cq_node_pool : option string;
  cq_inline_workspace_injections : list InjectionItem;
}.

Record CreateWorkspaceQuery := mkCreateQuery {
  cq_wait_until : option string;
  cq_timeout : option Z;  (** u64 *)
}.

Record UpdateWorkspaceImageRequest := mkImageRequest { iq_image : string; iq_expected_generation : Z }.
Record UpdateWorkspacePlacementRequest := mkPlacementRequest { pq_node_pool : string; pq_expected_generation : Z }.
Record UpdateWorkspaceCpuOvercommitRequest := mkRatioRequest { oq_cpu_overcommit_ratio : Z; oq_expected_generation : Z }.
Record UpdateWorkspaceTemporaryStorageRequest := mkTemporaryRequest { tq_temporary_storage_gib : Z; tq_expected_generation : Z }.

Record WorkspaceListQuery := mkListQuery {
  lq_organization_id : Uuid;
  lq_limit : option Z;  (** u32 *)
  lq_cursor : option string;
  lq_search : option string;
  lq_sort : option WorkspaceSort;
}.

Record WorkspaceResponsePage := mkResponsePage {
  rpg_items : list WorkspaceResponse;
  rpg_next_cursor : option string;
  rpg_summary : WorkspacePageSummary;
}.

(** The JSON value of a request, by its derived [Serialize]. *)
Class RequestJson (A : Type) := request_json : A → Value.

(** ** Plugins *)
Record WorkspaceCreateContext := mkCreateContext {
  cc_installation_id : string;
  cc_actor_user_id : Uuid;
  cc_organization_id : Uuid;
  cc_owner_id : Uuid;
  cc_template_id : Uuid;
}.

Record WorkspaceCreatePlan := mkCreatePlan {
  cp_name : string;
  cp_image : string;
  cp_access_mode : string;
  cp_cpu_millis : Z;
  cp_memory_mib : Z;
  cp_gpu_count : Z;
  cp_disk_gib : Z;
  cp_buildkit_enabled : bool;
  cp_cluster_access : bool;
}.

(** [WorkspaceCreatePlan::from_template]. *)
Definition from_template (name : string) (s : WorkspaceTemplateSpec) : WorkspaceCreatePlan :=
  mkCreatePlan (trimmed name) (image s) (access_mode_as_str (access_mode s)) (cpu_millis (resources s)) (memory_mib (resources s))
    (gpu_count (resources s)) (disk_gib (resources s)) (buildkit s) (cluster_access s).

(** [PluginRuntime::admit_workspace_create] reads the database and changes nothing
    there. *)
Class PluginAdmission (K : Type) :=
  admit_workspace_create : WorkspaceCreateContext → WorkspaceCreatePlan → Db → K → result PluginError () * K.

(** Waiting: a clock in milliseconds, and a pause of a quarter of a second in which
    others may change the database. *)
Class ApiWait (K : Type) := {
  monotonic_ms : World K → Z;
  pause : World K → World K;
}.
Class ApiWaitLaws (K : Type) `{ApiWait K} : Prop := {
  pause_advances (w : World K) : monotonic_ms w + 250 <= monotonic_ms (pause w);
}.
Class ClockAdvances (K : Type) `{ApiWait K} `{ApiHost K} : Prop := {
  calls_take_time A (m : DbM A) (w : World K) : monotonic_ms w <= monotonic_ms (call m w).2;
}.

Section WorkspaceApi.
Context {K : Type} `{ApiHost K} `{ApiCluster K} `{PluginAdmission K} `{ApiWait K}.
Context `{UuidText} `{TokenHash} `{RequestHash} `{TemplateYaml} `{SqlBackend} `{Aead} `{Base64Codec} `{RandomSource}.
Context (is_alphanumeric : Z → bool) (openssh_public_key : list Z → bool).
Context `{!ResponseJson WorkspaceResponse} `{!RequestJson CreateWorkspaceRequest} `{!RequestJson UpdateWorkspaceImageRequest}
  `{!RequestJson UpdateWorkspacePlacementRequest} `{!RequestJson UpdateWorkspaceCpuOvercommitRequest}
  `{!RequestJson UpdateWorkspaceTemporaryStorageRequest}.

(** ** Creation *)

(** [creation.rs] *)
Definition authorize_creation (st : AppState) (actor : Principal) (command : CreateWorkspace) : ApiM K WorkspaceTemplate :=
  let organization_id := cw_organization_id command in
  _ ← require (principal_allows actor Auth.CreateWorkspace organization_id) ApiError.Forbidden;
  _ ← require (negb (negb (may_use_template actor (cw_template_id command))
                     || has_template_restriction actor
                        && (is_some (cw_resources command) || is_some (cw_temporary_storage_gib command)))) ApiError.Forbidden;
  _ ← require (negb (negb (bool_decide (cw_owner_id command = pr_user_id actor))
                     && negb (principal_allows actor ManageMembers organization_id))) ApiError.Forbidden;
  template ← call (get_workspace_template (st_installation_id st) (cw_template_id command));
  _ ← require (negb (negb (wt_enabled template)
                     || is_some_and (wt_organization_id template) (λ id, negb (bool_decide (id = organization_id)))))
        (ApiError.Storage StorageError.TemplateNotFound);
  _ ← require (negb (cluster_access (wt_template template) && negb (may_manage_system actor))) ApiError.Forbidden;
  mret template.

(** [creation.rs] *)
Definition preflight_product_namespace (st : AppState) : ApiM K () :=
  if negb (st_has_kubernetes_client st) then mret ()
  else
    existing ← observe (get_namespace WORKSPACE_NAMESPACE);
    match existing with
    | None => mret ()
    | Some existing =>
        require (negb (is_some (lb_deletion_timestamp existing))
                 && is_some_and (lb_labels existing) (λ labels : gmap string string,
                      bool_decide (labels !! OWNER_INSTALLATION_LABEL = Some (st_installation_id st))
                      && negb (is_some (labels !! WORKSPACE_ID_LABEL)))) ApiError.ProductNamespaceConflict
    end.

(** The keys are sorted and neighbours compared. *)
Definition validate_refs (refs : option (list string)) (available : list InjectionItem) : result ApiError.t () :=
  match refs with
  | None => Ok ()
  | Some refs =>
      let sorted := merge_sort String.le refs in
      ensure (negb (existsb (λ pair : string * string, String.eqb pair.1 pair.2) (zip sorted (drop 1 sorted))
                    || existsb (λ key, negb (existsb (λ item, String.eqb (ii_key item) key) available)) refs))
        (ApiError.BadRequest "workspace injection references must be unique keys available after selector filtering")
  end.

Definition decode_bytes (text : string) : option (list Z) :=
  map (λ a, Z.of_N (Ascii.N_of_ascii a)) <$> base64_decode text.

Definition validate_item (item : InjectionItem) : result InjectionError () :=
  validate_injection_item is_alphanumeric decode_bytes openssh_public_key item.

Definition validate_inline_injections (st : AppState) (command : CreateWorkspace) (template : WorkspaceTemplate)
    (inline : list InjectionItem) : ApiM K () :=
  let inst := st_installation_id st in
  _ ← answer (map_err ApiError.Injection (collect validate_item inline));
  _ ← require (negb (existsb ii_locked inline)) (ApiError.BadRequest "workspace inline injections cannot be locked");
  match st_cipher st with
  | None =>
      require (bool_decide (inline = []) && negb (is_some (cw_organization_injection_refs command))
               && negb (is_some (cw_user_injection_refs command))) ApiError.EncryptionUnavailable
  | Some cipher =>
      organization ← call (load_injections inst cipher (mkScopeRef OrganizationScope (cw_organization_id command)));
      user ← call (load_injections inst cipher (mkScopeRef UserScope (cw_owner_id command)));
      _ ← require (negb (negb (wt_enabled template)
                         || is_some_and (wt_organization_id template) (λ id, negb (bool_decide (id = cw_organization_id command)))))
            (ApiError.Storage StorageError.TemplateNotFound);
      let selection := mkSelection None (cw_organization_id command) (cw_owner_id command) (Some (cw_template_id command))
                         (image (wt_template template)) (access_mode (wt_template template)) in
      let organization := select_injections organization selection in
      let user := select_injections user selection in
      _ ← answer (validate_refs (cw_organization_injection_refs command) organization);
      _ ← answer (validate_refs (cw_user_injection_refs command) user);
      _ ← answer (map_err ApiError.Injection (resolve_injections
             (filter_injection_refs organization (cw_organization_injection_refs command) true)
             (filter_injection_refs user (cw_user_injection_refs command) false)
             (select_injections inline selection)));
      mret ()
  end.

(** The template with the choices of the command, as it is validated and shown to
    plugins. *)
Definition final_template (command : CreateWorkspace) (s : WorkspaceTemplateSpec) (ratio : Z) : WorkspaceTemplateSpec :=
  {| image := image s; access_mode := access_mode s;
     resources := match cw_resources command with Some r => r | None => resources s end; pod_requests := pod_requests s;
     cpu_overcommit_ratio := Some ratio;
     workspace_user := workspace_user s; workspace_home := workspace_home s; buildkit := buildkit s;
     storage_policy :=
       mkStoragePolicy (match cw_temporary_storage_gib command with Some t => t | None => temporary_storage_gib (storage_policy s) end)
         (cw_use_longhorn command);
     cluster_access := cluster_access s; egress_policy := egress_policy s;
     runtime_class_name := runtime_class_name s; placement := placement s; desktop := desktop s |}.

Definition admit_plan (context : WorkspaceCreateContext) (plan : WorkspaceCreatePlan) : ApiM K () := λ w,
  let '(r, k) := admit_workspace_create context plan (w_db w) (w_k w) in (map_err ApiError.Plugin r, mkWorld (w_db w) k).

(** [creation.rs] *)
Definition create_admitted_workspace (st : AppState) (actor : Principal) (request : CreateWorkspaceRequest)
    (template : WorkspaceTemplate) (now : Z) : ApiM K Workspace :=
  let inst := st_installation_id st in
  let command := cq_workspace request in
  ratio ← match cpu_overcommit_ratio (wt_template template) with
          | Some ratio => mret ratio
          | None => call (cpu_overcommit_ratio_setting inst)
          end;
  let final := final_template command (wt_template template) ratio in
  _ ← answer (map_err (λ _, ApiError.Storage StorageError.InvalidWorkspace) (spec_validate final));
  _ ← preflight_product_namespace st;
  _ ← validate_inline_injections st command template (cq_inline_workspace_injections request);
  _ ← admit_plan (mkCreateContext inst (pr_user_id actor) (cw_organization_id command) (cw_owner_id command) (cw_template_id command))
        (from_template (cw_name command) final);
  inline ← (if bool_decide (cq_inline_workspace_injections request = []) then mret None
            else cipher ← answer (ok_or (st_cipher st) ApiError.EncryptionUnavailable);
                 mret (Some (cipher, cq_inline_workspace_injections request)));
  call (create_workspace_with_admitted_template inst command (cq_node_pool request) inline (wt_yaml template) ratio
          (may_manage_system actor) (pr_user_id actor) now).

(** ** Waiting for a new workspace ([workspace_creation.rs]) *)
Definition is_settled (s : WorkspaceState) : bool := bool_decide (s ∈ [Ready; Failed; Deleting]).

(** [None] when the fuel runs out. *)
Fixpoint wait_loop (fuel : nat) (st : AppState) (deadline : Z) (w : Workspace) : ApiM K (option Workspace) :=
  match fuel with
  | O => mret None
  | S fuel => λ world,
      if negb (monotonic_ms world <? deadline) || is_settled (ws_state w) then (Ok (Some w), world)
      else (w ← call (get_workspace (st_installation_id st) (ws_id w)); wait_loop fuel st deadline w) (pause world)
  end.

(** Four pauses a second. *)
Definition wait_fuel (timeout_seconds : Z) : nat := S (Z.to_nat (4 * timeout_seconds)).

Definition wait_until_ready (st : AppState) (w : Workspace) (timeout_seconds : Z) : ApiM K (option Workspace) := λ world,
  wait_loop (wait_fuel timeout_seconds) st (monotonic_ms world + 1000 * timeout_seconds) w world.

(** ** Handlers *)
Definition string_or_null (value : option string) : Value := match value with Some s => Str s | None => Null end.
Definition number_or_null (value : option Z) : Value := match value with Some n => Number n | None => Null end.

Definition connection_exposed (actor : Principal) (w : Workspace) : bool :=
  principal_allows actor ConnectWorkspace (ws_organization_id w).

(** [workspaces::create]; the wait does not run out of fuel ([wait_until_ready_total]). *)
Definition create_handler (st : AppState) (headers : HeaderMap) (query : CreateWorkspaceQuery) (request : CreateWorkspaceRequest)
    : ApiM K Response :=
  _ ← require (negb (is_some_and (cq_wait_until query) (λ value, negb (String.eqb value "ready"))))
        (ApiError.BadRequest "wait_until must be ready");
  actor ← principal st headers;
  template ← authorize_creation st actor (cq_workspace request);
  _ ← require (negb (is_some (desktop (wt_template template)) && negb (is_some (st_port_mapping_public_domain st))))
        ApiError.KubernetesUnavailable;
  key ← answer (idempotency_key headers);
  request_hash ← answer (hash (json_object [("request", request_json request); ("wait_until", string_or_null (cq_wait_until query));
                                           ("timeout", number_or_null (cq_timeout query))]));
  let scope := uuid_to_string (pr_user_id actor) +:+ ":create-workspace" in
  now ← api_timestamp;
  idempotently st scope key request_hash now (create_admitted_workspace st actor request template now)
    (λ w, w ← (if bool_decide (cq_wait_until query = Some "ready")
               then waited ← wait_until_ready st w (Z.max 1 (Z.min 120 (default 30 (cq_timeout query)))); mret (default w waited)
               else mret w);
          complete_workspace_response is_alphanumeric st scope key request_hash 201 (connection_exposed actor w) w).

(** [workspaces::get]. *)
Definition get_handler (st : AppState) (headers : HeaderMap) (workspace_id : Uuid) : ApiM K WorkspaceResponse :=
  actor ← principal st headers;
  w ← call (get_workspace (st_installation_id st) workspace_id);
  _ ← require (negb (negb (principal_allows actor ReadWorkspace (ws_organization_id w))
                     || negb (may_access_workspace_template actor (ws_template_id w)))) ApiError.Forbidden;
  workspace_response is_alphanumeric st w (connection_exposed actor w).

Definition action_permission (action : WorkspaceAction) : Permission :=
  match action with Delete => DeleteWorkspace | _ => ChangeWorkspaceState end.

(** [workspaces::action]. *)
Definition action_handler (st : AppState) (headers : HeaderMap) (workspace_id : Uuid) (action_name : string) : ApiM K Response :=
  action ← answer (ok_or (action_from_api action_name) (ApiError.BadRequest "action must be start, stop, restart, or delete"));
  actor ← principal st headers;
  existing ← call (get_workspace (st_installation_id st) workspace_id);
  _ ← require (negb (negb (principal_allows actor (action_permission action) (ws_organization_id existing))
                     || negb (may_access_workspace_template actor (ws_template_id existing)))) ApiError.Forbidden;
  key ← answer (idempotency_key headers);
  request_hash ← answer (hash (json_object [("workspace_id", Str (uuid_to_string workspace_id)); ("action", Str (action_as_str action))]));
  let scope := uuid_to_string (pr_user_id actor) +:+ ":workspace-action" in
  now ← api_timestamp;
  idempotently st scope key request_hash now
    (call (request_workspace_action (st_installation_id st) workspace_id action (pr_user_id actor) now))
    (λ w, complete_workspace_response is_alphanumeric st scope key request_hash 202 (connection_exposed actor w) w).

(** The handlers that update a stopped workspace differ in the operation, the name
    of the scope and the hashed value. *)
Definition update_handler (st : AppState) (headers : HeaderMap) (workspace_id : Uuid) (scope_name : string) (hashed : Value)
    (operation : Uuid → Z → DbM Workspace) : ApiM K Response :=
  actor ← principal st headers;
  existing ← call (get_workspace (st_installation_id st) workspace_id);
  _ ← require (negb (negb (may_manage_system actor) || has_template_restriction actor
                     || negb (may_access_workspace_template actor (ws_template_id existing)))) ApiError.Forbidden;
  key ← answer (idempotency_key headers);
  request_hash ← answer (hash hashed);
  let scope := uuid_to_string (pr_user_id actor) +:+ ":" +:+ scope_name in
  now ← api_timestamp;
  idempotently st scope key request_hash now (call (operation (pr_user_id actor) now))
    (complete_workspace_response is_alphanumeric st scope key request_hash 200 true).

Definition request_object (workspace_id : Uuid) (request : Value) : Value :=
  json_object [("workspace_id", Str (uuid_to_string workspace_id)); ("request", request)].

Definition image_handler (st : AppState) (headers : HeaderMap) (workspace_id : Uuid) (request : UpdateWorkspaceImageRequest) : ApiM K Response :=
  update_handler st headers workspace_id "workspace-image-update" (request_object workspace_id (request_json request))
    (update_stopped_workspace_image (st_installation_id st) workspace_id (iq_image request) (iq_expected_generation request)).

Definition placement_handler (st : AppState) (headers : HeaderMap) (workspace_id : Uuid) (request : UpdateWorkspacePlacementRequest)
    : ApiM K Response :=
  update_handler st headers workspace_id "workspace-placement-update"
    (Array [Str (uuid_to_string workspace_id); request_json request])
    (update_stopped_workspace_placement (st_installation_id st) workspace_id (pq_node_pool request) (pq_expected_generation request)).

Definition cpu_overcommit_handler (st : AppState) (headers : HeaderMap) (workspace_id : Uuid) (request : UpdateWorkspaceCpuOvercommitRequest)
    : ApiM K Response :=
  update_handler st headers workspace_id "workspace-cpu-overcommit-update" (request_object workspace_id (request_json request))
    (update_stopped_workspace_cpu_overcommit (st_installation_id st) workspace_id (oq_cpu_overcommit_ratio request) (oq_expected_generation request)).

Definition temporary_storage_handler (st : AppState) (headers : HeaderMap) (workspace_id : Uuid)
    (request : UpdateWorkspaceTemporaryStorageRequest) : ApiM K Response :=
  update_handler st headers workspace_id "workspace-temporary-storage-update" (request_object workspace_id (request_json request))
    (update_stopped_workspace_temporary_storage (st_installation_id st) workspace_id (tq_temporary_storage_gib request)
       (tq_expected_generation request)).

Context `{TextCase} `{SnapshotText} `{UrlBase64} `{UrlDecode} `{!SerdeJson WorkspaceCursor}.

(** [try_join_all]: the responses in order, or the first error. *)
Fixpoint all_responses (st : AppState) (actor : Principal) (ws : list Workspace) : ApiM K (list WorkspaceResponse) :=
  match ws with
  | [] => mret []
  | w :: ws =>
      response ← workspace_response is_alphanumeric st w (connection_exposed actor w);
      rest ← all_responses st actor ws;
      mret (response :: rest)
  end.

(** [workspaces::list]. *)
Definition list_handler (st : AppState) (headers : HeaderMap) (query : WorkspaceListQuery) : ApiM K WorkspaceResponsePage :=
  actor ← principal st headers;
  _ ← require (principal_allows actor ReadWorkspace (lq_organization_id query)) ApiError.Forbidden;
  page ← call (list_workspaces_page (st_installation_id st) (lq_organization_id query) (lq_limit query) (lq_cursor query) (lq_search query)
                 (default Newest (lq_sort query)));
  responses ← all_responses st actor (pg_items (wp_page page));
  mret (mkResponsePage responses (pg_next_cursor (wp_page page)) (wp_summary page)).
End WorkspaceApi.

(** ** Who changes what *)

(** The requests of this file. *)
Inductive WorkspaceRequest :=
  | CreateRequest (query : CreateWorkspaceQuery) (request : CreateWorkspaceRequest)
  | GetRequest (workspace_id : Uuid)
  | ActionRequest (workspace_id : Uuid) (action_name : string)
  | ImageRequest (workspace_id : Uuid) (request : UpdateWorkspaceImageRequest)
  | PlacementRequest (workspace_id : Uuid) (request : UpdateWorkspacePlacementRequest)
  | RatioRequest (workspace_id : Uuid) (request : UpdateWorkspaceCpuOvercommitRequest)
  | TemporaryRequest (workspace_id : Uuid) (request : UpdateWorkspaceTemporaryStorageRequest)
  | ListRequest (query : WorkspaceListQuery).

(** The first statement either ends the request with nothing changed or has
    succeeded. *)
Ltac first_step Hrun :=
  let e := fresh "e" in let a := fresh "y" in let w := fresh "wy" in let Hs := fresh "Hy" in
  apply api_bind_split in Hrun as [(e & Hs & _)|(a & w & Hs & Hrun)].

Section Requests.
Context {K : Type} `{ApiHost K} `{ApiCluster K} `{PluginAdmission K} `{ApiWait K}.
Context `{UuidText} `{TokenHash} `{RequestHash} `{TemplateYaml} `{SqlBackend} `{Aead} `{Base64Codec} `{RandomSource}.
Context (is_alphanumeric : Z → bool) (openssh_public_key : list Z → bool).
Context `{!ResponseJson WorkspaceResponse} `{!RequestJson CreateWorkspaceRequest} `{!RequestJson UpdateWorkspaceImageRequest}
  `{!RequestJson UpdateWorkspacePlacementRequest} `{!RequestJson UpdateWorkspaceCpuOvercommitRequest}
  `{!RequestJson UpdateWorkspaceTemporaryStorageRequest}.
Context `{TextCase} `{SnapshotText} `{UrlBase64} `{UrlDecode} `{!SerdeJson WorkspaceCursor}.
Implicit Types (st : AppState) (headers : HeaderMap).

Definition discard {A} (m : ApiM K A) : ApiM K () := _ ← m; mret ().

Definition run_request st headers (rq : WorkspaceRequest) : ApiM K () :=
  match rq with
  | CreateRequest query request => discard (create_handler is_alphanumeric openssh_public_key st headers query request)
  | GetRequest id => discard (get_handler is_alphanumeric st headers id)
  | ActionRequest id name => discard (action_handler is_alphanumeric st headers id name)
  | ImageRequest id request => discard (image_handler is_alphanumeric st headers id request)
  | PlacementRequest id request => discard (placement_handler is_alphanumeric st headers id request)
  | RatioRequest id request => discard (cpu_overcommit_handler is_alphanumeric st headers id request)
  | TemporaryRequest id request => discard (temporary_storage_handler is_alphanumeric st headers id request)
  | ListRequest query => discard (list_handler is_alphanumeric st headers query)
  end.

(** The actor manages the system and its key is not bound to templates. *)
Definition manages_workspace (inst : string) (id : Uuid) (actor : Principal) (db : Db) : Prop :=
  may_manage_system actor = true ∧ pr_allowed_template_ids actor = None ∧ ∃ w, get_workspace inst id db = (Ok w, db).

(** What a caller needs for a request that changes anything. *)
Definition permitted (inst : string) (rq : WorkspaceRequest) (actor : Principal) (db : Db) : Prop :=
  match rq with
  | CreateRequest _ request =>
      let command := cq_workspace request in
      principal_allows actor Auth.CreateWorkspace (cw_organization_id command) = true ∧
      may_use_template actor (cw_template_id command) = true ∧
      (is_Some (pr_allowed_template_ids actor) → cw_resources command = None ∧ cw_temporary_storage_gib command = None) ∧
      (cw_owner_id command = pr_user_id actor ∨ principal_allows actor ManageMembers (cw_organization_id command) = true) ∧
      ∃ template, get_workspace_template inst (cw_template_id command) db = (Ok template, db) ∧ wt_enabled template = true ∧
        (wt_organization_id template = None ∨ wt_organization_id template = Some (cw_organization_id command)) ∧
        (cluster_access (wt_template template) = true → may_manage_system actor = true)
  | ActionRequest id name =>
      ∃ action w, action_from_api name = Some action ∧ get_workspace inst id db = (Ok w, db) ∧
        principal_allows actor (action_permission action) (ws_organization_id w) = true ∧
        may_access_workspace_template actor (ws_template_id w) = true
  | ImageRequest id _ | PlacementRequest id _ | RatioRequest id _ | TemporaryRequest id _ => manages_workspace inst id actor db
  | GetRequest _ | ListRequest _ => False
  end.

(** *** Reading handlers *)
Lemma api_keeps R {A} (m : ApiM K A) w r w' : ApiPreserves R m → m w = (r, w') → R (w_db w) (w_db w').
Proof. intros Hm. apply Hm. Qed.

#[global] Instance load_injections_read_only inst cipher scope : ReadOnly (load_injections inst cipher scope).
Proof. by intros db. Qed.
#[global] Instance injection_refs_read_only inst id : ReadOnly (workspace_injection_refs inst id).
Proof. unfold workspace_injection_refs. apply _. Qed.
#[global] Instance list_mappings_read_only inst id : ReadOnly (list_port_mappings inst id).
Proof. unfold list_port_mappings. apply _. Qed.
#[local] Instance public_identity_read_only inst id : ReadOnly (workspace_ssh_public_identity inst id).
Proof. unfold workspace_ssh_public_identity. apply _. Qed.
#[global] Instance get_template_read_only inst id : ReadOnly (get_workspace_template inst id).
Proof. unfold get_workspace_template, select_template. apply _. Qed.
#[local] Instance list_page_read_only inst org limit cursor search sort : ReadOnly (list_workspaces_page inst org limit cursor search sort).
Proof.
  unfold list_workspaces_page, workspace_page_summary.
  do 4 (apply read_only_bind; [apply _|intros ?]). destruct (split_page _ _). apply _.
Qed.

#[global] Instance observe_reads R `{!PreOrder R} {A} (m : K → result () A * K) : ApiPreserves R (observe m).
Proof. unfold observe. apply _. Qed.

#[global] Instance mapping_status_reads R `{!PreOrder R} st w m : ApiPreserves R (mapping_status (K := K) st w m).
Proof.
  assert (∀ runtime, ApiPreserves R (desktop_ready (K := K) runtime)) by (intros [names|]; apply _).
  unfold mapping_status. repeat (apply api_preserves_if; [apply _..|]). apply api_preserves_bind; [apply _..|].
  intros ready. apply api_preserves_bind; [apply _..|]. intros ingress. apply api_preserves_if; [apply _..|]. repeat case_match; apply _.
Qed.

#[global] Instance workspace_response_reads R `{!PreOrder R} st w expose :
  ApiPreserves R (workspace_response (K := K) is_alphanumeric st w expose).
Proof.
  assert (ApiPreserves R (ssh_endpoint (K := K) st w WORKSPACE_NAMESPACE (expose && bool_decide (ws_state w = Ready)))).
  { unfold ssh_endpoint, workspace_ssh_node_port. apply api_preserves_bind; [apply _..|]. intros names.
    apply api_preserves_if; [apply _..|]. destruct (st_internal_ssh_host st); apply _. }
  assert (∀ connectable, ApiPreserves R (desktop_connection (K := K) st w connectable)).
  { intros connectable. unfold desktop_connection. case_match; [|apply _]. apply api_preserves_bind; [apply _..|]. intros mappings.
    case_match; apply _. }
  assert (ApiPreserves R (injection_sources (K := K) st w)) by (unfold injection_sources; case_match; apply _).
  unfold workspace_response. apply api_preserves_bind; [apply _..|]. intros names. cbv zeta.
  do 3 (apply api_preserves_bind; [apply _..|intros ?]). destruct (ssh_commands _ _ _ _ _). apply _.
Qed.

Lemma reading_handlers st headers rq w r w' : match rq with GetRequest _ | ListRequest _ => True | _ => False end →
  run_request st headers rq w = (r, w') → business (w_db w') = business (w_db w).
Proof.
  pose proof business_preorder.
  assert (∀ actor ws, ApiPreserves (frames business) (all_responses (K := K) is_alphanumeric st actor ws)).
  { intros actor ws. induction ws; cbn [all_responses]; apply _. }
  destruct rq; try done; intros _ Hrun.
  - apply (api_keeps (frames business)) in Hrun; [done|]. unfold run_request, discard, get_handler. apply _.
  - apply (api_keeps (frames business)) in Hrun; [done|]. unfold run_request, discard, list_handler. apply _.
Qed.

(** *** Changing handlers *)
Lemma discard_run {A} (m : ApiM K A) w r w' : discard m w = (r, w') → ∃ r1, m w = (r1, w').
Proof. unfold discard. rewrite api_bind_run. destruct (m w) as [[a|e] w1]; intros [= <- <-]; eauto. Qed.

Lemma read_only_call {A} (m : DbM A) `{!ReadOnly m} (w w' : World K) r : call m w = (r, w') → w_db w' = w_db w.
Proof.
  unfold call. destruct (api_lost (w_k w)) as [[] k]; [by intros [= <- <-]|]. pose proof (read_only (w_db w)) as Hm.
  destruct (m (w_db w)) as [x db]. cbn in Hm. subst db. by intros [= <- <-].
Qed.

Lemma require_Err b e (w : World K) e' w' : require b e w = (Err e', w') → w' = w.
Proof. unfold require, answer. by intros [= _ <-]. Qed.

Lemma answer_world {A} (x : result ApiError.t A) (w : World K) r w' : answer x w = (r, w') → w' = w.
Proof. by intros [= _ <-]. Qed.

Lemma template_allowed (t org : Uuid) (e : bool) o : negb (negb e || is_some_and o (λ id : Uuid, negb (bool_decide (id = org)))) = true →
  e = true ∧ (o = None ∨ o = Some org).
Proof.
  destruct e; [|done]. destruct o as [id|]; cbn; [|by auto]. case_bool_decide; [subst; by auto|done].
Qed.

Lemma authorize_creation_run st actor query request w r w' : authorize_creation (K := K) st actor (cq_workspace request) w = (r, w') →
  w_db w' = w_db w ∧ ∀ template, r = Ok template → permitted (st_installation_id st) (CreateRequest query request) actor (w_db w).
Proof.
  intros Hrun. split.
  { assert (PreOrder (frames (λ db : Db, db))) by (split; [by intros ?|intros ???; unfold frames; congruence]).
    apply (api_keeps (frames (λ db, db))) in Hrun; [done|]. unfold authorize_creation. apply _. }
  intros template ->. unfold authorize_creation in Hrun. do 3 api_step Hrun. api_step Hrun.
  apply read_only_run in Hy2 as E; [|apply _]. rewrite E in Hy2. do 2 api_step Hrun. injection Hrun as <- _.
  apply negb_true_iff in Hy0. apply orb_false_iff in Hy0 as [Ht%negb_false_iff Hres]. apply negb_true_iff, andb_false_iff in Hy1.
  apply template_allowed in Hy3 as [Hen Horg]; [|exact 0%N]. apply negb_true_iff, andb_false_iff in Hy4.
  split_and!; [done|done| | |].
  - unfold has_template_restriction in Hres. destruct (pr_allowed_template_ids actor); [|by intros [??]]. cbn in Hres.
    apply orb_false_iff in Hres as [Hr1 Hr2]. by destruct (cw_resources _), (cw_temporary_storage_gib _).
  - destruct Hy1 as [Ho%negb_false_iff%bool_decide_eq_true|Ho%negb_false_iff]; auto.
  - exists y. split_and!; [done..|]. intros Hc. destruct Hy4 as [|Hm%negb_false_iff]; [congruence|done].
Qed.

Lemma update_handler_run st headers id name value op w r w' :
  update_handler (K := K) is_alphanumeric st headers id name value op w = (r, w') →
  business (w_db w') = business (w_db w) ∨
  ∃ actor w1, principal st headers w = (Ok actor, w1) ∧ manages_workspace (st_installation_id st) id actor (w_db w1).
Proof.
  intros Hrun. unfold update_handler in Hrun. first_step Hrun; [left; by eapply principal_business in Hy|].
  rename y into actor. pose proof (proj2 (principal_Ok _ _ _ _ _ Hy)) as Hb.
  first_step Hrun; [left; rewrite <-Hb; f_equal; by eapply read_only_call in Hy0; [|apply _]|].
  pose proof (read_only_call _ _ _ _ Hy0) as E.
  first_step Hrun; [left; apply require_Err in Hy1 as ->; by rewrite E|].
  apply require_Ok in Hy1 as [Hreq <-]. right. exists actor, wy. split; [done|].
  apply call_Ok in Hy0. rewrite E in Hy0. apply negb_true_iff, orb_false_iff in Hreq as [[Hm%negb_false_iff Hr]%orb_false_iff _].
  split_and!; [done| |by exists y]. unfold has_template_restriction in Hr. by destruct (pr_allowed_template_ids actor).
Qed.

(** C16: A request on workspaces changes nothing but the record of its key's use and
    of its idempotency key, unless it carries a key that is valid and whose owner
    and scopes permit it: creating in the organization from an enabled template,
    the action on that workspace, or the system's management for updates. Reading
    requests change nothing at all. *)
Theorem changes_are_authorised st headers rq w r w' :
  run_request st headers rq w = (r, w') →
  business (w_db w') = business (w_db w) ∨
  ∃ actor w1, principal st headers w = (Ok actor, w1) ∧ authentic (st_installation_id st) headers (w_db w) actor ∧
    permitted (st_installation_id st) rq actor (w_db w1).
Proof.
  intros Hrun. assert ((business (w_db w') = business (w_db w) ∨
    ∃ actor w1, principal st headers w = (Ok actor, w1) ∧ permitted (st_installation_id st) rq actor (w_db w1))) as [|(actor & w1 & Hp & Hperm)];
    [|by left|right; exists actor, w1; split_and!; [done|by apply principal_Ok in Hp as [? _]|done]].
  destruct rq; try (left; by eapply reading_handlers; [|exact Hrun]); apply discard_run in Hrun as [r1 Hrun].
  - unfold create_handler in Hrun. first_step Hrun; [left; by apply require_Err in Hy as ->|]. apply require_Ok in Hy as [_ <-].
    first_step Hrun; [left; by eapply principal_business in Hy|]. pose proof (proj2 (principal_Ok _ _ _ _ _ Hy)) as Hb.
    first_step Hrun; [left; rewrite <-Hb; f_equal; by eapply (authorize_creation_run _ _ query) in Hy0 as [? _]|].
    right. exists y0, wy. split; [done|]. by eapply (authorize_creation_run _ _ query) in Hy0 as [_ Hp]; [eapply Hp].
  - unfold action_handler in Hrun. first_step Hrun; [left; by apply answer_world in Hy as ->|]. apply answer_Ok in Hy as [Ha%ok_or_Ok <-].
    rename y into action. first_step Hrun; [left; by eapply principal_business in Hy|]. rename y into actor.
    pose proof (proj2 (principal_Ok _ _ _ _ _ Hy)) as Hb.
    first_step Hrun; [left; rewrite <-Hb; f_equal; by eapply read_only_call in Hy0; [|apply _]|].
    pose proof (read_only_call _ _ _ _ Hy0) as E. first_step Hrun; [left; apply require_Err in Hy1 as ->; by rewrite E|].
    apply require_Ok in Hy1 as [Hreq <-]. right. exists actor, wy. split; [done|]. apply call_Ok in Hy0. rewrite E in Hy0.
    apply negb_true_iff, orb_false_iff in Hreq as [?%negb_false_iff ?%negb_false_iff]. by exists action, y.
  - by eapply update_handler_run.
  - by eapply update_handler_run.
  - by eapply update_handler_run.
  - by eapply update_handler_run.
Qed.
End Requests.

(** ** Waiting ends *)
Section Wait.
Context {K : Type} `{ApiHost K} `{ApiWait K} `{!ApiWaitLaws K} `{!ClockAdvances K} `{UuidText}.
Implicit Types (st : AppState) (world : World K).

Lemma get_workspace_id inst id db w db' : get_workspace inst id db = (Ok w, db') → ws_id w = id.
Proof.
  unfold get_workspace. intros Hrun. run_step Hrun. destruct x as [row|]; [|done]. injection Hrun as Hdec _.
  unfold decode_workspace in Hdec. inv_binds. by simplify_eq/=.
Qed.

Lemma wait_loop_total n st deadline w world r world' : deadline <= monotonic_ms world + 250 * Z.of_nat n →
  wait_loop (S n) st deadline w world = (r, world') →
  match r with
  | Ok None => False
  | Ok (Some w') => ws_id w' = ws_id w ∧ (is_settled (ws_state w') = true ∨ deadline <= monotonic_ms world')
  | Err _ => True
  end.
Proof using Type*.
  revert w world. induction n as [|n IH]; intros w world Hd Hrun; cbn [wait_loop] in Hrun.
  - destruct (Z.ltb_spec (monotonic_ms world) deadline); [lia|]. injection Hrun as <- <-. by auto.
  - destruct (Z.ltb_spec (monotonic_ms world) deadline) as [Hlt|]; [|injection Hrun as <- <-; by auto].
    destruct (is_settled (ws_state w)) eqn:Hs; [injection Hrun as <- <-; by auto|]. cbn [negb orb] in Hrun.
    rewrite api_bind_run in Hrun. pose proof (calls_take_time _ (get_workspace (st_installation_id st) (ws_id w)) (pause world)) as Ht.
    pose proof (pause_advances world) as Hp. destruct (call _ (pause world)) as [[w1|e] world1] eqn:E; [|by injection Hrun as <- _].
    apply call_Ok, get_workspace_id in E. cbn in Ht. apply IH in Hrun; [|lia].
    destruct r as [[w'|]|]; [|done..]. by rewrite E in Hrun.
Qed.

(** The request that waits for a new workspace is answered: the wait ends by
    itself, within four reads a second, with the workspace as it was read last,
    which is ready, failed or being deleted unless the time is over. *)
Theorem wait_until_ready_total st w timeout world r world' : 0 <= timeout →
  wait_until_ready st w timeout world = (r, world') →
  match r with
  | Ok None => False
  | Ok (Some w') => ws_id w' = ws_id w ∧ (is_settled (ws_state w') = true ∨ monotonic_ms world + 1000 * timeout <= monotonic_ms world')
  | Err _ => True
  end.
Proof using Type*. intros Ht Hrun. eapply wait_loop_total; [|exact Hrun]. lia. Qed.
End Wait.

(** ** Retries *)
Section Retries.
Context {K : Type} `{ApiHost K} `{ApiCluster K} `{UuidText} `{Aead} `{Base64Codec} (is_alphanumeric : Z → bool).
Context `{!ResponseJson WorkspaceResponse}.
Implicit Types (st : AppState) (world : World K).

(** A stored answer is found again. *)
Lemma begin_replays inst scope key request_hash now expires db row :
  validate scope key = Ok () → t_idempotency db !! (inst, scope, key) = Some row → now < id_expires_at row →
  id_request_hash row = request_hash → id_status_code row ≠ 0 → in_u16 (id_status_code row) = true →
  begin_idempotency inst scope key request_hash now expires db = (Ok (Replay (mkReplay (id_status_code row) (id_response_json row))), db).
Proof.
  intros Hv Hrow Hexp Hh Hne Hu. unfold begin_idempotency. rewrite bind_run. unfold lift. rewrite Hv. rewrite bind_run. unfold modify.
  unfold delete_expired. rewrite Hrow. cbn [is_some_and]. destruct (Z.leb_spec (id_expires_at row) now); [lia|].
  rewrite bind_run. unfold reserve. rewrite Hrow. cbn. unfold read_idempotency. rewrite Hrow, Hh, String.eqb_refl. cbn.
  destruct (Z.eqb_spec (id_status_code row) 0); [done|]. by rewrite Hu.
Qed.

Lemma begin_validates inst scope key request_hash now expires db d db' :
  begin_idempotency inst scope key request_hash now expires db = (Ok d, db') → validate scope key = Ok ().
Proof. intros Hrun. unfold begin_idempotency in Hrun. run_step Hrun. done. Qed.

Lemma begin_cases inst scope key request_hash now expires db d db' :
  begin_idempotency inst scope key request_hash now expires db = (Ok d, db') →
  match d with
  | Reserved => t_idempotency db' !! (inst, scope, key) = Some (mkIdempotencyRow request_hash "" 0 now expires)
  | Replay replay => ∃ row, t_idempotency db' !! (inst, scope, key) = Some row ∧ id_request_hash row = request_hash ∧
      id_status_code row ≠ 0 ∧ in_u16 (id_status_code row) = true ∧ replay = mkReplay (id_status_code row) (id_response_json row) ∧
      t_idempotency db !! (inst, scope, key) = Some row
  | _ => True
  end.
Proof.
  intros Hrun. unfold begin_idempotency in Hrun. run_step Hrun. run_step Hrun. run_step Hrun.
  unfold reserve in Hx0. destruct (t_idempotency (delete_expired inst scope key now db) !! (inst, scope, key)) as [row|] eqn:Hrow.
  - injection Hx0 as <- <-. cbn in Hrun. unfold read_idempotency in Hrun. rewrite Hrow in Hrun.
    destruct (String.eqb_spec (id_request_hash row) request_hash); cbn in Hrun; [|by injection Hrun as <- _].
    destruct (Z.eqb_spec (id_status_code row) 0); [by injection Hrun as <- _|].
    destruct (in_u16 (id_status_code row)) eqn:Hu; [|done]. injection Hrun as <- <-. exists row. split_and!; try done.
    unfold delete_expired in Hrow. destruct (is_some_and _ _); [cbn in Hrow; by rewrite lookup_delete_eq in Hrow|done].
  - injection Hx0 as <- <-. injection Hrun as <- <-. cbn. by rewrite lookup_insert_eq.
Qed.

(** What completing stores. *)
Lemma complete_response_Ok st scope key request_hash status expose w world resp world' :
  complete_workspace_response (K := K) is_alphanumeric st scope key request_hash status expose w world = (Ok resp, world') →
  ∃ text row, resp = json_response status text ∧
    t_idempotency (w_db world) !! (st_installation_id st, scope, key) = Some row ∧ id_request_hash row = request_hash ∧
    t_idempotency (w_db world') !! (st_installation_id st, scope, key) =
      Some (mkIdempotencyRow request_hash text status (id_created_at row) (id_expires_at row)).
Proof.
  intros Hrun. unfold complete_workspace_response in Hrun. api_step Hrun.
  apply (api_keeps (frames t_idempotency)) in Hy; [|apply workspace_response_reads; split; [by intros ?|intros ???; unfold frames; congruence]].
  api_step Hrun. rename y0 into text. api_step Hrun. injection Hrun as <- <-. unfold finish_idempotency in Hy1. run_step Hy1.
  injection Hy1 as Hfin Hdb. apply ensure_Ok, Z.eqb_eq in Hfin. unfold finish, update_where in Hx. cbn in Hx.
  unfold frames in Hy. destruct (t_idempotency (w_db wy) !! _) as [row|] eqn:Hrow; [|by injection Hx; intros; subst].
  destruct (is_reservation request_hash row) eqn:Hres; [|by injection Hx; intros; subst].
  unfold is_reservation in Hres. apply andb_true_iff in Hres as [Hh%String.eqb_eq _]. injection Hx as _ <-.
  exists text, row. split_and!; [done|by rewrite <-Hy|done|]. rewrite <-Hdb. cbn. by rewrite lookup_insert_eq, Hh.
Qed.

(** C18: A request that was answered can be retried: while its idempotency key is
    kept, which is a day from the first attempt, the same request is answered
    from the stored response, byte for byte, whatever the operation would do now,
    and changes nothing. *)
Theorem retried_request_replays st scope key request_hash now status (expose : Workspace → bool) (operation : ApiM K Workspace)
    world resp world' :
  ApiPreserves (frames t_idempotency) operation → 100 <= status <= 999 →
  idempotently st scope key request_hash now operation
    (λ w, complete_workspace_response is_alphanumeric st scope key request_hash status (expose w) w) world = (Ok resp, world') →
  let position := (st_installation_id st, scope, key) in
  ∃ row, t_idempotency (w_db world') !! position = Some row ∧
    (t_idempotency (w_db world) !! position = Some row ∨ id_expires_at row = now + IDEMPOTENCY_TTL_SECONDS) ∧
    ∀ now2 operation2 finish2 world2, t_idempotency (w_db world2) !! position = Some row → now2 < id_expires_at row →
      (api_lost (w_k world2)).1 = false →
      ∃ world2', idempotently (A := Workspace) st scope key request_hash now2 operation2 finish2 world2 = (Ok resp, world2') ∧ w_db world2' = w_db world2.
Proof.
  intros Hop Hstatus Hrun position. unfold idempotently in Hrun. api_step Hrun. rename y into decision, Hy into Hbegin.
  pose proof (begin_validates _ _ _ _ _ _ _ _ _ Hbegin) as Hv. apply begin_cases in Hbegin.
  assert (∃ row, t_idempotency (w_db world') !! position = Some row ∧
    (t_idempotency (w_db world) !! position = Some row ∨ id_expires_at row = now + IDEMPOTENCY_TTL_SECONDS) ∧
    id_request_hash row = request_hash ∧ id_status_code row ≠ 0 ∧ in_u16 (id_status_code row) = true ∧
    replay_response (mkReplay (id_status_code row) (id_response_json row)) = Ok resp) as (row & Hrow & Hexp & Hh & Hne & Hu & Hresp).
  { destruct decision as [| | |replay]; [|done..|destruct Hbegin as (row & Hrow & Hh & Hne & Hu & -> & Hold)].
    - api_step Hrun. apply attempt_Ok in Hy. apply (api_keeps (frames t_idempotency)) in Hy as E; [|done].
      destruct y as [w|e]; [|by api_step Hrun]. apply complete_response_Ok in Hrun as (text & row & -> & Hrow & Hh & Hrow').
      unfold frames in E. rewrite E, Hbegin in Hrow. injection Hrow as <-. eexists. split; [exact Hrow'|]. cbn.
      unfold replay_response, in_range. cbn. split_and!; [by right|done|lia|unfold in_u16; bool_prop; unfold u16_max in *; lia|].
      by rewrite (proj2 (Z.leb_le 100 _)), (proj2 (Z.leb_le _ 999)) by lia.
    - apply answer_Ok in Hrun as [Hr <-]. exists row. split_and!; auto. }
  exists row. split_and!; [done..|]. intros now2 operation2 finish2 world2 Hrow2 Hlt Hlost. unfold idempotently. rewrite api_bind_run.
  destruct (api_lost (w_k world2)) as [lost k] eqn:Hk. cbn in Hlost. subst lost. rewrite (call_run _ _ _ Hk).
  rewrite (begin_replays _ _ _ _ _ _ _ row) by done. cbn [fst snd map_err]. unfold answer. rewrite Hresp. by eexists.
Qed.
End Retries.

(** An action keeps the reservations, so that a retried action is replayed. *)
Lemma action_frames_idempotency `{UuidText, SqlBackend} inst id action actor now :
  Preserves (frames t_idempotency) (request_workspace_action inst id action actor now).
Proof.
  unfold request_workspace_action, transition_workspace. apply preserves_bind; [apply _| |apply _].
  apply preserves_transaction; [apply _|]. unfold select_workspace. apply preserves_bind; [apply _..|]. intros [row|]; [|apply _].
  apply preserves_bind; [apply _..|]. intros w. cbn [is_some is_some_and]. unfold apply_transition, guard, update_workspace.
  assert (∀ w, Preserves (frames t_idempotency) (job_and_audit inst w (Action action) actor now)) by (intros; by apply job_and_audit_frames).
  cbn [confirms_deletion]. apply _.
Qed.

(** ** Plugins see what is created *)
Section Admission.
Context {K : Type} `{ApiHost K} `{ApiCluster K} `{PluginAdmission K}.
Context `{UuidText} `{TemplateYaml} `{SqlBackend} `{Aead} `{Base64Codec} `{RandomSource}.
Context (is_alphanumeric : Z → bool) (openssh_public_key : list Z → bool).
Implicit Types (st : AppState) (world : World K).

Lemma created_template inst command pool inline yaml ratio allow actor now db w db' document :
  create_workspace_with_admitted_template inst command pool inline yaml ratio allow actor now db = (Ok w, db') →
  parse_document yaml = Ok document →
  ws_template w = overridden_spec command (spec document) ratio ∧ matches_command command w.
Proof.
  intros Hrun Hparse. split; [|by apply create_workspace_inner_run in Hrun as [? [Hm _]]].
  unfold create_workspace_with_admitted_template, create_workspace_inner in Hrun.
  run_step Hrun. run_step Hrun. run_step Hrun. injection Hx1 as <- <-. run_step Hrun. rewrite transaction_Ok in Hrun.
  unfold create in Hrun. run_step Hrun. rename x into snapshot. unfold resolve_template in Hx2. run_step Hx2. injection Hx2 as Hx2 _.
  run_step Hrun. run_step Hrun. run_step Hrun. destruct x0 as [s d]. apply apply_resource_override_Ok in Hx5 as (Hs & _).
  run_step Hrun. unfold build_workspace in Hx5. run_step Hx5. run_step Hx5. injection Hx5 as <- _.
  do 4 run_step Hrun. injection Hrun as <- _. cbn. rewrite Hs. f_equal.
  unfold verify_admitted_template in Hx3. cbn in Hx3. destruct (String.eqb_spec yaml (snap_yaml snapshot)); [|done].
  unfold decode_snapshot in Hx2. destruct (match _ with Some _ => _ | None => _ end) as [y|]; [|done]. cbn in Hx2. inv_binds. simplify_eq/=. congruence.
Qed.

(** What the plugins are asked about is what is created: the plan they admitted
    has the name, the image, the access mode, the resources and the privileges of
    the workspace that is recorded, in the organization and for the owner they
    were told, even when the template was edited in between. *)
Theorem plugins_admit_what_is_created st actor request template now db0 db0' world w world' :
  get_workspace_template (st_installation_id st) (cw_template_id (cq_workspace request)) db0 = (Ok template, db0') →
  create_admitted_workspace (K := K) is_alphanumeric openssh_public_key st actor request template now world = (Ok w, world') →
  ∃ plan template_id db k k',
    admit_workspace_create (mkCreateContext (st_installation_id st) (pr_user_id actor) (ws_organization_id w) (ws_owner_id w) template_id)
      plan db k = (Ok (), k') ∧
    ws_template_id w = Some template_id ∧ cp_name plan = ws_name w ∧
    plan = from_template (cw_name (cq_workspace request)) (ws_template w).
Proof.
  intros Ht Hrun. assert (∃ document, parse_document (wt_yaml template) = Ok document ∧ spec document = wt_template template) as (document & Hparse & Hspec).
  { unfold get_workspace_template in Ht. run_step Ht. injection Ht as Ht _. destruct x as [row|]; [|done].
    unfold decode_optional_template, decode_template in Ht. inv_binds. simplify_eq/=. eauto. }
  unfold create_admitted_workspace in Hrun. api_step Hrun. rename y into ratio, Hy into Hratio. do 3 api_step Hrun.
  api_step Hrun. rename Hy2 into Hadmit. api_step Hrun. apply call_Ok in Hrun.
  destruct (created_template _ _ _ _ _ _ _ _ _ _ _ _ _ Hrun Hparse) as [Htemplate (Horg & Hown & Hname & Htid & _)].
  assert (final_template (cq_workspace request) (wt_template template) ratio = ws_template w) as Hfinal.
  { rewrite Htemplate, Hspec. unfold final_template, overridden_spec. f_equal.
    destruct (cpu_overcommit_ratio (wt_template template)) as [r|]; [by injection Hratio as <- _|done]. }
  unfold admit_plan in Hadmit. rewrite Hfinal, <-Horg, <-Hown in Hadmit.
  destruct (admit_workspace_create _ _ _ _) as [x k'] eqn:E. destruct x as [[]|]; [|done].
  eexists _, _, _, _, k'. split_and!; [exact E|done|by rewrite Hname|done].
Qed.
End Admission.

(** ** Examples *)
Module RequestSample.
Import (hints) KeySample ListingSample.
#[export] Existing Instances decimal_uuid_text CryptoSample.aead GatewaySample.codec CryptoSample.random KeySample.hash CatalogSample.yaml.
(** The outside is the time, in milliseconds. *)
#[export] Instance host : ApiHost Z := {|
  api_clock k := (Some 100, k); auth_clocks k := ((100, 100), k); api_lost k := (false, k) |}.
#[export] Instance cluster : ApiCluster Z := {|
  get_service _ _ k := (Ok None, k); get_stateful_set _ _ k := (Ok None, k);
  get_ingress _ _ k := (Ok None, k); get_namespace _ k := (Ok None, k) |}.
(** Plugins that refuse privileged workspaces. *)
#[export] Instance plugins : PluginAdmission Z := λ _ plan _ k,
  (if cp_cluster_access plan then Err (PluginAdmissionDenied "policy" "no_privileges") else Ok (), k).
#[export] Instance wait : ApiWait Z := {| monotonic_ms w := w_k w; pause w := mkWorld (w_db w) (w_k w + 250) |}.
#[export] Instance wait_laws : ApiWaitLaws Z.
Proof. split. intros w. cbn. lia. Qed.
#[export] Instance clock_advances : ClockAdvances Z.
Proof. split. intros A m w. unfold call. cbn. destruct (m (w_db w)). cbn. lia. Qed.

#[export] Instance request_hash : RequestHash := λ _, Some "hash".
#[export] Instance response_text : ResponseJson WorkspaceResponse := λ r, Some (state_as_str (ws_state (rp_workspace r))).

Definition state : AppState := mkAppState "inst" None None None None None None false false None.
Definition token : string := "mwc_0123456789abcdef0123456789abcdef".
Definition headers : HeaderMap := {[ "authorization" := "Bearer " +:+ token; "idempotency-key" := "once" ]}.
Definition key : ApiKeyRow :=
  mkApiKeyRow "inst" 3 "laptop" "mwc_" token (Some token) None 10 None [ScopeChangeWorkspaceState] (Some 1000) None.
Definition db : Db := set_t_api_keys {[ 8%N := key ]} GatewaySample.db0.

#[export] Instance create_json : RequestJson CreateWorkspaceRequest := λ _, Null.
#[export] Instance image_json : RequestJson UpdateWorkspaceImageRequest := λ _, Null.
#[export] Instance placement_json : RequestJson UpdateWorkspacePlacementRequest := λ _, Null.
#[export] Instance ratio_json : RequestJson UpdateWorkspaceCpuOvercommitRequest := λ _, Null.
#[export] Instance temporary_json : RequestJson UpdateWorkspaceTemporaryStorageRequest := λ _, Null.

Definition stop : WorkspaceRequest := ActionRequest ActionSample.id "stop".
Definition stopped := run_request is_ascii_alphanumeric (λ _, true) state headers stop (mkWorld db 0).

(** The operation of the request, around which the key is reserved. *)
Definition stop_operation : ApiM Z Workspace := call (request_workspace_action "inst" ActionSample.id Stop 3 100).
Definition stop_once := idempotently state "3:workspace-action" "once" "hash" 100 stop_operation
  (λ w, complete_workspace_response is_ascii_alphanumeric state "3:workspace-action" "once" "hash" 202 false w) (mkWorld db 0).

Definition starting : Workspace :=
  mkWorkspace ActionSample.id "1000000000000001" 2 3 "dev" None "default" None None (spec GatewaySample.document) Provisioning 7 100 100.
Definition waited := wait_until_ready state starting 2 (mkWorld db 0).
Definition template : option WorkspaceTemplate :=
  match get_workspace_template "inst" 1000 CreationSample.db with (Ok t, _) => Some t | _ => None end.
Definition actor : Principal := mkPrincipal 3 "Ada" false [mkMembership 2 Member] [ScopeCreateWorkspace] (Some 1000) None.
Definition request : CreateWorkspaceRequest :=
  mkCreateRequest (mkCreateWorkspace 2 3 "  dev box " 1000 None (Some 20) false None None) None [].
Definition creation (t : WorkspaceTemplate) :=
  create_admitted_workspace is_ascii_alphanumeric (λ _, true) state actor request t 50 (mkWorld CreationSample.db 0).
End RequestSample.
Import (hints) KeySample ListingSample RequestSample.

Lemma changes_are_authorised_witness :
  ∃ actor w1, principal (K := Z) RequestSample.state RequestSample.headers (mkWorld RequestSample.db 0) = (Ok actor, w1) ∧
    permitted "inst" RequestSample.stop actor (w_db w1).
Proof.
  assert (wr_state <$> t_workspaces (w_db RequestSample.stopped.2) !! ActionSample.id = Some Stopping) as Hs by by vm_compute.
  destruct RequestSample.stopped as [r w'] eqn:E.
  destruct (changes_are_authorised is_ascii_alphanumeric (λ _, true) RequestSample.state RequestSample.headers RequestSample.stop
              (mkWorld RequestSample.db 0) r w' E) as [Hb|(actor & w1 & Hp & _ & Hperm)].
  - exfalso. cbn [snd] in Hs. apply (f_equal t_workspaces) in Hb. change (t_workspaces (business (w_db w'))) with (t_workspaces (w_db w')) in Hb.
    rewrite Hb in Hs. by vm_compute in Hs.
  - exists actor, w1. split; [exact Hp|exact Hperm].
Defined.

Lemma wait_until_ready_total_witness :
  ∃ w world', RequestSample.waited = (Ok (Some w), world') ∧ ws_id w = ActionSample.id ∧
    (is_settled (ws_state w) = true ∨ 2000 <= monotonic_ms world').
Proof.
  assert (match RequestSample.waited.1 with Ok (Some _) => true | _ => false end = true) as Hs by by vm_compute.
  destruct RequestSample.waited as [r world'] eqn:E.
  pose proof (wait_until_ready_total RequestSample.state RequestSample.starting 2 (mkWorld RequestSample.db 0) r world' ltac:(lia) E) as Ht.
  cbn [fst] in Hs. destruct r as [[w|]|]; [|discriminate Hs..]. exists w, world'. split; [exact eq_refl|exact Ht].
Defined.

Lemma retried_request_replays_witness :
  ∃ resp world', RequestSample.stop_once = (Ok resp, world') ∧ rs_body resp = "stopping" ∧
    ∃ world2, idempotently (A := Workspace) RequestSample.state "3:workspace-action" "once" "hash" 5000 (throw ApiError.Forbidden)
      (λ _, throw ApiError.Forbidden) world' = (Ok resp, world2) ∧ w_db world2 = w_db world'.
Proof.
  assert (match RequestSample.stop_once.1 with Ok resp => rs_body resp | Err _ => "" end = "stopping") as Hs by by vm_compute.
  assert (is_some_and (t_idempotency (w_db RequestSample.stop_once.2) !! ("inst", "3:workspace-action", "once"))
            (λ row, id_expires_at row =? 86500) = true) as Hexp by by vm_compute.
  destruct RequestSample.stop_once as [r world'] eqn:E. cbn [fst snd] in Hs, Hexp. destruct r as [resp|]; [|discriminate Hs].
  destruct (λ Hop, retried_request_replays is_ascii_alphanumeric RequestSample.state "3:workspace-action" "once" "hash" 100 202 (λ _, false)
              RequestSample.stop_operation _ _ _ Hop ltac:(lia) E) as (row & Hrow & _ & Hagain).
  - unfold RequestSample.stop_operation. assert (PreOrder (frames t_idempotency)) by (split; [by intros ?|intros ???; unfold frames; congruence]).
    apply api_preserves_call_with; [done|]. by apply action_frames_idempotency.
  - exists resp, world'. split; [exact eq_refl|]. split; [exact Hs|].
    change (st_installation_id RequestSample.state) with "inst" in Hrow. rewrite Hrow in Hexp. apply Z.eqb_eq in Hexp.
    destruct (Hagain 5000 (throw ApiError.Forbidden) (λ _, throw ApiError.Forbidden) world' Hrow) as (world2 & Hrun & Hdb); [lia|exact eq_refl|].
    exists world2. split; [exact Hrun|exact Hdb].
Defined.

Lemma plugins_admit_what_is_created_witness :
  ∃ w world', ∃ t, RequestSample.template = Some t ∧ RequestSample.creation t = (Ok w, world') ∧
    ∃ plan template_id db k k',
      admit_workspace_create (mkCreateContext "inst" 3 (ws_organization_id w) (ws_owner_id w) template_id) plan db k = (Ok (), k') ∧
      ws_template_id w = Some template_id ∧ cp_name plan = ws_name w.
Proof.
  assert (match RequestSample.template with Some t => match (RequestSample.creation t).1 with Ok _ => true | Err _ => false end | None => false end = true)
    as Hs by by vm_compute.
  unfold RequestSample.template in *.
  destruct (get_workspace_template "inst" 1000 CreationSample.db) as [[t|] db'] eqn:Et; [|discriminate Hs].
  destruct (RequestSample.creation t) as [[w|] world'] eqn:E; [|discriminate Hs].
  destruct (plugins_admit_what_is_created is_ascii_alphanumeric (λ _, true) RequestSample.state RequestSample.actor RequestSample.request t 50
              CreationSample.db db' _ _ _ Et E) as (plan & tid & db & k & k' & Hadmit & Htid & Hname & _).
  exists w, world', t. split; [exact eq_refl|]. split; [exact E|]. exists plan, tid, db, k, k'. split; [exact Hadmit|]. split; [exact Htid|exact Hname].
Defined.

(** A key that is bound to templates is refused the workspace of another template,
    and shown it in the list, with the way to connect. *)
Definition bound_key : ApiKeyRow :=
  mkApiKeyRow "inst" 3 "laptop" "mwc_" RequestSample.token (Some RequestSample.token) None 10 None [ScopeReadWorkspace; ScopeConnectWorkspace]
    (Some 1000) (Some [77%N]).

Lemma list_ignores_template_bound :
  let world := mkWorld (set_t_api_keys {[ 8%N := bound_key ]} RequestSample.db) 0 in
  let state := ResponseSample.state in
  (get_handler is_ascii_alphanumeric state RequestSample.headers ActionSample.id world).1 = Err ApiError.Forbidden ∧
  ∃ page, (list_handler is_ascii_alphanumeric state RequestSample.headers (mkListQuery 2 None None None None) world).1 = Ok page ∧
    map (λ r, (ws_id (rp_workspace r), is_some (rp_ssh_command r))) (rpg_items page) = [(ActionSample.id, true)].
Proof. split; [by vm_compute|]. eexists. split; [vm_compute; reflexivity|by vm_compute]. Qed.
