(* ===== verification/EventStream.v ===== *)
(** * Events: the store and the stream ([src/events.rs], [src/storage/event_store.rs],
    [src/api/events.rs])

    The events of an organization are streamed to its members as server-sent
    events. The stream remembers the last event it sent and asks for later ones,
    at first and whenever it is notified: by PostgreSQL, or every second. *)
From S2P Require Import Prelude Text Json Auth Quota Templates Workspaces Errors ShrinkOperation RuntimeEvents Quantity Net Database WorkspaceStore JobStore Events JobQueue WorkspaceActions ShrinkStore Reconcile Injections Catalog Idempotency Crypto InjectionStore Search Creation Usage Identity ApiKeys Listing Webhooks SshStore Api.

(** ** The store *)
Record NewEvent := mkNewEvent {
  ne_organization_id : Uuid;
  ne_workspace_id : option Uuid;
  ne_kind : string;
  ne_payload : Value;
}.

(** The only error is [InvalidKind]. *)
Definition event_validate (event : NewEvent) : bool :=
  negb (bool_decide (ne_kind event = "")) && (len (ne_kind event) <=? 128)
  && forallb (λ c, is_ascii_alphanumeric c || bool_decide (c ∈ bytes "._-")) (chars (ne_kind event)).

Definition decode_event (id : Uuid) (r : EventRow) : EventRecord :=
  mkEventRecord id (e_organization_id r) (e_workspace_id r) (e_kind r) (e_payload r) (e_created_at r).

Definition append_event (inst : string) (event : NewEvent) (now : Z) : DbM EventRecord :=
  _ ← lift (ensure (event_validate event) StorageError.InvalidEvent);
  id ← now_v7;
  let row := mkEventRow inst (ne_organization_id event) (ne_workspace_id event) (ne_kind event) (ne_payload event) now in
  _ ← insert_event id row;
  mret (decode_event id row).

Section EventStream.
Context `{UuidText}.

(** [ORDER BY id]: the order of the identifiers' texts. *)
Definition event_key (r : EventRecord) : PageKey := (0, er_id r).

Definition organization_events (inst : string) (organization_id : Uuid) (db : Db) : list EventRecord :=
  ordered event_key Oldest
    ((λ kv : Uuid * EventRow, decode_event kv.1 kv.2) <$>
       List.filter (λ kv : Uuid * EventRow,
                      String.eqb (e_installation_id kv.2) inst && bool_decide (e_organization_id kv.2 = organization_id))
         (map_to_list (t_events db))).

(** [id > after]; without a cursor [after] is the empty text, which every identifier
    exceeds. *)
Definition event_after (cursor : option Uuid) : EventRecord → bool := after event_key Oldest (pair 0 <$> cursor).

Definition list_events (inst : string) (organization_id : Uuid) (cursor : option Uuid) (limit : Z) : DbM (list EventRecord) :=
  reads (λ db, take (Z.to_nat (Z.max 1 (Z.min 1000 limit)))
                 (List.filter (event_after cursor) (organization_events inst organization_id db))).

(** ** The stream *)
Record EventStreamState := mkStream {
  es_cursor : option Uuid;
  es_pending : list EventRecord;
  es_pending_bytes : Z;      (** u64 *)
  es_polling : bool;         (** [EventNotifierInner::Poll] *)
  es_initial_query : bool;
}.

(** A message to the client: its record and its data, or an error. *)
Inductive SseEvent :=
  | RecordEvent (record : EventRecord) (data : string)
  | StreamError (data : string).

Class EventJson := event_json : EventRecord → option string.
Context `{EventJson}.

Definition serialized_event_bytes (r : EventRecord) : Z :=
  match event_json r with Some text => Z.min u64_max (len text) | None => 0 end.

Definition record_message (r : EventRecord) : SseEvent :=
  match event_json r with Some text => RecordEvent r text | None => StreamError "event serialization failed" end.

(** What happens outside in one pass of the loop. *)
Record PassOutcome := mkOutcome {
  po_failed : bool;     (** the listener fails *)
  po_lost : bool;       (** the query fails *)
}.

(** [EventNotifier::wait]. PostgreSQL's listener takes the notifications from its
    channel, a list of their payloads, and skips those of other installations; when
    none is left it is [Blocked] until the next one. The ticks of the poll come by
    themselves. *)
Inductive Waited := Woken | Failed | Blocked.
Fixpoint recv_loop (installation_id : string) (channel : list string) : Waited * list string :=
  match channel with
  | [] => (Blocked, [])
  | payload :: channel => if String.eqb payload installation_id then (Woken, channel) else recv_loop installation_id channel
  end.
Definition notifier_wait (inst : string) (failed polling : bool) (channel : list string) : Waited * list string :=
  if polling then (Woken, channel) else if failed then (Failed, channel) else recv_loop inst channel.

Definition query_events (inst : string) (organization_id : Uuid) (o : PassOutcome) (s : EventStreamState) (db : Db)
    : option SseEvent * EventStreamState :=
  match (if po_lost o then Err StorageError.Database else (list_events inst organization_id (es_cursor s) 100 db).1) with
  | Ok records =>
      (None, mkStream (es_cursor s) (es_pending s ++ records)
               (Z.min u64_max (es_pending_bytes s + foldr (λ r acc, serialized_event_bytes r + acc) 0 records))
               (es_polling s) (es_initial_query s))
  | Err _ => (Some (StreamError "event query temporarily failed"), s)
  end.

(** One pass of the loop of [next_event]: the message it returns, if it does, the
    state, and the rest of the channel. A pass that is blocked does nothing else. *)
Definition next_pass (inst : string) (organization_id : Uuid) (o : PassOutcome) (s : EventStreamState) (db : Db) (channel : list string)
    : option SseEvent * EventStreamState * list string :=
  match es_pending s with
  | record :: rest =>
      (Some (record_message record),
       mkStream (Some (er_id record)) rest (Z.max 0 (es_pending_bytes s - serialized_event_bytes record))
         (es_polling s) (es_initial_query s), channel)
  | [] =>
      if es_initial_query s then
        (query_events inst organization_id o
          (mkStream (es_cursor s) [] (es_pending_bytes s) (es_polling s) false) db, channel)
      else match notifier_wait inst (po_failed o) (es_polling s) channel with
           | (Failed, channel) =>
               (Some (StreamError "event notification temporarily failed; polling enabled"),
                mkStream (es_cursor s) [] (es_pending_bytes s) true false, channel)
           | (Blocked, channel) => (None, s, channel)
           | (Woken, channel) => (query_events inst organization_id o s db, channel)
           end
  end.

(** [next_event], on the outcomes, the databases and the notifications it meets;
    [None] while it is still waiting. *)
Fixpoint next_event (inst : string) (organization_id : Uuid) (passes : list (PassOutcome * Db * list string))
    (s : EventStreamState) (channel : list string) : option (SseEvent * EventStreamState * list string) :=
  match passes with
  | [] => None
  | (o, db, arrived) :: passes =>
      match next_pass inst organization_id o s db (channel ++ arrived) with
      | (Some message, s, channel) => Some (message, s, channel)
      | (None, s, channel) => next_event inst organization_id passes s channel
      end
  end.

(** ** The request *)
Context {K : Type} `{ApiHost K} `{TokenHash} `{SqlBackend}.

(** [events::stream]: the state the stream starts in. SQLite is polled. *)
Definition stream_handler (st : AppState) (headers : HeaderMap) (organization_id : Uuid) : ApiM K EventStreamState :=
  actor ← principal st headers;
  _ ← require (principal_allows actor ReadWorkspace organization_id) ApiError.Forbidden;
  let cursor := header_str headers "last-event-id" ≫= uuid_parse_str in
  _ ← match backend with Sqlite => mret () | Postgres => call (mret ()) end;  (** [event_notifier] connects *)
  mret (mkStream cursor [] 0 (match backend with Sqlite => true | Postgres => false end) true).
End EventStream.

(** ** What a client receives *)
Definition message_record (m : SseEvent) : option EventRecord :=
  match m with RecordEvent r _ => Some r | StreamError _ => None end.

Section Delivery.
Context `{UuidTextLaws} `{EventJson} (inst : string) (organization_id : Uuid).
Implicit Types (s : EventStreamState) (db : Db).
Notation events := (organization_events inst organization_id).

(** The events a client asks for that starts after [cursor]. *)
Definition wanted (cursor : option Uuid) (db : Db) : list EventRecord := List.filter (event_after cursor) (events db).

(** Events are committed in the order of their identifiers. *)
Definition commits_in_order db db' : Prop := ∃ fresh, events db' = events db ++ fresh.

(** The stream, with its channel and the messages sent so far, and the rest of the
    system. The channel holds the notifications that were sent, or are about to be
    sent for events that are committed; others than this installation's come as they
    like. A [quiet] system loses no notification and no query, its listener does not
    fail, and no transaction commits more than 100 events of the organization. *)
Inductive stream_step (quiet : bool) : relation (Db * list string * EventStreamState * list SseEvent) :=
  | stream_pass o db channel s sent message s' channel' :
      (quiet = true → po_lost o = false ∧ po_failed o = false) →
      next_pass inst organization_id o s db channel = (message, s', channel') →
      stream_step quiet (db, channel, s, sent) (db, channel', s', sent ++ option_list message)
  | stream_commit db db' channel s sent fresh :
      events db' = events db ++ fresh → (quiet = true → (length fresh <= 100)%nat) →
      stream_step quiet (db, channel, s, sent) (db', channel ++ [inst], s, sent)
  | stream_notify db channel payload s sent :
      stream_step quiet (db, channel, s, sent) (db, channel ++ [payload], s, sent)
  | stream_lose db channel channel' s sent :
      quiet = false → channel' `sublist_of` channel → stream_step quiet (db, channel, s, sent) (db, channel', s, sent).

Lemma events_in_order db : in_order event_key Oldest (events db).
Proof using Type*.
  apply ordered_in_order. rewrite <-list_fmap_compose.
  assert (NoDup ((λ kv : Uuid * EventRow, kv.1) <$> map_to_list (t_events db))) as Hnd by apply NoDup_fst_map_to_list.
  induction (map_to_list (t_events db)) as [|[id row] l IH]; [constructor|]. cbn in Hnd. apply NoDup_cons in Hnd as [Hn Hnd].
  cbn [List.filter]. destruct (_ && _); [|by apply IH]. cbn. constructor; [|by apply IH].
  intros ([id' row'] & E & Hin)%list_elem_of_fmap. cbn in E. injection E as <-. apply Hn.
  apply list_elem_of_In, filter_In in Hin as [Hin _]. apply list_elem_of_fmap. exists (id, row'). split; [done|by apply list_elem_of_In].
Qed.

Lemma filter_in_order (p : EventRecord → bool) l : in_order event_key Oldest l → in_order event_key Oldest (List.filter p l).
Proof using Type*. unfold in_order. apply StronglySorted_list_filter. Qed.

(** Continuing after the last record that was sent. *)
Lemma wanted_after cursor db sent rest : wanted cursor db = sent ++ rest →
  List.filter (event_after (option_or (er_id <$> last sent) cursor)) (events db) = rest.
Proof using Type*.
  intros Hw. destruct (last sent) as [x|] eqn:El; cbn; [|apply last_None in El as ->; exact Hw].
  apply last_Some in El as [l ->]. pose proof (events_in_order db) as Ho. apply (filter_in_order (event_after cursor)) in Ho.
  fold (wanted cursor db) in Ho. rewrite Hw, <-app_assoc in Ho. cbn in Ho.
  assert (event_after cursor x = true) as Hx.
  { assert (x ∈ wanted cursor db) as Hin by (rewrite Hw, !elem_of_app, list_elem_of_singleton; auto).
    by apply list_elem_of_In, filter_In in Hin as [_ Hin]. }
  unfold event_after at 1. change (pair 0 <$> Some (er_id x)) with (Some (event_key x)).
  rewrite <-(filter_after_after event_key Oldest (pair 0 <$> cursor) x _ Hx).
  change (List.filter (after event_key Oldest (pair 0 <$> cursor)) (events db)) with (wanted cursor db).
  rewrite Hw, <-app_assoc. by apply filter_after.
Qed.

Record stream_inv (cursor : option Uuid) db s (sent : list EventRecord) : Prop := {
  si_split : ∃ rest, wanted cursor db = sent ++ es_pending s ++ rest;
  si_cursor : es_cursor s = option_or (er_id <$> last sent) cursor;
}.

(** What is read is what comes next. *)
Lemma query_inv cursor o db s sent message s' : stream_inv cursor db s sent → es_pending s = [] →
  query_events inst organization_id o s db = (message, s') →
  match message with
  | Some m => message_record m = None ∧ s' = s
  | None => stream_inv cursor db s' sent ∧ es_pending s' = take 100 (drop (length sent) (wanted cursor db))
  end.
Proof using Type*.
  intros [[rest Hrest] Hc] Hp. unfold query_events, list_events. destruct (po_lost o); [by intros [= <- <-]|]. cbn [fst reads].
  rewrite Hp in Hrest. cbn in Hrest. rewrite Hc, (wanted_after _ _ _ _ Hrest), Hp. intros [= <- <-].
  change (Z.to_nat (Z.max 1 (Z.min 1000 100))) with 100%nat. split; [split; cbn [es_pending es_cursor app]|].
  - exists (drop 100 rest). by rewrite take_drop.
  - done.
  - cbn [es_pending app]. by rewrite Hrest, drop_app_length.
Qed.

(** Every record can be serialised. *)
Context (Hjson : ∀ r, is_Some (event_json r)).

Lemma message_of_record r : message_record (record_message r) = Some r.
Proof using Hjson. unfold record_message. by destruct (Hjson r) as [text ->]. Qed.

(** How often the stream is going to be woken, the first query included. *)
Definition own_payloads (channel : list string) : nat := length (List.filter (String.eqb inst) channel).
Definition wake_ups s channel : nat := own_payloads channel + if es_initial_query s then 1 else 0.

Lemma recv_loop_spec channel :
  match recv_loop inst channel with
  | (Woken, rest) => own_payloads channel = S (own_payloads rest)
  | (Blocked, rest) => own_payloads channel = O ∧ rest = []
  | (Failed, _) => False
  end.
Proof.
  induction channel as [|p channel IH]; [done|]. cbn [recv_loop]. unfold own_payloads in *. cbn [List.filter].
  rewrite (String.eqb_sym inst p). destruct (String.eqb p inst); [done|exact IH].
Qed.

(** What a pass can be: it sends the next record, it queries after the first start or a
    wake-up, it falls back to polling, or it waits. *)
Inductive pass_case (o : PassOutcome) s db channel : option SseEvent → EventStreamState → list string → Prop :=
  | case_send r rest bytes : es_pending s = r :: rest →
      pass_case o s db channel (Some (record_message r)) (mkStream (Some (er_id r)) rest bytes (es_polling s) (es_initial_query s)) channel
  | case_query message s' channel' : es_pending s = [] →
      query_events inst organization_id o (mkStream (es_cursor s) [] (es_pending_bytes s) (es_polling s) false) db = (message, s') →
      (if es_polling s && negb (es_initial_query s) then channel' = channel
       else wake_ups s channel = S (own_payloads channel')) →
      pass_case o s db channel message s' channel'
  | case_fall_back message : es_pending s = [] → po_failed o = true → message_record message = None →
      pass_case o s db channel (Some message) (mkStream (es_cursor s) [] (es_pending_bytes s) true false) channel
  | case_wait : es_pending s = [] → es_polling s = false → wake_ups s channel = O → pass_case o s db channel None s [].

Lemma next_pass_case o s db channel message s' channel' :
  next_pass inst organization_id o s db channel = (message, s', channel') → pass_case o s db channel message s' channel'.
Proof.
  unfold next_pass, notifier_wait. destruct (es_pending s) as [|r rest] eqn:Ep; [|intros [= <- <- <-]; by apply case_send].
  destruct s as [cursor p bytes polling initial]. cbn in Ep |- *. subst p. destruct initial.
  - intros [= Hq <-]. destruct (query_events _ _ _ _ _) as [m s1] eqn:E in Hq. injection Hq as <- <-.
    apply case_query; [done|exact E|]. cbn. rewrite andb_false_r. unfold wake_ups; cbn. lia.
  - destruct polling; [|destruct (po_failed o) eqn:Ef].
    + intros [= Hq <-]. destruct (query_events _ _ _ _ _) as [m s1] eqn:E in Hq. injection Hq as <- <-.
      by apply case_query; [|exact E|].
    + intros [= <- <- <-]. by apply case_fall_back.
    + pose proof (recv_loop_spec channel) as Hr. destruct (recv_loop inst channel) as [[] rest]; [|done|].
      * intros [= Hq <-]. destruct (query_events _ _ _ _ _) as [m s1] eqn:E in Hq. injection Hq as <- <-.
        apply case_query; [done|exact E|]. unfold wake_ups; cbn. lia.
      * destruct Hr as [Hr ->]. intros [= <- <- <-]. apply case_wait; [done..|]. unfold wake_ups; cbn. lia.
Qed.

Lemma query_keeps o s db message s' : query_events inst organization_id o s db = (message, s') →
  es_polling s' = es_polling s ∧ es_initial_query s' = es_initial_query s ∧ (po_lost o = false → message = None).
Proof. unfold query_events. destruct (po_lost o); [by intros [= <- <-]|]. cbn. by intros [= <- <-]. Qed.

Lemma idle_inv cursor db s sent polling initial : stream_inv cursor db s sent → es_pending s = [] →
  stream_inv cursor db (mkStream (es_cursor s) [] (es_pending_bytes s) polling initial) sent.
Proof. intros [Hs Hc] Hp. rewrite Hp in Hs. by split. Qed.

Lemma pass_inv cursor o db s channel sent message s' channel' : stream_inv cursor db s sent →
  next_pass inst organization_id o s db channel = (message, s', channel') →
  stream_inv cursor db s' (sent ++ omap message_record (option_list message)).
Proof using Type*.
  intros Hi [r rest bytes Hp|message1 s1 channel1 Hp Hq _|m Hp _ Hm|Hp _ _]%next_pass_case.
  - destruct Hi as [[l Hl] Hc]. change (omap message_record (option_list (Some (record_message r)))) with (omap message_record [record_message r]).
    cbn [omap list_omap]. rewrite message_of_record. split; cbn [es_pending es_cursor].
    + exists l. rewrite Hl, Hp, <-app_assoc. done.
    + by rewrite last_snoc.
  - eapply query_inv in Hq; [|by apply idle_inv|done]. destruct message1 as [m|]; cbn.
    + destruct Hq as [Hm ->]. rewrite Hm; cbn. rewrite app_nil_r. by apply idle_inv.
    + rewrite app_nil_r. by destruct Hq.
  - cbn. rewrite Hm; cbn. rewrite app_nil_r. by apply idle_inv.
  - cbn. by rewrite app_nil_r.
Qed.

Lemma wanted_grows cursor db db' fresh : events db' = events db ++ fresh →
  wanted cursor db' = wanted cursor db ++ List.filter (event_after cursor) fresh.
Proof. unfold wanted. intros ->. apply List.filter_app. Qed.

Lemma commit_inv cursor db db' s sent fresh : events db' = events db ++ fresh → stream_inv cursor db s sent → stream_inv cursor db' s sent.
Proof.
  intros Hf [[rest Hrest] Hc]. split; [|done]. exists (rest ++ List.filter (event_after cursor) fresh).
  rewrite (wanted_grows _ _ _ _ Hf), Hrest, <-!app_assoc. done.
Qed.

(** What is missing after [sent]. *)
Definition unsent cursor db (sent : list EventRecord) : list EventRecord := drop (length sent) (wanted cursor db).

Lemma inv_unsent cursor db s sent : stream_inv cursor db s sent →
  wanted cursor db = sent ++ unsent cursor db sent ∧ ∃ rest, unsent cursor db sent = es_pending s ++ rest.
Proof. intros [[rest Hr] _]. unfold unsent. rewrite Hr, drop_app_length. split; [done|by exists rest]. Qed.

Lemma unsent_snoc cursor db sent r rest l :
  unsent cursor db sent = (r :: rest) ++ l → unsent cursor db (sent ++ [r]) = rest ++ l.
Proof. unfold unsent. intros E. by rewrite length_app, <-drop_drop, E. Qed.

(** Passes on a database that stands still, with no failure and no further
    notification. *)
Fixpoint run_passes (n : nat) db channel s : list SseEvent * EventStreamState :=
  match n with
  | O => ([], s)
  | S n => let '(message, s, channel) := next_pass inst organization_id (mkOutcome false false) s db channel in
           let '(sent, s) := run_passes n db channel s in (option_list message ++ sent, s)
  end.
Notation later n db channel s := (omap message_record (run_passes n db channel s).1).

Lemma run_passes_S n db channel s message s' channel' :
  next_pass inst organization_id (mkOutcome false false) s db channel = (message, s', channel') →
  later (S n) db channel s = omap message_record (option_list message) ++ later n db channel' s'.
Proof. intros E. cbn [run_passes]. rewrite E. destruct (run_passes n db channel' s'). cbn. apply omap_app. Qed.

(** Without failures a pass sends the next record, reads the next ones, or waits. *)
Lemma good_pass cursor db s sent channel : stream_inv cursor db s sent →
  ∃ message s' channel', next_pass inst organization_id (mkOutcome false false) s db channel = (message, s', channel') ∧
    es_polling s' = es_polling s ∧
    match es_pending s with
    | r :: rest => omap message_record (option_list message) = [r] ∧ es_pending s' = rest ∧ wake_ups s' channel' = wake_ups s channel
    | [] => message = None ∧
        if (es_polling s || (0 <? wake_ups s channel)%nat)
        then es_pending s' = take 100 (unsent cursor db sent) ∧ (es_polling s = false → wake_ups s channel = S (wake_ups s' channel'))
        else s' = s ∧ wake_ups s' channel' = O
    end.
Proof using Type*.
  intros Hi. destruct (next_pass _ _ _ s db channel) as [[message s'] channel'] eqn:E. exists message, s', channel'. split; [done|].
  apply next_pass_case in E as [r rest bytes Hp|message1 s1 channel1 Hp Hq Hw|m Hp Hf _|Hp Hpoll Hw]; rewrite Hp.
  - split_and!; [done| |done..]. change (omap message_record [record_message r] = [r]). cbn [omap list_omap]. by rewrite message_of_record.
  - pose proof (query_keeps _ _ _ _ _ Hq) as (Hk1 & Hk2 & Hk3). cbn in Hk1, Hk2, Hk3. rewrite Hk3 in Hq |- * by done.
    eapply query_inv in Hq as [_ Ht]; [|by apply idle_inv|done]. split_and!; [done..|].
    assert (es_polling s = false → wake_ups s channel = S (wake_ups s1 channel1)) as Hwake.
    { intros Hpoll. rewrite Hpoll in Hw. cbn in Hw. rewrite Hw. unfold wake_ups. rewrite Hk2. lia. }
    destruct (es_polling s); cbn [orb]; [by split|]. rewrite Hwake by done. by split; [|intros _].
  - done.
  - split_and!; [done..|]. rewrite Hpoll, Hw; cbn. split; [done|]. unfold wake_ups in *; cbn. lia.
Qed.

(** A polling stream sends all that is missing in twice as many passes. *)
Lemma polling_catches_up n cursor db s sent channel : stream_inv cursor db s sent → es_polling s = true →
  (2 * length (unsent cursor db sent) <= n + (if es_pending s then 0 else 1))%nat →
  later n db channel s = unsent cursor db sent.
Proof using Type*.
  revert s sent channel. induction n as [|n IH]; intros s sent channel Hi Hpoll Hn.
  - cbn. symmetry. apply nil_length_inv. destruct (es_pending s); lia.
  - destruct (good_pass _ _ _ _ channel Hi) as (message & s' & channel' & Hpass & Hpoll' & Hm).
    rewrite (run_passes_S _ _ _ _ _ _ _ Hpass). pose proof (pass_inv _ _ _ _ _ _ _ _ _ Hi Hpass) as Hi'.
    pose proof (inv_unsent _ _ _ _ Hi) as [_ [l Hl]]. rewrite Hpoll in Hpoll', Hm.
    specialize (IH s' _ channel' Hi' Hpoll'). destruct (es_pending s) as [|r rest].
    + destruct Hm as [-> [Hp _]]. cbn [option_list omap list_omap app] in *. rewrite app_nil_r in IH. apply IH.
      rewrite Hp. destruct (unsent cursor db sent); cbn in *; lia.
    + destruct Hm as (Hr & Hp & _). rewrite Hr in *. pose proof (unsent_snoc _ _ _ _ _ _ Hl) as Hu.
      rewrite Hl in Hn |- *. cbn [app length] in Hn |- *. f_equal. rewrite <-Hu. apply IH. rewrite Hu, Hp. destruct rest; cbn in *; lia.
Qed.

Lemma waiting_for_ever n db channel s : es_pending s = [] → es_polling s = false → wake_ups s channel = O →
  later n db channel s = [].
Proof using Type*.
  revert channel. induction n as [|n IH]; intros channel Hp Hpoll Hw; [done|].
  destruct (next_pass inst organization_id (mkOutcome false false) s db channel) as [[message s'] channel'] eqn:E.
  rewrite (run_passes_S _ _ _ _ _ _ _ E).
  apply next_pass_case in E as [r rest bytes Hr|message1 s1 channel1 _ _ Hq|m _ Hf _|_ _ _]; [by rewrite Hp in Hr| |done|].
  - rewrite Hpoll in Hq. cbn [andb] in Hq. lia.
  - cbn. apply IH; [done..|]. unfold wake_ups in *. cbn. lia.
Qed.

(** A listening stream sends what it has read and a page of 100 for each wake-up. *)
Lemma listening_reads_pages n cursor db s sent channel : stream_inv cursor db s sent → es_polling s = false →
  (length (unsent cursor db sent) + wake_ups s channel <= n)%nat →
  later n db channel s = take (length (es_pending s) + 100 * wake_ups s channel) (unsent cursor db sent).
Proof using Type*.
  revert s sent channel. induction n as [|n IH]; intros s sent channel Hi Hpoll Hn.
  - rewrite (nil_length_inv (unsent cursor db sent)) by lia. by rewrite take_nil.
  - destruct (good_pass _ _ _ _ channel Hi) as (message & s' & channel' & Hpass & Hpoll' & Hm).
    pose proof (pass_inv _ _ _ _ _ _ _ _ _ Hi Hpass) as Hi'. rewrite Hpoll in Hpoll', Hm. cbn [orb] in Hm.
    specialize (IH s' _ channel' Hi' Hpoll'). pose proof (inv_unsent _ _ _ _ Hi) as [_ [l Hl]].
    destruct (es_pending s) as [|r rest] eqn:Ep.
    + destruct Hm as [-> Hm]. cbn [option_list omap list_omap app length] in *. rewrite app_nil_r in IH.
      destruct (Nat.ltb_spec 0 (wake_ups s channel)) as [Hw|Hw].
      * destruct Hm as [Hp' Hw']. specialize (Hw' eq_refl). rewrite (run_passes_S _ _ _ _ _ _ _ Hpass). change (omap message_record (option_list None)) with (@nil EventRecord). cbn [app].
        rewrite IH by lia. rewrite Hp', Hw', length_take. destruct (Nat.le_gt_cases 100 (length (unsent cursor db sent))).
        -- f_equal. lia.
        -- rewrite !take_ge by lia. done.
      * rewrite waiting_for_ever by (done || lia). by replace (wake_ups s channel) with O by lia.
    + destruct Hm as (Hr & Hp & Hw). rewrite (run_passes_S _ _ _ _ _ _ _ Hpass), Hr. rewrite Hr in IH.
      rewrite (unsent_snoc _ _ _ _ _ _ Hl) in IH. rewrite Hl in Hn |- *. cbn [length app take] in *. rewrite IH by lia.
      rewrite Hp, Hw. done.
Qed.

(** In a quiet system a listening stream never misses more than its wake-ups bring. *)
Definition on_time (cursor : option Uuid) db channel s (sent : list EventRecord) : Prop :=
  (length (wanted cursor db) <= length sent + length (es_pending s) + 100 * wake_ups s channel)%nat.

Lemma quiet_pass cursor o db channel s sent message s' channel' :
  stream_inv cursor db s sent → po_lost o = false → po_failed o = false →
  next_pass inst organization_id o s db channel = (message, s', channel') →
  es_polling s' = es_polling s ∧
  (es_polling s = false → on_time cursor db channel s sent →
   on_time cursor db channel' s' (sent ++ omap message_record (option_list message))).
Proof using Type*.
  intros Hi Hlost Hfailed E. destruct o; cbn in Hlost, Hfailed; subst.
  destruct (good_pass _ _ _ _ channel Hi) as (message0 & s0 & channel0 & E0 & Hpoll & Hm). rewrite E in E0. injection E0 as <- <- <-.
  split; [done|]. intros Hp Ht. unfold on_time in *. rewrite Hp in Hm. cbn [orb] in Hm. destruct (es_pending s) as [|r rest].
  - destruct Hm as [-> Hm]. cbn [option_list omap list_omap]. rewrite app_nil_r. cbn [length] in Ht.
    destruct (Nat.ltb_spec 0 (wake_ups s channel)); [|destruct Hm as [-> ->]; lia].
    destruct Hm as [-> Hw]. specialize (Hw eq_refl). rewrite length_take. unfold unsent. rewrite length_drop. lia.
  - destruct Hm as (-> & -> & ->). rewrite length_app. cbn in *. lia.
Qed.

Lemma own_payloads_app channel payload :
  own_payloads (channel ++ [payload]) = (own_payloads channel + if String.eqb inst payload then 1 else 0)%nat.
Proof. unfold own_payloads. rewrite List.filter_app, length_app. cbn. by destruct (String.eqb inst payload). Qed.

(** The state a stream starts in. *)
Definition stream_start (cursor : option Uuid) (polling : bool) : EventStreamState := mkStream cursor [] 0 polling true.

(** What holds of a stream and what it has sent, at any time; [short] says that it
    started at most a page behind. *)
Definition stream_state_ok (quiet : bool) (cursor : option Uuid) (polling : bool) (short : Prop) (x : Db * list string * EventStreamState * list SseEvent) : Prop :=
  let '(db, channel, s, sent) := x in
  stream_inv cursor db s (omap message_record sent) ∧
  (quiet = true → es_polling s = polling ∧ (polling = false → short → on_time cursor db channel s (omap message_record sent))).

Lemma stream_step_ok quiet cursor polling short x y :
  stream_step quiet x y → stream_state_ok quiet cursor polling short x → stream_state_ok quiet cursor polling short y.
Proof using Type*.
  intros Hstep. destruct Hstep as [o db channel s sent m s' channel' Hq E|db db' channel s sent fresh Hf Hq|db channel p s sent|db channel channel' s sent Hq _];
    intros [Hi Ht]; (split; [|intros Hquiet; destruct (Ht Hquiet) as [Hpoll Hon]]).
  - rewrite omap_app. by eapply pass_inv.
  - rewrite omap_app. destruct (Hq Hquiet) as [Hl Hx]. destruct (quiet_pass _ _ _ _ _ _ _ _ _ Hi Hl Hx E) as [-> Hon'].
    split; [done|]. intros Hp Hs. apply Hon'; [congruence|auto].
  - by eapply commit_inv.
  - split; [done|]. intros Hp Hs. specialize (Hon Hp Hs). specialize (Hq Hquiet). unfold on_time, wake_ups in *.
    rewrite (wanted_grows _ _ _ _ Hf), own_payloads_app, String.eqb_refl, length_app.
    pose proof (List.filter_length_le (event_after cursor) fresh). lia.
  - done.
  - split; [done|]. intros Hp Hs. specialize (Hon Hp Hs). unfold on_time, wake_ups in *. rewrite own_payloads_app. lia.
  - done.
  - congruence.
Qed.

Lemma stream_run_ok quiet cursor polling db0 channel0 x :
  rtc (stream_step quiet) (db0, channel0, stream_start cursor polling, []) x →
  stream_state_ok quiet cursor polling (length (wanted cursor db0) <= 100)%nat x.
Proof using Type*.
  intros Hrun. assert (stream_state_ok quiet cursor polling (length (wanted cursor db0) <= 100)%nat
    (db0, channel0, stream_start cursor polling, [])) as Hstart.
  { split; [split; [by eexists|done]|]. intros _. split; [done|]. intros _ Hs. unfold on_time, wake_ups. cbn. lia. }
  revert Hstart. generalize (db0, channel0, stream_start cursor polling, @nil SseEvent) Hrun.
  generalize (length (wanted cursor db0) <= 100)%nat. intros short y Hy. clear Hrun.
  induction Hy as [|y z x Hstep _ IH]; [done|]. intros Hok. apply IH. by eapply stream_step_ok.
Qed.

(** C35: as long as events are committed in the order of their identifiers, a stream
    sends exactly the events of its organization after the one it starts from, each
    once and in order, whatever fails and whatever notifications are lost. When
    nothing happens any more, a polling stream sends all that is missing, within two
    passes of the loop for each event; a listening one sends what it has read and one
    page of 100 for each notification of its installation that waits in its channel
    (one for the first query), and then waits for the next notification. That is all
    that is missing if the system was quiet and the stream started at most 100 events
    behind. *)
Theorem stream_delivers_in_order quiet cursor polling db0 channel0 db channel s sent :
  rtc (stream_step quiet) (db0, channel0, stream_start cursor polling, []) (db, channel, s, sent) →
  ∃ missing, wanted cursor db = omap message_record sent ++ missing ∧
    ∀ n, let later := omap message_record (run_passes n db channel s).1 in
      let wake_ups := (length (List.filter (String.eqb inst) channel) + if es_initial_query s then 1 else 0)%nat in
      (es_polling s = true → (2 * length missing <= n)%nat → later = missing) ∧
      (es_polling s = false → (length missing + wake_ups <= n)%nat →
         later = take (length (es_pending s) + 100 * wake_ups) missing) ∧
      (quiet = true → (length (wanted cursor db0) <= 100)%nat → (2 * length missing + wake_ups <= n)%nat → later = missing).
Proof using Type*.
  intros [Hi Hquiet]%stream_run_ok. destruct (inv_unsent _ _ _ _ Hi) as [Hw [l Hl]].
  exists (unsent cursor db (omap message_record sent)). split; [done|]. intros n. cbv zeta.
  fold (own_payloads channel). fold (wake_ups s channel).
  assert (es_polling s = true → (2 * length (unsent cursor db (omap message_record sent)) <= n)%nat →
    later n db channel s = unsent cursor db (omap message_record sent)) as Hpolls.
  { intros Hp Hn. apply (polling_catches_up _ _ _ _ _ _ Hi Hp). lia. }
  split_and!; [done|by apply listening_reads_pages|]. intros Hq Hs Hn. destruct (Hquiet Hq) as [<- Hon].
  destruct (es_polling s) eqn:Hp; [apply Hpolls; [done|lia]|]. rewrite (listening_reads_pages n _ _ _ _ _ Hi Hp) by lia.
  apply take_ge. specialize (Hon eq_refl Hs). unfold on_time in Hon. apply (f_equal length) in Hw. rewrite length_app in Hw. lia.
Qed.
(** A listening stream that starts more than 100 events behind stops after a hundred
    of them, however long it runs, until something else happens in the installation. *)
Lemma stream_stalls n cursor db : (length (wanted cursor db) < n)%nat →
  later n db [] (stream_start cursor false) = take 100 (wanted cursor db).
Proof using Type*.
  intros Hn. rewrite (listening_reads_pages n cursor db _ []); [done| |done|change (length (wanted cursor db) + 1 <= n)%nat; lia].
  split; [by eexists|done].
Qed.
End Delivery.

(** An event whose identifier is the greatest is committed in order. *)
Lemma append_in_order `{UuidTextLaws} inst org db id row :
  t_events db !! id = None → e_installation_id row = inst → e_organization_id row = org →
  (∀ r, r ∈ organization_events inst org db → key_before Oldest (event_key r) (0, id) = true) →
  commits_in_order inst org db (set_t_events (<[id := row]> (t_events db)) db).
Proof.
  intros Hnone Hinst Horg Hlast. exists [decode_event id row].
  apply (StronglySorted_unique_strong (λ x y, key_before Oldest (event_key x) (event_key y) = true)).
  - intros x y _ _ Hxy Hyx. by rewrite (key_before_asym _ _ _ Hxy) in Hyx.
  - apply events_in_order.
  - pose proof (events_in_order inst org db) as Ho. unfold in_order in Ho.
    induction Ho as [|x l Hl IH Hx]; cbn; [repeat constructor|]. constructor; [apply IH; intros r Hr; apply Hlast; by right|].
    apply Forall_app. split; [done|]. constructor; [|constructor]. apply Hlast. by left.
  - unfold organization_events, ordered. rewrite !merge_sort_Permutation. cbn [t_events set_t_events].
    rewrite (list_filter_Permutation _ _ _ (map_to_list_insert _ _ row Hnone)). cbn [List.filter snd fst].
    rewrite Hinst, Horg, String.eqb_refl, bool_decide_eq_true_2 by done. cbn. by rewrite Permutation_app_comm.
Qed.

(** ** Examples *)
Module StreamSample.
#[export] Instance json : EventJson := λ r, Some (er_kind r).
Definition event (kind : string) : EventRow := mkEventRow "inst" 2 None kind Null 10.
Definition first : Db := set_t_events {[ 5%N := event "a" ]} empty_db.
Definition second : Db := set_t_events {[ 5%N := event "a"; 7%N := event "b" ]} empty_db.
Definition good : PassOutcome := mkOutcome false false.
Definition pass (o : PassOutcome) (s : EventStreamState) (db : Db) (channel : list string) :=
  (@next_pass decimal_uuid_text json "inst" 2 o s db channel).1.2.
(** A listening stream: a query that fails, one after a notification, and a record. *)
Definition start : EventStreamState := stream_start None false.
Definition s1 := pass (mkOutcome false true) start first [].
Definition s2 := pass good s1 second ["other"; "inst"].
Definition s3 := pass good s2 second [].
Definition sent : list SseEvent := [StreamError "event query temporarily failed"; RecordEvent (decode_event 5 (event "a")) "a"].

Lemma run : rtc (@stream_step decimal_uuid_text json "inst" 2 false) (first, [], start, []) (second, [], s3, sent).
Proof.
  eapply rtc_l; [apply (stream_pass _ _ _ (mkOutcome false true) first [] start [] (Some (StreamError "event query temporarily failed")) s1 []); by vm_compute|].
  eapply rtc_l; [apply (stream_notify _ _ _ first [] "other")|].
  eapply rtc_l; [apply (stream_commit _ _ _ first second _ _ _ [decode_event 7 (event "b")]); by vm_compute|].
  eapply rtc_l; [apply (stream_pass _ _ _ good second ["other"; "inst"] s1 _ None s2 []); by vm_compute|].
  eapply rtc_l; [apply (stream_pass _ _ _ good second [] s2 _ (Some (RecordEvent (decode_event 5 (event "a")) "a")) s3 []); by vm_compute|].
  apply rtc_refl.
Qed.
(** A polling stream that has sent the first event. *)
Definition polled : EventStreamState := pass good (pass good (stream_start None true) first []) first [].
End StreamSample.
Import (hints) StreamSample.

Lemma stream_delivers_in_order_witness :
  ∃ missing, @wanted decimal_uuid_text "inst" 2 None StreamSample.second = omap message_record StreamSample.sent ++ missing ∧
    length missing = 1%nat ∧
    omap message_record (@run_passes decimal_uuid_text StreamSample.json "inst" 2 1 StreamSample.second [] StreamSample.s3).1 = missing.
Proof.
  destruct (@stream_delivers_in_order decimal_uuid_text decimal_uuid_text_laws StreamSample.json "inst" 2
              (λ r, mk_is_Some _ _ eq_refl) false None false _ _ _ _ _ _ StreamSample.run) as (missing & Hm & Hall).
  assert (length missing = 1%nat) as Hlen.
  { apply (f_equal length) in Hm. rewrite length_app in Hm. vm_compute in Hm. by injection Hm as ->. }
  exists missing. split; [exact Hm|]. split; [exact Hlen|]. destruct (Hall 1%nat) as (_ & Hlisten & _).
  refine (eq_trans (Hlisten eq_refl _) _); [change (length missing + 0 <= 1)%nat; lia|].
  destruct missing as [|r [|]]; try discriminate Hlen. reflexivity.
Defined.

(** An event that is committed after a later one was sent is never sent: its
    identifier is not after the cursor. *)
Lemma late_event_is_missed :
  let late := set_t_events {[ 5%N := StreamSample.event "a"; 3%N := StreamSample.event "late" ]} empty_db in
  ∀ n, omap message_record (@run_passes decimal_uuid_text StreamSample.json "inst" 2 n late [] StreamSample.polled).1 = [].
Proof.
  intros late n. assert (@wanted decimal_uuid_text "inst" 2 (Some 5%N) late = []) as Hw by by vm_compute.
  assert (@unsent decimal_uuid_text "inst" 2 (Some 5%N) late [] = []) as Hu by (unfold unsent; by rewrite Hw).
  rewrite (@polling_catches_up decimal_uuid_text decimal_uuid_text_laws StreamSample.json "inst" 2 (λ r, mk_is_Some _ _ eq_refl)
             n (Some 5%N) late StreamSample.polled [] []); [exact Hu| |done|rewrite Hu; cbn; lia].
  split; [exists []; by rewrite Hw|done].
Qed.
