(* ===== verification/AuditStore.v ===== *)
(** * The audit log and the metrics of the database ([src/storage/audit_store.rs], the
    audit log of [src/storage/admin_store.rs], [src/storage/metrics_store.rs],
    [src/api/admin/audit.rs])

    The audit log is read newest first, in pages that are numbered by their offset.
    The text of a JSON value is the class [JsonText]. *)
From stdpp Require Import sorting.
From S2P Require Import Prelude Text Json Auth Quota Templates Workspaces Errors ShrinkOperation RuntimeEvents Quantity Database WorkspaceStore JobStore Events JobQueue WorkspaceActions ShrinkStore Reconcile Injections Catalog Idempotency Crypto InjectionStore Search Creation Usage Identity ApiKeys Listing SshStore Api.

(** ** The audit log *)
Record AuditRecord := mkAuditRecord {
  ar_id : Uuid;
  ar_actor_user_id : option Uuid;
  ar_actor_display_name : option string;
  ar_organization_id : option Uuid;
  ar_workspace_id : option Uuid;
  ar_workspace_name : option string;
  ar_workspace_short_id : option string;
  ar_action : string;
  ar_metadata : Value;
  ar_created_at : Z;
}.

Definition record_audit (inst : string) (actor organization workspace : option Uuid) (action : string) (metadata : Value) (now : Z)
    : DbM () :=
  id ← now_v7;
  insert_audit id (mkAuditRow inst actor organization workspace action metadata now).

(** The row and its left joins with the users and the workspaces. *)
Definition audit_record (inst : string) (db : Db) (kv : Uuid * AuditRow) : AuditRecord :=
  let '(id, a) := kv in
  let user := a_actor_user_id a ≫= λ u, select_user inst u db in
  let workspace := a_workspace_id a ≫= λ w, r ← t_workspaces db !! w; if String.eqb (wr_installation_id r) inst then Some r else None in
  mkAuditRecord id (a_actor_user_id a) (u_display_name <$> user) (a_organization_id a) (a_workspace_id a)
    (wr_name <$> workspace) (wr_short_id <$> workspace) (a_action a) (a_metadata a) (a_created_at a).

Definition audit_records (inst : string) (db : Db) : list AuditRecord :=
  audit_record inst db <$> List.filter (λ kv : Uuid * AuditRow, String.eqb (a_installation_id kv.2) inst) (map_to_list (t_audit db)).

Record AuditFilter := mkAuditFilter {
  af_organization_id : option Uuid;
  af_limit : Z;    (** u32 *)
  af_offset : Z;   (** u64 *)
  af_action : option string;
  af_actor : option string;
  af_workspace : option string;
  af_query : option string;
}.

Record AuditPage := mkAuditPage {
  ap_items : list AuditRecord;
  ap_next_offset : option Z;
}.

Record ValidatedFilter := mkValidatedFilter {
  vf_organization_id : option Uuid;
  vf_limit : Z;
  vf_offset : Z;
  vf_action : option string;
  vf_actor : option string;
  vf_actor_like : option (list Z);
  vf_workspace : option string;
  vf_workspace_like : option (list Z);
  vf_query_like : option (list Z);
}.

Definition normalize_exact (value : option string) : result StorageError.t (option string) :=
  match value with
  | None => Ok None
  | Some value =>
      let cs := trim (chars value) in
      if bool_decide (cs = []) then Ok None
      else if (128 <? Z.of_nat (length cs)) || existsb is_control cs then Err StorageError.InvalidAuditQuery
      else Ok (Some (string_of_chars cs))
  end.

(** [str::replace] of a character by its escaped form. *)
Definition replace_char (c : Z) (value : list Z) : list Z := value ≫= λ x, if x =? c then [c_backslash; c] else [x].

Section Audit.
Context `{UuidText} `{SqlBackend} `{TextCase}.
Class JsonText := json_text : Value → string.
Context `{JsonText}.

Definition like_pattern (value : option string) : option (list Z) :=
  (λ value, [c_percent] ++ replace_char c_underscore (replace_char c_percent (replace_char c_backslash (to_lowercase (chars value))))
            ++ [c_percent]) <$> value.

(** [ValidatedFilter::new]. *)
Definition validated_filter (f : AuditFilter) : result StorageError.t ValidatedFilter :=
  let limit := Z.max 1 (Z.min 100 (af_limit f)) in
  offset ← ok_or (i64_try_from (af_offset f)) StorageError.InvalidAuditQuery;
  action ← normalize_exact (af_action f);
  actor ← normalize_exact (af_actor f);
  workspace ← normalize_exact (af_workspace f);
  query ← normalize_exact (af_query f);
  Ok (mkValidatedFilter (af_organization_id f) limit offset action actor (like_pattern actor) workspace (like_pattern workspace)
        (like_pattern query)).

(** [LOWER(COALESCE(column, '')) LIKE pattern ESCAPE '\']. *)
Definition column_like (pattern : list Z) (column : option string) : bool :=
  like like_fold (Some c_backslash) pattern (sql_lower (chars (default "" column))).

(** The [WHERE] clause of both queries. *)
Definition audit_matches (f : ValidatedFilter) (a : AuditRecord) : bool :=
  is_none_or (vf_organization_id f) (λ o, bool_decide (ar_organization_id a = Some o))
  && is_none_or (vf_action f) (String.eqb (ar_action a))
  && is_none_or (vf_actor f) (λ actor,
       bool_decide (uuid_to_string <$> ar_actor_user_id a = Some actor)
       || is_some_and (vf_actor_like f) (λ p, column_like p (ar_actor_display_name a)))
  && is_none_or (vf_workspace f) (λ workspace,
       bool_decide (uuid_to_string <$> ar_workspace_id a = Some workspace)
       || is_some_and (vf_workspace_like f) (λ p, column_like p (ar_workspace_name a) || column_like p (ar_workspace_short_id a)))
  && is_none_or (vf_query_like f) (λ p,
       column_like p (Some (ar_action a)) || column_like p (ar_actor_display_name a) || column_like p (ar_workspace_name a)
       || column_like p (ar_workspace_short_id a) || column_like p (Some (json_text (ar_metadata a)))).

Definition audit_key (a : AuditRecord) : PageKey := (ar_created_at a, ar_id a).

(** The rows that match, newest first. *)
Definition matching_audit (inst : string) (f : ValidatedFilter) (db : Db) : list AuditRecord :=
  ordered audit_key Newest (List.filter (audit_matches f) (audit_records inst db)).

(** [ValidatedFilter::page]. *)
Definition audit_page (f : ValidatedFilter) (items : list AuditRecord) : result StorageError.t AuditPage :=
  next ← (if vf_limit f <? Z.of_nat (length items)
          then next ← ok_or (checked_add_u64 (vf_offset f) (vf_limit f)) StorageError.InvalidAuditQuery; Ok (Some next)
          else Ok None);
  Ok (mkAuditPage (take (Z.to_nat (vf_limit f)) items) next).

Definition page_audit (inst : string) (filter : AuditFilter) : DbM AuditPage :=
  f ← lift (validated_filter filter);
  rows ← reads (λ db, take (Z.to_nat (vf_limit f + 1)) (drop (Z.to_nat (vf_offset f)) (matching_audit inst f db)));
  lift (audit_page f rows).

Definition list_audit (inst : string) (organization_id : Uuid) (limit : Z) : DbM (list AuditRecord) :=
  reads (λ db, take (Z.to_nat (Z.max 1 (Z.min 1000 limit)))
                 (ordered audit_key Newest
                    (List.filter (λ a, bool_decide (ar_organization_id a = Some organization_id)) (audit_records inst db)))).

(** ** The request ([admin/audit.rs]) *)
Record AuditQuery := mkAuditQuery {
  aq_organization_id : option Uuid;
  aq_limit : option Z;
  aq_offset : option Z;
  aq_action : option string;
  aq_actor : option string;
  aq_workspace : option string;
  aq_q : option string;
}.

Context {K : Type} `{ApiHost K} `{TokenHash}.

Definition audit_handler (st : AppState) (headers : HeaderMap) (q : AuditQuery) : ApiM K AuditPage :=
  actor ← principal st headers;
  _ ← require (match aq_organization_id q with
               | Some organization_id => principal_allows actor ManageOrganization organization_id
               | None => may_manage_system actor
               end) ApiError.Forbidden;
  call (page_audit (st_installation_id st)
          (mkAuditFilter (aq_organization_id q) (default 50 (aq_limit q)) (default 0 (aq_offset q)) (aq_action q) (aq_actor q)
             (aq_workspace q) (aq_q q))).
End Audit.

(** ** Counts ([metrics_store.rs]) *)
Record JobCounts := mkJobCounts {
  jc_pending : Z;
  jc_running : Z;
  jc_completed : Z;
  jc_failed : Z;
  jc_oldest_pending_created_at : option Z;
  jc_max_active_attempts : Z;
}.

(** [MIN] over the rows; [None] is NULL. *)
Definition min_of (values : list Z) : option Z :=
  foldr (λ v acc, Some (match acc with Some m => Z.min v m | None => v end)) None values.

Definition installation_jobs (inst : string) (db : Db) : list JobRow :=
  List.filter (λ r, String.eqb (j_installation_id r) inst) (map_to_list (t_jobs db)).*2.

Definition job_counts (inst : string) : DbM JobCounts := reads (λ db,
  let rows := installation_jobs inst db in
  let count s := Z.of_nat (length (List.filter (λ r, bool_decide (j_status r = s)) rows)) in
  mkJobCounts (count JobPending) (count JobRunning) (count JobCompleted) (count JobFailed)
    (min_of (j_created_at <$> List.filter (λ r, bool_decide (j_status r = JobPending)) rows))
    (foldr (λ r acc, Z.max (if bool_decide (j_status r ∈ [JobPending; JobRunning]) then j_attempts r else 0) acc) 0 rows)).

Record UserWorkspaceMetrics := mkUserMetrics {
  um_states : gmap string Z;
  um_resources : QuotaResources;
}.

Record WorkspaceMetrics := mkMetrics {
  wm_states : gmap string Z;
  wm_users : gmap Uuid UserWorkspaceMetrics;  (** the source lists the values in the order of the keys *)
}.

(** A group of [GROUP BY owner_id, state] with its count and sums. *)
Record WorkspaceMetricRow := mkMetricRow {
  mw_user_id : Uuid;
  mw_state : string;
  mw_count : Z;
  mw_resources : QuotaResources;
}.

Definition metric_row (owner : Uuid) (s : WorkspaceState) (rows : list WorkspaceRow) : result StorageError.t WorkspaceMetricRow :=
  sums ← sum_columns (requested_total live_columns rows);
  cpu ← read_u64 (q_cpu_millis sums);
  memory ← read_u64 (q_memory_mib sums);
  gpu ← read_u32 (q_gpu_count sums);
  disk ← read_u64 (q_disk_gib sums);
  temporary ← read_u64 (q_temporary_storage_gib sums);
  Ok (mkMetricRow owner (state_as_str s) (Z.of_nat (length rows)) (mkQuotaResources cpu memory gpu disk temporary)).

Definition increase (key : string) (n : Z) (m : gmap string Z) : gmap string Z := <[key := default 0 (m !! key) + n]> m.

Definition saturating_add_u64 (a b : Z) : Z := Z.min u64_max (a + b).
Definition saturating_add_u32 (a b : Z) : Z := Z.min u32_max (a + b).

Definition saturating_quota (a b : QuotaResources) : QuotaResources :=
  mkQuotaResources (saturating_add_u64 (q_cpu_millis a) (q_cpu_millis b)) (saturating_add_u64 (q_memory_mib a) (q_memory_mib b))
    (saturating_add_u32 (q_gpu_count a) (q_gpu_count b)) (saturating_add_u64 (q_disk_gib a) (q_disk_gib b))
    (saturating_add_u64 (q_temporary_storage_gib a) (q_temporary_storage_gib b)).

(** The body of the loop of [aggregate_workspace_metrics]. *)
Definition add_metric (m : WorkspaceMetrics) (row : WorkspaceMetricRow) : WorkspaceMetrics :=
  let user := default (mkUserMetrics ∅ zero_quota) (wm_users m !! mw_user_id row) in
  mkMetrics (increase (mw_state row) (mw_count row) (wm_states m))
    (<[mw_user_id row := mkUserMetrics (increase (mw_state row) (mw_count row) (um_states user))
                           (saturating_quota (um_resources user) (mw_resources row))]> (wm_users m)).

Definition aggregate_workspace_metrics (rows : list WorkspaceMetricRow) : WorkspaceMetrics :=
  foldl add_metric (mkMetrics ∅ ∅) rows.

Definition metric_filter (inst : string) (r : WorkspaceRow) : bool :=
  String.eqb (wr_installation_id r) inst && negb (bool_decide (wr_state r = Deleted)).

Definition owned_by (owner : Uuid) (r : WorkspaceRow) : bool := bool_decide (wr_owner_id r = owner).

(** The groups of the query; their order does not matter for what is built. *)
Definition metric_groups (l : list WorkspaceRow) : list (Uuid * WorkspaceState * list WorkspaceRow) :=
  remove_dups (wr_owner_id <$> l) ≫= λ owner, (λ g, (owner, g.1, g.2)) <$> groups (List.filter (owned_by owner) l).

Definition workspace_metrics (inst : string) : DbM WorkspaceMetrics :=
  l ← reads (matching (metric_filter inst));
  rows ← lift (collect (λ g : Uuid * WorkspaceState * list WorkspaceRow, metric_row g.1.1 g.1.2 g.2) (metric_groups l));
  mret (aggregate_workspace_metrics rows).

(** ** The pages of the log *)

(** The chain of replacements escapes the pattern. *)
Lemma replace_escape value :
  replace_char c_underscore (replace_char c_percent (replace_char c_backslash value)) = escape_like_pattern value.
Proof.
  induction value as [|c value IH]; [done|]. unfold replace_char in *. cbn [escape_like_pattern].
  change (c :: value) with ([c] ++ value). change (c :: escape_like_pattern value) with ([c] ++ escape_like_pattern value).
  rewrite !bind_app, IH, (app_assoc _ [c]). f_equal. unfold is_metacharacter.
  destruct (decide (c = c_backslash)) as [->|H1]; [done|]. destruct (decide (c = c_percent)) as [->|H2]; [done|].
  destruct (decide (c = c_underscore)) as [->|H3]; [done|]. apply Z.eqb_neq in H1, H2, H3.
  cbn -[Z.eqb c_backslash c_percent c_underscore]. rewrite H1, H2, H3. cbn -[Z.eqb c_backslash c_percent c_underscore].
  rewrite H2. cbn -[Z.eqb c_backslash c_percent c_underscore]. by rewrite H3.
Qed.

Section Pages.
Context `{UuidText} `{SqlBackend} `{TextCase} `{JsonText} (inst : string).

Definition at_offset (offset : Z) (f : AuditFilter) : AuditFilter :=
  mkAuditFilter (af_organization_id f) (af_limit f) offset (af_action f) (af_actor f) (af_workspace f) (af_query f).

(** What a client does: ask for pages until one names no next offset. *)
Fixpoint walk_audit (fuel : nat) (offset : Z) (f : AuditFilter) (db : Db) : option (list AuditRecord) :=
  match fuel with
  | O => None
  | S fuel =>
      match (page_audit inst (at_offset offset f) db).1 with
      | Err _ => None
      | Ok page =>
          match ap_next_offset page with
          | None => Some (ap_items page)
          | Some next => app (ap_items page) <$> walk_audit fuel next f db
          end
      end
  end.

Lemma validated_offset f v offset : validated_filter f = Ok v → 0 <= offset <= i64_max →
  validated_filter (at_offset offset f) =
    Ok (mkValidatedFilter (vf_organization_id v) (vf_limit v) offset (vf_action v) (vf_actor v) (vf_actor_like v) (vf_workspace v)
          (vf_workspace_like v) (vf_query_like v)).
Proof.
  intros Hv Ho. unfold validated_filter, i64_try_from in *. cbn [at_offset af_offset af_action af_actor af_workspace af_query af_limit af_organization_id].
  rewrite (proj2 (guard_range_Some in_i64 offset offset)) by (split; [done|unfold in_i64, i64_min; bool_prop; lia]).
  destruct (ok_or (guard_range in_i64 (af_offset f)) _); [|done]. cbn in Hv |- *.
  destruct (normalize_exact (af_action f)); [|done]. cbn in Hv |- *. destruct (normalize_exact (af_actor f)); [|done]. cbn in Hv |- *.
  destruct (normalize_exact (af_workspace f)); [|done]. cbn in Hv |- *. destruct (normalize_exact (af_query f)); [|done].
  cbn in Hv |- *. by injection Hv as <-.
Qed.

Lemma validated_limit f v : validated_filter f = Ok v → 1 <= vf_limit v <= 100.
Proof. unfold validated_filter. intros Hv. inv_binds. simplify_eq/=. lia. Qed.

Definition rebased (v : ValidatedFilter) (offset : Z) : ValidatedFilter :=
  mkValidatedFilter (vf_organization_id v) (vf_limit v) offset (vf_action v) (vf_actor v) (vf_actor_like v) (vf_workspace v)
    (vf_workspace_like v) (vf_query_like v).

Lemma matching_rebased v offset db : matching_audit inst (rebased v offset) db = matching_audit inst v db.
Proof. done. Qed.

Lemma page_audit_run f v offset db : validated_filter f = Ok v → 0 <= offset → offset + 100 <= i64_max →
  (page_audit inst (at_offset offset f) db).1 =
    Ok (mkAuditPage (take (Z.to_nat (vf_limit v)) (drop (Z.to_nat offset) (matching_audit inst v db)))
          (if vf_limit v <? Z.of_nat (length (drop (Z.to_nat offset) (matching_audit inst v db))) then Some (offset + vf_limit v) else None)).
Proof.
  intros Hv Hlo Hhi. pose proof (validated_limit _ _ Hv) as Hl. unfold page_audit. rewrite bind_run. unfold lift.
  rewrite (validated_offset _ _ _ Hv) by lia. fold (rebased v offset). rewrite bind_run. unfold reads. cbn [fst].
  rewrite matching_rebased. cbn [rebased vf_limit vf_offset]. set (rest := drop _ _). unfold audit_page. cbn [rebased vf_limit vf_offset].
  rewrite length_take. destruct (Z.ltb_spec (vf_limit v) (Z.of_nat (length rest))) as [Hlt|Hge].
  - rewrite (proj2 (Z.ltb_lt _ _)) by lia. rewrite (proj2 (checked_add_u64_Some _ _ _)) by (split; [done|unfold u64_max, i64_max in *; lia]).
    cbn. rewrite take_take. do 3 f_equal. lia.
  - rewrite (proj2 (Z.ltb_ge _ _)) by lia. cbn. rewrite take_take. do 3 f_equal. lia.
Qed.

Lemma walk_audit_from f v db : validated_filter f = Ok v → Z.of_nat (length (matching_audit inst v db)) + 100 <= i64_max →
  ∀ fuel offset, 0 <= offset <= Z.of_nat (length (matching_audit inst v db)) →
  (length (matching_audit inst v db) - Z.to_nat offset < fuel)%nat →
  walk_audit fuel offset f db = Some (drop (Z.to_nat offset) (matching_audit inst v db)).
Proof.
  intros Hv Hn. pose proof (validated_limit _ _ Hv) as Hl. set (all := matching_audit inst v db) in *.
  induction fuel as [|fuel IH]; intros offset Ho Hf; [lia|]. cbn [walk_audit]. rewrite (page_audit_run _ v) by (done || lia). cbn [ap_next_offset ap_items].
  fold all. rewrite length_drop. destruct (Z.ltb_spec (vf_limit v) (Z.of_nat (length all - Z.to_nat offset))) as [Hlt|Hge].
  - rewrite IH by lia. cbn. f_equal. replace (Z.to_nat (offset + vf_limit v)) with (Z.to_nat offset + Z.to_nat (vf_limit v))%nat by lia.
    rewrite <-drop_drop. apply take_drop.
  - rewrite take_ge; [done|]. rewrite length_drop. lia.
Qed.

(** Following the offsets from the first page on, a client reads every entry of
    the audit log that matches its filter once, newest first, and comes to an end;
    a page never holds more than a hundred. *)
Theorem audit_pages_complete f v db : validated_filter f = Ok v → af_offset f = 0 →
  Z.of_nat (length (matching_audit inst v db)) + 100 <= i64_max →
  walk_audit (S (length (matching_audit inst v db))) 0 f db = Some (matching_audit inst v db) ∧
  matching_audit inst v db ≡ₚ List.filter (audit_matches v) (audit_records inst db) ∧
  ∀ page db', page_audit inst f db = (Ok page, db') → (length (ap_items page) <= 100)%nat.
Proof.
  intros Hv Ho Hn. split_and!.
  - rewrite (walk_audit_from f v) by (done || lia). done.
  - unfold matching_audit, ordered. by rewrite merge_sort_Permutation.
  - intros page db' Hp. unfold page_audit in Hp. run_step Hp. apply validated_limit in Hx as Hl. run_step Hp. injection Hp as Hp _.
    unfold audit_page in Hp. inv_binds. simplify_eq/=. rewrite length_take. lia.
Qed.
End Pages.

(** ** Who reads the log *)
Section Confined.
Context `{UuidText} `{SqlBackend} `{TextCase} `{JsonText} {K : Type} `{ApiHost K} `{TokenHash}.

Lemma page_audit_items inst f db page db' a : page_audit inst f db = (Ok page, db') → a ∈ ap_items page →
  is_none_or (af_organization_id f) (λ o, bool_decide (ar_organization_id a = Some o)) = true.
Proof.
  intros Hp Ha. unfold page_audit in Hp. run_step Hp. run_step Hp. injection Hp as Hp _. unfold audit_page in Hp. inv_binds. simplify_eq/=.
  apply subseteq_take, subseteq_take, subseteq_drop in Ha.
  unfold matching_audit, ordered in Ha. rewrite merge_sort_Permutation in Ha. apply list_elem_of_In, filter_In in Ha as [_ Ha].
  unfold audit_matches in Ha. rewrite !andb_true_iff in Ha. destruct Ha as [[[[Ha _] _] _] _].
  unfold validated_filter in Hx. inv_binds. by simplify_eq/=.
Qed.

(** An entry of the log is shown to those who manage its organization, or the system. *)
Lemma audit_confined st headers q w page w' a : audit_handler (K := K) st headers q w = (Ok page, w') → a ∈ ap_items page →
  ∃ actor w1, principal st headers w = (Ok actor, w1) ∧
    (may_manage_system actor = true ∨
     ∃ organization_id, ar_organization_id a = Some organization_id ∧ principal_allows actor ManageOrganization organization_id = true).
Proof.
  intros Hrun Ha. unfold audit_handler in Hrun. api_step Hrun. api_step Hrun. apply call_Ok in Hrun.
  exists y, wy. split; [done|]. pose proof (page_audit_items _ _ _ _ _ _ Hrun Ha) as Ho. cbn in Ho.
  destruct (aq_organization_id q) as [org|]; [right|by left]. exists org. cbn in Ho. by apply bool_decide_eq_true in Ho.
Qed.
End Confined.

(** ** What the metrics add up to *)
Section Sums.
Context {A : Type}.

Definition sum_of (f : A → Z) (l : list A) : Z := foldr (λ x acc, f x + acc) 0 l.

Lemma sum_of_cons f x l : sum_of f (x :: l) = f x + sum_of f l.
Proof. done. Qed.

Lemma sum_of_ext f g l : (∀ x, x ∈ l → f x = g x) → sum_of f l = sum_of g l.
Proof. induction l as [|x l IH]; intros E; [done|]. rewrite !sum_of_cons. rewrite E by left. f_equal. apply IH. intros; apply E; by right. Qed.

Lemma sum_of_app f l k : sum_of f (l ++ k) = sum_of f l + sum_of f k.
Proof. induction l as [|x l IH]; [done|]. cbn [app]. rewrite !sum_of_cons, IH. lia. Qed.

Lemma sum_of_nonneg f l : (∀ x, x ∈ l → 0 <= f x) → 0 <= sum_of f l.
Proof. induction l as [|x l IH]; intros E; [done|]. rewrite !sum_of_cons. assert (0 <= f x) by (apply E; left). assert (0 <= sum_of f l) by (apply IH; intros; apply E; by right). lia. Qed.

Lemma sum_of_plus f g l : sum_of (λ x, f x + g x) l = sum_of f l + sum_of g l.
Proof. induction l as [|x l IH]; [done|]. rewrite !sum_of_cons. rewrite IH. lia. Qed.

Lemma sum_of_zero f l : (∀ x, x ∈ l → f x = 0) → sum_of f l = 0.
Proof. induction l as [|x l IH]; intros E; [done|]. rewrite !sum_of_cons. rewrite E by left. apply IH. intros; apply E; by right. Qed.

(** One element of a list without duplicates counts once. *)
Lemma sum_of_one `{EqDecision A} (x : A) n l : NoDup l → x ∈ l → sum_of (λ y, if bool_decide (x = y) then n else 0) l = n.
Proof.
  induction 1 as [|y l Hy Hl IH]; intros Hx; [by apply elem_of_nil in Hx|]. rewrite sum_of_cons. apply elem_of_cons in Hx as [->|Hx].
  - rewrite bool_decide_eq_true_2 by done. rewrite sum_of_zero; [lia|]. intros z Hz. by rewrite bool_decide_eq_false_2 by (by intros <-).
  - rewrite bool_decide_eq_false_2 by (by intros ->). by rewrite IH.
Qed.
End Sums.

Lemma sum_of_bind {A B} (f : B → Z) (g : A → list B) l : sum_of f (l ≫= g) = sum_of (λ x, sum_of f (g x)) l.
Proof. induction l as [|x l IH]; [done|]. cbn [mbind list_bind]. by rewrite sum_of_app, sum_of_cons, IH. Qed.
Lemma sum_of_fmap {A B} (f : B → Z) (g : A → B) l : sum_of f (g <$> l) = sum_of (λ x, f (g x)) l.
Proof. induction l as [|x l IH]; [done|]. cbn [fmap list_fmap]. by rewrite !sum_of_cons, IH. Qed.
Lemma sum_of_forall2 {A B} (P : A → B → Prop) (f : A → Z) (g : B → Z) l k :
  Forall2 P l k → (∀ x y, x ∈ l → P x y → f x = g y) → sum_of f l = sum_of g k.
Proof.
  induction 1 as [|x y l k Hxy _ IH]; intros E; [done|]. rewrite !sum_of_cons, (E x y); [|left|done]. f_equal.
  apply IH. intros; apply E; [by right|done].
Qed.

(** Grouping by owner loses no row and counts none twice. *)
Lemma sum_over_owners (f : WorkspaceRow → Z) l owners : NoDup owners → (∀ r, r ∈ l → wr_owner_id r ∈ owners) →
  sum_of (λ o, weigh f (List.filter (owned_by o) l)) owners = weigh f l.
Proof.
  intros Hnd. induction l as [|r l IH]; intros Hall; [by apply sum_of_zero|]. change (weigh f (r :: l)) with (f r + weigh f l).
  rewrite <-IH by (intros; apply Hall; by right). erewrite sum_of_ext; [|intros o _; apply weigh_filter_cons]. rewrite sum_of_plus. f_equal.
  rewrite <-(sum_of_one (wr_owner_id r) (f r) owners Hnd) by (apply Hall; left). apply sum_of_ext. intros o _.
  unfold owned_by. cbn. case_bool_decide; cbn; lia.
Qed.

Lemma weigh_sum_groups f gs : weigh_groups f gs = sum_of (λ g, weigh f g.2) gs.
Proof. done. Qed.

(** The groups of the query, for any weight of owners. *)
Lemma sum_metric_groups (h : Uuid → bool) (f : WorkspaceRow → Z) l :
  sum_of (λ g : Uuid * WorkspaceState * list WorkspaceRow, if h g.1.1 then weigh f g.2 else 0) (metric_groups l) =
  sum_of (λ o, if h o then weigh f (List.filter (owned_by o) l) else 0) (remove_dups (wr_owner_id <$> l)).
Proof.
  unfold metric_groups. rewrite sum_of_bind. apply sum_of_ext. intros o _. rewrite sum_of_fmap. cbn.
  destruct (h o); [rewrite <-(weigh_groups_eq f (List.filter (owned_by o) l)), weigh_sum_groups; done|by apply sum_of_zero].
Qed.

Lemma increase_lookup key n m k : default 0 (increase key n m !! k) = default 0 (m !! k) + (if bool_decide (key = k) then n else 0).
Proof. unfold increase. case_bool_decide as E; [subst; by rewrite lookup_insert_eq|]. rewrite lookup_insert_ne by done. lia. Qed.

(** The counts and sums of a list of groups, for a state and for an owner. *)
Definition group_count (key : string) (rows : list WorkspaceMetricRow) : Z :=
  sum_of (λ r, if bool_decide (mw_state r = key) then mw_count r else 0) rows.
Definition of_owner (owner : Uuid) (r : WorkspaceMetricRow) : bool := bool_decide (mw_user_id r = owner).

Lemma aggregate_states m rows key :
  default 0 (wm_states (foldl add_metric m rows) !! key) = default 0 (wm_states m !! key) + group_count key rows.
Proof.
  revert m. induction rows as [|r rows IH]; intros m; cbn [foldl]; [unfold group_count; cbn; lia|]. rewrite IH. unfold add_metric. cbn [wm_states].
  rewrite increase_lookup. unfold group_count. rewrite sum_of_cons. lia.
Qed.

(** What the loop keeps of one owner. *)
Definition no_metrics : UserWorkspaceMetrics := mkUserMetrics ∅ zero_quota.
Definition user_step (u : option UserWorkspaceMetrics) (r : WorkspaceMetricRow) : option UserWorkspaceMetrics :=
  let user := default no_metrics u in
  Some (mkUserMetrics (increase (mw_state r) (mw_count r) (um_states user)) (saturating_quota (um_resources user) (mw_resources r))).

Lemma aggregate_user m rows owner :
  wm_users (foldl add_metric m rows) !! owner = foldl user_step (wm_users m !! owner) (List.filter (of_owner owner) rows).
Proof.
  revert m. induction rows as [|r rows IH]; intros m; [done|]. cbn [foldl List.filter]. rewrite IH. unfold add_metric, of_owner. cbn [wm_users].
  case_bool_decide as E; [subst; by rewrite lookup_insert_eq|by rewrite lookup_insert_ne].
Qed.

Definition clamp_quota (q : QuotaResources) : QuotaResources :=
  mkQuotaResources (Z.min u64_max (q_cpu_millis q)) (Z.min u64_max (q_memory_mib q)) (Z.min u32_max (q_gpu_count q))
    (Z.min u64_max (q_disk_gib q)) (Z.min u64_max (q_temporary_storage_gib q)).

Definition sum_resources (rows : list WorkspaceMetricRow) : QuotaResources :=
  mkQuotaResources (sum_of (λ r, q_cpu_millis (mw_resources r)) rows) (sum_of (λ r, q_memory_mib (mw_resources r)) rows)
    (sum_of (λ r, q_gpu_count (mw_resources r)) rows) (sum_of (λ r, q_disk_gib (mw_resources r)) rows)
    (sum_of (λ r, q_temporary_storage_gib (mw_resources r)) rows).

Definition resources_nonneg (q : QuotaResources) : Prop :=
  0 <= q_cpu_millis q ∧ 0 <= q_memory_mib q ∧ 0 <= q_gpu_count q ∧ 0 <= q_disk_gib q ∧ 0 <= q_temporary_storage_gib q.

Lemma sum_resources_nonneg rows : Forall (λ r, resources_nonneg (mw_resources r)) rows → resources_nonneg (sum_resources rows).
Proof. rewrite Forall_forall. intros Hall. split_and!; apply sum_of_nonneg; intros r Hr; apply (Hall r Hr). Qed.

Lemma user_fold rows u : Forall (λ r, resources_nonneg (mw_resources r)) rows → rows ≠ [] →
  ∃ states, foldl user_step u rows = Some (mkUserMetrics states (clamp_quota (quota_add (um_resources (default no_metrics u)) (sum_resources rows)))) ∧
    ∀ key, default 0 (states !! key) = default 0 (um_states (default no_metrics u) !! key) + group_count key rows.
Proof.
  intros Hall Hne. revert u. induction Hall as [|r rows (Hc & Hm & Hg & Hd & Ht) Hrest IH]; intros u; [done|]. clear Hne. cbn [foldl].
  destruct (decide (rows = [])) as [->|Hne].
  - exists (increase (mw_state r) (mw_count r) (um_states (default no_metrics u))).
    split; [cbn [foldl]; unfold user_step; do 2 f_equal|intros key].
    2:{ pose proof (increase_lookup (mw_state r) (mw_count r) (um_states (default no_metrics u)) key) as E.
        unfold group_count. rewrite sum_of_cons. cbn in *. lia. }
    unfold clamp_quota, saturating_quota, quota_add, sum_resources, saturating_add_u64, saturating_add_u32. cbn. f_equal; f_equal; lia.
  - destruct (IH Hne (user_step u r)) as (states & -> & Hstates). destruct (sum_resources_nonneg _ Hrest) as (? & ? & ? & ? & ?).
    cbn [sum_resources q_cpu_millis q_memory_mib q_gpu_count q_disk_gib q_temporary_storage_gib] in *.
    exists states. split; [do 2 f_equal|intros key; rewrite Hstates].
    2:{ pose proof (increase_lookup (mw_state r) (mw_count r) (um_states (default no_metrics u)) key) as E.
        unfold group_count. rewrite sum_of_cons. cbn in *. lia. }
    unfold clamp_quota, user_step, saturating_quota, quota_add, sum_resources, saturating_add_u64, saturating_add_u32. rewrite !sum_of_cons.
    cbn -[sum_of Z.min u64_max u32_max]. f_equal; lia.
Qed.

(** A group's row has its owner, its state, its length and its sums. *)
Lemma metric_row_Ok owner s l row : metric_row owner s l = Ok row →
  mw_user_id row = owner ∧ mw_state row = state_as_str s ∧ mw_count row = Z.of_nat (length l) ∧
  mw_resources row = requested_total live_columns l ∧ resources_nonneg (mw_resources row).
Proof.
  unfold metric_row, sum_columns, read_u64, read_u32. intros Hrow. inv_binds. simplify_eq/=.
  repeat match goal with Hx : ok_or _ _ = Ok _ |- _ => apply ok_or_Ok in Hx end.
  unfold i64_try_from, u64_try_from, u32_try_from in *.
  repeat match goal with Hx : guard_range _ _ = Some _ |- _ => apply guard_range_Some in Hx as [-> Hx] end.
  unfold in_u64, in_u32 in *. bool_prop. split_and!; try done. by destruct (requested_total live_columns l).
Qed.

Definition state_count (s : WorkspaceState) (l : list WorkspaceRow) : Z := Z.of_nat (length (List.filter (in_state s) l)).

Lemma state_count_weigh s l : state_count s l = weigh (λ r, if in_state s r then 1 else 0) l.
Proof.
  unfold state_count. induction l as [|r l IH]; [done|]. change (weigh ?f (r :: l)) with (f r + weigh f l). cbn [List.filter].
  destruct (in_state s r); cbn [length]; lia.
Qed.

(** The rows of one owner, through the groups. *)
Definition group_row (g : Uuid * WorkspaceState * list WorkspaceRow) : result StorageError.t WorkspaceMetricRow := metric_row g.1.1 g.1.2 g.2.

Lemma metric_groups_rows l o s k : (o, s, k) ∈ metric_groups l → k = List.filter (in_state s) (List.filter (owned_by o) l) ∧ ∀ r, r ∈ k → wr_state r = s.
Proof.
  unfold metric_groups. intros (o' & Hg & _)%list_elem_of_bind. apply list_elem_of_fmap in Hg as ([s' k'] & [= -> -> ->] & Hg).
  apply groups_rows in Hg. split; [done|]. intros r Hr. rewrite Hg in Hr. apply list_elem_of_In, filter_In in Hr as [_ Hr].
  by apply bool_decide_eq_true in Hr.
Qed.

Lemma sum_of_filter {A} (f : A → Z) (p : A → bool) l : sum_of f (List.filter p l) = sum_of (λ x, if p x then f x else 0) l.
Proof. induction l as [|x l IH]; [done|]. cbn [List.filter]. rewrite sum_of_cons. destruct (p x); [rewrite sum_of_cons|]; lia. Qed.

Lemma one_owner (f : Uuid → Z) owner owners : NoDup owners → owner ∈ owners →
  sum_of (λ o, if bool_decide (o = owner) then f o else 0) owners = f owner.
Proof.
  intros Hnd Hin. transitivity (sum_of (λ y, if bool_decide (owner = y) then f owner else 0) owners); [|by apply sum_of_one]. apply sum_of_ext. intros o _.
  repeat case_bool_decide; congruence.
Qed.

(** The weight of one owner's workspaces, as a sum over the owners. *)
Lemma sum_one_owner (f : WorkspaceRow → Z) owner l :
  sum_of (λ o, if bool_decide (o = owner) then weigh f (List.filter (owned_by owner) l) else 0) (remove_dups (wr_owner_id <$> l)) =
  weigh f (List.filter (owned_by owner) l).
Proof.
  destruct (decide (owner ∈ remove_dups (wr_owner_id <$> l))) as [Hin|Hout].
  - by rewrite (one_owner (λ _, weigh f (List.filter (owned_by owner) l))) by (done || apply NoDup_remove_dups).
  - rewrite sum_of_zero by (intros o Ho; rewrite bool_decide_eq_false_2; [done|by intros ->]).
    enough (List.filter (owned_by owner) l = []) as -> by done. destruct (List.filter _ l) as [|r rest] eqn:E; [done|]. exfalso. apply Hout.
    assert (r ∈ List.filter (owned_by owner) l) as Hr by (rewrite E; left). apply list_elem_of_In, filter_In in Hr as [Hr Ho].
    apply bool_decide_eq_true in Ho as <-. apply elem_of_remove_dups, list_elem_of_fmap_2. by apply list_elem_of_In.
Qed.

(** In a group, the count of a state is the number of its workspaces in it. *)
Lemma group_state_weight l s o s' k row : (o, s', k) ∈ metric_groups l → metric_row o s' k = Ok row →
  (if bool_decide (mw_state row = state_as_str s) then mw_count row else 0) = weigh (λ r, if in_state s r then 1 else 0) k.
Proof.
  intros Hg (_ & -> & -> & _)%metric_row_Ok. apply metric_groups_rows in Hg as [_ Hs]. rewrite length_weigh. case_bool_decide as E.
  - apply weigh_ext. intros r Hr. unfold in_state. rewrite bool_decide_eq_true_2; [done|]. rewrite (Hs r Hr).
    apply (f_equal state_from_database) in E. by destruct s, s'.
  - symmetry. transitivity (weigh (λ _, 0) k); [|apply weigh_zero]. apply weigh_ext. intros r Hr. unfold in_state. rewrite bool_decide_eq_false_2; [done|].
    rewrite (Hs r Hr). by intros ->.
Qed.

Section Metrics.
Context (l : list WorkspaceRow) (rows : list WorkspaceMetricRow) (Hrows : collect group_row (metric_groups l) = Ok rows).

Lemma owners_complete r : r ∈ l → wr_owner_id r ∈ remove_dups (wr_owner_id <$> l).
Proof. intros Hr. apply elem_of_remove_dups. by apply list_elem_of_fmap_2. Qed.

(** A sum over the rows of the query that depends on the group only. *)
Lemma sum_rows_groups (F : WorkspaceMetricRow → Z) (h : Uuid → bool) (f : WorkspaceRow → Z) :
  (∀ o s k row, (o, s, k) ∈ metric_groups l → metric_row o s k = Ok row → F row = if h o then weigh f k else 0) →
  sum_of F rows = sum_of (λ o, if h o then weigh f (List.filter (owned_by o) l) else 0) (remove_dups (wr_owner_id <$> l)).
Proof using Hrows.
  intros HF. rewrite <-sum_metric_groups. symmetry. eapply sum_of_forall2; [exact (proj1 (collect_Ok _ _ _) Hrows)|].
  intros [[o s] k] row Hg Hrow. cbn. symmetry. by eapply HF.
Qed.

Lemma group_count_eq (s : WorkspaceState) : group_count (state_as_str s) rows = state_count s l.
Proof using Hrows.
  unfold group_count. rewrite (sum_rows_groups _ (λ _, true) (λ r, if in_state s r then 1 else 0)) by apply group_state_weight.
  rewrite state_count_weigh. apply sum_over_owners; [apply NoDup_remove_dups|apply owners_complete].
Qed.

Lemma rows_of_groups row : row ∈ rows → ∃ o s k, (o, s, k) ∈ metric_groups l ∧ metric_row o s k = Ok row.
Proof using Hrows.
  intros (i & Hi)%list_elem_of_lookup. pose proof (proj1 (collect_Ok _ _ _) Hrows) as H2.
  destruct (Forall2_lookup_r _ _ _ _ _ H2 Hi) as ([[o s] k] & Hg & Hrow). exists o, s, k. split; [by eapply list_elem_of_lookup_2|done].
Qed.

Lemma rows_nonneg : Forall (λ r, resources_nonneg (mw_resources r)) rows.
Proof using Hrows.
  apply Forall_forall. intros row (o & s & k & _ & Hrow)%rows_of_groups. by apply metric_row_Ok in Hrow as (_ & _ & _ & _ & ?).
Qed.

(** A sum over the rows of one owner is a sum over the owner's workspaces. *)
Lemma sum_of_owner owner (f : WorkspaceRow → Z) (F : WorkspaceMetricRow → Z) :
  (∀ o s k row, (o, s, k) ∈ metric_groups l → metric_row o s k = Ok row → F row = weigh f k) →
  sum_of F (List.filter (of_owner owner) rows) = weigh f (List.filter (owned_by owner) l).
Proof using Hrows.
  intros HF. rewrite sum_of_filter. unfold of_owner.
  rewrite (sum_rows_groups _ (λ o, bool_decide (o = owner)) f).
  - rewrite <-(sum_one_owner f owner l). apply sum_of_ext. intros o _. case_bool_decide; [by subst|done].
  - intros o s k row Hg Hrow. pose proof Hrow as (-> & _)%metric_row_Ok. case_bool_decide; [by eapply HF|done].
Qed.

Lemma owner_count owner s :
  group_count (state_as_str s) (List.filter (of_owner owner) rows) = state_count s (List.filter (owned_by owner) l).
Proof using Hrows. unfold group_count. rewrite state_count_weigh. apply sum_of_owner. apply group_state_weight. Qed.

Lemma owner_resources owner :
  sum_resources (List.filter (of_owner owner) rows) = requested_total live_columns (List.filter (owned_by owner) l).
Proof using Hrows.
  rewrite total_weigh. unfold sum_resources. f_equal; apply sum_of_owner; intros o s k row _ (_ & _ & _ & -> & _)%metric_row_Ok; by rewrite total_weigh.
Qed.

(** An owner has a row exactly when it has a workspace. *)
Lemma owner_listed owner : List.filter (of_owner owner) rows = [] ↔ List.filter (owned_by owner) l = [].
Proof using Hrows.
  split; intros E.
  - pose proof (sum_of_owner owner (λ _, 1) mw_count) as Hlen. rewrite E, <-length_weigh in Hlen.
    destruct (List.filter _ l); [done|]. exfalso. cbn in Hlen. enough (0 = Z.pos (Pos.of_succ_nat (length l0))) by done. apply Hlen.
    intros o s k row _ (_ & _ & -> & _)%metric_row_Ok. apply length_weigh.
  - destruct (List.filter _ rows) as [|row rest] eqn:Er; [done|]. exfalso.
    assert (row ∈ List.filter (of_owner owner) rows) as Hr by (rewrite Er; left). apply list_elem_of_In, filter_In in Hr as [Hr Ho].
    apply list_elem_of_In, rows_of_groups in Hr as (o & s & k & Hg & (Hu & _)%metric_row_Ok). apply bool_decide_eq_true in Ho. subst.
    unfold metric_groups in Hg. apply list_elem_of_bind in Hg as (o & Hg & Hin). apply list_elem_of_fmap in Hg as ([? ?] & [= Ho _ _] & _).
    apply elem_of_remove_dups, list_elem_of_fmap in Hin as (r & -> & Hr).
    assert (r ∈ List.filter (owned_by (mw_user_id row)) l) as Hin by (apply list_elem_of_In, filter_In; split; [by apply list_elem_of_In|by apply bool_decide_eq_true]).
    rewrite E in Hin. by apply elem_of_nil in Hin.
Qed.
End Metrics.

(** The metrics of the workspaces add up: the count of a state is the number of
    workspaces in it, over the installation and for each owner, and the resources
    of an owner are the sums over the owner's workspaces, up to the largest
    number of the type; an owner is listed exactly when it has a workspace. *)
Theorem metrics_add_up inst db m db' : workspace_metrics inst db = (Ok m, db') →
  let l := matching (metric_filter inst) db in
  db' = db ∧ (∀ s, default 0 (wm_states m !! state_as_str s) = state_count s l) ∧
  ∀ owner, let own := List.filter (owned_by owner) l in
    match wm_users m !! owner with
    | None => own = []
    | Some user => own ≠ [] ∧ (∀ s, default 0 (um_states user !! state_as_str s) = state_count s own) ∧
        um_resources user = clamp_quota (requested_total live_columns own)
    end.
Proof.
  intros Hrun l. unfold workspace_metrics in Hrun. run_step Hrun. run_step Hrun.
  rename x into rows, Hx into Hrows. injection Hrun as <- <-.
  split; [done|]. split.
  - intros s. unfold aggregate_workspace_metrics. rewrite aggregate_states. by apply group_count_eq.
  - intros owner own. unfold aggregate_workspace_metrics. rewrite aggregate_user. cbn [wm_users]. rewrite lookup_empty.
    pose proof (owner_listed l rows Hrows owner) as Hlisted. destruct (decide (List.filter (of_owner owner) rows = [])) as [E|E].
    + rewrite E. by apply Hlisted.
    + destruct (user_fold (List.filter (of_owner owner) rows) None) as (states & -> & Hstates); [|done|].
      { apply Forall_forall. intros row Hr. apply list_elem_of_In, filter_In in Hr as [Hr _].
        by eapply (proj1 (Forall_forall _ _) (rows_nonneg l rows Hrows)), list_elem_of_In. }
      split_and!; [by intros Hown%Hlisted| |].
      * intros s. cbn [um_states]. rewrite Hstates. by apply owner_count.
      * cbn [um_resources default no_metrics]. rewrite (owner_resources l rows Hrows). done.
Qed.

(** Two entries of the log, read a page of one at a time. *)
Module AuditSample.
#[export] Instance json : JsonText := λ _, "".
Definition no_filter : AuditFilter := mkAuditFilter None 1 0 None None None None.
Definition all_entries : ValidatedFilter := mkValidatedFilter None 1 0 None None None None None None.
Definition record (action : string) (now : Z) (db : Db) : Db := (record_audit "inst" (Some 3%N) None None action Null now db).2.
Definition db : Db := record "second" 5 (record "first" 4 empty_db).
Definition pages := @matching_audit decimal_uuid_text Sqlite UsageSample.text_case json "inst" all_entries db.
Definition walk := @walk_audit decimal_uuid_text Sqlite UsageSample.text_case json "inst".
End AuditSample.
Import (hints) AuditSample.

Lemma audit_pages_complete_witness :
  AuditSample.walk 3 0 AuditSample.no_filter AuditSample.db = Some AuditSample.pages ∧
  ar_action <$> AuditSample.pages = ["second"; "first"].
Proof.
  split; [|vm_compute; reflexivity].
  destruct (@audit_pages_complete decimal_uuid_text Sqlite UsageSample.text_case AuditSample.json "inst" AuditSample.no_filter
    AuditSample.all_entries AuditSample.db) as [E _]; [vm_compute; reflexivity|reflexivity|vm_compute; congruence|exact E].
Defined.

(** The workspace of [CreationSample]. *)
Lemma metrics_add_up_witness :
  ∃ m, workspace_metrics "inst" UsageSample.db = (Ok m, UsageSample.db) ∧
    default 0 (wm_states m !! state_as_str Provisioning) = 1 ∧ default 0 (wm_states m !! state_as_str Ready) = 0.
Proof.
  destruct (workspace_metrics "inst" UsageSample.db) as [r db'] eqn:E.
  assert (∃ m, r = Ok m) as [m ->] by (apply (f_equal fst) in E; vm_compute in E; eauto).
  destruct (metrics_add_up _ _ _ _ E) as (-> & Hcount & _). exists m. split; [done|]. rewrite !Hcount. vm_compute. split; reflexivity.
Defined.
