(* ===== verification/WorkloadApply.v ===== *)
(** * What is applied to a workload during a storage migration
    ([src/kubernetes/storage_shrink/workload_apply.rs])

    A migration must keep the claims of a StatefulSet and scale it down without
    touching anything else of it. The control plane uses server-side apply, which
    removes what its manager owned before and does not apply again. So the applied
    object is projected out of the current one along the fields the manager owns
    ([managedFields] in the format [FieldsV1]), and only the retention policy and
    the number of replicas are set. The file with the paths of atomic fields is
    data of the program ([statefulset_atomic_fields.json]). *)
From S2P Require Import Prelude Text Json.

Definition INVALID_FIELDS : string := "workspace apply ownership is missing or unsupported".
Definition FIELD_MANAGER : string := "memeloop-workspace-control".

(** [serde_json::from_str] of the selector in a key of [FieldsV1]. *)
Class SelectorJson := selector_parse : string → option Value.

(** ** The atomic fields of a StatefulSet *)
Definition atomic_objects : list string := [
  "/metadata/ownerReferences/[]";
  "/spec/selector";
  "/spec/template/metadata/ownerReferences/[]";
  "/spec/template/spec/affinity/nodeAffinity/requiredDuringSchedulingIgnoredDuringExecution";
  "/spec/template/spec/containers/[]/env/[]/valueFrom/configMapKeyRef";
  "/spec/template/spec/containers/[]/env/[]/valueFrom/fieldRef";
  "/spec/template/spec/containers/[]/env/[]/valueFrom/fileKeyRef";
  "/spec/template/spec/containers/[]/env/[]/valueFrom/resourceFieldRef";
  "/spec/template/spec/containers/[]/env/[]/valueFrom/secretKeyRef";
  "/spec/template/spec/ephemeralContainers/[]/env/[]/valueFrom/configMapKeyRef";
  "/spec/template/spec/ephemeralContainers/[]/env/[]/valueFrom/fieldRef";
  "/spec/template/spec/ephemeralContainers/[]/env/[]/valueFrom/fileKeyRef";
  "/spec/template/spec/ephemeralContainers/[]/env/[]/valueFrom/resourceFieldRef";
  "/spec/template/spec/ephemeralContainers/[]/env/[]/valueFrom/secretKeyRef";
  "/spec/template/spec/imagePullSecrets/[]";
  "/spec/template/spec/initContainers/[]/env/[]/valueFrom/configMapKeyRef";
  "/spec/template/spec/initContainers/[]/env/[]/valueFrom/fieldRef";
  "/spec/template/spec/initContainers/[]/env/[]/valueFrom/fileKeyRef";
  "/spec/template/spec/initContainers/[]/env/[]/valueFrom/resourceFieldRef";
  "/spec/template/spec/initContainers/[]/env/[]/valueFrom/secretKeyRef";
  "/spec/template/spec/nodeSelector";
  "/spec/template/spec/topologySpreadConstraints/[]/labelSelector";
  "/spec/template/spec/volumes/[]/cephfs/secretRef";
  "/spec/template/spec/volumes/[]/cinder/secretRef";
  "/spec/template/spec/volumes/[]/csi/nodePublishSecretRef";
  "/spec/template/spec/volumes/[]/ephemeral/volumeClaimTemplate/metadata/ownerReferences/[]";
  "/spec/template/spec/volumes/[]/ephemeral/volumeClaimTemplate/spec/dataSource";
  "/spec/template/spec/volumes/[]/ephemeral/volumeClaimTemplate/spec/selector";
  "/spec/template/spec/volumes/[]/flexVolume/secretRef";
  "/spec/template/spec/volumes/[]/iscsi/secretRef";
  "/spec/template/spec/volumes/[]/rbd/secretRef";
  "/spec/template/spec/volumes/[]/scaleIO/secretRef";
  "/spec/template/spec/volumes/[]/storageos/secretRef"].

Definition atomic_lists : list string := [
  "/metadata/managedFields";
  "/spec/template/metadata/managedFields";
  "/spec/template/spec/affinity/nodeAffinity/preferredDuringSchedulingIgnoredDuringExecution";
  "/spec/template/spec/affinity/podAffinity/preferredDuringSchedulingIgnoredDuringExecution";
  "/spec/template/spec/affinity/podAffinity/requiredDuringSchedulingIgnoredDuringExecution";
  "/spec/template/spec/affinity/podAntiAffinity/preferredDuringSchedulingIgnoredDuringExecution";
  "/spec/template/spec/affinity/podAntiAffinity/requiredDuringSchedulingIgnoredDuringExecution";
  "/spec/template/spec/containers/[]/args";
  "/spec/template/spec/containers/[]/command";
  "/spec/template/spec/containers/[]/envFrom";
  "/spec/template/spec/containers/[]/lifecycle/postStart/exec/command";
  "/spec/template/spec/containers/[]/lifecycle/postStart/httpGet/httpHeaders";
  "/spec/template/spec/containers/[]/lifecycle/preStop/exec/command";
  "/spec/template/spec/containers/[]/lifecycle/preStop/httpGet/httpHeaders";
  "/spec/template/spec/containers/[]/livenessProbe/exec/command";
  "/spec/template/spec/containers/[]/livenessProbe/httpGet/httpHeaders";
  "/spec/template/spec/containers/[]/readinessProbe/exec/command";
  "/spec/template/spec/containers/[]/readinessProbe/httpGet/httpHeaders";
  "/spec/template/spec/containers/[]/resizePolicy";
  "/spec/template/spec/containers/[]/restartPolicyRules";
  "/spec/template/spec/containers/[]/securityContext/capabilities/add";
  "/spec/template/spec/containers/[]/securityContext/capabilities/drop";
  "/spec/template/spec/containers/[]/startupProbe/exec/command";
  "/spec/template/spec/containers/[]/startupProbe/httpGet/httpHeaders";
  "/spec/template/spec/dnsConfig/nameservers";
  "/spec/template/spec/dnsConfig/options";
  "/spec/template/spec/dnsConfig/searches";
  "/spec/template/spec/ephemeralContainers/[]/args";
  "/spec/template/spec/ephemeralContainers/[]/command";
  "/spec/template/spec/ephemeralContainers/[]/envFrom";
  "/spec/template/spec/ephemeralContainers/[]/lifecycle/postStart/exec/command";
  "/spec/template/spec/ephemeralContainers/[]/lifecycle/postStart/httpGet/httpHeaders";
  "/spec/template/spec/ephemeralContainers/[]/lifecycle/preStop/exec/command";
  "/spec/template/spec/ephemeralContainers/[]/lifecycle/preStop/httpGet/httpHeaders";
  "/spec/template/spec/ephemeralContainers/[]/livenessProbe/exec/command";
  "/spec/template/spec/ephemeralContainers/[]/livenessProbe/httpGet/httpHeaders";
  "/spec/template/spec/ephemeralContainers/[]/readinessProbe/exec/command";
  "/spec/template/spec/ephemeralContainers/[]/readinessProbe/httpGet/httpHeaders";
  "/spec/template/spec/ephemeralContainers/[]/resizePolicy";
  "/spec/template/spec/ephemeralContainers/[]/restartPolicyRules";
  "/spec/template/spec/ephemeralContainers/[]/securityContext/capabilities/add";
  "/spec/template/spec/ephemeralContainers/[]/securityContext/capabilities/drop";
  "/spec/template/spec/ephemeralContainers/[]/startupProbe/exec/command";
  "/spec/template/spec/ephemeralContainers/[]/startupProbe/httpGet/httpHeaders";
  "/spec/template/spec/hostAliases/[]/hostnames";
  "/spec/template/spec/initContainers/[]/args";
  "/spec/template/spec/initContainers/[]/command";
  "/spec/template/spec/initContainers/[]/envFrom";
  "/spec/template/spec/initContainers/[]/lifecycle/postStart/exec/command";
  "/spec/template/spec/initContainers/[]/lifecycle/postStart/httpGet/httpHeaders";
  "/spec/template/spec/initContainers/[]/lifecycle/preStop/exec/command";
  "/spec/template/spec/initContainers/[]/lifecycle/preStop/httpGet/httpHeaders";
  "/spec/template/spec/initContainers/[]/livenessProbe/exec/command";
  "/spec/template/spec/initContainers/[]/livenessProbe/httpGet/httpHeaders";
  "/spec/template/spec/initContainers/[]/readinessProbe/exec/command";
  "/spec/template/spec/initContainers/[]/readinessProbe/httpGet/httpHeaders";
  "/spec/template/spec/initContainers/[]/resizePolicy";
  "/spec/template/spec/initContainers/[]/restartPolicyRules";
  "/spec/template/spec/initContainers/[]/securityContext/capabilities/add";
  "/spec/template/spec/initContainers/[]/securityContext/capabilities/drop";
  "/spec/template/spec/initContainers/[]/startupProbe/exec/command";
  "/spec/template/spec/initContainers/[]/startupProbe/httpGet/httpHeaders";
  "/spec/template/spec/readinessGates";
  "/spec/template/spec/securityContext/supplementalGroups";
  "/spec/template/spec/securityContext/sysctls";
  "/spec/template/spec/tolerations";
  "/spec/template/spec/topologySpreadConstraints/[]/matchLabelKeys";
  "/spec/template/spec/volumes/[]/cephfs/monitors";
  "/spec/template/spec/volumes/[]/configMap/items";
  "/spec/template/spec/volumes/[]/downwardAPI/items";
  "/spec/template/spec/volumes/[]/ephemeral/volumeClaimTemplate/metadata/managedFields";
  "/spec/template/spec/volumes/[]/ephemeral/volumeClaimTemplate/spec/accessModes";
  "/spec/template/spec/volumes/[]/fc/targetWWNs";
  "/spec/template/spec/volumes/[]/fc/wwids";
  "/spec/template/spec/volumes/[]/iscsi/portals";
  "/spec/template/spec/volumes/[]/projected/sources";
  "/spec/template/spec/volumes/[]/rbd/monitors";
  "/spec/template/spec/volumes/[]/secret/items";
  "/spec/volumeClaimTemplates"].

(** ** JSON *)
Definition as_array (v : Value) : option (list Value) :=
  match v with Array items => Some items | _ => None end.

(** [value[key]], which is [Null] where there is nothing. *)
Definition index (v : Value) (key : string) : Value := default Null (get v key).

Definition is_empty_object (v : Value) : bool :=
  match v with Object [] => true | _ => false end.

Definition replace_byte (c : Z) (by_text : string) (bs : list Z) : list Z :=
  flat_map (λ b, if b =? c then bytes by_text else [b]) bs.
Definition c_tilde : Z := 126.
Definition pointer_token (name : string) : string :=
  string_of_bytes (replace_byte c_slash "~1" (replace_byte c_tilde "~0" (bytes name))).

Definition strip_text (prefix s : string) : option string :=
  string_of_bytes <$> strip_prefix (bytes prefix) (bytes s).

(** ** The projection *)
Definition atomic_leaf (current : Value) (path : string) : bool :=
  match current with
  | Object object => bool_decide (object = []) || bool_decide (path ∈ atomic_objects)
  | Array items => bool_decide (items = []) || bool_decide (path ∈ atomic_lists)
  | _ => true
  end.

Record ListField := mkListField { lf_selector : Value; lf_children : Value; lf_keyed : bool; lf_matched : bool }.

Definition field_matches (field : ListField) (item : Value) : bool :=
  if lf_keyed field then
    match as_object (lf_selector field), as_object item with
    | Some keys, Some source => forallb (λ kv : string * Value, bool_decide (map_get kv.1 source = Some kv.2)) keys
    | _, _ => false
    end
  else bool_decide (lf_selector field = item).

Section Project.
Context `{SelectorJson}.

Definition list_field (key : string) (children : Value) : result string ListField :=
  let field (selector : string) (keyed : bool) :=
    selector ← ok_or (selector_parse selector) INVALID_FIELDS;
    _ ← ensure (negb keyed || is_some_and (as_object selector) (λ keys, negb (bool_decide (keys = [])))) INVALID_FIELDS;
    Ok (mkListField selector children keyed false) in
  match strip_text "k:" key with
  | Some selector => field selector true
  | None => match strip_text "v:" key with
            | Some selector => field selector false
            | None => Err INVALID_FIELDS
            end
  end.

(** The entry of a field set for the value itself. *)
Definition is_self (kv : string * Value) : bool := String.eqb kv.1 "." && is_empty_object kv.2.

Definition list_fields (fields : Json.fields) : result string (list ListField) :=
  collect (λ kv : string * Value, list_field kv.1 kv.2) (List.filter (λ kv, negb (is_self kv)) fields).

Section Level.
(** The projection one level deeper. *)
Context (project : Value → Value → string → result string Value).

Definition field_project (field : ListField) (item : Value) (path : string) : result string Value :=
  if negb (lf_keyed field) then
    _ ← ensure (is_empty_object (lf_children field)) INVALID_FIELDS;
    Ok item
  else
    projected ← project item (lf_children field) (path +:+ "/[]");
    object ← ok_or (as_object projected) INVALID_FIELDS;
    keys ← ok_or (as_object (lf_selector field)) INVALID_FIELDS;
    Ok (Object (foldl (λ m kv, map_insert kv.1 kv.2 m) object keys)).

(** [field.matched = true], of the one field that matches. *)
Definition mark (item : Value) (f : ListField) : ListField :=
  if field_matches f item then mkListField (lf_selector f) (lf_children f) (lf_keyed f) true else f.

(** The loop over the items, with the flags of the fields; an item that no field
    selects belongs to somebody else. *)
Fixpoint project_items (selected : list ListField) (items : list Value) (path : string) : result string (list ListField * list Value) :=
  match items with
  | [] => Ok (selected, [])
  | item :: items =>
      match List.filter (λ f, field_matches f item) selected with
      | [] => project_items selected items path
      | [field] =>
          _ ← ensure (negb (lf_matched field)) INVALID_FIELDS;
          value ← field_project field item path;
          '(selected, rest) ← project_items (mark item <$> selected) items path;
          Ok (selected, value :: rest)
      | _ => Err INVALID_FIELDS
      end
  end.

Definition project_list (values : list Value) (fields : Json.fields) (path : string) : result string Value :=
  selected ← list_fields fields;
  '(selected, result) ← project_items selected values path;
  _ ← ensure (forallb lf_matched selected) INVALID_FIELDS;
  Ok (Array result).

Fixpoint project_object (source fields : Json.fields) (path : string) (projected : Json.fields) : result string Json.fields :=
  match fields with
  | [] => Ok projected
  | (key, children) :: fields =>
      if is_self (key, children) then project_object source fields path projected
      else
        name ← ok_or (strip_text "f:" key) INVALID_FIELDS;
        match map_get name source with
        | Some value =>
            v ← project value children (path +:+ "/" +:+ pointer_token name);
            project_object source fields path (map_insert name v projected)
        | None => project_object source fields path projected
        end
  end.
End Level.

(** The depth is bounded by 64 in the program; [levels] is what is left of it. *)
Fixpoint project_fields_at (levels : nat) (current fields : Value) (path : string) : result string Value :=
  match levels with
  | O => Err INVALID_FIELDS
  | S levels =>
      fields ← ok_or (as_object fields) INVALID_FIELDS;
      if bool_decide (fields = []) then if atomic_leaf current path then Ok current else Err INVALID_FIELDS
      else match current with
           | Array values => project_list (project_fields_at levels) values fields path
           | Object source => Object <$> project_object (project_fields_at levels) source fields path []
           | _ => Err INVALID_FIELDS
           end
  end.

Definition project_owned_fields (current fields : Value) (depth : nat) : result string Value :=
  project_fields_at (65 - depth) current fields "".

(** ** The applied object *)
Definition text_is (v : Value) (s : string) : bool := bool_decide (as_str v = Some s).

Definition is_ours (entry : Value) : bool :=
  text_is (index entry "manager") FIELD_MANAGER && text_is (index entry "operation") "Apply"
  && text_is (index entry "apiVersion") "apps/v1"
  && bool_decide (default ""%string (as_str (index entry "subresource")) = ""%string).

Definition owns_replicas (entry : Value) : bool :=
  is_some_and (as_object (index (index entry "fieldsV1") "f:spec"))
    (λ fields, is_some (map_get "f:replicas" fields) || bool_decide (fields = [])).

Definition validate_replica_ownership (managers : list Value) : result string () :=
  ensure (forallb (λ entry, is_ours entry || negb (owns_replicas entry)) managers)
    "workspace replicas have another field owner; refusing to override".

Definition IDENTITY_FIELDS : list string := ["name"; "namespace"; "uid"; "resourceVersion"].

Definition identity_field (current : Value) (field : string) : result string (string * Value) :=
  value ← ok_or (as_str (index (index current "metadata") field)) INVALID_FIELDS;
  _ ← ensure (negb (bool_decide (value = ""%string))) INVALID_FIELDS;
  Ok (field, Str value).

Definition copy_identity (current : Value) (metadata : Json.fields) : result string Json.fields :=
  values ← collect (identity_field current) IDENTITY_FIELDS;
  Ok (foldl (λ m kv, map_insert kv.1 kv.2 m) metadata values).

(** [object.entry(key).or_insert_with(|| json!({})).as_object_mut()]. *)
Definition object_entry (key : string) (m : Json.fields) : result string Json.fields :=
  ok_or (as_object (default (Object []) (map_get key m))) INVALID_FIELDS.

Definition retained_policy (policy : Json.fields) : Json.fields :=
  map_insert "whenDeleted" (Str "Retain") (map_insert "whenScaled" (Str "Retain") policy).

Definition retain_spec (spec : Json.fields) (stop : bool) : result string Json.fields :=
  policy ← object_entry "persistentVolumeClaimRetentionPolicy" spec;
  let spec := map_insert "persistentVolumeClaimRetentionPolicy" (Object (retained_policy policy)) spec in
  Ok (if stop then map_insert "replicas" (Number 0) spec else spec).

Definition retained_workload_apply (current : Value) (stop : bool) : result string Value :=
  managers ← ok_or (as_array (index (index current "metadata") "managedFields")) INVALID_FIELDS;
  match List.filter (λ entry, is_ours entry && text_is (index entry "fieldsType") "FieldsV1") managers with
  | [entry] =>
      _ ← validate_replica_ownership managers;
      apply ← project_owned_fields current (index entry "fieldsV1") 0;
      root ← ok_or (as_object apply) INVALID_FIELDS;
      _ ← ensure (forallb (λ kv : string * Value, String.eqb kv.1 "metadata" || String.eqb kv.1 "spec") root) INVALID_FIELDS;
      let root := map_insert "kind" (Str "StatefulSet") (map_insert "apiVersion" (Str "apps/v1") root) in
      metadata ← object_entry "metadata" root;
      _ ← ensure (negb (is_some (map_get "managedFields" metadata))) INVALID_FIELDS;
      metadata ← copy_identity current metadata;
      let root := map_insert "metadata" (Object metadata) root in
      spec ← ok_or (map_get "spec" root ≫= as_object) INVALID_FIELDS;
      spec ← retain_spec spec stop;
      Ok (Object (map_insert "spec" (Object spec) root))
  | _ => Err INVALID_FIELDS
  end.
End Project.

(** ** What a projection is

    [v] has nothing that [w] does not have: the fields of an object are fields of
    the other, the items of an array parts of items of the other. The number bounds
    the depth of the comparison; below it the values are the same. *)
Fixpoint included (n : nat) (v w : Value) : Prop :=
  v = w ∨ match n, v, w with
          | S n, Object m, Object m' => ∀ k x, map_get k m = Some x → ∃ y, map_get k m' = Some y ∧ included n x y
          | S n, Array l, Array l' => ∀ x, x ∈ l → ∃ y, y ∈ l' ∧ included n x y
          | _, _, _ => False
          end.

Section Covers.
Context `{SelectorJson}.

(** [v] has everything of [current] that the field set [fields] names. *)
Fixpoint covers (n : nat) (fields current v : Value) : Prop :=
  match n, fields with
  | S n, Object [] => included (S n) current v
  | S n, Object fields =>
      match current, v with
      | Object source, Object m =>
          NoDup fields.*1 → ∀ name children x, (("f:" +:+ name)%string, children) ∈ fields → map_get name source = Some x →
            ∃ y, map_get name m = Some y ∧ covers n children x y
      | Array items, Array l =>
          ∀ key children field, (key, children) ∈ fields → is_self (key, children) = false → list_field key children = Ok field →
            ∃ x y, x ∈ items ∧ field_matches field x = true ∧ y ∈ l ∧
              if lf_keyed field then covers n children x y else included n x y
      | _, _ => False
      end
  | _, _ => False
  end.
End Covers.

Lemma included_refl n v : included n v v.
Proof. destruct n; by left. Qed.

Lemma included_trans n u v w : included n u v → included n v w → included n u w.
Proof.
  revert u v w. induction n as [|n IH]; intros u v w; cbn.
  { intros [->|[]] [->|[]]. by left. }
  intros [->|Huv]; [done|]. intros [<-|Hvw]; [by right|]. right.
  destruct u, v; try done; destruct w; try done.
  - intros x (y & Hy & Hxy)%Huv. destruct (Hvw _ Hy) as (z & Hz & Hyz). eauto.
  - intros k x (y & Hy & Hxy)%Huv. destruct (Hvw _ _ Hy) as (z & Hz & Hyz). eauto.
Qed.

(** ** Inserting the keys of a selector *)
Lemma map_get_selector k (keys m item : Json.fields) :
  (∀ kv, kv ∈ keys → map_get kv.1 item = Some kv.2) →
  map_get k (foldl (λ m kv, map_insert kv.1 kv.2 m) m keys) = if decide (k ∈ keys.*1) then map_get k item else map_get k m.
Proof.
  revert m. induction keys as [|[k' v] keys IH]; intros m Hkeys; [done|]. cbn [foldl].
  rewrite IH by (intros kv Hkv; apply Hkeys; by right). cbn [fst snd fmap list_fmap].
  destruct (decide (k ∈ keys.*1)) as [Hin|Hin]; destruct (decide (k ∈ k' :: keys.*1)) as [Hin'|Hin'].
  - done.
  - by destruct Hin'; right.
  - apply elem_of_cons in Hin' as [->|]; [|done]. rewrite map_get_insert_eq. symmetry. apply (Hkeys (k', v)). by left.
  - apply map_get_insert_ne. intros ->. apply Hin'. by left.
Qed.

Lemma selector_included n (keys m : Json.fields) item source : as_object item = Some source →
  (∀ kv, kv ∈ keys → map_get kv.1 source = Some kv.2) → included (S n) (Object m) item →
  let v := Object (foldl (λ m kv, map_insert kv.1 kv.2 m) m keys) in
  included (S n) (Object m) v ∧ included (S n) v item.
Proof.
  destruct item as [| | | | | |m']; try done. intros [= ->] Hkeys Hm v.
  assert (Hpart : ∀ k x, map_get k m = Some x → ∃ y, map_get k source = Some y ∧ included n x y).
  { destruct Hm as [[= ->]|Hm]; [|done]. eauto using included_refl. }
  split; right; intros k x; subst v; rewrite (map_get_selector k _ _ source Hkeys).
  - intros Hx. destruct (decide _); [by apply Hpart|]. eauto using included_refl.
  - destruct (decide _); [eauto using included_refl|apply Hpart].
Qed.

Section Projection.
Context `{SelectorJson}.

Lemma covers_mono n fields current v w : covers n fields current v → included n v w → covers n fields current w.
Proof.
  revert fields current v w. induction n as [|n IH]; intros fields current v w; [done|].
  destruct fields as [| | | | | |[|f fields]]; try done.
  { cbn [covers]. apply included_trans. }
  intros Hc [->|Hi]; [done|]. destruct current, v; try done; destruct w; try done.
  - intros key children field Hin Hself Hfield. destruct (Hc _ _ _ Hin Hself Hfield) as (x & y & Hx & Hm & Hy & Hcov).
    destruct (Hi _ Hy) as (z & Hz & Hyz). exists x, z. destruct (lf_keyed field); eauto 10 using included_trans.
  - intros Hnd name children x Hin Hx. destruct (Hc Hnd _ _ _ Hin Hx) as (y & Hy & Hcov).
    destruct (Hi _ _ Hy) as (z & Hz & Hyz). eauto.
Qed.

(** ** The loops *)
Lemma Forall2_in_l {A B} (P : A → B → Prop) l k x : Forall2 P l k → x ∈ l → ∃ y, y ∈ k ∧ P x y.
Proof.
  intros Hlk [i Hi]%list_elem_of_lookup. destruct (Forall2_lookup_l _ _ _ _ _ Hlk Hi) as (y & Hy & Hxy).
  exists y. split; [|done]. by apply list_elem_of_lookup_2 in Hy.
Qed.

Lemma Forall2_impl_in {A B} (P Q : A → B → Prop) l k : Forall2 P l k → (∀ x y, x ∈ l → P x y → Q x y) → Forall2 Q l k.
Proof. induction 1 as [|x y l k Hxy _ IH]; intros HPQ; constructor; [apply HPQ; [left|done]|apply IH; intros; apply HPQ; [by right|done]]. Qed.

Lemma strip_text_Some prefix s t : strip_text prefix s = Some t ↔ s = prefix +:+ t.
Proof.
  unfold strip_text. rewrite fmap_Some. setoid_rewrite strip_prefix_Some. split.
  - intros (rest & Hs & ->). apply bytes_inj. by rewrite bytes_app, (bytes_suffix _ _ _ Hs).
  - intros ->. exists (bytes t). by rewrite string_of_bytes_bytes, bytes_app.
Qed.

Lemma list_field_Ok key children f : list_field key children = Ok f →
  lf_children f = children ∧ lf_matched f = false ∧ (lf_keyed f = true → ∃ keys, as_object (lf_selector f) = Some keys).
Proof.
  unfold list_field. destruct (strip_text "k:" key); [|destruct (strip_text "v:" key); [|done]];
    (destruct (selector_parse _) as [v|]; [|done]); cbn; [|intros [= <-]; done].
  destruct (as_object v) eqn:E; cbn; [|done]. destruct (bool_decide _); [done|]. intros [= <-]. eauto.
Qed.

Section Loops.
Context (n : nat) (project : Value → Value → string → result string Value).
Context (Hproject : ∀ current fields path v, project current fields path = Ok v →
  included n v current ∧ covers n fields current v).

Lemma project_object_spec source fields path acc m : project_object project source fields path acc = Ok m →
  (∀ k x, map_get k m = Some x → map_get k acc = Some x ∨ ∃ y, map_get k source = Some y ∧ included n x y) ∧
  (∀ k, ("f:" +:+ k)%string ∉ fields.*1 → map_get k m = map_get k acc) ∧
  (NoDup fields.*1 → ∀ name children x, (("f:" +:+ name)%string, children) ∈ fields → map_get name source = Some x →
     ∃ y, map_get name m = Some y ∧ covers n children x y).
Proof using Hproject.
  revert acc. induction fields as [|[key children] fields IH]; intros acc; cbn [project_object].
  { intros [= <-]. split_and!; [by left|done|]. intros _ name children x []%elem_of_nil. }
  destruct (is_self (key, children)) eqn:Hself.
  { intros (Hin & Hout & Hall)%IH. split_and!; [done| |].
    - intros k Hk. apply Hout. intros Hf. apply Hk. by right.
    - intros [_ Hnd]%NoDup_cons name ch x Hch. apply (Hall Hnd). apply elem_of_cons in Hch as [[= <- <-]|]; [|done].
      by apply andb_true_iff in Hself as [Hs%String.eqb_eq _]. }
  destruct (strip_text "f:" key) as [name|] eqn:Hkey; cbn [ok_or mbind result_bind]; [|done].
  apply strip_text_Some in Hkey as ->. destruct (map_get name source) as [value|] eqn:Hvalue.
  - destruct (project value children _) as [v|] eqn:Hv; cbn [mbind result_bind]; [|done]. apply Hproject in Hv as [Hinc Hcov].
    intros (Hin & Hout & Hall)%IH. split_and!.
    + intros k x Hx. destruct (decide (name = k)) as [->|Hne].
      * destruct (Hin _ _ Hx) as [E|]; [|by right]. rewrite map_get_insert_eq in E. injection E as ->. right. eauto.
      * destruct (Hin _ _ Hx) as [E|]; [|by right]. rewrite map_get_insert_ne in E by done. by left.
    + intros k [Hne Hk]%not_elem_of_cons. rewrite Hout by done. apply map_get_insert_ne. intros ->. by apply Hne.
    + intros [Hnot Hnd]%NoDup_cons name' ch x [E|Hch]%elem_of_cons Hx.
      * injection E as E ->. change (name' = name) in E. subst name'. rewrite Hvalue in Hx. injection Hx as ->. exists v. split; [|done]. rewrite Hout by done. apply map_get_insert_eq.
      * by apply (Hall Hnd).
  - intros (Hin & Hout & Hall)%IH. split_and!; [done| |].
    + intros k [_ Hk]%not_elem_of_cons. by apply Hout.
    + intros [_ Hnd]%NoDup_cons name' ch x [E|Hch]%elem_of_cons Hx; [|by apply (Hall Hnd)].
      injection E as E ->. change (name' = name) in E. congruence.
Qed.

Lemma field_project_spec f item path v : field_matches f item = true → field_project project f item path = Ok v →
  included n v item ∧ if lf_keyed f then covers n (lf_children f) item v else included n item v.
Proof using Hproject.
  unfold field_matches, field_project. destruct (lf_keyed f); cbn [negb].
  - destruct (as_object (lf_selector f)) as [keys|] eqn:Hkeys; [|done]. destruct (as_object item) as [source|] eqn:Hs; [|done].
    intros Hm. destruct (project item _ _) as [u|] eqn:Hu; cbn [mbind result_bind]; [|done].
    apply Hproject in Hu as [Hinc Hcov]. destruct u as [| | | | | |m]; try done. cbn [as_object ok_or mbind result_bind].
    intros [= <-]. destruct n as [|n']; [done|]. destruct (selector_included n' keys m item source) as [Hm1 Hm2]; [done| |done|eauto using covers_mono].
    intros kv Hkv. rewrite forallb_forall in Hm. specialize (Hm kv). rewrite <-list_elem_of_In, bool_decide_eq_true in Hm. auto.
  - intros _. destruct (is_empty_object _); cbn; [|done]. intros [= <-]. auto using included_refl.
Qed.

(** A field keeps what it selects; once the loop is over, a field that is matched
    was so before or has projected an item. *)
Definition served (items result : list Value) (path : string) (f f' : ListField) : Prop :=
  lf_matched f' = true → lf_matched f = true ∨
    ∃ item v, item ∈ items ∧ field_matches f item = true ∧ v ∈ result ∧ field_project project f item path = Ok v.

Lemma project_items_spec selected items path selected' result : project_items project selected items path = Ok (selected', result) →
  Forall2 (served items result path) selected selected' ∧
  ∀ v, v ∈ result → ∃ item f, item ∈ items ∧ field_matches f item = true ∧ field_project project f item path = Ok v.
Proof.
  revert selected result. induction items as [|item items IH]; intros selected result; cbn [project_items].
  { intros [= <- <-]. split; [|intros v []%elem_of_nil]. induction selected; constructor; [by left|done]. }
  destruct (List.filter _ selected) as [|field [|]] eqn:Hf; [| |done].
  - intros [Hs Hr]%IH. split.
    + eapply Forall2_impl; [exact Hs|]. intros f f' Hsf Hm. destruct (Hsf Hm) as [|(x & v & Hx & ?)]; [by left|].
      right. exists x, v. split; [by right|done].
    + intros v (x & f & Hx & ?)%Hr. exists x, f. split; [by right|done].
  - destruct (lf_matched field) eqn:Hfm; cbn [negb ensure mbind result_bind]; [done|].
    destruct (field_project project field item path) as [v|] eqn:Hv; cbn [mbind result_bind]; [|done].
    destruct (project_items project _ _ _) as [[sel rest]|] eqn:Hrest; cbn [mbind result_bind]; [|done].
    intros [= <- <-]. apply IH in Hrest as [Hs Hr].
    assert (field_matches field item = true) as Hfield.
    { assert (In field [field]) as Hin by by left. rewrite <-Hf in Hin. by apply filter_In in Hin as [_ ?]. }
    split.
    + rewrite Forall2_fmap_l in Hs. eapply Forall2_impl_in; [exact Hs|]. intros f f' Hin Hsf Hm. destruct (field_matches f item) eqn:Hfi.
      * assert (f = field) as ->.
        { assert (In f (List.filter (λ f, field_matches f item) selected)) as Hl by by apply filter_In; rewrite <-list_elem_of_In.
          rewrite Hf in Hl. by destruct Hl as [|[]]. }
        right. exists item, v. split_and!; [by left|done|by left|done].
      * unfold compose, mark in Hsf. rewrite Hfi in Hsf. destruct (Hsf Hm) as [|(x & u & Hx & Hxm & Hu & Hp)]; [by left|].
        right. exists x, u. split_and!; [by right|done|by right|done].
    + intros u [->|Hu]%elem_of_cons; [exists item, field; split; [by left|done]|].
      destruct (Hr _ Hu) as (x & f & Hx & ?). exists x, f. split; [by right|done].
Qed.

Lemma project_list_spec values fields path v : project_list project values fields path = Ok v → fields ≠ [] →
  included (S n) v (Array values) ∧ covers (S n) (Object fields) (Array values) v.
Proof using Hproject.
  unfold project_list. destruct (list_fields fields) as [selected|] eqn:Hsel; cbn [mbind result_bind]; [|done].
  destruct (project_items _ _ _ _) as [[selected' result]|] eqn:Hitems; cbn [mbind result_bind]; [|done].
  destruct (forallb lf_matched selected') eqn:Hall; cbn [ensure mbind result_bind]; [|done].
  intros [= <-] Hne. apply project_items_spec in Hitems as [Hserved Hresult]. split.
  - right. intros x (item & f & Hitem & Hm & Hx)%Hresult. exists item. split; [done|]. by apply (field_project_spec f _ path).
  - destruct fields as [|f0 fields0]; [done|]. intros key children field Hin Hself Hfield.
    apply collect_Ok in Hsel. destruct (Forall2_in_l _ _ _ (key, children) Hsel) as (field' & Hin' & Hfield').
    { apply list_elem_of_In, filter_In. rewrite <-list_elem_of_In. by rewrite Hself. }
    cbn [fst snd] in Hfield'. rewrite Hfield in Hfield'. injection Hfield' as <-.
    destruct (Forall2_in_l _ _ _ field Hserved Hin') as (f' & Hf' & Hs).
    apply list_field_Ok in Hfield as (<- & Hfm & _).
    destruct Hs as [Hs|(item & v & Hitem & Hm & Hv & Hp)]; [|congruence|].
    { rewrite forallb_forall in Hall. by apply Hall, list_elem_of_In. }
    exists item, v. split_and!; [done..|]. by apply (field_project_spec field item path).
Qed.
End Loops.

(** The projection has nothing that the value has not, and everything of it the
    field set names. *)
Lemma project_fields_spec levels current fields path v : project_fields_at levels current fields path = Ok v →
  included levels v current ∧ covers levels fields current v.
Proof.
  revert current fields path v. induction levels as [|levels IH]; intros current fields path v; [done|]. cbn [project_fields_at].
  destruct fields as [| | | | | |fields]; try done. cbn [as_object ok_or mbind result_bind].
  destruct (bool_decide (fields = [])) eqn:Hempty.
  { apply bool_decide_eq_true in Hempty as ->. destruct (atomic_leaf _ _); [|done]. intros [= <-]. split; apply included_refl. }
  apply bool_decide_eq_false in Hempty. destruct current as [| | | | |values|source]; try done.
  - intros Hp. by apply (project_list_spec levels _ IH) in Hp.
  - destruct (project_object _ _ _ _ _) as [m|] eqn:Hm; cbn; [|done]. intros [= <-].
    apply (project_object_spec levels _ IH) in Hm as (Hin & _ & Hall). split.
    + right. intros k x Hx. destruct (Hin k x Hx) as [|]; [done|done].
    + destruct fields; [done|]. exact Hall.
Qed.

Lemma project_owned_spec current fields v : project_owned_fields current fields 0 = Ok v →
  included 65 v current ∧ covers 65 fields current v.
Proof. apply (project_fields_spec 65). Qed.
End Projection.
#[global] Opaque included covers project_owned_fields.

(** ** The applied object *)
Ltac at_key := repeat first [rewrite map_get_insert_eq | rewrite map_get_insert_ne by (discriminate || congruence || naive_solver)].

Lemma index_insert_eq k v m : index (Object (map_insert k v m)) k = v.
Proof. unfold index. cbn [get]. by rewrite map_get_insert_eq. Qed.
Lemma index_insert_ne k k' v m : k ≠ k' → index (Object (map_insert k v m)) k' = index (Object m) k'.
Proof. intros Hne. unfold index. cbn [get]. by rewrite map_get_insert_ne. Qed.

Section Apply.
Context `{SelectorJson}.

(** The fields the apply sets by itself. *)
Definition RETENTION_FIELDS : list string := ["whenScaled"; "whenDeleted"].
Definition spec_set (stop : bool) : list string :=
  "persistentVolumeClaimRetentionPolicy" :: if stop then ["replicas"] else [].
Definition policy_of (workload : Value) : Value := index (index workload "spec") "persistentVolumeClaimRetentionPolicy".

Lemma object_entry_Ok key m m' : object_entry key m = Ok m' → ∀ k, map_get k m' = get (index (Object m) key) k.
Proof. unfold object_entry, index. cbn [get]. destruct (map_get key m) as [[]|]; cbn; intros [=]; subst; done. Qed.

Lemma identity_field_Ok current field kv : identity_field current field = Ok kv →
  ∃ s, s ≠ ""%string ∧ index (index current "metadata") field = Str s ∧ kv = (field, Str s).
Proof.
  unfold identity_field. destruct (index _ field) as [| | | |s| |] eqn:Hs; cbn; try done.
  destruct (bool_decide (s = ""%string)) eqn:He; cbn; [done|]. apply bool_decide_eq_false in He. intros [= <-]. eauto.
Qed.

Lemma copy_identity_Ok current m m' : copy_identity current m = Ok m' →
  (∀ f, f ∈ IDENTITY_FIELDS → ∃ s, s ≠ ""%string ∧ index (index current "metadata") f = Str s ∧ map_get f m' = Some (Str s)) ∧
  (∀ f, f ∉ IDENTITY_FIELDS → map_get f m' = map_get f m).
Proof.
  unfold copy_identity. destruct (collect _ _) as [values|] eqn:Hc; cbn [mbind result_bind]; [|done]. intros [= <-].
  apply collect_Ok in Hc. unfold IDENTITY_FIELDS in Hc.
  repeat match type of Hc with Forall2 _ (_ :: _) _ =>
    apply Forall2_cons_inv_l in Hc as (? & ? & (? & ? & ? & ->)%identity_field_Ok & Hc & ->) end.
  apply Forall2_nil_inv_l in Hc as ->. cbn [foldl fst snd]. split.
  - intros f Hf. unfold IDENTITY_FIELDS in Hf. rewrite !elem_of_cons, elem_of_nil in Hf.
    destruct Hf as [->|[->|[->|[->|[]]]]]; eexists; (split; [|split; [eassumption|by at_key]]); done.
  - intros f Hf. unfold IDENTITY_FIELDS in Hf. rewrite !not_elem_of_cons in Hf. by at_key.
Qed.

Lemma retain_spec_Ok m stop m' : retain_spec m stop = Ok m' →
  let policy := index (Object m') "persistentVolumeClaimRetentionPolicy" in
  index policy "whenScaled" = Str "Retain" ∧ index policy "whenDeleted" = Str "Retain" ∧
  (∀ f, f ∉ RETENTION_FIELDS → get policy f = get (index (Object m) "persistentVolumeClaimRetentionPolicy") f) ∧
  (stop = true → index (Object m') "replicas" = Number 0) ∧ (∀ f, f ∉ spec_set stop → map_get f m' = map_get f m).
Proof.
  unfold retain_spec. destruct (object_entry _ m) as [policy|] eqn:Hp; cbn [mbind result_bind]; [|done].
  pose proof (object_entry_Ok _ _ _ Hp) as Hpolicy. intros [= <-]. cbn zeta.
  set (spec := map_insert _ _ m). set (spec' := if stop then _ else _).
  assert (index (Object spec') "persistentVolumeClaimRetentionPolicy" = Object (retained_policy policy)) as ->
    by (subst spec spec'; unfold index; cbn [get]; destruct stop; by at_key).
  unfold retained_policy. split_and!; [unfold index; cbn [get]; by at_key..| | |].
  - intros f Hf. unfold RETENTION_FIELDS in Hf. rewrite !not_elem_of_cons in Hf. cbn [get]. at_key. apply Hpolicy.
  - intros ->. unfold index. cbn [get]. subst spec'. by at_key.
  - intros f Hf. unfold spec_set in Hf. subst spec spec'. rewrite not_elem_of_cons in Hf.
    destruct stop; [rewrite not_elem_of_cons in Hf|]; by at_key.
Qed.
(** What the checks have gone through. *)
Lemma retained_workload_inv current stop apply : retained_workload_apply current stop = Ok apply →
  ∃ managers entry root meta0 meta spec spec',
    as_array (index (index current "metadata") "managedFields") = Some managers ∧
    List.filter (λ entry, is_ours entry && text_is (index entry "fieldsType") "FieldsV1") managers = [entry] ∧
    validate_replica_ownership managers = Ok () ∧ project_owned_fields current (index entry "fieldsV1") 0 = Ok (Object root) ∧
    (∀ k, map_get k meta0 = get (index (Object root) "metadata") k) ∧ copy_identity current meta0 = Ok meta ∧
    index (Object root) "spec" = Object spec ∧ retain_spec spec stop = Ok spec' ∧
    index apply "metadata" = Object meta ∧ index apply "spec" = Object spec'.
Proof.
  unfold retained_workload_apply. intros E. apply bind_Ok in E as (managers & Hm%ok_or_Ok & E).
  destruct (List.filter _ managers) as [|entry [|]] eqn:Hf; [done| |done].
  apply bind_Ok in E as ([] & Hrep & E). apply bind_Ok in E as (owned & Hp & E). apply bind_Ok in E as (root & Hroot%ok_or_Ok & E).
  destruct owned as [| | | | | |root']; try done. injection Hroot as ->. apply bind_Ok in E as ([] & _ & E). cbn zeta in E.
  apply bind_Ok in E as (meta0 & Hm0 & E). pose proof (object_entry_Ok _ _ _ Hm0) as Hget. apply bind_Ok in E as ([] & _ & E).
  apply bind_Ok in E as (meta & Hmeta & E). cbn zeta in E. apply bind_Ok in E as (spec & Hspec%ok_or_Ok & E).
  apply bind_Ok in E as (spec' & Hs & [= <-]).
  exists managers, entry, root, meta0, meta, spec, spec'. rewrite index_insert_eq, index_insert_ne, index_insert_eq by done.
  rewrite !map_get_insert_ne in Hspec by done. split_and!; try done.
  - intros k. by rewrite Hget, !index_insert_ne by done.
  - unfold index. cbn [get]. destruct (map_get "spec" root) as [[]|]; try done. by injection Hspec as ->.
Qed.

(** What a migration applies to a workload is what the control plane already
    owns of it, no less and nothing else, with the claims retained: the object is
    the current one by name, UID and version; its retention policy is [Retain]
    twice; it is scaled to zero exactly if it is to stop; all other fields are the
    projection of the current object on the fields the control plane owns, and
    nobody else owns its replicas. *)
Theorem retained_apply_exact current stop apply : retained_workload_apply current stop = Ok apply →
  ∃ managers entry owned,
    as_array (index (index current "metadata") "managedFields") = Some managers ∧ entry ∈ managers ∧ is_ours entry = true ∧
    (∀ e, e ∈ managers → is_ours e = false → owns_replicas e = false) ∧
    included 65 owned current ∧ covers 65 (index entry "fieldsV1") current owned ∧
    (∀ f, f ∈ IDENTITY_FIELDS → ∃ s, s ≠ ""%string ∧ index (index current "metadata") f = Str s ∧ index (index apply "metadata") f = Str s) ∧
    (∀ f, f ∉ IDENTITY_FIELDS → get (index apply "metadata") f = get (index owned "metadata") f) ∧
    index (policy_of apply) "whenScaled" = Str "Retain" ∧ index (policy_of apply) "whenDeleted" = Str "Retain" ∧
    (∀ f, f ∉ RETENTION_FIELDS → get (policy_of apply) f = get (policy_of owned) f) ∧
    (stop = true → index (index apply "spec") "replicas" = Number 0) ∧
    (∀ f, f ∉ spec_set stop → get (index apply "spec") f = get (index owned "spec") f).
Proof.
  intros (managers & entry & root & meta0 & meta & spec & spec' & Hm & Hf & Hrep & Hp & Hmeta0 & Hmeta & Hspec & Hs & Hma & Hsa)%retained_workload_inv.
  assert (In entry managers ∧ is_ours entry = true) as [Hin Hours].
  { assert (In entry [entry]) as Hin by by left. rewrite <-Hf in Hin. by apply filter_In in Hin as [? [? _]%andb_true_iff]. }
  apply project_owned_spec in Hp as [Hinc Hcov]. apply copy_identity_Ok in Hmeta as [Hid Hrest].
  apply retain_spec_Ok in Hs as (Hscaled & Hdeleted & Hpolicy & Hstop & Hother).
  exists managers, entry, (Object root). unfold policy_of. rewrite Hma, Hsa, Hspec, list_elem_of_In. split_and!; try done.
  - intros e He%list_elem_of_In Hnot. apply ensure_Ok in Hrep. rewrite forallb_forall in Hrep. specialize (Hrep e He).
    rewrite Hnot in Hrep. by apply negb_true_iff in Hrep.
  - intros f (t & Ht & Hc & Hg)%Hid. exists t. split_and!; [done..|]. unfold index. cbn [get]. by rewrite Hg.
  - intros f Hnot. cbn [get]. by rewrite Hrest, Hmeta0.
Qed.
End Apply.

(** ** A sample: a workload with two containers, one of them somebody else's *)
Module WorkloadSample.
Definition quote : string := string_of_bytes [34].
Definition selector : string := "{" +:+ quote +:+ "name" +:+ quote +:+ ":" +:+ quote +:+ "ws" +:+ quote +:+ "}".
#[export] Instance selectors : SelectorJson := λ s, if String.eqb s selector then Some (Object [("name", Str "ws")]) else None.

Definition leaf : Value := Object [].
Definition fields : Value :=
  Object [("f:spec", Object [("f:replicas", leaf);
    ("f:template", Object [("f:containers", Object [("k:" +:+ selector, Object [(".", leaf); ("f:image", leaf); ("f:name", leaf)])])])])].
Definition container (name image : string) : Value := Object [("image", Str image); ("name", Str name); ("tty", Bool true)].
Definition current : Value :=
  Object [("kind", Str "StatefulSet");
    ("metadata", Object [("generation", Number 3);
       ("managedFields", Array [Object [("apiVersion", Str "apps/v1"); ("fieldsType", Str "FieldsV1"); ("fieldsV1", fields);
                                        ("manager", Str FIELD_MANAGER); ("operation", Str "Apply")]]);
       ("name", Str "w-1"); ("namespace", Str "ns"); ("resourceVersion", Str "9"); ("uid", Str "u")]);
    ("spec", Object [("replicas", Number 1);
                     ("template", Object [("containers", Array [container "other" "x"; container "ws" "img"])])]);
    ("status", Object [])].
Definition applied : Value :=
  Object [("apiVersion", Str "apps/v1"); ("kind", Str "StatefulSet");
    ("metadata", Object [("name", Str "w-1"); ("namespace", Str "ns"); ("resourceVersion", Str "9"); ("uid", Str "u")]);
    ("spec", Object [("persistentVolumeClaimRetentionPolicy", Object [("whenDeleted", Str "Retain"); ("whenScaled", Str "Retain")]);
                     ("replicas", Number 0);
                     ("template", Object [("containers", Array [Object [("image", Str "img"); ("name", Str "ws")]])])])].
End WorkloadSample.
Import (hints) WorkloadSample.

Example workload_is_projected : retained_workload_apply WorkloadSample.current true = Ok WorkloadSample.applied.
Proof. vm_compute. reflexivity. Qed.

Lemma retained_apply_exact_witness : ∃ managers entry owned,
  as_array (index (index WorkloadSample.current "metadata") "managedFields") = Some managers ∧ entry ∈ managers ∧
  included 65 owned WorkloadSample.current ∧ get (index WorkloadSample.applied "spec") "template" = get (index owned "spec") "template".
Proof.
  destruct (retained_apply_exact WorkloadSample.current true WorkloadSample.applied)
    as (managers & entry & owned & Hm & Hin & _ & _ & Hinc & _ & _ & _ & _ & _ & _ & _ & Hspec).
  { vm_compute. reflexivity. }
  exists managers, entry, owned. split_and!; [done..|]. apply Hspec. unfold spec_set. rewrite !not_elem_of_cons. split_and!; [done|done|apply not_elem_of_nil].
Defined.
