(* ===== verification/KubeApi.v ===== *)
(** * The Kubernetes API, as the coordinator uses it

    The objects have the fields the control plane reads or writes; what it only
    compares is kept as JSON. A request is a value of [Kube], indexed by its answer.
    A coordinator's method is a program over requests ([Prog]): it asks, and goes on
    with whatever is answered. The server is a parameter ([KubeServer]), so that
    theorems hold whatever it answers and whoever else changes the cluster.

    The second half is a program logic. [wp] says that every request of a program is
    permitted when it is made, given all that was asked and answered before, and
    that the program ends in a given condition. [wp_run] takes it to the runs
    against a server. *)
From S2P Require Import Prelude Text Json.

(** ** Objects *)
Record OwnerReference := mkOwner {
  ow_api_version : string; ow_kind : string; ow_name : string; ow_uid : string; ow_controller : option bool
}.

Record ObjectMeta := mkMeta {
  md_name : option string;
  md_namespace : option string;
  md_uid : option string;
  md_resource_version : option string;
  md_generation : option Z;
  md_labels : option (gmap string string);
  md_owner_references : option (list OwnerReference);
  md_deletion_timestamp : option string;
  md_annotations : option (gmap string string);
  md_creation_timestamp : option Z;  (** an instant *)
}.

(** The metadata of an object that is to be created. *)
Definition new_meta (name ns : string) (labels : gmap string string) : ObjectMeta :=
  mkMeta (Some name) (Some ns) None None None (Some labels) None None None None.

(** [.metadata.labels.as_ref().and_then(|labels| labels.get(key))]. *)
Definition label (m : ObjectMeta) (key : string) : option string := md_labels m ≫= lookup key.
Definition has_owner (m : ObjectMeta) : bool := is_some_and (md_owner_references m) (λ owners, negb (bool_decide (owners = []))).

(** [PersistentVolumeClaim]; quantities are texts. *)
Record ClaimSpec := mkClaimSpec {
  cs_access_modes : option (list string);
  cs_storage_class_name : option string;
  cs_volume_mode : option string;
  cs_volume_name : option string;
  cs_requests : option (gmap string string);  (** [resources.requests] *)
  cs_data_source : option Value;
  cs_data_source_ref : option Value;
}.
Record ClaimStatus := mkClaimStatus { ct_phase : option string; ct_capacity : option (gmap string string) }.
Record Claim := mkClaim { cl_metadata : ObjectMeta; cl_spec : option ClaimSpec; cl_status : option ClaimStatus }.

(** [PersistentVolume]. *)
Record CsiSource := mkCsi { csi_driver_name : string; csi_handle : string }.
Record ObjectReference := mkReference { rf_namespace : option string; rf_name : option string; rf_uid : option string }.
Record VolumeSpec := mkVolumeSpec {
  pv_csi : option CsiSource;
  pv_claim_ref : option ObjectReference;
  pv_storage_class_name : option string;
  pv_reclaim_policy : option string;
}.
Record PersistentVolume := mkPv { pv_metadata : ObjectMeta; pv_spec : option VolumeSpec; pv_phase : option string }.

(** [StorageClass]. *)
Record StorageClass := mkStorageClass { sc_provisioner : string; sc_volume_binding_mode : option string }.

(** [Pod]. A volume is a claim, an ephemeral claim or something else, given as JSON. *)
Record ClaimMount := mkClaimMount { cm_claim_name : string; cm_read_only : option bool }.
Record PodVolume := mkPodVolume { vo_name : string; vo_claim : option ClaimMount; vo_ephemeral : option Value; vo_other : Value }.
Record VolumeMount := mkMount { vm_name : string; vm_mount_path : string; vm_read_only : option bool; vm_other : Value }.
Record EnvVar := mkEnvVar { en_name : string; en_value : option string; en_value_from : Value }.
Record Container := mkContainer {
  ct_name : string;
  ct_image : option string;
  ct_command : option (list string);
  ct_args : option (list string);
  ct_env : option (list EnvVar);
  ct_env_from : option Value;
  ct_volume_mounts : option (list VolumeMount);
  ct_security_context : option Value;
  ct_resources : option Value;
  ct_termination_message_policy : option string;
  ct_other : fields;  (** ports and probes *)
}.
Record PodSpec := mkPodSpec {
  ps_restart_policy : option string;
  ps_active_deadline_seconds : option Z;
  ps_automount_service_account_token : option bool;
  ps_enable_service_links : option bool;
  ps_security_context : option Value;
  ps_containers : list Container;
  ps_init_containers : option (list Container);
  ps_ephemeral_containers : option (list Container);
  ps_volumes : option (list PodVolume);
  ps_host_network : option bool;
  ps_host_pid : option bool;
  ps_host_ipc : option bool;
  ps_node_name : option string;
  ps_service_account_name : option string;
  ps_other : fields;  (** what decides where it runs *)
}.
(** [terminated] holds its message. *)
Record ContainerState := mkContainerState { cst_terminated : option (option string); cst_running : option Value; cst_waiting : option Value }.
Record ContainerStatus := mkContainerStatus { st_name : string; st_state : option ContainerState }.
Record Condition := mkCondition { cd_type : string; cd_status : string }.
Record PodStatus := mkPodStatus {
  po_phase : option string;
  po_containers : option (list ContainerStatus);
  po_init_containers : option (list ContainerStatus);
  po_ephemeral_containers : option (list ContainerStatus);
  po_pod_ip : option string;
  po_conditions : option (list Condition);
}.
Definition st_terminated_message (s : ContainerStatus) : option string := (st_state s ≫= cst_terminated) ≫= id.
Record Pod := mkPod { po_metadata : ObjectMeta; po_spec : option PodSpec; po_status : option PodStatus }.

(** [StatefulSet]. *)
Record RetentionPolicy := mkRetention { rp_when_scaled : option string; rp_when_deleted : option string }.
Record PodTemplate := mkTemplate { pt_metadata : option ObjectMeta; pt_spec : option PodSpec }.
Record SetSpec := mkSetSpec {
  ss_replicas : option Z;
  ss_service_name : option string;
  ss_match_labels : option (gmap string string);  (** of the [selector] *)
  ss_retention : option RetentionPolicy;
  ss_template : PodTemplate;
  ss_claim_templates : option (list Claim);
}.
Record SetStatus := mkSetStatus {
  sn_replicas : Z;
  sn_ready_replicas : option Z;
  sn_updated_replicas : option Z;
  sn_observed_generation : option Z;
  sn_current_revision : option string;
  sn_update_revision : option string;
}.
Record StatefulSet := mkSet { ss_metadata : ObjectMeta; ss_spec : option SetSpec; ss_status : option SetStatus }.
Definition ss_observed_generation (set : StatefulSet) : option Z := ss_status set ≫= sn_observed_generation.

(** [ConfigMap] and [Secret]; the values of a secret are bytes. *)
Record ConfigMap := mkConfigMap { cmap_metadata : ObjectMeta; cmap_immutable : option bool; cmap_data : option (gmap string string) }.
Record Secret := mkSecret { sec_metadata : ObjectMeta; sec_data : option (gmap string (list Z)) }.

(** [NetworkPolicy]. *)
Record LabelSelector := mkSelector { ls_match_labels : option (gmap string string); ls_match_expressions : option (list Value) }.
Record PolicySpec := mkPolicySpec {
  np_pod_selector : option LabelSelector;
  np_policy_types : option (list string);
  np_ingress : option (list Value);
  np_egress : option (list Value);
}.
Record NetworkPolicy := mkNetworkPolicy { np_metadata : ObjectMeta; np_spec : option PolicySpec }.

#[global] Instance env_var_eq_dec : EqDecision EnvVar.
Proof. solve_decision. Defined.
#[global] Instance claim_mount_eq_dec : EqDecision ClaimMount.
Proof. solve_decision. Defined.
#[global] Instance pod_volume_eq_dec : EqDecision PodVolume.
Proof. solve_decision. Defined.
#[global] Instance volume_mount_eq_dec : EqDecision VolumeMount.
Proof. solve_decision. Defined.
#[global] Instance owner_eq_dec : EqDecision OwnerReference.
Proof. solve_decision. Defined.

(** ** Requests *)

(** [kube::Error]: code, reason and message of an answer of the server, which other
    errors do not have, and its text. *)
Record KubeError := mkKubeError { ke_code : option Z; ke_reason : string; ke_message : string; ke_text : string }.
Definition not_found (e : KubeError) : bool := bool_decide (ke_code e = Some 404).

Record Preconditions := mkPreconditions { pc_uid : option string; pc_resource_version : option string }.

(** The kinds of objects that are read for their metadata, applied and deleted
    alike. A namespace of [None] is the cluster. *)
Inductive Kind :=
  | KClusterRoleBinding | KNamespace | KIngress | KNetworkPolicy | KService | KStatefulSet | KConfigMap | KSecret
  | KServiceAccount | KClaim | KEnvoyFilter | KPod.
#[global] Instance kind_eq_dec : EqDecision Kind.
Proof. solve_decision. Defined.

Inductive Kube : Type → Type :=
  | GetClaim (ns name : string) : Kube Claim
  | GetVolume (name : string) : Kube PersistentVolume
  | GetStorageClass (name : string) : Kube StorageClass
  | GetLonghornVolume (ns name : string) : Kube ObjectMeta
  | GetPod (ns name : string) : Kube Pod
  | GetNetworkPolicy (ns name : string) : Kube NetworkPolicy
  | GetStatefulSet (ns name : string) : Kube Value                      (** as JSON *)
  | ReadStatefulSet (ns name : string) : Kube StatefulSet
  | GetConfigMap (ns name : string) : Kube ConfigMap
  | GetSecret (ns name : string) : Kube Secret
  | ListPods (ns : string) (selector : option string) : Kube (list Pod)
  | GetObject (kind : Kind) (ns : option string) (name : string) : Kube ObjectMeta
  | ListObjects (kind : Kind) (ns : option string) (selector : string) : Kube (list ObjectMeta)
  | CreateClaim (ns : string) (claim : Claim) : Kube Claim
  | CreatePod (ns : string) (pod : Pod) : Kube Pod
  | CreateNetworkPolicy (ns : string) (policy : NetworkPolicy) : Kube NetworkPolicy
  | PatchClaim (ns name : string) (patch : Value) : Kube ()              (** merge patches *)
  | PatchVolume (name : string) (patch : Value) : Kube ()
  | PatchPod (ns name : string) (patch : Value) : Kube ()
  | CreateConfigMap (ns : string) (config : ConfigMap) : Kube ()
  | ApplySet (ns name manager : string) (set : StatefulSet) : Kube ()
  | ApplyStatefulSet (ns name manager : string) (apply : Value) : Kube ()
  | DeleteClaim (ns name : string) (preconditions : Preconditions) : Kube ()
  | DeleteVolume (name : string) (preconditions : Preconditions) : Kube ()
  | DeletePod (ns name : string) (preconditions : Preconditions) : Kube ()
  | DeleteNetworkPolicy (ns name : string) (preconditions : Preconditions) : Kube ()
  | ApplyObject (kind : Kind) (ns : option string) (name manager : string) (object : Value) : Kube ()
  | DeleteObject (kind : Kind) (ns : option string) (name : string) (preconditions : Preconditions) : Kube ().

Definition is_write {A} (req : Kube A) : bool :=
  match req with
  | GetClaim _ _ | GetVolume _ | GetStorageClass _ | GetLonghornVolume _ _ | GetPod _ _ | GetNetworkPolicy _ _
  | GetStatefulSet _ _ | ReadStatefulSet _ _ | GetConfigMap _ _ | GetSecret _ _ | ListPods _ _ | GetObject _ _ _ | ListObjects _ _ _ => false
  | _ => true
  end.

(** ** Programs *)
Inductive Prog (A : Type) : Type :=
  | Done (a : A)
  | Ask {B : Type} (req : Kube B) (k : result KubeError B → Prog A).
Arguments Done {A} a.
Arguments Ask {A B} req k.

Fixpoint then_prog {A B} (p : Prog A) (f : A → Prog B) : Prog B :=
  match p with
  | Done a => f a
  | Ask req k => Ask req (λ r, then_prog (k r) f)
  end.

(** A method that may fail, and one that changes a value it is lent. *)
Definition CM (A : Type) : Type := Prog (result string A).
Definition SM (S A : Type) : Type := S → Prog (result string A * S).

#[global] Instance cm_ret : MRet CM := λ A a, Done (Ok a).
#[global] Instance cm_bind : MBind CM := λ A B f m,
  then_prog m (λ r, match r with Ok a => f a | Err e => Done (Err e) end).
#[global] Instance sm_ret S : MRet (SM S) := λ A a s, Done (Ok a, s).
#[global] Instance sm_bind S : MBind (SM S) := λ A B f m s,
  then_prog (m s) (λ rs, match rs.1 with Ok a => f a rs.2 | Err e => Done (Err e, rs.2) end).

Definition cm_give {A} (r : result string A) : CM A := Done r.
Definition cm_throw {A} (e : string) : CM A := Done (Err e).
Definition cm_require (b : bool) (e : string) : CM () := cm_give (ensure b e).
Definition cm_some {A} (o : option A) (e : string) : CM A := cm_give (ok_or o e).

Definition sm_lift {S A} (m : CM A) : SM S A := λ s, then_prog m (λ r, Done (r, s)).
Definition sm_get {S} : SM S S := λ s, Done (Ok s, s).
Definition sm_modify {S} (f : S → S) : SM S () := λ s, Done (Ok (), f s).

Definition safe_text (text : string) : string := "Kubernetes storage migration: " +:+ text.
Definition safe_error (e : KubeError) : string := safe_text (ke_text e).

(** [api.get(..).await.map_err(safe_error)?] and the like; [get_opt] takes the
    code 404 for an answer. *)
Definition ask {A} (req : Kube A) : CM A := Ask req (λ r, Done (map_err safe_error r)).
Definition ask_opt {A} (req : Kube A) : CM (option A) :=
  Ask req (λ r, Done (match r with
                      | Ok a => Ok (Some a)
                      | Err e => if not_found e then Ok None else Err (safe_error e)
                      end)).

(** The same with the error as it is; a request whose error is looked at; and one some
    codes of which are taken for success. *)
Definition request {A} (req : Kube A) : CM A := Ask req (λ r, Done (map_err ke_text r)).
Definition request_opt {A} (req : Kube A) : CM (option A) :=
  Ask req (λ r, Done (match r with
                      | Ok a => Ok (Some a)
                      | Err e => if not_found e then Ok None else Err (ke_text e)
                      end)).
Definition attempt {A} (req : Kube A) : CM (result KubeError A) := Ask req (λ r, Done (Ok r)).
Definition request_tolerating (codes : list Z) (req : Kube ()) : CM () :=
  Ask req (λ r, Done (match r with
                      | Ok _ => Ok ()
                      | Err e => if existsb (λ code, bool_decide (ke_code e = Some code)) codes then Ok () else Err (ke_text e)
                      end)).

(** [tokio::try_join!]: two methods at once, the requests of which alternate in any
    order, given by [schedule]; the first error ends both. *)
Fixpoint try_join {A B} (p : CM A) : CM B → list bool → CM (A * B) :=
  fix inner (q : CM B) (schedule : list bool) {struct q} : CM (A * B) :=
    match p, q with
    | Done (Err e), _ => Done (Err e)
    | _, Done (Err e) => Done (Err e)
    | Done (Ok a), Done (Ok b) => Done (Ok (a, b))
    | Done (Ok a), Ask _ k => then_prog q (λ r, Done (pair a <$> r))
    | Ask _ k, Done (Ok b) => then_prog p (λ r, Done ((λ a, (a, b)) <$> r))
    | Ask req k, Ask req' k' =>
        match schedule with
        | false :: schedule => Ask req' (λ r, inner (k' r) schedule)
        | true :: schedule => Ask req (λ r, try_join (k r) q schedule)
        | [] => Ask req (λ r, try_join (k r) q [])
        end
    end.

(** [tokio::join!]: both are run to their end. *)
Fixpoint join {A B} (p : Prog A) : Prog B → list bool → Prog (A * B) :=
  fix inner (q : Prog B) (schedule : list bool) {struct q} : Prog (A * B) :=
    match p, q with
    | Done a, _ => then_prog q (λ b, Done (a, b))
    | _, Done b => then_prog p (λ a, Done (a, b))
    | Ask req k, Ask req' k' =>
        match schedule with
        | false :: schedule => Ask req' (λ r, inner (k' r) schedule)
        | true :: schedule => Ask req (λ r, join (k r) q schedule)
        | [] => Ask req (λ r, join (k r) q [])
        end
    end.

(** ** Servers and runs *)
Class KubeServer (K : Type) := perform : ∀ A, Kube A → K → result KubeError A * K.

(** A request with its answer. *)
Record Event := mkEvent { ev_type : Type; ev_request : Kube ev_type; ev_answer : result KubeError ev_type }.

Section Runs.
Context {K : Type} `{KubeServer K}.

Fixpoint run {A} (p : Prog A) (k : K) : A * K :=
  match p with
  | Done a => (a, k)
  | Ask req f => let '(r, k') := perform _ req k in run (f r) k'
  end.

(** The events of a run. *)
Fixpoint events {A} (p : Prog A) (k : K) : list Event :=
  match p with
  | Done _ => []
  | Ask req f => let '(r, k') := perform _ req k in mkEvent _ req r :: events (f r) k'
  end.

Lemma run_then {A B} (p : Prog A) (f : A → Prog B) k : run (then_prog p f) k = let '(a, k') := run p k in run (f a) k'.
Proof. revert k. induction p as [a|C req g IH]; intros k; cbn; [done|]. destruct (perform _ req k) as [r k']. apply IH. Qed.
End Runs.

(** ** The logic *)
Definition Answered {A} (past : list Event) (req : Kube A) (a : A) : Prop := mkEvent A req (Ok a) ∈ past.
Definition Absent {A} (past : list Event) (req : Kube A) : Prop := ∃ e, not_found e = true ∧ mkEvent A req (Err e) ∈ past.

Section Logic.
(** Which requests are permitted after which events. *)
Context (permitted : list Event → ∀ A, Kube A → Prop).

Fixpoint wp {A} (p : Prog A) (past : list Event) (Q : list Event → A → Prop) : Prop :=
  match p with
  | Done a => Q past a
  | Ask req k => permitted past _ req ∧ ∀ r, wp (k r) (past ++ [mkEvent _ req r]) Q
  end.

(** Every request was permitted when it was made. *)
Definition all_permitted (past evs : list Event) : Prop :=
  ∀ before e after, evs = before ++ e :: after → permitted (past ++ before) _ (ev_request e).

Lemma wp_then {A B} (p : Prog A) (f : A → Prog B) past Q : wp p past (λ past a, wp (f a) past Q) → wp (then_prog p f) past Q.
Proof. revert past. induction p as [a|C req k IH]; intros past; cbn; [done|]. intros [Hp Hk]. split; [done|]. intros r. by apply IH. Qed.

Lemma wp_mono {A} (p : Prog A) past (Q Q' : list Event → A → Prop) :
  wp p past Q → (∀ past' a, past ⊆ past' → Q past' a → Q' past' a) → wp p past Q'.
Proof.
  revert past. induction p as [a|C req k IH]; intros past; cbn; [intros HQ HQQ'; by apply HQQ'|].
  intros [Hp Hk] HQQ'. split; [done|]. intros r. apply (IH r _ (Hk r)). intros past' a Hs. apply HQQ'. set_solver.
Qed.

(** Requests and conditions that what happens elsewhere cannot spoil. *)
Definition monotone {A} (Q : list Event → A → Prop) : Prop := ∀ past past' a, past ⊆ past' → Q past a → Q past' a.

Lemma wp_weaken {A} (p : Prog A) past past' Q :
  (∀ past past' B (req : Kube B), past ⊆ past' → permitted past B req → permitted past' B req) → monotone Q →
  past ⊆ past' → wp p past Q → wp p past' Q.
Proof.
  intros Hmono HQ. revert past past'. induction p as [a|C req k IH]; intros past past' Hs; cbn; [by apply HQ|].
  intros [Hp Hk]. split; [by eapply Hmono|]. intros r. eapply IH; [|apply Hk]. set_solver.
Qed.

Lemma wp_join {A B} (p : Prog A) (q : Prog B) schedule past Q1 Q2 :
  (∀ past past' C (req : Kube C), past ⊆ past' → permitted past C req → permitted past' C req) → monotone Q1 → monotone Q2 →
  wp p past Q1 → wp q past Q2 → wp (join p q schedule) past (λ past' ab, Q1 past' ab.1 ∧ Q2 past' ab.2).
Proof.
  intros Hmono H1 H2. revert q schedule past. induction p as [a|C req k IHp]; intros q.
  - destruct q as [b|D req' k']; intros schedule past Hp Hq; cbn [join]; apply wp_then; (eapply wp_mono; [exact Hq|]);
      intros past' b' Hs Hb; (split; [by eapply H1, Hp|done]).
  - induction q as [b|D req' k' IHq]; intros schedule past Hp Hq.
    + cbn [join]. apply wp_then. eapply wp_mono; [exact Hp|]. intros past' a Hs Ha. split; [done|by eapply H2, Hq].
    + assert (∀ schedule, wp (Ask req (λ r, join (k r) (Ask req' k') schedule)) past (λ past' ab, Q1 past' ab.1 ∧ Q2 past' ab.2)) as Hfirst.
      { intros schedule'. destruct Hp as [Hp Hk]. split; [done|]. intros r. apply IHp; [apply Hk|].
        eapply wp_weaken; [done..| |exact Hq]. set_solver. }
      destruct schedule as [|[] schedule]; [apply Hfirst..|]. cbn [join]. destruct Hq as [Hq Hk]. split; [done|].
      intros r. apply IHq; [|apply Hk]. eapply wp_weaken; [done..| |exact Hp]. set_solver.
Qed.

Theorem wp_run {K} `{KubeServer K} {A} (p : Prog A) past Q (k : K) : wp p past Q →
  all_permitted past (events p k) ∧ Q (past ++ events p k) (run p k).1.
Proof.
  revert past k. induction p as [a|C req f IH]; intros past k; cbn.
  { intros HQ. rewrite app_nil_r. split; [|done]. intros before e after E. by destruct before. }
  intros [Hp Hf]. destruct (perform _ req k) as [r k'] eqn:Er. destruct (IH r (past ++ [mkEvent _ req r]) k' (Hf r)) as [Hall HQ].
  rewrite <-app_assoc in HQ. split; [|done]. intros [|e' before] e after E.
  - injection E as <- _. by rewrite app_nil_r.
  - injection E as <- E. specialize (Hall _ _ _ E). by rewrite <-app_assoc in Hall.
Qed.
End Logic.

(** ** Methods that may fail

    Of a failure nothing more is said than that its requests were permitted. *)
Lemma Answered_mono {A} past past' (req : Kube A) a : Answered past req a → past ⊆ past' → Answered past' req a.
Proof. unfold Answered. set_solver. Qed.
Lemma Absent_mono {A} past past' (req : Kube A) : Absent past req → past ⊆ past' → Absent past' req.
Proof. intros (e & He & Hin) Hs. exists e. split; [done|]. set_solver. Qed.

Section Methods.
Context (permitted : list Event → ∀ A, Kube A → Prop).

Definition cwp {A} (m : CM A) (past : list Event) (Q : list Event → A → Prop) : Prop :=
  wp permitted m past (λ past' r, ∀ a, r = Ok a → Q past' a).

Lemma cwp_bind {A B} (m : CM A) (f : A → CM B) past Q : cwp m past (λ past' a, cwp (f a) past' Q) → cwp (m ≫= f) past Q.
Proof.
  intros Hm. unfold cwp, mbind, cm_bind. apply wp_then. eapply wp_mono; [exact Hm|]. intros past' [a|e] _ HQ; cbn; [by apply HQ|done].
Qed.

Lemma cwp_ret {A} (a : A) past (Q : list Event → A → Prop) : Q past a → cwp (mret a) past Q.
Proof. intros HQ a' [= <-]. done. Qed.
Lemma cwp_give {A} (r : result string A) past (Q : list Event → A → Prop) : (∀ a, r = Ok a → Q past a) → cwp (cm_give r) past Q.
Proof. done. Qed.
Lemma cwp_require b e past (Q : list Event → () → Prop) : (b = true → Q past ()) → cwp (cm_require b e) past Q.
Proof. intros HQ []. destruct b; cbn; [intros _; by apply HQ|done]. Qed.
Lemma cwp_some {A} (o : option A) e past (Q : list Event → A → Prop) : (∀ a, o = Some a → Q past a) → cwp (cm_some o e) past Q.
Proof. intros HQ a. destruct o; cbn; [intros [= <-]; by apply HQ|done]. Qed.

Lemma cwp_ask {A} (req : Kube A) past (Q : list Event → A → Prop) : permitted past A req →
  (∀ a past', past ⊆ past' → Answered past' req a → Q past' a) → cwp (ask req) past Q.
Proof. intros Hp HQ. split; [done|]. intros [a|e] a'; cbn; [|done]. intros [= <-]. apply HQ; unfold Answered; set_solver. Qed.

Lemma cwp_ask_opt {A} (req : Kube A) past (Q : list Event → option A → Prop) : permitted past A req →
  (∀ a past', past ⊆ past' → Answered past' req a → Q past' (Some a)) →
  (∀ past', past ⊆ past' → Absent past' req → Q past' None) → cwp (ask_opt req) past Q.
Proof.
  intros Hp HQ HN. split; [done|]. intros [a|e] o; cbn; [intros [= <-]; apply HQ; unfold Answered; set_solver|].
  destruct (not_found e) eqn:He; [|done]. intros [= <-]. apply HN; [set_solver|]. exists e. set_solver.
Qed.

Lemma cwp_request {A} (req : Kube A) past (Q : list Event → A → Prop) : permitted past A req →
  (∀ a past', past ⊆ past' → Answered past' req a → Q past' a) → cwp (request req) past Q.
Proof. intros Hp HQ. split; [done|]. intros [a|e] a'; cbn; [|done]. intros [= <-]. apply HQ; unfold Answered; set_solver. Qed.

Lemma cwp_request_opt {A} (req : Kube A) past (Q : list Event → option A → Prop) : permitted past A req →
  (∀ a past', past ⊆ past' → Answered past' req a → Q past' (Some a)) →
  (∀ past', past ⊆ past' → Absent past' req → Q past' None) → cwp (request_opt req) past Q.
Proof.
  intros Hp HQ HN. split; [done|]. intros [a|e] o; cbn; [intros [= <-]; apply HQ; unfold Answered; set_solver|].
  destruct (not_found e) eqn:He; [|done]. intros [= <-]. apply HN; [set_solver|]. exists e. set_solver.
Qed.

Lemma cwp_attempt {A} (req : Kube A) past (Q : list Event → result KubeError A → Prop) : permitted past A req →
  (∀ r past', past ⊆ past' → mkEvent A req r ∈ past' → Q past' r) → cwp (attempt req) past Q.
Proof. intros Hp HQ. split; [done|]. intros r r' [= <-]. apply HQ; set_solver. Qed.

Lemma cwp_request_tolerating codes (req : Kube ()) past (Q : list Event → () → Prop) : permitted past () req →
  (∀ past', past ⊆ past' → Q past' ()) → cwp (request_tolerating codes req) past Q.
Proof. intros Hp HQ. split; [done|]. intros r [] _. apply HQ. set_solver. Qed.

(** Two methods at once, if neither spoils what the other relies on. *)
Lemma cwp_try_join {A B} (p : CM A) (q : CM B) schedule past Q1 Q2 :
  (∀ past past' C (req : Kube C), past ⊆ past' → permitted past C req → permitted past' C req) → monotone Q1 → monotone Q2 →
  cwp p past Q1 → cwp q past Q2 → cwp (try_join p q schedule) past (λ past' ab, Q1 past' ab.1 ∧ Q2 past' ab.2).
Proof.
  intros Hmono H1 H2. assert (monotone (λ past' (r : result string A), ∀ a, r = Ok a → Q1 past' a)) as M1.
  { intros past0 past1 r Hs Hr a Ha. eapply H1; [done|auto]. }
  assert (monotone (λ past' (r : result string B), ∀ b, r = Ok b → Q2 past' b)) as M2.
  { intros past0 past1 r Hs Hr b Hb. eapply H2; [done|auto]. }
  unfold cwp. revert q schedule past. induction p as [[a|e]|C req k IHp]; intros q.
  - destruct q as [[b|e]|D req' k']; intros schedule past Hp Hq.
    + intros ab [= <-]. split; [by apply Hp|by apply Hq].
    + done.
    + cbn [try_join]. apply wp_then. eapply wp_mono; [exact Hq|]. intros past' [b|e] Hs Hb; [|done].
      intros ab [= <-]. split; [by eapply H1, Hp|by apply Hb].
  - intros schedule past _ _. by destruct q as [[]|].
  - induction q as [[b|e]|D req' k' IHq]; intros schedule past Hp Hq.
    + cbn [try_join]. apply wp_then. eapply wp_mono; [exact Hp|]. intros past' [a|e] Hs Ha; [|done].
      intros ab [= <-]. split; [by apply Ha|by eapply H2, Hq].
    + done.
    + assert (∀ schedule, wp permitted (Ask req (λ r, try_join (k r) (Ask req' k') schedule)) past
                (λ past' r, ∀ ab, r = Ok ab → Q1 past' ab.1 ∧ Q2 past' ab.2)) as Hfirst.
      { intros schedule'. destruct Hp as [Hp Hk]. split; [done|]. intros r. apply IHp; [apply Hk|].
        eapply wp_weaken; [done..| |exact Hq]. set_solver. }
      destruct schedule as [|[] schedule]; [apply Hfirst..|]. cbn [try_join]. destruct Hq as [Hq Hk]. split; [done|].
      intros r. apply IHq; [|apply Hk]. eapply wp_weaken; [done..| |exact Hp]. set_solver.
Qed.

Lemma cwp_mono {A} (m : CM A) past (Q Q' : list Event → A → Prop) :
  cwp m past Q → (∀ past' a, past ⊆ past' → Q past' a → Q' past' a) → cwp m past Q'.
Proof. intros Hm HQ. eapply wp_mono; [exact Hm|]. intros past' r Hs Hr a ->. apply HQ; auto. Qed.

(** A method with a known outcome, and what follows. *)
Lemma cwp_seq {A B} (m : CM A) (f : A → CM B) past R Q :
  cwp m past R → (∀ past' a, past ⊆ past' → R past' a → cwp (f a) past' Q) → cwp (m ≫= f) past Q.
Proof. intros Hm Hf. apply cwp_bind. by eapply cwp_mono. Qed.

(** Methods that change a value they are lent. *)
Definition swp {S A} (m : SM S A) (s : S) (past : list Event) (Q : list Event → A → S → Prop) : Prop :=
  wp permitted (m s) past (λ past' rs, ∀ a, rs.1 = Ok a → Q past' a rs.2).

Lemma swp_bind {S A B} (m : SM S A) (f : A → SM S B) s past Q : swp m s past (λ past' a s', swp (f a) s' past' Q) → swp (m ≫= f) s past Q.
Proof.
  intros Hm. unfold swp, mbind, sm_bind. apply wp_then. eapply wp_mono; [exact Hm|].
  intros past' [[a|e] s'] _ HQ; cbn in *; [by apply HQ|done].
Qed.
Lemma swp_lift {S A} (m : CM A) (s : S) past (Q : list Event → A → S → Prop) : cwp m past (λ past' a, Q past' a s) → swp (sm_lift m) s past Q.
Proof. intros Hm. apply wp_then. eapply wp_mono; [exact Hm|]. intros past' r _ Hr a. cbn. apply Hr. Qed.
Lemma swp_ret {S A} (a : A) (s : S) past (Q : list Event → A → S → Prop) : Q past a s → swp (mret a) s past Q.
Proof. intros HQ a' [= <-]. done. Qed.
Lemma swp_get {S} (s : S) past (Q : list Event → S → S → Prop) : Q past s s → swp sm_get s past Q.
Proof. intros HQ a' [= <-]. done. Qed.
Lemma swp_modify {S} (f : S → S) (s : S) past (Q : list Event → () → S → Prop) : Q past () (f s) → swp (sm_modify f) s past Q.
Proof. intros HQ a' [= <-]. done. Qed.

Lemma cwp_run {K} `{KubeServer K} {A} (m : CM A) Q (k : K) : cwp m [] Q →
  all_permitted permitted [] (events m k) ∧ ∀ a, (run m k).1 = Ok a → Q (events m k) a.
Proof. exact (wp_run permitted m [] _ k). Qed.
Lemma swp_run {K} `{KubeServer K} {S A} (m : SM S A) (s : S) Q (k : K) : swp m s [] Q →
  all_permitted permitted [] (events (m s) k) ∧ ∀ a, (run (m s) k).1.1 = Ok a → Q (events (m s) k) a (run (m s) k).1.2.
Proof. exact (wp_run permitted (m s) [] _ k). Qed.
End Methods.

(** Later, all that was answered before still holds. *)
Ltac remember_answers Hs :=
  lazymatch type of Hs with
  | ?past ⊆ ?past' =>
      repeat match goal with
      | H : Answered past _ _ |- _ => apply (λ x, Answered_mono _ _ _ _ x Hs) in H
      | H : Absent past _ |- _ => apply (λ x, Absent_mono _ _ _ x Hs) in H
      end
  end.

(** One statement of a method. *)
Ltac cm_step :=
  lazymatch goal with
  | |- cwp _ (_ ≫= _) _ _ => apply cwp_bind; cm_step
  | |- swp _ (_ ≫= _) _ _ _ => apply swp_bind; cm_step
  | |- swp _ (sm_lift _) _ _ _ => apply swp_lift; cm_step
  | |- swp _ (mret _) _ _ _ => apply swp_ret
  | |- swp _ sm_get _ _ _ => apply swp_get
  | |- swp _ (sm_modify _) _ _ _ => apply swp_modify
  | |- cwp _ (mret _) _ _ => apply cwp_ret
  | |- cwp _ (cm_give _) _ _ => apply cwp_give; let a := fresh "a" in let Hg := fresh "Hgive" in intros a Hg
  | |- cwp _ (cm_require _ _) _ _ => apply cwp_require; let Hr := fresh "Hreq" in intros Hr
  | |- cwp _ (cm_some _ _) _ _ => apply cwp_some; let a := fresh "a" in let Hg := fresh "Hsome" in intros a Hg
  | |- cwp _ (cm_throw _) _ _ => let a := fresh "a" in let Hg := fresh in intros a Hg; discriminate
  | |- cwp _ (ask _) _ _ =>
      apply cwp_ask; [|let a := fresh "a" in let past := fresh "past" in let Hs := fresh "Hs" in let Ha := fresh "Hans" in
                       intros a past Hs Ha; remember_answers Hs]
  | |- cwp _ (request _) _ _ =>
      apply cwp_request; [|let a := fresh "a" in let past := fresh "past" in let Hs := fresh "Hs" in let Ha := fresh "Hans" in
                           intros a past Hs Ha; remember_answers Hs]
  | |- cwp _ (request_opt _) _ _ =>
      apply cwp_request_opt; [|let a := fresh "a" in let past := fresh "past" in let Hs := fresh "Hs" in let Ha := fresh "Hans" in
                               intros a past Hs Ha; remember_answers Hs
                              |let past := fresh "past" in let Hs := fresh "Hs" in let Ha := fresh "Hans" in
                               intros past Hs Ha; remember_answers Hs]
  | |- cwp _ (request_tolerating _ _) _ _ =>
      apply cwp_request_tolerating; [|let past := fresh "past" in let Hs := fresh "Hs" in intros past Hs; remember_answers Hs]
  | |- cwp _ (ask_opt _) _ _ =>
      apply cwp_ask_opt; [|let a := fresh "a" in let past := fresh "past" in let Hs := fresh "Hs" in let Ha := fresh "Hans" in
                           intros a past Hs Ha; remember_answers Hs
                          |let past := fresh "past" in let Hs := fresh "Hs" in let Ha := fresh "Hans" in
                           intros past Hs Ha; remember_answers Hs]
  end.

(** Programs that may read whatever they like. *)
Class ReadsPermitted (permitted : list Event → ∀ A, Kube A → Prop) : Prop :=
  reads_permitted past A (req : Kube A) : is_write req = false → permitted past A req.

(** Writes that [P] permits. *)
Definition writes (P : list Event → ∀ A, Kube A → Prop) : list Event → ∀ A, Kube A → Prop :=
  λ past A req, is_write req = true → P past A req.
#[global] Instance writes_reads P : ReadsPermitted (writes P).
Proof. intros past A req Hr Hw. congruence. Qed.
Lemma writes_monotone (P : list Event → ∀ A, Kube A → Prop) :
  (∀ past past' A (req : Kube A), past ⊆ past' → P past A req → P past' A req) →
  ∀ past past' A (req : Kube A), past ⊆ past' → writes P past A req → writes P past' A req.
Proof. intros HP past past' A req Hs Hw Hr. eapply HP; [done|by apply Hw]. Qed.
