(* ===== verification/Gateway.v ===== *)
(** * Browser access: port mappings and the web shell ([src/api/port_mappings.rs],
    [src/api/port_mappings/auth.rs], [src/api/web_shell.rs])

    A user opens a published port or the web shell with a one-time ticket. The
    gateway asks the service about every request it forwards: the ticket of a port
    mapping is exchanged against a session cookie, the ticket of the web shell lets
    one WebSocket through. *)
From S2P Require Import Prelude Text Json Auth Quota Templates Workspaces Errors ShrinkOperation RuntimeEvents Quantity Net Database WorkspaceStore JobStore Events JobQueue WorkspaceActions ShrinkStore Reconcile Injections Catalog Idempotency Crypto InjectionStore Creation WorkspaceUpdates Identity ApiKeys Tickets Names Config SshStore Api SshApi WorkspaceResponse WorkspaceApi AuditStore.

(** ** Port mappings of a workspace *)
Record CreatePortMappingRequest := mkCreateMapping { cm_internal_port : Z; cm_display_name : option string }.

Inductive PortMappingPurpose := UserPurpose | DesktopPurpose.
#[global] Instance purpose_eq_dec : EqDecision PortMappingPurpose. Proof. solve_decision. Defined.

Record PortMappingResponse := mkMappingResponse {
  mr_id : Uuid;
  mr_internal_port : Z;
  mr_display_name : option string;
  mr_status : string;
  mr_managed : bool;
  mr_purpose : PortMappingPurpose;
  mr_https_url : string;
  mr_created_at : Z;
}.

Record OpenPortMappingResponse := mkOpenResponse { or_bootstrap_url : string; or_expires_at : Z }.

Record WebShellTicketResponse := mkShellResponse { sr_issued : IssuedWebShellTicket; sr_web_shell_url : string }.

(** The thirty-two bytes [getrandom] gives for a session. *)
Class SessionRandom (K : Type) := session_bytes : K → option Octets * K.

Definition SESSION_TTL_SECONDS : Z := 8 * 60 * 60.
Definition COOKIE : string := "__Host-mwc-port-session".
Definition TICKET_TTL_SECONDS : Z := 60.

(** ** Text *)
Definition find_map {A B} (f : A → option B) (l : list A) : option B := head (omap f l).
Definition c_question : Z := 63.
Definition c_ampersand : Z := 38.
Definition c_equals : Z := 61.
Definition c_semicolon : Z := 59.

(** [str::trim_end_matches] and [str::trim_matches] of a character. *)
Fixpoint trim_start_matches (c : Z) (bs : list Z) : list Z :=
  match bs with
  | b :: bs' => if b =? c then trim_start_matches c bs' else bs
  | [] => []
  end.
Definition trim_end_matches (c : Z) (bs : list Z) : list Z := reverse (trim_start_matches c (reverse bs)).
Definition trim_matches (c : Z) (bs : list Z) : list Z := trim_end_matches c (trim_start_matches c bs).

Definition ticket_from_uri (uri : string) : option string :=
  parts ← split_once [c_question] (bytes uri);
  find_map (λ part, '(k, v) ← split_once [c_equals] part;
                    if bool_decide (k = bytes "ticket") && negb (bool_decide (v = [])) then Some (string_of_bytes v) else None)
    (split_on c_ampersand parts.2).

Definition cookie (headers : HeaderMap) (wanted : string) : option string :=
  value ← header_str headers "cookie";
  find_map (λ part, string_of_bytes <$> strip_prefix (bytes (wanted +:+ "=")) (trim part)) (split_on c_semicolon (bytes value)).

Definition forwarded_uri (headers : HeaderMap) : option string := header_str headers "x-forwarded-uri".

(** A forwarded host that is not text does not give way to [Host]. *)
Definition request_host (headers : HeaderMap) : option string :=
  if is_some (headers !! "x-forwarded-host") then header_str headers "x-forwarded-host" else header_str headers "host".

(** [uri] up to its query. *)
Definition uri_path (uri : string) : list Z :=
  match split_once [c_question] (bytes uri) with Some (path, _) => path | None => bytes uri end.

Definition is_ttyd_websocket_uri (uri : string) : bool :=
  is_some (strip_suffix (bytes "/ws") (trim_end_matches c_slash (uri_path uri))).

(** Sixteen hexadecimal digits are among the short ids the route admits. *)
Definition route_short_id (short_id : list Z) : bool :=
  negb (bool_decide (short_id = [])) && (Z.of_nat (length short_id) <=? 40)
  && forallb (λ b, is_ascii_lowercase b || is_ascii_digit b) short_id
  && starts_with is_ascii_alphanumeric short_id && ends_with is_ascii_alphanumeric short_id.

Definition workspace_short_id_from_uri (uri inst : string) : option string :=
  match split_on c_slash (trim_matches c_slash (uri_path uri)) with
  | first :: route_key :: _ =>
      if bool_decide (first = bytes "shell") then
        short_id ← strip_prefix (bytes (inst +:+ "-")) route_key;
        if route_short_id short_id then Some (string_of_bytes short_id) else None
      else None
  | _ => None
  end.

(** [HeaderValue::from_str]. *)
Definition header_value (s : string) : option string :=
  if forallb (λ b, (32 <=? b) && negb (b =? 127) || (b =? 9)) (bytes s) then Some s else None.

Definition empty_response (status : Z) (headers : list (string * string)) : Response := mkResponse status "" headers "".

Section Gateway.
Context {K : Type} `{ApiHost K} `{ApiCluster K} `{SessionRandom K} `{UuidText} `{TokenHash} `{RequestHash} `{Sha256} `{UrlBase64} `{RandomSource}.
Context `{!ResponseJson PortMappingResponse}.

(** ** The handlers of port mappings *)
Definition may_connect (actor : Principal) (w : Workspace) : bool :=
  negb (negb (principal_allows actor ConnectWorkspace (ws_organization_id w)) || negb (may_access_workspace_template actor (ws_template_id w))).

Definition purpose_for (w : Workspace) (m : PortMapping) : PortMappingPurpose :=
  if is_desktop_mapping w m then DesktopPurpose else UserPurpose.

Definition mapping_response (st : AppState) (m : PortMapping) (status : string) (purpose : PortMappingPurpose)
    : result ApiError.t PortMappingResponse :=
  url ← mapping_origin st m;
  Ok (mkMappingResponse (mp_id m) (mp_internal_port m) (mp_display_name m) status (bool_decide (purpose = DesktopPurpose)) purpose url
        (mp_created_at m)).

Definition enqueue_reconcile (st : AppState) (workspace_id : Uuid) (generation now : Z) : ApiM K () :=
  _ ← call (enqueue_job (st_installation_id st)
              (mkNewJob "reconcile_workspace" (Some workspace_id) (json_object [("generation", Number generation)]) now) now);
  mret ().

(** What the four handlers begin with. *)
Definition connecting (st : AppState) (headers : HeaderMap) (workspace_id : Uuid) : ApiM K (Principal * Workspace) :=
  actor ← principal st headers;
  w ← call (get_workspace (st_installation_id st) workspace_id);
  _ ← require (may_connect actor w) ApiError.Forbidden;
  mret (actor, w).

Fixpoint mapping_responses (st : AppState) (w : Workspace) (ms : list PortMapping) : ApiM K (list PortMappingResponse) :=
  match ms with
  | [] => mret []
  | m :: ms =>
      status ← mapping_status st w m;
      response ← answer (mapping_response st m status (purpose_for w m));
      rest ← mapping_responses st w ms;
      mret (response :: rest)
  end.

Definition list_mappings_handler (st : AppState) (headers : HeaderMap) (workspace_id : Uuid) : ApiM K (list PortMappingResponse) :=
  '(_, w) ← connecting st headers workspace_id;
  mappings ← call (list_port_mappings (st_installation_id st) workspace_id);
  mapping_responses st w mappings.

Definition mapping_created (st : AppState) (actor : Principal) (w : Workspace) (request : CreatePortMappingRequest) (now : Z)
    : ApiM K PortMappingResponse :=
  let inst := st_installation_id st in
  m ← call (create_port_mapping inst (ws_organization_id w) (ws_id w) (cm_internal_port request) (cm_display_name request)
              (pr_user_id actor) now);
  _ ← enqueue_reconcile st (ws_id w) (ws_generation w) now;
  _ ← call (record_audit inst (Some (pr_user_id actor)) (Some (ws_organization_id w)) (Some (ws_id w)) "workspace.port_mapping.create"
              (json_object [("mapping_id", Str (uuid_to_string (mp_id m))); ("internal_port", Number (mp_internal_port m))]) now);
  answer (mapping_response st m "provisioning" UserPurpose).

Definition create_mapping_handler (st : AppState) (headers : HeaderMap) (workspace_id : Uuid) (request : CreatePortMappingRequest)
    : ApiM K Response :=
  _ ← answer (map_err (λ _, ApiError.BadRequest "port is not an allowed workspace HTTP port") (validate_http_port (cm_internal_port request)));
  '(actor, w) ← connecting st headers workspace_id;
  _ ← require (bool_decide (ws_state w = Ready)) ApiError.WorkspaceNotConnectable;
  _ ← require (negb (is_some_and (desktop (ws_template w)) (λ d, internal_port d =? cm_internal_port request)))
        (ApiError.BadRequest "the template-owned desktop port mapping cannot be created by users");
  _ ← answer (mapping_domain st);
  now ← api_timestamp;
  key ← answer (idempotency_key headers);
  request_hash ← answer (hash (json_object [("internal_port", Number (cm_internal_port request));
                                           ("display_name", string_or_null (cm_display_name request))]));
  let scope := uuid_to_string (pr_user_id actor) +:+ ":" +:+ uuid_to_string workspace_id +:+ ":create-port-mapping" in
  idempotently st scope key request_hash now (mapping_created st actor w request now)
    (λ response,
       body ← answer (ok_or (response_json response) (ApiError.BadRequest "response serialization failed"));
       _ ← call (finish_idempotency (st_installation_id st) (mkCompletion scope key request_hash 201 body));
       mret (json_response 201 body)).

Definition bootstrap_path (ticket : string) : string := "/_mwc/bootstrap?ticket=" +:+ ticket.

Definition open_mapping_handler (st : AppState) (headers : HeaderMap) (workspace_id mapping_id : Uuid) : ApiM K OpenPortMappingResponse :=
  '(actor, w) ← connecting st headers workspace_id;
  _ ← require (bool_decide (ws_state w = Ready)) ApiError.WorkspaceNotConnectable;
  m ← call (get_port_mapping (st_installation_id st) mapping_id);
  _ ← require (bool_decide (mp_workspace_id m = ws_id w)) ApiError.Forbidden;
  now ← api_timestamp;
  issued ← call (issue_port_mapping_ticket (st_installation_id st) (mp_id m) (pr_user_id actor) now);
  origin ← answer (mapping_origin st m);
  mret (mkOpenResponse (origin +:+ bootstrap_path (ip_ticket issued)) (ip_expires_at issued)).

Definition delete_mapping_handler (st : AppState) (headers : HeaderMap) (workspace_id mapping_id : Uuid) : ApiM K Z :=
  '(actor, w) ← connecting st headers workspace_id;
  m ← call (get_port_mapping (st_installation_id st) mapping_id);
  _ ← require (negb (is_desktop_mapping w m)) (ApiError.BadRequest "the template-owned desktop port mapping cannot be deleted by users");
  now ← api_timestamp;
  deleted ← call (delete_port_mapping (st_installation_id st) workspace_id mapping_id);
  _ ← require deleted (ApiError.Storage StorageError.PortMappingNotFound);
  _ ← enqueue_reconcile st (ws_id w) (ws_generation w) now;
  _ ← call (record_audit (st_installation_id st) (Some (pr_user_id actor)) (Some (ws_organization_id w)) (Some (ws_id w))
              "workspace.port_mapping.delete" (json_object [("mapping_id", Str (uuid_to_string mapping_id))]) now);
  mret 204.

(** ** What the gateway asks about a port mapping *)
Definition verify_gateway (st : AppState) (headers : HeaderMap) : result ApiError.t () :=
  ensure (web_shell_internal_caller_allowed st (bearer headers)) ApiError.Unauthorized.

Definition mapping_id_from_host (st : AppState) (headers : HeaderMap) : result ApiError.t Uuid :=
  host ← ok_or (request_host headers) ApiError.Unauthorized;
  suffix ← ok_or (st_port_mapping_public_domain st) ApiError.Unauthorized;
  let hostname := match split_once [c_colon] (trim_end_matches c_dot (bytes host)) with
                  | Some (hostname, _) => hostname
                  | None => bytes host
                  end in
  let normalized := map ascii_lower hostname in
  value ← ok_or (strip_suffix (bytes ("." +:+ suffix)) (trim_end_matches c_dot normalized) ≫= strip_prefix (bytes "p-"))
            ApiError.Unauthorized;
  ok_or (uuid_parse_str (string_of_bytes value)) ApiError.Unauthorized.

Definition session_cookie (session : string) : string :=
  COOKIE +:+ "=" +:+ session +:+ "; Path=/; Max-Age=28800; HttpOnly; Secure; SameSite=Lax".

Definition exchange_ticket (st : AppState) (mapping_id : Uuid) (ticket : string) (now : Z) : ApiM K Response :=
  bs ← outside session_bytes;
  bs ← answer (ok_or bs ApiError.Unauthorized);
  let session := url_encode bs in
  expires_at ← answer (ok_or (checked_add_i64 now SESSION_TTL_SECONDS) ApiError.Unauthorized);
  exchanged ← call (exchange_port_mapping_ticket (st_installation_id st) mapping_id ticket (hash_token session) now expires_at);
  _ ← require (is_some exchanged) ApiError.Unauthorized;
  cookie ← answer (ok_or (header_value (session_cookie session)) ApiError.Unauthorized);
  mret (empty_response 303 [("set-cookie", cookie); ("location", "/")]).

(** [.map_err(|_| ApiError::Unauthorized)]. *)
Definition or_unauthorized {A} (m : ApiM K A) : ApiM K A :=
  r ← attempt m; answer (map_err (λ _, ApiError.Unauthorized) r).

Definition bootstrap_ticket (headers : HeaderMap) : option string :=
  uri ← forwarded_uri headers;
  if str_starts_with "/_mwc/bootstrap?" uri then ticket_from_uri uri else None.

(** The session of the cookie, if there is one. *)
Definition session_check (st : AppState) (headers : HeaderMap) (mapping_id : Uuid) (now : Z) : ApiM K bool :=
  match cookie headers COOKIE with
  | Some session => call (port_mapping_session_valid (st_installation_id st) mapping_id (hash_token session) now)
  | None => mret false
  end.

Definition authorize_port (st : AppState) (headers : HeaderMap) : ApiM K Response :=
  _ ← answer (verify_gateway st headers);
  mapping_id ← answer (mapping_id_from_host st headers);
  m ← or_unauthorized (call (get_port_mapping (st_installation_id st) mapping_id));
  w ← or_unauthorized (call (get_workspace (st_installation_id st) (mp_workspace_id m)));
  _ ← require (bool_decide (ws_state w = Ready)) ApiError.Unauthorized;
  now ← api_timestamp;
  valid ← session_check st headers mapping_id now;
  if (valid : bool) then mret (empty_response 200 [])
  else match bootstrap_ticket headers with
       | Some ticket => exchange_ticket st mapping_id ticket now
       | None => throw ApiError.Unauthorized
       end.

(** ** The web shell *)
Definition issue_shell_handler (st : AppState) (headers : HeaderMap) (workspace_id : Uuid) : ApiM K (Z * WebShellTicketResponse) :=
  '(actor, w) ← connecting st headers workspace_id;
  _ ← require (bool_decide (ws_state w = Ready)) ApiError.WorkspaceNotConnectable;
  now ← api_timestamp;
  issued ← call (issue_web_shell_ticket (st_installation_id st) (ws_organization_id w) (ws_id w) (pr_user_id actor) now TICKET_TTL_SECONDS);
  names ← answer (runtime_names st w);
  let path := web_shell_path names +:+ "?ticket=" +:+ iw_ticket issued in
  mret (201, mkShellResponse issued (default "" (st_web_shell_public_origin st) +:+ path)).

Definition shell_workspace (st : AppState) (headers : HeaderMap) : ApiM K Uuid :=
  match header_str headers "x-mwc-workspace-id" with
  | Some value => answer (ok_or (uuid_parse_str value) ApiError.Unauthorized)
  | None =>
      short_id ← answer (ok_or (forwarded_uri headers ≫= λ uri, workspace_short_id_from_uri uri (st_installation_id st)) ApiError.Unauthorized);
      w ← call (get_workspace_by_short_id (st_installation_id st) short_id);
      mret (ws_id w)
  end.

Definition shell_ticket (headers : HeaderMap) : option string :=
  match header_str headers "x-mwc-web-shell-ticket" with
  | Some ticket => Some ticket
  | None => uri ← forwarded_uri headers; ticket_from_uri uri
  end.

Definition authorize_shell (st : AppState) (headers : HeaderMap) : ApiM K Response :=
  _ ← answer (verify_gateway st headers);
  if negb (is_some_and (forwarded_uri headers) is_ttyd_websocket_uri) then mret (empty_response 200 [])
  else
    workspace_id ← shell_workspace st headers;
    ticket ← answer (ok_or (shell_ticket headers) ApiError.Unauthorized);
    now ← api_timestamp;
    identity ← call (consume_web_shell_ticket (st_installation_id st) ticket workspace_id now);
    identity ← answer (ok_or identity ApiError.Unauthorized);
    w ← call (get_workspace (st_installation_id st) workspace_id);
    _ ← require (negb (negb (bool_decide (ws_state w = Ready)) || negb (bool_decide (ws_organization_id w = wi_organization_id identity))))
          ApiError.Unauthorized;
    user ← answer (ok_or (header_value (uuid_to_string (wi_user_id identity))) ApiError.Unauthorized);
    workspace ← answer (ok_or (header_value (uuid_to_string (wi_workspace_id identity))) ApiError.Unauthorized);
    mret (empty_response 200 [("x-mwc-user-id", user); ("x-mwc-workspace-id", workspace)]).
End Gateway.

(** ** Reading what was written *)
Lemma trim_end_keep c bs : last bs ≠ Some c → trim_end_matches c bs = bs.
Proof.
  unfold trim_end_matches. intros Hl. rewrite <-(reverse_involutive bs) in Hl. rewrite last_reverse in Hl.
  rewrite <-(reverse_involutive bs) at 2. f_equal. destruct (reverse bs) as [|b l]; [done|]. cbn in *.
  destruct (Z.eqb_spec b c) as [->|]; [done|done].
Qed.

Lemma split_once_absent c bs : c ∉ bs → split_once [c] bs = None.
Proof.
  induction bs as [|b bs IH]; [done|]. intros Hb. cbn. rewrite elem_of_cons in Hb. destruct (Z.eqb_spec c b); [naive_solver|].
  rewrite IH by naive_solver. done.
Qed.

Lemma split_once_first c l r : c ∉ l → split_once [c] (l ++ c :: r) = Some (l, r).
Proof.
  induction l as [|b l IH]; intros Hl; cbn; [by rewrite Z.eqb_refl|]. rewrite elem_of_cons in Hl. destruct (Z.eqb_spec c b); [naive_solver|].
  by rewrite IH by naive_solver.
Qed.

Lemma split_on_absent c bs : c ∉ bs → split_on c bs = [bs].
Proof.
  induction bs as [|b bs IH]; [done|]. intros Hb. cbn. rewrite elem_of_cons in Hb. destruct (Z.eqb_spec b c); [naive_solver|].
  by rewrite IH by naive_solver.
Qed.

Lemma class_absent (p : Z → bool) bs c : forallb p bs = true → p c = false → c ∉ bs.
Proof. intros Hp Hc Hin. rewrite (forallb_elem _ _ _ Hp Hin) in Hc. done. Qed.

(** The characters of a ticket, and what is visible in a header. *)
Definition url_byte (b : Z) : bool := is_ascii_alphanumeric b || (b =? c_dash) || (b =? c_underscore).
Definition visible (b : Z) : bool := in_range 32 126 b || (b =? 9).
Definition printed (b : Z) : bool := in_range 33 126 b.

Class UrlAlphabet `{UrlBase64} : Prop := url_alphabet bs : forallb url_byte (bytes (url_encode bs)) = true.
Class UuidSimpleLaws `{UuidText} : Prop := {
  uuid_parse_simple u : uuid_parse_str (uuid_simple u) = Some u;
  uuid_simple_alphabet u : forallb label_edge (bytes (uuid_simple u)) = true;
}.

Lemma forallb_weaken (p q : Z → bool) bs : (∀ b, p b = true → q b = true) → forallb p bs = true → forallb q bs = true.
Proof. intros Hpq. rewrite !forallb_forall. naive_solver. Qed.

Lemma url_byte_printed b : url_byte b = true → printed b = true.
Proof. unfold url_byte, printed, is_ascii_alphanumeric, is_ascii_alphabetic, is_ascii_lowercase, is_ascii_uppercase, is_ascii_digit, in_range, c_dash, c_underscore. bool_prop. lia. Qed.
Lemma host_char_printed b : host_char b = true → printed b = true.
Proof. unfold host_char, printed, is_ascii_lowercase, is_ascii_digit, in_range, c_dash, c_dot. bool_prop. lia. Qed.
Lemma label_edge_host b : label_edge b = true → host_char b = true.
Proof. unfold host_char, label_edge. by intros ->. Qed.
Lemma printed_visible b : printed b = true → visible b = true.
Proof. unfold printed, visible, in_range. bool_prop. lia. Qed.

Lemma header_insert (headers : HeaderMap) name value : forallb printed (bytes value) = true →
  header_str (<[name := value]> headers) name = Some value.
Proof.
  intros Hv. apply (forallb_weaken _ _ _ printed_visible) in Hv. unfold header_str.
  setoid_rewrite (lookup_insert_eq (M := gmap string) headers). unfold visible in Hv. cbn. by rewrite Hv.
Qed.
Lemma header_other (headers : HeaderMap) name other value : name ≠ other →
  header_str (<[other := value]> headers) name = header_str headers name.
Proof. intros Hne. unfold header_str. by setoid_rewrite (lookup_insert_ne (M := gmap string) headers). Qed.

(** *** Addresses of mappings *)
Section Hosts.
Context `{UuidSimpleLaws}.

Definition mapping_host (id : Uuid) (domain : string) : string := "p-" +:+ uuid_simple id +:+ "." +:+ domain.

Definition domain_ok (domain : string) : Prop := forallb host_char (bytes domain) = true ∧ last (bytes domain) ≠ Some c_dot ∧ domain ≠ "".

Lemma valid_domain_ok domain : valid_utf8 (bytes domain) = true → valid_port_mapping_domain domain = true → domain_ok domain.
Proof.
  intros Hu (_ & Hne & Hall & He)%valid_domain_parts. unfold chars in *.
  pose proof (ascii_of_decoded _ host_char_small _ _ (le_n _) Hu Hall) as Hb. rewrite (decode_ascii _ host_char_small) in He by done.
  split_and!; [done| |done]. intros Hl. unfold ends_with in He. by rewrite Hl in He.
Qed.

Lemma mapping_host_chars id domain : domain_ok domain → forallb host_char (bytes (mapping_host id domain)) = true.
Proof.
  intros (Hd & _ & _). unfold mapping_host. rewrite !bytes_app, !forallb_app, Hd, (forallb_weaken _ _ _ label_edge_host (uuid_simple_alphabet id)). done.
Qed.

Lemma mapping_host_last id domain : domain_ok domain → last (bytes (mapping_host id domain)) ≠ Some c_dot.
Proof.
  intros (_ & Hl & Hne). unfold mapping_host. rewrite !bytes_app, !last_app. destruct (last (bytes domain)) eqn:E; [done|].
  apply last_None in E. exfalso. apply Hne. by rewrite <-(string_of_bytes_bytes domain), E.
Qed.

Lemma ascii_lower_host b : host_char b = true → ascii_lower b = b.
Proof.
  unfold ascii_lower, host_char, is_ascii_uppercase, is_ascii_lowercase, is_ascii_digit, in_range, c_dot, c_dash.
  destruct ((65 <=? b) && (b <=? 90)) eqn:E; [|done]. bool_prop. lia.
Qed.

Lemma lower_id (p : Z → bool) bs : (∀ b, p b = true → ascii_lower b = b) → forallb p bs = true → map ascii_lower bs = bs.
Proof. intros Hp. induction bs as [|b bs IH]; [done|]. cbn. intros [Hb Hbs]%andb_true_iff. by rewrite Hp, IH. Qed.

(** The address of a mapping names it. *)
Lemma mapping_host_id (st : AppState) headers id domain : domain_ok domain → st_port_mapping_public_domain st = Some domain →
  request_host headers = Some (mapping_host id domain) → mapping_id_from_host st headers = Ok id.
Proof.
  intros Hd Hst Hh. pose proof (mapping_host_chars id domain Hd) as Hc. unfold mapping_id_from_host. rewrite Hh, Hst. cbn [ok_or mbind result_bind].
  rewrite (trim_end_keep c_dot (bytes (mapping_host id domain))) by (by apply mapping_host_last). rewrite split_once_absent by (by eapply class_absent).
  rewrite (lower_id host_char _ ascii_lower_host) by done. rewrite trim_end_keep by (by apply mapping_host_last).
  assert (strip_suffix (bytes ("." +:+ domain)) (bytes (mapping_host id domain)) = Some (bytes ("p-" +:+ uuid_simple id))) as ->.
  { apply strip_suffix_Some. unfold mapping_host. by rewrite !bytes_app, !app_assoc. }
  cbn [mbind option_bind]. assert (strip_prefix (bytes "p-") (bytes ("p-" +:+ uuid_simple id)) = Some (bytes (uuid_simple id))) as ->.
  { apply strip_prefix_Some. by rewrite bytes_app. }
  cbn. by rewrite string_of_bytes_bytes, uuid_parse_simple.
Qed.
End Hosts.

(** *** Tickets and cookies *)
Lemma ticket_of_bootstrap ticket : forallb url_byte (bytes ticket) = true → ticket ≠ "" → ticket_from_uri (bootstrap_path ticket) = Some ticket.
Proof.
  intros Ht Hne. unfold ticket_from_uri, bootstrap_path.
  change "/_mwc/bootstrap?ticket=" with ("/_mwc/bootstrap" +:+ "?" +:+ "ticket="). rewrite !bytes_app, <-!app_assoc.
  change (bytes "?" ++ bytes "ticket=" ++ bytes ticket) with (c_question :: bytes "ticket=" ++ bytes ticket).
  rewrite split_once_first by (by eapply (class_absent (λ b, negb (b =? c_question)))). cbn [mbind option_bind snd].
  rewrite split_on_absent.
  2:{ rewrite elem_of_app. intros [Hin|Hin]; revert Hin; [by eapply (class_absent (λ b, negb (b =? c_ampersand)))|by eapply class_absent]. }
  unfold find_map. cbn [omap list_omap].
  change (bytes "ticket=" ++ bytes ticket) with (bytes "ticket" ++ c_equals :: bytes ticket).
  rewrite split_once_first by (by eapply (class_absent (λ b, negb (b =? c_equals)))). cbn [mbind option_bind].
  rewrite bool_decide_eq_true_2 by done. rewrite bool_decide_eq_false_2.
  - cbn. by rewrite string_of_bytes_bytes.
  - intros E. apply Hne. by rewrite <-(string_of_bytes_bytes ticket), E.
Qed.

Lemma printed_not_space b : printed b = true → is_whitespace b = false.
Proof.
  unfold printed, in_range. bool_prop. intros Hb. unfold is_whitespace, in_range. repeat rewrite orb_false_iff. repeat split; try apply andb_false_iff; try apply Z.eqb_neq; rewrite ?Z.leb_gt; lia.
Qed.

Lemma trim_start_printed bs : forallb printed bs = true → trim_start bs = bs.
Proof. destruct bs as [|b bs]; [done|]. cbn. intros [Hb%printed_not_space _]%andb_true_iff. by rewrite Hb. Qed.

Lemma forallb_reverse (p : Z → bool) bs : forallb p bs = true → forallb p (reverse bs) = true.
Proof. rewrite !forallb_forall. intros Hp b Hb. apply Hp, list_elem_of_In, elem_of_reverse, list_elem_of_In, Hb. Qed.

Lemma trim_printed bs : forallb printed bs = true → trim bs = bs.
Proof.
  intros Hb. unfold trim. rewrite (trim_start_printed bs) by done. rewrite trim_start_printed by (by apply forallb_reverse).
  apply reverse_involutive.
Qed.

Definition cookie_pair (session : string) : string := COOKIE +:+ "=" +:+ session.

Lemma cookie_of_pair (headers : HeaderMap) session : forallb url_byte (bytes session) = true →
  cookie (<["cookie" := cookie_pair session]> headers) COOKIE = Some session.
Proof.
  intros Hs. assert (forallb printed (bytes (cookie_pair session)) = true) as Hp.
  { unfold cookie_pair. by rewrite !bytes_app, !forallb_app, (forallb_weaken _ _ _ url_byte_printed Hs). }
  unfold cookie. rewrite header_insert by done. cbn [mbind option_bind]. rewrite split_on_absent.
  2:{ unfold cookie_pair. rewrite !bytes_app, !elem_of_app. intros [Hin|[Hin|Hin]]; revert Hin;
      [by eapply (class_absent (λ b, negb (b =? c_semicolon)))..|by eapply class_absent]. }
  unfold find_map. cbn [omap list_omap]. rewrite trim_printed by done.
  assert (strip_prefix (bytes (COOKIE +:+ "=")) (bytes (cookie_pair session)) = Some (bytes session)) as ->.
  { apply strip_prefix_Some. unfold cookie_pair. by rewrite !bytes_app, app_assoc. }
  cbn. by rewrite string_of_bytes_bytes.
Qed.

(** The cookie is set as it will come back. *)
Lemma session_cookie_header session : forallb url_byte (bytes session) = true → header_value (session_cookie session) = Some (session_cookie session).
Proof.
  intros Hs. unfold header_value, session_cookie. rewrite !bytes_app, !forallb_app.
  rewrite (forallb_weaken url_byte (λ b, (32 <=? b) && negb (b =? 127) || (b =? 9)) (bytes session)); [done| |done].
  intros b Hb%url_byte_printed. unfold printed, in_range in Hb. bool_prop. lia.
Qed.

(** ** Who is let through *)
#[global] Instance read_only_get_port_mapping inst id : ReadOnly (get_port_mapping inst id).
Proof. unfold get_port_mapping. apply _. Qed.

Section Admission.
Context {K : Type} `{ApiHost K} `{ApiCluster K} `{SessionRandom K} `{UuidText} `{TokenHash} `{Sha256} `{UrlBase64} `{RandomSource}.
Implicit Types (st : AppState) (headers : HeaderMap) (w : World K).

Lemma or_unauthorized_call {A} (m : DbM A) w a w' : or_unauthorized (K := K) (call m) w = (Ok a, w') → m (w_db w) = (Ok a, w_db w').
Proof.
  unfold or_unauthorized, attempt. rewrite api_bind_run. destruct (call m w) as [[b|e] w1] eqn:E; [|done].
  intros [[= ->] <-]%answer_Ok. by apply call_Ok in E.
Qed.

(** The request carries the cookie of a live session of the mapping, of a user who is
    still admitted to it. *)
Definition admitted_by_session inst headers (id : Uuid) (now : Z) (db : Db) : Prop :=
  ∃ session sid row m u, cookie headers COOKIE = Some session ∧ t_port_sessions db !! sid = Some row ∧
    ps_installation_id row = inst ∧ ps_mapping_id row = id ∧ ps_session_hash row = hash_token session ∧
    ps_revoked_at row = None ∧ now <= ps_expires_at row ∧
    t_port_mappings db !! id = Some m ∧ pm_installation_id m = inst ∧ t_users db !! ps_user_id row = Some u ∧ u_disabled u = false ∧
    (u_system_admin u = true ∨ is_Some (t_memberships db !! (inst, pm_organization_id m, ps_user_id row))).

(** It carries an open ticket of the mapping, which is spent for a new session. *)
Definition exchanged_ticket inst headers (id : Uuid) (now : Z) (db db' : Db) (session : string) : Prop :=
  ∃ ticket tid t sid, bootstrap_ticket headers = Some ticket ∧ t_port_tickets db !! tid = Some t ∧
    pt_installation_id t = inst ∧ pt_mapping_id t = id ∧ pt_ticket_hash t = hash_token ticket ∧
    pt_consumed_at t = None ∧ now <= pt_expires_at t ∧
    t_port_tickets db' !! tid = Some (mkPortTicketRow inst id (pt_user_id t) (hash_token ticket) (pt_expires_at t) (Some now) (pt_created_at t)) ∧
    t_port_sessions db' !! sid = Some (mkPortSessionRow inst id (pt_user_id t) (hash_token session) (now + SESSION_TTL_SECONDS) None now).

Lemma session_admits_true inst id sh now db row : session_admits inst id sh now db row = true →
  ps_installation_id row = inst ∧ ps_mapping_id row = id ∧ ps_session_hash row = sh ∧ ps_revoked_at row = None ∧ now <= ps_expires_at row ∧
  ∃ m u, t_port_mappings db !! id = Some m ∧ pm_installation_id m = inst ∧ t_users db !! ps_user_id row = Some u ∧ u_disabled u = false ∧
    (u_system_admin u = true ∨ is_Some (t_memberships db !! (inst, pm_organization_id m, ps_user_id row))).
Proof.
  unfold session_admits. rewrite !andb_true_iff, !String.eqb_eq, bool_decide_eq_true, negb_true_iff, Z.leb_le.
  intros [[[[[Hi Hm] Hh] Hr] He] Hj]. split_and!; try done; [by destruct (ps_revoked_at row)|].
  rewrite Hm in Hj. unfold select_mapping, select_user in Hj. destruct (t_port_mappings db !! id) as [m|]; [|done].
  destruct (String.eqb_spec (pm_installation_id m) inst) as [Hmi|]; [|done].
  cbn [is_some_and] in Hj. destruct (t_users db !! ps_user_id row) as [u|]; [|done]. destruct (String.eqb _ _); [|done].
  cbn [is_some_and] in Hj. apply andb_true_iff in Hj as [Hd%negb_true_iff Ha%orb_true_iff]. exists m, u. split_and!; try done.
  destruct Ha as [Ha|Ha]; [by left|right]. by destruct (t_memberships db !! _).
Qed.

Lemma port_ticket_open_true inst id hash now t : port_ticket_open inst id hash now t = true →
  pt_installation_id t = inst ∧ pt_mapping_id t = id ∧ pt_ticket_hash t = hash ∧ pt_consumed_at t = None ∧ now <= pt_expires_at t.
Proof.
  unfold port_ticket_open. intros [[[[Hi%String.eqb_eq Hm%bool_decide_eq_true]%andb_true_iff Hh%String.eqb_eq]%andb_true_iff Hc]%andb_true_iff He%Z.leb_le]%andb_true_iff.
  split_and!; try done. by destruct (pt_consumed_at t).
Qed.

Lemma exchange_Ok inst mapping ticket sh now expires db sid db' :
  exchange_port_mapping_ticket inst mapping ticket sh now expires db = (Ok (Some sid), db') →
  ∃ tid t, t_port_tickets db !! tid = Some t ∧ port_ticket_open inst mapping (hash_token ticket) now t = true ∧
    t_port_tickets db' !! tid = Some (consume_port_row now t) ∧
    t_port_sessions db' !! sid = Some (mkPortSessionRow inst mapping (pt_user_id t) sh expires None now).
Proof.
  unfold exchange_port_mapping_ticket. destruct (len ticket <? 32); [done|]. intros Hrun. apply bind_run_Ok in Hrun as (id & db1 & Hid & Hrun).
  injection Hid as <- <-. rewrite transaction_Ok in Hrun. apply bind_run_Ok in Hrun as (user & db2 & Hspend & Hrun).
  injection Hspend as <- <-. destruct (List.find _ _) as [[tid t]|] eqn:Hf; [|done]. apply find_map_to_list in Hf as [Ht Ho]. cbn in Ht, Ho.
  cbn [fmap option_fmap option_map] in Hrun. apply bind_run_Ok in Hrun as ([] & db3 & Hins & Hrun). injection Hrun as <- <-.
  unfold insert_session in Hins. run_step Hins. run_step Hins. unfold insert_row in Hins. cbn in Hins.
  destruct (t_port_sessions db !! _) eqn:Hfree; [done|]. injection Hins as <-. exists tid, t. cbn. split_and!; [done..| |apply lookup_insert_eq].
  rewrite lookup_fmap, Ht. cbn. by rewrite Ho.
Qed.

(** The clock shows [now]; what a database call leaves of the outside. *)
Definition clock_shows (k : K) (now : Z) : Prop := (api_clock k).1 = Some now.
Definition after_call (k : K) : K := (api_lost k).2.

Lemma api_timestamp_Ok w now w' : api_timestamp (K := K) w = (Ok now, w') → w_db w' = w_db w ∧ clock_shows (w_k w) now.
Proof.
  unfold api_timestamp, clock_shows. intros Hrun. api_step Hrun. unfold outside in Hy. destruct (api_clock (w_k w)) as [t k]. injection Hy as <- <-.
  api_step Hrun. apply answer_Ok in Hrun as [Hn <-]. apply ok_or_Ok, guard_range_Some in Hn as [-> _]. done.
Qed.

Lemma api_timestamp_db w now w' : api_timestamp (K := K) w = (Ok now, w') → w_db w' = w_db w.
Proof. by intros [? _]%api_timestamp_Ok. Qed.

Lemma or_unauthorized_k {A} (m : DbM A) w r w' : or_unauthorized (K := K) (call m) w = (r, w') → w_k w' = after_call (w_k w).
Proof.
  unfold or_unauthorized, attempt, call, after_call. rewrite api_bind_run. destruct (api_lost (w_k w)) as [[|] k]; [by intros [= _ <-]|].
  destruct (m (w_db w)) as [x db]. by intros [= _ <-].
Qed.

Lemma session_check_Ok st headers id now w valid w' : session_check st headers id now w = (Ok valid, w') →
  w_db w' = w_db w ∧ (valid = true → admitted_by_session (st_installation_id st) headers id now (w_db w)).
Proof.
  unfold session_check. destruct (cookie headers COOKIE) as [session|] eqn:Hc; [|by intros [= <- <-]].
  intros Hrun. apply call_Ok in Hrun. injection Hrun as Hv <-. split; [done|]. intros ->. apply existsb_exists in Hv as ([sid row] & Hin & Ha).
  apply session_admits_true in Ha as (Hi & Hm & Hh & Hr & He & m & u & Hj). exists session, sid, row, m, u.
  split_and!; try done; [by apply elem_of_map_to_list, list_elem_of_In|apply Hj..].
Qed.

Lemma exchange_ticket_Ok st headers id ticket now w response w' : bootstrap_ticket headers = Some ticket →
  exchange_ticket st id ticket now w = (Ok response, w') →
  ∃ session, response = empty_response 303 [("set-cookie", session_cookie session); ("location", "/")] ∧
    exchanged_ticket (st_installation_id st) headers id now (w_db w) (w_db w') session.
Proof.
  intros Ht Hrun. unfold exchange_ticket in Hrun. api_step Hrun. unfold outside in Hy. destruct (session_bytes (w_k w)) as [bs k]. injection Hy as <- <-.
  api_step Hrun. api_step Hrun. apply checked_add_i64_Some in Hy0 as [-> _]. api_step Hrun. api_step Hrun. destruct y0 as [sid|]; [|done].
  api_step Hrun. unfold header_value in Hy2. destruct (forallb _ (bytes _)); [|done]. injection Hy2 as <-. injection Hrun as <- <-.
  eexists. split; [reflexivity|]. apply exchange_Ok in Hy0 as (tid & t & Hrow & Ho & Hspent & Hs). exists ticket, tid, t, sid.
  apply port_ticket_open_true in Ho as (Hi & Hm & Hh & Hc & He). split_and!; try done. rewrite Hspent, <-Hi, <-Hm, <-Hh. done.
Qed.

(** C29: A request passes the gateway of port mappings only for the gateway itself,
    for the mapping its host names and while the mapping's workspace is ready. With
    [now] the time the process's clock shows after the mapping and the workspace were
    read, it passes with the cookie of a session of that mapping which is not revoked
    and has not expired at [now] and whose user is enabled and an administrator or
    member of the organization; or it redeems a ticket of that mapping that is
    neither spent nor expired at [now], which is spent with it and becomes the
    session of the cookie in the response, for eight hours. *)
Theorem gateway_admits st headers w response w' : authorize_port st headers w = (Ok response, w') →
  web_shell_internal_caller_allowed st (bearer headers) = true ∧
  ∃ id m workspace now, mapping_id_from_host st headers = Ok id ∧ get_port_mapping (st_installation_id st) id (w_db w) = (Ok m, w_db w) ∧
    get_workspace (st_installation_id st) (mp_workspace_id m) (w_db w) = (Ok workspace, w_db w) ∧ ws_state workspace = Ready ∧
    clock_shows (after_call (after_call (w_k w))) now ∧
    ((response = empty_response 200 [] ∧ w_db w' = w_db w ∧ admitted_by_session (st_installation_id st) headers id now (w_db w)) ∨
     ∃ session, response = empty_response 303 [("set-cookie", session_cookie session); ("location", "/")] ∧
       exchanged_ticket (st_installation_id st) headers id now (w_db w) (w_db w') session).
Proof.
  intros Hrun. unfold authorize_port in Hrun. api_step Hrun. split; [done|].
  api_step Hrun. rename y into id, Hy0 into Hid. api_step Hrun. rename y into m. apply or_unauthorized_call in Hy0 as Hm.
  apply or_unauthorized_k in Hy0 as K1.
  pose proof (read_only_run _ _ _ _ _ Hm) as E1. api_step Hrun. rename y into workspace. apply or_unauthorized_call in Hy1 as Hws.
  apply or_unauthorized_k in Hy1 as K2. pose proof (read_only_run _ _ _ _ _ Hws) as E2. api_step Hrun. apply bool_decide_eq_true in Hy2.
  rewrite E2 in Hws. rewrite E1 in *. exists id, m, workspace.
  api_step Hrun. rename y into now. apply api_timestamp_Ok in Hy3 as [Hy3 Hclock]. rewrite K2, K1 in Hclock. exists now. split_and!; [done..|].
  api_step Hrun. rename y into valid. apply session_check_Ok in Hy4 as [E4 Hvalid]. rewrite Hy3, E2 in E4, Hvalid. destruct valid.
  - injection Hrun as <- <-. left. split_and!; [done|by rewrite E4|by apply Hvalid].
  - right. destruct (bootstrap_ticket headers) as [ticket|] eqn:Hticket; [|done]. eapply exchange_ticket_Ok in Hrun; [|done].
    by rewrite E4 in Hrun.
Qed.
#[local] Instance short_id_read_only inst short_id : ReadOnly (get_workspace_by_short_id inst short_id).
Proof. unfold get_workspace_by_short_id. apply read_only_bind; [apply _|]. intros [[? ?]|]; apply _. Qed.

Lemma shell_workspace_db st headers w id w' : shell_workspace st headers w = (Ok id, w') → w_db w' = w_db w.
Proof.
  unfold shell_workspace. destruct (header_str _ _); [by intros ->%answer_world|]. intros Hrun. api_step Hrun. api_step Hrun.
  injection Hrun as _ <-. by eapply (read_only_run _ _ _ _ (short_id_read_only _ _)) in Hy0.
Qed.

(** A WebSocket of the web shell is let through for a ticket of its workspace that
    was open and is spent with it, while the workspace is ready; the pages around
    it carry no terminal and pass for the gateway alone. *)
Theorem shell_upgrade_redeems_ticket st headers w response w' : authorize_shell st headers w = (Ok response, w') →
  web_shell_internal_caller_allowed st (bearer headers) = true ∧
  (is_some_and (forwarded_uri headers) is_ttyd_websocket_uri = true →
   ∃ ticket now tid t workspace, shell_ticket headers = Some ticket ∧ t_web_shell_tickets (w_db w) !! tid = Some t ∧
     shell_ticket_open (st_installation_id st) (hash_token ticket) (tk_workspace_id t) now t = true ∧
     t_web_shell_tickets (w_db w') !! tid = Some (consume_shell_row now t) ∧
     get_workspace (st_installation_id st) (tk_workspace_id t) (w_db w') = (Ok workspace, w_db w') ∧
     ws_state workspace = Ready ∧ ws_organization_id workspace = tk_organization_id t).
Proof.
  intros Hrun. unfold authorize_shell in Hrun. api_step Hrun. split; [done|]. intros Hws. rewrite Hws in Hrun. cbn [negb] in Hrun.
  api_step Hrun. rename y into id. apply shell_workspace_db in Hy0 as E1. api_step Hrun. rename y into ticket, Hy1 into Hticket.
  api_step Hrun. rename y into now. apply api_timestamp_db in Hy1 as E2. api_step Hrun. rename Hy2 into Hconsume.
  unfold consume_web_shell_ticket in Hconsume. destruct (len ticket <? 32); [injection Hconsume as <- _; by api_step Hrun|].
  injection Hconsume as <- Edb. api_step Hrun. rename y into identity. apply fmap_Some in Hy2 as ([tid t] & Hf & ->).
  apply find_map_to_list in Hf as [Ht Ho]. cbn in Ht, Ho. api_step Hrun. rename y into workspace. pose proof (read_only_run _ _ _ _ _ Hy2) as E4.
  api_step Hrun. do 2 api_step Hrun. injection Hrun as _ <-. exists ticket, now, tid, t, workspace.
  assert (tk_workspace_id t = id) as Eid by (unfold shell_ticket_open in Ho; bool_prop; tauto). rewrite E2, E1 in Ht, Edb. rewrite E4 in Hy2 |- *.
  apply negb_true_iff, orb_false_iff in Hy3 as [Hr%negb_false_iff%bool_decide_eq_true Horg%negb_false_iff%bool_decide_eq_true].
  rewrite Eid. split_and!; try done. rewrite <-Edb. cbn. rewrite lookup_fmap, Ht. cbn. by rewrite Ho.
Qed.
End Admission.

(** ** From the console to the workspace *)
Section GettingIn.
Context {K : Type} `{ApiHost K} `{ApiCluster K} `{SessionRandom K} `{UuidText} `{TokenHash} `{Sha256} `{UrlBase64} `{RandomSource}.
Context `{!UuidSimpleLaws} `{!UrlBase64Laws} `{!UrlAlphabet} (Hrandom : random_lengths).
Implicit Types (st : AppState) (headers gateway : HeaderMap) (w : World K).

(** What a request may meet: calls that arrive, a clock that shows [now], and
    random bytes. *)
Definition host_step (k k' : K) : Prop := k' = (api_lost k).2 ∨ k' = (api_clock k).2 ∨ k' = (session_bytes k).2.
Definition quiet (now : Z) (fresh : string → Prop) (k : K) : Prop :=
  ∀ k', rtc host_step k k' → (api_lost k').1 = false ∧ (api_clock k').1 = Some now ∧
    ∃ bs, (session_bytes k').1 = Some bs ∧ fresh (url_encode bs).

Lemma quiet_step now fresh k k' : quiet now fresh k → host_step k k' → quiet now fresh k'.
Proof. intros Hq Hs k2 Hk2. apply Hq. by eapply rtc_l. Qed.

Lemma quiet_call {A} (m : DbM A) now fresh db k : quiet now fresh k → ∃ k', quiet now fresh k' ∧
  call m (mkWorld db k) = (map_err ApiError.Storage (m db).1, mkWorld (m db).2 k').
Proof.
  intros Hq. exists (api_lost k).2. split; [eapply quiet_step; [done|by left]|]. apply call_run. cbn.
  destruct (Hq k (rtc_refl _ _)) as [E _]. destruct (api_lost k). by cbn in *; subst.
Qed.

Lemma quiet_clock now fresh db k : quiet now fresh k → in_i64 now = true → ∃ k', quiet now fresh k' ∧
  api_timestamp (mkWorld db k) = (Ok now, mkWorld db k').
Proof.
  intros Hq Hn. exists (api_clock k).2. split; [eapply quiet_step; [done|by right; left]|].
  unfold api_timestamp, outside. rewrite api_bind_run. cbn. destruct (Hq k (rtc_refl _ _)) as (_ & E & _). destruct (api_clock k). cbn in *. subst.
  rewrite api_bind_run. cbn. unfold answer, i64_try_from, guard_range. by rewrite Hn.
Qed.

Lemma quiet_unauthorized {A} (m : DbM A) now fresh db k a db' : quiet now fresh k → m db = (Ok a, db') → ∃ k', quiet now fresh k' ∧
  or_unauthorized (call m) (mkWorld db k) = (Ok a, mkWorld db' k').
Proof.
  intros Hq Hm. destruct (quiet_call m now fresh db k Hq) as (k' & Hq' & E). exists k'. split; [done|].
  unfold or_unauthorized, attempt. rewrite api_bind_run, E, Hm. done.
Qed.

(** The browser's request as the gateway forwards it. *)
Definition visit (host uri : string) gateway : HeaderMap := <["x-forwarded-host" := host]> (<["x-forwarded-uri" := uri]> gateway).
Definition with_cookie (session : string) headers : HeaderMap := <["cookie" := cookie_pair session]> headers.

Lemma request_host_visit host uri gateway : forallb printed (bytes host) = true → request_host (visit host uri gateway) = Some host.
Proof.
  intros Hh. unfold request_host, visit. rewrite header_insert by done.
  by setoid_rewrite (lookup_insert_eq (M := gmap string) (<["x-forwarded-uri":=uri]> gateway)).
Qed.

Lemma request_host_cookie session headers : request_host (with_cookie session headers) = request_host headers.
Proof.
  unfold request_host, with_cookie. rewrite !header_other by done. by setoid_rewrite (lookup_insert_ne (M := gmap string) headers "cookie").
Qed.

Lemma bearer_visit host uri gateway : bearer (visit host uri gateway) = bearer gateway.
Proof. unfold bearer, visit. by rewrite !header_other. Qed.
Lemma bearer_cookie session headers : bearer (with_cookie session headers) = bearer headers.
Proof. unfold bearer, with_cookie. by rewrite !header_other. Qed.
Lemma cookie_visit host uri gateway : cookie (visit host uri gateway) COOKIE = cookie gateway COOKIE.
Proof. unfold cookie, visit. by rewrite !header_other. Qed.

Lemma bootstrap_visit host ticket gateway : forallb url_byte (bytes ticket) = true → ticket ≠ "" →
  bootstrap_ticket (visit host (bootstrap_path ticket) gateway) = Some ticket.
Proof.
  intros Ht Hne. unfold bootstrap_ticket, forwarded_uri, visit. rewrite header_other, header_insert; [|..|done].
  - cbn [mbind option_bind]. rewrite ticket_of_bootstrap by done.
    assert (str_starts_with "/_mwc/bootstrap?" (bootstrap_path ticket) = true) as ->; [|done].
    unfold str_starts_with, bootstrap_path. change "/_mwc/bootstrap?ticket=" with ("/_mwc/bootstrap?" +:+ "ticket=").
    rewrite !bytes_app, <-app_assoc. by rewrite (proj2 (strip_prefix_Some _ _ _) eq_refl).
  - unfold bootstrap_path. by rewrite bytes_app, forallb_app, (forallb_weaken _ _ _ url_byte_printed Ht).
Qed.

(** The part of a request both visits share. *)
Lemma authorize_reaches st headers id m workspace now fresh db k :
  web_shell_internal_caller_allowed st (bearer headers) = true → mapping_id_from_host st headers = Ok id →
  get_port_mapping (st_installation_id st) id db = (Ok m, db) →
  get_workspace (st_installation_id st) (mp_workspace_id m) db = (Ok workspace, db) → ws_state workspace = Ready →
  quiet now fresh k → in_i64 now = true →
  ∃ k', quiet now fresh k' ∧ authorize_port st headers (mkWorld db k) =
    (valid ← session_check st headers id now;
     if (valid : bool) then mret (empty_response 200 [])
     else match bootstrap_ticket headers with
          | Some ticket => exchange_ticket st id ticket now
          | None => throw ApiError.Unauthorized
          end) (mkWorld db k').
Proof.
  intros Hcaller Hid Hm Hws Hready Hq Hn. unfold authorize_port. rewrite api_bind_run. unfold answer at 1, verify_gateway. rewrite Hcaller. cbn [ensure].
  rewrite api_bind_run. unfold answer at 1. rewrite Hid.
  destruct (quiet_unauthorized _ _ _ _ _ _ _ Hq Hm) as (k1 & Hq1 & E1). rewrite api_bind_run, E1.
  destruct (quiet_unauthorized _ _ _ _ _ _ _ Hq1 Hws) as (k2 & Hq2 & E2). rewrite api_bind_run, E2.
  rewrite api_bind_run. unfold require, answer. rewrite bool_decide_eq_true_2 by done. cbn [ensure].
  destruct (quiet_clock _ _ db _ Hq2 Hn) as (k3 & Hq3 & E3). rewrite api_bind_run, E3. by exists k3.
Qed.

(** The tables access depends on. *)
Definition access (db : Db) := (t_port_mappings db, t_users db, t_memberships db, t_workspaces db).

Lemma business_access db db' : business db = business db' → access db = access db'.
Proof.
  intros E. unfold access. change db with db. by rewrite (f_equal t_port_mappings E : t_port_mappings db = _),
    (f_equal t_users E : t_users db = _), (f_equal t_memberships E : t_memberships db = _), (f_equal t_workspaces E : t_workspaces db = _).
Qed.

#[local] Instance issue_access inst mapping user now : Preserves (frames access) (issue_port_mapping_ticket inst mapping user now).
Proof. unfold issue_port_mapping_ticket, record_port_ticket, prune_expired_port_mapping_auth. apply _. Qed.
#[local] Instance exchange_access inst mapping ticket sh now e : Preserves (frames access) (exchange_port_mapping_ticket inst mapping ticket sh now e).
Proof.
  unfold exchange_port_mapping_ticket, insert_session. apply preserves_if; [apply _|]. apply preserves_bind; [apply _..|intros id].
  apply preserves_transaction; [apply _|]. unfold spend_port_ticket.
  apply preserves_bind; [apply _|by intros db r db' [= <- <-]|intros [user|]; apply _].
Qed.

Lemma get_mapping_access inst id db db' : access db = access db' → (get_port_mapping inst id db).1 = (get_port_mapping inst id db').1.
Proof. intros [= E1 E2 E3 E4]. unfold get_port_mapping, select_mapping. rewrite !bind_run. cbn. rewrite E1. destruct (t_port_mappings db' !! id) as [r|]; [|done]. by destruct (String.eqb _ _). Qed.
Lemma get_workspace_access inst id db db' : access db = access db' → (get_workspace inst id db).1 = (get_workspace inst id db').1.
Proof.
  intros [= E1 E2 E3 E4]. unfold get_workspace. rewrite !bind_run, !select_workspace_run, E4.
  destruct (match t_workspaces db' !! id with Some _ => _ | None => _ end); done.
Qed.
Lemma may_enter_access inst id user db db' : access db = access db' → may_enter inst id user db = may_enter inst id user db'.
Proof. intros [= E1 E2 E3 E4]. unfold may_enter, select_mapping, select_user. by rewrite E1, E2, E3. Qed.

(** Those who may open a mapping may enter it. *)
Definition roles_sound (db : Db) : Prop := ∀ key r, t_memberships db !! key = Some r → m_role r ≠ SystemAdmin.

Lemma actor_may_enter inst headers db actor id row org : authentic inst headers db actor → roles_sound db →
  principal_allows actor ConnectWorkspace org = true → select_mapping inst id db = Some row → pm_organization_id row = org →
  may_enter inst id (pr_user_id actor) db = true.
Proof.
  intros (token & t & kid & k & _ & _ & Ha & -> & _ & _ & Hadmin & Hmem) Hroles Hallow Hm <-. unfold may_enter. rewrite Hm. cbn.
  unfold authenticates in Ha. rewrite !andb_true_iff in Ha. destruct Ha as ((((_ & Hu) & _) & _) & _).
  destruct (select_user inst (k_user_id k) db) as [u|]; [|done]. cbn in *. rewrite Hu. cbn.
  unfold principal_allows in Hallow. destruct (existsb (λ scope, _) _); [cbn in Hallow|done]. rewrite Hadmin in Hallow. destruct (u_system_admin u); [done|]. cbn.
  apply existsb_exists in Hallow as (mb & Hin & Hal). rewrite Hmem in Hin. unfold memberships_of in Hin.
  apply list_elem_of_In, list_elem_of_fmap in Hin as ([[[i o] user] r] & -> & Hin). apply list_elem_of_In, filter_In in Hin as [Hin Hkey].
  apply list_elem_of_In, elem_of_map_to_list in Hin. cbn in *.
  apply andb_true_iff in Hkey as [->%String.eqb_eq ->%bool_decide_eq_true]. specialize (Hroles _ _ Hin).
  unfold allows in Hal. cbn in Hal. assert (o = pm_organization_id row) as <-.
  { destruct (m_role r); [done|..]; apply andb_true_iff in Hal as [Hal _]; by apply bool_decide_eq_true in Hal as [= ->]. }
  by rewrite Hin.
Qed.

(** What opening a mapping has done. *)
Lemma open_facts st headers workspace_id mapping_id w resp w1 :
  open_mapping_handler st headers workspace_id mapping_id w = (Ok resp, w1) →
  ∃ actor workspace m issued now db domain,
    authentic (st_installation_id st) headers (w_db w) actor ∧ access db = access (w_db w) ∧
    get_workspace (st_installation_id st) workspace_id db = (Ok workspace, db) ∧ may_connect actor workspace = true ∧ ws_state workspace = Ready ∧
    get_port_mapping (st_installation_id st) mapping_id db = (Ok m, db) ∧ mp_workspace_id m = ws_id workspace ∧
    issue_port_mapping_ticket (st_installation_id st) (mp_id m) (pr_user_id actor) now db = (Ok issued, w_db w1) ∧
    st_port_mapping_public_domain st = Some domain ∧
    resp = mkOpenResponse ("https://" +:+ mapping_host (mp_id m) domain +:+ bootstrap_path (ip_ticket issued)) (ip_expires_at issued).
Proof.
  intros Hrun. unfold open_mapping_handler in Hrun. api_step Hrun. unfold connecting in Hy. api_step Hy. rename y0 into actor.
  apply principal_Ok in Hy0 as [Hauth Hbus]. api_step Hy. rename y0 into workspace. pose proof (read_only_run _ _ _ _ _ Hy0) as E. rewrite E in *.
  api_step Hy. injection Hy as <- <-. cbv beta iota in Hrun. api_step Hrun. apply bool_decide_eq_true in Hy.
  api_step Hrun. rename y into m. pose proof (read_only_run _ _ _ _ _ Hy2) as E2. rewrite E2, E in *. api_step Hrun. apply bool_decide_eq_true in Hy3.
  api_step Hrun. rename y into now. apply api_timestamp_db in Hy4. rewrite E2 in Hy4. api_step Hrun. rename y into issued. rewrite Hy4 in Hy5.
  api_step Hrun. unfold mapping_origin, mapping_domain in Hy6. inv_binds. injection Hy6 as <-. injection Hrun as <- <-.
  exists actor, workspace, m, issued, now, (w_db wy0), a. split_and!; try done. by apply business_access.
Qed.


Lemma get_mapping_Ok inst id db m db' : get_port_mapping inst id db = (Ok m, db') →
  ∃ r, select_mapping inst id db = Some r ∧ t_port_mappings db !! id = Some r ∧ mp_id m = id ∧
    mp_workspace_id m = pm_workspace_id r ∧ mp_internal_port m = pm_internal_port r.
Proof.
  unfold get_port_mapping. intros Hrun. run_step Hrun. run_step Hrun. injection Hrun as Hdec _. unfold decode_mapping in Hdec. inv_binds. injection Hdec as <-.
  exists x. split_and!; try done. unfold select_mapping in Hx. destruct (t_port_mappings db !! id); [|done]. by destruct (String.eqb _ _).
Qed.

Lemma get_workspace_organization inst id db ws db' : get_workspace inst id db = (Ok ws, db') →
  ∃ r, t_workspaces db !! id = Some r ∧ ws_organization_id ws = wr_organization_id r.
Proof.
  unfold get_workspace. rewrite bind_run, select_workspace_run. destruct (t_workspaces db !! id) as [r|]; [|done].
  destruct (String.eqb _ _); [|done]. intros [= Hdec _]. unfold decode_workspace in Hdec. inv_binds. simplify_eq/=. by exists r.
Qed.

(** The second visit: the cookie names the session. *)
Lemma session_visit st headers id m workspace now fresh db k session :
  web_shell_internal_caller_allowed st (bearer headers) = true → mapping_id_from_host st headers = Ok id →
  get_port_mapping (st_installation_id st) id db = (Ok m, db) →
  get_workspace (st_installation_id st) (mp_workspace_id m) db = (Ok workspace, db) → ws_state workspace = Ready →
  quiet now fresh k → in_i64 now = true → cookie headers COOKIE = Some session →
  (port_mapping_session_valid (st_installation_id st) id (hash_token session) now db).1 = Ok true →
  (authorize_port st headers (mkWorld db k)).1 = Ok (empty_response 200 []).
Proof.
  intros Hcaller Hid Hm Hws Hready Hq Hn Hc Hv. destruct (authorize_reaches st headers id m workspace now fresh db k) as (k' & Hq' & ->); try done.
  rewrite api_bind_run. unfold session_check. rewrite Hc.
  destruct (quiet_call (port_mapping_session_valid (st_installation_id st) id (hash_token session) now) now fresh db k' Hq') as (k2 & _ & ->).
  by rewrite Hv.
Qed.

(** The first visit: the ticket becomes a session. *)
Lemma bootstrap_visit_run st headers id m workspace now fresh db k ticket :
  web_shell_internal_caller_allowed st (bearer headers) = true → mapping_id_from_host st headers = Ok id →
  get_port_mapping (st_installation_id st) id db = (Ok m, db) →
  get_workspace (st_installation_id st) (mp_workspace_id m) db = (Ok workspace, db) → ws_state workspace = Ready →
  quiet now fresh k → in_i64 now = true → now + SESSION_TTL_SECONDS <= i64_max →
  cookie headers COOKIE = None → bootstrap_ticket headers = Some ticket →
  (∀ session, fresh session → ∃ sid db2, exchange_port_mapping_ticket (st_installation_id st) id ticket (hash_token session) now
      (now + SESSION_TTL_SECONDS) db = (Ok (Some sid), db2)) →
  ∃ session sid w2, fresh session ∧ forallb url_byte (bytes session) = true ∧
    exchange_port_mapping_ticket (st_installation_id st) id ticket (hash_token session) now (now + SESSION_TTL_SECONDS) db = (Ok (Some sid), w_db w2) ∧
    authorize_port st headers (mkWorld db k) = (Ok (empty_response 303 [("set-cookie", session_cookie session); ("location", "/")]), w2).
Proof.
  intros Hcaller Hid Hm Hws Hready Hq Hn Hmax Hc Ht Hex. destruct (authorize_reaches st headers id m workspace now fresh db k) as (k' & Hq' & ->); try done.
  destruct (Hq' k' (rtc_refl _ _)) as (_ & _ & bs & Hbs & Hfresh). destruct (Hex _ Hfresh) as (sid & db2 & Hdb2).
  assert (Hq2 : quiet now fresh (session_bytes k').2) by (eapply quiet_step; [done|by right; right]).
  destruct (quiet_call (exchange_port_mapping_ticket (st_installation_id st) id ticket (hash_token (url_encode bs)) now (now + SESSION_TTL_SECONDS))
    now fresh db _ Hq2) as (k3 & _ & E3).
  exists (url_encode bs), sid, (mkWorld db2 k3). split_and!; [done|apply url_alphabet|done|].
  rewrite api_bind_run. unfold session_check. rewrite Hc, Ht.
  transitivity (exchange_ticket st id ticket now (mkWorld db k')); [done|].
  unfold exchange_ticket, outside. rewrite api_bind_run. cbn [w_k w_db]. destruct (session_bytes k') as [obs kb]. cbn in Hbs, E3. subst obs.
  rewrite api_bind_run. unfold answer at 1. cbn [ok_or]. rewrite api_bind_run. unfold answer at 1.
  rewrite (proj2 (checked_add_i64_Some _ _ _)) by (split; [done|]; unfold in_i64, SESSION_TTL_SECONDS in *; bool_prop; lia). cbn [ok_or].
  rewrite api_bind_run, E3, Hdb2. cbn [map_err fst snd]. rewrite api_bind_run. unfold require, answer at 1. cbn [ensure is_some]. rewrite api_bind_run.
  unfold answer at 1. rewrite session_cookie_header by apply url_alphabet. done.
Qed.

Lemma run_at {A} (m : DbM A) db db' a : ReadOnly m → (m db').1 = (m db).1 → m db = (Ok a, db) → m db' = (Ok a, db').
Proof. intros Hm E Hdb. rewrite Hdb in E. pose proof (Hm db') as E2. destruct (m db'). cbn in *. by subst. Qed.
Lemma select_mapping_access inst id db db' : access db = access db' → select_mapping inst id db = select_mapping inst id db'.
Proof. intros [= E1 E2 E3 E4]. unfold select_mapping. by rewrite E1. Qed.

Lemma issued_text inst mapping user now db t db' : issue_port_mapping_ticket inst mapping user now db = (Ok t, db') →
  forallb url_byte (bytes (ip_ticket t)) = true ∧ ip_expires_at t = now + 60.
Proof.
  rewrite issue_port_run. intros [_ (? & ? & _ & _ & _ & Hexp & _ & _ & _ & _ & _ & Hticket)]%record_port_ticket_run. split; [|done].
  unfold random_ticket in Hticket. inv_binds. injection Hticket as <-. apply url_alphabet.
Qed.

(** The address a user gets when opening a mapping leads in: as long as the
    ticket is valid, a browser that follows it is sent on with a session cookie,
    and with that cookie every request to the mapping's host is let through for
    eight hours, if meanwhile nothing else changes. *)
Theorem browser_gets_in config st headers workspace_id mapping_id w resp w1 :
  app_config_validate config = Ok () → ac_port_mapping_public_domain config = st_port_mapping_public_domain st →
  (∀ domain, st_port_mapping_public_domain st = Some domain → valid_utf8 (bytes domain) = true) →
  roles_sound (w_db w) →
  (∀ r wr, t_port_mappings (w_db w) !! mapping_id = Some r → t_workspaces (w_db w) !! workspace_id = Some wr →
     pm_organization_id r = wr_organization_id wr) →
  open_mapping_handler st headers workspace_id mapping_id w = (Ok resp, w1) →
  ∃ host ticket, or_bootstrap_url resp = "https://" +:+ host +:+ bootstrap_path ticket ∧
    ∀ gateway now k, web_shell_internal_caller_allowed st (bearer gateway) = true → cookie gateway COOKIE = None →
      in_i64 now = true → now <= or_expires_at resp → now + SESSION_TTL_SECONDS <= i64_max →
      t_port_sessions (w_db w1) !! uuid_source (w_db w1) (uuid_drawn (w_db w1)) = None →
      quiet now (λ session, session_hash_unused (st_installation_id st) (hash_token session) (w_db w1)) k →
      ∃ session w2,
        authorize_port st (visit host (bootstrap_path ticket) gateway) (mkWorld (w_db w1) k) =
          (Ok (empty_response 303 [("set-cookie", session_cookie session); ("location", "/")]), w2) ∧
        ∀ uri now' fresh k', in_i64 now' = true → now' <= now + SESSION_TTL_SECONDS → quiet now' fresh k' →
          (authorize_port st (with_cookie session (visit host uri gateway)) (mkWorld (w_db w2) k')).1 = Ok (empty_response 200 []).
Proof.
  intros Hconfig Hdomain Hutf8 Hroles Horg Hrun.
  apply open_facts in Hrun as (actor & ws & m & issued & now0 & db & domain & Hauth & Eacc & Hws & Hconn & Hready & Hm & Hmw & Hissue & Hst & ->).
  destruct (get_mapping_Ok _ _ _ _ _ Hm) as (row & Hsel & Hrow & Eid & _). destruct (get_workspace_organization _ _ _ _ _ Hws) as (wr & Hwr & Eorg).
  assert (domain_ok domain) as Hdom by (apply valid_domain_ok; [by apply Hutf8|eapply config_domain; [done|by rewrite Hdomain]]).
  rewrite Eid in *. set (inst := st_installation_id st) in *.
  pose proof (issued_facts inst _ _ _ _ _ _ _ Hrandom Hissue) as (Hlen & _).
  pose proof (issue_access _ _ _ _ _ _ _ Hissue) as Eacc1.
  pose proof (issued_text _ _ _ _ _ _ _ Hissue) as [Htext Hexp].
  assert (ip_ticket issued ≠ "") as Hne by (by intros E; rewrite E in Hlen).
  assert (∀ db', access db' = access db → get_port_mapping inst mapping_id db' = (Ok m, db') ∧
            get_workspace inst (mp_workspace_id m) db' = (Ok ws, db')) as Hthere.
  { intros db' E. rewrite Hmw, (get_workspace_id _ _ _ _ _ Hws). split; (eapply run_at; [apply _| |done]); [by apply get_mapping_access|by apply get_workspace_access]. }
  destruct (Hthere (w_db w1) Eacc1) as [Hm1 Hws1].
  exists (mapping_host mapping_id domain), (ip_ticket issued). split; [done|]. intros gateway now k Hcaller Hnc Hn Hle Hmax Hsid Hq.
  cbn [or_expires_at] in Hle. rewrite Hexp in Hle. pose proof (forallb_weaken _ _ _ host_char_printed (mapping_host_chars mapping_id domain Hdom)) as Hprinted.
  destruct (port_ticket_opens_session inst mapping_id (pr_user_id actor) now0 db issued (w_db w1)) as [Hopens _]; [done..|].
  destruct (bootstrap_visit_run st (visit (mapping_host mapping_id domain) (bootstrap_path (ip_ticket issued)) gateway) mapping_id m ws now
    (λ session, session_hash_unused inst (hash_token session) (w_db w1)) (w_db w1) k (ip_ticket issued)) as (session & sid & w2 & Hfresh & Hchars & Hex & Hauthz); try done.
  { by rewrite bearer_visit. }
  { eapply mapping_host_id; [done..|]. by apply request_host_visit. }
  { by rewrite cookie_visit. }
  { by apply bootstrap_visit. }
  { intros session Hf. destruct (Hopens (hash_token session) now (now + SESSION_TTL_SECONDS) Hle Hf Hsid) as (sid & db2 & E & _). by exists sid, db2. }
  exists session, w2. split; [done|]. intros uri now' fresh k' Hn' Hle' Hq'.
  pose proof (exchange_access _ _ _ _ _ _ _ _ _ Hex) as Eacc2.
  assert (access (w_db w2) = access db) as Eacc3 by (rewrite Eacc2; exact Eacc1). destruct (Hthere (w_db w2) Eacc3) as [Hm2 Hws2].
  eapply (session_visit st _ mapping_id m ws now' fresh); try done.
  - by rewrite bearer_cookie, bearer_visit.
  - eapply mapping_host_id; [done..|]. rewrite request_host_cookie. by apply request_host_visit.
  - by apply cookie_of_pair.
  - destruct (Hopens (hash_token session) now (now + SESSION_TTL_SECONDS) Hle Hfresh Hsid) as (sid' & db2 & E & Hvalid).
    pose proof (eq_trans (eq_sym Hex) E) as Esame. injection Esame as <- <-. fold inst. rewrite Hvalid. f_equal. apply andb_true_iff. split; [by apply Z.leb_le|].
    rewrite (may_enter_access _ _ _ _ (w_db w)) by (by rewrite Eacc3). eapply (actor_may_enter _ _ _ _ _ row (ws_organization_id ws)); try done.
    + unfold may_connect in Hconn. by destruct (principal_allows actor ConnectWorkspace _).
    + by rewrite <-(select_mapping_access _ _ _ _ Eacc).
    + rewrite Eorg. injection Eacc as E1 _ _ E4. apply Horg; [by rewrite <-E1|by rewrite <-E4].
Qed.
End GettingIn.

(** ** Who changes mappings *)
Inductive MappingRequest :=
  | ListMappings (workspace_id : Uuid)
  | CreateMapping (workspace_id : Uuid) (request : CreatePortMappingRequest)
  | OpenMapping (workspace_id mapping_id : Uuid)
  | DeleteMapping (workspace_id mapping_id : Uuid)
  | IssueShellTicket (workspace_id : Uuid).

Definition requested_workspace (rq : MappingRequest) : Uuid :=
  match rq with ListMappings id | CreateMapping id _ | OpenMapping id _ | DeleteMapping id _ | IssueShellTicket id => id end.

Section Mappings.
Context {K : Type} `{ApiHost K} `{ApiCluster K} `{SessionRandom K} `{UuidText} `{TokenHash} `{RequestHash} `{Sha256} `{UrlBase64} `{RandomSource}.
Context `{!ResponseJson PortMappingResponse}.
Implicit Types (st : AppState) (headers : HeaderMap).

Definition run_mapping_request st headers (rq : MappingRequest) : ApiM K () :=
  match rq with
  | ListMappings id => discard (list_mappings_handler st headers id)
  | CreateMapping id request => discard (create_mapping_handler st headers id request)
  | OpenMapping id mapping_id => discard (open_mapping_handler st headers id mapping_id)
  | DeleteMapping id mapping_id => discard (delete_mapping_handler st headers id mapping_id)
  | IssueShellTicket id => discard (issue_shell_handler st headers id)
  end.

Definition connects (st : AppState) headers (workspace_id : Uuid) (actor : Principal) (workspace : Workspace) (db db1 : Db) : Prop :=
  authentic (st_installation_id st) headers db actor ∧ business db1 = business db ∧
  get_workspace (st_installation_id st) workspace_id db1 = (Ok workspace, db1) ∧ may_connect actor workspace = true.

(** The beginning changes nothing, whether it lets the caller on or not. *)
Lemma connecting_business st headers id w r w1 : connecting (K := K) st headers id w = (r, w1) → business (w_db w1) = business (w_db w).
Proof.
  intros Hrun. pose proof business_preorder. apply (api_keeps (frames business)) in Hrun; [done|]. unfold connecting. apply _.
Qed.

Lemma connecting_Ok st headers id w actor workspace w1 : connecting (K := K) st headers id w = (Ok (actor, workspace), w1) →
  connects st headers id actor workspace (w_db w) (w_db w1).
Proof.
  intros Hrun. pose proof (connecting_business _ _ _ _ _ _ Hrun) as Hb. unfold connecting in Hrun. api_step Hrun. apply principal_Ok in Hy as [Hauth _].
  api_step Hrun. pose proof (read_only_run _ _ _ _ _ Hy) as E. rewrite E in Hy. api_step Hrun. injection Hrun as -> -> <-. rewrite E in Hb |- *.
  by split_and!.
Qed.

(** Mappings are added, and none is changed. *)
Definition only_adds_mappings : relation Db := adds t_port_mappings (λ _, True).

#[local] Instance only_adds_relation : TableRelation only_adds_mappings.
Proof. unfold only_adds_mappings. apply _. Qed.
Lemma frames_adds {A} (m : DbM A) : Preserves (frames t_port_mappings) m → Preserves only_adds_mappings m.
Proof. intros Hm db r db' Hrun key. left. by rewrite (Hm _ _ _ Hrun). Qed.
Lemma api_frames_adds {A} (m : ApiM K A) : ApiPreserves (frames t_port_mappings) m → ApiPreserves only_adds_mappings m.
Proof. intros Hm w r w' Hrun key. left. by rewrite (Hm _ _ _ Hrun). Qed.

#[local] Instance create_adds inst org id port name user now : Preserves only_adds_mappings (create_port_mapping inst org id port name user now).
Proof.
  unfold create_port_mapping. do 3 (apply preserves_bind; [apply _..|intros ?]). apply preserves_bind; [apply _| |intros _].
  - unfold insert_mapping. apply preserves_bind; [apply _..|]. intros [?|]; [apply _|]. do 2 (apply preserves_bind; [apply _..|intros ?]).
    by apply preserves_adds_insert; [apply only_adds_relation|intros [] []|].
  - apply frames_adds. unfold port_mapping_by_workspace_port. apply _.
Qed.

#[local] Instance audit_mappings inst actor org ws action metadata now : Preserves (frames t_port_mappings) (record_audit inst actor org ws action metadata now).
Proof. unfold record_audit, insert_audit. apply _. Qed.
#[local] Instance reconcile_mappings st id generation now : ApiPreserves (K := K) (frames t_port_mappings) (enqueue_reconcile st id generation now).
Proof. unfold enqueue_reconcile, enqueue_job, insert_job. apply _. Qed.

#[local] Instance connecting_mappings st headers id : ApiPreserves (K := K) (frames t_port_mappings) (connecting st headers id).
Proof. intros w r w' Hrun. apply connecting_business in Hrun. exact (f_equal t_port_mappings Hrun). Qed.
#[local] Instance issue_mappings inst mapping user now : Preserves (frames t_port_mappings) (issue_port_mapping_ticket inst mapping user now).
Proof. unfold issue_port_mapping_ticket, record_port_ticket, prune_expired_port_mapping_auth. apply _. Qed.
#[local] Instance issue_shell_mappings inst org ws user now ttl : Preserves (frames t_port_mappings) (issue_web_shell_ticket inst org ws user now ttl).
Proof. unfold issue_web_shell_ticket. apply _. Qed.

#[local] Instance timestamp_mappings R `{!PreOrder R} : ApiPreserves (K := K) R api_timestamp.
Proof. unfold api_timestamp. apply _. Qed.

Lemma frames_preorder {T} (f : Db → T) : PreOrder (frames f).
Proof. split; [by intros ?|]. intros x y z. unfold frames. congruence. Qed.

#[local] Instance create_only_adds st headers id request : ApiPreserves (K := K) only_adds_mappings (create_mapping_handler st headers id request).
Proof.
  pose proof (frames_preorder t_port_mappings). unfold create_mapping_handler. apply api_preserves_bind; [apply _..|intros _].
  apply api_preserves_bind; [apply _|by apply api_frames_adds, _|]. intros [actor workspace]. do 6 (apply api_preserves_bind; [apply _..|intros ?]).
  assert (∀ v db, only_adds_mappings db (set_t_idempotency v db)) as Hkeys by (intros v db key; by left).
  apply idempotently_keeps; [apply _|exact Hkeys| |].
  - unfold mapping_created. apply api_preserves_bind; [apply _..|intros m]. apply api_preserves_bind; [apply _|by apply api_frames_adds, _|intros _].
    apply api_preserves_bind; [apply _|by apply api_frames_adds; apply _|intros _]. apply _.
  - intros response. pose proof (finish_keeps only_adds_mappings Hkeys). apply _.
Qed.

Lemma other_requests_keep st headers rq : match rq with CreateMapping _ _ | DeleteMapping _ _ => False | _ => True end →
  ApiPreserves (K := K) (frames t_port_mappings) (run_mapping_request st headers rq).
Proof.
  pose proof (frames_preorder t_port_mappings).
  assert (∀ w ms, ApiPreserves (frames t_port_mappings) (mapping_responses (K := K) st w ms)) by (intros w ms; induction ms; cbn [mapping_responses]; apply _).
  destruct rq; try done; intros _; unfold run_mapping_request, discard, list_mappings_handler, open_mapping_handler, issue_shell_handler;
    (apply api_preserves_bind; [apply _| |apply _]; apply api_preserves_bind; [apply _..|]; intros [actor workspace]; apply _).
Qed.

Lemma deletion_Err inst workspace_id mapping_id w e w' :
  call (K := K) (delete_port_mapping inst workspace_id mapping_id) w = (Err e, w') → w_db w' = w_db w.
Proof. unfold call. destruct (api_lost (w_k w)) as [[] k]; by intros [= _ <-]. Qed.

(** A mapping goes only if it is the one named, of the workspace named, and not the desktop's. *)
Lemma delete_keeps st headers workspace_id mapping_id w r w' id row :
  delete_mapping_handler (K := K) st headers workspace_id mapping_id w = (r, w') → t_port_mappings (w_db w) !! id = Some row →
  t_port_mappings (w_db w') !! id = Some row ∨
  (id = mapping_id ∧ pm_workspace_id row = workspace_id ∧
   ∃ actor workspace db1, connects st headers workspace_id actor workspace (w_db w) db1 ∧
     ∀ d, desktop (ws_template workspace) = Some d → pm_internal_port row ≠ internal_port d).
Proof.
  intros Hrun Hrow. pose proof (frames_preorder t_port_mappings). unfold delete_mapping_handler in Hrun.
  apply api_bind_split in Hrun as [(e & Hy & _)|([actor workspace] & w1 & Hy & Hrun)].
  { left. by rewrite (connecting_mappings _ _ _ _ _ _ Hy). }
  pose proof (connecting_mappings _ _ _ _ _ _ Hy) as E1. apply connecting_Ok in Hy as Hc.
  first_step Hrun; [left; rewrite (read_only_call _ _ _ _ Hy0); congruence|]. rename y into m. pose proof (read_only_call _ _ _ _ Hy0) as E2.
  apply call_Ok, get_mapping_Ok in Hy0 as (row' & _ & Hrow' & _ & Ews & Eport).
  first_step Hrun; [left; apply require_Err in Hy0 as ->; congruence|]. apply require_Ok in Hy0 as [Hdesktop <-].
  first_step Hrun; [left; rewrite (timestamp_mappings (frames t_port_mappings) _ _ _ Hy0); congruence|].
  pose proof (timestamp_mappings (frames t_port_mappings) _ _ _ Hy0) as E3. unfold frames in E3.
  first_step Hrun; [left; by rewrite (deletion_Err _ _ _ _ _ _ Hy1), E3, E2, E1|].
  apply call_Ok in Hy1. injection Hy1 as _ Edel.
  apply (api_keeps (frames t_port_mappings)) in Hrun; [|apply _]. unfold frames in Hrun. rewrite Hrun, <-Edel. cbn [t_port_mappings delete_port_mappings].
  destruct (decide (id = mapping_id ∧ pm_workspace_id row = workspace_id)) as [[-> Ho]|Hkeep].
  - right. split_and!; [done..|]. exists actor, workspace, (w_db w1). split; [done|]. intros d Hd Hport.
    rewrite E1, Hrow in Hrow'. injection Hrow' as <-. apply negb_true_iff in Hdesktop. unfold is_desktop_mapping in Hdesktop.
    rewrite Hd, Ews, Eport, Ho in Hdesktop. cbn in Hdesktop. destruct Hc as (_ & _ & Hws & _). rewrite (get_workspace_id _ _ _ _ _ Hws) in Hdesktop.
    by rewrite bool_decide_eq_true_2, Hport, Z.eqb_refl in Hdesktop.
  - left. unfold delete_port_mappings. cbn. apply map_lookup_filter_Some. split; [congruence|]. cbn.
    apply not_true_iff_false. rewrite !andb_true_iff, !bool_decide_eq_true. naive_solver.
Qed.

(** A request on port mappings or the web shell changes nothing but the record
    of its key's use unless its caller may connect to the workspace; none changes
    a mapping, and one goes only when the request deletes it, it belongs to the
    workspace of the request and it is not the desktop of the template. *)
Theorem mappings_guarded st headers rq w r w' : run_mapping_request st headers rq w = (r, w') →
  (business (w_db w') = business (w_db w) ∨
   ∃ actor workspace db1, connects st headers (requested_workspace rq) actor workspace (w_db w) db1) ∧
  ∀ id row, t_port_mappings (w_db w) !! id = Some row →
    t_port_mappings (w_db w') !! id = Some row ∨
    (rq = DeleteMapping (pm_workspace_id row) id ∧
     ∃ actor workspace db1, connects st headers (pm_workspace_id row) actor workspace (w_db w) db1 ∧
       ∀ d, desktop (ws_template workspace) = Some d → pm_internal_port row ≠ internal_port d).
Proof.
  intros Hrun. split.
  - destruct rq; apply discard_run in Hrun as [r1 Hrun].
    2:{ unfold create_mapping_handler in Hrun. first_step Hrun; [left; by apply answer_world in Hy as ->|]. apply answer_world in Hy as ->.
        apply api_bind_split in Hrun as [(e & Hy & _)|([actor workspace] & w1 & Hy & Hrun)];
          [left; by eapply connecting_business|right; eauto using connecting_Ok]. }
    all: apply api_bind_split in Hrun as [(e & Hy & _)|([actor workspace] & w1 & Hy & Hrun)];
      [left; by eapply connecting_business|right; eauto using connecting_Ok].
  - intros id row Hrow. destruct rq as [|ws request| |ws mapping_id|];
      try (left; apply (api_keeps (frames t_port_mappings)) in Hrun; [|by apply other_requests_keep]; unfold frames in Hrun; by rewrite Hrun); apply discard_run in Hrun as [r1 Hrun].
    + left. destruct (create_only_adds _ _ _ _ _ _ _ Hrun id) as [E|(E & _)]; congruence.
    + destruct (delete_keeps _ _ _ _ _ _ _ _ _ Hrun Hrow) as [|(-> & <- & Hc)]; [by left|right; eauto].
Qed.
End Mappings.

(** ** Witnesses *)
Module BrowserSample.
#[export] Existing Instances decimal_uuid_text CryptoSample.random KeySample.hash GatewaySample.digest RequestSample.host RequestSample.cluster RequestSample.request_hash.
#[export] Instance session : SessionRandom Z := λ k, (Some (replicate 32 (Ascii.ascii_of_nat 77)), k).
#[export] Instance url : UrlBase64 := λ bs, String.string_of_list_ascii (bs ≫= λ c, [GatewaySample.letter (Ascii.N_of_ascii c / 16); GatewaySample.letter (Ascii.N_of_ascii c mod 16)]).
#[export] Instance json : ResponseJson PortMappingResponse := λ r, Some (mr_https_url r).

Lemma letter_url n : (n < 16)%N → url_byte (Z.of_N (Ascii.N_of_ascii (GatewaySample.letter n))) = true.
Proof. intros Hn. unfold GatewaySample.letter. rewrite Ascii.N_ascii_embedding by lia. unfold url_byte, is_ascii_alphanumeric, is_ascii_alphabetic, is_ascii_lowercase, in_range. bool_prop. lia. Qed.

Lemma url_bytes bs : bytes (url_encode bs) = bs ≫= λ c, [Z.of_N (Ascii.N_of_ascii (GatewaySample.letter (Ascii.N_of_ascii c / 16)));
  Z.of_N (Ascii.N_of_ascii (GatewaySample.letter (Ascii.N_of_ascii c mod 16)))].
Proof.
  unfold bytes, url_encode, url. rewrite String.list_ascii_of_string_of_list_ascii. induction bs as [|c bs IH]; [done|]. cbn. by rewrite IH.
Qed.

#[export] Instance url_alphabet_holds : UrlAlphabet.
Proof.
  intros bs. rewrite url_bytes. induction bs as [|c bs IH]; [done|]. cbn [mbind list_bind app forallb]. rewrite IH.
  pose proof (Ascii.N_ascii_bounded c). rewrite !letter_url by (first [apply N.Div0.div_lt_upper_bound|apply N.mod_lt]; lia). done.
Qed.
#[export] Instance url_length_holds : UrlBase64Laws.
Proof. intros bs. rewrite <-length_bytes, url_bytes. induction bs as [|c bs IH]; [done|]. cbn [mbind list_bind app length]. lia. Qed.
#[export] Instance simple_laws : UuidSimpleLaws.
Proof.
  split; [apply (@uuid_parse_to_string _ decimal_uuid_text_laws)|]. intros u. cbn. generalize (N.to_uint u). intros d. induction d; cbn; done.
Qed.

Definition config : AppConfig := mkAppConfig "inst" "sqlite:data" 1 "local" None None None (Some "k3s.example") None.
Definition state : AppState := mkAppState "inst" None None None (Some "k3s.example") None (Some (sha256 (bytes "secret"))) false false None.
Definition key : ApiKeyRow :=
  mkApiKeyRow "inst" 3 "laptop" "mwc_" RequestSample.token (Some RequestSample.token) None 10 None [ScopeConnectWorkspace] (Some 1000) None.
Definition mapping : PortMappingRow := mkPortMappingRow "inst" 2 ActionSample.id 3000 None 3 20.
Definition db : Db := set_t_port_mappings {[ 7%N := mapping ]} (set_t_api_keys {[ 8%N := key ]} GatewaySample.db0).
Definition opened := open_mapping_handler state RequestSample.headers ActionSample.id 7 (mkWorld db 0).
Definition gateway : HeaderMap := {[ "authorization" := "Bearer secret" ]}.
Definition url_of (r : result ApiError.t OpenPortMappingResponse) : string := match r with Ok o => or_bootstrap_url o | Err _ => "" end.
Definition after : Db := Eval vm_compute in w_db opened.2.
Lemma after_eq : w_db opened.2 = after. Proof. vm_compute. reflexivity. Qed.
Definition ticket : string := match random_ticket (uuid_drawn db) with Ok t => t | Err _ => "" end.
Definition follow : HeaderMap := visit "p-7.k3s.example" (bootstrap_path ticket) gateway.
Definition followed := authorize_port state follow (mkWorld after 0).
Definition deleted := run_mapping_request state RequestSample.headers (DeleteMapping ActionSample.id 7) (mkWorld db 0).
Lemma roles : roles_sound db.
Proof.
  intros key row Hrow. change (({[ ("inst", 2%N, 3%N) := mkMembershipRow Member 10 ]} : gmap (string * Uuid * Uuid) MembershipRow) !! key = Some row) in Hrow.
  apply lookup_singleton_Some in Hrow as [_ <-]. discriminate.
Qed.
End BrowserSample.
Import (hints) BrowserSample.

Lemma browser_gets_in_witness :
  ∃ resp w1 host ticket session w2, BrowserSample.opened = (Ok resp, w1) ∧ or_bootstrap_url resp = "https://" +:+ host +:+ bootstrap_path ticket ∧
    authorize_port BrowserSample.state (visit host (bootstrap_path ticket) BrowserSample.gateway) (mkWorld (w_db w1) 0) =
      (Ok (empty_response 303 [("set-cookie", session_cookie session); ("location", "/")]), w2) ∧
    (authorize_port BrowserSample.state (with_cookie session (visit host "/app" BrowserSample.gateway)) (mkWorld (w_db w2) 0)).1 =
      Ok (empty_response 200 []).
Proof.
  destruct BrowserSample.opened as [r w1] eqn:E.
  assert (∃ resp, r = Ok resp ∧ or_expires_at resp = 160) as (resp & -> & Hexp) by (apply (f_equal fst) in E; vm_compute in E; subst; eauto).
  assert (w_db w1 = BrowserSample.after) as Ea by (rewrite <-BrowserSample.after_eq, E; reflexivity).
  edestruct (browser_gets_in CryptoSample.random_ok BrowserSample.config BrowserSample.state RequestSample.headers ActionSample.id 7
    (mkWorld BrowserSample.db 0) resp w1) as (host & ticket & Hurl & Hin).
  - vm_compute. reflexivity.
  - reflexivity.
  - intros domain Hd. injection Hd as <-. reflexivity.
  - exact BrowserSample.roles.
  - intros row wr Hrow Hwr. injection Hrow as <-. injection Hwr as <-. reflexivity.
  - exact E.
  - assert (∀ fresh : string → Prop, fresh (url_encode (replicate 32 (Ascii.ascii_of_nat 77))) → quiet 100 fresh 0) as Hq.
    { intros fresh Hf k' _. split; [reflexivity|]. split; [reflexivity|]. eexists. split; [reflexivity|exact Hf]. }
    destruct (Hin BrowserSample.gateway 100 0) as (session & w2 & Hfirst & Hnext).
    + vm_compute. reflexivity.
    + vm_compute. reflexivity.
    + reflexivity.
    + rewrite Hexp. lia.
    + unfold SESSION_TTL_SECONDS, i64_max. lia.
    + rewrite Ea. vm_compute. reflexivity.
    + apply Hq. intros id s Hs. rewrite Ea in Hs. vm_compute in Hs. destruct id; discriminate.
    + exists resp, w1, host, ticket, session, w2. split; [reflexivity|]. split; [exact Hurl|]. split; [exact Hfirst|].
      apply (Hnext "/app" 100 (λ _, True) 0); [reflexivity|unfold SESSION_TTL_SECONDS; lia|by apply Hq].
Defined.

Lemma gateway_admits_witness :
  ∃ response w', BrowserSample.followed = (Ok response, w') ∧ rs_status response = 303 ∧
    web_shell_internal_caller_allowed BrowserSample.state (bearer BrowserSample.follow) = true.
Proof.
  destruct BrowserSample.followed as [r w'] eqn:E.
  assert (∃ response, r = Ok response ∧ rs_status response = 303) as (response & -> & Hs) by (apply (f_equal fst) in E; vm_compute in E; subst; eauto).
  destruct (gateway_admits BrowserSample.state BrowserSample.follow (mkWorld BrowserSample.after 0) response w' E) as [Hcaller _]. exists response, w'. split; [reflexivity|]. split; [exact Hs|exact Hcaller].
Defined.

Lemma mappings_guarded_witness :
  ∃ r w', BrowserSample.deleted = (r, w') ∧ t_port_mappings (w_db w') !! 7%N = None ∧
    ∃ actor workspace db1, connects BrowserSample.state RequestSample.headers ActionSample.id actor workspace BrowserSample.db db1.
Proof.
  destruct BrowserSample.deleted as [r w'] eqn:E.
  assert (t_port_mappings (w_db w') !! 7%N = None) as Hgone by (apply (f_equal (λ x, t_port_mappings (w_db x.2) !! 7%N)) in E; vm_compute in E; symmetry; exact E).
  destruct (mappings_guarded BrowserSample.state RequestSample.headers (DeleteMapping ActionSample.id 7) (mkWorld BrowserSample.db 0) r w' E) as [_ Hmap]. exists r, w'. split; [reflexivity|]. split; [exact Hgone|].
  destruct (Hmap 7%N BrowserSample.mapping eq_refl) as [Hkept|(_ & actor & workspace & db1 & Hc & _)]; [rewrite Hgone in Hkept; discriminate|].
  exists actor, workspace, db1. exact Hc.
Defined.
