(* ===== verification/ShrinkCluster.v ===== *)
(** * The cluster's side of a storage migration
    ([src/kubernetes/client_storage_shrink.rs])

    The methods of [KubernetesCoordinator] that [ShrinkHandler] calls, as programs
    over the Kubernetes API ([KubeApi]). They discover the volumes of a workspace,
    retain them and stop the workload, create smaller claims, run helper Pods that
    measure, copy and verify, and finally reclaim the old volumes. [shrink_coordinator]
    makes the class [Coordinator] out of them.

    [ns] is the namespace of all workspaces. The environment variables of the
    process and the identifier of the installation are in [KubernetesCoordinator].
    Parameters: the reading of a StatefulSet and of the evidence of a helper from
    JSON, and the scripts of the helpers (shell files of the program). *)
From stdpp Require Import pretty.
From S2P Require Import Prelude Text Json Workspaces Errors ShrinkOperation Quantity Database Reconcile Names WorkspaceResponse WorkloadApply KubeApi.

Definition OPERATION_LABEL : string := "workspace.memeloop.dev/storage-shrink".
Definition COMPONENT_LABEL : string := "app.kubernetes.io/component".
Definition STORAGE_ROLE_LABEL : string := "workspace.memeloop.dev/storage-role".
Definition MANAGED_BY_LABEL : string := "app.kubernetes.io/managed-by".
Definition LONGHORN_DRIVER : string := "driver.longhorn.io".
Abbreviation ns := WORKSPACE_NAMESPACE.

(** The Secrets with the certificates between gateway and terminals, and what the
    coordinator is configured with. *)
Record TtydMtlsConfig := mkMtls {
  server_tls_secret_name : string;
  client_ca_secret_name : string;
  higress_client_secret_namespace : string;
  higress_client_secret_name : string;
}.
Record KubernetesCoordinator := mkCoordinator {
  kc_installation_id : string;
  kc_env : string → option string;
  kc_higress_namespace : string;
  kc_ttyd_mtls : option TtydMtlsConfig;
  kc_port_mapping_domain : option string;
}.

(** [serde_json::from_value::<StatefulSet>] and [from_str::<ShrinkUsage>]. *)
Class StatefulSetJson := set_of_value : Value → result string StatefulSet.
Class UsageJson := usage_of_text : string → option ShrinkUsage.
Class HelperScripts := script : ShrinkPodStage → string.

Definition stage_name (stage : ShrinkPodStage) : string :=
  match stage with Preflight => "preflight" | Measure => "measure" | Copy => "copy" | Verify => "verify" end.
Definition is_preflight (stage : ShrinkPodStage) : bool := match stage with Preflight => true | _ => false end.
Definition is_verify (stage : ShrinkPodStage) : bool := match stage with Verify => true | _ => false end.
Definition decimal_text (n : Z) : string := pretty (Z.to_N n).

(** [str::rsplit_once]: the parts around the last occurrence. *)
Definition rsplit_once (sep s : string) : option (list Z * list Z) :=
  (λ parts, (reverse parts.2, reverse parts.1)) <$> split_once (reverse (bytes sep)) (reverse (bytes s)).

(** ** Pure checks *)
Definition validate_pv_identity (volume : PersistentVolume) (binding : WorkspaceHomeVolumeBinding) (identity : StorageVolumeIdentity)
    : result string () :=
  spec ← ok_or (pv_spec volume) "PV spec is missing";
  reference ← ok_or (pv_claim_ref spec) "PV claimRef is missing";
  csi ← ok_or (pv_csi spec) "PV CSI identity is missing";
  ensure (bool_decide (md_name (pv_metadata volume) = Some (pv_name identity))
          && bool_decide (md_uid (pv_metadata volume) = Some (pv_uid identity))
          && bool_decide (rf_namespace reference = Some (vb_namespace binding))
          && bool_decide (rf_name reference = Some (vb_claim_name binding))
          && bool_decide (rf_uid reference = Some (vb_claim_uid binding))
          && bool_decide (csi_driver_name csi = csi_driver identity)
          && bool_decide (csi_handle csi = csi_volume_handle identity)
          && bool_decide (pv_storage_class_name spec = Some (storage_class_name identity)))
    "PV UID, claimRef UID, storage class or CSI backend identity changed; refusing reclamation".

(** The capacity in a map of quantities, in bytes. *)
Definition storage_bytes (quantities : option (gmap string string)) : option Z :=
  quantities ≫= λ m, m !! "storage" ≫= home_volume_capacity_bytes.

Definition binding_from_claim (claim : Claim) : result string WorkspaceHomeVolumeBinding :=
  bytes ← ok_or (storage_bytes (cl_status claim ≫= ct_capacity)) "source claim capacity is unavailable";
  _ ← ensure (negb ((bytes =? 0) || negb (bytes mod GIB =? 0))) "source claim capacity must be an exact positive GiB quantity";
  name ← ok_or (md_name (cl_metadata claim)) "source claim name is unavailable";
  uid ← ok_or (md_uid (cl_metadata claim)) "source claim UID is unavailable";
  Ok (mkBinding ns name uid (bytes / GIB)).

Definition mounts_claim (pod : Pod) (p : string → bool) : bool :=
  is_some_and (po_spec pod) (λ spec, existsb (λ v, is_some_and (vo_claim v) (λ m, p (cm_claim_name m))) (default [] (ps_volumes spec))).

Definition no_items {A} (o : option (list A)) : bool := match o with Some (_ :: _) => false | _ => true end.

Definition validate_helper_spec (actual desired : Pod) : result string () :=
  actual_spec ← ok_or (po_spec actual) "helper Pod has no spec";
  desired_spec ← ok_or (po_spec desired) "helper Pod desired spec is missing";
  match ps_containers actual_spec with
  | [actual_container] =>
      _ ← ensure (no_items (ps_init_containers actual_spec) && no_items (ps_ephemeral_containers actual_spec)
                  && bool_decide (ps_automount_service_account_token actual_spec = Some false)
                  && bool_decide (ps_volumes actual_spec = ps_volumes desired_spec)
                  && bool_decide (ps_security_context actual_spec = ps_security_context desired_spec)
                  && negb (default false (ps_host_network actual_spec)) && negb (default false (ps_host_pid actual_spec))
                  && negb (default false (ps_host_ipc actual_spec)) && negb (has_owner (po_metadata actual)))
            "helper Pod security or volume manifest changed";
      match ps_containers desired_spec with
      | desired_container :: _ =>
          ensure (bool_decide (ct_name actual_container = ct_name desired_container)
                  && bool_decide (ct_image actual_container = ct_image desired_container)
                  && bool_decide (ct_command actual_container = ct_command desired_container)
                  && bool_decide (ct_args actual_container = ct_args desired_container)
                  && bool_decide (ct_env actual_container = ct_env desired_container)
                  && negb (is_some (ct_env_from actual_container))
                  && bool_decide (ct_volume_mounts actual_container = ct_volume_mounts desired_container)
                  && bool_decide (ct_security_context actual_container = ct_security_context desired_container))
            "helper Pod command, image, credentials or mounts changed"
      | [] => Err "helper Pod desired container is missing"      (** not reached: an index *)
      end
  | _ => Err "helper Pod security or volume manifest changed"
  end.

Definition storage_shrink_image (c : KubernetesCoordinator) : result StorageError.t string :=
  image ← ok_or (kc_env c "MWC_STORAGE_SHRINK_IMAGE") StorageError.WorkspaceStorageShrinkUnavailable;
  let valid :=
    match rsplit_once "@sha256:" image with
    | Some (repository, digest) =>
        negb (bool_decide (repository = [])) && negb (bool_decide (64 ∈ repository)) && negb (existsb is_whitespace (decode_utf8 repository))
        && (Z.of_nat (length digest) =? 64) && forallb (λ b, is_ascii_digit b || in_range 97 102 b) digest
    | None => false
    end in
  _ ← ensure (valid && bool_decide (kc_env c "MWC_STORAGE_SHRINK_XATTR_POLICY" = Some "posix-user"))
        StorageError.WorkspaceStorageShrinkUnavailable;
  Ok image.

Section ShrinkCluster.
Context (c : KubernetesCoordinator) `{UuidText} `{StorageErrorText} `{StatefulSetJson} `{UsageJson} `{HelperScripts} `{SelectorJson}.

Definition validate_helper_policy (policy : NetworkPolicy) (op_id : Uuid) : result string () :=
  spec ← ok_or (np_spec policy) "helper NetworkPolicy spec is missing";
  selector ← ok_or (np_pod_selector spec) "helper NetworkPolicy selector is missing";
  ensure (bool_decide (ls_match_labels selector = Some {[ OPERATION_LABEL := uuid_to_string op_id ]})
          && no_items (ls_match_expressions selector) && no_items (np_ingress spec) && no_items (np_egress spec)
          && bool_decide (list_to_set (C := gset string) (default [] (np_policy_types spec)) = {[ "Ingress"; "Egress" ]}))
    "helper NetworkPolicy rules/selectors changed; refusing reuse".

(** [self.builder.labels(workspace.id)]. *)
Definition workspace_labels (w : Workspace) : gmap string string :=
  <[WORKSPACE_ID_LABEL := uuid_to_string (ws_id w)]>
    (<[MANAGED_BY_LABEL := "memeloop-workspace-control"]> {[ OWNER_INSTALLATION_LABEL := kc_installation_id c ]}).

Definition runtime_resources (w : Workspace) : CM WorkspaceResourceNames :=
  cm_give (resources_of <$> ok_or (for_workspace_names (kc_installation_id c) (ws_short_id w)) (safe_text "workspace runtime identity is invalid")).

Definition shrink_owned (metadata : ObjectMeta) (w : Workspace) : result string () :=
  labels ← ok_or (md_labels metadata) "storage migration requires ownership labels";
  ensure (bool_decide (md_namespace metadata = Some ns)
          && bool_decide (labels !! WORKSPACE_ID_LABEL = Some (uuid_to_string (ws_id w)))
          && bool_decide (labels !! OWNER_INSTALLATION_LABEL = Some (kc_installation_id c))
          && is_some (md_uid metadata) && negb (is_some (md_deletion_timestamp metadata)))
    "storage migration resource ownership/UID validation failed".

(** ** Claims and volumes *)

(** The part of [shrink_claim] after the claim was read. *)
Definition check_claim (binding : WorkspaceHomeVolumeBinding) (bound : bool) (claim : Claim) : result string () :=
  spec ← ok_or (cl_spec claim) "claim spec is missing";
  bytes ← ok_or (checked_mul_u64 (vb_capacity_gib binding) GIB) "claim capacity overflow";
  ensure (bool_decide (md_uid (cl_metadata claim) = Some (vb_claim_uid binding))
          && is_none_or (cs_volume_mode spec) (λ mode, String.eqb mode "Filesystem")
          && bool_decide (storage_bytes (cs_requests spec) = Some bytes)
          && (negb bound || bool_decide ((cl_status claim ≫= ct_phase) = Some "Bound")
                            && bool_decide (storage_bytes (cl_status claim ≫= ct_capacity) = Some bytes)))
    "claim UID, filesystem mode or capacity changed during migration".

Definition shrink_claim (w : Workspace) (binding : WorkspaceHomeVolumeBinding) (bound : bool) : CM Claim :=
  _ ← cm_require (binding_is_valid binding && bool_decide (vb_namespace binding = ns)) "invalid storage migration claim namespace or binding";
  claim ← ask (GetClaim ns (vb_claim_name binding));
  _ ← cm_give (shrink_owned (cl_metadata claim) w);
  _ ← cm_give (check_claim binding bound claim);
  mret claim.

Definition longhorn_env : string := default "longhorn-system" (kc_env c "MWC_LONGHORN_NAMESPACE").

Definition shrink_volume_identity (w : Workspace) (binding : WorkspaceHomeVolumeBinding) : CM StorageVolumeIdentity :=
  claim ← shrink_claim w binding true;
  claim_spec ← cm_some (cl_spec claim) "claim spec is missing";
  name ← cm_some (cs_volume_name claim_spec) "source PV name is missing";
  volume ← ask (GetVolume name);
  spec ← cm_some (pv_spec volume) "PV spec is missing";
  csi ← cm_some (pv_csi spec) "safe shrink/reclaim requires a CSI volume";
  class_name ← cm_some (cs_storage_class_name claim_spec) "CSI storage class is missing";
  class ← ask (GetStorageClass class_name);
  _ ← cm_require (bool_decide (sc_provisioner class = csi_driver_name csi) && bool_decide (pv_storage_class_name spec = Some class_name))
        "CSI driver does not match the source storage class";
  uid ← cm_some (md_uid (pv_metadata volume)) "PV UID is missing";
  let identity := mkIdentity name uid (csi_driver_name csi) (csi_handle csi) class_name None None in
  _ ← cm_give (validate_pv_identity volume binding identity);
  if bool_decide (csi_driver_name csi = LONGHORN_DRIVER) then
    longhorn ← ask (GetLonghornVolume longhorn_env (csi_handle csi));
    longhorn_uid ← cm_some (md_uid longhorn) "Longhorn Volume UID is missing";
    mret (mkIdentity name uid (csi_driver_name csi) (csi_handle csi) class_name (Some longhorn_env) (Some longhorn_uid))
  else mret identity.

(** ** Reclamation *)
Definition check_longhorn_backend (identity : StorageVolumeIdentity) (claim : option Claim) (volume : option PersistentVolume)
    : CM (option bool) :=
  match longhorn_namespace identity, longhorn_volume_uid identity with
  | Some namespace, Some expected_uid =>
      longhorn ← ask_opt (GetLonghornVolume namespace (csi_volume_handle identity));
      match longhorn with
      | Some metadata =>
          _ ← cm_require (bool_decide (md_uid metadata = Some expected_uid)) "Longhorn Volume UID changed; refusing reclamation";
          mret (if is_some claim || is_some volume then None else Some false)
      | None => mret None
      end
  | _, _ =>
      _ ← cm_require (negb (bool_decide (csi_driver identity = LONGHORN_DRIVER)))
            "Longhorn backend identity was not recorded; refusing reclamation";
      mret None
  end.

Definition reclaim_policy (volume : PersistentVolume) : option string := pv_spec volume ≫= pv_reclaim_policy.
Definition option_string (o : option string) : Value := match o with Some s => Str s | None => Null end.

(** The merge patch that gives a volume back with its claim. *)
Definition delete_policy_patch (identity : StorageVolumeIdentity) (volume : PersistentVolume) : Value :=
  json_object [("metadata", json_object [("uid", Str (pv_uid identity));
                                         ("resourceVersion", option_string (md_resource_version (pv_metadata volume)))]);
               ("spec", json_object [("persistentVolumeReclaimPolicy", Str "Delete")])].

Definition delete_released_volume (volume : PersistentVolume) (identity : StorageVolumeIdentity) : CM () :=
  if negb (bool_decide (reclaim_policy volume = Some "Delete")) then
    ask (PatchVolume (pv_name identity) (delete_policy_patch identity volume))
  else if is_some_and (pv_phase volume) (λ phase, String.eqb phase "Released" || String.eqb phase "Failed")
          && negb (is_some (md_deletion_timestamp (pv_metadata volume))) then
    ask (DeleteVolume (pv_name identity) (mkPreconditions (Some (pv_uid identity)) (md_resource_version (pv_metadata volume))))
  else mret ().

Definition ensure_claim_unmounted (binding : WorkspaceHomeVolumeBinding) : CM () :=
  pods ← ask (ListPods ns None);
  cm_require (forallb (λ pod, negb (mounts_claim pod (String.eqb (vb_claim_name binding)))) pods)
    "retained claim is still mounted; refusing reclamation".

(** What [delete_shrink_claim] does with a claim that is still there. *)
Definition delete_present_claim (w : Workspace) (binding : WorkspaceHomeVolumeBinding) (identity : StorageVolumeIdentity)
    (claim : Claim) (volume : option PersistentVolume) : CM bool :=
  _ ← cm_require (bool_decide (md_uid (cl_metadata claim) = Some (vb_claim_uid binding))) "source claim UID changed; refusing reclamation";
  if is_some (md_deletion_timestamp (cl_metadata claim)) then mret false
  else
    _ ← cm_give (shrink_owned (cl_metadata claim) w);
    _ ← ensure_claim_unmounted binding;
    volume ← cm_some volume "source claim's verified PV disappeared before reclamation";
    if negb (bool_decide (reclaim_policy volume = Some "Delete")) then
      _ ← ask (PatchVolume (pv_name identity) (delete_policy_patch identity volume)); mret false
    else
      _ ← ask (DeleteClaim ns (vb_claim_name binding)
                 (mkPreconditions (Some (vb_claim_uid binding)) (md_resource_version (cl_metadata claim))));
      mret false.

Definition delete_shrink_claim (w : Workspace) (binding : WorkspaceHomeVolumeBinding) (identity : StorageVolumeIdentity) : CM bool :=
  _ ← cm_require (bool_decide (vb_namespace binding = ns) && binding_is_valid binding) "invalid reclaim namespace or binding";
  claim ← ask_opt (GetClaim ns (vb_claim_name binding));
  volume ← ask_opt (GetVolume (pv_name identity));
  _ ← cm_give (match volume with Some volume => validate_pv_identity volume binding identity | None => Ok () end);
  waiting ← check_longhorn_backend identity claim volume;
  match waiting, claim with
  | Some waiting, _ => mret waiting
  | None, None =>
      match volume with
      | Some volume => _ ← delete_released_volume volume identity; mret false
      | None => mret true
      end
  | None, Some claim => delete_present_claim w binding identity claim volume
  end.

(** One turn of the loop of [reclaim_shrink_sources]. *)
Definition reclaim_source (w : Workspace) (selected : StorageShrinkVolume) (current : option WorkspaceHomeVolumeBinding) : CM bool :=
  if negb (is_some (sv_target_gib selected)) then mret true
  else
    _ ← cm_require (sv_verified selected && is_some (sv_destination selected)) "reclamation requires checksum-verified destination bindings";
    destination ← cm_some (sv_destination selected) "destination is missing";
    _ ← cm_require (bool_decide (current = Some destination))
          "workspace no longer references the verified destination; refusing reclamation";
    _ ← shrink_claim w destination true;
    source ← cm_some (sv_source selected) "source is missing";
    _ ← cm_require (negb (bool_decide (vb_claim_uid source = vb_claim_uid destination))) "source and destination UID must differ";
    identity ← cm_some (sv_source_volume selected) "source PV/CSI identity was not recorded";
    delete_shrink_claim w source identity.

Definition reclaim_shrink_sources (w : Workspace) (op : StorageShrinkOperation) : CM bool :=
  home ← reclaim_source w (op_home op) (ws_home_volume_binding w);
  temporary ← reclaim_source w (op_temporary op) (ws_scratch_volume_binding w);
  mret (home && temporary).

(** ** Identities for the deletion of a workspace *)
Definition claim_name_for (op_id : Uuid) (role : string) : string := "shrink-" +:+ uuid_simple op_id +:+ "-" +:+ role.

(** A destination that was created and not recorded. *)
Definition find_destination (w : Workspace) (op_id : Uuid) (role : string) (target_gib : Z) : CM (option WorkspaceHomeVolumeBinding) :=
  let name := claim_name_for op_id role in
  claim ← ask_opt (GetClaim ns name);
  match claim with
  | Some claim =>
      _ ← cm_give (shrink_owned (cl_metadata claim) w);
      labels ← cm_some (md_labels (cl_metadata claim)) "destination labels missing";
      _ ← cm_require (bool_decide (labels !! OPERATION_LABEL = Some (uuid_to_string op_id))
                      && bool_decide (labels !! STORAGE_ROLE_LABEL = Some role) && negb (has_owner (cl_metadata claim)))
            "unrecorded destination has invalid ownership";
      uid ← cm_some (md_uid (cl_metadata claim)) "destination UID is missing";
      let binding := mkBinding ns name uid target_gib in
      _ ← shrink_claim w binding false;
      mret (Some binding)
  | None => mret None
  end.

(** The identity of a recorded claim that has none yet. *)
Definition capture_identity (w : Workspace) (op_id : Uuid) (binding : option WorkspaceHomeVolumeBinding)
    (identity : option StorageVolumeIdentity) (destination : bool) : CM (option StorageVolumeIdentity) :=
  match binding, identity with
  | Some binding, None =>
      claim ← ask_opt (GetClaim ns (vb_claim_name binding));
      match claim with
      | Some claim =>
          _ ← cm_give (shrink_owned (cl_metadata claim) w);
          _ ← cm_require (bool_decide (md_uid (cl_metadata claim) = Some (vb_claim_uid binding))
                          && (negb destination || bool_decide (label (cl_metadata claim) OPERATION_LABEL = Some (uuid_to_string op_id))))
                "storage cleanup claim identity changed";
          if is_some (cl_spec claim ≫= cs_volume_name) then identity ← shrink_volume_identity w binding; mret (Some identity)
          else mret None
      | None => mret None
      end
  | _, _ => mret identity
  end.

(** The inner loop: source, then destination. *)
Definition capture_identities (w : Workspace) (op_id : Uuid) : SM StorageShrinkVolume () :=
  selected ← sm_get;
  source ← sm_lift (capture_identity w op_id (sv_source selected) (sv_source_volume selected) false);
  _ ← sm_modify (set_sv_source_volume source);
  selected ← sm_get;
  destination ← sm_lift (capture_identity w op_id (sv_destination selected) (sv_destination_volume selected) true);
  sm_modify (set_sv_destination_volume destination).

Definition capture_shrink_volume (w : Workspace) (op_id : Uuid) (role : string) : SM StorageShrinkVolume () :=
  selected ← sm_get;
  _ ← match sv_target_gib selected, sv_destination selected with
      | Some target_gib, None =>
          found ← sm_lift (find_destination w op_id role target_gib);
          match found with Some binding => sm_modify (set_sv_destination (Some binding)) | None => mret () end
      | _, _ => mret ()
      end;
  capture_identities w op_id.

(** A method on one of the two volumes of an operation. *)
Definition on_home {A} (m : SM StorageShrinkVolume A) : SM StorageShrinkOperation A := λ op,
  then_prog (m (op_home op)) (λ rs, Done (rs.1, set_op_home rs.2 op)).
Definition on_temporary {A} (m : SM StorageShrinkVolume A) : SM StorageShrinkOperation A := λ op,
  then_prog (m (op_temporary op)) (λ rs, Done (rs.1, set_op_temporary rs.2 op)).

Definition capture_shrink_cleanup_identities (w : Workspace) : SM StorageShrinkOperation () :=
  op ← sm_get;
  _ ← on_home (capture_shrink_volume w (op_id op) "home");
  on_temporary (capture_shrink_volume w (op_id op) "temporary").

(** ** The storage of a workspace that is deleted *)
Definition recorded_volumes (op : StorageShrinkOperation) : list (option WorkspaceHomeVolumeBinding * option StorageVolumeIdentity) :=
  [(sv_source (op_home op), sv_source_volume (op_home op)); (sv_destination (op_home op), sv_destination_volume (op_home op));
   (sv_source (op_temporary op), sv_source_volume (op_temporary op));
   (sv_destination (op_temporary op), sv_destination_volume (op_temporary op))].

Fixpoint delete_recorded (w : Workspace) (pairs : list (option WorkspaceHomeVolumeBinding * option StorageVolumeIdentity))
    (seen : gset string) (complete : bool) : CM (gset string * bool) :=
  match pairs with
  | [] => mret (seen, complete)
  | (Some binding, Some identity) :: pairs =>
      if bool_decide (vb_claim_uid binding ∈ seen) then delete_recorded w pairs seen complete
      else
        gone ← delete_shrink_claim w binding identity;
        delete_recorded w pairs ({[ vb_claim_uid binding ]} ∪ seen) (complete && gone)
  | _ :: pairs => delete_recorded w pairs seen complete
  end.

(** A destination without a recorded volume. *)
Definition delete_unbound (w : Workspace) (op_id : Uuid) (selected : StorageShrinkVolume) : CM bool :=
  match sv_destination_volume selected, sv_destination selected with
  | None, Some binding =>
      claim ← ask_opt (GetClaim ns (vb_claim_name binding));
      match claim with
      | None => mret true
      | Some claim =>
          if is_some (md_deletion_timestamp (cl_metadata claim)) then mret false
          else
            _ ← cm_give (shrink_owned (cl_metadata claim) w);
            _ ← cm_require (bool_decide (md_uid (cl_metadata claim) = Some (vb_claim_uid binding))
                            && bool_decide (label (cl_metadata claim) OPERATION_LABEL = Some (uuid_to_string op_id)))
                  "unverified destination ownership changed before cleanup";
            _ ← cm_require (negb (is_some (cl_spec claim ≫= cs_volume_name)))
                  "bound destination cleanup requires a durable PV identity before deletion";
            _ ← ask (DeleteClaim ns (vb_claim_name binding)
                       (mkPreconditions (Some (vb_claim_uid binding)) (md_resource_version (cl_metadata claim))));
            mret false
      end
  | _, _ => mret true
  end.

Fixpoint delete_operations (w : Workspace) (operations : list StorageShrinkOperation) (seen : gset string) (complete : bool) : CM bool :=
  match operations with
  | [] => mret complete
  | op :: operations =>
      '(seen, complete) ← delete_recorded w (recorded_volumes op) seen complete;
      home ← delete_unbound w (op_id op) (op_home op);
      temporary ← delete_unbound w (op_id op) (op_temporary op);
      delete_operations w operations seen (complete && home && temporary)
  end.

Definition delete_workspace_shrink_storage (w : Workspace) (operations : list StorageShrinkOperation) : CM bool :=
  delete_operations w operations ∅ true.

(** ** Discovery *)
Definition discover_scratch_source (w : Workspace) : SM StorageShrinkOperation () :=
  names ← sm_lift (runtime_resources w);
  let claim_name := match ws_scratch_volume_binding w with Some binding => vb_claim_name binding | None => scratch_pvc names end in
  claim ← sm_lift (ask_opt (GetClaim ns claim_name));
  op ← sm_get;
  match claim with
  | None => sm_lift (cm_require (negb (is_some (sv_target_gib (op_temporary op))))
                       "workspace has no scratch claim; start it before requesting a scratch shrink")
  | Some claim =>
      _ ← sm_lift (cm_give (shrink_owned (cl_metadata claim) w));
      binding ← sm_lift (cm_give (binding_from_claim claim));
      sm_modify (λ op, set_op_temporary (set_sv_source (Some binding) (op_temporary op)) op)
  end.

Definition discover_home_source (w : Workspace) (names : WorkspaceResourceNames) : SM StorageShrinkOperation () :=
  op ← sm_get;
  if is_some (sv_source (op_home op)) then mret ()
  else
    claim ← sm_lift (ask (GetClaim ns (data_pvc_ordinal_zero names)));
    _ ← sm_lift (cm_give (shrink_owned (cl_metadata claim) w));
    binding ← sm_lift (cm_give (binding_from_claim claim));
    sm_modify (λ op, set_op_home (set_sv_source (Some binding) (op_home op)) op).

Definition discover_home (w : Workspace) : SM StorageShrinkOperation () :=
  op ← sm_get;
  home ← sm_lift (cm_some (sv_source (op_home op)) "Home source claim was not found");
  _ ← sm_lift (shrink_claim w home true);
  _ ← sm_modify (set_op_original_home_gib (vb_capacity_gib home));
  _ ← (if is_some (sv_source_volume (op_home op)) then mret ()
       else identity ← sm_lift (shrink_volume_identity w home);
            sm_modify (λ op, set_op_home (set_sv_source_volume (Some identity) (op_home op)) op));
  sm_lift (cm_require (negb (is_some_and (sv_target_gib (op_home op)) (λ target, vb_capacity_gib home <=? target)))
             "Home target is not smaller than actual source capacity").

Definition discover_temporary (w : Workspace) : SM StorageShrinkOperation () :=
  op ← sm_get;
  match sv_source (op_temporary op) with
  | None => mret ()
  | Some scratch =>
      _ ← sm_lift (shrink_claim w scratch true);
      _ ← sm_modify (set_op_original_temporary_storage_gib (vb_capacity_gib scratch));
      _ ← (if is_some (sv_source_volume (op_temporary op)) then mret ()
           else identity ← sm_lift (shrink_volume_identity w scratch);
                sm_modify (λ op, set_op_temporary (set_sv_source_volume (Some identity) (op_temporary op)) op));
      sm_lift (cm_require (negb (is_some_and (sv_target_gib (op_temporary op)) (λ target, vb_capacity_gib scratch <=? target)))
                 "temporary target is not smaller than actual source capacity")
  end.

Definition discover_shrink_sources (w : Workspace) : SM StorageShrinkOperation () :=
  names ← sm_lift (runtime_resources w);
  _ ← discover_home_source w names;
  _ ← discover_home w;
  op ← sm_get;
  _ ← (if is_some (sv_source (op_temporary op)) then mret () else discover_scratch_source w);
  discover_temporary w.

(** ** Retention and stopping *)
Record ShrinkWorkload := mkWorkload { sw_set : StatefulSet; sw_current : Value }.

Definition shrink_workload (name : string) : CM (option ShrinkWorkload) :=
  current ← ask_opt (GetStatefulSet ns name);
  match current with
  | Some current => set ← cm_give (map_err safe_text (set_of_value current)); mret (Some (mkWorkload set current))
  | None => mret None
  end.

Definition apply_shrink_workload (apply : Value) : CM () :=
  name ← cm_some (as_str (index (index apply "metadata") "name")) "workspace apply name is missing";
  ask (ApplyStatefulSet ns name FIELD_MANAGER apply).

Definition is_retained (set : StatefulSet) : bool :=
  is_some_and (ss_spec set ≫= ss_retention) (λ policy,
    bool_decide (rp_when_scaled policy = Some "Retain") && bool_decide (rp_when_deleted policy = Some "Retain")).
Definition is_observed (set : StatefulSet) : bool :=
  negb (default 0 (ss_observed_generation set) <? default 0 (md_generation (ss_metadata set))).

(** The object an owner reference names. *)
Definition is_owner (owner : OwnerReference) (kind : string) (metadata : option ObjectMeta) : bool :=
  String.eqb (ow_kind owner) kind
  && is_some_and metadata (λ m, bool_decide (md_uid m = Some (ow_uid owner)) && bool_decide (md_name m = Some (ow_name owner))).

Definition retained_patch (op_id : Uuid) (binding : WorkspaceHomeVolumeBinding) (claim : Claim) : Value :=
  json_object [("metadata", json_object [("uid", Str (vb_claim_uid binding));
    ("resourceVersion", option_string (md_resource_version (cl_metadata claim))); ("ownerReferences", Array []);
    ("annotations", json_object [("workspace.memeloop.dev/retained-storage-shrink", Str (uuid_to_string op_id))])])].

Fixpoint retain_claims (w : Workspace) (op_id : Uuid) (pod set : option ObjectMeta) (bindings : list WorkspaceHomeVolumeBinding) : CM () :=
  match bindings with
  | [] => mret ()
  | binding :: bindings =>
      claim ← shrink_claim w binding true;
      _ ← cm_require (forallb (λ owner, is_owner owner "Pod" pod || is_owner owner "StatefulSet" set)
                        (default [] (md_owner_references (cl_metadata claim))))
            "source claim has an unrelated owner; refusing to change GC ownership";
      _ ← ask (PatchClaim ns (vb_claim_name binding) (retained_patch op_id binding claim));
      retain_claims w op_id pod set bindings
  end.

(** [.into_iter().flatten()] of the two sources. *)
Definition sources (op : StorageShrinkOperation) : list WorkspaceHomeVolumeBinding :=
  omap id [sv_source (op_home op); sv_source (op_temporary op)].

(** Whether the workload keeps its claims and has been seen to. *)
Definition retain_workload (w : Workspace) (workload : option ShrinkWorkload) : CM bool :=
  match workload with
  | Some workload =>
      _ ← cm_give (shrink_owned (ss_metadata (sw_set workload)) w);
      apply ← cm_give (retained_workload_apply (sw_current workload) false);
      if negb (is_retained (sw_set workload)) then _ ← apply_shrink_workload apply; mret false
      else mret (is_observed (sw_set workload))
  | None => mret true
  end.

Definition retain_source_claims (w : Workspace) (op : StorageShrinkOperation) (names : WorkspaceResourceNames) (set : option ObjectMeta)
    : CM bool :=
  pod ← ask_opt (GetPod ns (pod_ordinal_zero names));
  _ ← cm_give (match pod with Some pod => shrink_owned (po_metadata pod) w | None => Ok () end);
  _ ← retain_claims w (op_id op) (po_metadata <$> pod) set (sources op);
  mret true.

Definition retain_shrink_sources (w : Workspace) (op : StorageShrinkOperation) : CM bool :=
  names ← runtime_resources w;
  workload ← shrink_workload (stateful_set names);
  retained ← retain_workload w workload;
  if negb retained then mret false
  else
    retain_source_claims w op names ((λ workload, ss_metadata (sw_set workload)) <$> workload).

Fixpoint check_unowned (w : Workspace) (bindings : list WorkspaceHomeVolumeBinding) : CM () :=
  match bindings with
  | [] => mret ()
  | binding :: bindings =>
      claim ← shrink_claim w binding true;
      _ ← cm_require (negb (has_owner (cl_metadata claim))) "source claim regained a GC owner; refusing to stop";
      check_unowned w bindings
  end.

(** Whether the workload is scaled down. *)
Definition stop_workload (w : Workspace) (op : StorageShrinkOperation) (workload : ShrinkWorkload) : CM bool :=
  let set := sw_set workload in
  _ ← cm_give (shrink_owned (ss_metadata set) w);
  if negb (is_retained set) then
    apply ← cm_give (retained_workload_apply (sw_current workload) false);
    _ ← apply_shrink_workload apply; mret false
  else if negb (is_observed set) then mret false
  else
    _ ← check_unowned w (sources op);
    if negb (bool_decide ((ss_spec set ≫= ss_replicas) = Some 0)) then
      apply ← cm_give (retained_workload_apply (sw_current workload) true);
      _ ← apply_shrink_workload apply; mret false
    else mret true.

(** The claims of a migration. *)
Definition migration_claims (op : StorageShrinkOperation) : list WorkspaceHomeVolumeBinding :=
  omap id [sv_source (op_home op); sv_source (op_temporary op); sv_destination (op_home op); sv_destination (op_temporary op)].

Fixpoint check_detached (w : Workspace) (op : StorageShrinkOperation) (pods : list Pod) : result string bool :=
  match pods with
  | [] => Ok true
  | pod :: pods =>
      if bool_decide (label (po_metadata pod) OPERATION_LABEL = Some (uuid_to_string (op_id op))) then check_detached w op pods
      else
        let owns_workspace := bool_decide (label (po_metadata pod) WORKSPACE_ID_LABEL = Some (uuid_to_string (ws_id w))) in
        let mounts_source := mounts_claim pod (λ name, existsb (λ b, String.eqb (vb_claim_name b) name) (migration_claims op)) in
        if mounts_source && negb owns_workspace then Err "another Pod mounts a migration claim; refusing offline copy"
        else if owns_workspace || mounts_source then Ok false
        else check_detached w op pods
  end.

Definition migration_claims_detached (w : Workspace) (op : StorageShrinkOperation) : CM bool :=
  pods ← ask (ListPods ns None);
  cm_give (check_detached w op pods).

Definition stop_for_storage_shrink (w : Workspace) (op : StorageShrinkOperation) : CM bool :=
  names ← runtime_resources w;
  workload ← shrink_workload (stateful_set names);
  stopped ← match workload with Some workload => stop_workload w op workload | None => mret true end;
  if negb stopped then mret false else migration_claims_detached w op.

(** ** Destinations *)
Definition destination_claim (w : Workspace) (op_id : Uuid) (role : string) (spec : ClaimSpec) (target_gib : Z) : Claim :=
  mkClaim (new_meta (claim_name_for op_id role) ns
             (<[STORAGE_ROLE_LABEL := role]> (<[OPERATION_LABEL := uuid_to_string op_id]> (workspace_labels w))))
    (Some (mkClaimSpec (cs_access_modes spec) (cs_storage_class_name spec) (Some "Filesystem") None
             (Some {[ "storage" := decimal_text target_gib +:+ "Gi" ]}) None None)) None.

Definition create_shrink_destination (w : Workspace) (op : StorageShrinkOperation) (role : string)
    (source : WorkspaceHomeVolumeBinding) (target_gib : Z) : CM WorkspaceHomeVolumeBinding :=
  source_claim ← shrink_claim w source true;
  spec ← cm_some (cl_spec source_claim) "source claim spec is missing";
  let name := claim_name_for (op_id op) role in
  existing ← ask_opt (GetClaim ns name);
  existing ← match existing with
             | Some existing => mret existing
             | None => ask (CreateClaim ns (destination_claim w (op_id op) role spec target_gib))
             end;
  _ ← cm_give (shrink_owned (cl_metadata existing) w);
  _ ← cm_require (bool_decide (label (cl_metadata existing) OPERATION_LABEL = Some (uuid_to_string (op_id op)))
                  && negb (has_owner (cl_metadata existing)))
        "destination claim is not exclusive to this migration";
  uid ← cm_some (md_uid (cl_metadata existing)) "destination claim has no UID";
  let binding := mkBinding ns name uid target_gib in
  _ ← shrink_claim w binding false;
  mret binding.

(** ** Helper Pods *)
Definition mount_root_mtime_policy (op : StorageShrinkOperation) (source : WorkspaceHomeVolumeBinding) : string :=
  let matches (volume : StorageShrinkVolume) :=
    is_some_and (sv_source volume) (λ binding,
      bool_decide (vb_namespace binding = vb_namespace source) && bool_decide (vb_claim_name binding = vb_claim_name source)
      && bool_decide (vb_claim_uid binding = vb_claim_uid source)) in
  let source_identity := List.find matches [op_home op; op_temporary op] ≫= sv_source_volume in
  if is_some_and source_identity (λ identity, String.eqb (csi_driver identity) LONGHORN_DRIVER) then "longhorn-probe" else "strict".

Definition texts (l : list string) : Value := Array (Str <$> l).

Definition helper_pod_security : Value :=
  json_object [("runAsUser", Number 0); ("runAsGroup", Number 0); ("seccompProfile", json_object [("type", Str "RuntimeDefault")])].
Definition helper_security : Value :=
  json_object [("allowPrivilegeEscalation", Bool false); ("privileged", Bool false); ("readOnlyRootFilesystem", Bool true);
    ("capabilities", json_object [("drop", texts ["ALL"]); ("add", texts ["CHOWN"; "DAC_OVERRIDE"; "FOWNER"; "FSETID"])])].
Definition helper_resources : Value :=
  json_object [("requests", json_object [("cpu", Str "100m"); ("memory", Str "128Mi")]);
               ("limits", json_object [("cpu", Str "1000m"); ("memory", Str "512Mi")])].

(** Arithmetic of the release build. *)
Definition wrapping_mul_u64 (a b : Z) : Z := (a * b) mod 2 ^ 64.

Definition helper_volumes (stage : ShrinkPodStage) (source : WorkspaceHomeVolumeBinding) (destination : option WorkspaceHomeVolumeBinding)
    : list PodVolume :=
  (if is_preflight stage then [] else [mkPodVolume "source" (Some (mkClaimMount (vb_claim_name source) (Some true))) None Null])
  ++ [mkPodVolume "tmp" None None (json_object [("emptyDir", json_object [("medium", Str "Memory"); ("sizeLimit", Str "128Mi")])])]
  ++ match destination with
     | Some destination =>
         [mkPodVolume "destination" (Some (mkClaimMount (vb_claim_name destination) (if is_verify stage then Some true else None))) None Null]
     | None => []
     end.
Definition helper_mounts (stage : ShrinkPodStage) (destination : option WorkspaceHomeVolumeBinding) : list VolumeMount :=
  (if is_preflight stage then [] else [mkMount "source" "/source" (Some true) Null])
  ++ [mkMount "tmp" "/tmp" None Null]
  ++ match destination with
     | Some _ => [mkMount "destination" "/destination" (if is_verify stage then Some true else None) Null]
     | None => []
     end.

(** The conversion from JSON cannot fail on what is built here. *)
Definition migration_pod (op : StorageShrinkOperation) (metadata : ObjectMeta) (stage : ShrinkPodStage)
    (source : WorkspaceHomeVolumeBinding) (destination : option WorkspaceHomeVolumeBinding) (image : string) : Pod :=
  let root_mtime_policy := if is_verify stage then mount_root_mtime_policy op source else "strict" in
  let target_bytes := match destination with
                      | Some binding => decimal_text (wrapping_mul_u64 (vb_capacity_gib binding) GIB)
                      | None => "0"
                      end in
  let env := [mkEnvVar "TARGET_BYTES" (Some target_bytes) Null; mkEnvVar "OPERATION_ID" (Some (uuid_to_string (op_id op))) Null;
              mkEnvVar "MOUNT_ROOT_MTIME_POLICY" (Some root_mtime_policy) Null] in
  let container := mkContainer "migrate" (Some image) (Some ["/bin/bash"; "-c"]) (Some [script stage]) (Some env) None
                     (Some (helper_mounts stage destination)) (Some helper_security) (Some helper_resources) (Some "File") [] in
  mkPod metadata
    (Some (mkPodSpec (Some "Never") (Some 86400) (Some false) (Some false) (Some helper_pod_security) [container] None None
             (Some (helper_volumes stage source destination)) None None None None None [])) None.

Definition parse_usage_evidence (status : option PodStatus) : result string ShrinkUsage :=
  message ← ok_or (containers ← status ≫= po_containers;
                   container ← List.find (λ container, String.eqb (st_name container) "migrate") containers;
                   st_terminated_message container) "copy Pod did not publish its verification result";
  ok_or (usage_of_text message) "copy Pod returned invalid usage evidence".

Definition policy_name (op_id : Uuid) : string := "shrink-" +:+ uuid_simple op_id.

Definition helper_policy (labels : gmap string string) (op_id : Uuid) : NetworkPolicy :=
  mkNetworkPolicy (new_meta (policy_name op_id) ns labels)
    (Some (mkPolicySpec (Some (mkSelector (Some {[ OPERATION_LABEL := uuid_to_string op_id ]}) None)) (Some ["Ingress"; "Egress"])
             (Some []) (Some []))).

Definition ensure_helper_policy (w : Workspace) (op : StorageShrinkOperation) (labels : gmap string string) : CM () :=
  policy ← ask_opt (GetNetworkPolicy ns (policy_name (op_id op)));
  match policy with
  | Some policy =>
      _ ← cm_give (shrink_owned (np_metadata policy) w);
      _ ← cm_require (bool_decide (label (np_metadata policy) OPERATION_LABEL = Some (uuid_to_string (op_id op))))
            "migration network policy ownership changed";
      cm_give (validate_helper_policy policy (op_id op))
  | None =>
      _ ← ask (CreateNetworkPolicy ns (helper_policy labels (op_id op)));
      mret ()
  end.

Definition helper_outcome (w : Workspace) (role : string) (stage : ShrinkPodStage) (pod : Pod) (volume : StorageShrinkVolume)
    : SM StorageShrinkOperation (option ShrinkUsage) :=
  match po_status pod ≫= po_phase with
  | Some phase =>
      if String.eqb phase "Succeeded" then
        usage ← sm_lift (cm_give (parse_usage_evidence (po_status pod)));
        _ ← sm_lift (match sv_destination volume with
                     | Some destination => if is_preflight stage then mret () else _ ← shrink_claim w destination true; mret ()
                     | None => mret ()
                     end);
        mret (Some usage)
      else if String.eqb phase "Failed" then
        sm_lift (cm_throw (role +:+ " " +:+ stage_name stage +:+
          " helper failed; check approved image tools, source readability and destination capacity"))
      else mret None
  | None => mret None
  end.

(** What the outcome of a helper says; the first UID seen is recorded. *)
Definition helper_pod_result (w : Workspace) (role : string) (stage : ShrinkPodStage) (pod : Pod) (volume : StorageShrinkVolume)
    : SM StorageShrinkOperation (option ShrinkUsage) :=
  name ← sm_lift (cm_some (md_name (po_metadata pod)) "helper Pod name is missing");
  uid ← sm_lift (cm_some (md_uid (po_metadata pod)) "helper Pod UID is missing");
  op ← sm_get;
  _ ← match op_helper_pod_uids op !! name with
      | Some expected_uid => sm_lift (cm_require (String.eqb expected_uid uid) "helper Pod UID changed; refusing its verification evidence")
      | None => sm_modify (λ op, set_op_helper_pod_uids (<[name := uid]> (op_helper_pod_uids op)) op)
      end;
  helper_outcome w role stage pod volume.

Definition helper_name (op_id : Uuid) (role : string) (stage : ShrinkPodStage) : string :=
  "shrink-" +:+ uuid_simple op_id +:+ "-" +:+ role +:+ "-" +:+ stage_name stage.

Definition volume_of (op : StorageShrinkOperation) (role : string) : StorageShrinkVolume :=
  if String.eqb role "home" then op_home op else op_temporary op.

(** The checks a helper has to pass. *)
Definition check_helper (w : Workspace) (op : StorageShrinkOperation) (role : string) (stage : ShrinkPodStage)
    (source : WorkspaceHomeVolumeBinding) (image : string) (pod : Pod) : CM Pod :=
  _ ← cm_give (shrink_owned (po_metadata pod) w);
  _ ← cm_require (bool_decide (label (po_metadata pod) OPERATION_LABEL = Some (uuid_to_string (op_id op)))) "copy Pod belongs to another operation";
  policy ← ask (GetNetworkPolicy ns (policy_name (op_id op)));
  _ ← cm_give (shrink_owned (np_metadata policy) w);
  _ ← cm_give (validate_helper_policy policy (op_id op));
  _ ← cm_give (validate_helper_spec pod
                 (migration_pod op (new_meta (helper_name (op_id op) role stage) ns (default ∅ (md_labels (po_metadata pod)))) stage source
                    (sv_destination (volume_of op role)) image));
  mret pod.

(** The helper that there is, or a new one; then its checks. *)
Definition helper_pod (w : Workspace) (op : StorageShrinkOperation) (role : string) (stage : ShrinkPodStage)
    (source : WorkspaceHomeVolumeBinding) (image : string) : CM Pod :=
  let name := helper_name (op_id op) role stage in
  let destination := sv_destination (volume_of op role) in
  let labels := <[OPERATION_LABEL := uuid_to_string (op_id op)]> (<[COMPONENT_LABEL := "storage-shrink"]> (workspace_labels w)) in
  existing ← ask_opt (GetPod ns name);
  pod ← match existing with
        | Some pod => mret pod
        | None =>
            _ ← ensure_helper_policy w op labels;
            ask (CreatePod ns (migration_pod op (new_meta name ns labels) stage source destination image))
        end;
  check_helper w op role stage source image pod.

Definition shrink_pod (w : Workspace) (role : string) (stage : ShrinkPodStage) : SM StorageShrinkOperation (option ShrinkUsage) :=
  op ← sm_get;
  let volume := volume_of op role in
  source ← sm_lift (cm_some (sv_source volume) "migration source is missing");
  image ← sm_lift (cm_give (map_err (λ e, safe_text (storage_error_to_string e)) (storage_shrink_image c)));
  _ ← sm_lift (shrink_claim w source true);
  _ ← sm_lift (match sv_destination volume with
               | Some destination => if is_preflight stage then mret () else _ ← shrink_claim w destination false; mret ()
               | None => mret ()
               end);
  pod ← sm_lift (helper_pod w op role stage source image);
  helper_pod_result w role stage pod volume.

Fixpoint remove_pods (w : Workspace) (op : StorageShrinkOperation) (pods : list Pod) : CM () :=
  match pods with
  | [] => mret ()
  | pod :: pods =>
      let m := po_metadata pod in
      _ ← cm_give (shrink_owned (mkMeta (md_name m) (md_namespace m) (md_uid m) (md_resource_version m) (md_generation m) (md_labels m)
                                   (md_owner_references m) None (md_annotations m) (md_creation_timestamp m)) w);
      name ← cm_some (md_name m) "helper Pod name is missing";
      _ ← cm_require (is_none_or (op_helper_pod_uids op !! name) (λ expected, bool_decide (md_uid m = Some expected)))
            "helper Pod UID changed before cleanup";
      _ ← (if is_some (md_deletion_timestamp m) then mret ()
           else ask (DeletePod ns name (mkPreconditions (md_uid m) (md_resource_version m))));
      remove_pods w op pods
  end.

Definition remove_policy (w : Workspace) (op_id : Uuid) : CM bool :=
  policy ← ask_opt (GetNetworkPolicy ns (policy_name op_id));
  match policy with
  | Some policy =>
      let m := np_metadata policy in
      if is_some (md_deletion_timestamp m) then mret false
      else
        _ ← cm_give (shrink_owned m w);
        _ ← cm_require (bool_decide (label m OPERATION_LABEL = Some (uuid_to_string op_id)))
              "helper NetworkPolicy ownership changed before cleanup";
        _ ← ask (DeleteNetworkPolicy ns (policy_name op_id) (mkPreconditions (md_uid m) (md_resource_version m)));
        mret false
  | None => mret true
  end.

Definition remove_shrink_helpers (w : Workspace) (op : StorageShrinkOperation) : CM bool :=
  pods ← ask (ListPods ns (Some (OPERATION_LABEL +:+ "=" +:+ uuid_to_string (op_id op))));
  match pods with
  | [] => remove_policy w (op_id op)
  | _ => _ ← remove_pods w op pods; mret false
  end.

(** ** The coordinator of the job handlers

    [base] has the methods that are not part of a migration. *)
Definition shrink_coordinator {K} `{KubeServer K} (base : Coordinator K) : Coordinator K := {|
  unix_timestamp := unix_timestamp;
  database_lost := database_lost;
  has_observed_replicas := has_observed_replicas;
  recover_scratch_scheduling := recover_scratch_scheduling;
  delete_stopped_scratch := delete_stopped_scratch;
  delete_or_confirm := delete_or_confirm;
  apply_workspace := apply_workspace;
  reconcile_injections := reconcile_injections;
  Reconcile.delete_workspace_shrink_storage w operations := run (delete_workspace_shrink_storage w operations);
  Reconcile.capture_shrink_cleanup_identities w op := run (capture_shrink_cleanup_identities w op);
  Reconcile.discover_shrink_sources w op := run (discover_shrink_sources w op);
  Reconcile.shrink_pod w op role stage := run (shrink_pod w role stage op);
  Reconcile.retain_shrink_sources w op := run (retain_shrink_sources w op);
  Reconcile.stop_for_storage_shrink w op := run (stop_for_storage_shrink w op);
  Reconcile.create_shrink_destination w op role source target_gib := run (create_shrink_destination w op role source target_gib);
  Reconcile.shrink_volume_identity w binding := run (shrink_volume_identity w binding);
  Reconcile.remove_shrink_helpers w op := run (remove_shrink_helpers w op);
  Reconcile.reclaim_shrink_sources w op := run (reclaim_shrink_sources w op);
|}.
End ShrinkCluster.
