(* ===== verification/ShrinkSafety.v ===== *)
(** * Safety of a storage migration in the cluster

    What the methods of [ShrinkCluster] may do, whatever the Kubernetes server
    answers and whoever else changes the cluster between two requests: which
    requests they make, after which answers, and what a result that reports success
    rests on. *)
From S2P Require Import Prelude Text Json Workspaces Errors ShrinkOperation Quantity Database WorkspaceStore Reconcile ShrinkHandler Names WorkspaceResponse WorkloadApply KubeApi ShrinkCluster.

Section Safety.
Context (c : KubernetesCoordinator) `{UuidText} `{StorageErrorText} `{StatefulSetJson} `{UsageJson} `{HelperScripts} `{SelectorJson}.
Abbreviation owned m w := (shrink_owned c m w = Ok ()).

(** ** What was read *)

(** The claim of [b] was read, belongs to the workspace and is as recorded. *)
Definition checked_claim (w : Workspace) (b : WorkspaceHomeVolumeBinding) (bound : bool) (past : list Event) : Prop :=
  ∃ claim, Answered past (GetClaim ns (vb_claim_name b)) claim ∧ owned (cl_metadata claim) w ∧ check_claim b bound claim = Ok ().

(** Nothing mounts the claim of [b]. *)
Definition unmounted (b : WorkspaceHomeVolumeBinding) (past : list Event) : Prop :=
  ∃ pods, Answered past (ListPods ns None) pods ∧ ∀ pod, pod ∈ pods → mounts_claim pod (String.eqb (vb_claim_name b)) = false.

(** The volume of [identity] was read and is the one recorded for [b]. *)
Definition checked_volume (b : WorkspaceHomeVolumeBinding) (identity : StorageVolumeIdentity) (volume : PersistentVolume) (past : list Event) : Prop :=
  Answered past (GetVolume (pv_name identity)) volume ∧ validate_pv_identity volume b identity = Ok ().

(** The claim of [b] was read, is the one recorded and free to be taken away. *)
Definition free_claim (w : Workspace) (b : WorkspaceHomeVolumeBinding) (claim : Claim) (past : list Event) : Prop :=
  Answered past (GetClaim ns (vb_claim_name b)) claim ∧ md_uid (cl_metadata claim) = Some (vb_claim_uid b) ∧
  owned (cl_metadata claim) w ∧ unmounted b past.

Definition deletable (volume : PersistentVolume) : Prop := reclaim_policy volume = Some "Delete".

(** The requests that may take the volume [identity] of [b] away: its policy is
    changed, its claim or the released volume itself deleted, each with the UID that
    was recorded and the version that was checked. *)
Definition removes (w : Workspace) (b : WorkspaceHomeVolumeBinding) (identity : StorageVolumeIdentity) (past : list Event) (A : Type)
    (req : Kube A) : Prop :=
  ∃ volume, checked_volume b identity volume past ∧
  match req with
  | PatchVolume name patch =>
      name = pv_name identity ∧ patch = delete_policy_patch identity volume ∧
      (Absent past (GetClaim ns (vb_claim_name b)) ∨ ∃ claim, free_claim w b claim past)
  | DeleteVolume name preconditions =>
      name = pv_name identity ∧ deletable volume ∧ Absent past (GetClaim ns (vb_claim_name b)) ∧
      preconditions = mkPreconditions (Some (pv_uid identity)) (md_resource_version (pv_metadata volume)) ∧
      (pv_phase volume = Some "Released" ∨ pv_phase volume = Some "Failed")
  | DeleteClaim namespace name preconditions =>
      namespace = ns ∧ name = vb_claim_name b ∧ deletable volume ∧ ∃ claim, free_claim w b claim past ∧
      preconditions = mkPreconditions (Some (vb_claim_uid b)) (md_resource_version (cl_metadata claim))
  | _ => False
  end.

(** Claim, volume and, where one was recorded, backend are gone. *)
Definition gone (b : WorkspaceHomeVolumeBinding) (identity : StorageVolumeIdentity) (past : list Event) : Prop :=
  Absent past (GetClaim ns (vb_claim_name b)) ∧ Absent past (GetVolume (pv_name identity)) ∧
  ∀ namespace uid, longhorn_namespace identity = Some namespace → longhorn_volume_uid identity = Some uid →
    Absent past (GetLonghornVolume namespace (csi_volume_handle identity)).

Lemma gone_mono b identity past past' : gone b identity past → past ⊆ past' → gone b identity past'.
Proof. intros (Hc & Hv & Hl) Hs. split_and!; [by eapply Absent_mono..|]. intros n u Hn Hu. eapply Absent_mono; [by eapply Hl|done]. Qed.

(** ** Reading claims *)
Section Reading.
Context (permitted : list Event → ∀ A, Kube A → Prop) {Hreads : ReadsPermitted permitted}.

Ltac read := by apply reads_permitted.

Lemma shrink_claim_wp w b bound past (Q : list Event → Claim → Prop) :
  (∀ claim past', past ⊆ past' → binding_is_valid b = true → Answered past' (GetClaim ns (vb_claim_name b)) claim →
     owned (cl_metadata claim) w → check_claim b bound claim = Ok () → Q past' claim) →
  cwp permitted (shrink_claim c w b bound) past Q.
Proof using Hreads.
  intros HQ. unfold shrink_claim. do 2 cm_step; [read|]. cm_step. cm_step. cm_step.
  destruct (binding_is_valid b) eqn:Hv; [|done]. destruct a0, a1. by apply HQ.
Qed.

Lemma shrink_claim_checked w b bound past (Q : list Event → Claim → Prop) :
  (∀ claim past', past ⊆ past' → checked_claim w b bound past' → Q past' claim) →
  cwp permitted (shrink_claim c w b bound) past Q.
Proof using Hreads. intros HQ. apply shrink_claim_wp. intros claim past' Hs _ Ha Ho Hc. apply HQ; [done|]. by exists claim. Qed.
End Reading.

Lemma check_claim_unmounted b pods : forallb (λ pod, negb (mounts_claim pod (String.eqb (vb_claim_name b)))) pods = true →
  ∀ pod, pod ∈ pods → mounts_claim pod (String.eqb (vb_claim_name b)) = false.
Proof. intros Hall pod Hin%list_elem_of_In. rewrite forallb_forall in Hall. by apply negb_true_iff, Hall. Qed.

(** ** Taking a volume away *)
Section Removal.
Context (permitted : list Event → ∀ A, Kube A → Prop) {Hreads : ReadsPermitted permitted}.
Context (w : Workspace) (b : WorkspaceHomeVolumeBinding) (identity : StorageVolumeIdentity).

Ltac read := by apply reads_permitted.

Lemma check_longhorn_wp claim volume past (Q : list Event → option bool → Prop) :
  (∀ past' r, past ⊆ past' → r ≠ Some true →
     (r = None → claim = None → volume = None → ∀ namespace uid, longhorn_namespace identity = Some namespace →
        longhorn_volume_uid identity = Some uid → Absent past' (GetLonghornVolume namespace (csi_volume_handle identity))) → Q past' r) →
  cwp permitted (check_longhorn_backend identity claim volume) past Q.
Proof using Hreads.
  intros HQ. unfold check_longhorn_backend.
  destruct (longhorn_namespace identity) as [namespace|] eqn:Hn; destruct (longhorn_volume_uid identity) as [uid|] eqn:Hu.
  1: cm_step; [read| |].
  - cm_step. cm_step. apply HQ; [done|by destruct (_ || _)|]. intros Hr -> ->. done.
  - cm_step. apply HQ; [done..|]. intros _ _ _ n u [= <-] [= <-]. done.
  - cm_step. cm_step. apply HQ; naive_solver.
  - cm_step. cm_step. apply HQ; naive_solver.
  - cm_step. cm_step. apply HQ; naive_solver.
Qed.

Context (past : list Event) (Q : list Event → bool → Prop).
Context (Hpermitted : ∀ past' A (req : Kube A), past ⊆ past' → is_write req = true → removes w b identity past' A req → permitted past' A req).
Context (HQ : ∀ past' r, past ⊆ past' → (r = true → gone b identity past') → Q past' r).

Lemma delete_released_wp volume past1 : past ⊆ past1 → checked_volume b identity volume past1 → Absent past1 (GetClaim ns (vb_claim_name b)) →
  cwp permitted (_ ← delete_released_volume volume identity; mret false) past1 Q.
Proof using Hreads Hpermitted HQ.
  intros Hs Hv Hc. unfold delete_released_volume. apply cwp_bind. destruct (negb _) eqn:Hp.
  - cm_step; [apply Hpermitted; [done..|]; by exists volume; auto|]. cm_step. apply HQ; [set_solver|done].
  - apply negb_false_iff, bool_decide_eq_true in Hp. destruct (_ && _) eqn:Hphase.
    + cm_step; [|cm_step; apply HQ; [set_solver|done]]. apply Hpermitted; [done..|]. exists volume.
      split_and!; try done. apply andb_true_iff in Hphase as [Hphase _]. destruct (pv_phase volume) as [phase|]; [|done].
      apply orb_true_iff in Hphase as [->%String.eqb_eq| ->%String.eqb_eq]; auto.
    + cm_step. cm_step. by apply HQ.
Qed.

Lemma delete_present_wp claim volume past1 : past ⊆ past1 → Answered past1 (GetClaim ns (vb_claim_name b)) claim →
  (∀ v, volume = Some v → checked_volume b identity v past1) → cwp permitted (delete_present_claim c w b identity claim volume) past1 Q.
Proof using Hreads Hpermitted HQ.
  intros Hs Hc Hv. unfold delete_present_claim. cm_step. destruct (is_some (md_deletion_timestamp _)); [cm_step; by apply HQ|].
  cm_step. unfold ensure_claim_unmounted. apply cwp_bind. cm_step; [read|]. cm_step. cm_step.
  assert (free_claim w b claim past0) as Hfree.
  { destruct a. split_and!; [done|by eapply bool_decide_eq_true|done|]. exists a0. split; [done|by apply check_claim_unmounted]. }
  match goal with Hv' : volume = Some ?v |- _ => assert (checked_volume b identity v past0) as Hvol end.
  { destruct (Hv _ ltac:(eassumption)) as [Ha ?]. split; [by eapply Answered_mono|done]. }
  destruct (negb _) eqn:Hp; (cm_step; [apply Hpermitted; [set_solver|done|]|cm_step; apply HQ; [set_solver|done]]).
  - eexists. split; [exact Hvol|]. eauto.
  - apply negb_false_iff, bool_decide_eq_true in Hp. eexists. split; [exact Hvol|]. eauto 10.
Qed.

Lemma delete_shrink_claim_wp : cwp permitted (delete_shrink_claim c w b identity) past Q.
Proof using Hreads Hpermitted HQ.
  unfold delete_shrink_claim. cm_step. cm_step; [read| |]; (cm_step; [read| |]); cm_step; apply cwp_bind, check_longhorn_wp;
    intros past4 r Hs4 Hr Hlong; remember_answers Hs4; (destruct r as [[]|]; [done|cm_step; apply HQ; [set_solver|done]|]).
  - apply delete_present_wp; [set_solver|done|]. intros v [= <-]. destruct a1. by split.
  - apply delete_present_wp; [set_solver|done|done].
  - apply delete_released_wp; [set_solver| |done]. destruct a0. by split.
  - cm_step. apply HQ; [set_solver|]. intros _. split_and!; [done..|by apply Hlong].
Qed.
End Removal.

Lemma checked_claim_mono w b bound past past' : checked_claim w b bound past → past ⊆ past' → checked_claim w b bound past'.
Proof. intros (claim & Ha & Hrest) Hs. exists claim. split; [by eapply Answered_mono|done]. Qed.

(** ** Reclamation *)

(** The volumes of an operation with what the workspace uses now. *)
Definition volumes (w : Workspace) (op : StorageShrinkOperation) : list (StorageShrinkVolume * option WorkspaceHomeVolumeBinding) :=
  [(op_home op, ws_home_volume_binding w); (op_temporary op, ws_scratch_volume_binding w)].

(** [source] has been replaced: the workspace uses a verified copy of it, whose
    claim was read, belongs to the workspace, is bound and as large as recorded. *)
Definition replaced (w : Workspace) (selected : StorageShrinkVolume) (current : option WorkspaceHomeVolumeBinding)
    (source : WorkspaceHomeVolumeBinding) (identity : StorageVolumeIdentity) (past : list Event) : Prop :=
  sv_target_gib selected ≠ None ∧ sv_verified selected = true ∧ sv_source selected = Some source ∧
  sv_source_volume selected = Some identity ∧
  ∃ destination, sv_destination selected = Some destination ∧ current = Some destination ∧
    vb_claim_uid source ≠ vb_claim_uid destination ∧ checked_claim w destination true past.

Definition reclaims (w : Workspace) (op : StorageShrinkOperation) : list Event → ∀ A, Kube A → Prop := λ past A req,
  ∃ selected current source identity, (selected, current) ∈ volumes w op ∧ replaced w selected current source identity past ∧
    removes w source identity past A req.

Definition reclaimed (selected : StorageShrinkVolume) (past : list Event) : Prop :=
  sv_target_gib selected ≠ None → ∃ source identity, sv_source selected = Some source ∧ sv_source_volume selected = Some identity ∧
    gone source identity past.

Lemma reclaim_source_wp w op selected current past (Q : list Event → bool → Prop) : (selected, current) ∈ volumes w op →
  (∀ past' r, past ⊆ past' → (r = true → reclaimed selected past') → Q past' r) →
  cwp (writes (reclaims w op)) (reclaim_source c w selected current) past Q.
Proof.
  intros Hin HQ. unfold reclaim_source. destruct (sv_target_gib selected) as [target|] eqn:Ht; cbn [is_some negb].
  2: { cm_step. apply HQ; [done|]. intros _ Hnone. done. }
  do 3 cm_step. apply cwp_bind, shrink_claim_checked; [apply _|]. intros claim past1 Hs1 Hdest. do 3 cm_step.
  apply andb_true_iff in Hreq as [Hverified _]. apply bool_decide_eq_true in Hreq0. apply negb_true_iff, bool_decide_eq_false in Hreq1.
  apply delete_shrink_claim_wp; [apply _| |].
  - intros past2 A req Hs2 Hw Hr _. exists selected, current, a0, a1. split_and!; [done| |done].
    split_and!; [by rewrite Ht|done..|]. exists a. split_and!; [done..|by eapply checked_claim_mono].
  - intros past2 r Hs2 Hr. apply HQ; [set_solver|]. intros Htrue _. exists a0, a1. auto.
Qed.

Lemma reclaim_shrink_sources_wp w op :
  cwp (writes (reclaims w op)) (reclaim_shrink_sources c w op) [] (λ past r, r = true → reclaimed (op_home op) past ∧ reclaimed (op_temporary op) past).
Proof.
  unfold reclaim_shrink_sources. apply cwp_bind, (reclaim_source_wp w op); [left|]. intros past1 home Hs1 Hhome.
  apply cwp_bind, (reclaim_source_wp w op); [right; left|]. intros past2 temporary Hs2 Htemporary. cm_step.
  intros [-> ->]%andb_true_iff. split; [|by apply Htemporary]. intros Ht. destruct (Hhome eq_refl Ht) as (source & identity & ? & ? & Hg).
  exists source, identity. split_and!; [done..|by eapply gone_mono].
Qed.

(** C26: reclaiming takes away what was replaced and nothing else. Whatever the
    cluster answers, every request that changes it concerns the old volume of a
    shrunk one while the workspace uses the verified copy, whose claim was just
    read; a claim goes only if it is the recorded one by UID, belongs to the
    workspace and is mounted by no Pod, a volume only if it is the recorded one by
    UID, claim, class and backend; each request is conditional on UID and version.
    When the method reports completion, claim, volume and backend of every shrunk
    volume were seen to be gone. *)
Theorem reclaim_takes_replaced_only {K} `{KubeServer K} w op (k : K) :
  let reclaim := reclaim_shrink_sources c w op in
  all_permitted (writes (reclaims w op)) [] (events reclaim k) ∧
  ((run reclaim k).1 = Ok true → reclaimed (op_home op) (events reclaim k) ∧ reclaimed (op_temporary op) (events reclaim k)).
Proof.
  intros reclaim. destruct (cwp_run _ reclaim _ k (reclaim_shrink_sources_wp w op)) as [Hall Hdone].
  split; [done|]. intros Hr. by apply (Hdone true).
Qed.

(** ** The storage of a deleted workspace *)

(** A destination that was never bound and is still the one recorded. *)
Definition removes_unbound (w : Workspace) (op_id : Uuid) (selected : StorageShrinkVolume) (past : list Event) (A : Type) (req : Kube A) : Prop :=
  ∃ b claim, sv_destination selected = Some b ∧ sv_destination_volume selected = None ∧
    Answered past (GetClaim ns (vb_claim_name b)) claim ∧ owned (cl_metadata claim) w ∧ md_uid (cl_metadata claim) = Some (vb_claim_uid b) ∧
    label (cl_metadata claim) OPERATION_LABEL = Some (uuid_to_string op_id) ∧ (cl_spec claim ≫= cs_volume_name) = None ∧
    match req with
    | DeleteClaim namespace name preconditions =>
        namespace = ns ∧ name = vb_claim_name b ∧
        preconditions = mkPreconditions (Some (vb_claim_uid b)) (md_resource_version (cl_metadata claim))
    | _ => False
    end.

Definition is_recorded (operations : list StorageShrinkOperation) (b : WorkspaceHomeVolumeBinding) (identity : StorageVolumeIdentity) : Prop :=
  ∃ op, op ∈ operations ∧ (Some b, Some identity) ∈ recorded_volumes op.

Definition cleans_up (w : Workspace) (operations : list StorageShrinkOperation) : list Event → ∀ A, Kube A → Prop := λ past A req,
  (∃ b identity, is_recorded operations b identity ∧ removes w b identity past A req) ∨
  (∃ op selected, op ∈ operations ∧ selected ∈ [op_home op; op_temporary op] ∧ removes_unbound w (op_id op) selected past A req).

(** A recorded claim is gone, or one that has the same UID. *)
Definition uid_gone (operations : list StorageShrinkOperation) (past : list Event) (uid : string) : Prop :=
  ∃ b identity, is_recorded operations b identity ∧ vb_claim_uid b = uid ∧ gone b identity past.

Lemma uid_gone_mono operations past past' uid : uid_gone operations past uid → past ⊆ past' → uid_gone operations past' uid.
Proof. intros (b & identity & ? & ? & ?) Hs. exists b, identity. split_and!; [done..|by eapply gone_mono]. Qed.

Section Cleanup.
Context (w : Workspace) (operations : list StorageShrinkOperation).

Lemma delete_recorded_wp pairs seen complete past (Q : list Event → gset string * bool → Prop) :
  (∀ b identity, (Some b, Some identity) ∈ pairs → is_recorded operations b identity) →
  (complete = true → ∀ uid, uid ∈ seen → uid_gone operations past uid) →
  (∀ past' seen' complete', past ⊆ past' → seen ⊆ seen' →
     (∀ b identity, (Some b, Some identity) ∈ pairs → vb_claim_uid b ∈ seen') →
     (complete' = true → complete = true ∧ ∀ uid, uid ∈ seen' → uid_gone operations past' uid) → Q past' (seen', complete')) →
  cwp (writes (cleans_up w operations)) (delete_recorded c w pairs seen complete) past Q.
Proof.
  revert seen complete past. induction pairs as [|[ob oi] pairs IH]; intros seen complete past Hrec Hseen HQ; cbn [delete_recorded].
  { cm_step. apply HQ; [done..| |by auto]. intros b identity []%elem_of_nil. }
  assert (∀ b identity, (Some b, Some identity) ∈ pairs → is_recorded operations b identity) as Hrec' by (intros; apply Hrec; by right).
  destruct ob as [b|]; [|apply IH; [done..|]; intros past' seen' complete' Hs Hss Hall; apply HQ; [done..|];
    intros b' i' [|]%elem_of_cons; [done|by eapply Hall]].
  destruct oi as [identity|]; [|apply IH; [done..|]; intros past' seen' complete' Hs Hss Hall; apply HQ; [done..|];
    intros b' i' [|]%elem_of_cons; [done|by eapply Hall]].
  destruct (bool_decide (vb_claim_uid b ∈ seen)) eqn:Hb.
  { apply bool_decide_eq_true in Hb. apply IH; [done..|]. intros past' seen' complete' Hs Hss Hall. apply HQ; [done..|].
    intros b' i' [[= -> ->]|]%elem_of_cons; [set_solver|by eapply Hall]. }
  apply cwp_bind, delete_shrink_claim_wp; [apply _| |].
  { intros past' A req Hs Hw Hr _. left. exists b, identity. split; [apply Hrec; left|done]. }
  intros past1 g Hs1 Hg. apply IH; [done| |].
  - intros [-> ->]%andb_true_iff uid [->%elem_of_singleton|Hin]%elem_of_union.
    + exists b, identity. split_and!; [apply Hrec; left|done|by apply Hg].
    + eapply uid_gone_mono; [by apply Hseen|done].
  - intros past2 seen' complete' Hs2 Hss Hall Hc. apply HQ; [set_solver..| |].
    + intros b' i' [[= -> ->]|]%elem_of_cons; [set_solver|by eapply Hall].
    + intros Ht. destruct (Hc Ht) as [[-> _]%andb_true_iff ?]. done.
Qed.

Lemma delete_unbound_wp op selected past (Q : list Event → bool → Prop) : op ∈ operations → selected ∈ [op_home op; op_temporary op] →
  (∀ past' r, past ⊆ past' → Q past' r) → cwp (writes (cleans_up w operations)) (delete_unbound c w (op_id op) selected) past Q.
Proof.
  intros Hop Hsel HQ. unfold delete_unbound. destruct (sv_destination_volume selected) eqn:Hv; [cm_step; by apply HQ|].
  destruct (sv_destination selected) as [b|] eqn:Hb; [|cm_step; by apply HQ].
  cm_step; [done| |cm_step; by apply HQ]. destruct (is_some (md_deletion_timestamp _)); [cm_step; by apply HQ|].
  do 3 cm_step. cm_step; [|cm_step; apply HQ; set_solver]. intros _. right. exists op, selected. split_and!; [done..|].
  apply andb_true_iff in Hreq as [Hu%bool_decide_eq_true Hl%bool_decide_eq_true].
  exists b, a. destruct a0. split_and!; try done. destruct (cl_spec a ≫= cs_volume_name); [done|done].
Qed.

Lemma delete_operations_wp ops seen complete past (Q : list Event → bool → Prop) : ops ⊆ operations →
  (complete = true → ∀ uid, uid ∈ seen → uid_gone operations past uid) →
  (∀ past' r, past ⊆ past' →
     (r = true → complete = true ∧ ∀ b identity, is_recorded ops b identity → uid_gone operations past' (vb_claim_uid b)) → Q past' r) →
  cwp (writes (cleans_up w operations)) (delete_operations c w ops seen complete) past Q.
Proof.
  revert seen complete past. induction ops as [|op ops IH]; intros seen complete past Hops Hseen HQ; cbn [delete_operations].
  { cm_step. apply HQ; [done|]. intros ->. split; [done|]. intros b identity (op & []%elem_of_nil & _). }
  assert (op ∈ operations) as Hop by (apply Hops; left).
  apply cwp_bind, delete_recorded_wp; [intros b identity Hin; by exists op|done|].
  intros past1 seen1 complete1 Hs1 Hss1 Hall1 Hc1. cbn. apply cwp_bind, (delete_unbound_wp op); [done|left|]. intros past2 home Hs2.
  apply cwp_bind, (delete_unbound_wp op); [done|right; left|]. intros past3 temporary Hs3. apply IH; [set_solver| |].
  - intros [[-> _]%andb_true_iff _]%andb_true_iff uid Huid. eapply uid_gone_mono; [by apply Hc1|set_solver].
  - intros past4 r Hs4 Hr. apply HQ; [set_solver|]. intros Ht. destruct (Hr Ht) as [[[-> _]%andb_true_iff _]%andb_true_iff Hrest].
    destruct (Hc1 eq_refl) as [Hcomplete Hgone]. split; [done|]. intros b identity (op' & [->|Hin]%elem_of_cons & Hrec).
    + eapply uid_gone_mono; [by eapply Hgone, Hall1|set_solver].
    + eapply Hrest. by exists op'.
Qed.
End Cleanup.

(** Deleting a workspace takes away the volumes its migrations recorded and
    nothing else, each under the conditions of a reclamation, and the destinations
    that were never bound. When it reports completion, every recorded volume was
    seen to be gone, claim, volume and backend. *)
Theorem deletion_takes_recorded_only {K} `{KubeServer K} w operations (k : K) :
  let delete := delete_workspace_shrink_storage c w operations in
  all_permitted (writes (cleans_up w operations)) [] (events delete k) ∧
  ((run delete k).1 = Ok true → ∀ b identity, is_recorded operations b identity → uid_gone operations (events delete k) (vb_claim_uid b)).
Proof.
  intros delete. destruct (cwp_run (writes (cleans_up w operations)) delete
    (λ past r, r = true → ∀ b identity, is_recorded operations b identity → uid_gone operations past (vb_claim_uid b)) k) as [Hall Hdone].
  { apply delete_operations_wp; [done|set_solver|]. intros past' r _ Hr Ht. by apply Hr. }
  split; [done|]. intros Hr. by apply (Hdone true).
Qed.

(** ** Retaining and stopping *)

(** The workload that was read. *)
Definition read_workload (w : Workspace) (past : list Event) (workload : ShrinkWorkload) : Prop :=
  ∃ names, for_workspace_names (kc_installation_id c) (ws_short_id w) = Some names ∧
    Answered past (GetStatefulSet ns (stateful_set (resources_of names))) (sw_current workload) ∧
    set_of_value (sw_current workload) = Ok (sw_set workload) ∧ owned (ss_metadata (sw_set workload)) w.

(** The claim of [b] was read, is as recorded and has no owner that could take it
    along. *)
Definition unowned_claim (w : Workspace) (past : list Event) (b : WorkspaceHomeVolumeBinding) : Prop :=
  ∃ claim, Answered past (GetClaim ns (vb_claim_name b)) claim ∧ owned (cl_metadata claim) w ∧
    check_claim b true claim = Ok () ∧
    md_uid (cl_metadata claim) = Some (vb_claim_uid b) ∧ default [] (md_owner_references (cl_metadata claim)) = [].

(** A workload keeps its claims, when it is scaled down and when it is deleted, and
    its controller has seen that. *)
Definition keeps_claims (set : StatefulSet) : Prop :=
  (∃ policy, ss_spec set ≫= ss_retention = Some policy ∧ rp_when_scaled policy = Some "Retain" ∧ rp_when_deleted policy = Some "Retain") ∧
  default 0 (md_generation (ss_metadata set)) <= default 0 (ss_observed_generation set).

(** What is applied to the workload that was read as [current]: to the very object,
    by name, UID and version, the policies [Retain] and, to stop it, no replicas; all
    else is what the control plane owns of it already. *)
Definition retaining_apply (current : Value) (stop : bool) (apply : Value) : Prop :=
  (∀ f, f ∈ ["name"; "namespace"; "uid"; "resourceVersion"] →
     ∃ s, s ≠ "" ∧ index (index current "metadata") f = Str s ∧ index (index apply "metadata") f = Str s) ∧
  let policy := index (index apply "spec") "persistentVolumeClaimRetentionPolicy" in
  index policy "whenScaled" = Str "Retain" ∧ index policy "whenDeleted" = Str "Retain" ∧
  (stop = true → index (index apply "spec") "replicas" = Number 0) ∧
  ∃ projection, included 65 projection current ∧
    (∀ f, f ≠ "persistentVolumeClaimRetentionPolicy" → (stop = true → f ≠ "replicas") →
       get (index apply "spec") f = get (index projection "spec") f).

(** The owner reference names the object. *)
Definition refers_to (owner : OwnerReference) (kind : string) (object : option ObjectMeta) : Prop :=
  ow_kind owner = kind ∧ ∃ m, object = Some m ∧ md_uid m = Some (ow_uid owner) ∧ md_name m = Some (ow_name owner).

(** The patch that takes the owners off the claim: of the version that was read, with
    a note of the operation. *)
Definition disowning_patch (op : StorageShrinkOperation) (b : WorkspaceHomeVolumeBinding) (claim : Claim) (patch : Value) : Prop :=
  patch = json_object [("metadata", json_object [("uid", Str (vb_claim_uid b));
    ("resourceVersion", match md_resource_version (cl_metadata claim) with Some version => Str version | None => Null end);
    ("ownerReferences", Array []);
    ("annotations", json_object [("workspace.memeloop.dev/retained-storage-shrink", Str (uuid_to_string (op_id op)))])])].

Lemma no_owner_left m : has_owner m = false → default [] (md_owner_references m) = [].
Proof. unfold has_owner. destruct (md_owner_references m) as [[|]|]; [done| |done]. cbn. done. Qed.

(** Only the workload of the workspace is applied, with its claims retained, and it
    is scaled down only after that was seen and no source has an owner; of a claim
    only the owners and an annotation change, and only if the owners are the
    workspace's Pod and workload. *)
Definition prepares (w : Workspace) (op : StorageShrinkOperation) : list Event → ∀ A, Kube A → Prop := λ past A req,
  match req with
  | ApplyStatefulSet namespace name manager apply =>
      namespace = ns ∧ manager = FIELD_MANAGER ∧ ∃ workload stop, read_workload w past workload ∧
        index (index apply "metadata") "name" = Str name ∧ retaining_apply (sw_current workload) stop apply ∧
        (stop = true → keeps_claims (sw_set workload) ∧ ∀ b, b ∈ sources op → unowned_claim w past b)
  | PatchClaim namespace name patch =>
      namespace = ns ∧ ∃ b claim pod set, b ∈ sources op ∧ name = vb_claim_name b ∧ disowning_patch op b claim patch ∧
        Answered past (GetClaim ns name) claim ∧ owned (cl_metadata claim) w ∧ check_claim b true claim = Ok () ∧
        md_uid (cl_metadata claim) = Some (vb_claim_uid b) ∧
        (∀ owner, owner ∈ default [] (md_owner_references (cl_metadata claim)) → refers_to owner "Pod" pod ∨ refers_to owner "StatefulSet" set) ∧
        (∀ m, pod = Some m → owned m w) ∧ (∀ m, set = Some m → owned m w)
  | _ => False
  end.

Definition retained (op : StorageShrinkOperation) (past : list Event) : Prop :=
  ∀ b, b ∈ sources op → ∃ claim patch, disowning_patch op b claim patch ∧ Answered past (PatchClaim ns (vb_claim_name b) patch) ().

Lemma retaining current stop apply : retained_workload_apply current stop = Ok apply → retaining_apply current stop apply.
Proof.
  intros Ha. destruct (retained_apply_exact _ _ _ Ha) as (managers & entry & projection & _ & _ & _ & _ & Hinc & _ & Hid & _ & Hscaled & Hdeleted & _ & Hstop & Hrest).
  split; [exact Hid|]. cbv zeta. do 3 (split; [assumption|]). exists projection. split; [done|]. intros f Hf Hr. apply Hrest. intros [->|Hin]%elem_of_cons; [done|].
  destruct stop; [apply list_elem_of_singleton in Hin as ->; by apply Hr|by apply elem_of_nil in Hin].
Qed.

Lemma retained_observed set : is_retained set = true → is_observed set = true → keeps_claims set.
Proof.
  unfold is_retained, is_observed. intros Hr Ho%negb_true_iff%Z.ltb_ge. split; [|done].
  destruct (ss_spec set ≫= ss_retention) as [policy|]; [|done]. cbn in Hr.
  apply andb_true_iff in Hr as [Hs%bool_decide_eq_true Hd%bool_decide_eq_true]. by exists policy.
Qed.

Lemma is_owner_refers owner kind m : is_owner owner kind m = true → refers_to owner kind m.
Proof.
  unfold is_owner. intros [Hk%String.eqb_eq Hm]%andb_true_iff. split; [done|]. destruct m as [m|]; [|done]. cbn in Hm.
  apply andb_true_iff in Hm as [Hu%bool_decide_eq_true Hn%bool_decide_eq_true]. by exists m.
Qed.

Lemma check_claim_uid b bound claim : check_claim b bound claim = Ok () → md_uid (cl_metadata claim) = Some (vb_claim_uid b).
Proof.
  unfold check_claim. destruct (cl_spec claim); [|done]. cbn. destruct (checked_mul_u64 _ _); [|done]. cbn.
  intros [[[Hu%bool_decide_eq_true _]%andb_true_iff _]%andb_true_iff _]%ensure_Ok%andb_true_iff. done.
Qed.

(** No Pod but the helpers of the migration belongs to the workspace or mounts one
    of the claims. *)
Definition offline (w : Workspace) (op : StorageShrinkOperation) (past : list Event) : Prop :=
  ∃ pods, Answered past (ListPods ns None) pods ∧ ∀ pod, pod ∈ pods →
    label (po_metadata pod) OPERATION_LABEL = Some (uuid_to_string (op_id op)) ∨
    label (po_metadata pod) WORKSPACE_ID_LABEL ≠ Some (uuid_to_string (ws_id w)) ∧
    mounts_claim pod (λ name, existsb (λ b, String.eqb (vb_claim_name b) name) (migration_claims op)) = false.

Lemma read_workload_mono w past past' workload : read_workload w past workload → past ⊆ past' → read_workload w past' workload.
Proof. intros (names & Hn & Ha & Hrest) Hs. exists names. split_and!; [done|by eapply Answered_mono|apply Hrest..]. Qed.

Section Preparation.
Context (w : Workspace) (op : StorageShrinkOperation).
Abbreviation P := (writes (prepares w op)).

Lemma apply_workload_wp workload stop apply past (Q : list Event → () → Prop) : read_workload w past workload →
  retained_workload_apply (sw_current workload) stop = Ok apply →
  (stop = true → keeps_claims (sw_set workload) ∧ ∀ b, b ∈ sources op → unowned_claim w past b) →
  (∀ past', past ⊆ past' → Q past' ()) → cwp P (apply_shrink_workload apply) past Q.
Proof.
  intros Hw Ha%retaining Hstop HQ. unfold apply_shrink_workload. cm_step. cm_step; [|destruct a0; by apply HQ].
  intros _. split_and!; [done..|]. exists workload, stop. split_and!; try done.
  destruct (index (index apply "metadata") "name"); try done. by injection Hsome as ->.
Qed.

Lemma workload_wp past (Q : list Event → option ShrinkWorkload → Prop) names : for_workspace_names (kc_installation_id c) (ws_short_id w) = Some names →
  (∀ past' workload, past ⊆ past' → (owned (ss_metadata (sw_set workload)) w → read_workload w past' workload) → Q past' (Some workload)) →
  (∀ past', past ⊆ past' → Q past' None) → cwp P (shrink_workload (stateful_set (resources_of names))) past Q.
Proof.
  intros Hn HQ HN. unfold shrink_workload. cm_step; [done| |cm_step; by apply HN]. do 2 cm_step.
  apply HQ; [done|]. intros Ho. exists names. split_and!; [done..| |done]. cbn.
  destruct (set_of_value a); cbn in Hgive; [by injection Hgive as ->|done].
Qed.

Lemma runtime_resources_wp past (Q : list Event → WorkspaceResourceNames → Prop) :
  (∀ names, for_workspace_names (kc_installation_id c) (ws_short_id w) = Some names → Q past (resources_of names)) →
  cwp P (runtime_resources c w) past Q.
Proof.
  intros HQ. unfold runtime_resources. cm_step. destruct (for_workspace_names _ _) as [names|]; [|done]. injection Hgive as <-. by apply HQ.
Qed.

Lemma retain_claims_wp pod set bs past (Q : list Event → () → Prop) : (∀ b, b ∈ bs → b ∈ sources op) →
  (∀ m, pod = Some m → owned m w) → (∀ m, set = Some m → owned m w) →
  (∀ past', past ⊆ past' →
     (∀ b, b ∈ bs → ∃ claim patch, disowning_patch op b claim patch ∧ Answered past' (PatchClaim ns (vb_claim_name b) patch) ()) → Q past' ()) →
  cwp P (retain_claims c w (op_id op) pod set bs) past Q.
Proof.
  intros Hbs Hpod Hset. revert past. induction bs as [|b bs IH]; intros past HQ; cbn [retain_claims].
  { cm_step. apply HQ; [done|]. intros b []%elem_of_nil. }
  apply cwp_bind, shrink_claim_wp; [apply _|]. intros claim past1 Hs1 _ Ha Ho Hc. cm_step. cm_step.
  { intros _. split; [done|]. exists b, claim, pod, set. split_and!; try done; [apply Hbs; left|by eapply check_claim_uid|].
    intros owner Ho'. apply (forallb_elem _ _ _ Hreq), orb_true_iff in Ho' as [Ho'|Ho']; [left|right]; by apply is_owner_refers. }
  destruct a. apply IH; [intros b' Hb'; apply Hbs; by right|]. intros past2 Hs2 Hall. remember_answers Hs2.
  apply HQ; [set_solver|]. intros b' [->|Hb']%elem_of_cons; [by exists claim, (retained_patch (op_id op) b claim)|by apply Hall].
Qed.

Lemma check_unowned_wp bs past (Q : list Event → () → Prop) :
  (∀ past', past ⊆ past' → (∀ b, b ∈ bs → unowned_claim w past' b) → Q past' ()) → cwp P (check_unowned c w bs) past Q.
Proof.
  revert past. induction bs as [|b bs IH]; intros past HQ; cbn [check_unowned].
  { cm_step. apply HQ; [done|]. intros b []%elem_of_nil. }
  apply cwp_bind, shrink_claim_wp; [apply _|]. intros claim past1 Hs1 _ Ha Ho Hc. cm_step. apply negb_true_iff in Hreq.
  apply IH. intros past2 Hs2 Hall. remember_answers Hs2. apply HQ; [set_solver|].
  intros b' [->|Hb']%elem_of_cons; [|by apply Hall].
  exists claim. split_and!; try done; [by eapply check_claim_uid|by apply no_owner_left].
Qed.

(** What remains once the workload keeps its claims. *)
Lemma retain_rest_wp names (set : option ObjectMeta) past : (∀ m, set = Some m → owned m w) →
  cwp P (retain_source_claims c w op names set) past (λ past r, r = true → retained op past).
Proof.
  intros Hset. unfold retain_source_claims. cm_step; [done| |]; cm_step; apply cwp_bind, retain_claims_wp; try done.
  - intros m [= <-]. by destruct a0.
  - intros past2 Hs2 Hall. cm_step. by intros _.
  - intros past2 Hs2 Hall. cm_step. by intros _.
Qed.

Lemma retain_shrink_sources_wp : cwp P (retain_shrink_sources c w op) [] (λ past r, r = true → retained op past).
Proof.
  unfold retain_shrink_sources. apply cwp_bind, runtime_resources_wp. intros names Hn. apply cwp_bind, workload_wp; [done| |].
  - intros past1 workload Hs1 Hread. apply cwp_bind. unfold retain_workload. cm_step. destruct a. specialize (Hread Hgive). cm_step.
    destruct (is_retained (sw_set workload)) eqn:Hr; cbn [negb].
    + cm_step. destruct (is_observed _); cbn [negb]; [|by cm_step]. apply retain_rest_wp. by intros m [= <-].
    + apply cwp_bind, (apply_workload_wp workload false); [done..|]. intros past2 Hs2. cm_step. cbn [negb]. by cm_step.
  - intros past1 Hs1. apply cwp_bind, cwp_ret. cbn [negb]. by apply retain_rest_wp.
Qed.

Lemma check_detached_offline pods : check_detached w op pods = Ok true → ∀ pod, pod ∈ pods →
  label (po_metadata pod) OPERATION_LABEL = Some (uuid_to_string (op_id op)) ∨
  label (po_metadata pod) WORKSPACE_ID_LABEL ≠ Some (uuid_to_string (ws_id w)) ∧
  mounts_claim pod (λ name, existsb (λ b, String.eqb (vb_claim_name b) name) (migration_claims op)) = false.
Proof.
  induction pods as [|pod pods IH]; cbn [check_detached]; [intros _ pod []%elem_of_nil|].
  destruct (bool_decide (label _ OPERATION_LABEL = _)) eqn:Hl.
  { apply bool_decide_eq_true in Hl. intros Hc p [->|]%elem_of_cons; [by left|by apply IH]. }
  destruct (mounts_claim _ _) eqn:Hm; destruct (bool_decide (label _ WORKSPACE_ID_LABEL = _)) eqn:Hw; cbn [andb negb orb]; try done.
  apply bool_decide_eq_false in Hw. intros Hc p [->|]%elem_of_cons; [by right|by apply IH].
Qed.

Lemma detached_wp past : cwp P (migration_claims_detached w op) past (λ past r, r = true → offline w op past).
Proof.
  unfold migration_claims_detached. cm_step; [done|]. cm_step. intros ->. exists a. split; [done|]. by apply check_detached_offline.
Qed.

Lemma stop_for_storage_shrink_wp : cwp P (stop_for_storage_shrink c w op) [] (λ past r, r = true → offline w op past).
Proof.
  unfold stop_for_storage_shrink. apply cwp_bind, runtime_resources_wp. intros names Hn. apply cwp_bind, workload_wp; [done| |].
  - intros past1 workload Hs1 Hread. apply cwp_bind. unfold stop_workload. cm_step. destruct a. specialize (Hread Hgive).
    destruct (is_retained (sw_set workload)) eqn:Hr; cbn [negb].
    2: { cm_step. apply cwp_bind, (apply_workload_wp workload false); [done..|]. intros past2 Hs2. cm_step. cbn [negb]. by cm_step. }
    destruct (is_observed (sw_set workload)) eqn:Ho; cbn [negb]; [|cm_step; cbn [negb]; by cm_step].
    apply cwp_bind, check_unowned_wp. intros past2 Hs2 Hun. destruct (bool_decide _); cbn [negb]; [cm_step; cbn [negb]; apply detached_wp|].
    cm_step. apply cwp_bind, (apply_workload_wp workload true); [by eapply read_workload_mono|done|intros _; split; [by apply retained_observed|done]|].
    intros past3 Hs3. cm_step. cbn [negb]. by cm_step.
  - intros past1 Hs1. cm_step. cbn [negb]. apply detached_wp.
Qed.
End Preparation.


(** ** Helper Pods *)

(** The image of the helpers is configured, pinned by its digest. *)
Definition approved_image (image : string) : Prop :=
  kc_env c "MWC_STORAGE_SHRINK_IMAGE" = Some image ∧ kc_env c "MWC_STORAGE_SHRINK_XATTR_POLICY" = Some "posix-user" ∧
  ∃ repository digest, bytes image = repository ++ bytes "@sha256:" ++ digest ∧ repository ≠ [] ∧ 64 ∉ repository ∧
    length digest = 64%nat ∧ ∀ b, b ∈ digest → is_ascii_digit b = true ∨ 97 <= b <= 102.

(** A container without privileges: it cannot gain any, its image is not writable, and
    of the capabilities it keeps those that copy files with their owners and modes. *)
Definition unprivileged (container : Container) : Prop :=
  ∃ security, ct_security_context container = Some security ∧
    index security "privileged" = Bool false ∧ index security "allowPrivilegeEscalation" = Bool false ∧
    index security "readOnlyRootFilesystem" = Bool true ∧ index (index security "capabilities") "drop" = Array [Str "ALL"] ∧
    index (index security "capabilities") "add" = Array [Str "CHOWN"; Str "DAC_OVERRIDE"; Str "FOWNER"; Str "FSETID"].

(** It runs [image] with the script of the stage on this operation and its target, and
    its environment has no other source. *)
Definition runs_stage (op : StorageShrinkOperation) (stage : ShrinkPodStage) (destination : option WorkspaceHomeVolumeBinding)
    (image : string) (container : Container) : Prop :=
  ct_image container = Some image ∧ ct_command container = Some ["/bin/bash"; "-c"] ∧ ct_args container = Some [script stage] ∧
  ct_env_from container = None ∧ ∃ env, ct_env container = Some env ∧ (∀ e, e ∈ env → en_value_from e = Null) ∧
    mkEnvVar "OPERATION_ID" (Some (uuid_to_string (op_id op))) Null ∈ env ∧
    ∀ d, destination = Some d → mkEnvVar "TARGET_BYTES" (Some (decimal_text ((vb_capacity_gib d * 2 ^ 30) mod 2 ^ 64))) Null ∈ env.

(** A Pod that can do no harm: one container that is not privileged, no service
    account, no namespace of the host, and of the claims at most the source,
    read-only, and the destination, read-only while verifying. *)
Definition confined (op : StorageShrinkOperation) (stage : ShrinkPodStage) (source : WorkspaceHomeVolumeBinding)
    (destination : option WorkspaceHomeVolumeBinding) (image : string) (pod : Pod) : Prop :=
  ∃ spec container, po_spec pod = Some spec ∧ ps_containers spec = [container] ∧
    default [] (ps_init_containers spec) = [] ∧ default [] (ps_ephemeral_containers spec) = [] ∧
    ps_automount_service_account_token spec = Some false ∧
    default false (ps_host_network spec) = false ∧ default false (ps_host_pid spec) = false ∧ default false (ps_host_ipc spec) = false ∧
    unprivileged container ∧ runs_stage op stage destination image container ∧
    ∀ v m, v ∈ default [] (ps_volumes spec) → vo_claim v = Some m →
      m = mkClaimMount (vb_claim_name source) (Some true) ∧ stage ≠ Preflight ∨
      ∃ d, destination = Some d ∧ cm_claim_name m = vb_claim_name d ∧ (stage = Verify → cm_read_only m = Some true).

(** A policy that shuts off exactly the Pods with the label of the operation: no
    traffic comes in or goes out. *)
Definition shuts_off (op : StorageShrinkOperation) (policy : NetworkPolicy) : Prop :=
  ∃ spec selector, np_spec policy = Some spec ∧ np_pod_selector spec = Some selector ∧
    ls_match_labels selector = Some {[ OPERATION_LABEL := uuid_to_string (op_id op) ]} ∧ default [] (ls_match_expressions selector) = [] ∧
    default [] (np_ingress spec) = [] ∧ default [] (np_egress spec) = [] ∧
    (∀ t, t ∈ default [] (np_policy_types spec) ↔ t = "Ingress" ∨ t = "Egress").

(** The network policy that shuts the helpers off is in place. *)
Definition isolated (op : StorageShrinkOperation) (past : list Event) : Prop :=
  ∃ policy, shuts_off op policy ∧
    (Answered past (GetNetworkPolicy ns (policy_name (op_id op))) policy ∨ ∃ created, Answered past (CreateNetworkPolicy ns policy) created).

Definition destination_checked (w : Workspace) (volume : StorageShrinkVolume) (stage : ShrinkPodStage) (bound : bool) (past : list Event) : Prop :=
  ∀ d, sv_destination volume = Some d → stage ≠ Preflight → checked_claim w d bound past.

Definition helps (w : Workspace) (op : StorageShrinkOperation) (role : string) (stage : ShrinkPodStage) : list Event → ∀ A, Kube A → Prop :=
  λ past A req,
  match req with
  | CreateNetworkPolicy namespace policy => namespace = ns ∧ shuts_off op policy
  | CreatePod namespace pod =>
      namespace = ns ∧ label (po_metadata pod) OPERATION_LABEL = Some (uuid_to_string (op_id op)) ∧ isolated op past ∧
      ∃ source image, sv_source (volume_of op role) = Some source ∧ checked_claim w source true past ∧ approved_image image ∧
        destination_checked w (volume_of op role) stage false past ∧ confined op stage source (sv_destination (volume_of op role)) image pod
  | _ => False
  end.

(** What the evidence of a helper rests on: the Pod is the one recorded for its
    name, belongs to the operation, runs the approved image with the stage's script,
    is confined and isolated, and has succeeded. *)
Definition evidence (w : Workspace) (op : StorageShrinkOperation) (role : string) (stage : ShrinkPodStage) (usage : ShrinkUsage)
    (op' : StorageShrinkOperation) (past : list Event) : Prop :=
  ∃ pod source image name, sv_source (volume_of op role) = Some source ∧ approved_image image ∧
    (Answered past (GetPod ns (helper_name (op_id op) role stage)) pod ∨ ∃ desired, Answered past (CreatePod ns desired) pod) ∧
    owned (po_metadata pod) w ∧ label (po_metadata pod) OPERATION_LABEL = Some (uuid_to_string (op_id op)) ∧ isolated op past ∧
    confined op stage source (sv_destination (volume_of op role)) image pod ∧
    md_name (po_metadata pod) = Some name ∧ op_helper_pod_uids op' !! name = md_uid (po_metadata pod) ∧
    (po_status pod ≫= po_phase) = Some "Succeeded" ∧ parse_usage_evidence (po_status pod) = Ok usage ∧
    destination_checked w (volume_of op role) stage true past.

Lemma helper_volumes_confined stage source destination v m : v ∈ helper_volumes stage source destination → vo_claim v = Some m →
  m = mkClaimMount (vb_claim_name source) (Some true) ∧ stage ≠ Preflight ∨
  ∃ d, destination = Some d ∧ cm_claim_name m = vb_claim_name d ∧ (stage = Verify → cm_read_only m = Some true).
Proof.
  unfold helper_volumes. rewrite !elem_of_app. intros [Hv|[Hv|Hv]] Hm.
  - destruct stage; cbn in Hv; [by apply elem_of_nil in Hv|..]; apply list_elem_of_singleton in Hv as ->; injection Hm as <-; by left.
  - apply list_elem_of_singleton in Hv as ->. done.
  - destruct destination as [d|]; [|by apply elem_of_nil in Hv]. apply list_elem_of_singleton in Hv as ->. injection Hm as <-.
    right. exists d. split_and!; [done..|]. by intros ->.
Qed.

Lemma no_items_default {A} (o : option (list A)) : no_items o = true → default [] o = [].
Proof. by destruct o as [[|]|]. Qed.

Lemma rsplit_once_Some sep s l r : bytes sep ≠ [] → rsplit_once sep s = Some (l, r) → bytes s = l ++ bytes sep ++ r.
Proof.
  intros Hsep. unfold rsplit_once. intros ([a b] & Hs & [= -> ->])%fmap_Some.
  apply split_once_Some in Hs; [|intros E; apply Hsep; by rewrite <-(reverse_involutive (bytes sep)), E].
  apply (f_equal reverse) in Hs. by rewrite !reverse_app, !reverse_involutive, <-app_assoc in Hs.
Qed.

Lemma image_approved image : storage_shrink_image c = Ok image → approved_image image.
Proof.
  unfold storage_shrink_image. intros (image' & Himage%ok_or_Ok & E)%bind_Ok. apply bind_Ok in E as ([] & Hv%ensure_Ok & [= <-]).
  apply andb_true_iff in Hv as [Hv Hx%bool_decide_eq_true]. split_and!; [done..|].
  destruct (rsplit_once _ _) as [[repository digest]|] eqn:Hs; [|done]. apply rsplit_once_Some in Hs; [|done].
  exists repository, digest. rewrite !andb_true_iff, !negb_true_iff in Hv. destruct Hv as [[[[Hne Hat] _] Hlen] Hdigest].
  apply bool_decide_eq_false in Hne, Hat. apply Z.eqb_eq in Hlen. split_and!; [done..|lia|].
  intros b Hb. apply (forallb_elem _ _ _ Hdigest), orb_true_iff in Hb as [Hb|Hb]; [by left|right].
  unfold in_range in Hb. bool_prop. lia.
Qed.

Lemma helper_unprivileged name image command args env env_from mounts resources policy other :
  unprivileged (mkContainer name image command args env env_from mounts (Some helper_security) resources policy other).
Proof. exists helper_security. by split_and!. Qed.

Lemma env_runs op stage source destination image (container : Container) :
  let desired := migration_pod op (new_meta "" "" ∅) stage source destination image in
  (∀ spec d, po_spec desired = Some spec → ps_containers spec = [d] →
     ct_image container = ct_image d ∧ ct_command container = ct_command d ∧ ct_args container = ct_args d ∧ ct_env container = ct_env d) →
  ct_env_from container = None → runs_stage op stage destination image container.
Proof.
  intros desired Hsame Hfrom. destruct (Hsame _ _ eq_refl eq_refl) as (Himage & Hcommand & Hargs & Henv).
  unfold runs_stage. rewrite Himage, Hcommand, Hargs, Henv. do 4 (split; [done|]).
  eexists. split; [reflexivity|]. split_and!.
  - intros e. rewrite !elem_of_cons, elem_of_nil. intros [->|[->|[->|[]]]]; done.
  - right. by left.
  - intros d ->. left.
Qed.

(** What passes the check is as confined as what was asked for. *)
Lemma valid_helper_confined pod op meta stage source destination image :
  validate_helper_spec pod (migration_pod op meta stage source destination image) = Ok () → confined op stage source destination image pod.
Proof.
  unfold validate_helper_spec. destruct (po_spec pod) as [spec|] eqn:Hs; [|done]. cbn [ok_or mbind result_bind migration_pod po_spec].
  destruct (ps_containers spec) as [|container [|]] eqn:Hc; [done| |done].
  intros Hv. apply bind_Ok in Hv as ([] & Hpod%ensure_Ok & Hcont). cbn [ps_containers] in Hcont. apply ensure_Ok in Hcont.
  repeat match goal with Hand : _ && _ = true |- _ => apply andb_true_iff in Hand as [Hand ?] end.
  repeat match goal with Hb : bool_decide _ = true |- _ => apply bool_decide_eq_true in Hb | Hb : negb _ = true |- _ => apply negb_true_iff in Hb end.
  exists spec, container. split_and!; try done; [by apply no_items_default..| | |].
  - exists helper_security. by split_and!.
  - eapply (env_runs op stage source); [|by destruct (ct_env_from container)]. by intros ? ? [= <-] [= <-].
  - intros v m. match goal with Hvol : ps_volumes spec = _ |- _ => rewrite Hvol end. cbn. apply helper_volumes_confined.
Qed.

Lemma migration_pod_confined op meta stage source destination image :
  has_owner meta = false → confined op stage source destination image (migration_pod op meta stage source destination image).
Proof.
  intros Ho. apply (valid_helper_confined _ op meta). unfold validate_helper_spec. cbn. rewrite Ho. cbn. by rewrite !bool_decide_eq_true_2.
Qed.

Lemma policy_shuts_off op policy : validate_helper_policy policy (op_id op) = Ok () → shuts_off op policy.
Proof.
  unfold validate_helper_policy. intros (spec & Hs%ok_or_Ok & E)%bind_Ok. apply bind_Ok in E as (selector & Hsel%ok_or_Ok & E%ensure_Ok).
  repeat match goal with Hand : _ && _ = true |- _ => apply andb_true_iff in Hand as [Hand ?] end.
  exists spec, selector. split_and!; try done; [by apply bool_decide_eq_true in E|by apply no_items_default..|].
  intros t. match goal with Hb : bool_decide _ = true |- _ => apply bool_decide_eq_true in Hb; rename Hb into Ht end.
  rewrite <-(elem_of_list_to_set (C := gset string)), Ht. set_solver.
Qed.

Lemma isolated_mono op past past' : isolated op past → past ⊆ past' → isolated op past'.
Proof.
  intros (policy & Hv & Ha) Hs. exists policy. split; [done|]. destruct Ha as [Ha|[created Ha]]; [left|right; exists created]; by eapply Answered_mono.
Qed.
Lemma destination_checked_mono w volume stage bound past past' :
  destination_checked w volume stage bound past → past ⊆ past' → destination_checked w volume stage bound past'.
Proof. intros Hd Hs d Hdest Hstage. by eapply checked_claim_mono; [apply Hd|]. Qed.

Lemma helper_policy_valid labels op : shuts_off op (helper_policy labels (op_id op)).
Proof.
  apply policy_shuts_off.
  unfold validate_helper_policy, helper_policy. cbn [np_spec ok_or mbind result_bind np_pod_selector]. apply ensure_Ok. cbn.
  rewrite !bool_decide_true; [done|set_solver|done].
Qed.

Section Helpers.
Context (w : Workspace) (op : StorageShrinkOperation) (role : string) (stage : ShrinkPodStage).
Abbreviation P := (writes (helps w op role stage)).
Abbreviation volume := (volume_of op role).

(** The check of the destination before and after. *)
Lemma destination_wp bound past (Q : list Event → () → Prop) :
  (∀ past', past ⊆ past' → destination_checked w volume stage bound past' → Q past' ()) →
  cwp P (match sv_destination volume with
         | Some destination => if is_preflight stage then mret () else _ ← shrink_claim c w destination bound; mret ()
         | None => mret ()
         end) past Q.
Proof.
  intros HQ. destruct (sv_destination volume) as [d|] eqn:Hd; [|cm_step; apply HQ; [done|]; intros d; by rewrite Hd].
  destruct (is_preflight stage) eqn:Hp; [cm_step; apply HQ; [done|]; intros d' _ Hne; by destruct stage|].
  apply cwp_bind, shrink_claim_checked; [apply _|]. intros claim past' Hs Hc. cm_step. apply HQ; [done|].
  intros d' Hd' _. rewrite Hd in Hd'. by injection Hd' as <-.
Qed.

Lemma ensure_policy_wp labels past (Q : list Event → () → Prop) :
  (∀ past', past ⊆ past' → isolated op past' → Q past' ()) → cwp P (ensure_helper_policy c w op labels) past Q.
Proof.
  intros HQ. unfold ensure_helper_policy. cm_step; [done| |].
  - do 3 cm_step. destruct a1. apply HQ; [done|]. exists a. split; [by apply policy_shuts_off|auto].
  - cm_step; [intros _; split; [done|apply helper_policy_valid]|]. cm_step. apply HQ; [set_solver|].
    eexists. split; [apply helper_policy_valid|]. eauto.
Qed.

Definition checked_pod (source : WorkspaceHomeVolumeBinding) (image : string) (pod : Pod) (past : list Event) : Prop :=
  (Answered past (GetPod ns (helper_name (op_id op) role stage)) pod ∨ ∃ desired, Answered past (CreatePod ns desired) pod) ∧
  owned (po_metadata pod) w ∧ label (po_metadata pod) OPERATION_LABEL = Some (uuid_to_string (op_id op)) ∧ isolated op past ∧
  ∃ meta, validate_helper_spec pod (migration_pod op meta stage source (sv_destination volume) image) = Ok ().

Lemma check_helper_wp source image pod past (Q : list Event → Pod → Prop) :
  (Answered past (GetPod ns (helper_name (op_id op) role stage)) pod ∨ ∃ desired, Answered past (CreatePod ns desired) pod) →
  (∀ past', past ⊆ past' → checked_pod source image pod past' → Q past' pod) →
  cwp P (check_helper c w op role stage source image pod) past Q.
Proof.
  intros Hpod HQ. unfold check_helper. do 2 cm_step. cm_step; [done|]. do 4 cm_step. apply HQ; [set_solver|].
  apply bool_decide_eq_true in Hreq. destruct a, a1, a2, a3. split_and!; [|done..| |eauto].
  - destruct Hpod as [|[desired ?]]; [left|right; exists desired]; by eapply Answered_mono.
  - exists a0. split; [by apply policy_shuts_off|auto].
Qed.

Lemma helper_pod_wp source image past (Q : list Event → Pod → Prop) : sv_source volume = Some source → approved_image image →
  checked_claim w source true past → destination_checked w volume stage false past →
  (∀ past' pod, past ⊆ past' → checked_pod source image pod past' → Q past' pod) →
  cwp P (helper_pod c w op role stage source image) past Q.
Proof.
  intros Hsource Himage Hclaim Hdest HQ. unfold helper_pod. set (labels := <[OPERATION_LABEL := _]> _). cm_step; [done| |].
  - apply cwp_bind. cm_step. apply check_helper_wp; [by left|]. intros past' Hs'. apply HQ. set_solver.
  - apply cwp_bind, cwp_bind, ensure_policy_wp. intros past2 Hs2 Hiso. cm_step.
    2: { apply check_helper_wp; [eauto|]. intros past' Hs'. apply HQ. set_solver. }
    intros _. split_and!; [done| |done|].
    + unfold label. cbn. apply lookup_insert_eq.
    + exists source, image. split_and!; [done| |done| |by apply migration_pod_confined].
      * eapply checked_claim_mono; [done|set_solver].
      * eapply destination_checked_mono; [done|set_solver].
Qed.

Section Outcome.
Context (source : WorkspaceHomeVolumeBinding) (image : string) (pod : Pod) (past : list Event).
Context (Q : list Event → option ShrinkUsage → StorageShrinkOperation → Prop).
Context (Hsource : sv_source volume = Some source) (Himage : storage_shrink_image c = Ok image) (Hpod : checked_pod source image pod past).
Context (HQ : ∀ past' usage op', past ⊆ past' → (∀ u, usage = Some u → evidence w op role stage u op' past') → Q past' usage op').

Lemma helper_outcome_wp name op' : md_name (po_metadata pod) = Some name → op_helper_pod_uids op' !! name = md_uid (po_metadata pod) →
  swp P (helper_outcome c w role stage pod volume) op' past Q.
Proof using Hsource Himage Hpod HQ.
  destruct Hpod as (Hans & Howned & Hlabel & Hiso & meta & Hspec). apply image_approved in Himage as Happroved. intros Hname Huid. unfold helper_outcome.
  destruct (po_status pod ≫= po_phase) as [phase|] eqn:Hphase; [|cm_step; by apply HQ].
  destruct (String.eqb_spec phase "Succeeded") as [->|]; [|destruct (String.eqb _ _); cm_step; by apply HQ].
  cm_step. apply swp_bind, swp_lift, destination_wp. intros past1 Hs1 Hdest. cm_step. apply HQ; [done|]. intros u [= <-].
  exists pod, source, image, name. split_and!; try done.
  - destruct Hans as [|[desired ?]]; [left|right; exists desired]; by eapply Answered_mono.
  - by eapply isolated_mono.
  - by eapply valid_helper_confined.
Qed.

Lemma helper_result_wp : swp P (helper_pod_result c w role stage pod volume) op past Q.
Proof using Hsource Himage Hpod HQ.
  unfold helper_pod_result. do 3 cm_step. apply swp_bind. destruct (op_helper_pod_uids op !! a) as [expected|] eqn:Hu.
  - cm_step. apply String.eqb_eq in Hreq as ->. eapply helper_outcome_wp; [done|congruence].
  - cm_step. eapply helper_outcome_wp; [done|]. cbn. rewrite Hsome0. apply lookup_insert_eq.
Qed.
End Outcome.
End Helpers.

Lemma shrink_pod_wp w op role stage :
  swp (writes (helps w op role stage)) (shrink_pod c w role stage) op [] (λ past usage op', ∀ u, usage = Some u → evidence w op role stage u op' past).
Proof.
  unfold shrink_pod. do 3 cm_step. destruct (storage_shrink_image c) as [image|] eqn:Himage; [|done]. injection Hgive as <-.
  apply swp_bind, swp_lift, shrink_claim_checked; [apply _|]. intros claim past1 Hs1 Hclaim.
  apply swp_bind, swp_lift, destination_wp. intros past2 Hs2 Hdest.
  apply swp_bind, swp_lift, helper_pod_wp; [done|by apply image_approved|by eapply checked_claim_mono|done|]. intros past3 pod Hs3 Hpod.
  eapply helper_result_wp; [done..|]. intros past4 usage op' Hs4 Hu. apply Hu.
Qed.


(** ** What the operation lent to the cluster comes back with *)

(** The methods change the volumes, the sizes found and the helpers of an operation,
    also when they fail. *)
Definition same_migration (op op' : StorageShrinkOperation) : Prop :=
  op' = set_op_home (op_home op') (set_op_temporary (op_temporary op') (set_op_original_home_gib (op_original_home_gib op')
          (set_op_original_temporary_storage_gib (op_original_temporary_storage_gib op')
             (set_op_helper_pod_uids (op_helper_pod_uids op') op)))).

#[global] Instance same_migration_preorder : PreOrder same_migration.
Proof. split; [by intros []|]. unfold same_migration. intros x y z -> ->. done. Qed.

Definition sm_keeps {S A} (R : relation S) (m : SM S A) : Prop :=
  ∀ s past, wp (λ _ _ _, True) (m s) past (λ _ rs, R s rs.2).
Existing Class sm_keeps.

Lemma any_wp {A} (p : Prog A) past (Q : list Event → A → Prop) : (∀ past' a, Q past' a) → wp (λ _ _ _, True) p past Q.
Proof. revert past. induction p as [a|B req k IH]; intros past HQ; cbn; [done|]. split; [done|]. intros r. by apply IH. Qed.

Section Keeps.
Context {S : Type} (R : relation S) `{!PreOrder R}.
#[global] Instance keeps_bind {A B} (m : SM S A) (f : A → SM S B) : sm_keeps R m → (∀ a, sm_keeps R (f a)) → sm_keeps R (m ≫= f).
Proof.
  intros Hm Hf s past. apply wp_then. eapply wp_mono; [apply Hm|]. intros past' [[a|e] s'] _ Hs; cbn in *; [|done].
  eapply wp_mono; [apply Hf|]. intros past'' rs _ Hrs. by transitivity s'.
Qed.
#[global] Instance keeps_lift {A} (m : CM A) : sm_keeps R (sm_lift m).
Proof. intros s past. apply wp_then, any_wp. intros past' r. cbn. reflexivity. Qed.
#[global] Instance keeps_get : sm_keeps R sm_get.
Proof. intros s past. cbn. reflexivity. Qed.
#[global] Instance keeps_ret {A} (a : A) : sm_keeps R (mret a).
Proof. intros s past. cbn. reflexivity. Qed.
Lemma keeps_modify (f : S → S) : (∀ s, R s (f s)) → sm_keeps R (sm_modify f).
Proof. intros Hf s past. cbn. apply Hf. Qed.
End Keeps.

Ltac keeps :=
  repeat first
  [ apply _
  | apply keeps_bind; [apply _| |intros ?]
  | apply keeps_modify; intros []; reflexivity
  | match goal with |- sm_keeps _ (match ?x with _ => _ end) => destruct x end ].

Lemma discover_same w : sm_keeps same_migration (discover_shrink_sources c w).
Proof. unfold discover_shrink_sources, discover_home_source, discover_home, discover_scratch_source, discover_temporary. keeps. Qed.

Lemma shrink_pod_same w role stage : sm_keeps same_migration (shrink_pod c w role stage).
Proof. unfold shrink_pod, helper_pod_result, helper_outcome. keeps. Qed.

Lemma keeps_run {K} `{KubeServer K} {S A} (R : relation S) (m : SM S A) s (k : K) : sm_keeps R m → R s (run (m s) k).1.2.
Proof. intros Hm. by apply (wp_run (λ _ _ _, True) (m s) [] _ k (Hm s [])). Qed.

(** The coordinator keeps what the job handler relies on, so that the theorems of
    [ShrinkHandler] hold for it. *)
Lemma shrink_coordinator_laws {K} `{KubeServer K} (base : Coordinator K) : @CoordinatorLaws K (shrink_coordinator c base).
Proof.
  split.
  - intros w op k r op' k' E. pose proof (keeps_run _ _ op k (discover_same w)) as Hs. cbn in E. rewrite E in Hs. cbn in Hs. by rewrite Hs.
  - intros w op role stage k r op' k' E. pose proof (keeps_run _ _ op k (shrink_pod_same w role stage)) as Hs. cbn in E. rewrite E in Hs.
    cbn in Hs. by rewrite Hs.
Qed.

(** ** Discovery and destinations *)

(** A volume that was found: its claim was read and is as recorded, its size is the
    one to go below. *)
Definition found (w : Workspace) (volume : StorageShrinkVolume) (original_gib : Z) (past : list Event) : Prop :=
  ∃ b, sv_source volume = Some b ∧ checked_claim w b true past ∧ original_gib = vb_capacity_gib b ∧ sv_source_volume volume ≠ None ∧
    ∀ target, sv_target_gib volume = Some target → target < vb_capacity_gib b.

Lemma found_mono w volume gib past past' : found w volume gib past → past ⊆ past' → found w volume gib past'.
Proof. intros (b & Hb & Hc & Hrest) Hs. exists b. split_and!; [done|by eapply checked_claim_mono|apply Hrest..]. Qed.

Abbreviation reads_only := (writes (λ _ _ _, False)).

(** The identity of a volume is the one of the volume bound to the claim. *)
Lemma identity_wp w b past (Q : list Event → StorageVolumeIdentity → Prop) :
  (∀ past' identity volume, past ⊆ past' → checked_claim w b true past' → checked_volume b identity volume past' →
     (csi_driver identity = LONGHORN_DRIVER → longhorn_volume_uid identity ≠ None ∧ longhorn_namespace identity ≠ None) → Q past' identity) →
  cwp reads_only (shrink_volume_identity c w b) past Q.
Proof.
  intros HQ. unfold shrink_volume_identity. apply cwp_bind, shrink_claim_checked; [apply _|]. intros claim past1 Hs1 Hclaim.
  do 2 cm_step. cm_step; [done|]. do 3 cm_step. cm_step; [done|]. do 3 cm_step. destruct a7.
  destruct (bool_decide (csi_driver_name a3 = LONGHORN_DRIVER)) eqn:Hl.
  - cm_step; [done|]. do 2 cm_step. apply (HQ _ _ a1); [set_solver|eapply checked_claim_mono; [done|set_solver]|by split|done].
  - cm_step. apply (HQ _ _ a1); [set_solver|eapply checked_claim_mono; [done|set_solver]|by split|].
    cbn. by apply bool_decide_eq_false in Hl.
Qed.

Section Discovery.
Context (w : Workspace).

Lemma discover_home_wp op past (Q : list Event → () → StorageShrinkOperation → Prop) :
  (∀ past' op', past ⊆ past' → found w (op_home op') (op_original_home_gib op') past' → op_temporary op' = op_temporary op →
     sv_target_gib (op_home op') = sv_target_gib (op_home op) → Q past' () op') →
  swp reads_only (discover_home c w) op past Q.
Proof.
  intros HQ. unfold discover_home. do 2 cm_step. apply swp_bind, swp_lift, shrink_claim_checked; [apply _|]. intros claim past1 Hs1 Hclaim.
  cm_step. apply swp_bind. destruct (sv_source_volume (op_home op)) as [identity|] eqn:Hv; cbn [is_some].
  - do 2 cm_step. apply HQ; [done| |done|done]. exists a. split_and!; try done; [by cbn; rewrite Hv|].
    cbn. intros target Ht. rewrite Ht in Hreq. cbn in Hreq. apply negb_true_iff, Z.leb_gt in Hreq. lia.
  - apply swp_bind, swp_lift, identity_wp. intros past2 identity volume Hs2 Hc2 _ _. do 2 cm_step. apply HQ; [set_solver| |done|done].
    exists a. split_and!; try done. cbn. intros target Ht. rewrite Ht in Hreq. cbn in Hreq. apply negb_true_iff, Z.leb_gt in Hreq. lia.
Qed.

Lemma discover_temporary_wp op past (Q : list Event → () → StorageShrinkOperation → Prop) :
  (∀ past' op', past ⊆ past' → (sv_source (op_temporary op') ≠ None → found w (op_temporary op') (op_original_temporary_storage_gib op') past') →
     (op_home op', op_original_home_gib op') = (op_home op, op_original_home_gib op) → sv_source (op_temporary op') = sv_source (op_temporary op) →
     sv_target_gib (op_temporary op') = sv_target_gib (op_temporary op) → Q past' () op') →
  swp reads_only (discover_temporary c w) op past Q.
Proof.
  intros HQ. unfold discover_temporary. cm_step. destruct (sv_source (op_temporary op)) as [b|] eqn:Hb; [|cm_step; by apply HQ].
  apply swp_bind, swp_lift, shrink_claim_checked; [apply _|]. intros claim past1 Hs1 Hclaim.
  cm_step. apply swp_bind. destruct (sv_source_volume (op_temporary op)) as [identity|] eqn:Hv; cbn [is_some].
  - do 2 cm_step. apply HQ; try done. intros _. exists b. split_and!; try done; [by cbn; rewrite Hv|].
    cbn. intros target Ht. rewrite Ht in Hreq. cbn in Hreq. apply negb_true_iff, Z.leb_gt in Hreq. lia.
  - apply swp_bind, swp_lift, identity_wp. intros past2 identity volume Hs2 Hc2 _ _. do 2 cm_step. apply HQ; [set_solver| |done..].
    intros _. exists b. split_and!; try done. cbn. intros target Ht. rewrite Ht in Hreq. cbn in Hreq. apply negb_true_iff, Z.leb_gt in Hreq. lia.
Qed.

Lemma discover_home_source_wp names op past (Q : list Event → () → StorageShrinkOperation → Prop) :
  (∀ past' op', past ⊆ past' → op_temporary op' = op_temporary op → sv_target_gib (op_home op') = sv_target_gib (op_home op) → Q past' () op') →
  swp reads_only (discover_home_source c w names) op past Q.
Proof.
  intros HQ. unfold discover_home_source. cm_step. destruct (is_some _); [cm_step; by apply HQ|].
  cm_step; [done|]. do 3 cm_step. by apply HQ.
Qed.

Definition discovered (op op' : StorageShrinkOperation) (past : list Event) : Prop :=
  found w (op_home op') (op_original_home_gib op') past ∧
  (sv_source (op_temporary op') ≠ None → found w (op_temporary op') (op_original_temporary_storage_gib op') past) ∧
  sv_target_gib (op_home op') = sv_target_gib (op_home op) ∧ sv_target_gib (op_temporary op') = sv_target_gib (op_temporary op) ∧
  (sv_target_gib (op_temporary op) ≠ None → sv_source (op_temporary op') ≠ None).

Lemma discover_scratch_wp op past (Q : list Event → () → StorageShrinkOperation → Prop) :
  (∀ past' op', past ⊆ past' → (op_home op', op_original_home_gib op') = (op_home op, op_original_home_gib op) →
     sv_target_gib (op_temporary op') = sv_target_gib (op_temporary op) →
     (sv_target_gib (op_temporary op) ≠ None → sv_source (op_temporary op') ≠ None) → Q past' () op') →
  swp reads_only (if is_some (sv_source (op_temporary op)) then mret () else discover_scratch_source c w) op past Q.
Proof.
  intros HQ. destruct (sv_source (op_temporary op)) as [b|] eqn:Hb; cbn [is_some]; [cm_step; apply HQ; [done..|]; by rewrite Hb|].
  unfold discover_scratch_source, runtime_resources. cm_step. cm_step; [done| |]; cm_step.
  - do 3 cm_step. by apply HQ.
  - cm_step. apply HQ; [done..|]. by destruct (sv_target_gib (op_temporary op)).
Qed.

Lemma discover_wp op : swp reads_only (discover_shrink_sources c w) op [] (λ past _ op', discovered op op' past).
Proof.
  unfold discover_shrink_sources, runtime_resources. cm_step. apply swp_bind, discover_home_source_wp. intros past1 op1 Hs1 Ht1 Hh1.
  apply swp_bind, discover_home_wp. intros past2 op2 Hs2 Hfound Ht2 Hh2. cm_step. apply swp_bind, discover_scratch_wp.
  intros past3 op3 Hs3 [= Hh3 Ho3] Ht3 Hsrc3. apply discover_temporary_wp. intros past4 op4 Hs4 Htemp [= Hh4 Ho4] Hsrc4 Ht4.
  split_and!; [|done|congruence..|].
  - rewrite Hh4, Ho4, Hh3, Ho3. eapply found_mono; [done|set_solver].
  - intros Hne. rewrite Hsrc4. apply Hsrc3. congruence.
Qed.
End Discovery.

(** Discovery changes nothing in the cluster. When it succeeds, the sources of the
    operation were read, belong to the workspace, are bound and larger than their
    targets, and their volumes are recorded; the requested targets are as before,
    and a target for scratch has a source. *)
Theorem discovery_finds_sources {K} `{KubeServer K} w op (k : K) :
  let discover := discover_shrink_sources c w op in
  all_permitted reads_only [] (events discover k) ∧
  ((run discover k).1.1 = Ok () → discovered w op (run discover k).1.2 (events discover k)).
Proof.
  intros discover. destruct (swp_run _ (discover_shrink_sources c w) op _ k (discover_wp w op)) as [Hall Hdone].
  split; [done|]. apply Hdone.
Qed.

(** A destination is created only as a claim of the requested size that is labelled
    for the operation, after the source was checked; the binding returned is that of
    a claim of this size that belongs to workspace and operation and has no owner. *)
Theorem destination_is_exclusive {K} `{KubeServer K} w op role source target_gib (k : K) :
  let create := create_shrink_destination c w op role source target_gib in
  all_permitted (writes (λ past A req, match req with
    | CreateClaim namespace claim => namespace = ns ∧ checked_claim w source true past ∧
        ∃ spec, claim = destination_claim c w (op_id op) role spec target_gib
    | _ => False end)) [] (events create k) ∧
  ∀ b, (run create k).1 = Ok b → checked_claim w b false (events create k) ∧ vb_claim_name b = claim_name_for (op_id op) role ∧
    vb_capacity_gib b = target_gib.
Proof.
  intros create. refine (cwp_run _ create (λ past b, checked_claim w b false past ∧ vb_claim_name b = claim_name_for (op_id op) role ∧
    vb_capacity_gib b = target_gib) k _). subst create. unfold create_shrink_destination. apply cwp_bind, shrink_claim_checked; [apply _|]. intros claim past1 Hs1 Hclaim.
  cm_step. cm_step; [done| |]; apply cwp_bind.
  - do 4 cm_step. apply cwp_bind, shrink_claim_checked; [apply _|]. intros claim' past2 Hs2 Hc2. cm_step. done.
  - cm_step; [intros _; split_and!; [done|by eapply checked_claim_mono|eauto]|]. do 3 cm_step.
    apply cwp_bind, shrink_claim_checked; [apply _|]. intros claim' past3 Hs3 Hc3. cm_step. done.
Qed.

(** ** Cleaning up *)

(** The requests that remove the helpers of an operation: Pods that were listed for
    it, belong to the workspace and are not impostors, and its policy. *)
Definition tidies (w : Workspace) (op : StorageShrinkOperation) : list Event → ∀ A, Kube A → Prop := λ past A req,
  match req with
  | DeletePod namespace name preconditions =>
      namespace = ns ∧ ∃ pods pod, Answered past (ListPods ns (Some (OPERATION_LABEL +:+ "=" +:+ uuid_to_string (op_id op)))) pods ∧ pod ∈ pods ∧
        md_name (po_metadata pod) = Some name ∧ label (po_metadata pod) WORKSPACE_ID_LABEL = Some (uuid_to_string (ws_id w)) ∧
        (∀ uid, op_helper_pod_uids op !! name = Some uid → md_uid (po_metadata pod) = Some uid) ∧
        preconditions = mkPreconditions (md_uid (po_metadata pod)) (md_resource_version (po_metadata pod))
  | DeleteNetworkPolicy namespace name preconditions =>
      namespace = ns ∧ name = policy_name (op_id op) ∧
      ∃ policy, Answered past (GetNetworkPolicy ns name) policy ∧ owned (np_metadata policy) w ∧
        label (np_metadata policy) OPERATION_LABEL = Some (uuid_to_string (op_id op)) ∧
        preconditions = mkPreconditions (md_uid (np_metadata policy)) (md_resource_version (np_metadata policy))
  | _ => False
  end.

Lemma shrink_owned_labels m w : owned m w → label m WORKSPACE_ID_LABEL = Some (uuid_to_string (ws_id w)) ∧ md_uid m ≠ None.
Proof.
  unfold shrink_owned, label. destruct (md_labels m) as [labels|]; [|done]. cbn [ok_or mbind result_bind option_bind]. intros Ho%ensure_Ok.
  repeat match goal with Hand : _ && _ = true |- _ => apply andb_true_iff in Hand as [Hand ?] end.
  split; [by eapply bool_decide_eq_true|by destruct (md_uid m)].
Qed.

Lemma remove_pods_wp w op all pods past (Q : list Event → () → Prop) : (∀ pod, pod ∈ pods → pod ∈ all) →
  Answered past (ListPods ns (Some (OPERATION_LABEL +:+ "=" +:+ uuid_to_string (op_id op)))) all → (∀ past', Q past' ()) →
  cwp (writes (tidies w op)) (remove_pods c w op pods) past Q.
Proof.
  revert past. induction pods as [|pod pods IH]; intros past Hpods Hall HQ; cbn [remove_pods]; [by cm_step|].
  assert (∀ pod, pod ∈ pods → pod ∈ all) as Hpods' by (intros p Hp; apply Hpods; by right).
  do 3 cm_step. destruct a. apply shrink_owned_labels in Hgive as [Hl _]. apply cwp_bind.
  destruct (is_some (md_deletion_timestamp _)); [cm_step; by apply IH|].
  cm_step; [|by apply IH]. intros _. split; [done|]. exists all, pod. split_and!; try done; [apply Hpods; left|].
  intros uid Hu. rewrite Hu in Hreq. cbn in Hreq. by apply bool_decide_eq_true in Hreq.
Qed.

(** Removing the helpers deletes only Pods that were listed for the operation,
    belong to the workspace and have the recorded UID, and the operation's policy,
    each by UID and version; when it reports completion, no helper and no policy was
    left. *)
Theorem cleanup_removes_helpers_only {K} `{KubeServer K} w op (k : K) :
  let remove := remove_shrink_helpers c w op in
  all_permitted (writes (tidies w op)) [] (events remove k) ∧
  ((run remove k).1 = Ok true →
     Answered (events remove k) (ListPods ns (Some (OPERATION_LABEL +:+ "=" +:+ uuid_to_string (op_id op)))) [] ∧
     Absent (events remove k) (GetNetworkPolicy ns (policy_name (op_id op)))).
Proof.
  intros remove. destruct (cwp_run (writes (tidies w op)) remove (λ past r, r = true →
    Answered past (ListPods ns (Some (OPERATION_LABEL +:+ "=" +:+ uuid_to_string (op_id op)))) [] ∧
    Absent past (GetNetworkPolicy ns (policy_name (op_id op)))) k) as [Hall Hdone];
    [|split; [done|]; intros Hr; by apply (Hdone true)].
  subst remove. unfold remove_shrink_helpers. cm_step; [done|]. destruct a as [|pod pods].
  - unfold remove_policy. cm_step; [done| |by cm_step]. destruct (is_some (md_deletion_timestamp _)); [by cm_step|].
    do 2 cm_step. destruct a0. apply bool_decide_eq_true in Hreq. cm_step; [intros _; split_and!; [done..|]; by exists a|]. by cm_step.
  - apply cwp_bind, (remove_pods_wp w op (pod :: pods)); [done..|]. intros past'. by cm_step.
Qed.

(** ** Identities recorded for the deletion of a workspace *)
Lemma on_home_wp {A} (m : SM StorageShrinkVolume A) op past (Q : list Event → A → StorageShrinkOperation → Prop) permitted :
  swp permitted m (op_home op) past (λ past' a v, Q past' a (set_op_home v op)) → swp permitted (on_home m) op past Q.
Proof. intros Hm. apply wp_then. eapply wp_mono; [exact Hm|]. intros past' [r v] _ HQ a. apply HQ. Qed.
Lemma on_temporary_wp {A} (m : SM StorageShrinkVolume A) op past (Q : list Event → A → StorageShrinkOperation → Prop) permitted :
  swp permitted m (op_temporary op) past (λ past' a v, Q past' a (set_op_temporary v op)) → swp permitted (on_temporary m) op past Q.
Proof. intros Hm. apply wp_then. eapply wp_mono; [exact Hm|]. intros past' [r v] _ HQ a. apply HQ. Qed.

(** An identity recorded for [b] is the one there was, or was read with the volume
    that is bound to the claim. *)
Definition captured (b : option WorkspaceHomeVolumeBinding) (before after : option StorageVolumeIdentity) (past : list Event) : Prop :=
  after = before ∨ ∃ binding identity volume, b = Some binding ∧ after = Some identity ∧ checked_volume binding identity volume past.

Lemma captured_mono b before after past past' : captured b before after past → past ⊆ past' → captured b before after past'.
Proof.
  intros [->|(binding & identity & volume & ? & ? & [Ha ?])] Hs; [by left|]. right. exists binding, identity, volume.
  split_and!; [done..|]. split; [by eapply Answered_mono|done].
Qed.

Lemma capture_identity_wp w op_id b identity destination past (Q : list Event → option StorageVolumeIdentity → Prop) :
  (∀ past' identity', past ⊆ past' → captured b identity identity' past' → Q past' identity') →
  cwp reads_only (capture_identity c w op_id b identity destination) past Q.
Proof.
  intros HQ. unfold capture_identity. destruct b as [binding|]; [|cm_step; apply HQ; [done|by left]].
  destruct identity as [i|]; [cm_step; apply HQ; [done|by left]|]. cm_step; [done| |cm_step; apply HQ; [done|by left]].
  do 2 cm_step. destruct (is_some _); [|cm_step; apply HQ; [done|by left]].
  apply cwp_bind, identity_wp. intros past2 i volume Hs2 _ Hv _. cm_step. apply HQ; [set_solver|]. right. eauto 10.
Qed.

Lemma find_destination_wp w op_id role target past (Q : list Event → option WorkspaceHomeVolumeBinding → Prop) :
  (∀ past' b, past ⊆ past' → (∀ binding, b = Some binding → checked_claim w binding false past') → Q past' b) →
  cwp reads_only (find_destination c w op_id role target) past Q.
Proof.
  intros HQ. unfold find_destination. cm_step; [done| |cm_step; by apply HQ]. do 4 cm_step.
  apply cwp_bind, shrink_claim_checked; [apply _|]. intros claim past2 Hs2 Hc. cm_step. apply HQ; [set_solver|]. by intros b [= <-].
Qed.

(** What capturing may change in a volume. *)
Definition volume_captured (w : Workspace) (before after : StorageShrinkVolume) (past : list Event) : Prop :=
  sv_source after = sv_source before ∧ captured (sv_source after) (sv_source_volume before) (sv_source_volume after) past ∧
  captured (sv_destination after) (sv_destination_volume before) (sv_destination_volume after) past ∧
  (sv_destination after = sv_destination before ∨
   ∃ b, sv_destination before = None ∧ sv_destination after = Some b ∧ checked_claim w b false past).

Lemma volume_captured_mono w before after past past' : volume_captured w before after past → past ⊆ past' → volume_captured w before after past'.
Proof.
  intros (? & Hs & Hd & Hdest) Hp. split_and!; [done|by eapply captured_mono..|]. destruct Hdest as [|(b & ? & ? & ?)]; [by left|].
  right. exists b. split_and!; [done..|by eapply checked_claim_mono].
Qed.

Lemma capture_rest_wp w op_id v0 v past (Q : list Event → () → StorageShrinkVolume → Prop) :
  v = set_sv_destination (sv_destination v) v0 →
  (sv_destination v = sv_destination v0 ∨ ∃ b, sv_destination v0 = None ∧ sv_destination v = Some b ∧ checked_claim w b false past) →
  (∀ past' v', past ⊆ past' → volume_captured w v0 v' past' → Q past' () v') →
  swp reads_only (capture_identities c w op_id) v past Q.
Proof.
  intros Hv Hdest HQ. unfold capture_identities. cm_step. apply swp_bind, swp_lift, capture_identity_wp. intros past1 source Hs1 Hsource. do 2 cm_step.
  apply swp_bind, swp_lift, capture_identity_wp. intros past2 destination Hs2 Hdestination. cm_step. apply HQ; [set_solver|].
  split_and!; cbn in *.
  - by rewrite Hv.
  - eapply captured_mono; [|done]. by rewrite Hv in Hsource |- *.
  - by rewrite Hv in Hdestination |- *.
  - destruct Hdest as [|(b & ? & ? & ?)]; [by left|]. right. exists b. split_and!; [done..|]. eapply checked_claim_mono; [done|set_solver].
Qed.

Lemma capture_shrink_volume_wp w op_id role v past (Q : list Event → () → StorageShrinkVolume → Prop) :
  (∀ past' v', past ⊆ past' → volume_captured w v v' past' → Q past' () v') →
  swp reads_only (capture_shrink_volume c w op_id role) v past Q.
Proof.
  intros HQ. unfold capture_shrink_volume. cm_step. apply swp_bind. destruct (sv_target_gib v) as [target|] eqn:Ht;
    [destruct (sv_destination v) as [d|] eqn:Hd|].
  1, 3: cm_step; apply (capture_rest_wp w op_id v); [by destruct v|by left|done].
  apply swp_bind, swp_lift, find_destination_wp. intros past1 [b|] Hs1 Hb.
  - cm_step. apply (capture_rest_wp w op_id v); [done|right; eauto 10|]. intros past2 v' Hs2. apply HQ. set_solver.
  - cm_step. apply (capture_rest_wp w op_id v); [by destruct v|by left|]. intros past2 v' Hs2. apply HQ. set_solver.
Qed.

(** Capturing the identities of an operation changes nothing in the cluster. An
    identity it adds was read with the volume bound to the recorded claim, a
    destination it adds with a claim that belongs to workspace and operation;
    sources stay as they are. *)
Theorem capture_reads_only {K} `{KubeServer K} w op (k : K) :
  let capture := capture_shrink_cleanup_identities c w op in
  all_permitted reads_only [] (events capture k) ∧
  ((run capture k).1.1 = Ok () → let op' := (run capture k).1.2 in
     volume_captured w (op_home op) (op_home op') (events capture k) ∧ volume_captured w (op_temporary op) (op_temporary op') (events capture k)).
Proof.
  intros capture. destruct (swp_run reads_only (capture_shrink_cleanup_identities c w) op (λ past _ op',
    volume_captured w (op_home op) (op_home op') past ∧ volume_captured w (op_temporary op) (op_temporary op') past) k) as [Hall Hdone];
    [|split; [done|apply Hdone]].
  unfold capture_shrink_cleanup_identities. cm_step. apply swp_bind, on_home_wp, capture_shrink_volume_wp. intros past1 home Hs1 Hhome.
  apply on_temporary_wp, capture_shrink_volume_wp. intros past2 temporary Hs2 Htemp. split; [by eapply volume_captured_mono|done].
Qed.
End Safety.

(** ** A cluster to run against: claims and volumes, no Pods *)
Module ClusterSample.
#[local] Existing Instance decimal_uuid_text.
Record t := mkT { claims : gmap string Claim; volumes : gmap string PersistentVolume }.

Definition missing : KubeError := mkKubeError (Some 404) "NotFound" "not found" "not found".
Definition refused : KubeError := mkKubeError (Some 409) "Conflict" "conflict" "conflict".
Definition found {A} (o : option A) : result KubeError A := ok_or o missing.
Definition with_policy (pv : PersistentVolume) : PersistentVolume :=
  mkPv (pv_metadata pv) ((λ s, mkVolumeSpec (pv_csi s) (pv_claim_ref s) (pv_storage_class_name s) (Some "Delete")) <$> pv_spec pv) (pv_phase pv).
Definition released_by (name : string) (pv : PersistentVolume) : PersistentVolume :=
  if bool_decide (((pv_spec pv ≫= pv_claim_ref) ≫= rf_name) = Some name) then mkPv (pv_metadata pv) (pv_spec pv) (Some "Released") else pv.

#[export] Instance server : KubeServer t := λ A req k,
  match req in Kube A return result KubeError A * t with
  | GetClaim _ name => (found (claims k !! name), k)
  | GetVolume name => (found (volumes k !! name), k)
  | ListPods _ _ => (Ok [], k)
  | PatchVolume name _ => (Ok (), mkT (claims k) (alter with_policy name (volumes k)))
  | DeleteClaim _ name p =>
      match claims k !! name with
      | Some claim =>
          if bool_decide (md_uid (cl_metadata claim) = pc_uid p) then (Ok (), mkT (delete name (claims k)) (released_by name <$> volumes k))
          else (Err refused, k)
      | None => (Err missing, k)
      end
  | DeleteVolume name _ => (Ok (), mkT (claims k) (delete name (volumes k)))
  | _ => (Err refused, k)
  end.

Definition coordinator : KubernetesCoordinator := mkCoordinator "inst" (λ _, None) "higress-system" None None.
#[export] Instance error_text : StorageErrorText := λ _, "storage error".
#[export] Instance set_json : StatefulSetJson := λ _, Err "no workload".
#[export] Instance usage_json : UsageJson := λ _, None.
#[export] Instance scripts : HelperScripts := stage_name.

Definition labels : gmap string string := workspace_labels coordinator Sample.workspace.
Definition meta (name uid : string) : ObjectMeta := mkMeta (Some name) (Some ns) (Some uid) (Some "7") None (Some labels) None None None None.
Definition claim (b : WorkspaceHomeVolumeBinding) (pv : string) : Claim :=
  let size := {[ "storage" := decimal_text (vb_capacity_gib b) +:+ "Gi" ]} in
  mkClaim (meta (vb_claim_name b) (vb_claim_uid b)) (Some (mkClaimSpec None (Some "fast") None (Some pv) (Some size) None None))
    (Some (mkClaimStatus (Some "Bound") (Some size))).
Definition pv_of (b : WorkspaceHomeVolumeBinding) (i : StorageVolumeIdentity) : PersistentVolume :=
  mkPv (meta (pv_name i) (pv_uid i))
    (Some (mkVolumeSpec (Some (mkCsi (csi_driver i) (csi_volume_handle i)))
             (Some (mkReference (Some ns) (Some (vb_claim_name b)) (Some (vb_claim_uid b)))) (Some "fast") (Some "Retain"))) (Some "Bound").
Definition cluster : t :=
  mkT {[ "home-w-1-0" := claim Sample.source "pv-a"; "shrink-5-home" := claim Sample.destination "pv-b" ]}
    {[ "pv-a" := pv_of Sample.source (Sample.identity "a"); "pv-b" := pv_of Sample.destination (Sample.identity "b") ]}.

(** The workspace on its new volume. *)
Definition switched : Workspace :=
  mkWorkspace 1 "0000000000000001" 2 3 "dev" (Some 4%N) "default" (Some Sample.destination) None Sample.template Ready 7 100 100.
Definition reclaim (w : Workspace) : CM bool := reclaim_shrink_sources coordinator w Sample.operation.

(** One run after the other. *)
Fixpoint repeated (n : nat) (k : t) : list (result string bool) * t :=
  match n with
  | O => ([], k)
  | S n => let '(r, k') := run (reclaim switched) k in let '(rs, k'') := repeated n k' in (r :: rs, k'')
  end.
End ClusterSample.
Import (hints) ClusterSample.

(** Reclaiming gets done in four runs, and the new volume stays. *)
Example reclaim_completes :
  let '(rs, k) := ClusterSample.repeated 4 ClusterSample.cluster in
  rs = [Ok false; Ok false; Ok false; Ok true] ∧
  ClusterSample.claims k = {[ "shrink-5-home" := ClusterSample.claim Sample.destination "pv-b" ]} ∧
  ClusterSample.volumes k = {[ "pv-b" := ClusterSample.pv_of Sample.destination (Sample.identity "b") ]}.
Proof. vm_compute. auto. Qed.

(** While the workspace still uses the old volume nothing is even read. *)
Example reclaim_refuses_used_source :
  events (ClusterSample.reclaim Sample.workspace) ClusterSample.cluster = [] ∧
  is_err (run (ClusterSample.reclaim Sample.workspace) ClusterSample.cluster).1 = true.
Proof. vm_compute. auto. Qed.
