(* ===== verification/ClusterLifecycle.v ===== *)
(** * A workspace in the cluster: ownership, observation, deletion and recovery
    ([src/kubernetes/ownership.rs], [client.rs], [client_delete.rs],
    [client_scratch_recovery.rs], [client_home_volume.rs])

    The methods of [KubernetesCoordinator] that the reconciler calls to see whether
    a workspace runs, to delete everything that belongs to it and to replace a Pod
    that waits for a scratch volume in vain, as programs over the Kubernetes API.
    Errors are the texts a job handler sees. A schedule says in which order the
    requests of two methods that run at once are made.

    The theorems hold for any server and any schedule: only objects with the labels
    of installation and workspace are deleted, by their UID; claims only when no Pod
    can use them, and never one the workspace is bound to by its record; a deletion
    is confirmed only when everything was seen to be absent. *)
From stdpp Require Import pretty.
From S2P Require Import Prelude Text Json Quota Templates Workspaces Errors ShrinkOperation Quantity Database Reconcile Names WorkspaceResponse WorkloadApply KubeApi ShrinkCluster.

(** ** Ownership *)
Inductive OwnershipError :=
  | MissingLabels
  | LabelMismatch (key expected : string) (actual : option string).
(** Its [Display], generated by [thiserror]. *)
Class OwnershipErrorText := ownership_error_to_string : OwnershipError → string.

Definition check_label (labels : gmap string string) (key expected : string) : result OwnershipError () :=
  if bool_decide (labels !! key = Some expected) then Ok () else Err (LabelMismatch key expected (labels !! key)).

Definition verify (metadata : ObjectMeta) (installation_id workspace_id : string) : result OwnershipError () :=
  labels ← ok_or (md_labels metadata) MissingLabels;
  _ ← check_label labels OWNER_INSTALLATION_LABEL installation_id;
  check_label labels WORKSPACE_ID_LABEL workspace_id.

Definition verify_installation (metadata : ObjectMeta) (installation_id : string) : result OwnershipError () :=
  labels ← ok_or (md_labels metadata) MissingLabels;
  check_label labels OWNER_INSTALLATION_LABEL installation_id.

(** [ResourceExt::name_any]; an object of the server has a name. *)
Definition name_any (metadata : ObjectMeta) : string := default "" (md_name metadata).

Definition PORT_MAPPING_ID_LABEL : string := "workspace.memeloop.dev/port-mapping-id".
Definition GENERATION_ANNOTATION : string := "workspace.memeloop.dev/generation".
Definition annotation (m : ObjectMeta) (key : string) : option string := md_annotations m ≫= lookup key.

(** ** Observation *)
Definition observed_workspace_replicas (set : StatefulSet) (w : Workspace) (expected : Z) : bool :=
  match ss_spec set, ss_status set with
  | Some spec, Some status =>
      bool_decide (ss_replicas spec = Some expected)
      && negb (is_some (md_deletion_timestamp (ss_metadata set)))
      && match sn_observed_generation status, md_generation (ss_metadata set) with
         | Some observed, Some generation => generation <=? observed
         | _, _ => false
         end
      && is_some_and (pt_metadata (ss_template spec)) (λ metadata,
           bool_decide (annotation metadata GENERATION_ANNOTATION = Some (decimal_text (ws_generation w))))
  | _, _ => false
  end.

Definition restart_generation_is_stale (pod : Pod) (expected : Z) : bool :=
  is_none_or (annotation (po_metadata pod) GENERATION_ANNOTATION) (λ generation, negb (String.eqb generation (decimal_text expected))).

Definition controls_pod (set_name uid : string) (owner : OwnerReference) : bool :=
  bool_decide (ow_controller owner = Some true) && String.eqb (ow_api_version owner) "apps/v1"
  && String.eqb (ow_kind owner) "StatefulSet" && String.eqb (ow_name owner) set_name && String.eqb (ow_uid owner) uid.

Definition current_workspace_pod (set : StatefulSet) (pod : Pod) (w : Workspace) (set_name : string) : bool :=
  match md_uid (ss_metadata set), ss_status set ≫= sn_update_revision with
  | Some uid, Some revision =>
      is_some (md_uid (po_metadata pod)) && negb (is_some (md_deletion_timestamp (po_metadata pod)))
      && negb (restart_generation_is_stale pod (ws_generation w))
      && is_some_and (md_owner_references (po_metadata pod)) (existsb (controls_pod set_name uid))
      && bool_decide (label (po_metadata pod) "controller-revision-hash" = Some revision)
  | _, _ => false
  end.

Definition has_condition (type_ status : string) (conditions : list Condition) : bool :=
  existsb (λ condition, String.eqb (cd_type condition) type_ && String.eqb (cd_status condition) status) conditions.
Definition pod_is_ready (pod : Pod) : bool :=
  is_some_and (po_status pod) (λ status,
    bool_decide (po_phase status = Some "Running") && is_some_and (po_conditions status) (has_condition "Ready" "True")).

(** ** Pods that wait for a scratch volume in vain *)
Definition is_terminated (status : ContainerStatus) : bool :=
  is_some_and (st_state status) (λ state, is_some (cst_terminated state) && negb (is_some (cst_running state)) && negb (is_some (cst_waiting state))).
Definition all_terminated (statuses : option (list ContainerStatus)) (names : list string) : bool :=
  forallb is_terminated (default [] statuses)
  && forallb (λ name, is_some_and statuses (existsb (λ status, String.eqb (st_name status) name && is_terminated status))) names.

Definition inactive_scheduled_pod (pod : Pod) : bool :=
  match po_spec pod, po_status pod with
  | Some spec, Some status =>
      negb (is_some (md_deletion_timestamp (po_metadata pod)))
      && is_some_and (ps_node_name spec) (λ name, negb (String.eqb name ""))
      && bool_decide (po_phase status = Some "Running")
      && is_none_or (po_pod_ip status) (λ ip, String.eqb ip "")
      && is_some_and (po_conditions status) (has_condition "Ready" "False")
      && match ps_containers spec with [] => false | _ => true end
      && all_terminated (po_containers status) (ct_name <$> ps_containers spec)
      && all_terminated (po_init_containers status) (ct_name <$> default [] (ps_init_containers spec))
      && all_terminated (po_ephemeral_containers status) (ct_name <$> default [] (ps_ephemeral_containers spec))
  | _, _ => false
  end.

Definition pod_volumes (pod : Pod) : option (list PodVolume) := po_spec pod ≫= ps_volumes.

Definition scratch_claim_name (pod : Pod) (names : WorkspaceResourceNames) : option (string * bool) :=
  volumes ← pod_volumes pod;
  scratch ← List.find (λ volume, String.eqb (vo_name volume) "workspace-scratch") volumes;
  if is_some (vo_ephemeral scratch) && negb (is_some (vo_claim scratch)) then Some (pod_ordinal_zero names +:+ "-workspace-scratch", true)
  else if negb (is_some (vo_ephemeral scratch))
          && is_some_and (vo_claim scratch) (λ claim, String.eqb (cm_claim_name claim) (scratch_pvc names)
                                                      && negb (bool_decide (cm_read_only claim = Some true)))
  then Some (scratch_pvc names, false)
  else None.

(** A claim of the Pod itself. *)
Definition owned_by_pod (pod : Pod) (owner : OwnerReference) : bool :=
  bool_decide (ow_controller owner = Some true) && String.eqb (ow_api_version owner) "v1" && String.eqb (ow_kind owner) "Pod"
  && bool_decide (Some (ow_name owner) = md_name (po_metadata pod)) && bool_decide (Some (ow_uid owner) = md_uid (po_metadata pod)).

Definition BINDING_ANNOTATIONS : list string :=
  ["volume.kubernetes.io/selected-node"; "pv.kubernetes.io/bind-completed"; "pv.kubernetes.io/bound-by-controller"].

Definition empty_recreated_scratch (claim : Claim) (pod : Pod) (ephemeral : bool) : bool :=
  let m := cl_metadata claim in
  match cl_spec claim, md_creation_timestamp m, md_creation_timestamp (po_metadata pod) with
  | Some spec, Some created, Some pod_created =>
      let owners := default [] (md_owner_references m) in
      (if ephemeral then match owners with [owner] => owned_by_pod pod owner | _ => false end
       else match owners with [] => true | _ => false end)
      && (pod_created <? created) && is_some (md_uid m) && bool_decide (md_namespace m = md_namespace (po_metadata pod))
      && negb (is_some (md_deletion_timestamp m))
      && bool_decide (label m STORAGE_ROLE_LABEL = Some "temporary")
      && is_none_or (md_annotations m) (λ annotations, forallb (λ key, negb (is_some (annotations !! key))) BINDING_ANNOTATIONS)
      && negb (is_some (cs_volume_name spec)) && negb (is_some (cs_data_source spec)) && negb (is_some (cs_data_source_ref spec))
      && is_some_and (cl_status claim) (λ status, bool_decide (ct_phase status = Some "Pending") && negb (is_some (ct_capacity status)))
  | _, _, _ => false
  end.

Definition mounts_home (volume_name home : string) (volumes : option (list PodVolume)) : bool :=
  is_some_and volumes (existsb (λ volume, String.eqb (vo_name volume) volume_name
                                          && is_some_and (vo_claim volume) (λ claim, String.eqb (cm_claim_name claim) home))).

Definition recovery_home_reference (w : Workspace) (pod : Pod) (set : StatefulSet) (names : WorkspaceResourceNames) (home : string) : bool :=
  mounts_home (data_claim_template names) home (pod_volumes pod)
  && is_some_and (ss_spec set) (λ spec,
       let template_volumes := pt_spec (ss_template spec) ≫= ps_volumes in
       if is_some_and template_volumes (existsb (λ volume, String.eqb (vo_name volume) (data_claim_template names)))
       then mounts_home (data_claim_template names) home template_volumes
       else negb (is_some (ws_home_volume_binding w))
            && is_some_and (ss_claim_templates spec)
                 (existsb (λ claim, bool_decide (md_name (cl_metadata claim) = Some (data_claim_template names))))).

(** A claim that keeps the home and the volume it is bound to. *)
Definition home_is_bound (w : Workspace) (home : Claim) : bool :=
  is_some (md_uid (cl_metadata home)) && negb (is_some (md_deletion_timestamp (cl_metadata home)))
  && negb (is_some_and (md_owner_references (cl_metadata home)) (existsb (λ owner, String.eqb (ow_kind owner) "Pod")))
  && bool_decide ((cl_status home ≫= ct_phase) = Some "Bound")
  && is_none_or (ws_home_volume_binding w) (λ binding, bool_decide (md_uid (cl_metadata home) = Some (vb_claim_uid binding))).
Definition volume_is_bound_to (volume : PersistentVolume) (home : Claim) (home_name : string) : bool :=
  is_some (md_uid (pv_metadata volume)) && negb (is_some (md_deletion_timestamp (pv_metadata volume)))
  && bool_decide (pv_phase volume = Some "Bound")
  && is_some_and (pv_spec volume ≫= pv_claim_ref) (λ reference,
       bool_decide (rf_name reference = Some home_name) && bool_decide (rf_namespace reference = Some ns)
       && bool_decide (rf_uid reference = md_uid (cl_metadata home))).

Section Lifecycle.
Context (c : KubernetesCoordinator) `{UuidText} `{OwnershipErrorText}.

Definition verify_delete_ownership (metadata : ObjectMeta) (w : Workspace) : CM () :=
  cm_give (map_err ownership_error_to_string (verify metadata (kc_installation_id c) (uuid_to_string (ws_id w)))).
Definition verify_installation_ownership (metadata : ObjectMeta) : CM () :=
  cm_give (map_err ownership_error_to_string (verify_installation metadata (kc_installation_id c))).
Definition runtime_names (w : Workspace) : CM WorkspaceRuntimeNames :=
  cm_some (for_workspace_names (kc_installation_id c) (ws_short_id w)) "workspace runtime identity is invalid".

(** ** The claims a workspace is bound to *)
Definition validate_home_volume_binding (w : Workspace) : result string () :=
  _ ← match ws_home_volume_binding w with
      | Some binding =>
          _ ← ensure (bool_decide (vb_namespace binding = ns)) "bound Home PVC namespace does not match the workspace runtime namespace";
          _ ← ensure (negb (bool_decide (trimmed (vb_claim_name binding) = "") || bool_decide (trimmed (vb_claim_uid binding) = "")))
                "bound Home PVC requires a non-empty claim name and UID";
          ensure (negb ((vb_capacity_gib binding =? 0) || negb (vb_capacity_gib binding =? disk_gib (resources (ws_template w)))
                        || is_none_or (checked_mul_u64 (vb_capacity_gib binding) GIB) (λ bytes, i64_max <? bytes)))
            "bound Home capacity must be positive and match the persisted workspace disk capacity"
      | None => Ok ()
      end;
  ensure (is_none_or (ws_scratch_volume_binding w) (λ binding,
            binding_is_valid binding && bool_decide (vb_namespace binding = ns)
            && (vb_capacity_gib binding =? temporary_storage_gib (storage_policy (ws_template w)))))
    "scratch binding must have a valid namespace, claim UID and capacity matching the temporary storage policy".

(** [map_err] on a method. *)
Definition cm_map_err {A} (f : string → string) (m : CM A) : CM A := then_prog m (λ r, Done (map_err f r)).

Definition verify_scratch_volume_binding (w : Workspace) : CM () :=
  match ws_scratch_volume_binding w with
  | Some binding =>
      _ ← cm_map_err (λ _, "bound scratch PVC " +:+ vb_claim_name binding +:+ " is unavailable or its UID/capacity/ownership changed")
            (shrink_claim c w binding true);
      mret ()
  | None => mret ()
  end.

Definition verify_home_volume_binding (w : Workspace) : CM () :=
  _ ← cm_give (validate_home_volume_binding w);
  _ ← verify_scratch_volume_binding w;
  match ws_home_volume_binding w with
  | None => mret ()
  | Some binding =>
      let invalid reason := "bound Home PVC " +:+ vb_claim_name binding +:+ " is unavailable or invalid: " +:+ reason in
      claim ← request_opt (GetClaim ns (vb_claim_name binding));
      claim ← cm_some claim (invalid "claim does not exist");
      _ ← cm_require (bool_decide (md_uid (cl_metadata claim) = Some (vb_claim_uid binding)))
            (invalid "claim UID does not match the persisted binding");
      _ ← cm_require (negb (is_some (md_deletion_timestamp (cl_metadata claim)))) (invalid "claim is terminating");
      status ← cm_some (cl_status claim) (invalid "claim has no status");
      _ ← cm_require (bool_decide (ct_phase status = Some "Bound")) (invalid "claim is not Bound");
      cm_require (is_some_and (ct_capacity status ≫= lookup "storage") (λ quantity, capacity_is_sufficient quantity (vb_capacity_gib binding)))
        (invalid "claim capacity is missing, invalid, or smaller than the persisted binding")
  end.

(** ** Observation *)
Definition judge_replicas (w : Workspace) (names : WorkspaceResourceNames) (expected : Z)
    (set : result string (option StatefulSet)) (pod : result string (option Pod)) : CM bool :=
  set ← cm_give set;
  match set with
  | None => mret false
  | Some set =>
      _ ← verify_delete_ownership (ss_metadata set) w;
      if negb (observed_workspace_replicas set w expected) then mret false
      else if expected =? 0 then mret (is_some_and (ss_status set) (λ status, sn_replicas status =? 0))
      else
        pod ← cm_give pod;
        match pod with
        | None => mret false
        | Some pod =>
            _ ← verify_delete_ownership (po_metadata pod) w;
            mret ((expected =? 1) && current_workspace_pod set pod w (stateful_set names) && pod_is_ready pod)
        end
  end.

Definition read_ready_pod (names : WorkspaceResourceNames) (expected : Z) : CM (option Pod) :=
  if negb (expected =? 1) then mret None else request_opt (GetPod ns (pod_ordinal_zero names)).

Definition has_observed_replicas (w : Workspace) (expected : Z) (schedule : list bool) : CM bool :=
  names ← runtime_names w;
  let names := resources_of names in
  then_prog (join (request_opt (ReadStatefulSet ns (stateful_set names))) (read_ready_pod names expected) schedule)
    (λ reads, judge_replicas w names expected reads.1 reads.2).

(** ** Deletion *)
Definition delete_owned_object (kind : Kind) (namespace : option string) (existing : ObjectMeta) (w : Workspace) : CM () :=
  _ ← verify_delete_ownership existing w;
  if is_some (md_deletion_timestamp existing) then mret ()
  else
    uid ← cm_some (md_uid existing) "ServiceError: owned workspace resource has no UID; refusing an unguarded delete";
    request (DeleteObject kind namespace (name_any existing) (mkPreconditions (Some uid) None)).

Definition delete_owned_if_present (kind : Kind) (namespace : option string) (name : string) (w : Workspace) : CM bool :=
  existing ← request_opt (GetObject kind namespace name);
  match existing with
  | None => mret false
  | Some existing => _ ← delete_owned_object kind namespace existing w; mret true
  end.

Fixpoint delete_each (kind : Kind) (namespace : option string) (w : Workspace) (objects : list ObjectMeta) : CM () :=
  match objects with
  | [] => mret ()
  | existing :: objects => _ ← delete_owned_object kind namespace existing w; delete_each kind namespace w objects
  end.
Definition delete_all_owned (kind : Kind) (namespace : option string) (selector : string) (w : Workspace) : CM bool :=
  objects ← request (ListObjects kind namespace selector);
  _ ← delete_each kind namespace w objects;
  mret match objects with [] => false | _ => true end.

(** One after the other, [present |= ...]. *)
Fixpoint delete_named (kind : Kind) (names : list string) (w : Workspace) : CM bool :=
  match names with
  | [] => mret false
  | name :: names =>
      present ← delete_owned_if_present kind (Some ns) name w;
      others ← delete_named kind names w;
      mret (present || others)
  end.

Definition mapping_selector (w : Workspace) : string :=
  OWNER_INSTALLATION_LABEL +:+ "=" +:+ kc_installation_id c +:+ "," +:+ WORKSPACE_ID_LABEL +:+ "=" +:+ uuid_to_string (ws_id w)
  +:+ "," +:+ PORT_MAPPING_ID_LABEL.

Definition delete_owned_web_shell_filter (w : Workspace) (names : WorkspaceResourceNames) : CM bool :=
  if negb (is_some (kc_ttyd_mtls c)) then mret false
  else
    let namespace := Some (kc_higress_namespace c) in
    existing ← request_opt (GetObject KEnvoyFilter namespace (web_shell_envoy_filter names));
    present ← match existing with
              | None => mret false
              | Some existing =>
                  _ ← verify_delete_ownership existing w;
                  _ ← (if is_some (md_deletion_timestamp existing) then mret ()
                       else
                         uid ← cm_some (md_uid existing) "owned Higress EnvoyFilter has no UID; refusing an unguarded delete";
                         request (DeleteObject KEnvoyFilter namespace (web_shell_envoy_filter names) (mkPreconditions (Some uid) None)));
                  mret true
              end;
    if is_some (kc_port_mapping_domain c) then
      mappings ← delete_all_owned KEnvoyFilter namespace (mapping_selector w) w;
      mret (present || mappings)
    else mret present.

Definition pod_references_pvc (pod : Pod) (pvc_name : string) : bool :=
  is_some_and (pod_volumes pod)
    (existsb (λ volume, is_some_and (vo_claim volume) (λ claim, String.eqb (cm_claim_name claim) pvc_name))).

(** The claims that are the workspace's own, not bound by its record. *)
Definition uses_own_claim (w : Workspace) (names : WorkspaceResourceNames) (pod : Pod) : bool :=
  negb (is_some (ws_home_volume_binding w)) && pod_references_pvc pod (data_pvc_ordinal_zero names)
  || negb (is_some (ws_scratch_volume_binding w)) && pod_references_pvc pod (scratch_pvc names).

Fixpoint pods_present (w : Workspace) (names : WorkspaceResourceNames) (pods : list Pod) : CM bool :=
  match pods with
  | [] => mret false
  | pod :: pods =>
      if String.eqb (name_any (po_metadata pod)) (pod_ordinal_zero names) then
        _ ← verify_delete_ownership (po_metadata pod) w; mret true
      else if uses_own_claim w names pod then mret true
      else pods_present w names pods
  end.

Definition workspace_pod_or_pvc_reference_is_present (w : Workspace) (names : WorkspaceResourceNames) : CM bool :=
  pod ← request_opt (GetPod ns (pod_ordinal_zero names));
  match pod with
  | Some pod => _ ← verify_delete_ownership (po_metadata pod) w; mret true
  | None => pods ← request (ListPods ns None); pods_present w names pods
  end.

Definition delete_unless_bound (binding : option WorkspaceHomeVolumeBinding) (name : string) (w : Workspace) : CM bool :=
  if is_some binding then mret false else delete_owned_if_present KClaim (Some ns) name w.

Definition delete_workspace_remaining (w : Workspace) (names : WorkspaceResourceNames) (schedule : list bool) : CM DeleteProgress :=
  policy ← delete_owned_if_present KNetworkPolicy (Some ns) (network_policy names) w;
  configs ← delete_named KConfigMap [workspace_config names; http_proxy_config names; environment_config_map names;
                                     files_config_map names; startup_gate_config_map names] w;
  secrets ← delete_named KSecret [ssh_identity_secret names; environment_secret names; files_secret names] w;
  account ← delete_owned_if_present KServiceAccount (Some ns) (service_account names) w;
  if policy || configs || secrets || account then mret DeletionRequested
  else
    present ← try_join (delete_unless_bound (ws_home_volume_binding w) (data_pvc_ordinal_zero names) w)
                (delete_unless_bound (ws_scratch_volume_binding w) (scratch_pvc names) w) schedule;
    mret (if present.1 || present.2 then DeletionRequested else Gone).

Definition delete_workspace_resources (w : Workspace) (names : WorkspaceResourceNames) (schedule : list bool) : CM DeleteProgress :=
  let selector := mapping_selector w in
  shell ← delete_owned_if_present KIngress (Some ns) (web_shell_ingress names) w;
  routes ← delete_all_owned KIngress (Some ns) selector w;
  if shell || routes then mret DeletionRequested
  else
    filters ← delete_owned_web_shell_filter w names;
    policies ← delete_all_owned KNetworkPolicy (Some ns) selector w;
    mappings ← delete_all_owned KService (Some ns) selector w;
    ssh ← delete_owned_if_present KService (Some ns) (ssh_service names) w;
    main ← delete_owned_if_present KService (Some ns) (service names) w;
    if filters || policies || mappings || ssh || main then mret DeletionRequested
    else
      set ← delete_owned_if_present KStatefulSet (Some ns) (stateful_set names) w;
      if set : bool then mret DeletionRequested
      else
        used ← workspace_pod_or_pvc_reference_is_present w names;
        if used : bool then mret Terminating else delete_workspace_remaining w names schedule.

Definition delete_or_confirm (w : Workspace) (schedule : list bool) : CM DeleteProgress :=
  runtime ← runtime_names w;
  let names := resources_of runtime in
  binding ← delete_owned_if_present KClusterRoleBinding None (cluster_admin_binding_name (kc_installation_id c) runtime) w;
  if binding : bool then mret DeletionRequested
  else
    namespace ← request_opt (GetObject KNamespace None ns);
    match namespace with
    | None =>
        filter ← delete_owned_web_shell_filter w names;
        mret (if filter : bool then DeletionRequested else Gone)
    | Some namespace => _ ← verify_installation_ownership namespace; delete_workspace_resources w names schedule
    end.

Definition delete_stopped_scratch (w : Workspace) : CM bool :=
  runtime ← runtime_names w;
  let names := resources_of runtime in
  used ← workspace_pod_or_pvc_reference_is_present w names;
  if used : bool then mret false
  else if is_some (ws_scratch_volume_binding w) then mret true
  else present ← delete_owned_if_present KClaim (Some ns) (scratch_pvc names) w; mret (negb present).

(** ** Recovery *)
Definition recovery_home_is_retained (w : Workspace) (pod : Pod) (set : StatefulSet) (names : WorkspaceResourceNames) : CM bool :=
  _ ← verify_home_volume_binding w;
  let home_name := match ws_home_volume_binding w with Some binding => vb_claim_name binding | None => data_pvc_ordinal_zero names end in
  if negb (recovery_home_reference w pod set names home_name) then mret false
  else
    home ← request_opt (GetClaim ns home_name);
    match home with
    | None => mret false
    | Some home =>
        older ← (if is_some (ws_home_volume_binding w) then mret true
                 else
                   _ ← verify_delete_ownership (cl_metadata home) w;
                   mret (match md_creation_timestamp (cl_metadata home), md_creation_timestamp (po_metadata pod) with
                         | Some home_created, Some pod_created => home_created <=? pod_created
                         | _, _ => false
                         end));
        if negb (older && home_is_bound w home) then mret false
        else
          match cl_spec home ≫= cs_volume_name with
          | None => mret false
          | Some home_volume =>
              volume ← request_opt (GetVolume home_volume);
              mret (is_some_and volume (λ volume, volume_is_bound_to volume home home_name))
          end
    end.

Definition is_active_state (s : WorkspaceState) : bool :=
  match s with Provisioning | Starting | Restarting | Ready => true | _ => false end.

(** The second half, once the Pod is known to be inactive and the current one. *)
Definition replace_waiting_pod (w : Workspace) (names : WorkspaceResourceNames) (pod : Pod) (set : StatefulSet)
    (pod_uid pod_version : string) : CM () :=
  match scratch_claim_name pod names with
  | None => mret ()
  | Some (scratch_name, ephemeral) =>
      claim ← request_opt (GetClaim ns scratch_name);
      match claim with
      | None => mret ()
      | Some claim =>
          _ ← verify_delete_ownership (cl_metadata claim) w;
          if negb (empty_recreated_scratch claim pod ephemeral) then mret ()
          else
            match cl_spec claim ≫= cs_storage_class_name with
            | None => mret ()
            | Some class_name =>
                class ← request_opt (GetStorageClass class_name);
                match class with
                | None => mret ()
                | Some class =>
                    if negb (bool_decide (sc_volume_binding_mode class = Some "WaitForFirstConsumer")) then mret ()
                    else
                      retained ← recovery_home_is_retained w pod set names;
                      if negb retained then mret ()
                      else request_tolerating [404; 409]
                             (DeletePod ns (pod_ordinal_zero names) (mkPreconditions (Some pod_uid) (Some pod_version)))
                end
            end
      end
  end.

Definition recover_scratch_scheduling (w : Workspace) : CM () :=
  if negb (is_active_state (ws_state w)) || is_some (ws_scratch_volume_binding w) then mret ()
  else
    runtime ← runtime_names w;
    let names := resources_of runtime in
    pod ← request_opt (GetPod ns (pod_ordinal_zero names));
    match pod with
    | None => mret ()
    | Some pod =>
        _ ← verify_delete_ownership (po_metadata pod) w;
        if negb (inactive_scheduled_pod pod) then mret ()
        else
          match md_uid (po_metadata pod), md_resource_version (po_metadata pod) with
          | Some pod_uid, Some pod_version =>
              set ← request_opt (ReadStatefulSet ns (stateful_set names));
              match set with
              | None => mret ()
              | Some set =>
                  _ ← verify_delete_ownership (ss_metadata set) w;
                  if negb (observed_workspace_replicas set w 1) || negb (current_workspace_pod set pod w (stateful_set names)) then mret ()
                  else replace_waiting_pod w names pod set pod_uid pod_version
              end
          | _, _ => mret ()
          end
    end.
End Lifecycle.

(** ** Safety of deletion *)
Section DeletionSafety.
Context (c : KubernetesCoordinator) `{UuidText} `{OwnershipErrorText}.

(** The object has the labels of installation and workspace. *)
Definition belongs (m : ObjectMeta) (w : Workspace) : Prop :=
  label m OWNER_INSTALLATION_LABEL = Some (kc_installation_id c) ∧ label m WORKSPACE_ID_LABEL = Some (uuid_to_string (ws_id w)).

Lemma verify_Ok m w : verify m (kc_installation_id c) (uuid_to_string (ws_id w)) = Ok () ↔ belongs m w.
Proof.
  unfold verify, belongs, label, check_label. destruct (md_labels m) as [labels|]; cbn; [|naive_solver].
  repeat case_bool_decide; cbn; naive_solver.
Qed.

(** An ownership check that was passed. *)
Lemma ownership_wp P m w past (Q : list Event → () → Prop) : (belongs m w → Q past ()) → cwp P (verify_delete_ownership c m w) past Q.
Proof.
  intros HQ. unfold verify_delete_ownership. cm_step. destruct a. apply HQ, verify_Ok. unfold map_err in Hgive.
  destruct (verify _ _ _) as [[]|]; done.
Qed.

(** An object that was read, by its name or in a list. *)
Definition was_read (kind : Kind) (namespace : option string) (m : ObjectMeta) (past : list Event) : Prop :=
  (∃ name, Answered past (GetObject kind namespace name) m) ∨
  ∃ selector objects, Answered past (ListObjects kind namespace selector) objects ∧ m ∈ objects.

(** The Pod of the workspace is gone and no other uses its own claims. *)
Definition unused (w : Workspace) (names : WorkspaceResourceNames) (past : list Event) : Prop :=
  Absent past (GetPod ns (pod_ordinal_zero names)) ∧
  ∃ pods, Answered past (ListPods ns None) pods ∧
    ∀ pod, pod ∈ pods → name_any (po_metadata pod) ≠ pod_ordinal_zero names ∧ uses_own_claim w names pod = false.

(** The routes to the workspace are gone. *)
Definition unrouted (w : Workspace) (names : WorkspaceResourceNames) (past : list Event) : Prop :=
  Absent past (GetObject KIngress (Some ns) (web_shell_ingress names)) ∧ Answered past (ListObjects KIngress (Some ns) (mapping_selector c w)) [].

(** What has to be gone before an object of a kind may be deleted: the certificate
    checks outlive the routes, isolation and inputs outlive the Pod, and a claim is
    one of the workspace's own that nothing uses. *)
Definition in_turn (w : Workspace) (names : WorkspaceResourceNames) (past : list Event) (kind : Kind) (namespace : option string)
    (m : ObjectMeta) : Prop :=
  match kind with
  | KIngress | KClusterRoleBinding => True
  | KEnvoyFilter => Absent past (GetObject KNamespace None ns) ∨ unrouted w names past
  | KService | KStatefulSet => unrouted w names past
  | KNetworkPolicy =>
      unrouted w names past ∧
      ((∃ objects, Answered past (ListObjects kind namespace (mapping_selector c w)) objects ∧ m ∈ objects) ∨ unused w names past)
  | KConfigMap | KSecret | KServiceAccount => unused w names past
  | KClaim =>
      unused w names past ∧
      (Answered past (GetObject KClaim namespace (data_pvc_ordinal_zero names)) m ∧ ws_home_volume_binding w = None ∨
       Answered past (GetObject KClaim namespace (scratch_pvc names)) m ∧ ws_scratch_volume_binding w = None)
  | KNamespace | KPod => False
  end.

Definition deletes (w : Workspace) (names : WorkspaceResourceNames) (past : list Event) (A : Type) (req : Kube A) : Prop :=
  match req with
  | DeleteObject kind namespace name preconditions =>
      ∃ m uid, was_read kind namespace m past ∧ belongs m w ∧ md_uid m = Some uid ∧ md_deletion_timestamp m = None ∧
        preconditions = mkPreconditions (Some uid) None ∧ (name = name_any m ∨ name = web_shell_envoy_filter names) ∧
        in_turn w names past kind namespace m
  | _ => False
  end.

Lemma was_read_mono kind namespace m past past' : was_read kind namespace m past → past ⊆ past' → was_read kind namespace m past'.
Proof.
  intros [(name & Ha)|(selector & objects & Ha & Hin)] Hs; [left; exists name|right; exists selector, objects; split; [|done]];
    by eapply Answered_mono.
Qed.
Lemma unused_mono w names past past' : unused w names past → past ⊆ past' → unused w names past'.
Proof.
  intros (Ha & pods & Hp & Hall) Hs. split; [by eapply Absent_mono|]. exists pods. split; [by eapply Answered_mono|done].
Qed.
Lemma unrouted_mono w names past past' : unrouted w names past → past ⊆ past' → unrouted w names past'.
Proof. intros [Ha Hl] Hs. split; [by eapply Absent_mono|by eapply Answered_mono]. Qed.
Lemma in_turn_mono w names past past' kind namespace m : in_turn w names past kind namespace m → past ⊆ past' → in_turn w names past' kind namespace m.
Proof.
  intros Ht Hs. destruct kind; cbn in *; try done; eauto using unused_mono, unrouted_mono.
  - destruct Ht as [Hr Ht]. split; [by eapply unrouted_mono|]. destruct Ht as [(o & Ha & Hin)|Hu]; [left; exists o|right; by eapply unused_mono].
    split; [by eapply Answered_mono|done].
  - destruct Ht as [Hu Ht]. split; [by eapply unused_mono|]. destruct Ht as [[Ha Hn]|[Ha Hn]]; [left|right]; (split; [by eapply Answered_mono|done]).
  - destruct Ht as [Ht|Ht]; [left; by eapply Absent_mono|right; by eapply unrouted_mono].
Qed.
Lemma deletes_mono w names past past' A (req : Kube A) : past ⊆ past' → deletes w names past A req → deletes w names past' A req.
Proof.
  intros Hs. destruct req; cbn; try done. intros (m & uid & Hr & Hb & Hu & Hd & Hp & Hn & Ht). exists m, uid.
  split_and!; try done; [by eapply was_read_mono|by eapply in_turn_mono].
Qed.

Section Steps.
Context (w : Workspace) (names : WorkspaceResourceNames).
Abbreviation dwp := (cwp (writes (deletes w names))).

Lemma delete_object_wp kind namespace m past Q : was_read kind namespace m past → in_turn w names past kind namespace m →
  (∀ past', past ⊆ past' → Q past' ()) → dwp (delete_owned_object c kind namespace m w) past Q.
Proof.
  intros Hr Ht HQ. unfold delete_owned_object. apply cwp_bind, ownership_wp. intros Hb.
  destruct (md_deletion_timestamp m) eqn:Hd; cbn [is_some]; [cm_step; by apply HQ|]. cm_step. cm_step.
  - intros _. exists m, a. by split_and!; auto.
  - destruct a0. by apply HQ.
Qed.

Lemma delete_if_present_wp kind namespace name past Q :
  (∀ m past', past ⊆ past' → Answered past' (GetObject kind namespace name) m → in_turn w names past' kind namespace m) →
  (∀ past', past ⊆ past' → Q past' true) →
  (∀ past', past ⊆ past' → Absent past' (GetObject kind namespace name) → Q past' false) →
  dwp (delete_owned_if_present c kind namespace name w) past Q.
Proof.
  intros Ht HT HF. unfold delete_owned_if_present. cm_step; [done| |cm_step; by apply HF].
  apply cwp_bind, delete_object_wp; [left; by eexists|by apply Ht|]. intros past1 Hs1. cm_step. apply HT. set_solver.
Qed.

Lemma delete_each_wp kind namespace objects past Q :
  (∀ m, m ∈ objects → was_read kind namespace m past ∧ in_turn w names past kind namespace m) →
  (∀ past', past ⊆ past' → Q past' ()) → dwp (delete_each c kind namespace w objects) past Q.
Proof.
  revert past. induction objects as [|m objects IH]; intros past Hm HQ; cbn [delete_each]; [cm_step; by apply HQ|].
  destruct (Hm m ltac:(left)) as [Hr Ht]. apply cwp_bind, delete_object_wp; [done..|]. intros past1 Hs1. apply IH.
  - intros m' Hin. destruct (Hm m' ltac:(by right)). split; [by eapply was_read_mono|by eapply in_turn_mono].
  - intros past2 Hs2. apply HQ. set_solver.
Qed.

Lemma delete_all_wp kind namespace selector past Q :
  (∀ m objects past', past ⊆ past' → Answered past' (ListObjects kind namespace selector) objects → m ∈ objects →
     in_turn w names past' kind namespace m) →
  (∀ past', past ⊆ past' → Q past' true) →
  (∀ past', past ⊆ past' → Answered past' (ListObjects kind namespace selector) [] → Q past' false) →
  dwp (delete_all_owned c kind namespace selector w) past Q.
Proof.
  intros Ht HT HF. unfold delete_all_owned. cm_step; [done|]. apply cwp_bind, delete_each_wp.
  - intros m Hin. split; [right; by eexists _, _|by eapply Ht].
  - intros past1 Hs1. cm_step. destruct a; [apply HF; [set_solver|by eapply Answered_mono]|apply HT; set_solver].
Qed.

Lemma delete_named_wp kind list past Q :
  (∀ m past', past ⊆ past' → in_turn w names past' kind (Some ns) m) →
  (∀ past', past ⊆ past' → Q past' true) →
  (∀ past', past ⊆ past' → (∀ name, name ∈ list → Absent past' (GetObject kind (Some ns) name)) → Q past' false) →
  dwp (delete_named c kind list w) past Q.
Proof.
  revert past Q. induction list as [|name list IH]; intros past Q Ht HT HF; cbn [delete_named].
  { cm_step. apply HF; [done|]. intros ? []%not_elem_of_nil. }
  apply cwp_bind, delete_if_present_wp; [intros m past' Hs _; by apply Ht|intros past1 Hs1..].
  - apply cwp_bind, IH; intros; [apply Ht; set_solver|cm_step; apply HT; set_solver..].
  - intros Ha. apply cwp_bind, IH; intros; [apply Ht; set_solver|cm_step; apply HT; set_solver|]. cm_step. cbn [orb]. apply HF; [set_solver|].
    intros name' [->|?]%elem_of_cons; [by eapply Absent_mono|auto].
Qed.

(** The filters are gone, where there are any. *)
Definition unfiltered (past : list Event) : Prop :=
  kc_ttyd_mtls c = None ∨
  Absent past (GetObject KEnvoyFilter (Some (kc_higress_namespace c)) (web_shell_envoy_filter names)) ∧
  (kc_port_mapping_domain c = None ∨ Answered past (ListObjects KEnvoyFilter (Some (kc_higress_namespace c)) (mapping_selector c w)) []).

Lemma unfiltered_mono past past' : unfiltered past → past ⊆ past' → unfiltered past'.
Proof.
  intros [Hn|[Ha [Hn|Hl]]] Hs; [by left|right..]; (split; [by eapply Absent_mono|]); [by left|right; by eapply Answered_mono].
Qed.

Lemma delete_filter_wp past Q : (∀ past' m, past ⊆ past' → in_turn w names past' KEnvoyFilter (Some (kc_higress_namespace c)) m) →
  (∀ past', past ⊆ past' → Q past' true) → (∀ past', past ⊆ past' → unfiltered past' → Q past' false) →
  dwp (delete_owned_web_shell_filter c w names) past Q.
Proof.
  intros Ht HT HF. unfold delete_owned_web_shell_filter. destruct (kc_ttyd_mtls c) as [mtls|] eqn:Hm; cbn [is_some negb].
  2: { cm_step. apply HF; [done|by left]. }
  assert (∀ present past1, past ⊆ past1 →
    (present = false → Absent past1 (GetObject KEnvoyFilter (Some (kc_higress_namespace c)) (web_shell_envoy_filter names))) →
    dwp (if is_some (kc_port_mapping_domain c) then
           mappings ← delete_all_owned c KEnvoyFilter (Some (kc_higress_namespace c)) (mapping_selector c w) w; mret (present || mappings)
         else mret present) past1 Q) as Hrest.
  { intros present past1 Hs1 Hp. destruct (kc_port_mapping_domain c) eqn:Hd; cbn [is_some].
    - apply cwp_bind, delete_all_wp; intros.
      + apply Ht. set_solver.
      + cm_step. rewrite orb_true_r. apply HT. set_solver.
      + cm_step. rewrite orb_false_r. destruct present; [apply HT; set_solver|apply HF; [set_solver|right]].
        split; [eapply Absent_mono; [by apply Hp|done]|by right].
    - cm_step. destruct present; [by apply HT|apply HF; [done|right]]. split; [by apply Hp|by left]. }
  cm_step; [done| |apply cwp_bind, cwp_ret, Hrest; [done|auto]].
  apply cwp_bind, cwp_bind, ownership_wp. intros Hb. destruct (md_deletion_timestamp a) eqn:Hdel; cbn [is_some].
  - cm_step. cm_step. by apply Hrest.
  - apply cwp_bind. cm_step. cm_step.
    + intros _. exists a, a0. split_and!; auto. left. by eexists.
    + cm_step. apply Hrest; [set_solver|done].
Qed.

Lemma pods_present_wp pods past Q : Answered past (ListPods ns None) pods → Absent past (GetPod ns (pod_ordinal_zero names)) →
  ∀ checked rest, pods = checked ++ rest →
  (∀ pod, pod ∈ checked → name_any (po_metadata pod) ≠ pod_ordinal_zero names ∧ uses_own_claim w names pod = false) →
  Q past true → (unused w names past → Q past false) → dwp (pods_present c w names rest) past Q.
Proof.
  intros Hl Ha checked rest. revert checked. induction rest as [|pod rest IH]; intros checked Hpods Hall HT HF; cbn [pods_present].
  { cm_step. apply HF. split; [done|]. exists pods. split; [done|]. rewrite app_nil_r in Hpods. by subst. }
  destruct (String.eqb _ _) eqn:En; [apply cwp_bind, ownership_wp; intros _; by cm_step|].
  destruct (uses_own_claim w names pod) eqn:Eu; [by cm_step|]. apply (IH (checked ++ [pod])); [by rewrite <-app_assoc| |done..].
  intros pod' [?|<-%list_elem_of_singleton]%elem_of_app; [auto|]. split; [by apply String.eqb_neq|done].
Qed.

Lemma reference_wp past Q : (∀ past', past ⊆ past' → Q past' true) → (∀ past', past ⊆ past' → unused w names past' → Q past' false) →
  dwp (workspace_pod_or_pvc_reference_is_present c w names) past Q.
Proof.
  intros HT HF. unfold workspace_pod_or_pvc_reference_is_present. cm_step; [done| |].
  - apply cwp_bind, ownership_wp. intros _. cm_step. by apply HT.
  - cm_step; [done|]. eapply (pods_present_wp a past1 _ ltac:(done) ltac:(done) []); [done|by intros ? []%not_elem_of_nil|apply HT; set_solver|].
    intros Hu. apply HF; [set_solver|done].
Qed.

(** The outcome of each step. *)
Lemma if_present_post kind namespace name past : (∀ m past', past ⊆ past' → in_turn w names past' kind namespace m) →
  dwp (delete_owned_if_present c kind namespace name w) past (λ past' b, b = false → Absent past' (GetObject kind namespace name)).
Proof. intros Ht. by apply delete_if_present_wp; [intros m past' Hs _; apply Ht|..]. Qed.
Lemma all_owned_post kind namespace selector past :
  (∀ m objects past', past ⊆ past' → Answered past' (ListObjects kind namespace selector) objects → m ∈ objects →
     in_turn w names past' kind namespace m) →
  dwp (delete_all_owned c kind namespace selector w) past (λ past' b, b = false → Answered past' (ListObjects kind namespace selector) []).
Proof. intros Ht. by apply delete_all_wp. Qed.
Lemma filter_post past : (∀ past' m, past ⊆ past' → in_turn w names past' KEnvoyFilter (Some (kc_higress_namespace c)) m) →
  dwp (delete_owned_web_shell_filter c w names) past (λ past' b, b = false → unfiltered past').
Proof. intros Ht. by apply delete_filter_wp. Qed.

Definition CONFIG_MAPS : list string :=
  [workspace_config names; http_proxy_config names; environment_config_map names; files_config_map names; startup_gate_config_map names].
Definition SECRETS : list string := [ssh_identity_secret names; environment_secret names; files_secret names].

(** The objects of the namespace that have names of the workspace. *)
Definition own_objects : list (Kind * string) :=
  [(KIngress, web_shell_ingress names); (KService, ssh_service names); (KService, service names); (KStatefulSet, stateful_set names);
   (KNetworkPolicy, network_policy names); (KServiceAccount, service_account names)]
  ++ (pair KConfigMap <$> CONFIG_MAPS) ++ (pair KSecret <$> SECRETS)
  ++ (if is_some (ws_home_volume_binding w) then [] else [(KClaim, data_pvc_ordinal_zero names)])
  ++ (if is_some (ws_scratch_volume_binding w) then [] else [(KClaim, scratch_pvc names)]).

Definition all_absent (objects : list (Kind * string)) (past : list Event) : Prop :=
  ∀ kind name, (kind, name) ∈ objects → Absent past (GetObject kind (Some ns) name).
Lemma all_absent_mono objects past past' : all_absent objects past → past ⊆ past' → all_absent objects past'.
Proof. intros Ha Hs kind name Hin. eapply Absent_mono; [by apply Ha|done]. Qed.
Lemma all_absent_cons kind name objects past :
  Absent past (GetObject kind (Some ns) name) → all_absent objects past → all_absent ((kind, name) :: objects) past.
Proof. intros Ha Hall k n [[= -> ->]|Hin]%elem_of_cons; auto. Qed.
Lemma all_absent_app objects objects' past : all_absent objects past → all_absent objects' past → all_absent (objects ++ objects') past.
Proof. intros Ha Hb k n [Hin|Hin]%elem_of_app; auto. Qed.
Lemma all_absent_kind kind list past :
  (∀ name, name ∈ list → Absent past (GetObject kind (Some ns) name)) → all_absent (pair kind <$> list) past.
Proof. intros Ha k n (name & [= -> ->] & Hin)%list_elem_of_fmap. auto. Qed.

Lemma named_post kind list past : (∀ m past', past ⊆ past' → in_turn w names past' kind (Some ns) m) →
  dwp (delete_named c kind list w) past (λ past' b, b = false → all_absent (pair kind <$> list) past').
Proof. intros Ht. apply delete_named_wp; [done..|]. intros past' Hs Ha _. by apply all_absent_kind. Qed.

Lemma unless_bound_wp binding name past Q :
  (binding = None → ∀ m past', past ⊆ past' → Answered past' (GetObject KClaim (Some ns) name) m → in_turn w names past' KClaim (Some ns) m) →
  (∀ past', past ⊆ past' → Q past' true) →
  (∀ past', past ⊆ past' → all_absent (if is_some binding then [] else [(KClaim, name)]) past' → Q past' false) →
  dwp (delete_unless_bound c binding name w) past Q.
Proof.
  intros Ht HT HF. unfold delete_unless_bound. destruct binding as [b|]; cbn [is_some] in *.
  { cm_step. apply HF; [done|]. by intros ? ? []%not_elem_of_nil. }
  apply delete_if_present_wp; [by apply Ht|done|]. intros past1 Hs1 Ha. apply HF; [done|]. apply all_absent_cons; [done|].
  by intros ? ? []%not_elem_of_nil.
Qed.

(** The claims, at once. *)
Lemma delete_claims_wp schedule past Q : unused w names past → (∀ past' present, past ⊆ past' →
     (present.1 = false → all_absent (if is_some (ws_home_volume_binding w) then [] else [(KClaim, data_pvc_ordinal_zero names)]) past') →
     (present.2 = false → all_absent (if is_some (ws_scratch_volume_binding w) then [] else [(KClaim, scratch_pvc names)]) past') →
     Q past' present) →
  dwp (try_join (delete_unless_bound c (ws_home_volume_binding w) (data_pvc_ordinal_zero names) w)
         (delete_unless_bound c (ws_scratch_volume_binding w) (scratch_pvc names) w) schedule) past Q.
Proof.
  intros Hu HQ. eapply cwp_mono.
  - apply (cwp_try_join _ _ _ schedule past
      (λ past' b, b = false → all_absent (if is_some (ws_home_volume_binding w) then [] else [(KClaim, data_pvc_ordinal_zero names)]) past')
      (λ past' b, b = false → all_absent (if is_some (ws_scratch_volume_binding w) then [] else [(KClaim, scratch_pvc names)]) past')).
    + apply writes_monotone. intros. by eapply deletes_mono.
    + intros past0 past1 b Hs Hb ->. eapply all_absent_mono; [by apply Hb|done].
    + intros past0 past1 b Hs Hb ->. eapply all_absent_mono; [by apply Hb|done].
    + apply unless_bound_wp; [|done|done]. intros Hn m past' Hs Ha. split; [by eapply unused_mono|left; done].
    + apply unless_bound_wp; [|done|done]. intros Hn m past' Hs Ha. split; [by eapply unused_mono|right; done].
  - intros past' present Hs [H1 H2]. by apply HQ.
Qed.

(** Everything that needs to be gone before the last step. *)
Definition dismantled (past : list Event) : Prop :=
  unrouted w names past ∧ unfiltered past ∧ unused w names past ∧
  (∀ kind, kind ∈ [KNetworkPolicy; KService] → Answered past (ListObjects kind (Some ns) (mapping_selector c w)) []) ∧
  all_absent [(KService, ssh_service names); (KService, service names); (KStatefulSet, stateful_set names)] past.

Lemma delete_remaining_wp schedule past Q : unused w names past → unrouted w names past →
  (∀ past' progress, past ⊆ past' →
     (progress = Gone → all_absent ([(KNetworkPolicy, network_policy names); (KServiceAccount, service_account names)]
                          ++ (pair KConfigMap <$> CONFIG_MAPS) ++ (pair KSecret <$> SECRETS)
                          ++ (if is_some (ws_home_volume_binding w) then [] else [(KClaim, data_pvc_ordinal_zero names)])
                          ++ (if is_some (ws_scratch_volume_binding w) then [] else [(KClaim, scratch_pvc names)])) past') →
     Q past' progress) →
  dwp (delete_workspace_remaining c w names schedule) past Q.
Proof.
  intros Hu Hr HQ. unfold delete_workspace_remaining. fold CONFIG_MAPS SECRETS.
  assert (∀ past', past ⊆ past' → Q past' DeletionRequested) as Hreq by (intros; by apply HQ).
  eapply cwp_seq.
  { apply if_present_post. intros m past' Hs. split; [by eapply unrouted_mono|right; by eapply unused_mono]. }
  intros past1 policy Hs1 H1. eapply cwp_seq.
  { apply named_post. intros m past' Hs. eapply unused_mono; [done|set_solver]. }
  intros past2 configs Hs2 H2. eapply cwp_seq.
  { apply named_post. intros m past' Hs. eapply unused_mono; [done|set_solver]. }
  intros past3 secrets Hs3 H3. eapply cwp_seq.
  { apply if_present_post. intros m past' Hs. eapply unused_mono; [done|set_solver]. }
  intros past4 account Hs4 H4. destruct (policy || configs || secrets || account) eqn:Hp; [cm_step; apply Hreq; set_solver|].
  rewrite !orb_false_iff in Hp. destruct Hp as [[[-> ->] ->] ->].
  apply cwp_bind, delete_claims_wp; [eapply unused_mono; [done|set_solver]|]. intros past5 [home scratch] Hs5 H5 H6. cm_step.
  destruct home, scratch; cbn [orb fst snd]; try (apply Hreq; set_solver). apply HQ; [set_solver|]. intros _.
  apply all_absent_cons; [eapply Absent_mono; [by apply H1|set_solver]|]. apply all_absent_cons; [eapply Absent_mono; [by apply H4|set_solver]|].
  apply all_absent_app; [eapply all_absent_mono; [by apply H2|set_solver]|]. apply all_absent_app; [eapply all_absent_mono; [by apply H3|set_solver]|].
  apply all_absent_app; [by apply H5|by apply H6].
Qed.

(** Everything of the namespace is gone. *)
Definition cleared (past : list Event) : Prop :=
  all_absent own_objects past ∧ unused w names past ∧
  ∀ kind, kind ∈ [KIngress; KNetworkPolicy; KService] → Answered past (ListObjects kind (Some ns) (mapping_selector c w)) [].

(** The steps between the routes and the workload. *)
Lemma delete_services_wp past Q : unrouted w names past →
  (∀ past', past ⊆ past' → Q past' DeletionRequested) →
  (∀ past', past ⊆ past' → Q past' Terminating) →
  ∀ schedule, (∀ past', past ⊆ past' → dismantled past' → dwp (delete_workspace_remaining c w names schedule) past' Q) →
  dwp (filters ← delete_owned_web_shell_filter c w names;
       policies ← delete_all_owned c KNetworkPolicy (Some ns) (mapping_selector c w) w;
       mappings ← delete_all_owned c KService (Some ns) (mapping_selector c w) w;
       ssh ← delete_owned_if_present c KService (Some ns) (ssh_service names) w;
       main ← delete_owned_if_present c KService (Some ns) (service names) w;
       if filters || policies || mappings || ssh || main then mret DeletionRequested
       else
         set ← delete_owned_if_present c KStatefulSet (Some ns) (stateful_set names) w;
         if set : bool then mret DeletionRequested
         else
           used ← workspace_pod_or_pvc_reference_is_present c w names;
           if used : bool then mret Terminating else delete_workspace_remaining c w names schedule) past Q.
Proof.
  intros Hr Hreq Hterm schedule Hrest.
  assert (∀ past', past ⊆ past' → unrouted w names past') as Hr' by (intros; by eapply unrouted_mono).
  eapply cwp_seq.
  { apply filter_post. intros past' m Hs. right. auto. }
  intros past1 filters Hs1 H1.
  eapply cwp_seq.
  { apply all_owned_post. intros m objects past' Hs Ha Hin. split; [apply Hr'; set_solver|left; eauto]. }
  intros past2 policies Hs2 H2.
  eapply cwp_seq.
  { apply all_owned_post. intros m objects past' Hs Ha Hin. apply Hr'. set_solver. }
  intros past3 mappings Hs3 H3.
  eapply cwp_seq.
  { apply if_present_post. intros m past' Hs. apply Hr'. set_solver. }
  intros past4 ssh Hs4 H4.
  eapply cwp_seq.
  { apply if_present_post. intros m past' Hs. apply Hr'. set_solver. }
  intros past5 main Hs5 H5. destruct (filters || policies || mappings || ssh || main) eqn:Hp; [cm_step; apply Hreq; set_solver|].
  rewrite !orb_false_iff in Hp. destruct Hp as [[[[-> ->] ->] ->] ->].
  apply cwp_bind, delete_if_present_wp; [intros m past' Hs _; apply Hr'; set_solver|intros; cm_step; apply Hreq; set_solver|].
  intros past6 Hs6 H6. apply cwp_bind, reference_wp; [intros; cm_step; apply Hterm; set_solver|]. intros past7 Hs7 Hu.
  apply Hrest; [set_solver|]. split_and!; [apply Hr'; set_solver|eapply unfiltered_mono; [by apply H1|set_solver]|done| |].
  - intros kind. rewrite !elem_of_cons, elem_of_nil. intros [->|[->|[]]]; (eapply Answered_mono; [auto|set_solver]).
  - do 2 (apply all_absent_cons; [eapply Absent_mono; [first [by apply H4|by apply H5]|set_solver]|]).
    apply all_absent_cons; [by eapply Absent_mono|]. by intros ? ? []%not_elem_of_nil.
Qed.

Lemma delete_resources_wp schedule past Q :
  (∀ past' progress, past ⊆ past' → (progress = Gone → cleared past' ∧ unfiltered past') → Q past' progress) →
  dwp (delete_workspace_resources c w names schedule) past Q.
Proof.
  intros HQ. unfold delete_workspace_resources.
  eapply cwp_seq.
  { by apply if_present_post. }
  intros past1 shell Hs1 H1.
  eapply cwp_seq.
  { by apply all_owned_post. }
  intros past2 routes Hs2 H2. destruct (shell || routes) eqn:Hp; [cm_step; apply HQ; [set_solver|done]|].
  apply orb_false_iff in Hp as [-> ->].
  assert (unrouted w names past2) as Hr by (split; [eapply Absent_mono; [by apply H1|done]|by apply H2]).
  apply delete_services_wp; [done|intros; apply HQ; [set_solver|done]..|].
  intros past3 Hs3 (Hr3 & Hf & Hu & Hl & Ha). apply delete_remaining_wp; [done..|]. intros past4 progress Hs4 H4.
  apply HQ; [set_solver|]. intros ->. specialize (H4 eq_refl). split; [|by eapply unfiltered_mono]. split_and!.
  - apply all_absent_cons; [eapply Absent_mono; [apply Hr3|done]|].
    assert (all_absent [(KService, ssh_service names); (KService, service names); (KStatefulSet, stateful_set names)] past4) as Ha'
      by by eapply all_absent_mono.
    exact (all_absent_app _ _ _ Ha' H4).
  - by eapply unused_mono.
  - intros kind [->|Hin]%elem_of_cons; [eapply Answered_mono; [apply Hr3|done]|]. eapply Answered_mono; [by apply Hl|done].
Qed.
End Steps.

(** What a confirmation rests on. *)
Definition gone (w : Workspace) (runtime : WorkspaceRuntimeNames) (past : list Event) : Prop :=
  Absent past (GetObject KClusterRoleBinding None (cluster_admin_binding_name (kc_installation_id c) runtime)) ∧
  unfiltered w (resources_of runtime) past ∧
  (Absent past (GetObject KNamespace None ns) ∨ cleared w (resources_of runtime) past).

Lemma delete_or_confirm_wp w runtime schedule : for_workspace_names (kc_installation_id c) (ws_short_id w) = Some runtime →
  cwp (writes (deletes w (resources_of runtime))) (delete_or_confirm c w schedule) [] (λ past progress, progress = Gone → gone w runtime past).
Proof.
  intros Hn. unfold delete_or_confirm, runtime_names. rewrite Hn. apply cwp_bind. cm_step. injection Hsome as <-.
  eapply cwp_seq; [by apply if_present_post|]. intros past1 binding Hs1 Hb. destruct binding; [by cm_step|]. specialize (Hb eq_refl).
  cm_step; [done| |].
  - apply cwp_bind. unfold verify_installation_ownership. cm_step. apply delete_resources_wp. intros past2 progress Hs2 H2 ->.
    destruct (H2 eq_refl) as [Hc Hf]. split_and!; [eapply Absent_mono; [done|set_solver]|done|by right].
  - eapply cwp_seq; [apply filter_post; intros past' m Hs'; left; by eapply Absent_mono|]. intros past2 filter Hs2 Hf. cm_step.
    destruct filter; [done|]. intros _. split_and!; [eapply Absent_mono; [done|set_solver]|by apply Hf|left; by eapply Absent_mono].
Qed.

(** C14: deletion takes everything of the workspace and nothing else. Whatever the
    cluster answers and in whatever order the last claims go, an object is deleted
    only if it was read with the labels of installation and workspace, with its UID
    as the condition; certificate checks go after the routes they guard, isolation
    and inputs after the Pod, claims when no Pod can use them, and claims the record
    of the workspace is bound to never. The deletion is confirmed only when every
    object of the workspace was seen to be absent. *)
Theorem deletion_complete_and_own {K} `{KubeServer K} w schedule (k : K) :
  let deletion := delete_or_confirm c w schedule in
  match for_workspace_names (kc_installation_id c) (ws_short_id w) with
  | None => events deletion k = []
  | Some runtime =>
      let names := resources_of runtime in
      all_permitted (writes (deletes w names)) [] (events deletion k) ∧
      ((run deletion k).1 = Ok Gone → gone w runtime (events deletion k))
  end.
Proof.
  intros deletion. destruct (for_workspace_names _ _) as [runtime|] eqn:Hn.
  2: { unfold deletion, delete_or_confirm, runtime_names. by rewrite Hn. }
  destruct (cwp_run _ deletion _ k (delete_or_confirm_wp w runtime schedule Hn)) as [Hall Hdone]. split; [done|].
  intros Hr. by apply (Hdone Gone).
Qed.

Definition scratch_released (w : Workspace) (names : WorkspaceResourceNames) (past : list Event) : Prop :=
  unused w names past ∧
  (is_some (ws_scratch_volume_binding w) = true ∨ Absent past (GetObject KClaim (Some ns) (scratch_pvc names))).

Lemma delete_stopped_scratch_wp w runtime : for_workspace_names (kc_installation_id c) (ws_short_id w) = Some runtime →
  cwp (writes (deletes w (resources_of runtime))) (delete_stopped_scratch c w) [] (λ past b, b = true → scratch_released w (resources_of runtime) past).
Proof.
  intros Hn. unfold delete_stopped_scratch, runtime_names, scratch_released. rewrite Hn. apply cwp_bind. cm_step. injection Hsome as <-.
  apply cwp_bind, reference_wp; [intros; by cm_step|]. intros past1 Hs1 Hu. cbv beta iota.
  destruct (ws_scratch_volume_binding w) as [b|] eqn:Hb; cbn [is_some]; [cm_step; intros _; split; [done|by left]|].
  apply cwp_bind, delete_if_present_wp; [|intros; by cm_step|].
  - intros m past2 Hs2 Ha. split; [by eapply unused_mono|by right].
  - intros past2 Hs2 Ha. cm_step. intros _. split; [by eapply unused_mono|by right].
Qed.

(** The scratch claim of a stopped workspace goes only when no Pod can use it; the
    method reports success when it was seen to be absent, or is bound by the
    record and kept. *)
Theorem stopped_scratch_released {K} `{KubeServer K} w (k : K) :
  let release := delete_stopped_scratch c w in
  match for_workspace_names (kc_installation_id c) (ws_short_id w) with
  | None => events release k = []
  | Some runtime =>
      let names := resources_of runtime in
      all_permitted (writes (deletes w names)) [] (events release k) ∧
      ((run release k).1 = Ok true → scratch_released w names (events release k))
  end.
Proof.
  intros release. destruct (for_workspace_names _ _) as [runtime|] eqn:Hn.
  2: { unfold release, delete_stopped_scratch, runtime_names. by rewrite Hn. }
  destruct (cwp_run _ release _ k (delete_stopped_scratch_wp w runtime Hn)) as [Hall Hdone]. split; [done|].
  intros Hr. by apply (Hdone true).
Qed.

(** ** Recovery *)

(** No container of the Pod runs, and it does not serve. *)
Definition nothing_runs (pod : Pod) : Prop :=
  ∃ spec status, po_spec pod = Some spec ∧ po_status pod = Some status ∧
    (∀ ip, po_pod_ip status = Some ip → ip = "") ∧
    ∀ container, container ∈ ps_containers spec →
      ∃ st, st ∈ default [] (po_containers status) ∧ st_name st = ct_name container ∧ is_terminated st = true.

Lemma inactive_nothing_runs pod : inactive_scheduled_pod pod = true → nothing_runs pod.
Proof.
  unfold inactive_scheduled_pod. destruct (po_spec pod) as [spec|] eqn:Hsp; [|done]. destruct (po_status pod) as [status|] eqn:Hst; [|done].
  intros Hi. repeat (apply andb_true_iff in Hi as [Hi ?]). exists spec, status. split_and!; [done..| |].
  - intros ip Hip. rewrite Hip in *. by apply String.eqb_eq.
  - intros container Hin. match goal with Ht : all_terminated (po_containers status) _ = true |- _ => apply andb_true_iff in Ht as [_ Ht]; rename Ht into Hall end.
    rewrite forallb_forall in Hall. specialize (Hall (ct_name container)). destruct (po_containers status) as [statuses|]; cbn in Hall |- *.
    + apply existsb_exists in Hall as (st & Hst' & [Hname Hterm]%andb_true_iff); [|by apply list_elem_of_In, list_elem_of_fmap_2].
      exists st. split_and!; [by apply list_elem_of_In|by apply String.eqb_eq|done].
    + discriminate Hall. by apply list_elem_of_In, list_elem_of_fmap_2.
Qed.

Section Recovery.
Context (w : Workspace) (names : WorkspaceResourceNames).

(** The home was seen on a bound volume of its own claim. *)
Definition home_kept (past : list Event) : Prop :=
  ∃ name home volume_name volume,
    name = match ws_home_volume_binding w with Some binding => vb_claim_name binding | None => data_pvc_ordinal_zero names end ∧
    Answered past (GetClaim ns name) home ∧ home_is_bound w home = true ∧
    (ws_home_volume_binding w = None → belongs (cl_metadata home) w) ∧
    Answered past (GetVolume volume_name) volume ∧ volume_is_bound_to volume home name = true.

(** The scratch claim was made anew after the Pod and waits for one. *)
Definition scratch_waits (pod : Pod) (past : list Event) : Prop :=
  ∃ name claim ephemeral class_name class,
    scratch_claim_name pod names = Some (name, ephemeral) ∧ Answered past (GetClaim ns name) claim ∧ belongs (cl_metadata claim) w ∧
    empty_recreated_scratch claim pod ephemeral = true ∧
    Answered past (GetStorageClass class_name) class ∧ sc_volume_binding_mode class = Some "WaitForFirstConsumer".

Definition replaces (past : list Event) (A : Type) (req : Kube A) : Prop :=
  match req with
  | DeletePod namespace name preconditions =>
      namespace = ns ∧ name = pod_ordinal_zero names ∧ is_active_state (ws_state w) = true ∧ ws_scratch_volume_binding w = None ∧
      ∃ pod set uid version,
        Answered past (GetPod ns name) pod ∧ belongs (po_metadata pod) w ∧ nothing_runs pod ∧
        md_uid (po_metadata pod) = Some uid ∧ preconditions = mkPreconditions (Some uid) (Some version) ∧
        md_resource_version (po_metadata pod) = Some version ∧
        Answered past (ReadStatefulSet ns (stateful_set names)) set ∧ belongs (ss_metadata set) w ∧
        observed_workspace_replicas set w 1 = true ∧ current_workspace_pod set pod w (stateful_set names) = true ∧
        scratch_waits pod past ∧ home_kept past
  | _ => False
  end.

Lemma map_err_wp {A} P f (m : CM A) past Q : cwp P m past Q → cwp P (cm_map_err f m) past Q.
Proof. intros Hm. apply wp_then. eapply wp_mono; [exact Hm|]. intros past' [a|e] Hs Hr; [exact Hr|done]. Qed.

Lemma verify_home_wp P past (Q : list Event → () → Prop) : ReadsPermitted P → (∀ past', past ⊆ past' → Q past' ()) →
  cwp P (verify_home_volume_binding c w) past Q.
Proof.
  intros HP HQ. unfold verify_home_volume_binding. cm_step.
  eapply cwp_seq with (R := λ _ _, True).
  { unfold verify_scratch_volume_binding. destruct (ws_scratch_volume_binding w) as [b|]; [|by cm_step]. apply cwp_bind, map_err_wp.
    unfold shrink_claim. cm_step. cm_step; [by apply HP|]. cm_step. cm_step. cm_step. by cm_step. }
  intros past1 _ Hs1 _. destruct (ws_home_volume_binding w) as [b|]; [|cm_step; by apply HQ].
  cbv zeta. cm_step; [by apply HP| |cm_step; discriminate]. cm_step. cm_step. cm_step. cm_step. cm_step. cm_step. apply HQ. set_solver.
Qed.

Lemma home_retained_wp P pod set past (Q : list Event → bool → Prop) : ReadsPermitted P →
  (∀ past', past ⊆ past' → Q past' false) → (∀ past', past ⊆ past' → home_kept past' → Q past' true) →
  cwp P (recovery_home_is_retained c w pod set names) past Q.
Proof.
  intros HP HF HT. unfold recovery_home_is_retained. apply cwp_bind, verify_home_wp; [done|]. intros past1 Hs1. cbv zeta.
  case_match; [cm_step; by apply HF|]. cm_step; [by apply HP| |cm_step; apply HF; set_solver].
  eapply cwp_seq with (R := λ past' older, ws_home_volume_binding w = None → belongs (cl_metadata a) w).
  { destruct (ws_home_volume_binding w) as [b|]; cbn [is_some]; [by cm_step|]. apply cwp_bind, ownership_wp. intros Hb. by cm_step. }
  intros past3 older Hs3 Hb. destruct (older && home_is_bound w a) eqn:Hh; cbn [negb]; [|cm_step; apply HF; set_solver].
  apply andb_true_iff in Hh as [_ Hh]. destruct (cl_spec a ≫= cs_volume_name) as [volume_name|]; [|cm_step; apply HF; set_solver].
  remember_answers Hs3. cm_step; [by apply HP| |cm_step; apply HF; set_solver]. cm_step. cbn [is_some_and].
  destruct (volume_is_bound_to _ _ _) eqn:Hv; [|apply HF; set_solver]. apply HT; [set_solver|].
  by eexists _, a, volume_name, a0.
Qed.
End Recovery.

(** A Pod that waits for its scratch volume in vain is replaced, and nothing else
    is touched. The only request is the deletion of the workspace's Pod, by UID and
    version: it is the current one of the current workload, no container of it
    runs, its scratch claim was made anew after it and holds nothing, and the home
    was just seen to be on a bound volume of its own. *)
Theorem recovery_replaces_idle_pod {K} `{KubeServer K} w (k : K) :
  let recovery := recover_scratch_scheduling c w in
  match for_workspace_names (kc_installation_id c) (ws_short_id w) with
  | None => events recovery k = []
  | Some runtime => all_permitted (writes (replaces w (resources_of runtime))) [] (events recovery k)
  end.
Proof.
  intros recovery. destruct (for_workspace_names _ _) as [runtime|] eqn:Hn.
  2: { unfold recovery, recover_scratch_scheduling, runtime_names. rewrite Hn. by destruct (_ || _). }
  destruct (cwp_run (writes (replaces w (resources_of runtime))) recovery (λ _ _, True) k) as [Hall _]; [|done].
  unfold recovery, recover_scratch_scheduling, runtime_names. rewrite Hn. destruct (_ || _) eqn:Hst; [by cm_step|].
  apply orb_false_iff in Hst as [Hst%negb_false_iff Hscratch]. assert (ws_scratch_volume_binding w = None) as Hnone
    by by destruct (ws_scratch_volume_binding w). cm_step. injection Hsome as <-.
  cm_step; [done| |by cm_step]. apply cwp_bind, ownership_wp. intros Hb. destruct (inactive_scheduled_pod a) eqn:Hi; cbn [negb]; [|by cm_step].
  destruct (md_uid (po_metadata a)) as [uid|] eqn:Hu; [|by cm_step]. destruct (md_resource_version (po_metadata a)) as [version|] eqn:Hv; [|by cm_step].
  cm_step; [done| |by cm_step]. apply cwp_bind, ownership_wp. intros Hb'. destruct (_ || _) eqn:Ho; [by cm_step|].
  apply orb_false_iff in Ho as [Ho%negb_false_iff Hc%negb_false_iff]. unfold replace_waiting_pod.
  destruct (scratch_claim_name a (resources_of runtime)) as [[scratch_name ephemeral]|] eqn:Hsc; [|by cm_step].
  cm_step; [done| |by cm_step]. apply cwp_bind, ownership_wp. intros Hb''. destruct (empty_recreated_scratch _ _ _) eqn:He; cbn [negb]; [|by cm_step].
  destruct (cl_spec a1 ≫= cs_storage_class_name) as [class_name|]; [|by cm_step]. cm_step; [done| |by cm_step].
  case_bool_decide as Hm; cbn [negb]; [|by cm_step]. apply cwp_bind, home_retained_wp; [apply _|intros; cbn [negb]; by cm_step|].
  intros past4 Hs4 Hh. cbn [negb]. remember_answers Hs4. cm_step; [|done]. intros _. split_and!; try done.
  exists a, a0, uid, version. split_and!; try done; [by apply inactive_nothing_runs|]. by exists scratch_name, a1, ephemeral, class_name, a2.
Qed.

(** ** Observation *)

(** What an answer that the workspace runs, or has stopped, rests on. *)
Definition observed (w : Workspace) (names : WorkspaceResourceNames) (expected : Z) (past : list Event) : Prop :=
  ∃ set, Answered past (ReadStatefulSet ns (stateful_set names)) set ∧ belongs (ss_metadata set) w ∧
    observed_workspace_replicas set w expected = true ∧
    (expected = 0 ∧ (sn_replicas <$> ss_status set) = Some 0 ∨
     expected = 1 ∧ ∃ pod, Answered past (GetPod ns (pod_ordinal_zero names)) pod ∧ belongs (po_metadata pod) w ∧
       current_workspace_pod set pod w (stateful_set names) = true ∧ pod_is_ready pod = true).

Definition found_in {A} (past : list Event) (req : Kube A) (r : result string (option A)) : Prop :=
  ∀ a, r = Ok (Some a) → Answered past req a.
Lemma found_in_mono {A} (req : Kube A) : monotone (λ past r, found_in past req r).
Proof. intros past past' r Hs Hr a Ha. eapply Answered_mono; [by apply Hr|done]. Qed.

Lemma request_opt_found {A} P (req : Kube A) past : P past A req → wp P (request_opt req) past (λ past' r, found_in past' req r).
Proof.
  intros Hp. split; [done|]. intros [a|e] a' Ha; cbn in Ha; [|by destruct (not_found e)]. injection Ha as <-. unfold Answered. set_solver.
Qed.

Lemma judge_replicas_wp P w names expected set pod past :
  found_in past (ReadStatefulSet ns (stateful_set names)) set → found_in past (GetPod ns (pod_ordinal_zero names)) pod →
  cwp P (judge_replicas c w names expected set pod) past (λ past' b, b = true → observed w names expected past').
Proof.
  intros Hset Hpod. unfold judge_replicas. cm_step. destruct a as [a|]; [|by cm_step]. apply cwp_bind, ownership_wp. intros Hb.
  destruct (observed_workspace_replicas a w expected) eqn:Ho; cbn [negb]; [|by cm_step]. destruct (Z.eqb_spec expected 0) as [->|Hne].
  - cm_step. intros (status & Hst & Hr)%is_some_and_true. exists a. split_and!; [by apply Hset|done..|]. left. rewrite Hst. cbn.
    by apply Z.eqb_eq in Hr as ->.
  - cm_step. destruct a0 as [p|]; [|by cm_step]. apply cwp_bind, ownership_wp. intros Hb'. cm_step.
    intros [[Hexp Hc]%andb_true_iff Hready]%andb_true_iff. exists a. split_and!; [by apply Hset|done..|]. right.
    split; [by apply Z.eqb_eq|]. exists p. split_and!; try done. by apply Hpod.
Qed.

Lemma has_observed_replicas_wp w runtime expected schedule : for_workspace_names (kc_installation_id c) (ws_short_id w) = Some runtime →
  cwp (writes (λ _ _ _, False)) (has_observed_replicas c w expected schedule) [] (λ past b, b = true → observed w (resources_of runtime) expected past).
Proof.
  intros Hn. unfold has_observed_replicas, runtime_names. rewrite Hn. cm_step. injection Hsome as <-. cbv zeta. apply wp_then.
  eapply wp_mono; [apply wp_join; [by apply writes_monotone|apply found_in_mono|apply (found_in_mono (GetPod ns (pod_ordinal_zero (resources_of runtime))))|..]|].
  - by apply request_opt_found.
  - unfold read_ready_pod. destruct (negb _); [|by apply request_opt_found]. by intros a [=].
  - intros past' [set pod] _ [Hset Hpod]. cbn [fst snd] in *. by apply judge_replicas_wp.
Qed.

(** A workspace is reported as running, or as stopped, only on what was read: its
    own workload at the generation asked for, observed by its controller; and the
    current Pod, ready and not terminating, or none. Reading changes nothing. *)
Theorem observation_is_current {K} `{KubeServer K} w expected schedule (k : K) :
  let observation := has_observed_replicas c w expected schedule in
  match for_workspace_names (kc_installation_id c) (ws_short_id w) with
  | None => events observation k = []
  | Some runtime =>
      all_permitted (writes (λ _ _ _, False)) [] (events observation k) ∧
      ((run observation k).1 = Ok true → observed w (resources_of runtime) expected (events observation k))
  end.
Proof.
  intros observation. destruct (for_workspace_names _ _) as [runtime|] eqn:Hn.
  2: { unfold observation, has_observed_replicas, runtime_names. by rewrite Hn. }
  destruct (cwp_run _ observation _ k (has_observed_replicas_wp w runtime expected schedule Hn)) as [Hall Hdone]. split; [done|].
  intros Hr. by apply (Hdone true).
Qed.
End DeletionSafety.
