(* ===== verification/ClusterReconcile.v ===== *)
(** * The reconciler on the cluster

    [cluster_coordinator] makes the class [Coordinator] of the reconciler
    ([Reconcile]) out of the programs over the Kubernetes API ([ClusterLifecycle],
    [ShrinkCluster]). The theorems say what a change of a workspace's row that the
    reconciler makes rests on in the cluster. *)
From S2P Require Import Prelude Text Json Quota Templates Workspaces Errors ShrinkOperation Quantity Database WorkspaceStore JobStore WorkspaceActions ShrinkStore Reconcile ShrinkHandler Names WorkspaceResponse WorkloadApply KubeApi ShrinkCluster ShrinkSafety ClusterLifecycle.

Section ClusterReconcile.
Context (c : KubernetesCoordinator) `{UuidText} `{SqlBackend} `{StorageErrorText} `{StatefulSetJson} `{UsageJson} `{HelperScripts} `{SelectorJson} `{OwnershipErrorText}.
Context {K : Type} `{KubeServer K} (base : Coordinator K) (schedule : list bool).

(** [base] has the clock, the database's losses and the application of resources. *)
#[local] Instance cluster_coordinator : Coordinator K :=
  let shrink := shrink_coordinator c base in {|
  unix_timestamp := unix_timestamp;
  database_lost := database_lost;
  Reconcile.has_observed_replicas w expected := run (has_observed_replicas c w expected schedule);
  Reconcile.recover_scratch_scheduling w := run (recover_scratch_scheduling c w);
  Reconcile.delete_stopped_scratch w := run (delete_stopped_scratch c w);
  Reconcile.delete_or_confirm w := run (delete_or_confirm c w schedule);
  Reconcile.delete_workspace_shrink_storage := Reconcile.delete_workspace_shrink_storage;
  apply_workspace := apply_workspace;
  reconcile_injections := reconcile_injections;
  Reconcile.capture_shrink_cleanup_identities := Reconcile.capture_shrink_cleanup_identities;
  Reconcile.discover_shrink_sources := Reconcile.discover_shrink_sources;
  Reconcile.shrink_pod := Reconcile.shrink_pod;
  Reconcile.retain_shrink_sources := Reconcile.retain_shrink_sources;
  Reconcile.stop_for_storage_shrink := Reconcile.stop_for_storage_shrink;
  Reconcile.create_shrink_destination := Reconcile.create_shrink_destination;
  Reconcile.shrink_volume_identity := Reconcile.shrink_volume_identity;
  Reconcile.remove_shrink_helpers := Reconcile.remove_shrink_helpers;
  Reconcile.reclaim_shrink_sources := Reconcile.reclaim_shrink_sources;
|}.

Lemma cluster_coordinator_laws : CoordinatorLaws.
Proof. destruct (shrink_coordinator_laws c base). by constructor. Qed.

(** ** The time a job takes *)
Inductive cluster_step : relation K :=
  | StepRequest A (req : Kube A) k : cluster_step k (perform A req k).2
  | StepClock k : cluster_step k (unix_timestamp (Coordinator := base) k).2
  | StepDatabase k : cluster_step k (database_lost (Coordinator := base) k).2
  | StepApply w tables k : cluster_step k (apply_workspace (Coordinator := base) w tables k).2
  | StepInjections w k : cluster_step k (reconcile_injections (Coordinator := base) w k).2.
(** From one state of the cluster to a later one. *)
Abbreviation during := (rtc cluster_step).

Lemma run_during {A} (m : Prog A) k : during k (run m k).2.
Proof.
  revert k. induction m as [a|B req f IH]; intros k; cbn; [done|]. destruct (perform B req k) as [r k'] eqn:E.
  eapply rtc_l; [apply (StepRequest B req)|]. rewrite E. apply IH.
Qed.

Class HSteps {A} (m : HM (World K) A) : Prop := hsteps world r world' : m world = (r, world') → during (w_k world) (w_k world').
#[local] Instance steps_ret {A} (a : A) : HSteps (mret a).
Proof. by intros ??? [= <- <-]. Qed.
#[local] Instance steps_throw {A} e : HSteps (throw (A := A) e).
Proof. by intros ??? [= <- <-]. Qed.
#[local] Instance steps_bind {A B} (m : HM (World K) A) (f : A → HM (World K) B) : HSteps m → (∀ a, HSteps (f a)) → HSteps (m ≫= f).
Proof.
  intros Hm Hf world r world'. rewrite hm_bind_run. destruct (m world) as [[a|e] world1] eqn:E.
  - intros Hr. etrans; [by eapply Hm|by eapply Hf].
  - intros [= <- <-]. by eapply Hm.
Qed.
#[local] Instance steps_if {A} (b : bool) (m m' : HM (World K) A) : HSteps m → HSteps m' → HSteps (if b then m else m').
Proof. by destruct b. Qed.
Lemma steps_cluster {A B} g (m : K → result B A * K) : (∀ k, during k (m k).2) → HSteps (cluster g m).
Proof. intros Hm world r world'. unfold cluster. specialize (Hm (w_k world)). destruct (m (w_k world)). by intros [= <- <-]. Qed.
#[local] Instance steps_clock g : HSteps (cluster g unix_timestamp).
Proof. apply steps_cluster. intros k. apply rtc_once, StepClock. Qed.
#[local] Instance steps_injections g w : HSteps (cluster g (reconcile_injections w)).
Proof. apply steps_cluster. intros k. apply rtc_once, StepInjections. Qed.
#[local] Instance steps_db_try {A} (m : DbM A) : HSteps (db_try m).
Proof.
  intros world r world'. unfold db_try. pose proof (StepDatabase (w_k world)) as Hs. change (database_lost (Coordinator := base)) with (database_lost (K := K)) in Hs.
  destruct (database_lost (w_k world)) as [[] k]; [intros [= <- <-]; by apply rtc_once|].
  destruct (m (w_db world)) as [r1 db1]. intros [= <- <-]. by apply rtc_once.
Qed.
#[local] Instance steps_db_call {A} (m : DbM A) : HSteps (db_call m).
Proof. unfold db_call. apply steps_bind; [apply _|]. by intros ???? [= <- <-]. Qed.
#[local] Instance steps_map_error {A} f (m : HM (World K) A) : HSteps m → HSteps (map_error f m).
Proof. intros Hm world r world'. unfold map_error. destruct (m world) eqn:E. intros [= <- <-]. by eapply Hm. Qed.
#[local] Instance steps_apply w : HSteps (apply_resources w).
Proof.
  intros world r world'. unfold apply_resources. pose proof (StepApply w (applied_tables (w_db world)) (w_k world)) as Hs.
  change (apply_workspace (Coordinator := base)) with (apply_workspace (K := K)) in Hs.
  destruct (apply_workspace _ _ _) as [[r1 ids] k1]. intros [= <- <-]. by apply rtc_once.
Qed.
#[local] Instance steps_observe_cluster g w n : HSteps (cluster g (Reconcile.has_observed_replicas w n)).
Proof. apply steps_cluster. intros k. apply run_during. Qed.
#[local] Instance steps_recover_cluster g w : HSteps (cluster g (Reconcile.recover_scratch_scheduling w)).
Proof. apply steps_cluster. intros k. apply run_during. Qed.
#[local] Instance steps_release_cluster g w : HSteps (cluster g (Reconcile.delete_stopped_scratch w)).
Proof. apply steps_cluster. intros k. apply run_during. Qed.
#[local] Instance steps_delete_cluster g w : HSteps (cluster g (Reconcile.delete_or_confirm w)).
Proof. apply steps_cluster. intros k. apply run_during. Qed.
#[local] Instance steps_storage_cluster g w ops : HSteps (cluster g (Reconcile.delete_workspace_shrink_storage w ops)).
Proof. apply steps_cluster. intros k. apply run_during. Qed.
#[local] Instance steps_record inst w o : HSteps (record_observation inst w o).
Proof. unfold record_observation. apply _. Qed.
#[local] Instance steps_capture inst w ops : HSteps (capture_all inst w ops).
Proof.
  induction ops as [|op ops IH]; cbn; [apply _|]. apply steps_bind; [|intros; apply _]. apply steps_cluster. intros k.
  change (Reconcile.capture_shrink_cleanup_identities w op k) with (run (capture_shrink_cleanup_identities c w op) k).
  pose proof (run_during (capture_shrink_cleanup_identities c w op) k). by destruct (run _ _) as [[r1 op1] k1].
Qed.

(** ** What a recorded observation rests on *)
Abbreviation rows := (λ world : World K, t_workspaces (w_db world)).

#[local] Instance rows_table_relation : TableRelation (frames t_workspaces).
Proof. by apply frames_table_relation. Qed.

#[local] Instance cleanup_keeps_rows inst op : Preserves (frames t_workspaces) (save_storage_shrink_cleanup_identity inst op).
Proof.
  unfold save_storage_shrink_cleanup_identity, storage_backend, select_workspace.
  apply preserves_transaction; [apply _|]. apply preserves_bind; [apply _| |intros [w d]].
  - apply preserves_bind; [apply _..|intros [row|]]; apply _.
  - do 2 (apply preserves_bind; [apply _..|intros ?]).
    match goal with |- Preserves _ (match ?x with _ => _ end) => destruct x end; unfold update_shrink; apply _.
Qed.
#[local] Instance capture_keeps_rows inst w ops : HPreserves (frames t_workspaces) (capture_all inst w ops).
Proof. induction ops; cbn; apply _. Qed.

(** A statement that leaves the rows alone, and what follows it. *)
Definition earlier (P : K → Prop) : Prop := ∀ k k', during k k' → P k' → P k.

Lemma rows_bind {A B} (m : HM (World K) A) (f : A → HM (World K) B) world r world' (P : K → Prop) :
  HPreserves (frames t_workspaces) m → HSteps m → earlier P →
  (∀ a world1, m world = (Ok a, world1) → f a world1 = (r, world') → rows world' ≠ rows world1 → P (w_k world1)) →
  (m ≫= f) world = (r, world') → rows world' ≠ rows world → P (w_k world).
Proof.
  intros Hm Hs HP Hf. rewrite hm_bind_run. destruct (m world) as [[a|e] world1] eqn:E.
  - intros Hrun Hne. eapply HP; [by eapply Hs|]. eapply Hf; [done..|]. by rewrite (Hm _ _ _ E).
  - intros [= <- <-] Hne. destruct Hne. apply (Hm _ _ _ E).
Qed.

(** A call to the cluster whose answer decides. *)
Lemma rows_cluster {A B C} (g : result C A → result JobHandlerError A) (m : K → result C A * K) (f : A → HM (World K) B) world r world' (P : K → Prop) :
  HSteps (cluster g m) → earlier P →
  (∀ a world1, g (m (w_k world)).1 = Ok a → (m (w_k world)).2 = w_k world1 → f a world1 = (r, world') → rows world' ≠ rows world1 →
     P (w_k world1) ∨ P (w_k world)) →
  (cluster g m ≫= f) world = (r, world') → rows world' ≠ rows world → P (w_k world).
Proof.
  intros Hs HP Hf. rewrite hm_bind_run. unfold cluster. pose proof (Hs world) as Hs'. unfold cluster in Hs'.
  destruct (m (w_k world)) as [r1 k1] eqn:E. destruct (g r1) as [a|e] eqn:Eg; [|by intros [= <- <-]]. intros Hrun Hne.
  destruct (Hf a (mkWorld (w_db world) k1) Eg eq_refl Hrun Hne) as [Hp|Hp]; [|done]. eapply HP; [|exact Hp]. by eapply Hs'.
Qed.

Lemma map_err_Ok {E F A} (f : E → F) (r : result E A) a : map_err f r = Ok a → r = Ok a.
Proof. by destruct r; intros [= <-]. Qed.

(** What a method was answered between two states of the cluster. *)
Definition seen {A} (from to : K) (w : Workspace) (m : CM A) (P : WorkspaceRuntimeNames → list Event → Prop) : Prop :=
  ∃ runtime k, during from k ∧ during (run m k).2 to ∧
    for_workspace_names (kc_installation_id c) (ws_short_id w) = Some runtime ∧ P runtime (events m k).

Lemma seen_run {A} to w (m : CM A) Q (k : K) a permitted :
  (for_workspace_names (kc_installation_id c) (ws_short_id w) = None → m = Done (Err "workspace runtime identity is invalid")) →
  (∀ runtime, for_workspace_names (kc_installation_id c) (ws_short_id w) = Some runtime →
     cwp (permitted runtime) m [] (λ past b, b = a → Q runtime past)) →
  (run m k).1 = Ok a → during (run m k).2 to → seen k to w m Q.
Proof.
  intros HN HS Hr Hto. destruct (for_workspace_names _ _) as [runtime|] eqn:Hn.
  - exists runtime, k. split_and!; [done..|]. destruct (cwp_run _ m _ k (HS runtime eq_refl)) as [_ Hdone]. by apply (Hdone a).
  - rewrite HN in Hr by done. done.
Qed.

Lemma gone_was_seen w k to : (run (delete_or_confirm c w schedule) k).1 = Ok Gone → during (run (delete_or_confirm c w schedule) k).2 to →
  seen k to w (delete_or_confirm c w schedule) (gone c w).
Proof.
  eapply seen_run; [|intros runtime; apply delete_or_confirm_wp]. intros Hn. unfold delete_or_confirm, runtime_names. by rewrite Hn.
Qed.
Lemma replicas_were_seen w expected k to : (run (has_observed_replicas c w expected schedule) k).1 = Ok true →
  during (run (has_observed_replicas c w expected schedule) k).2 to →
  seen k to w (has_observed_replicas c w expected schedule) (λ runtime, observed c w (resources_of runtime) expected).
Proof.
  apply (seen_run to w _ (λ runtime, observed c w (resources_of runtime) expected) k true (λ _, writes (λ _ _ _, False)));
    [|intros runtime; apply has_observed_replicas_wp].
  intros Hn. unfold has_observed_replicas, runtime_names. by rewrite Hn.
Qed.
Lemma release_was_seen w k to : (run (delete_stopped_scratch c w) k).1 = Ok true → during (run (delete_stopped_scratch c w) k).2 to →
  seen k to w (delete_stopped_scratch c w) (λ runtime, scratch_released w (resources_of runtime)).
Proof.
  apply (seen_run to w _ (λ runtime, scratch_released w (resources_of runtime)) k true (λ runtime, writes (deletes c w (resources_of runtime))));
    [|intros runtime; apply delete_stopped_scratch_wp].
  intros Hn. unfold delete_stopped_scratch, runtime_names. by rewrite Hn.
Qed.

(** What the record of a change of state rests on: a workspace is deleted when all
    of it was seen to be gone and the storage of its migrations removed, running
    when its current Pod was seen to be ready, and stopped when no Pod was left and
    its scratch claim was released. *)
Definition rests_on (from to : K) (w : Workspace) : Prop :=
  match ws_state w with
  | Deleting =>
      seen from to w (delete_or_confirm c w schedule) (gone c w) ∧
      ∃ operations k, during from k ∧ during (run (delete_workspace_shrink_storage c w operations) k).2 to ∧
        (run (delete_workspace_shrink_storage c w operations) k).1 = Ok true
  | Provisioning | Starting | Restarting =>
      seen from to w (has_observed_replicas c w 1 schedule) (λ runtime, observed c w (resources_of runtime) 1)
  | Stopping =>
      seen from to w (has_observed_replicas c w 0 schedule) (λ runtime, observed c w (resources_of runtime) 0) ∧
      seen from to w (delete_stopped_scratch c w) (λ runtime, scratch_released w (resources_of runtime))
  | Ready =>
      ∃ k, during from k ∧ during (run (has_observed_replicas c w 1 schedule) k).2 to ∧ (run (has_observed_replicas c w 1 schedule) k).1 = Ok false
  | Stopped | Failed | Deleted => False
  end.

Lemma seen_earlier {A} k k' to w (m : CM A) P : during k k' → seen k' to w m P → seen k to w m P.
Proof. intros Hk (runtime & k1 & Hd & Hrest). exists runtime, k1. split; [by etrans|done]. Qed.
Lemma rests_on_earlier to w : earlier (λ from, rests_on from to w).
Proof.
  intros k k' Hk. unfold rests_on. destruct (ws_state w); eauto using seen_earlier.
  - intros (k1 & Hd & ?). exists k1. split; [by etrans|done].
  - intros [? ?]. eauto using seen_earlier.
  - intros [? (ops & k1 & Hd & ?)]. split; [by eapply seen_earlier|]. exists ops, k1. split; [by etrans|done].
Qed.

Lemma unseen_recovers {A} w e world (r : result JobHandlerError A) world' (P : K → Prop) : earlier P →
  (cluster pending_error (Reconcile.recover_scratch_scheduling w) ≫= λ _, throw e) world = (r, world') → rows world' ≠ rows world → P (w_k world).
Proof. intros HP. apply (rows_cluster _ _ _ _ _ _ P); [apply _|done|]. by intros a world1 _ _ [= <- <-]. Qed.

Lemma ready_rests_on inst w o (world world1 : World K) r world' : ws_state w = Provisioning ∨ ws_state w = Starting ∨ ws_state w = Restarting →
  (run (has_observed_replicas c w 1 schedule) (w_k world)).1 = Ok true →
  (run (has_observed_replicas c w 1 schedule) (w_k world)).2 = w_k world1 →
  record_observation inst w o world1 = (r, world') → rests_on (w_k world) (w_k world') w.
Proof.
  intros Hst Hseen Hk Hr%hsteps. assert (seen (w_k world) (w_k world') w (has_observed_replicas c w 1 schedule) (λ runtime, observed c w (resources_of runtime) 1)) as Hs.
  { apply replicas_were_seen; [done|by rewrite Hk]. }
  unfold rests_on. by destruct Hst as [->|[->| ->]].
Qed.

Lemma observe_rests_on inst w world r world' : ws_state w ≠ Deleting →
  observe_workspace inst w world = (r, world') → rows world' ≠ rows world → rests_on (w_k world) (w_k world') w.
Proof.
  intros Hnd. pose proof (rests_on_earlier (w_k world') w) as He. unfold observe_workspace.
  destruct (ws_state w) eqn:Hst; try done; try (intros [= <- <-]; done).
  all: apply (rows_cluster _ _ _ _ _ _ (λ k, rests_on k (w_k world') w)); [apply _|done|]; intros seen1 world1 Hseen%map_err_Ok Hk; destruct seen1; cbn [negb].
  all: try (intros Hr Hne; left; revert Hr Hne; exact (unseen_recovers w _ _ _ _ (λ k, rests_on k (w_k world') w) He)).
  all: try (intros Hr _; right; eapply ready_rests_on; [rewrite Hst; tauto|exact Hseen|exact Hk|exact Hr]).
  - by intros [= <- <-].
  - intros Hr _. right. unfold rests_on. rewrite Hst. exists (w_k world). split_and!; [done| |exact Hseen].
    assert ((run (has_observed_replicas c w 1 schedule) (w_k world)).2 = w_k world1) as -> by exact Hk. exact (hsteps _ _ _ Hr).
  - intros Hr Hne. pose proof (hsteps _ _ _ Hr) as Hd. revert Hr Hne.
    intros Hr Hne. right. revert Hr Hne. rewrite hm_bind_run. unfold cluster.
    destruct (Reconcile.delete_stopped_scratch w (w_k world1)) as [released k2] eqn:Erel. destruct (job_error released) as [b|e] eqn:Ej; [|by intros [= <- <-]].
    apply map_err_Ok in Ej as ->. destruct b; cbn [negb]; [|by intros [= <- <-]]. intros Hr Hne. unfold rests_on. rewrite Hst.
    assert ((run (has_observed_replicas c w 0 schedule) (w_k world)).2 = w_k world1) as Hk' by exact Hk.
    assert (run (delete_stopped_scratch c w) (w_k world1) = (Ok true, k2)) as Erel' by exact Erel. split.
    + apply (replicas_were_seen w 0 _ _ Hseen). by rewrite Hk'.
    + eapply seen_earlier; [|apply (release_was_seen w (w_k world1)); rewrite Erel'; [done|exact (hsteps _ _ _ Hr)]].
      rewrite <-Hk'. apply run_during.
  - by intros [= <- <-].
Qed.

Lemma deletion_rests_on inst w world r world' : ws_state w = Deleting →
  reconcile_deletion inst w world = (r, world') → rows world' ≠ rows world → rests_on (w_k world) (w_k world') w.
Proof.
  intros Hst. pose proof (rests_on_earlier (w_k world') w) as He. unfold reconcile_deletion.
  apply (rows_bind _ _ _ _ _ (λ k, rests_on k (w_k world') w)); [apply hpreserves_db_call; [apply _|unfold list_storage_shrinks; apply _]|apply _|done|].
  intros operations world1 _. apply (rows_bind _ _ _ _ _ (λ k, rests_on k (w_k world') w)); [apply _..|done|]. intros captured world2 _.
  apply (rows_cluster _ _ _ _ _ _ (λ k, rests_on k (w_k world') w)); [apply _|done|].
  intros progress world3 Hp%map_err_Ok Hk. destruct progress; [by intros [= <- <-]..|]. intros Hr Hne. right. revert Hr Hne.
  rewrite hm_bind_run. unfold cluster. destruct (Reconcile.delete_workspace_shrink_storage w captured (w_k world3)) as [removed k4] eqn:Erem.
  destruct (job_error removed) as [b|e] eqn:Ej; [|by intros [= <- <-]]. apply map_err_Ok in Ej as ->. destruct b; [|by intros [= <- <-]].
  intros Hr%hsteps _. cbn [w_k] in Hr. unfold rests_on. rewrite Hst.
  pose proof (run_during (delete_workspace_shrink_storage c w captured) (w_k world3)) as Hd.
  assert ((run (delete_or_confirm c w schedule) (w_k world2)).2 = w_k world3) as Hk' by exact Hk.
  assert (run (delete_workspace_shrink_storage c w captured) (w_k world3) = (Ok true, k4)) as Erem' by exact Erem. rewrite Erem' in Hd. split.
  - apply (gone_was_seen w _ _ Hp). rewrite Hk'. by etrans.
  - exists captured, (w_k world3). rewrite Erem'. split_and!; [|done..]. rewrite <-Hk'. apply run_during.
Qed.

Lemma map_error_inv {A} f (m : HM (World K) A) world r world' : map_error f m world = (r, world') → ∃ r', m world = (r', world').
Proof. unfold map_error. destruct (m world) as [r' w']. intros [= <- <-]. by exists r'. Qed.

Lemma apply_keeps_rows w : HPreserves (frames t_workspaces) (apply_resources w).
Proof. intros w1 r1 w2. unfold apply_resources. destruct (apply_workspace _ _ _) as [[r2 ids] k2]. by intros [= <- <-]. Qed.

Lemma reconcile_rests_on inst w job world r world' :
  reconcile_workspace inst w job world = (r, world') → rows world' ≠ rows world → rests_on (w_k world) (w_k world') w.
Proof.
  pose proof (rests_on_earlier (w_k world') w) as He. unfold reconcile_workspace. case_bool_decide.
  { destruct (negb (bool_decide _) || negb (bool_decide _)) eqn:Hg; [by intros [= <- <-]|].
    apply (rows_cluster _ _ _ _ _ _ (λ k, rests_on k (w_k world') w)); [apply _|done|]. intros now world1 _ _ (r' & Hr)%map_error_inv Hne. left.
    eapply observe_rests_on; [|exact Hr|done]. apply orb_false_iff in Hg as [_ Hg%negb_false_iff%bool_decide_eq_true]. by destruct Hg as [->| ->]. }
  case_bool_decide as Hdeleted; [by intros [= <- <-]|]. case_bool_decide as Hdel; [by apply deletion_rests_on|].
  apply (rows_cluster _ _ _ _ _ _ (λ k, rests_on k (w_k world') w)); [apply _|done|]. intros now world1 _ _. destruct (startup_checkpoint_matches _ _ _).
  { intros (r' & Hr)%map_error_inv Hne. left. by eapply observe_rests_on. }
  intros Hr Hne. left. revert Hr Hne. apply (rows_bind _ _ _ _ _ (λ k, rests_on k (w_k world') w)); [apply apply_keeps_rows|apply _|done|].
  intros _ world2 _. apply (rows_cluster _ _ _ _ _ _ (λ k, rests_on k (w_k world') w)); [apply _|done|].
  intros at_ world3 _ _ (r' & Hr)%map_error_inv Hne. left. by eapply observe_rests_on.
Qed.

(** C15: what the reconciler records was seen in the cluster while it ran. If a job of
    the reconciler changes the row of a workspace, then during the job: for a row
    that is deleted all objects of the workspace were seen to be absent and the
    storage of its migrations was removed; for one that becomes ready its current
    Pod was seen ready at the recorded generation; for one that becomes stopped no
    Pod was left and its scratch claim was released. *)
Theorem recorded_states_were_seen inst job world r world' :
  handle_reconcile inst job world = (r, world') → rows world' ≠ rows world →
  ∃ id w, cj_workspace_id job = Some id ∧ (get_workspace inst id (w_db world)).1 = Ok w ∧ rests_on (w_k world) (w_k world') w.
Proof.
  unfold handle_reconcile. destruct (cj_workspace_id job) as [id|]; [|by intros [= <- <-]]. intros Hrun Hne.
  assert (∃ w k1, (get_workspace inst id (w_db world)).1 = Ok w ∧ during (w_k world) k1 ∧ rests_on k1 (w_k world') w) as (w & k1 & Hw & Hk1 & Hrest).
  2: { exists id, w. split_and!; [done..|]. by eapply rests_on_earlier. }
  assert (HPreserves (frames t_workspaces) (db_try (get_workspace inst id))) as Hkeep.
  { apply hpreserves_db_try; [apply _|]. unfold get_workspace, select_workspace. apply preserves_bind; [apply _..|intros [row|]; apply _]. }
  revert Hrun Hne. rewrite hm_bind_run. destruct (db_try (get_workspace inst id) world) as [[found|e] world1] eqn:Efound.
  2: { intros [= <- <-] Hne. destruct Hne. exact (Hkeep _ _ _ Efound). }
  pose proof (Hkeep _ _ _ Efound) as Hrows. pose proof (hsteps _ _ _ Efound) as Hd1. cbv beta in Hrows. rewrite <-Hrows. clear Hkeep.
  destruct found as [w|[]]; try by intros [= <- <-]. intros Hrun Hne. exists w, (w_k world1). split_and!; [|done|].
  { revert Efound. unfold db_try. destruct (database_lost (w_k world)) as [[] k1]; [done|].
    destruct (get_workspace inst id (w_db world)) as [r1 db1]. by intros [= -> _]. }
  revert Hrun Hne. apply (rows_bind _ _ _ _ _ (λ k, rests_on k (w_k world') w)); [apply hpreserves_db_call; apply _|apply _|apply rests_on_earlier|].
  intros active world2 _. destruct active; [by intros [= <- <-]|]. case_bool_decide; [|by apply reconcile_rests_on].
  case_bool_decide; [by intros [= <- <-]|]. intros Hr Hne. destruct Hne. by eapply (hpreserves (R := frames t_workspaces)) in Hr.
Qed.
End ClusterReconcile.

(** A cluster without objects. *)
Module EmptyCluster.
Definition missing : KubeError := mkKubeError (Some 404) "NotFound" "not found" "not found".
Definition server : KubeServer () := λ A req k,
  match req in Kube A return result KubeError A * () with
  | ListPods _ _ => (Ok [], k)
  | ListObjects _ _ _ => (Ok [], k)
  | _ => (Err missing, k)
  end.
Definition mtls : KubernetesCoordinator := mkCoordinator "inst" (λ _, None) "higress-system" (Some (mkMtls "terminal" "gateway-ca" "higress-system" "gateway")) (Some "apps.example").
Definition set_json : StatefulSetJson := λ _, Err "no workload".
Definition usage_json : UsageJson := λ _, None.
Definition ownership_text : OwnershipErrorText := λ _, "not owned".
Definition job : ClaimedJob := mkClaimedJob 10 "reconcile_workspace" (Some ActionSample.id) (Object []) 1 260.
Definition handle : World () → result JobHandlerError () * World () :=
  @handle_reconcile () (@cluster_coordinator mtls decimal_uuid_text QuietCluster.error_text set_json usage_json stage_name (λ _, None) ownership_text ()
                          server QuietCluster.coordinator []) decimal_uuid_text Sqlite QuietCluster.error_text "inst" job.
End EmptyCluster.

(** A workspace that is being deleted, with nothing left of it: its row goes. *)
Lemma recorded_states_were_seen_witness : ∃ world' id w,
  EmptyCluster.handle (mkWorld ActionSample.deleting ()) = (Ok (), world') ∧ t_workspaces (w_db world') = ∅ ∧
  cj_workspace_id EmptyCluster.job = Some id ∧ (@get_workspace decimal_uuid_text "inst" id ActionSample.deleting).1 = Ok w ∧ ws_state w = Deleting.
Proof.
  eexists _, _, _. split; [vm_compute; reflexivity|]. split; [reflexivity|].
  edestruct (@recorded_states_were_seen EmptyCluster.mtls decimal_uuid_text Sqlite QuietCluster.error_text EmptyCluster.set_json
    EmptyCluster.usage_json stage_name (λ _, None) EmptyCluster.ownership_text () EmptyCluster.server QuietCluster.coordinator [] "inst" EmptyCluster.job
    (mkWorld ActionSample.deleting ())) as (id & w & Hid & Hw & _); [vm_compute; reflexivity|vm_compute; discriminate|].
  split_and!; [reflexivity|vm_compute; reflexivity|reflexivity].
Defined.
