(* ===== verification/Observations.v ===== *)
(** * Runtime observations ([src/kubernetes/observations.rs])

    A job that waits for its workspace is parked in the database. Two watches, on
    Pods and StatefulSets, keep a small view of the cluster in memory; when it shows
    that a workspace has reached what a parked job waits for, the job is woken, and
    when a running workspace loses its Pod, a check is queued. All state is behind
    one lock, so what happens is a sequence of locked sections, between which other
    tasks run and database calls are made, fail or are cancelled. [step] is that
    sequence; the theorems hold for all of them.

    An [Edge] counts how often a workspace came to be as desired (its [epoch]); a
    [Cycle] remembers for which of these a job was woken, is being woken, was
    refused or is to be woken later. A [HashMap] is a [gmap] and is iterated in the
    order of its keys, which nothing depends on: different jobs have different
    cycles. The counters are of type [u64] and would take 2^64 events to overflow. *)
From stdpp Require Import countable.
From S2P Require Import Prelude Text Json Workspaces Errors Quantity Database WorkspaceStore JobStore JobQueue WorkspaceActions WorkspaceResponse KubeApi ShrinkCluster ClusterLifecycle.

Definition REPAIR_SECONDS : Z := 30.

(** ** State *)
Record Cycle := mkCycle { cy_job_id : Uuid; cy_generation : Z; cy_reconciled_at : Z }.
#[global] Instance cycle_eq_dec : EqDecision Cycle.
Proof. solve_decision. Defined.
#[global] Instance cycle_countable : Countable Cycle.
Proof.
  refine (inj_countable' (λ cy, (cy_job_id cy, cy_generation cy, cy_reconciled_at cy)) (λ t, mkCycle t.1.1 t.1.2 t.2) _). by intros [].
Defined.
Definition for_job (job : ParkedWorkspaceJob) : Cycle := mkCycle (pk_id job) (pk_generation job) (pk_reconciled_at job).

(** [attempted] is a set, of payloads with epochs. *)
Record CycleHistory := mkHistory {
  h_until : Z;
  h_workspace_id : Uuid;
  h_desired_replicas : Z;
  h_consumed : gset Z;
  h_attempted : list (Value * Z);
  h_in_flight : gmap Z Value;
  h_retry_after : gmap Z Z;
}.
Definition new_history : CycleHistory := mkHistory 0 0 0 ∅ [] ∅ ∅.

Record Candidate := mkCandidate { ca_set_uid : string; ca_revision : option string; ca_generation : Z; ca_pod_uid : option string }.
#[global] Instance candidate_eq_dec : EqDecision Candidate.
Proof. solve_decision. Defined.
Record Edge := mkEdge { ed_candidate : option Candidate; ed_epoch : Z }.
Definition new_edge : Edge := mkEdge None 0.

Record Reservation := mkReservation { rs_job : ParkedWorkspaceJob; rs_cycle : Cycle; rs_edge : Z }.

Record SetView := mkSetView {
  vs_uid : string; vs_generation : Z; vs_desired : Z; vs_observed : bool; vs_terminating : bool;
  vs_replicas : Z; vs_ready : Z; vs_updated : Z; vs_current_revision : option string; vs_update_revision : option string;
}.
Record PodView := mkPodView { vp_uid : string; vp_generation : Z; vp_owner_uid : string; vp_revision : option string; vp_ready : bool }.

Record State := mkState {
  o_pods : gmap Uuid PodView;
  o_pods_listed : bool;
  o_sets_listed : bool;
  o_ready_scan_pending : bool;
  o_ready_checks : gmap Uuid Z;
  o_sets : gmap Uuid SetView;
  o_waiters : gmap Uuid ParkedWorkspaceJob;
  o_registration_ticket : Z;
  o_waiter_tickets : gmap Uuid Z;
  o_by_workspace : gmap Uuid (gset Uuid);
  o_cycles : gmap Cycle CycleHistory;
  o_edges : gmap Uuid (gmap (Z * Z) Edge);
}.
Definition empty_state : State := mkState ∅ false false false ∅ ∅ ∅ 0 ∅ ∅ ∅ ∅.

(** Setters. *)
Definition set_views (pods : gmap Uuid PodView) (sets : gmap Uuid SetView) (s : State) : State :=
  mkState pods (o_pods_listed s) (o_sets_listed s) (o_ready_scan_pending s) (o_ready_checks s) sets (o_waiters s)
    (o_registration_ticket s) (o_waiter_tickets s) (o_by_workspace s) (o_cycles s) (o_edges s).
Definition set_listed (pods sets pending : bool) (s : State) : State :=
  mkState (o_pods s) pods sets pending (o_ready_checks s) (o_sets s) (o_waiters s)
    (o_registration_ticket s) (o_waiter_tickets s) (o_by_workspace s) (o_cycles s) (o_edges s).
Definition set_checks (ticket : Z) (checks : gmap Uuid Z) (s : State) : State :=
  mkState (o_pods s) (o_pods_listed s) (o_sets_listed s) (o_ready_scan_pending s) checks (o_sets s) (o_waiters s)
    ticket (o_waiter_tickets s) (o_by_workspace s) (o_cycles s) (o_edges s).
Definition set_waiting (waiters : gmap Uuid ParkedWorkspaceJob) (tickets : gmap Uuid Z) (by_workspace : gmap Uuid (gset Uuid)) (s : State) : State :=
  mkState (o_pods s) (o_pods_listed s) (o_sets_listed s) (o_ready_scan_pending s) (o_ready_checks s) (o_sets s) waiters
    (o_registration_ticket s) tickets by_workspace (o_cycles s) (o_edges s).
Definition set_cycles (cycles : gmap Cycle CycleHistory) (s : State) : State :=
  mkState (o_pods s) (o_pods_listed s) (o_sets_listed s) (o_ready_scan_pending s) (o_ready_checks s) (o_sets s) (o_waiters s)
    (o_registration_ticket s) (o_waiter_tickets s) (o_by_workspace s) cycles (o_edges s).
Definition set_edges (edges : gmap Uuid (gmap (Z * Z) Edge)) (s : State) : State :=
  mkState (o_pods s) (o_pods_listed s) (o_sets_listed s) (o_ready_scan_pending s) (o_ready_checks s) (o_sets s) (o_waiters s)
    (o_registration_ticket s) (o_waiter_tickets s) (o_by_workspace s) (o_cycles s) edges.

(** ** Candidates and reservations *)
Definition next_ticket (s : State) : Z * State :=
  let ticket := o_registration_ticket s + 1 in (ticket, set_checks ticket (o_ready_checks s) s).

Definition request_ready_check (id : Uuid) (s : State) : State :=
  let '(ticket, s) := next_ticket s in set_checks ticket (<[id := ticket]> (o_ready_checks s)) s.

(** The Pod is the current one of the set. *)
Definition pod_of_set (pod : PodView) (set : SetView) (generation : Z) : bool :=
  (vp_generation pod =? generation) && String.eqb (vp_owner_uid pod) (vs_uid set) && is_some (vs_update_revision set)
  && bool_decide (vp_revision pod = vs_update_revision set).

Definition candidate (s : State) (workspace_id : Uuid) (generation desired : Z) : option Candidate :=
  set ← o_sets s !! workspace_id;
  if negb (vs_generation set =? generation) || negb (vs_desired set =? desired) || negb (vs_observed set) || vs_terminating set then None
  else
    let base := mkCandidate (vs_uid set) (vs_update_revision set) generation None in
    if desired =? 0 then if vs_replicas set =? 0 then Some base else None
    else if negb (desired =? 1) then None
    else
      let aggregate :=
        if (vs_replicas set =? 1) && (vs_ready set =? 1) && (vs_updated set =? 1) && is_some (vs_current_revision set)
           && bool_decide (vs_current_revision set = vs_update_revision set) then Some base else None in
      match o_pods s !! workspace_id with
      | Some pod =>
          if pod_of_set pod set generation then
            if vp_ready pod then Some (mkCandidate (vs_uid set) (vs_update_revision set) generation (Some (vp_uid pod))) else None
          else aggregate
      | None => aggregate
      end.

Definition runtime_ready (s : State) (id : Uuid) : bool :=
  match o_sets s !! id, o_pods s !! id with
  | Some set, Some pod =>
      vp_ready pod && (vp_generation pod =? vs_generation set) && String.eqb (vp_owner_uid pod) (vs_uid set)
      && is_some (vp_revision pod) && bool_decide (vp_revision pod = vs_update_revision set)
      && is_some (candidate s id (vs_generation set) 1)
  | _, _ => false
  end.

(** Waking is refused for an epoch that was or is being handled. *)
Definition handled (history : CycleHistory) (payload : Value) (epoch now : Z) : bool :=
  bool_decide (epoch ∈ h_consumed history) || is_some (h_in_flight history !! epoch)
  || bool_decide ((payload, epoch) ∈ h_attempted history) || is_some_and (h_retry_after history !! epoch) (λ deadline, now <? deadline).

Definition set_in_flight (m : gmap Z Value) (h : CycleHistory) : CycleHistory :=
  mkHistory (h_until h) (h_workspace_id h) (h_desired_replicas h) (h_consumed h) (h_attempted h) m (h_retry_after h).

Definition reserve (job : ParkedWorkspaceJob) (now : Z) (s : State) : option Reservation * State :=
  let attempt :=
    if pk_until job <=? now then None
    else
      edges ← o_edges s !! pk_workspace_id job;
      edge ← edges !! (pk_generation job, pk_desired_replicas job);
      _ ← ed_candidate edge;
      history ← o_cycles s !! for_job job;
      if handled history (pk_payload job) (ed_epoch edge) now then None else Some (ed_epoch edge, history) in
  match attempt with
  | Some (epoch, history) =>
      (Some (mkReservation job (for_job job) epoch),
       set_cycles (<[for_job job := set_in_flight (<[epoch := pk_payload job]> (h_in_flight history)) history]> (o_cycles s)) s)
  | None => (None, s)
  end.

(** One after the other, collecting what was reserved. *)
Fixpoint reserve_all (jobs : list ParkedWorkspaceJob) (now : Z) (s : State) : list Reservation * State :=
  match jobs with
  | [] => ([], s)
  | job :: jobs =>
      let '(r, s) := reserve job now s in
      let '(rs, s) := reserve_all jobs now s in
      (match r with Some r => r :: rs | None => rs end, s)
  end.

(** An edge that is compared with what is there now. *)
Definition refreshed (now_there : option Candidate) (edge : Edge) : Edge :=
  if bool_decide (ed_candidate edge = now_there) then edge
  else mkEdge now_there (if is_some now_there then ed_epoch edge + 1 else ed_epoch edge).

Definition refresh_edge (workspace_id : Uuid) (key : Z * Z) (s : State) : State :=
  let edges := default ∅ (o_edges s !! workspace_id) in
  set_edges (<[workspace_id := <[key := refreshed (candidate s workspace_id key.1 key.2) (default new_edge (edges !! key))]> edges]> (o_edges s)) s.

Definition waiting_jobs (workspace_id : Uuid) (s : State) : list ParkedWorkspaceJob :=
  omap (λ id, o_waiters s !! id) (elements (default ∅ (o_by_workspace s !! workspace_id))).
Definition edge_keys (workspace_id : Uuid) (s : State) : gset (Z * Z) :=
  dom (default ∅ (o_edges s !! workspace_id))
  ∪ list_to_set ((λ job, (pk_generation job, pk_desired_replicas job)) <$> waiting_jobs workspace_id s).

Definition refresh_workspace (workspace_id : Uuid) (now : Z) (s : State) : list Reservation * State :=
  reserve_all (waiting_jobs workspace_id s) now
    (foldr (refresh_edge workspace_id) s (elements (edge_keys workspace_id s))).

Fixpoint refresh_each (workspaces : list Uuid) (now : Z) (s : State) : list Reservation * State :=
  match workspaces with
  | [] => ([], s)
  | id :: workspaces =>
      let '(rs, s) := refresh_workspace id now s in
      let '(others, s) := refresh_each workspaces now s in (rs ++ others, s)
  end.
Definition refresh_all (now : Z) (s : State) : list Reservation * State :=
  refresh_each (elements (dom (o_edges s) ∪ dom (o_by_workspace s))) now s.

Definition add_waiter (job : ParkedWorkspaceJob) (ticket : Z) (s : State) : State :=
  let by_workspace := match o_waiters s !! pk_id job with
                      | Some previous => alter (λ jobs, jobs ∖ {[ pk_id previous ]}) (pk_workspace_id previous) (o_by_workspace s)
                      | None => o_by_workspace s
                      end in
  set_waiting (<[pk_id job := job]> (o_waiters s)) (<[pk_id job := ticket]> (o_waiter_tickets s))
    (<[pk_workspace_id job := default ∅ (by_workspace !! pk_workspace_id job) ∪ {[ pk_id job ]}]> by_workspace) s.

Definition renewed_history (job : ParkedWorkspaceJob) (h : CycleHistory) : CycleHistory :=
  mkHistory (pk_until job) (pk_workspace_id job) (pk_desired_replicas job) (h_consumed h) (h_attempted h) (h_in_flight h) (h_retry_after h).

Definition register_at (job : ParkedWorkspaceJob) (now ticket : Z) (s : State) : list Reservation * State :=
  if (pk_until job <=? now) || is_some_and (o_waiter_tickets s !! pk_id job) (λ current, ticket <? current) then ([], s)
  else
    let history := default new_history (o_cycles s !! for_job job) in
    refresh_workspace (pk_workspace_id job) now
      (set_cycles (<[for_job job := renewed_history job history]> (o_cycles s)) (add_waiter job ticket s)).

(** [Ok] of what the database answered, [None] if it failed. *)
Definition recorded (reservation : Reservation) (result : option bool) (now : Z) (h : CycleHistory) : CycleHistory :=
  let h := set_in_flight (delete (rs_edge reservation) (h_in_flight h)) h in
  match result with
  | Some true =>
      mkHistory (h_until h) (h_workspace_id h) (h_desired_replicas h) (h_consumed h ∪ {[ rs_edge reservation ]}) (h_attempted h) (h_in_flight h)
        (h_retry_after h)
  | Some false =>
      mkHistory (h_until h) (h_workspace_id h) (h_desired_replicas h) (h_consumed h)
        ((pk_payload (rs_job reservation), rs_edge reservation) :: h_attempted h) (h_in_flight h) (h_retry_after h)
  | None =>
      mkHistory (h_until h) (h_workspace_id h) (h_desired_replicas h) (h_consumed h) (h_attempted h) (h_in_flight h)
        (<[rs_edge reservation := saturating_add_i64 now REPAIR_SECONDS]> (h_retry_after h))
  end.

Definition is_reserved (reservation : Reservation) (h : CycleHistory) : bool :=
  bool_decide (h_in_flight h !! rs_edge reservation = Some (pk_payload (rs_job reservation))).

Definition complete (reservation : Reservation) (result : option bool) (now : Z) (s : State) : list Reservation * State :=
  match o_cycles s !! rs_cycle reservation with
  | Some history =>
      if is_reserved reservation history then
        let s := set_cycles (<[rs_cycle reservation := recorded reservation result now history]> (o_cycles s)) s in
        match o_waiters s !! pk_id (rs_job reservation) with
        | Some job => let '(r, s) := reserve job now s in (match r with Some r => [r] | None => [] end, s)
        | None => ([], s)
        end
      else ([], s)
  | None => ([], s)
  end.

Definition release_cancelled (reservation : Reservation) (now : Z) (s : State) : State :=
  match o_cycles s !! rs_cycle reservation with
  | Some history =>
      if is_reserved reservation history
      then set_cycles (<[rs_cycle reservation := recorded reservation None now history]> (o_cycles s)) s
      else s
  | None => s
  end.

Definition prune (now : Z) (s : State) : State :=
  let waiters := filter (λ kv, now < pk_until kv.2) (o_waiters s) in
  let tickets := filter (λ kv, is_Some (waiters !! kv.1)) (o_waiter_tickets s) in
  let by_workspace := filter (λ kv, kv.2 ≠ ∅) ((λ ids : gset Uuid, filter (λ id, is_Some (waiters !! id)) ids) <$> o_by_workspace s) in
  let cycles := filter (λ kv, now < h_until kv.2) (o_cycles s) in
  let live_scopes : gset (Uuid * Z * Z) :=
    list_to_set ((λ kv : Cycle * CycleHistory, (h_workspace_id kv.2, cy_generation kv.1, h_desired_replicas kv.2)) <$> map_to_list cycles) in
  let edges := filter (λ kv, kv.2 ≠ ∅)
                 (map_imap (λ id (edges : gmap (Z * Z) Edge), Some (filter (λ kv, (id, kv.1.1, kv.1.2) ∈ live_scopes) edges)) (o_edges s)) in
  set_edges edges (set_cycles cycles (set_waiting waiters tickets by_workspace s)).

(** ** Views of the cluster *)

(** [str::parse::<u64>]. *)
Definition parse_u64 (s : string) : option Z :=
  let digits := match bytes s with b :: digits => if b =? 43 then digits else b :: digits | [] => [] end in
  match digits with
  | [] => None
  | _ => if forallb is_ascii_digit digits then guard_range in_u64 (decimal digits) else None
  end.

Section Views.
Context `{UuidText}.

Definition owned_workspace (metadata : ObjectMeta) (installation : string) (pod : bool) : option Uuid :=
  if negb (bool_decide (md_namespace metadata = Some ns)) then None
  else
    labels ← md_labels metadata;
    if negb (bool_decide (labels !! OWNER_INSTALLATION_LABEL = Some installation)) then None
    else
      text ← labels !! WORKSPACE_ID_LABEL;
      id ← uuid_parse_str text;
      let prefix := "w-" +:+ workspace_short_id_for id in
      if bool_decide (md_name metadata = Some (if pod then prefix +:+ "-0" else prefix)) then Some id else None.

Definition view_of_set (uid : string) (generation : Z) (m : ObjectMeta) (spec : SetSpec) (status : SetStatus) : SetView := {|
  vs_uid := uid;
  vs_generation := generation;
  vs_desired := default (-1) (ss_replicas spec);
  vs_observed := match sn_observed_generation status, md_generation m with
                 | Some observed, Some generation => generation <=? observed
                 | _, _ => false
                 end;
  vs_terminating := is_some (md_deletion_timestamp m);
  vs_replicas := sn_replicas status;
  vs_ready := default 0 (sn_ready_replicas status);
  vs_updated := default 0 (sn_updated_replicas status);
  vs_current_revision := sn_current_revision status;
  vs_update_revision := sn_update_revision status;
|}.

Definition is_controller (name : string) (owner : OwnerReference) : bool :=
  bool_decide (ow_controller owner = Some true) && String.eqb (ow_api_version owner) "apps/v1" && String.eqb (ow_kind owner) "StatefulSet"
  && String.eqb (ow_name owner) name.

Definition view_of_pod (uid : string) (generation : Z) (owner_uid : string) (pod : Pod) : PodView := {|
  vp_uid := uid;
  vp_generation := generation;
  vp_owner_uid := owner_uid;
  vp_revision := label (po_metadata pod) "controller-revision-hash";
  vp_ready := negb (is_some (md_deletion_timestamp (po_metadata pod))) && pod_is_ready pod;
|}.

(** [Some None] removes the view, [None] leaves it. *)
Definition seen_set (set : StatefulSet) (deleted : bool) (cached : option SetView) : option (option SetView) :=
  let m := ss_metadata set in
  if deleted then
    if is_some_and cached (λ cached, bool_decide (Some (vs_uid cached) = md_uid m)) then Some None else None
  else
    uid ← md_uid m;
    spec ← ss_spec set;
    match ss_status set, (metadata ← pt_metadata (ss_template spec); text ← annotation metadata GENERATION_ANNOTATION; parse_u64 text) with
    | Some status, Some generation => Some (Some (view_of_set uid generation m spec status))
    | _, _ => Some None
    end.

Definition seen_pod (id : Uuid) (pod : Pod) (deleted : bool) (cached : option PodView) : option (option PodView) :=
  let m := po_metadata pod in
  if deleted then
    if is_some_and cached (λ cached, bool_decide (Some (vp_uid cached) = md_uid m)) then Some None else None
  else
    uid ← md_uid m;
    match (text ← annotation m GENERATION_ANNOTATION; parse_u64 text),
          (owners ← md_owner_references m; List.find (is_controller ("w-" +:+ workspace_short_id_for id)) owners) with
    | Some generation, Some owner => Some (Some (view_of_pod uid generation (ow_uid owner) pod))
    | _, _ => Some None
    end.

Definition put_view {V} (id : Uuid) (seen : option (option V)) (views : gmap Uuid V) : gmap Uuid V :=
  match seen with Some (Some view) => <[id := view]> views | Some None => delete id views | None => views end.

(** The two kinds of [ObservedResource]. *)
Inductive Observed := ObservedSet (set : StatefulSet) | ObservedPod (pod : Pod).
Definition observed_meta (object : Observed) : ObjectMeta :=
  match object with ObservedSet set => ss_metadata set | ObservedPod pod => po_metadata pod end.
Definition observed_is_pod (object : Observed) : bool := match object with ObservedSet _ => false | ObservedPod _ => true end.
Definition observed_id (installation : string) (object : Observed) : option Uuid :=
  owned_workspace (observed_meta object) installation (observed_is_pod object).

Definition update (installation : string) (object : Observed) (deleted : bool) (s : State) : State :=
  match observed_id installation object with
  | None => s
  | Some id =>
      match object with
      | ObservedSet set => set_views (o_pods s) (put_view id (seen_set set deleted (o_sets s !! id)) (o_sets s)) s
      | ObservedPod pod => set_views (put_view id (seen_pod id pod deleted (o_pods s !! id)) (o_pods s)) (o_sets s) s
      end
  end.

(** [K::replace]. *)
Definition replace (pods : bool) (snapshot s : State) : State :=
  if pods then set_listed true (o_sets_listed s) (o_ready_scan_pending s) (set_views (o_pods snapshot) (o_sets s) s)
  else set_listed (o_pods_listed s) true (o_ready_scan_pending s) (set_views (o_pods s) (o_sets snapshot) s).

(** The pages of a list, as they were answered; its version is that of the first
    page that has one. *)
Definition list_snapshot (installation : string) (pages : list (option string * list Observed)) : State * option string :=
  foldl (λ acc page,
    (foldl (λ s object, update installation object false s) acc.1 page.2, match acc.2 with Some version => Some version | None => page.1 end))
    (empty_state, None) pages.

(** ** Locked sections *)

(** Of [apply_event]: the reservations and the check to deliver. *)
Definition observe_object (installation : string) (object : Observed) (deleted : bool) (now : Z) (s : State)
    : (list Reservation * option (Uuid * Z)) * State :=
  let workspace := observed_id installation object in
  let s := update installation object deleted s in
  match workspace with
  | None => (([], None), s)
  | Some id =>
      let s := if negb (runtime_ready s id) then request_ready_check id s else s in
      let check := pair id <$> o_ready_checks s !! id in
      let '(reservations, s) := refresh_workspace id now s in
      ((reservations, check), s)
  end.

(** Of [publish_snapshot]. *)
Definition publish (pods : bool) (snapshot : State) (now : Z) (s : State) : list Reservation * State :=
  let s := replace pods snapshot s in
  refresh_all now (set_listed (o_pods_listed s) (o_sets_listed s) (o_pods_listed s && o_sets_listed s) s).
End Views.

(** ** Watching *)
Inductive WatchOutcome := Resume | Relist | Retry | Shutdown.

(** What a watch yields: an object, a bookmark or an error with its code. *)
Inductive WatchEvent :=
  | Added (object : Observed) | Modified (object : Observed) | WatchDeleted (object : Observed)
  | Bookmark (resource_version : string) | WatchError (code : Z).
(** What the next item of a stream is. *)
Inductive StreamItem := Item (event : WatchEvent) | Ended (quickly : bool) | Failed_ (code : option Z) | Idle | ShuttingDown.

Definition error_outcome (code : option Z) : WatchOutcome := if bool_decide (code = Some 410) then Relist else Retry.

(** [apply_event]: the object to look at, if any, the outcome and the version. *)
Definition event_object (event : WatchEvent) : option (Observed * bool) :=
  match event with
  | Added object | Modified object => Some (object, false)
  | WatchDeleted object => Some (object, true)
  | Bookmark _ | WatchError _ => None
  end.
Definition event_outcome (event : WatchEvent) : option WatchOutcome :=
  match event with WatchError code => Some (error_outcome (Some code)) | _ => None end.
Definition event_version (event : WatchEvent) (resource_version : option string) : option string :=
  match event with
  | Added object | Modified object | WatchDeleted object => md_resource_version (observed_meta object)
  | Bookmark version => Some version
  | WatchError _ => resource_version
  end.

(** [consume_stream] on the items that come: what was observed, outcome and version. *)
Fixpoint consume_stream (items : list StreamItem) (resource_version : option string)
    : list (Observed * bool) * option WatchOutcome * option string :=
  match items with
  | [] => ([], None, resource_version)
  | Item event :: items =>
      let resource_version := event_version event resource_version in
      match event_outcome event with
      | Some outcome => ([], Some outcome, resource_version)
      | None =>
          let '(objects, outcome, version) := consume_stream items resource_version in
          (match event_object event with Some object => object :: objects | None => objects end, outcome, version)
      end
  | Ended quickly :: _ => ([], Some (if quickly then Retry else Resume), resource_version)
  | Failed_ code :: _ => ([], Some (error_outcome code), resource_version)
  | Idle :: _ => ([], Some Retry, resource_version)
  | ShuttingDown :: _ => ([], Some Shutdown, resource_version)
  end.

(** ** Delivery *)

(** A call that fails may do so before or after the update took effect. *)
Inductive Fault := NoFault | FailedBefore | FailedAfter.
(** One round of a batch: the times read before the call and after it. *)
Record Round := mkRound { rd_fault : Fault; rd_wake : Z; rd_done : Z }.
(** The rounds that fit into the five seconds of a delivery, and the time at which
    what is left is given up. *)
Record Script := mkScript { sc_rounds : list Round; sc_cancelled : Z }.

(** The database calls are made one after the other here, at one time unless a script
    says otherwise; what other tasks do between them is in [step]. *)
Section Delivery.
Context `{UuidText} (inst : string).

Fixpoint complete_all (reservations : list Reservation) (awakened : option (gset Uuid)) (now : Z) (s : State) : list Reservation * State :=
  match reservations with
  | [] => ([], s)
  | reservation :: reservations =>
      let '(next, s) := complete reservation ((λ ids : gset Uuid, bool_decide (pk_id (rs_job reservation) ∈ ids)) <$> awakened) now s in
      let '(others, s) := complete_all reservations awakened now s in (next ++ others, s)
  end.

Definition wake_jobs (round : Round) (jobs : list ParkedWorkspaceJob) (db : Db) : option (gset Uuid) * Db :=
  let '(result, db') := wake_parked_workspace_jobs inst jobs (rd_wake round) db in
  match rd_fault round, result with
  | NoFault, Ok awakened => (Some awakened, db')
  | FailedBefore, _ => (None, db)
  | _, _ => (None, db')
  end.

Fixpoint deliver_batch (rounds : list Round) (reservations : list Reservation) (s : State) (db : Db) : list Reservation * State * Db :=
  match reservations, rounds with
  | [], _ | _, [] => (reservations, s, db)
  | _, round :: rounds =>
      let '(awakened, db) := wake_jobs round (rs_job <$> reservations) db in
      let '(next, s) := complete_all reservations awakened (rd_done round) s in
      deliver_batch rounds next s db
  end.

(** What is left when the time is up is dropped, and so released. *)
Definition deliver (script : Script) (reservations : list Reservation) (s : State) (db : Db) : State * Db :=
  let '(remaining, s, db) := deliver_batch (sc_rounds script) reservations s db in
  (foldl (λ s reservation, release_cancelled reservation (sc_cancelled script) s) s remaining, db).

Definition register (script : Script) (job_id : Uuid) (now : Z) (s : State) (db : Db) : result StorageError.t () * State * Db :=
  let '(ticket, s) := next_ticket s in
  match get_parked_workspace_job inst job_id now db with
  | (Err e, db) => (Err e, s, db)
  | (Ok None, db) => (Ok (), s, db)
  | (Ok (Some job), db) =>
      let '(reservations, s) := register_at job now ticket s in
      let '(s, db) := deliver script reservations s db in (Ok (), s, db)
  end.

(** [deliver_ready_check]: the hint goes when it is settled, and only if it is still
    the same. *)
Definition check_settled (id : Uuid) (enqueued : result StorageError.t bool) (s : State) (db : Db) : bool * Db :=
  match enqueued with
  | Ok true => (true, db)
  | Ok false =>
      match get_workspace inst id db with
      | (Ok workspace, db) =>
          (negb match ws_state workspace with Ready | Provisioning | Starting | Restarting => true | _ => false end || runtime_ready s id, db)
      | (Err StorageError.WorkspaceNotFound, db) => (true, db)
      | (Err _, db) => (false, db)
      end
  | Err _ => (false, db)
  end.
Definition finish_check (id : Uuid) (ticket : Z) (s : State) : State :=
  if bool_decide (o_ready_checks s !! id = Some ticket) then set_checks (o_registration_ticket s) (delete id (o_ready_checks s)) s else s.
Definition deliver_ready_check (id : Uuid) (ticket now : Z) (s : State) (db : Db) : State * Db :=
  let '(enqueued, db) := enqueue_ready_workspace_observation inst id now db in
  let '(finished, db) := check_settled id enqueued s db in
  (if finished then finish_check id ticket s else s, db).

Fixpoint deliver_each_check (checks : list (Uuid * Z)) (now : Z) (s : State) (db : Db) : State * Db :=
  match checks with
  | [] => (s, db)
  | (id, ticket) :: checks => let '(s, db) := deliver_ready_check id ticket now s db in deliver_each_check checks now s db
  end.
Definition deliver_ready_checks (now : Z) (s : State) (db : Db) : State * Db := deliver_each_check (map_to_list (o_ready_checks s)) now s db.

(** The checks that a page of ready workspaces asks for. *)
Fixpoint request_checks (ids : list Uuid) (s : State) : list (Uuid * Z) * State :=
  match ids with
  | [] => ([], s)
  | id :: ids =>
      if runtime_ready s id then request_checks ids s
      else
        let s := request_ready_check id s in
        let '(checks, s') := request_checks ids s in ((id, default 0 (o_ready_checks s !! id)) :: checks, s')
  end.

(** [None]: out of fuel. *)
Fixpoint scan_ready_pages (fuel : nat) (after : option Uuid) (now : Z) (s : State) (db : Db) : option (result StorageError.t () * State * Db) :=
  match fuel with
  | O => None
  | S fuel =>
      match ready_workspace_ids inst after db with
      | (Err e, db) => Some (Err e, set_listed (o_pods_listed s) (o_sets_listed s) true s, db)
      | (Ok page, db) =>
          let '(checks, s) := request_checks page s in
          let '(s, db) := deliver_each_check checks now s db in
          if bool_decide (length page = 256%nat) then scan_ready_pages fuel (last page) now s db else Some (Ok (), s, db)
      end
  end.
Definition scan_ready_after_relist (now : Z) (s : State) (db : Db) : option (result StorageError.t () * State * Db) :=
  if o_ready_scan_pending s
  then scan_ready_pages (S (size (t_workspaces db))) None now (set_listed (o_pods_listed s) (o_sets_listed s) false s) db
  else Some (Ok (), s, db).

Fixpoint register_page (jobs : list ParkedWorkspaceJob) (now ticket : Z) (s : State) : list Reservation * State :=
  match jobs with
  | [] => ([], s)
  | job :: jobs =>
      let '(rs, s) := register_at job now ticket s in
      let '(others, s) := register_page jobs now ticket s in (rs ++ others, s)
  end.

Fixpoint repair_pages (fuel : nat) (scripts : nat → Script) (after : option Uuid) (now : Z) (s : State) (db : Db) : option (State * Db) :=
  match fuel with
  | O => None
  | S fuel =>
      let '(ticket, s) := next_ticket s in
      match list_parked_workspace_jobs inst after 256 now db with
      | (Err _, db) => Some (s, db)
      | (Ok page, db) =>
          let '(reservations, s) := register_page (pp_jobs page) now ticket s in
          let '(s, db) := deliver (scripts fuel) reservations s db in
          match pp_next page with
          | Some cursor => repair_pages fuel scripts (Some cursor) now s db
          | None => Some (prune now s, db)
          end
      end
  end.

(** [repair]. *)
Definition repair (scripts : nat → Script) (now : Z) (s : State) (db : Db) : option (State * Db) :=
  match scan_ready_after_relist now s db with
  | Some (Ok _, s, db) => let '(s, db) := deliver_ready_checks now s db in repair_pages (S (size (t_jobs db))) scripts None now s db
  | Some (Err _, s, db) => Some (s, db)
  | None => None
  end.

(** [apply_event] on an object, and what [publish_snapshot] does with the list. *)
Definition apply_object (script : Script) (object : Observed) (deleted : bool) (now : Z) (s : State) (db : Db) : State * Db :=
  let '(reservations, check, s) := observe_object inst object deleted now s in
  let '(s, db) := deliver script reservations s db in
  match check with Some (id, ticket) => deliver_ready_check id ticket now s db | None => (s, db) end.
Definition publish_snapshot (script : Script) (pods : bool) (snapshot : State) (now : Z) (s : State) (db : Db) : option (State * Db) :=
  let '(reservations, s) := publish pods snapshot now s in
  let '(s, db) := deliver script reservations s db in
  (λ out, (out.1.2, out.2)) <$> scan_ready_after_relist now s db.
End Delivery.

(** ** The invariant *)
Definition edge_at (s : State) (job : ParkedWorkspaceJob) : option Edge :=
  edges ← o_edges s !! pk_workspace_id job; edges !! (pk_generation job, pk_desired_replicas job).
Definition candidate_of (s : State) (job : ParkedWorkspaceJob) : option Candidate :=
  candidate s (pk_workspace_id job) (pk_generation job) (pk_desired_replicas job).

(** What is known of an epoch: the job was woken for it, is being woken, was
    refused with this payload, or is to be woken later. *)
Definition accounted (h : CycleHistory) (payload : Value) (epoch : Z) : Prop :=
  epoch ∈ h_consumed h ∨ is_Some (h_in_flight h !! epoch) ∨ (payload, epoch) ∈ h_attempted h ∨ is_Some (h_retry_after h !! epoch).
Definition mentions (h : CycleHistory) (epoch : Z) : Prop := ∃ payload, accounted h payload epoch.

(** The jobs of one cycle wait for the same: its generation determines what the
    workspace was to become. *)
Section Invariant.
Context (scope_of : Cycle → Uuid * Z).
Definition in_scope (job : ParkedWorkspaceJob) : Prop := scope_of (for_job job) = (pk_workspace_id job, pk_desired_replicas job).

(** [stale] are workspaces whose edges are not up to date, [loose] is a job that
    may have been forgotten: both within a locked section only. [out] are the
    reservations that are out for delivery. *)
Record invariant (stale : Uuid → Prop) (loose : Uuid → Prop) (s : State) (out : list Reservation) (clock : Z) : Prop := {
  i_key id job : o_waiters s !! id = Some job → pk_id job = id ∧ in_scope job;
  i_index id job : o_waiters s !! id = Some job → ∃ ids, o_by_workspace s !! pk_workspace_id job = Some ids ∧ id ∈ ids;
  i_history id job : o_waiters s !! id = Some job → ∃ h, o_cycles s !! for_job job = Some h ∧ h_until h = pk_until job;
  i_scope cycle h : o_cycles s !! cycle = Some h → (h_workspace_id h, h_desired_replicas h) = scope_of cycle;
  i_out r : r ∈ out → rs_cycle r = for_job (rs_job r);
  i_flight cycle h epoch payload : o_cycles s !! cycle = Some h → h_in_flight h !! epoch = Some payload →
    ∃ r, r ∈ out ∧ rs_cycle r = cycle ∧ rs_edge r = epoch ∧ pk_payload (rs_job r) = payload;
  i_bound cycle h epoch : o_cycles s !! cycle = Some h → mentions h epoch →
    ∃ edge, (edges ← o_edges s !! h_workspace_id h; edges !! (cy_generation cycle, h_desired_replicas h)) = Some edge ∧ epoch <= ed_epoch edge;
  i_edge id job : o_waiters s !! id = Some job → ¬ stale (pk_workspace_id job) → ∃ edge, edge_at s job = Some edge ∧ ed_candidate edge = candidate_of s job;
  i_accounted id job edge h : o_waiters s !! id = Some job → ¬ stale (pk_workspace_id job) → ¬ loose id →
    edge_at s job = Some edge → is_Some (candidate_of s job) → o_cycles s !! for_job job = Some h →
    pk_until job <= clock ∨ accounted h (pk_payload job) (ed_epoch edge);
}.
Abbreviation none := (λ _ : Uuid, False).

Lemma handled_accounted h payload epoch now : handled h payload epoch now = true → accounted h payload epoch.
Proof.
  unfold handled, accounted. rewrite !orb_true_iff, !bool_decide_eq_true. intros [[[?|Hf]|?]|(d & Hd & _)%is_some_and_true]; auto.
  right. left. by destruct (h_in_flight h !! epoch).
Qed.

Lemma accounted_in_flight h payload p epoch : accounted (set_in_flight (<[epoch := p]> (h_in_flight h)) h) payload epoch.
Proof. right. left. cbn. rewrite lookup_insert. by destruct (decide _). Qed.
Lemma accounted_insert h payload p epoch epoch' : accounted h payload epoch → accounted (set_in_flight (<[epoch' := p]> (h_in_flight h)) h) payload epoch.
Proof.
  intros [?|[Hf|?]]; [by left| |by right; right]. right. left. cbn. destruct (decide (epoch' = epoch)) as [->|]; [rewrite lookup_insert|rewrite lookup_insert_ne by done; done].
  by destruct (decide _).
Qed.
Lemma mentions_insert h p epoch epoch' : mentions (set_in_flight (<[epoch' := p]> (h_in_flight h)) h) epoch → mentions h epoch ∨ epoch = epoch'.
Proof.
  intros (payload & [?|[Hf|?]]); [left; exists payload; by left| |left; exists payload; by right; right].
  cbn in Hf. destruct (decide (epoch' = epoch)) as [->|]; [by right|]. rewrite lookup_insert_ne in Hf by done. left. exists payload. by right; left.
Qed.

(** What a reservation does. *)
Lemma reserve_inv job now s o s' : reserve job now s = (o, s') →
  (o = None ∧ s' = s ∧
     (pk_until job <= now ∨ edge_at s job = None ∨ o_cycles s !! for_job job = None ∨
      ∃ edge h, edge_at s job = Some edge ∧ o_cycles s !! for_job job = Some h ∧
        (ed_candidate edge = None ∨ handled h (pk_payload job) (ed_epoch edge) now = true))) ∨
  ∃ edge h, edge_at s job = Some edge ∧ is_Some (ed_candidate edge) ∧ o_cycles s !! for_job job = Some h ∧ now < pk_until job ∧
    handled h (pk_payload job) (ed_epoch edge) now = false ∧
    o = Some (mkReservation job (for_job job) (ed_epoch edge)) ∧
    s' = set_cycles (<[for_job job := set_in_flight (<[ed_epoch edge := pk_payload job]> (h_in_flight h)) h]> (o_cycles s)) s.
Proof.
  unfold reserve, edge_at. destruct (Z.leb_spec (pk_until job) now) as [Hle|Hlt]; [intros [= <- <-]; left; auto|].
  destruct (o_edges s !! pk_workspace_id job) as [edges|] eqn:He; cbn; [|intros [= <- <-]; left; split_and!; auto].
  destruct (edges !! (pk_generation job, pk_desired_replicas job)) as [edge|] eqn:Hedge; cbn; [|intros [= <- <-]; left; split_and!; auto].
  destruct (ed_candidate edge) as [ca|] eqn:Hc; cbn.
  2: { intros [= <- <-]. left. split_and!; [done..|]. destruct (o_cycles s !! for_job job) as [h|] eqn:Hh; [|auto]. do 3 right. exists edge, h. auto. }
  destruct (o_cycles s !! for_job job) as [h|] eqn:Hh; cbn; [|intros [= <- <-]; left; split_and!; auto].
  destruct (handled h (pk_payload job) (ed_epoch edge) now) eqn:Hh'; intros [= <- <-].
  - left. split_and!; [done..|]. do 3 right. exists edge, h. auto.
  - right. exists edge, h. by split_and!.
Qed.

Definition scope_edge (s : State) (cycle : Cycle) (h : CycleHistory) : option Edge :=
  edges ← o_edges s !! h_workspace_id h; edges !! (cy_generation cycle, h_desired_replicas h).

(** One history changes. *)
Lemma invariant_cycle stale loose s out out' clock cycle h h' :
  invariant stale loose s out clock → o_cycles s !! cycle = Some h →
  h_until h' = h_until h → h_workspace_id h' = h_workspace_id h → h_desired_replicas h' = h_desired_replicas h →
  (∀ r, r ∈ out' → rs_cycle r = for_job (rs_job r)) → (∀ r, r ∈ out → rs_cycle r ≠ cycle → r ∈ out') →
  (∀ epoch payload, h_in_flight h' !! epoch = Some payload → ∃ r, r ∈ out' ∧ rs_cycle r = cycle ∧ rs_edge r = epoch ∧ pk_payload (rs_job r) = payload) →
  (∀ epoch, mentions h' epoch → mentions h epoch ∨ ∃ edge, scope_edge s cycle h = Some edge ∧ epoch <= ed_epoch edge) →
  (∀ payload epoch, ¬ loose (cy_job_id cycle) → accounted h payload epoch → accounted h' payload epoch) →
  invariant stale loose (set_cycles (<[cycle := h']> (o_cycles s)) s) out' clock.
Proof.
  intros [Hkey Hindex Hhist Hscope Hout Hflight Hbound Hedge Hacc] Hh Hu Hw Hd Hout' Hother Hf Hm Ha. split; cbn; try done.
  - intros id job Hj. destruct (Hhist id job Hj) as (h0 & Hh0 & Hu0). destruct (decide (for_job job = cycle)) as [<-|Hne].
    + rewrite lookup_insert_eq. exists h'. split; [done|]. congruence.
    + rewrite lookup_insert_ne by done. eauto.
  - intros cy h0 [[<- <-]|[_ Hc]]%lookup_insert_Some; [rewrite Hw, Hd|]; eauto.
  - intros cy h0 epoch payload [[<- <-]|[Hne Hc]]%lookup_insert_Some Hp; [by apply Hf|].
    destruct (Hflight _ _ _ _ Hc Hp) as (r & Hr & Hcy & ?). exists r. split; [|done]. apply Hother; congruence.
  - intros cy h0 epoch [[<- <-]|[Hne Hc]]%lookup_insert_Some Hp; [|by eapply Hbound].
    rewrite Hw, Hd. destruct (Hm _ Hp) as [Hp'|(edge & He & Hle)]; [by eapply Hbound|by exists edge].
  - intros id job edge h0 Hj Hs Hl He Hc [[Hcy <-]|[Hne Hh0]]%lookup_insert_Some; [|by eapply Hacc].
    subst cycle. destruct (Hacc id job edge h Hj Hs Hl He Hc Hh) as [?|?]; [by left|right]. apply Ha; [|done].
    destruct (Hkey id job Hj) as [<- _]. done.
Qed.

(** A reservation for a registered job is out, or the job is accounted for. *)
Lemma reserve_invariant stale loose s out clock job now o s' : reserve job now s = (o, s') → now <= clock →
  invariant stale loose s out clock → o_waiters s !! pk_id job = Some job →
  invariant stale (λ id, loose id ∧ id ≠ pk_id job) s' (match o with Some r => r :: out | None => out end) clock ∧
  o_waiters s' = o_waiters s ∧ o_edges s' = o_edges s ∧ o_by_workspace s' = o_by_workspace s ∧ o_sets s' = o_sets s ∧ o_pods s' = o_pods s.
Proof.
  intros [(-> & -> & Hwhy)|(edge & h & He & Hca & Hh & Hlt & Hn & -> & ->)]%reserve_inv Hclock Hi Hj.
  - split; [|done]. destruct Hi as [Hkey Hindex Hhist Hscope Hout Hflight Hbound Hedge Hacc]. split; try done.
    intros id job' edge h Hj' Hs Hl He Hc Hh. destruct (decide (id = pk_id job)) as [->|Hne]; [|eapply Hacc; eauto; tauto].
    assert (job' = job) as -> by congruence. destruct Hwhy as [?|[?|[?|(edge' & h' & He' & Hh' & [Hn|Hd])]]]; [left; lia|congruence..| |].
    + destruct (Hedge (pk_id job) job Hj Hs) as (e & He1 & Hce). assert (e = edge') as -> by congruence.
      rewrite <-Hce, Hn in Hc. by destruct Hc.
    + right. assert (edge' = edge) as -> by congruence. assert (h' = h) as -> by congruence. by eapply handled_accounted.
  - split; [|done]. set (h' := set_in_flight _ h). assert (invariant stale loose (set_cycles (<[for_job job := h']> (o_cycles s)) s)
      (mkReservation job (for_job job) (ed_epoch edge) :: out) clock) as Hi'.
    { eapply (invariant_cycle _ _ _ _ _ _ _ h h'); try done.
      - intros r [->|Hr]%elem_of_cons; [done|by eapply i_out].
      - intros r Hr _. by right.
      - intros epoch payload Hp. unfold h' in Hp. cbn in Hp. apply lookup_insert_Some in Hp as [[<- <-]|[_ Hp]].
        + eexists. split; [by left|done].
        + destruct (i_flight _ _ _ _ _ Hi _ _ _ _ Hh Hp) as (r & Hr & ?). exists r. split; [by right|done].
      - intros epoch [?| ->]%mentions_insert; [by left|right]. exists edge. split; [|lia]. unfold scope_edge.
        pose proof (i_scope _ _ _ _ _ Hi _ _ Hh) as Hsc. destruct (i_key _ _ _ _ _ Hi _ _ Hj) as [_ Hin]. unfold in_scope in Hin.
        rewrite Hin in Hsc. injection Hsc as -> ->. exact He.
      - intros payload epoch _. apply accounted_insert. }
    destruct Hi' as [Hkey Hindex Hhist Hscope Hout Hflight Hbound Hedge Hacc]. split; try done.
    intros id job' edge' h0 Hj' Hs Hl He' Hc Hh0. destruct (decide (id = pk_id job)) as [->|Hne]; [|eapply Hacc; eauto; tauto].
    cbn in Hj'. assert (job' = job) as -> by congruence. right. cbn in Hh0. rewrite lookup_insert_eq in Hh0. injection Hh0 as <-.
    change (edge_at s job = Some edge') in He'. assert (edge' = edge) as -> by congruence. apply accounted_in_flight.
Qed.

(** ** Refreshing the edges of a workspace *)
Definition edge_of (s : State) (workspace_id : Uuid) (key : Z * Z) : option Edge := edges ← o_edges s !! workspace_id; edges !! key.

Lemma edge_of_refresh workspace_id key s workspace' key' : edge_of (refresh_edge workspace_id key s) workspace' key' =
  if decide (workspace' = workspace_id ∧ key' = key)
  then Some (refreshed (candidate s workspace_id key.1 key.2) (default new_edge (edge_of s workspace_id key)))
  else edge_of s workspace' key'.
Proof.
  unfold edge_of, refresh_edge. cbn. destruct (decide (workspace' = workspace_id)) as [->|Hw].
  - rewrite lookup_insert_eq. cbn. destruct (decide (key' = key)) as [->|Hk].
    + rewrite lookup_insert_eq. destruct (decide _) as [_|[]]; [|done]. by destruct (o_edges s !! workspace_id).
    + rewrite lookup_insert_ne by done. destruct (decide _) as [[]|_]; [done|].
      destruct (o_edges s !! workspace_id); cbn; [done|apply lookup_empty].
  - rewrite lookup_insert_ne by done. by destruct (decide _) as [[]|_].
Qed.

Definition edges_only (s s' : State) : Prop := s' = set_edges (o_edges s') s.
Lemma edges_only_candidate s s' workspace_id generation desired : edges_only s s' →
  candidate s' workspace_id generation desired = candidate s workspace_id generation desired.
Proof. by intros ->. Qed.

Lemma refresh_edges_spec workspace_id keys s : NoDup keys →
  let s' := foldr (refresh_edge workspace_id) s keys in
  edges_only s s' ∧ ∀ workspace' key', edge_of s' workspace' key' =
    if decide (workspace' = workspace_id ∧ key' ∈ keys)
    then Some (refreshed (candidate s workspace_id key'.1 key'.2) (default new_edge (edge_of s workspace_id key')))
    else edge_of s workspace' key'.
Proof.
  induction keys as [|key keys IH]; intros Hnd; cbn [foldr].
  { split; [by destruct s|]. intros workspace' key'. destruct (decide _) as [[_ []%not_elem_of_nil]|]; done. }
  apply NoDup_cons in Hnd as [Hni Hnd]. destruct (IH Hnd) as [Honly Hedges]. set (s1 := foldr _ s keys) in *. split.
  { unfold edges_only, refresh_edge. cbn. by rewrite Honly. }
  intros workspace' key'. rewrite edge_of_refresh, Hedges, (edges_only_candidate s s1), Hedges by done.
  destruct (decide (workspace' = workspace_id ∧ key' = key)) as [[-> ->]|Hne].
  - rewrite (decide_False (P := workspace_id = workspace_id ∧ key ∈ keys)) by tauto.
    rewrite decide_True; [done|]. split; [done|]. left.
  - destruct (decide (workspace' = workspace_id ∧ key' ∈ keys)) as [[-> Hin]|Hn]; [rewrite decide_True; [done|split; [done|by right]]|].
    rewrite decide_False; [done|]. intros [-> [->|?]%elem_of_cons]; tauto.
Qed.

Lemma refreshed_candidate ca edge : ed_candidate (refreshed ca edge) = ca.
Proof. unfold refreshed. by case_bool_decide. Qed.
Lemma refreshed_epoch ca edge : ed_epoch edge <= ed_epoch (refreshed ca edge).
Proof. unfold refreshed. case_bool_decide; [lia|]. cbn. destruct ca; cbn; lia. Qed.

(** The jobs that wait for a workspace. *)
Lemma waiting_jobs_spec workspace_id s job : job ∈ waiting_jobs workspace_id s ↔
  ∃ id, id ∈ default ∅ (o_by_workspace s !! workspace_id) ∧ o_waiters s !! id = Some job.
Proof.
  unfold waiting_jobs. rewrite list_elem_of_omap. split; intros (id & Hid & Hj); exists id; (split; [|done]); by apply elem_of_elements.
Qed.

Lemma waiting_jobs_NoDup stale loose s out clock workspace_id : invariant stale loose s out clock → NoDup (pk_id <$> waiting_jobs workspace_id s).
Proof.
  intros Hi. unfold waiting_jobs. generalize (NoDup_elements (default ∅ (o_by_workspace s !! workspace_id))).
  induction (elements _) as [|id ids IH]; intros Hnd; cbn; [constructor|]. apply NoDup_cons in Hnd as [Hni Hnd].
  destruct (o_waiters s !! id) as [job|] eqn:Hj; cbn; [|by apply IH]. apply NoDup_cons. split; [|by apply IH].
  intros (job' & Hid & (id' & Hin & Hj')%list_elem_of_omap)%list_elem_of_fmap. apply (i_key _ _ _ _ _ Hi) in Hj as [Hj _], Hj' as [Hj' _].
  apply Hni. congruence.
Qed.

Definition stale_but (stale : Uuid → Prop) (workspace_id : Uuid) : Uuid → Prop := λ id, stale id ∧ id ≠ workspace_id.

(** After the edges of a workspace are refreshed, its jobs may want to be woken. *)
Lemma refresh_edges_invariant stale loose s out clock workspace_id : invariant stale loose s out clock →
  invariant (stale_but stale workspace_id) (λ id, loose id ∨ ∃ job, job ∈ waiting_jobs workspace_id s ∧ pk_id job = id)
    (foldr (refresh_edge workspace_id) s (elements (edge_keys workspace_id s))) out clock.
Proof.
  intros Hi. destruct (refresh_edges_spec workspace_id (elements (edge_keys workspace_id s)) s (NoDup_elements _)) as [Honly Hedges].
  set (s' := foldr _ _ _) in *. assert (∀ job, candidate_of s' job = candidate_of s job) as Hcand by (intros job; by apply edges_only_candidate).
  assert (∀ workspace' key edge, edge_of s workspace' key = Some edge → ∃ edge', edge_of s' workspace' key = Some edge' ∧ ed_epoch edge <= ed_epoch edge') as Hgrow.
  { intros workspace' key edge He. rewrite Hedges. destruct (decide _) as [[-> Hin]|]; [|by exists edge].
    eexists. split; [done|]. rewrite He. apply refreshed_epoch. }
  assert (o_waiters s' = o_waiters s ∧ o_by_workspace s' = o_by_workspace s ∧ o_cycles s' = o_cycles s) as (Ew & Eb & Ec) by by rewrite Honly.
  destruct Hi as [Hkey Hindex Hhist Hscope Hout Hflight Hbound Hedge Hacc]. split; rewrite ?Ew, ?Eb, ?Ec; try done.
  - intros cycle h epoch Hh Hm. destruct (Hbound _ _ _ Hh Hm) as (edge & He & Hle). destruct (Hgrow _ _ _ He) as (edge' & He' & Hle'). exists edge'.
    split; [done|lia].
  - intros id job Hj Hs. rewrite Hcand. change (∃ edge, edge_of s' (pk_workspace_id job) (pk_generation job, pk_desired_replicas job) = Some edge ∧ ed_candidate edge = candidate_of s job).
    rewrite Hedges. destruct (decide (pk_workspace_id job = workspace_id)) as [Hw|Hw].
    + rewrite decide_True; [eexists; split; [done|]; rewrite refreshed_candidate; by rewrite <-Hw|]. split; [done|]. unfold edge_keys. rewrite elem_of_elements, elem_of_union, elem_of_list_to_set, list_elem_of_fmap. right.
      exists job. split; [done|]. apply waiting_jobs_spec. exists id. split; [|done]. destruct (Hindex id job Hj) as (ids & Hids & Hin). by rewrite <-Hw, Hids.
    + rewrite decide_False by tauto. apply (Hedge id job Hj). intros Hst. by apply Hs.
  - intros id job edge h Hj Hs Hl He Hc Hh. rewrite Hcand in Hc. destruct (decide (pk_workspace_id job = workspace_id)) as [Hw|Hw].
    + destruct Hl. right. exists job. split; [|by apply Hkey]. apply waiting_jobs_spec. exists id. split; [|done].
      destruct (Hindex id job Hj) as (ids & Hids & Hin). by rewrite <-Hw, Hids.
    + change (edge_of s' (pk_workspace_id job) (pk_generation job, pk_desired_replicas job) = Some edge) in He. rewrite Hedges, decide_False in He by tauto.
      eapply (Hacc id job edge h); try done; [intros Hst; by apply Hs|tauto].
Qed.

Lemma invariant_out stale loose s out out' clock : (∀ r, r ∈ out ↔ r ∈ out') → invariant stale loose s out clock → invariant stale loose s out' clock.
Proof.
  intros Hr []. split; try done; [intros r Hin%Hr; auto|]. intros cycle h epoch payload Hh Hp.
  destruct (i_flight0 _ _ _ _ Hh Hp) as (r & Hin%Hr & ?). by exists r.
Qed.

Lemma invariant_perm stale loose s out out' clock : out ≡ₚ out' → invariant stale loose s out clock → invariant stale loose s out' clock.
Proof. intros Hp. apply invariant_out. intros r. by rewrite Hp. Qed.

(** Going through the jobs. *)
Lemma reserve_all_invariant stale loose jobs s out clock now rs s' : reserve_all jobs now s = (rs, s') → now <= clock →
  invariant stale loose s out clock → (∀ job, job ∈ jobs → o_waiters s !! pk_id job = Some job) →
  invariant stale (λ id, loose id ∧ ∀ job, job ∈ jobs → pk_id job ≠ id) s' (rs ++ out) clock ∧
  o_waiters s' = o_waiters s ∧ o_edges s' = o_edges s ∧ o_by_workspace s' = o_by_workspace s ∧ o_sets s' = o_sets s ∧ o_pods s' = o_pods s.
Proof.
  revert loose s out rs s'. induction jobs as [|job jobs IH]; intros loose s out rs s'; cbn [reserve_all].
  { intros [= <- <-] _ [] _. split; [|done]. split; try done. intros id job edge h Hj Hs Hl. eapply i_accounted0; try done.
    intros Hlo. apply Hl. split; [done|]. by intros ? []%not_elem_of_nil. }
  destruct (reserve job now s) as [o s1] eqn:Er. destruct (reserve_all jobs now s1) as [rs1 s2] eqn:Ers. intros [= <- <-] Hclock Hi Hjobs.
  destruct (reserve_invariant _ _ _ _ _ _ _ _ _ Er Hclock Hi (Hjobs job ltac:(left))) as (Hi1 & Ew & Ee & Eb & Es & Ep).
  destruct (IH _ _ _ _ _ Ers Hclock Hi1) as (Hi2 & Ew2 & Ee2 & Eb2 & Es2 & Ep2).
  { intros job' Hin. rewrite Ew. apply Hjobs. by right. }
  split; [|split_and!; congruence]. eapply invariant_out with (out := rs1 ++ match o with Some r => r :: out | None => out end); [destruct o; set_solver|].
  destruct Hi2 as [Hkey Hindex Hhist Hscope Hout Hflight Hbound Hedge Hacc]. split; try done.
  intros id job' edge h Hj Hs Hl. eapply Hacc; try done. intros [[Hlo Hne] Hall]. apply Hl. split; [done|].
  intros job0 [->|Hin]%elem_of_cons; [congruence|by apply Hall].
Qed.

Lemma invariant_weaken stale loose loose' s out clock : (∀ id, loose id → loose' id) → invariant stale loose s out clock → invariant stale loose' s out clock.
Proof. intros Hl []. split; try done. intros id job edge h Hj Hs Hlo. eapply i_accounted0; eauto. Qed.

(** Refreshing a workspace brings its edges up to date and forgets no job. *)
Lemma refresh_workspace_invariant stale loose s out clock workspace_id now rs s' : refresh_workspace workspace_id now s = (rs, s') → now <= clock →
  invariant stale loose s out clock → invariant (stale_but stale workspace_id) loose s' (rs ++ out) clock ∧ o_by_workspace s' = o_by_workspace s.
Proof.
  unfold refresh_workspace. intros Hr Hclock Hi. pose proof (refresh_edges_invariant _ _ _ _ _ workspace_id Hi) as Hi1.
  destruct (refresh_edges_spec workspace_id (elements (edge_keys workspace_id s)) s (NoDup_elements _)) as [Honly _]. set (s1 := foldr _ _ _) in *.
  destruct (reserve_all_invariant _ _ _ _ _ _ _ _ _ Hr Hclock Hi1) as (Hi2 & _ & _ & Eb & _).
  { intros job (id & _ & Hj)%waiting_jobs_spec. rewrite Honly. cbn. by destruct (i_key _ _ _ _ _ Hi _ _ Hj) as [-> _]. }
  split; [|by rewrite Eb, Honly]. eapply invariant_weaken; [|exact Hi2]. intros id [[Hl|(job & Hin & Hid)] Hall]; [done|]. by destruct (Hall job Hin).
Qed.

Lemma invariant_stale stale stale' loose s out clock : (∀ id, stale id → stale' id) → invariant stale loose s out clock → invariant stale' loose s out clock.
Proof. intros Hl []. split; try done; [intros id job Hj Hs; eapply i_edge0; eauto|intros id job edge h Hj Hs; eapply i_accounted0; eauto]. Qed.

Lemma refresh_each_invariant workspaces stale loose s out clock now rs s' : refresh_each workspaces now s = (rs, s') → now <= clock →
  invariant stale loose s out clock → invariant (λ id, stale id ∧ id ∉ workspaces) loose s' (rs ++ out) clock.
Proof.
  revert stale s out rs s'. induction workspaces as [|id workspaces IH]; intros stale s out rs s'; cbn [refresh_each].
  { intros [= <- <-] _. apply invariant_stale. intros id Hs. split; [done|]. apply not_elem_of_nil. }
  destruct (refresh_workspace id now s) as [rs1 s1] eqn:E1. destruct (refresh_each workspaces now s1) as [rs2 s2] eqn:E2. intros [= <- <-] Hclock Hi.
  destruct (refresh_workspace_invariant _ _ _ _ _ _ _ _ _ E1 Hclock Hi) as [Hi1 _]. pose proof (IH _ _ _ _ _ E2 Hclock Hi1) as Hi2.
  eapply invariant_stale; [|eapply invariant_out; [|exact Hi2]; set_solver].
  intros id' [[Hs Hne] Hn]. split; [done|]. rewrite elem_of_cons. tauto.
Qed.

Lemma refresh_workspace_waiters workspace_id now s rs s' : refresh_workspace workspace_id now s = (rs, s') →
  o_waiters s' = o_waiters s ∧ o_by_workspace s' = o_by_workspace s.
Proof.
  unfold refresh_workspace. destruct (refresh_edges_spec workspace_id (elements (edge_keys workspace_id s)) s (NoDup_elements _)) as [Honly _].
  intros Hr. set (s1 := foldr _ _ _) in *. assert (o_waiters s1 = o_waiters s ∧ o_by_workspace s1 = o_by_workspace s) as [<- <-] by by rewrite Honly.
  clear Honly. clearbody s1. revert s1 rs s' Hr. induction (waiting_jobs workspace_id s) as [|job jobs IH]; intros s1 rs s'; cbn; [by intros [= <- <-]|].
  destruct (reserve job now s1) as [o s2] eqn:Er. destruct (reserve_all jobs now s2) as [rs2 s3] eqn:Ers. intros [= <- <-].
  destruct (IH _ _ _ Ers) as [-> ->]. by apply reserve_inv in Er as [(_ & -> & _)|(? & ? & _ & _ & _ & _ & _ & _ & ->)].
Qed.
Lemma refresh_each_waiters workspaces now s rs s' : refresh_each workspaces now s = (rs, s') → o_waiters s' = o_waiters s ∧ o_by_workspace s' = o_by_workspace s.
Proof.
  revert s rs s'. induction workspaces as [|id l IH]; intros s rs s'; cbn; [by intros [= <- <-]|].
  destruct (refresh_workspace id now s) as [rs1 s1] eqn:E1. destruct (refresh_each l now s1) as [rs2 s2] eqn:E2. intros [= <- <-].
  destruct (IH _ _ _ E2) as [-> ->]. by eapply refresh_workspace_waiters.
Qed.

Lemma refresh_all_invariant loose s out clock now rs s' : refresh_all now s = (rs, s') → now <= clock →
  invariant (λ _, True) loose s out clock → invariant none loose s' (rs ++ out) clock.
Proof.
  unfold refresh_all. intros Hr Hclock Hi. pose proof (refresh_each_invariant _ _ _ _ _ _ _ _ _ Hr Hclock Hi) as Hi'.
  destruct (refresh_each_waiters _ _ _ _ _ Hr) as [Ew Eb].
  assert (∀ id job, o_waiters s' !! id = Some job → ¬ (True ∧ pk_workspace_id job ∉ elements (dom (o_edges s) ∪ dom (o_by_workspace s)))) as Hno.
  { intros id job Hj [_ Hn]. apply Hn, elem_of_elements, elem_of_union_r, elem_of_dom. rewrite <-Eb.
    destruct (i_index _ _ _ _ _ Hi' id job Hj) as (ids & -> & _). by eexists. }
  destruct Hi' as [Hkey Hindex Hhist Hscope Hout Hflight Hbound Hedge Hacc]. split; try done.
  - intros id job Hj _. eapply Hedge; [done|by eapply Hno].
  - intros id job edge h Hj _. eapply Hacc; [done|by eapply Hno].
Qed.

(** ** Locked sections keep the invariant *)

(** Only views of stale workspaces differ. *)
Lemma invariant_views (stale' : Uuid → Prop) loose s s' out clock :
  o_waiters s' = o_waiters s → o_by_workspace s' = o_by_workspace s → o_cycles s' = o_cycles s → o_edges s' = o_edges s →
  (∀ id, ¬ stale' id → o_sets s' !! id = o_sets s !! id ∧ o_pods s' !! id = o_pods s !! id) →
  invariant none loose s out clock → invariant stale' loose s' out clock.
Proof.
  intros Ew Eb Ec Ee Hviews [Hkey Hindex Hhist Hscope Hout Hflight Hbound Hedge Hacc].
  assert (∀ job, ¬ stale' (pk_workspace_id job) → candidate_of s' job = candidate_of s job) as Hcand.
  { intros job Hs. unfold candidate_of, candidate. by destruct (Hviews _ Hs) as [-> ->]. }
  assert (∀ job, edge_at s' job = edge_at s job) as Hedges by (intros job; unfold edge_at; by rewrite Ee).
  split; rewrite ?Ew, ?Eb, ?Ec, ?Ee; try done.
  - intros id job Hj Hs. rewrite Hedges, Hcand by done. eapply Hedge; eauto.
  - intros id job edge h Hj Hs Hl. rewrite Hedges, Hcand by done. eapply Hacc; eauto.
Qed.

Lemma put_view_ne {V} id seen (views : gmap Uuid V) id' : id' ≠ id → put_view id seen views !! id' = views !! id'.
Proof. intros Hne. destruct seen as [[view|]|]; cbn; [by rewrite lookup_insert_ne|by rewrite lookup_delete_ne|done]. Qed.

Lemma update_views `{UuidText} inst object deleted s id' : observed_id inst object ≠ Some id' →
  o_sets (update inst object deleted s) !! id' = o_sets s !! id' ∧ o_pods (update inst object deleted s) !! id' = o_pods s !! id'.
Proof.
  unfold update. destruct (observed_id inst object) as [id|]; [|done]. intros Hne. assert (id' ≠ id) by congruence.
  destruct object; cbn; by rewrite put_view_ne.
Qed.
Lemma update_rest `{UuidText} inst object deleted s : let s' := update inst object deleted s in
  o_waiters s' = o_waiters s ∧ o_by_workspace s' = o_by_workspace s ∧ o_cycles s' = o_cycles s ∧ o_edges s' = o_edges s.
Proof. unfold update. destruct (observed_id inst object); [|done]. by destruct object. Qed.

Lemma update_tickets `{UuidText} inst object deleted s :
  o_waiter_tickets (update inst object deleted s) = o_waiter_tickets s ∧ o_registration_ticket (update inst object deleted s) = o_registration_ticket s.
Proof. unfold update. destruct (observed_id inst object); [|done]. by destruct object. Qed.

Lemma invariant_clock stale loose s out clock clock' : clock <= clock' → invariant stale loose s out clock → invariant stale loose s out clock'.
Proof.
  intros Hc []. split; try done. intros id job edge h Hj Hs Hl He Hca Hh. destruct (i_accounted0 id job edge h Hj Hs Hl He Hca Hh); [left; lia|by right].
Qed.

Lemma observe_invariant `{UuidText} inst object deleted now s out clock rs check s' : observe_object inst object deleted now s = ((rs, check), s') →
  now <= clock → invariant none none s out clock → invariant none none s' (rs ++ out) clock.
Proof.
  unfold observe_object. intros Hr Hclock Hi. destruct (observed_id inst object) as [id|] eqn:Hid.
  2: { injection Hr as <- <- <-. unfold update. by rewrite Hid. }
  destruct (update_rest inst object deleted s) as (Ew & Eb & Ec & Ee). set (s1 := update inst object deleted s) in *.
  set (s2 := if negb (runtime_ready s1 id) then _ else s1) in *.
  assert (invariant (λ id', id' = id) none s2 out clock) as Hi2.
  { apply (invariant_views _ _ s); try (unfold s2; by destruct (negb _)); try done. intros id' Hne.
    destruct (update_views inst object deleted s id') as [<- <-]; [congruence|]. unfold s2. by destruct (negb _). }
  destruct (refresh_workspace id now s2) as [rs1 s3] eqn:E. injection Hr as <- _ <-.
  destruct (refresh_workspace_invariant _ _ _ _ _ _ _ _ _ E Hclock Hi2) as [Hi3 _]. eapply invariant_stale; [|exact Hi3]. by intros id' [-> []].
Qed.

Lemma publish_invariant pods snapshot now s out clock rs s' : publish pods snapshot now s = (rs, s') → now <= clock →
  invariant none none s out clock → invariant none none s' (rs ++ out) clock.
Proof.
  unfold publish. intros Hr Hclock Hi. eapply refresh_all_invariant; [exact Hr|done|]. apply (invariant_views _ _ s); try (by destruct pods); done.
Qed.

Lemma recorded_keeps r result now h : let h' := recorded r result now h in
  h_until h' = h_until h ∧ h_workspace_id h' = h_workspace_id h ∧ h_desired_replicas h' = h_desired_replicas h ∧
  h_in_flight h' = delete (rs_edge r) (h_in_flight h).
Proof. by destruct result as [[]|]. Qed.
Lemma recorded_mentions r result now h epoch : is_reserved r h = true → mentions (recorded r result now h) epoch → mentions h epoch.
Proof.
  unfold is_reserved. rewrite bool_decide_eq_true. intros Hr (payload & Ha). destruct (decide (epoch = rs_edge r)) as [->|Hne].
  { exists payload. right. left. by rewrite Hr. }
  assert (∀ (m : gmap Z Value), is_Some (delete (rs_edge r) m !! epoch) → is_Some (m !! epoch)) as Hdel.
  { intros m. by rewrite lookup_delete_ne. }
  exists payload. destruct result as [[]|], Ha as [Hc|[Hf|[Hat|Hre]]]; cbn in *;
    [left; set_solver|right; left; auto|by do 2 right; left|by do 3 right|by left|right; left; auto| |by do 3 right|by left|right; left; auto|by do 2 right; left|].
  - apply elem_of_cons in Hat as [[= _ ->]|Hat]; [done|]. by do 2 right; left.
  - rewrite lookup_insert_ne in Hre by done. by do 3 right.
Qed.
Lemma released_accounted r now h payload epoch : accounted h payload epoch → accounted (recorded r None now h) payload epoch.
Proof.
  intros [?|[Hf|[?|Hre]]]; [by left| |by do 2 right; left|]; destruct (decide (epoch = rs_edge r)) as [->|Hne].
  - do 3 right. cbn. rewrite lookup_insert_eq. by eexists.
  - right. left. cbn. by rewrite lookup_delete_ne.
  - do 3 right. cbn. rewrite lookup_insert_eq. by eexists.
  - do 3 right. cbn. by rewrite lookup_insert_ne.
Qed.

(** A reservation that comes back is no longer out. *)
Lemma invariant_recorded loose s l1 l2 clock r result now h : o_cycles s !! rs_cycle r = Some h → is_reserved r h = true →
  (loose (cy_job_id (rs_cycle r)) ∨ result = None) → invariant none loose s (l1 ++ r :: l2) clock →
  invariant none loose (set_cycles (<[rs_cycle r := recorded r result now h]> (o_cycles s)) s) (l1 ++ l2) clock.
Proof.
  intros Hh Hr Hl Hi. destruct (recorded_keeps r result now h) as (Hu & Hw & Hd & Hf).
  eapply (invariant_cycle _ _ _ _ _ _ _ h); try done.
  - intros r' Hr'. eapply (i_out _ _ _ _ _ Hi). set_solver.
  - intros r' Hr' Hne. assert (r' ≠ r) by congruence. set_solver.
  - intros epoch payload. rewrite Hf. intros [Hne Hp]%lookup_delete_Some. destruct (i_flight _ _ _ _ _ Hi _ _ _ _ Hh Hp) as (r' & Hr' & ? & He & ?).
    exists r'. split; [|done]. assert (r' ≠ r) by congruence. set_solver.
  - intros epoch Hm. left. by eapply recorded_mentions.
  - intros payload epoch Hn. destruct Hl as [?| ->]; [done|apply released_accounted].
Qed.
(** So is one that was no longer known. *)
Lemma invariant_forgotten loose s l1 l2 clock r : (∀ h, o_cycles s !! rs_cycle r = Some h → is_reserved r h = false) →
  invariant none loose s (l1 ++ r :: l2) clock → invariant none loose s (l1 ++ l2) clock.
Proof.
  intros Hn []. split; try done; [intros r' Hr'; apply i_out0; set_solver|]. intros cycle h epoch payload Hh Hp.
  destruct (i_flight0 _ _ _ _ Hh Hp) as (r' & Hr' & <- & <- & <-). exists r'. split; [|done].
  assert (r' ≠ r); [|set_solver]. intros ->. apply Hn in Hh. unfold is_reserved in Hh. rewrite Hp in Hh. by rewrite bool_decide_eq_false in Hh.
Qed.

Lemma complete_invariant r result now s l1 l2 clock rs s' : complete r result now s = (rs, s') → now <= clock →
  invariant none none s (l1 ++ r :: l2) clock → invariant none none s' (rs ++ l1 ++ l2) clock.
Proof.
  unfold complete. intros Hc Hclock Hi. destruct (o_cycles s !! rs_cycle r) as [h|] eqn:Hh.
  2: { injection Hc as <- <-. apply (invariant_forgotten _ _ l1 l2 _ r); [congruence|exact Hi]. }
  destruct (is_reserved r h) eqn:Hr. 2: { injection Hc as <- <-. apply (invariant_forgotten _ _ l1 l2 _ r); [congruence|exact Hi]. }
  assert (cy_job_id (rs_cycle r) = pk_id (rs_job r)) as Hid.
  { assert (rs_cycle r = for_job (rs_job r)) as -> by (eapply (i_out _ _ _ _ _ Hi); set_solver). done. }
  assert (invariant none (λ id, id = pk_id (rs_job r)) s (l1 ++ r :: l2) clock) as Hi0 by (eapply invariant_weaken; [|exact Hi]; done).
  eapply (invariant_recorded _ _ _ _ _ _ result now) in Hi0; [|done..|by left]. set (s1 := set_cycles _ s) in *.
  destruct (o_waiters s !! pk_id (rs_job r)) as [job|] eqn:Hj.
  - change (o_waiters s1 !! pk_id (rs_job r) = Some job) in Hj. destruct (i_key _ _ _ _ _ Hi0 _ _ Hj) as [Hjid _]. rewrite <-Hjid in Hj.
    change (o_waiters s) with (o_waiters s1) in Hc. rewrite <-Hjid, Hj in Hc.
    destruct (reserve job now s1) as [o s2] eqn:Er. injection Hc as <- <-.
    destruct (reserve_invariant _ _ _ _ _ _ _ _ _ Er Hclock Hi0 Hj) as [Hi2 _]. eapply (invariant_weaken _ _ none) in Hi2; [|by intros id [-> []]].
    by destruct o.
  - cbn in Hc. rewrite Hj in Hc. injection Hc as <- <-. destruct Hi0. split; try done.
    intros id job edge h' Hj' Hs _. eapply i_accounted0; [done..|]. intros ->. cbn in Hj'. congruence.
Qed.

Lemma release_invariant r now s l1 l2 clock : invariant none none s (l1 ++ r :: l2) clock →
  invariant none none (release_cancelled r now s) (l1 ++ l2) clock.
Proof.
  unfold release_cancelled. intros Hi. destruct (o_cycles s !! rs_cycle r) as [h|] eqn:Hh; [|apply (invariant_forgotten _ _ l1 l2 _ r); [congruence|exact Hi]].
  destruct (is_reserved r h) eqn:Hr; [|apply (invariant_forgotten _ _ l1 l2 _ r); [congruence|exact Hi]]. eapply invariant_recorded; try done. by right.
Qed.

(** ** Pruning and registering *)
Lemma prune_edge now s workspace_id key h cycle : o_cycles s !! cycle = Some h → now < h_until h → h_workspace_id h = workspace_id →
  key = (cy_generation cycle, h_desired_replicas h) → edge_of (prune now s) workspace_id key = edge_of s workspace_id key.
Proof.
  intros Hh Hlt <- ->. unfold edge_of, prune. cbn. set (cycles := filter _ (o_cycles s)). set (live := list_to_set _ : gset (Uuid * Z * Z)).
  assert ((h_workspace_id h, cy_generation cycle, h_desired_replicas h) ∈ live) as Hin.
  { unfold live. rewrite elem_of_list_to_set, list_elem_of_fmap. exists (cycle, h). split; [done|]. apply elem_of_map_to_list.
    unfold cycles. by apply map_lookup_filter_Some. }
  destruct (o_edges s !! h_workspace_id h) as [edges|] eqn:He; cbn.
  - set (kept := filter (λ kv : Z * Z * Edge, (h_workspace_id h, kv.1.1, kv.1.2) ∈ live) edges).
    assert (kept !! (cy_generation cycle, h_desired_replicas h) = edges !! (cy_generation cycle, h_desired_replicas h)) as Hk.
    { unfold kept. rewrite map_lookup_filter. destruct (edges !! _); cbn; [|done]. by rewrite option_guard_True. }
    rewrite map_lookup_filter, map_lookup_imap, He. cbn. fold kept. destruct (decide (kept = ∅)) as [E|Hne].
    + rewrite option_guard_False by tauto. cbn. rewrite <-Hk, E. by rewrite lookup_empty.
    + by rewrite option_guard_True.
  - by rewrite map_lookup_filter, map_lookup_imap, He.
Qed.

Lemma prune_invariant now s out clock : now <= clock → invariant none none s out clock → invariant none none (prune now s) out clock.
Proof.
  intros Hclock Hi. assert (∀ id job, o_waiters (prune now s) !! id = Some job → o_waiters s !! id = Some job ∧ now < pk_until job) as Hw.
  { intros id job. unfold prune. cbn. by intros [? ?]%map_lookup_filter_Some. }
  assert (∀ cycle h, o_cycles (prune now s) !! cycle = Some h ↔ o_cycles s !! cycle = Some h ∧ now < h_until h) as Hc.
  { intros cycle h. unfold prune. cbn. by rewrite map_lookup_filter_Some. }
  assert (∀ id job, o_waiters (prune now s) !! id = Some job → edge_at (prune now s) job = edge_at s job) as He.
  { intros id job [Hj Hlt]%Hw. destruct (i_history _ _ _ _ _ Hi id job Hj) as (h & Hh & Hu). destruct (i_key _ _ _ _ _ Hi id job Hj) as [_ Hin].
    pose proof (i_scope _ _ _ _ _ Hi _ _ Hh) as Hsc. unfold in_scope in Hin. rewrite Hin in Hsc. injection Hsc as Hws Hd.
    apply (prune_edge now s _ _ h (for_job job)); [done|lia|done|by rewrite Hd]. }
  split.
  - intros id job [Hj _]%Hw. by eapply i_key.
  - intros id job Hj. destruct (Hw _ _ Hj) as [Hj0 _]. destruct (i_index _ _ _ _ _ Hi id job Hj0) as (ids & Hids & Hin).
    assert (id ∈ filter (λ id, is_Some (o_waiters (prune now s) !! id)) ids) as Hin' by (apply elem_of_filter; split; [by eexists|done]).
    eexists. split; [|exact Hin']. unfold prune at 1. cbn. apply map_lookup_filter_Some. split; [by rewrite lookup_fmap, Hids|]. cbn. set_solver.
  - intros id job [Hj Hlt]%Hw. destruct (i_history _ _ _ _ _ Hi id job Hj) as (h & Hh & Hu). exists h. split; [|done]. apply Hc. split; [done|lia].
  - intros cycle h [Hh _]%Hc. by eapply i_scope.
  - apply Hi.
  - intros cycle h epoch payload [Hh _]%Hc. by eapply i_flight.
  - intros cycle h epoch [Hh Hlt]%Hc Hm. destruct (i_bound _ _ _ _ _ Hi cycle h epoch Hh Hm) as (edge & Hed & ?). exists edge. split; [|done].
    rewrite <-Hed. by apply (prune_edge now s _ _ h cycle).
  - intros id job Hj _. rewrite (He _ _ Hj). destruct (Hw _ _ Hj) as [Hj0 _]. exact (i_edge _ _ _ _ _ Hi id job Hj0 (λ f, f)).
  - intros id job edge h Hj _ _. rewrite (He _ _ Hj). intros Hed Hca [Hh _]%Hc. destruct (Hw _ _ Hj) as [Hj0 _].
    exact (i_accounted _ _ _ _ _ Hi id job edge h Hj0 (λ f, f) (λ f, f) Hed Hca Hh).
Qed.

(** The job is registered; the edges of its workspace are yet to be compared. *)
Lemma add_waiter_invariant job ticket s out clock : in_scope job → invariant none none s out clock →
  invariant (λ id, id = pk_workspace_id job) none
    (set_cycles (<[for_job job := renewed_history job (default new_history (o_cycles s !! for_job job))]> (o_cycles s)) (add_waiter job ticket s)) out clock.
Proof.
  intros Hin [Hkey Hindex Hhist Hscope Hout Hflight Hbound Hedge Hacc]. unfold in_scope in Hin.
  assert (∀ id job', id ≠ pk_id job → o_waiters s !! id = Some job' → for_job job ≠ for_job job') as Hother.
  { intros id job' Hne Hj Heq. destruct (Hkey _ _ Hj) as [<- _]. apply Hne. unfold for_job in Heq. congruence. }
  split; cbn; unfold edge_at, candidate_of; cbn.
  - intros id job' [[<- <-]|[_ Hj]]%lookup_insert_Some; [done|by apply Hkey].
  - intros id job' Hj. set (by_workspace := match o_waiters s !! pk_id job with Some _ => _ | None => _ end).
    apply lookup_insert_Some in Hj as [[<- <-]|[Hne Hj]]. { rewrite lookup_insert_eq. eexists. split; [done|set_solver]. }
    destruct (Hindex id job' Hj) as (ids & Hids & Hid).
    assert (∃ ids', by_workspace !! pk_workspace_id job' = Some ids' ∧ id ∈ ids') as (ids' & Hids' & Hid').
    { unfold by_workspace. destruct (o_waiters s !! pk_id job) as [previous|] eqn:Hp; [|by exists ids]. destruct (Hkey _ _ Hp) as [Hpid _].
      rewrite lookup_alter. case_decide as Hw; [rewrite Hw|]; rewrite Hids; eexists; (split; [done|]); [set_solver|done]. }
    destruct (decide (pk_workspace_id job = pk_workspace_id job')) as [E|E].
    + rewrite E, lookup_insert_eq, Hids'. eexists. split; [done|]. by apply elem_of_union_l.
    + rewrite lookup_insert_ne by done. by exists ids'.
  - intros id job' [[<- <-]|[Hne Hj]]%lookup_insert_Some; [rewrite lookup_insert_eq; by eexists|]. rewrite lookup_insert_ne by (eapply Hother; eauto). eauto.
  - intros cycle h [[<- <-]|[_ Hh]]%lookup_insert_Some; [by rewrite Hin|by apply Hscope].
  - done.
  - intros cycle h epoch payload [[<- <-]|[_ Hh]]%lookup_insert_Some Hp; [|by eapply Hflight].
    destruct (o_cycles s !! for_job job) as [h0|] eqn:Hh0; [by eapply Hflight|]. cbn in Hp. by rewrite lookup_empty in Hp.
  - intros cycle h epoch [[<- <-]|[_ Hh]]%lookup_insert_Some Hm; [|by eapply Hbound].
    destruct (o_cycles s !! for_job job) as [h0|] eqn:Hh0; cbn in Hm.
    + pose proof (Hscope _ _ Hh0) as Hsc. rewrite Hin in Hsc. injection Hsc as Hws Hd. cbn. rewrite <-Hws, <-Hd. by eapply (Hbound (for_job job) h0).
    + destruct Hm as (payload & [Hm|[[? Hm]|[Hm|[? Hm]]]]); cbn in Hm; [set_solver|by rewrite lookup_empty in Hm|by apply not_elem_of_nil in Hm|by rewrite lookup_empty in Hm].
  - intros id job' [[<- <-]|[Hne Hj]]%lookup_insert_Some Hs; [done|]. exact (Hedge id job' Hj (λ f, f)).
  - intros id job' edge h [[<- <-]|[Hne Hj]]%lookup_insert_Some Hs Hl He Hca Hh; [done|].
    rewrite lookup_insert_ne in Hh by (eapply Hother; eauto). exact (Hacc id job' edge h Hj (λ f, f) Hl He Hca Hh).
Qed.

Lemma register_invariant job now ticket s out clock rs s' : register_at job now ticket s = (rs, s') → in_scope job → now <= clock →
  invariant none none s out clock → invariant none none s' (rs ++ out) clock.
Proof.
  unfold register_at. destruct (_ || _); [by intros [= <- <-]|]. intros Hr Hin Hclock Hi.
  destruct (refresh_workspace_invariant _ _ _ _ _ _ _ _ _ Hr Hclock (add_waiter_invariant job ticket s out clock Hin Hi)) as [Hi' _].
  eapply invariant_stale; [|exact Hi']. by intros id [-> []].
Qed.

(** ** What becomes ready is reserved *)
Lemma handled_fresh h payload epoch now : ¬ mentions h epoch → handled h payload epoch now = false.
Proof. intros Hn. destruct (handled h payload epoch now) eqn:E; [|done]. destruct Hn. exists payload. by eapply handled_accounted. Qed.

Lemma reserve_all_reserves jobs now s job edge h : NoDup (pk_id <$> jobs) → job ∈ jobs → now < pk_until job →
  edge_at s job = Some edge → is_Some (ed_candidate edge) → o_cycles s !! for_job job = Some h → handled h (pk_payload job) (ed_epoch edge) now = false →
  mkReservation job (for_job job) (ed_epoch edge) ∈ (reserve_all jobs now s).1.
Proof.
  revert s. induction jobs as [|job' jobs IH]; intros s Hnd Hin Hlt He Hca Hh Hn; [by apply not_elem_of_nil in Hin|].
  rewrite fmap_cons in Hnd. apply NoDup_cons in Hnd as [Hni Hnd]. cbn [reserve_all]. destruct (reserve job' now s) as [o s1] eqn:Er.
  destruct (reserve_all jobs now s1) as [rs s2] eqn:Ers. cbn. apply reserve_inv in Er. apply elem_of_cons in Hin as [<-|Hin].
  - destruct Er as [(_ & _ & [?|[?|[?|(edge' & h' & He' & Hh' & [Hc|Hd])]]])|(edge' & h' & He' & _ & _ & _ & _ & -> & _)]; [lia|congruence..| | |].
    + assert (edge' = edge) as -> by congruence. rewrite Hc in Hca. by destruct Hca.
    + assert (edge' = edge) as -> by congruence. assert (h' = h) as -> by congruence. congruence.
    + assert (edge' = edge) as -> by congruence. left.
  - assert (for_job job' ≠ for_job job) as Hne.
    { intros Heq. apply Hni. apply list_elem_of_fmap. exists job. split; [|done]. unfold for_job in Heq. congruence. }
    assert (mkReservation job (for_job job) (ed_epoch edge) ∈ rs) as Hr.
    { replace rs with (reserve_all jobs now s1).1 by by rewrite Ers.
      destruct Er as [(_ & -> & _)|(edge' & h' & _ & _ & _ & _ & _ & _ & ->)]; [exact (IH s Hnd Hin Hlt He Hca Hh Hn)|].
      apply IH; try done. cbn. by rewrite lookup_insert_ne. }
    destruct o; [by right|done].
Qed.

(** A job that is registered, and was not yet woken for what is the case. *)
Lemma refresh_workspace_wakes stale loose s out clock now job c h : invariant stale loose s out clock →
  o_waiters s !! pk_id job = Some job → now < pk_until job → candidate_of s job = Some c → o_cycles s !! for_job job = Some h →
  ¬ mentions h (ed_epoch (refreshed (Some c) (default new_edge (edge_at s job)))) →
  ∃ r, r ∈ (refresh_workspace (pk_workspace_id job) now s).1 ∧ rs_job r = job.
Proof.
  intros Hi Hj Hlt Hc Hh Hfresh. unfold refresh_workspace. set (id := pk_workspace_id job). set (key := (pk_generation job, pk_desired_replicas job)).
  destruct (refresh_edges_spec id (elements (edge_keys id s)) s (NoDup_elements _)) as [Honly Hedges]. set (s1 := foldr _ _ _) in *.
  assert (job ∈ waiting_jobs id s) as Hin.
  { apply waiting_jobs_spec. exists (pk_id job). split; [|done]. destruct (i_index _ _ _ _ _ Hi _ _ Hj) as (ids & Hids & Hid). unfold id. by rewrite Hids. }
  set (edge := refreshed (Some c) (default new_edge (edge_at s job))) in *.
  exists (mkReservation job (for_job job) (ed_epoch edge)). split; [|done].
  apply reserve_all_reserves with (h := h); [by eapply waiting_jobs_NoDup|done..| | |by rewrite Honly|by apply handled_fresh].
  - change (edge_of s1 id key = Some edge). rewrite Hedges, decide_True; [unfold edge; by rewrite <-Hc|].
    split; [done|]. unfold edge_keys. rewrite elem_of_elements, elem_of_union, elem_of_list_to_set, list_elem_of_fmap. right. by exists job.
  - unfold edge. rewrite refreshed_candidate. by eexists.
Qed.

(** So is one whose workspace has come to be as desired. *)
Lemma refresh_workspace_reserves stale loose s out clock now job c : invariant stale loose s out clock →
  o_waiters s !! pk_id job = Some job → now < pk_until job → candidate_of s job = Some c → (∀ edge, edge_at s job = Some edge → ed_candidate edge ≠ Some c) →
  ∃ r, r ∈ (refresh_workspace (pk_workspace_id job) now s).1 ∧ rs_job r = job.
Proof.
  intros Hi Hj Hlt Hc Hnew. destruct (i_history _ _ _ _ _ Hi _ _ Hj) as (h & Hh & _). destruct (i_key _ _ _ _ _ Hi _ _ Hj) as [_ Hsc]. unfold in_scope in Hsc.
  pose proof (i_scope _ _ _ _ _ Hi _ _ Hh) as Hs. rewrite Hsc in Hs. injection Hs as Hws Hd.
  eapply refresh_workspace_wakes; [done..|]. intros Hm. destruct (i_bound _ _ _ _ _ Hi _ _ _ Hh Hm) as (edge & He & Hle). rewrite Hws, Hd in He.
  change (edge_at s job = Some edge) in He. rewrite He in Hle. cbn in Hle. unfold refreshed in Hle.
  rewrite bool_decide_eq_false_2 in Hle by by apply Hnew. cbn in Hle. lia.
Qed.

Lemma observe_reserves `{UuidText} inst object deleted now s out clock job c edge : invariant none none s out clock →
  o_waiters s !! pk_id job = Some job → now < pk_until job → candidate_of (update inst object deleted s) job = Some c →
  candidate_of s job ≠ Some c → edge_at s job = Some edge → ed_candidate edge = candidate_of s job →
  ∃ r, r ∈ (observe_object inst object deleted now s).1.1 ∧ rs_job r = job.
Proof.
  intros Hi Hj Hlt Hc Hold He Hce. destruct (decide (observed_id inst object = Some (pk_workspace_id job))) as [Hid|Hid].
  2: { destruct Hold. rewrite <-Hc. unfold candidate_of, candidate. by destruct (update_views inst object deleted s _ Hid) as [-> ->]. }
  unfold observe_object. rewrite Hid. destruct (update_rest inst object deleted s) as (Ew & Eb & Ec & Ee).
  set (s1 := update inst object deleted s) in *. set (id := pk_workspace_id job) in *. set (s2 := if negb (runtime_ready s1 id) then _ else s1).
  assert (o_waiters s2 = o_waiters s ∧ o_edges s2 = o_edges s ∧ candidate_of s2 job = Some c) as (Ew2 & Ee2 & Hc2)
    by (unfold s2; destruct (negb _); split_and!; [exact Ew|exact Ee|exact Hc|exact Ew|exact Ee|exact Hc]).
  assert (invariant (λ id', id' = id) none s2 out clock) as Hi2.
  { apply (invariant_views _ _ s); try (unfold s2; by destruct (negb _)); try done. intros id' Hne.
    destruct (update_views inst object deleted s id') as [<- <-]; [congruence|]. unfold s2. by destruct (negb _). }
  destruct (refresh_workspace_reserves _ _ _ _ _ now job c Hi2) as (r & Hr & Hrj); [by rewrite Ew2|done..| |].
  - unfold edge_at. rewrite Ee2. intros edge' He'. unfold edge_at in He. rewrite He in He'. injection He' as <-. by rewrite Hce.
  - exists r. split; [|done]. fold id in Hr. by destruct (refresh_workspace id now s2).
Qed.

(** ** Sequences of locked sections *)
Record World := mkWorld { w_state : State; w_out : list Reservation; w_clock : Z }.
Definition start (clock : Z) : World := mkWorld empty_state [] clock.

(** Any task may enter a locked section next. A reservation that is out is completed
    or dropped later; times need not agree between tasks, and the clock of a world is
    the latest of them. *)
Inductive step `{UuidText} (inst : string) : World → World → Prop :=
  | step_register job now ticket s out clock rs s' : in_scope job → ticket <= o_registration_ticket s → register_at job now ticket s = (rs, s') →
      step inst (mkWorld s out clock) (mkWorld s' (rs ++ out) (Z.max clock now))
  | step_observe object deleted now s out clock rs check s' : observe_object inst object deleted now s = ((rs, check), s') →
      step inst (mkWorld s out clock) (mkWorld s' (rs ++ out) (Z.max clock now))
  | step_publish pods snapshot now s out clock rs s' : publish pods snapshot now s = (rs, s') →
      step inst (mkWorld s out clock) (mkWorld s' (rs ++ out) (Z.max clock now))
  | step_complete r result now s out rest out' clock rs s' : out ≡ₚ r :: rest → complete r result now s = (rs, s') → out' ≡ₚ rs ++ rest →
      step inst (mkWorld s out clock) (mkWorld s' out' (Z.max clock now))
  | step_cancel r now s out rest clock : out ≡ₚ r :: rest →
      step inst (mkWorld s out clock) (mkWorld (release_cancelled r now s) rest (Z.max clock now))
  | step_prune now s out clock : step inst (mkWorld s out clock) (mkWorld (prune now s) out (Z.max clock now))
  | step_ticket s out clock : step inst (mkWorld s out clock) (mkWorld (next_ticket s).2 out clock)
  | step_scan pending s out clock :
      step inst (mkWorld s out clock) (mkWorld (set_listed (o_pods_listed s) (o_sets_listed s) pending s) out clock)
  | step_request ids s out clock : step inst (mkWorld s out clock) (mkWorld (request_checks ids s).2 out clock)
  | step_checked id ticket s out clock : step inst (mkWorld s out clock) (mkWorld (finish_check id ticket s) out clock).

Definition ok (w : World) : Prop := invariant none none (w_state w) (w_out w) (w_clock w).

Lemma start_ok clock : ok (start clock).
Proof.
  split; cbn; [intros id job Hj..|intros cycle h Hj| |intros cycle h epoch payload Hj|intros cycle h epoch Hj|intros id job Hj|intros id job edge h Hj];
    try by rewrite lookup_empty in Hj. by intros r ?%not_elem_of_nil.
Qed.

Lemma request_checks_views ids s : o_waiters (request_checks ids s).2 = o_waiters s ∧ o_by_workspace (request_checks ids s).2 = o_by_workspace s ∧
  o_cycles (request_checks ids s).2 = o_cycles s ∧ o_edges (request_checks ids s).2 = o_edges s ∧
  o_sets (request_checks ids s).2 = o_sets s ∧ o_pods (request_checks ids s).2 = o_pods s.
Proof.
  revert s. induction ids as [|id ids IH]; intros s; cbn [request_checks]; [done|]. destruct (runtime_ready s id); [apply IH|].
  destruct (request_checks ids (request_ready_check id s)) as [checks s'] eqn:E. specialize (IH (request_ready_check id s)). rewrite E in IH. exact IH.
Qed.

Lemma step_ok `{UuidText} inst w w' : step inst w w' → ok w → ok w'.
Proof.
  intros [] Hi; unfold ok in *; cbn in *;
    try (eapply (invariant_clock _ _ _ _ _ (Z.max clock now)) in Hi; [|lia]; assert (now <= Z.max clock now) by lia).
  - by eapply register_invariant.
  - by eapply observe_invariant.
  - by eapply publish_invariant.
  - eapply invariant_perm; [by symmetry|]. eapply (complete_invariant _ _ _ _ [] rest); [done..|]. by eapply invariant_perm.
  - eapply (release_invariant _ _ _ [] rest). by eapply invariant_perm.
  - by apply prune_invariant.
  - by eapply (invariant_views _ _ s).
  - by eapply (invariant_views _ _ s).
  - destruct (request_checks_views ids s) as (? & ? & ? & ? & Es & Ep). apply (invariant_views _ _ s); try done. intros id _. by rewrite Es, Ep.
  - unfold finish_check. case_bool_decide; [|done]. by eapply (invariant_views _ _ s).
Qed.

Lemma reachable_ok `{UuidText} inst clock w : rtc (step inst) (start clock) w → ok w.
Proof.
  intros Hr. pose proof (start_ok clock) as Hok. induction Hr as [|w1 w2 w3 Hs _ IH]; [done|]. apply IH. by eapply step_ok.
Qed.

(** What is known of a job that waits for something that is the case. *)
Definition taken_care_of (w : World) (job : ParkedWorkspaceJob) (epoch : Z) (h : CycleHistory) : Prop :=
  epoch ∈ h_consumed h ∨ (pk_payload job, epoch) ∈ h_attempted h ∨ is_Some (h_retry_after h !! epoch) ∨
  ∃ r, r ∈ w_out w ∧ rs_cycle r = for_job job ∧ rs_edge r = epoch.

(** C4: no wake-up is lost, however the watches, registrations, deliveries, failures,
    cancellations and prunings are interleaved. Whenever a registered job waits for
    something the view shows to be the case, its deadline has passed, or it was woken
    for this, or it was found to be parked no longer, or it is to be woken later, or a
    reservation for it is out. And an event after which something new is the case
    reserves every job that waits for it and is not past its deadline. *)
Theorem no_wake_up_is_lost `{UuidText} inst clock w : rtc (step inst) (start clock) w →
  (∀ id job, o_waiters (w_state w) !! id = Some job → is_Some (candidate_of (w_state w) job) →
     pk_until job <= w_clock w ∨
     ∃ edge h, edge_at (w_state w) job = Some edge ∧ o_cycles (w_state w) !! for_job job = Some h ∧ taken_care_of w job (ed_epoch edge) h) ∧
  (∀ object deleted now id job c, o_waiters (w_state w) !! id = Some job → now < pk_until job →
     candidate_of (update inst object deleted (w_state w)) job = Some c → candidate_of (w_state w) job ≠ Some c →
     ∃ r, r ∈ (observe_object inst object deleted now (w_state w)).1.1 ∧ rs_job r = job).
Proof.
  intros Hi%reachable_ok. destruct w as [s out clk]. unfold ok in Hi. cbn in *. split.
  - intros id job Hj Hc. destruct (i_history _ _ _ _ _ Hi id job Hj) as (h & Hh & _).
    destruct (i_edge _ _ _ _ _ Hi id job Hj (λ f, f)) as (edge & He & _).
    destruct (i_accounted _ _ _ _ _ Hi id job edge h Hj (λ f, f) (λ f, f) He Hc Hh) as [?|Ha]; [by left|right].
    exists edge, h. split_and!; [done..|]. destruct Ha as [?|[[p Hp]|[?|?]]]; [by left| |by right; left|by do 2 right; left].
    do 3 right. destruct (i_flight _ _ _ _ _ Hi _ _ _ _ Hh Hp) as (r & ? & ? & ? & _). by exists r.
  - intros object deleted now id job c Hj Hlt Hc Hold. destruct (i_key _ _ _ _ _ Hi id job Hj) as [<- _].
    destruct (i_edge _ _ _ _ _ Hi _ job Hj (λ f, f)) as (edge & He & Hce).
    by eapply observe_reserves.
Qed.

(** ** Deliveries are sequences of steps *)
Section Operations.
Context `{UuidText} (inst : string).

Definition steps_to (w : World) (s : State) (out : list Reservation) : Prop :=
  ∃ out' clock, out' ≡ₚ out ∧ rtc (step inst) w (mkWorld s out' clock).
Lemma steps_to_self s out out' clock : out' ≡ₚ out → steps_to (mkWorld s out' clock) s out.
Proof. intros Hp. exists out', clock. split; [done|apply rtc_refl]. Qed.
Lemma steps_to_trans w s out s' out' : steps_to w s out → (∀ out0 clock, out0 ≡ₚ out → steps_to (mkWorld s out0 clock) s' out') → steps_to w s' out'.
Proof. intros (out0 & clock & Hp & Hr) Hnext. destruct (Hnext out0 clock Hp) as (out1 & c & Hp1 & Hr1). exists out1, c. split; [done|]. by transitivity (mkWorld s out0 clock). Qed.
Lemma steps_to_step w s out out' clock : step inst w (mkWorld s out clock) → out ≡ₚ out' → steps_to w s out'.
Proof. intros Hs Hp. exists out, clock. split; [done|]. by apply rtc_once. Qed.

Lemma steps_to_perm w s out out' : out ≡ₚ out' → steps_to w s out → steps_to w s out'.
Proof. intros Hp (out0 & clock & Hp0 & Hr). exists out0, clock. split; [by rewrite Hp0|done]. Qed.

Lemma complete_all_steps rs awakened now s next s' acc out clock : complete_all rs awakened now s = (next, s') → out ≡ₚ rs ++ acc →
  steps_to (mkWorld s out clock) s' (next ++ acc).
Proof.
  revert s next s' acc out clock. induction rs as [|r rs IH]; intros s next s' acc out clock; cbn [complete_all].
  { intros [= <- <-] Hp. by apply steps_to_self. }
  destruct (complete r _ now s) as [n1 s1] eqn:E1. destruct (complete_all rs awakened now s1) as [n2 s2] eqn:E2. intros [= <- <-] Hp.
  eapply (steps_to_trans _ s1 (n1 ++ rs ++ acc)).
  - eapply steps_to_step; [|done]. by eapply (step_complete _ r _ now s out (rs ++ acc)).
  - intros out0 clock0 Hp0. apply (steps_to_perm _ _ (n2 ++ n1 ++ acc)); [by rewrite !app_assoc, (Permutation_app_comm n1 n2)|].
    apply (IH _ _ _ (n1 ++ acc) _ _ E2). rewrite Hp0. by rewrite !(app_assoc _ _ acc), (Permutation_app_comm n1 rs).
Qed.

Lemma deliver_batch_steps rounds rs s db rs' s' db' acc out clock : deliver_batch inst rounds rs s db = (rs', s', db') → out ≡ₚ rs ++ acc →
  steps_to (mkWorld s out clock) s' (rs' ++ acc).
Proof.
  revert rs s db out clock. induction rounds as [|round rounds IH]; intros rs s db out clock Hd Hp.
  { assert ((rs, s, db) = (rs', s', db')) as [= <- <- <-] by by destruct rs. by apply steps_to_self. }
  destruct rs as [|r rs]; [injection Hd as <- <- <-; by apply steps_to_self|]. cbn [deliver_batch] in Hd.
  destruct (wake_jobs inst round _ db) as [awakened db1]. destruct (complete_all _ awakened _ s) as [next s1] eqn:E.
  eapply steps_to_trans; [by eapply complete_all_steps|]. intros out0 clock0 Hp0. by eapply IH.
Qed.

Lemma release_all_steps rs now s acc out clock : out ≡ₚ rs ++ acc →
  steps_to (mkWorld s out clock) (foldl (λ s r, release_cancelled r now s) s rs) acc.
Proof.
  revert s out clock. induction rs as [|r rs IH]; intros s out clock Hp; [by apply steps_to_self|]. cbn [foldl].
  eapply (steps_to_trans _ _ (rs ++ acc)); [|intros out0 clock0 Hp0; by apply IH]. eapply steps_to_step; [|done]. by apply step_cancel.
Qed.

Lemma deliver_steps script rs s db s' db' acc out clock : deliver inst script rs s db = (s', db') → out ≡ₚ rs ++ acc → steps_to (mkWorld s out clock) s' acc.
Proof.
  unfold deliver. destruct (deliver_batch inst (sc_rounds script) rs s db) as [[rs' s1] db1] eqn:E. intros [= <- <-] Hp.
  eapply steps_to_trans; [by eapply deliver_batch_steps|]. intros out0 clock0 Hp0. by apply release_all_steps.
Qed.

(** ** A delivery that is left alone ends *)

(** The reservation is for the waiter, and for what is the case now. *)
Definition current (s : State) (r : Reservation) : Prop :=
  rs_cycle r = for_job (rs_job r) ∧ o_waiters s !! pk_id (rs_job r) = Some (rs_job r) ∧
  ∃ edge, edge_at s (rs_job r) = Some edge ∧ ed_epoch edge = rs_edge r.
Definition keyed (s : State) : Prop := ∀ id job, o_waiters s !! id = Some job → pk_id job = id.

Lemma complete_keeps r result now s rs s' : complete r result now s = (rs, s') → o_waiters s' = o_waiters s ∧ o_edges s' = o_edges s.
Proof.
  unfold complete. destruct (o_cycles s !! rs_cycle r) as [h|]; [|by intros [= <- <-]]. destruct (is_reserved r h); [|by intros [= <- <-]]. cbn.
  destruct (o_waiters s !! _) as [job|]; [|by intros [= <- <-]]. destruct (reserve job now _) as [o s1] eqn:E. intros [= <- <-].
  by apply reserve_inv in E as [(_ & -> & _)|(edge & h' & _ & _ & _ & _ & _ & _ & ->)].
Qed.
Lemma complete_current r result now s rs s' r' : keyed s → complete r result now s = (rs, s') → r' ∈ rs → current s' r'.
Proof.
  intros Hkey Hc Hr'. unfold current. destruct (complete_keeps _ _ _ _ _ _ Hc) as [-> Ee]. unfold edge_at. rewrite Ee. revert Hc.
  unfold complete. destruct (o_cycles s !! rs_cycle r) as [h|]; [|intros [= <- <-]; by apply not_elem_of_nil in Hr'].
  destruct (is_reserved r h); [|intros [= <- <-]; by apply not_elem_of_nil in Hr']. cbn.
  destruct (o_waiters s !! _) as [job|] eqn:Hj; [|intros [= <- <-]; by apply not_elem_of_nil in Hr'].
  destruct (reserve job now _) as [o s1] eqn:E. intros [= <- <-].
  apply reserve_inv in E as [(-> & _)|(edge & h' & He & _ & _ & _ & _ & -> & _)]; [by apply not_elem_of_nil in Hr'|].
  apply list_elem_of_singleton in Hr' as ->. cbn. split_and!; [done| |by exists edge]. by rewrite (Hkey _ _ Hj).
Qed.

Lemma recorded_handled r result now h : now + REPAIR_SECONDS <= i64_max →
  handled (recorded r result now h) (pk_payload (rs_job r)) (rs_edge r) now = true.
Proof.
  intros Hmax. unfold handled. destruct result as [[]|]; cbn.
  - rewrite bool_decide_eq_true_2 by set_solver. done.
  - rewrite (bool_decide_eq_true_2 (_ ∈ _ :: _)) by left. by rewrite orb_true_r.
  - rewrite lookup_insert_eq. cbn. rewrite (proj2 (Z.ltb_lt _ _)); [by rewrite orb_true_r|].
    unfold saturating_add_i64, REPAIR_SECONDS, clamp_i64 in *. lia.
Qed.
Lemma complete_ends r result now s : current s r → now + REPAIR_SECONDS <= i64_max → (complete r result now s).1 = [].
Proof.
  intros (Hcy & Hj & edge & He & Hep) Hmax. unfold complete. destruct (o_cycles s !! rs_cycle r) as [h|]; [|done].
  destruct (is_reserved r h); [|done]. cbn. rewrite Hj. set (s1 := set_cycles _ s). destruct (reserve (rs_job r) now s1) as [o s2] eqn:E.
  apply reserve_inv in E as [(-> & _)|(edge' & h' & He' & _ & Hh' & _ & Hn & _)]; [done|]. exfalso.
  change (edge_at s (rs_job r) = Some edge') in He'. assert (edge' = edge) as -> by congruence. unfold s1 in Hh'. cbn in Hh'.
  rewrite <-Hcy, lookup_insert_eq in Hh'. injection Hh' as <-. rewrite Hep, recorded_handled in Hn by done. done.
Qed.

Lemma complete_all_keeps rs awakened now s next s' : complete_all rs awakened now s = (next, s') → o_waiters s' = o_waiters s ∧ o_edges s' = o_edges s.
Proof.
  revert s next s'. induction rs as [|r rs IH]; intros s next s'; cbn [complete_all]; [by intros [= <- <-]|].
  destruct (complete r _ now s) as [n1 s1] eqn:E1. destruct (complete_all rs awakened now s1) as [n2 s2] eqn:E2. intros [= <- <-].
  destruct (IH _ _ _ E2) as [-> ->]. by eapply complete_keeps.
Qed.
Lemma current_same s s' r : o_waiters s' = o_waiters s → o_edges s' = o_edges s → current s r → current s' r.
Proof. unfold current, edge_at. by intros -> ->. Qed.

Lemma complete_all_current rs awakened now s next s' : keyed s → complete_all rs awakened now s = (next, s') → ∀ r, r ∈ next → current s' r.
Proof.
  revert s next s'. induction rs as [|r0 rs IH]; intros s next s' Hkey; cbn [complete_all]; [by intros [= <- <-] r ?%not_elem_of_nil|].
  destruct (complete r0 _ now s) as [n1 s1] eqn:E1. destruct (complete_all rs awakened now s1) as [n2 s2] eqn:E2. intros [= <- <-] r.
  destruct (complete_all_keeps _ _ _ _ _ _ E2) as [Hw2 He2]. destruct (complete_keeps _ _ _ _ _ _ E1) as [Hw1 _].
  rewrite elem_of_app. intros [Hr|Hr]; [eapply current_same; [done..|]; by eapply complete_current|].
  eapply IH; [|done..]. unfold keyed. by rewrite Hw1.
Qed.
Lemma complete_all_ends rs awakened now s : (∀ r, r ∈ rs → current s r) → now + REPAIR_SECONDS <= i64_max → (complete_all rs awakened now s).1 = [].
Proof.
  revert s. induction rs as [|r rs IH]; intros s Hcur Hmax; cbn [complete_all]; [done|].
  match goal with |- context [complete r ?x now s] => pose proof (complete_ends r x now s (Hcur r ltac:(left)) Hmax) as E0 end.
  destruct (complete r _ now s) as [n1 s1] eqn:E1. destruct (complete_all rs awakened now s1) as [n2 s2] eqn:E2. cbn in E0. subst n1. cbn.
  destruct (complete_keeps _ _ _ _ _ _ E1) as [Hw He]. replace n2 with (complete_all rs awakened now s1).1 by by rewrite E2. apply IH; [|done].
  intros r' Hr'. eapply current_same; [done..|]. apply Hcur. by right.
Qed.

Lemma deliver_batch_ends rounds rs s db : keyed s → (2 <= length rounds)%nat → Forall (λ round, rd_done round + REPAIR_SECONDS <= i64_max) rounds →
  (deliver_batch inst rounds rs s db).1.1 = [].
Proof.
  intros Hkey Hlen Hmax. destruct rounds as [|r1 [|r2 rounds]]; [cbn in Hlen; lia..|]. destruct rs as [|r rs]; [done|]. cbn [deliver_batch].
  destruct (wake_jobs inst r1 _ db) as [aw1 db1]. destruct (complete_all (r :: rs) aw1 _ s) as [next s1] eqn:E1.
  destruct next as [|n next]; [done|]. destruct (wake_jobs inst r2 _ db1) as [aw2 db2].
  destruct (complete_all (n :: next) aw2 _ s1) as [next2 s2] eqn:E2.
  assert (next2 = []) as ->; [|by destruct rounds]. replace next2 with (complete_all (n :: next) aw2 (rd_done r2) s1).1 by by rewrite E2.
  apply complete_all_ends; [by eapply complete_all_current|]. by inversion Hmax as [|??? H2]; inversion H2.
Qed.

(** The delivery of wake-ups ends: unless other tasks register jobs or see changes
    meanwhile, it asks the database at most twice, whatever is answered and whether
    or not the calls fail. However it ends, also when its time is up, what it had
    reserved is no longer in flight: the entries that are left belong to other
    deliveries. *)
Theorem delivery_ends clock w reservations others db script : rtc (step inst) (start clock) w → w_out w ≡ₚ reservations ++ others →
  ((2 <= length (sc_rounds script))%nat → Forall (λ round, rd_done round + REPAIR_SECONDS <= i64_max) (sc_rounds script) →
     (deliver_batch inst (sc_rounds script) reservations (w_state w) db).1.1 = []) ∧
  ∀ cycle h epoch payload, o_cycles (deliver inst script reservations (w_state w) db).1 !! cycle = Some h → h_in_flight h !! epoch = Some payload →
    ∃ r, r ∈ others ∧ rs_cycle r = cycle ∧ rs_edge r = epoch ∧ pk_payload (rs_job r) = payload.
Proof.
  intros Hr Hp. pose proof (reachable_ok _ _ _ Hr) as Hi. destruct w as [s out clk]. cbn in *. unfold ok in Hi. cbn in Hi. split.
  - intros Hlen Hmax. apply deliver_batch_ends; [|done..]. intros id job Hj. by apply (i_key _ _ _ _ _ Hi id job Hj).
  - destruct (deliver inst script reservations s db) as [s' db'] eqn:E. cbn. destruct (deliver_steps _ _ _ _ _ _ _ _ clk E Hp) as (out' & c & Hp' & Hr').
    intros cycle h epoch payload Hh Hf. assert (ok (mkWorld s' out' c)) as Hi' by (eapply reachable_ok; by etransitivity).
    destruct (i_flight _ _ _ _ _ Hi' cycle h epoch payload Hh Hf) as (r & Hin & ?). exists r. split; [by rewrite <-Hp'|done].
Qed.

(** ** Registering a job that need not wait *)

(** Tickets are drawn from a counter. *)
Definition tickets_drawn (s : State) : Prop := ∀ id ticket, o_waiter_tickets s !! id = Some ticket → ticket <= o_registration_ticket s.
(** Nothing else draws or hands out tickets. *)
Definition same_tickets (s s' : State) : Prop := o_waiter_tickets s' = o_waiter_tickets s ∧ o_registration_ticket s' = o_registration_ticket s.
Lemma reserve_tickets job now s : same_tickets s (reserve job now s).2.
Proof. destruct (reserve job now s) as [o s'] eqn:E. by apply reserve_inv in E as [(_ & -> & _)|(? & ? & _ & _ & _ & _ & _ & _ & ->)]. Qed.
Lemma same_tickets_trans s1 s2 s3 : same_tickets s1 s2 → same_tickets s2 s3 → same_tickets s1 s3.
Proof. intros [] []. split; congruence. Qed.
Lemma refresh_workspace_tickets id now s : same_tickets s (refresh_workspace id now s).2.
Proof.
  unfold refresh_workspace. destruct (refresh_edges_spec id (elements (edge_keys id s)) s (NoDup_elements _)) as [Honly _].
  set (s1 := foldr _ _ _) in *. assert (same_tickets s s1) as Hs by by rewrite Honly. clearbody s1. clear Honly.
  revert s1 Hs. induction (waiting_jobs id s) as [|job jobs IH]; intros s1 Hs; cbn [reserve_all]; [done|].
  pose proof (reserve_tickets job now s1) as Ht. destruct (reserve job now s1) as [o s2]. specialize (IH s2 (same_tickets_trans _ _ _ Hs Ht)).
  by destruct (reserve_all jobs now s2).
Qed.
Lemma refresh_each_tickets ids now s : same_tickets s (refresh_each ids now s).2.
Proof.
  revert s. induction ids as [|id ids IH]; intros s; cbn [refresh_each]; [done|]. pose proof (refresh_workspace_tickets id now s) as Ht.
  destruct (refresh_workspace id now s) as [rs s1]. specialize (IH s1). destruct (refresh_each ids now s1). by eapply same_tickets_trans.
Qed.
Lemma complete_tickets r result now s : same_tickets s (complete r result now s).2.
Proof.
  unfold complete. destruct (o_cycles s !! _); [|done]. destruct (is_reserved r _); [|done]. cbn. destruct (o_waiters s !! _) as [job|]; [|done].
  set (s1 := set_cycles _ s). pose proof (reserve_tickets job now s1) as Ht. by destruct (reserve job now s1).
Qed.
Lemma tickets_drawn_same s s' : same_tickets s s' → tickets_drawn s → tickets_drawn s'.
Proof. unfold tickets_drawn. by intros [-> ->]. Qed.

Lemma request_checks_tickets ids s : tickets_drawn s → tickets_drawn (request_checks ids s).2.
Proof.
  revert s. induction ids as [|id ids IH]; intros s Hs; cbn [request_checks]; [done|]. destruct (runtime_ready s id); [by apply IH|].
  assert (tickets_drawn (request_ready_check id s)) as Hs' by (intros id' ticket Ht; specialize (Hs id' ticket Ht); cbn; lia).
  specialize (IH _ Hs'). by destruct (request_checks ids (request_ready_check id s)).
Qed.

Lemma step_tickets w w' : step inst w w' → tickets_drawn (w_state w) → tickets_drawn (w_state w').
Proof.
  intros Hs Ht. destruct Hs as [job now ticket s out clock rs s' _ Hle Hr|object deleted now s out clock rs check s' Hr|pods snapshot now s out clock rs s' Hr|r result now s out rest out' clock rs s' _ Hr _|r now s out rest clock _|now s out clock|s out clock|pending s out clock|ids s out clock|id ticket s out clock]; cbn in *.
  - unfold register_at in Hr. destruct (_ || _); [by injection Hr as <- <-|]. set (s1 := set_cycles _ _) in *.
    pose proof (refresh_workspace_tickets (pk_workspace_id job) now s1) as Hsame. rewrite Hr in Hsame. apply (tickets_drawn_same _ _ Hsame).
    intros id t. cbn. intros [[_ <-]|[_ Hi]]%lookup_insert_Some; [done|by eapply Ht].
  - unfold observe_object in Hr. destruct (update_tickets inst object deleted s) as [Ew Er]. set (s1 := update inst object deleted s) in *.
    destruct (observed_id inst object) as [id|]; [|injection Hr as _ _ <-; unfold tickets_drawn; by rewrite Ew, Er].
    set (s2 := if negb (runtime_ready s1 id) then _ else s1) in *. pose proof (refresh_workspace_tickets id now s2) as Hsame.
    destruct (refresh_workspace id now s2) as [rs2 s3]. injection Hr as _ _ <-. apply (tickets_drawn_same _ _ Hsame).
    intros id' t. unfold s2. destruct (negb _); cbn; rewrite Ew, Er; intros Hi; specialize (Ht _ _ Hi); lia.
  - unfold publish, refresh_all in Hr. match type of Hr with refresh_each ?ids _ ?st = _ => pose proof (refresh_each_tickets ids now st) as Hsame end.
    rewrite Hr in Hsame. apply (tickets_drawn_same _ _ Hsame). by destruct pods.
  - pose proof (complete_tickets r result now s) as Hsame. rewrite Hr in Hsame. by apply (tickets_drawn_same _ _ Hsame).
  - unfold release_cancelled. destruct (o_cycles s !! _); [|done]. by destruct (is_reserved r _).
  - intros id t. cbn. intros [Hi _]%map_lookup_filter_Some. by eapply Ht.
  - intros id t Hi. specialize (Ht _ _ Hi). cbn. lia.
  - done.
  - by apply request_checks_tickets.
  - unfold finish_check. by case_bool_decide.
Qed.
Lemma reachable_tickets clock w : rtc (step inst) (start clock) w → tickets_drawn (w_state w).
Proof.
  intros Hr. assert (tickets_drawn (w_state (start clock))) as Hok by by intros id t; cbn; rewrite lookup_empty.
  induction Hr as [|w1 w2 w3 Hs _ IH]; [done|]. apply IH. by eapply step_tickets.
Qed.

Lemma get_parked_inv id now db d db' : get_parked_workspace_job inst id now db = (Ok (Some d), db') →
  db' = db ∧ ∃ r, t_jobs db !! id = Some r ∧ pk_id d = id ∧ pk_payload d = j_payload r ∧ pk_until d = j_available_at r ∧ now < j_available_at r ∧
    j_installation_id r = inst ∧ j_kind r = "reconcile_workspace" ∧ j_status r = JobPending.
Proof.
  unfold get_parked_workspace_job, reads. intros [= Hd <-]. split; [done|]. destruct (t_jobs db !! id) as [r|] eqn:Hr; [|done]. exists r. split; [done|].
  cbn in Hd. unfold parked_of_row in Hd. destruct (parked_candidate inst now db r) as [[wid w]|] eqn:Hc; [|done]. cbn in Hd.
  assert (pk_id d = id ∧ pk_payload d = j_payload r ∧ pk_until d = j_available_at r) as (? & ? & ?).
  { unfold decode_parked_job_fields in Hd. repeat (match type of Hd with
      | (match ?x with _ => _ end) = _ => destruct x eqn:?; cbn in Hd
      | mbind _ ?x = _ => destruct x eqn:?; cbn in Hd end; try done); injection Hd as <-; done. }
  unfold parked_candidate in Hc. destruct (j_workspace_id r) as [wid'|]; [|done]. cbn in Hc. destruct (t_workspaces db !! wid'); [|done]. cbn in Hc.
  destruct (_ && _) eqn:E in Hc; [|done]. rewrite !andb_true_iff, !bool_decide_eq_true, !String.eqb_eq, Z.ltb_lt in E. by destruct E as [[[[[[[]]]]]]].
Qed.

(** A job whose turn has come stays so. *)
Definition due_by (at_ : Z) (id : Uuid) (db : Db) : Prop := ∃ r, t_jobs db !! id = Some r ∧ j_installation_id r = inst ∧ j_status r = JobPending ∧ j_available_at r <= at_.
Lemma wake_keeps_due at_ id round jobs db : due_by at_ id db → due_by at_ id (wake_jobs inst round jobs db).2.
Proof.
  intros Hdue. unfold wake_jobs. rewrite wake_run. assert (due_by at_ id (set_t_jobs (map_imap (λ id r, Some (if wakes inst jobs (rd_wake round) id r
    then available_now (rd_wake round) r else r)) (t_jobs db)) db)) as Hdue'; [|by destruct (rd_fault round)].
  destruct Hdue as (r & Hr & Hi & Hs & Ha). destruct (wakes inst jobs (rd_wake round) id r) eqn:Hw.
  - exists (available_now (rd_wake round) r). cbn. rewrite map_lookup_imap, Hr. cbn. rewrite Hw. split_and!; [done..|].
    unfold wakes in Hw. apply existsb_exists in Hw as (c & _ & Hm). unfold wake_matches in Hm. rewrite !andb_true_iff, Z.ltb_lt in Hm. lia.
  - exists r. cbn. rewrite map_lookup_imap, Hr. cbn. by rewrite Hw.
Qed.
Lemma deliver_batch_keeps_due at_ id rounds rs s db : due_by at_ id db → due_by at_ id (deliver_batch inst rounds rs s db).2.
Proof.
  revert rs s db. induction rounds as [|round rounds IH]; intros rs s db Hdue; [by destruct rs|]. destruct rs as [|r rs]; [done|].
  cbn [deliver_batch]. pose proof (wake_keeps_due _ _ round (rs_job <$> r :: rs) _ Hdue) as Hdue'. destruct (wake_jobs inst round _ db) as [aw db1].
  destruct (complete_all _ aw _ s) as [next s1]. by apply IH.
Qed.

(** Among those of a batch, a job that is still parked is woken. *)
Lemma deliver_wakes round rounds cancelled rs s db r d row : r ∈ rs → rs_job r = d → rd_fault round = NoFault → rd_wake round < pk_until d →
  t_jobs db !! pk_id d = Some row → pk_payload d = j_payload row → pk_until d = j_available_at row → j_installation_id row = inst →
  j_kind row = "reconcile_workspace" → j_status row = JobPending →
  due_by (rd_wake round) (pk_id d) (deliver inst (mkScript (round :: rounds) cancelled) rs s db).2.
Proof.
  intros Hr Hd Hf Hlt Hrow Hp Hu Hi Hk Hs. unfold deliver. cbn [sc_rounds]. destruct rs as [|r0 rs]; [by apply not_elem_of_nil in Hr|].
  cbn [deliver_batch]. set (jobs := rs_job <$> r0 :: rs). assert (wakes inst jobs (rd_wake round) (pk_id d) row = true) as Hw.
  { apply existsb_exists. exists d. split; [apply list_elem_of_In, list_elem_of_fmap; by exists r|].
    unfold wake_matches. rewrite !andb_true_iff, !bool_decide_eq_true, !String.eqb_eq, Z.ltb_lt, Z.eqb_eq. split_and!; try done. lia. }
  assert (due_by (rd_wake round) (pk_id d) (wake_jobs inst round jobs db).2) as Hdue.
  { clearbody jobs. unfold wake_jobs. rewrite wake_run, Hf. exists (available_now (rd_wake round) row). cbn. rewrite map_lookup_imap, Hrow. cbn.
    rewrite Hw. split_and!; [done..|lia]. }
  destruct (wake_jobs inst round jobs db) as [aw db1]. destruct (complete_all _ aw _ s) as [next s1].
  pose proof (deliver_batch_keeps_due _ _ rounds next s1 db1 Hdue) as Hdue'. revert Hdue'. by destruct (deliver_batch inst rounds next s1 db1) as [[]].
Qed.

(** A job that is parked when its workspace already is as desired does not wait:
    registering it, for the first time in its cycle, makes it due at once, at the time
    of the database call, though the watch will never report what it waits for
    again. *)
Theorem ready_job_does_not_wait clock w id now db d c round rounds cancelled : rtc (step inst) (start clock) w →
  get_parked_workspace_job inst id now db = (Ok (Some d), db) → in_scope d →
  candidate_of (w_state w) d = Some c → o_cycles (w_state w) !! for_job d = None → rd_fault round = NoFault → rd_wake round < pk_until d →
  let '(result, _, db') := register inst (mkScript (round :: rounds) cancelled) id now (w_state w) db in
  result = Ok () ∧ due_by (rd_wake round) id db'.
Proof.
  intros Hr Hget Hin Hc Hnew Hf Hlt. pose proof (reachable_ok _ _ _ Hr) as Hi. pose proof (reachable_tickets _ _ Hr) as Ht.
  destruct w as [s out clk]. unfold ok in Hi. cbn [w_state w_out w_clock] in *. destruct (get_parked_inv _ _ _ _ _ Hget) as (_ & row & Hrow & Hid & Hp & Hu & Hav & Hinst & Hk & Hst).
  unfold register. cbn [next_ticket]. rewrite Hget. set (ticket := o_registration_ticket s + 1). set (s1 := set_checks ticket (o_ready_checks s) s).
  unfold register_at. rewrite (proj2 (Z.leb_gt _ _)) by lia.
  assert (is_some_and (o_waiter_tickets s1 !! pk_id d) (λ current, ticket <? current) = false) as ->.
  { cbn. destruct (o_waiter_tickets s !! pk_id d) as [t|] eqn:E; [|done]. cbn. apply Ht in E. apply Z.ltb_ge. unfold ticket. lia. }
  cbn [orb]. assert (invariant none none s1 out clk) as Hi1 by by eapply (invariant_views _ _ s).
  pose proof (add_waiter_invariant d ticket s1 out clk Hin Hi1) as Hi2. change (o_cycles s1 !! for_job d) with (o_cycles s !! for_job d) in *. rewrite Hnew in *.
  set (s2 := set_cycles _ _) in *.
  destruct (refresh_workspace_wakes _ _ s2 _ _ now d c (renewed_history d new_history) Hi2) as (r & Hres & Hrd); cbn.
  - by rewrite lookup_insert_eq.
  - lia.
  - exact Hc.
  - by rewrite lookup_insert_eq.
  - intros (payload & [Hm|[[? Hm]|[Hm|[? Hm]]]]); cbn in Hm; [set_solver|by rewrite lookup_empty in Hm|by apply not_elem_of_nil in Hm|by rewrite lookup_empty in Hm].
  - destruct (refresh_workspace (pk_workspace_id d) now s2) as [rs s3]. cbn in Hres.
    pose proof (deliver_wakes round rounds cancelled rs s3 db r d row Hres Hrd Hf Hlt) as Hdue. rewrite Hid in Hdue. specialize (Hdue Hrow Hp Hu Hinst Hk Hst).
    destruct (deliver inst _ rs s3 db) as [s4 db4]. done.
Qed.

(** ** Checks of workspaces that lost their Pod *)

(** Waking jobs changes neither the view nor the hints. *)
Definition same_view (s s' : State) : Prop := o_sets s' = o_sets s ∧ o_pods s' = o_pods s ∧ o_ready_checks s' = o_ready_checks s.
Lemma same_view_trans s1 s2 s3 : same_view s1 s2 → same_view s2 s3 → same_view s1 s3.
Proof. intros (? & ? & ?) (? & ? & ?). split_and!; congruence. Qed.
Lemma reserve_view job now s : same_view s (reserve job now s).2.
Proof. destruct (reserve job now s) as [o s'] eqn:E. by apply reserve_inv in E as [(_ & -> & _)|(? & ? & _ & _ & _ & _ & _ & _ & ->)]. Qed.
Lemma refresh_workspace_view id now s : same_view s (refresh_workspace id now s).2.
Proof.
  unfold refresh_workspace. destruct (refresh_edges_spec id (elements (edge_keys id s)) s (NoDup_elements _)) as [Honly _].
  set (s1 := foldr _ _ _) in *. assert (same_view s s1) as Hs by by rewrite Honly. clearbody s1. clear Honly.
  revert s1 Hs. induction (waiting_jobs id s) as [|job jobs IH]; intros s1 Hs; cbn [reserve_all]; [done|].
  pose proof (reserve_view job now s1) as Ht. destruct (reserve job now s1) as [o s2]. specialize (IH s2 (same_view_trans _ _ _ Hs Ht)).
  by destruct (reserve_all jobs now s2).
Qed.
Lemma complete_view r result now s : same_view s (complete r result now s).2.
Proof.
  unfold complete. destruct (o_cycles s !! _); [|done]. destruct (is_reserved r _); [|done]. cbn. destruct (o_waiters s !! _) as [job|]; [|done].
  set (s1 := set_cycles _ s). pose proof (reserve_view job now s1) as Ht. by destruct (reserve job now s1).
Qed.
Lemma complete_all_view rs awakened now s : same_view s (complete_all rs awakened now s).2.
Proof.
  revert s. induction rs as [|r rs IH]; intros s; cbn [complete_all]; [done|].
  match goal with |- context [complete r ?x now s] => pose proof (complete_view r x now s) as Hv end.
  destruct (complete r _ now s) as [n1 s1]. specialize (IH s1). destruct (complete_all rs awakened now s1). by eapply same_view_trans.
Qed.
Lemma deliver_view script rs s db : same_view s (deliver inst script rs s db).1.
Proof.
  unfold deliver. assert (same_view s (deliver_batch inst (sc_rounds script) rs s db).1.2) as Hv.
  { revert rs s db. induction (sc_rounds script) as [|round rounds IH]; intros rs s db; [by destruct rs|]. destruct rs as [|r rs]; [done|].
    cbn [deliver_batch]. destruct (wake_jobs inst round _ db) as [aw db1]. pose proof (complete_all_view (r :: rs) aw (rd_done round) s) as Hc.
    destruct (complete_all (r :: rs) aw _ s) as [next s1]. by eapply same_view_trans; [|apply IH]. }
  destruct (deliver_batch inst _ rs s db) as [[rs' s1] db1]. cbn in *. revert s1 Hv. induction rs' as [|r rs' IH]; intros s1 Hv; cbn [foldl]; [done|].
  apply IH. eapply same_view_trans; [done|]. unfold release_cancelled. destruct (o_cycles s1 !! _); [|done]. by destruct (is_reserved r _).
Qed.
Lemma runtime_ready_view s s' id : same_view s s' → runtime_ready s' id = runtime_ready s id.
Proof. intros (Es & Ep & _). unfold runtime_ready, candidate. by rewrite Es, Ep. Qed.

Lemma enqueued_queues id now db db' : enqueue_ready_workspace_observation inst id now db = (Ok true, db') → reconcile_queued inst id db' = true.
Proof.
  rewrite watch_run. destruct (ready_row inst id db) as [row|]; [|done]. destruct (reconcile_queued inst id db); [done|].
  destruct (t_jobs db !! _); [done|]. intros [= <-]. apply reconcile_queued_true. eexists _, _. split; [apply lookup_insert_eq|].
  unfold reconcile_active. rewrite !andb_true_iff, !bool_decide_eq_true, !String.eqb_eq. cbn. auto.
Qed.
Lemma get_workspace_reads id db : (get_workspace inst id db).2 = db.
Proof.
  unfold get_workspace. rewrite bind_run, select_workspace_run. destruct (t_workspaces db !! id) as [row|]; [|done]. destruct (String.eqb _ _); [|done].
  cbn. unfold lift. by destruct (decode_workspace id row).
Qed.

(** What becomes of a hint. *)
Definition hint_settled (id : Uuid) (s : State) (db : Db) : Prop :=
  is_Some (o_ready_checks s !! id) ∨ reconcile_queued inst id db = true ∨ (get_workspace inst id db).1 = Err StorageError.WorkspaceNotFound ∨
  ∃ w, (get_workspace inst id db).1 = Ok w ∧ ws_state w ∉ [Ready; Provisioning; Starting; Restarting].
Lemma deliver_ready_check_settles id ticket now s db : runtime_ready s id = false → o_ready_checks s !! id = Some ticket →
  let '(s', db') := deliver_ready_check inst id ticket now s db in hint_settled id s' db'.
Proof.
  intros Hn Ht. unfold deliver_ready_check. destruct (enqueue_ready_workspace_observation inst id now db) as [[[]|e] db1] eqn:E; cbn [check_settled].
  - right. left. by eapply enqueued_queues.
  - pose proof (get_workspace_reads id db1) as Hdb. destruct (get_workspace inst id db1) as [[w|e] db2] eqn:Eg; cbn in Hdb; subst db2.
    + rewrite Hn, orb_false_r. destruct (ws_state w) eqn:Es; cbn; try (left; by rewrite Ht); do 3 right; exists w; rewrite Eg, Es; (split; [done|]);
        rewrite !not_elem_of_cons; split_and!; try done; apply not_elem_of_nil.
    + destruct e; try (left; by rewrite Ht). do 2 right. left. by rewrite Eg.
  - left. by rewrite Ht.
Qed.

(** C5: A ready workspace that loses its Pod is noticed. After an event that leaves the
    workspace without its current ready Pod, a reconciliation of it is queued or
    running, or the workspace is gone or no longer one that runs, or the hint is
    kept and delivered again with the next repair. The database calls that wake other
    jobs in between do not matter, nor whether they fail. *)
Theorem lost_pod_is_checked script object deleted now s db id : observed_id inst object = Some id →
  runtime_ready (update inst object deleted s) id = false →
  let '(s', db') := apply_object inst script object deleted now s db in hint_settled id s' db'.
Proof.
  intros Hid Hn. unfold apply_object, observe_object. rewrite Hid. set (s1 := update inst object deleted s) in *. rewrite Hn. cbn [negb].
  set (s2 := request_ready_check id s1). assert (o_ready_checks s2 !! id = Some (o_registration_ticket s1 + 1)) as Ht by (cbn; by rewrite lookup_insert_eq).
  rewrite Ht. cbn [fmap option_fmap option_map]. pose proof (refresh_workspace_view id now s2) as Hv. destruct (refresh_workspace id now s2) as [rs s3].
  pose proof (deliver_view script rs s3 db) as Hv'. destruct (deliver inst script rs s3 db) as [s4 db4]. cbn in Hv, Hv'.
  pose proof (same_view_trans _ _ _ Hv Hv') as Hview. apply deliver_ready_check_settles.
  - rewrite (runtime_ready_view _ _ _ Hview). exact Hn.
  - destruct Hview as (_ & _ & ->). exact Ht.
Qed.

(** ** The repair loop ends *)
Definition beyond (after : option Uuid) (ids : gset Uuid) : gset Uuid := filter (λ id, is_none_or after (λ cursor, (cursor <? id)%N) = true) ids.
Lemma beyond_smaller after ids cursor : cursor ∈ beyond after ids → (size (beyond (Some cursor) ids) < size (beyond after ids))%nat.
Proof.
  intros Hc. apply subset_size. assert (beyond (Some cursor) ids ⊆ beyond after ids) as Hsub.
  { intros id. unfold beyond in *. rewrite !elem_of_filter in *. destruct Hc as [Ha _]. intros [Hlt ?]. split; [|done]. cbn in Hlt.
    destruct after as [a|]; cbn in *; [|done]. apply N.ltb_lt in Ha, Hlt. apply N.ltb_lt. lia. }
  split; [done|]. intros Hsup. apply Hsup in Hc. unfold beyond in Hc. rewrite elem_of_filter in Hc. destruct Hc as [Hlt _]. cbn in Hlt.
  apply N.ltb_lt in Hlt. lia.
Qed.

Lemma deliver_ready_check_workspaces id ticket now s db : t_workspaces (deliver_ready_check inst id ticket now s db).2 = t_workspaces db.
Proof.
  unfold deliver_ready_check. destruct (enqueue_ready_workspace_observation inst id now db) as [[[]|e] db1] eqn:E; cbn [check_settled];
    apply (watch_keeps_workspaces inst id now) in E; [done| |done].
  pose proof (get_workspace_reads id db1) as Hdb. destruct (get_workspace inst id db1) as [[w|[]] db2]; cbn in Hdb; by subst db2.
Qed.
Lemma deliver_each_check_workspaces checks now s db : t_workspaces (deliver_each_check inst checks now s db).2 = t_workspaces db.
Proof.
  revert s db. induction checks as [|[id ticket] checks IH]; intros s db; cbn [deliver_each_check]; [done|].
  pose proof (deliver_ready_check_workspaces id ticket now s db) as Hw. destruct (deliver_ready_check inst id ticket now s db) as [s1 db1]. by rewrite IH.
Qed.

Lemma scan_ready_pages_ends fuel after now s db : (size (beyond after (dom (t_workspaces db))) < fuel)%nat →
  is_Some (scan_ready_pages inst fuel after now s db).
Proof.
  revert after s db. induction fuel as [|fuel IH]; intros after s db Hlt; [lia|]. cbn [scan_ready_pages].
  destruct (ready_workspace_ids inst after db) as [[page|e] db1] eqn:E; [|by eexists]. injection E as Hpage <-.
  destruct (request_checks page s) as [checks s1]. pose proof (deliver_each_check_workspaces checks now s1 db) as Hw.
  destruct (deliver_each_check inst checks now s1 db) as [s2 db2]. cbn in Hw. case_bool_decide as Hlen; [|by eexists].
  destruct (last page) as [cursor|] eqn:Hlast; [|by apply last_None in Hlast as ->]. apply IH. rewrite Hw.
  assert (cursor ∈ beyond after (dom (t_workspaces db))) as Hc; [|apply beyond_smaller in Hc; lia].
  apply last_Some_elem_of in Hlast. rewrite <-Hpage in Hlast. apply elem_of_take in Hlast as (i & Hi%list_elem_of_lookup_2 & _).
  rewrite merge_sort_Permutation in Hi. apply list_elem_of_fmap in Hi as ([id row] & -> & Hin%list_elem_of_In%filter_In). cbn.
  destruct Hin as [Hin Hb]. apply list_elem_of_In, elem_of_map_to_list in Hin. rewrite !andb_true_iff in Hb. unfold beyond.
  rewrite elem_of_filter, elem_of_dom. split; [apply Hb|by eexists].
Qed.

Lemma wake_jobs_dom round jobs db : dom (t_jobs (wake_jobs inst round jobs db).2) = dom (t_jobs db).
Proof.
  unfold wake_jobs. rewrite wake_run. assert (∀ f : Uuid → JobRow → JobRow, dom (map_imap (λ id r, Some (f id r)) (t_jobs db)) = dom (t_jobs db)) as Hd.
  { intros f. apply set_eq. intros id. rewrite !elem_of_dom, map_lookup_imap. by destruct (t_jobs db !! id). }
  destruct (rd_fault round); cbn; [apply Hd|done|apply Hd].
Qed.
Lemma deliver_dom script rs s db : dom (t_jobs (deliver inst script rs s db).2) = dom (t_jobs db).
Proof.
  unfold deliver. assert (dom (t_jobs (deliver_batch inst (sc_rounds script) rs s db).2) = dom (t_jobs db)) as Hd; [|by destruct (deliver_batch inst _ rs s db) as [[]]].
  revert rs s db. induction (sc_rounds script) as [|round rounds IH]; intros rs s db; [by destruct rs|]. destruct rs as [|r rs]; [done|].
  cbn [deliver_batch]. pose proof (wake_jobs_dom round (rs_job <$> r :: rs) db) as Hd. destruct (wake_jobs inst round _ db) as [aw db1].
  destruct (complete_all _ aw _ s) as [next s1]. rewrite IH. exact Hd.
Qed.

Lemma repair_pages_ends fuel scripts after now s db : (size (beyond after (dom (t_jobs db))) < fuel)%nat → is_Some (repair_pages inst fuel scripts after now s db).
Proof.
  revert after s db. induction fuel as [|fuel IH]; intros after s db Hlt; [lia|]. cbn [repair_pages next_ticket].
  destruct (list_parked_workspace_jobs inst after 256 now db) as [[page|e] db1] eqn:E; [|by eexists]. injection E as Hpage <-.
  destruct (register_page _ now _ _) as [rs s1]. pose proof (deliver_dom (scripts fuel) rs s1 db) as Hd.
  destruct (deliver inst (scripts fuel) rs s1 db) as [s2 db2]. cbn in Hd. destruct (pp_next page) as [cursor|] eqn:Hnext; [|by eexists]. apply IH. rewrite Hd.
  assert (cursor ∈ beyond after (dom (t_jobs db))) as Hc; [|apply beyond_smaller in Hc; lia].
  rewrite <-Hpage in Hnext. cbn [pp_next] in Hnext. case_bool_decide as Hlen; [|done]. apply fmap_Some in Hnext as ([id row] & Hlast%last_Some_elem_of & ->). cbn.
  unfold parked_page_rows in Hlast. apply elem_of_take in Hlast as (i & Hi%list_elem_of_lookup_2 & _). rewrite merge_sort_Permutation in Hi.
  apply list_elem_of_In, filter_In in Hi as [Hin Hb]. apply list_elem_of_In, elem_of_map_to_list in Hin. rewrite andb_true_iff in Hb. unfold beyond.
  rewrite elem_of_filter, elem_of_dom. split; [apply Hb|by eexists].
Qed.

Lemma beyond_size after ids : (size (beyond after ids) < S (size ids))%nat.
Proof. unfold beyond. assert (filter (λ id, is_none_or after (λ cursor, (cursor <? id)%N) = true) ids ⊆ ids) as Hs%subseteq_size by set_solver. lia. Qed.

(** A repair ends: it goes through the pages of ready workspaces and of parked jobs
    with a cursor that only moves on, though it wakes jobs and queues checks between
    the pages. *)
Theorem repair_ends scripts now s db : is_Some (repair inst scripts now s db).
Proof.
  unfold repair, scan_ready_after_relist. destruct (o_ready_scan_pending s).
  - destruct (scan_ready_pages_ends (S (size (t_workspaces db))) None now (set_listed (o_pods_listed s) (o_sets_listed s) false s) db) as [[[[[]|e] s1] db1] ->].
    { rewrite <-(size_dom (D := gset Uuid)). apply beyond_size. }
    + destruct (deliver_ready_checks inst now s1 db1) as [s2 db2]. apply repair_pages_ends. rewrite <-(size_dom (D := gset Uuid)). apply beyond_size.
    + by eexists.
  - destruct (deliver_ready_checks inst now s db) as [s2 db2]. apply repair_pages_ends. rewrite <-(size_dom (D := gset Uuid)). apply beyond_size.
Qed.
End Operations.
End Invariant.

(** ** Witnesses *)
Module ObservationSample.
#[export] Existing Instance decimal_uuid_text.
Definition scope_of (_ : Cycle) : Uuid * Z := (1%N, 1).
Definition job : ParkedWorkspaceJob := mkParked 11 1 (parked_payload 21 160 JobQueue.Sample.checkpoint) 160 7 100 1.
Definition labels : gmap string string := {[ OWNER_INSTALLATION_LABEL := "demo"; WORKSPACE_ID_LABEL := uuid_to_string 1 ]}.
Definition meta (annotations : gmap string string) : ObjectMeta :=
  mkMeta (Some ("w-" +:+ workspace_short_id_for 1)) (Some ns) (Some "set-uid") (Some "5") (Some 1) (Some labels) None None (Some annotations) None.
Definition object : Observed := ObservedSet (mkSet (meta ∅)
  (Some (mkSetSpec (Some 1) None None None (mkTemplate (Some (meta {[ GENERATION_ANNOTATION := "7" ]})) None) None))
  (Some (mkSetStatus 1 (Some 1) (Some 1) (Some 1) (Some "r1") (Some "r1")))).
(** The job is registered, then the set is seen to be ready. *)
Definition registered : list Reservation * State := register_at job 120 1 (next_ticket empty_state).2.
Definition seen : list Reservation * option (Uuid * Z) * State := observe_object "demo" object false 130 registered.2.
Definition waiting : World := mkWorld registered.2 (registered.1 ++ []) (Z.max 100 120).
Definition reserved : World := mkWorld seen.2 (seen.1.1 ++ w_out waiting) (Z.max (w_clock waiting) 130).

Lemma waiting_reachable : rtc (step scope_of "demo") (start 100) waiting.
Proof.
  eapply rtc_l; [apply step_ticket|]. apply rtc_once. apply (step_register scope_of "demo" job 120 1); [done|by vm_compute|apply surjective_pairing].
Qed.
Lemma reserved_reachable : rtc (step scope_of "demo") (start 100) reserved.
Proof.
  eapply rtc_r; [apply waiting_reachable|]. apply (step_observe scope_of "demo" object false 130 _ _ _ _ seen.1.2). fold seen. by destruct seen as [[]].
Qed.
(** A set that is ready, seen before any job is registered. *)
Definition ready : list Reservation * option (Uuid * Z) * State := observe_object "demo" object false 110 empty_state.
Definition ready_world : World := mkWorld ready.2 (ready.1.1 ++ []) (Z.max 100 110).
Lemma ready_reachable : rtc (step scope_of "demo") (start 100) ready_world.
Proof. apply rtc_once, (step_observe scope_of "demo" object false 110 _ _ _ _ ready.1.2). fold ready. by destruct ready as [[]]. Qed.
Definition parked : Db := (park_workspace_job "demo" 11 "a" (Object JobQueue.Sample.checkpoint) 160 120 JobQueue.Sample.db).2.
Definition round : Round := mkRound NoFault 125 126.
End ObservationSample.

Section Witnesses.
Import ObservationSample.

Lemma no_wake_up_is_lost_witness : o_waiters (w_state waiting) !! 11%N = Some job ∧ candidate_of (w_state waiting) job = None ∧
  ∃ r, r ∈ (observe_object "demo" object false 130 (w_state waiting)).1.1 ∧ rs_job r = job.
Proof.
  split; [vm_compute; reflexivity|]. split; [vm_compute; reflexivity|].
  destruct (no_wake_up_is_lost scope_of "demo" 100 waiting waiting_reachable) as [_ Hnew].
  eapply (Hnew object false 130 11%N job); [vm_compute; reflexivity|by vm_compute|vm_compute; reflexivity|by vm_compute].
Defined.

Lemma delivery_ends_witness : w_out reserved = seen.1.1 ∧ length seen.1.1 = 1%nat ∧
  (deliver_batch "demo" [round; round] seen.1.1 (w_state reserved) JobQueue.Sample.db).1.1 = [].
Proof.
  split; [vm_compute; reflexivity|]. split; [vm_compute; reflexivity|].
  apply (proj1 (delivery_ends scope_of "demo" 100 reserved seen.1.1 [] JobQueue.Sample.db (mkScript [round; round] 200) reserved_reachable
    ltac:(vm_compute; reflexivity))); [cbn; lia|]. repeat constructor; by vm_compute.
Defined.

Lemma ready_job_does_not_wait_witness : let '(result, _, db') := register "demo" (mkScript [round] 200) 11 120 (w_state ready_world) parked in
  result = Ok () ∧ due_by "demo" 125 11 db'.
Proof.
  eapply (ready_job_does_not_wait scope_of "demo" 100 ready_world 11 120 parked _ _ round [] 200 ready_reachable);
    [vm_compute; reflexivity|reflexivity|vm_compute; reflexivity|vm_compute; reflexivity|reflexivity|by vm_compute].
Defined.

Lemma lost_pod_is_checked_witness : let '(s, db) := apply_object "demo" (mkScript [] 200) object false 110 empty_state JobQueue.Sample.db in
  hint_settled "demo" 1 s db.
Proof.
  apply (lost_pod_is_checked "demo" (mkScript [] 200) object false 110 empty_state JobQueue.Sample.db 1); [vm_compute; reflexivity|vm_compute; reflexivity].
Defined.
End Witnesses.
