(* ===== verification/ClusterApply.v ===== *)
(** * Applying a workspace to the cluster ([src/kubernetes/client_apply.rs] with
    [client_apply/startup_gate.rs], [envoy_filter.rs])

    [apply_desired] brings the objects of a workspace to what the builder wants:
    inputs, identities, network policy, routes and the workload. What the builder
    wants is an argument ([DesiredResources], made by [Builder]): an object that is only sent is a
    [Manifest], its metadata with its JSON. Many requests are made at once; a schedule
    says how those of two methods alternate, so that the theorems hold for every
    interleaving, whatever the server answers.

    A new workload is created early, with a gate: every container mounts a ConfigMap
    that does not exist yet, so that none of them starts before it is created. *)
From S2P Require Import Prelude Text Json Quota Templates Workspaces Errors ShrinkOperation Quantity Database Reconcile Names WorkspaceResponse WorkloadApply KubeApi ShrinkCluster ClusterLifecycle.

(** ** What is wanted *)
Record Manifest := mkManifest { mf_metadata : ObjectMeta; mf_object : Value }.

(** [compressed_config_files] is given by its outcome. *)
Record InjectionMaterialization := mkInjections {
  im_environment_secret : Manifest;
  im_file_secret : Manifest;
  im_environment_config_map : Manifest;
  im_file_config_map : Manifest;
  im_compressed : result string Manifest;
}.

Record DesiredResources := mkDesired {
  dr_namespace : Manifest;
  dr_service : Manifest;
  dr_internal_ssh_service : option Manifest;
  dr_service_account : option Manifest;
  dr_cluster_role_binding : option Manifest;
  dr_stateful_set : StatefulSet;
  dr_scratch_claim : option Claim;
  dr_network_policy : Manifest;
  dr_injections : InjectionMaterialization;
  dr_workspace_config : Manifest;
  dr_ssh_identity : Manifest;
  dr_web_shell_ingress : option Manifest;
  dr_web_shell_envoy_filter : option Manifest;
}.

Definition MISSING_NAME : string := "desired Kubernetes object has no metadata.name".
Definition IDENTITY_MISMATCH : string := "desired Kubernetes resources do not match the persisted workspace runtime identity".
Definition SET_PENDING : string := "waiting for an immutable workspace StatefulSet to be recreated".
Definition SCRATCH_PENDING : string := "waiting for temporary scratch PVC removal or concurrent creation".
Definition NO_PRECONDITIONS : Preconditions := mkPreconditions None None.

(** ** The startup gate *)
Definition GATE_ANNOTATION : string := "workspace.memeloop.dev/startup-gate".
Definition GATE_VOLUME : string := "workspace-startup-gate".
Definition FILE_ENCODING_ANNOTATION : string := "workspace.memeloop.dev/file-encoding".
Definition FILE_ENCODING : string := "dictionary-v1".

Record StartupPlan := mkPlan {
  pl_workload : StatefulSet;
  pl_existing : option StatefulSet;
  pl_gate : option ConfigMap;
  pl_overlap : bool;
  pl_compress_files : bool;
}.

Definition uses_compressed_files (workload : StatefulSet) : result string bool :=
  if negb (is_some (annotation (ss_metadata workload) GATE_ANNOTATION)) then Ok false
  else
    match annotation (ss_metadata workload) FILE_ENCODING_ANNOTATION with
    | None => Ok false
    | Some value => if String.eqb value FILE_ENCODING then Ok true else Err IDENTITY_MISMATCH
    end.

Definition with_annotation (key value : string) (m : ObjectMeta) : ObjectMeta :=
  mkMeta (md_name m) (md_namespace m) (md_uid m) (md_resource_version m) (md_generation m) (md_labels m) (md_owner_references m)
    (md_deletion_timestamp m) (Some (<[key := value]> (default ∅ (md_annotations m)))) (md_creation_timestamp m).
Definition annotate_set (key value : string) (set : StatefulSet) : StatefulSet :=
  mkSet (with_annotation key value (ss_metadata set)) (ss_spec set) (ss_status set).
Definition with_name (name : string) (m : ObjectMeta) : ObjectMeta :=
  mkMeta (Some name) (md_namespace m) (md_uid m) (md_resource_version m) (md_generation m) (md_labels m) (md_owner_references m)
    (md_deletion_timestamp m) (md_annotations m) (md_creation_timestamp m).

Definition gate_volume (name : string) : PodVolume :=
  mkPodVolume GATE_VOLUME None None
    (json_object [("configMap", json_object
       [("name", Str name); ("optional", Bool false);
        ("items", Array [json_object [("key", Str "approved"); ("path", Str "approved"); ("mode", Number 292)]])])]).
Definition gate_mount : VolumeMount := mkMount GATE_VOLUME "/var/run/workspace-startup-gate" (Some true) Null.
Definition mount_gate (container : Container) : Container :=
  mkContainer (ct_name container) (ct_image container) (ct_command container) (ct_args container) (ct_env container) (ct_env_from container)
    (Some (default [] (ct_volume_mounts container) ++ [gate_mount])) (ct_security_context container) (ct_resources container)
    (ct_termination_message_policy container) (ct_other container).
Definition gate_pod (name : string) (pod : PodSpec) : PodSpec :=
  mkPodSpec (ps_restart_policy pod) (ps_active_deadline_seconds pod) (ps_automount_service_account_token pod) (ps_enable_service_links pod)
    (ps_security_context pod) (mount_gate <$> ps_containers pod) (map mount_gate <$> ps_init_containers pod) (ps_ephemeral_containers pod)
    (Some (default [] (ps_volumes pod) ++ [gate_volume name])) (ps_host_network pod) (ps_host_pid pod) (ps_host_ipc pod) (ps_node_name pod)
    (ps_service_account_name pod) (ps_other pod).
Definition set_pod_spec (pod : PodSpec) (spec : SetSpec) : SetSpec :=
  mkSetSpec (ss_replicas spec) (ss_service_name spec) (ss_match_labels spec) (ss_retention spec) (mkTemplate (pt_metadata (ss_template spec)) (Some pod)) (ss_claim_templates spec).

Definition add_gate (workload : StatefulSet) (name : string) : result string StatefulSet :=
  let workload := annotate_set GATE_ANNOTATION name workload in
  match ss_spec workload with
  | Some spec =>
      match pt_spec (ss_template spec) with
      | Some pod => Ok (mkSet (ss_metadata workload) (Some (set_pod_spec (gate_pod name pod) spec)) (ss_status workload))
      | None => Err IDENTITY_MISMATCH
      end
  | None => Err IDENTITY_MISMATCH
  end.

(** ** The workload *)
Definition claim_labels_need_update (existing : Claim) (desired : option (gmap string string)) : bool :=
  is_some_and desired (λ labels, existsb (λ kv, negb (bool_decide (label (cl_metadata existing) kv.1 = Some kv.2))) (map_to_list labels)).

Definition set_storage_class (class : option string) (claim : Claim) : Claim :=
  mkClaim (cl_metadata claim)
    ((λ spec, mkClaimSpec (cs_access_modes spec) class (cs_volume_mode spec) (cs_volume_name spec) (cs_requests spec) (cs_data_source spec)
                (cs_data_source_ref spec)) <$> cl_spec claim) (cl_status claim).
Definition preserve_class (existing_claims : list Claim) (claim : Claim) : Claim :=
  match List.find (λ existing, is_some (md_name (cl_metadata claim)) && bool_decide (md_name (cl_metadata existing) = md_name (cl_metadata claim)))
          existing_claims with
  | Some existing => set_storage_class (cl_spec existing ≫= cs_storage_class_name) claim
  | None => claim
  end.
Definition preserve_claim_storage_classes (desired existing : StatefulSet) : StatefulSet :=
  let claims := default [] (ss_spec existing ≫= ss_claim_templates) in
  mkSet (ss_metadata desired)
    ((λ spec, mkSetSpec (ss_replicas spec) (ss_service_name spec) (ss_match_labels spec) (ss_retention spec) (ss_template spec) (map (preserve_class claims) <$> ss_claim_templates spec))
     <$> ss_spec desired) (ss_status desired).

Definition immutable_stateful_set_status (code : Z) (reason message : string) : bool :=
  let message := to_ascii_lowercase message in
  (code =? 422) && String.eqb reason "Invalid" && contains (bytes "updates to statefulset spec") message && contains (bytes "forbidden") message.
Definition immutable_stateful_set_update (e : KubeError) : bool :=
  is_some_and (ke_code e) (λ code, immutable_stateful_set_status code (ke_reason e) (ke_message e)).

Definition verify_unpersisted_home (w : Workspace) (existing : StatefulSet) (volume_name default_claim_name : string) : result string () :=
  let claims := omap vo_claim (List.filter (λ volume, String.eqb (vo_name volume) volume_name)
    (default [] (spec ← ss_spec existing; pod ← pt_spec (ss_template spec); ps_volumes pod))) in
  match ws_home_volume_binding w, List.find (λ claim, negb (String.eqb (cm_claim_name claim) default_claim_name)) claims with
  | None, Some claim =>
      Err ("workspace StatefulSet explicitly uses Home PVC " +:+ cm_claim_name claim
           +:+ " without a persisted binding; adopt this claim before reconciling")
  | _, _ => Ok ()
  end.

Definition labels_json (labels : gmap string string) : Value := json_object ((λ kv, (kv.1, Str kv.2)) <$> map_to_list labels).

(** ** Methods *)
Section Apply.
Context (c : KubernetesCoordinator) `{UuidText} `{OwnershipErrorText}.

(** [verify_existing]. *)
Definition verify_existing (kind : Kind) (namespace : option string) (name : string) (w : Workspace) : CM () :=
  existing ← request_opt (GetObject kind namespace name);
  match existing with
  | Some existing => verify_delete_ownership c existing w
  | None => mret ()
  end.
Definition apply_owned (kind : Kind) (namespace : option string) (name : string) (desired : Manifest) (w : Workspace) : CM () :=
  _ ← verify_existing kind namespace name w;
  request (ApplyObject kind namespace name FIELD_MANAGER (mf_object desired)).
(** What is not wanted goes, if it is the workspace's. *)
Definition remove_owned (kind : Kind) (namespace : option string) (name : string) (w : Workspace) : CM () :=
  existing ← request_opt (GetObject kind namespace name);
  match existing with
  | Some existing => _ ← verify_delete_ownership c existing w; request (DeleteObject kind namespace name NO_PRECONDITIONS)
  | None => mret ()
  end.

Definition apply_scratch_claim (w : Workspace) (desired : option Claim) : CM () :=
  match desired with
  | None => mret ()
  | Some desired =>
      name ← cm_some (md_name (cl_metadata desired)) MISSING_NAME;
      existing ← request_opt (GetObject KClaim (Some ns) name);
      match existing with
      | Some existing =>
          _ ← verify_delete_ownership c existing w;
          cm_require (negb (is_some (md_deletion_timestamp existing))) SCRATCH_PENDING
      | None =>
          created ← attempt (CreateClaim ns desired);
          match created with
          | Ok _ => mret ()
          | Err e => cm_throw (if bool_decide (ke_code e = Some 409) then SCRATCH_PENDING else ke_text e)
          end
      end
  end.

(** The namespace has all the labels it should have. *)
Definition namespace_up_to_date (existing desired : ObjectMeta) : bool :=
  match md_deletion_timestamp existing, md_labels existing, md_labels desired with
  | None, Some current, Some desired => forallb (λ kv, bool_decide (current !! kv.1 = Some kv.2)) (map_to_list desired)
  | _, _, _ => false
  end.
Definition apply_namespace (desired : DesiredResources) : CM () :=
  let apply := request (ApplyObject KNamespace None ns FIELD_MANAGER (mf_object (dr_namespace desired))) in
  existing ← request_opt (GetObject KNamespace None ns);
  match existing with
  | None => apply
  | Some existing =>
      _ ← verify_installation_ownership c existing;
      match label existing WORKSPACE_ID_LABEL with
      | Some actual =>
          cm_throw (ownership_error_to_string (LabelMismatch WORKSPACE_ID_LABEL "absent from the product namespace" (Some actual)))
      | None => if namespace_up_to_date existing (mf_metadata (dr_namespace desired)) then mret () else apply
      end
  end.

Definition apply_access_identity (w : Workspace) (desired : DesiredResources) : CM () :=
  runtime ← runtime_names c w;
  let names := resources_of runtime in
  let binding_name := cluster_admin_binding_name (kc_installation_id c) runtime in
  _ ← match dr_service_account desired with
      | Some account => apply_owned KServiceAccount (Some ns) (service_account names) account w
      | None => mret ()
      end;
  match dr_cluster_role_binding desired with
  | Some binding => apply_owned KClusterRoleBinding None binding_name binding w
  | None =>
      _ ← remove_owned KClusterRoleBinding None binding_name w;
      remove_owned KServiceAccount (Some ns) (service_account names) w
  end.

Definition try_both (p q : CM ()) (schedule : list bool) : CM () := _ ← try_join p q schedule; mret ().

Definition apply_workspace_identity (w : Workspace) (desired : DesiredResources) (schedule : list bool) : CM () :=
  runtime ← runtime_names c w;
  let names := resources_of runtime in
  try_both (apply_owned KSecret (Some ns) (ssh_identity_secret names) (dr_ssh_identity desired) w)
    (apply_owned KConfigMap (Some ns) (workspace_config names) (dr_workspace_config desired) w) schedule.

Definition apply_workspace_services (w : Workspace) (desired : DesiredResources) : CM () :=
  runtime ← runtime_names c w;
  let names := resources_of runtime in
  _ ← apply_owned KService (Some ns) (service names) (dr_service desired) w;
  match dr_internal_ssh_service desired with
  | Some ssh => apply_owned KService (Some ns) (ssh_service names) ssh w
  | None => remove_owned KService (Some ns) (ssh_service names) w
  end.

Definition apply_network_policy (w : Workspace) (desired : DesiredResources) : CM () :=
  runtime ← runtime_names c w;
  apply_owned KNetworkPolicy (Some ns) (network_policy (resources_of runtime)) (dr_network_policy desired) w.

(** The file ConfigMap a workload is to see. *)
Definition file_config_map (injections : InjectionMaterialization) (compress_files : bool) : result string Manifest :=
  if compress_files then im_compressed injections else Ok (im_file_config_map injections).
Definition apply_injections (w : Workspace) (injections : InjectionMaterialization) (compress_files : bool) (schedules : nat → list bool) : CM () :=
  runtime ← runtime_names c w;
  let names := resources_of runtime in
  namespace ← cm_some (md_namespace (mf_metadata (im_file_config_map injections))) MISSING_NAME;
  _ ← cm_require (String.eqb namespace ns) IDENTITY_MISMATCH;
  files ← cm_give (file_config_map injections compress_files);
  try_both (apply_owned KSecret (Some ns) (environment_secret names) (im_environment_secret injections) w)
    (try_both (apply_owned KSecret (Some ns) (files_secret names) (im_file_secret injections) w)
       (try_both (apply_owned KConfigMap (Some ns) (environment_config_map names) (im_environment_config_map injections) w)
          (apply_owned KConfigMap (Some ns) (files_config_map names) files w) (schedules 2%nat)) (schedules 1%nat)) (schedules 0%nat).

Definition reconcile_injections (w : Workspace) (injections : InjectionMaterialization) (schedules : nat → list bool) : CM () :=
  runtime ← runtime_names c w;
  existing ← request_opt (ReadStatefulSet ns (stateful_set (resources_of runtime)));
  match existing with
  | None => mret ()
  | Some existing =>
      _ ← verify_delete_ownership c (ss_metadata existing) w;
      if is_some (md_deletion_timestamp (ss_metadata existing)) then mret ()
      else compress_files ← cm_give (uses_compressed_files existing); apply_injections w injections compress_files schedules
  end.

(** [apply_web_shell_envoy_filter] and the secrets it relies on. *)
Definition has_value (secret : Secret) (key : string) : bool :=
  is_some_and (sec_data secret ≫= lookup key) (λ value, negb (bool_decide (value = []))).
Definition verify_ttyd_mtls_secrets : CM () :=
  mtls ← cm_some (kc_ttyd_mtls c) "ttyd mTLS EnvoyFilter requested without mTLS configuration";
  client ← request_opt (GetSecret (kc_higress_namespace c) (higress_client_secret_name mtls));
  client ← cm_some client "configured Higress ttyd client Secret is missing";
  companion ← request_opt (GetSecret (kc_higress_namespace c) (higress_client_secret_name mtls +:+ "-cacert"));
  companion ← cm_some companion "configured Higress ttyd client CA companion Secret is missing";
  _ ← cm_require (has_value client "tls.crt" && has_value client "tls.key") "configured Higress ttyd client Secret lacks tls.crt or tls.key";
  cm_require (has_value companion "cacert") "configured Higress ttyd client CA companion lacks cacert".
Definition apply_web_shell_envoy_filter (w : Workspace) (desired : DesiredResources) : CM () :=
  runtime ← runtime_names c w;
  let name := web_shell_envoy_filter (resources_of runtime) in
  let namespace := Some (kc_higress_namespace c) in
  match dr_web_shell_envoy_filter desired with
  | Some filter => _ ← verify_ttyd_mtls_secrets; apply_owned KEnvoyFilter namespace name filter w
  | None =>
      existing ← request_opt (GetObject KEnvoyFilter namespace name);
      match existing with
      | None => mret ()
      | Some existing =>
          _ ← verify_delete_ownership c existing w;
          uid ← cm_some (md_uid existing) "owned Higress EnvoyFilter has no UID; refusing an unguarded delete";
          request (DeleteObject KEnvoyFilter namespace name (mkPreconditions (Some uid) None))
      end
  end.

(** The route that is there is the workspace's; it goes if it is not wanted. *)
Definition check_route (w : Workspace) (desired : DesiredResources) (name : string) : CM () :=
  existing ← request_opt (GetObject KIngress (Some ns) name);
  match existing with
  | None => mret ()
  | Some existing =>
      _ ← verify_delete_ownership c existing w;
      if is_some (dr_web_shell_ingress desired) then mret ()
      else
        _ ← request (DeleteObject KIngress (Some ns) name NO_PRECONDITIONS);
        cm_require (negb (is_some (kc_ttyd_mtls c))) "waiting for Web Shell Ingress removal before deleting its TLS validation filter"
  end.
Definition apply_network (w : Workspace) (desired : DesiredResources) : CM () :=
  runtime ← runtime_names c w;
  let name := web_shell_ingress (resources_of runtime) in
  _ ← (if is_some (kc_ttyd_mtls c) && is_some (dr_web_shell_ingress desired) then apply_web_shell_envoy_filter w desired else mret ());
  _ ← check_route w desired name;
  _ ← match dr_web_shell_ingress desired with
      | Some ingress => request (ApplyObject KIngress (Some ns) name FIELD_MANAGER (mf_object ingress))
      | None => mret ()
      end;
  if is_some (kc_ttyd_mtls c) && negb (is_some (dr_web_shell_ingress desired)) then apply_web_shell_envoy_filter w desired else mret ().

(** ** The workload *)
Definition label_home_claim (w : Workspace) (names : WorkspaceResourceNames) (desired : StatefulSet) : CM () :=
  if is_some (ws_home_volume_binding w) then mret ()
  else
    existing ← request_opt (GetClaim ns (data_pvc_ordinal_zero names));
    match existing with
    | None => mret ()
    | Some existing =>
        _ ← verify_delete_ownership c (cl_metadata existing) w;
        let labels := spec ← ss_spec desired; claims ← ss_claim_templates spec; claim ← head claims; md_labels (cl_metadata claim) in
        if claim_labels_need_update existing labels
        then request (PatchClaim ns (data_pvc_ordinal_zero names)
               (json_object [("metadata", json_object [("labels", match labels with Some labels => labels_json labels | None => Null end)])]))
        else mret ()
    end.
Definition restart_stale_pod (w : Workspace) (names : WorkspaceResourceNames) : CM () :=
  match ws_state w with
  | Starting | Restarting =>
      pod ← request_opt (GetPod ns (pod_ordinal_zero names));
      match pod with
      | None => mret ()
      | Some pod =>
          _ ← verify_delete_ownership c (po_metadata pod) w;
          if restart_generation_is_stale pod (ws_generation w) then request (DeletePod ns (pod_ordinal_zero names) NO_PRECONDITIONS) else mret ()
      end
  | _ => mret ()
  end.

(** The workload as it is to be sent. *)
Definition prepare_workload (w : Workspace) (names : WorkspaceResourceNames) (desired : StatefulSet) (existing : option StatefulSet) : CM StatefulSet :=
  match existing with
  | None => mret desired
  | Some existing =>
      _ ← verify_delete_ownership c (ss_metadata existing) w;
      _ ← cm_give (verify_unpersisted_home w existing (data_claim_template names) (data_pvc_ordinal_zero names));
      _ ← cm_require (negb (is_some (md_deletion_timestamp (ss_metadata existing)))) SET_PENDING;
      mret (preserve_claim_storage_classes desired existing)
  end.
Definition apply_workload (w : Workspace) (desired : StatefulSet) (existing : option StatefulSet) : CM () :=
  runtime ← runtime_names c w;
  let names := resources_of runtime in
  set ← prepare_workload w names desired existing;
  _ ← verify_home_volume_binding c w;
  applied ← attempt (ApplySet ns (stateful_set names) FIELD_MANAGER set);
  match applied with
  | Err e =>
      if immutable_stateful_set_update e then
        _ ← verify_home_volume_binding c w;
        _ ← request (DeleteObject KStatefulSet (Some ns) (stateful_set names) NO_PRECONDITIONS);
        cm_throw SET_PENDING
      else cm_throw (ke_text e)
  | Ok _ =>
      _ ← label_home_claim w names desired;
      restart_stale_pod w names
  end.

(** ** Starting *)

(** The gate that was created before approves the start. *)
Definition check_approved (w : Workspace) (approved : option ConfigMap) : CM () :=
  match approved with
  | None => mret ()
  | Some approved =>
      _ ← verify_delete_ownership c (cmap_metadata approved) w;
      cm_require (bool_decide (cmap_immutable approved = Some true) && bool_decide (cmap_data approved ≫= lookup "approved" = Some "true"))
        IDENTITY_MISMATCH
  end.
Definition gate_of (desired : DesiredResources) (name : string) : ConfigMap :=
  mkConfigMap (with_name name (mf_metadata (dr_workspace_config desired))) (Some true) (Some {[ "approved" := "true" ]}).

Definition is_new_workload (w : Workspace) (existing : option StatefulSet) : bool :=
  negb (is_some existing) && bool_decide (ws_state w = Provisioning).
Definition plan_gated (w : Workspace) (desired : DesiredResources) (name : string) (existing : option StatefulSet) : CM StartupPlan :=
  compress_files ← cm_give (if is_new_workload w existing then Ok true
                            else match existing with Some existing => uses_compressed_files existing | None => Ok false end);
  let workload := if compress_files : bool then annotate_set FILE_ENCODING_ANNOTATION FILE_ENCODING (dr_stateful_set desired) else dr_stateful_set desired in
  _ ← cm_require (is_none_or (existing ≫= λ set, annotation (ss_metadata set) GATE_ANNOTATION) (String.eqb name)) IDENTITY_MISMATCH;
  approved ← request_opt (GetConfigMap ns name);
  _ ← check_approved w approved;
  let unapproved := negb (is_some approved) in
  workload ← cm_give (add_gate workload name);
  mret (mkPlan workload existing (if unapproved then Some (gate_of desired name) else None)
          (unapproved && match ws_state w with Provisioning | Starting => true | _ => false end) compress_files).

Definition prepare_startup_plan (w : Workspace) (desired : DesiredResources) : CM StartupPlan :=
  runtime ← runtime_names c w;
  let names := resources_of runtime in
  existing ← request_opt (ReadStatefulSet ns (stateful_set names));
  _ ← match existing with Some existing => verify_delete_ownership c (ss_metadata existing) w | None => mret () end;
  if negb (is_new_workload w existing) && negb (is_some (existing ≫= λ set, annotation (ss_metadata set) GATE_ANNOTATION))
  then mret (mkPlan (dr_stateful_set desired) existing None false false)
  else plan_gated w desired (startup_gate_config_map names) existing.

(** The Pod does not use a named identity. *)
Definition overlap_identity_cleanup (w : Workspace) (desired : DesiredResources) (plan : StartupPlan) : bool :=
  pl_overlap plan && negb (is_some (pl_existing plan)) && negb (cluster_access (ws_template w)) && negb (is_some (dr_service_account desired))
  && is_some_and (spec ← ss_spec (pl_workload plan); pt_spec (ss_template spec)) (λ pod,
       negb (is_some (ps_service_account_name pod)) && bool_decide (ps_automount_service_account_token pod = Some false)).

(** The schedules of the joins, by number. *)
Definition apply_gated (w : Workspace) (desired : DesiredResources) (plan : StartupPlan) (schedule : list bool) : CM () :=
  let access := apply_access_identity w desired in
  let policy := apply_network_policy w desired in
  let gated := if pl_overlap plan then apply_workload w (pl_workload plan) (pl_existing plan) else mret () in
  if overlap_identity_cleanup w desired plan then try_both access (_ ← policy; gated) schedule
  else _ ← try_both access policy schedule; gated.
Definition apply_startup_prerequisites (w : Workspace) (desired : DesiredResources) (plan : StartupPlan) (schedules : nat → list bool) : CM () :=
  try_both (apply_injections w (dr_injections desired) (pl_compress_files plan) (λ i, schedules (10 + i)%nat))
    (try_both (apply_workspace_identity w desired (schedules 20%nat))
       (try_both (apply_scratch_claim w (dr_scratch_claim desired))
          (try_both (apply_workspace_services w desired) (apply_gated w desired plan (schedules 21%nat)) (schedules 3%nat)) (schedules 2%nat))
       (schedules 1%nat)) (schedules 0%nat).

Definition approve (plan : StartupPlan) : CM () :=
  match pl_gate plan with
  | None => mret ()
  | Some gate =>
      _ ← cm_some (md_name (cmap_metadata gate)) MISSING_NAME;
      request (CreateConfigMap ns gate)
  end.

Definition apply_desired (w : Workspace) (desired : DesiredResources) (schedules : nat → list bool) : CM () :=
  name ← cm_some (md_name (mf_metadata (dr_namespace desired))) MISSING_NAME;
  _ ← cm_require (String.eqb name ns) IDENTITY_MISMATCH;
  _ ← verify_home_volume_binding c w;
  planned ← try_join (apply_namespace desired) (prepare_startup_plan w desired) (schedules 30%nat);
  let plan := planned.2 in
  _ ← (if pl_overlap plan && negb (is_some (pl_existing plan))
       then try_both (apply_startup_prerequisites w desired plan schedules) (apply_network w desired) (schedules 31%nat)
       else _ ← apply_startup_prerequisites w desired plan schedules; apply_network w desired);
  _ ← approve plan;
  if pl_overlap plan then mret () else apply_workload w (pl_workload plan) (pl_existing plan).
End Apply.

(** ** Safety *)
Section ApplySafety.
Context (c : KubernetesCoordinator) `{UuidText} `{OwnershipErrorText} (w : Workspace) (desired : DesiredResources) (runtime : WorkspaceRuntimeNames).
Abbreviation names := (resources_of runtime).
Abbreviation gate_name := (startup_gate_config_map (resources_of runtime)).
Abbreviation binding_name := (cluster_admin_binding_name (kc_installation_id c) runtime).
Abbreviation injections := (dr_injections desired).

Definition applied (kind : Kind) (namespace : option string) (name : string) (m : Manifest) (past : list Event) : Prop :=
  Answered past (ApplyObject kind namespace name FIELD_MANAGER (mf_object m)) ().
(** What is there was read, and is the workspace's if it exists. *)
Definition cleared (kind : Kind) (namespace : option string) (name : string) (past : list Event) : Prop :=
  Absent past (GetObject kind namespace name) ∨ ∃ m, Answered past (GetObject kind namespace name) m ∧ belongs c m w.
Definition removed (kind : Kind) (namespace : option string) (name : string) (past : list Event) : Prop :=
  Absent past (GetObject kind namespace name) ∨ Answered past (DeleteObject kind namespace name NO_PRECONDITIONS) ().

(** *** What has to be in place before a container may start *)
Definition injections_in (compress_files : bool) (past : list Event) : Prop :=
  ∃ files, file_config_map injections compress_files = Ok files ∧
    applied KSecret (Some ns) (environment_secret names) (im_environment_secret injections) past ∧
    applied KSecret (Some ns) (files_secret names) (im_file_secret injections) past ∧
    applied KConfigMap (Some ns) (environment_config_map names) (im_environment_config_map injections) past ∧
    applied KConfigMap (Some ns) (files_config_map names) files past.
Definition identity_in (past : list Event) : Prop :=
  applied KSecret (Some ns) (ssh_identity_secret names) (dr_ssh_identity desired) past ∧
  applied KConfigMap (Some ns) (workspace_config names) (dr_workspace_config desired) past.
(** Rights that are not wanted are taken away. *)
Definition access_settled (past : list Event) : Prop :=
  match dr_cluster_role_binding desired with
  | Some binding => applied KClusterRoleBinding None binding_name binding past
  | None => removed KClusterRoleBinding None binding_name past ∧ removed KServiceAccount (Some ns) (service_account names) past
  end ∧
  match dr_service_account desired with
  | Some account => applied KServiceAccount (Some ns) (service_account names) account past
  | None => True
  end.
Definition services_in (past : list Event) : Prop :=
  applied KService (Some ns) (service names) (dr_service desired) past ∧
  match dr_internal_ssh_service desired with
  | Some ssh => applied KService (Some ns) (ssh_service names) ssh past
  | None => removed KService (Some ns) (ssh_service names) past
  end.
Definition scratch_in (past : list Event) : Prop :=
  match dr_scratch_claim desired with
  | None => True
  | Some claim =>
      (∃ created, Answered past (CreateClaim ns claim) created) ∨
      ∃ name m, md_name (cl_metadata claim) = Some name ∧ Answered past (GetObject KClaim (Some ns) name) m ∧ belongs c m w ∧ md_deletion_timestamp m = None
  end.
Definition isolated (past : list Event) : Prop := applied KNetworkPolicy (Some ns) (network_policy names) (dr_network_policy desired) past.
(** The certificate check of the web shell comes before its route. *)
Definition certified (past : list Event) : Prop :=
  is_some (kc_ttyd_mtls c) = true → match dr_web_shell_envoy_filter desired with
  | Some filter => applied KEnvoyFilter (Some (kc_higress_namespace c)) (web_shell_envoy_filter names) filter past
  | None => True
  end.
Definition routed (past : list Event) : Prop :=
  match dr_web_shell_ingress desired with
  | Some ingress => applied KIngress (Some ns) (web_shell_ingress names) ingress past ∧ certified past
  | None => removed KIngress (Some ns) (web_shell_ingress names) past
  end.
Definition ready_to_start (compress_files : bool) (past : list Event) : Prop :=
  injections_in compress_files past ∧ identity_in past ∧ scratch_in past ∧ services_in past ∧ access_settled past ∧ isolated past ∧ routed past.

(** Every container of the workload needs the gate to start. *)
Definition gated (set : StatefulSet) : Prop :=
  ∃ spec pod, ss_spec set = Some spec ∧ pt_spec (ss_template spec) = Some pod ∧ gate_volume gate_name ∈ default [] (ps_volumes pod) ∧
    ∀ container, container ∈ ps_containers pod ++ default [] (ps_init_containers pod) → gate_mount ∈ default [] (ct_volume_mounts container).

(** *** Which writes are permitted *)
Definition wanted (kind : Kind) (namespace : option string) (name : string) (object : Value) : Prop :=
  match kind with
  | KSecret => namespace = Some ns ∧
      (name, object) ∈ [(environment_secret names, mf_object (im_environment_secret injections)); (files_secret names, mf_object (im_file_secret injections));
                        (ssh_identity_secret names, mf_object (dr_ssh_identity desired))]
  | KConfigMap => namespace = Some ns ∧
      ((name, object) ∈ [(environment_config_map names, mf_object (im_environment_config_map injections)); (workspace_config names, mf_object (dr_workspace_config desired))] ∨
       ∃ compress files, file_config_map injections compress = Ok files ∧ (name, object) = (files_config_map names, mf_object files))
  | KService => namespace = Some ns ∧
      ((name, object) = (service names, mf_object (dr_service desired)) ∨ ∃ ssh, dr_internal_ssh_service desired = Some ssh ∧ (name, object) = (ssh_service names, mf_object ssh))
  | KServiceAccount => namespace = Some ns ∧ ∃ m, dr_service_account desired = Some m ∧ (name, object) = (service_account names, mf_object m)
  | KClusterRoleBinding => namespace = None ∧ ∃ m, dr_cluster_role_binding desired = Some m ∧ (name, object) = (binding_name, mf_object m)
  | KNetworkPolicy => namespace = Some ns ∧ (name, object) = (network_policy names, mf_object (dr_network_policy desired))
  | KIngress => namespace = Some ns ∧ ∃ m, dr_web_shell_ingress desired = Some m ∧ (name, object) = (web_shell_ingress names, mf_object m)
  | KEnvoyFilter => namespace = Some (kc_higress_namespace c) ∧ ∃ m, dr_web_shell_envoy_filter desired = Some m ∧ (name, object) = (web_shell_envoy_filter names, mf_object m)
  | _ => False
  end.
Definition unwanted (kind : Kind) (namespace : option string) (name : string) : Prop :=
  match kind with
  | KService => namespace = Some ns ∧ name = ssh_service names ∧ dr_internal_ssh_service desired = None
  | KServiceAccount => namespace = Some ns ∧ name = service_account names ∧ dr_cluster_role_binding desired = None
  | KClusterRoleBinding => namespace = None ∧ name = binding_name ∧ dr_cluster_role_binding desired = None
  | KIngress => namespace = Some ns ∧ name = web_shell_ingress names ∧ dr_web_shell_ingress desired = None
  | KEnvoyFilter => namespace = Some (kc_higress_namespace c) ∧ name = web_shell_envoy_filter names ∧ dr_web_shell_envoy_filter desired = None
  | _ => False
  end.
(** The workload that is there, if any, is the workspace's. *)
Definition set_read (past : list Event) : Prop :=
  Absent past (ReadStatefulSet ns (stateful_set names)) ∨
  ∃ set, Answered past (ReadStatefulSet ns (stateful_set names)) set ∧ belongs c (ss_metadata set) w.

(** What is sent is the workload that is wanted: maybe with the gate, and the mark of
    packed files, and with the storage classes its claims have already. *)
Inductive planned_workload : StatefulSet → Prop :=
  | workload_wanted : planned_workload (dr_stateful_set desired)
  | workload_gated (compress : bool) set :
      add_gate (if compress then annotate_set FILE_ENCODING_ANNOTATION FILE_ENCODING (dr_stateful_set desired) else dr_stateful_set desired) gate_name = Ok set →
      planned_workload set.
Inductive sent_as (workload : StatefulSet) : StatefulSet → Prop :=
  | sent_new : sent_as workload workload
  | sent_update existing : sent_as workload (preserve_claim_storage_classes workload existing).
Definition workload_of (set : StatefulSet) : Prop := ∃ workload, planned_workload workload ∧ sent_as workload set.

Definition may_write (past : list Event) (A : Type) (req : Kube A) : Prop :=
  match req with
  | ApplyObject KNamespace namespace name manager object =>
      namespace = None ∧ name = ns ∧ manager = FIELD_MANAGER ∧ object = mf_object (dr_namespace desired) ∧
      (Absent past (GetObject KNamespace None ns) ∨
       ∃ m, Answered past (GetObject KNamespace None ns) m ∧ label m OWNER_INSTALLATION_LABEL = Some (kc_installation_id c) ∧ label m WORKSPACE_ID_LABEL = None)
  | ApplyObject kind namespace name manager object =>
      wanted kind namespace name object ∧ manager = FIELD_MANAGER ∧ cleared kind namespace name past ∧ (kind = KIngress → certified past)
  | DeleteObject KStatefulSet namespace name _ =>
      namespace = Some ns ∧ name = stateful_set names ∧ set_read past ∧
      ∃ set e, mkEvent _ (ApplySet ns name FIELD_MANAGER set) (Err e) ∈ past ∧ immutable_stateful_set_update e = true
  | DeleteObject kind namespace name _ =>
      unwanted kind namespace name ∧ (∃ m, Answered past (GetObject kind namespace name) m ∧ belongs c m w) ∧
      (kind = KEnvoyFilter → dr_web_shell_ingress desired = None → Absent past (GetObject KIngress (Some ns) (web_shell_ingress names)))
  | ApplySet namespace name manager set =>
      namespace = ns ∧ name = stateful_set names ∧ manager = FIELD_MANAGER ∧ workload_of set ∧ set_read past ∧ isolated past ∧
      ((∃ compress, ready_to_start compress past) ∨ gated set ∧ Absent past (GetConfigMap ns gate_name))
  | CreateConfigMap namespace config =>
      namespace = ns ∧ config = gate_of desired gate_name ∧ Absent past (GetConfigMap ns gate_name) ∧ ∃ compress, ready_to_start compress past
  | CreateClaim namespace claim =>
      namespace = ns ∧ dr_scratch_claim desired = Some claim ∧
      ∃ name, md_name (cl_metadata claim) = Some name ∧ Absent past (GetObject KClaim (Some ns) name)
  | PatchClaim namespace name _ =>
      namespace = ns ∧ ws_home_volume_binding w = None ∧ ∃ claim, Answered past (GetClaim ns name) claim ∧ belongs c (cl_metadata claim) w
  | DeletePod namespace name _ =>
      namespace = ns ∧ ∃ pod, Answered past (GetPod ns name) pod ∧ belongs c (po_metadata pod) w ∧ restart_generation_is_stale pod (ws_generation w) = true
  | _ => False
  end.

(** *** Nothing that happens at the same time spoils these *)
Record persistent (R : list Event → Prop) : Prop := { persists past past' : past ⊆ past' → R past → R past' }.
Lemma persistent_and (R1 R2 : list Event → Prop) : persistent R1 → persistent R2 → persistent (λ past, R1 past ∧ R2 past).
Proof. intros [H1] [H2]. split. intros past past' Hs []. eauto. Qed.
Lemma persistent_or (R1 R2 : list Event → Prop) : persistent R1 → persistent R2 → persistent (λ past, R1 past ∨ R2 past).
Proof. intros [H1] [H2]. split. intros past past' Hs []; eauto. Qed.
Lemma persistent_ex {T} (R : T → list Event → Prop) : (∀ t, persistent (R t)) → persistent (λ past, ∃ t, R t past).
Proof. intros HR. split. intros past past' Hs [t Ht]. exists t. by eapply (persists _ (HR t)). Qed.
Lemma persistent_const (P : Prop) : persistent (λ _, P).
Proof. by split. Qed.
Lemma persistent_imp (P : Prop) (R : list Event → Prop) : persistent R → persistent (λ past, P → R past).
Proof. intros [HR]. split. intros past past' Hs HP ?. eauto. Qed.
Lemma persistent_event e : persistent (λ past, e ∈ past).
Proof. split. intros past past'. set_solver. Qed.
Lemma persistent_Answered {A} (req : Kube A) a : persistent (λ past, Answered past req a).
Proof. split. intros past past' Hs Ha. by eapply Answered_mono. Qed.
Lemma persistent_Absent {A} (req : Kube A) : persistent (λ past, Absent past req).
Proof. split. intros past past' Hs Ha. by eapply Absent_mono. Qed.

Ltac solve_persistent_with tac :=
  repeat first
    [ tac | apply persistent_and | apply persistent_or | apply persistent_Answered | apply persistent_Absent | apply persistent_event
    | apply persistent_const | apply persistent_imp | apply persistent_ex; intros ?
    | match goal with |- persistent (λ _, match ?x with _ => _ end) => destruct x end ].
Ltac solve_persistent := solve_persistent_with fail.

Lemma persistent_applied kind namespace name m : persistent (applied kind namespace name m).
Proof. unfold applied. solve_persistent. Qed.
Lemma persistent_removed kind namespace name : persistent (removed kind namespace name).
Proof. unfold removed. solve_persistent. Qed.
Lemma persistent_cleared kind namespace name : persistent (cleared kind namespace name).
Proof. unfold cleared. solve_persistent. Qed.
Lemma persistent_set_read : persistent set_read.
Proof. unfold set_read. solve_persistent. Qed.
Lemma persistent_injections_in compress : persistent (injections_in compress).
Proof. unfold injections_in, applied. solve_persistent. Qed.
Lemma persistent_identity_in : persistent identity_in.
Proof. unfold identity_in, applied. solve_persistent. Qed.
Lemma persistent_access_settled : persistent access_settled.
Proof. unfold access_settled, applied, removed. solve_persistent. Qed.
Lemma persistent_services_in : persistent services_in.
Proof. unfold services_in, applied, removed. solve_persistent. Qed.
Lemma persistent_scratch_in : persistent scratch_in.
Proof. unfold scratch_in. solve_persistent. Qed.
Lemma persistent_certified : persistent certified.
Proof. unfold certified, applied. solve_persistent. Qed.
Lemma persistent_routed : persistent routed.
Proof. unfold routed, certified, applied, removed. solve_persistent. Qed.
Lemma persistent_isolated : persistent isolated.
Proof. unfold isolated, applied. solve_persistent. Qed.
Lemma persistent_ready compress : persistent (ready_to_start compress).
Proof. unfold ready_to_start, injections_in, identity_in, scratch_in, services_in, access_settled, isolated, routed, certified, applied, removed. solve_persistent. Qed.

Lemma may_write_mono past past' A (req : Kube A) : past ⊆ past' → may_write past A req → may_write past' A req.
Proof.
  intros Hs. enough (persistent (λ past, may_write past A req)) as Hp by by apply (persists _ Hp).
  destruct req; try match goal with k : Kind |- _ => destruct k end; unfold may_write, cleared, set_read, isolated, certified, applied; solve_persistent_with ltac:(apply persistent_ready).
Qed.
Lemma may_write_writes past past' A (req : Kube A) : past ⊆ past' → writes may_write past A req → writes may_write past' A req.
Proof. apply writes_monotone, may_write_mono. Qed.

(** *** The methods *)
Abbreviation awp := (cwp (writes may_write)).

Lemma names_wp {A} (f : WorkspaceRuntimeNames → CM A) past Q : for_workspace_names (kc_installation_id c) (ws_short_id w) = Some runtime →
  awp (f runtime) past Q → awp (runtime ← runtime_names c w; f runtime) past Q.
Proof. intros Hn Hf. unfold runtime_names. rewrite Hn. apply cwp_bind. cm_step. by injection Hsome as <-. Qed.

Lemma try_both_wp (p q : CM ()) schedule past R1 R2 (Q : list Event → () → Prop) : persistent R1 → persistent R2 →
  awp p past (λ past' _, R1 past') → awp q past (λ past' _, R2 past') → (∀ past', past ⊆ past' → R1 past' → R2 past' → Q past' ()) →
  awp (try_both p q schedule) past Q.
Proof.
  intros H1 H2 Hp Hq HQ. unfold try_both. eapply cwp_seq.
  - apply (cwp_try_join (writes may_write) p q schedule past (λ past' _, R1 past') (λ past' _, R2 past') may_write_writes); [| |done..].
    + intros past0 past1 [] Hs. by apply (persists _ H1).
    + intros past0 past1 [] Hs. by apply (persists _ H2).
  - intros past' [[] []] Hs [Hr1 Hr2]. cm_step. by apply HQ.
Qed.

Lemma verify_existing_wp P kind namespace name past Q : ReadsPermitted P → (∀ past', past ⊆ past' → cleared kind namespace name past' → Q past' ()) →
  cwp P (verify_existing c kind namespace name w) past Q.
Proof.
  intros HP HQ. unfold verify_existing. cm_step; [by apply HP| |].
  - apply ownership_wp. intros Hb. apply HQ; [done|]. right. by exists a.
  - cm_step. apply HQ; [done|]. by left.
Qed.

Lemma apply_owned_wp kind namespace name m past (Q : list Event → () → Prop) : wanted kind namespace name (mf_object m) → kind ≠ KNamespace →
  (kind = KIngress → certified past) → (∀ past', past ⊆ past' → applied kind namespace name m past' → Q past' ()) →
  awp (apply_owned c kind namespace name m w) past Q.
Proof.
  intros Hw Hk Hcert HQ. unfold apply_owned. apply cwp_bind, verify_existing_wp; [apply _|]. intros past1 Hs1 Hc. cm_step.
  - intros _. assert (kind = KIngress → certified past1) by (intros E; by apply (persists _ persistent_certified _ _ Hs1), Hcert). by destruct kind.
  - destruct a. apply HQ; [set_solver|done].
Qed.

Lemma remove_owned_wp kind namespace name past (Q : list Event → () → Prop) : unwanted kind namespace name → kind ≠ KEnvoyFilter →
  (∀ past', past ⊆ past' → removed kind namespace name past' → Q past' ()) → awp (remove_owned c kind namespace name w) past Q.
Proof.
  intros Hu Hk HQ. unfold remove_owned. cm_step; [done| |].
  - apply cwp_bind, ownership_wp. intros Hb. cm_step.
    + intros _. assert (∃ m, Answered past0 (GetObject kind namespace name) m ∧ belongs c m w) by by exists a. destruct kind; cbn in Hu; by split_and?.
    + destruct a0. apply HQ; [set_solver|]. by right.
  - cm_step. apply HQ; [done|]. by left.
Qed.

Section Named.
Context (Hn : for_workspace_names (kc_installation_id c) (ws_short_id w) = Some runtime).

Lemma apply_namespace_wp past : awp (apply_namespace c desired) past (λ _ _, True).
Proof.
  assert (∀ past', (Absent past' (GetObject KNamespace None ns) ∨
    ∃ m, Answered past' (GetObject KNamespace None ns) m ∧ label m OWNER_INSTALLATION_LABEL = Some (kc_installation_id c) ∧ label m WORKSPACE_ID_LABEL = None) →
    awp (request (ApplyObject KNamespace None ns FIELD_MANAGER (mf_object (dr_namespace desired)))) past' (λ _ _, True)) as Happly.
  { intros past' Hc. cm_step; [|done]. intros _. by split_and!. }
  unfold apply_namespace. cm_step; [done| |apply Happly; by left].
  apply cwp_bind. unfold verify_installation_ownership. cm_step. destruct a0. destruct (label a WORKSPACE_ID_LABEL) eqn:Hl; [by cm_step|].
  destruct (namespace_up_to_date _ _); [by cm_step|]. apply Happly. right. exists a. split_and!; [done| |done].
  unfold map_err, verify_installation, check_label in Hgive. unfold label. destruct (md_labels a) as [labels|]; [|done]. cbn in *.
  case_bool_decide; [done|discriminate].
Qed.

Lemma apply_scratch_claim_wp past : awp (apply_scratch_claim c w (dr_scratch_claim desired)) past (λ past' _, scratch_in past').
Proof.
  unfold apply_scratch_claim, scratch_in. destruct (dr_scratch_claim desired) as [claim|] eqn:Hd; [|by cm_step].
  cm_step. cm_step; [done| |].
  - apply cwp_bind, ownership_wp. intros Hb. cm_step. right. exists a, a0. split_and!; [done..|]. by destruct (md_deletion_timestamp a0).
  - apply cwp_bind, cwp_attempt.
    + intros _. cbn. split_and!; [done..|]. by exists a.
    + intros [created|e] past1 Hs1 He; [cm_step|by cm_step]. left. by exists created.
Qed.

Lemma apply_access_identity_wp past : awp (apply_access_identity c w desired) past (λ past' _, access_settled past').
Proof.
  unfold apply_access_identity, access_settled. apply names_wp; [done|].
  eapply cwp_seq with (R := λ past' _, match dr_service_account desired with
    | Some account => applied KServiceAccount (Some ns) (service_account names) account past' | None => True end).
  { destruct (dr_service_account desired) as [account|] eqn:Ha; [|by cm_step]. apply apply_owned_wp; [|done..]. split; [done|]. by exists account. }
  intros past1 _ Hs1 Haccount. assert (∀ past', past1 ⊆ past' → match dr_service_account desired with
    | Some account => applied KServiceAccount (Some ns) (service_account names) account past' | None => True end) as Hlater.
  { intros past' Hs. destruct (dr_service_account desired); [|done]. by apply (persists _ (persistent_applied _ _ _ _) _ _ Hs). }
  destruct (dr_cluster_role_binding desired) as [binding|] eqn:Hb.
  - apply apply_owned_wp; [split; [done|]; by exists binding|done..|]. intros past2 Hs2 Happ. split; [done|by apply Hlater].
  - apply cwp_bind, remove_owned_wp; [by split_and!|done|]. intros past2 Hs2 Hr2. apply remove_owned_wp; [by split_and!|done|].
    intros past3 Hs3 Hr3. split; [|apply Hlater; set_solver]. split; [|done]. by apply (persists _ (persistent_removed _ _ _) _ _ Hs3).
Qed.

Lemma apply_workspace_identity_wp schedule past : awp (apply_workspace_identity c w desired schedule) past (λ past' _, identity_in past').
Proof.
  unfold apply_workspace_identity. apply names_wp; [done|]. eapply try_both_wp; [apply persistent_applied..| | |].
  - apply apply_owned_wp; [|done|done|by intros past' _ Ha; exact Ha]. split; [done|set_solver].
  - apply apply_owned_wp; [|done|done|by intros past' _ Ha; exact Ha]. split; [done|]. left. set_solver.
  - by split.
Qed.

Lemma apply_workspace_services_wp past : awp (apply_workspace_services c w desired) past (λ past' _, services_in past').
Proof.
  unfold apply_workspace_services, services_in. apply names_wp; [done|]. apply cwp_bind, apply_owned_wp; [split; [done|by left]|done..|].
  intros past1 Hs1 Ha. destruct (dr_internal_ssh_service desired) as [ssh|] eqn:Hssh.
  - apply apply_owned_wp; [split; [done|]; right; by exists ssh|done..|]. intros past2 Hs2 Ha2. split; [|done].
    by apply (persists _ (persistent_applied _ _ _ _) _ _ Hs2).
  - apply remove_owned_wp; [by split_and!|done|]. intros past2 Hs2 Ha2. split; [|done]. by apply (persists _ (persistent_applied _ _ _ _) _ _ Hs2).
Qed.

Lemma apply_network_policy_wp past : awp (apply_network_policy c w desired) past (λ past' _, isolated past').
Proof. unfold apply_network_policy. apply names_wp; [done|]. by apply apply_owned_wp. Qed.

Lemma apply_injections_wp compress schedules past :
  awp (apply_injections c w injections compress schedules) past (λ past' _, injections_in compress past').
Proof.
  unfold apply_injections, injections_in. apply names_wp; [done|]. cm_step. cm_step. cm_step. rename a0 into files.
  eapply try_both_wp with (R2 := λ past', applied KSecret (Some ns) (files_secret names) (im_file_secret injections) past' ∧
    applied KConfigMap (Some ns) (environment_config_map names) (im_environment_config_map injections) past' ∧
    applied KConfigMap (Some ns) (files_config_map names) files past'); [apply persistent_applied| | | |].
  - unfold applied. solve_persistent.
  - apply apply_owned_wp; [|done|done|by intros past' _ Ha; exact Ha]. split; [done|set_solver].
  - eapply try_both_wp with (R2 := λ past', applied KConfigMap (Some ns) (environment_config_map names) (im_environment_config_map injections) past' ∧
      applied KConfigMap (Some ns) (files_config_map names) files past'); [apply persistent_applied| | | |].
    + unfold applied. solve_persistent.
    + apply apply_owned_wp; [|done|done|by intros past' _ Ha; exact Ha]. split; [done|set_solver].
    + eapply try_both_wp; [apply persistent_applied..| | |].
      * apply apply_owned_wp; [|done|done|by intros past' _ Ha; exact Ha]. split; [done|]. left. set_solver.
      * apply apply_owned_wp; [|done|done|by intros past' _ Ha; exact Ha]. split; [done|]. right. by exists compress, files.
      * by split.
    + by split.
  - intros past' Hs' He (Hf & Hc & Hfc). by exists files.
Qed.

(** *** Routes *)
Lemma verify_ttyd_mtls_secrets_wp past (Q : list Event → () → Prop) : (∀ past', past ⊆ past' → Q past' ()) → awp (verify_ttyd_mtls_secrets c) past Q.
Proof.
  intros HQ. unfold verify_ttyd_mtls_secrets. cm_step. cm_step; [done| |cm_step; discriminate]. cm_step. cm_step; [done| |cm_step; discriminate].
  cm_step. cm_step. cm_step. apply HQ. set_solver.
Qed.

Lemma apply_web_shell_envoy_filter_wp past (Q : list Event → () → Prop) :
  (dr_web_shell_ingress desired = None → Absent past (GetObject KIngress (Some ns) (web_shell_ingress names))) →
  (∀ past', past ⊆ past' → match dr_web_shell_envoy_filter desired with
     | Some filter => applied KEnvoyFilter (Some (kc_higress_namespace c)) (web_shell_envoy_filter names) filter past' | None => True end → Q past' ()) →
  awp (apply_web_shell_envoy_filter c w desired) past Q.
Proof.
  intros Hroute HQ. unfold apply_web_shell_envoy_filter. apply names_wp; [done|]. destruct (dr_web_shell_envoy_filter desired) as [filter|] eqn:Hf.
  - apply cwp_bind, verify_ttyd_mtls_secrets_wp. intros past1 Hs1. apply apply_owned_wp; [split; [done|by exists filter]|done..|].
    intros past2 Hs2 Ha. apply HQ; [set_solver|done].
  - cm_step; [done| |cm_step; by apply HQ]. apply cwp_bind, ownership_wp. intros Hb. cm_step. cm_step.
    + intros _. split; [done|]. split; [by exists a|]. intros _ Hi. eapply Absent_mono; [by apply Hroute|done].
    + destruct a1. apply HQ; [set_solver|done].
Qed.

Lemma check_route_wp past (Q : list Event → () → Prop) :
  (∀ past', past ⊆ past' → match dr_web_shell_ingress desired with
     | Some _ => cleared KIngress (Some ns) (web_shell_ingress names) past'
     | None => removed KIngress (Some ns) (web_shell_ingress names) past' ∧
               (is_some (kc_ttyd_mtls c) = true → Absent past' (GetObject KIngress (Some ns) (web_shell_ingress names)))
     end → Q past' ()) → awp (check_route c w desired (web_shell_ingress names)) past Q.
Proof.
  intros HQ. unfold check_route. destruct (dr_web_shell_ingress desired) as [ingress|] eqn:Hi; cm_step; try done.
  - apply cwp_bind, ownership_wp. intros Hb. cbn [is_some]. cm_step. apply HQ; [done|]. right. by exists a.
  - cm_step. apply HQ; [done|]. by left.
  - apply cwp_bind, ownership_wp. intros Hb. cbn [is_some]. cm_step.
    + intros _. split; [done|]. split; [by exists a|done].
    + cm_step. apply HQ; [set_solver|]. destruct a0. split; [by right|]. intros Hm. by rewrite Hm in Hreq.
  - cm_step. apply HQ; [done|]. split; [by left|done].
Qed.

Lemma apply_network_wp past : awp (apply_network c w desired) past (λ past' _, routed past').
Proof.
  unfold apply_network, routed. apply names_wp; [done|].
  eapply cwp_seq with (R := λ past' _, is_some (dr_web_shell_ingress desired) = true → certified past').
  { unfold certified. destruct (is_some (kc_ttyd_mtls c)), (dr_web_shell_ingress desired) as [ingress|] eqn:Hi; cbn [andb is_some]; try (by cm_step).
    by apply apply_web_shell_envoy_filter_wp; [by rewrite Hi|]. }
  intros past1 _ Hs1 Hcert. apply cwp_bind, check_route_wp. intros past2 Hs2 Hroute.
  destruct (dr_web_shell_ingress desired) as [ingress|] eqn:Hi; cbn [is_some negb] in *.
  - assert (certified past2) as Hcert2 by by apply (persists _ persistent_certified _ _ Hs2), Hcert. cm_step.
    + intros _. split; [split; [done|by exists ingress]|done].
    + rewrite andb_false_r. cm_step. destruct a. split; [done|]. by apply (persists _ persistent_certified _ _ Hs).
  - destruct Hroute as [Hrem Habs]. cm_step. destruct (is_some (kc_ttyd_mtls c)); cbn [andb]; [|by cm_step].
    apply apply_web_shell_envoy_filter_wp; [by auto|]. intros past3 Hs3 _. by apply (persists _ (persistent_removed _ _ _) _ _ Hs3).
Qed.

(** *** The gate *)
Lemma gated_preserve set existing : gated set → gated (preserve_claim_storage_classes set existing).
Proof. intros (spec & pod & Hs & Hp & Hv & Hm). unfold preserve_claim_storage_classes. rewrite Hs. eexists _, pod. by split_and!. Qed.

Lemma mounted container : gate_mount ∈ default [] (ct_volume_mounts (mount_gate container)).
Proof. cbn. apply elem_of_app. right. by apply list_elem_of_singleton. Qed.
Lemma add_gate_gated workload set : add_gate workload gate_name = Ok set → gated set.
Proof.
  unfold add_gate. destruct workload as [m spec status]. cbn. destruct spec as [spec|]; [|done]. destruct (pt_spec (ss_template spec)) as [pod|]; [|done].
  intros [= <-]. eexists _, _. split; [done|]. split; [done|]. split.
  - cbn. apply elem_of_app. right. by apply list_elem_of_singleton.
  - intros container. cbn. rewrite elem_of_app. intros [Hin|Hin].
    + apply list_elem_of_fmap in Hin as (container' & -> & _). apply mounted.
    + destruct (ps_init_containers pod) as [init|]; cbn in Hin; [|by apply not_elem_of_nil in Hin].
      apply list_elem_of_In, in_map_iff in Hin as (container' & <- & _). apply mounted.
Qed.

(** What the plan says of the workload that is there. *)
Definition plan_read (existing : option StatefulSet) (past : list Event) : Prop :=
  match existing with
  | None => Absent past (ReadStatefulSet ns (stateful_set names))
  | Some set => Answered past (ReadStatefulSet ns (stateful_set names)) set
  end.
Definition workload_in (past : list Event) : Prop := ∃ set, Answered past (ApplySet ns (stateful_set names) FIELD_MANAGER set) ().
Definition startable (workload : StatefulSet) (past : list Event) : Prop :=
  isolated past ∧ ((∃ compress, ready_to_start compress past) ∨ gated workload ∧ Absent past (GetConfigMap ns gate_name)).
Lemma persistent_plan_read existing : persistent (plan_read existing).
Proof. unfold plan_read. solve_persistent. Qed.
Lemma persistent_startable workload : persistent (startable workload).
Proof. unfold startable. solve_persistent_with ltac:(apply persistent_ready || apply persistent_isolated). Qed.
Lemma persistent_workload_in : persistent workload_in.
Proof. unfold workload_in. solve_persistent. Qed.

Lemma label_home_claim_wp set past (Q : list Event → () → Prop) : (∀ past', past ⊆ past' → Q past' ()) → awp (label_home_claim c w names set) past Q.
Proof.
  intros HQ. unfold label_home_claim. destruct (ws_home_volume_binding w) eqn:Hb; cbn [is_some]; [cm_step; by apply HQ|].
  cm_step; [done| |cm_step; by apply HQ]. apply cwp_bind, ownership_wp. intros Hown. cbv zeta. destruct (claim_labels_need_update _ _); [|cm_step; by apply HQ].
  cm_step; [|destruct a0; apply HQ; set_solver]. intros _. split_and!; [done..|]. by exists a.
Qed.
Lemma restart_stale_pod_wp past (Q : list Event → () → Prop) : (∀ past', past ⊆ past' → Q past' ()) → awp (restart_stale_pod c w names) past Q.
Proof.
  intros HQ. assert (awp (pod ← request_opt (GetPod ns (pod_ordinal_zero names)); match pod with
    | None => mret ()
    | Some pod => _ ← verify_delete_ownership c (po_metadata pod) w;
        if restart_generation_is_stale pod (ws_generation w) then request (DeletePod ns (pod_ordinal_zero names) NO_PRECONDITIONS) else mret () end) past Q) as Hrestart.
  { cm_step; [done| |cm_step; by apply HQ]. apply cwp_bind, ownership_wp. intros Hown.
    destruct (restart_generation_is_stale a (ws_generation w)) eqn:Hst; [|cm_step; by apply HQ].
    cm_step; [|destruct a0; apply HQ; set_solver]. intros _. split; [done|]. by exists a. }
  unfold restart_stale_pod. destruct (ws_state w); try done; cm_step; by apply HQ.
Qed.

Lemma prepare_workload_wp set existing past (Q : list Event → StatefulSet → Prop) : plan_read existing past →
  (∀ set', sent_as set set' → (∀ past', startable set past' → startable set' past') → set_read past → Q past set') → awp (prepare_workload c w names set existing) past Q.
Proof.
  intros Hr HQ. unfold prepare_workload. destruct existing as [existing|]; [|cm_step; apply HQ; [constructor|done|by left]].
  apply cwp_bind, ownership_wp. intros Hb. cm_step. cm_step. cm_step. apply HQ; [constructor| |right; by exists existing].
  intros past' [Hi [Hready|[Hg Habs]]]; (split; [done|]); [by left|right]. split; [by apply gated_preserve|done].
Qed.

Lemma workload_applied_wp set existing past : planned_workload set → plan_read existing past → startable set past →
  awp (apply_workload c w set existing) past (λ past' _, workload_in past').
Proof.
  intros Hplan Hr Hst. unfold apply_workload. apply names_wp; [done|]. apply cwp_bind, prepare_workload_wp; [done|]. intros set' Hsent Hset Hread.
  assert (workload_of set') as Hwork by by exists set.
  apply Hset in Hst. apply cwp_bind, (verify_home_wp c); [apply _|]. intros past1 Hs1.
  apply (persists _ (persistent_startable _) _ _ Hs1) in Hst as [Hiso Hstart]. apply (persists _ persistent_set_read _ _ Hs1) in Hread.
  apply cwp_bind, cwp_attempt; [by intros _|]. intros [[]|e] past2 Hs2 Ha.
  - apply cwp_bind, label_home_claim_wp. intros past3 Hs3. apply restart_stale_pod_wp. intros past4 Hs4. exists set'. unfold Answered. set_solver.
  - destruct (immutable_stateful_set_update e) eqn:He; [|by cm_step]. apply cwp_bind, (verify_home_wp c); [apply _|]. intros past3 Hs3.
    cm_step; [|by cm_step]. intros _. split_and!; [done..|apply (persists _ persistent_set_read past1); [set_solver|done]|].
    exists set', e. split; [set_solver|done].
Qed.

Definition plan_ok (plan : StartupPlan) (past : list Event) : Prop :=
  planned_workload (pl_workload plan) ∧ plan_read (pl_existing plan) past ∧
  (pl_gate plan = None ∨ pl_gate plan = Some (gate_of desired gate_name) ∧ Absent past (GetConfigMap ns gate_name)) ∧
  (pl_overlap plan = true → gated (pl_workload plan) ∧ Absent past (GetConfigMap ns gate_name)).
Lemma persistent_plan_ok plan : persistent (plan_ok plan).
Proof. unfold plan_ok, plan_read. solve_persistent. Qed.

Lemma plan_gated_wp existing past : plan_read existing past → awp (plan_gated c w desired gate_name existing) past (λ past' plan, plan_ok plan past').
Proof.
  intros Hr. unfold plan_gated. cm_step. cbv zeta. cm_step.
  assert (∀ set, add_gate (if a then annotate_set FILE_ENCODING_ANNOTATION FILE_ENCODING (dr_stateful_set desired) else dr_stateful_set desired) gate_name = Ok set
          → planned_workload set) as Hwork by (intros set; apply workload_gated).
  apply cwp_bind, cwp_request_opt; [done|intros approved past1 Hs1 Ha|intros past1 Hs1 Ha].
  - apply (cwp_seq _ _ _ _ (λ _ _, True)). { unfold check_approved. apply cwp_bind, ownership_wp. intros _. by cm_step. }
    intros past2 _ Hs2 _. cm_step. cm_step. split_and!; cbn; [by apply Hwork|apply (persists _ (persistent_plan_read _) past); [set_solver|done]|by left|done].
  - apply cwp_bind. unfold check_approved. cm_step. cm_step. cm_step. pose proof (add_gate_gated _ _ Hgive0) as Hg.
    split_and!; cbn; [by apply Hwork|by apply (persists _ (persistent_plan_read _) past)|by right|done].
Qed.
Lemma plan_gated_or_not_wp existing past : plan_read existing past →
  awp (if negb (is_new_workload w existing) && negb (is_some (existing ≫= λ set, annotation (ss_metadata set) GATE_ANNOTATION))
       then mret (mkPlan (dr_stateful_set desired) existing None false false) else plan_gated c w desired gate_name existing) past
    (λ past' plan, plan_ok plan past').
Proof.
  intros Hr. destruct (_ && _); [|by apply plan_gated_wp]. cm_step. split_and!; [constructor|done|by left|done].
Qed.

Lemma prepare_startup_plan_wp past : awp (prepare_startup_plan c w desired) past (λ past' plan, plan_ok plan past').
Proof.
  unfold prepare_startup_plan. apply names_wp; [done|]. apply cwp_bind, cwp_request_opt; [done|intros existing past1 Hs1 Ha|intros past1 Hs1 Ha].
  - eapply (cwp_seq _ _ _ _ (λ past' _, plan_read (Some existing) past')); [apply ownership_wp; by intros _|].
    intros past2 _ Hs2 Hr. by apply plan_gated_or_not_wp.
  - eapply (cwp_seq _ _ _ _ (λ past' _, plan_read None past')); [by cm_step|]. intros past2 _ Hs2 Hr. by apply plan_gated_or_not_wp.
Qed.

(** *** Everything together *)
Definition gated_in (plan : StartupPlan) (past : list Event) : Prop := pl_overlap plan = true → workload_in past.
Lemma persistent_gated_in plan : persistent (gated_in plan).
Proof. unfold gated_in, workload_in. solve_persistent. Qed.

(** The gated workload, once it is isolated. *)
Lemma gated_workload_wp plan past : plan_ok plan past → isolated past →
  awp (if pl_overlap plan then apply_workload c w (pl_workload plan) (pl_existing plan) else mret ()) past (λ past' _, gated_in plan past').
Proof.
  intros (Hwork & Hr & _ & Hg) Hiso. unfold gated_in. destruct (pl_overlap plan); [|by cm_step]. eapply cwp_mono; [apply workload_applied_wp; [done..|]|intros past1 a Hs1 Hin _; exact Hin].
  split; [done|]. right. by apply Hg.
Qed.

Lemma apply_gated_wp plan schedule past : plan_ok plan past →
  awp (apply_gated c w desired plan schedule) past (λ past' _, access_settled past' ∧ isolated past' ∧ gated_in plan past').
Proof.
  intros Hplan. unfold apply_gated. cbv zeta. destruct (overlap_identity_cleanup w desired plan).
  - eapply (try_both_wp _ _ _ _ access_settled (λ past', isolated past' ∧ gated_in plan past')); [apply persistent_access_settled| | | |by intros].
    { apply persistent_and; [apply persistent_isolated|apply persistent_gated_in]. }
    { apply apply_access_identity_wp. }
    eapply cwp_seq; [apply apply_network_policy_wp|]. intros past1 [] Hs1 Hiso.
    eapply cwp_mono; [apply gated_workload_wp; [by apply (persists _ (persistent_plan_ok _) past)|done]|].
    intros past2 [] Hs2 Hg. split; [by apply (persists _ persistent_isolated past1)|done].
  - apply (cwp_seq _ _ _ _ (λ past' _, access_settled past' ∧ isolated past')).
    { eapply try_both_wp; [apply persistent_access_settled|apply persistent_isolated|apply apply_access_identity_wp|apply apply_network_policy_wp|by split]. }
    intros past1 [] Hs1 [Hacc Hiso]. eapply cwp_mono; [apply gated_workload_wp; [by apply (persists _ (persistent_plan_ok _) past)|done]|].
    intros past2 [] Hs2 Hg. split_and!; [by apply (persists _ persistent_access_settled past1)|by apply (persists _ persistent_isolated past1)|done].
Qed.

Definition prerequisites_in (plan : StartupPlan) (past : list Event) : Prop :=
  (injections_in (pl_compress_files plan) past ∧ identity_in past ∧ scratch_in past ∧ services_in past ∧ access_settled past ∧ isolated past) ∧ gated_in plan past.
Lemma persistent_prerequisites_in plan : persistent (prerequisites_in plan).
Proof.
  unfold prerequisites_in. repeat first [apply persistent_injections_in|apply persistent_identity_in|apply persistent_scratch_in
    |apply persistent_services_in|apply persistent_access_settled|apply persistent_isolated|apply persistent_gated_in|apply persistent_and].
Qed.

Lemma apply_startup_prerequisites_wp plan schedules past : plan_ok plan past →
  awp (apply_startup_prerequisites c w desired plan schedules) past (λ past' _, prerequisites_in plan past').
Proof.
  intros Hplan. unfold apply_startup_prerequisites, prerequisites_in.
  assert (persistent (λ past', access_settled past' ∧ isolated past' ∧ gated_in plan past')) as H5.
  { apply persistent_and; [apply persistent_access_settled|]. apply persistent_and; [apply persistent_isolated|apply persistent_gated_in]. }
  assert (persistent (λ past', services_in past' ∧ access_settled past' ∧ isolated past' ∧ gated_in plan past')) as H4 by (apply persistent_and; [apply persistent_services_in|done]).
  assert (persistent (λ past', scratch_in past' ∧ services_in past' ∧ access_settled past' ∧ isolated past' ∧ gated_in plan past')) as H3 by (apply persistent_and; [apply persistent_scratch_in|done]).
  assert (persistent (λ past', identity_in past' ∧ scratch_in past' ∧ services_in past' ∧ access_settled past' ∧ isolated past' ∧ gated_in plan past')) as H2
    by (apply persistent_and; [apply persistent_identity_in|done]).
  eapply try_both_wp; [apply persistent_injections_in|exact H2|apply apply_injections_wp| |by intros past' _ ? (? & ? & ? & ? & ? & ?); split_and!].
  eapply try_both_wp; [apply persistent_identity_in|exact H3|apply apply_workspace_identity_wp| |by intros past' _ ? (? & ? & ? & ? & ?); split_and!].
  eapply try_both_wp; [apply persistent_scratch_in|exact H4|apply apply_scratch_claim_wp| |by intros past' _ ? (? & ? & ? & ?); split_and!].
  eapply try_both_wp; [apply persistent_services_in|exact H5|apply apply_workspace_services_wp| |by intros past' _ ? (? & ? & ?); split_and!].
  by apply apply_gated_wp.
Qed.

Lemma approve_wp plan past (Q : list Event → () → Prop) : plan_ok plan past → (∃ compress, ready_to_start compress past) →
  (∀ past', past ⊆ past' → Q past' ()) → awp (approve plan) past Q.
Proof.
  intros (_ & _ & Hg & _) Hready HQ. unfold approve. destruct Hg as [->|[-> Habs]]; [cm_step; by apply HQ|].
  cm_step. cm_step; [|destruct a0; by apply HQ]. by intros _.
Qed.

Lemma apply_desired_wp schedules : awp (apply_desired c w desired schedules) [] (λ past _, (∃ compress, ready_to_start compress past) ∧ workload_in past).
Proof.
  unfold apply_desired. cm_step. cm_step. apply cwp_bind, (verify_home_wp c); [apply _|]. intros past1 _.
  eapply cwp_seq.
  { apply (cwp_try_join (writes may_write) _ _ _ _ (λ _ _, True) (λ past' plan, plan_ok plan past') may_write_writes); [done| | |apply prepare_startup_plan_wp].
    - intros past0 past' plan Hs. by apply (persists _ (persistent_plan_ok _)).
    - eapply cwp_mono; [apply apply_namespace_wp|done]. }
  intros past2 [[] plan] Hs2 [_ Hplan]. cbn [fst snd] in *. cbv zeta.
  assert (∀ past3, past2 ⊆ past3 → plan_ok plan past3) as Hlater by (intros past3 Hs3; by apply (persists _ (persistent_plan_ok _) past2)).
  apply (cwp_seq _ _ _ _ (λ past' _, prerequisites_in plan past' ∧ routed past')).
  { destruct (_ && _).
    - eapply try_both_wp; [apply persistent_prerequisites_in|apply persistent_routed|by apply apply_startup_prerequisites_wp|apply apply_network_wp|by split].
    - eapply cwp_seq; [by apply apply_startup_prerequisites_wp|]. intros past3 [] Hs3 Hpre. eapply cwp_mono; [apply apply_network_wp|].
      intros past4 [] Hs4 Hr. split; [by apply (persists _ (persistent_prerequisites_in _) past3)|done]. }
  intros past3 [] Hs3 [[(Hinj & Hid & Hscr & Hsvc & Hacc & Hiso) Hg] Hr].
  assert (ready_to_start (pl_compress_files plan) past3) as Hready by by split_and!.
  apply cwp_bind, approve_wp; [by apply Hlater|by eexists|]. intros past4 Hs4. apply (persists _ (persistent_ready _) _ _ Hs4) in Hready.
  unfold gated_in in Hg. destruct (pl_overlap plan).
  - cm_step. split; [by eexists|]. apply (persists _ persistent_workload_in past3); [done|by apply Hg].
  - eapply cwp_mono; [apply workload_applied_wp; [apply Hplan|apply (Hlater past4); set_solver|]|].
    + split; [apply Hready|left; by eexists].
    + intros past5 [] Hs5 Hw. split; [|done]. eexists. by apply (persists _ (persistent_ready _) past4).
Qed.
End Named.
End ApplySafety.

(** Without names nothing is done. *)
Lemma apply_desired_unnamed (c : KubernetesCoordinator) `{UuidText} `{OwnershipErrorText} w desired schedules :
  for_workspace_names (kc_installation_id c) (ws_short_id w) = None → cwp (λ _ _ _, True) (apply_desired c w desired schedules) [] (λ _ _, False).
Proof.
  intros Hn. unfold apply_desired. cm_step. cm_step. apply cwp_bind, (verify_home_wp c); [done|]. intros past1 _.
  eapply cwp_seq; [apply (cwp_try_join (λ _ _ _, True) _ _ _ _ (λ _ _, True) (λ _ _, False)); [done|done|by intros ?| |]|by intros past2 ab _ [_ []]].
  - unfold apply_namespace. cbv zeta. cm_step; [done| |by cm_step]. apply cwp_bind. unfold verify_installation_ownership. cm_step.
    destruct (label _ _); [by cm_step|]. destruct (namespace_up_to_date _ _); by cm_step.
  - unfold prepare_startup_plan, runtime_names. rewrite Hn. apply cwp_bind. cm_step. discriminate.
Qed.

(** C9: A container of a workspace starts with its inputs in place or not at all, and
    nothing foreign is touched. Whatever the cluster answers, and however the requests
    of the branches alternate: an object is applied only as it is wanted and after it
    was read and found absent or the workspace's; only what is not wanted is deleted,
    and only if it is the workspace's; the route of the web shell comes after its
    certificate check and goes before it. What is sent as the workload is the one that is
    wanted, apart from its gate and the storage classes of its claims, and it is sent only
    when the network policy is applied; unless all inputs, identities, services, volumes and routes are in
    place it has the gate in every container and the gate was seen to be absent; the
    gate is created only when all of them are. If the run succeeds, all were applied,
    and the workload too. *)
Theorem no_start_before_inputs (c : KubernetesCoordinator) `{UuidText} `{OwnershipErrorText} {K} `{KubeServer K} w desired schedules (k : K) :
  let apply := apply_desired c w desired schedules in
  match for_workspace_names (kc_installation_id c) (ws_short_id w) with
  | None => (run apply k).1 ≠ Ok ()
  | Some runtime =>
      all_permitted (writes (may_write c w desired runtime)) [] (events apply k) ∧
      ((run apply k).1 = Ok () →
       (∃ compress, ready_to_start c w desired runtime compress (events apply k)) ∧ workload_in runtime (events apply k))
  end.
Proof.
  intros apply. destruct (for_workspace_names _ _) as [runtime|] eqn:Hn.
  - destruct (cwp_run _ apply _ k (apply_desired_wp c w desired runtime Hn schedules)) as [Hall Hdone]. split; [done|]. intros Hr. exact (Hdone () Hr).
  - assert (cwp (λ _ _ _, True) apply [] (λ _ _, False)) as Hf by by apply apply_desired_unnamed.
    destruct (cwp_run _ apply _ k Hf) as [_ Hdone]. intros Hr. exact (Hdone () Hr).
Qed.

(** ** A run on an empty cluster that accepts everything *)
Module AcceptingCluster.
#[local] Existing Instance decimal_uuid_text.
Definition missing : KubeError := mkKubeError (Some 404) "NotFound" "not found" "not found".
Definition server : KubeServer () := λ A req k,
  match req in Kube A return result KubeError A * () with
  | ApplyObject _ _ _ _ _ | ApplySet _ _ _ _ | CreateConfigMap _ _ | DeleteObject _ _ _ _ => (Ok (), k)
  | CreateClaim _ claim => (Ok claim, k)
  | _ => (Err missing, k)
  end.
Definition ownership_text : OwnershipErrorText := λ _, "not owned".
Definition coordinator : KubernetesCoordinator := mkCoordinator "inst" (λ _, None) "higress-system" None None.
Definition workspace : Workspace := set_bindings None None (set_state Provisioning ShrinkOperation.Sample.workspace).
Definition manifest (name : string) : Manifest := mkManifest (new_meta name ns ∅) (Str name).
Definition container : Container := mkContainer "workspace" None None None None None None None None None [].
Definition pod : PodSpec := mkPodSpec None None (Some false) None None [container] None None None None None None None None [].
Definition desired : DesiredResources := {|
  dr_namespace := manifest ns; dr_service := manifest "service"; dr_internal_ssh_service := None; dr_service_account := None;
  dr_cluster_role_binding := None; dr_stateful_set := mkSet (new_meta "set" ns ∅) (Some (mkSetSpec (Some 1) None None None (mkTemplate None (Some pod)) None)) None;
  dr_scratch_claim := None; dr_network_policy := manifest "policy";
  dr_injections := mkInjections (manifest "env") (manifest "file") (manifest "envs") (manifest "files") (Ok (manifest "packed"));
  dr_workspace_config := manifest "config"; dr_ssh_identity := manifest "ssh"; dr_web_shell_ingress := Some (manifest "shell");
  dr_web_shell_envoy_filter := None |}.
Definition program : CM () := @apply_desired coordinator _ ownership_text workspace desired (λ _, [false; true; false]).
Definition is_gate (e : Event) : bool := match ev_request e with CreateConfigMap _ _ => true | _ => false end.
Definition is_workload (e : Event) : bool := match ev_request e with ApplySet _ _ _ _ => true | _ => false end.

(** A new workload is sent early, the gate comes last. *)
Example new_workload_starts : (@run _ server _ program tt).1 = Ok () ∧
  length (List.filter is_workload (@events _ server _ program tt)) = 1%nat ∧
  (is_gate <$> last (@events _ server _ program tt)) = Some true.
Proof. vm_compute. by split_and!. Qed.
End AcceptingCluster.
