(* ===== verification/ClusterRoutes.v ===== *)
(** * The routes of port mappings ([src/kubernetes/client_apply/port_mappings.rs],
    [client_apply/http_proxy.rs], [kubernetes/http_proxy.rs])

    Every port mapping of a workspace has a Service, an Ingress and a network policy,
    and a certificate check at the gateway where the HTTP proxy is used; the proxy
    reads its routes from a ConfigMap. [reconcile_port_mappings] applies what the
    mappings want while it lists what is there, and then removes the rest. The objects
    are built by [RouteBuilder]; the theorem holds for any. *)
From S2P Require Import Prelude Text Json Quota Templates Workspaces Errors ShrinkOperation Quantity Database Reconcile Names WorkspaceResponse WorkloadApply Tickets Gateway KubeApi ShrinkCluster ClusterLifecycle ClusterApply.

(** The objects of a mapping and the ConfigMap with a content. *)
Class RouteBuilder := {
  port_mapping_resources : Workspace → PortMapping → result string (option (Manifest * Manifest * Manifest));
  port_mapping_tls_filter : Workspace → PortMapping → result string (option Manifest);
  http_proxy_config_map : Workspace → string → Manifest;
}.
(** [serde_json::to_string] of a text, and SHA-256 in hexadecimal. *)
Class RouteText := { json_string : string → string; sha256_hex : string → string }.

Definition mapping_name `{UuidText} (m : PortMapping) : string := "port-" +:+ uuid_simple (mp_id m).
Definition policy_name_of (name : string) : string := name +:+ "-ingress".

(** [str::trim_end_matches("-ingress")]: as often as it ends so. *)
Fixpoint trim_ingress (fuel : nat) (bs : list Z) : list Z :=
  match fuel, strip_suffix (bytes "-ingress") bs with
  | S fuel, Some bs => trim_ingress fuel bs
  | _, _ => bs
  end.
Definition policy_mapping (name : string) : list Z := trim_ingress (String.length name) (bytes name).

Definition ROUTES_ANNOTATION : string := "workspace.memeloop.dev/http-routes".

Section Routes.
Context (c : KubernetesCoordinator) `{UuidText} `{OwnershipErrorText} `{RouteBuilder} `{RouteText}.

(** ** The proxy *)
Definition http_proxy_enabled : bool := is_some (kc_ttyd_mtls c) && is_some (kc_port_mapping_domain c).

Definition own_mapping (w : Workspace) (m : PortMapping) : bool :=
  bool_decide (mp_workspace_id m = ws_id w) && bool_decide (mp_organization_id m = ws_organization_id w).
(** The hosts with their ports, in order. *)
Definition proxy_routes (w : Workspace) (domain : string) (mappings : list PortMapping) : fields :=
  foldl (λ routes m, if own_mapping w m then map_insert (mapping_host (mp_id m) domain) (Number (mp_internal_port m)) routes else routes) [] mappings.
Definition route_line (route : string * Value) : string :=
  json_string route.1 +:+ " " +:+ match route.2 with Number port => decimal_text port | _ => "" end +:+ ";" +:+ String (Ascii.ascii_of_nat 10) "".
Definition http_proxy_routes (w : Workspace) (mappings : list PortMapping) : CM (option string) :=
  if negb http_proxy_enabled then mret None
  else
    _ ← runtime_names c w;
    mret (Some (foldr (λ route text, route_line route +:+ text) "" (proxy_routes w (default "" (kc_port_mapping_domain c)) mappings))).

(** Prompts the node to refresh what the Pod sees, if it is not up to date. *)
Definition refresh_http_proxy_pod (w : Workspace) (pod_name revision : string) : CM () :=
  pod ← request_opt (GetObject KPod (Some ns) pod_name);
  match pod with
  | None => mret ()
  | Some pod =>
      _ ← verify_delete_ownership c pod w;
      if negb (is_some (md_deletion_timestamp pod)) && negb (bool_decide (annotation pod ROUTES_ANNOTATION = Some revision))
      then request_tolerating [404; 409] (PatchPod ns pod_name
             (json_object [("metadata", json_object
                [("resourceVersion", match md_resource_version pod with Some version => Str version | None => Null end);
                 ("annotations", json_object [(ROUTES_ANNOTATION, Str revision)])])]))
      else mret ()
  end.
Definition apply_http_proxy_routes (w : Workspace) (mappings : list PortMapping) : CM () :=
  config ← http_proxy_routes w mappings;
  match config with
  | None => mret ()
  | Some content =>
      runtime ← runtime_names c w;
      let names := resources_of runtime in
      _ ← apply_owned c KConfigMap (Some ns) (http_proxy_config names) (http_proxy_config_map w content) w;
      refresh_http_proxy_pod w (pod_ordinal_zero names) (sha256_hex content)
  end.

(** ** What is wanted *)
Definition filter_namespace : option string := Some (kc_higress_namespace c).
Definition apply_mapping_tls_filter (w : Workspace) (m : PortMapping) : CM (option string) :=
  filter ← cm_give (port_mapping_tls_filter w m);
  match filter with
  | None => mret None
  | Some filter =>
      let name := name_any (mf_metadata filter) in
      _ ← apply_owned c KEnvoyFilter filter_namespace name filter w;
      mret (Some name)
  end.

(** The three objects of a mapping: looked at first, then applied. *)
Definition apply_mapping_objects (w : Workspace) (name : string) (service ingress policy : Manifest) : CM () :=
  _ ← verify_existing c KService (Some ns) name w;
  _ ← verify_existing c KIngress (Some ns) name w;
  _ ← verify_existing c KNetworkPolicy (Some ns) (policy_name_of name) w;
  _ ← request (ApplyObject KService (Some ns) name FIELD_MANAGER (mf_object service));
  _ ← request (ApplyObject KIngress (Some ns) name FIELD_MANAGER (mf_object ingress));
  request (ApplyObject KNetworkPolicy (Some ns) (policy_name_of name) FIELD_MANAGER (mf_object policy)).

(** The names of the mappings and of the filters that were applied. *)
Fixpoint apply_desired_port_mappings (w : Workspace) (mappings : list PortMapping) (desired filters : gset string) : CM (gset string * gset string) :=
  match mappings with
  | [] => mret (desired, filters)
  | m :: mappings =>
      resources ← cm_give (port_mapping_resources w m);
      match resources with
      | None => apply_desired_port_mappings w mappings desired filters
      | Some (service, ingress, policy) =>
          filter ← apply_mapping_tls_filter w m;
          _ ← apply_mapping_objects w (mapping_name m) service ingress policy;
          apply_desired_port_mappings w mappings (desired ∪ {[ mapping_name m ]})
            (match filter with Some filter => filters ∪ {[ filter ]} | None => filters end)
      end
  end.

(** ** What is there *)
Record PortMappingInventory := mkInventory { in_services : list ObjectMeta; in_ingresses : list ObjectMeta; in_policies : list ObjectMeta }.
Definition list_port_mapping_inventory (w : Workspace) (schedules : nat → list bool) : CM PortMappingInventory :=
  let inventory kind := request (ListObjects kind (Some ns) (mapping_selector c w)) in
  lists ← try_join (inventory KService) (try_join (inventory KIngress) (inventory KNetworkPolicy) (schedules 1%nat)) (schedules 0%nat);
  mret (mkInventory lists.1 lists.2.1 lists.2.2).

(** Removes the workspace's objects that are not kept; one without a name stays. *)
Fixpoint prune_objects (kind : Kind) (kept : string → bool) (w : Workspace) (objects : list ObjectMeta) : CM () :=
  match objects with
  | [] => mret ()
  | object :: objects =>
      _ ← match md_name object with
          | Some name =>
              if kept name then mret ()
              else _ ← verify_delete_ownership c object w; request (DeleteObject kind (Some ns) name NO_PRECONDITIONS)
          | None => mret ()
          end;
      prune_objects kind kept w objects
  end.
Definition keeps (desired : gset string) (name : string) : bool := bool_decide (name ∈ desired).
Definition keeps_policy (desired : gset string) (name : string) : bool :=
  existsb (λ kept, bool_decide (bytes kept = policy_mapping name)) (elements desired).
Definition prune_port_mapping_inventory (w : Workspace) (desired : gset string) (inventory : PortMappingInventory) : CM () :=
  _ ← prune_objects KService (keeps desired) w (in_services inventory);
  _ ← prune_objects KIngress (keeps desired) w (in_ingresses inventory);
  prune_objects KNetworkPolicy (keeps_policy desired) w (in_policies inventory).

Fixpoint prune_filters (desired : gset string) (w : Workspace) (filters : list ObjectMeta) : CM () :=
  match filters with
  | [] => mret ()
  | filter :: filters =>
      _ ← match md_name filter with
          | Some name =>
              if keeps desired name then mret ()
              else
                _ ← verify_delete_ownership c filter w;
                uid ← cm_some (md_uid filter) "owned Higress EnvoyFilter has no UID; refusing an unguarded delete";
                request (DeleteObject KEnvoyFilter filter_namespace name (mkPreconditions (Some uid) (md_resource_version filter)))
          | None => mret ()
          end;
      prune_filters desired w filters
  end.
Definition prune_mapping_tls_filters (w : Workspace) (desired : gset string) : CM () :=
  filters ← request (ListObjects KEnvoyFilter filter_namespace (mapping_selector c w));
  prune_filters desired w filters.

(** Both branches are run to their end before their errors are looked at. *)
Definition apply_routes (w : Workspace) (mappings : list PortMapping) : CM (gset string * gset string) :=
  _ ← apply_http_proxy_routes w mappings; apply_desired_port_mappings w mappings ∅ ∅.
Definition prune_routes (w : Workspace) (applied : result string (gset string * gset string)) (inventory : result string PortMappingInventory) : CM () :=
  desired ← cm_give applied;
  inventory ← cm_give inventory;
  _ ← prune_port_mapping_inventory w desired.1 inventory;
  if http_proxy_enabled then prune_mapping_tls_filters w desired.2 else mret ().
Definition reconcile_port_mappings (w : Workspace) (mappings : list PortMapping) (schedules : nat → list bool) : CM () :=
  then_prog (join (apply_routes w mappings) (list_port_mapping_inventory w (λ i, schedules (S i))) (schedules 0%nat))
    (λ results, prune_routes w results.1 results.2).
End Routes.

(** ** Safety *)
Section RouteSafety.
Context (c : KubernetesCoordinator) `{UuidText} `{OwnershipErrorText} `{RouteBuilder} `{RouteText} (w : Workspace) (mappings : list PortMapping).
Abbreviation selector := (mapping_selector c w).
Abbreviation fns := (filter_namespace c).

(** A mapping that has objects, and its certificate check. *)
Definition routed_as (m : PortMapping) (service ingress policy : Manifest) : Prop :=
  m ∈ mappings ∧ port_mapping_resources w m = Ok (Some (service, ingress, policy)).
Definition checked (m : PortMapping) (past : list Event) : Prop :=
  ∀ filter, port_mapping_tls_filter w m = Ok (Some filter) → applied KEnvoyFilter fns (name_any (mf_metadata filter)) filter past.
Definition mapping_in (m : PortMapping) (service ingress policy : Manifest) (past : list Event) : Prop :=
  applied KService (Some ns) (mapping_name m) service past ∧ applied KIngress (Some ns) (mapping_name m) ingress past ∧
  applied KNetworkPolicy (Some ns) (policy_name_of (mapping_name m)) policy past ∧ checked m past.
Definition all_in (ms : list PortMapping) (past : list Event) : Prop :=
  ∀ m service ingress policy, m ∈ ms → port_mapping_resources w m = Ok (Some (service, ingress, policy)) → mapping_in m service ingress policy past.

Definition wanted_route (past : list Event) (kind : Kind) (namespace : option string) (name : string) (object : Value) : Prop :=
  (namespace = Some ns ∧ ∃ m service ingress policy, routed_as m service ingress policy ∧ checked m past ∧
     (kind, name, object) ∈ [(KService, mapping_name m, mf_object service); (KIngress, mapping_name m, mf_object ingress);
                             (KNetworkPolicy, policy_name_of (mapping_name m), mf_object policy)]) ∨
  (namespace = fns ∧ ∃ m filter, m ∈ mappings ∧ port_mapping_tls_filter w m = Ok (Some filter) ∧
     (kind, name, object) = (KEnvoyFilter, name_any (mf_metadata filter), mf_object filter)) ∨
  (namespace = Some ns ∧ ∃ content runtime, for_workspace_names (kc_installation_id c) (ws_short_id w) = Some runtime ∧
     (kind, name, object) = (KConfigMap, http_proxy_config (resources_of runtime), mf_object (http_proxy_config_map w content))).
(** No mapping has the object. *)
Definition superfluous (kind : Kind) (name : string) : Prop :=
  ∀ m service ingress policy, routed_as m service ingress policy →
    match kind with
    | KNetworkPolicy => bytes (mapping_name m) ≠ policy_mapping name
    | KEnvoyFilter => ∀ filter, port_mapping_tls_filter w m = Ok (Some filter) → name_any (mf_metadata filter) ≠ name
    | _ => mapping_name m ≠ name
    end.

Definition may_route (past : list Event) (A : Type) (req : Kube A) : Prop :=
  match req with
  | ApplyObject kind namespace name manager object =>
      manager = FIELD_MANAGER ∧ cleared c w kind namespace name past ∧ wanted_route past kind namespace name object
  | DeleteObject kind namespace name _ =>
      kind ∈ [KService; KIngress; KNetworkPolicy; KEnvoyFilter] ∧ superfluous kind name ∧ all_in mappings past ∧
      ∃ objects object, Answered past (ListObjects kind namespace selector) objects ∧ object ∈ objects ∧ md_name object = Some name ∧ belongs c object w
  | PatchPod namespace name _ =>
      namespace = ns ∧ ∃ pod, Answered past (GetObject KPod (Some ns) name) pod ∧ belongs c pod w ∧ md_deletion_timestamp pod = None
  | _ => False
  end.

Lemma applied_later kind namespace name m past past' : past ⊆ past' → applied kind namespace name m past → applied kind namespace name m past'.
Proof. intros Hs Ha. by eapply Answered_mono. Qed.
Lemma cleared_later kind namespace name past past' : past ⊆ past' → cleared c w kind namespace name past → cleared c w kind namespace name past'.
Proof. intros Hs. by apply (persists _ (persistent_cleared c w kind namespace name)). Qed.
Lemma checked_later m past past' : past ⊆ past' → checked m past → checked m past'.
Proof. intros Hs Hc filter Hf. eapply applied_later; [done|by apply Hc]. Qed.
Lemma all_in_later ms past past' : past ⊆ past' → all_in ms past → all_in ms past'.
Proof.
  intros Hs Ha m service ingress policy Hm Hr. destruct (Ha m service ingress policy Hm Hr) as (H3 & H4 & H5 & H6).
  split_and!; [by eapply applied_later..|by eapply checked_later].
Qed.
Lemma may_route_mono past past' A (req : Kube A) : past ⊆ past' → may_route past A req → may_route past' A req.
Proof.
  intros Hs. destruct req; cbn; try done.
  - intros [-> (pod & Ha & Hp)]. split; [done|]. exists pod. split; [by eapply Answered_mono|done].
  - intros (-> & Hc & Hw). split; [done|]. split; [by eapply cleared_later|]. destruct Hw as [(Hn & m & s & i & p & Hr & Hck & Hin)|Hw]; [left|by right].
    split; [done|]. exists m, s, i, p. split; [done|]. split; [by eapply checked_later|done].
  - intros (Hk & Hsup & Hall & objects & object & Ha & Hin). split_and!; [done|done|by eapply all_in_later|].
    exists objects, object. split; [by eapply Answered_mono|done].
Qed.

(** ** The methods *)
Abbreviation rwp := (cwp (writes may_route)).

Lemma apply_route_wp kind namespace name m past (Q : list Event → () → Prop) : cleared c w kind namespace name past →
  wanted_route past kind namespace name (mf_object m) → (∀ past', past ⊆ past' → applied kind namespace name m past' → Q past' ()) →
  rwp (request (ApplyObject kind namespace name FIELD_MANAGER (mf_object m))) past Q.
Proof. intros Hc Hw HQ. cm_step; [by intros _|]. destruct a. by apply HQ. Qed.

Lemma refresh_http_proxy_pod_wp pod_name revision past : rwp (refresh_http_proxy_pod c w pod_name revision) past (λ _ _, True).
Proof.
  unfold refresh_http_proxy_pod. cm_step; [done| |by cm_step]. apply cwp_bind, ownership_wp. intros Hb.
  destruct (md_deletion_timestamp a) eqn:Hd; cbn [is_some negb andb]; [by cm_step|]. destruct (negb _); [|by cm_step].
  cm_step; [|done]. intros _. split; [done|]. by exists a.
Qed.
Lemma apply_http_proxy_routes_wp past : rwp (apply_http_proxy_routes c w mappings) past (λ _ _, True).
Proof.
  unfold apply_http_proxy_routes. apply (cwp_seq _ _ _ _ (λ _ _, True)).
  { unfold http_proxy_routes. destruct (negb _); [by cm_step|]. unfold runtime_names. cm_step. by cm_step. }
  intros past1 config Hs1 _. destruct config as [content|]; [|by cm_step]. unfold runtime_names. cm_step. cbv zeta. apply cwp_bind. unfold apply_owned.
  apply cwp_bind, verify_existing_wp; [apply _|]. intros past2 Hs2 Hc. apply apply_route_wp; [done| |].
  - right. right. split; [done|]. by exists content, a.
  - intros past3 Hs3 _. apply refresh_http_proxy_pod_wp.
Qed.

Lemma apply_mapping_tls_filter_wp m past : m ∈ mappings → rwp (apply_mapping_tls_filter c w m) past (λ past' name,
  checked m past' ∧ ∀ filter, port_mapping_tls_filter w m = Ok (Some filter) → name = Some (name_any (mf_metadata filter))).
Proof.
  intros Hm. unfold apply_mapping_tls_filter, checked. cm_step. rewrite Hgive. destruct a as [filter|]; [|cm_step; naive_solver].
  apply cwp_bind. unfold apply_owned. apply cwp_bind, verify_existing_wp; [apply _|]. intros past2 Hs2 Hc. apply apply_route_wp; [done| |].
  - right. left. split; [done|]. by exists m, filter.
  - intros past3 Hs3 Ha. cm_step. split; [by intros ? [= <-]|by intros ? [= <-]].
Qed.

Lemma apply_mapping_objects_wp m service ingress policy past : routed_as m service ingress policy → checked m past →
  rwp (apply_mapping_objects c w (mapping_name m) service ingress policy) past (λ past' _, mapping_in m service ingress policy past').
Proof.
  intros Hr Hck. unfold apply_mapping_objects. assert (∀ past' kind name object, past ⊆ past' → (kind, name, object) ∈
      [(KService, mapping_name m, mf_object service); (KIngress, mapping_name m, mf_object ingress); (KNetworkPolicy, policy_name_of (mapping_name m), mf_object policy)] →
      wanted_route past' kind (Some ns) name object) as Hwant.
  { intros past' kind name object Hs Hin. left. split; [done|]. exists m, service, ingress, policy. split; [done|]. split; [by eapply checked_later|done]. }
  apply cwp_bind, verify_existing_wp; [apply _|]. intros past1 Hs1 Hc1. apply cwp_bind, verify_existing_wp; [apply _|]. intros past2 Hs2 Hc2.
  apply cwp_bind, verify_existing_wp; [apply _|]. intros past3 Hs3 Hc3.
  apply cwp_bind, apply_route_wp; [eapply cleared_later; [|exact Hc1]; set_solver|apply Hwant; set_solver|]. intros past4 Hs4 Ha4.
  apply cwp_bind, apply_route_wp; [eapply cleared_later; [|exact Hc2]; set_solver|apply Hwant; set_solver|]. intros past5 Hs5 Ha5.
  apply apply_route_wp; [eapply cleared_later; [|exact Hc3]; set_solver|apply Hwant; set_solver|]. intros past6 Hs6 Ha6.
  split_and!; [eapply applied_later; [|exact Ha4]; set_solver|by eapply applied_later|done|eapply checked_later; [|exact Hck]; set_solver].
Qed.

(** What is kept. *)
Definition keeps_names (ms : list PortMapping) (desired : gset string) : Prop :=
  ∀ m service ingress policy, m ∈ ms → port_mapping_resources w m = Ok (Some (service, ingress, policy)) → mapping_name m ∈ desired.
Definition keeps_filters (ms : list PortMapping) (filters : gset string) : Prop :=
  ∀ m service ingress policy filter, m ∈ ms → port_mapping_resources w m = Ok (Some (service, ingress, policy)) →
    port_mapping_tls_filter w m = Ok (Some filter) → name_any (mf_metadata filter) ∈ filters.

Definition only_names (desired kept : gset string) : Prop :=
  ∀ name, name ∈ kept → name ∈ desired ∨ ∃ m service ingress policy, routed_as m service ingress policy ∧ name = mapping_name m.

Lemma apply_desired_port_mappings_wp ms desired filters past : (∀ m, m ∈ ms → m ∈ mappings) →
  rwp (apply_desired_port_mappings c w ms desired filters) past (λ past' kept,
    all_in ms past' ∧ keeps_names ms kept.1 ∧ keeps_filters ms kept.2 ∧ desired ⊆ kept.1 ∧ filters ⊆ kept.2 ∧ only_names desired kept.1).
Proof.
  revert desired filters past. induction ms as [|m ms IH]; intros desired filters past Hms; cbn [apply_desired_port_mappings].
  { cm_step. split_and!; [by intros ? ? ? ? ?%not_elem_of_nil..|by intros ? ? ? ? ? ?%not_elem_of_nil|done|done|by left]. }
  cm_step. assert (∀ m', m' ∈ ms → m' ∈ mappings) as Hms' by (intros; apply Hms; by right). destruct a as [[[service ingress] policy]|].
  2: { eapply cwp_mono; [by apply IH|]. intros past' kept _ (Hall & Hk & Hf & Hd & Hfs & Honly).
       split_and!; [intros m' s i p [->|Hin]%elem_of_cons; [congruence|by apply Hall]|intros m' s i p [->|Hin]%elem_of_cons; [congruence|by eapply Hk]
       |intros m' s i p f [->|Hin]%elem_of_cons; [congruence|by eapply Hf]|done|done|done]. }
  eapply cwp_seq; [apply apply_mapping_tls_filter_wp, Hms; by left|]. intros past1 filter Hs1 [Hck Hname].
  eapply cwp_seq; [apply apply_mapping_objects_wp; [split; [apply Hms; by left|exact Hgive]|done]|]. intros past2 [] Hs2 Hin2.
  eapply cwp_mono; [by apply IH|]. intros past' kept Hs' (Hall & Hk & Hf & Hd & Hfs & Honly). split_and!.
  - intros m' s i p [->|Hin]%elem_of_cons Hr; [|by apply Hall]. rewrite Hgive in Hr. injection Hr as -> -> ->.
    destruct Hin2 as (Ha & Hb & Hc & Hch). split_and!; [by eapply applied_later..|by eapply checked_later].
  - intros m' s i p [->|Hin]%elem_of_cons Hr; [set_solver|by eapply Hk].
  - intros m' s i p f [->|Hin]%elem_of_cons Hr Hfl; [|by eapply Hf]. rewrite (Hname f Hfl) in Hfs. set_solver.
  - set_solver.
  - destruct filter; set_solver.
  - intros name [[Hin| ->%elem_of_singleton]%elem_of_union|Hm]%Honly; [by left| |by right]. right. exists m, service, ingress, policy.
    split; [|done]. split; [apply Hms; by left|done].
Qed.

(** The objects of a list that are not kept are gone afterwards. *)
Definition removed_from (kind : Kind) (namespace : option string) (kept : string → bool) (objects : list ObjectMeta) (past : list Event) : Prop :=
  ∀ object name, object ∈ objects → md_name object = Some name → kept name = true ∨
    ∃ preconditions, Answered past (DeleteObject kind namespace name preconditions) ().

Lemma prune_objects_wp kind kept listed objects past : kind ∈ [KService; KIngress; KNetworkPolicy; KEnvoyFilter] →
  Answered past (ListObjects kind (Some ns) selector) listed → (∀ object, object ∈ objects → object ∈ listed) → all_in mappings past →
  (∀ name, kept name = false → superfluous kind name) →
  rwp (prune_objects c kind kept w objects) past (λ past' _, removed_from kind (Some ns) kept objects past').
Proof.
  intros Hk. revert past. induction objects as [|object objects IH]; intros past Hl Hin Hall Hsup; cbn [prune_objects].
  { cm_step. by intros ? ? ?%not_elem_of_nil. }
  apply (cwp_seq _ _ _ _ (λ past' _, ∀ name, md_name object = Some name → kept name = true ∨
    ∃ preconditions, Answered past' (DeleteObject kind (Some ns) name preconditions) ())).
  { destruct (md_name object) as [name|] eqn:Hname; [|by cm_step]. destruct (kept name) eqn:Hkept; [cm_step; intros ? [= <-]; by left|].
    apply cwp_bind, ownership_wp. intros Hb. cm_step.
    - intros _. split_and!; [done|by apply Hsup|done|]. exists listed, object. split_and!; [done|apply Hin; by left|done|done].
    - destruct a. intros ? [= <-]. right. by eexists. }
  intros past1 [] Hs1 Hhead. eapply cwp_mono; [apply IH; [by eapply Answered_mono|set_solver|by eapply all_in_later|done]|].
  intros past2 [] Hs2 Htail object' name [->|Hin']%elem_of_cons Hn; [|by eapply Htail].
  destruct (Hhead name Hn) as [?|(pc & Hd)]; [by left|right]. exists pc. by eapply Answered_mono.
Qed.

Lemma prune_filters_wp desired listed filters past : Answered past (ListObjects KEnvoyFilter fns selector) listed →
  (∀ filter, filter ∈ filters → filter ∈ listed) → all_in mappings past → (∀ name, name ∉ desired → superfluous KEnvoyFilter name) →
  rwp (prune_filters c desired w filters) past (λ _ _, True).
Proof.
  revert past. induction filters as [|filter filters IH]; intros past Hl Hin Hall Hsup; cbn [prune_filters]; [by cm_step|].
  apply (cwp_seq _ _ _ _ (λ _ _, True)).
  { destruct (md_name filter) as [name|] eqn:Hname; [|by cm_step]. unfold keeps. case_bool_decide as Hkept; [by cm_step|].
    apply cwp_bind, ownership_wp. intros Hb. cm_step. cm_step; [|done].
    intros _. split_and!; [set_solver|by apply Hsup|done|]. exists listed, filter. split_and!; [done|apply Hin; by left|done|done]. }
  intros past1 [] Hs1 _. apply IH; [by eapply Answered_mono|set_solver|by eapply all_in_later|done].
Qed.

Definition listed (inventory : PortMappingInventory) (past : list Event) : Prop :=
  Answered past (ListObjects KService (Some ns) selector) (in_services inventory) ∧
  Answered past (ListObjects KIngress (Some ns) selector) (in_ingresses inventory) ∧
  Answered past (ListObjects KNetworkPolicy (Some ns) selector) (in_policies inventory).
Lemma list_inventory_wp schedules past : rwp (list_port_mapping_inventory c w schedules) past (λ past' inventory, listed inventory past').
Proof.
  assert (∀ kind past', rwp (request (ListObjects kind (Some ns) selector)) past' (λ past'' objects, Answered past'' (ListObjects kind (Some ns) selector) objects)) as Hlist.
  { intros kind past'. by cm_step. }
  assert (∀ kind, monotone (λ past' objects, Answered past' (ListObjects kind (Some ns) selector) objects)) as Hmono.
  { intros kind past0 past1 objects Hs Ha. by eapply Answered_mono. }
  unfold list_port_mapping_inventory. eapply cwp_seq.
  - apply (cwp_try_join (writes may_route)); [apply writes_monotone, may_route_mono|apply (Hmono KService)| |apply Hlist|].
    2: { apply (cwp_try_join (writes may_route)); [apply writes_monotone, may_route_mono|apply (Hmono KIngress)|apply (Hmono KNetworkPolicy)|apply Hlist|apply Hlist]. }
    intros past0 past1 [i p] Hs [Hi Hp]. split; [by apply (Hmono KIngress past0)|by apply (Hmono KNetworkPolicy past0)].
  - intros past1 [services [ingresses policies]] Hs1 (Hsv & Hi & Hp). by cm_step.
Qed.

(** What is not kept is what no mapping has. *)
Lemma not_kept desired name kind : keeps_names mappings desired → kind ∈ [KService; KIngress] → keeps desired name = false → superfluous kind name.
Proof.
  intros Hk Hkind Hn m s i p [Hm Hr]. unfold keeps in Hn. apply bool_decide_eq_false in Hn. pose proof (Hk m s i p Hm Hr) as Hin.
  assert (mapping_name m ≠ name) by (intros E; by rewrite E in Hin). apply elem_of_cons in Hkind as [->|Hkind]; [done|]. by apply list_elem_of_singleton in Hkind as ->.
Qed.
Lemma not_kept_policy desired name : keeps_names mappings desired → keeps_policy desired name = false → superfluous KNetworkPolicy name.
Proof.
  intros Hk Hn m s i p [Hm Hr] Heq. unfold keeps_policy in Hn. apply not_true_iff_false in Hn. apply Hn, existsb_exists.
  exists (mapping_name m). split; [apply list_elem_of_In, elem_of_elements; by eapply Hk|]. by apply bool_decide_eq_true.
Qed.
Lemma not_kept_filter filters name : keeps_filters mappings filters → name ∉ filters → superfluous KEnvoyFilter name.
Proof. intros Hk Hn m s i p [Hm Hr] filter Hf <-. apply Hn. by eapply Hk. Qed.

(** What no mapping has is gone. *)
Definition tidied (past : list Event) : Prop :=
  ∀ kind, kind ∈ [KService; KIngress; KNetworkPolicy] → ∃ objects, Answered past (ListObjects kind (Some ns) selector) objects ∧
    ∀ object name, object ∈ objects → md_name object = Some name → superfluous kind name →
      ∃ preconditions, Answered past (DeleteObject kind (Some ns) name preconditions) ().

Lemma kept_tidied kind kept objects past : Answered past (ListObjects kind (Some ns) selector) objects → removed_from kind (Some ns) kept objects past →
  (∀ name, kept name = true → superfluous kind name → False) → ∃ objects, Answered past (ListObjects kind (Some ns) selector) objects ∧
    ∀ object name, object ∈ objects → md_name object = Some name → superfluous kind name →
      ∃ preconditions, Answered past (DeleteObject kind (Some ns) name preconditions) ().
Proof.
  intros Hl Hr Hno. exists objects. split; [done|]. intros object name Hin Hn Hsup. destruct (Hr object name Hin Hn) as [Hk|Hd]; [by destruct (Hno name Hk)|done].
Qed.
Lemma removed_later kind namespace kept objects past past' : past ⊆ past' → removed_from kind namespace kept objects past → removed_from kind namespace kept objects past'.
Proof. intros Hs Hr object name Hin Hn. destruct (Hr object name Hin Hn) as [?|(pc & Hd)]; [by left|right]. exists pc. by eapply Answered_mono. Qed.

Lemma prune_routes_wp desired filters inventory past : all_in mappings past → keeps_names mappings desired → keeps_filters mappings filters →
  only_names ∅ desired → listed inventory past →
  rwp (prune_routes c w (Ok (desired, filters)) (Ok inventory)) past (λ past' _, all_in mappings past' ∧ tidied past').
Proof.
  intros Hall Hk Hf Honly (Hsv & Hi & Hp). unfold prune_routes. cm_step. injection Hgive as <-. cm_step. injection Hgive as <-. cbn [fst snd].
  assert (∀ name, name ∈ desired → ∃ m s i p, routed_as m s i p ∧ name = mapping_name m) as Hfrom by (intros name [Hn|Hn]%Honly; [set_solver|done]).
  unfold prune_port_mapping_inventory. eapply cwp_seq with (R := λ past' _, tidied past').
  { eapply cwp_seq; [apply (prune_objects_wp KService (keeps desired) (in_services inventory)); [set_solver|done|done|done|by intros; eapply not_kept; [done|set_solver|]]|].
    intros past1 [] Hs1 Hgone1. eapply cwp_seq.
    { apply (prune_objects_wp KIngress (keeps desired) (in_ingresses inventory)); [set_solver|by eapply Answered_mono|done|by eapply all_in_later|].
      intros; eapply not_kept; [done|set_solver|done]. }
    intros past2 [] Hs2 Hgone2. eapply cwp_mono.
    { apply (prune_objects_wp KNetworkPolicy (keeps_policy desired) (in_policies inventory)); [set_solver|eapply Answered_mono; [exact Hp|set_solver]|done|eapply all_in_later; [|exact Hall]; set_solver|].
      intros; by eapply not_kept_policy. }
    intros past3 [] Hs3 Hgone3 kind Hkind. assert (∀ kind' name, keeps desired name = true → kind' ∈ [KService; KIngress] → superfluous kind' name → False) as Hcon.
    { intros kind' name Hkept Hk' Hsup. apply bool_decide_eq_true in Hkept. destruct (Hfrom name Hkept) as (m & s & i & p & Hr & ->).
      specialize (Hsup m s i p Hr). by apply elem_of_cons in Hk' as [->|Hk'%list_elem_of_singleton]; [|subst kind']. }
    apply elem_of_cons in Hkind as [->|[->| ->%list_elem_of_singleton]%elem_of_cons].
    - apply (kept_tidied _ (keeps desired) (in_services inventory)); [eapply Answered_mono; [exact Hsv|set_solver]|eapply removed_later; [|exact Hgone1]; set_solver|].
      intros name Hn. apply (Hcon KService name Hn). set_solver.
    - apply (kept_tidied _ (keeps desired) (in_ingresses inventory)); [eapply Answered_mono; [exact Hi|set_solver]|by eapply removed_later|].
      intros name Hn. apply (Hcon KIngress name Hn). set_solver.
    - apply (kept_tidied _ (keeps_policy desired) (in_policies inventory)); [eapply Answered_mono; [exact Hp|set_solver]|done|].
      intros name (kept & Hin & Heq%bool_decide_eq_true)%existsb_exists Hsup. apply list_elem_of_In, elem_of_elements in Hin.
      destruct (Hfrom kept Hin) as (m & s & i & p & Hr & ->). by apply (Hsup m s i p Hr). }
  intros past1 [] Hs1 Ht. assert (all_in mappings past1) as Hall1 by by eapply all_in_later.
  assert (∀ past', past1 ⊆ past' → all_in mappings past' ∧ tidied past') as Hdone.
  { intros past' Hs. split; [by eapply all_in_later|]. intros kind Hkind. destruct (Ht kind Hkind) as (objects & Ha & Hd). exists objects.
    split; [by eapply Answered_mono|]. intros object name Hin Hn Hsup. destruct (Hd object name Hin Hn Hsup) as (pc & Hdel). exists pc. by eapply Answered_mono. }
  destruct (http_proxy_enabled c); [|cm_step; by apply Hdone]. unfold prune_mapping_tls_filters. cm_step; [done|].
  eapply cwp_mono; [apply (prune_filters_wp filters a); [done|done|by eapply all_in_later|by intros; eapply not_kept_filter]|].
  intros past2 [] Hs2 _. apply Hdone. set_solver.
Qed.

Definition is_ok {A} (Q : list Event → A → Prop) (past : list Event) (r : result string A) : Prop := ∀ a, r = Ok a → Q past a.
Lemma reconcile_port_mappings_wp schedules : rwp (reconcile_port_mappings c w mappings schedules) [] (λ past _, all_in mappings past ∧ tidied past).
Proof.
  unfold reconcile_port_mappings. apply wp_then. eapply wp_mono; [apply (wp_join (writes may_route)) with
    (Q1 := is_ok (λ past' kept, all_in mappings past' ∧ keeps_names mappings kept.1 ∧ keeps_filters mappings kept.2 ∧ only_names ∅ kept.1))
    (Q2 := is_ok (λ past' inventory, listed inventory past')); [apply writes_monotone, may_route_mono| | | |apply list_inventory_wp]|].
  - intros past0 past1 r Hs Hr kept Hk. destruct (Hr kept Hk) as [Ha Hrest]. split; [by eapply all_in_later|done].
  - intros past0 past1 r Hs Hr inventory Hk. destruct (Hr inventory Hk) as (Hl1 & Hl2 & Hl3). split_and!; by eapply Answered_mono.
  - unfold apply_routes. eapply cwp_seq; [apply apply_http_proxy_routes_wp|]. intros past1 [] Hs1 _.
    eapply cwp_mono; [by apply apply_desired_port_mappings_wp|]. intros past2 kept _ (Hall & Hk & Hf & _ & _ & Honly). by split_and!.
  - intros past' [[[desired filters]|e] [inventory|e']] _ [Hk Hl]; cbn [fst snd] in *; [|by intros ? [=]|by intros ? [=]|by intros ? [=]].
    destruct (Hk _ eq_refl) as (Hall & Hkn & Hkf & Honly). by apply prune_routes_wp; [..|exact (Hl _ eq_refl)].
Qed.
End RouteSafety.

(** The policy of a mapping is recognised, since an identifier has 32 digits. *)
Lemma policy_mapping_name `{UuidSimpleLaws} m : (8 <= length (bytes (uuid_simple (mp_id m))))%nat →
  policy_mapping (policy_name_of (mapping_name m)) = bytes (mapping_name m).
Proof.
  intros Hlen. unfold policy_mapping, policy_name_of. set (name := mapping_name m).
  assert (strip_suffix (bytes "-ingress") (bytes name) = None) as Hnone.
  { destruct (strip_suffix _ _) as [rest|] eqn:E; [|done]. apply strip_suffix_Some in E. unfold name, mapping_name in E. rewrite bytes_app in E.
    pose proof (uuid_simple_alphabet (mp_id m)) as Halpha. rewrite forallb_forall in Halpha.
    assert (c_dash ∈ bytes (uuid_simple (mp_id m))) as Hin.
    { assert (5 <= length rest)%nat as Hrest by (apply (f_equal length) in E; rewrite !length_app in E; change (length (bytes "port-")) with 5%nat in E; change (length (bytes "-ingress")) with 8%nat in E; lia).
      apply (f_equal (drop 5)) in E. rewrite drop_app_length' in E by done. rewrite E, drop_app_le by done. apply elem_of_app. right. by left. }
    apply list_elem_of_In, Halpha in Hin. done. }
  assert (∀ fuel, (0 < fuel)%nat → trim_ingress fuel (bytes (name +:+ "-ingress")) = bytes name) as Htrim.
  { intros [|fuel] Hf; [lia|]. rewrite bytes_app. cbn [trim_ingress]. rewrite (proj2 (strip_suffix_Some _ _ (bytes name))) by done.
    destruct fuel; [done|]. cbn [trim_ingress]. by rewrite Hnone. }
  apply Htrim. unfold name, mapping_name. apply Nat.lt_0_succ.
Qed.

(** C10: the routes of a workspace become what its mappings say, and nothing foreign is
    touched. Whatever the cluster answers, an object is applied only after it was read
    and found absent or the workspace's, and the objects of a mapping only after its
    certificate check. An object is removed only if it was listed with the labels of
    the workspace's mappings and is the workspace's, no mapping has it, and everything
    the mappings want was applied before. If the run succeeds, every mapping has its
    objects, and what no mapping has is gone. *)
Theorem routes_follow_mappings (c : KubernetesCoordinator) `{UuidText} `{OwnershipErrorText} `{RouteBuilder} `{RouteText} {K} `{KubeServer K}
    w mappings schedules (k : K) :
  let reconciliation := reconcile_port_mappings c w mappings schedules in
  all_permitted (writes (may_route c w mappings)) [] (events reconciliation k) ∧
  ((run reconciliation k).1 = Ok () → all_in c w mappings (events reconciliation k) ∧ tidied c w mappings (events reconciliation k)).
Proof.
  intros reconciliation. destruct (cwp_run _ reconciliation _ k (reconcile_port_mappings_wp c w mappings schedules)) as [Hall Hdone].
  split; [done|]. intros Hr. exact (Hdone () Hr).
Qed.
