(* ===== verification/Manifests.v ===== *)
(** * What the control plane applies, piece by piece

    The metadata, services, routes and certificate checks of a workspace
    ([src/kubernetes/resource_helpers.rs], [higress.rs], [envoy_filter.rs],
    [port_mappings.rs], [http_proxy.rs]). An object is a record of what the code sets;
    its [Manifest] is the JSON that is sent. *)
From S2P Require Import Prelude Text Json Templates Workspaces Database Crypto InjectionStore Names SshStore WorkspaceResponse Tickets Gateway KubeApi ShrinkCluster ClusterLifecycle ClusterApply ClusterRoutes.

(** ** JSON *)

(** An object without the members that are not set. *)
Definition set_fields (entries : list (string * option Value)) : Value := json_object (omap (λ kv, (kv.1,.) <$> kv.2) entries).
Definition strings_json (texts : list string) : Value := Array (Str <$> texts).

(** Of the metadata, what the builders set. *)
Definition meta_json (m : ObjectMeta) : Value :=
  set_fields [("annotations", labels_json <$> md_annotations m); ("labels", labels_json <$> md_labels m);
              ("name", Str <$> md_name m); ("namespace", Str <$> md_namespace m)].
Definition manifest (api_version kind : string) (m : ObjectMeta) (members : list (string * option Value)) : Manifest :=
  mkManifest m (set_fields ([("apiVersion", Some (Str api_version)); ("kind", Some (Str kind)); ("metadata", Some (meta_json m))] ++ members)).

Definition annotated (annotations : option (gmap string string)) (m : ObjectMeta) : ObjectMeta :=
  mkMeta (md_name m) (md_namespace m) (md_uid m) (md_resource_version m) (md_generation m) (md_labels m) (md_owner_references m)
    (md_deletion_timestamp m) annotations (md_creation_timestamp m).

(** The labels of the Pods of a workspace. *)
Definition pod_labels (labels : gmap string string) : gmap string string := <["app.kubernetes.io/component" := "workspace"]> labels.

Definition mount (name path : string) (read_only : bool) : VolumeMount := mkMount name path (Some read_only) Null.

(** ** The certificates of the gateway ([src/kubernetes/ttyd_mtls.rs]) *)
Definition dns_label_byte (b : Z) : bool := is_ascii_lowercase b || is_ascii_digit b || (b =? c_dash).
Definition valid_namespace_label (value : string) : bool :=
  (len value <=? 63) && negb (String.eqb value "") && starts_with is_ascii_alphanumeric (bytes value)
  && ends_with is_ascii_alphanumeric (bytes value) && forallb dns_label_byte (bytes value).
Definition valid_subdomain_part (part : list Z) : bool :=
  let edge b := is_ascii_lowercase b || is_ascii_digit b in
  negb (bool_decide (part = [])) && (Z.of_nat (length part) <=? 63) && forallb dns_label_byte part && starts_with edge part && ends_with edge part.
Definition valid_dns_subdomain (value : string) : bool :=
  negb (String.eqb value "") && (len value <=? 253) && forallb valid_subdomain_part (split_on c_dot (bytes value)).

Inductive TtydMtlsConfigError := InvalidSecretReference | InvalidClientSecretNamespace.
Definition mtls_validate (mtls : TtydMtlsConfig) : result TtydMtlsConfigError () :=
  if negb (forallb valid_dns_subdomain [server_tls_secret_name mtls; client_ca_secret_name mtls; higress_client_secret_name mtls])
  then Err InvalidSecretReference
  else ensure (valid_namespace_label (higress_client_secret_namespace mtls)) InvalidClientSecretNamespace.
Definition new_mtls_config (server client_ca namespace client : string) : result TtydMtlsConfigError TtydMtlsConfig :=
  let config := mkMtls server client_ca namespace client in
  _ ← mtls_validate config; Ok config.

(** ** Services *)
Record PortSpec := mkPortSpec { ps_name : string; ps_port : Z; ps_target_port : Z }.
Record ServiceSpec := mkServiceSpec {
  sv_metadata : ObjectMeta;
  sv_type : string;
  sv_publish_not_ready : option bool;
  sv_selector : gmap string string;
  sv_ports : list PortSpec;
}.
Definition port_json (port : PortSpec) : Value :=
  json_object [("name", Str (ps_name port)); ("port", Number (ps_port port)); ("protocol", Str "TCP"); ("targetPort", Number (ps_target_port port))].
Definition service_manifest (s : ServiceSpec) : Manifest :=
  manifest "v1" "Service" (sv_metadata s)
    [("spec", Some (set_fields [("ports", Some (Array (port_json <$> sv_ports s))); ("publishNotReadyAddresses", Bool <$> sv_publish_not_ready s);
                                ("selector", Some (labels_json (sv_selector s))); ("type", Some (Str (sv_type s)))]))].

Definition service_port (name : string) (port : Z) : PortSpec := mkPortSpec name port port.
Definition workspace_service (runtime : WorkspaceRuntimeNames) (labels selector : gmap string string) : ServiceSpec :=
  mkServiceSpec (new_meta (service (resources_of runtime)) (namespace runtime) labels) "ClusterIP" (Some true) selector
    [service_port "ssh" 2222; service_port "web-shell" 7681].
Definition internal_ssh_service (runtime : WorkspaceRuntimeNames) (labels selector : gmap string string) (mode : AccessMode) (enabled : bool) : option ServiceSpec :=
  if enabled && bool_decide (mode = Internal)
  then Some (mkServiceSpec (new_meta (ssh_service (resources_of runtime)) (namespace runtime) labels) "NodePort" (Some true) selector [service_port "ssh" 2222])
  else None.

(** ** Identities *)
Definition cluster_admin_service_account (runtime : WorkspaceRuntimeNames) (labels : gmap string string) (enabled : bool) : option Manifest :=
  if enabled
  then Some (manifest "v1" "ServiceAccount" (new_meta (service_account (resources_of runtime)) (namespace runtime) labels)
               [("automountServiceAccountToken", Some (Bool true))])
  else None.
Definition cluster_admin_binding (name : string) (runtime : WorkspaceRuntimeNames) (labels : gmap string string) (enabled : bool) : option Manifest :=
  if enabled
  then Some (manifest "rbac.authorization.k8s.io/v1" "ClusterRoleBinding"
               (mkMeta (Some name) None None None None (Some labels) None None None None)
               [("roleRef", Some (json_object [("apiGroup", Str "rbac.authorization.k8s.io"); ("kind", Str "ClusterRole"); ("name", Str "cluster-admin")]));
                ("subjects", Some (Array [json_object [("kind", Str "ServiceAccount"); ("name", Str (service_account (resources_of runtime)));
                                                       ("namespace", Str (namespace runtime))]]))])
  else None.

(** [ByteString] is written in base64. *)
Definition byte_string `{Base64Codec} (bs : list Z) : Value := Str (base64_encode (octets (string_of_bytes bs))).
Definition ssh_identity_data `{Base64Codec} (identity : WorkspaceSshIdentity) : Value :=
  json_object [("ssh_host_ed25519_key", byte_string (bytes (private_key identity)));
               ("ssh_host_ed25519_key.pub", byte_string (bytes (public_key (public identity))))].
Definition ssh_identity `{Base64Codec} (runtime : WorkspaceRuntimeNames) (labels : gmap string string) (identity : option WorkspaceSshIdentity) : Manifest :=
  manifest "v1" "Secret" (new_meta (ssh_identity_secret (resources_of runtime)) (namespace runtime) labels)
    [("data", ssh_identity_data <$> identity); ("type", Some (Str "Opaque"))].

(** ** Routes of the gateway *)
Record IngressObject := mkIngressObject {
  in_metadata : ObjectMeta;
  in_tls : option (string * string);  (** the host and the name of the Secret *)
  in_host : string;
  in_path : string;
  in_service : string;
  in_port : Z;
}.
Definition ingress_manifest (i : IngressObject) : Manifest :=
  let backend := json_object [("service", json_object [("name", Str (in_service i)); ("port", json_object [("number", Number (in_port i))])])] in
  let path := json_object [("backend", backend); ("path", Str (in_path i)); ("pathType", Str "Prefix")] in
  let rule := json_object [("host", Str (in_host i)); ("http", json_object [("paths", Array [path])])] in
  let tls '(host, secret) := Array [json_object [("hosts", strings_json [host]); ("secretName", Str secret)]] in
  manifest "networking.k8s.io/v1" "Ingress" (in_metadata i)
    [("spec", Some (set_fields [("ingressClassName", Some (Str "nginx")); ("rules", Some (Array [rule])); ("tls", tls <$> in_tls i)]))].

(** The name in the certificate of a workspace. *)
Definition service_fqdn (name namespace : string) : string := name +:+ "." +:+ namespace +:+ ".svc.cluster.local".
Definition upstream_tls_annotations (runtime : WorkspaceRuntimeNames) (mtls : TtydMtlsConfig) : gmap string string :=
  list_to_map [
    ("nginx.ingress.kubernetes.io/backend-protocol", "HTTPS");
    ("nginx.ingress.kubernetes.io/proxy-ssl-secret", higress_client_secret_namespace mtls +:+ "/" +:+ higress_client_secret_name mtls);
    ("nginx.ingress.kubernetes.io/proxy-ssl-name", service_fqdn (service (resources_of runtime)) (namespace runtime));
    ("nginx.ingress.kubernetes.io/proxy-ssl-server-name", "on");
    ("nginx.ingress.kubernetes.io/proxy-ssl-verify", "on")].
Definition web_shell_route (runtime : WorkspaceRuntimeNames) (labels : gmap string string) (domain : string) (mtls : option TtydMtlsConfig) : IngressObject :=
  mkIngressObject
    (annotated (upstream_tls_annotations runtime <$> mtls) (new_meta (web_shell_ingress (resources_of runtime)) (namespace runtime) labels))
    None domain (web_shell_path runtime) (service (resources_of runtime)) 7681.

(** ** Certificate checks

    [web_shell_san_filter], with the cluster it matches. *)
Definition cluster_json (service : string) (port : Z) : Value := json_object [("portNumber", Number port); ("service", Str service)].
Definition san_filter (runtime : WorkspaceRuntimeNames) (name : string) (cluster : Value) (labels : gmap string string)
    (gateway_namespace : string) (gateway_labels : gmap string string) (mtls : TtydMtlsConfig) : Manifest :=
  let exact := json_object [("matcher", json_object [("exact", Str (service_fqdn (service (resources_of runtime)) (namespace runtime)))]); ("san_type", Str "DNS")] in
  let sds := json_object [("name", Str ("kubernetes-ingress://Kubernetes/" +:+ gateway_namespace +:+ "/" +:+ higress_client_secret_name mtls +:+ "-cacert"));
                          ("sds_config", json_object [("ads", json_object []); ("resource_api_version", Str "V3")])] in
  let validation := json_object [("default_validation_context", json_object [("match_typed_subject_alt_names", Array [exact])]);
                                 ("validation_context_sds_secret_config", sds)] in
  let config := json_object [("@type", Str "type.googleapis.com/envoy.extensions.transport_sockets.tls.v3.UpstreamTlsContext");
                             ("common_tls_context", json_object [("combined_validation_context", validation)])] in
  let socket := json_object [("transport_socket", json_object [("name", Str "envoy.transport_sockets.tls"); ("typed_config", config)])] in
  let patch := json_object [("applyTo", Str "CLUSTER"); ("match", json_object [("cluster", cluster); ("context", Str "GATEWAY")]);
                            ("patch", json_object [("operation", Str "MERGE"); ("value", socket)])] in
  manifest "networking.istio.io/v1alpha3" "EnvoyFilter" (new_meta name gateway_namespace labels)
    [("spec", Some (json_object [("configPatches", Array [patch]); ("workloadSelector", json_object [("labels", labels_json gateway_labels)])]))].
Definition web_shell_san_filter (runtime : WorkspaceRuntimeNames) (labels : gmap string string)
    (gateway_namespace : string) (gateway_labels : gmap string string) (mtls : TtydMtlsConfig) : Manifest :=
  san_filter runtime (web_shell_envoy_filter (resources_of runtime))
    (cluster_json (service_fqdn (service (resources_of runtime)) (namespace runtime)) 7681) labels gateway_namespace gateway_labels mtls.

(** ** Port mappings *)
Definition PORT : Z := 8443.

Section Mappings.
Context `{UuidText}.

Definition mapping_labels (labels : gmap string string) (m : PortMapping) : gmap string string :=
  <[PORT_MAPPING_ID_LABEL := uuid_to_string (mp_id m)]> labels.
(** [port_mappings::resources]. *)
Definition mapping_service (runtime : WorkspaceRuntimeNames) (labels selector : gmap string string) (m : PortMapping) : ServiceSpec :=
  mkServiceSpec (new_meta (mapping_name m) (namespace runtime) (mapping_labels labels m)) "ClusterIP" None selector
    [service_port "http" (mp_internal_port m)].
Definition mapping_route (runtime : WorkspaceRuntimeNames) (labels : gmap string string) (wildcard_domain : string) (m : PortMapping) : IngressObject :=
  mkIngressObject (new_meta (mapping_name m) (namespace runtime) (mapping_labels labels m))
    (Some (mapping_host (mp_id m) wildcard_domain, "mwc-port-mapping-tls")) (mapping_host (mp_id m) wildcard_domain) "/" (mapping_name m) (mp_internal_port m).

(** [secure_mapping], of the service and the route: the proxy stands before the
    application. *)
Definition secure_port (port : PortSpec) : PortSpec := mkPortSpec (ps_name port) (ps_port port) PORT.
Definition secure_service (s : ServiceSpec) : ServiceSpec :=
  mkServiceSpec (sv_metadata s) (sv_type s) (sv_publish_not_ready s) (sv_selector s)
    match sv_ports s with port :: ports => secure_port port :: ports | [] => [] end.
Definition secure_route (runtime : WorkspaceRuntimeNames) (mtls : TtydMtlsConfig) (i : IngressObject) : IngressObject :=
  mkIngressObject (annotated (Some (upstream_tls_annotations runtime mtls)) (in_metadata i)) (in_tls i) (in_host i) (in_path i) (in_service i) (in_port i).

(** The filter of a mapping pins the certificate to the workspace, for the service
    of the mapping. *)
Definition mapping_san_filter (runtime : WorkspaceRuntimeNames) (labels : gmap string string)
    (gateway_namespace : string) (gateway_labels : gmap string string) (mtls : TtydMtlsConfig) (m : PortMapping) : Manifest :=
  san_filter runtime (mapping_name m +:+ "-san") (cluster_json (service_fqdn (mapping_name m) (namespace runtime)) (mp_internal_port m))
    (mapping_labels labels m) gateway_namespace gateway_labels mtls.
End Mappings.
