(* ===== verification/NetworkPolicies.v ===== *)
(** * The network of a workspace ([src/kubernetes/network_policy.rs],
    [internet_egress.rs], [port_mappings.rs])

    Which policies are built, and what they let through. Networks and their texts are
    those of the ipnet crate, given by [IpNets]; the laws ask of it that networks are
    nested or apart. [admits_ingress] and [admits_egress] say what a policy lets
    through, as Kubernetes documents it. *)
From stdpp Require Import sorting.
From S2P Require Import Prelude Text Json Templates Workspaces Database Net Names Tickets KubeApi ShrinkCluster ClusterLifecycle ClusterApply ClusterRoutes Manifests.

(** ** Networks *)
Definition TAILNET : string := "100.64.0.0/10".
Definition PRIVATE_OR_RESERVED_IPV4 : list string := [
  "0.0.0.0/8"; "10.0.0.0/8"; "100.64.0.0/10"; "127.0.0.0/8"; "169.254.0.0/16"; "172.16.0.0/12"; "192.0.0.0/24"; "192.0.2.0/24";
  "192.31.196.0/24"; "192.52.193.0/24"; "192.88.99.0/24"; "192.175.48.0/24"; "192.168.0.0/16"; "198.18.0.0/15"; "198.51.100.0/24";
  "203.0.113.0/24"; "224.0.0.0/4"; "240.0.0.0/4"].
Definition PRIVATE_OR_RESERVED_IPV6 : list string := ["2001::/23"; "2001:db8::/32"; "2002::/16"; "3fff::/20"].
Definition ALL_IPV4 : string := "0.0.0.0/0".
Definition GLOBAL_IPV6 : string := "2000::/3".
Definition STATIC_CIDRS : list string := [TAILNET; ALL_IPV4; GLOBAL_IPV6] ++ PRIVATE_OR_RESERVED_IPV4 ++ PRIVATE_OR_RESERVED_IPV6.

Class IpNets (Network : Type) := {
  net_parse : string → option Network;
  net_text : Network → string;
  net_is_ipv4 : Network → bool;             (** [addr().is_ipv4()] *)
  net_contains : Network → Network → bool;  (** [contains(&IpNet)] *)
  net_has : Network → IpAddr → bool;        (** [contains(&IpAddr)] *)
  net_of_addr : IpAddr → Network;           (** [IpNet::from]: the address alone *)
}.

Definition addr_is_ipv4 (a : IpAddr) : bool := match a with V4 _ _ _ _ => true | V6 _ => false end.

Class IpNetLaws {Network} `{IpNets Network} : Prop := {
  net_parse_text n : net_parse (net_text n) = Some n;
  net_family n a : net_has n a = true → addr_is_ipv4 a = net_is_ipv4 n;
  net_contains_has n m a : net_contains n m = true → net_has m a = true → net_has n a = true;
  net_nested n m a : net_has n a = true → net_has m a = true → net_contains n m = true ∨ net_contains m n = true;
  net_has_own a : net_has (net_of_addr a) a = true;
  net_static text : text ∈ STATIC_CIDRS → is_Some (net_parse text);
}.

(** ** Policies *)
Record IpBlock := mkBlock { ib_cidr : string; ib_except : option (list string) }.
Record PolicyPeer := mkPeer {
  pe_namespace_selector : option LabelSelector;
  pe_pod_selector : option LabelSelector;
  pe_ip_block : option IpBlock;
}.
Record PolicyPort := mkPolicyPort { pp_port : option Z; pp_protocol : option string }.
(** A rule for incoming or outgoing traffic: [from] or [to], and [ports]. *)
Record PolicyRule := mkRule { ru_peers : option (list PolicyPeer); ru_ports : option (list PolicyPort) }.
Record PolicySpecification := mkPolicy {
  pol_metadata : ObjectMeta;
  pol_pod_selector : LabelSelector;
  pol_types : list string;
  pol_ingress : option (list PolicyRule);
  pol_egress : option (list PolicyRule);
}.

Definition selecting (labels : gmap string string) : LabelSelector := mkSelector (Some labels) None.
Definition peer_of_block (block : IpBlock) : PolicyPeer := mkPeer None None (Some block).
Definition NAMESPACE_NAME_LABEL : string := "kubernetes.io/metadata.name".
Definition peer_of_pods (namespace : string) (labels : gmap string string) : PolicyPeer :=
  mkPeer (Some (selecting {[ NAMESPACE_NAME_LABEL := namespace ]})) (Some (selecting labels)) None.
Definition network_port (protocol : string) (port : Z) : PolicyPort := mkPolicyPort (Some port) (Some protocol).

(** As they are sent. *)
Definition selector_json (s : LabelSelector) : Value := set_fields [("matchLabels", labels_json <$> ls_match_labels s); ("matchExpressions", Array <$> ls_match_expressions s)].
Definition peer_json (p : PolicyPeer) : Value :=
  let block b := set_fields [("cidr", Some (Str (ib_cidr b))); ("except", strings_json <$> ib_except b)] in
  set_fields [("ipBlock", block <$> pe_ip_block p); ("namespaceSelector", selector_json <$> pe_namespace_selector p);
              ("podSelector", selector_json <$> pe_pod_selector p)].
Definition policy_port_json (p : PolicyPort) : Value := set_fields [("port", Number <$> pp_port p); ("protocol", Str <$> pp_protocol p)].
Definition rule_json (peers : string) (r : PolicyRule) : Value :=
  set_fields [(peers, (λ ps, Array (peer_json <$> ps)) <$> ru_peers r); ("ports", (λ ps, Array (policy_port_json <$> ps)) <$> ru_ports r)].
Definition policy_manifest (p : PolicySpecification) : Manifest :=
  manifest "networking.k8s.io/v1" "NetworkPolicy" (pol_metadata p)
    [("spec", Some (set_fields [("egress", (λ rs, Array (rule_json "to" <$> rs)) <$> pol_egress p); ("ingress", (λ rs, Array (rule_json "from" <$> rs)) <$> pol_ingress p);
                                ("podSelector", Some (selector_json (pol_pod_selector p))); ("policyTypes", Some (strings_json (pol_types p)))]))].

(** ** Incoming traffic *)
Definition ingress_rule (namespace : string) (pod_labels : gmap string string) (port : Z) : PolicyRule :=
  mkRule (Some [peer_of_pods namespace pod_labels]) (Some [network_port "TCP" port]).
Definition ingress_rule_with_ip_blocks (namespace : string) (pod_labels : gmap string string) (source_cidrs : list string) (port : Z) : PolicyRule :=
  let rule := ingress_rule namespace pod_labels port in
  mkRule (Some (default [] (ru_peers rule) ++ ((λ cidr, peer_of_block (mkBlock cidr None)) <$> source_cidrs))) (ru_ports rule).
Definition internal_cluster_ssh_rule (tailnet_enabled : bool) : PolicyRule :=
  mkRule (Some (mkPeer (Some (mkSelector None None)) None None :: (if tailnet_enabled then [peer_of_block (mkBlock TAILNET None)] else [])))
    (Some [network_port "TCP" 2222]).

(** ** Outgoing traffic *)
(** What an operator configured; the observed blocks are shared by its clones. *)
Record InternetEgressConfig (Network : Type) := mkEgress {
  ie_dns_namespace : string;
  ie_dns_pod_labels : gmap string string;
  ie_additional_blocked_cidrs : list Network;
  ie_observed_blocked_cidrs : list Network;
}.
Arguments mkEgress {_}.
Arguments ie_dns_namespace {_}.
Arguments ie_dns_pod_labels {_}.
Arguments ie_additional_blocked_cidrs {_}.
Arguments ie_observed_blocked_cidrs {_}.

Section Egress.
Context {Network : Type} `{EqDecision Network} `{IpNets Network}.

Definition text_before (n m : Network) : Prop := String.leb (net_text n) (net_text m) = true.
#[local] Instance text_before_dec : RelDecision text_before := λ n m, decide (String.leb (net_text n) (net_text m) = true).

(** The observed blocks after some addresses were seen, and how many are new. *)
Definition remember_blocked_addresses (config : InternetEgressConfig Network) (addresses : list IpAddr) : nat * InternetEgressConfig Network :=
  let observed := foldl (λ observed address, let cidr := net_of_addr address in
      if bool_decide (cidr ∈ ie_additional_blocked_cidrs config) || bool_decide (cidr ∈ observed) then observed else observed ++ [cidr])
      (ie_observed_blocked_cidrs config) addresses in
  let observed := merge_sort text_before observed in
  ((length observed - length (ie_observed_blocked_cidrs config))%nat,
   mkEgress (ie_dns_namespace config) (ie_dns_pod_labels config) (ie_additional_blocked_cidrs config) observed).
Definition blocked_cidrs (config : InternetEgressConfig Network) : list Network :=
  ie_additional_blocked_cidrs config ++ ie_observed_blocked_cidrs config.

Inductive InternetEgressConfigError := DnsNamespace | DnsPodLabels.
Definition is_dns_pod_label (kv : string * string) : bool :=
  negb (String.eqb kv.1 "") && (len kv.1 <=? 253) && (len kv.2 <=? 63)
  && negb (existsb is_whitespace (chars kv.1)) && negb (existsb is_whitespace (chars kv.2)).
Definition egress_validate (config : InternetEgressConfig Network) : result InternetEgressConfigError () :=
  if negb (valid_namespace_label (ie_dns_namespace config)) then Err DnsNamespace
  else if bool_decide (ie_dns_pod_labels config = ∅) || negb (forallb is_dns_pod_label (map_to_list (ie_dns_pod_labels config))) then Err DnsPodLabels
  else Ok ().

Definition dns_egress_rule (namespace : string) (pod_labels : gmap string string) : PolicyRule :=
  mkRule (Some [peer_of_pods namespace pod_labels]) (Some [network_port "UDP" 53; network_port "TCP" 53]).

(** A range cannot be named in a rule that blocks all of it. *)
Definition public_egress_rule (cidr : string) (default_except : list string) (blocked : list Network) : option PolicyRule :=
  allowed ← net_parse cidr;
  if existsb (λ blocked, net_contains blocked allowed) blocked then None
  else
    let except := default_except
      ++ (net_text <$> List.filter (λ blocked, Bool.eqb (net_is_ipv4 blocked) (net_is_ipv4 allowed) && net_contains allowed blocked) blocked) in
    Some (mkRule (Some [peer_of_block (mkBlock cidr (Some except))]) None).

Definition internet_egress_rules (config : InternetEgressConfig Network) : list PolicyRule :=
  let blocked := blocked_cidrs config in
  [dns_egress_rule (ie_dns_namespace config) (ie_dns_pod_labels config)]
  ++ option_list (public_egress_rule ALL_IPV4 PRIVATE_OR_RESERVED_IPV4 blocked)
  ++ option_list (public_egress_rule GLOBAL_IPV6 PRIVATE_OR_RESERVED_IPV6 blocked).
End Egress.

(** ** The policies *)
Section Policies.
Context {Network : Type} `{EqDecision Network} `{IpNets Network}.

(** [network_policy::build]; the builder has refused a template for the internet only
    without a configuration, which would panic here. *)
Definition workspace_policy (runtime : WorkspaceRuntimeNames) (labels selector : gmap string string)
    (higress_namespace : string) (higress_pod_labels : gmap string string) (higress_source_cidrs : list string)
    (internet_egress : option (InternetEgressConfig Network)) (jump_host_namespace : string) (jump_host_pod_labels : gmap string string)
    (mode : AccessMode) (egress : EgressPolicy) (internal_ssh_node_port_enabled : bool) : option PolicySpecification :=
  let ssh_rule := match mode with
                  | Public => ingress_rule jump_host_namespace jump_host_pod_labels 2222
                  | Internal => internal_cluster_ssh_rule internal_ssh_node_port_enabled
                  end in
  let internet_only := bool_decide (egress = InternetOnly) in
  egress_rules ← (if internet_only then config ← internet_egress; Some (Some (internet_egress_rules config)) else Some None);
  Some (mkPolicy (new_meta (network_policy (resources_of runtime)) (namespace runtime) labels) (selecting selector)
          (take (if internet_only then 2 else 1) ["Ingress"; "Egress"])
          (Some [ingress_rule_with_ip_blocks higress_namespace higress_pod_labels higress_source_cidrs 7681; ssh_rule]) egress_rules).

(** [port_mappings::network_policy], and what [secure_mapping] does to it. *)
Definition mapping_policy `{UuidText} (runtime : WorkspaceRuntimeNames) (labels selector : gmap string string)
    (higress_namespace : string) (higress_pod_labels : gmap string string) (higress_source_cidrs : list string) (m : PortMapping) : PolicySpecification :=
  mkPolicy (new_meta (policy_name_of (mapping_name m)) (namespace runtime) (mapping_labels labels m)) (selecting selector) ["Ingress"]
    (Some [ingress_rule_with_ip_blocks higress_namespace higress_pod_labels higress_source_cidrs (mp_internal_port m)]) None.
Definition secure_policy (p : PolicySpecification) : PolicySpecification :=
  let secure_ports (r : PolicyRule) := mkRule (ru_peers r) (map (λ port, mkPolicyPort (Some PORT) (pp_protocol port)) <$> ru_ports r) in
  mkPolicy (pol_metadata p) (pol_pod_selector p) (pol_types p) (map secure_ports <$> pol_ingress p) (pol_egress p).

(** ** What policies let through

    Where traffic comes from or goes to: an address, and if it is a Pod the labels of
    its namespace and its own. *)
Record Endpoint := mkEndpoint { ep_address : IpAddr; ep_pod : option (gmap string string * gmap string string) }.

Definition selector_matches (s : LabelSelector) (labels : gmap string string) : bool :=
  forallb (λ kv, bool_decide (labels !! kv.1 = Some kv.2)) (map_to_list (default ∅ (ls_match_labels s)))
  && bool_decide (default [] (ls_match_expressions s) = []).
Definition cidr_has (cidr : string) (a : IpAddr) : bool := is_some_and (net_parse cidr) (λ n, net_has n a).
Definition block_admits (b : IpBlock) (a : IpAddr) : bool :=
  cidr_has (ib_cidr b) a && forallb (λ except, is_some_and (net_parse except) (λ n, negb (net_has n a))) (default [] (ib_except b)).
(** Every peer built here names a block or selects namespaces. *)
Definition peer_admits (p : PolicyPeer) (e : Endpoint) : bool :=
  match pe_ip_block p, pe_namespace_selector p, ep_pod e with
  | Some block, _, _ => block_admits block (ep_address e)
  | None, Some namespaces, Some (namespace_labels, pod_labels) =>
      selector_matches namespaces namespace_labels && selector_matches (default (mkSelector None None) (pe_pod_selector p)) pod_labels
  | None, _, _ => false
  end.
Definition port_admits (p : PolicyPort) (port : Z) (protocol : string) : bool :=
  match pp_port p with Some expected => expected =? port | None => true end && String.eqb (default "TCP" (pp_protocol p)) protocol.
(** A rule without peers, or without ports, does not restrict them. *)
Definition any_or {A} (f : A → bool) (l : option (list A)) : bool :=
  match l with None | Some [] => true | Some l => existsb f l end.
Definition rule_admits (r : PolicyRule) (e : Endpoint) (port : Z) (protocol : string) : bool :=
  any_or (λ p, peer_admits p e) (ru_peers r) && any_or (λ p, port_admits p port protocol) (ru_ports r).
(** A policy restricts the directions it names; the policies of a Pod add up. *)
Definition admits (direction : string) (rules : PolicySpecification → option (list PolicyRule)) (policies : list PolicySpecification)
    (e : Endpoint) (port : Z) (protocol : string) : bool :=
  let restricting := List.filter (λ p, bool_decide (direction ∈ pol_types p)) policies in
  bool_decide (restricting = []) || existsb (λ p, existsb (λ r, rule_admits r e port protocol) (default [] (rules p))) restricting.
Definition admits_ingress : list PolicySpecification → Endpoint → Z → string → bool := admits "Ingress" pol_ingress.
Definition admits_egress : list PolicySpecification → Endpoint → Z → string → bool := admits "Egress" pol_egress.

(** A Pod of the namespace that has the labels. *)
Definition is_pod_of (namespace : string) (labels : gmap string string) (e : Endpoint) : Prop :=
  ∃ namespace_labels pod_labels, ep_pod e = Some (namespace_labels, pod_labels) ∧
    namespace_labels !! NAMESPACE_NAME_LABEL = Some namespace ∧ labels ⊆ pod_labels.

(** ** Lemmas *)
Lemma selecting_matches wanted labels : selector_matches (selecting wanted) labels = true ↔ wanted ⊆ labels.
Proof.
  unfold selector_matches, selecting; cbn. rewrite andb_true_r, forallb_forall, map_subseteq_spec. split.
  - intros Hall k v Hk. specialize (Hall (k, v)). cbn in Hall. rewrite bool_decide_eq_true in Hall. by apply Hall, list_elem_of_In, elem_of_map_to_list.
  - intros Hsub [k v] Hin%list_elem_of_In%elem_of_map_to_list. by apply bool_decide_eq_true_2, Hsub.
Qed.

Lemma pods_admitted namespace labels e : peer_admits (peer_of_pods namespace labels) e = true ↔ is_pod_of namespace labels e.
Proof.
  unfold peer_admits, is_pod_of, peer_of_pods; cbn [pe_ip_block pe_namespace_selector pe_pod_selector from_option].
  destruct (ep_pod e) as [[nl pl]|]; [|split; [done|by intros (? & ? & ? & _)]].
  change (id (selecting labels)) with (selecting labels). rewrite andb_true_iff, !selecting_matches, map_singleton_subseteq_l. naive_solver.
Qed.

Lemma network_port_admits protocol port p proto : port_admits (network_port protocol port) p proto = true ↔ p = port ∧ proto = protocol.
Proof.
  unfold port_admits, network_port; cbn [pp_port pp_protocol from_option]. change (id protocol) with protocol.
  rewrite andb_true_iff, Z.eqb_eq, String.eqb_eq. naive_solver.
Qed.

Lemma any_or_cons {A} (f : A → bool) x l : any_or f (Some (x :: l)) = existsb f (x :: l).
Proof. done. Qed.

Lemma ingress_rule_admits namespace labels port e p proto :
  rule_admits (ingress_rule namespace labels port) e p proto = true ↔ is_pod_of namespace labels e ∧ p = port ∧ proto = "TCP".
Proof.
  unfold rule_admits, ingress_rule, any_or; cbn [ru_peers ru_ports existsb].
  rewrite !orb_false_r, andb_true_iff, pods_admitted, network_port_admits. done.
Qed.

Lemma block_peer_admits cidr e : peer_admits (peer_of_block (mkBlock cidr None)) e = cidr_has cidr (ep_address e).
Proof. unfold peer_admits, block_admits; cbn. apply andb_true_r. Qed.

Lemma gateway_rule_admits namespace labels cidrs port e p proto :
  rule_admits (ingress_rule_with_ip_blocks namespace labels cidrs port) e p proto = true ↔
  (is_pod_of namespace labels e ∨ ∃ cidr, cidr ∈ cidrs ∧ cidr_has cidr (ep_address e) = true) ∧ p = port ∧ proto = "TCP".
Proof.
  unfold rule_admits, ingress_rule_with_ip_blocks, ingress_rule; cbn [ru_peers ru_ports from_option id app].
  rewrite !any_or_cons; cbn [existsb]. rewrite orb_false_r, andb_true_iff, orb_true_iff, pods_admitted, network_port_admits, existsb_exists.
  assert ((∃ x, In x ((λ cidr, peer_of_block (mkBlock cidr None)) <$> cidrs) ∧ peer_admits x e = true) ↔
    ∃ cidr, cidr ∈ cidrs ∧ cidr_has cidr (ep_address e) = true) as ->.
  { split.
    - intros (x & (cidr & -> & Hin)%list_elem_of_In%list_elem_of_fmap & Hx). rewrite block_peer_admits in Hx. eauto.
    - intros (cidr & Hin & Hc). eexists. split; [by apply list_elem_of_In, (list_elem_of_fmap_2 (λ cidr, peer_of_block (mkBlock cidr None)))|].
      by rewrite block_peer_admits. }
  naive_solver.
Qed.

Lemma internal_ssh_admits tailnet e p proto :
  rule_admits (internal_cluster_ssh_rule tailnet) e p proto = true ↔
  (is_Some (ep_pod e) ∨ tailnet = true ∧ cidr_has TAILNET (ep_address e) = true) ∧ p = 2222 ∧ proto = "TCP".
Proof.
  unfold rule_admits, internal_cluster_ssh_rule. cbn [ru_peers ru_ports]. rewrite !any_or_cons. cbn [existsb].
  rewrite orb_false_r, andb_true_iff, orb_true_iff, network_port_admits.
  assert (peer_admits (mkPeer (Some (mkSelector None None)) None None) e = true ↔ is_Some (ep_pod e)) as ->.
  { unfold peer_admits; cbn. destruct (ep_pod e) as [[]|]; cbn; [|by split; [done|intros []]].
    unfold selector_matches; cbn. rewrite map_to_list_empty. cbn. naive_solver. }
  destruct tailnet; cbn [existsb]; [rewrite orb_false_r, block_peer_admits|]; naive_solver.
Qed.

(** An address that a range covers, and no network of two lists. *)
Definition in_public_range (range : string) (private : list string) (blocked : list Network) (a : IpAddr) : Prop :=
  cidr_has range a = true ∧ Forall (λ cidr, cidr_has cidr a = false) private ∧ Forall (λ n, net_has n a = false) blocked.

Lemma except_holds `{!IpNetLaws} range allowed private blocked a :
  net_parse range = Some allowed → net_has allowed a = true → Forall (λ cidr, is_Some (net_parse cidr)) private →
  existsb (λ blocked, net_contains blocked allowed) blocked = false →
  forallb (λ except, is_some_and (net_parse except) (λ n, negb (net_has n a)))
    (private ++ (net_text <$> List.filter (λ blocked, Bool.eqb (net_is_ipv4 blocked) (net_is_ipv4 allowed) && net_contains allowed blocked) blocked)) = true ↔
  Forall (λ cidr, cidr_has cidr a = false) private ∧ Forall (λ n, net_has n a = false) blocked.
Proof.
  intros Hr Ha Hparse Hwhole. rewrite forallb_app, andb_true_iff. f_equiv; rewrite forallb_forall, Forall_forall.
  - rewrite Forall_forall in Hparse. unfold cidr_has. split; intros Hall x Hin.
    + specialize (Hall x (proj1 (list_elem_of_In _ _) Hin)). destruct (Hparse x Hin) as [n Hn]. rewrite Hn in *. cbn in *. by apply negb_true_iff.
    + apply list_elem_of_In in Hin. specialize (Hall x Hin). destruct (Hparse x Hin) as [n Hn]. rewrite Hn in *. cbn in *. by apply negb_true_iff.
  - split; intros Hall n Hin.
    + destruct (net_has n a) eqn:Hn; [|done]. destruct (net_nested allowed n a Ha Hn) as [Hc|Hc].
      * assert (Hx : In (net_text n) (net_text <$> List.filter (λ blocked, Bool.eqb (net_is_ipv4 blocked) (net_is_ipv4 allowed) && net_contains allowed blocked) blocked)).
        { apply list_elem_of_In, list_elem_of_fmap_2, list_elem_of_In, filter_In. split; [by apply list_elem_of_In|].
          by rewrite Hc, andb_true_r, eqb_true_iff, <- (net_family n a Hn), (net_family allowed a Ha). }
        specialize (Hall _ Hx). rewrite net_parse_text in Hall. cbn in Hall. by rewrite Hn in Hall.
      * exfalso. apply not_true_iff_false in Hwhole. apply Hwhole, existsb_exists. exists n. split; [by apply list_elem_of_In|done].
    + apply list_elem_of_In, list_elem_of_fmap in Hin as (m & -> & [Hm _]%list_elem_of_In%filter_In).
      rewrite net_parse_text. cbn. by rewrite (Hall m (proj2 (list_elem_of_In _ _) Hm)).
Qed.

Lemma public_rule_admits `{!IpNetLaws} range private blocked e p proto : Forall (λ cidr, is_Some (net_parse cidr)) (range :: private) →
  existsb (λ r, rule_admits r e p proto) (option_list (public_egress_rule range private blocked)) = true ↔ in_public_range range private blocked (ep_address e).
Proof.
  intros [[allowed Hr] Hp]%Forall_cons. unfold public_egress_rule, in_public_range, cidr_has at 1. rewrite Hr. cbn [mbind option_bind is_some_and].
  destruct (existsb _ blocked) eqn:Hwhole.
  - cbn. split; [done|]. intros (Ha & _ & Hb). apply existsb_exists in Hwhole as (n & Hin & Hc). rewrite Forall_forall in Hb.
    specialize (Hb n (proj2 (list_elem_of_In _ _) Hin)). by rewrite (net_contains_has _ _ _ Hc Ha) in Hb.
  - cbn [option_list option_rect existsb]. rewrite orb_false_r. unfold rule_admits. cbn [ru_peers ru_ports any_or existsb]. rewrite orb_false_r, andb_true_r.
    unfold peer_admits, peer_of_block, block_admits, cidr_has. cbn [pe_ip_block ib_cidr ib_except from_option id]. rewrite Hr. cbn [is_some_and].
    rewrite andb_true_iff. split.
    + intros [Ha He]. split; [done|]. by apply (except_holds range allowed).
    + intros (Ha & He). split; [done|]. by apply (except_holds range allowed).
Qed.

(** ** Isolation *)

(** Who may open a shell: the jump host, or what is in the cluster, and the tailnet
    if nodes have ports for it. *)
Definition may_open_ssh (mode : AccessMode) (jump_namespace : string) (jump_labels : gmap string string) (node_port : bool) (e : Endpoint) : Prop :=
  match mode with
  | Public => is_pod_of jump_namespace jump_labels e
  | Internal => is_Some (ep_pod e) ∨ node_port = true ∧ cidr_has TAILNET (ep_address e) = true
  end.
Definition is_gateway (namespace : string) (labels : gmap string string) (cidrs : list string) (e : Endpoint) : Prop :=
  is_pod_of namespace labels e ∨ ∃ cidr, cidr ∈ cidrs ∧ cidr_has cidr (ep_address e) = true.
(** Where a workspace for the internet only may send to. *)
Definition is_public_destination (config : InternetEgressConfig Network) (e : Endpoint) (port : Z) (protocol : string) : Prop :=
  is_pod_of (ie_dns_namespace config) (ie_dns_pod_labels config) e ∧ port = 53 ∧ (protocol = "UDP" ∨ protocol = "TCP") ∨
  in_public_range ALL_IPV4 PRIVATE_OR_RESERVED_IPV4 (blocked_cidrs config) (ep_address e) ∨
  in_public_range GLOBAL_IPV6 PRIVATE_OR_RESERVED_IPV6 (blocked_cidrs config) (ep_address e).

Lemma dns_rule_admits namespace labels e p proto : rule_admits (dns_egress_rule namespace labels) e p proto = true ↔
  is_pod_of namespace labels e ∧ p = 53 ∧ (proto = "UDP" ∨ proto = "TCP").
Proof.
  unfold rule_admits, dns_egress_rule. cbn [ru_peers ru_ports any_or existsb].
  rewrite !orb_false_r, andb_true_iff, pods_admitted, orb_true_iff, !network_port_admits. naive_solver.
Qed.

Lemma egress_rules_admit `{!IpNetLaws} config e p proto :
  existsb (λ r, rule_admits r e p proto) (internet_egress_rules config) = true ↔ is_public_destination config e p proto.
Proof.
  assert (∀ range private, range :: private ⊆ STATIC_CIDRS → Forall (λ cidr, is_Some (net_parse cidr)) (range :: private)) as Hstatic.
  { intros range private Hsub. apply Forall_forall. intros cidr Hin. by apply net_static, Hsub. }
  unfold internet_egress_rules, is_public_destination. rewrite !existsb_app, !orb_true_iff, !public_rule_admits.
  - cbn [existsb]. rewrite orb_false_r, dns_rule_admits. tauto.
  - apply Hstatic. intros x [->|Hx]%elem_of_cons; apply elem_of_app; [left; rewrite !elem_of_cons; auto|right]. apply elem_of_app. by right.
  - apply Hstatic. intros x [->|Hx]%elem_of_cons; apply elem_of_app; [left; rewrite !elem_of_cons; auto|right]. apply elem_of_app. by left.
Qed.

(** The policies of mappings, with the proxy before the applications or without. *)
Definition mapping_policies `{UuidText} (secured : bool) (runtime : WorkspaceRuntimeNames) (labels selector : gmap string string)
    (higress_namespace : string) (higress_pod_labels : gmap string string) (higress_source_cidrs : list string) (ms : list PortMapping) : list PolicySpecification :=
  (λ m, let policy := mapping_policy runtime labels selector higress_namespace higress_pod_labels higress_source_cidrs m in
        if secured then secure_policy policy else policy) <$> ms.

Section Confined.
Context `{UuidText} `{!IpNetLaws} (secured : bool) (runtime : WorkspaceRuntimeNames) (labels selector : gmap string string).
Context (gateway_namespace : string) (gateway_labels : gmap string string) (cidrs : list string) (ms : list PortMapping).
Abbreviation mapped := (mapping_policies secured runtime labels selector gateway_namespace gateway_labels cidrs ms).
Definition mapped_port (m : PortMapping) : Z := if secured then PORT else mp_internal_port m.

Lemma secure_gateway_rule port e p proto :
  rule_admits (mkRule (ru_peers (ingress_rule_with_ip_blocks gateway_namespace gateway_labels cidrs port)) (Some [network_port "TCP" PORT])) e p proto =
  rule_admits (ingress_rule_with_ip_blocks gateway_namespace gateway_labels cidrs PORT) e p proto.
Proof. done. Qed.

Lemma mapped_ingress e p proto :
  existsb (λ policy, existsb (λ r, rule_admits r e p proto) (default [] (pol_ingress policy))) mapped = true ↔
  ∃ m, m ∈ ms ∧ p = mapped_port m ∧ is_gateway gateway_namespace gateway_labels cidrs e ∧ proto = "TCP".
Proof.
  rewrite existsb_exists. unfold mapping_policies, mapped_port.
  assert (∀ m, existsb (λ r, rule_admits r e p proto) (default [] (pol_ingress
    (if secured then secure_policy (mapping_policy runtime labels selector gateway_namespace gateway_labels cidrs m)
     else mapping_policy runtime labels selector gateway_namespace gateway_labels cidrs m))) = true ↔
    p = (if secured then PORT else mp_internal_port m) ∧ is_gateway gateway_namespace gateway_labels cidrs e ∧ proto = "TCP") as Hm.
  { intros m. pose proof (gateway_rule_admits gateway_namespace gateway_labels cidrs (if secured then PORT else mp_internal_port m) e p proto) as Hrule.
    unfold is_gateway. destruct secured; cbn [secure_policy mapping_policy pol_ingress option_fmap option_map fmap map from_option id existsb];
      rewrite orb_false_r; [change (Some (map _ _)) with (Some [network_port "TCP" PORT]); rewrite secure_gateway_rule|]; rewrite Hrule; tauto. }
  split.
  - intros (policy & (m & -> & Hin)%list_elem_of_In%list_elem_of_fmap & Hp). apply Hm in Hp. eauto.
  - intros (m & Hin & Hp). eexists. split; [by apply list_elem_of_In, list_elem_of_fmap_2|]. by apply Hm.
Qed.

Lemma mapped_types direction : List.filter (λ p, bool_decide (direction ∈ pol_types p)) mapped = if String.eqb direction "Ingress" then mapped else [].
Proof.
  unfold mapping_policies. induction ms as [|m l IH]; cbn [fmap list_fmap List.filter]; [by destruct (String.eqb _ _)|].
  rewrite IH. replace (pol_types _) with ["Ingress"] by by destruct secured.
  destruct (String.eqb_spec direction "Ingress") as [->|Hne]; [by rewrite bool_decide_eq_true_2 by left|].
  rewrite bool_decide_eq_false_2; [done|]. by rewrite list_elem_of_singleton.
Qed.

(** C11: what reaches a workspace and what it reaches. Its policies let in terminals from
    the gateway, shells from who may open them, and what the gateway sends to the port
    of a mapping, or to the proxy before it where certificates are configured; nothing
    else. Out of a workspace for the internet only they let name queries and traffic
    to public addresses that are not blocked, whatever the blocks are, and nothing
    else. Other workspaces may send anywhere. *)
Theorem workspace_traffic_confined egress_config jump_namespace jump_labels mode egress node_port policy e port protocol :
  workspace_policy runtime labels selector gateway_namespace gateway_labels cidrs egress_config jump_namespace jump_labels mode egress node_port = Some policy →
  (admits_ingress (policy :: mapped) e port protocol = true ↔
    protocol = "TCP" ∧ (port = 2222 ∧ may_open_ssh mode jump_namespace jump_labels node_port e ∨
      is_gateway gateway_namespace gateway_labels cidrs e ∧ (port = 7681 ∨ ∃ m, m ∈ ms ∧ port = mapped_port m))) ∧
  (admits_egress (policy :: mapped) e port protocol = true ↔
    (egress = InternetOnly → ∃ config, egress_config = Some config ∧ is_public_destination config e port protocol)).
Proof.
  unfold workspace_policy. intros Hp. apply bind_Some in Hp as (egress_rules & Hr & [= <-]).
  unfold admits_ingress, admits_egress, admits. cbn [List.filter pol_types]. rewrite !mapped_types, String.eqb_refl. split.
  - rewrite (bool_decide_eq_true_2 (_ ∈ _)) by (destruct (bool_decide (egress = _)); cbn [take]; apply list_elem_of_here).
    cbn [existsb pol_ingress from_option id].
    rewrite !orb_false_r, bool_decide_eq_false_2, orb_false_l, !orb_true_iff, gateway_rule_admits, mapped_ingress by done.
    unfold may_open_ssh. fold (is_gateway gateway_namespace gateway_labels cidrs e). destruct mode; rewrite ?ingress_rule_admits, ?internal_ssh_admits; naive_solver.
  - destruct egress; [cbn; naive_solver|].
    rewrite bool_decide_eq_true_2 in * by done. cbn [take]. rewrite (bool_decide_eq_true_2 (_ ∈ _)) by (right; left).
    apply bind_Some in Hr as (config & Hc & [= <-]). replace (String.eqb "Egress" "Ingress") with false by done.
    cbn [existsb pol_egress from_option id]. rewrite orb_false_r, bool_decide_eq_false_2, orb_false_l, egress_rules_admit by done. naive_solver.
Qed.
End Confined.
End Policies.

(** ** Blocks that were observed *)
Section Observed.
Context {Network : Type} `{EqDecision Network} `{IpNets Network}.
#[local] Existing Instance text_before_dec.

(** What is blocked stays blocked, and what was observed is. *)
Lemma remembered_is_blocked config addresses n :
  n ∈ blocked_cidrs (remember_blocked_addresses config addresses).2 ↔ n ∈ blocked_cidrs config ∨ ∃ a, a ∈ addresses ∧ n = net_of_addr a.
Proof.
  unfold blocked_cidrs, remember_blocked_addresses. cbn [ie_additional_blocked_cidrs ie_observed_blocked_cidrs snd].
  rewrite !elem_of_app, merge_sort_Permutation. generalize (ie_observed_blocked_cidrs config). induction addresses as [|a l IH]; intros observed; cbn [foldl]; [set_solver|].
  rewrite IH. destruct (bool_decide_reflect (net_of_addr a ∈ ie_additional_blocked_cidrs config)); [set_solver|].
  destruct (bool_decide_reflect (net_of_addr a ∈ observed)); set_solver.
Qed.
End Observed.

(** ** Networks by the bits they fix *)
Module NetSample.
Record Net := mkNet { n_ipv4 : bool; n_bits : list bool }.
#[export] Instance net_eq_dec : EqDecision Net. Proof. solve_decision. Defined.
Fixpoint bits (width : nat) (n : Z) : list bool := match width with O => [] | S width => Z.testbit n (Z.of_nat width) :: bits width n end.
Definition address_bits (a : IpAddr) : list bool :=
  match a with V4 a b c d => [a; b; c; d] ≫= bits 8 | V6 segments => segments ≫= bits 16 end.
Fixpoint starts (p l : list bool) : bool :=
  match p, l with [], _ => true | b :: p, c :: l => Bool.eqb b c && starts p l | _, [] => false end.
Definition v4 (a b c d : Z) (size : nat) : Net := mkNet true (take size (address_bits (V4 a b c d))).
Definition v6 (a b : Z) (size : nat) : Net := mkNet false (take size (address_bits (V6 [a; b; 0; 0; 0; 0; 0; 0]))).
Definition static : list Net := [
  v4 100 64 0 0 10; v4 0 0 0 0 0; v6 8192 0 3; v4 0 0 0 0 8; v4 10 0 0 0 8; v4 100 64 0 0 10; v4 127 0 0 0 8; v4 169 254 0 0 16; v4 172 16 0 0 12;
  v4 192 0 0 0 24; v4 192 0 2 0 24; v4 192 31 196 0 24; v4 192 52 193 0 24; v4 192 88 99 0 24; v4 192 175 48 0 24; v4 192 168 0 0 16; v4 198 18 0 0 15;
  v4 198 51 100 0 24; v4 203 0 113 0 24; v4 224 0 0 0 4; v4 240 0 0 0 4; v6 8193 0 23; v6 8193 3512 32; v6 8194 0 16; v6 16383 0 20].
Fixpoint bits_text (l : list bool) : string := match l with [] => "" | b :: l => String (if b then (Ascii.ascii_of_nat 49) else (Ascii.ascii_of_nat 48)) (bits_text l) end.
Fixpoint read_bits (s : string) : list bool := match s with String c s => Ascii.eqb c (Ascii.ascii_of_nat 49) :: read_bits s | "" => [] end.
Definition text (n : Net) : string := String (if n_ipv4 n then (Ascii.ascii_of_nat 118) else (Ascii.ascii_of_nat 119)) (bits_text (n_bits n)).
Definition parse (s : string) : option Net :=
  match List.find (λ kv, String.eqb kv.1 s) (zip STATIC_CIDRS static), s with
  | Some (_, n), _ => Some n
  | None, String c rest => Some (mkNet (Ascii.eqb c (Ascii.ascii_of_nat 118)) (read_bits rest))
  | None, "" => None
  end.
#[export] Instance nets : IpNets Net := {|
  net_parse := parse; net_text := text; net_is_ipv4 := n_ipv4;
  net_contains n m := Bool.eqb (n_ipv4 n) (n_ipv4 m) && starts (n_bits n) (n_bits m);
  net_has n a := Bool.eqb (n_ipv4 n) (addr_is_ipv4 a) && starts (n_bits n) (address_bits a);
  net_of_addr a := mkNet (addr_is_ipv4 a) (address_bits a) |}.

Lemma starts_refl l : starts l l = true.
Proof. induction l as [|[] l IH]; done. Qed.
Lemma starts_trans p q l : starts p q = true → starts q l = true → starts p l = true.
Proof.
  revert q l. induction p as [|b p IH]; intros [|c q] [|d l]; cbn; try done.
  rewrite !andb_true_iff, !eqb_true_iff. intros [-> ?] [-> ?]. split; [done|]. by eapply IH.
Qed.
Lemma starts_comparable p q l : starts p l = true → starts q l = true → starts p q = true ∨ starts q p = true.
Proof.
  revert q l. induction p as [|b p IH]; intros [|c q] [|d l]; cbn; auto; try done.
  rewrite !andb_true_iff, !eqb_true_iff. intros [-> ?] [-> ?]. destruct (IH q l) as [|]; auto.
Qed.
Lemma read_bits_text l : read_bits (bits_text l) = l.
Proof. induction l as [|[] l IH]; cbn; by rewrite ?IH. Qed.
Lemma text_not_static n : List.find (λ kv, String.eqb kv.1 (text n)) (zip STATIC_CIDRS static) = None.
Proof. destruct n as [[] l]; reflexivity. Qed.
#[export] Instance net_laws : IpNetLaws.
Proof.
  split.
  - intros n. unfold net_parse, net_text, nets, parse. rewrite text_not_static. destruct n as [[] l]; cbn; by rewrite read_bits_text.
  - intros n a [H _]%andb_true_iff. symmetry. by apply eqb_true_iff.
  - intros n m a. unfold net_contains, net_has; cbn. rewrite !andb_true_iff, !eqb_true_iff. intros [-> ?] [-> ?]. split; [done|]. by eapply starts_trans.
  - intros n m a. unfold net_contains, net_has; cbn. rewrite !andb_true_iff, !eqb_true_iff. intros [Hn ?] [Hm ?]. rewrite Hn, Hm.
    destruct (starts_comparable (n_bits n) (n_bits m) (address_bits a)); auto.
  - intros a. unfold net_has; cbn. by rewrite starts_refl, eqb_reflx.
  - intros s Hs. apply (bool_decide_unpack _). revert s Hs. apply Forall_forall. repeat constructor.
Qed.

Definition runtime : option WorkspaceRuntimeNames := for_workspace_names "demo" "1000000000000001".
Definition config : InternetEgressConfig Net := mkEgress "kube-system" {[ "k8s-app" := "kube-dns" ]} [v4 8 8 0 0 16] [].
Definition gateway : gmap string string := {[ "app" := "higress" ]}.
Definition policy : option PolicySpecification :=
  runtime ← runtime; workspace_policy runtime ∅ {[ "w" := "1" ]} "higress-system" gateway ["10.50.0.0/24"] (Some config) "jump" ∅ Public InternetOnly false.
Definition mapping : PortMapping := mkPortMapping 7 2 1 3000 None 3 20.
Definition host (a b c d : Z) : Endpoint := mkEndpoint (V4 a b c d) None.
Definition gateway_pod : Endpoint := mkEndpoint (V4 10 1 0 5) (Some ({[ NAMESPACE_NAME_LABEL := "higress-system" ]}, gateway)).
End NetSample.
Import (hints) NetSample.

(** A workspace for the internet only may send to 1.1.1.1, but not to a private
    address, nor to one that is blocked; only the gateway reaches its mapped port. *)
Lemma workspace_traffic_confined_witness : ∃ runtime policy,
  NetSample.runtime = Some runtime ∧ NetSample.policy = Some policy ∧
  (λ e, admits_egress (Network := NetSample.Net) [policy] e 443 "TCP") <$> [NetSample.host 1 1 1 1; NetSample.host 10 0 0 1; NetSample.host 8 8 8 8] = [true; false; false] ∧
  is_public_destination NetSample.config (NetSample.host 1 1 1 1) 443 "TCP" ∧
  (∀ e, admits_ingress (Network := NetSample.Net) (policy :: @mapping_policies decimal_uuid_text true runtime ∅ {[ "w" := "1" ]} "higress-system" NetSample.gateway ["10.50.0.0/24"] [NetSample.mapping]) e 8443 "TCP" = true
     → is_gateway (Network := NetSample.Net) "higress-system" NetSample.gateway ["10.50.0.0/24"] e).
Proof.
  destruct NetSample.runtime as [runtime|] eqn:Hr; [|done].
  assert (∃ p, NetSample.policy = Some p) as [policy Hp] by (unfold NetSample.policy; rewrite Hr; eexists; vm_compute; reflexivity).
  exists runtime, policy. pose proof Hp as Hb. unfold NetSample.policy in Hb. rewrite Hr in Hb.
  split_and!; [done..| | |].
  - revert Hp. vm_compute. intros [= <-]. reflexivity.
  - destruct (proj2 (@workspace_traffic_confined _ _ decimal_uuid_text _ true runtime ∅ {[ "w" := "1" ]} "higress-system" NetSample.gateway ["10.50.0.0/24"] []
      (Some NetSample.config) "jump" ∅ Public InternetOnly false policy (NetSample.host 1 1 1 1) 443 "TCP" Hb)) as [Hpub _].
    destruct Hpub as (config & [= <-] & Hpub); [|done|done]. revert Hp. vm_compute. intros [= <-]. reflexivity.
  - intros e He. destruct (proj1 (proj1 (@workspace_traffic_confined _ _ decimal_uuid_text _ true runtime ∅ {[ "w" := "1" ]} "higress-system" NetSample.gateway ["10.50.0.0/24"] [NetSample.mapping]
      (Some NetSample.config) "jump" ∅ Public InternetOnly false policy e 8443 "TCP" Hb)) He) as (_ & [[? _]|[? _]]); [lia|done].
Defined.
