(* ===== verification/Pods.v ===== *)
(** * The Pods of a workspace ([src/kubernetes/workspace_pod.rs] and its [support.rs],
    [buildkit.rs], [workload.rs], [workload_ttyd.rs])

    The containers, environment, mounts and volumes of a workspace, and its
    StatefulSet.
    Ports and probes of a container are given as JSON, as is what decides where the Pod
    runs. *)
From stdpp Require Import pretty.
From S2P Require Import Prelude Text Json Quota Templates Workspaces Database Names WorkspaceResponse KubeApi ShrinkCluster ClusterLifecycle ClusterApply ClusterRoutes Manifests NetworkPolicies.

Definition ORGANIZATION_ID_LABEL : string := "workspace.memeloop.dev/organization-id".
Definition OWNER_USER_ID_LABEL : string := "workspace.memeloop.dev/owner-user-id".
Definition TEMPLATE_ID_LABEL : string := "workspace.memeloop.dev/template-id".

(** [ResourceBuilder]: what the coordinator is configured with, and the rest. *)
Record ResourceBuilder (Network : Type) := mkBuilder {
  rb_config : KubernetesCoordinator;
  rb_ttyd_image : string;
  rb_buildkit_image : string;
  rb_higress_pod_labels : gmap string string;
  rb_higress_source_cidrs : list string;
  rb_internet_egress : option (InternetEgressConfig Network);
  rb_jump_host_namespace : string;
  rb_jump_host_pod_labels : gmap string string;
  rb_storage_class_name : option string;
  rb_scratch_storage_class_name : string;
  rb_web_shell_domain : option string;
  rb_internal_ssh_node_port_enabled : bool;
}.
Arguments mkBuilder {_}.
Arguments rb_config {_}.
Arguments rb_ttyd_image {_}.
Arguments rb_buildkit_image {_}.
Arguments rb_higress_pod_labels {_}.
Arguments rb_higress_source_cidrs {_}.
Arguments rb_internet_egress {_}.
Arguments rb_jump_host_namespace {_}.
Arguments rb_jump_host_pod_labels {_}.
Arguments rb_storage_class_name {_}.
Arguments rb_scratch_storage_class_name {_}.
Arguments rb_web_shell_domain {_}.
Arguments rb_internal_ssh_node_port_enabled {_}.

(** ** Pieces ([support.rs]) *)
Definition quote_char : Ascii.ascii := Ascii.ascii_of_nat 34.
Definition env (name value : string) : EnvVar := mkEnvVar name (Some value) Null.
Definition flag (b : bool) : string := if b then "true" else "false".

(** [quantities], as the members of an object. *)
Definition quantities (cpu memory : string) (ephemeral : option string) : fields :=
  [("cpu", Str cpu); ("memory", Str memory)] ++ match ephemeral with Some size => [("ephemeral-storage", Str size)] | None => [] end.
Definition requirements (requests limits : fields) : Value := json_object [("limits", json_object limits); ("requests", json_object requests)].
Definition millis (n : Z) : string := decimal_text n +:+ "m".
Definition mib (n : Z) : string := decimal_text n +:+ "Mi".
Definition gib (n : Z) : string := decimal_text n +:+ "Gi".

(** The members of a security context that both kinds set. *)
Definition root_security_context (read_only_root : bool) : Value :=
  json_object [("runAsUser", Number 0); ("runAsGroup", Number 0); ("runAsNonRoot", Bool false); ("allowPrivilegeEscalation", Bool false);
               ("readOnlyRootFilesystem", Bool read_only_root); ("seccompProfile", json_object [("type", Str "RuntimeDefault")])].
Definition non_root_security_context (allow_privilege_escalation unconfined : bool) : Value :=
  set_fields [("runAsUser", Some (Number 1000)); ("runAsGroup", Some (Number 1000)); ("runAsNonRoot", Some (Bool true)); ("privileged", Some (Bool false));
    ("allowPrivilegeEscalation", Some (Bool allow_privilege_escalation)); ("readOnlyRootFilesystem", Some (Bool true));
    ("capabilities", if allow_privilege_escalation then None else Some (json_object [("drop", strings_json ["ALL"])]));
    ("appArmorProfile", if unconfined then Some (json_object [("type", Str "Unconfined")]) else None);
    ("seccompProfile", Some (json_object [("type", Str (if unconfined then "Unconfined" else "RuntimeDefault"))]))].

Definition container_port (port : Z) (name : string) (protocol : option string) : Value :=
  set_fields [("containerPort", Some (Number port)); ("name", Some (Str name)); ("protocol", Str <$> protocol)].
Definition injection_env_from (names : WorkspaceResourceNames) : Value :=
  let source kind name := json_object [(kind, json_object [("name", Str name); ("optional", Bool false)])] in
  Array [source "configMapRef" (environment_config_map names); source "secretRef" (environment_secret names)].

(** [str::replace] of one character. *)
Fixpoint replace_ascii (c : Ascii.ascii) (by_text s : string) : string :=
  match s with
  | "" => ""
  | String d s => (if Ascii.eqb c d then by_text else String d "") +:+ replace_ascii c by_text s
  end.
Definition backslash : Ascii.ascii := Ascii.ascii_of_nat 92.
Definition sshd_escape (value : string) : string :=
  replace_ascii quote_char (String backslash (String quote_char "")) (replace_ascii backslash (String backslash (String backslash "")) value).
Definition sshd_argument (name value : string) : string :=
  String quote_char (name +:+ "=" +:+ sshd_escape value) +:+ String quote_char "".

(** ** The build daemon ([buildkit.rs])

    The text of a script, by its pieces between quotes. *)
Definition setup_script : string := String.concat (String quote_char "") ["set -eu
mkdir -p /var/lib/mwc-buildkit/bin /var/lib/mwc-buildkit/config \
  /var/lib/mwc-buildkit/runtime /var/lib/mwc-buildkit/state /var/lib/mwc-buildkit/tmp
chmod 0700 /var/lib/mwc-buildkit/runtime
cp /usr/bin/buildctl /var/lib/mwc-buildkit/bin/buildctl
chmod 0555 /var/lib/mwc-buildkit/bin/buildctl
cat > /var/lib/mwc-buildkit/config/buildkitd.toml <<'CONFIG'
root = ";
"/var/lib/mwc-buildkit/state";
"
[grpc]
  address = [";
"tcp://127.0.0.1:1234";
"]
[cdi]
  disabled = true
[worker.oci]
  enabled = true
  rootless = true
  noProcessSandbox = true
  snapshotter = ";
"native";
"
  gc = true
  reservedSpace = ";
"10%";
"
  maxUsedSpace = ";
"45%";
"
  minFreeSpace = ";
"20%";
"
  max-parallelism = 4
[worker.containerd]
  enabled = false
CONFIG
"].
Definition ENDPOINT : string := "tcp://127.0.0.1:1234".
Definition SCRATCH_VOLUME : string := "workspace-scratch".
Definition CACHE_SUB_PATH : string := "build-cache".
(** [cache_mount] and [scratch_sub_path_mount]. *)
Definition cache_mount (path sub_path : string) : VolumeMount :=
  mkMount SCRATCH_VOLUME path (Some false) (json_object [("subPath", Str sub_path)]).
Definition buildkit_tmp_mount : VolumeMount := cache_mount "/tmp" "build-cache/tmp".

Definition bootstrap_container (enabled : bool) (image : string) (cpu_request : Z) : option Container :=
  if enabled then Some (mkContainer "buildkit-bootstrap" (Some image) (Some ["sh"; "-c"]) (Some [setup_script]) None None
    (Some [cache_mount "/var/lib/mwc-buildkit" CACHE_SUB_PATH; cache_mount "/home/user/.local/share/buildkit" CACHE_SUB_PATH])
    (Some (non_root_security_context false false))
    (Some (requirements (quantities (millis cpu_request) "16Mi" (Some "32Mi")) (quantities "100m" "128Mi" (Some "128Mi")))) None [])
  else None.
Definition buildkit_probe (initial_delay period : Z) : Value :=
  json_object [("exec", json_object [("command", strings_json ["buildctl"; "debug"; "workers"])]); ("initialDelaySeconds", Number initial_delay);
               ("periodSeconds", Number period)].
Definition buildkit_container (enabled : bool) (image : string) (cpu_request : Z) : option Container :=
  if enabled then Some (mkContainer "buildkitd" (Some image) None (Some ["--config"; "/var/lib/mwc-buildkit/config/buildkitd.toml"])
    (Some [env "TMPDIR" "/var/lib/mwc-buildkit/tmp"; env "XDG_RUNTIME_DIR" "/var/lib/mwc-buildkit/runtime"; env "BUILDKIT_HOST" ENDPOINT]) None
    (Some [cache_mount "/var/lib/mwc-buildkit" CACHE_SUB_PATH; cache_mount "/home/user/.local/share/buildkit" CACHE_SUB_PATH; buildkit_tmp_mount])
    (Some (non_root_security_context true true))
    (Some (requirements (quantities (millis cpu_request) "512Mi" (Some "256Mi")) (quantities "4" "4Gi" (Some "1Gi")))) None
    [("livenessProbe", buildkit_probe 10 30); ("readinessProbe", buildkit_probe 1 2)])
  else None.

(** ** The workspace ([workspace_pod.rs]) *)
Definition BOOTSTRAP : string := "/etc/workspace-platform/mwc-workspace-bootstrap".
Definition SCRATCH_ROOT : string := "/var/lib/mwc/workspace-scratch".
Definition WORKSPACE_CACHE_SUB_PATH : string := "workspace-cache".
Definition CODEX_SESSION_SUB_PATH : string := "codex-session-scratch".
Definition BUILD_SCRATCH : string := "/var/lib/mwc/build-scratch".
Definition CODEX_SCRATCH : string := "/var/lib/mwc/codex-scratch".
Definition BUILDKIT_VOLUME_MOUNT : string := "/run/mwc-buildkit".
Definition INTERNAL_PLATFORM_ENVIRONMENT : list string := [
  "MWC_WORKSPACE_USER"; "MWC_WORKSPACE_HOME"; "MWC_IN_CLUSTER_KUBECONFIG"; "MWC_BUILDKIT_ENABLED"; "MWC_BUILD_SCRATCH"; "MWC_HOME_RESERVE_MIB";
  "MWC_DESKTOP_ENABLED"; "MWC_DESKTOP_PORT"].

Definition scratch_init_script : string := String.concat (String quote_char "") ["set -eu
scratch_root=/var/lib/mwc/workspace-scratch
workspace_group=$(id -gn ";
"$MWC_WORKSPACE_USER";
")

prepare_directory() {
    path=$1
    owner=$2
    group=$3
    if [ -L ";
"$path";
" ] || { [ -e ";
"$path";
" ] && [ ! -d ";
"$path";
" ]; }; then
        echo ";
"unsafe workspace scratch path: $path";
" >&2
        exit 70
    fi
    mkdir -p -- ";
"$path";
"
    chown ";
"$owner:$group";
" -- ";
"$path";
"
    chmod 0700 -- ";
"$path";
"
}

if [ -L ";
"$scratch_root";
" ] || [ ! -d ";
"$scratch_root";
" ]; then
    echo ";
"workspace scratch volume is not mounted";
" >&2
    exit 70
fi
prepare_directory ";
"$scratch_root/workspace-cache";
" ";
"$MWC_WORKSPACE_USER";
" ";
"$workspace_group";
"
prepare_directory ";
"$scratch_root/codex-session-scratch";
" ";
"$MWC_WORKSPACE_USER";
" ";
"$workspace_group";
"
if [ ";
"$MWC_BUILDKIT_ENABLED";
" = true ]; then
    prepare_directory ";
"$scratch_root/build-cache";
" 1000 1000
fi
"].

(** [disk_gib.saturating_mul(1_024).saturating_div(10).min(1_024)]. *)
Definition fixed_home_disk_margin_mib (disk_gib : Z) : Z := Z.min (Z.min (disk_gib * 1024) u64_max / 10) 1024.

Section WorkspacePod.
Context (t : WorkspaceTemplateSpec).
Abbreviation home := (workspace_home t).

Definition resource_requests : fields :=
  quantities (millis (cpu_request_millis t (req_cpu_millis (pod_requests t)))) (mib (req_memory_mib (pod_requests t))) (Some "512Mi").
Definition resource_limits : fields := quantities (millis (cpu_millis (resources t))) (mib (memory_mib (resources t))) (Some "2048Mi").

Definition path_text (first : string) : string :=
  first +:+ home +:+ "/.local/bin:" +:+ home +:+ "/.local/share/pnpm:" +:+ home +:+
  "/.cargo/bin:/usr/local/cargo/bin:/usr/local/sbin:/usr/local/bin:/usr/sbin:/usr/bin:/sbin:/bin".
Definition session_platform_env : list EnvVar :=
  [env "PATH" (path_text (if buildkit t then "/run/mwc-buildkit/bin:" else "")); env "HOME" home; env "CARGO_HOME" (home +:+ "/.cargo");
   env "NPM_CONFIG_CACHE" (BUILD_SCRATCH +:+ "/cache/npm"); env "TMPDIR" (BUILD_SCRATCH +:+ "/tmp"); env "TMP" (BUILD_SCRATCH +:+ "/tmp");
   env "TEMP" (BUILD_SCRATCH +:+ "/tmp"); env "XDG_CACHE_HOME" (BUILD_SCRATCH +:+ "/cache"); env "CARGO_TARGET_DIR" (BUILD_SCRATCH +:+ "/cargo-target")]
  ++ (if cluster_access t then [env "KUBECONFIG" "/run/mwc-ssh/kubeconfig"] else [])
  ++ (if buildkit t then [env "BUILDKIT_HOST" ENDPOINT] else []).
Definition platform_env : list EnvVar :=
  [env "MWC_WORKSPACE_USER" (workspace_user t); env "MWC_WORKSPACE_HOME" home; env "MWC_IN_CLUSTER_KUBECONFIG" (flag (cluster_access t));
   env "MWC_BUILDKIT_ENABLED" (flag (buildkit t)); env "MWC_BUILD_SCRATCH" BUILD_SCRATCH;
   env "MWC_HOME_RESERVE_MIB" (decimal_text (fixed_home_disk_margin_mib (disk_gib (resources t))))]
  ++ session_platform_env
  ++ match desktop t with
     | Some desktop => [env "MWC_DESKTOP_ENABLED" "true"; env "MWC_DESKTOP_PORT" (decimal_text (internal_port desktop))]
     | None => []
     end.
Definition is_platform_environment (name : string) : bool :=
  bool_decide (name ∈ INTERNAL_PLATFORM_ENVIRONMENT)
  || bool_decide (name ∈ ["PATH"; "HOME"; "RUSTUP_HOME"; "CARGO_HOME"])
  || bool_decide (name ∈ ["TMPDIR"; "TMP"; "TEMP"; "XDG_CACHE_HOME"; "CARGO_TARGET_DIR"; "NPM_CONFIG_CACHE"])
  || cluster_access t && String.eqb name "KUBECONFIG" || buildkit t && String.eqb name "BUILDKIT_HOST".

Definition ssh_strict_modes : string := "yes".
Definition ssh_set_env : string :=
  match omap (λ variable, sshd_argument (en_name variable) <$> en_value variable) session_platform_env with
  | [] => ""
  | assignments => "SetEnv " +:+ String.concat " " assignments +:+ String (Ascii.ascii_of_nat 10) ""
  end.

Definition workspace_mounts (data_volume_name : string) : list VolumeMount :=
  [mount data_volume_name home false; mount "runtime-ssh" "/run/mwc-ssh" false; mount "ssh-identity" "/etc/ssh/platform" true;
   mount "workspace-config" "/etc/workspace-platform" true; mount "workspace-files-secret" "/var/run/workspace-injections/secret" true;
   mount "workspace-files-config" "/var/run/workspace-injections/config" true].
Definition development_mounts (names : WorkspaceResourceNames) : list VolumeMount :=
  workspace_mounts (data_claim_template names)
  ++ [cache_mount "/tmp" "tmp"; cache_mount "/var/tmp" "tmp"; cache_mount BUILD_SCRATCH WORKSPACE_CACHE_SUB_PATH;
      cache_mount CODEX_SCRATCH CODEX_SESSION_SUB_PATH]
  ++ (if buildkit t then [cache_mount BUILDKIT_VOLUME_MOUNT CACHE_SUB_PATH] else []).

Definition pid_check (file : string) : string :=
  "test -s " +:+ file +:+ " && kill -0 " +:+ String quote_char ("$(cat " +:+ file +:+ ")") +:+ String quote_char "".
Definition readiness_check : string :=
  pid_check "/run/mwc-ssh/sshd.pid" +:+ if is_some (desktop t) then " && " +:+ pid_check "/run/mwc-ssh/desktop.pid" else "".

Definition workspace_scratch_init_container (image : string) : Container :=
  mkContainer "workspace-scratch-init" (Some image) (Some ["sh"; "-c"]) (Some [scratch_init_script])
    (Some [env "MWC_WORKSPACE_USER" (workspace_user t); env "MWC_BUILDKIT_ENABLED" (flag (buildkit t))]) None
    (Some [mount SCRATCH_VOLUME SCRATCH_ROOT false]) (Some (root_security_context true))
    (Some (requirements (quantities (millis (cpu_request_millis t 10)) "16Mi" None) (quantities "100m" "64Mi" None))) None [].
Definition readiness_probe : Value :=
  json_object [("exec", json_object [("command", strings_json ["sh"; "-c"; readiness_check])]); ("initialDelaySeconds", Number 1);
               ("periodSeconds", Number 2); ("timeoutSeconds", Number 1); ("successThreshold", Number 1); ("failureThreshold", Number 3)].
Definition workspace_container (image : string) (resources : Value) (names : WorkspaceResourceNames) : Container :=
  let ports := container_port 2222 "ssh" (Some "TCP")
    :: match desktop t with Some desktop => [container_port (internal_port desktop) "desktop" (Some "TCP")] | None => [] end in
  mkContainer "workspace" (Some image) (Some [BOOTSTRAP]) (Some ["serve"]) (Some platform_env) (Some (injection_env_from names))
    (Some (development_mounts names)) (Some (root_security_context false)) (Some resources) None
    [("ports", Array ports); ("readinessProbe", readiness_probe)].
End WorkspacePod.

(** [apply_injected_environment_overrides]: what users inject goes before what the
    image would be given, except where the platform relies on it. *)
Definition apply_injected_environment_overrides (t : WorkspaceTemplateSpec) (container : Container) (targets : gset string) : Container :=
  let kept variable := is_platform_environment t (en_name variable) || negb (bool_decide (en_name variable ∈ targets)) in
  mkContainer (ct_name container) (ct_image container) (ct_command container) (ct_args container) (List.filter kept <$> ct_env container)
    (ct_env_from container) (ct_volume_mounts container) (ct_security_context container) (ct_resources container)
    (ct_termination_message_policy container) (ct_other container).

Section Workload.
Context {Network : Type} `{UuidText} (b : ResourceBuilder Network).
Abbreviation c := (rb_config b).

(** ** Labels ([builder.rs]) *)
Definition all_workspace_labels (w : Workspace) : gmap string string :=
  let labels := <[OWNER_USER_ID_LABEL := uuid_to_string (ws_owner_id w)]>
    (<[ORGANIZATION_ID_LABEL := uuid_to_string (ws_organization_id w)]> (workspace_labels c w)) in
  match ws_template_id w with Some template_id => <[TEMPLATE_ID_LABEL := uuid_to_string template_id]> labels | None => labels end.
Definition installation_labels : gmap string string :=
  <[MANAGED_BY_LABEL := "memeloop-workspace-control"]> {[ OWNER_INSTALLATION_LABEL := kc_installation_id c ]}.

(** ** The terminal ([workload_ttyd.rs]) *)
Definition ttyd_args (t : WorkspaceTemplateSpec) (route_key : string) : list string :=
  ["--port"; "7681"; "--writable"; "--base-path"; "/shell/" +:+ route_key]
  ++ (if is_some (kc_ttyd_mtls c)
      then ["--ssl"; "--ssl-cert"; "/etc/mwc-ttyd-tls/tls.crt"; "--ssl-key"; "/etc/mwc-ttyd-tls/tls.key"; "--ssl-ca"; "/etc/mwc-ttyd-tls/ca.crt"] else [])
  ++ ["/usr/bin/ssh"; "-p"; "2222"; "-o"; "StrictHostKeyChecking=yes"; "-o"; "UserKnownHostsFile=/etc/ssh/platform/known_hosts"; "-o"; "BatchMode=yes";
      "-i"; "/etc/ssh/platform/ttyd_client_key"; workspace_user t +:+ "@127.0.0.1"].
Definition ttyd_mounts : list VolumeMount :=
  [mount "runtime-ssh" "/etc/ssh/platform" true; mount "ttyd-tmp" "/tmp" false; mount "ttyd-tmp" "/var/tmp" false]
  ++ (if is_some (kc_ttyd_mtls c) then [mount "ttyd-tls" "/etc/mwc-ttyd-tls" true] else [])
  ++ (if http_proxy_enabled c then [mount "http-proxy-routes" "/etc/mwc-http-routes" true] else []).
Definition ttyd_container (t : WorkspaceTemplateSpec) (route_key : string) : Container :=
  mkContainer "ttyd" (Some (rb_ttyd_image b)) (Some [if http_proxy_enabled c then "/usr/local/bin/mwc-ttyd-start" else "/usr/bin/ttyd"])
    (Some (ttyd_args t route_key)) None None (Some ttyd_mounts) None
    (Some (requirements (quantities (millis (cpu_request_millis t 10)) "16Mi" None) (quantities "100m" "128Mi" None))) None
    [("ports", Array (container_port 7681 "web-shell" (Some "TCP") :: (if http_proxy_enabled c then [container_port PORT "app-proxy" None] else [])))].

(** ** The workload ([workload.rs]) *)
Definition workspace_resources (t : WorkspaceTemplateSpec) : Value :=
  let gpus := if 0 <? gpu_count (resources t) then [("nvidia.com/gpu", Str (decimal_text (gpu_count (resources t))))] else [] in
  requirements (resource_requests t ++ gpus) (resource_limits t ++ gpus).
Definition workspace_containers (w : Workspace) (names : WorkspaceResourceNames) (route_key : string) : list Container :=
  let t := ws_template w in
  [workspace_container t (image t) (workspace_resources t) names]
  ++ option_list (buildkit_container (buildkit t) (rb_buildkit_image b) (cpu_request_millis t 250))
  ++ [ttyd_container t route_key].
Definition init_containers (t : WorkspaceTemplateSpec) : list Container :=
  match bootstrap_container (buildkit t) (rb_buildkit_image b) (cpu_request_millis t 10) with
  | Some bootstrap => [workspace_scratch_init_container t (image t); bootstrap]
  | None => []
  end.

Definition plain_volume (name kind : string) (source : fields) : PodVolume := mkPodVolume name None None (json_object [(kind, json_object source)]).
Definition claim_volume (name claim_name : string) : PodVolume := mkPodVolume name (Some (mkClaimMount claim_name (Some false))) None Null.
(** [bounded_empty_dir] with its volume. *)
Definition memory_volume (name : string) : PodVolume := plain_volume name "emptyDir" [("medium", Str "Memory"); ("sizeLimit", Str "128Mi")].
Definition secret_projection (name : string) (keys : list string) : Value :=
  json_object [("secret", json_object [("items", Array ((λ key, json_object [("key", Str key); ("mode", Number 256); ("path", Str key)]) <$> keys)); ("name", Str name)])].
Definition ttyd_tls_volume (mtls : TtydMtlsConfig) : PodVolume :=
  plain_volume "ttyd-tls" "projected" [("defaultMode", Number 256);
    ("sources", Array [secret_projection (server_tls_secret_name mtls) ["tls.crt"; "tls.key"]; secret_projection (client_ca_secret_name mtls) ["ca.crt"]])].
Definition scratch_volume (w : Workspace) (names : WorkspaceResourceNames) : PodVolume :=
  claim_volume SCRATCH_VOLUME match ws_scratch_volume_binding w with Some binding => vb_claim_name binding | None => scratch_pvc names end.
Definition workspace_volumes (w : Workspace) (names : WorkspaceResourceNames) : list PodVolume :=
  [plain_volume "ssh-identity" "secret" [("defaultMode", Number 256); ("secretName", Str (ssh_identity_secret names))];
   plain_volume "workspace-files-secret" "secret" [("secretName", Str (files_secret names))];
   plain_volume "workspace-files-config" "configMap" [("name", Str (files_config_map names))];
   plain_volume "workspace-config" "configMap" [("defaultMode", Number 365); ("name", Str (workspace_config names))];
   memory_volume "runtime-ssh"; memory_volume "ttyd-tmp"; scratch_volume w names]
  ++ match ws_home_volume_binding w with Some binding => [claim_volume (data_claim_template names) (vb_claim_name binding)] | None => [] end
  ++ match kc_ttyd_mtls c with Some mtls => [ttyd_tls_volume mtls] | None => [] end
  ++ (if http_proxy_enabled c then [plain_volume "http-proxy-routes" "configMap" [("name", Str (http_proxy_config names)); ("optional", Bool true)]] else []).

Definition hostname_term (values : list string) : Value :=
  json_object [("matchExpressions", Array [json_object [("key", Str "kubernetes.io/hostname"); ("operator", Str "In"); ("values", strings_json values)]])].
Definition placement_affinity (p : ResolvedPlacement) : option Value :=
  if bool_decide (rp_required_hosts p = []) && bool_decide (rp_preferred_hosts p = []) then None
  else
    let unless_empty (hosts : list string) (v : Value) := if bool_decide (hosts = []) then None else Some v in
    Some (json_object [("nodeAffinity", set_fields
      [("requiredDuringSchedulingIgnoredDuringExecution",
          unless_empty (rp_required_hosts p) (json_object [("nodeSelectorTerms", Array [hostname_term (rp_required_hosts p)])]));
       ("preferredDuringSchedulingIgnoredDuringExecution",
          unless_empty (rp_preferred_hosts p) (Array [json_object [("preference", hostname_term (rp_preferred_hosts p)); ("weight", Number 100)]]))])]).
(** The members of a Pod that decide where it runs. *)
Definition placement_members (t : WorkspaceTemplateSpec) (p : ResolvedPlacement) : fields :=
  omap (λ kv, (kv.1,.) <$> kv.2)
    [("affinity", placement_affinity p);
     ("nodeSelector", if bool_decide (rp_selector p = []) then None else Some (json_object ((λ kv, (kv.1, Str kv.2)) <$> rp_selector p)));
     ("runtimeClassName", Str <$> runtime_class_name t)].
Definition pod_spec (w : Workspace) (runtime : WorkspaceRuntimeNames) (p : ResolvedPlacement) : PodSpec :=
  let t := ws_template w in
  let names := resources_of runtime in
  mkPodSpec None None (Some (cluster_access t)) None None (workspace_containers w names (route_key runtime)) (Some (init_containers t)) None
    (Some (workspace_volumes w names)) None None None None (if cluster_access t then Some (service_account names) else None) (placement_members t p).

(** [scratch_claim] and [workspace_claim]. *)
Definition claim_spec (class : option string) (size : string) : ClaimSpec :=
  mkClaimSpec (Some ["ReadWriteOnce"]) class None None (Some {[ "storage" := size ]}) None None.
Definition scratch_claim (w : Workspace) (runtime : WorkspaceRuntimeNames) : Claim :=
  mkClaim (new_meta (scratch_pvc (resources_of runtime)) (namespace runtime) (<[STORAGE_ROLE_LABEL := "temporary"]> (workspace_labels c w)))
    (Some (claim_spec (Some (rb_scratch_storage_class_name b)) (gib (temporary_storage_gib (storage_policy (ws_template w)))))) None.

Definition workspace_claim (w : Workspace) (names : WorkspaceResourceNames) : Claim :=
  mkClaim (mkMeta (Some (data_claim_template names)) None None None None (Some (<[STORAGE_ROLE_LABEL := "home"]> (workspace_labels c w))) None None None None)
    (Some (claim_spec (if use_longhorn (storage_policy (ws_template w)) then Some "longhorn" else rb_storage_class_name b)
             (gib (disk_gib (resources (ws_template w)))))) None.

Definition workload (w : Workspace) (runtime : WorkspaceRuntimeNames) (p : ResolvedPlacement) (replicas : Z) : StatefulSet :=
  let names := resources_of runtime in
  let template := mkTemplate
    (Some (mkMeta None None None None None (Some (pod_labels (all_workspace_labels w))) None None
             (Some {[ GENERATION_ANNOTATION := decimal_text (ws_generation w) ]}) None))
    (Some (pod_spec w runtime p)) in
  mkSet (new_meta (stateful_set names) (namespace runtime) (all_workspace_labels w))
    (Some (mkSetSpec (Some replicas) (Some (service names)) (Some (pod_labels (workspace_labels c w))) None template
             (if is_some (ws_home_volume_binding w) then None else Some [workspace_claim w names]))) None.
End Workload.

(** ** What a Pod mounts and may do *)

(** A container, with the volumes it mounts and where. *)
Definition mounts_of (container : Container) : list (string * string) :=
  (λ m, (vm_name m, vm_mount_path m)) <$> default [] (ct_volume_mounts container).
Definition all_containers (pod : PodSpec) : list Container := ps_containers pod ++ default [] (ps_init_containers pod).
Definition pod_mounts (pod : PodSpec) : list (string * list (string * string)) :=
  (λ container, (ct_name container, mounts_of container)) <$> all_containers pod.
(** The volumes there are, those of claims the StatefulSet makes included. *)
Definition volume_names (spec : SetSpec) (pod : PodSpec) : list string :=
  (vo_name <$> default [] (ps_volumes pod)) ++ omap (λ claim, md_name (cl_metadata claim)) (default [] (ss_claim_templates spec)).

(** Where the platform mounts something in the container of the workspace. *)
Definition PLATFORM_PATHS : list string := [
  "/run/mwc-ssh"; "/etc/ssh/platform"; "/etc/workspace-platform"; "/var/run/workspace-injections/secret"; "/var/run/workspace-injections/config";
  "/tmp"; "/var/tmp"; BUILD_SCRATCH; CODEX_SCRATCH; BUILDKIT_VOLUME_MOUNT; vm_mount_path gate_mount].

(** What the server asks of a Pod: volumes and containers have distinct names, every
    mount is of a volume, and the paths of a container are distinct if the home is not
    one of the platform's. *)
Definition mountable (home : string) (volumes : list string) (mounts : list (string * list (string * string))) : Prop :=
  NoDup volumes ∧ NoDup mounts.*1 ∧
  ∀ container ms, (container, ms) ∈ mounts → (∀ m, m ∈ ms → m.1 ∈ volumes) ∧ (home ∉ PLATFORM_PATHS → NoDup ms.*2).

(** No namespace of the host, no path of the host, no privileged container. *)
Definition confined (pod : PodSpec) : Prop :=
  ps_host_network pod = None ∧ ps_host_pid pod = None ∧ ps_host_ipc pod = None ∧
  (∀ v, v ∈ default [] (ps_volumes pod) → get (vo_other v) "hostPath" = None) ∧
  (∀ ct, ct ∈ all_containers pod → (ct_security_context ct ≫= λ context, get context "privileged") ≠ Some (Bool true)).

(** The container of the workspace has the environment of the platform, apart from what
    users inject instead. *)
Definition environment_kept (t : WorkspaceTemplateSpec) (targets : gset string) (pod : PodSpec) : Prop :=
  ∃ container, container ∈ ps_containers pod ∧ ct_name container = "workspace" ∧
    ∀ v, v ∈ default [] (ct_env container) ↔ v ∈ platform_env t ∧ (is_platform_environment t (en_name v) = true ∨ en_name v ∉ targets).

(** There is room for the gate. *)
Definition roomy (home : string) (volumes : list string) (mounts : list (string * list (string * string))) : Prop :=
  mountable home volumes mounts ∧ GATE_VOLUME ∉ volumes ∧
  ∀ container ms, (container, ms) ∈ mounts → home ∉ PLATFORM_PATHS → vm_mount_path gate_mount ∉ ms.*2.

(** *** The gate *)
Lemma mounts_of_gated container : mounts_of (mount_gate container) = mounts_of container ++ [(GATE_VOLUME, vm_mount_path gate_mount)].
Proof. unfold mounts_of, mount_gate; cbn. by rewrite fmap_app. Qed.

Lemma gated_containers name pod : all_containers (gate_pod name pod) = mount_gate <$> all_containers pod.
Proof. unfold all_containers, gate_pod; cbn. rewrite fmap_app. f_equal. by destruct (ps_init_containers pod). Qed.
Lemma gated_mounts name pod :
  pod_mounts (gate_pod name pod) = (λ cm, (cm.1, cm.2 ++ [(GATE_VOLUME, vm_mount_path gate_mount)])) <$> pod_mounts pod.
Proof.
  unfold pod_mounts. rewrite gated_containers, <-!list_fmap_compose. apply list_fmap_ext. intros i ct _. unfold compose. f_equal. apply mounts_of_gated.
Qed.
Lemma gated_volumes name spec pod : volume_names (set_pod_spec (gate_pod name pod) spec) (gate_pod name pod) ≡ₚ GATE_VOLUME :: volume_names spec pod.
Proof.
  unfold volume_names, gate_pod, set_pod_spec. cbn [ps_volumes ss_claim_templates from_option id].
  rewrite fmap_app, <-app_assoc. symmetry. apply Permutation_middle.
Qed.

Lemma mountable_perm home volumes volumes' mounts : volumes ≡ₚ volumes' → mountable home volumes mounts → mountable home volumes' mounts.
Proof.
  intros Hp (Hv & Hc & Hm). split_and!; [by rewrite <-Hp|done|]. intros container ms Hin. destruct (Hm container ms Hin) as [Hvol Hpath].
  split; [|done]. intros m Hin'. rewrite <-Hp. by apply Hvol.
Qed.
Lemma roomy_gate home name spec pod : roomy home (volume_names spec pod) (pod_mounts pod) →
  mountable home (volume_names (set_pod_spec (gate_pod name pod) spec) (gate_pod name pod)) (pod_mounts (gate_pod name pod)).
Proof.
  intros ((Hv & Hc & Hm) & Hg & Hp). eapply mountable_perm; [symmetry; apply gated_volumes|]. rewrite gated_mounts. split_and!.
  - by constructor.
  - by rewrite <-list_fmap_compose.
  - intros container ms ([c' ms'] & [= -> ->] & Hin)%list_elem_of_fmap. cbn [fst snd] in *. destruct (Hm _ _ Hin) as [Hvol Hpath]. split.
    + intros m [Hm'|[= ->]%list_elem_of_singleton]%elem_of_app; [right; by apply Hvol|by left].
    + intros Hhome. rewrite fmap_app. apply NoDup_app. split_and!; [by apply Hpath| |apply NoDup_singleton].
      intros path Hin' ->%list_elem_of_singleton. by eapply Hp.
Qed.
Lemma confined_gate name pod : confined pod → confined (gate_pod name pod).
Proof.
  intros (Hn & Hpid & Hipc & Hv & Hc). split_and!; [done..| |].
  - cbn. intros v [Hin| ->%list_elem_of_singleton]%elem_of_app; [by apply Hv|done].
  - intros ct. rewrite gated_containers. intros (ct' & -> & Hin)%list_elem_of_fmap. by apply (Hc ct').
Qed.
Lemma environment_gate t targets name pod : environment_kept t targets pod → environment_kept t targets (gate_pod name pod).
Proof.
  intros (ct & Hin & Hname & Henv). exists (mount_gate ct). split_and!; [|done|done]. cbn. by apply list_elem_of_fmap_2.
Qed.

(** *** The workload *)
Lemma home_claim_template inst short_id runtime : for_workspace_names inst short_id = Some runtime → data_claim_template (resources_of runtime) = "workspace-data".
Proof. unfold for_workspace_names. cbv zeta. destruct (_ && _); [|done]. by intros [= <-]. Qed.

Section WorkloadLemmas.
Context {Network : Type} `{UuidText} (b : ResourceBuilder Network) (w : Workspace) (runtime : WorkspaceRuntimeNames) (p : ResolvedPlacement).
Abbreviation t := (ws_template w).

Lemma workspace_mounts_spec names resources : data_claim_template names = "workspace-data" →
  mounts_of (workspace_container t (image t) resources names) =
    ("workspace-data", workspace_home t) :: [("runtime-ssh", "/run/mwc-ssh"); ("ssh-identity", "/etc/ssh/platform"); ("workspace-config", "/etc/workspace-platform");
     ("workspace-files-secret", "/var/run/workspace-injections/secret"); ("workspace-files-config", "/var/run/workspace-injections/config");
     (SCRATCH_VOLUME, "/tmp"); (SCRATCH_VOLUME, "/var/tmp"); (SCRATCH_VOLUME, BUILD_SCRATCH); (SCRATCH_VOLUME, CODEX_SCRATCH)]
    ++ (if buildkit t then [(SCRATCH_VOLUME, BUILDKIT_VOLUME_MOUNT)] else []).
Proof. intros Hn. unfold mounts_of, workspace_container, development_mounts, workspace_mounts; cbn. rewrite Hn. by destruct (buildkit t). Qed.

(** The mounts of the other containers do not depend on what the workspace is. *)
Definition side_mounts (with_buildkit with_mtls with_proxy : bool) : list (string * list (string * string)) :=
  let cache := [(SCRATCH_VOLUME, "/var/lib/mwc-buildkit"); (SCRATCH_VOLUME, "/home/user/.local/share/buildkit")] in
  (if with_buildkit then [("buildkitd", cache ++ [(SCRATCH_VOLUME, "/tmp")])] else [])
  ++ [("ttyd", [("runtime-ssh", "/etc/ssh/platform"); ("ttyd-tmp", "/tmp"); ("ttyd-tmp", "/var/tmp")]
               ++ (if with_mtls then [("ttyd-tls", "/etc/mwc-ttyd-tls")] else []) ++ (if with_proxy then [("http-proxy-routes", "/etc/mwc-http-routes")] else []))]
  ++ (if with_buildkit then [("workspace-scratch-init", [(SCRATCH_VOLUME, SCRATCH_ROOT)]); ("buildkit-bootstrap", cache)] else []).
Definition side_volumes (with_mtls with_proxy : bool) : list string :=
  ["ssh-identity"; "workspace-files-secret"; "workspace-files-config"; "workspace-config"; "runtime-ssh"; "ttyd-tmp"; SCRATCH_VOLUME]
  ++ (if with_mtls then ["ttyd-tls"] else []) ++ (if with_proxy then ["http-proxy-routes"] else []).

Lemma pod_mounts_spec :
  pod_mounts (pod_spec b w runtime p) =
    ("workspace", mounts_of (workspace_container t (image t) (workspace_resources t) (resources_of runtime)))
    :: side_mounts (buildkit t) (is_some (kc_ttyd_mtls (rb_config b))) (http_proxy_enabled (rb_config b)).
Proof.
  unfold pod_mounts, all_containers, pod_spec, workspace_containers, init_containers, buildkit_container, bootstrap_container, ttyd_container, ttyd_mounts, side_mounts, mounts_of.
  by destruct (buildkit t), (is_some (kc_ttyd_mtls (rb_config b))), (http_proxy_enabled (rb_config b)).
Qed.
Lemma volume_names_spec replicas : data_claim_template (resources_of runtime) = "workspace-data" →
  ∀ spec, ss_spec (workload b w runtime p replicas) = Some spec →
  volume_names spec (pod_spec b w runtime p)
    ≡ₚ "workspace-data" :: side_volumes (is_some (kc_ttyd_mtls (rb_config b))) (http_proxy_enabled (rb_config b)).
Proof.
  intros Hn spec [= <-]. unfold volume_names, pod_spec, workspace_volumes, side_volumes. cbn [ps_volumes ss_claim_templates].
  destruct (ws_home_volume_binding w), (kc_ttyd_mtls (rb_config b)), (http_proxy_enabled (rb_config b)); cbn; rewrite ?Hn; cbn; solve_Permutation.
Qed.
(** What is concrete is decided. *)
Definition side_container_fine (volumes : list string) (cm : string * list (string * string)) : Prop :=
  Forall (λ m, m.1 ∈ volumes) cm.2 ∧ NoDup (vm_mount_path gate_mount :: cm.2.*2).
Lemma side_containers_fine x y z : Forall (side_container_fine ("workspace-data" :: side_volumes y z)) (side_mounts x y z).
Proof. unfold side_container_fine. destruct x, y, z; apply (bool_decide_unpack _); by vm_compute. Qed.
Lemma side_names x y z : NoDup ("workspace" :: (side_mounts x y z).*1) ∧ NoDup (GATE_VOLUME :: "workspace-data" :: side_volumes y z).
Proof. destruct x, y, z; split; apply (bool_decide_unpack _); by vm_compute. Qed.

Lemma workspace_container_fine names resources volumes y z : data_claim_template names = "workspace-data" →
  volumes = "workspace-data" :: side_volumes y z →
  let ms := mounts_of (workspace_container t (image t) resources names) in
  (∀ m, m ∈ ms → m.1 ∈ volumes) ∧ (workspace_home t ∉ PLATFORM_PATHS → NoDup (vm_mount_path gate_mount :: ms.*2)).
Proof.
  intros Hn -> ms. unfold ms. rewrite workspace_mounts_spec by done. clear ms.
  set (rest := [("runtime-ssh", _); _; _; _; _; _; _; _; _] ++ _). split.
  - assert (Forall (λ m : string * string, m.1 ∈ "workspace-data" :: side_volumes y z) rest) as Hall
      by (unfold rest; destruct (buildkit t), y, z; apply (bool_decide_unpack _); by vm_compute).
    rewrite Forall_forall in Hall. intros m [->|Hm]%elem_of_cons; [by left|by apply Hall].
  - intros Hhome. assert (NoDup (vm_mount_path gate_mount :: rest.*2) ∧ Forall (λ path, path ∈ PLATFORM_PATHS) rest.*2) as [Hnd Hsub].
    { split; unfold rest; destruct (buildkit t); apply (bool_decide_unpack _); by vm_compute. }
    rewrite fmap_cons. cbn [snd]. apply NoDup_cons in Hnd as [Hg Hr]. assert (workspace_home t ∉ rest.*2) by (rewrite Forall_forall in Hsub; intros ?%Hsub; done).
    apply NoDup_cons. split; [|by apply NoDup_cons]. intros [E|Hin]%elem_of_cons; [|done]. apply Hhome. rewrite <-E. by apply (bool_decide_unpack _); vm_compute.
Qed.

Lemma workload_roomy replicas spec : data_claim_template (resources_of runtime) = "workspace-data" →
  ss_spec (workload b w runtime p replicas) = Some spec →
  roomy (workspace_home t) (volume_names spec (pod_spec b w runtime p)) (pod_mounts (pod_spec b w runtime p)).
Proof.
  intros Hn Hs. pose proof (volume_names_spec replicas Hn spec Hs) as Hv. rewrite pod_mounts_spec.
  set (y := is_some (kc_ttyd_mtls _)) in *. set (z := http_proxy_enabled _) in *.
  destruct (side_names (buildkit t) y z) as [Hc Hvol]. apply NoDup_cons in Hvol as [Hg Hvol].
  assert (∀ container ms, (container, ms) ∈ ("workspace", mounts_of (workspace_container t (image t) (workspace_resources t) (resources_of runtime)))
            :: side_mounts (buildkit t) y z →
          (∀ m, m ∈ ms → m.1 ∈ "workspace-data" :: side_volumes y z) ∧ (workspace_home t ∉ PLATFORM_PATHS → NoDup (vm_mount_path gate_mount :: ms.*2))) as Hall.
  { intros container ms [[= -> ->]|Hin]%elem_of_cons; [by eapply workspace_container_fine|].
    pose proof (side_containers_fine (buildkit t) y z) as Hf. rewrite Forall_forall in Hf. destruct (Hf _ Hin) as [H1 H2].
    split; [|done]. by rewrite Forall_forall in H1. }
  split_and!.
  - eapply mountable_perm; [symmetry; exact Hv|]. split_and!; [done|done|]. intros container ms Hin. destruct (Hall _ _ Hin) as [H1 H2].
    split; [done|]. intros Hh. by apply NoDup_cons in H2 as [_ ?].
  - by rewrite Hv.
  - intros container ms Hin Hh. destruct (Hall _ _ Hin) as [_ H2]. by apply NoDup_cons in H2 as [? _].
Qed.

(** *** What the Pod may do *)
Lemma containers_unprivileged : Forall (λ ct, (ct_security_context ct ≫= λ context, get context "privileged") ≠ Some (Bool true)) (all_containers (pod_spec b w runtime p)).
Proof.
  unfold all_containers, pod_spec, workspace_containers, init_containers, buildkit_container, bootstrap_container. cbn [ps_containers ps_init_containers].
  destruct (buildkit t); repeat constructor; cbn; discriminate.
Qed.
Lemma volumes_off_host : Forall (λ v, get (vo_other v) "hostPath" = None) (default [] (ps_volumes (pod_spec b w runtime p))).
Proof.
  unfold pod_spec, workspace_volumes. cbn [ps_volumes from_option id].
  destruct (ws_home_volume_binding w), (kc_ttyd_mtls (rb_config b)), (http_proxy_enabled (rb_config b)); repeat constructor.
Qed.
Lemma pod_confined : confined (pod_spec b w runtime p).
Proof.
  split_and!; [done..| |].
  - intros v Hv. pose proof volumes_off_host as Hall. rewrite Forall_forall in Hall. by apply Hall.
  - intros ct Hct. pose proof containers_unprivileged as Hall. rewrite Forall_forall in Hall. by apply Hall.
Qed.
End WorkloadLemmas.

(** *** Labels *)
Section Labels.
Context {Network : Type} `{UuidText} (b : ResourceBuilder Network) (w : Workspace).

Lemma label_added key value m : bool_decide (key ∉ [WORKSPACE_ID_LABEL; MANAGED_BY_LABEL; OWNER_INSTALLATION_LABEL]) = true →
  workspace_labels (rb_config b) w ⊆ m → workspace_labels (rb_config b) w ⊆ <[key := value]> m.
Proof.
  intros Hk%bool_decide_eq_true Hsub. apply insert_subseteq_r; [|done]. rewrite !not_elem_of_cons in Hk. destruct Hk as (H1 & H2 & H3 & _).
  unfold workspace_labels. by rewrite !lookup_insert_ne, lookup_singleton_ne.
Qed.
(** The selector of the Pods does not change when labels are added to them. *)
Lemma selector_selects : pod_labels (workspace_labels (rb_config b) w) ⊆ pod_labels (all_workspace_labels b w).
Proof.
  unfold pod_labels. apply insert_mono. unfold all_workspace_labels. destruct (ws_template_id w); repeat (apply label_added; [done|]); done.
Qed.
End Labels.
