(* ===== verification/Builder.v ===== *)
(** * What is wanted of a workspace ([src/kubernetes/builder.rs], [client.rs], the
    ConfigMap of [resource_helpers.rs], the objects of [materialization.rs], the routes of
    [http_proxy.rs])

    [build_with_placement] refuses what cannot be built and assembles the rest from the
    services, routes, policies and Pods of the files before; [reconcile_with_injections]
    applies it with the injections and the SSH identity that were prepared. The theorems
    follow what is built to the requests of the coordinator and from there to a later
    deletion. *)
From stdpp Require Import pretty.
From S2P Require Import Prelude Text Json Quota Templates Workspaces Errors ShrinkOperation Quantity Database Crypto WorkspaceStore Reconcile Names Injections Materialization Dictionary InjectionStore SshStore WorkspaceResponse WorkloadApply Tickets Gateway KubeApi ShrinkCluster ClusterLifecycle ClusterApply ClusterRoutes Manifests NetworkPolicies Pods.

(** Its [Display], and the script that is included from the image. *)
Class MaterializationErrorText := materialization_error_to_string : MaterializationError → string.
Class BootstrapScript := workspace_bootstrap : string.
(** The manifests of files and of the environment, as JSON. *)
Class ManifestJson := {
  files_manifest : list FileManifestEntry → list Z;
  environment_manifest : list EnvironmentManifestEntry → list Z;
}.

(** ** Objects with data *)
Section Data.
Context `{Base64Codec}.

Definition text_data (data : gmap string (list Z)) : Value := json_object ((λ kv, (kv.1, Str (string_of_bytes kv.2))) <$> map_to_list data).
Definition byte_data (data : gmap string (list Z)) : Value := json_object ((λ kv, (kv.1, byte_string kv.2)) <$> map_to_list data).
Definition secret_manifest (m : ObjectMeta) (data : gmap string (list Z)) : Manifest :=
  manifest "v1" "Secret" m [("data", Some (byte_data data)); ("type", Some (Str "Opaque"))].
Definition config_manifest (m : ObjectMeta) (data : gmap string (list Z)) (binary : option (gmap string (list Z))) : Manifest :=
  manifest "v1" "ConfigMap" m [("binaryData", byte_data <$> binary); ("data", Some (text_data data))].
End Data.

(** [InjectionMaterialization]: the objects, and the variables they set. *)
Record MaterializedInjections := mkMaterializedInjections { mi_objects : InjectionMaterialization; mi_environment_targets : gset string }.

Section Injected.
Context `{Base64Codec} `{JsonText} `{MaterializationErrorText} `{ManifestJson}.

Definition injection_objects (runtime : WorkspaceRuntimeNames) (labels : gmap string string) (m : Materialized) : MaterializedInjections :=
  let named name := new_meta (name (resources_of runtime)) (namespace runtime) labels in
  let files data := config_manifest (named files_config_map) data (Some (m_file_config_binary m)) in
  mkMaterializedInjections
    (mkInjections (secret_manifest (named environment_secret) (m_environment_secret m)) (secret_manifest (named files_secret) (m_file_secret m))
       (config_manifest (named environment_config_map) (m_environment_config m) None) (files (m_file_config m))
       (map_err materialization_error_to_string (files <$> compress (Some (m_file_config m)))))
    (m_environment_targets m).
Definition decode_base64 (text : string) : option (list Z) := (bytes ∘ String.string_of_list_ascii) <$> base64_decode text.
Definition materialized (runtime : WorkspaceRuntimeNames) (labels : gmap string string) (resolved : list ResolvedInjection) : result string MaterializedInjections :=
  injection_objects runtime labels <$> map_err materialization_error_to_string (build decode_base64 files_manifest environment_manifest resolved).
End Injected.

(** ** Building ([builder.rs]) *)
Section Build.
Context {Network : Type} `{EqDecision Network} `{IpNets Network} `{UuidText} `{Base64Codec} `{JsonText} `{MaterializationErrorText} `{ManifestJson} `{BootstrapScript}.
Context (b : ResourceBuilder Network).
Abbreviation c := (rb_config b).

(** [builder.runtime_names], with the text of its only error. *)
Definition INVALID_IDENTITY : string := "workspace runtime identity is invalid".
Definition builder_names (w : Workspace) : result string WorkspaceRuntimeNames :=
  ok_or (for_workspace_names (kc_installation_id c) (ws_short_id w)) INVALID_IDENTITY.

Definition validate_ttyd_gateway : result string () :=
  match kc_ttyd_mtls c with
  | Some mtls =>
      _ ← ensure (String.eqb (higress_client_secret_namespace mtls) (kc_higress_namespace c))
            "ttyd mTLS client Secret namespace must equal the configured Higress namespace";
      ensure (negb (bool_decide (rb_higress_pod_labels b = ∅))) "ttyd mTLS requires non-empty configured Higress gateway Pod labels"
  | None => Ok ()
  end.

Definition lines (texts : list string) : string := String.concat "" ((λ text, text +:+ String (Ascii.ascii_of_nat 10) "") <$> texts).
Definition sshd_config (t : WorkspaceTemplateSpec) : string :=
  lines ["Port 2222"; "ListenAddress 0.0.0.0"; "HostKey /run/mwc-ssh/ssh_host_ed25519_key"; "AuthorizedKeysFile /run/mwc-ssh/authorized_keys";
         "Banner /run/mwc-ssh/storage-banner"; "StrictModes " +:+ ssh_strict_modes]
  +:+ ssh_set_env t
  +:+ lines ["PasswordAuthentication no"; "KbdInteractiveAuthentication no"; "PermitRootLogin no"; "AllowUsers " +:+ workspace_user t;
             "AllowTcpForwarding yes"; "PermitTunnel no"; "X11Forwarding no"; "Subsystem sftp internal-sftp"; "PidFile /run/mwc-ssh/sshd.pid"].
(** [resource_helpers::workspace_config]. *)
Definition workspace_config_map (runtime : WorkspaceRuntimeNames) (labels : gmap string string) (t : WorkspaceTemplateSpec) : Manifest :=
  config_manifest (new_meta (workspace_config (resources_of runtime)) (namespace runtime) labels)
    (list_to_map [("sshd_config", bytes (sshd_config t)); ("mwc-workspace-bootstrap", bytes workspace_bootstrap)]) None.

Definition web_shell_resources (runtime : WorkspaceRuntimeNames) (labels : gmap string string) : option Manifest * option Manifest :=
  ((λ domain, ingress_manifest (web_shell_route runtime labels domain (kc_ttyd_mtls c))) <$> rb_web_shell_domain b,
   _ ← rb_web_shell_domain b; mtls ← kc_ttyd_mtls c;
   Some (web_shell_san_filter runtime labels (kc_higress_namespace c) (rb_higress_pod_labels b) mtls)).

Definition replicas_of (state : WorkspaceState) : Z := match state with Provisioning | Ready | Starting | Restarting => 1 | _ => 0 end.
Definition namespace_manifest : Manifest :=
  manifest "v1" "Namespace" (mkMeta (Some ns) None None None None (Some (installation_labels b)) None None None None) [].

(** What can be built. *)
Definition validate_build (w : Workspace) : result string () :=
  let t := ws_template w in
  _ ← validate_home_volume_binding w;
  _ ← ensure (negb (bool_decide (ws_state w = Deleting ∨ ws_state w = Deleted)))
        "cannot build desired runtime resources while workspace is being deleted";
  _ ← ensure (negb (bool_decide (trimmed (image t) = ""))) "workspace image must not be empty";
  _ ← ensure (negb (bool_decide (egress_policy t = InternetOnly) && negb (is_some (rb_internet_egress b))))
        "internet_only egress requires configured DNS namespace and Pod labels";
  _ ← validate_ttyd_gateway;
  ensure (validate_for_workspace (ws_id w) (ws_short_id w)) INVALID_IDENTITY.

Definition build_with_placement (w : Workspace) (p : ResolvedPlacement) : result string DesiredResources :=
  _ ← validate_build w;
  runtime ← builder_names w;
  let t := ws_template w in
  let labels := all_workspace_labels b w in
  let selector := pod_labels (workspace_labels c w) in
  let replicas := replicas_of (ws_state w) in
  injections ← materialized runtime labels [];
  (* a template for the internet only was refused without a configuration *)
  policy ← ok_or (workspace_policy runtime labels selector (kc_higress_namespace c) (rb_higress_pod_labels b) (rb_higress_source_cidrs b)
                    (rb_internet_egress b) (rb_jump_host_namespace b) (rb_jump_host_pod_labels b) (access_mode t) (egress_policy t)
                    (rb_internal_ssh_node_port_enabled b)) "validated internet-only egress configuration";
  let shell := web_shell_resources runtime labels in
  Ok {|
    dr_namespace := namespace_manifest;
    dr_service := service_manifest (workspace_service runtime labels selector);
    dr_internal_ssh_service := service_manifest <$> internal_ssh_service runtime labels selector (access_mode t) (rb_internal_ssh_node_port_enabled b);
    dr_service_account := cluster_admin_service_account runtime labels (cluster_access t);
    dr_cluster_role_binding :=
      cluster_admin_binding (cluster_admin_binding_name (kc_installation_id c) runtime) runtime labels (cluster_access t);
    dr_stateful_set := workload b w runtime p replicas;
    dr_scratch_claim := if (0 <? replicas) && negb (is_some (ws_scratch_volume_binding w)) then Some (scratch_claim b w runtime) else None;
    dr_network_policy := policy_manifest policy;
    dr_injections := mi_objects injections;
    dr_workspace_config := workspace_config_map runtime labels t;
    dr_ssh_identity := ssh_identity runtime labels None;
    dr_web_shell_ingress := shell.1;
    dr_web_shell_envoy_filter := shell.2;
  |}.
(** [build]: anywhere. *)
Definition build_resources (w : Workspace) : result string DesiredResources := build_with_placement w (mkResolvedPlacement [] [] []).

Definition materialize_injections (w : Workspace) (resolved : list ResolvedInjection) : result string MaterializedInjections :=
  runtime ← builder_names w; materialized runtime (workspace_labels c w) resolved.
Definition materialize_ssh_identity (w : Workspace) (identity : WorkspaceSshIdentity) : result string Manifest :=
  runtime ← builder_names w; Ok (ssh_identity runtime (workspace_labels c w) (Some identity)).

(** *** Routes *)
Definition port_mapping_objects (w : Workspace) (m : PortMapping) : result string (option (Manifest * Manifest * Manifest)) :=
  match kc_port_mapping_domain c with
  | None => Ok None
  | Some domain =>
      _ ← ensure (validate_for_workspace (ws_id w) (ws_short_id w)) INVALID_IDENTITY;
      runtime ← builder_names w;
      let labels := all_workspace_labels b w in
      let selector := pod_labels (workspace_labels c w) in
      let service := mapping_service runtime labels selector m in
      let route := mapping_route runtime labels domain m in
      let policy := mapping_policy runtime labels selector (kc_higress_namespace c) (rb_higress_pod_labels b) (rb_higress_source_cidrs b) m in
      Ok (Some match kc_ttyd_mtls c with
               | Some mtls => (service_manifest (secure_service service), ingress_manifest (secure_route runtime mtls route), policy_manifest (secure_policy policy))
               | None => (service_manifest service, ingress_manifest route, policy_manifest policy)
               end)
  end.
Definition mapping_tls_filter (w : Workspace) (m : PortMapping) : result string (option Manifest) :=
  match kc_ttyd_mtls c with
  | Some mtls =>
      if http_proxy_enabled c then
        runtime ← builder_names w;
        Ok (Some (mapping_san_filter runtime (all_workspace_labels b w) (kc_higress_namespace c) (rb_higress_pod_labels b) mtls m))
      else Ok None
  | None => Ok None
  end.
(** The ConfigMap of [http_proxy_routes], once the identity of the workspace is valid: its names
    are then those of its short identifier. *)
Definition proxy_config_map (w : Workspace) (content : string) : Manifest :=
  config_manifest (new_meta (http_proxy_config (for_prefix ("w-" +:+ ws_short_id w))) ns (all_workspace_labels b w)) {[ "ports.conf" := bytes content ]} None.
#[local] Instance route_builder : RouteBuilder := {|
  port_mapping_resources := port_mapping_objects;
  port_mapping_tls_filter := mapping_tls_filter;
  http_proxy_config_map := proxy_config_map;
|}.

(** ** Reconciling ([client.rs]) *)
Context `{OwnershipErrorText} `{RouteText}.

(** The first container of that name. *)
Fixpoint override_first (f : Container → Container) (containers : list Container) : option (list Container) :=
  match containers with
  | [] => None
  | container :: containers =>
      if String.eqb (ct_name container) "workspace" then Some (f container :: containers) else cons container <$> override_first f containers
  end.
Definition set_containers (containers : list Container) (pod : PodSpec) : PodSpec :=
  mkPodSpec (ps_restart_policy pod) (ps_active_deadline_seconds pod) (ps_automount_service_account_token pod) (ps_enable_service_links pod)
    (ps_security_context pod) containers (ps_init_containers pod) (ps_ephemeral_containers pod) (ps_volumes pod) (ps_host_network pod)
    (ps_host_pid pod) (ps_host_ipc pod) (ps_node_name pod) (ps_service_account_name pod) (ps_other pod).
Definition override_workload (t : WorkspaceTemplateSpec) (targets : gset string) (set : StatefulSet) : option StatefulSet :=
  spec ← ss_spec set;
  pod ← pt_spec (ss_template spec);
  containers ← override_first (λ container, apply_injected_environment_overrides t container targets) (ps_containers pod);
  Some (mkSet (ss_metadata set) (Some (set_pod_spec (set_containers containers pod) spec)) (ss_status set)).

(** What [reconcile_with_injections] applies. *)
Definition desired_with (w : Workspace) (p : ResolvedPlacement) (injections : MaterializedInjections) (identity : Manifest) : result string DesiredResources :=
  d ← build_with_placement w p;
  set ← ok_or (override_workload (ws_template w) (mi_environment_targets injections) (dr_stateful_set d))
          "desired workspace StatefulSet has no workspace container";
  Ok {|
    dr_namespace := dr_namespace d; dr_service := dr_service d; dr_internal_ssh_service := dr_internal_ssh_service d;
    dr_service_account := dr_service_account d; dr_cluster_role_binding := dr_cluster_role_binding d; dr_stateful_set := set;
    dr_scratch_claim := dr_scratch_claim d; dr_network_policy := dr_network_policy d; dr_injections := mi_objects injections;
    dr_workspace_config := dr_workspace_config d; dr_ssh_identity := identity; dr_web_shell_ingress := dr_web_shell_ingress d;
    dr_web_shell_envoy_filter := dr_web_shell_envoy_filter d;
  |}.
Definition reconcile_with_injections (w : Workspace) (p : ResolvedPlacement) (injections : MaterializedInjections) (identity : Manifest)
    (schedules : nat → list bool) : CM () :=
  desired ← cm_give (desired_with w p injections identity);
  apply_desired c w desired schedules.
Definition reconcile (w : Workspace) (schedules : nat → list bool) : CM () :=
  desired ← cm_give (build_resources w);
  apply_desired c w desired schedules.
Definition reconcile_routes (w : Workspace) (mappings : list PortMapping) (schedules : nat → list bool) : CM () :=
  reconcile_port_mappings c w mappings schedules.

(** What the reconciler asks of the coordinator ([reconcile_workspace] of
    [jobs/kubernetes.rs]), given the injections, the SSH identity, the placement and the
    mappings it read. *)
Definition serves_routes (w : Workspace) : bool := match ws_state w with Provisioning | Starting | Restarting | Ready => true | _ => false end.
Definition apply_objects (w : Workspace) (resolved : list ResolvedInjection) (ssh : WorkspaceSshIdentity) (p : ResolvedPlacement) (mappings : list PortMapping)
    (schedules schedules' : nat → list bool) : CM () :=
  injections ← cm_give (materialize_injections w resolved);
  identity ← cm_give (materialize_ssh_identity w ssh);
  _ ← reconcile_with_injections w p injections identity schedules;
  reconcile_routes w (if serves_routes w then mappings else []) schedules'.

(** ** What is sent carries its address and its owner *)
Definition carries (w : Workspace) (namespace : option string) (name : string) (m : ObjectMeta) : Prop :=
  md_name m = Some name ∧ md_namespace m = namespace ∧ belongs c m w.

(** The object a request writes, and its metadata; those of an object that is applied
    are read from its JSON. *)
Definition written {A} (req : Kube A) : option (Kind * option string * string) :=
  match req with
  | ApplyObject kind namespace name _ _ => Some (kind, namespace, name)
  | ApplySet namespace name _ _ => Some (KStatefulSet, Some namespace, name)
  | CreateClaim namespace claim => Some (KClaim, Some namespace, name_any (cl_metadata claim))
  | CreateConfigMap namespace config => Some (KConfigMap, Some namespace, name_any (cmap_metadata config))
  | _ => None
  end.
Definition written_metadata {A} (req : Kube A) (m : ObjectMeta) : Prop :=
  match req with
  | ApplyObject _ _ _ _ object => get object "metadata" = Some (meta_json m)
  | ApplySet _ _ _ set => m = ss_metadata set
  | CreateClaim _ claim => m = cl_metadata claim
  | CreateConfigMap _ config => m = cmap_metadata config
  | _ => False
  end.

(** An object that was written is known to be gone: it was seen to be absent, or no
    mapping's object was listed and it is one, or its namespace is absent. *)
Definition seen_gone (w : Workspace) (past : list Event) (kind : Kind) (namespace : option string) (name : string) (m : ObjectMeta) : Prop :=
  Absent past (GetObject kind namespace name) ∨
  (is_Some (label m PORT_MAPPING_ID_LABEL) ∧ Answered past (ListObjects kind namespace (mapping_selector c w)) []) ∨
  (namespace = Some ns ∧ Absent past (GetObject KNamespace None ns)).

(** The events of one method after another. *)
Lemma events_then {K} `{!KubeServer K} {A B} (q : Prog A) (f : A → Prog B) (k : K) e : e ∈ events (then_prog q f) k → e ∈ events q k ∨ ∃ a k', e ∈ events (f a) k'.
Proof.
  revert k. induction q as [a|C req next IH]; intros k; cbn; [by right; exists a, k|]. destruct (perform _ req k) as [r k1].
  intros [->|He]%elem_of_cons; [left; by left|]. destruct (IH r k1 He) as [|He']; [left; by right|by right].
Qed.

(** *** Metadata in JSON *)
Lemma get_json_object_not key entries : key ∉ entries.*1 → ∀ m, map_get key (foldl (λ m kv, map_insert kv.1 kv.2 m) m entries) = map_get key m.
Proof.
  induction entries as [|[k v] entries IH]; cbn; [done|]. intros [Hne Hni]%not_elem_of_cons m. rewrite IH by done. by apply map_get_insert_ne.
Qed.
Lemma manifest_metadata api_version kind m members : "metadata" ∉ members.*1 →
  get (mf_object (manifest api_version kind m members)) "metadata" = Some (meta_json m).
Proof.
  intros Hni. unfold manifest, set_fields, json_object. cbn. rewrite get_json_object_not; [done|]. intros Hin. apply Hni.
  apply list_elem_of_fmap in Hin as ([k v] & -> & Hin). apply list_elem_of_omap in Hin as ([k' [v'|]] & Hin & [= <- <-]).
  apply list_elem_of_fmap. by exists (k', Some v').
Qed.

(** *** Ownership *)
Definition owned_manifest (w : Workspace) (namespace : option string) (name : string) (mf : Manifest) : Prop :=
  get (mf_object mf) "metadata" = Some (meta_json (mf_metadata mf)) ∧ carries w namespace name (mf_metadata mf).

Lemma stable_labels_own w m : md_labels m = Some (workspace_labels c w) → belongs c m w.
Proof. intros Hl. unfold belongs, label. rewrite Hl. cbn. unfold workspace_labels. split; by simplify_map_eq. Qed.
Lemma labels_own w m : md_labels m = Some (all_workspace_labels b w) → belongs c m w.
Proof.
  intros Hl. unfold belongs, label. rewrite Hl. cbn. unfold all_workspace_labels, workspace_labels.
  destruct (ws_template_id w); split; by simplify_map_eq.
Qed.
Lemma label_insert_own w m m' key value labels : key ≠ OWNER_INSTALLATION_LABEL → key ≠ WORKSPACE_ID_LABEL → md_labels m = Some labels →
  md_labels m' = Some (<[key := value]> labels) → belongs c m w → belongs c m' w.
Proof. intros Hk Hk' Hm Hm'. unfold belongs, label. rewrite Hm, Hm'. cbn. by rewrite !lookup_insert_ne. Qed.

Ltac other_member := cbn; repeat (apply not_elem_of_cons; split; [discriminate|]); apply not_elem_of_nil.

(** The pieces, with the labels of the workspace or those that do not change. *)
Section Pieces.
Context (w : Workspace) (runtime : WorkspaceRuntimeNames) (Hn : for_workspace_names (kc_installation_id c) (ws_short_id w) = Some runtime).
Context (labels : gmap string string) (Hlabels : ∀ m, md_labels m = Some labels → belongs c m w).
Abbreviation names := (resources_of runtime).

Lemma runtime_namespace : namespace runtime = ns.
Proof using Hn. revert Hn. unfold for_workspace_names. cbv zeta. destruct (_ && _); [|done]. by intros [= <-]. Qed.

Lemma manifest_owned api_version kind m members namespace name : "metadata" ∉ members.*1 → md_name m = Some name → md_namespace m = namespace →
  md_labels m = Some labels → owned_manifest w namespace name (manifest api_version kind m members).
Proof using Hlabels. intros Hm Hname Hns Hl. split; [by apply manifest_metadata|]. split_and!; [done..|]. by apply Hlabels. Qed.

Ltac solve_owned := apply manifest_owned; [other_member|done|first [done|by cbn; rewrite runtime_namespace]|done].

Lemma owned_service selector : owned_manifest w (Some ns) (service names) (service_manifest (workspace_service runtime labels selector)).
Proof using Hn Hlabels. solve_owned. Qed.
Lemma owned_ssh_service selector mode enabled m : service_manifest <$> internal_ssh_service runtime labels selector mode enabled = Some m →
  owned_manifest w (Some ns) (ssh_service names) m.
Proof using Hn Hlabels.
  unfold internal_ssh_service. destruct (_ && _); [|done]. intros [= <-]. solve_owned.
Qed.
Lemma owned_account enabled m : cluster_admin_service_account runtime labels enabled = Some m → owned_manifest w (Some ns) (service_account names) m.
Proof using Hn Hlabels. destruct enabled; [|done]. intros [= <-]. solve_owned. Qed.
Lemma owned_binding name enabled m : cluster_admin_binding name runtime labels enabled = Some m → owned_manifest w None name m.
Proof using Hlabels. destruct enabled; [|done]. intros [= <-]. solve_owned. Qed.
Lemma owned_policy selector hn hl hc ie jn jl mode egress enabled policy :
  workspace_policy (Network := Network) runtime labels selector hn hl hc ie jn jl mode egress enabled = Some policy →
  owned_manifest w (Some ns) (network_policy names) (policy_manifest policy).
Proof using Hn Hlabels.
  unfold workspace_policy. destruct (bool_decide (egress = InternetOnly)); cbn; [destruct ie; [|done]; cbn|]; intros [= <-];
    solve_owned.
Qed.
Lemma owned_config t : owned_manifest w (Some ns) (workspace_config names) (workspace_config_map runtime labels t).
Proof using Hn Hlabels. solve_owned. Qed.
Lemma owned_identity identity : owned_manifest w (Some ns) (ssh_identity_secret names) (ssh_identity runtime labels identity).
Proof using Hn Hlabels. solve_owned. Qed.
Lemma owned_shell m : (web_shell_resources runtime labels).1 = Some m → owned_manifest w (Some ns) (web_shell_ingress names) m.
Proof using Hn Hlabels.
  cbn. destruct (rb_web_shell_domain b); [|done]. intros [= <-]. solve_owned.
Qed.
Lemma owned_filter m : (web_shell_resources runtime labels).2 = Some m →
  owned_manifest w (Some (kc_higress_namespace c)) (web_shell_envoy_filter names) m ∧ is_some (kc_ttyd_mtls c) = true.
Proof using Hlabels.
  cbn. destruct (rb_web_shell_domain b); cbn; [|done]. destruct (kc_ttyd_mtls c); cbn; [|done]. intros [= <-]. split; [|done].
  solve_owned.
Qed.
Lemma owned_injections resolved injections : materialized runtime labels resolved = Ok injections →
  owned_manifest w (Some ns) (environment_secret names) (im_environment_secret (mi_objects injections)) ∧
  owned_manifest w (Some ns) (files_secret names) (im_file_secret (mi_objects injections)) ∧
  owned_manifest w (Some ns) (environment_config_map names) (im_environment_config_map (mi_objects injections)) ∧
  ∀ compress files, file_config_map (mi_objects injections) compress = Ok files → owned_manifest w (Some ns) (files_config_map names) files.
Proof using Hn Hlabels.
  unfold materialized. destruct (build _ _ _ _) as [m|]; [|done]. intros [= <-]. unfold injection_objects.
  cbn [mi_objects im_environment_secret im_file_secret im_environment_config_map]. split_and!.
  1-3: solve_owned.
  intros [] files; unfold file_config_map; cbn [im_compressed im_file_config_map]; cbv zeta beta.
  - destruct (Dictionary.compress _) as [data|e]; cbn; [|by intros]. intros [= <-]. solve_owned.
  - intros [= <-]. solve_owned.
Qed.
End Pieces.

(** *** All that is wanted *)
Record owned_resources (w : Workspace) (runtime : WorkspaceRuntimeNames) (d : DesiredResources) : Prop := {
  or_service : owned_manifest w (Some ns) (service (resources_of runtime)) (dr_service d);
  or_ssh_service m : dr_internal_ssh_service d = Some m → owned_manifest w (Some ns) (ssh_service (resources_of runtime)) m;
  or_account m : dr_service_account d = Some m → owned_manifest w (Some ns) (service_account (resources_of runtime)) m;
  or_binding m : dr_cluster_role_binding d = Some m → owned_manifest w None (cluster_admin_binding_name (kc_installation_id c) runtime) m;
  or_policy : owned_manifest w (Some ns) (network_policy (resources_of runtime)) (dr_network_policy d);
  or_config : owned_manifest w (Some ns) (workspace_config (resources_of runtime)) (dr_workspace_config d);
  or_identity : owned_manifest w (Some ns) (ssh_identity_secret (resources_of runtime)) (dr_ssh_identity d);
  or_shell m : dr_web_shell_ingress d = Some m → owned_manifest w (Some ns) (web_shell_ingress (resources_of runtime)) m;
  or_filter m : dr_web_shell_envoy_filter d = Some m →
    owned_manifest w (Some (kc_higress_namespace c)) (web_shell_envoy_filter (resources_of runtime)) m ∧ is_some (kc_ttyd_mtls c) = true;
  or_environment_secret : owned_manifest w (Some ns) (environment_secret (resources_of runtime)) (im_environment_secret (dr_injections d));
  or_files_secret : owned_manifest w (Some ns) (files_secret (resources_of runtime)) (im_file_secret (dr_injections d));
  or_environment : owned_manifest w (Some ns) (environment_config_map (resources_of runtime)) (im_environment_config_map (dr_injections d));
  or_files compress files : file_config_map (dr_injections d) compress = Ok files → owned_manifest w (Some ns) (files_config_map (resources_of runtime)) files;
  or_set : carries w (Some ns) (stateful_set (resources_of runtime)) (ss_metadata (dr_stateful_set d));
  or_scratch claim : dr_scratch_claim d = Some claim → carries w (Some ns) (scratch_pvc (resources_of runtime)) (cl_metadata claim);
}.

Lemma scratch_carries w runtime : for_workspace_names (kc_installation_id c) (ws_short_id w) = Some runtime →
  carries w (Some ns) (scratch_pvc (resources_of runtime)) (cl_metadata (scratch_claim b w runtime)).
Proof.
  intros Hn. split_and!; [done|cbn; by rewrite (runtime_namespace w runtime Hn)|].
  apply (label_insert_own w (new_meta "" "" (workspace_labels c w)) _ STORAGE_ROLE_LABEL "temporary" (workspace_labels c w)); [done..|].
  by apply stable_labels_own.
Qed.

Lemma built_owned w p d : build_with_placement w p = Ok d →
  ∃ runtime, for_workspace_names (kc_installation_id c) (ws_short_id w) = Some runtime ∧ owned_resources w runtime d ∧
    dr_stateful_set d = workload b w runtime p (replicas_of (ws_state w)) ∧ validate_build w = Ok ().
Proof.
  unfold build_with_placement, builder_names. destruct (validate_build w) as [[]|] eqn:Hv; cbn [mbind result_bind]; [|done].
  destruct (for_workspace_names _ _) as [runtime|] eqn:Hn; cbn [ok_or mbind result_bind]; [|done]. cbv zeta.
  destruct (materialized _ _ _) as [injections|] eqn:Hi; cbn [mbind result_bind]; [|done].
  destruct (workspace_policy _ _ _ _ _ _ _ _ _ _ _ _) as [policy|] eqn:Hp; cbn [ok_or mbind result_bind]; [|done].
  intros [= <-]. exists runtime. split; [done|]. split; [|done].
  assert (∀ m, md_labels m = Some (all_workspace_labels b w) → belongs c m w) as Hl by apply labels_own.
  destruct (owned_injections w runtime Hn _ Hl _ _ Hi) as (H1' & H2' & H3' & H4').
  split; cbn [dr_service dr_internal_ssh_service dr_service_account dr_cluster_role_binding dr_network_policy dr_workspace_config dr_ssh_identity
    dr_web_shell_ingress dr_web_shell_envoy_filter dr_injections dr_stateful_set dr_scratch_claim]; try done.
  - by apply owned_service.
  - intros m. by apply owned_ssh_service.
  - intros m. by apply owned_account.
  - intros m. by apply owned_binding.
  - by eapply owned_policy.
  - by apply owned_config.
  - by apply owned_identity.
  - intros m. by apply owned_shell.
  - intros m. by apply owned_filter.
  - split_and!; [done|cbn; by rewrite (runtime_namespace w runtime Hn)|]. by apply labels_own.
  - intros claim. destruct (_ && _); [|done]. intros [= <-]. by apply scratch_carries.
Qed.

Lemma override_metadata t targets set set' : override_workload t targets set = Some set' → ss_metadata set' = ss_metadata set.
Proof.
  unfold override_workload. destruct (ss_spec set) as [spec|]; cbn; [|done]. destruct (pt_spec _) as [pod|]; cbn; [|done].
  destruct (override_first _ _); cbn; [|done]. by intros [= <-].
Qed.

Lemma desired_owned w p resolved injections ssh identity d :
  materialize_injections w resolved = Ok injections → materialize_ssh_identity w ssh = Ok identity → desired_with w p injections identity = Ok d →
  ∃ runtime d0, for_workspace_names (kc_installation_id c) (ws_short_id w) = Some runtime ∧ owned_resources w runtime d ∧
    build_with_placement w p = Ok d0 ∧ override_workload (ws_template w) (mi_environment_targets injections) (dr_stateful_set d0) = Some (dr_stateful_set d).
Proof.
  unfold materialize_injections, materialize_ssh_identity, builder_names, desired_with. intros Hi Hs.
  destruct (build_with_placement w p) as [d0|] eqn:Hb; cbn [mbind result_bind]; [|done].
  destruct (override_workload _ _ _) as [set|] eqn:Ho; cbn [ok_or mbind result_bind]; [|done]. intros [= <-].
  destruct (built_owned w p d0 Hb) as (runtime & Hn & Hown & _). rewrite Hn in Hi, Hs. cbn in Hi. cbn [ok_or mbind result_bind] in Hs. injection Hs as <-.
  assert (∀ m, md_labels m = Some (workspace_labels c w) → belongs c m w) as Hl by apply stable_labels_own.
  destruct (owned_injections w runtime Hn _ Hl _ _ Hi) as (H1' & H2' & H3' & H4').
  exists runtime, d0. split_and!; [done| |done|done]. destruct Hown.
  split; cbn [dr_service dr_internal_ssh_service dr_service_account dr_cluster_role_binding dr_network_policy dr_workspace_config dr_ssh_identity
    dr_web_shell_ingress dr_web_shell_envoy_filter dr_injections dr_stateful_set dr_scratch_claim]; try done.
  - by apply owned_identity.
  - by rewrite (override_metadata _ _ _ _ Ho).
Qed.

(** *** What is applied *)
Lemma planned_metadata w d runtime set : workload_of d runtime set → owned_resources w runtime d →
  carries w (Some ns) (stateful_set (resources_of runtime)) (ss_metadata set).
Proof.
  intros (workload & Hp & Hs) Hown. enough (carries w (Some ns) (stateful_set (resources_of runtime)) (ss_metadata workload)) as Hc by by destruct Hs.
  clear Hs. destruct Hp as [|compress set' Hg]; [by apply or_set|]. pose proof (or_set _ _ _ Hown) as (Hname & Hns & Hb).
  unfold add_gate in Hg. cbv zeta in Hg. destruct (ss_spec _) as [spec|]; [|done]. destruct (pt_spec _) as [pod|]; [|done].
  injection Hg as <-. by destruct compress.
Qed.

(** Where the workspace has objects, for another record of it. *)
Definition own_address (w : Workspace) (runtime : WorkspaceRuntimeNames) (kind : Kind) (namespace : option string) (name : string) : Prop :=
  (kind, namespace, name) = (KClusterRoleBinding, None, cluster_admin_binding_name (kc_installation_id c) runtime) ∨
  ((kind, namespace, name) = (KEnvoyFilter, Some (kc_higress_namespace c), web_shell_envoy_filter (resources_of runtime)) ∧ is_some (kc_ttyd_mtls c) = true) ∨
  (namespace = Some ns ∧ (kind, name) ∈ own_objects w (resources_of runtime)).

Ltac in_list := unfold own_objects, CONFIG_MAPS, SECRETS; cbn [app fmap list_fmap]; repeat first [apply list_elem_of_here|apply list_elem_of_further].
Lemma wanted_owned w w' d runtime kind namespace name object : owned_resources w runtime d → wanted c d runtime kind namespace name object →
  ∃ mf, object = mf_object mf ∧ owned_manifest w namespace name mf ∧ own_address w' runtime kind namespace name.
Proof.
  intros Hown. assert (∀ kind name mf, owned_manifest w (Some ns) name mf → (kind, name) ∈ own_objects w' (resources_of runtime) →
    ∃ mf0, mf_object mf = mf_object mf0 ∧ owned_manifest w (Some ns) name mf0 ∧ own_address w' runtime kind (Some ns) name) as Hin.
  { intros kind' name' mf Ho Hi. exists mf. split_and!; [done|done|]. right. by right. }
  destruct kind; cbn; try done.
  - intros (-> & m & Hm & [= -> ->]). exists m. split_and!; [done|by apply (or_binding _ _ _ Hown)|by left].
  - intros (-> & m & Hm & [= -> ->]). apply Hin; [by apply (or_shell _ _ _ Hown)|]. in_list.
  - intros (-> & [= -> ->]). apply Hin; [apply (or_policy _ _ _ Hown)|]. in_list.
  - intros (-> & [[= -> ->]|(ssh & Hssh & [= -> ->])]); (apply Hin; [|in_list]); [apply (or_service _ _ _ Hown)|by apply (or_ssh_service _ _ _ Hown)].
  - intros (-> & [Hm|(compress & files & Hf & [= -> ->])]); [|apply Hin; [by eapply (or_files _ _ _ Hown)|in_list]].
    apply elem_of_cons in Hm as [[= -> ->]|[= -> ->]%list_elem_of_singleton]; (apply Hin; [|in_list]); [apply (or_environment _ _ _ Hown)|apply (or_config _ _ _ Hown)].
  - intros (-> & Hm). apply elem_of_cons in Hm as [[= -> ->]|[[= -> ->]|[= -> ->]%list_elem_of_singleton]%elem_of_cons]; (apply Hin; [|in_list]);
      [apply (or_environment_secret _ _ _ Hown)|apply (or_files_secret _ _ _ Hown)|apply (or_identity _ _ _ Hown)].
  - intros (-> & m & Hm & [= -> ->]). apply Hin; [by apply (or_account _ _ _ Hown)|in_list].
  - intros (-> & m & Hm & [= -> ->]). destruct (or_filter _ _ _ Hown m Hm) as [Ho Hmtls]. exists m. split_and!; [done|done|]. right. by left.
Qed.

Lemma written_owned w w' d runtime past A (req : Kube A) kind namespace name : owned_resources w runtime d →
  writes (may_write c w d runtime) past A req → written req = Some (kind, namespace, name) → kind ≠ KNamespace →
  (kind = KClaim → ws_scratch_volume_binding w' = None) →
  ∃ m, written_metadata req m ∧ carries w namespace name m ∧ own_address w' runtime kind namespace name.
Proof.
  intros Hown Hmay Hw Hk Hclaim. destruct req; try done; cbn [written] in Hw; injection Hw as <- <- <-; specialize (Hmay eq_refl).
  - destruct Hmay as (-> & Hd & name & Hname & _). pose proof (or_scratch _ _ _ Hown _ Hd) as (Hname' & Hns & Hb). exists (cl_metadata claim).
    unfold name_any. rewrite Hname'. cbn. split_and!; [done|by split_and!|]. right. right. split; [done|].
    unfold own_objects. rewrite (Hclaim eq_refl). cbn [is_some]. rewrite !elem_of_app. do 4 right. by apply list_elem_of_singleton.
  - destruct Hmay as (-> & -> & _). pose proof (or_config _ _ _ Hown) as [_ (_ & Hns & Hb)]. eexists. split; [done|]. cbn. split; [by split_and!|].
    right. right. split; [done|]. in_list.
  - destruct Hmay as (-> & -> & _ & Hset & _). exists (ss_metadata set). split_and!; [done|by eapply planned_metadata|]. right. right. split; [done|]. in_list.
  - match type of Hmay with may_write _ _ _ _ _ _ (ApplyObject ?k ?n ?nm _ ?o) => assert (wanted c d runtime k n nm o) as Hwanted by by destruct k; try done; apply Hmay end.
    destruct (wanted_owned w w' d runtime _ _ _ _ Hown Hwanted) as (mf & -> & [Hm Hc] & Ha). by exists (mf_metadata mf).
Qed.

(** *** The routes *)
Lemma named_resources inst short_id runtime : for_workspace_names inst short_id = Some runtime → resources_of runtime = for_prefix ("w-" +:+ short_id).
Proof. unfold for_workspace_names. cbv zeta. destruct (_ && _); [|done]. by intros [= <-]. Qed.

(** Where a mapping has objects. *)
Definition mapping_address (kind : Kind) (namespace : option string) (m : ObjectMeta) : Prop :=
  is_Some (label m PORT_MAPPING_ID_LABEL) ∧
  (namespace = Some ns ∧ kind ∈ [KIngress; KNetworkPolicy; KService] ∨
   (kind = KEnvoyFilter ∧ namespace = Some (kc_higress_namespace c) ∧ http_proxy_enabled c = true)).

Lemma mapping_labels_own w (mapping : PortMapping) m : md_labels m = Some (mapping_labels (all_workspace_labels b w) mapping) →
  belongs c m w ∧ is_Some (label m PORT_MAPPING_ID_LABEL).
Proof.
  intros Hl. split; [|unfold label; rewrite Hl; cbn; unfold mapping_labels; rewrite lookup_insert_eq; by eexists].
  apply (label_insert_own w (new_meta "" "" (all_workspace_labels b w)) _ PORT_MAPPING_ID_LABEL (uuid_to_string (mp_id mapping)) (all_workspace_labels b w)); [done..|].
  by apply labels_own.
Qed.
Lemma mapping_manifest_owned w mapping api_version kind m members namespace name : "metadata" ∉ members.*1 →
  md_name m = Some name → md_namespace m = namespace → md_labels m = Some (mapping_labels (all_workspace_labels b w) mapping) →
  owned_manifest w namespace name (manifest api_version kind m members) ∧ is_Some (label m PORT_MAPPING_ID_LABEL).
Proof.
  intros Hm Hname Hns Hl. destruct (mapping_labels_own w mapping m Hl) as [Hb Hmap]. split; [|done]. split; [by apply manifest_metadata|by split_and!].
Qed.
Ltac solve_mapping := eapply mapping_manifest_owned; [other_member|done|first [done|by cbn; erewrite runtime_namespace]|done].

Lemma port_mapping_owned w mapping service ingress policy : port_mapping_objects w mapping = Ok (Some (service, ingress, policy)) →
  (owned_manifest w (Some ns) (mapping_name mapping) service ∧ is_Some (label (mf_metadata service) PORT_MAPPING_ID_LABEL)) ∧
  (owned_manifest w (Some ns) (mapping_name mapping) ingress ∧ is_Some (label (mf_metadata ingress) PORT_MAPPING_ID_LABEL)) ∧
  (owned_manifest w (Some ns) (policy_name_of (mapping_name mapping)) policy ∧ is_Some (label (mf_metadata policy) PORT_MAPPING_ID_LABEL)).
Proof.
  unfold port_mapping_objects, builder_names. destruct (kc_port_mapping_domain c) as [domain|]; [|done].
  destruct (ensure _ _); cbn [mbind result_bind]; [|done]. destruct (for_workspace_names _ _) as [runtime|] eqn:Hn; cbn [ok_or mbind result_bind]; [|done].
  cbv zeta. destruct (kc_ttyd_mtls c) as [mtls|]; intros [= <- <- <-]; (split; [|split]); solve_mapping.
Qed.
Lemma mapping_filter_owned w mapping filter : mapping_tls_filter w mapping = Ok (Some filter) →
  (owned_manifest w (Some (kc_higress_namespace c)) (name_any (mf_metadata filter)) filter ∧ is_Some (label (mf_metadata filter) PORT_MAPPING_ID_LABEL)) ∧
  http_proxy_enabled c = true.
Proof.
  unfold mapping_tls_filter, builder_names. destruct (kc_ttyd_mtls c) as [mtls|]; [|done]. destruct (http_proxy_enabled c); [|done].
  destruct (for_workspace_names _ _) as [runtime|]; cbn [ok_or mbind result_bind]; [|done]. intros [= <-]. split; [|done]. solve_mapping.
Qed.

Lemma route_owned w w' mappings past A (req : Kube A) kind namespace name : writes (may_route c w mappings) past A req →
  written req = Some (kind, namespace, name) →
  ∃ m, written_metadata req m ∧ carries w namespace name m ∧
    (mapping_address kind namespace m ∨
     ∃ runtime, for_workspace_names (kc_installation_id c) (ws_short_id w) = Some runtime ∧ own_address w' runtime kind namespace name).
Proof.
  intros Hmay Hw. destruct req; try done; specialize (Hmay eq_refl); try done; cbn [written] in Hw; injection Hw as -> -> ->.
  destruct Hmay as (_ & _ & [(-> & mapping & service & ingress & policy & [_ Hr] & _ & Hin)|[(-> & mapping & filter & _ & Hf & [= -> -> ->])|
    (-> & content & runtime & Hn & [= -> -> ->])]]).
  - destruct (port_mapping_owned _ _ _ _ _ Hr) as ([[Hs Hs'] Hsl] & [[Hi Hi'] Hil] & [[Hp Hp'] Hpl]).
    apply elem_of_cons in Hin as [[= -> -> ->]|[[= -> -> ->]|[= -> -> ->]%list_elem_of_singleton]%elem_of_cons];
      eexists; (split; [done|]); (split; [done|]); left; (split; [done|]); left; (split; [done|]); in_list.
  - destruct (mapping_filter_owned _ _ _ Hf) as [[[Hm Hc] Hl] Hproxy]. exists (mf_metadata filter). split; [done|]. split; [done|]. left. split; [done|]. by right.
  - exists (mf_metadata (proxy_config_map w content)). split; [by apply manifest_metadata; other_member|].
    unfold carries; cbn [proxy_config_map config_manifest manifest mf_metadata new_meta md_name md_namespace]. rewrite <-(named_resources _ _ _ Hn).
    split; [split_and!; [done..|by apply labels_own]|]. right. exists runtime. split; [done|]. right. right. split; [done|].
    in_list.
Qed.

(** *** After a deletion *)
Lemma own_address_gone w w' runtime past kind namespace name m : gone c w' runtime past → own_address w' runtime kind namespace name →
  seen_gone w past kind namespace name m.
Proof.
  intros (Hbinding & Hfilter & Hcleared) [[= -> -> ->]|[[[= -> -> ->] Hmtls]|[-> Hin]]]; [by left| |].
  - left. destruct Hfilter as [Hnone|[Ha _]]; [|done]. rewrite Hnone in Hmtls. done.
  - destruct Hcleared as [Habs|(Hall & _)]; [right; by right|left; by apply Hall].
Qed.
Lemma mapping_address_gone w w' runtime past kind namespace name m : ws_id w' = ws_id w → gone c w' runtime past → mapping_address kind namespace m →
  seen_gone w past kind namespace name m.
Proof.
  intros Hid (_ & Hfilter & Hcleared) [Hl [[-> Hk]|(-> & -> & Hproxy)]]; unfold seen_gone.
  all: assert (mapping_selector c w = mapping_selector c w') as -> by (unfold mapping_selector; by rewrite Hid).
  - destruct Hcleared as [Habs|(_ & _ & Hlist)]; right; [by right|left]. split; [done|by apply Hlist].
  - right. left. split; [done|]. unfold http_proxy_enabled in Hproxy. apply andb_true_iff in Hproxy as [Hm Hd].
    destruct Hfilter as [Hnone|[_ [Hnone|Hlist]]]; [by rewrite Hnone in Hm|by rewrite Hnone in Hd|done].
Qed.

Lemma event_permitted {P : list Event → ∀ A, Kube A → Prop} evs e : all_permitted P [] evs → e ∈ evs → ∃ past, P past _ (ev_request e).
Proof. intros Hall (before & after & ->)%list_elem_of_split. exists before. exact (Hall before e after eq_refl). Qed.

Lemma deletion_confirmed {K} `{KubeServer K} w runtime schedule (k : K) : for_workspace_names (kc_installation_id c) (ws_short_id w) = Some runtime →
  (run (delete_or_confirm c w schedule) k).1 = Ok Gone → gone c w runtime (events (delete_or_confirm c w schedule) k).
Proof. intros Hn Hr. destruct (cwp_run _ _ _ k (delete_or_confirm_wp c w runtime schedule Hn)) as [_ Hdone]. by apply (Hdone Gone). Qed.

(** A write, followed up. *)
Definition followed_up (w w' : Workspace) (past : list Event) (confirmed : Prop) (e : Event) : Prop :=
  ∀ kind namespace name, written (ev_request e) = Some (kind, namespace, name) → kind ≠ KNamespace → (kind = KClaim → ws_scratch_volume_binding w' = None) →
  ∃ m, written_metadata (ev_request e) m ∧ carries w namespace name m ∧ (confirmed → seen_gone w past kind namespace name m).

Section FollowUp.
Context (w w' : Workspace) (Hid : ws_id w' = ws_id w) (Hshort : ws_short_id w' = ws_short_id w) (schedule : list bool).
Abbreviation deletion := (delete_or_confirm c w' schedule).

Lemma resources_followed_up {K K'} `{!KubeServer K} `{!KubeServer K'} p resolved injections ssh identity schedules (k : K) (k' : K') :
  materialize_injections w resolved = Ok injections → materialize_ssh_identity w ssh = Ok identity →
  Forall (followed_up w w' (events deletion k') ((run deletion k').1 = Ok Gone)) (events (reconcile_with_injections w p injections identity schedules) k).
Proof using Hid Hshort.
  intros Hi Hs. unfold reconcile_with_injections. destruct (desired_with w p injections identity) as [d|] eqn:Hd; [|by constructor].
  destruct (desired_owned _ _ _ _ _ _ _ Hi Hs Hd) as (runtime & d0 & Hn & Hown & _).
  destruct (cwp_run _ _ _ k (apply_desired_wp c w d runtime Hn schedules)) as [Hall _]. apply Forall_forall. intros e He kind namespace name Hw Hk Hclaim.
  destruct (event_permitted _ _ Hall He) as [past Hmay]. destruct (written_owned _ w' _ _ _ _ _ _ _ _ Hown Hmay Hw Hk Hclaim) as (m & Hm & Hc & Ha).
  exists m. split_and!; [done..|]. intros Hgone. eapply own_address_gone; [|done]. apply deletion_confirmed; [by rewrite Hshort|done].
Qed.

Lemma routes_followed_up {K K'} `{!KubeServer K} `{!KubeServer K'} mappings schedules (k : K) (k' : K') :
  Forall (followed_up w w' (events deletion k') ((run deletion k').1 = Ok Gone)) (events (reconcile_routes w mappings schedules) k).
Proof using Hid Hshort.
  unfold reconcile_routes. destruct (cwp_run _ _ _ k (reconcile_port_mappings_wp c w mappings schedules)) as [Hall _].
  apply Forall_forall. intros e He kind namespace name Hw Hk Hclaim. destruct (event_permitted _ _ Hall He) as [past Hmay].
  destruct (route_owned _ w' _ _ _ _ _ _ _ Hmay Hw) as (m & Hm & Hc & Ha). exists m. split_and!; [done..|]. intros Hgone.
  destruct (for_workspace_names (kc_installation_id c) (ws_short_id w)) as [runtime|] eqn:Hn.
  - assert (gone c w' runtime (events deletion k')) as Hg by (apply deletion_confirmed; [by rewrite Hshort|done]).
    destruct Ha as [Ha|(runtime' & [= <-] & Ha)]; [by eapply mapping_address_gone|by eapply own_address_gone].
  - unfold delete_or_confirm, runtime_names in Hgone. rewrite Hshort, Hn in Hgone. done.
Qed.

Lemma objects_followed_up {K K'} `{!KubeServer K} `{!KubeServer K'} resolved ssh p mappings schedules schedules' (k : K) (k' : K') :
  Forall (followed_up w w' (events deletion k') ((run deletion k').1 = Ok Gone)) (events (apply_objects w resolved ssh p mappings schedules schedules') k).
Proof using Hid Hshort.
  unfold apply_objects. destruct (materialize_injections w resolved) as [injections|] eqn:Hi; [|by constructor].
  destruct (materialize_ssh_identity w ssh) as [identity|] eqn:Hs; [|by constructor].
  apply Forall_forall. intros e He.
  apply (events_then (reconcile_with_injections w p injections identity schedules)) in He as [He|([[]|err] & k1 & He)].
  - pose proof (resources_followed_up p resolved injections ssh identity schedules k k' Hi Hs) as Hall. rewrite Forall_forall in Hall. by apply Hall.
  - pose proof (routes_followed_up (if serves_routes w then mappings else []) schedules' k1 k') as Hall. rewrite Forall_forall in Hall. by apply Hall.
  - by apply not_elem_of_nil in He.
Qed.
End FollowUp.
(** ** The workload that is sent *)
Definition sent_workload (e : Event) : option StatefulSet := match ev_request e with ApplySet _ _ _ set => Some set | _ => None end.
Definition sent_policy (e : Event) : option Value := match ev_request e with ApplyObject KNetworkPolicy _ _ _ object => Some object | _ => None end.

(** Its Pods are the workspace's and selected by it, by nothing of another workspace and
    by the policy that is sent; they can be made, do what the template allows and no more,
    and the claims it makes can be deleted. *)
Definition sound_with (fits : list string → list (string * list (string * string)) → Prop) (w : Workspace) (targets : gset string) (policies : list Value)
    (set : StatefulSet) : Prop :=
  ∃ spec pod metadata selector labels,
    ss_spec set = Some spec ∧ pt_spec (ss_template spec) = Some pod ∧ pt_metadata (ss_template spec) = Some metadata ∧
    ss_match_labels spec = Some selector ∧ md_labels metadata = Some labels ∧ selector ⊆ labels ∧
    (∀ m labels', md_labels m = Some labels' → selector ⊆ labels' → belongs c m w) ∧
    (∀ object, object ∈ policies → ∃ policy, object = mf_object (policy_manifest policy) ∧ selector_matches (pol_pod_selector policy) labels = true) ∧
    fits (volume_names spec pod) (pod_mounts pod) ∧ confined pod ∧ environment_kept (ws_template w) targets pod ∧
    ps_automount_service_account_token pod = Some (cluster_access (ws_template w)) ∧ is_some (ps_service_account_name pod) = cluster_access (ws_template w) ∧
    ss_replicas spec = Some (replicas_of (ws_state w)) ∧
    (∀ claim, claim ∈ default [] (ss_claim_templates spec) → belongs c (cl_metadata claim) w).
Definition sound_workload (w : Workspace) : gset string → list Value → StatefulSet → Prop := sound_with (mountable (workspace_home (ws_template w))) w.

Lemma selected_own w m labels : md_labels m = Some labels → pod_labels (workspace_labels c w) ⊆ labels → belongs c m w.
Proof.
  intros Hm Hsub. unfold belongs, label. rewrite Hm. cbn. rewrite map_subseteq_spec in Hsub. unfold pod_labels, workspace_labels in Hsub.
  split; apply Hsub; by simplify_map_eq.
Qed.

(** *** With injections *)
Lemma override_pod t targets set : ∀ spec pod, ss_spec set = Some spec → pt_spec (ss_template spec) = Some pod →
  ∀ container rest, ps_containers pod = container :: rest → ct_name container = "workspace" →
  override_workload t targets set =
    Some (mkSet (ss_metadata set)
            (Some (set_pod_spec (set_containers (apply_injected_environment_overrides t container targets :: rest) pod) spec)) (ss_status set)).
Proof. intros spec pod Hs Hp container rest Hc Hname. unfold override_workload. rewrite Hs. cbn. rewrite Hp. cbn. by rewrite Hc; cbn; rewrite Hname. Qed.

Lemma overridden_environment t targets container : is_some (ct_env container) = true → ∀ v,
  v ∈ default [] (ct_env (apply_injected_environment_overrides t container targets)) ↔
  v ∈ default [] (ct_env container) ∧ (is_platform_environment t (en_name v) = true ∨ en_name v ∉ targets).
Proof.
  destruct container as [? ? ? ? [env|] ? ? ? ? ? ?]; [|done]. intros _ v. cbn. rewrite list_elem_of_In, filter_In, <-list_elem_of_In, orb_true_iff.
  by rewrite negb_true_iff, bool_decide_eq_false.
Qed.

(** *** From the workload to what is sent *)
Lemma sound_mono (P Q : list string → list (string * list (string * string)) → Prop) w targets policies set : (∀ vs ms, P vs ms → Q vs ms) →
  sound_with P w targets policies set → sound_with Q w targets policies set.
Proof.
  intros HPQ (spec & pod & metadata & selector & labels & H1' & H2' & H3' & H4' & H5' & H6' & H7' & H8' & Hfits & Hrest).
  exists spec, pod, metadata, selector, labels. split_and!; try done; [by apply HPQ|apply Hrest..].
Qed.
Lemma sound_annotated P w targets policies key value set : sound_with P w targets policies set → sound_with P w targets policies (annotate_set key value set).
Proof. done. Qed.
Lemma sound_gated w targets policies name set set' : sound_with (roomy (workspace_home (ws_template w))) w targets policies set → add_gate set name = Ok set' →
  sound_workload w targets policies set'.
Proof.
  intros (spec & pod & metadata & selector & labels & Hs & Hp & H3' & H4' & H5' & H6' & H7' & H8' & Hfits & Hconf & Henv & Hrest) Hg.
  unfold add_gate in Hg. cbv zeta in Hg. cbn [annotate_set ss_spec ss_metadata ss_status] in Hg. rewrite Hs, Hp in Hg. injection Hg as <-.
  exists (set_pod_spec (gate_pod name pod) spec), (gate_pod name pod), metadata, selector, labels.
  split; [done|]. split; [done|]. split; [done|]. split; [done|]. split; [done|]. split; [done|]. split; [done|]. split; [done|].
  split; [by apply roomy_gate|]. split; [by apply confined_gate|]. split; [by apply environment_gate|]. exact Hrest.
Qed.

Lemma preserved_claim claims claim : cl_metadata (preserve_class claims claim) = cl_metadata claim.
Proof. unfold preserve_class. by destruct (List.find _ _). Qed.
Lemma preserved_volumes spec pod f : (∀ claim, cl_metadata (f claim) = cl_metadata claim) →
  volume_names (mkSetSpec (ss_replicas spec) (ss_service_name spec) (ss_match_labels spec) (ss_retention spec) (ss_template spec) (map f <$> ss_claim_templates spec)) pod
  = volume_names spec pod.
Proof.
  intros Hf. unfold volume_names. cbn [ss_claim_templates]. f_equal. destruct (ss_claim_templates spec) as [claims|]; [|done]. cbn.
  induction claims as [|claim claims IH]; [done|]. cbn. rewrite Hf, IH. done.
Qed.
Lemma sound_preserved P w targets policies set existing : sound_with P w targets policies set →
  sound_with P w targets policies (preserve_claim_storage_classes set existing).
Proof.
  intros (spec & pod & metadata & selector & labels & Hs & Hp & H3' & H4' & H5' & H6' & H7' & H8' & Hfits & Hconf & Henv & Ht & Ha & Hr & Hc).
  unfold preserve_claim_storage_classes. rewrite Hs. cbn [fmap option_fmap option_map]. eexists _, pod, metadata, selector, labels.
  split; [done|]. split; [done|]. split; [done|]. split; [done|]. split; [done|]. split; [done|]. split; [done|]. split; [done|].
  split; [rewrite preserved_volumes; [done|intros; apply preserved_claim]|]. split_and!; try done. cbn [ss_claim_templates].
  destruct (ss_claim_templates spec) as [claims|]; [|done]. cbn. intros claim Hin. apply list_elem_of_In, in_map_iff in Hin as (claim' & <- & Hin).
  rewrite preserved_claim. by apply Hc, list_elem_of_In.
Qed.
Lemma sound_sent w targets policies d runtime set : sound_with (roomy (workspace_home (ws_template w))) w targets policies (dr_stateful_set d) →
  workload_of d runtime set → sound_workload w targets policies set.
Proof.
  intros Hd (workload & Hp & Hs). enough (sound_workload w targets policies workload) as Hw by (destruct Hs; [done|by apply sound_preserved]).
  destruct Hp as [|compress set' Hg]; [by eapply sound_mono; [|exact Hd]; intros vs ms [? _]|].
  eapply sound_gated; [|exact Hg]. by destruct compress.
Qed.

(** The workload that is built, with the environment of its injections. *)
Lemma built_sound w p runtime targets policies set : for_workspace_names (kc_installation_id c) (ws_short_id w) = Some runtime →
  (∀ object, object ∈ policies → ∃ policy, object = mf_object (policy_manifest policy) ∧
     pol_pod_selector policy = selecting (pod_labels (workspace_labels c w))) →
  override_workload (ws_template w) targets (workload b w runtime p (replicas_of (ws_state w))) = Some set →
  sound_with (roomy (workspace_home (ws_template w))) w targets policies set.
Proof.
  intros Hn Hpol Ho. erewrite override_pod in Ho by done. injection Ho as <-.
  eexists _, _, _, (pod_labels (workspace_labels c w)), (pod_labels (all_workspace_labels b w)).
  split; [done|]. split; [done|]. split; [done|]. split; [done|]. split; [done|]. split; [apply selector_selects|].
  split; [intros m labels'; apply selected_own|]. split.
  { intros object Hin. destruct (Hpol object Hin) as (policy & -> & Hsel). exists policy. split; [done|]. rewrite Hsel. apply selecting_matches, selector_selects. }
  split; [exact (workload_roomy b w runtime p (replicas_of (ws_state w)) _ (home_claim_template _ _ _ Hn) eq_refl)|].
  pose proof (pod_confined b w runtime p) as (Hc1 & Hc2 & Hc3 & Hc4 & Hc5).
  split. { split_and!; [done..|]. intros ct Hin. apply elem_of_app in Hin as [[->|Hin]%elem_of_cons|Hin];
    [apply (Hc5 (workspace_container (ws_template w) (image (ws_template w)) (workspace_resources (ws_template w)) (resources_of runtime))); by left|apply Hc5; by right; apply elem_of_app; left|apply Hc5; apply elem_of_app; by right]. }
  split. { eexists. split; [by left|]. split; [done|]. by apply overridden_environment. }
  split_and!; [done|by cbn; destruct (cluster_access _)|done|]. cbn. destruct (is_some (ws_home_volume_binding w)); cbn; [by intros claim []%not_elem_of_nil|].
  intros claim ->%list_elem_of_singleton.
  apply (label_insert_own w (new_meta "" "" (workspace_labels c w)) _ STORAGE_ROLE_LABEL "home" (workspace_labels c w)); [done..|]. by apply stable_labels_own.
Qed.

Lemma built_policy w p d : build_with_placement w p = Ok d →
  ∃ policy, dr_network_policy d = policy_manifest policy ∧ pol_pod_selector policy = selecting (pod_labels (workspace_labels c w)).
Proof.
  unfold build_with_placement, builder_names. destruct (validate_build w) as [[]|]; cbn [mbind result_bind]; [|done].
  destruct (for_workspace_names _ _) as [runtime|]; cbn [ok_or mbind result_bind]; [|done]. cbv zeta.
  destruct (materialized _ _ _) as [injections|]; cbn [mbind result_bind]; [|done].
  destruct (workspace_policy _ _ _ _ _ _ _ _ _ _ _ _) as [policy|] eqn:Hp; cbn [ok_or mbind result_bind]; [|done].
  intros [= <-]. exists policy. split; [done|]. unfold workspace_policy in Hp.
  destruct (bool_decide (egress_policy (ws_template w) = InternetOnly)); cbn in Hp; [destruct (rb_internet_egress b); [|done]; cbn in Hp|]; by injection Hp as <-.
Qed.

Lemma workloads_sound {K} `{!KubeServer K} w p injections identity schedules (k : K) :
  let sent := events (reconcile_with_injections w p injections identity schedules) k in
  Forall (sound_workload w (mi_environment_targets injections) (omap sent_policy sent)) (omap sent_workload sent).
Proof.
  unfold reconcile_with_injections. destruct (desired_with w p injections identity) as [d|] eqn:Hd; [|by constructor]. cbv zeta. set (sent := events _ k).
  unfold desired_with in Hd. destruct (build_with_placement w p) as [d0|] eqn:Hb; cbn [mbind result_bind] in Hd; [|done].
  destruct (override_workload _ _ _) as [set|] eqn:Ho; cbn [ok_or mbind result_bind] in Hd; [|done].
  assert (dr_stateful_set d = set ∧ dr_network_policy d = dr_network_policy d0) as [Hds Hdp] by by injection Hd as <-. clear Hd.
  destruct (built_owned w p d0 Hb) as (runtime & Hn & _ & Hset & _). rewrite Hset in Ho. destruct (built_policy w p d0 Hb) as (policy & Hpol & Hsel).
  assert (all_permitted (writes (may_write c w d runtime)) [] sent) as Hall by exact (proj1 (cwp_run _ _ _ k (apply_desired_wp c w d runtime Hn schedules))).
  apply Forall_forall. intros set' Hin. apply list_elem_of_omap in Hin as (e & He & Hsent).
  destruct (event_permitted _ _ Hall He) as [past Hmay]. unfold sent_workload in Hsent. destruct (ev_request e); try done. injection Hsent as ->.
  specialize (Hmay eq_refl). destruct Hmay as (_ & _ & _ & Hwork & _). eapply sound_sent; [rewrite Hds|exact Hwork].
  eapply built_sound; [exact Hn| |exact Ho]. intros object Hobj. apply list_elem_of_omap in Hobj as (e' & He' & Hp).
  destruct (event_permitted _ _ Hall He') as [past' Hmay']. unfold sent_policy in Hp. destruct (ev_request e'); try done. destruct kind; try done.
  injection Hp as ->. specialize (Hmay' eq_refl). destruct Hmay' as [(_ & [= _ ->]) _]. exists policy. by rewrite Hdp, Hpol.
Qed.
End Build.

(** C12: the objects of a workspace are its own from their creation to their removal. Whatever
    the clusters answer and however the requests of the branches alternate, everything
    that reconciling the workspace and its routes applies or creates, apart from the
    namespace, says in the metadata it is sent with where it is addressed to and that it
    belongs to the workspace, so that the ownership checks of a later run accept it. And
    a deletion that is confirmed later, of any record of the same workspace, has seen
    each of these objects to be absent, or has listed none of its kind with the labels
    of a mapping, which it has, or has seen its namespace to be absent; a scratch claim
    unless the record says it is kept. *)
Theorem nothing_is_left_behind {Network : Type} `{EqDecision Network} `{IpNets Network} `{UuidText} `{Base64Codec} `{JsonText}
    `{MaterializationErrorText} `{ManifestJson} `{BootstrapScript} `{OwnershipErrorText} `{RouteText} (b : ResourceBuilder Network)
    {K K'} `{!KubeServer K} `{!KubeServer K'} w w' resolved ssh p mappings schedules schedules' schedule (k : K) (k' : K') :
  ws_id w' = ws_id w → ws_short_id w' = ws_short_id w →
  let deletion := delete_or_confirm (rb_config b) w' schedule in
  Forall (followed_up b w w' (events deletion k') ((run deletion k').1 = Ok Gone)) (events (apply_objects b w resolved ssh p mappings schedules schedules') k).
Proof. intros Hid Hshort deletion. by apply objects_followed_up. Qed.

(** C13: what runs a workspace is fit to run and no more than that. Whatever the cluster answers,
    every workload that reconciling a workspace sends, with the gate and the storage classes
    it may get on the way, selects its own Pods and none of another workspace, and every
    network policy that is sent selects them too. The Pod can be made: volumes and containers
    have distinct names, every mount is of one of the volumes, the paths of a container are
    distinct if the home of the template is none of the platform's. It uses no namespace or
    path of the host and no privileged container, and has a token and an identity exactly if
    the template has access to the cluster. The environment is the platform's, and an
    injection takes the place of a variable only if the platform does not rely on it. The
    claims it makes belong to the workspace. *)
Theorem sent_workloads_are_sound {Network : Type} `{EqDecision Network} `{IpNets Network} `{UuidText} `{Base64Codec} `{JsonText}
    `{MaterializationErrorText} `{ManifestJson} `{BootstrapScript} `{OwnershipErrorText} (b : ResourceBuilder Network)
    {K} `{!KubeServer K} w p injections identity schedules (k : K) :
  let sent := events (reconcile_with_injections b w p injections identity schedules) k in
  Forall (sound_workload b w (mi_environment_targets injections) (omap sent_policy sent)) (omap sent_workload sent).
Proof. exact (workloads_sound b w p injections identity schedules k). Qed.

(** ** A workspace with everything *)
Module BuilderSample.
Import (hints) NetSample CryptoSample.
#[local] Existing Instances decimal_uuid_text AcceptingCluster.ownership_text CodedJson.text.
#[export] Instance bootstrap : BootstrapScript := "boot".
#[export] Instance manifests : ManifestJson := {|
  files_manifest _ := json_print (json_object [("files", Array [])]); environment_manifest _ := bytes "environment" |}.
#[export] Instance error_text : MaterializationErrorText := λ _, "materialization".
#[export] Instance route_text : RouteText := {| json_string s := s; sha256_hex s := s |}.
Definition mtls : TtydMtlsConfig := mkMtls "ttyd-tls" "ttyd-ca" "higress-system" "ttyd-client".
Definition builder : ResourceBuilder NetSample.Net := {|
  rb_config := mkCoordinator "inst" (λ _, None) "higress-system" (Some mtls) (Some "apps.example");
  rb_ttyd_image := "ttyd"; rb_buildkit_image := "buildkit"; rb_higress_pod_labels := {[ "app" := "higress" ]}; rb_higress_source_cidrs := [];
  rb_internet_egress := None; rb_jump_host_namespace := "jump"; rb_jump_host_pod_labels := {[ "app" := "jump" ]}; rb_storage_class_name := None;
  rb_scratch_storage_class_name := "csi"; rb_web_shell_domain := Some "shell.example"; rb_internal_ssh_node_port_enabled := true |}.
Definition template (home : string) : WorkspaceTemplateSpec := {|
  image := "registry.example/node:1"; access_mode := Internal; resources := mkResources 6000 4096 0 60; pod_requests := mkPodResourceRequest 6000 4096;
  cpu_overcommit_ratio := None; workspace_user := "workspace"; workspace_home := home; buildkit := true; storage_policy := mkStoragePolicy 10 false;
  cluster_access := true; egress_policy := Unrestricted; runtime_class_name := None; placement := mkPlacement ["default"] "default"; desktop := None |}.
Definition workspace_at (home : string) : Workspace :=
  mkWorkspace 4000000000000001 "4000000000000001" 2 3 "dev" (Some 4%N) "default" None None (template home) Provisioning 7 100 100.
Definition workspace : Workspace := workspace_at "/workspace".
Definition ssh : WorkspaceSshIdentity := mkSshIdentity (mkPublicIdentity "ssh-ed25519" "public" "fingerprint") "private".
Definition mapping : PortMapping := mkPortMapping 9 (ws_organization_id workspace) (ws_id workspace) 3000 None 3 0.
(** A cluster that accepts everything and has the Secrets of the gateway, and one where
    nothing is. *)
Definition accepting : KubeServer () := λ A req k,
  match req in Kube A return result KubeError A * () with
  | GetSecret _ _ => (Ok (mkSecret (new_meta "secret" "higress-system" ∅) (Some (list_to_map [("tls.crt", [1]); ("tls.key", [1]); ("cacert", [1])]))), k)
  | ListObjects _ _ _ => (Ok [], k)
  | req => AcceptingCluster.server _ req k
  end.
Definition empty : KubeServer () := λ A req k,
  match req in Kube A return result KubeError A * () with
  | ListObjects _ _ _ => (Ok [], k)
  | ListPods _ _ => (Ok [], k)
  | _ => (Err AcceptingCluster.missing, k)
  end.
Definition anywhere : ResolvedPlacement := mkResolvedPlacement [] [] [].
Definition injections : result string MaterializedInjections := materialize_injections builder workspace [].
Definition identity : result string Manifest := materialize_ssh_identity builder workspace ssh.
Definition nothing : Manifest := namespace_manifest builder.
Definition given_injections : MaterializedInjections :=
  match injections with Ok given => given | Err _ => mkMaterializedInjections (mkInjections nothing nothing nothing nothing (Err "")) ∅ end.
Definition given_identity : Manifest := match identity with Ok given => given | Err _ => nothing end.
Definition program : CM () := apply_objects builder workspace [] ssh anywhere [mapping] (λ _, [false; true]) (λ _, [false; true]).
Definition deletion : CM DeleteProgress := delete_or_confirm (rb_config builder) (set_state Deleting workspace) [].
Definition sent : list Event := @events _ accepting _ program tt.
End BuilderSample.

Section Witnesses.
Import BuilderSample.
Import (hints) BuilderSample NetSample CryptoSample.
#[local] Existing Instances decimal_uuid_text AcceptingCluster.ownership_text CodedJson.text.

(** Everything is created, and nothing of it is there after the deletion. *)
Lemma nothing_is_left_behind_witness :
  let gone := @events _ empty _ deletion tt in
  (@run _ accepting _ program tt).1 = Ok () ∧ length (omap (λ e, written (ev_request e)) sent) = 22%nat ∧
  (@run _ empty _ deletion tt).1 = Ok Gone ∧
  Forall (followed_up builder workspace (set_state Deleting workspace) gone ((@run _ empty _ deletion tt).1 = Ok Gone)) sent.
Proof.
  intros gone. split; [by vm_compute|]. split; [by vm_compute|]. split; [by vm_compute|].
  by apply (@nothing_is_left_behind _ _ _ _ _ _ _ _ _ _ _ builder _ _ accepting empty workspace (set_state Deleting workspace) [] ssh anywhere [mapping]
           (λ _, [false; true]) (λ _, [false; true]) [] tt tt).
Defined.

(** A workload is sent, for a policy that was. *)
Lemma sent_workloads_are_sound_witness :
  let sent := @events _ accepting _ (reconcile_with_injections builder workspace anywhere given_injections given_identity (λ _, [false; true])) tt in
  length (omap sent_workload sent) = 1%nat ∧ length (omap sent_policy sent) = 1%nat ∧
  Forall (sound_workload builder workspace ∅ (omap sent_policy sent)) (omap sent_workload sent).
Proof.
  intros own. split; [by vm_compute|]. split; [by vm_compute|].
  exact (sent_workloads_are_sound builder workspace anywhere given_injections given_identity (λ _, [false; true]) tt).
Defined.

(** A template may have its home where the platform mounts something: it is valid, but the
    server refuses two mounts of a container at one path. *)
Example home_may_collide :
  let w := workspace_at "/tmp" in
  spec_validate (ws_template w) = Ok () ∧ is_err (build_resources builder w) = false ∧
  ∃ ms, ("workspace", ms) ∈ pod_mounts (pod_spec builder w (mkRuntimeNames ns "w-1" "inst-1" (for_prefix "w-1")) anywhere) ∧ ¬ NoDup ms.*2.
Proof.
  split; [by vm_compute|]. split; [by vm_compute|]. eexists. split; [by left|]. intros Hd%(bool_decide_pack _). by vm_compute in Hd.
Qed.
End Witnesses.
